(* ===== verification/_CoqProject ===== *)
-Q . S2P
Prelude.v
PyFloat.v
PyDict.v
Grouping.v
PyValue.v
PyString.v
Protocol.v
TopoSort.v
RuntimeGraph.v
DslGraph.v
Capacity.v
JobBase.v
Cost.v
Clustering.v
Policies.v
PriorityQueue.v
PriorityQueueFacts.v
PriorityQueueProps.v
CohortPack.v
CohortPackProps.v
PolicyRegistry.v
WorkerProfile.v
Dedupe.v
DedupeProps.v
Schedule.v
Kahn.v
ParentGraph.v
HaloDp.v
HaloDpFacts.v
HaloDpProps.v
HaloCost.v
Halo.v
HaloProps.v
RequestState.v
Coalesce.v
CoalesceProps.v
Demux.v
DemuxProps.v
Results.v
ResultsProps.v
Scheduler.v
SchedulerProps.v
BatchRun.v
BatchRunProps.v
ShardData.v
ShardRewrite.v
ShardDataProps.v
ShardProps.v
ShardRewriteProps.v
ShardHint.v
Sensitive.v
SensitiveProps.v
FlowmeshClient.v
FlowmeshClientProps.v
PythonStep.v
PythonStepProps.v
FlowmeshSpec.v
FlowmeshSpecProps.v
FlowmeshOutputs.v
FlowmeshOutputsProps.v
FlowmeshTables.v
FlowmeshRun.v
FlowmeshRunProps.v
FlowmeshFailProps.v
YamlParser.v
YamlParserProps.v
YamlGraphProps.v
YamlErrorProps.v
GraphNodes.v
GraphBuilder.v
GraphNodesProps.v
GraphBuilderProps.v
DynamicSubgraph.v
DynamicSubgraphProps.v
DynamicForward.v
DynamicForwardProps.v
DynamicPlan.v
DynamicPlanProps.v
JobSlices.v
DynamicRun.v
