(* ===== verification/Prelude.v ===== *)
(** * Lumilake: a verification development of its scheduling core

    Lumilake (src/src/lumilake_server) is a server for AI workflows.  A client
    submits DSL graphs; the builder turns each into a runtime graph, the
    request is cut into slices, and every slice is queued as a workflow.  The
    scheduler loop takes batches of compatible workflows out of the job
    manager, claims workers for them, merges and deduplicates their graphs,
    asks an optimizer for a schedule, runs the batch on the FlowMesh service
    and merges the outputs of the slices back into the answers of the requests.
    This development models that path, from the queue to the answer.

    ** Parts and files

    Python itself.  [Prelude] (this file: outcomes of fallible code, lists,
    permutations, sorting, automation), [PyFloat] (binary64 floats),
    [PyDict] (insertion-ordered dicts), [Grouping] ([setdefault] grouping),
    [PyValue] (JSON-like values), [PyString] (string methods, memory
    quantities, utils/utils.py).

    The data model.  [Protocol] (runtime/protocol.py: priorities, hardware
    requirements, request configuration), [TopoSort] (utils/graph.py),
    [RuntimeGraph] (runtime/runtime_ops.py and the graph operations of
    runtime/runtime_graph.py), [DslGraph] (graphs/graph.py, ops/ops.py),
    [JobBase] (runtime/job_manager/base.py, and the interface
    [SchedulingPolicy] of the policies with its laws [PolicyLaws]).

    From ops to runtime nodes (the builder of runtime/runtime_graph.py).
    [GraphNodes] compiles the single ops: messages from the trace of the
    ancestors, inlined lambdas, retrievals, list lambdas, embeddings and images;
    [GraphBuilder] compiles LLM, API and vision ops and is [build] with its
    phases and checks.  [GraphNodesProps] shows what the nodes read,
    [GraphBuilderProps] that the graphs built are complete, that python steps
    read what they wait for, and that building ends.

    Selection.  [Capacity] (runtime/capacity.py,
    runtime/worker_capability.py), [Cost] (runtime/job_manager/cost.py,
    runtime/optimizer/multimodal_cost.py), [Clustering]
    (cluster_algo/clustering.py), [Policies] (default, fifo, spt, lpt, plas),
    [CohortPack] and [CohortPackProps] (cohort_pack), [PolicyRegistry] (the
    registry).  [PriorityQueue] is PriorityJobManager with one definition per
    method; [PriorityQueueFacts] and [PriorityQueueProps] hold its invariant and
    its properties, the dwell of unsatisfiable work included, for every policy
    that satisfies the laws.

    The scheduler (runtime/server.py).  [WorkerProfile] (reading raw profiles,
    hardware checks, previews), [Schedule] (validation of schedules, and the
    topological_sort optimizer), [RequestState] (per-request state and node
    accounting), [Results] and [ResultsProps] (merging outputs, answering),
    [Scheduler] and [SchedulerProps] (the scheduler loop interleaved with batch
    tasks and arriving requests as a step relation).

    The HALO optimizer (runtime/optimizer/halo.py, runtime/optimizer/schedule).
    [Kahn] is the one-node-at-a-time loop of its topological sorts,
    [HaloDp] the records of models.py and topo_utils.py and the
    dynamic-programming solver ([DPSolver], one definition per method),
    [HaloCost] the costs, query plans and tuned weights, [Halo] the reading of
    a runtime graph as an instance and of the solution as a schedule.
    [HaloDpFacts], [HaloDpProps] and [HaloProps] hold the properties.

    Running a batch (runtime/server.py, runtime/optimizer/base.py).  [Coalesce]
    groups the slices of a batch and merges their compiled graphs, [Dedupe] merges
    runtime nodes that compute the same thing, [Demux] splits the outputs of the
    groups back into slices, [BatchRun] is the batch task: dispatch rows, execution
    tracking, node counters, processing, accounting, isolated re-runs.  Each has a
    file of properties ([CoalesceProps], [DedupeProps], [DemuxProps],
    [BatchRunProps]).

    Submitting to FlowMesh (runtime/runtime_manager/flowmesh.py).  A node the
    schedule puts on several workers is split: [ShardData] is what happens to its
    data (sizes, index ranges, slices of static lists, references), [ShardRewrite]
    the plan of the shards, the rewritten nodes and merge nodes, the worker
    assignment and the schedule hint.  [ParentGraph] is Kahn's algorithm over
    declared parents, which its two sorts and topo_utils.py share.  Properties:
    [ShardDataProps] (pieces reassemble), [ShardProps] (the sorts, the plan and
    the worker assignment), [ShardRewriteProps] and [ShardHint] (the workflow as
    a whole).

    Running on FlowMesh (the same file).  [Sensitive] (runtime/sensitive.py) is
    the redaction of values and texts, [PythonStep] (runtime/python_step.py) the
    programs of python steps and their specs.  [FlowmeshClient] holds the calls
    of the service: retried reads, submission, task maps.  [FlowmeshSpec] is the
    task spec: nodes (runtime/runtime_ops.py), hardware, hint and credentials
    (runtime/flowmesh_client.py); [FlowmeshOutputs] reads the outputs of a task and
    archives artifacts; [FlowmeshTables] holds the tables of the manager with
    their getters, setters and progress; [FlowmeshRun] is process_request: submit,
    register, poll, archive, read, abort.  Properties: [SensitiveProps],
    [PythonStepProps], [FlowmeshClientProps], [FlowmeshSpecProps],
    [FlowmeshOutputsProps], [FlowmeshRunProps] (runs that return) and
    [FlowmeshFailProps] (what the steps of a run may change, runs that fail, and
    that runs end).  To say which calls failed, [FlowmeshFailProps.noting] wraps
    a service with a ledger of lost submissions and refused cancellations that
    the run cannot see.

    Reading workflows.  [YamlParser] is parser/yaml_parser.py with the ids of
    parser/common.py, one definition per op type, and Graph.from_json
    (graphs/graph.py) on its result: its lookups and the checks of the op
    constructors (ops/).  [YamlParserProps] shows what each op refers to,
    [YamlGraphProps] that parsed graphs load or fail in a constructor,
    [YamlErrorProps] which errors parsing can end with.

    Dynamic workflows (dynamic/driver.py, dynamic/blocks.py, routes/jobs.py).
    A planner emits the ops of each round.  [DynamicSubgraph] resolves them
    against a library of templates and admits them, [DynamicForward] binds
    references to earlier rounds to inputs, [DynamicPlan] reads plans and
    builds the graph of a round, [DynamicRun] is the loop of the rounds on the
    record of the job.  Properties: [DynamicSubgraphProps],
    [DynamicForwardProps], [DynamicPlanProps] and the end of [DynamicRun].

    Submitting (routes/jobs.py).  [JobSlices] cuts the inputs of a workflow into
    slices and parses a graph for each, with its properties.

    ** How state and effects are modelled

    A method that runs under the asyncio lock and awaits nothing is one atomic
    step on an explicit state.  A function that may raise returns a [result];
    one that leaves state behind when it raises returns that state with its
    outcome.  The scheduler loop is a step relation with a program counter
    ([Scheduler.phase]); other tasks step between any two of its steps.
    Reachability is the reflexive-transitive closure, and invariants are proved
    by induction on it.  A call of the FlowMesh service takes the state of the
    service and gives a reply or what the client raises, and the new state
    ([FlowmeshClient.call]); while a run awaits a call, other coroutines may change
    the tables of the manager, by any function that leaves the entries of the batch
    alone ([FlowmeshRunProps.keeps_batch]).  The loop of a dynamic workflow runs in the
    same monad on a world that holds its job record; at every await other
    coroutines may fail or cancel the job ([DynamicRun.Cooperates]), and what they
    did to it can be read from the shared state ([ended_by], for the statements
    only).  The world of a batch task keeps a log of the runs it starts and the
    workers it releases ([BatchRun.w_events]), so their order can be stated.
    Environment configuration is an argument.  Time and
    fresh identifiers are arguments of the steps that read them.

    ** What the theorems show

    Job manager: an invariant of every reachable state; reservations are
    partition-pure and duplicate-free; a commit removes exactly the batch; an
    abort removes nothing; users and partitions are served in turn; starved
    work goes first; work is failed only after the full dwell.  Policies: each
    one satisfies the interface's laws and the order it promises.  Capacity:
    selection and claim agree.  Graphs: an execution order exists exactly when
    there is no cycle; merging is a disjoint union; a graph the builder returns is
    well formed, has exactly the outputs asked for, and its python steps read the
    results they wait for.  Scheduler: no worker is
    claimed twice, no workflow dispatched twice, no reservation leaked; slices
    reassemble; requests are answered exactly when nothing is pending; nodes
    are conserved.  Optimizers: the schedules of topological_sort and of HALO pass
    the validation, run gated nodes on capable workers and respect dependencies;
    the DP solver places every node once and no earlier than its parents, and it
    ends by itself.
    Batches: slices are grouped once and merged inputs cover them; splitting
    undoes concatenation, so coalescing is transparent; deduplication keeps a
    graph well formed; every batch is accounted for whatever fails and gives its
    workers back once, after all its runs; a failed joint run leaves no trace and each request ends as its own
    re-run makes it; a shared execution is kept until its last member is released.
    FlowMesh: the pieces of a sharded node reassemble to its rows; shards are
    aligned with those of the dependencies; every rewritten node has one worker;
    the submitted workflow is closed under dependencies and scheduled.  A workflow
    is submitted once however answers are lost; tasks and nodes match one to one;
    a run that returns has seen every task finish, a run that fails leaves no
    workflow behind but those whose answer or cancellation the gateway lost, and
    runs end; responses and artifacts are archived once;
    regrouping undoes flattening, and the outputs of a lambda are what its function
    computed from the rows; no credential under a sensitive key survives redaction as
    a text, and credentials go only to the
    endpoints they are meant for.
    Parsing: a workflow whose ops declare what they refer to gives a graph with
    every op it refers to, and parsing ends with a graph or an error about the payload.
    Dynamic workflows: an admitted subgraph has new ids, no cycle and only
    references that can be answered; an op that names other ops declares exactly
    them; forwarded inputs carry one value per row;
    the graph of a round loads and archives what later rounds refer to; plans are
    read back from their wrappers; rounds only add the admitted ops; the job ends, and a job
    that others end, before the run or at any of its awaits, stays as they left it.  Slices partition the rows of a submission.
    Some theorems describe behaviour that departs from the intent of the code:
    a partition loses its turn, a batch waits for ever, outputs are lost on a
    placement failure, deduplication merges prompts that differ in a word
    they also use as a label, the responses of all members of a shared run but
    the last are not saved, and the check on list-mode lambdas is given no slices.

    ** Bounds and fuel

    [TopoSort.topological_sort] runs with one unit of fuel per node and one
    more, which [TopoSort.topo_loop_fuel] shows enough.  The round-robin pass of
    the queue, the clustering loop and the spread loop have their own measures;
    the lemma next to each shows that the fuel given is enough, and no theorem
    is conditional on it.  The DP solver recurses with one unit of fuel per
    node, one for the end and one for a relaxed search
    ([HaloDpProps.solver_terminates]); its queues have the fuel
    [Kahn.kahn_fuel] asks for.  The walk that inlines rows has the depth of its
    result as fuel ([ShardDataProps.inlining_terminates]); the walk over the
    ancestors of a node has one unit per edge ([ShardProps.ancestors_terminate]).
    The poll loop of a run has fuel; [FlowmeshFailProps.runs_end] shows that it ends
    when sleeping brings the timeout closer.  The YAML parser makes at most one
    pass per op ([YamlErrorProps.passes_reject]).  The walks over probed ops and implicit
    nodes of a dynamic subgraph have one unit per op, and running out is Python's
    RecursionError; the loop of a dynamic workflow runs on the rounds that are left.  Python integers are unbounded and are [Z] (or [nat]
    for lengths and indices that are never negative); floats are 53-bit.

    ** Parameters

    Code outside src/src is a parameter: the float power function (the C
    library's [pow]), [log2] and [float] of a string, pydantic's coercion and validation, SHA-256, blake2b, Python's
    [str] on JSON values, the check of a Lambda's source text, the order in which a
    set is iterated, [json.loads] and [json.dumps], [str.format_map], YAML
    dumping and loading, [urlsplit], [datetime.fromisoformat], the user function of a lambda, the
    FlowMesh service and its downloads, the worker profiles and worker lists of the FlowMesh
    service.  Callbacks the code itself takes as arguments (the hardware check
    [meets], the estimate of a policy) are arguments of the definitions.

    ** Not modelled

    Strings are byte strings in UTF-8 and the string methods act on ASCII
    letters.  Sets whose order cannot be observed are lists or [gset]s; where
    the order is observable the theorem holds for every order.  Logging,
    progress and time telemetry, the plan cache, the relocation of artifacts, memo tables of pure functions,
    the HTTP routes but for [JobSlices] and [DynamicRun], the n8n parser (an argument of
    [JobSlices]), the dispatch of a child job to the scheduler (an argument of
    [DynamicRun]), the source of the observation function of a dynamic workflow, the command line, the SDK, the deployment
    packages and the plugin hooks are outside the model, and so are failures of job
    storage.  Of the runtime-graph builder the data-profile override is left out,
    and the analysis of inlined source text is a parameter. *)

From stdpp Require Export base list gmap strings sorting.
From Stdlib Require Export Lia ZArith.

(** ** Outcomes of fallible code

    A Python function that may raise is modelled by a function into
    [result]: [Ok] carries the returned value, [Err] the exception. *)

Inductive exn :=
  | ValueError (msg : string)
  | KeyError (key : string)
  | RuntimeError (msg : string)
  | IndexError (msg : string)
  | TypeError (msg : string)
  | AttributeError (name : string)
  | ZeroDivisionError
  | OverflowError
  | RecursionError
  | ValidationError (msg : string)
  | DriverProtocolError (msg : string)
  | HTTPException (status_code : Z) (detail : string).

Inductive result (A : Type) :=
  | Ok (a : A)
  | Err (e : exn).
Arguments Ok {A} _.
Arguments Err {A} _.

#[export] Instance exn_eq_dec : EqDecision exn.
Proof. solve_decision. Defined.

#[export] Instance result_ret : MRet result := λ _ x, Ok x.
#[export] Instance result_bind : MBind result := λ _ _ f m,
  match m with Ok a => f a | Err e => Err e end.
#[export] Instance result_fmap : FMap result := λ _ _ f m,
  match m with Ok a => Ok (f a) | Err e => Err e end.

(** [ok_or e o]: the value of an option, or the exception [e]. *)
Definition ok_or {A} (e : exn) (o : option A) : result A :=
  match o with Some a => Ok a | None => Err e end.

(** Running a fallible step over a list, left to right, stopping at the
    first exception. *)
Fixpoint mapR {A B} (f : A → result B) (l : list A) : result (list B) :=
  match l with
  | [] => Ok []
  | x :: xs => y ← f x; ys ← mapR f xs; Ok (y :: ys)
  end.

Fixpoint foldR {A S} (f : S → A → result S) (s : S) (l : list A) : result S :=
  match l with
  | [] => Ok s
  | x :: xs => s' ← f s x; foldR f s' xs
  end.

(** A fallible pass over a list that threads a state and rebuilds the list. *)
Fixpoint mapAccumR {S A B} (f : S → A → result (S * B)) (s : S) (l : list A) : result (S * list B) :=
  match l with
  | [] => Ok (s, [])
  | x :: xs =>
      sy ← f s x;
      rest ← mapAccumR f sy.1 xs;
      Ok (rest.1, sy.2 :: rest.2)
  end.

Lemma foldR_cons {A S} (f : S → A → result S) s x l :
  foldR f s (x :: l) = match f s x with Ok s' => foldR f s' l | Err e => Err e end.
Proof. done. Qed.

Lemma foldR_app {A S} (f : S → A → result S) s l1 l2 :
  foldR f s (l1 ++ l2) = match foldR f s l1 with Ok s' => foldR f s' l2 | Err e => Err e end.
Proof.
  revert s. induction l1 as [|x l1 IH]; intros s; [done|].
  simpl app. rewrite !foldR_cons. by destruct (f s x).
Qed.

Lemma result_bind_ok {A B} (f : A → result B) (m : result A) b :
  (m ≫= f) = Ok b ↔ ∃ a, m = Ok a ∧ f a = Ok b.
Proof. destruct m; simpl; naive_solver. Qed.

Lemma ok_or_ok {A} e (o : option A) a : ok_or e o = Ok a ↔ o = Some a.
Proof. destruct o; naive_solver. Qed.

Lemma mapR_ok_inv {A B} (f : A → result B) l l' :
  mapR f l = Ok l' → Forall2 (λ x y, f x = Ok y) l l'.
Proof.
  revert l'. induction l as [|x l IH]; intros l' H; simpl in H.
  - injection H as <-. constructor.
  - apply result_bind_ok in H as (y & Hy & H).
    apply result_bind_ok in H as (ys & Hys & H). injection H as <-.
    constructor; auto.
Qed.

Lemma mapR_ok_total {A B} (f : A → result B) l :
  Forall (λ x, ∃ y, f x = Ok y) l → ∃ l', mapR f l = Ok l'.
Proof.
  induction 1 as [|x l [y Hy] _ [l' Hl']]; simpl; [by eexists|].
  exists (y :: l'). by rewrite Hy, Hl'.
Qed.

Lemma mapR_app {A B} (f : A → result B) l1 l2 : mapR f (l1 ++ l2) = (y1 ← mapR f l1; y2 ← mapR f l2; Ok (y1 ++ y2)).
Proof.
  induction l1 as [|x l1 IH]; simpl; [by destruct (mapR f l2)|]. destruct (f x); [|done]. simpl. rewrite IH.
  destruct (mapR f l1); [|done]. simpl. by destruct (mapR f l2).
Qed.

Lemma mapR_const {A B} (f : A → result B) y l : Forall (λ x, f x = Ok y) l → mapR f l = Ok (replicate (length l) y).
Proof. induction 1 as [|x l Hx _ IH]; [done|]. simpl. by rewrite Hx, IH. Qed.

Lemma mapAccumR_ok_inv {S A B} (f : S → A → result (S * B)) s l s' l' :
  mapAccumR f s l = Ok (s', l') → Forall2 (λ x y, ∃ s1 s2, f s1 x = Ok (s2, y)) l l'.
Proof.
  revert s l'. induction l as [|x l IH]; intros s l' H; simpl in H.
  - injection H as _ <-. constructor.
  - apply result_bind_ok in H as ([s1 y] & Hy & H).
    apply result_bind_ok in H as ([s2 ys] & Hys & H). injection H as <- <-.
    constructor; eauto.
Qed.

(** An invariant carried along [foldR]. *)
Lemma foldR_inv {A S} (f : S → A → result S) (P : S → Prop) s l s' :
  P s → (∀ s x s', x ∈ l → P s → f s x = Ok s' → P s') →
  foldR f s l = Ok s' → P s'.
Proof.
  revert s. induction l as [|x l IH]; intros s Hs Hf H; simpl in H.
  - by injection H as <-.
  - apply result_bind_ok in H as (s1 & H1 & H).
    apply (IH s1); [|set_solver|done].
    apply (Hf s x); [set_solver|done|done].
Qed.

(** A postcondition: [Q] of a value, [E] of an exception. *)
Definition post {A} (Q : A → Prop) (E : exn → Prop) (r : result A) : Prop :=
  match r with Ok a => Q a | Err e => E e end.

Lemma post_mono {A} (Q Q' : A → Prop) (E : exn → Prop) r : (∀ a, Q a → Q' a) → post Q E r → post Q' E r.
Proof. destruct r; simpl; auto. Qed.

Lemma post_bind {A B} (Q : A → Prop) (Q' : B → Prop) (E : exn → Prop) (f : A → result B) r :
  post Q E r → (∀ a, r = Ok a → Q a → post Q' E (f a)) → post Q' E (r ≫= f).
Proof. destruct r; simpl; auto. Qed.

Lemma post_ok_or {A} (Q : A → Prop) (E : exn → Prop) e (o : option A) :
  (∀ a, o = Some a → Q a) → E e → post Q E (ok_or e o).
Proof. destruct o; simpl; auto. Qed.

Lemma post_mapR {A B} (Q : B → Prop) (E : exn → Prop) (f : A → result B) l :
  (∀ x, x ∈ l → post Q E (f x)) → post (Forall Q) E (mapR f l).
Proof.
  induction l as [|x l IH]; intros Hf; simpl; [constructor|].
  apply (post_bind Q); [apply Hf; left|]. intros y _ Hy. apply (post_bind (Forall Q)).
  - apply IH. intros z Hz. apply Hf. by right.
  - intros ys _ Hys. by constructor.
Qed.

Lemma post_foldR {A S} (Q : S → Prop) (E : exn → Prop) (f : S → A → result S) s l :
  (∀ s x, x ∈ l → Q s → post Q E (f s x)) → Q s → post Q E (foldR f s l).
Proof.
  revert s. induction l as [|x l IH]; intros s Hf Hs; simpl; [done|].
  apply (post_bind Q); [apply Hf; [left|done]|]. intros s' _ Hs'. apply IH; [|done].
  intros s0 y Hy. apply Hf. by right.
Qed.

Lemma filter_everything {A} (Q : A → Prop) `{∀ x, Decision (Q x)} (l : list A) :
  (∀ x, x ∈ l → Q x) → filter Q l = l.
Proof.
  induction l as [|x l IH]; intros Hall; [done|]. rewrite filter_cons, decide_True by (apply Hall; left).
  f_equal. apply IH. intros y Hy. apply Hall. by right.
Qed.

(** ** Slices

    [l[:n]] with Python's treatment of a negative [n]. *)
Definition py_take {A} (n : Z) (l : list A) : list A :=
  if (n <? 0)%Z then take (Z.to_nat (Z.of_nat (length l) + n)) l else take (Z.to_nat n) l.

Lemma py_take_nonneg {A} n (l : list A) : (0 <= n)%Z → py_take n l = take (Z.to_nat n) l.
Proof. intros. unfold py_take. destruct (Z.ltb_spec n 0); [lia|done]. Qed.

Lemma length_py_take {A} n (l : list A) :
  (0 <= n <= Z.of_nat (length l))%Z → Z.of_nat (length (py_take n l)) = n.
Proof. intros. rewrite py_take_nonneg by lia. rewrite length_take. lia. Qed.

Lemma py_take_sublist {A} n (l : list A) : py_take n l `sublist_of` l.
Proof. unfold py_take. case_match; apply sublist_take. Qed.

(** [l[lo:hi]]: negative bounds count from the end, and both are clipped. *)
Definition slice_bound {A} (i : Z) (l : list A) : nat :=
  Z.to_nat (if (i <? 0)%Z then Z.of_nat (length l) + i else Z.min i (Z.of_nat (length l))).
Definition py_slice {A} (lo hi : Z) (l : list A) : list A :=
  take (slice_bound hi l - slice_bound lo l) (drop (slice_bound lo l) l).

Lemma py_slice_nat {A} (lo n : nat) (l : list A) :
  lo + n <= length l → py_slice (Z.of_nat lo) (Z.of_nat lo + Z.of_nat n)%Z l = take n (drop lo l).
Proof.
  intros Hl. unfold py_slice, slice_bound.
  destruct (Z.ltb_spec (Z.of_nat lo) 0); [lia|].
  destruct (Z.ltb_spec (Z.of_nat lo + Z.of_nat n) 0); [lia|].
  rewrite (Z.min_l (Z.of_nat lo)), Z.min_l, Nat2Z.id by lia. f_equal. lia.
Qed.

(** ** Tactics shared by the development *)

(** Inverts a chain of [result] binds that ended in [Ok]. *)
Ltac inv_ok :=
  repeat match goal with
  | H : Ok _ = Ok _ |- _ => injection H; clear H; intros; subst
  | H : Err _ = Ok _ |- _ => discriminate H
  | H : Ok _ = Err _ |- _ => discriminate H
  | H : (_ ≫= _) = Ok _ |- _ =>
      let a := fresh "a" in let Ha := fresh "Ha" in
      apply result_bind_ok in H as (a & Ha & H)
  | H : ok_or _ _ = Ok _ |- _ => apply ok_or_ok in H
  end.

(** Case analysis on every [decide]/[match] in the goal, then [simplify_eq]. *)
Ltac case_all := repeat (case_match || case_decide); simplify_eq/=.

Create HintDb lumi discriminated.

(** ** Stable sorting and minima, as Python's [sorted], [min] and [max]

    [sorted(l, key=key)] only uses [<] on the keys and is stable, so for a
    strict weak order it is determined; the insertion sort below is that
    function.  [lt_on P lt] says that [lt] is a strict weak order on the keys
    that satisfy [P] (for floats: the keys that are not NaN). *)

Class StrictWeakOn {K} (P : K → Prop) (lt : K → K → bool) := {
  sw_irrefl x : P x → lt x x = false;
  sw_trans x y z : P x → P y → P z → lt x y = true → lt y z = true → lt x z = true;
  sw_split x y z : P x → P y → P z → lt x z = true → lt x y = true ∨ lt y z = true;
}.

Section sort.
Context {A K : Type} (lt : K → K → bool) (key : A → K).

Fixpoint sort_insert (x : A) (l : list A) : list A :=
match l with
| [] => [x]
| y :: ys => if lt (key y) (key x) then y :: sort_insert x ys else x :: l
end.

Definition sorted_by (l : list A) : list A := foldr sort_insert [] l.

(** [min(l, key=key)] keeps the first of the minimal elements. *)
Fixpoint min_by (best : A) (l : list A) : A :=
match l with
| [] => best
| y :: ys => min_by (if lt (key y) (key best) then y else best) ys
end.

(** [max(l, key=key)] keeps the first of the maximal elements. *)
Fixpoint max_by (best : A) (l : list A) : A :=
match l with
| [] => best
| y :: ys => max_by (if lt (key best) (key y) then y else best) ys
end.

Lemma sort_insert_perm x l : sort_insert x l ≡ₚ x :: l.
Proof.
induction l as [|y l IH]; simpl; [done|].
destruct (lt _ _); [rewrite IH; constructor|done].
Qed.

Lemma sorted_by_perm l : sorted_by l ≡ₚ l.
Proof.
induction l as [|x l IH]; simpl; [done|].
by rewrite sort_insert_perm, IH.
Qed.

Lemma elem_of_sorted_by x l : x ∈ sorted_by l ↔ x ∈ l.
Proof. by rewrite sorted_by_perm. Qed.

Lemma length_sorted_by l : length (sorted_by l) = length l.
Proof. by rewrite sorted_by_perm. Qed.

Lemma min_by_in b l : min_by b l ∈ b :: l.
Proof.
revert b. induction l as [|y l IH]; intros b; simpl; [set_solver|].
specialize (IH (if lt (key y) (key b) then y else b)).
case_match; set_solver.
Qed.

Lemma max_by_in b l : max_by b l ∈ b :: l.
Proof.
revert b. induction l as [|y l IH]; intros b; simpl; [set_solver|].
specialize (IH (if lt (key b) (key y) then y else b)).
case_match; set_solver.
Qed.

Context (P : K → Prop) `{!StrictWeakOn P lt}.

Lemma sort_insert_sorted x l :
P (key x) → Forall (λ y, P (key y)) l →
StronglySorted (λ a b, lt (key b) (key a) = false) l →
StronglySorted (λ a b, lt (key b) (key a) = false) (sort_insert x l).
Proof.
intros Hx HP Hl. induction Hl as [|y l Hl IH Hy]; simpl; [repeat constructor|].
inversion_clear HP as [|?? HPy HPl].
destruct (lt (key y) (key x)) eqn:E.
- constructor; [auto|]. rewrite sort_insert_perm. constructor; [|done].
  destruct (lt (key x) (key y)) eqn:E'; [|done].
  rewrite <-(sw_irrefl (key x)), (sw_trans (key x) (key y) (key x)) by auto. done.
- constructor; [by constructor|]. constructor; [done|].
  rewrite Forall_forall in Hy, HPl |- *. intros z Hz.
  destruct (lt (key z) (key x)) eqn:E'; [|done].
  destruct (sw_split (key z) (key y) (key x)) as [H|H]; auto.
  + by rewrite Hy in H.
  + congruence.
Qed.

(** Sortedness: no later element has a smaller key than an earlier one. *)
Lemma sorted_by_sorted l :
Forall (λ y, P (key y)) l →
StronglySorted (λ a b, lt (key b) (key a) = false) (sorted_by l).
Proof.
induction 1 as [|x l Hx Hl IH]; simpl; [constructor|].
apply sort_insert_sorted; [done| |done].
by rewrite sorted_by_perm.
Qed.

(** The minimum is a lower bound. *)
Lemma min_by_le b l y :
Forall (λ y, P (key y)) (b :: l) → y ∈ b :: l →
lt (key y) (key (min_by b l)) = false.
Proof.
revert b y. induction l as [|z l IH]; intros b y HP Hy; simpl.
- assert (y = b) as -> by set_solver. apply sw_irrefl. by inversion HP.
- inversion_clear HP as [|?? Hb HP']. inversion_clear HP' as [|?? Hz HPl].
  assert (HP2 : Forall (λ y, P (key y)) ((if lt (key z) (key b) then z else b) :: l)).
  { case_match; by constructor. }
  assert (Hyz : y ∈ l ∨ y = z ∨ y = b) by set_solver.
  destruct Hyz as [Hin|Hyz]; [apply IH; [done|set_solver]|].
  pose proof (IH _ _ HP2 (list_elem_of_here _ _)) as Hle.
  set (m := min_by _ l) in *.
  assert (Pm : P (key m)).
  { pose proof (min_by_in (if lt (key z) (key b) then z else b) l) as Hm.
    by eapply Forall_forall in Hm; [|exact HP2]. }
  destruct (lt (key z) (key b)) eqn:E; destruct Hyz as [-> | ->]; try done.
  + destruct (lt (key b) (key m)) eqn:E'; [|done].
    by rewrite (sw_trans (key z) (key b) (key m)) in Hle.
  + destruct (lt (key z) (key m)) eqn:E'; [|done].
    destruct (sw_split (key z) (key b) (key m)) as [H|H]; auto; congruence.
Qed.
End sort.

(** Lexicographic comparison of Python pairs: compare the second components
    only when the first ones are equal (Python's [==]). *)
Definition lex_lt {A B} (eqA ltA : A → A → bool) (ltB : B → B → bool)
    (x y : A * B) : bool :=
  if eqA x.1 y.1 then ltB x.2 y.2 else ltA x.1 y.1.

(** Lexicographic comparison of Python tuples or lists of one type. *)
Fixpoint list_lt {A} (eqA ltA : A → A → bool) (x y : list A) : bool :=
  match x, y with
  | _, [] => false
  | [], _ :: _ => true
  | a :: x', b :: y' => if eqA a b then list_lt eqA ltA x' y' else ltA a b
  end.

Section strict_weak.
Context {K} (P : K → Prop) (lt : K → K → bool) `{!StrictWeakOn P lt}.

Lemma sw_asym x y : P x → P y → lt x y = true → lt y x = false.
Proof.
intros Hx Hy H. destruct (lt y x) eqn:E; [|done].
pose proof (sw_irrefl x Hx). pose proof (sw_trans x y x Hx Hy Hx H E). congruence.
Qed.

(** "Not smaller than" is transitive. *)
Lemma sw_ge_trans x y z :
P x → P y → P z → lt x y = false → lt y z = false → lt x z = false.
Proof.
intros Hx Hy Hz H1 H2. destruct (lt x z) eqn:E; [|done].
destruct (sw_split x y z) as [E'|E']; auto; congruence.
Qed.

Lemma sw_lt_le x y z :
P x → P y → P z → lt x y = true → lt z y = false → lt x z = true.
Proof.
intros Hx Hy Hz H1 H2. destruct (sw_split x z y) as [E'|E']; auto; congruence.
Qed.

Lemma sw_le_lt x y z :
P x → P y → P z → lt y x = false → lt y z = true → lt x z = true.
Proof.
intros Hx Hy Hz H1 H2. destruct (sw_split y x z) as [E'|E']; auto; congruence.
Qed.
End strict_weak.

(** A pair order is strict weak when equality is exactly "neither is smaller". *)
Section lex.
Context {A B} (PA : A → Prop) (PB : B → Prop).
Context (eqA ltA : A → A → bool) (ltB : B → B → bool).
Context (Heq : ∀ x y, PA x → PA y → eqA x y = negb (ltA x y || ltA y x)).
Context `{!StrictWeakOn PA ltA, !StrictWeakOn PB ltB}.

Lemma lex_lt_true x y :
PA x.1 → PA y.1 →
lex_lt eqA ltA ltB x y = true ↔
  ltA x.1 y.1 = true ∨ ltA x.1 y.1 = false ∧ ltA y.1 x.1 = false ∧ ltB x.2 y.2 = true.
Proof using Heq.
intros Hx Hy. unfold lex_lt. rewrite Heq by done.
destruct (ltA x.1 y.1) eqn:E1, (ltA y.1 x.1) eqn:E2; simpl; naive_solver.
Qed.

Lemma lex_strict_weak :
StrictWeakOn (λ x, PA x.1 ∧ PB x.2) (lex_lt eqA ltA ltB).
Proof using All.
split.
- intros x [Ha Hb]. apply not_true_is_false. rewrite lex_lt_true by done.
  rewrite (sw_irrefl x.1), (sw_irrefl x.2) by done. naive_solver.
- intros x y z [Ax Bx] [Ay By] [Az Bz]. rewrite !lex_lt_true by done.
  intros [H1|(H1&H1'&H1'')] [H2|(H2&H2'&H2'')].
  + left. by apply (sw_trans x.1 y.1 z.1).
  + left. by apply (sw_lt_le PA ltA x.1 y.1 z.1).
  + left. by apply (sw_le_lt PA ltA x.1 y.1 z.1).
  + right. split; [|split]; [by apply (sw_ge_trans PA ltA x.1 y.1 z.1)
                            |by apply (sw_ge_trans PA ltA z.1 y.1 x.1)
                            |by apply (sw_trans x.2 y.2 z.2)].
- intros x y z [Ax Bx] [Ay By] [Az Bz]. rewrite !lex_lt_true by done.
  destruct (ltA x.1 y.1) eqn:E1; [by left; left|].
  destruct (ltA y.1 z.1) eqn:E2; [by right; left|].
  intros [H|(H1&H2&H3)].
  { by rewrite (sw_ge_trans PA ltA x.1 y.1 z.1) in H. }
  rewrite (sw_ge_trans PA ltA y.1 z.1 x.1), (sw_ge_trans PA ltA z.1 x.1 y.1) by done.
  destruct (sw_split x.2 y.2 z.2); naive_solver.
Qed.
End lex.

(** ** Strings

    A Python [str] is the list of its UTF-8 bytes; the byte order on UTF-8
    is the code-point order Python compares by. *)

Definition str_ltb (a b : string) : bool := String.ltb a b.

Lemma str_ltb_spec a b : str_ltb a b = true ↔ String.le a b ∧ a ≠ b.
Proof.
  unfold str_ltb, String.le, String.ltb, String.leb.
  destruct (String.compare a b) eqn:E.
  - apply String.compare_eq_iff in E. naive_solver.
  - split; [|done]. intros _. split; [done|]. intros ->.
    pose proof (String.compare_antisym b b) as H. rewrite E in H. discriminate H.
  - naive_solver.
Qed.

Lemma str_ltb_false a b : str_ltb a b = false → String.le b a.
Proof.
  intros H. destruct (decide (a = b)) as [->|Hne]; [done|].
  destruct (total String.le a b) as [L|L]; [|done].
  by rewrite (proj2 (str_ltb_spec a b)) in H.
Qed.

Lemma str_ltb_total a b : str_ltb a b = false → str_ltb b a = false → a = b.
Proof.
  intros H1%str_ltb_false H2%str_ltb_false. by apply (anti_symm String.le).
Qed.

#[export] Instance str_strict_weak : StrictWeakOn (λ _ : string, True) str_ltb.
Proof.
  split.
  - intros x _. apply not_true_is_false. rewrite str_ltb_spec. naive_solver.
  - intros x y z _ _ _ [H1 N1]%str_ltb_spec [H2 N2]%str_ltb_spec.
    apply str_ltb_spec. split; [by etrans|]. intros ->. by apply N1, (anti_symm String.le).
  - intros x y z _ _ _ [H N]%str_ltb_spec.
    destruct (str_ltb x y) eqn:E1; [by left|].
    destruct (str_ltb y z) eqn:E2; [by right|]. exfalso.
    apply str_ltb_false in E1, E2. apply N, (anti_symm String.le); [done|by etrans].
Qed.

Lemma str_eq_incomparable a b :
  bool_decide (a = b) = negb (str_ltb a b || str_ltb b a).
Proof.
  case_bool_decide as E.
  - subst. by rewrite (sw_irrefl (P := λ _, True) (lt := str_ltb) b I).
  - destruct (str_ltb a b) eqn:E1; [done|]. destruct (str_ltb b a) eqn:E2; [done|].
    by destruct E; apply str_ltb_total.
Qed.

Lemma string_eqb_incomparable x y : String.eqb x y = negb (str_ltb x y || str_ltb y x).
Proof. rewrite <-str_eq_incomparable. destruct (String.eqb_spec x y); case_bool_decide; done. Qed.

#[export] Instance z_strict_weak : StrictWeakOn (λ _ : Z, True) Z.ltb.
Proof. split; intros; lia. Qed.
