(* ===== verification/PyFloat.v ===== *)
(** * Python floats

    A Python [float] is an IEEE-754 binary64 number: the development uses the
    executable specification of the format in [SpecFloat] with 53 bits of
    precision, rounding to nearest even.  This file fixes the operations the
    source uses ([+ - * /], comparisons, [float(int)], [int / int], [max],
    [min], [math.ceil], [round(x, 9)]) and proves that [<] is a strict weak
    order on the floats that are not NaN, with [==] its equivalence. *)

From S2P Require Import Prelude.
From Stdlib Require Import SpecFloat.

Abbreviation f64 := spec_float.

#[export] Instance f64_eq_dec : EqDecision f64.
Proof. solve_decision. Defined.

Definition fadd (x y : f64) : f64 := SFadd 53 1024 x y.
Definition fsub (x y : f64) : f64 := SFsub 53 1024 x y.
Definition fmul (x y : f64) : f64 := SFmul 53 1024 x y.
Definition fdiv (x y : f64) : f64 := SFdiv 53 1024 x y.
(** [math.sqrt], which is correctly rounded. *)
Definition fsqrt (x : f64) : f64 := SFsqrt 53 1024 x.
Definition fopp (x : f64) : f64 := SFopp x.

(** Python's [<], [<=] and [==] on floats. *)
Definition fltb (x y : f64) : bool := SFltb x y.
Definition fleb (x y : f64) : bool := SFleb x y.
Definition feqb (x y : f64) : bool := SFeqb x y.

Definition finf : f64 := S754_infinity false.
Definition fzero : f64 := S754_zero false.
Definition is_nan (x : f64) : bool := match x with S754_nan => true | _ => false end.

(** [float(z)] for an integer, and [a / b] for two integers: Python rounds
    the exact quotient once, whatever the size of the operands ([b] is not
    zero where the source divides). *)
Definition of_Z (z : Z) : f64 := binary_normalize 53 1024 z 0 false.

Definition exact_Z (z : Z) : f64 :=
  match z with
  | Z0 => S754_zero false
  | Zpos p => S754_finite false p 0
  | Zneg p => S754_finite true p 0
  end.

Definition int_truediv (a b : Z) : f64 := SFdiv 53 1024 (exact_Z a) (exact_Z b).

(** [sum(l)] of floats: Python compensates the rounding errors (Neumaier) and
    starts from the integer 0. *)
Definition sum_step (st : f64 * f64) (x : f64) : f64 * f64 :=
  let '(total, c) := st in
  let t := fadd total x in
  (t, fadd c (if fleb (SFabs x) (SFabs total) then fadd (fsub total t) x else fadd (fsub x t) total)).

Definition py_sum (l : list f64) : f64 :=
  match l with
  | [] => fzero
  | x :: l' =>
      let '(total, c) := foldl sum_step (fadd fzero x, fzero) l' in
      match c with S754_finite _ _ _ => fadd total c | _ => total end
  end.

(** [max(x, y)] and [min(x, y)]: the first argument unless the second one is
    strictly better. *)
Definition fmax2 (x y : f64) : f64 := if fltb x y then y else x.
Definition fmin2 (x y : f64) : f64 := if fltb y x then y else x.

(** Division by zero raises in Python. *)
Definition py_div (x y : f64) : result f64 :=
  if feqb y fzero then Err ZeroDivisionError else Ok (fdiv x y).
Definition py_int_div (a b : Z) : result f64 :=
  if (b =? 0)%Z then Err ZeroDivisionError else Ok (int_truediv a b).

Definition is_finite (x : f64) : bool :=
  match x with S754_zero _ | S754_finite _ _ _ => true | _ => false end.

(** The exact value of a finite float as a fraction [num / den]. *)
Definition to_frac (x : f64) : option (Z * Z) :=
  match x with
  | S754_zero _ => Some (0, 1)%Z
  | S754_finite s m e =>
      let z := if s then Zneg m else Zpos m in
      Some (if (0 <=? e)%Z then (z * 2 ^ e, 1)%Z else (z, 2 ^ (- e))%Z)
  | _ => None
  end.

(** [math.ceil(x)]; Python raises on NaN and the infinities. *)
Definition fceil (x : f64) : result Z :=
  match to_frac x with
  | Some (n, d) => Ok (- ((- n) / d))%Z
  | None => Err (ValueError "cannot convert float NaN or infinity to integer")
  end.

(** [round(x, 9)]: the exact value is rounded half-even to nine decimals and
    the decimal is read back as the nearest float. *)
Definition half_even (n d : Z) : Z :=
  let q := (n / d)%Z in
  let r := (n mod d)%Z in
  match (2 * r ?= d)%Z with
  | Lt => q
  | Gt => (q + 1)%Z
  | Eq => if Z.even q then q else (q + 1)%Z
  end.

Definition fround9 (x : f64) : f64 :=
  match to_frac x with
  | Some (n, d) => int_truediv (half_even (n * 10 ^ 9) d) (10 ^ 9)
  | None => x
  end.

(** ** The order *)

(** A key that embeds the comparison of floats into a lexicographic
    comparison of integers. *)
Definition fkey (x : f64) : Z * Z * Z :=
  match x with
  | S754_nan => (0, 0, 0)
  | S754_zero _ => (0, 0, 0)
  | S754_infinity true => (-2, 0, 0)
  | S754_infinity false => (2, 0, 0)
  | S754_finite true m e => (-1, - e, Zneg m)
  | S754_finite false m e => (1, e, Zpos m)
  end%Z.

Definition klt (a b : Z * Z * Z) : Prop :=
  let '(a1, a2, a3) := a in let '(b1, b2, b3) := b in
  (a1 < b1 ∨ a1 = b1 ∧ (a2 < b2 ∨ a2 = b2 ∧ a3 < b3))%Z.

Definition not_nan (x : f64) : Prop := is_nan x = false.

Lemma fltb_spec x y : not_nan x → not_nan y → fltb x y = true ↔ klt (fkey x) (fkey y).
Proof.
  unfold not_nan, fltb, SFltb, SFcompare, klt, fkey.
  destruct x as [sx|[]| |[] mx ex], y as [sy|[]| |[] my ey]; simpl; try done;
    intros _ _; try (split; [done|lia]); try (split; [lia|done]).
  - destruct (Z.compare_spec ex ey); [|split; [done|lia]|split; [lia|done]].
    fold (Pos.compare mx my). destruct (Pos.compare_spec mx my); simpl;
      (split; [first [done|lia]|first [done|lia]]).
  - destruct (Z.compare_spec ex ey); [|split; [lia|done]|split; [done|lia]].
    fold (Pos.compare mx my). destruct (Pos.compare_spec mx my); simpl;
      (split; [first [done|lia]|first [done|lia]]).
Qed.

Lemma feqb_spec x y : not_nan x → not_nan y → feqb x y = true ↔ fkey x = fkey y.
Proof.
  unfold not_nan, feqb, SFeqb, SFcompare, fkey.
  destruct x as [sx|[]| |[] mx ex], y as [sy|[]| |[] my ey]; simpl; try done;
    intros _ _.
  - destruct (Z.compare_spec ex ey); [|split; [done|intros [=]; lia]..].
    fold (Pos.compare mx my). destruct (Pos.compare_spec mx my); simpl;
      [naive_solver|split; [done|intros [=]; lia]..].
  - destruct (Z.compare_spec ex ey); [|split; [done|intros [=]; lia]..].
    fold (Pos.compare mx my). destruct (Pos.compare_spec mx my); simpl;
      [naive_solver|split; [done|intros [=]; lia]..].
Qed.

Lemma klt_dec a b : klt a b ∨ ¬ klt a b.
Proof. destruct a as [[]], b as [[]]. unfold klt. lia. Qed.

Lemma fltb_false x y : not_nan x → not_nan y → fltb x y = false ↔ ¬ klt (fkey x) (fkey y).
Proof. intros Hx Hy. rewrite <-fltb_spec by done. by rewrite not_true_iff_false. Qed.

#[export] Instance fltb_strict_weak : StrictWeakOn not_nan fltb.
Proof.
  split.
  - intros x Hx. rewrite fltb_false by done.
    unfold klt. destruct (fkey x) as [[]]. lia.
  - intros x y z Hx Hy Hz. rewrite !fltb_spec by done.
    unfold klt. destruct (fkey x) as [[]], (fkey y) as [[]], (fkey z) as [[]]. lia.
  - intros x y z Hx Hy Hz. rewrite !fltb_spec by done.
    unfold klt. destruct (fkey x) as [[]], (fkey y) as [[]], (fkey z) as [[]]. lia.
Qed.

(** On floats that are not NaN, [==] is "neither is smaller". *)
Lemma feqb_incomparable x y :
  not_nan x → not_nan y → feqb x y = negb (fltb x y || fltb y x).
Proof.
  intros Hx Hy.
  assert (fkey x = fkey y ∨ klt (fkey x) (fkey y) ∨ klt (fkey y) (fkey x)) as [H|[H|H]].
  { unfold klt. destruct (fkey x) as [[]], (fkey y) as [[]].
    destruct (Z.lt_trichotomy z z2) as [|[->|]]; [lia| |lia].
    destruct (Z.lt_trichotomy z0 z3) as [|[->|]]; [lia| |lia].
    destruct (Z.lt_trichotomy z1 z4) as [|[->|]]; [lia| |lia]. by left. }
  - rewrite (proj2 (feqb_spec x y Hx Hy) H).
    assert (¬ klt (fkey x) (fkey y)) as E by (rewrite H; unfold klt; destruct (fkey y) as [[]]; lia).
    rewrite (proj2 (fltb_false x y Hx Hy) E).
    rewrite H in E. rewrite <-H in E at 2. by rewrite (proj2 (fltb_false y x Hy Hx) E).
  - rewrite (proj2 (fltb_spec x y Hx Hy) H). simpl.
    apply not_true_is_false. rewrite feqb_spec by done. intros E. rewrite E in H.
    unfold klt in H. destruct (fkey y) as [[]]. lia.
  - rewrite (proj2 (fltb_spec y x Hy Hx) H), orb_true_r. simpl.
    apply not_true_is_false. rewrite feqb_spec by done. intros E. rewrite E in H.
    unfold klt in H. destruct (fkey y) as [[]]. lia.
Qed.

(** A float that some float is strictly below is not NaN. *)
Lemma fltb_not_nan x y : fltb x y = true → not_nan x ∧ not_nan y.
Proof. by destruct x as [|[]| |[]], y as [|[]| |[]]. Qed.

#[export] Hint Resolve fltb_strict_weak feqb_incomparable : lumi.

(** Sanity of the executable operations on familiar literals. *)
Example fadd_tenths : fadd (int_truediv 1 10) (int_truediv 2 10) = int_truediv 30000000000000004 100000000000000000.
Proof. vm_compute. reflexivity. Qed.
Example fround9_third : fround9 (int_truediv 1 3) = int_truediv 333333333 1000000000.
Proof. vm_compute. reflexivity. Qed.
Example fceil_half : fceil (int_truediv 7 2) = Ok 4%Z.
Proof. reflexivity. Qed.
