(* ===== verification/PyDict.v ===== *)
(** * Python dicts

    A Python [dict] keeps its keys in insertion order and the source iterates
    over dicts wherever it builds lists out of them, so a dict is an
    association list: assigning to a present key keeps its position,
    assigning to a new key appends it, deleting removes it.  A dict built by
    these operations has no repeated key ([dict_wf]). *)

From S2P Require Import Prelude.

Abbreviation dict K V := (list (K * V)).

Section dict.
Context {K : Type} `{EqDecision K}.

Fixpoint dget {V} (k : K) (d : dict K V) : option V :=
match d with
| [] => None
| (k', v) :: d' => if decide (k = k') then Some v else dget k d'
end.

(** [k in d] *)
Definition dmem {V} (k : K) (d : dict K V) : bool :=
match dget k d with Some _ => true | None => false end.

(** [d[k] = v] *)
Fixpoint dset {V} (k : K) (v : V) (d : dict K V) : dict K V :=
match d with
| [] => [(k, v)]
| (k', v') :: d' => if decide (k = k') then (k', v) :: d' else (k', v') :: dset k v d'
end.

(** [d.pop(k, None)], [del d[k]] *)
Fixpoint ddel {V} (k : K) (d : dict K V) : dict K V :=
match d with
| [] => []
| (k', v') :: d' => if decide (k = k') then ddel k d' else (k', v') :: ddel k d'
end.

(** [d.get(k, default)] *)
Definition dget_or {V} (default : V) (k : K) (d : dict K V) : V :=
match dget k d with Some v => v | None => default end.

(** [d[k]], which raises on a missing key. *)
Definition dindex {V} (e : exn) (k : K) (d : dict K V) : result V := ok_or e (dget k d).

(** [d.setdefault(k, v)] (the updated dict). *)
Definition dsetdefault {V} (k : K) (v : V) (d : dict K V) : dict K V :=
if dmem k d then d else d ++ [(k, v)].

Definition dkeys {V} (d : dict K V) : list K := d.*1.
Definition dvals {V} (d : dict K V) : list V := d.*2.

(** [{k: v for k, v in l}], [dict(l)]: later pairs overwrite earlier ones. *)
Definition dict_of {V} (l : list (K * V)) : dict K V :=
foldl (λ d kv, dset kv.1 kv.2 d) [] l.

(** [d1.update(d2)] *)
Definition dupdate {V} (d1 d2 : dict K V) : dict K V :=
foldl (λ d kv, dset kv.1 kv.2 d) d1 d2.

Definition dict_wf {V} (d : dict K V) : Prop := NoDup (dkeys d).

Context {V : Type}.
Implicit Types (d : dict K V) (k : K) (v : V).

Lemma dmem_true k d : dmem k d = true ↔ k ∈ dkeys d.
Proof.
unfold dmem, dkeys. induction d as [|[k' v'] d IH]; simpl; [set_solver|].
case_decide; [set_solver|]. rewrite IH. set_solver.
Qed.

Lemma dmem_false k d : dmem k d = false ↔ k ∉ dkeys d.
Proof. rewrite <-dmem_true. by destruct (dmem k d). Qed.

Lemma dget_None k d : dget k d = None ↔ k ∉ dkeys d.
Proof. rewrite <-dmem_false. unfold dmem. by destruct (dget k d). Qed.

Lemma dget_is_Some k d : is_Some (dget k d) ↔ k ∈ dkeys d.
Proof. rewrite <-dmem_true. unfold dmem. destruct (dget k d); naive_solver. Qed.

Lemma dget_elem k v d : dget k d = Some v → (k, v) ∈ d.
Proof.
induction d as [|[k' v'] d IH]; simpl; [done|].
case_decide; intros; simplify_eq; set_solver.
Qed.

Lemma elem_dget k v d : dict_wf d → (k, v) ∈ d → dget k d = Some v.
Proof.
unfold dict_wf, dkeys.
induction d as [|[k' v'] d IH]; simpl; [set_solver|].
rewrite NoDup_cons. intros [Hn Hd] [Heq|Hin]%elem_of_cons; simplify_eq.
- by rewrite decide_True.
- case_decide; [|auto]. subst. destruct Hn.
  apply list_elem_of_fmap. by exists (k', v).
Qed.

Lemma dget_dset_eq k v d : dget k (dset k v d) = Some v.
Proof.
induction d as [|[k' v'] d IH]; simpl; [by rewrite decide_True|].
case_decide; simpl; [by rewrite decide_True|by rewrite decide_False].
Qed.

Lemma dget_dset_ne k k' v d : k ≠ k' → dget k (dset k' v d) = dget k d.
Proof.
intros Hk. induction d as [|[k1 v1] d IH]; simpl; [by rewrite decide_False|].
case_decide; simpl; subst; [by rewrite !decide_False|].
case_decide; [done|apply IH].
Qed.

Lemma dkeys_dset k v d :
dkeys (dset k v d) = if decide (k ∈ dkeys d) then dkeys d else dkeys d ++ [k].
Proof.
unfold dkeys. induction d as [|[k' v'] d IH]; [done|]. csimpl.
destruct (decide (k = k')) as [->|Hne]; csimpl.
- by rewrite decide_True by set_solver.
- rewrite IH. repeat case_decide; set_solver.
Qed.

Lemma dict_wf_dset k v d : dict_wf d → dict_wf (dset k v d).
Proof.
unfold dict_wf. rewrite dkeys_dset. case_decide; [done|].
intros. apply NoDup_app. split; [done|]. split; [set_solver|]. apply NoDup_singleton.
Qed.

Lemma elem_of_dkeys_dset k k' v d : k ∈ dkeys (dset k' v d) ↔ k = k' ∨ k ∈ dkeys d.
Proof. rewrite dkeys_dset. case_decide; set_solver. Qed.

Lemma dset_new k v d : k ∉ dkeys d → dset k v d = d ++ [(k, v)].
Proof.
unfold dkeys. induction d as [|[k' v'] d IH]; simpl; [done|].
intros Hk. rewrite decide_False by set_solver. rewrite IH; set_solver.
Qed.

Lemma elem_of_dset k' v' k v d :
(k', v') ∈ dset k v d → k' = k ∧ v' = v ∨ (k', v') ∈ d.
Proof.
induction d as [|[k1 v1] d IH]; simpl; [set_solver|].
case_decide; set_solver.
Qed.

Lemma ddel_filter k d : ddel k d = filter (λ kv, kv.1 ≠ k) d.
Proof.
induction d as [|[k' v'] d IH]; simpl; [done|].
destruct (decide (k = k')) as [->|Hne].
- rewrite filter_cons_False by naive_solver. done.
- rewrite filter_cons_True by done. by rewrite IH.
Qed.

Lemma elem_of_ddel k k' v d : (k', v) ∈ ddel k d ↔ k' ≠ k ∧ (k', v) ∈ d.
Proof. rewrite ddel_filter. by rewrite list_elem_of_filter. Qed.

Lemma dkeys_ddel k d : dkeys (ddel k d) = filter (.≠ k) (dkeys d).
Proof.
unfold dkeys. induction d as [|[k' v'] d IH]; [done|]. csimpl.
destruct (decide (k = k')) as [->|Hne].
- rewrite filter_cons_False by naive_solver. done.
- rewrite filter_cons_True by done. csimpl. by rewrite IH.
Qed.

Lemma dget_app k d1 d2 :
dget k (d1 ++ d2) = match dget k d1 with Some v => Some v | None => dget k d2 end.
Proof.
induction d1 as [|[k' v'] d IH]; simpl; [done|]. by case_decide.
Qed.

Lemma dget_filter_key (P : K → Prop) `{∀ k, Decision (P k)} k d :
dget k (filter (λ kv, P kv.1) d) = if decide (P k) then dget k d else None.
Proof.
induction d as [|[k' v'] d IH]; simpl; [by case_decide|].
destruct (decide (P k')) as [Hk'|Hk'].
- rewrite filter_cons_True by done. simpl. rewrite IH. repeat case_decide; subst; done.
- rewrite filter_cons_False by done. rewrite IH. repeat case_decide; subst; done.
Qed.

Lemma dict_wf_filter_key (P : K * V → Prop) `{∀ kv, Decision (P kv)} d :
dict_wf d → dict_wf (filter P d).
Proof. intros Hd. eapply sublist_NoDup; [exact Hd|]. apply fmap_sublist, sublist_filter. Qed.

Lemma dict_wf_setdefault k v d : dict_wf d → dict_wf (dsetdefault k v d).
Proof.
unfold dsetdefault, dict_wf, dkeys. intros Hd. destruct (dmem k d) eqn:E; [done|].
apply dmem_false in E. rewrite fmap_app. apply NoDup_app. split; [done|]. split; [|apply NoDup_singleton].
intros x Hx ->%list_elem_of_singleton. done.
Qed.

Lemma dget_setdefault k k' v d :
dget k (dsetdefault k' v d) =
  if decide (k = k') then Some (dget_or v k d) else dget k d.
Proof.
unfold dsetdefault, dget_or. case_decide as Hk.
- subst k'. unfold dmem. destruct (dget k d) eqn:E; [done|].
  rewrite dget_app, E. simpl. by rewrite decide_True.
- destruct (dmem k' d); [done|]. rewrite dget_app. destruct (dget k d); [done|].
  simpl. by rewrite decide_False.
Qed.

Lemma dict_wf_ddel k d : dict_wf d → dict_wf (ddel k d).
Proof. unfold dict_wf. rewrite dkeys_ddel. apply NoDup_filter. Qed.

Lemma dget_ddel_eq k d : dget k (ddel k d) = None.
Proof. apply dget_None. rewrite dkeys_ddel. rewrite list_elem_of_filter. naive_solver. Qed.

Lemma dget_ddel_ne k k' d : k ≠ k' → dget k (ddel k' d) = dget k d.
Proof.
intros Hk. induction d as [|[k1 v1] d IH]; simpl; [done|].
case_decide; subst; [by rewrite decide_False|].
simpl. by rewrite IH.
Qed.

Lemma dict_wf_of (l : list (K * V)) : dict_wf (dict_of l).
Proof.
unfold dict_of. assert (dict_wf ([] : dict K V)) as H by constructor.
revert H. generalize ([] : dict K V).
induction l as [|[k v] l IH]; intros d H; simpl; [done|].
apply IH. by apply dict_wf_dset.
Qed.

Lemma dict_of_nodup (l : list (K * V)) : NoDup l.*1 → dict_of l = l.
Proof.
unfold dict_of. rewrite <-(app_nil_l l) at 1 3. generalize ([] : dict K V) as d.
induction l as [|[k v] l IH]; intros d H; simpl; [by rewrite app_nil_r|].
rewrite fmap_app in H. simpl in H.
rewrite dset_new.
- rewrite IH; [by rewrite <-app_assoc|].
  rewrite !fmap_app. simpl. by rewrite <-app_assoc.
- apply NoDup_app in H as (_ & H & _). intros Hk. by apply (H k Hk), list_elem_of_here.
Qed.

Lemma dset_same k v d : dget k d = Some v → dset k v d = d.
Proof.
induction d as [|[k' v'] d IH]; simpl; [done|].
case_decide; intros; simplify_eq; [done|]. f_equal. auto.
Qed.

Lemma dget_dset k k' v d :
dget k (dset k' v d) = if decide (k = k') then Some v else dget k d.
Proof. case_decide; subst; [apply dget_dset_eq|by apply dget_dset_ne]. Qed.

(** [d1.update(d2)]: the entries of [d2] win. *)
Lemma dget_dupdate k d1 d2 : dict_wf d2 →
dget k (dupdate d1 d2) = match dget k d2 with Some v => Some v | None => dget k d1 end.
Proof.
unfold dupdate. revert d1. induction d2 as [|[k' v] d2 IH]; intros d1 Hw; [done|].
apply NoDup_cons in Hw as [Hk Hw]. simpl. rewrite IH, dget_dset by done.
destruct (decide (k = k')) as [->|]; [|done]. by rewrite (proj2 (dget_None k' d2)).
Qed.

Lemma elem_of_dict_of k v (l : list (K * V)) : (k, v) ∈ dict_of l → (k, v) ∈ l.
Proof.
unfold dict_of. induction l as [|[k' v'] l IH] using rev_ind; [done|].
rewrite foldl_app. simpl. intros [[-> ->]|Hin]%elem_of_dset; rewrite elem_of_app; [right; left|].
left. by apply IH.
Qed.

Lemma elem_of_dkeys_dict_of k (l : list (K * V)) : k ∈ dkeys (dict_of l) ↔ k ∈ l.*1.
Proof.
unfold dict_of. induction l as [|[k' v'] l IH] using rev_ind; [done|].
rewrite foldl_app, fmap_app, elem_of_app, <-IH. simpl. rewrite elem_of_dkeys_dset. set_solver.
Qed.

Lemma dget_dict_of_map (f : K → V) k (l : list K) :
k ∈ l → dget k (dict_of ((λ k, (k, f k)) <$> l)) = Some (f k).
Proof.
unfold dict_of. induction l as [|x l IH] using rev_ind; [by intros ?%elem_of_nil|].
rewrite fmap_app, foldl_app. simpl. intros Hk.
destruct (decide (k = x)) as [->|]; [apply dget_dset_eq|].
rewrite dget_dset_ne by done. apply IH. set_solver.
Qed.

Lemma dget_or_dset def k k' v d :
dget_or def k (dset k' v d) = if decide (k = k') then v else dget_or def k d.
Proof. unfold dget_or. rewrite dget_dset. by case_decide. Qed.
End dict.

#[export] Hint Resolve dict_wf_dset dict_wf_ddel dict_wf_of : lumi.
#[export] Hint Rewrite @dget_dset_eq @dget_ddel_eq : lumi.
