(* ===== verification/Grouping.v ===== *)
(** * Grouping with dicts

    Two idioms the source uses all over: [d.setdefault(key(x), []).append(x)]
    over a list ([group_by]), and the nested table
    [d.setdefault(slot, {})[c] = v] ([dset_in]).  Both lose nothing: the
    groups, concatenated, are a permutation of what was grouped. *)

From S2P Require Import Prelude PyDict.

(** ** Lists per key *)

Section group_by.
Context {K A : Type} `{EqDecision K} (key : A → K).
Implicit Types (d : dict K (list A)).

Definition group_add d (x : A) : dict K (list A) := dset (key x) (dget_or [] (key x) d ++ [x]) d.
Definition group_by (l : list A) : dict K (list A) := foldl group_add [] l.

Lemma dset_app_perm k xs d :
concat (dvals (dset k (dget_or [] k d ++ xs) d)) ≡ₚ xs ++ concat (dvals d).
Proof.
unfold dget_or, dvals. induction d as [|[k' ys] d IH]; simpl; [done|].
case_decide; csimpl.
- by rewrite <-app_assoc, Permutation_app_swap_app.
- rewrite IH. by rewrite Permutation_app_swap_app.
Qed.

Lemma group_by_snoc l x : group_by (l ++ [x]) = group_add (group_by l) x.
Proof. unfold group_by. by rewrite foldl_snoc. Qed.

Lemma group_by_concat l : concat (dvals (group_by l)) ≡ₚ l.
Proof.
induction l as [|x l IH] using rev_ind; [done|].
rewrite group_by_snoc. unfold group_add. rewrite dset_app_perm, IH. apply Permutation_app_comm.
Qed.

Lemma group_by_wf l : dict_wf (group_by l).
Proof.
induction l as [|x l IH] using rev_ind; [constructor|].
rewrite group_by_snoc. by apply dict_wf_dset.
Qed.

Lemma group_by_get l k : dget_or [] k (group_by l) = filter (λ x, key x = k) l.
Proof.
induction l as [|x l IH] using rev_ind; [done|].
rewrite group_by_snoc, filter_app. unfold group_add. rewrite dget_or_dset.
destruct (decide (k = key x)) as [->|Hne].
- by rewrite IH, filter_cons_True.
- rewrite IH, filter_cons_False by congruence. by rewrite app_nil_r.
Qed.

Lemma group_by_keys l k : k ∈ dkeys (group_by l) ↔ ∃ x, x ∈ l ∧ key x = k.
Proof.
induction l as [|x l IH] using rev_ind; [set_solver|].
rewrite group_by_snoc. unfold group_add. rewrite elem_of_dkeys_dset, IH. set_solver.
Qed.

Lemma group_by_entry l k xs :
(k, xs) ∈ group_by l → xs = filter (λ x, key x = k) l ∧ xs ≠ [].
Proof.
intros Hin. assert (E : xs = filter (λ x, key x = k) l).
{ rewrite <-group_by_get. unfold dget_or. by rewrite (elem_dget k xs) by (done || apply group_by_wf). }
split; [done|]. assert (Hk : k ∈ dkeys (group_by l)) by (apply list_elem_of_fmap; by exists (k, xs)).
apply group_by_keys in Hk as (x & Hx & Hkx). intros ->.
assert (Hf : x ∈ filter (λ x, key x = k) l) by (apply list_elem_of_filter; done).
rewrite <-E in Hf. set_solver.
Qed.
End group_by.

(** Reading the groups of distinct keys takes each item at most once. *)
Lemma bind_groups_submseteq {K A} `{EqDecision K} (d : dict K (list A)) ks :
  dict_wf d → NoDup ks → (ks ≫= λ k, dget_or [] k d) ⊆+ concat (dvals d).
Proof.
  unfold dict_wf, dkeys, dvals, dget_or. revert ks.
  induction d as [|[k l] d IH]; intros ks Hw Hnd; csimpl in *.
  { clear Hnd. induction ks as [|k ks IH]; csimpl; [done|exact IH]. }
  apply NoDup_cons in Hw as [Hk Hw].
  assert (Hdrop : ∀ ks', k ∉ ks' → (ks' ≫= λ k0, match (if decide (k0 = k) then Some l else dget k0 d) with
      Some v => v | None => [] end) = (ks' ≫= λ k0, match dget k0 d with Some v => v | None => [] end)).
  { intros ks' Hk'. induction ks' as [|x ks' IHk]; csimpl; [done|].
    rewrite decide_False by set_solver. f_equal. apply IHk. set_solver. }
  destruct (decide (k ∈ ks)) as [Hin|Hnin].
  - apply list_elem_of_split in Hin as (k1 & k2 & ->).
    apply NoDup_app in Hnd as (N1 & Hd1 & [Hk2 N2]%NoDup_cons).
    assert (k ∉ k1) by (intros Hk1; apply (Hd1 k Hk1); set_solver).
    rewrite bind_app. csimpl. rewrite decide_True by done. rewrite !Hdrop by done.
    rewrite Permutation_app_swap_app. apply submseteq_app; [done|].
    rewrite <-bind_app. apply IH; [done|]. apply NoDup_app. split; [done|]. split; [|done].
    intros x Hx. specialize (Hd1 x Hx). set_solver.
  - rewrite Hdrop by done. etrans; [by apply IH|]. apply submseteq_inserts_l. done.
Qed.

(** ** Nested tables *)

Section nested.
Context {S C V : Type} `{EqDecision S, EqDecision C}.
Implicit Types (d : dict S (dict C V)).

(** [d.setdefault(slot, {})[c] = v] *)
Definition dset_in (slot : S) (c : C) (v : V) d : dict S (dict C V) :=
dset slot (dset c v (dget_or [] slot d)) d.

Lemma dget_dset_in (P P' : S) (o o' : C) (v : V) d :
dget o' (dget_or [] P' (dset_in P o v d)) =
if decide (P' = P ∧ o' = o) then Some v else dget o' (dget_or [] P' d).
Proof.
unfold dset_in. rewrite dget_or_dset. case_decide as D.
- subst P'. rewrite dget_dset. repeat case_decide; naive_solver.
- rewrite decide_False by naive_solver. done.
Qed.

(** All the values of a nested table. *)
Definition nested_vals d : list V := concat (dvals <$> dvals d).

Lemma dset_in_vals slot c v d : c ∉ dkeys (dget_or [] slot d) →
nested_vals (dset_in slot c v d) ≡ₚ v :: nested_vals d.
Proof.
unfold nested_vals, dset_in. intros Hc. rewrite (dset_new c v) by done. clear Hc.
unfold dget_or, dvals. induction d as [|[s inner] d IH]; csimpl; [done|].
case_decide; csimpl.
- rewrite fmap_app, <-app_assoc. csimpl. by rewrite <-Permutation_middle.
- rewrite IH. by rewrite <-Permutation_middle.
Qed.

Context {X : Type} (slot : X → S) (c : X → C) (v : X → V).

Definition nest_fold (l : list X) : dict S (dict C V) := foldl (λ d x, dset_in (slot x) (c x) (v x) d) [] l.

Record nested (l : list X) d : Prop := {
ne_wf : dict_wf d;
ne_inner s inner : (s, inner) ∈ d → inner ≠ [] ∧ dict_wf inner;
ne_entry s inner k w : (s, inner) ∈ d → (k, w) ∈ inner → ∃ x, x ∈ l ∧ slot x = s ∧ c x = k ∧ v x = w;
ne_vals : nested_vals d ≡ₚ v <$> l;
ne_found x : x ∈ l → ∃ inner, (slot x, inner) ∈ d ∧ (c x, v x) ∈ inner;
}.

Lemma dget_or_entry s d : dget_or [] s d = [] ∨ (s, dget_or [] s d) ∈ d.
Proof.
unfold dget_or. destruct (dget s d) as [inner|] eqn:E; [right|by left]. by apply dget_elem.
Qed.

Lemma nested_snoc l d x :
(slot x, c x) ∉ ((λ x, (slot x, c x)) <$> l) → nested l d →
nested (l ++ [x]) (dset_in (slot x) (c x) (v x) d).
Proof.
intros Hx [H1 H2 H3 H4 H5].
assert (Hc : c x ∉ dkeys (dget_or [] (slot x) d)).
{ intros Hin. apply list_elem_of_fmap in Hin as ([k w] & Hk & Hin). simpl in Hk. subst k.
  destruct (dget_or_entry (slot x) d) as [E|E]; [rewrite E in Hin; set_solver|].
  destruct (H3 _ _ _ _ E Hin) as (y & Hy & Hs & Hcy & _). apply Hx, list_elem_of_fmap.
  exists y. by rewrite Hs, Hcy. }
split.
- by apply dict_wf_dset.
- intros s inner [[-> ->]|Hin]%elem_of_dset; [|by eapply H2]. split.
  + rewrite dset_new by done. by destruct (dget_or [] (slot x) d).
  + apply dict_wf_dset. destruct (dget_or_entry (slot x) d) as [->|E]; [constructor|].
    by eapply H2.
- intros s inner k w [[-> ->]|Hin]%elem_of_dset Hkw.
  + apply elem_of_dset in Hkw as [[-> ->]|Hkw]; [exists x; set_solver|].
    destruct (dget_or_entry (slot x) d) as [E|E]; [rewrite E in Hkw; set_solver|].
    destruct (H3 _ _ _ _ E Hkw) as (y & ? & ? & ? & ?). exists y. set_solver.
  + destruct (H3 _ _ _ _ Hin Hkw) as (y & ? & ? & ? & ?). exists y. set_solver.
- rewrite dset_in_vals, H4, fmap_app by done. csimpl. by rewrite <-Permutation_cons_append.
- intros y [Hy|Hy]%elem_of_app.
  + destruct (H5 y Hy) as (inner & Hin & Hiy). destruct (decide (slot y = slot x)) as [E|E].
    * eexists. rewrite E in *. split; [apply dget_elem, dget_dset_eq|].
      assert (Ei : dget_or [] (slot x) d = inner) by (unfold dget_or; by rewrite (elem_dget _ inner)).
      rewrite Ei in *. rewrite dset_new by done. set_solver.
    * exists inner. split; [|done]. apply dget_elem. unfold dset_in. rewrite dget_dset_ne by done.
      by apply elem_dget.
  + apply list_elem_of_singleton in Hy as ->. eexists. split; [apply dget_elem, dget_dset_eq|].
    rewrite dset_new by done. set_solver.
Qed.

Lemma nest_fold_nested l : NoDup ((λ x, (slot x, c x)) <$> l) → nested l (nest_fold l).
Proof.
induction l as [|x l IH] using rev_ind; intros Hnd.
- split; [constructor|set_solver..|done|set_solver].
- rewrite fmap_app in Hnd. csimpl in Hnd. apply NoDup_app in Hnd as (Hnd & Hx & _).
  unfold nest_fold. rewrite foldl_snoc. apply nested_snoc; [|by apply IH].
  intros Hin. apply (Hx _ Hin). set_solver.
Qed.
End nested.
