(* ===== verification/PyValue.v ===== *)
(** * JSON-like values

    The specs a runtime op carries ([data_spec], [model_spec], ...), worker
    profiles and task results are Python values made of [None], booleans,
    integers, floats, strings, lists, tuples and dicts with string keys.
    [val] is that type; an [isinstance] test of the source is a match on its
    constructor (a Python [bool] is also an [int], see [as_int]). *)

From S2P Require Import Prelude PyFloat PyDict.

Inductive val :=
  | VNone
  | VBool (b : bool)
  | VInt (z : Z)
  | VFloat (f : f64)
  | VStr (s : string)
  | VList (l : list val)
  | VTuple (l : list val)
  | VDict (d : list (string * val)).

(** Induction through the nested lists. *)
Section val_ind.
Context (P : val → Prop).
Context (Pnone : P VNone) (Pbool : ∀ b, P (VBool b)) (Pint : ∀ z, P (VInt z)).
Context (Pfloat : ∀ f, P (VFloat f)) (Pstr : ∀ s, P (VStr s)).
Context (Plist : ∀ l, Forall P l → P (VList l)) (Ptuple : ∀ l, Forall P l → P (VTuple l)).
Context (Pdict : ∀ d, Forall (λ kv, P kv.2) d → P (VDict d)).

Fixpoint val_nested_ind (v : val) : P v :=
let fix all (l : list val) : Forall P l :=
  match l with
  | [] => List.Forall_nil _
  | x :: l' => List.Forall_cons _ x l' (val_nested_ind x) (all l')
  end in
let fix all_items (d : list (string * val)) : Forall (λ kv, P kv.2) d :=
  match d with
  | [] => List.Forall_nil _
  | kv :: d' => List.Forall_cons (λ kv, P kv.2) kv d' (val_nested_ind kv.2) (all_items d')
  end in
match v with
| VNone => Pnone
| VBool b => Pbool b
| VInt z => Pint z
| VFloat f => Pfloat f
| VStr s => Pstr s
| VList l => Plist l (all l)
| VTuple l => Ptuple l (all l)
| VDict d => Pdict d (all_items d)
end.
End val_ind.

Fixpoint val_eq_dec_ (x y : val) {struct x} : {x = y} + {x ≠ y}.
Proof.
  refine (match x, y with
  | VNone, VNone => left eq_refl
  | VBool a, VBool b => cast_if (decide (a = b))
  | VInt a, VInt b => cast_if (decide (a = b))
  | VFloat a, VFloat b => cast_if (decide (a = b))
  | VStr a, VStr b => cast_if (decide (a = b))
  | VList a, VList b => cast_if (@decide (a = b) (list_eq_dec (dec := val_eq_dec_) a b))
  | VTuple a, VTuple b => cast_if (@decide (a = b) (list_eq_dec (dec := val_eq_dec_) a b))
  | VDict a, VDict b =>
      cast_if (@decide (a = b)
        (list_eq_dec (dec := @prod_eq_dec string _ val val_eq_dec_) a b))
  | _, _ => right _
  end); congruence.
Defined.

#[export] Instance val_eq_dec : EqDecision val := val_eq_dec_.

(** [v.get(key)] on a dict: [VNone] for a missing key. *)
Definition vget (key : string) (d : dict string val) : val := dget_or VNone key d.

Lemma vget_dset (d : dict string val) k k' v : vget k (dset k' v d) = if decide (k = k') then v else vget k d.
Proof. apply dget_or_dset. Qed.

(** [v[key]] and [v.get(key)] for a text key *)
Definition vindex (key : string) (v : val) : result val :=
  match v with VDict d => dindex (KeyError key) key d | _ => Err (TypeError key) end.
Definition vget_attr (key : string) (v : val) : result val :=
  match v with VDict d => Ok (vget key d) | _ => Err (AttributeError "get") end.

Definition is_none (v : val) : bool := match v with VNone => true | _ => false end.

(** [isinstance(v, int)]: booleans are integers. *)
Definition as_int (v : val) : option Z :=
  match v with
  | VInt z => Some z
  | VBool b => Some (if b then 1 else 0)%Z
  | _ => None
  end.

(** Python's truth value. *)
Definition truthy (v : val) : bool :=
  match v with
  | VNone => false
  | VBool b => b
  | VInt z => negb (z =? 0)%Z
  | VFloat f => negb (feqb f fzero)
  | VStr s => negb (String.eqb s "")
  | VList l => match l with [] => false | _ => true end
  | VTuple l => match l with [] => false | _ => true end
  | VDict d => match d with [] => false | _ => true end
  end.

(** [x or {}] where the result is then used as a mapping. *)
Definition as_dict (v : val) : option (dict string val) :=
  match v with VDict d => Some d | _ => None end.
