(* ===== verification/PyString.v ===== *)
(** * Strings and numbers in text

    The string methods the source uses ([strip], [lower], [endswith],
    [isdigit], [int], [in]) on ASCII text, and the two textual grammars the
    scheduler reads: Kubernetes memory quantities
    ([parse_memory_to_bytes], utils/utils.py) and the model-size suffix of a
    model name ([_model_size_b], job_manager/cost.py). *)

From S2P Require Import Prelude PyFloat.
From Stdlib Require Import Ascii.

Definition ascii_code (c : ascii) : N := N_of_ascii c.
Definition in_range (lo hi : N) (c : ascii) : bool :=
  (N.leb lo (ascii_code c) && N.leb (ascii_code c) hi)%bool.

Definition is_digit (c : ascii) : bool := in_range 48 57 c.
Definition is_upper (c : ascii) : bool := in_range 65 90 c.
Definition is_lower (c : ascii) : bool := in_range 97 122 c.
(** space, and the control characters from tab to carriage return and from
    file separator to unit separator, as [str.isspace] *)
Definition is_space (c : ascii) : bool :=
  (in_range 9 13 c || in_range 28 32 c)%bool.
(** [\w] *)
Definition is_word (c : ascii) : bool :=
  (is_digit c || is_upper c || is_lower c || (ascii_code c =? 95)%N)%bool.

Definition lower_ascii (c : ascii) : ascii :=
  if is_upper c then ascii_of_N (ascii_code c + 32) else c.

(** The characters of a string. *)
Definition chars (s : string) : list ascii := String.list_ascii_of_string s.
Definition of_chars (l : list ascii) : string := String.string_of_list_ascii l.

Lemma of_chars_chars s : of_chars (chars s) = s.
Proof. apply String.string_of_list_ascii_of_string. Qed.
Lemma chars_of_chars l : chars (of_chars l) = l.
Proof. apply String.list_ascii_of_string_of_list_ascii. Qed.

Lemma chars_app a b : chars (a +:+ b) = chars a ++ chars b.
Proof. unfold chars. induction a as [|c a IH]; [done|]. simpl. by rewrite IH. Qed.
#[export] Instance chars_inj : Inj (=) (=) chars.
Proof. intros a b H. by rewrite <-(of_chars_chars a), <-(of_chars_chars b), H. Qed.

(** The last occurrence of a character splits a text in one way only. *)
Lemma last_char_split (c : ascii) l1 l2 s1 s2 :
  c ∉ s1 → c ∉ s2 → l1 ++ c :: s1 = l2 ++ c :: s2 → l1 = l2 ∧ s1 = s2.
Proof.
  revert l2. induction l1 as [|x l1 IH]; intros [|y l2] H1 H2 E; simplify_eq/=.
  - done.
  - exfalso. apply H1. set_solver.
  - exfalso. apply H2. set_solver.
  - destruct (IH l2) as [-> ->]; done.
Qed.

(** The first byte of a character. *)
Definition starts_char (c : ascii) : bool := negb (in_range 128 191 c).

(** [len(s)] *)
Definition py_len (s : string) : nat := length (List.filter starts_char (chars s)).

Fixpoint drop_spaces (l : list ascii) : list ascii :=
  match l with
  | c :: l' => if is_space c then drop_spaces l' else l
  | [] => []
  end.

(** [s.strip()] and [s.lower()] *)
Definition strip (s : string) : string :=
  of_chars (reverse (drop_spaces (reverse (drop_spaces (chars s))))).
Definition lower (s : string) : string := of_chars (lower_ascii <$> chars s).

Lemma drop_spaces_idem l : drop_spaces (drop_spaces l) = drop_spaces l.
Proof. induction l as [|c l IH]; simpl; [done|]. destruct (is_space c) eqn:E; [done|]. simpl. by rewrite E. Qed.

Lemma drop_spaces_suffix l : ∃ pre, l = pre ++ drop_spaces l.
Proof.
  induction l as [|c l [pre IH]]; simpl; [by exists []|]. destruct (is_space c); [|by exists []].
  exists (c :: pre). simpl. by rewrite <-IH.
Qed.

(** A prefix of trimmed text starts with no space. *)
Lemma drop_spaces_prefix l l1 l2 : drop_spaces l = l1 ++ l2 → drop_spaces l1 = l1.
Proof.
  intros H. pose proof (drop_spaces_idem l) as Hi. rewrite H in Hi. destruct l1 as [|c l1]; [done|]. simpl in *.
  destruct (is_space c); [|done]. exfalso. destruct (drop_spaces_suffix (l1 ++ l2)) as [pre Hp].
  rewrite Hi in Hp. apply (f_equal length) in Hp. rewrite !length_app in Hp. simpl in Hp. rewrite length_app in Hp. lia.
Qed.

Lemma strip_idem s : strip (strip s) = strip s.
Proof.
  unfold strip. rewrite chars_of_chars. do 2 f_equal. set (m := drop_spaces (chars s)).
  destruct (drop_spaces_suffix (reverse m)) as [pre Hp].
  assert (Hm : m = reverse (drop_spaces (reverse m)) ++ reverse pre).
  { rewrite <-reverse_app, <-Hp. by rewrite reverse_involutive. }
  rewrite (drop_spaces_prefix (chars s) _ _ Hm), reverse_involutive. apply drop_spaces_idem.
Qed.

(** [s.strip().lower()], the normalisation used all over the source. *)
Definition norm (s : string) : string := lower (strip s).

(** [suffix] of [l], and what precedes it. *)
Definition split_suffix (suffix l : list ascii) : option (list ascii) :=
  let n := length l - length suffix in
  if decide (length suffix ≤ length l ∧ drop n l = suffix) then Some (take n l) else None.

(** [needle in s] *)
Fixpoint contains_chars (needle l : list ascii) : bool :=
  bool_decide (take (length needle) l = needle) ||
  match l with [] => false | _ :: l' => contains_chars needle l' end.
Definition contains (needle s : string) : bool := contains_chars (chars needle) (chars s).

Definition digit_value (c : ascii) : Z := Z.of_N (ascii_code c) - 48.

(** [int(text)] on decimal digits. *)
Definition digits_value (l : list ascii) : Z :=
  foldl (λ acc c, 10 * acc + digit_value c)%Z 0%Z l.

(** [text.isdigit()]: at least one character, all digits. *)
Definition isdigit (l : list ascii) : bool :=
  match l with [] => false | _ => forallb is_digit l end.

(** ** Memory quantities *)

(** [units.items()] *)
Definition memory_units : list (string * Z) :=
  [("Ki", 1024); ("Mi", 1024 ^ 2); ("Gi", 1024 ^ 3); ("Ti", 1024 ^ 4)]%Z.

Fixpoint parse_memory_in (units : list (string * Z)) (value : list ascii) : option Z :=
  match units with
  | [] => None
  | (suffix, multiplier) :: units' =>
      match split_suffix (chars suffix) value with
      | Some head =>
          if isdigit head then Some (digits_value head * multiplier)%Z
          else parse_memory_in units' value
      | None => parse_memory_in units' value
      end
  end.

Definition parse_memory_to_bytes (value : string) : option Z :=
  parse_memory_in memory_units (chars value).

(** Writing a quantity back: the decimal digits of [n] and a unit. *)
Definition digit_char (d : Z) : ascii := ascii_of_N (Z.to_N (d + 48)).

Fixpoint decimal_chars (fuel : nat) (n : Z) : list ascii :=
  match fuel with
  | O => []
  | S fuel' =>
      if (n <? 10)%Z then [digit_char n]
      else decimal_chars fuel' (n / 10) ++ [digit_char (n mod 10)]
  end.

Definition print_memory (n : Z) (unit_ : string) : string :=
  of_chars (decimal_chars (S (Z.to_nat (Z.log2 n))) n ++ chars unit_).

(** [str(n)] of a natural number. *)
Definition str_of_nat (n : nat) : string := of_chars (decimal_chars (S n) (Z.of_nat n)).

(** [text.split(sep)] for a separator of one character. *)
Fixpoint split_chars (sep : ascii) (l : list ascii) : list (list ascii) :=
  match l with
  | [] => [[]]
  | c :: l' =>
      if Ascii.eqb c sep then [] :: split_chars sep l'
      else match split_chars sep l' with
           | [] => [[c]]
           | part :: parts => (c :: part) :: parts
           end
  end.
Definition py_split (sep : ascii) (s : string) : list string := of_chars <$> split_chars sep (chars s).

Lemma digit_char_value d : (0 <= d < 10)%Z → digit_value (digit_char d) = d ∧ is_digit (digit_char d) = true.
Proof.
  intros H. assert (∃ n : nat, d = Z.of_nat n ∧ n < 10) as (n & -> & Hn).
  { exists (Z.to_nat d). lia. }
  do 10 (destruct n as [|n]; [by vm_compute|]). lia.
Qed.

Lemma digits_value_app l1 l2 :
  digits_value (l1 ++ l2) = (digits_value l1 * 10 ^ Z.of_nat (length l2) + digits_value l2)%Z.
Proof.
  unfold digits_value. rewrite foldl_app. generalize (foldl (λ acc c, 10 * acc + digit_value c)%Z 0%Z l1).
  intros a. revert a. induction l2 as [|c l2 IH] using rev_ind; intros a.
  - simpl. lia.
  - rewrite !foldl_app, length_app. simpl. rewrite (IH a).
    rewrite Nat2Z.inj_add, Z.pow_add_r by lia. change (10 ^ Z.of_nat 1)%Z with 10%Z. lia.
Qed.

Lemma decimal_chars_spec fuel n :
  (0 <= n < 2 ^ Z.of_nat fuel)%Z → fuel ≠ 0 →
  digits_value (decimal_chars fuel n) = n ∧ isdigit (decimal_chars fuel n) = true.
Proof.
  revert n. induction fuel as [|fuel IH]; intros n Hn Hf; [done|]. simpl.
  destruct (Z.ltb_spec n 10) as [Hlt|Hge].
  - destruct (digit_char_value n) as [Hv Hd]; [lia|]. unfold digits_value; simpl.
    rewrite Hv, Hd. split; [lia|done].
  - assert (Hq : (0 <= n / 10 < 2 ^ Z.of_nat fuel)%Z).
    { rewrite Nat2Z.inj_succ, Z.pow_succ_r in Hn by lia. split; [apply Z.div_pos; lia|].
      apply Z.div_lt_upper_bound; lia. }
    destruct (IH (n / 10)%Z Hq) as [Hv Hd].
    { intros ->. simpl in Hq. assert (1 <= n / 10)%Z; [|lia]. apply Z.div_le_lower_bound; lia. }
    destruct (digit_char_value (n mod 10)) as [Hv1 Hd1]; [apply Z.mod_pos_bound; lia|].
    split.
    + rewrite digits_value_app, Hv. unfold digits_value at 1. simpl. rewrite Hv1.
      pose proof (Z.div_mod n 10). lia.
    + unfold isdigit in *. destruct (decimal_chars fuel (n / 10)); [done|].
      simpl in *. apply andb_true_iff in Hd as [-> Hd]. rewrite forallb_app, Hd. simpl. by rewrite Hd1.
Qed.

Lemma str_of_nat_spec n :
  digits_value (chars (str_of_nat n)) = Z.of_nat n ∧ isdigit (chars (str_of_nat n)) = true.
Proof.
  unfold str_of_nat. rewrite chars_of_chars. apply decimal_chars_spec; [|done].
  split; [lia|]. rewrite Nat2Z.inj_succ. etrans; [apply (Z.pow_gt_lin_r 2); lia|].
  apply Z.pow_lt_mono_r; lia.
Qed.

#[export] Instance str_of_nat_inj : Inj (=) (=) str_of_nat.
Proof.
  intros a b H. destruct (str_of_nat_spec a) as [Ha _], (str_of_nat_spec b) as [Hb _].
  rewrite H in Ha. lia.
Qed.

Lemma split_suffix_app suffix l : split_suffix suffix (l ++ suffix) = Some l.
Proof.
  unfold split_suffix. rewrite length_app, decide_True; rewrite ?Nat.add_sub.
  - by rewrite take_app_length.
  - split; [lia|by rewrite drop_app_length].
Qed.

Lemma split_suffix_other suffix suffix' l :
  length suffix = length suffix' → suffix ≠ suffix' → split_suffix suffix (l ++ suffix') = None.
Proof.
  intros Hl Hne. unfold split_suffix. rewrite length_app, Hl, Nat.add_sub, drop_app_length.
  rewrite decide_False; [done|]. intros [_ ?]. by apply Hne.
Qed.

Lemma split_suffix_inv suffix l head : split_suffix suffix l = Some head → l = head ++ suffix.
Proof.
  unfold split_suffix. case_decide as E; [|done]. intros [= <-]. destruct E as [_ E].
  rewrite <-(take_drop (length l - length suffix) l) at 1. by rewrite E.
Qed.

(** A digit string followed by a unit is read as the number times the unit. *)
Lemma parse_memory_digits head suffix multiplier :
  (suffix, multiplier) ∈ memory_units → isdigit head = true →
  parse_memory_in memory_units (head ++ chars suffix) = Some (digits_value head * multiplier)%Z.
Proof.
  intros Hin Hd. unfold memory_units in *.
  repeat (apply elem_of_cons in Hin as [[= -> ->]|Hin]; [|]); [..|by apply elem_of_nil in Hin];
    cbn [parse_memory_in];
    repeat (rewrite split_suffix_app, Hd || rewrite split_suffix_other by done); done.
Qed.

Lemma digits_value_bound l : forallb is_digit l = true →
  (0 <= digits_value l < 10 ^ Z.of_nat (length l))%Z.
Proof.
  induction l as [|c l IH] using rev_ind; intros Hl; [done|].
  rewrite forallb_app in Hl. apply andb_true_iff in Hl as [Hl Hc]. simpl in Hc.
  rewrite andb_true_r in Hc. specialize (IH Hl).
  assert (Hv : (0 <= digit_value c <= 9)%Z).
  { unfold is_digit, in_range in Hc. apply andb_true_iff in Hc as [H1%N.leb_le H2%N.leb_le].
    unfold digit_value. lia. }
  rewrite digits_value_app, length_app. simpl length.
  rewrite Nat2Z.inj_add, Z.pow_add_r by lia. change (10 ^ Z.of_nat 1)%Z with 10%Z.
  unfold digits_value at 2 4. simpl. lia.
Qed.

(** Memory quantities round trip: the decimal digits of a number followed
    by a unit parse to the number times the unit. *)
Theorem memory_roundtrip n unit_ multiplier :
  (0 <= n)%Z → (unit_, multiplier) ∈ memory_units →
  parse_memory_to_bytes (print_memory n unit_) = Some (n * multiplier)%Z.
Proof.
  intros Hn Hu. unfold parse_memory_to_bytes, print_memory. rewrite chars_of_chars.
  destruct (decimal_chars_spec (S (Z.to_nat (Z.log2 n))) n) as [Hv Hd]; [|done|].
  - split; [done|]. rewrite Nat2Z.inj_succ, Z2Nat.id by apply Z.log2_nonneg.
    destruct (decide (n = 0)%Z) as [->|]; [done|]. apply Z.log2_spec. lia.
  - rewrite (parse_memory_digits _ _ multiplier) by done. by rewrite Hv.
Qed.

Lemma memory_roundtrip_witness :
  print_memory 16 "Gi" = "16Gi" ∧ parse_memory_to_bytes (print_memory 16 "Gi") = Some (16 * 1024 ^ 3)%Z.
Proof.
  split; [vm_compute; reflexivity|].
  apply (memory_roundtrip 16 "Gi" (1024 ^ 3)); [lia|]. right; right; left.
Defined.

(** ** The model-size suffix *)

(** [re.search(r"(\d+(?:\.\d+)?)\s*(billion|bn|b|m)\b", text)]: the leftmost
    match; the number is a numerator over a power of ten.  [\d+] is greedy
    and giving digits back can never help (a digit would have to match what
    follows), so each start position has at most one reading. *)
Fixpoint span (p : ascii → bool) (l : list ascii) : list ascii * list ascii :=
  match l with
  | c :: l' => if p c then let '(a, b) := span p l' in (c :: a, b) else ([], l)
  | [] => ([], [])
  end.

Definition starts_with (pre l : list ascii) : option (list ascii) :=
  if decide (take (length pre) l = pre) then Some (drop (length pre) l) else None.

(** [\b] after a word character. *)
Definition at_boundary (l : list ascii) : bool :=
  match l with [] => true | c :: _ => negb (is_word c) end.

Fixpoint match_unit (units : list string) (l : list ascii) : option string :=
  match units with
  | [] => None
  | u :: units' =>
      match starts_with (chars u) l with
      | Some rest => if at_boundary rest then Some u else match_unit units' l
      | None => match_unit units' l
      end
  end.

Definition match_size_unit (l : list ascii) : option string :=
  match_unit ["billion"; "bn"; "b"; "m"] (span is_space l).2.

Definition match_size_at (l : list ascii) : option (Z * Z * string) :=
  let '(whole, rest) := span is_digit l in
  match whole with
  | [] => None
  | _ =>
      let with_frac :=
        match rest with
        | c :: rest' =>
            if (ascii_code c =? 46)%N then
              let '(frac, rest'') := span is_digit rest' in
              match frac with
              | [] => None
              | _ =>
                  u ← match_size_unit rest'';
                  Some (digits_value (whole ++ frac), (10 ^ Z.of_nat (length frac))%Z, u)
              end
            else None
        | [] => None
        end in
      match with_frac with
      | Some r => Some r
      | None => u ← match_size_unit rest; Some (digits_value whole, 1%Z, u)
      end
  end.

Fixpoint search_size (l : list ascii) : option (Z * Z * string) :=
  match match_size_at l with
  | Some r => Some r
  | None => match l with [] => None | _ :: l' => search_size l' end
  end.

(** ** Reference placeholders

    [re.compile(r"\$\{([^}.]+)\.([^}]+)\}")]: the two groups of a match at the
    head of [l] and what follows it.  Both groups end at the first character
    they exclude, so a match is unique. *)
Definition match_placeholder (l : list ascii) : option (list ascii * list ascii * list ascii) :=
  match starts_with (chars "${") l with
  | None => None
  | Some rest =>
      let '(node, rest1) := span (λ c, negb ((ascii_code c =? 125)%N || (ascii_code c =? 46)%N)) rest in
      match node, rest1 with
      | _ :: _, dot :: rest2 =>
          if (ascii_code dot =? 46)%N then
            let '(path, rest3) := span (λ c, negb (ascii_code c =? 125)%N) rest2 in
            match path, rest3 with
            | _ :: _, _ :: rest4 => Some (node, path, rest4)
            | _, _ => None
            end
          else None
      | _, _ => None
      end
  end.

(** [_PLACEHOLDER_RE.sub(_sub, text)]: leftmost non-overlapping matches; the
    fuel is the length of the text. *)
Fixpoint sub_placeholders (fuel : nat) (sub : string → string → option string) (l : list ascii) :
    list ascii :=
  match fuel with
  | O => l
  | S fuel' =>
      match match_placeholder l with
      | Some (node, path, rest) =>
          match sub (of_chars node) (of_chars path) with
          | Some replacement => chars replacement
          | None => chars "${" ++ node ++ chars "." ++ path ++ chars "}"
          end ++ sub_placeholders fuel' sub rest
      | None =>
          match l with
          | [] => []
          | c :: l' => c :: sub_placeholders fuel' sub l'
          end
      end
  end.

(** [_remap_placeholder]: rewrite the node of every placeholder whose node is
    in the mapping. *)
Definition remap_placeholder (lookup : string → option string) (text : string) : string :=
  let l := chars text in
  of_chars (sub_placeholders (length l)
    (λ node path, (λ remapped, "${" +:+ remapped +:+ "." +:+ path +:+ "}") <$> lookup node) l).

Example placeholder_ex :
  remap_placeholder (λ n, if String.eqb n "a" then Some "g__a" else None) "x ${a.items[0]} ${b.y} $"
  = "x ${g__a.items[0]} ${b.y} $".
Proof. reflexivity. Qed.
Example strip_ex : norm "  VLLM " = "vllm". Proof. reflexivity. Qed.
Example mem_ex : parse_memory_to_bytes "16Gi" = Some 17179869184%Z. Proof. reflexivity. Qed.
Example mem_ex2 : parse_memory_to_bytes "16G" = None. Proof. reflexivity. Qed.
Example size_ex : search_size (chars "qwen2-1.5b-instruct") = Some (15, 10, "b")%Z. Proof. reflexivity. Qed.
Example size_ex2 : search_size (chars "qwen/qwen3-8b") = Some (8, 1, "b")%Z. Proof. reflexivity. Qed.
Example size_ex3 : search_size (chars "bge-560m") = Some (560, 1, "m")%Z. Proof. reflexivity. Qed.
Example size_ex4 : search_size (chars "gpt-4bit") = None. Proof. reflexivity. Qed.
