(* ===== verification/Protocol.v ===== *)
(** * Request protocol (runtime/protocol.py)

    Priorities, hardware requirements and the per-request configuration the
    scheduler reads, and the values of one kind per priority the job manager
    keeps ([perprio]). *)

From S2P Require Import Prelude PyFloat PyString.

Inductive Priority := HIGH | MEDIUM | LOW.

#[export] Instance priority_eq_dec : EqDecision Priority.
Proof. solve_decision. Defined.

(** [for priority in Priority] iterates in declaration order. *)
Definition priorities : list Priority := [HIGH; MEDIUM; LOW].

Lemma elem_of_priorities p : p ∈ priorities.
Proof. destruct p; unfold priorities; set_solver. Qed.

Lemma NoDup_priorities : NoDup priorities.
Proof. apply (bool_decide_unpack _). by vm_compute. Qed.

Module HardwareRequirements.
Record t := mk {
cpu : option Z;
memory : option string;
gpu : option Z;
gpu_memory : option string;
gpu_model : option string;
}.
#[global] Instance eq_dec : EqDecision t.
Proof. solve_decision. Defined.

(** [^[1-9]\d{0,3}(Ki|Mi|Gi|Ti)$] *)
Definition memory_pattern (s : string) : bool :=
existsb (λ suffix,
  match split_suffix (chars suffix) (chars s) with
  | Some (c :: head) =>
      (in_range 49 57 c && forallb is_digit head && (length head <=? 3))%bool
  | _ => false
  end) ["Ki"; "Mi"; "Gi"; "Ti"].

(** The field constraints pydantic enforces: [gt=0, le=1024] and so on. *)
Definition valid (h : t) : bool :=
((match cpu h with Some c => (0 <? c) && (c <=? 1024) | None => true end)%Z &&
 match memory h with Some m => memory_pattern m && (String.length m <=? 6) | None => true end &&
 (match gpu h with Some g => (0 <=? g) && (g <=? 8) | None => true end)%Z &&
 match gpu_memory h with Some m => memory_pattern m && (String.length m <=? 6) | None => true end &&
 match gpu_model h with Some m => String.length m <=? 128 | None => true end)%bool.

(** A field that passes the pattern is a number from 1 to 9999 and a unit. *)
Lemma memory_pattern_parses s : memory_pattern s = true →
∃ n multiplier, (1 <= n <= 9999)%Z ∧ (∃ unit_, (unit_, multiplier) ∈ memory_units) ∧
  parse_memory_to_bytes s = Some (n * multiplier)%Z.
Proof.
unfold memory_pattern. intros (suffix & Hin & Hs)%existsb_exists.
destruct (split_suffix _ _) as [[|c head]|] eqn:E; [done| |done].
apply split_suffix_inv in E.
apply andb_true_iff in Hs as [[Hc Hd]%andb_true_iff Hl%Nat.leb_le].
assert (Hu : ∃ multiplier, (suffix, multiplier) ∈ memory_units).
{ unfold memory_units. simpl in Hin.
  destruct Hin as [<-|[<-|[<-|[<-|[]]]]]; eexists; rewrite !elem_of_cons; eauto 6. }
destruct Hu as [multiplier Hu].
unfold in_range in Hc. apply andb_true_iff in Hc as [Hc1%N.leb_le Hc2%N.leb_le].
assert (Hcd : is_digit c = true).
{ unfold is_digit, in_range. apply andb_true_iff. split; apply N.leb_le; lia. }
exists (digits_value (c :: head)), multiplier. split_and!; [| |by exists suffix|].
3: { unfold parse_memory_to_bytes. rewrite E. apply parse_memory_digits; [done|].
  simpl. by rewrite Hcd. }
all: change (c :: head) with ([c] ++ head); rewrite digits_value_app; pose proof (digits_value_bound head Hd) as Hb;
  unfold digits_value at 1; simpl; unfold digit_value;
  assert (10 ^ Z.of_nat (length head) <= 10 ^ 3)%Z by (apply Z.pow_le_mono_r; lia);
  assert (1 <= 10 ^ Z.of_nat (length head))%Z by (apply (Z.pow_le_mono_r 10 0); lia); nia.
Qed.
End HardwareRequirements.

(** Every memory requirement the request schema accepts is a quantity the
    scheduler can read: it parses, to at least 1 KiB and at most 9999 TiB, so
    the shares and worker checks computed from it never see a missing size. *)
Theorem accepted_memory_parses h s :
  HardwareRequirements.valid h = true →
  HardwareRequirements.memory h = Some s ∨ HardwareRequirements.gpu_memory h = Some s →
  ∃ bytes, parse_memory_to_bytes s = Some bytes ∧ (1024 <= bytes <= 9999 * 1024 ^ 4)%Z.
Proof.
  intros Hv Hs. assert (Hp : HardwareRequirements.memory_pattern s = true).
  { unfold HardwareRequirements.valid in Hv. repeat rewrite andb_true_iff in Hv.
    destruct Hs as [E|E]; rewrite E in Hv; repeat rewrite andb_true_iff in Hv; tauto. }
  apply HardwareRequirements.memory_pattern_parses in Hp as (n & mult & Hn & [u Hu] & ->).
  exists (n * mult)%Z. split; [done|].
  assert (1024 <= mult <= 1024 ^ 4)%Z; [|nia].
  unfold memory_units in Hu.
  repeat (apply elem_of_cons in Hu as [[= -> ->]|Hu]; [lia|]). by apply elem_of_nil in Hu.
Qed.

Lemma accepted_memory_parses_witness :
  ∃ bytes, parse_memory_to_bytes "16Gi" = Some bytes ∧ (1024 <= bytes <= 9999 * 1024 ^ 4)%Z.
Proof.
  apply (accepted_memory_parses (HardwareRequirements.mk (Some 8%Z) (Some "16Gi") None None None));
    [vm_compute; reflexivity|left; reflexivity].
Defined.

Module LumilakeRequestConfig.
Record t := mk {
priority : Priority;
user_id : string;
org_id : string;
principal_id : string;
optimizer_type : option string;
hardware_requirements : option HardwareRequirements.t;
chain_id : option string;
chain_round : Z;
}.
End LumilakeRequestConfig.

(** ** One value per priority

    [dict[Priority, X]] as the job manager uses it: all three keys are always
    present, in declaration order. *)
Record perprio (A : Type) := PerPrio { pp_high : A; pp_medium : A; pp_low : A }.
Arguments PerPrio {A} _ _ _.
Arguments pp_high {A} _.
Arguments pp_medium {A} _.
Arguments pp_low {A} _.

Definition pget {A} (m : perprio A) (p : Priority) : A :=
  match p with HIGH => pp_high m | MEDIUM => pp_medium m | LOW => pp_low m end.

Definition pset {A} (p : Priority) (a : A) (m : perprio A) : perprio A :=
  match p with
  | HIGH => PerPrio a (pp_medium m) (pp_low m)
  | MEDIUM => PerPrio (pp_high m) a (pp_low m)
  | LOW => PerPrio (pp_high m) (pp_medium m) a
  end.

Definition pconst {A} (a : A) : perprio A := PerPrio a a a.
Definition pmap {A B} (f : A → B) (m : perprio A) : perprio B :=
  PerPrio (f (pp_high m)) (f (pp_medium m)) (f (pp_low m)).
Definition pzip {A B C} (f : A → B → C) (m : perprio A) (n : perprio B) : perprio C :=
  PerPrio (f (pp_high m) (pp_high n)) (f (pp_medium m) (pp_medium n)) (f (pp_low m) (pp_low n)).

Lemma pget_pset_eq {A} p (a : A) m : pget (pset p a m) p = a.
Proof. by destruct p. Qed.
Lemma pget_pset_ne {A} p q (a : A) m : p ≠ q → pget (pset p a m) q = pget m q.
Proof. by destruct p, q. Qed.
Lemma pget_pset {A} p q (a : A) m : pget (pset p a m) q = if decide (p = q) then a else pget m q.
Proof. by destruct p, q. Qed.
Lemma pget_pmap {A B} (f : A → B) m p : pget (pmap f m) p = f (pget m p).
Proof. by destruct p. Qed.
Lemma pget_pzip {A B C} (f : A → B → C) m n p : pget (pzip f m n) p = f (pget m p) (pget n p).
Proof. by destruct p. Qed.
Lemma pget_pconst {A} (a : A) p : pget (pconst a) p = a.
Proof. by destruct p. Qed.
Lemma perprio_eq {A} (m n : perprio A) : (∀ p, pget m p = pget n p) → m = n.
Proof.
  intros H. destruct m, n. pose proof (H HIGH). pose proof (H MEDIUM). pose proof (H LOW).
  simpl in *. congruence.
Qed.

#[export] Hint Rewrite @pget_pset_eq @pget_pmap @pget_pzip @pget_pconst : lumi.
#[export] Hint Resolve elem_of_priorities : lumi.
