(* ===== verification/TopoSort.v ===== *)
(** * The shared topological sort (utils/graph.py)

    [topological_sort] is Kahn's algorithm by layers: the nodes of in-degree
    zero form a layer (sorted by [secondary_key] when one is given), the layer
    is emitted, the in-degrees of its successors are decremented and those
    that reach zero form the next layer.  A set of successors is the list of
    its elements in its iteration order, so what is proved holds for every
    iteration order.  The [while] loop is a [Fixpoint] on fuel; one unit per
    node and one more is always enough ([topo_loop_fuel]). *)

From S2P Require Import Prelude PyDict.

Section topo.
Context {T : Type} `{EqDecision T}.

Abbreviation digraph := (dict T (list T)).

(** [graph.get(node, [])] *)
Definition succs (graph : digraph) (node : T) : list T := dget_or [] node graph.

(** [in_degree = {node: 0 ...}], then one increment per edge. *)
Definition bump (deg : dict T Z) (n : T) : dict T Z := dset n (dget_or 0 n deg + 1)%Z deg.

Definition in_degree (graph : digraph) : dict T Z :=
foldl (λ deg kv, foldl bump deg kv.2)
      (dict_of (map (λ kv, (kv.1, 0%Z)) graph)) graph.

(** One decrement; a node that reaches zero joins the next layer. *)
Definition relax (st : dict T Z * list T) (n : T) : dict T Z * list T :=
let d := (dget_or 0 n st.1 - 1)%Z in
(dset n d st.1, if decide (d = 0%Z) then st.2 ++ [n] else st.2).

Definition relax_layer (graph : digraph) (deg : dict T Z) (layer : list T) :
  dict T Z * list T :=
foldl (λ st node, foldl relax st (succs graph node)) (deg, []) layer.

Definition sort_ready (secondary_key : option (T → Z)) (ready : list T) : list T :=
match secondary_key with
| Some key => sorted_by Z.ltb key ready
| None => ready
end.

Fixpoint topo_loop (fuel : nat) (graph : digraph) (secondary_key : option (T → Z))
  (deg : dict T Z) (ready result : list T) : option (list T) :=
match ready with
| [] => Some result
| _ =>
  match fuel with
  | O => None
  | S fuel' =>
      let layer := sort_ready secondary_key ready in
      let '(deg', ready') := relax_layer graph deg layer in
      topo_loop fuel' graph secondary_key deg' ready' (result ++ layer)
  end
end.

Definition topological_sort (graph : digraph) (secondary_key : option (T → Z)) :
  result (list T) :=
let deg := in_degree graph in
let ready := (filter (λ kv, kv.2 = 0%Z) deg).*1 in
match topo_loop (S (length deg)) graph secondary_key deg ready [] with
| Some result =>
    if decide (length result = length deg) then Ok result
    else Err (ValueError "Graph has at least one cycle.")
| None => Err (ValueError "out of fuel")
end.

(** ** Counting edges *)

Fixpoint occ (x : T) (l : list T) : nat :=
match l with [] => 0 | y :: l' => (if decide (x = y) then 1 else 0) + occ x l' end.

Lemma occ_app x l1 l2 : occ x (l1 ++ l2) = occ x l1 + occ x l2.
Proof. induction l1; simpl; lia. Qed.

Lemma occ_elem x l : x ∈ l ↔ 0 < occ x l.
Proof.
induction l as [|y l IH]; simpl; [set_solver by lia|].
rewrite elem_of_cons, IH. case_decide; naive_solver lia.
Qed.

Lemma occ_perm x l1 l2 : l1 ≡ₚ l2 → occ x l1 = occ x l2.
Proof. induction 1; simpl; lia. Qed.

(** Targets of the edges that leave the nodes of [l]. *)
Definition targets (graph : digraph) (l : list T) : list T := l ≫= succs graph.

Lemma targets_app g l1 l2 : targets g (l1 ++ l2) = targets g l1 ++ targets g l2.
Proof. apply bind_app. Qed.

Lemma targets_cons g y l : targets g (y :: l) = succs g y ++ targets g l.
Proof. done. Qed.

Lemma targets_perm g l1 l2 : l1 ≡ₚ l2 → targets g l1 ≡ₚ targets g l2.
Proof. intros H. unfold targets. by rewrite H. Qed.

Lemma elem_targets g l v : v ∈ targets g l ↔ ∃ u, u ∈ l ∧ v ∈ succs g u.
Proof. unfold targets. rewrite list_elem_of_bind. naive_solver. Qed.

(** The edges that leave a duplicate-free list of nodes are among the edges
  that leave the keys of the graph. *)
Lemma occ_targets_le g x l :
NoDup l → occ x (targets g l) ≤ occ x (targets g (dkeys g)).
Proof.
intros Hl.
assert (Hf : occ x (targets g l) = occ x (targets g (filter (.∈ dkeys g) l))).
{ clear Hl. induction l as [|y l IH]; [done|].
  rewrite (targets_cons g y l), occ_app, IH.
  destruct (decide (y ∈ dkeys g)) as [Hy|Hy].
  - rewrite filter_cons_True by done. by rewrite targets_cons, occ_app.
  - rewrite filter_cons_False by done.
    unfold succs, dget_or. by rewrite (proj2 (dget_None y g) Hy). }
rewrite Hf.
assert (Hsub : filter (.∈ dkeys g) l ⊆+ dkeys g).
{ apply NoDup_submseteq; [by apply NoDup_filter|].
  intros y [??]%list_elem_of_filter. done. }
apply submseteq_Permutation in Hsub as [k Hk].
rewrite (occ_perm x (targets g (dkeys g)) _ (targets_perm g _ _ Hk)).
rewrite targets_app, occ_app. lia.
Qed.

(** If every predecessor of [n] in [l] is in [r], the edges into [n] that
  leave [l] all leave [r]. *)
Lemma occ_targets_cover g n l r :
NoDup l → (∀ u, u ∈ l → n ∈ succs g u → u ∈ r) →
occ n (targets g l) ≤ occ n (targets g r).
Proof.
revert r. induction l as [|u l IH]; intros r Hl H; [simpl; lia|].
apply NoDup_cons in Hl as [Hu Hl]. rewrite targets_cons, occ_app.
destruct (decide (n ∈ succs g u)) as [Hn|Hn].
- assert (Hur : u ∈ r) by (apply H; set_solver).
  apply elem_of_Permutation in Hur as [r' Hr'].
  rewrite (occ_perm n _ _ (targets_perm g _ _ Hr')), targets_cons, occ_app.
  assert (occ n (targets g l) ≤ occ n (targets g r')); [|lia].
  apply IH; [done|]. intros u' Hu' Hn'. assert (u' ∈ r) as Hin by (apply H; set_solver).
  rewrite Hr' in Hin. set_solver.
- assert (occ n (succs g u) = 0) as ->.
  { destruct (occ n (succs g u)) eqn:E; [done|]. destruct Hn. apply occ_elem. lia. }
  apply IH; [done|]. set_solver.
Qed.

(** ** The in-degree table *)

Lemma foldl_bump deg l n :
dget_or 0%Z n (foldl bump deg l) = (dget_or 0 n deg + Z.of_nat (occ n l))%Z.
Proof.
revert deg. induction l as [|x l IH]; intros deg; simpl; [lia|].
rewrite IH. unfold bump. rewrite dget_or_dset. repeat case_decide; subst; lia.
Qed.

Lemma foldl_bump_keys deg l n :
n ∈ dkeys (foldl bump deg l) ↔ n ∈ dkeys deg ∨ n ∈ l.
Proof.
revert deg. induction l as [|x l IH]; intros deg; simpl; [set_solver|].
rewrite IH. unfold bump. rewrite elem_of_dkeys_dset. set_solver.
Qed.

Lemma foldl_bump_wf deg l : dict_wf deg → dict_wf (foldl bump deg l).
Proof.
revert deg. induction l as [|x l IH]; intros deg H; simpl; [done|].
apply IH. by apply dict_wf_dset.
Qed.

Lemma foldl_degrees deg (g : digraph) n :
dget_or 0%Z n (foldl (λ deg kv, foldl bump deg kv.2) deg g)
= (dget_or 0 n deg + Z.of_nat (occ n (g ≫= snd)))%Z.
Proof.
revert deg. induction g as [|[k vs] g IH]; intros deg; [simpl; lia|]. csimpl.
rewrite IH, foldl_bump, occ_app. lia.
Qed.

Lemma foldl_degrees_keys deg (g : digraph) n :
n ∈ dkeys (foldl (λ deg kv, foldl bump deg kv.2) deg g)
↔ n ∈ dkeys deg ∨ n ∈ (g ≫= snd).
Proof.
revert deg. induction g as [|[k vs] g IH]; intros deg; [set_solver|]. csimpl.
rewrite IH, foldl_bump_keys. set_solver.
Qed.

Lemma zero_table n (l : digraph) : dget_or 0%Z n (dict_of (map (λ kv, (kv.1, 0%Z)) l)) = 0%Z.
Proof.
unfold dict_of.
assert (dget_or 0%Z n ([] : dict T Z) = 0%Z) as H by done. revert H.
generalize ([] : dict T Z).
induction l as [|x l IH]; intros d H; simpl; [done|].
apply IH. rewrite dget_or_dset. by case_decide.
Qed.

Lemma zero_table_keys n (l : digraph) :
n ∈ dkeys (dict_of (map (λ kv, (kv.1, 0%Z)) l)) ↔ n ∈ dkeys l.
Proof.
unfold dict_of.
assert (n ∈ dkeys ([] : dict T Z) ↔ False) as H by (unfold dkeys; set_solver).
assert (G : ∀ d : dict T Z,
  n ∈ dkeys (foldl (λ d kv, dset kv.1 kv.2 d) d (map (λ kv, (kv.1, 0%Z)) l))
  ↔ n ∈ dkeys d ∨ n ∈ dkeys l).
{ clear H. induction l as [|x l IH]; intros d; simpl; [unfold dkeys; set_solver|].
  rewrite IH, elem_of_dkeys_dset. unfold dkeys. set_solver. }
rewrite G. tauto.
Qed.

Lemma bind_snd_targets (g : digraph) : dict_wf g → g ≫= snd = targets g (dkeys g).
Proof.
intros Hwf. unfold targets, dkeys.
assert (H : ∀ kv, kv ∈ g → kv.2 = succs g kv.1).
{ intros [k v] Hin. unfold succs, dget_or. simpl. by rewrite (elem_dget k v g). }
clear Hwf. revert H. generalize g at 2 4 as g0. intros g0 H.
induction g as [|kv g IH]; [done|]. csimpl.
rewrite (H kv) by apply list_elem_of_here. f_equal. apply IH. set_solver.
Qed.

Definition is_node (g : digraph) (n : T) : Prop := n ∈ dkeys g ∨ n ∈ targets g (dkeys g).

Lemma in_degree_spec g n :
dict_wf g → dget_or 0%Z n (in_degree g) = Z.of_nat (occ n (targets g (dkeys g))).
Proof.
intros Hwf. unfold in_degree. rewrite foldl_degrees, zero_table, bind_snd_targets by done. lia.
Qed.

Lemma in_degree_keys g n : dict_wf g → n ∈ dkeys (in_degree g) ↔ is_node g n.
Proof.
intros Hwf. unfold in_degree, is_node.
by rewrite foldl_degrees_keys, zero_table_keys, bind_snd_targets.
Qed.

Lemma in_degree_wf g : dict_wf (in_degree g).
Proof.
unfold in_degree. assert (dict_wf (dict_of (map (λ kv, (kv.1, 0%Z)) g))) as H by apply dict_wf_of.
revert H. generalize (dict_of (map (λ kv, (kv.1, 0%Z)) g)).
induction g as [|[k vs] g IH]; intros d H; simpl; [done|].
apply IH. by apply foldl_bump_wf.
Qed.

(** ** One layer *)

Lemma relax_spec st n x :
dget_or 0%Z x (relax st n).1 = (dget_or 0 x st.1 - if decide (x = n) then 1 else 0)%Z.
Proof. unfold relax; simpl. rewrite dget_or_dset. case_decide; subst; lia. Qed.

(** Relaxing along the edge targets [es]: in-degrees drop by the number of
  occurrences, and the nodes that reach zero are collected once each. *)
Lemma foldl_relax deg acc es :
let st := foldl relax (deg, acc) es in
(∀ x, dget_or 0%Z x st.1 = (dget_or 0 x deg - Z.of_nat (occ x es))%Z) ∧
((∀ x, Z.of_nat (occ x es) <= dget_or 0 x deg)%Z →
 (∀ x, x ∈ st.2 ↔ x ∈ acc ∨ 0 < dget_or 0%Z x deg ∧ dget_or 0%Z x st.1 = 0)%Z ∧
 (NoDup acc → (∀ x, x ∈ acc → dget_or 0%Z x deg = 0%Z) → NoDup st.2)).
Proof.
revert deg acc. induction es as [|e es IH]; intros deg acc; simpl.
{ split; [intros; lia|]. intros _. split; [|done].
  intros x. split; [by left|]. intros [?|[??]]; [done|lia]. }
destruct (IH (relax (deg, acc) e).1 (relax (deg, acc) e).2) as [IH1 IH2].
replace ((relax (deg, acc) e).1, (relax (deg, acc) e).2) with (relax (deg, acc) e) in *
  by by destruct (relax (deg, acc) e).
split.
{ intros x. rewrite IH1, relax_spec. simpl. case_decide; lia. }
intros Hle.
assert (He : (0 < dget_or 0 e deg)%Z) by (specialize (Hle e); rewrite decide_True in Hle by done; lia).
destruct IH2 as [IH2 IH3].
{ intros x. rewrite relax_spec. simpl. specialize (Hle x). case_decide; lia. }
split.
- intros x. rewrite IH2, IH1, !relax_spec. simpl.
  specialize (Hle x). destruct (decide (x = e)) as [->|Hne].
  + case_decide as Hz; rewrite ?elem_of_app, ?list_elem_of_singleton;
      split; [|naive_solver| |]; [intros [[?| _]|[??]]|intros [?|[??]]|intros [?|[??]]];
      auto with lia.
  + case_decide; rewrite ?elem_of_app, ?list_elem_of_singleton; naive_solver lia.
- intros Hacc Hzero. apply IH3.
  + simpl. case_decide; [|done]. apply NoDup_app. split; [done|].
    split; [|apply NoDup_singleton]. intros x Hx. rewrite list_elem_of_singleton.
    intros ->. specialize (Hzero e Hx). lia.
  + intros x. rewrite relax_spec. simpl. case_decide as Hz.
    * rewrite elem_of_app, list_elem_of_singleton. intros [Hx| ->].
      -- rewrite decide_False, Hzero by (done || (intros ->; specialize (Hzero e Hx); lia)). lia.
      -- rewrite decide_True by done. lia.
    * intros Hx. rewrite decide_False by (intros ->; specialize (Hzero e Hx); lia).
      rewrite Hzero; [lia|done].
Qed.

Lemma relax_layer_targets g deg layer :
relax_layer g deg layer = foldl relax (deg, []) (targets g layer).
Proof.
unfold relax_layer. generalize (deg, @nil T).
induction layer as [|n layer IH]; intros st; [done|].
rewrite targets_cons, foldl_app. simpl. apply IH.
Qed.

(** ** The loop invariant *)

(** Every node comes after all its predecessors. *)
Definition respects (g : digraph) (l : list T) : Prop :=
∀ l1 v l2, l = l1 ++ v :: l2 → ∀ u, v ∈ succs g u → u ∈ l1.

Record topo_inv (g : digraph) (deg : dict T Z) (ready result : list T) : Prop := {
ti_deg n : dget_or 0%Z n deg = (Z.of_nat (occ n (targets g (dkeys g)))
                                - Z.of_nat (occ n (targets g result)))%Z;
ti_nodup : NoDup (result ++ ready);
ti_done n : n ∈ result ++ ready ↔ is_node g n ∧ dget_or 0%Z n deg = 0%Z;
ti_order : respects g result;
}.

Lemma succs_key g u v : v ∈ succs g u → u ∈ dkeys g.
Proof.
unfold succs, dget_or. rewrite <-dget_is_Some.
destruct (dget u g); [eauto|set_solver].
Qed.

Lemma respects_app g l1 l2 :
respects g l1 → (∀ v u, v ∈ l2 → v ∈ succs g u → u ∈ l1) → respects g (l1 ++ l2).
Proof.
intros H1 H2 a v b Hab u Hu. symmetry in Hab.
apply app_eq_inv in Hab as [(c & -> & Hc)|(c & -> & Hc)].
- rewrite Hc in H2. apply elem_of_app. left. apply (H2 v); set_solver.
- destruct c as [|w c]; simpl in Hc.
  + rewrite <-Hc, app_nil_r in H2. apply (H2 v); set_solver.
  + injection Hc as <- Hc. by apply (H1 a v c).
Qed.

(** A node of in-degree zero has all its predecessors in [result]. *)
Lemma zero_preds g deg ready result v u :
topo_inv g deg ready result → dget_or 0%Z v deg = 0%Z → v ∈ succs g u → u ∈ result.
Proof.
intros [Ha Hb _ _] Hv Hu. destruct (decide (u ∈ result)) as [|Hnot]; [done|exfalso].
apply NoDup_app in Hb as (Hb & _ & _).
assert (Hle : occ v (targets g (result ++ [u])) ≤ occ v (targets g (dkeys g))).
{ apply occ_targets_le. apply NoDup_app.
  split; [done|]. split; [set_solver|apply NoDup_singleton]. }
rewrite targets_app, targets_cons, !occ_app in Hle.
apply occ_elem in Hu. specialize (Ha v). lia.
Qed.

Lemma topo_inv_init g :
dict_wf g → topo_inv g (in_degree g) ((filter (λ kv, kv.2 = 0%Z) (in_degree g)).*1) [].
Proof.
intros Hwf. pose proof (in_degree_wf g) as Hd. split; simpl.
- intros n. rewrite in_degree_spec by done. lia.
- apply (sublist_NoDup _ (dkeys (in_degree g))); [done|].
  unfold dkeys. apply fmap_sublist, sublist_filter.
- intros n. rewrite <-in_degree_keys by done. rewrite list_elem_of_fmap. split.
  + intros ([k z] & -> & [Hz Hin]%list_elem_of_filter). simpl in *. subst.
    apply elem_dget in Hin; [|done]. unfold dget_or. rewrite Hin.
    split; [|done]. apply dget_is_Some. eauto.
  + intros [[z Hz]%dget_is_Some Hn]. unfold dget_or in Hn. rewrite Hz in Hn. subst.
    exists (n, 0%Z). split; [done|]. apply list_elem_of_filter. split; [done|].
    by apply dget_elem.
- intros l1 v l2 H. by destruct l1.
Qed.

Lemma topo_inv_perm g deg ready ready' result :
ready ≡ₚ ready' → topo_inv g deg ready result → topo_inv g deg ready' result.
Proof.
intros Hp [Ha Hb Hc Hd]. split; [done| | |done].
- by rewrite <-Hp.
- intros n. by rewrite <-Hp.
Qed.

Lemma topo_inv_step g deg layer result :
topo_inv g deg layer result →
let st := relax_layer g deg layer in topo_inv g st.1 st.2 (result ++ layer).
Proof.
intros Hinv. pose proof (zero_preds g deg layer result) as Hpred.
pose proof Hinv as [Ha Hb Hc Hd].
simpl. rewrite relax_layer_targets.
destruct (foldl_relax deg [] (targets g layer)) as [H1 H2].
assert (Hle : ∀ x, (Z.of_nat (occ x (targets g layer)) <= dget_or 0 x deg)%Z).
{ intros x. pose proof (occ_targets_le g x (result ++ layer) Hb) as H.
  rewrite targets_app, occ_app in H. rewrite Ha. lia. }
destruct (H2 Hle) as [H3 H4]. clear H2.
set (st := foldl relax (deg, []) (targets g layer)) in *.
assert (Ha' : ∀ n, dget_or 0%Z n st.1 = (Z.of_nat (occ n (targets g (dkeys g)))
                   - Z.of_nat (occ n (targets g (result ++ layer))))%Z).
{ intros n. rewrite H1, Ha, targets_app, occ_app. lia. }
split.
- done.
- apply NoDup_app. split; [done|]. split.
  + intros x [_ Hx]%Hc. rewrite H3. set_solver by lia.
  + apply H4; [constructor|set_solver].
- intros n. rewrite elem_of_app, H3, Hc. split.
  + intros [[Hn Hz]|[[]%not_elem_of_nil|[Hp Hz]]].
    * split; [done|]. rewrite H1, Hz. specialize (Hle n). lia.
    * split; [|done]. destruct (decide (n ∈ dkeys g)) as [|Hk]; [by left|right].
      apply occ_elem. specialize (Ha n). lia.
  + intros [Hn Hz]. destruct (decide (dget_or 0%Z n deg = 0%Z)); [by left|].
    right. right. rewrite H1 in Hz |- *. specialize (Hle n). lia.
- apply respects_app; [done|]. intros v u Hv Hu.
  apply (Hpred v u); [done| |done]. apply Hc. set_solver.
Qed.

Lemma sort_ready_perm sk l : sort_ready sk l ≡ₚ l.
Proof. destruct sk; simpl; [apply sorted_by_perm|done]. Qed.

Lemma topo_inv_length g (deg0 : dict T Z) deg ready result :
dict_wf deg0 → (∀ n, n ∈ dkeys deg0 ↔ is_node g n) → topo_inv g deg ready result →
length (result ++ ready) ≤ length deg0.
Proof.
intros Hwf Hk Hinv. rewrite <-(length_fmap fst deg0).
apply submseteq_length, NoDup_submseteq; [apply Hinv|].
intros x Hx. apply Hk. by apply Hinv in Hx as [??].
Qed.

(** One unit of fuel per remaining node is enough, and the loop ends with
  an empty layer. *)
Lemma topo_loop_fuel fuel g sk (deg0 : dict T Z) deg ready result :
dict_wf deg0 → (∀ n, n ∈ dkeys deg0 ↔ is_node g n) → topo_inv g deg ready result →
length deg0 < fuel + length result →
∃ result' deg', topo_loop fuel g sk deg ready result = Some result' ∧
  topo_inv g deg' [] result'.
Proof.
intros Hwf Hk. revert deg ready result.
induction fuel as [|fuel IH]; intros deg ready result Hinv Hlt.
{ pose proof (topo_inv_length g deg0 deg ready result Hwf Hk Hinv) as H.
  rewrite length_app in H. lia. }
destruct ready as [|r ready]; [by exists result, deg|].
assert (Hinv' : topo_inv g deg (sort_ready sk (r :: ready)) result).
{ eapply topo_inv_perm; [|done]. by rewrite sort_ready_perm. }
apply topo_inv_step in Hinv'. simpl in Hinv' |- *.
destruct (relax_layer g deg (sort_ready sk (r :: ready))) as [deg' ready'] eqn:E.
apply (IH deg' ready'); [done|].
rewrite length_app, sort_ready_perm. simpl. lia.
Qed.

(** ** Correctness *)

Definition acyclic (g : digraph) : Prop :=
∃ rank : T → nat, ∀ u v, v ∈ succs g u → rank u < rank v.

Lemma topo_run g sk :
dict_wf g → ∃ res deg', topo_inv g deg' [] res ∧ length res ≤ length (in_degree g) ∧
  topological_sort g sk =
    if decide (length res = length (in_degree g)) then Ok res
    else Err (ValueError "Graph has at least one cycle.").
Proof.
intros Hwf.
destruct (topo_loop_fuel (S (length (in_degree g))) g sk (in_degree g) (in_degree g)
  ((filter (λ kv, kv.2 = 0%Z) (in_degree g)).*1) []) as (res & deg' & Hl & Hinv).
- apply in_degree_wf.
- intros n. by apply in_degree_keys.
- by apply topo_inv_init.
- simpl. lia.
- exists res, deg'. split; [done|]. split; [|by unfold topological_sort; rewrite Hl].
  rewrite <-(app_nil_r res). eapply topo_inv_length; [apply in_degree_wf| |done].
  intros n. by apply in_degree_keys.
Qed.

Lemma topo_complete g deg res :
dict_wf g → topo_inv g deg [] res →
length res = length (in_degree g) ↔ ∀ n, is_node g n → n ∈ res.
Proof.
intros Hwf Hinv. rewrite <-(length_fmap fst (in_degree g)).
assert (Hsub : res ⊆ dkeys (in_degree g)).
{ intros x Hx. apply in_degree_keys; [done|].
  apply (ti_done _ _ _ _ Hinv). by rewrite app_nil_r. }
assert (Hnd : NoDup res) by (pose proof (ti_nodup _ _ _ _ Hinv) as H; by rewrite app_nil_r in H).
split.
- intros Hlen n Hn. apply (in_degree_keys _ _ Hwf) in Hn.
  assert (Hp : res ≡ₚ dkeys (in_degree g)).
  { apply submseteq_length_Permutation; [by apply NoDup_submseteq|].
    unfold dkeys. lia. }
  by rewrite Hp.
- intros Hall. apply Permutation_length, NoDup_Permutation; [done|apply in_degree_wf|].
  intros x. split; [apply Hsub|]. intros Hx. apply Hall. by apply in_degree_keys.
Qed.

(** The result lists every node once, each after its predecessors. *)
Lemma topological_sort_ok g sk res :
dict_wf g → topological_sort g sk = Ok res →
NoDup res ∧ (∀ n, n ∈ res ↔ is_node g n) ∧ respects g res.
Proof.
intros Hwf H. destruct (topo_run g sk Hwf) as (r & deg & Hinv & _ & Hr).
rewrite Hr in H. case_decide as Hlen; [|done]. injection H as <-.
pose proof (proj1 (topo_complete g deg r Hwf Hinv) Hlen) as Hall.
destruct Hinv as [Ha Hb Hc Hd]. rewrite app_nil_r in Hb, Hc.
split; [done|]. split; [|done]. intros n. split; [by intros [??]%Hc|apply Hall].
Qed.

(** An order that respects the edges ranks them. *)
Lemma respects_acyclic g res :
NoDup res → (∀ u v, v ∈ succs g u → v ∈ res) → respects g res → acyclic g.
Proof.
intros Hnd Hall Hord. exists (λ n, match list_find (n =.) res with Some (i, _) => i | None => 0 end).
intros u v Hv. pose proof (Hall u v Hv) as Hvin.
apply list_elem_of_split in Hvin as (l1 & l2 & ->).
pose proof (Hord l1 v l2 eq_refl u Hv) as Hu.
apply NoDup_app in Hnd as (_ & Hdis & _).
destruct (list_find_elem_of (u =.) l1 u Hu eq_refl) as [[i x] Ei].
erewrite list_find_app_l by exact Ei.
rewrite (list_find_app_r (v =.)).
2:{ apply list_find_None, Forall_forall. intros y Hy <-. apply (Hdis v Hy), list_elem_of_here. }
simpl. rewrite decide_True by done. simpl.
apply list_find_Some in Ei as (Hlk & _ & _). apply lookup_lt_Some in Hlk. lia.
Qed.

(** On an acyclic graph a run that stops has emitted every node. *)
Lemma topo_inv_complete g deg r :
dict_wf g → acyclic g → topo_inv g deg [] r → ∀ n, is_node g n → n ∈ r.
Proof.
intros Hwf [rank Hrank] Hinv.
assert (G : ∀ k n, rank n < k → is_node g n → n ∈ r).
{ induction k as [|k IH]; [lia|]. intros n Hn Hnode.
  destruct (decide (n ∈ r)) as [|Hnot]; [done|exfalso].
  assert (Hdeg : dget_or 0%Z n deg ≠ 0%Z).
  { intros Hz. apply Hnot. rewrite <-(app_nil_r r). by apply (ti_done _ _ _ _ Hinv). }
  rewrite (ti_deg _ _ _ _ Hinv) in Hdeg.
  assert (Hex : ∃ u, u ∈ dkeys g ∧ u ∉ r ∧ n ∈ succs g u).
  { destruct (decide (Exists (λ u, u ∉ r ∧ n ∈ succs g u) (dkeys g))) as [H|H].
    - apply Exists_exists in H as (u & ? & ? & ?). eauto.
    - exfalso. apply Hdeg. rewrite <-Forall_Exists_neg, Forall_forall in H.
      pose proof (occ_targets_cover g n (dkeys g) r Hwf) as Hc.
      assert (NoDup r) as Hnd by (pose proof (ti_nodup _ _ _ _ Hinv) as HH; by rewrite app_nil_r in HH).
      pose proof (occ_targets_le g n r Hnd). assert (∀ u, u ∈ dkeys g → n ∈ succs g u → u ∈ r) as HH; [|specialize (Hc HH); lia].
      intros u Hu Hin. destruct (decide (u ∈ r)); [done|]. by destruct (H u Hu). }
  destruct Hex as (u & Hu & Hnr & Hus). apply Hnr. apply IH; [|by left].
  specialize (Hrank u n Hus). lia. }
intros n Hn. by apply (G (S (rank n)) n); [lia|].
Qed.

(** It raises exactly on the cyclic graphs. *)
Lemma topological_sort_iff g sk :
dict_wf g → (∃ res, topological_sort g sk = Ok res) ↔ acyclic g.
Proof.
intros Hwf. split.
- intros [res H]. apply topological_sort_ok in H as (Hnd & Hall & Hord); [|done].
  apply (respects_acyclic g res); [done| |done].
  intros u v Hv. apply Hall. right. apply elem_targets. exists u. split; [|done]. by eapply succs_key.
- intros Hac. destruct (topo_run g sk Hwf) as (r & deg & Hinv & _ & Hr).
  rewrite Hr. exists r. rewrite decide_True; [done|].
  apply (topo_complete g deg r Hwf Hinv). by eapply topo_inv_complete.
Qed.
End topo.
