(* ===== verification/RuntimeGraph.v ===== *)
(** * Runtime graphs (runtime/runtime_ops.py, runtime/runtime_graph.py)

    A runtime graph is the unit the scheduler batches and the optimizers
    place: a dict of runtime ops with their dependencies, the order the
    builder emitted them in, and the maps that tie outputs back to the
    workflow.  The file models the record types, [topological_order],
    [list_lambda_cardinality_nodes], [with_node_prefix] and
    [merge_runtime_graphs]. *)

From S2P Require Import Prelude PyFloat PyDict PyValue PyString TopoSort.

(** [python_step.TASK_TYPE] *)
Definition PYTHON_TASK_TYPE : string := "python".

Module RuntimeOp.
Record t := mk {
node_id : string;
task_type : string;
backend : string;
model : string;
data_spec : dict string val;
model_spec : dict string val;
inference_spec : dict string val;
api_spec : dict string val;
dependencies : list string;
output_spec : option (dict string val);
condition : option (dict string string);
}.
#[global] Instance eq_dec : EqDecision t.
Proof. solve_decision. Defined.

(** [model_key] *)
Definition model_key (op : t) : string * string * string := (task_type op, backend op, model op).
End RuntimeOp.

Module RuntimeGraph.
Record t := mk {
nodes : dict string RuntimeOp.t;
node_order : list string;
output_node_map : dict string string;
output_paths : dict string string;
dsl_to_runtime : dict string (list string);
}.
#[global] Instance eq_dec : EqDecision t.
Proof. solve_decision. Defined.

Definition node_count (g : t) : Z := Z.of_nat (length (nodes g)).

(** The nodes are indexed by their own id, once each, and [node_order]
  lists them. *)
Record wf (g : t) : Prop := {
wf_nodes : dict_wf (nodes g);
wf_order : NoDup (node_order g);
wf_order_nodes n : n ∈ node_order g ↔ n ∈ dkeys (nodes g);
}.

(** [graph[dep].add(node_id)] on a set kept in insertion order. *)
Definition add_edge (graph : dict string (list string)) (dep node : string) :
  dict string (list string) :=
let out := dget_or [] dep graph in
dset dep (if decide (node ∈ out) then out else out ++ [node]) graph.

(** The edges into one node. *)
Definition add_deps (node : string) (graph : dict string (list string)) (deps : list string) :
  dict string (list string) :=
foldl (λ graph dep, add_edge graph dep node) graph deps.

Definition add_node (graph : dict string (list string)) (kv : string * RuntimeOp.t) :
  dict string (list string) :=
add_deps kv.1 graph (RuntimeOp.dependencies kv.2).

Definition dependency_graph (g : t) : dict string (list string) :=
foldl add_node (dict_of (map (λ kv, (kv.1, [])) (nodes g))) (nodes g).

(** [order_index.get(node_id, len(order_index))], where [order_index] is
  built by a dict comprehension (the last occurrence of an id counts). *)
Definition order_index (g : t) : dict string Z :=
dict_of (zip (node_order g) (Z.of_nat <$> seq 0 (length (node_order g)))).

Definition order_key (g : t) (node : string) : Z :=
dget_or (Z.of_nat (length (order_index g))) node (order_index g).

Definition topological_order (g : t) : result (list string) :=
order ← topological_sort (dependency_graph g) (Some (order_key g));
Ok (filter (λ node, node ∈ dkeys (nodes g)) order).

(** ** Cardinality of list-mode lambdas *)

Definition is_list_lambda (op : RuntimeOp.t) : bool :=
(String.eqb (RuntimeOp.task_type op) PYTHON_TASK_TYPE &&
 bool_decide (vget "mode" (RuntimeOp.data_spec op) = VStr "list"))%bool.

Definition is_row_step (op : RuntimeOp.t) : bool :=
(String.eqb (RuntimeOp.task_type op) PYTHON_TASK_TYPE &&
 negb (bool_decide (vget "mode" (RuntimeOp.data_spec op) = VStr "list")))%bool.

Definition list_lambda_cardinality_nodes (g : t) : result (list string) :=
let seeds := (filter (λ kv, is_list_lambda kv.2 = true) (nodes g)).*1 in
foldR (λ dependent node_id,
  node ← dindex (KeyError node_id) node_id (nodes g);
  if decide (node_id ∈ seeds) then Ok (dependent ++ [node_id])
  else if is_row_step node then Ok dependent
  else if existsb (λ dep, bool_decide (dep ∈ dependent)) (RuntimeOp.dependencies node)
       then Ok (dependent ++ [node_id])
  else Ok dependent) [] (node_order g).

(** ** Prefixing a graph's node ids *)

(** [remap]: a dict value under the key ["node"] that names a node of the
  graph is renamed, placeholders are rewritten for the op's own
  dependencies only. *)
Fixpoint remap (mapping rewritable : string → option string) (v : val) {struct v} : val :=
match v with
| VDict d =>
    let fix items (d : list (string * val)) :=
      match d with
      | [] => []
      | (key, item) :: d' =>
          (key, match item with
                | VStr s =>
                    if String.eqb key "node" then
                      match mapping s with
                      | Some s' => VStr s'
                      | None => remap mapping rewritable item
                      end
                    else remap mapping rewritable item
                | _ => remap mapping rewritable item
                end) :: items d'
      end in
    VDict (items d)
| VList l => VList (map (remap mapping rewritable) l)
| VTuple l => VTuple (map (remap mapping rewritable) l)
| VStr s => VStr (remap_placeholder rewritable s)
| _ => v
end.

Definition remap_dict mapping rewritable (d : dict string val) : dict string val :=
match remap mapping rewritable (VDict d) with VDict d' => d' | _ => d end.

Definition remap_condition (mapping rewritable : string → option string)
  (d : dict string string) : dict string string :=
map (λ kv, (kv.1,
  match (if String.eqb kv.1 "node" then mapping kv.2 else None) with
  | Some s' => s'
  | None => remap_placeholder rewritable kv.2
  end)) d.

Definition with_node_prefix (prefix separator : string) (g : t) : result t :=
if String.eqb prefix "" then Ok g
else
  let mapping := dict_of (map (λ kv, (kv.1, prefix +:+ separator +:+ kv.1)) (nodes g)) in
  let lookup n := dget n mapping in
  let rename n := dget_or n n mapping in
  let index n := dindex (KeyError n) n mapping in
  ns ← mapR (λ kv,
    new_id ← index kv.1;
    let op := kv.2 in
    let rewritable :=
      dict_of (omap (λ dep, (λ m, (dep, m)) <$> lookup dep) (RuntimeOp.dependencies op)) in
    let rw n := dget n rewritable in
    Ok (new_id, RuntimeOp.mk new_id (RuntimeOp.task_type op) (RuntimeOp.backend op)
          (RuntimeOp.model op)
          (remap_dict lookup rw (RuntimeOp.data_spec op))
          (remap_dict lookup rw (RuntimeOp.model_spec op))
          (remap_dict lookup rw (RuntimeOp.inference_spec op))
          (remap_dict lookup rw (RuntimeOp.api_spec op))
          (rename <$> RuntimeOp.dependencies op)
          (remap_dict lookup rw <$> RuntimeOp.output_spec op)
          (remap_condition lookup rw <$> RuntimeOp.condition op))) (nodes g);
  order ← mapR index (node_order g);
  outputs ← mapR (λ kv, n ← index kv.1; Ok (n, kv.2)) (output_node_map g);
  paths ← mapR (λ kv, n ← index kv.1; Ok (n, kv.2)) (output_paths g);
  Ok (mk (dict_of ns) order (dict_of outputs) (dict_of paths)
         (map (λ kv, (kv.1, rename <$> kv.2)) (dsl_to_runtime g))).

(** ** Merging graphs *)

Record merging := Merging {
m_graph : t;
m_outputs : dict string (string * string);
}.

(** The nodes of one graph; a node id already merged is an error. *)
Definition merge_node (graph : t) (m : merging) (node_id : string) : result merging :=
if dmem node_id (nodes (m_graph m))
then Err (ValueError ("Duplicate runtime node id across graphs: " +:+ node_id))
else
  op ← dindex (KeyError node_id) node_id (nodes graph);
  let g := m_graph m in
  Ok (Merging (mk (dset node_id op (nodes g)) (node_order g ++ [node_id])
                  (output_node_map g) (output_paths g) (dsl_to_runtime g))
              (m_outputs m)).

Definition merge_nodes (graph : t) (m : merging) : result merging :=
foldR (merge_node graph) m (node_order graph).

(** [existing.append(runtime_id)] unless present *)
Definition add_missing (existing : list string) (ids : list string) : list string :=
foldl (λ ex id, if decide (id ∈ ex) then ex else ex ++ [id]) existing ids.

Definition merge_dsl (graph : t) (d : dict string (list string)) : dict string (list string) :=
foldl (λ d kv,
  match dget kv.1 d with
  | None => dset kv.1 kv.2 d
  | Some existing => dset kv.1 (add_missing existing kv.2) d
  end) d (dsl_to_runtime graph).

Definition merge_one (m : merging) (named : string * t) : result merging :=
let '(graph_name, graph) := named in
m' ← merge_nodes graph m;
let g := m_graph m' in
Ok (Merging
  (mk (nodes g) (node_order g)
      (dupdate (output_node_map g) (output_node_map graph))
      (dupdate (output_paths g) (output_paths graph))
      (merge_dsl graph (dsl_to_runtime g)))
  (dupdate (m_outputs m')
     (map (λ kv, (kv.1, (graph_name, kv.2))) (output_node_map graph)))).

Definition empty_graph : t := mk [] [] [] [] [].

Definition merge_runtime_graphs (graphs : dict string t) :
  result (t * dict string (string * string)) :=
m ← foldR merge_one (Merging empty_graph []) graphs;
Ok (m_graph m, m_outputs m).

(** ** The dependency graph and its order *)

Lemma succs_add_edge graph dep node k v :
v ∈ succs (add_edge graph dep node) k ↔ v ∈ succs graph k ∨ k = dep ∧ v = node.
Proof.
unfold succs, add_edge. rewrite dget_or_dset. case_decide; subst; [|naive_solver].
case_decide; [naive_solver|]. rewrite elem_of_app. set_solver.
Qed.

Lemma add_edge_wf graph dep node : dict_wf graph → dict_wf (add_edge graph dep node).
Proof. apply dict_wf_dset. Qed.

Lemma add_edge_keys graph dep node k :
k ∈ dkeys (add_edge graph dep node) ↔ k = dep ∨ k ∈ dkeys graph.
Proof. apply elem_of_dkeys_dset. Qed.

(** The edges of one node. *)
Lemma succs_add_deps deps graph node k v :
v ∈ succs (add_deps node graph deps) k
↔ v ∈ succs graph k ∨ k ∈ deps ∧ v = node.
Proof.
unfold add_deps.
revert graph. induction deps as [|d deps IH]; intros graph; simpl; [set_solver|].
rewrite IH, succs_add_edge. set_solver.
Qed.

Lemma succs_add_nodes (ns : dict string RuntimeOp.t) graph k v :
v ∈ succs (foldl add_node graph ns) k
↔ v ∈ succs graph k ∨ ∃ op, (v, op) ∈ ns ∧ k ∈ RuntimeOp.dependencies op.
Proof.
revert graph. induction ns as [|[n op] ns IH]; intros graph; simpl; [set_solver|].
rewrite IH. unfold add_node. rewrite succs_add_deps. simpl. set_solver.
Qed.

Lemma fold_edges_inv (P : dict string (list string) → Prop) (ns : dict string RuntimeOp.t) graph :
(∀ g d n, P g → P (add_edge g d n)) → P graph →
P (foldl add_node graph ns).
Proof.
intros Hstep. revert graph. induction ns as [|[n op] ns IH]; intros graph Hg; simpl; [done|].
apply IH. clear IH. unfold add_node, add_deps. simpl. revert graph Hg.
induction (RuntimeOp.dependencies op) as [|d deps IH]; intros graph Hg; simpl; [done|].
apply IH. by apply Hstep.
Qed.

Lemma empty_sets (l : dict string RuntimeOp.t) k v :
v ∈ succs (dict_of (map (λ kv, (kv.1, [] : list string)) l)) k ↔ False.
Proof.
unfold dict_of. assert (H : v ∈ succs ([] : dict string (list string)) k ↔ False)
  by (unfold succs; set_solver).
revert H. generalize ([] : dict string (list string)).
induction l as [|kv l IH]; intros d H; simpl; [done|].
apply IH. unfold succs in *. rewrite dget_or_dset. case_decide; set_solver.
Qed.

Lemma dependency_graph_wf g : dict_wf (dependency_graph g).
Proof. apply (fold_edges_inv dict_wf); [intros; by apply add_edge_wf|apply dict_wf_of]. Qed.

(** [u -> v] is an edge exactly when [v] depends on [u]. *)
Lemma dependency_graph_succs g u v :
v ∈ succs (dependency_graph g) u ↔
∃ op, (v, op) ∈ nodes g ∧ u ∈ RuntimeOp.dependencies op.
Proof. unfold dependency_graph. rewrite succs_add_nodes, empty_sets. tauto. Qed.

Lemma dependency_graph_node g n : n ∈ dkeys (nodes g) → is_node (dependency_graph g) n.
Proof.
intros Hn. left. unfold dependency_graph.
apply (fold_edges_inv (λ d, n ∈ dkeys d)).
- intros d dep m H. apply add_edge_keys. by right.
- unfold dict_of.
  assert (G : ∀ d : dict string (list string),
    n ∈ dkeys d ∨ n ∈ dkeys (nodes g) →
    n ∈ dkeys (foldl (λ d kv, dset kv.1 kv.2 d) d (map (λ kv, (kv.1, [])) (nodes g)))).
  { clear Hn. induction (nodes g) as [|kv l IH]; intros d H; simpl; [set_solver|].
    apply IH. rewrite elem_of_dkeys_dset. unfold dkeys in *. set_solver. }
  apply G. by right.
Qed.

(** [before l u v]: [u] occurs strictly before every occurrence of [v]. *)
Definition before (l : list string) (u v : string) : Prop :=
∀ l1 l2, l = l1 ++ v :: l2 → u ∈ l1.

Lemma before_filter (P : string → Prop) `{∀ x, Decision (P x)} l u v :
P u → before l u v → before (filter P l) u v.
Proof.
intros Hu Hb l1 l2 Hl.
assert (G : ∀ l l1 l2, filter P l = l1 ++ v :: l2 →
  ∃ k1 k2, l = k1 ++ v :: k2 ∧ filter P k1 = l1).
{ clear -P. induction l as [|x l IH]; intros l1 l2 Hl; [by destruct l1|].
  destruct (decide (P x)) as [Hx|Hx].
  - rewrite filter_cons_True in Hl by done. destruct l1 as [|y l1]; simpl in Hl.
    + injection Hl as -> Hl. by exists [], l.
    + injection Hl as -> Hl. destruct (IH _ _ Hl) as (k1 & k2 & -> & <-).
      exists (y :: k1), k2. split; [done|]. by rewrite filter_cons_True.
  - rewrite filter_cons_False in Hl by done. destruct (IH _ _ Hl) as (k1 & k2 & -> & <-).
    exists (x :: k1), k2. split; [done|]. by rewrite filter_cons_False. }
destruct (G _ _ _ Hl) as (k1 & k2 & Hk & <-).
apply list_elem_of_filter. split; [done|]. by apply (Hb k1 k2).
Qed.

Definition depends_on (g : t) (v u : string) : Prop :=
∃ op, dget v (nodes g) = Some op ∧ u ∈ RuntimeOp.dependencies op.

(** The order lists every node once and puts each node after the nodes it
  depends on. *)
Lemma topological_order_ok g order :
dict_wf (nodes g) → topological_order g = Ok order →
NoDup order ∧ (∀ n, n ∈ order ↔ n ∈ dkeys (nodes g)) ∧
(∀ u v, u ∈ dkeys (nodes g) → depends_on g v u → before order u v).
Proof.
intros Hwf H. unfold topological_order in H. inv_ok.
apply topological_sort_ok in Ha as (Hnd & Hall & Hord); [|apply dependency_graph_wf].
split; [by apply NoDup_filter|]. split.
- intros n. rewrite list_elem_of_filter, Hall. split; [naive_solver|].
  intros Hn. split; [done|by apply dependency_graph_node].
- intros u v Hu (op & Hv & Hdep). apply before_filter; [done|].
  intros l1 l2 Hl. apply (Hord l1 v l2 Hl). apply dependency_graph_succs.
  exists op. split; [by apply dget_elem|done].
Qed.

(** It raises exactly when the dependencies are cyclic. *)
Lemma topological_order_total g :
dict_wf (nodes g) →
(∃ order, topological_order g = Ok order) ↔
∃ rank : string → nat, ∀ u v, depends_on g v u → rank u < rank v.
Proof.
intros Hwf.
pose proof (topological_sort_iff (dependency_graph g) (Some (order_key g))
              (dependency_graph_wf g)) as Hiff.
assert (Hdep : ∀ u v, v ∈ succs (dependency_graph g) u ↔ depends_on g v u).
{ intros u v. rewrite dependency_graph_succs. unfold depends_on. split.
  - intros (op & Hin & Hd). exists op. split; [by apply elem_dget|done].
  - intros (op & Hin & Hd). exists op. split; [by apply dget_elem|done]. }
unfold acyclic in Hiff. setoid_rewrite Hdep in Hiff. rewrite <-Hiff.
unfold topological_order. split.
- intros [order H]. inv_ok. eauto.
- intros [res ->]. simpl. eauto.
Qed.

(** ** Merging *)

Definition all_order (gs : list (string * t)) : list string := gs ≫= (λ ng, node_order ng.2).

Lemma merge_nodes_spec graph m :
(∀ n, n ∈ node_order graph → n ∈ dkeys (nodes graph)) →
match merge_nodes graph m with
| Ok m' =>
    NoDup (node_order graph) ∧
    (∀ n, n ∈ node_order graph → n ∉ dkeys (nodes (m_graph m))) ∧
    node_order (m_graph m') = node_order (m_graph m) ++ node_order graph ∧
    dkeys (nodes (m_graph m')) = dkeys (nodes (m_graph m)) ++ node_order graph ∧
    (∀ n, n ∈ node_order graph → dget n (nodes (m_graph m')) = dget n (nodes graph)) ∧
    (∀ n, n ∉ node_order graph →
       dget n (nodes (m_graph m')) = dget n (nodes (m_graph m))) ∧
    output_node_map (m_graph m') = output_node_map (m_graph m) ∧
    output_paths (m_graph m') = output_paths (m_graph m) ∧
    dsl_to_runtime (m_graph m') = dsl_to_runtime (m_graph m) ∧
    m_outputs m' = m_outputs m
| Err _ =>
    ¬ (NoDup (node_order graph) ∧
       ∀ n, n ∈ node_order graph → n ∉ dkeys (nodes (m_graph m)))
end.
Proof.
unfold merge_nodes. intros Hin. revert m.
induction (node_order graph) as [|n order IH]; intros m; simpl.
{ rewrite !app_nil_r. split_and!; try done; first [apply NoDup_nil_2|set_solver]. }
destruct (merge_node graph m n) as [m1|] eqn:E1; unfold merge_node in E1;
  (destruct (dmem n (nodes (m_graph m))) eqn:Em;
   [apply dmem_true in Em|apply dmem_false in Em]);
  destruct (dget n (nodes graph)) as [op|] eqn:Eop; unfold dindex in E1; rewrite ?Eop in E1;
  simplify_eq/=; try (intros [_ H]; apply (H n); [set_solver|done]).
2: exfalso; apply dget_None in Eop; apply Eop, Hin; set_solver.
match goal with |- context [foldR _ ?m1 order] => specialize (IH ltac:(set_solver) m1) end.
revert IH. destruct (foldR (merge_node graph) _ order) as [m'|e];
  simpl; rewrite dkeys_dset, decide_False by done.
- intros (Hnd & Hdis & -> & Hk & Hg & Hng & -> & -> & -> & ->).
  rewrite <-!app_assoc, Hk, <-!app_assoc. split_and!; try done.
  + constructor; [|done]. intros Hn. apply (Hdis n Hn). set_solver.
  + intros x [->|Hx]%elem_of_cons; [done|]. specialize (Hdis x Hx). set_solver.
  + intros x Hx. destruct (decide (x ∈ order)) as [Hxo|Hxo]; [by apply Hg|].
    assert (x = n) as -> by set_solver. rewrite Hng by done. by rewrite dget_dset_eq.
  + intros x Hx. rewrite Hng by set_solver. apply dget_dset_ne. set_solver.
- intros Hnot [Hnd Hdis]. apply NoDup_cons in Hnd as [Hn Hnd]. apply Hnot. split; [done|].
  intros x Hx. specialize (Hdis x). set_solver.
Qed.

Definition ordered_nodes (g : t) : Prop := ∀ n, n ∈ node_order g → n ∈ dkeys (nodes g).

(** What the merge has built after the graphs [gs]. *)
Record merge_inv (gs : list (string * t)) (m : merging) : Prop := {
mi_order : node_order (m_graph m) = all_order gs;
mi_keys : dkeys (nodes (m_graph m)) = all_order gs;
mi_nodup : NoDup (all_order gs);
mi_nodes name graph n : (name, graph) ∈ gs → n ∈ node_order graph →
  dget n (nodes (m_graph m)) = dget n (nodes graph);
}.

Lemma all_order_app gs1 gs2 : all_order (gs1 ++ gs2) = all_order gs1 ++ all_order gs2.
Proof. apply bind_app. Qed.

Lemma all_order_one name g : all_order [(name, g)] = node_order g.
Proof. unfold all_order. csimpl. apply app_nil_r. Qed.

Lemma merge_one_spec gs m name graph :
ordered_nodes graph → merge_inv gs m →
match merge_one m (name, graph) with
| Ok m' => merge_inv (gs ++ [(name, graph)]) m'
| Err _ => ¬ NoDup (all_order (gs ++ [(name, graph)]))
end.
Proof.
intros Hord [Ho Hk Hn Hg]. unfold merge_one.
pose proof (merge_nodes_spec graph m Hord) as H.
destruct (merge_nodes graph m) as [m'|e]; simpl.
- destruct H as (Hnd & Hdis & H1 & H2 & H3 & H4 & _).
  split; simpl; rewrite ?all_order_app, ?all_order_one.
  + by rewrite H1, Ho.
  + by rewrite H2, Hk.
  + apply NoDup_app. split; [done|]. split; [|done].
    intros x Hx Hx'. apply (Hdis x Hx'). by rewrite Hk.
  + intros nm gr n [Hin|Hin]%elem_of_app Hn'.
    * rewrite H4; [by apply (Hg nm)|]. intros Hx. apply (Hdis n Hx). rewrite Hk.
      unfold all_order. apply list_elem_of_bind. by exists (nm, gr).
    * apply list_elem_of_singleton in Hin as [= -> ->]. by apply H3.
- rewrite all_order_app, all_order_one. intros (_ & Hdis & Hnd)%NoDup_app. apply H.
  split; [done|]. intros n Hn' Hn''. rewrite Hk in Hn''. by apply (Hdis n).
Qed.

Lemma merge_fold gs0 m gs :
Forall (λ ng, ordered_nodes ng.2) gs → merge_inv gs0 m →
match foldR merge_one m gs with
| Ok m' => merge_inv (gs0 ++ gs) m'
| Err _ => ¬ NoDup (all_order (gs0 ++ gs))
end.
Proof.
revert gs0 m. induction gs as [|[name g] gs IH]; intros gs0 m Hall Hinv.
{ simpl. by rewrite app_nil_r. }
inversion_clear Hall as [|?? Hg Hgs].
pose proof (merge_one_spec gs0 m name g Hg Hinv) as H.
rewrite foldR_cons. change ((name, g) :: gs) with ([(name, g)] ++ gs).
rewrite app_assoc. destruct (merge_one m (name, g)) as [m'|e].
- by apply IH.
- rewrite all_order_app. by intros (? & _)%NoDup_app.
Qed.

Lemma merge_inv_nil : merge_inv [] (Merging empty_graph []).
Proof. split; [done|done|constructor|set_solver]. Qed.

(** The merge succeeds exactly when no node id is repeated, and then every
  node keeps the op its own graph gave it. *)
Lemma merge_runtime_graphs_spec gs :
Forall (λ ng, ordered_nodes ng.2) gs →
match merge_runtime_graphs gs with
| Ok (g, _) =>
    node_order g = all_order gs ∧ dkeys (nodes g) = all_order gs ∧ NoDup (all_order gs) ∧
    ∀ name graph n, (name, graph) ∈ gs → n ∈ node_order graph →
      dget n (nodes g) = dget n (nodes graph)
| Err _ => ¬ NoDup (all_order gs)
end.
Proof.
intros Hall. pose proof (merge_fold [] _ gs Hall merge_inv_nil) as H.
unfold merge_runtime_graphs. simpl in H.
destruct (foldR merge_one _ gs) as [m|e]; simpl; [|done].
destruct H. split_and!; done.
Qed.

(** ** The outputs of a merge *)

(** A graph names the outputs of its own nodes only. *)
Definition local_outputs (g : t) : Prop :=
dict_wf (output_node_map g) ∧ ∀ n, n ∈ dkeys (output_node_map g) → n ∈ node_order g.

Definition tagged (ng : string * t) : dict string (string * string) :=
map (λ kv, (kv.1, (ng.1, kv.2))) (output_node_map ng.2).

Lemma tagged_get ng n : dget n (tagged ng) = pair ng.1 <$> dget n (output_node_map ng.2).
Proof.
unfold tagged. induction (output_node_map ng.2) as [|[k v] l IH]; simpl; [done|].
case_decide; [done|apply IH].
Qed.

Lemma tagged_wf ng : dict_wf (output_node_map ng.2) → dict_wf (tagged ng).
Proof. unfold dict_wf, dkeys, tagged. by rewrite <-list_fmap_compose. Qed.

Lemma merge_one_outputs m ng m' :
ordered_nodes ng.2 → merge_one m ng = Ok m' → m_outputs m' = dupdate (m_outputs m) (tagged ng).
Proof.
destruct ng as [name graph]. intros Hord H. unfold merge_one in H.
pose proof (merge_nodes_spec graph m Hord) as Hs.
destruct (merge_nodes graph m) as [m1|]; [|done]. simpl in H. injection H as <-. simpl.
destruct Hs as (_ & _ & _ & _ & _ & _ & _ & _ & _ & ->). done.
Qed.

Lemma merge_outputs_fold gs m m' n :
Forall (λ ng, ordered_nodes ng.2 ∧ local_outputs ng.2) gs → NoDup (all_order gs) →
foldR merge_one m gs = Ok m' →
(∀ v, dget n (m_outputs m') = Some v ↔
  (∃ ng out, ng ∈ gs ∧ dget n (output_node_map ng.2) = Some out ∧ v = (ng.1, out)) ∨
  (∀ ng, ng ∈ gs → dget n (output_node_map ng.2) = None) ∧ dget n (m_outputs m) = Some v).
Proof.
revert m. induction gs as [|ng gs IH]; intros m Hall Hnd H v; simpl in H.
{ injection H as <-. set_solver. }
apply result_bind_ok in H as (m1 & H1 & H). inversion_clear Hall as [|?? [Ho [Hw Hl]] Hgs].
change (ng :: gs) with ([ng] ++ gs) in Hnd. rewrite all_order_app in Hnd.
destruct ng as [name g]. rewrite all_order_one in Hnd. apply NoDup_app in Hnd as (_ & Hdis & Hnd).
rewrite (IH m1 Hgs Hnd H v), (merge_one_outputs _ _ _ Ho H1).
rewrite (dget_dupdate _ _ _ (tagged_wf (name, g) Hw)), tagged_get. simpl.
assert (Hx : ∀ out, dget n (output_node_map g) = Some out → ∀ ng, ng ∈ gs →
  dget n (output_node_map ng.2) = None).
{ intros out Hout ng Hng. apply dget_None. intros Hin. rewrite Forall_forall in Hgs.
  destruct (Hgs ng Hng) as (_ & _ & Hl'). apply (Hdis n).
  - apply Hl, dget_is_Some. eauto.
  - unfold all_order. apply list_elem_of_bind. eauto. }
destruct (dget n (output_node_map g)) as [out|] eqn:E; simpl.
- specialize (Hx out eq_refl). split.
  + intros [(ng & o & Hng & Ho' & _)|[_ [= <-]]]; [by rewrite Hx in Ho'|].
    left. exists (name, g), out. split; [set_solver|done].
  + intros [(ng & o & [->|Hng]%elem_of_cons & Ho' & ->)|[Hn _]].
    * right. split; [done|]. simpl in *. congruence.
    * by rewrite Hx in Ho'.
    * specialize (Hn (name, g) ltac:(set_solver)). simpl in Hn. congruence.
- split.
  + intros [(ng & o & Hng & Ho' & ->)|[Hn ?]].
    * left. exists ng, o. split; [set_solver|done].
    * right. split; [|done]. intros ng [->|Hng]%elem_of_cons; [done|by apply Hn].
  + intros [(ng & o & [->|Hng]%elem_of_cons & Ho' & ->)|[Hn ?]].
    * simpl in *. congruence.
    * left. by exists ng, o.
    * right. split; [|done]. intros ng Hng. apply Hn. set_solver.
Qed.
End RuntimeGraph.

(** C39: the execution order of a runtime graph exists exactly when its
    dependencies are acyclic; it lists every node once and puts every node
    after all the nodes it depends on. *)
Theorem execution_order_correct g :
  dict_wf (RuntimeGraph.nodes g) →
  ((∃ order, RuntimeGraph.topological_order g = Ok order) ↔
     ∃ rank : string → nat, ∀ u v, RuntimeGraph.depends_on g v u → rank u < rank v) ∧
  ∀ order, RuntimeGraph.topological_order g = Ok order →
    NoDup order ∧ (∀ n, n ∈ order ↔ n ∈ dkeys (RuntimeGraph.nodes g)) ∧
    ∀ u v, u ∈ dkeys (RuntimeGraph.nodes g) → RuntimeGraph.depends_on g v u →
      RuntimeGraph.before order u v.
Proof.
  intros Hwf. split; [by apply RuntimeGraph.topological_order_total|].
  intros order. by apply RuntimeGraph.topological_order_ok.
Qed.

(** Merging runtime graphs is a disjoint union: it succeeds exactly when no
    node id occurs twice; then the merged order is the concatenation of the
    orders, every node keeps its own op, and each output node is attributed to
    the graph it came from with the name that graph gave it. *)
Theorem merge_is_disjoint_union gs :
  Forall (λ ng, RuntimeGraph.ordered_nodes ng.2 ∧ RuntimeGraph.local_outputs ng.2) gs →
  ((∃ r, RuntimeGraph.merge_runtime_graphs gs = Ok r) ↔ NoDup (RuntimeGraph.all_order gs)) ∧
  ∀ g outputs, RuntimeGraph.merge_runtime_graphs gs = Ok (g, outputs) →
    RuntimeGraph.node_order g = RuntimeGraph.all_order gs ∧
    dkeys (RuntimeGraph.nodes g) = RuntimeGraph.all_order gs ∧
    (∀ name graph n, (name, graph) ∈ gs → n ∈ RuntimeGraph.node_order graph →
       dget n (RuntimeGraph.nodes g) = dget n (RuntimeGraph.nodes graph)) ∧
    ∀ n name out, dget n outputs = Some (name, out) ↔
      ∃ graph, (name, graph) ∈ gs ∧ dget n (RuntimeGraph.output_node_map graph) = Some out.
Proof.
  intros Hall. assert (Hord : Forall (λ ng, RuntimeGraph.ordered_nodes ng.2) gs)
    by (eapply Forall_impl; [exact Hall|naive_solver]).
  pose proof (RuntimeGraph.merge_runtime_graphs_spec gs Hord) as Hs.
  destruct (RuntimeGraph.merge_runtime_graphs gs) as [[g o]|e] eqn:E; [|naive_solver].
  destruct Hs as (H1 & H2 & Hnd & H3). split; [naive_solver|]. intros g' outputs [= <- <-].
  split_and!; [done|done|done|]. intros n name out.
  unfold RuntimeGraph.merge_runtime_graphs in E. apply result_bind_ok in E as (m & E & [= _ <-]).
  rewrite (RuntimeGraph.merge_outputs_fold gs _ m n Hall Hnd E). split.
  - intros [([? ?] & ? & ? & ? & [= -> ->])|[_ ?]]; [eauto|done].
  - intros (graph & Hin & Ho). left. by exists (name, graph), out.
Qed.

(** Two small graphs: a lookup that feeds a prompt, and a lone step. *)
Module SampleGraphs.
Definition op (id : string) (deps : list string) : RuntimeOp.t :=
RuntimeOp.mk id "inference" "vllm" "m-7b" [] [] [] [] deps None None.
Definition lookup_prompt : RuntimeGraph.t :=
RuntimeGraph.mk [("prompt", op "prompt" ["lookup"]); ("lookup", op "lookup" [])]
  ["prompt"; "lookup"] [("prompt", "answer")] [] [].
Definition step : RuntimeGraph.t :=
RuntimeGraph.mk [("step", op "step" [])] ["step"] [("step", "answer")] [] [].
Definition both : list (string * RuntimeGraph.t) := [("w1", lookup_prompt); ("w2", step)].

Lemma both_local : Forall (λ ng, RuntimeGraph.ordered_nodes ng.2 ∧ RuntimeGraph.local_outputs ng.2) both.
Proof.
unfold both, RuntimeGraph.local_outputs. apply Forall_cons; split; [|apply Forall_cons; split; [|by apply Forall_nil]].
all: split; [|split; [apply (bool_decide_unpack _); vm_compute; exact I|]].
all: intros n; cbn; rewrite !elem_of_cons; tauto.
Qed.
End SampleGraphs.

Lemma execution_order_correct_witness :
  RuntimeGraph.topological_order SampleGraphs.lookup_prompt = Ok ["lookup"; "prompt"] ∧
  RuntimeGraph.before ["lookup"; "prompt"] "lookup" "prompt".
Proof.
  assert (Hwf : dict_wf (RuntimeGraph.nodes SampleGraphs.lookup_prompt))
    by (apply (bool_decide_unpack _); vm_compute; exact I).
  assert (E : RuntimeGraph.topological_order SampleGraphs.lookup_prompt = Ok ["lookup"; "prompt"])
    by (vm_compute; reflexivity).
  split; [exact E|].
  destruct (proj2 (execution_order_correct SampleGraphs.lookup_prompt Hwf) _ E) as (_ & _ & H).
  apply H; [right; left|]. eexists. split; [reflexivity|left].
Defined.

Lemma merge_is_disjoint_union_witness :
  ∃ r, RuntimeGraph.merge_runtime_graphs SampleGraphs.both = Ok r.
Proof.
  apply (proj1 (merge_is_disjoint_union SampleGraphs.both SampleGraphs.both_local)).
  apply (bool_decide_unpack _). vm_compute. exact I.
Defined.
