(* ===== verification/DslGraph.v ===== *)
(** * DSL graphs (graphs/graph.py, ops/ops.py)

    A DSL graph is a dict of ops indexed by their id.  An op object is
    identified by its id (that is what its hash uses), and an op refers to its
    inputs by reference: the objects live in a [heap] (id to op), and a
    reference is an id.  The file models [Graph.__init__], [compile],
    [dependencies], [topological_sort], [from_ops] (the traversal from the
    output ops) and [iter_ops]. *)

From S2P Require Import Prelude PyDict PyValue TopoSort.

Module DslOp.
(** The subclasses the code distinguishes by [isinstance], with the fields it
  reads through them ([None] columns are [VNone]). *)
Inductive kind :=
| InputOp
| OutputOp
| DataRetrievalOp (data_spec : dict string val)
| LLMChatOp (rowwise_columns : val)
| OtherOp (class_name : string).
#[global] Instance kind_eq_dec : EqDecision kind.
Proof. solve_decision. Defined.

Record t := mk {
id : string;
cls : kind;
name : string;
inputs : list string;
max_iter : option Z;
}.
#[global] Instance eq_dec : EqDecision t.
Proof. solve_decision. Defined.

Definition looping (op : t) : bool := match max_iter op with Some _ => true | None => false end.

(** [set_looping] *)
Definition set_looping (looping : bool) (iters : option Z) (op : t) : t :=
mk (id op) (cls op) (name op) (inputs op)
   (if looping then Some (match iters with None => (-1)%Z | Some n => n end) else None).
End DslOp.

Module Graph.
Record t := mk {
graph : dict string DslOp.t;
input_ops : dict string DslOp.t;
output_ops : dict string DslOp.t;
}.
#[global] Instance eq_dec : EqDecision t.
Proof. solve_decision. Defined.

(** [dependencies[dep].add(op)] on a [defaultdict(set)]. *)
Definition add_dependent (deps : dict string (list string)) (dep op : string) :
  dict string (list string) :=
let out := dget_or [] dep deps in
dset dep (if decide (op ∈ out) then out else out ++ [op]) deps.

Definition dependencies (graph : dict string DslOp.t) : dict string (list string) :=
foldl (λ deps op, foldl (λ deps dep, add_dependent deps dep (DslOp.id op)) deps (DslOp.inputs op))
      [] (dvals graph).

(** [topological_sort]: the graph is rebuilt from the sorted ops. *)
Definition sorted_graph (heap : string → option DslOp.t) (graph : dict string DslOp.t) :
  result (dict string DslOp.t) :=
sorted_ops ← topological_sort (dependencies graph) None;
ops ← mapR (λ id, ok_or (KeyError id) (heap id)) sorted_ops;
Ok (dict_of (map (λ op, (DslOp.id op, op)) ops)).

(** The scan of [__init__] that indexes the input and output ops by name. *)
Definition index_op (st : dict string DslOp.t * dict string DslOp.t) (op : DslOp.t) :
  result (dict string DslOp.t * dict string DslOp.t) :=
match DslOp.cls op with
| DslOp.InputOp =>
    if dmem (DslOp.name op) st.1
    then Err (ValueError ("Duplicate input name: " +:+ DslOp.name op))
    else Ok (dset (DslOp.name op) op st.1, st.2)
| DslOp.OutputOp =>
    if dmem (DslOp.name op) st.2
    then Err (ValueError ("Duplicate output name: " +:+ DslOp.name op))
    else Ok (st.1, dset (DslOp.name op) op st.2)
| _ => Ok st
end.

Definition init (heap : string → option DslOp.t) (g : dict string DslOp.t) : result t :=
io ← foldR index_op ([], []) (dvals g);
sorted ← sorted_graph heap g;
Ok (mk sorted io.1 io.2).

(** [_traverse_graph]: depth first from an op, marking on entry.  Each call
  adds an op, so the size of the heap bounds the depth. *)
Fixpoint traverse_op (fuel : nat) (heap : string → option DslOp.t)
  (g : dict string DslOp.t) (id : string) {struct fuel} : result (dict string DslOp.t) :=
match fuel with
| O => Err (RuntimeError "maximum recursion depth exceeded")
| S fuel' =>
    op ← ok_or (KeyError id) (heap id);
    if dmem id g then Err (ValueError "AssertionError")
    else foldR (λ g dep, if dmem dep g then Ok g else traverse_op fuel' heap g dep)
               (dset id op g) (DslOp.inputs op)
end.

Definition from_ops (fuel : nat) (heap : string → option DslOp.t) (ops : list string) : result t :=
g ← foldR (traverse_op fuel heap) [] ops;
init heap g.

Definition iter_ops (p : DslOp.kind → bool) (g : t) : list DslOp.t :=
filter (λ op, p (DslOp.cls op) = true) (dvals (graph g)).
End Graph.

Module CompiledGraph.
Record t := mk {
graph : Graph.t;
inputs : dict string (list string);
}.
#[global] Instance eq_dec : EqDecision t.
Proof. solve_decision. Defined.
End CompiledGraph.

(** [Graph.compile]: as many inputs as input ops, each of them present, each a
    list of strings. *)
Definition as_strings (name : string) (v : val) : result (list string) :=
  match v with
  | VList l => mapR (λ x, match x with
                          | VStr s => Ok s
                          | _ => Err (ValueError ("Input " +:+ name +:+ " contains a non-string value"))
                          end) l
  | _ => Err (ValueError ("Input " +:+ name +:+ " is not a list"))
  end.

Definition compile (g : Graph.t) (inputs : dict string val) : result CompiledGraph.t :=
  if decide (length inputs ≠ length (Graph.input_ops g))
  then Err (ValueError "Expected a different number of inputs")
  else
    _ ← mapR (λ kv, if dmem kv.1 inputs then Ok tt
                    else Err (ValueError ("Missing input: " +:+ kv.1))) (Graph.input_ops g);
    values ← mapR (λ kv, l ← as_strings kv.1 kv.2; Ok (kv.1, l)) inputs;
    Ok (CompiledGraph.mk g values).

(** ** Properties *)

(** [u] feeds [v]. *)
Definition feeds (g : dict string DslOp.t) (u v : string) : Prop :=
  ∃ op, op ∈ dvals g ∧ DslOp.id op = v ∧ u ∈ DslOp.inputs op.

Lemma succs_add_dependent deps dep op k v :
  v ∈ succs (Graph.add_dependent deps dep op) k ↔ v ∈ succs deps k ∨ k = dep ∧ v = op.
Proof.
  unfold succs, Graph.add_dependent. rewrite dget_or_dset. case_decide; subst; [|naive_solver].
  case_decide; [naive_solver|]. rewrite elem_of_app. set_solver.
Qed.

Lemma succs_op_dependents deps op inputs k v :
  v ∈ succs (foldl (λ deps dep, Graph.add_dependent deps dep op) deps inputs) k ↔
  v ∈ succs deps k ∨ k ∈ inputs ∧ v = op.
Proof.
  revert deps. induction inputs as [|i inputs IH]; intros deps; simpl; [set_solver|].
  rewrite IH, succs_add_dependent. set_solver.
Qed.

(** The dependency mapping is the "feeds" relation. *)
Lemma dependencies_succs g u v : v ∈ succs (Graph.dependencies g) u ↔ feeds g u v.
Proof.
  unfold Graph.dependencies, feeds.
  assert (G : ∀ ops deps,
    v ∈ succs (foldl (λ deps op, foldl (λ deps dep, Graph.add_dependent deps dep (DslOp.id op))
                                       deps (DslOp.inputs op)) deps ops) u ↔
    v ∈ succs deps u ∨ ∃ op, op ∈ ops ∧ DslOp.id op = v ∧ u ∈ DslOp.inputs op).
  { induction ops as [|op ops IH]; intros deps; simpl; [set_solver|].
    rewrite IH, succs_op_dependents. set_solver. }
  rewrite G. unfold succs. set_solver.
Qed.

Lemma dependencies_wf g : dict_wf (Graph.dependencies g).
Proof.
  unfold Graph.dependencies. assert (dict_wf ([] : dict string (list string))) as H by constructor.
  revert H. generalize ([] : dict string (list string)).
  induction (dvals g) as [|op ops IH]; intros deps H; simpl; [done|]. apply IH. clear IH.
  revert deps H. induction (DslOp.inputs op) as [|i l IH]; intros deps H; simpl; [done|].
  apply IH. by apply dict_wf_dset.
Qed.

(** A graph whose ops feed each other in a cycle is rejected; on every other
    one the sort succeeds. *)
Lemma dsl_sort_total g :
  (∃ l, topological_sort (Graph.dependencies g) None = Ok l) ↔
  ∃ rank : string → nat, ∀ u v, feeds g u v → rank u < rank v.
Proof.
  rewrite topological_sort_iff by apply dependencies_wf. unfold acyclic.
  by setoid_rewrite dependencies_succs.
Qed.

(** Only an op that something reads has an entry. *)
Lemma dependencies_key g n : n ∈ dkeys (Graph.dependencies g) → ∃ v, v ∈ succs (Graph.dependencies g) n.
Proof.
  unfold Graph.dependencies.
  assert (H : ∀ n, n ∈ dkeys ([] : dict string (list string)) → ∃ v, v ∈ succs ([] : dict string (list string)) n)
    by set_solver.
  revert H. generalize ([] : dict string (list string)). revert n.
  induction (dvals g) as [|op ops IH]; intros n deps H Hn; simpl in *; [by apply H|].
  eapply IH; [|exact Hn]. clear IH Hn n. revert deps H.
  induction (DslOp.inputs op) as [|i l IH]; intros deps H; simpl; [done|]. apply IH.
  intros n. unfold Graph.add_dependent at 1. rewrite elem_of_dkeys_dset. setoid_rewrite succs_add_dependent.
  intros [->|Hn]; [eauto|]. destruct (H n Hn) as [v Hv]. eauto.
Qed.

(** The objects of a sorted graph are looked up one by one. *)
Lemma lookup_ops (heap : string → option DslOp.t) order ops :
  mapR (λ id, ok_or (KeyError id) (heap id)) order = Ok ops →
  Forall2 (λ id op, heap id = Some op) order ops.
Proof. intros H%mapR_ok_inv. eapply Forall2_impl; [exact H|]. intros id op H'. simpl in H'. by apply ok_or_ok in H'. Qed.

Lemma keyed_ops (heap : string → option DslOp.t) order ops :
  (∀ id op, heap id = Some op → DslOp.id op = id) →
  Forall2 (λ id op, heap id = Some op) order ops →
  map (λ op, (DslOp.id op, op)) ops = zip order ops ∧
  (zip order ops).*1 = order ∧ ∀ id op, (id, op) ∈ zip order ops → heap id = Some op.
Proof.
  intros Hid. induction 1 as [|id op order ops Ho _ (IH1 & IH2 & IH3)]; csimpl; [set_solver|].
  rewrite (Hid id op Ho), IH1, IH2. split_and!; [done|done|].
  intros id' op' [[= -> ->]|Hin]%elem_of_cons; [done|by apply IH3].
Qed.

(** Constructing a graph orders its ops so that every op comes after the
    ops it reads: it fails on a cycle, and otherwise the graph that results
    holds, once each and under their own ids, exactly the ops that take part
    in a dependency (an op with no dependency at all is not kept). *)
Theorem graph_construction_sorts heap g G :
  (∀ id op, heap id = Some op → DslOp.id op = id) → Graph.init heap g = Ok G →
  (∃ rank : string → nat, ∀ u v, feeds g u v → rank u < rank v) ∧
  NoDup (dkeys (Graph.graph G)) ∧
  (∀ n, n ∈ dkeys (Graph.graph G) ↔ ∃ m, feeds g n m ∨ feeds g m n) ∧
  (∀ u v l1 l2, feeds g u v → dkeys (Graph.graph G) = l1 ++ v :: l2 → u ∈ l1) ∧
  ∀ id op, dget id (Graph.graph G) = Some op → heap id = Some op.
Proof.
  intros Hid H. unfold Graph.init, Graph.sorted_graph in H. inv_ok. simpl.
  split; [apply dsl_sort_total; eauto|].
  match goal with Hs : topological_sort _ _ = Ok ?order, Hl : mapR _ ?order = Ok ?ops |- _ =>
    apply topological_sort_ok in Hs as (Hnd & Hall & Hord); [|apply dependencies_wf];
    apply lookup_ops in Hl; destruct (keyed_ops heap order ops Hid Hl) as (-> & Hk & Hg) end.
  rewrite dict_of_nodup by (by rewrite Hk). unfold dkeys. rewrite Hk. split_and!; [done| | |].
  - intros n. rewrite Hall. unfold is_node. setoid_rewrite elem_targets.
    setoid_rewrite dependencies_succs. split.
    + intros [Hn|(u & _ & Hu)]; [|eauto].
      apply dependencies_key in Hn as [v Hv]. exists v. left. by apply dependencies_succs.
    + intros [m [Hm|Hm]].
      * left. apply dependencies_succs in Hm. by eapply succs_key.
      * right. exists m. split; [|done]. apply dependencies_succs in Hm. by eapply succs_key.
  - intros u v l1 l2 Huv Hl. apply (Hord l1 v l2 Hl). by apply dependencies_succs.
  - intros id op Ho. by apply Hg, dget_elem.
Qed.

Lemma graph_construction_sorts_witness :
  let ops := [DslOp.mk "out" DslOp.OutputOp "o" ["in"] None; DslOp.mk "in" DslOp.InputOp "i" [] None] in
  let heap id := list_find (λ op, DslOp.id op = id) ops ≫= λ kv, Some kv.2 in
  let g := map (λ op, (DslOp.id op, op)) ops in
  ∃ G, Graph.init heap g = Ok G ∧ dkeys (Graph.graph G) = ["in"; "out"] ∧ NoDup (dkeys (Graph.graph G)).
Proof.
  intros ops heap g.
  assert (Hid : ∀ id op, heap id = Some op → DslOp.id op = id).
  { intros id op H. unfold heap in H. apply bind_Some in H as ([k op'] & Hf & [= <-]).
    by apply list_find_Some in Hf as (_ & ? & _). }
  destruct (Graph.init heap g) as [G|e] eqn:E; [|vm_compute in E; discriminate E].
  exists G. split; [reflexivity|]. split; [vm_compute in E; injection E as <-; reflexivity|].
  exact (proj1 (proj2 (graph_construction_sorts heap g G Hid E))).
Defined.
