(* ===== verification/Capacity.v ===== *)
(** * Worker capability and capacity (runtime/worker_capability.py, runtime/capacity.py)

    A [FreeCapacity] is a snapshot of workers split by class, with their raw
    profiles.  Selection ([dispatch_count], [can_satisfy_hardware]) and the
    claim ([eligible_workers]) read the same snapshot; the theorems show that
    they agree.  The hardware check is a callable the caller passes
    ([meets]).  Sets of task types are lists. *)

From S2P Require Import Prelude PyFloat PyDict PyValue PyString Protocol RuntimeGraph.

(** ** Task types gated by worker capability *)

Definition CAPABILITY_GATED_TASK_TYPES : list string := [PYTHON_TASK_TYPE].
Definition CPU_ONLY_TASK_TYPES : list string := ["data_retrieval"; "api"; "python"].

(** [profile.get("supported_task_types", ())].  The runtime manager always
    stores a list of strings there; on another iterable Python would convert
    each element, and on a value that is not iterable it would raise. *)
Definition advertised_task_types (profile : dict string val) : list string :=
  match dget_or (VTuple []) "supported_task_types" profile with
  | VList l | VTuple l => omap (λ v, match v with VStr s => Some s | _ => None end) l
  | _ => []
  end.

Definition required_task_types (task_types : list string) : list string :=
  filter (λ t, t ∈ task_types) CAPABILITY_GATED_TASK_TYPES.

Definition requires_cpu_worker (task_types : list string) : bool :=
  existsb (λ t, bool_decide (norm t ∈ CPU_ONLY_TASK_TYPES)) task_types.

Definition subset_of (a b : list string) : bool := forallb (λ x, bool_decide (x ∈ b)) a.

Lemma subset_of_spec a b : subset_of a b = true ↔ a ⊆ b.
Proof.
  unfold subset_of. rewrite forallb_forall. setoid_rewrite bool_decide_eq_true.
  setoid_rewrite <-list_elem_of_In. done.
Qed.

Module FreeCapacity.
Record t := mk {
cpu_worker_ids : list string;
gpu_worker_ids : list string;
profiles : dict string (dict string val);
}.

Definition cpu_count (c : t) : Z := Z.of_nat (length (cpu_worker_ids c)).
Definition gpu_count (c : t) : Z := Z.of_nat (length (gpu_worker_ids c)).
Definition is_empty (c : t) : bool :=
match cpu_worker_ids c, gpu_worker_ids c with [], [] => true | _, _ => false end.
Definition profile_of (c : t) (w : string) : dict string val := dget_or [] w (profiles c).

Definition advertises (c : t) (task_types : list string) (w : string) : bool :=
subset_of task_types (advertised_task_types (profile_of c w)).

Definition has_cpu_worker_advertising (c : t) (task_types : list string) : bool :=
existsb (advertises c task_types) (cpu_worker_ids c).

Definition can_satisfy (c : t) (cpu_group_size gpu_group_size : Z) : bool :=
((cpu_group_size <=? cpu_count c) && (gpu_group_size <=? gpu_count c))%Z.

Section select.
Context (meets : dict string val → option HardwareRequirements.t → bool).
Context (hardware : option HardwareRequirements.t).

Definition meeting_hardware (c : t) (worker_ids : list string) : list string :=
match profiles c with
| [] => worker_ids
| _ => filter (λ w, meets (profile_of c w) hardware = true) worker_ids
end.

(** [min(counts, default=0)] *)
Definition min_default0 (counts : list Z) : Z :=
match counts with [] => 0%Z | x :: l => min_by Z.ltb id x l end.

Definition dispatch_count (c : t) (cpu_group_size gpu_group_size : Z)
  (required : list string) : Z :=
let eligible_cpu := meeting_hardware c (cpu_worker_ids c) in
let eligible_gpu := meeting_hardware c (gpu_worker_ids c) in
let counts :=
  omap (λ p : list string * Z,
          if (0 <? p.2)%Z then Some (Z.of_nat (length p.1) / p.2)%Z else None)
       [(eligible_cpu, cpu_group_size); (eligible_gpu, gpu_group_size)] in
match required with
| [] => min_default0 counts
| _ =>
    if ((cpu_group_size <? 1)%Z || bool_decide (profiles c = []))%bool then 0%Z
    else min_default0
           (counts ++ [Z.of_nat (length (filter (λ w, advertises c required w = true)
                                               eligible_cpu))])
end.

(** [selected[-1] = w] *)
Definition replace_last (l : list string) (w : string) : list string :=
take (pred (length l)) l ++ [w].

Definition eligible_workers (c : t) (cpu_group_size gpu_group_size : Z)
  (required : list string) : option (list string * list string) :=
if negb (can_satisfy c cpu_group_size gpu_group_size) then None
else if (negb (bool_decide (required = [])) &&
         ((cpu_group_size <? 1)%Z || bool_decide (profiles c = [])))%bool then None
else if bool_decide (profiles c = []) then
  Some (py_take cpu_group_size (cpu_worker_ids c), py_take gpu_group_size (gpu_worker_ids c))
else
  let eligible_cpu := meeting_hardware c (cpu_worker_ids c) in
  let eligible_gpu := meeting_hardware c (gpu_worker_ids c) in
  if ((Z.of_nat (length eligible_cpu) <? cpu_group_size)%Z ||
      (Z.of_nat (length eligible_gpu) <? gpu_group_size)%Z)%bool then None
  else
    let selected_cpu := py_take cpu_group_size eligible_cpu in
    let selected_gpu := py_take gpu_group_size eligible_gpu in
    if bool_decide (required = []) then Some (selected_cpu, selected_gpu)
    else
      match filter (λ w, advertises c required w = true) eligible_cpu with
      | [] => None
      | w0 :: ws =>
          if existsb (λ w, bool_decide (w ∈ w0 :: ws)) selected_cpu
          then Some (selected_cpu, selected_gpu)
          else Some (replace_last selected_cpu w0, selected_gpu)
      end.

Definition can_satisfy_hardware (c : t) (cpu_group_size gpu_group_size : Z) : bool :=
match eligible_workers c cpu_group_size gpu_group_size [] with Some _ => true | None => false end.
End select.
End FreeCapacity.

(** ** The claim and the count agree *)

Section capacity_facts.
Import FreeCapacity.
Context (meets : dict string val → option HardwareRequirements.t → bool).
Context (hardware : option HardwareRequirements.t).
Implicit Types (c : t) (cs gs : Z).

Lemma meeting_hardware_sublist c ids : meeting_hardware meets hardware c ids `sublist_of` ids.
Proof. unfold meeting_hardware. case_match; [done|apply sublist_filter]. Qed.

Lemma meeting_hardware_spec c ids w :
w ∈ meeting_hardware meets hardware c ids ↔
w ∈ ids ∧ (profiles c = [] ∨ meets (profile_of c w) hardware = true).
Proof.
unfold meeting_hardware. case_match; [naive_solver|].
rewrite list_elem_of_filter. naive_solver.
Qed.

Lemma meeting_hardware_all c ids : profiles c = [] → meeting_hardware meets hardware c ids = ids.
Proof. unfold meeting_hardware. by intros ->. Qed.

(** A CPU worker that meets the hardware and advertises everything required. *)
Definition capable c (required : list string) (w : string) : Prop :=
w ∈ cpu_worker_ids c ∧ (profiles c = [] ∨ meets (profile_of c w) hardware = true) ∧
advertises c required w = true.

Lemma elem_of_capable c required w :
w ∈ filter (λ w, advertises c required w = true) (meeting_hardware meets hardware c (cpu_worker_ids c))
↔ capable c required w.
Proof. rewrite list_elem_of_filter, meeting_hardware_spec. unfold capable. naive_solver. Qed.

Lemma replace_last_length (l : list string) w : l ≠ [] → length (replace_last l w) = length l.
Proof.
intros Hl. unfold replace_last. rewrite length_app, length_take. simpl.
destruct l; [done|simpl; lia].
Qed.

Lemma replace_last_nodup (l : list string) w : NoDup l → w ∉ l → NoDup (replace_last l w).
Proof.
intros Hl Hw. unfold replace_last. apply NoDup_app. split_and!.
- eapply sublist_NoDup; [exact Hl|apply sublist_take].
- intros x Hx ->%list_elem_of_singleton. apply Hw.
  eapply elem_of_sublist; [exact Hx|apply sublist_take].
- apply NoDup_singleton.
Qed.

Lemma replace_last_in (l : list string) w x : x ∈ replace_last l w → x ∈ l ∨ x = w.
Proof.
unfold replace_last. intros [Hx|Hx%list_elem_of_singleton]%elem_of_app; [|by right].
left. eapply elem_of_sublist; [exact Hx|apply sublist_take].
Qed.

(** What a successful selection returns. *)
Record selects c cs gs (required : list string) (cpu gpu : list string) : Prop := {
sel_cpu_len : Z.of_nat (length cpu) = cs;
sel_gpu_len : Z.of_nat (length gpu) = gs;
sel_cpu w : w ∈ cpu → w ∈ meeting_hardware meets hardware c (cpu_worker_ids c);
sel_gpu w : w ∈ gpu → w ∈ meeting_hardware meets hardware c (gpu_worker_ids c);
sel_cpu_nodup : NoDup (cpu_worker_ids c) → NoDup cpu;
sel_gpu_nodup : NoDup (gpu_worker_ids c) → NoDup gpu;
sel_capable : required ≠ [] → ∃ w, w ∈ cpu ∧ advertises c required w = true;
}.

Lemma take_selects c cs gs :
(0 <= cs)%Z → (0 <= gs)%Z →
let ec := meeting_hardware meets hardware c (cpu_worker_ids c) in
let eg := meeting_hardware meets hardware c (gpu_worker_ids c) in
(cs <= Z.of_nat (length ec))%Z → (gs <= Z.of_nat (length eg))%Z →
selects c cs gs [] (py_take cs ec) (py_take gs eg).
Proof.
intros Hcs Hgs ec eg Hc Hg. split; try done.
- by apply length_py_take.
- by apply length_py_take.
- intros w Hw. eapply elem_of_sublist; [exact Hw|apply py_take_sublist].
- intros w Hw. eapply elem_of_sublist; [exact Hw|apply py_take_sublist].
- intros Hnd. eapply sublist_NoDup; [exact Hnd|]. etrans; [apply py_take_sublist|].
  apply meeting_hardware_sublist.
- intros Hnd. eapply sublist_NoDup; [exact Hnd|]. etrans; [apply py_take_sublist|].
  apply meeting_hardware_sublist.
Qed.

(** When a selection exists: enough workers of each class that meet the
  hardware and, when task types are required, one that runs them. *)
Definition selectable c cs gs (required : list string) : Prop :=
(cs <= Z.of_nat (length (meeting_hardware meets hardware c (cpu_worker_ids c))))%Z ∧
(gs <= Z.of_nat (length (meeting_hardware meets hardware c (gpu_worker_ids c))))%Z ∧
(required ≠ [] → (1 <= cs)%Z ∧ profiles c ≠ [] ∧ ∃ w, capable c required w).

Lemma meeting_hardware_length c ids :
(Z.of_nat (length (meeting_hardware meets hardware c ids)) <= Z.of_nat (length ids))%Z.
Proof. pose proof (sublist_length _ _ (meeting_hardware_sublist c ids)). lia. Qed.

(** The last slot is given to a capable worker when none was taken. *)
Lemma select_capable c cs gs required :
required ≠ [] → profiles c ≠ [] → (1 <= cs)%Z → (0 <= gs)%Z →
let ec := meeting_hardware meets hardware c (cpu_worker_ids c) in
let eg := meeting_hardware meets hardware c (gpu_worker_ids c) in
(cs <= Z.of_nat (length ec))%Z → (gs <= Z.of_nat (length eg))%Z →
match
  match filter (λ w, advertises c required w = true) ec with
  | [] => None
  | w0 :: ws =>
      if existsb (λ w, bool_decide (w ∈ w0 :: ws)) (py_take cs ec)
      then Some (py_take cs ec, py_take gs eg)
      else Some (replace_last (py_take cs ec) w0, py_take gs eg)
  end
with
| Some (cpu, gpu) => selects c cs gs required cpu gpu ∧ selectable c cs gs required
| None => ¬ selectable c cs gs required
end.
Proof.
intros Hr Hp Hcs Hgs ec eg Hc Hg.
destruct (take_selects c cs gs ltac:(lia) Hgs Hc Hg) as [Sl1 Sl2 Sc Sg Sn1 Sn2 _].
fold ec eg in Sl1, Sl2, Sc, Sg, Sn1, Sn2.
destruct (filter (λ w, advertises c required w = true) ec) as [|w0 ws] eqn:Ew.
{ intros (_ & _ & H). destruct (H Hr) as (_ & _ & w & Hw).
  apply elem_of_capable in Hw. fold ec in Hw. rewrite Ew in Hw. set_solver. }
assert (Hcap : ∀ w, w ∈ w0 :: ws ↔ capable c required w).
{ intros w. rewrite <-Ew. apply elem_of_capable. }
assert (Hsel : selectable c cs gs required).
{ split_and!; [done|done|]. intros _. split_and!; [lia|done|]. exists w0. apply Hcap. set_solver. }
destruct (existsb _ _) eqn:Ex; (split; [|done]).
- apply existsb_exists in Ex as (w & Hin & Hw%bool_decide_eq_true).
  split; try done. intros _. exists w. split; [by apply list_elem_of_In|]. by apply Hcap in Hw as (_ & _ & ?).
- assert (Hne : py_take cs ec ≠ []).
  { intros E. rewrite E in Sl1. simpl in Sl1. lia. }
  assert (Hw0 : w0 ∉ py_take cs ec).
  { intros Hin. apply not_true_iff_false in Ex. apply Ex, existsb_exists.
    exists w0. split; [by apply list_elem_of_In|]. apply bool_decide_eq_true. set_solver. }
  assert (Hw0' : capable c required w0) by (apply Hcap; set_solver).
  split; try done.
  + by rewrite replace_last_length.
  + intros w [Hw| ->]%replace_last_in; [by apply Sc|].
    destruct Hw0' as (? & ? & _). by apply meeting_hardware_spec.
  + intros Hnd. apply replace_last_nodup; auto.
  + intros _. exists w0. unfold replace_last. split; [set_solver|]. by destruct Hw0' as (_ & _ & ?).
Qed.

Lemma eligible_workers_spec c cs gs required :
(0 <= cs)%Z → (0 <= gs)%Z →
match eligible_workers meets hardware c cs gs required with
| Some (cpu, gpu) => selects c cs gs required cpu gpu ∧ selectable c cs gs required
| None => ¬ selectable c cs gs required
end.
Proof.
intros Hcs Hgs. unfold eligible_workers, selectable, can_satisfy, cpu_count, gpu_count.
pose proof (meeting_hardware_length c (cpu_worker_ids c)) as Lc.
pose proof (meeting_hardware_length c (gpu_worker_ids c)) as Lg.
destruct (Z.leb_spec cs (Z.of_nat (length (cpu_worker_ids c)))); simpl; [|lia].
destruct (Z.leb_spec gs (Z.of_nat (length (gpu_worker_ids c)))); simpl; [|lia].
pose proof (take_selects c cs gs Hcs Hgs) as Htake. simpl in Htake.
destruct (decide (required = [])) as [->|Hr]; simpl;
  (destruct (decide (profiles c = [])) as [Hp|Hp];
   [rewrite (bool_decide_eq_true_2 (profiles c = [])) by done
   |rewrite (bool_decide_eq_false_2 (profiles c = [])) by done]).
- rewrite !meeting_hardware_all in * by done.
  split; [by apply Htake|]. by split_and!.
- destruct (Z.ltb_spec (Z.of_nat (length (meeting_hardware meets hardware c (cpu_worker_ids c)))) cs);
    simpl; [lia|].
  destruct (Z.ltb_spec (Z.of_nat (length (meeting_hardware meets hardware c (gpu_worker_ids c)))) gs);
    simpl; [lia|].
  split; [by apply Htake|]. by split_and!.
- rewrite (bool_decide_eq_false_2 (required = [])) by done.
  rewrite orb_true_r. simpl. intros (_ & _ & H1). naive_solver.
- rewrite (bool_decide_eq_false_2 (required = [])) by done. rewrite orb_false_r. simpl.
  destruct (Z.ltb_spec cs 1); [naive_solver lia|].
  destruct (Z.ltb_spec (Z.of_nat (length (meeting_hardware meets hardware c (cpu_worker_ids c)))) cs);
    simpl; [lia|].
  destruct (Z.ltb_spec (Z.of_nat (length (meeting_hardware meets hardware c (gpu_worker_ids c)))) gs);
    simpl; [lia|].
  by apply select_capable.
Qed.

Lemma min_default0_ge n (counts : list Z) :
counts ≠ [] → (n <= min_default0 counts)%Z ↔ Forall (λ x, (n <= x)%Z) counts.
Proof.
destruct counts as [|x l]; [done|]. intros _. simpl. revert x.
induction l as [|y l IH]; intros x; simpl.
- rewrite Forall_singleton. done.
- rewrite IH, !Forall_cons. unfold id. destruct (Z.ltb_spec y x); intuition lia.
Qed.

(** [n] dispatches can be served when each claimed class holds [n] groups
  and there are [n] workers able to run the required task types. *)
Lemma dispatch_count_ge c cs gs required n :
(0 <= cs)%Z → (0 <= gs)%Z → (0 < cs ∨ 0 < gs)%Z → (1 <= n)%Z →
(n <= dispatch_count meets hardware c cs gs required)%Z ↔
(n * cs <= Z.of_nat (length (meeting_hardware meets hardware c (cpu_worker_ids c))))%Z ∧
(n * gs <= Z.of_nat (length (meeting_hardware meets hardware c (gpu_worker_ids c))))%Z ∧
(required ≠ [] → (1 <= cs)%Z ∧ profiles c ≠ [] ∧
   (n <= Z.of_nat (length (filter (λ w, advertises c required w = true)
           (meeting_hardware meets hardware c (cpu_worker_ids c)))))%Z).
Proof.
intros Hcs Hgs Hone Hn. unfold dispatch_count.
set (ec := meeting_hardware meets hardware c (cpu_worker_ids c)).
set (eg := meeting_hardware meets hardware c (gpu_worker_ids c)).
set (counts := omap _ _).
assert (Hne : counts ≠ []).
{ unfold counts. csimpl. destruct (Z.ltb_spec 0 cs), (Z.ltb_spec 0 gs); simpl; try done. lia. }
assert (Hall : Forall (λ x, (n <= x)%Z) counts ↔
  (n * cs <= Z.of_nat (length ec))%Z ∧ (n * gs <= Z.of_nat (length eg))%Z).
{ assert (Hdiv : ∀ len k, (0 < k)%Z → (n <= len / k)%Z ↔ (n * k <= len)%Z).
  { intros len k Hk. split; intros H.
    - pose proof (Z.mul_div_le len k Hk). nia.
    - apply Z.div_le_lower_bound; lia. }
  unfold counts. csimpl.
  destruct (Z.ltb_spec 0 cs) as [H1|H1], (Z.ltb_spec 0 gs) as [H2|H2]; simpl;
    rewrite ?Forall_cons, ?Forall_nil, ?Hdiv by done; try nia. }
destruct (decide (required = [])) as [->|Hr].
{ rewrite min_default0_ge, Hall by done. naive_solver. }
destruct required as [|r required]; [done|].
destruct (Z.ltb_spec cs 1) as [H|H]; simpl; [naive_solver lia|].
case_bool_decide as Hp; [naive_solver lia|].
rewrite min_default0_ge by (by destruct counts).
rewrite Forall_app, Hall, Forall_singleton. naive_solver.
Qed.
End capacity_facts.

(** C38: the policy is told that at least one dispatch fits exactly when the
    claim on the same snapshot would succeed, and then the claim returns
    groups of the asked sizes, without repetition, whose workers are idle, meet the
    hardware and include one that advertises every gated task type. *)
Theorem claim_agrees_with_count meets hardware (c : FreeCapacity.t) cs gs required :
  (0 <= cs)%Z → (0 <= gs)%Z → (0 < cs ∨ 0 < gs)%Z →
  (1 <= FreeCapacity.dispatch_count meets hardware c cs gs required)%Z ↔
  ∃ cpu gpu, FreeCapacity.eligible_workers meets hardware c cs gs required = Some (cpu, gpu) ∧
    Z.of_nat (length cpu) = cs ∧ Z.of_nat (length gpu) = gs ∧
    cpu ⊆ FreeCapacity.cpu_worker_ids c ∧ gpu ⊆ FreeCapacity.gpu_worker_ids c ∧
    (NoDup (FreeCapacity.cpu_worker_ids c) → NoDup cpu) ∧
    (NoDup (FreeCapacity.gpu_worker_ids c) → NoDup gpu) ∧
    (FreeCapacity.profiles c ≠ [] → ∀ w, w ∈ cpu ++ gpu →
       meets (FreeCapacity.profile_of c w) hardware = true) ∧
    (required ≠ [] → ∃ w, w ∈ cpu ∧ FreeCapacity.advertises c required w = true).
Proof.
  intros Hcs Hgs Hone. rewrite dispatch_count_ge by (done || lia).
  pose proof (eligible_workers_spec meets hardware c cs gs required Hcs Hgs) as H.
  split.
  - intros (H1 & H2 & H3).
    assert (Hsel : selectable meets hardware c cs gs required).
    { split_and!; [lia|lia|]. intros Hr. destruct (H3 Hr) as (? & ? & Hlen). split_and!; [done|done|].
      destruct (filter _ _) as [|w ws] eqn:E; simpl in Hlen; [lia|]. exists w.
      apply (elem_of_capable meets hardware). rewrite E. set_solver. }
    destruct (FreeCapacity.eligible_workers _ _ _ _ _ _) as [[cpu gpu]|]; [|done].
    destruct H as [[Sl1 Sl2 Sc Sg Sn1 Sn2 Sk] _]. exists cpu, gpu. split_and!; try done.
    + intros w Hw. by apply Sc, meeting_hardware_spec in Hw as [? _].
    + intros w Hw. by apply Sg, meeting_hardware_spec in Hw as [? _].
    + intros Hp w [Hw|Hw]%elem_of_app.
      * apply Sc, meeting_hardware_spec in Hw as [_ [?|?]]; done.
      * apply Sg, meeting_hardware_spec in Hw as [_ [?|?]]; done.
  - intros (cpu & gpu & E & _). rewrite E in H. destruct H as [_ (H1 & H2 & H3)].
    split_and!; [lia|lia|]. intros Hr. destruct (H3 Hr) as (? & ? & w & Hw).
    split_and!; [done|done|]. apply elem_of_capable in Hw.
    destruct (filter _ _); [set_solver|simpl; lia].
Qed.

Definition sample_snapshot : FreeCapacity.t :=
  FreeCapacity.mk ["w1"; "w2"; "w3"] ["g1"]
    [("w1", []); ("w2", [("supported_task_types", VList [VStr "api"; VStr "python"])]);
     ("w3", []); ("g1", [])].

Lemma claim_agrees_with_count_witness :
  FreeCapacity.eligible_workers (λ _ _, true) None sample_snapshot 1 1 ["python"]
    = Some (["w2"], ["g1"]) ∧
  ∃ cpu gpu, FreeCapacity.eligible_workers (λ _ _, true) None sample_snapshot 1 1 ["python"]
    = Some (cpu, gpu) ∧ Z.of_nat (length cpu) = 1%Z.
Proof.
  split; [vm_compute; reflexivity|].
  destruct (proj1 (claim_agrees_with_count (λ _ _, true) None sample_snapshot 1 1 ["python"]
    ltac:(lia) ltac:(lia) ltac:(lia)) ltac:(vm_compute; discriminate)) as (cpu & gpu & H1 & H2 & _).
  exists cpu, gpu. split; [exact H1|exact H2].
Defined.
