(* ===== verification/JobBase.v ===== *)
(** * Jobs, queued items and batches (runtime/job_manager/base.py, runtime/request.py)

    The records that the job manager, its policies and the scheduler share, and
    the interface of a scheduling policy with its laws. *)

From S2P Require Import Prelude PyFloat PyDict PyValue Protocol RuntimeGraph DslGraph.

Inductive AbortReason := POLICY | CAPACITY.

Module WorkflowItem.
Record t := mk {
workflow_id : string;
request_id : string;
graph_name : string;
public_graph_name : string;
slice_index : Z;
slice_start : Z;
slice_length : Z;
total_length : Z;
template_hash : string;
varying_input_keys : list string;
runtime_graph : RuntimeGraph.t;
data_profile_graph : RuntimeGraph.t;
dsl_graph : CompiledGraph.t;
config : LumilakeRequestConfig.t;
enqueued_at : f64;
dispatch_token : option string;
api_credential_digest : option string;
miss_count : Z;
requires_gpu : bool;
}.

(** [item.miss_count += 1] *)
Definition bump (i : t) : t :=
mk (workflow_id i) (request_id i) (graph_name i) (public_graph_name i) (slice_index i)
   (slice_start i) (slice_length i) (total_length i) (template_hash i)
   (varying_input_keys i) (runtime_graph i) (data_profile_graph i) (dsl_graph i)
   (config i) (enqueued_at i) (dispatch_token i) (api_credential_digest i)
   (miss_count i + 1) (requires_gpu i).

Definition principal_id (i : t) : string := LumilakeRequestConfig.principal_id (config i).
Definition user_id (i : t) : string := LumilakeRequestConfig.user_id (config i).
Definition priority (i : t) : Priority := LumilakeRequestConfig.priority (config i).
End WorkflowItem.

Module WorkflowSliceMeta.
Record t := mk {
public_graph_name : string;
slice_index : Z;
slice_start : Z;
slice_length : Z;
total_length : Z;
template_hash : string;
varying_input_keys : list string;
}.
End WorkflowSliceMeta.

Module BatchSelection.
Record t := mk {
workflows : list WorkflowItem.t;
runtime_graphs : dict string RuntimeGraph.t;
data_profile_graphs : dict string RuntimeGraph.t;
config : LumilakeRequestConfig.t;
}.
End BatchSelection.

Module Job.
Record t := mk {
request_id : string;
runtime_graphs : dict string RuntimeGraph.t;
data_profile_graphs : dict string RuntimeGraph.t;
dsl_graphs : dict string CompiledGraph.t;
workflow_slices : dict string WorkflowSliceMeta.t;
config : LumilakeRequestConfig.t;
dispatch_token : option string;
api_credential_digest : option string;
requires_gpu : dict string bool;
}.
End Job.

(** [x or default] for an optional string: [None] and the empty string are
    both false. *)
Definition str_or (x : option string) (default : string) : string :=
  match x with Some s => if String.eqb s "" then default else s | None => default end.

(** The chain an item belongs to, [item.config.chain_id or item.request_id]. *)
Definition chain_of (i : WorkflowItem.t) : string :=
  str_or (LumilakeRequestConfig.chain_id (WorkflowItem.config i)) (WorkflowItem.request_id i).

Definition ids (l : list WorkflowItem.t) : list string := WorkflowItem.workflow_id <$> l.

(** * The scheduling-policy interface (runtime/job_manager/policies/base.py)

    [BaseSchedulingPolicy] is a class of operations on a policy's own state:
    [select_batch] picks a batch out of a candidate pool, [on_commit] is told
    what was committed, [observe_free_lanes] how many dispatches fit.  The
    job manager is proved against [PolicyLaws], the contract the docstring of
    [select_batch] states; every built-in policy discharges it. *)

Class SchedulingPolicy (S : Type) := {
  select_batch : S → list WorkflowItem.t → Z → result (list string);
  (** The new state, and the exception when the hook raises. *)
  on_commit : S → list WorkflowItem.t → S * option exn;
  observe_free_lanes : S → option Z → S;
}.

(** The returned ids form a batch of the candidates. *)
Record is_batch (candidates : list WorkflowItem.t) (batch_size : Z) (l : list string) : Prop := {
  ib_nodup : NoDup l;
  ib_sub : l ⊆ ids candidates;
  ib_len : (Z.of_nat (length l) <= batch_size)%Z;
  ib_nonempty : l ≠ [];
}.

Class PolicyLaws (S : Type) `{SchedulingPolicy S} := {
  select_batch_is_batch s candidates batch_size l :
    NoDup (ids candidates) → candidates ≠ [] → (1 <= batch_size)%Z →
    select_batch s candidates batch_size = Ok l → is_batch candidates batch_size l;
}.

(** [[item.workflow_id for item in ordered[:batch_size]]] on a reordering of
    the candidates: the shape of the policies that sort. *)
Lemma take_ids_is_batch candidates ordered batch_size :
  ordered ≡ₚ candidates → NoDup (ids candidates) → candidates ≠ [] → (1 <= batch_size)%Z →
  is_batch candidates batch_size (ids (py_take batch_size ordered)).
Proof.
  intros Hp Hnd Hne Hb.
  assert (Hpi : ids ordered ≡ₚ ids candidates) by (unfold ids; by rewrite Hp).
  assert (Hsub : ids (py_take batch_size ordered) `sublist_of` ids ordered).
  { apply fmap_sublist, py_take_sublist. }
  split.
  - eapply sublist_NoDup; [|exact Hsub]. by rewrite Hpi.
  - intros x Hx. rewrite <-Hpi. by eapply elem_of_sublist.
  - unfold ids. rewrite length_fmap, py_take_nonneg, length_take by lia. lia.
  - rewrite py_take_nonneg by lia. destruct ordered as [|i ordered].
    + apply Permutation_nil_l in Hp. by destruct Hne.
    + destruct (Z.to_nat batch_size) eqn:E; [lia|]. done.
Qed.
