(* ===== verification/Cost.v ===== *)
(** * The resource-area cost model (runtime/job_manager/cost.py, runtime/optimizer/multimodal_cost.py)

    [estimate_area] is the critical path of a runtime graph, from estimated
    node durations, times the dominant share of the request's hardware.  It
    is computed on binary64 floats as Python does.  The environment defaults
    ([HARDWARE_*]) are arguments ([HwEnv]); the coercion pydantic applies to
    the diffusion parameters ([to_float]) is a parameter of the model, as
    pydantic is not part of the repository. *)

From S2P Require Import Prelude PyFloat PyDict PyValue PyString Protocol TopoSort RuntimeGraph JobBase.

(** ** multimodal_cost.py *)

Inductive NodeCostType := TEXT_INFERENCE | VISION_EMBEDDING | VISION_INFERENCE | IMAGE_GENERATION.

Module MultimodalCostCoefficients.
Record t := mk {
alpha_text : f64; beta_text : f64;
alpha_embed : f64; beta_embed : f64;
alpha_vlm : f64; beta_vlm : f64;
alpha_diff : f64; beta_diff : f64;
}.
End MultimodalCostCoefficients.

Module DiffusionInferenceConfig.
Record t := mk { num_inference_steps : f64; height : f64; width : f64 }.
Definition default : t := mk (of_Z 30) (of_Z 768) (of_Z 768).
End DiffusionInferenceConfig.

(** The view of an op the cost functions use ([schedule.models.Node]). *)
Module Node.
Record t := mk { id : string; type : string; model : string; raw : dict string val }.
End Node.

Section cost.
(** Pydantic's validation of a value as a float; [None] is a validation error. *)
Context (to_float : val → option f64).

Definition classify_multimodal_node (node : Node.t) : result NodeCostType :=
let node_type := norm (Node.type node) in
if String.eqb node_type "diffusion" then Ok IMAGE_GENERATION
else if String.eqb node_type "embedding" then Ok VISION_EMBEDDING
else
  match vget "image_embedding" (Node.raw node) with
  | VNone => Ok TEXT_INFERENCE
  | VDict _ => Ok (if String.eqb node_type "inference" then VISION_INFERENCE else TEXT_INFERENCE)
  | _ => Err (ValidationError "image_embedding")
  end.

(** A field declared [Field(default=..., gt=0)]. *)
Definition positive_field (key : string) (default : f64) (payload : dict string val) : result f64 :=
match dget key payload with
| None => Ok default
| Some v =>
    match to_float v with
    | Some x => if fltb fzero x then Ok x else Err (ValidationError key)
    | None => Err (ValidationError key)
    end
end.

Definition parse_diffusion_inference_config (node : Node.t) :
  result DiffusionInferenceConfig.t :=
match dget "_inference_spec" (Node.raw node) with
| Some (VDict payload) =>
    steps ← positive_field "num_inference_steps" (of_Z 30) payload;
    height ← positive_field "height" (of_Z 768) payload;
    width ← positive_field "width" (of_Z 768) payload;
    Ok (DiffusionInferenceConfig.mk steps height width)
| _ => Ok DiffusionInferenceConfig.default
end.

Definition compute_gpu_exec_cost (node : Node.t) (model_size_b : f64) (input_query_count : Z)
  (coeffs : MultimodalCostCoefficients.t) : result f64 :=
let open_ alpha beta :=
  let query_count := Z.max 1 input_query_count in
  let model_size := fmax2 fzero model_size_b in
  fadd (fmul alpha model_size) (fmul beta (of_Z query_count)) in
node_type ← classify_multimodal_node node;
match node_type with
| TEXT_INFERENCE => Ok (open_ (MultimodalCostCoefficients.alpha_text coeffs)
                              (MultimodalCostCoefficients.beta_text coeffs))
| VISION_EMBEDDING => Ok (open_ (MultimodalCostCoefficients.alpha_embed coeffs)
                                (MultimodalCostCoefficients.beta_embed coeffs))
| VISION_INFERENCE => Ok (open_ (MultimodalCostCoefficients.alpha_vlm coeffs)
                                (MultimodalCostCoefficients.beta_vlm coeffs))
| IMAGE_GENERATION =>
    config ← parse_diffusion_inference_config node;
    let step_scale := fdiv (DiffusionInferenceConfig.num_inference_steps config) (of_Z 30) in
    let pixel_scale :=
      fdiv (fmul (DiffusionInferenceConfig.height config) (DiffusionInferenceConfig.width config))
           (fmul (of_Z 768) (of_Z 768)) in
    let base := open_ (MultimodalCostCoefficients.alpha_diff coeffs)
                      (MultimodalCostCoefficients.beta_diff coeffs) in
    Ok (fmul (fmul base step_scale) pixel_scale)
end.
End cost.

(** ** cost.py *)

Definition GPU_BACKENDS : list string := ["vllm"; "transformers"; "diffusers"; "omni"].
Definition DB_BACKEND : string := "data_retrieval".

Module CostParams.
Record t := mk {
gpu_coeffs : MultimodalCostCoefficients.t;
db_sec_per_query : f64;
cpu_sec_per_node : f64;
default_model_size_b : f64;
input_query_count : Z;
}.
End CostParams.

(** The [HARDWARE_*] environment defaults. *)
Module HwEnv.
Record t := mk { cpu : Z; memory : string; gpu : Z; gpu_memory : string }.
End HwEnv.

(** [raw / 10^k] for the decimal digits of a size: [float("1.5")] is the
    float nearest to the exact decimal. *)
Definition decimal_float (digits scale : Z) : f64 := int_truediv digits scale.

Definition model_size_b (model : string) (default : f64) : f64 :=
  let normalized := norm model in
  if (String.eqb model "" || String.eqb normalized "")%bool then default
  else
    match search_size (chars normalized) with
    | None => default
    | Some (digits, scale, unit_) =>
        let raw := decimal_float digits scale in
        if String.eqb unit_ "m" then fdiv raw (of_Z 1000) else raw
    end.

Inductive op_class := GPU | DB | CPU.
#[export] Instance op_class_eq_dec : EqDecision op_class.
Proof. solve_decision. Defined.

Definition classify (op : RuntimeOp.t) : op_class :=
  let backend := norm (RuntimeOp.backend op) in
  if decide (backend ∈ GPU_BACKENDS) then GPU
  else if String.eqb backend DB_BACKEND then DB
  else CPU.

Definition to_halo_node (op : RuntimeOp.t) : Node.t :=
  let raw := RuntimeOp.data_spec op in
  let raw := match RuntimeOp.inference_spec op with
             | [] => raw
             | spec => dset "_inference_spec" (VDict spec) raw
             end in
  Node.mk (RuntimeOp.node_id op) (RuntimeOp.task_type op) (RuntimeOp.model op) raw.

Definition memory_share (requested default : string) : f64 :=
  match parse_memory_to_bytes requested, parse_memory_to_bytes default with
  | Some r, Some d => if (d =? 0)%Z then fzero else int_truediv r d
  | _, _ => fzero
  end.

Definition dominant_share (env : HwEnv.t) (item : WorkflowItem.t) : f64 :=
  let hw := LumilakeRequestConfig.hardware_requirements (WorkflowItem.config item) in
  let pick {A} (field : HardwareRequirements.t → option A) (default : A) : A :=
    match hw with
    | Some h => match field h with Some x => x | None => default end
    | None => default
    end in
  let cpu := pick HardwareRequirements.cpu (HwEnv.cpu env) in
  let gpu := pick HardwareRequirements.gpu (HwEnv.gpu env) in
  let memory := pick HardwareRequirements.memory (HwEnv.memory env) in
  let gpu_memory := pick HardwareRequirements.gpu_memory (HwEnv.gpu_memory env) in
  let cpu_share := if (HwEnv.cpu env =? 0)%Z then fzero else int_truediv cpu (HwEnv.cpu env) in
  let gpu_share := if (HwEnv.gpu env =? 0)%Z then fzero else int_truediv gpu (HwEnv.gpu env) in
  let memory_share_ := memory_share memory (HwEnv.memory env) in
  let gpu_memory_share := memory_share gpu_memory (HwEnv.gpu_memory env) in
  fmax2 (fmax2 (fmax2 cpu_share memory_share_) gpu_share) gpu_memory_share.

Section area.
Context (to_float : val → option f64) (env : HwEnv.t) (params : CostParams.t).

Definition node_duration (op : RuntimeOp.t) : result f64 :=
match classify op with
| GPU =>
    compute_gpu_exec_cost to_float (to_halo_node op)
      (model_size_b (RuntimeOp.model op) (CostParams.default_model_size_b params))
      (CostParams.input_query_count params) (CostParams.gpu_coeffs params)
| DB => Ok (fmul (CostParams.db_sec_per_query params)
                 (of_Z (CostParams.input_query_count params)))
| CPU => Ok (CostParams.cpu_sec_per_node params)
end.

(** Agent-mode retrieval has no predictable duration. *)
Definition is_agent_retrieval (op : RuntimeOp.t) : bool :=
(bool_decide (classify op = DB) &&
 bool_decide (vget "mode" (RuntimeOp.data_spec op) = VStr "agent"))%bool.

(** The durations of the nodes, or [None] at the first agent-mode retrieval. *)
Fixpoint durations_of (l : list (string * RuntimeOp.t)) (acc : dict string f64) :
  result (option (dict string f64)) :=
match l with
| [] => Ok (Some acc)
| (node_id, op) :: l' =>
    if is_agent_retrieval op then Ok None
    else d ← node_duration op; durations_of l' (dset node_id d acc)
end.

(** One step of the longest-path computation. *)
Definition longest_step (g : RuntimeGraph.t) (durations : dict string f64)
  (longest : dict string f64) (node_id : string) : result (dict string f64) :=
d ← dindex (KeyError node_id) node_id durations;
op ← dindex (KeyError node_id) node_id (RuntimeGraph.nodes g);
Ok (dset node_id
      (foldl (λ best dep,
         match dget dep longest with
         | Some l => fmax2 best (fadd l d)
         | None => best
         end) d (RuntimeOp.dependencies op)) longest).

Definition critical_path (g : RuntimeGraph.t) (durations : dict string f64) : result f64 :=
order ← RuntimeGraph.topological_order g;
longest ← foldR (longest_step g durations) [] order;
Ok (match dvals longest with [] => fzero | x :: l => max_by fltb id x l end).

Definition estimate_area (item : WorkflowItem.t) : result (option f64) :=
let g := WorkflowItem.runtime_graph item in
match RuntimeGraph.nodes g with
| [] => Ok None
| nodes =>
    durations ← durations_of nodes [];
    match durations with
    | None => Ok None
    | Some durations =>
        critical ← critical_path g durations;
        let area := fmul critical (dominant_share env item) in
        Ok (if fltb fzero area then Some area else None)
    end
end.

(** An estimate is a positive number, so it orders and divides. *)
Lemma estimate_area_positive item area :
estimate_area item = Ok (Some area) → fltb fzero area = true ∧ not_nan area.
Proof.
unfold estimate_area. intros H.
destruct (RuntimeGraph.nodes _) as [|kv l] eqn:E; [done|]. inv_ok.
destruct a as [durations|]; [|done]. inv_ok.
destruct (fltb fzero _) eqn:Hf; [|done]. injection H as <-.
split; [done|]. by apply fltb_not_nan in Hf as [_ ?].
Qed.
End area.
