(* ===== verification/Clustering.v ===== *)
(** * Affinity clustering (runtime/job_manager/cluster_algo/clustering.py)

    [select_affinity_batch_ids] picks a batch out of the candidates by
    agglomerative clustering on a float distance between workflow graphs.
    The theorems are independent of the distance: whatever it is, the result
    has no repetition, consists of candidates, has the asked size and keeps
    the pinned ids.  [distance_cache] only memoises a symmetric pure function
    and is not modelled.  Sets are lists without repetition.  [enqueued_at] is
    indexed by candidates only, which all its callers put in it. *)

From S2P Require Import Prelude PyFloat PyDict PyValue PyString RuntimeGraph.
From Stdlib Require Import Ascii.


Definition MODEL_WEIGHT : f64 := int_truediv 7 10.
Definition DATA_WEIGHT : f64 := int_truediv 2 10.
Definition SIZE_WEIGHT : f64 := int_truediv 1 10.

Module WorkflowAffinity.
Record t := mk {
models : list string;
system_prompt_tokens : list string;
node_count : Z;
}.
End WorkflowAffinity.

Definition is_llm_backend (op : RuntimeOp.t) : bool :=
  bool_decide (RuntimeOp.backend op ∈ ["vllm"; "transformers"; "diffusers"]).

(** The system prompts found in a nested message spec: the [content] of the
    dicts with role [system] that are elements of a list. *)
Fixpoint extract_system_prompts (spec : val) : list string :=
  match spec with
  | VDict d =>
      (fix items (d : list (string * val)) :=
         match d with
         | [] => []
         | (key, value) :: d' =>
             (match value with
              | VList _ => extract_system_prompts value
              | _ => if String.eqb key "messages" then [] else extract_system_prompts value
              end) ++ items d'
         end) d
  | VList l =>
      (fix all (l : list val) :=
         match l with
         | [] => []
         | item :: l' =>
             (match item with
              | VDict d =>
                  match vget "role" d, vget "content" d with
                  | VStr role, VStr content => if String.eqb role "system" then [content] else []
                  | _, _ => []
                  end
              | _ => extract_system_prompts item
              end) ++ all l'
         end) l
  | _ => []
  end.

(** [re.findall(r"[A-Za-z0-9_]+", prompt)] *)
Fixpoint words (l : list ascii) (current : list ascii) : list string :=
  let flush := match current with [] => [] | _ => [of_chars (reverse current)] end in
  match l with
  | [] => flush
  | c :: l' => if is_word c then words l' (c :: current) else flush ++ words l' []
  end.

Definition tokenize_prompts (prompts : list string) : list string :=
  remove_dups (prompts ≫= λ p, words (chars (lower p)) []).

Definition build_affinity (g : RuntimeGraph.t) : WorkflowAffinity.t :=
  let ops := dvals (RuntimeGraph.nodes g) in
  WorkflowAffinity.mk
    (remove_dups (RuntimeOp.model <$>
       filter (λ op, is_llm_backend op = true ∧ RuntimeOp.model op ≠ "") ops))
    (tokenize_prompts (ops ≫= λ op, extract_system_prompts (VDict (RuntimeOp.data_spec op))))
    (RuntimeGraph.node_count g).

Definition jaccard (left right : list string) : f64 :=
  match left, right with
  | [], _ | _, [] => fzero
  | _, _ =>
      let common := filter (λ x, x ∈ right) left in
      let union := left ++ filter (λ x, x ∉ left) right in
      int_truediv (Z.of_nat (length common)) (Z.of_nat (length union))
  end.

Definition size_affinity (first second : WorkflowAffinity.t) : f64 :=
  let n := WorkflowAffinity.node_count first in
  let m := WorkflowAffinity.node_count second in
  let max_nodes := Z.max n m in
  if (max_nodes <=? 0)%Z then of_Z 1
  else fsub (of_Z 1) (int_truediv (Z.abs (n - m)) max_nodes).

Section clustering.
Context (affinity : string → WorkflowAffinity.t).
Context (enqueued_at : string → f64).
Context (model_weight data_weight size_weight : f64).
Context (batch_size : nat).

Definition distance (first second : string) : f64 :=
if String.eqb first second then fzero
else
  let a := affinity first in
  let b := affinity second in
  let score :=
    fadd (fadd (fmul model_weight (jaccard (WorkflowAffinity.models a) (WorkflowAffinity.models b)))
               (fmul data_weight (jaccard (WorkflowAffinity.system_prompt_tokens a)
                                          (WorkflowAffinity.system_prompt_tokens b))))
         (fmul size_weight (size_affinity a b)) in
  fsub (of_Z 1) (fmax2 fzero (fmin2 (of_Z 1) score)).

Definition fsum (l : list f64) : f64 := foldl fadd fzero l.

Definition avg_distance (candidate_id : string) (selected_ids : list string) : f64 :=
match selected_ids with
| [] => of_Z 1
| _ => fdiv (fsum (distance candidate_id <$> selected_ids)) (of_Z (Z.of_nat (length selected_ids)))
end.

(** The distances of the pairs of a list, in the order of the two loops. *)
Fixpoint pair_distances (l : list string) : list f64 :=
match l with
| [] => []
| x :: l' => (distance x <$> l') ++ pair_distances l'
end.

Definition mean (l : list f64) : f64 :=
match l with
| [] => fzero
| _ => fdiv (fsum l) (of_Z (Z.of_nat (length l)))
end.

Definition batch_score (selected_ids : list string) : f64 :=
if length selected_ids <=? 1 then fzero else mean (pair_distances selected_ids).

Definition cluster_distance (a b : list string) : f64 :=
mean (a ≫= λ x, distance x <$> b).

(** [sorted(pinned, key=enqueued_at)[:batch_size]] *)
Definition oldest_first (l : list string) : list string :=
take batch_size (sorted_by fltb enqueued_at l).

(** [list.remove]: the first occurrence. *)
Fixpoint list_remove_first (x : string) (l : list string) : list string :=
match l with
| [] => []
| y :: l' => if String.eqb x y then l' else y :: list_remove_first x l'
end.

Definition score_lt := lex_lt feqb fltb fltb.

(** The greedy loop; one unit of fuel per remaining id. *)
Fixpoint greedy (fuel : nat) (selected remaining : list string) : list string :=
match fuel, remaining with
| S fuel', r :: rs =>
    if length selected <? batch_size then
      let next_id := min_by score_lt (λ cid, (avg_distance cid selected, enqueued_at cid)) r rs in
      greedy fuel' (selected ++ [next_id]) (list_remove_first next_id remaining)
    else selected
| _, _ => selected
end.

(** The best subset so far with its score and its oldest enqueue time. *)
Definition best := option (list string * f64 * f64).

Definition oldest_of (l : list string) : f64 :=
match l with
| [] => finf
| x :: l' => min_by fltb id (enqueued_at x) (enqueued_at <$> l')
end.

(** [best_oldest or float("inf")] *)
Definition or_inf (x : f64) : f64 := if feqb x fzero then finf else x.

Definition keep_better (b : best) (subset : list string) : best :=
let score := batch_score subset in
let oldest := oldest_of subset in
match b with
| None => Some (subset, score, oldest)
| Some (_, best_score, best_oldest) =>
    if (fltb score best_score || (feqb score best_score && fltb oldest (or_inf best_oldest)))%bool
    then Some (subset, score, oldest) else b
end.

Definition select_subset (candidate_ids pinned : list string) : list string :=
if length candidate_ids <=? batch_size then candidate_ids
else if batch_size <=? length pinned then oldest_first pinned
else
  match pinned with
  | _ :: _ =>
      let remaining := filter (λ c, c ∉ pinned) candidate_ids in
      greedy (length remaining) pinned remaining
  | [] =>
      match foldl (λ b seed_id,
              let remaining := filter (λ c, c ≠ seed_id) candidate_ids in
              keep_better b (greedy (length remaining) [seed_id] remaining)) None candidate_ids with
      | Some (subset, _, _) => subset
      | None => take batch_size candidate_ids
      end
  end.

Definition consider_cluster (pinned : list string) (b : best) (cluster_ids : list string) : best :=
if existsb (λ w, negb (bool_decide (w ∈ cluster_ids))) pinned then b
else if length cluster_ids <? batch_size then b
else keep_better b (select_subset cluster_ids pinned).

(** The closest pair of clusters, the first of the nearest ones. *)
Definition closest_pair (clusters : list (list string)) : option (nat * nat * f64) :=
foldl (λ acc ij,
  let '(i, j) := ij in
  let dist := cluster_distance (nth i clusters []) (nth j clusters []) in
  let current := match acc with Some (_, _, d) => d | None => finf end in
  if fltb dist current then Some (i, j, dist) else acc) None
  (seq 0 (length clusters) ≫= λ i, (λ j, (i, j)) <$> seq (S i) (length clusters - S i)).

Fixpoint merge_loop (fuel : nat) (pinned : list string) (clusters : list (list string)) (b : best) : best :=
match fuel with
| O => b
| S fuel' =>
    if length clusters <=? 1 then b
    else
      match closest_pair clusters with
      | None => b
      | Some (i, j, _) =>
          let merged := nth i clusters [] ++ nth j clusters [] in
          merge_loop fuel' pinned (delete i (delete j clusters) ++ [merged])
            (consider_cluster pinned b merged)
      end
end.

Definition normalize_pinned (candidate_ids pinned_ids : list string) : list string :=
foldl (λ acc w, if decide (w ∈ candidate_ids ∧ w ∉ acc) then acc ++ [w] else acc) [] pinned_ids.

Definition select_affinity (candidate_ids pinned_ids : list string) : list string :=
if length candidate_ids <=? batch_size then candidate_ids
else
  let pinned := normalize_pinned candidate_ids pinned_ids in
  if batch_size <=? length pinned then oldest_first pinned
  else
    let clusters := (λ w, [w]) <$> candidate_ids in
    let b := foldl (consider_cluster pinned) None clusters in
    match merge_loop (length clusters) pinned clusters b with
    | Some (best_ids, _, _) => best_ids
    | None => select_subset candidate_ids pinned
    end.
End clustering.

Definition select_affinity_batch_ids (graphs : dict string RuntimeGraph.t)
    (enqueued_at : dict string f64) (batch_size : Z) (pinned_ids : list string)
    (model_weight data_weight size_weight : f64) : list string :=
  let affinity := (λ kv, (kv.1, build_affinity kv.2)) <$> graphs in
  select_affinity
    (λ w, dget_or (WorkflowAffinity.mk [] [] 0) w affinity)
    (λ w, dget_or finf w enqueued_at)
    model_weight data_weight size_weight
    (Z.to_nat (if (batch_size <=? 0)%Z then 1%Z else batch_size))
    (dkeys graphs) pinned_ids.

(** ** What the selection guarantees, whatever the distance *)

Lemma list_remove_first_perm x l : x ∈ l → x :: list_remove_first x l ≡ₚ l.
Proof.
  induction l as [|y l IH]; simpl; [set_solver|].
  destruct (String.eqb_spec x y) as [->|Hne]; intros Hx; [done|].
  rewrite Permutation_swap, IH; [done|set_solver].
Qed.

(** A batch of the asked size, made of [cands], that contains [pinned]. *)
Record good_batch (n : nat) (cands pinned l : list string) : Prop := {
  gb_nodup : NoDup l;
  gb_sub : l ⊆ cands;
  gb_len : length l = n;
  gb_pinned : pinned ⊆ l;
}.

Lemma good_batch_mono n cands cands' pinned l :
  cands ⊆ cands' → good_batch n cands pinned l → good_batch n cands' pinned l.
Proof. intros H []. split; [done|set_solver|done|done]. Qed.

Lemma normalize_pinned_spec cands pins :
  NoDup (normalize_pinned cands pins) ∧
  ∀ x, x ∈ normalize_pinned cands pins ↔ x ∈ pins ∧ x ∈ cands.
Proof.
  unfold normalize_pinned.
  assert (G : ∀ acc, NoDup acc → (∀ x, x ∈ acc → x ∈ cands) →
    let r := foldl (λ acc w, if decide (w ∈ cands ∧ w ∉ acc) then acc ++ [w] else acc) acc pins in
    NoDup r ∧ ∀ x, x ∈ r ↔ x ∈ acc ∨ x ∈ pins ∧ x ∈ cands).
  { induction pins as [|p pins IH]; intros acc Hnd Hacc; simpl; [set_solver|].
    case_decide as Hd.
    - destruct (IH (acc ++ [p])) as [H1 H2].
      + apply NoDup_app. split; [done|]. split; [set_solver|]. apply NoDup_singleton.
      + set_solver.
      + split; [done|]. intros x. rewrite H2. set_solver.
    - destruct (IH acc Hnd Hacc) as [H1 H2]. split; [done|]. intros x. rewrite H2.
      split; [set_solver|]. intros [?|[[->|?]%elem_of_cons ?]]; [by left| |by right].
      destruct (decide (p ∈ acc)); [by left|]. destruct Hd. done. }
  destruct (G [] (NoDup_nil_2) ltac:(set_solver)) as [H1 H2]. split; [done|].
  intros x. rewrite H2. set_solver.
Qed.

(** The clusters partition the candidates. *)
Lemma merge_pair_perm (clusters : list (list string)) i j :
  i < j → j < length clusters →
  concat (delete i (delete j clusters) ++ [nth i clusters [] ++ nth j clusters []]) ≡ₚ concat clusters.
Proof.
  intros Hij Hj.
  assert (Hdel : ∀ (l : list (list string)) k, k < length l →
    nth k l [] ++ concat (delete k l) ≡ₚ concat l).
  { induction l as [|x l IH]; intros [|k] Hk; simpl in *; try lia; [done|].
    rewrite Permutation_app_swap_app. by rewrite IH by lia. }
  rewrite concat_app. simpl. rewrite app_nil_r.
  rewrite <-(Hdel clusters j) by done.
  assert (Hi : nth i clusters [] = nth i (delete j clusters) []).
  { rewrite !nth_lookup, list_lookup_delete_lt by done. done. }
  rewrite <-(Hdel (delete j clusters) i).
  - rewrite Hi. rewrite Permutation_app_comm. rewrite <-app_assoc.
    by rewrite Permutation_app_swap_app.
  - rewrite length_delete; [lia|]. by apply lookup_lt_is_Some.
Qed.

Lemma nth_sub_concat (clusters : list (list string)) i : nth i clusters [] ⊆ concat clusters.
Proof.
  revert i. induction clusters as [|x l IH]; intros [|i]; simpl; [set_solver..|].
  specialize (IH i). set_solver.
Qed.

Section clustering_facts.
Context (affinity : string → WorkflowAffinity.t) (enq : string → f64).
Context (mw dw sw : f64) (n : nat).

Abbreviation greedy_ := (greedy affinity enq mw dw sw n).
Abbreviation keep_ := (keep_better affinity enq mw dw sw).
Abbreviation subset_ := (select_subset affinity enq mw dw sw n).
Abbreviation consider_ := (consider_cluster affinity enq mw dw sw n).


Lemma greedy_spec fuel sel rem :
length rem ≤ fuel → length sel ≤ n →
∃ extra rest, greedy_ fuel sel rem = sel ++ extra ∧ extra ++ rest ≡ₚ rem ∧
  length (sel ++ extra) = n `min` (length sel + length rem).
Proof.
revert sel rem. induction fuel as [|fuel IH]; intros sel rem Hf Hn; simpl.
{ destruct rem; [|simpl in Hf; lia]. exists [], []. rewrite app_nil_r. split_and!; try done.
  simpl. lia. }
destruct rem as [|r rs].
{ exists [], []. rewrite app_nil_r. split_and!; try done. simpl. lia. }
destruct (Nat.ltb_spec (length sel) n) as [Hlt|Hge].
- set (next := min_by _ _ r rs).
  assert (Hin : next ∈ r :: rs) by apply min_by_in.
  pose proof (list_remove_first_perm next (r :: rs) Hin) as Hp.
  pose proof (Permutation_length Hp) as Hl. simpl in Hl, Hf.
  destruct (IH (sel ++ [next]) (list_remove_first next (r :: rs))) as (extra & rest & E & Hp2 & Hlen).
  { simpl. lia. }
  { rewrite length_app. simpl. lia. }
  exists (next :: extra), rest. split_and!.
  + etrans; [exact E|]. by rewrite <-app_assoc.
  + simpl. rewrite Hp2. by rewrite Hp.
  + rewrite <-app_assoc in Hlen. simpl in Hlen |- *. rewrite Hlen, length_app. simpl. lia.
- exists [], (r :: rs). rewrite app_nil_r. split_and!; try done. simpl. lia.
Qed.


Lemma greedy_good cands pinned :
NoDup cands → NoDup pinned → pinned ⊆ cands → length pinned ≤ n → n ≤ length cands →
let rem := filter (λ c, c ∉ pinned) cands in
good_batch n cands pinned (greedy_ (length rem) pinned rem).
Proof.
intros Hc Hp Hsub Hl Hn rem.
destruct (greedy_spec (length rem) pinned rem ltac:(lia) Hl) as (extra & rest & E & Hperm & Hlen).
assert (Hrem : ∀ x, x ∈ extra → x ∈ cands ∧ x ∉ pinned).
{ intros x Hx. assert (x ∈ rem) as Hr by (rewrite <-Hperm; set_solver).
  by apply list_elem_of_filter in Hr as [? ?]. }
assert (Hlenrem : length pinned + length rem = length cands).
{ assert (pinned ++ rem ≡ₚ cands) as HP; [|by rewrite <-HP, length_app].
  apply NoDup_Permutation; [|done|].
  - apply NoDup_app. split; [done|]. split; [|by apply NoDup_filter].
    intros x Hx. unfold rem. rewrite list_elem_of_filter. naive_solver.
  - intros x. rewrite elem_of_app. unfold rem. rewrite list_elem_of_filter.
    destruct (decide (x ∈ pinned)); set_solver. }
split.
- rewrite E. apply NoDup_app. split; [done|]. split; [intros x ? Hx; by apply Hrem in Hx as [_ ?]|].
  assert (NoDup (extra ++ rest)) as HN by (rewrite Hperm; by apply NoDup_filter).
  by apply NoDup_app in HN as (? & _ & _).
- rewrite E. intros x [Hx|Hx]%elem_of_app; [by apply Hsub|by apply Hrem in Hx as [? _]].
- rewrite E, Hlen. lia.
- rewrite E. set_solver.
Qed.

Lemma keep_better_some b l :
∃ l' s o, keep_ b l = Some (l', s, o) ∧ (l' = l ∨ ∃ s' o', b = Some (l', s', o')).
Proof. unfold keep_better. destruct b as [[[l0 s] o]|]; [case_match|]; naive_solver. Qed.

Lemma select_subset_good cands pinned :
0 < n → NoDup cands → NoDup pinned → pinned ⊆ cands → length pinned < n → n ≤ length cands →
good_batch n cands pinned (subset_ cands pinned).
Proof.
intros H0 Hc Hp Hsub Hl Hn. unfold select_subset.
destruct (Nat.leb_spec (length cands) n); [split; try done; lia|].
destruct (Nat.leb_spec n (length pinned)); [lia|].
destruct pinned as [|p pinned]; [|by apply greedy_good; [..|lia|]].
assert (G : ∀ seeds b,
  seeds ⊆ cands → (∀ l s o, b = Some (l, s, o) → good_batch n cands [] l) →
  (seeds ≠ [] ∨ b ≠ None) →
  ∃ l s o, foldl (λ b seed_id,
    let remaining := filter (λ c, c ≠ seed_id) cands in
    keep_ b (greedy_ (length remaining) [seed_id] remaining)) b seeds = Some (l, s, o) ∧
    good_batch n cands [] l).
{ induction seeds as [|x seeds IH]; intros b Hs Hb Hne; simpl.
  - destruct b as [[[l s] o]|]; [|naive_solver]. exists l, s, o. eauto.
  - apply IH; [set_solver| |].
    + intros l s o El.
      edestruct keep_better_some as (l' & s' & o' & E' & Hl'). rewrite E' in El.
      injection El as <- <- <-. destruct Hl' as [->|(s1 & o1 & ->)]; [|by eapply Hb].
      pose proof (greedy_good cands [x] Hc (NoDup_singleton x)) as Hg.
      replace (filter (λ c, c ≠ x) cands) with (filter (λ c, c ∉ [x]) cands)
        by (apply list_filter_iff; set_solver).
      destruct Hg as [? ? ? ?]; [set_solver|simpl; lia|lia|]. split; try done. set_solver.
    + right. edestruct keep_better_some as (l' & s' & o' & E' & _). by rewrite E'. }
destruct (G cands None) as (l & s & o & E & Hgood);
  [done|done|left; intros ->; simpl in *; lia|].
simpl in E |- *. rewrite E. done.
Qed.

End clustering_facts.

Section clustering_result.
Context (affinity : string → WorkflowAffinity.t) (enq : string → f64).
Context (mw dw sw : f64) (n : nat) (cands pinned : list string).
Context (Hn0 : 0 < n) (Hc : NoDup cands) (Hn : n ≤ length cands).
Context (Hp : NoDup pinned) (Hps : pinned ⊆ cands) (Hpl : length pinned < n).

Definition good_best (b : best) : Prop :=
∀ l s o, b = Some (l, s, o) → good_batch n cands pinned l.

Lemma consider_good b l :
NoDup l → l ⊆ cands → good_best b →
good_best (consider_cluster affinity enq mw dw sw n pinned b l).
Proof using Hn0 Hp Hpl.
intros Hl Hsub Hb. unfold consider_cluster.
destruct (existsb _ _) eqn:E; [done|].
destruct (Nat.ltb_spec (length l) n); [done|]. intros l1 s o Hl1.
edestruct keep_better_some as (l' & s' & o' & E' & Hl'). rewrite E' in Hl1.
injection Hl1 as <- <- <-. destruct Hl' as [->|(s1 & o1 & ->)]; [|by eapply Hb].
eapply good_batch_mono; [exact Hsub|]. apply select_subset_good; try done.
intros x Hx. destruct (decide (x ∈ l)) as [|Hnot]; [done|exfalso].
apply not_true_iff_false in E. apply E, existsb_exists. exists x.
split; [by apply list_elem_of_In|]. by rewrite bool_decide_eq_false_2.
Qed.


Lemma closest_pair_range clusters i j d :
closest_pair affinity mw dw sw clusters = Some (i, j, d) → i < j ∧ j < length clusters.
Proof.
unfold closest_pair. set (pairs := (_ ≫= _)).
assert (Hpairs : ∀ ij, ij ∈ pairs → ij.1 < ij.2 ∧ ij.2 < length clusters).
{ intros [i' j'] H. apply list_elem_of_bind in H as (i0 & H & _).
  apply list_elem_of_fmap in H as (j0 & [= -> ->] & H). apply elem_of_seq in H. simpl. lia. }
assert (G : ∀ l acc, (∀ ij, ij ∈ l → ij ∈ pairs) →
  (∀ i j d, acc = Some (i, j, d) → i < j ∧ j < length clusters) →
  foldl (λ acc ij, let '(i, j) := ij in
    let dist := cluster_distance affinity mw dw sw (nth i clusters []) (nth j clusters []) in
    let current := match acc with Some (_, _, d) => d | None => finf end in
    if fltb dist current then Some (i, j, dist) else acc) acc l = Some (i, j, d) →
  i < j ∧ j < length clusters).
{ induction l as [|[i' j'] l IH]; intros acc Hl Hacc H; simpl in H; [by eapply Hacc|].
  eapply IH; [set_solver| |exact H]. intros i1 j1 d1. case_match; [|by apply Hacc].
  intros [= <- <- <-]. apply (Hpairs (i', j')), Hl. set_solver. }
by apply G.
Qed.


Lemma merge_loop_good fuel clusters b :
concat clusters ≡ₚ cands → good_best b →
good_best (merge_loop affinity enq mw dw sw n fuel pinned clusters b).
Proof using All.
revert clusters b. induction fuel as [|fuel IH]; intros clusters b Hcl Hb; simpl; [done|].
destruct (_ <=? _); [done|].
destruct (closest_pair _ _ _ _ _) as [[[i j] d]|] eqn:E; [|done].
apply closest_pair_range in E as [Hij Hj].
pose proof (merge_pair_perm clusters i j Hij Hj) as Hm. rewrite Hcl in Hm.
apply IH; [done|].
rewrite concat_app in Hm. simpl in Hm. rewrite app_nil_r in Hm.
apply consider_good; [|rewrite <-Hm; set_solver|done].
rewrite <-Hm in Hc. by apply NoDup_app in Hc as (_ & _ & ?).
Qed.

Lemma affinity_search_good :
good_batch n cands pinned
  (let clusters := (λ w, [w]) <$> cands in
   let b := foldl (consider_cluster affinity enq mw dw sw n pinned) None clusters in
   match merge_loop affinity enq mw dw sw n (length clusters) pinned clusters b with
   | Some (best_ids, _, _) => best_ids
   | None => select_subset affinity enq mw dw sw n cands pinned
   end).
Proof using All.
simpl. set (b := foldl (consider_cluster affinity enq mw dw sw n pinned) None _).
assert (Hb : good_best b).
{ unfold b. assert (G : ∀ l b, l ⊆ cands → good_best b →
    good_best (foldl (consider_cluster affinity enq mw dw sw n pinned) b ((λ w, [w]) <$> l))).
  { induction l as [|x l IH]; intros b0 Hl Hb0; csimpl; [done|].
    apply IH; [set_solver|]. apply consider_good; [apply NoDup_singleton|set_solver|done]. }
  by apply G. }
assert (Hcl : concat ((λ w, [w]) <$> cands) ≡ₚ cands).
{ clear. induction cands as [|x l IH]; csimpl; [done|]. by rewrite IH. }
pose proof (merge_loop_good (length ((λ w, [w]) <$> cands)) _ b Hcl Hb) as Hg.
destruct (merge_loop _ _ _ _ _ _ _ _ _ _) as [[[l s] o]|]; [by eapply Hg|].
by apply select_subset_good.
Qed.
End clustering_result.

(** What every affinity selection returns. *)
Lemma select_affinity_spec affinity enq mw dw sw n cands pins :
  0 < n → NoDup cands →
  let pinned := normalize_pinned cands pins in
  let r := select_affinity affinity enq mw dw sw n cands pins in
  NoDup r ∧ r ⊆ cands ∧ length r = n `min` length cands ∧
  (length pinned ≤ n → pinned ⊆ r) ∧ (n ≤ length pinned → length cands ≤ n ∨ r ⊆ pinned).
Proof.
  intros Hn Hc pinned r. unfold r, select_affinity.
  destruct (normalize_pinned_spec cands pins) as [Hpn Hpe]. fold pinned in Hpn, Hpe |- *.
  assert (Hps : pinned ⊆ cands) by (intros x Hx; by apply Hpe in Hx as [_ ?]).
  destruct (Nat.leb_spec (length cands) n) as [Hle|Hgt].
  { split_and!; [done|done|lia|done|by left]. }
  destruct (Nat.leb_spec n (length pinned)) as [Hge|Hlt].
  - unfold oldest_first.
    set (s := sorted_by fltb enq pinned).
    assert (Hs : s ≡ₚ pinned) by apply sorted_by_perm.
    assert (Hsub : take n s ⊆ pinned).
    { intros x Hx. rewrite <-Hs. eapply elem_of_sublist; [exact Hx|apply sublist_take]. }
    split_and!.
    + eapply sublist_NoDup; [|apply sublist_take]. by rewrite Hs.
    + intros x Hx. by apply Hps, Hsub.
    + rewrite length_take, Hs. lia.
    + intros Hle x Hx. rewrite take_ge by (rewrite Hs; lia). by rewrite Hs.
    + by right.
  - destruct (affinity_search_good affinity enq mw dw sw n cands pinned Hn Hc ltac:(lia) Hpn Hps Hlt)
      as [H1 H2 H3 H4].
    split_and!; [done|done|etrans; [exact H3|lia]|done|lia].
Qed.

(** The affinity selector returns a batch of the asked size (or every
    candidate when there are fewer), without repetition, that keeps every
    pinned id when the pinned ids fit. *)
Theorem select_affinity_batch_correct graphs enq batch_size pins mw dw sw :
  dict_wf graphs →
  let n := Z.to_nat (Z.max 1 batch_size) in
  let r := select_affinity_batch_ids graphs enq batch_size pins mw dw sw in
  NoDup r ∧ r ⊆ dkeys graphs ∧ length r = n `min` length graphs ∧
  (length (normalize_pinned (dkeys graphs) pins) ≤ n →
     ∀ w, w ∈ pins → w ∈ dkeys graphs → w ∈ r).
Proof.
  intros Hwf n r.
  assert (Hb : Z.to_nat (if (batch_size <=? 0)%Z then 1%Z else batch_size) = n).
  { unfold n. destruct (Z.leb_spec batch_size 0); lia. }
  unfold r, select_affinity_batch_ids. rewrite Hb.
  edestruct (select_affinity_spec) as (H1 & H2 & H3 & H4 & _);
    [|exact Hwf|split_and!; [exact H1|exact H2| |]].
  - unfold n. lia.
  - rewrite H3. unfold dkeys. by rewrite length_fmap.
  - intros Hle w Hw Hin. apply H4; [exact Hle|]. by apply normalize_pinned_spec.
Qed.

Definition sample_op (node_id model : string) : RuntimeOp.t :=
  RuntimeOp.mk node_id "inference" "vllm" model
    [("messages", VList [VDict [("role", VStr "system"); ("content", VStr "You are terse")]])]
    [] [] [] [] None None.
Definition sample_graph (node_id model : string) : RuntimeGraph.t :=
  RuntimeGraph.mk [(node_id, sample_op node_id model)] [node_id] [] [] [].
Definition sample_graphs : dict string RuntimeGraph.t :=
  [("w1", sample_graph "a" "m-7b"); ("w2", sample_graph "b" "m-1b");
   ("w3", sample_graph "c" "m-7b"); ("w4", sample_graph "d" "m-1b")].

Lemma select_affinity_batch_correct_witness :
  select_affinity_batch_ids sample_graphs (map (λ kv, (kv.1, of_Z 5)) sample_graphs) 2 ["w4"]
    MODEL_WEIGHT DATA_WEIGHT SIZE_WEIGHT = ["w2"; "w4"] ∧
  length (select_affinity_batch_ids sample_graphs (map (λ kv, (kv.1, of_Z 5)) sample_graphs) 2 ["w4"]
    MODEL_WEIGHT DATA_WEIGHT SIZE_WEIGHT) = 2.
Proof.
  split; [vm_compute; reflexivity|].
  assert (Hwf : dict_wf sample_graphs) by (apply (bool_decide_unpack _); vm_compute; exact I).
  destruct (select_affinity_batch_correct sample_graphs (map (λ kv, (kv.1, of_Z 5)) sample_graphs)
    2 ["w4"] MODEL_WEIGHT DATA_WEIGHT SIZE_WEIGHT Hwf) as (_ & _ & H & _).
  exact H.
Defined.
