(* ===== verification/Policies.v ===== *)
(** * The simple scheduling policies (runtime/job_manager/policies/*.py)

    [default] (affinity clustering plus one item per user first), [fifo],
    [spt], [lpt] and [plas].  Each is an instance of the policy interface and
    discharges its laws; [cohort_pack] has a file of its own. *)

From S2P Require Import Prelude PyFloat PyDict PyValue PyString Protocol RuntimeGraph DslGraph JobBase Cost Clustering.

(** ** default *)

Module DefaultPolicy.
(** [user_to_ids], whose keys are [user_order]. *)
Definition by_user (candidates : list WorkflowItem.t) : dict string (list string) :=
foldl (λ d item,
  let owner_id := WorkflowItem.user_id item in
  dset owner_id (dget_or [] owner_id d ++ [WorkflowItem.workflow_id item]) d) [] candidates.

(** [next((wid for wid in ids if wid in selected_set), None) or ids[0]] *)
Definition pick (selected : list string) (user_ids : list string) : string :=
str_or (head (filter (λ w, w ∈ selected) user_ids)) (default "" (head user_ids)).

(** Append the elements that are new until there are [batch_size]; the flag
  tells that the loop returned early. *)
Fixpoint append_until (batch_size : nat) (acc l : list string) : list string * bool :=
match l with
| [] => (acc, false)
| w :: l' =>
    if decide (w ∈ acc) then append_until batch_size acc l'
    else
      let acc' := acc ++ [w] in
      if batch_size <=? length acc' then (acc', true)
      else append_until batch_size acc' l'
end.

Definition select (candidates : list WorkflowItem.t) (batch_size : Z) : list string :=
let affinity_ids :=
  select_affinity_batch_ids
    (dict_of (map (λ i, (WorkflowItem.workflow_id i, WorkflowItem.runtime_graph i)) candidates))
    (dict_of (map (λ i, (WorkflowItem.workflow_id i, WorkflowItem.enqueued_at i)) candidates))
    batch_size [] MODEL_WEIGHT DATA_WEIGHT SIZE_WEIGHT in
if (batch_size <=? 1)%Z then py_take batch_size affinity_ids
else
  let n := Z.to_nat batch_size in
  let selected_ids := filter (λ w, w ∈ ids candidates) affinity_ids in
  match selected_ids with
  | [] => []
  | _ =>
      let users := by_user candidates in
      if length users <=? 1 then take n selected_ids
      else
        let '(fair_seed, full) := append_until n [] (pick selected_ids <$> dvals users) in
        if full then take n fair_seed
        else
          let '(final_ids, full) := append_until n fair_seed selected_ids in
          if full then take n final_ids
          else take n (append_until n final_ids (ids candidates)).1
  end.
End DefaultPolicy.

(** ** The sorting policies *)

(** The sort key [(estimated?, area, enqueued_at, workflow_id)] and its order. *)
Definition area_key : Type := Z * (f64 * (f64 * string)).
Definition time_key_lt : f64 * string → f64 * string → bool := lex_lt feqb fltb str_ltb.
Definition area_key_lt : area_key → area_key → bool :=
  lex_lt Z.eqb Z.ltb (lex_lt feqb fltb time_key_lt).
Definition attained_key_lt : f64 * (f64 * string) → f64 * (f64 * string) → bool :=
  lex_lt feqb fltb time_key_lt.

Definition time_key (i : WorkflowItem.t) : f64 * string :=
  (WorkflowItem.enqueued_at i, WorkflowItem.workflow_id i).

Module FifoPolicy.
Definition select (candidates : list WorkflowItem.t) (batch_size : Z) : list string :=
ids (py_take batch_size (sorted_by time_key_lt time_key candidates)).
End FifoPolicy.

Section area_policies.
Context (estimate_area : WorkflowItem.t → result (option f64)).

(** [sorted(candidates, key=key)] with a key that may raise: all the keys
  are computed first. *)
Definition sort_by_area (sign : f64 → f64) (candidates : list WorkflowItem.t) :
  result (list WorkflowItem.t) :=
keyed ← mapR (λ i,
  area ← estimate_area i;
  Ok (match area with
      | None => (1%Z, (fzero, time_key i))
      | Some a => (0%Z, (sign a, time_key i))
      end, i)) candidates;
Ok (sorted_by area_key_lt fst keyed).*2.

Definition spt_select (candidates : list WorkflowItem.t) (batch_size : Z) : result (list string) :=
ordered ← sort_by_area id candidates; Ok (ids (py_take batch_size ordered)).

Definition lpt_select (candidates : list WorkflowItem.t) (batch_size : Z) : result (list string) :=
ordered ← sort_by_area fopp candidates; Ok (ids (py_take batch_size ordered)).

(** plas: attained service per chain. *)
Definition plas_select (attained : dict string f64) (candidates : list WorkflowItem.t)
  (batch_size : Z) : list string :=
ids (py_take batch_size
  (sorted_by attained_key_lt (λ i, (dget_or fzero (chain_of i) attained, time_key i)) candidates)).

(** The charge is made item by item, so an estimate that raises leaves the
  items before it charged. *)
Fixpoint plas_charge (attained : dict string f64) (workflows : list WorkflowItem.t) :
  dict string f64 * option exn :=
match workflows with
| [] => (attained, None)
| charged :: rest =>
    match estimate_area charged with
    | Err e => (attained, Some e)
    | Ok None => plas_charge attained rest
    | Ok (Some area) =>
        let key := chain_of charged in
        plas_charge (dset key (fadd (dget_or fzero key attained) area) attained) rest
    end
end.
End area_policies.

(** ** The default policy is fair over users *)

Section default_facts.
Import DefaultPolicy.

Lemma append_until_spec n acc l :
NoDup acc → length acc < n →
let '(r, full) := append_until n acc l in
NoDup r ∧ (∃ extra, r = acc ++ extra ∧ extra ⊆ l) ∧
(if full : bool then length r = n else length r < n ∧ l ⊆ r).
Proof.
revert acc. induction l as [|w l IH]; intros acc Hnd Hlen; simpl.
{ split_and!; [done|exists []; rewrite app_nil_r; set_solver|done|set_solver]. }
case_decide as Hw.
- specialize (IH acc Hnd Hlen). destruct (append_until n acc l) as [r full].
  destruct IH as (H1 & (extra & -> & H2) & H3). split_and!; [done|exists extra; set_solver|].
  destruct full; [done|]. destruct H3. split; [done|set_solver].
- assert (Hnd' : NoDup (acc ++ [w])).
  { apply NoDup_app. split; [done|]. split; [set_solver|]. apply NoDup_singleton. }
  destruct (Nat.leb_spec n (length (acc ++ [w]))) as [Hle|Hlt].
  + split_and!; [done|exists [w]; set_solver|]. rewrite length_app in *. simpl in *. lia.
  + specialize (IH _ Hnd' Hlt). destruct (append_until n (acc ++ [w]) l) as [r full].
    destruct IH as (H1 & (extra & -> & H2) & H3).
    split_and!; [done|exists (w :: extra); rewrite <-app_assoc; set_solver|].
    destruct full; [done|]. destruct H3. split; [done|set_solver].
Qed.

Lemma append_until_take n acc l :
NoDup (acc ++ l) → length acc < n → (append_until n acc l).1 = take n (acc ++ l).
Proof.
revert acc. induction l as [|w l IH]; intros acc Hnd Hlen; simpl.
{ rewrite app_nil_r, take_ge by lia. done. }
assert (Hw : w ∉ acc).
{ apply NoDup_app in Hnd as (_ & H & _). intros Hin. apply (H w Hin). set_solver. }
rewrite decide_False by done.
destruct (Nat.leb_spec n (length (acc ++ [w]))) as [Hle|Hlt]; simpl.
- rewrite length_app in Hle. simpl in Hle.
  rewrite take_app, take_ge by lia. replace (n - length acc) with 1 by lia. done.
- rewrite IH; [by rewrite <-app_assoc|by rewrite <-app_assoc|done].
Qed.

Lemma by_user_snoc c x :
by_user (c ++ [x]) =
dset (WorkflowItem.user_id x)
     (dget_or [] (WorkflowItem.user_id x) (by_user c) ++ [WorkflowItem.workflow_id x]) (by_user c).
Proof. unfold by_user. by rewrite foldl_snoc. Qed.

Definition of_user (u : string) (c : list WorkflowItem.t) : list string :=
ids (filter (λ i, WorkflowItem.user_id i = u) c).

Lemma by_user_get c u : dget_or [] u (by_user c) = of_user u c.
Proof.
induction c as [|x c IH] using rev_ind; [done|].
rewrite by_user_snoc, dget_or_dset. unfold of_user, ids in *.
rewrite filter_app, fmap_app.
destruct (decide (u = WorkflowItem.user_id x)) as [->|Hne].
- rewrite IH. by rewrite filter_cons_True.
- rewrite IH. rewrite filter_cons_False by congruence. csimpl. by rewrite app_nil_r.
Qed.

Lemma by_user_wf c : dict_wf (by_user c).
Proof.
induction c as [|x c IH] using rev_ind; [constructor|].
rewrite by_user_snoc. by apply dict_wf_dset.
Qed.

Lemma by_user_keys c u : u ∈ dkeys (by_user c) ↔ of_user u c ≠ [].
Proof.
induction c as [|x c IH] using rev_ind; [set_solver|].
rewrite by_user_snoc, elem_of_dkeys_dset, IH. unfold of_user, ids.
rewrite filter_app, fmap_app.
destruct (decide (WorkflowItem.user_id x = u)) as [Hu|Hne].
- rewrite (filter_cons_True _ x) by done. csimpl. split; [|by left].
  intros _ H. by apply app_eq_nil in H as [_ ?].
- rewrite (filter_cons_False _ x) by done. csimpl. rewrite app_nil_r. naive_solver.
Qed.

Lemma by_user_entry c u l : (u, l) ∈ by_user c → l = of_user u c ∧ l ≠ [].
Proof.
intros H. assert (Hl : l = of_user u c).
{ rewrite <-by_user_get. unfold dget_or. by rewrite (elem_dget u l) by (done || apply by_user_wf). }
split; [done|]. rewrite Hl. apply by_user_keys, list_elem_of_fmap. by exists (u, l).
Qed.

Lemma elem_of_of_user u c w :
w ∈ of_user u c ↔ ∃ i, i ∈ c ∧ WorkflowItem.user_id i = u ∧ WorkflowItem.workflow_id i = w.
Proof.
unfold of_user, ids. rewrite list_elem_of_fmap. setoid_rewrite list_elem_of_filter. naive_solver.
Qed.

Lemma pick_in selected l : l ≠ [] → pick selected l ∈ l.
Proof.
intros Hl. destruct l as [|w l]; [done|]. unfold pick, str_or.
destruct (head (filter _ (w :: l))) as [p|] eqn:E; [|set_solver].
destruct (String.eqb p ""); [set_solver|].
assert (p ∈ filter (λ w, w ∈ selected) (w :: l)) as H.
{ destruct (filter _ (w :: l)); simplify_eq/=. set_solver. }
by apply list_elem_of_filter in H as [_ ?].
Qed.

(** The picks of different users are different items. *)
Lemma picks_nodup c selected : NoDup (ids c) → NoDup (pick selected <$> dvals (by_user c)).
Proof.
intros Hnd. unfold dvals. rewrite <-list_fmap_compose.
apply NoDup_fmap_2_strong; [|apply (NoDup_fmap_1 fst), by_user_wf].
intros [u l] [u' l'] H1 H2 Heq. simpl in Heq.
apply by_user_entry in H1 as [-> Hne1]. apply by_user_entry in H2 as [-> Hne2].
pose proof (pick_in selected _ Hne1) as P1. pose proof (pick_in selected _ Hne2) as P2.
rewrite Heq in P1. apply elem_of_of_user in P1 as (i & Hi & Hu & Hw).
apply elem_of_of_user in P2 as (j & Hj & Hu' & Hw').
assert (i = j) as <-.
{ apply list_elem_of_lookup in Hi as [a Ha]. apply list_elem_of_lookup in Hj as [b Hb].
  assert (a = b) as <-; [|congruence].
  eapply (NoDup_lookup (ids c)); [done|unfold ids; rewrite list_lookup_fmap, Ha; done|].
  unfold ids. rewrite list_lookup_fmap, Hb. simpl. congruence. }
congruence.
Qed.

(** The clustering call of the policy. *)
Definition affinity_pool (c : list WorkflowItem.t) (batch_size : Z) : list string :=
select_affinity_batch_ids
  (dict_of (map (λ i, (WorkflowItem.workflow_id i, WorkflowItem.runtime_graph i)) c))
  (dict_of (map (λ i, (WorkflowItem.workflow_id i, WorkflowItem.enqueued_at i)) c))
  batch_size [] MODEL_WEIGHT DATA_WEIGHT SIZE_WEIGHT.

Lemma affinity_pool_spec c batch_size :
NoDup (ids c) → (1 <= batch_size)%Z →
NoDup (affinity_pool c batch_size) ∧ affinity_pool c batch_size ⊆ ids c ∧
length (affinity_pool c batch_size) = Z.to_nat batch_size `min` length c.
Proof.
intros Hnd Hb. unfold affinity_pool, select_affinity_batch_ids.
destruct (Z.leb_spec batch_size 0); [lia|].
assert (Hk : dkeys (dict_of (map (λ i, (WorkflowItem.workflow_id i, WorkflowItem.runtime_graph i)) c)) = ids c).
{ rewrite dict_of_nodup.
  - unfold dkeys, ids. by rewrite <-list_fmap_compose.
  - rewrite <-list_fmap_compose. done. }
rewrite Hk. edestruct select_affinity_spec as (H1 & H2 & H3 & _); [|exact Hnd|].
2:{ split_and!; [exact H1|exact H2|]. rewrite H3. unfold ids. by rewrite length_fmap. }
lia.
Qed.

Lemma select_unfold c batch_size :
NoDup (ids c) → c ≠ [] → (2 <= batch_size)%Z →
select c batch_size =
  let n := Z.to_nat batch_size in
  if length (by_user c) <=? 1 then affinity_pool c batch_size
  else
    let '(fair_seed, full) := append_until n [] (pick (affinity_pool c batch_size) <$> dvals (by_user c)) in
    if full then take n fair_seed
    else
      let '(final_ids, full) := append_until n fair_seed (affinity_pool c batch_size) in
      if full then take n final_ids else take n (append_until n final_ids (ids c)).1.
Proof.
intros Hnd Hne Hb. unfold select. fold (affinity_pool c batch_size).
destruct (affinity_pool_spec c batch_size Hnd ltac:(lia)) as (H1 & H2 & H3).
destruct (Z.leb_spec batch_size 1); [lia|].
assert (Hf : filter (λ w, w ∈ ids c) (affinity_pool c batch_size) = affinity_pool c batch_size).
{ clear H1 H3. induction (affinity_pool c batch_size) as [|w l IH]; [done|].
  rewrite filter_cons_True by set_solver. f_equal. apply IH. set_solver. }
rewrite Hf. destruct (affinity_pool c batch_size) as [|w l] eqn:E.
{ destruct c; [done|]. simpl in H3. lia. }
simpl. case_match; [|done]. rewrite take_ge; [done|]. simpl in H3 |- *. lia.
Qed.

(** The batch has the asked size and serves as many users as fit, in
  round-robin order. *)
Lemma default_select_spec c batch_size :
NoDup (ids c) → c ≠ [] → (1 <= batch_size)%Z →
let n := Z.to_nat batch_size in
let r := select c batch_size in
NoDup r ∧ r ⊆ ids c ∧ length r = n `min` length c ∧
((2 <= batch_size)%Z → ∀ u, u ∈ take n (dkeys (by_user c)) → ∃ w, w ∈ r ∧ w ∈ of_user u c).
Proof.
intros Hnd Hne Hb n r.
destruct (affinity_pool_spec c batch_size Hnd Hb) as (A1 & A2 & A3). fold n in A3.
destruct (decide (batch_size = 1%Z)) as [Hb1|Hb1].
{ unfold r, select. fold (affinity_pool c batch_size). subst batch_size. simpl.
  rewrite py_take_nonneg by lia. rewrite take_ge by (rewrite A3; lia).
  split_and!; [done|done|done|lia]. }
unfold r. rewrite select_unfold by (done || lia). fold n. simpl.
assert (Hn : 2 ≤ n) by lia.
set (pool := affinity_pool c batch_size) in *.
assert (Hpn : pool ≠ []).
{ intros E. rewrite E in A3. simpl in A3. destruct c; [done|]. simpl in A3. lia. }
destruct (Nat.leb_spec (length (by_user c)) 1) as [H1|H1].
{ split_and!; [done|done|done|]. intros _ u Hu.
  destruct pool as [|w l]; [done|]. exists w. split; [set_solver|].
  assert (Hw : w ∈ ids c) by (apply A2; set_solver).
  apply list_elem_of_fmap in Hw as (i & -> & Hi).
  assert (Hui : WorkflowItem.user_id i ∈ dkeys (by_user c)).
  { apply by_user_keys. intros E. assert (WorkflowItem.workflow_id i ∈ of_user (WorkflowItem.user_id i) c) as Hin.
    { apply elem_of_of_user. eauto. } rewrite E in Hin. set_solver. }
  assert (Hu' : u ∈ dkeys (by_user c)) by (eapply elem_of_sublist; [exact Hu|apply sublist_take]).
  apply elem_of_of_user. exists i. split_and!; [done| |done].
  unfold dkeys in *. destruct (by_user c) as [|kv [|? ?]]; simpl in *; set_solver || lia. }
set (picks := pick pool <$> dvals (by_user c)).
assert (Hpicks : NoDup picks) by by apply picks_nodup.
assert (Hsubp : picks ⊆ ids c).
{ intros w Hw. unfold picks, dvals in Hw. rewrite <-list_fmap_compose in Hw.
  apply list_elem_of_fmap in Hw as ([u l] & -> & Hin). apply by_user_entry in Hin as [-> Hl].
  apply (pick_in pool) in Hl. simpl. apply elem_of_of_user in Hl as (i & Hi & _ & <-).
  apply list_elem_of_fmap. eauto. }
assert (Hfair : ∀ l, take n picks ⊆ l → ∀ u, u ∈ take n (dkeys (by_user c)) → ∃ w, w ∈ l ∧ w ∈ of_user u c).
{ intros l Hl u Hu. unfold dkeys in Hu. rewrite <-fmap_take in Hu.
  apply list_elem_of_fmap in Hu as ([u' l'] & -> & Hin). simpl.
  exists (pick pool l'). split.
  - apply Hl. unfold picks, dvals. rewrite <-list_fmap_compose, <-fmap_take.
    apply list_elem_of_fmap. by exists (u', l').
  - assert (Hin' : (u', l') ∈ by_user c) by (eapply elem_of_sublist; [exact Hin|apply sublist_take]).
    apply by_user_entry in Hin' as [-> Hl']. by apply pick_in. }
pose proof (append_until_spec n [] picks NoDup_nil_2 ltac:(simpl; lia)) as S1.
pose proof (append_until_take n [] picks Hpicks ltac:(simpl; lia)) as T1. simpl in T1.
destruct (append_until n [] picks) as [seed full1]. simpl in T1.
destruct S1 as (N1 & (e1 & -> & E1) & F1). simpl in *. destruct full1.
{ rewrite T1. rewrite T1 in F1, N1. rewrite take_take, Nat.min_id. split_and!.
  - done.
  - etrans; [|exact Hsubp]. intros x Hx. eapply elem_of_sublist; [exact Hx|apply sublist_take].
  - assert (n ≤ length c); [|lia]. rewrite <-F1. rewrite <-(length_fmap WorkflowItem.workflow_id c).
    apply submseteq_length, NoDup_submseteq; [done|]. intros x Hx. apply Hsubp.
    eapply elem_of_sublist; [exact Hx|apply sublist_take].
  - intros _. by apply Hfair. }
destruct F1 as [L1 P1].
assert (Hsub1 : e1 ⊆ ids c) by set_solver.
assert (Hfin : ∀ r, NoDup r → e1 ⊆ r → r ⊆ ids c →
  (length r = n ∨ length r < n ∧ ids c ⊆ r) →
  NoDup (take n r) ∧ take n r ⊆ ids c ∧ length (take n r) = n `min` length c ∧
  ((2 <= batch_size)%Z → ∀ u, u ∈ take n (dkeys (by_user c)) → ∃ w, w ∈ take n r ∧ w ∈ of_user u c)).
{ intros r0 Hr1 Hr2 Hr3 Hr4. rewrite take_ge by lia.
  assert (length (ids c) = length c) as Hlc by apply length_fmap.
  assert (length r0 ≤ length (ids c)) by by apply submseteq_length, NoDup_submseteq.
  split_and!; [done|done| |intros _; apply Hfair; set_solver].
  destruct Hr4 as [Hr4|[Hr4 Hr5]]; [lia|].
  assert (length (ids c) ≤ length r0) by by apply submseteq_length, NoDup_submseteq.
  lia. }
pose proof (append_until_spec n e1 pool N1 L1) as S2.
destruct (append_until n e1 pool) as [final full2].
destruct S2 as (N2 & (e2 & -> & E2) & F2).
destruct full2; [apply Hfin; [done|set_solver|set_solver|by left]|].
destruct F2 as [L2 P2].
pose proof (append_until_spec n (e1 ++ e2) (ids c) N2 L2) as S3.
destruct (append_until n (e1 ++ e2) (ids c)) as [final3 full3].
destruct S3 as (N3 & (e3 & -> & E3) & F3). simpl.
apply Hfin; [done|set_solver|set_solver|]. destruct full3; [by left|by right].
Qed.
End default_facts.

(** ** The sorting policies take the best items *)

Lemma z_eq_incomparable (x y : Z) : True → True → Z.eqb x y = negb (Z.ltb x y || Z.ltb y x).
Proof. intros _ _. destruct (Z.eqb_spec x y), (Z.ltb_spec x y), (Z.ltb_spec y x); simpl; lia || done. Qed.

#[export] Instance time_key_strict : StrictWeakOn (λ x, not_nan x.1 ∧ True) time_key_lt.
Proof.
  apply (lex_strict_weak not_nan (λ _, True)); [apply feqb_incomparable|apply _|apply str_strict_weak].
Qed.

#[export] Instance attained_key_strict :
  StrictWeakOn (λ x, not_nan x.1 ∧ not_nan x.2.1 ∧ True) attained_key_lt.
Proof.
  apply (lex_strict_weak not_nan (λ x, not_nan x.1 ∧ True));
    [apply feqb_incomparable|apply _|apply time_key_strict].
Qed.

#[export] Instance area_key_strict :
  StrictWeakOn (λ x, True ∧ not_nan x.2.1 ∧ not_nan x.2.2.1 ∧ True) area_key_lt.
Proof.
  apply (lex_strict_weak (λ _ : Z, True) (λ x, not_nan x.1 ∧ not_nan x.2.1 ∧ True));
    [apply z_eq_incomparable|apply z_strict_weak|apply attained_key_strict].
Qed.

(** An item that was taken is not beaten by one that was left. *)
Lemma sorted_take_best {A K} (P : K → Prop) (lt : K → K → bool) `{!StrictWeakOn P lt} (key : A → K) l n x y :
  Forall (λ a, P (key a)) l →
  x ∈ py_take n (sorted_by lt key l) → y ∈ l → y ∉ py_take n (sorted_by lt key l) →
  lt (key y) (key x) = false.
Proof.
  intros HP Hx Hy Hny. pose proof (sorted_by_sorted lt key P l HP) as Hs.
  assert (Hcut : ∃ k, py_take n (sorted_by lt key l) = take k (sorted_by lt key l)).
  { unfold py_take. case_match; eauto. }
  destruct Hcut as [k Hk]. rewrite Hk in Hx, Hny.
  rewrite <-(elem_of_sorted_by lt key), <-(take_drop k (sorted_by lt key l)) in Hy.
  apply elem_of_app in Hy as [Hy|Hy]; [done|].
  rewrite <-(take_drop k (sorted_by lt key l)) in Hs.
  revert Hs Hx. generalize (take k (sorted_by lt key l)). intros pre.
  induction pre as [|z pre IH]; simpl; intros Hs Hx; [set_solver|].
  inversion_clear Hs as [|?? Hs' Hz]. apply elem_of_cons in Hx as [->|Hx]; [|by apply IH].
  rewrite Forall_forall in Hz. apply Hz. set_solver.
Qed.

(** ** The instances *)

Inductive simple_policy :=
  | PDefault
  | PFifo
  | PSpt
  | PLpt
  | PPlas (attained : dict string f64).

Section simple_instance.
Context (estimate_area : WorkflowItem.t → result (option f64)).

#[local] Instance simple_scheduling_policy : SchedulingPolicy simple_policy := {
select_batch p c b :=
  match p with
  | PDefault => Ok (DefaultPolicy.select c b)
  | PFifo => Ok (FifoPolicy.select c b)
  | PSpt => spt_select estimate_area c b
  | PLpt => lpt_select estimate_area c b
  | PPlas attained => Ok (plas_select attained c b)
  end;
on_commit p w :=
  match p with
  | PPlas attained => let '(a, e) := plas_charge estimate_area attained w in (PPlas a, e)
  | _ => (p, None)
  end;
observe_free_lanes p _ := p;
}.

Lemma sort_by_area_perm sign c l : sort_by_area estimate_area sign c = Ok l → l ≡ₚ c.
Proof.
unfold sort_by_area. intros H. inv_ok. rewrite sorted_by_perm.
apply mapR_ok_inv in Ha. induction Ha as [|i kv c l Hi _ IH]; [done|].
csimpl. rewrite IH. inv_ok. done.
Qed.

Lemma simple_policy_laws : PolicyLaws simple_policy.
Proof.
split. intros s c b l Hnd Hne Hb H. destruct s; simpl in H.
- injection H as <-. pose proof (default_select_spec c b Hnd Hne Hb) as (H1 & H2 & H3 & _).
  split; [done|done|lia|]. intros E. rewrite E in H3. simpl in H3.
  destruct c; [done|]. simpl in H3. lia.
- injection H as <-. apply take_ids_is_batch; [apply sorted_by_perm|done..].
- unfold spt_select in H. inv_ok. apply take_ids_is_batch; [by eapply sort_by_area_perm|done..].
- unfold lpt_select in H. inv_ok. apply take_ids_is_batch; [by eapply sort_by_area_perm|done..].
- injection H as <-. apply take_ids_is_batch; [apply sorted_by_perm|done..].
Qed.
End simple_instance.

(** The default policy fills the batch and serves as many users as fit: a
    batch of at least two slots holds an item of each of the first
    [batch_size] users of the round-robin candidate order. *)
Theorem default_policy_serves_users c batch_size :
  NoDup (ids c) → c ≠ [] → (2 <= batch_size)%Z →
  let r := DefaultPolicy.select c batch_size in
  length r = Z.to_nat batch_size `min` length c ∧
  ∀ u, u ∈ take (Z.to_nat batch_size) (dkeys (DefaultPolicy.by_user c)) →
    ∃ i, i ∈ c ∧ WorkflowItem.user_id i = u ∧ WorkflowItem.workflow_id i ∈ r.
Proof.
  intros Hnd Hne Hb r.
  pose proof (default_select_spec c batch_size Hnd Hne ltac:(lia)) as (_ & _ & H3 & H4).
  split; [done|]. intros u Hu. destruct (H4 Hb u Hu) as (w & Hw & Hwu).
  apply elem_of_of_user in Hwu as (i & Hi & Hui & <-). eauto.
Qed.

(** A small item for the examples. *)
Definition sample_config (user : string) (chain : option string) : LumilakeRequestConfig.t :=
  LumilakeRequestConfig.mk MEDIUM user "org" "principal" None None chain 0.
Definition sample_item (wid user model : string) (at_ : Z) : WorkflowItem.t :=
  WorkflowItem.mk wid ("req-" +:+ user) "g" "g" 0 0 1 1 "t" [] (sample_graph "n" model)
    (RuntimeGraph.mk [] [] [] [] []) (CompiledGraph.mk (Graph.mk [] [] []) [])
    (sample_config user None) (of_Z at_) None None 0 false.
Definition sample_pool : list WorkflowItem.t :=
  [sample_item "w1" "ann" "m-7b" 1; sample_item "w2" "bob" "m-1b" 2; sample_item "w3" "ann" "m-7b" 3].

Lemma default_policy_serves_users_witness :
  DefaultPolicy.select sample_pool 2 = ["w1"; "w2"] ∧
  ∃ i, i ∈ sample_pool ∧ WorkflowItem.user_id i = "bob" ∧
    WorkflowItem.workflow_id i ∈ DefaultPolicy.select sample_pool 2.
Proof.
  split; [vm_compute; reflexivity|].
  assert (Hnd : NoDup (ids sample_pool)) by (apply (bool_decide_unpack _); vm_compute; exact I).
  assert (Hne : sample_pool ≠ []) by discriminate.
  destruct (default_policy_serves_users sample_pool 2 Hnd Hne ltac:(lia)) as [_ H].
  apply H. apply (bool_decide_unpack _). vm_compute. exact I.
Defined.

(** ** What the orders mean *)

Lemma fltb_feqb x y : fltb x y = true → feqb x y = false.
Proof.
  intros H. destruct (fltb_not_nan x y H) as [Hx Hy].
  rewrite feqb_incomparable, H by done. done.
Qed.

Lemma lex_first_false {B} (ltB : B → B → bool) x y :
  lex_lt feqb fltb ltB x y = false → fltb x.1 y.1 = false.
Proof.
  unfold lex_lt. destruct (fltb x.1 y.1) eqn:E; [|done]. by rewrite (fltb_feqb _ _ E).
Qed.

Lemma fopp_lt x y : fltb (fopp x) (fopp y) = fltb y x.
Proof.
  unfold fltb, fopp, SpecFloat.SFltb, SpecFloat.SFcompare.
  destruct x as [[]|[]| |[] mx ex], y as [[]|[]| |[] my ey]; simpl; try done;
    rewrite (Z.compare_antisym ey ex); destruct (ey ?= ex)%Z; simpl; try done;
    change (Pos.compare_cont Eq) with Pos.compare; rewrite (Pos.compare_antisym mx my);
    by destruct (mx ?= my)%positive.
Qed.

Section area_order.
Context (estimate_area : WorkflowItem.t → result (option f64)).
Context (Hpos : ∀ i a, estimate_area i = Ok (Some a) → not_nan a).
Context (sign : f64 → f64) (Hsign : ∀ a, not_nan a → not_nan (sign a)).

Lemma sort_by_area_best c b l x y ex ey :
Forall (λ i, not_nan (WorkflowItem.enqueued_at i)) c → NoDup (ids c) →
sort_by_area estimate_area sign c = Ok l →
x ∈ c → y ∈ c → WorkflowItem.workflow_id x ∈ ids (py_take b l) →
WorkflowItem.workflow_id y ∉ ids (py_take b l) →
estimate_area x = Ok ex → estimate_area y = Ok ey →
match ex, ey with
| Some ax, Some ay => fltb (sign ay) (sign ax) = false
| None, Some _ => False
| _, None => True
end.
Proof using Hpos Hsign.
intros Hnan Hnd H Hx Hy Hin Hnin Eex Eey. unfold sort_by_area in H. inv_ok.
rename a into keyed.
set (key := λ i area, (match area with
                       | None => (1%Z, (fzero, time_key i))
                       | Some a => (0%Z, (sign a, time_key i))
                       end : area_key)).
assert (Hkeyed : ∀ k i, (k, i) ∈ keyed ↔ i ∈ c ∧ ∃ area, estimate_area i = Ok area ∧ k = key i area).
{ apply mapR_ok_inv in Ha. intros k i. clear -Ha.
  induction Ha as [|j kv c keyed Hj Ha IH]; [set_solver|].
  inv_ok. rewrite elem_of_cons, IH. split.
  - intros [[= -> ->]|(? & ?)]; [|set_solver]. split; [set_solver|]. by exists a.
  - intros [[->|Hin]%elem_of_cons (area & E & ->)]; [|by right; eauto].
    left. assert (area = a) as -> by congruence. by destruct a. }
assert (Htake : ∀ n (m : list (area_key * WorkflowItem.t)), py_take n m.*2 = (py_take n m).*2).
{ intros n m. unfold py_take. rewrite length_fmap. case_match; by rewrite fmap_take. }
rewrite Htake in Hin, Hnin.
assert (Px : (key x ex, x) ∈ keyed) by (apply Hkeyed; eauto).
assert (Py : (key y ey, y) ∈ keyed) by (apply Hkeyed; eauto).
assert (HP : Forall (λ ki : area_key * WorkflowItem.t,
  True ∧ not_nan ki.1.2.1 ∧ not_nan ki.1.2.2.1 ∧ True) keyed).
{ apply Forall_forall. intros [k i] Hki. apply Hkeyed in Hki as (Hi & area & E & ->).
  rewrite Forall_forall in Hnan. unfold key. destruct area as [a|]; simpl; split_and!; try done.
  - by apply Hsign, (Hpos i).
  - by apply Hnan.
  - by apply Hnan. }
assert (Hsel : (key x ex, x) ∈ py_take b (sorted_by area_key_lt fst keyed)).
{ unfold ids in Hin. rewrite <-list_fmap_compose in Hin.
  apply list_elem_of_fmap in Hin as ([k i] & Hw & Hki).
  assert ((k, i) ∈ keyed) as Hk.
  { rewrite <-(elem_of_sorted_by area_key_lt fst). eapply elem_of_sublist; [exact Hki|apply py_take_sublist]. }
  apply Hkeyed in Hk as (Hi & area & E & ->). simpl in Hw.
  assert (i = x) as ->.
  { apply list_elem_of_lookup in Hi as [p Hp]. apply list_elem_of_lookup in Hx as [q Hq].
    assert (p = q) as <-; [|congruence].
    eapply (NoDup_lookup (ids c)); [done|unfold ids; rewrite list_lookup_fmap, Hp; done|].
    unfold ids. rewrite list_lookup_fmap, Hq. simpl. congruence. }
  assert (area = ex) as -> by congruence. done. }
assert (Hnsel : (key y ey, y) ∉ py_take b (sorted_by area_key_lt fst keyed)).
{ intros Hk. apply Hnin. unfold ids. rewrite <-list_fmap_compose.
  apply list_elem_of_fmap. by exists (key y ey, y). }
pose proof (sorted_take_best _ area_key_lt fst keyed b _ _ HP Hsel Py Hnsel) as Hb.
simpl in Hb. unfold area_key_lt, lex_lt at 1 in Hb. unfold key in Hb.
destruct ex as [ax|], ey as [ay|]; simpl in Hb; try done.
by apply lex_first_false in Hb.
Qed.
End area_order.

(** Spt (lpt) dispatches the shortest (longest) work first: an estimated
    item left in the queue is not shorter (longer) than a selected one, and an
    item without estimate is selected only when no estimated item is left. *)
Theorem area_policies_order estimate_area c b x y ex ey :
  (∀ i a, estimate_area i = Ok (Some a) → not_nan a) →
  Forall (λ i, not_nan (WorkflowItem.enqueued_at i)) c → NoDup (ids c) → x ∈ c → y ∈ c →
  estimate_area x = Ok ex → estimate_area y = Ok ey →
  (∀ r, spt_select estimate_area c b = Ok r →
     WorkflowItem.workflow_id x ∈ r → WorkflowItem.workflow_id y ∉ r →
     match ex, ey with
     | Some ax, Some ay => fltb ay ax = false | None, Some _ => False | _, None => True
     end) ∧
  (∀ r, lpt_select estimate_area c b = Ok r →
     WorkflowItem.workflow_id x ∈ r → WorkflowItem.workflow_id y ∉ r →
     match ex, ey with
     | Some ax, Some ay => fltb ax ay = false | None, Some _ => False | _, None => True
     end).
Proof.
  intros Hpos Hnan Hnd Hx Hy Eex Eey. split; intros r H Hin Hnin.
  - unfold spt_select in H. inv_ok.
    pose proof (sort_by_area_best estimate_area Hpos id (λ a H, H) c b _ x y ex ey
      Hnan Hnd Ha Hx Hy Hin Hnin Eex Eey). by destruct ex, ey.
  - unfold lpt_select in H. inv_ok.
    assert (Hs : ∀ a, not_nan a → not_nan (fopp a)) by (intros [| | |]; done).
    pose proof (sort_by_area_best estimate_area Hpos fopp Hs c b _ x y ex ey
      Hnan Hnd Ha Hx Hy Hin Hnin Eex Eey) as Hb. destruct ex, ey; try done.
    by rewrite fopp_lt in Hb.
Qed.

Definition sample_estimate (i : WorkflowItem.t) : result (option f64) :=
  Ok (if String.eqb (WorkflowItem.workflow_id i) "w1" then Some (of_Z 5)
      else if String.eqb (WorkflowItem.workflow_id i) "w2" then Some (of_Z 2) else None).

Lemma area_policies_order_witness :
  spt_select sample_estimate sample_pool 1 = Ok ["w2"] ∧
  fltb (of_Z 5) (of_Z 2) = false.
Proof.
  split; [vm_compute; reflexivity|].
  assert (Hpos : ∀ i a, sample_estimate i = Ok (Some a) → not_nan a).
  { intros i a H. unfold sample_estimate in H. repeat case_match; simplify_eq; reflexivity. }
  assert (Hnan : Forall (λ i, not_nan (WorkflowItem.enqueued_at i)) sample_pool)
    by (repeat constructor).
  assert (Hnd : NoDup (ids sample_pool)) by (apply (bool_decide_unpack _); vm_compute; exact I).
  refine (proj1 (area_policies_order sample_estimate sample_pool 1
    (sample_item "w2" "bob" "m-1b" 2) (sample_item "w1" "ann" "m-7b" 1) (Some (of_Z 2)) (Some (of_Z 5))
    Hpos Hnan Hnd _ _ eq_refl eq_refl) ["w2"] _ _ _).
  - right; left.
  - left.
  - vm_compute; reflexivity.
  - left.
  - apply (bool_decide_unpack _). vm_compute. exact I.
Defined.

(** ** plas charges each chain its own work *)

(** The estimates of the items of one chain, in commit order. *)
Definition chain_charges (estimate_area : WorkflowItem.t → result (option f64)) (chain : string)
    (l : list WorkflowItem.t) : list f64 :=
  omap (λ i, if decide (chain_of i = chain) then
               match estimate_area i with Ok (Some a) => Some a | _ => None end else None) l.

Lemma chain_charges_cons estimate_area chain i l :
  chain_charges estimate_area chain (i :: l) =
    (if decide (chain_of i = chain)
     then match estimate_area i with Ok (Some a) => [a] | _ => [] end else []) ++
    chain_charges estimate_area chain l.
Proof.
  unfold chain_charges. csimpl. case_decide; [|done].
  by destruct (estimate_area i) as [[a|]|].
Qed.

(** A committed batch charges every chain exactly the estimates of its own
    items, added in order, and touches no other chain; when an estimate
    raises, the items before it are charged and the rest are not. *)
Theorem plas_charge_ledger estimate_area attained w :
  let '(attained', e) := plas_charge estimate_area attained w in
  ∃ charged rest, w = charged ++ rest ∧
    (∀ chain, dget_or fzero chain attained' =
       foldl fadd (dget_or fzero chain attained) (chain_charges estimate_area chain charged)) ∧
    Forall (λ i, ∃ a, estimate_area i = Ok a) charged ∧
    match e with
    | None => rest = []
    | Some err => ∃ i rest', rest = i :: rest' ∧ estimate_area i = Err err
    end.
Proof.
  revert attained. induction w as [|i w IH]; intros attained; simpl.
  { exists [], []. split_and!; done. }
  destruct (estimate_area i) as [[area|]|err] eqn:E.
  - set (a1 := dset _ _ attained). specialize (IH a1).
    destruct (plas_charge estimate_area a1 w) as [attained' e].
    destruct IH as (charged & rest & -> & H1 & H2 & H3).
    exists (i :: charged), rest. split_and!; [done| |constructor; eauto|done].
    intros chain. rewrite H1, chain_charges_cons, E. unfold a1. rewrite dget_or_dset.
    destruct (decide (chain_of i = chain)) as [<-|Hne]; [by rewrite decide_True|].
    by rewrite decide_False.
  - specialize (IH attained). destruct (plas_charge estimate_area attained w) as [attained' e].
    destruct IH as (charged & rest & -> & H1 & H2 & H3).
    exists (i :: charged), rest. split_and!; [done| |constructor; eauto|done].
    intros chain. rewrite H1, chain_charges_cons, E. by case_decide.
  - exists [], (i :: w). split_and!; [done|done|done|]. by exists i, w.
Qed.
