(* ===== verification/PriorityQueue.v ===== *)
(** * The job manager (runtime/job_manager/priority_queue.py)

    [PriorityJobManager] keeps per-priority, per-user queues, a round-robin
    order over users and one over partitions, and hands out one batch at a
    time in two phases: [reserve_batch] computes a batch, [commit_reservation]
    applies it, [abort_reservation] drops it.  Every method holds the
    manager's lock for its whole body and awaits nothing inside, so each is
    one atomic step on the state below.

    A method that may raise returns the state it leaves behind together with
    its outcome.  Items are shared objects: [_queues] and [_items] refer to
    the same [WorkflowItem], so the miss-count increment of a commit updates
    both.  A reservation is identified by its [handle], the identity the
    source compares with [is].  Sets are lists; time and fresh ids are
    arguments. *)

From S2P Require Import Prelude PyFloat PyDict PyValue PyString Protocol RuntimeGraph JobBase Capacity Clustering.

(** ** Partitions *)

Definition HardwareSignature : Type :=
  option Z * option string * option Z * option string * option string.

Definition hardware_signature (hw : option HardwareRequirements.t) : HardwareSignature :=
  match hw with
  | None => (None, None, None, None, None)
  | Some h => (HardwareRequirements.cpu h, HardwareRequirements.memory h, HardwareRequirements.gpu h,
               HardwareRequirements.gpu_memory h, HardwareRequirements.gpu_model h)
  end.

Definition hardware_from_signature (s : HardwareSignature) : option HardwareRequirements.t :=
  match s with
  | (None, None, None, None, None) => None
  | (cpu, memory, gpu, gpu_memory, gpu_model) =>
      Some (HardwareRequirements.mk cpu memory gpu gpu_memory gpu_model)
  end.

(** [pk_rest] is the optional sixth component, [requires_gpu]. *)
Record PartitionKey := PK {
  pk_principal : string;
  pk_token : option string;
  pk_credential : option string;
  pk_optimizer : string;
  pk_hardware : HardwareSignature;
  pk_rest : option bool;
}.

#[export] Instance partition_eq_dec : EqDecision PartitionKey.
Proof. solve_decision. Defined.

(** The key partitions are reseeded by: strings, the hardware tuple rendered
    with [str], then the GPU flag. *)
Definition str_of_Z (z : Z) : string :=
  if (z <? 0)%Z then "-" +:+ of_chars (decimal_chars (S (Z.to_nat (Z.log2 (- z)))) (- z))
  else of_chars (decimal_chars (S (Z.to_nat (Z.log2 z))) z).

Definition opt_str (x : option string) : string := str_or x "".

Definition hardware_texts (s : HardwareSignature) : list string :=
  let '(cpu, memory, gpu, gpu_memory, gpu_model) := s in
  let num x := match x with Some z => str_of_Z z | None => "" end in
  let txt x := match x with Some t => t | None => "" end in
  [num cpu; txt memory; num gpu; txt gpu_memory; txt gpu_model].

Definition partition_sort_key (p : PartitionKey) : list string * (list string * bool) :=
  ([pk_principal p; opt_str (pk_token p); opt_str (pk_credential p); pk_optimizer p],
   (hardware_texts (pk_hardware p), match pk_rest p with Some b => b | None => false end)).

Definition partition_key_lt :=
  lex_lt (λ a b, bool_decide (a = b)) (list_lt String.eqb str_ltb)
    (lex_lt (λ a b, bool_decide (a = b)) (list_lt String.eqb str_ltb)
       (λ a b, (negb a && b)%bool)).

(** ** Configuration and state *)

Module ManagerConfig.
Record t := mk {
quantums : perprio Z;
starvation_limit : Z;
default_optimizer_type : string;
cpu_worker_group_size : Z;
gpu_worker_group_size : Z;
unsatisfiable_dwell_observations : Z;
unsatisfiable_dwell_seconds : f64;
capacity_aware_selection : bool;
}.

(** The clamping of [__init__]. *)
Definition init (quantums : perprio Z) (starvation_limit : Z) (default_optimizer_type : string)
  (cpu gpu : Z) (dwell_observations : Z) (dwell_seconds : f64) (capacity_aware : bool) : t :=
mk quantums starvation_limit default_optimizer_type (Z.max 0 cpu) (Z.max 0 gpu)
   (Z.max 1 dwell_observations) (fmax2 fzero dwell_seconds) capacity_aware.
End ManagerConfig.

Module ReservationPayload.
Record t := mk {
selected_workflow_ids : list string;
miss_increment_targets : list string;
rr_partition_to_advance : option PartitionKey;
user_rr_priorities_to_advance : list Priority;
}.
End ReservationPayload.

Module BatchReservation.
Record t := mk {
handle : nat;
selection : BatchSelection.t;
payload : ReservationPayload.t;
}.
End BatchReservation.

Abbreviation user_queues := (dict string (list WorkflowItem.t)).

Record manager (S : Type) := Manager {
  queues : perprio user_queues;
  rr_user_order : perprio (list string);
  rr_partition_order : list PartitionKey;
  rr_partition_members : list PartitionKey;
  items : dict string WorkflowItem.t;
  not_empty : bool;
  active_reservation : option BatchReservation.t;
  next_handle : nat;
  unsatisfiable_since : dict PartitionKey f64;
  unsatisfiable_count : dict PartitionKey Z;
  policy_impl : S;
}.
Arguments Manager {S} _ _ _ _ _ _ _ _ _ _ _.
Arguments queues {S} _.
Arguments rr_user_order {S} _.
Arguments rr_partition_order {S} _.
Arguments rr_partition_members {S} _.
Arguments items {S} _.
Arguments not_empty {S} _.
Arguments active_reservation {S} _.
Arguments next_handle {S} _.
Arguments unsatisfiable_since {S} _.
Arguments unsatisfiable_count {S} _.
Arguments policy_impl {S} _.

(** Field updates. *)
Section updates.
Context {S : Type}.
Implicit Types (m : manager S).
Definition set_queues (q : perprio user_queues) (rr : perprio (list string)) m : manager S :=
Manager q rr (rr_partition_order m) (rr_partition_members m) (items m) (not_empty m)
  (active_reservation m) (next_handle m) (unsatisfiable_since m) (unsatisfiable_count m) (policy_impl m).
Definition set_partitions (order members : list PartitionKey) m : manager S :=
Manager (queues m) (rr_user_order m) order members (items m) (not_empty m)
  (active_reservation m) (next_handle m) (unsatisfiable_since m) (unsatisfiable_count m) (policy_impl m).
Definition set_items (i : dict string WorkflowItem.t) m : manager S :=
Manager (queues m) (rr_user_order m) (rr_partition_order m) (rr_partition_members m) i (not_empty m)
  (active_reservation m) (next_handle m) (unsatisfiable_since m) (unsatisfiable_count m) (policy_impl m).
Definition set_not_empty (b : bool) m : manager S :=
Manager (queues m) (rr_user_order m) (rr_partition_order m) (rr_partition_members m) (items m) b
  (active_reservation m) (next_handle m) (unsatisfiable_since m) (unsatisfiable_count m) (policy_impl m).
Definition set_active (a : option BatchReservation.t) (h : nat) m : manager S :=
Manager (queues m) (rr_user_order m) (rr_partition_order m) (rr_partition_members m) (items m) (not_empty m)
  a h (unsatisfiable_since m) (unsatisfiable_count m) (policy_impl m).
Definition set_dwell (since : dict PartitionKey f64) (count : dict PartitionKey Z) m : manager S :=
Manager (queues m) (rr_user_order m) (rr_partition_order m) (rr_partition_members m) (items m) (not_empty m)
  (active_reservation m) (next_handle m) since count (policy_impl m).
Definition set_policy (p : S) m : manager S :=
Manager (queues m) (rr_user_order m) (rr_partition_order m) (rr_partition_members m) (items m) (not_empty m)
  (active_reservation m) (next_handle m) (unsatisfiable_since m) (unsatisfiable_count m) p.
End updates.

Section manager.
Context {S : Type} `{SchedulingPolicy S}.
Context (cfg : ManagerConfig.t).
Context (meets : dict string val → option HardwareRequirements.t → bool).
Implicit Types (m : manager S) (p : PartitionKey).

Definition init_manager (policy : S) : manager S :=
Manager (pconst []) (pconst []) [] [] [] false None 0 [] [] policy.

(** ** Partitions of items *)

Definition optimizer_of (item : WorkflowItem.t) : string :=
str_or (LumilakeRequestConfig.optimizer_type (WorkflowItem.config item))
       (ManagerConfig.default_optimizer_type cfg).

Definition item_hardware (item : WorkflowItem.t) : HardwareSignature :=
hardware_signature (LumilakeRequestConfig.hardware_requirements (WorkflowItem.config item)).

Definition partition_of (item : WorkflowItem.t) : PartitionKey :=
PK (WorkflowItem.principal_id item) (WorkflowItem.dispatch_token item)
   (WorkflowItem.api_credential_digest item) (optimizer_of item) (item_hardware item)
   (if ManagerConfig.capacity_aware_selection cfg then Some (WorkflowItem.requires_gpu item) else None).

Definition partition_group_sizes p : Z * Z :=
(ManagerConfig.cpu_worker_group_size cfg,
 match pk_rest p with
 | Some true => ManagerConfig.gpu_worker_group_size cfg
 | _ => 0%Z
 end).

Definition item_task_types (l : list WorkflowItem.t) : list string :=
l ≫= λ item, RuntimeOp.task_type <$> dvals (RuntimeGraph.nodes (WorkflowItem.runtime_graph item)).

Definition partition_dispatch_count p (capacity : FreeCapacity.t) (candidates : list WorkflowItem.t) : Z :=
let '(cpu_group_size, gpu_group_size) := partition_group_sizes p in
let task_types := item_task_types candidates in
let cpu_group_size :=
  if ((cpu_group_size <=? 0)%Z && requires_cpu_worker task_types)%bool then 1%Z else cpu_group_size in
FreeCapacity.dispatch_count meets (hardware_from_signature (pk_hardware p)) capacity
  cpu_group_size gpu_group_size (required_task_types task_types).

Definition partition_eligible (capacity : FreeCapacity.t) p : bool :=
let '(cpu_group_size, gpu_group_size) := partition_group_sizes p in
if negb (FreeCapacity.can_satisfy capacity cpu_group_size gpu_group_size) then false
else
  match FreeCapacity.profiles capacity with
  | [] => true
  | _ => FreeCapacity.can_satisfy_hardware meets (hardware_from_signature (pk_hardware p))
           capacity cpu_group_size gpu_group_size
  end.

(** ** Queue bookkeeping *)

Definition queued_items (q : user_queues) : list WorkflowItem.t := concat (dvals q).

(** The items in the order of the nested loops over priorities and users. *)
Definition all_items m : list WorkflowItem.t :=
priorities ≫= λ priority, queued_items (pget (queues m) priority).

Definition priority_queue_size m (priority : Priority) : nat :=
length (queued_items (pget (queues m) priority)).

Definition has_work m : bool :=
existsb (λ priority, 0 <? priority_queue_size m priority) priorities.

Definition get_pending_stats m : nat * option f64 :=
(length (all_items m),
 match WorkflowItem.enqueued_at <$> all_items m with
 | [] => None
 | x :: l => Some (min_by fltb id x l)
 end).

Definition prune_queues (q : user_queues) : user_queues := filter (λ kv, kv.2 ≠ []) q.

Definition prune_users (q : user_queues) (rr : list string) : list string :=
filter (λ u, u ∈ dkeys q) rr.

(** [_prune_empty_user_queues_locked] *)
Definition prune_empty_user_queues (priority : Priority) m : manager S :=
let q := prune_queues (pget (queues m) priority) in
set_queues (pset priority q (queues m))
  (pset priority (prune_users q (pget (rr_user_order m) priority)) (rr_user_order m)) m.

(** The queues of one priority without some workflows; a user whose queue
  drains loses its entry. *)
Definition filter_queues (drop : string → bool) (q : user_queues) : user_queues :=
omap (λ kv : string * list WorkflowItem.t,
  match filter (λ item, drop (WorkflowItem.workflow_id item) = false) kv.2 with
  | [] => None
  | filtered => Some (kv.1, filtered)
  end) q.

Definition drop_from_priority (drop : string → bool) m (priority : Priority) : manager S :=
match pget (queues m) priority with
| [] => m
| q =>
    prune_empty_user_queues priority
      (set_queues (pset priority (filter_queues drop q) (queues m)) (rr_user_order m) m)
end.

Definition drop_workflows (drop : string → bool) m : manager S :=
foldl (drop_from_priority drop) m priorities.

Definition remaining_partitions m : list PartitionKey := partition_of <$> all_items m.

(** Drop the round-robin partitions whose queues drained. *)
Definition drop_stale_partitions m : manager S :=
let stale := filter (λ p, p ∉ remaining_partitions m) (rr_partition_members m) in
set_partitions (filter (λ p, p ∉ stale) (rr_partition_order m))
               (filter (λ p, p ∉ stale) (rr_partition_members m)) m.

Definition clear_if_empty m : manager S := if has_work m then m else set_not_empty false m.

(** ** enqueue *)

Definition make_item (job : Job.t) (now : f64) (workflow_id : string)
  (named : string * RuntimeGraph.t) : result WorkflowItem.t :=
let '(graph_name, runtime_graph) := named in
data_profile_graph ← dindex (KeyError graph_name) graph_name (Job.data_profile_graphs job);
dsl_graph ← dindex (KeyError graph_name) graph_name (Job.dsl_graphs job);
meta ← dindex (KeyError graph_name) graph_name (Job.workflow_slices job);
Ok (WorkflowItem.mk workflow_id (Job.request_id job) graph_name
      (WorkflowSliceMeta.public_graph_name meta) (WorkflowSliceMeta.slice_index meta)
      (WorkflowSliceMeta.slice_start meta) (WorkflowSliceMeta.slice_length meta)
      (WorkflowSliceMeta.total_length meta) (WorkflowSliceMeta.template_hash meta)
      (WorkflowSliceMeta.varying_input_keys meta)
      runtime_graph data_profile_graph dsl_graph (Job.config job) now
      (Job.dispatch_token job) (Job.api_credential_digest job) 0
      (dget_or false graph_name (Job.requires_gpu job))).

Definition enqueue_item m (item : WorkflowItem.t) : manager S :=
let priority := WorkflowItem.priority item in
let owner_id := WorkflowItem.user_id item in
let q := pget (queues m) priority in
let rr := pget (rr_user_order m) priority in
let q' := dset owner_id (dget_or [] owner_id q ++ [item]) q in
let rr' := if dmem owner_id q then rr else rr ++ [owner_id] in
let m := set_queues (pset priority q' (queues m)) (pset priority rr' (rr_user_order m)) m in
let m := set_items (dset (WorkflowItem.workflow_id item) item (items m)) m in
let p := partition_of item in
if decide (p ∈ rr_partition_members m) then m
else set_partitions (rr_partition_order m ++ [p]) (rr_partition_members m ++ [p]) m.

(** [fresh k] is the id drawn for the [k]-th graph of the job. *)
Definition enqueue (job : Job.t) (now : f64) (fresh : nat → string) m :
  manager S * result (list WorkflowItem.t) :=
match mapR (λ kg : nat * (string * RuntimeGraph.t), make_item job now (fresh kg.1) kg.2)
           (imap pair (Job.runtime_graphs job)) with
| Err e => (m, Err e)
| Ok new_items => (set_not_empty true (foldl enqueue_item m new_items), Ok new_items)
end.

(** ** Lookup and removal *)

Definition get_workflow m (workflow_id : string) : result WorkflowItem.t :=
dindex (KeyError workflow_id) workflow_id (items m).

Definition finalize_workflows (workflow_ids : list string) m : manager S :=
set_items (foldl (λ d w, ddel w d) (items m) workflow_ids) m.

Definition remove_workflows (workflow_ids : list string) m : manager S :=
match workflow_ids with
| [] => m
| _ =>
    let m := drop_workflows (λ w, bool_decide (w ∈ workflow_ids)) m in
    let m := finalize_workflows workflow_ids m in
    clear_if_empty (drop_stale_partitions m)
end.

(** ** Permanently unsatisfiable work *)

(** One observation of a partition against the total capacity. *)
Definition observe_partition (total : FreeCapacity.t) (now : f64)
  (st : dict PartitionKey f64 * dict PartitionKey Z) p : dict PartitionKey f64 * dict PartitionKey Z :=
let '(since, count) := st in
if partition_eligible total p then (ddel p since, ddel p count)
else (dsetdefault p now since, dset p (dget_or 0%Z p count + 1)%Z count).

(** Partitions that drained from the queue are forgotten. *)
Definition forget_drained (present : list PartitionKey)
  (since : dict PartitionKey f64) (count : dict PartitionKey Z) :
  dict PartitionKey f64 * dict PartitionKey Z :=
let gone := filter (λ p, p ∉ present) (dkeys since) in
(filter (λ kv, kv.1 ∉ gone) since, filter (λ kv, kv.1 ∉ gone) count).

Definition doomed_partitions (now : f64) (since : dict PartitionKey f64)
  (count : dict PartitionKey Z) : list PartitionKey :=
(filter (λ kv : PartitionKey * f64,
   (fleb (ManagerConfig.unsatisfiable_dwell_seconds cfg) (fsub now kv.2) &&
    (ManagerConfig.unsatisfiable_dwell_observations cfg <=? dget_or 0%Z kv.1 count)%Z)%bool = true)
 since).*1.

Definition permanently_unsatisfiable (total : FreeCapacity.t) (now : f64) m :
  manager S * list WorkflowItem.t :=
let present := remove_dups (remaining_partitions m) in
let '(since, count) := forget_drained present (unsatisfiable_since m) (unsatisfiable_count m) in
let '(since, count) := foldl (observe_partition total now) (since, count) present in
let doomed := doomed_partitions now since count in
(set_dwell since count m, filter (λ item, partition_of item ∈ doomed) (all_items m)).

(** ** Round-robin over partitions *)

(** The pick with the evictions it makes: heads that are not present are
  popped and leave the member set. *)
Fixpoint pick_round_robin (present order members : list PartitionKey) :
  option PartitionKey * list PartitionKey * list PartitionKey :=
match order with
| [] => (None, [], members)
| head :: rest =>
    if decide (head ∈ present) then (Some head, order, members)
    else pick_round_robin present rest (filter (λ p, p ≠ head) members)
end.

Definition reseed (present order members : list PartitionKey) : list PartitionKey * list PartitionKey :=
foldl (λ om p, if decide (p ∈ om.2) then om else (om.1 ++ [p], om.2 ++ [p])) (order, members)
  (sorted_by partition_key_lt partition_sort_key present).

Definition pick_partition (present : list PartitionKey) m : option PartitionKey * manager S :=
let '(picked, order, members) :=
  pick_round_robin present (rr_partition_order m) (rr_partition_members m) in
match picked with
| Some p => (Some p, set_partitions order members m)
| None =>
    let '(order, members) := reseed present order members in
    let '(picked, order, members) := pick_round_robin present order members in
    (match picked with Some p => Some p | None => head present end,
     set_partitions order members m)
end.

Definition rotate {A} (l : list A) : list A := match l with [] => [] | x :: l' => l' ++ [x] end.

Definition advance_partition_round_robin p m : manager S :=
match rr_partition_order m with
| [] => m
| head :: _ =>
    if decide (head = p)
    then set_partitions (rotate (rr_partition_order m)) (rr_partition_members m) m else m
end.

Definition advance_user_round_robin m (priority : Priority) : manager S :=
let rr := pget (rr_user_order m) priority in
if 1 <? length rr then set_queues (queues m) (pset priority (rotate rr) (rr_user_order m)) m else m.

(** ** The candidate pool *)

(** One pass over the users: each gives its next item until [limit]. *)
Fixpoint rr_pass (limit : nat) (acc : list WorkflowItem.t) (qs : list (list WorkflowItem.t)) :
  list WorkflowItem.t * list (list WorkflowItem.t) :=
match qs with
| [] => (acc, [])
| [] :: qs' => let '(acc', rest) := rr_pass limit acc qs' in (acc', [] :: rest)
| (x :: q) :: qs' =>
    let acc' := acc ++ [x] in
    if limit <=? length acc' then (acc', q :: qs')
    else let '(acc'', rest) := rr_pass limit acc' qs' in (acc'', q :: rest)
end.

(** [while len(candidates) < limit], stopping at a pass without progress. *)
Fixpoint rr_rounds (fuel limit : nat) (acc : list WorkflowItem.t) (qs : list (list WorkflowItem.t)) :
  list WorkflowItem.t :=
match fuel with
| O => acc
| Datatypes.S fuel' =>
    if limit <=? length acc then acc
    else
      let '(acc', qs') := rr_pass limit acc qs in
      if length acc' =? length acc then acc' else rr_rounds fuel' limit acc' qs'
end.

(** The field-by-field comparison of the peek; a partition key without
  GPU flag matches both classes. *)
Definition matches_partition p (item : WorkflowItem.t) : bool :=
(bool_decide (WorkflowItem.principal_id item = pk_principal p) &&
 bool_decide (WorkflowItem.dispatch_token item = pk_token p) &&
 bool_decide (WorkflowItem.api_credential_digest item = pk_credential p) &&
 bool_decide (optimizer_of item = pk_optimizer p) &&
 bool_decide (item_hardware item = pk_hardware p) &&
 match pk_rest p with None => true | Some b => Bool.eqb (WorkflowItem.requires_gpu item) b end)%bool.

(** [filtered]: the matching items of every user, in round-robin order. *)
Definition user_matches p (q : user_queues) (rr : list string) : list (string * list WorkflowItem.t) :=
omap (λ u,
  match filter (λ item, matches_partition p item = true) (dget_or [] u q) with
  | [] => None
  | user_items => Some (u, user_items)
  end) rr.

Definition peek_round_robin_for_partition (priority : Priority) (limit : Z) p m :
  manager S * (list WorkflowItem.t * bool) :=
if (limit <=? 0)%Z then (m, ([], false))
else
  let m := prune_empty_user_queues priority m in
  let q := pget (queues m) priority in
  let rr := pget (rr_user_order m) priority in
  match q, rr with
  | [], _ | _, [] => (m, ([], false))
  | _, _ =>
      match (user_matches p q rr).*2 with
      | [] => (m, ([], false))
      | qs =>
          (m, (rr_rounds (Datatypes.S (length (concat qs))) (Z.to_nat limit) [] qs, 1 <? length rr))
      end
  end.

(** The turn of one priority. *)
Definition pool_step p (st : manager S * (list WorkflowItem.t * list Priority)) (priority : Priority) :
  manager S * (list WorkflowItem.t * list Priority) :=
let '(m, (candidates, advancing)) := st in
let quantum := Z.max 0 (pget (ManagerConfig.quantums cfg) priority) in
if (quantum =? 0)%Z then st
else
  let '(m, (picked, advance)) := peek_round_robin_for_partition priority quantum p m in
  (m, (candidates ++ picked, if advance : bool then advancing ++ [priority] else advancing)).

Definition build_candidate_pool_for_partition p m :
  manager S * (list WorkflowItem.t * list Priority) :=
foldl (pool_step p) (m, ([], [])) priorities.

(** ** Starvation *)

Definition is_starved (item : WorkflowItem.t) : bool :=
(ManagerConfig.starvation_limit cfg <=? WorkflowItem.miss_count item)%Z.

Definition starved_first (l : list WorkflowItem.t) : list string :=
ids (sorted_by fltb WorkflowItem.enqueued_at (filter (λ i, is_starved i = true) l)).

(** Append the ids that are new while there is room. *)
Definition fill_slots (batch_size : nat) (selected more : list string) : list string :=
foldl (λ sel w, if decide (w ∉ sel ∧ length sel < batch_size) then sel ++ [w] else sel) selected more.

Definition apply_starvation_policy (candidates : list WorkflowItem.t)
  (base_batch_ids : list string) (batch_size : Z) : list string :=
let n := Z.to_nat batch_size in
match filter (λ i, is_starved i = true) candidates with
| [] => take n base_batch_ids
| _ =>
    let selected_ids := starved_first candidates in
    if n <=? length selected_ids then take n selected_ids
    else
      let selected_ids := fill_slots n selected_ids base_batch_ids in
      if length selected_ids <? n then fill_slots n selected_ids (ids candidates) else selected_ids
end.

Definition affinity_around_starved (candidates : list WorkflowItem.t) (batch_size : Z) : list string :=
select_affinity_batch_ids
  (dict_of (map (λ i, (WorkflowItem.workflow_id i, WorkflowItem.runtime_graph i)) candidates))
  (dict_of (map (λ i, (WorkflowItem.workflow_id i, WorkflowItem.enqueued_at i)) candidates))
  batch_size (starved_first candidates) MODEL_WEIGHT DATA_WEIGHT SIZE_WEIGHT.
End manager.

(** ** The two phases *)

Section reservation.
Context {S : Type} `{SchedulingPolicy S}.
Context (cfg : ManagerConfig.t).
Context (meets : dict string val → option HardwareRequirements.t → bool).
Implicit Types (m : manager S) (p : PartitionKey).

(** What [reserve_batch] scans the queues for: the partitions that may run
  now and the starved items among them, in queue order. *)
Definition eligible_partitions (capacity : option FreeCapacity.t) m : list PartitionKey :=
let present := remove_dups (remaining_partitions cfg m) in
match capacity with
| None => present
| Some c => filter (λ p, partition_eligible cfg meets c p = true) present
end.

Definition starved_global (capacity : option FreeCapacity.t) m : list WorkflowItem.t :=
filter (λ i, is_starved cfg i = true ∧ partition_of cfg i ∈ eligible_partitions capacity m)
       (all_items m).

(** The anchor partition: the one of the first starved item, else the
  round-robin pick, which is then advanced on commit. *)
Definition choose_anchor (capacity : option FreeCapacity.t) (present : list PartitionKey) m :
  option (PartitionKey * option PartitionKey) * manager S :=
match starved_global capacity m with
| head :: _ => (Some (partition_of cfg head, None), m)
| [] =>
    let '(picked, m) := pick_partition present m in
    ((λ p, (p, Some p)) <$> picked, m)
end.

(** The ids of the batch: the starvation path or the policy. *)
Definition select_ids (policy : S) (candidates : list WorkflowItem.t) (batch_size : Z) :
  result (list string) :=
match filter (λ i, is_starved cfg i = true) candidates with
| _ :: _ =>
    Ok (apply_starvation_policy cfg candidates (affinity_around_starved cfg candidates batch_size) batch_size)
| [] => select_batch policy candidates batch_size
end.

Definition item_map (candidates : list WorkflowItem.t) : dict string WorkflowItem.t :=
dict_of (map (λ i, (WorkflowItem.workflow_id i, i)) candidates).

Definition build_reservation (handle : nat) (candidates : list WorkflowItem.t)
  (selected_ids : list string) (rr_partition : option PartitionKey) (rr_priorities : list Priority) :
  result BatchReservation.t :=
selected_items ← mapR (λ w, dindex (KeyError w) w (item_map candidates)) selected_ids;
match selected_items with
| [] => Err (IndexError "list index out of range")
| first :: _ =>
    Ok (BatchReservation.mk handle
      (BatchSelection.mk selected_items
         (dict_of (map (λ i, (WorkflowItem.workflow_id i, WorkflowItem.runtime_graph i)) selected_items))
         (dict_of (map (λ i, (WorkflowItem.workflow_id i, WorkflowItem.data_profile_graph i)) selected_items))
         (WorkflowItem.config first))
      (ReservationPayload.mk selected_ids
         (ids (filter (λ i, WorkflowItem.workflow_id i ∉ selected_ids) candidates))
         rr_partition rr_priorities))
end.

(** From the anchor on: the pool, the policy, the reservation. *)
Definition reserve_from_anchor (batch_size : Z) (capacity : option FreeCapacity.t)
  (anchor : PartitionKey) (rr_partition : option PartitionKey) m :
  manager S * result (option BatchReservation.t) :=
let '(m, (candidates, advancing)) := build_candidate_pool_for_partition cfg anchor m in
match candidates with
| [] => (set_not_empty false m, Ok None)
| _ =>
    let lanes := (λ c, partition_dispatch_count cfg meets anchor c candidates) <$> capacity in
    let m := set_policy (observe_free_lanes (policy_impl m) lanes) m in
    match (selected_ids ← select_ids (policy_impl m) candidates batch_size;
           build_reservation (next_handle m) candidates selected_ids rr_partition advancing) with
    | Err e => (m, Err e)
    | Ok r => (set_active (Some r) (Datatypes.S (next_handle m)) m, Ok (Some r))
    end
end.

Definition reserve_batch (batch_size : Z) (capacity : option FreeCapacity.t) m :
  manager S * result (option BatchReservation.t) :=
let batch_size := if (batch_size <=? 0)%Z then 1%Z else batch_size in
match active_reservation m with
| Some _ =>
    (m, Err (RuntimeError "PriorityJobManager already has an outstanding reservation; commit or abort it before reserving another batch."))
| None =>
    let present := eligible_partitions capacity m in
    match present with
    | [] => (set_not_empty false m, Ok None)
    | _ =>
        let '(chosen, m) := choose_anchor capacity present m in
        match chosen with
        | None => (m, Err (RuntimeError "StopIteration"))
        | Some (anchor, rr_partition) => reserve_from_anchor batch_size capacity anchor rr_partition m
        end
    end
end.

Definition bump_if (workflow_id : string) (i : WorkflowItem.t) : WorkflowItem.t :=
if String.eqb (WorkflowItem.workflow_id i) workflow_id then WorkflowItem.bump i else i.

Definition bump_queues (workflow_id : string) (q : user_queues) : user_queues :=
map (λ kv, (kv.1, map (bump_if workflow_id) kv.2)) q.

(** [item.miss_count += 1] on the object [_items] holds, which the queues
  share. *)
Definition bump_miss m (workflow_id : string) : manager S :=
match dget workflow_id (items m) with
| None => m
| Some item =>
    set_items (dset workflow_id (WorkflowItem.bump item) (items m))
      (set_queues (pmap (bump_queues workflow_id) (queues m)) (rr_user_order m) m)
end.

Definition is_active m (r : BatchReservation.t) : bool :=
match active_reservation m with
| Some a => BatchReservation.handle a =? BatchReservation.handle r
| None => false
end.

Definition commit_reservation (r : BatchReservation.t) m : manager S * option exn :=
if negb (is_active m r)
then (m, Some (RuntimeError "commit_reservation: reservation is not the active one"))
else
  let payload := BatchReservation.payload r in
  let '(policy, raised) :=
    on_commit (policy_impl m) (BatchSelection.workflows (BatchReservation.selection r)) in
  let m := set_policy policy m in
  match raised with
  | Some e => (m, Some e)
  | None =>
      let m := foldl bump_miss m (ReservationPayload.miss_increment_targets payload) in
      let m := drop_workflows
        (λ w, bool_decide (w ∈ ReservationPayload.selected_workflow_ids payload)) m in
      let m := drop_stale_partitions cfg m in
      let m := match ReservationPayload.rr_partition_to_advance payload with
               | Some p => advance_partition_round_robin p m
               | None => m
               end in
      let m := foldl advance_user_round_robin m
                 (ReservationPayload.user_rr_priorities_to_advance payload) in
      (set_active None (next_handle m) (clear_if_empty m), None)
  end.

Definition abort_reservation (r : BatchReservation.t) (reason : AbortReason) m : manager S * option exn :=
if negb (is_active m r)
then (m, Some (RuntimeError "abort_reservation: reservation is not the active one"))
else (set_active None (next_handle m) m, None).

(** [BaseJobManager.select_batch] *)
Definition select_batch_now (batch_size : Z) m : manager S * result (option BatchSelection.t) :=
match reserve_batch batch_size None m with
| (m, Err e) => (m, Err e)
| (m, Ok None) => (m, Ok None)
| (m, Ok (Some r)) =>
    match commit_reservation r m with
    | (m, Some e) => (m, Err e)
    | (m, None) => (m, Ok (Some (BatchReservation.selection r)))
    end
end.
End reservation.

(** ** Rendering a partition for the logs

    The bearer token is rendered by a digest ([sha256], the hex digest of the
    UTF-8 bytes, is a parameter) and the credential digest by its first eight
    characters. *)
Section redact.
Context (sha256_hex : string → string).

Definition redact_partition (p : PartitionKey) :
  string * string * string * string * HardwareSignature * option bool :=
(pk_principal p,
 match pk_token p with
 | None => "no-token"
 | Some token => "tok:" +:+ String.substring 0 8 (sha256_hex token)
 end,
 match pk_credential p with
 | None => "no-credential"
 | Some digest => "cred:" +:+ String.substring 0 8 digest
 end,
 pk_optimizer p, pk_hardware p, pk_rest p).
End redact.
