(* ===== verification/PriorityQueueFacts.v ===== *)
(** * Correctness of the job manager

    The well-formedness invariant of [PriorityJobManager] and that every
    operation preserves it; what a reservation contains, what a commit removes
    and ages, that an abort changes no queue; fairness over users and
    partitions; starvation and the dwell of unsatisfiable work.  The policy
    is any instance of the interface that satisfies [PolicyLaws]. *)

From S2P Require Import Prelude PyFloat PyDict PyValue PyString Protocol RuntimeGraph DslGraph JobBase Capacity Clustering Policies PriorityQueue.

(** ** One priority's queues *)

(** Users are indexed once, no queue is empty, the round-robin order lists
    exactly the users with queued work, and every item sits in the queue of
    its own priority and user. *)
Record pq_inv (priority : Priority) (q : user_queues) (rr : list string) : Prop := {
  pq_wf : dict_wf q;
  pq_nonempty u l : (u, l) ∈ q → l ≠ [];
  pq_rr_nodup : NoDup rr;
  pq_rr u : u ∈ rr ↔ u ∈ dkeys q;
  pq_home u l i : (u, l) ∈ q → i ∈ l → WorkflowItem.priority i = priority ∧ WorkflowItem.user_id i = u;
}.

Lemma pq_inv_nil priority : pq_inv priority [] [].
Proof. split; [constructor|set_solver|constructor|done|set_solver]. Qed.

Lemma elem_of_queued i (q : user_queues) : i ∈ queued_items q ↔ ∃ u l, (u, l) ∈ q ∧ i ∈ l.
Proof.
  unfold queued_items, dvals. induction q as [|[u l] q IH]; csimpl; [set_solver|].
  rewrite elem_of_app, IH. split.
  - intros [Hi|(u' & l' & Hin & Hi)]; [exists u, l|exists u', l']; set_solver.
  - intros (u' & l' & Hin & Hi). apply elem_of_cons in Hin as [[= -> ->]|Hin]; [by left|].
    right. eauto.
Qed.

Lemma prune_queues_id (q : user_queues) : (∀ u l, (u, l) ∈ q → l ≠ []) → prune_queues q = q.
Proof.
  unfold prune_queues. induction q as [|[u l] q IH]; intros Hq; [done|].
  rewrite filter_cons_True by (apply (Hq u); set_solver). f_equal. apply IH. set_solver.
Qed.

Lemma prune_users_id (q : user_queues) rr : (∀ u, u ∈ rr → u ∈ dkeys q) → prune_users q rr = rr.
Proof.
  unfold prune_users. induction rr as [|u rr IH]; intros Hq; [done|].
  rewrite filter_cons_True by (apply Hq; set_solver). f_equal. apply IH. set_solver.
Qed.

Lemma filter_queues_entry drop (q : user_queues) u l :
  (u, l) ∈ filter_queues drop q ↔
  l ≠ [] ∧ ∃ l0, (u, l0) ∈ q ∧ l = filter (λ i, drop (WorkflowItem.workflow_id i) = false) l0.
Proof.
  unfold filter_queues. rewrite list_elem_of_omap. split.
  - intros ([u' l'] & Hin & H). simpl in H. destruct (filter _ l') eqn:E; [done|].
    injection H as -> <-. split; [done|]. exists l'. by rewrite E.
  - intros (Hne & l0 & Hin & ->). exists (u, l0). split; [done|]. simpl. by destruct (filter _ l0).
Qed.

Lemma filter_queues_keys drop (q : user_queues) : dkeys (filter_queues drop q) `sublist_of` dkeys q.
Proof.
  unfold filter_queues, dkeys. induction q as [|[u l] q IH]; csimpl; [done|].
  destruct (filter _ l); csimpl; [by apply sublist_cons|by apply sublist_skip].
Qed.

Lemma filter_queues_items drop (q : user_queues) :
  queued_items (filter_queues drop q) =
  filter (λ i, drop (WorkflowItem.workflow_id i) = false) (queued_items q).
Proof.
  unfold filter_queues, queued_items, dvals. induction q as [|[u l] q IH]; csimpl; [done|].
  rewrite filter_app. destruct (filter _ l) eqn:E; csimpl; [done|]. by rewrite IH.
Qed.

Lemma filter_queues_inv priority drop q rr :
  pq_inv priority q rr →
  pq_inv priority (filter_queues drop q) (prune_users (filter_queues drop q) rr).
Proof.
  intros [H1 H2 H3 H4 H5]. split.
  - eapply sublist_NoDup; [exact H1|apply filter_queues_keys].
  - intros u l Hin. by apply filter_queues_entry in Hin as [? _].
  - by apply NoDup_filter.
  - intros u. unfold prune_users. rewrite list_elem_of_filter, H4. split; [naive_solver|].
    intros Hu. split; [done|]. eapply elem_of_sublist; [exact Hu|apply filter_queues_keys].
  - intros u l i Hin Hi. apply filter_queues_entry in Hin as (_ & l0 & Hin & ->).
    apply list_elem_of_filter in Hi as [_ Hi]. by eapply H5.
Qed.

(** Appending an item to its user's queue. *)
Lemma enqueue_queue_inv q rr item :
  let priority := WorkflowItem.priority item in
  let u := WorkflowItem.user_id item in
  pq_inv priority q rr →
  pq_inv priority (dset u (dget_or [] u q ++ [item]) q) (if dmem u q then rr else rr ++ [u]).
Proof.
  intros priority u [H1 H2 H3 H4 H5]. split.
  - by apply dict_wf_dset.
  - intros u' l Hin. apply elem_of_dset in Hin as [[_ ->]|Hin]; [by destruct (dget_or [] u q)|by eapply H2].
  - destruct (dmem u q) eqn:E; [done|]. apply dmem_false in E.
    apply NoDup_app. split; [done|]. split; [|apply NoDup_singleton].
    intros x Hx ->%list_elem_of_singleton. by apply H4 in Hx.
  - intros x. rewrite elem_of_dkeys_dset.
    destruct (dmem u q) eqn:E; [apply dmem_true in E|apply dmem_false in E];
      rewrite ?elem_of_app, ?list_elem_of_singleton, H4; naive_solver.
  - intros u' l i Hin Hi. apply elem_of_dset in Hin as [[-> ->]|Hin]; [|by eapply H5].
    apply elem_of_app in Hi as [Hi| ->%list_elem_of_singleton]; [|done].
    unfold dget_or in Hi. destruct (dget u q) as [l0|] eqn:E; [|set_solver].
    apply dget_elem in E. by eapply H5.
Qed.

Lemma enqueue_queue_perm (q : user_queues) u item :
  queued_items (dset u (dget_or [] u q ++ [item]) q) ≡ₚ item :: queued_items q.
Proof.
  unfold queued_items, dvals, dget_or.
  induction q as [|[u' l] q IH]; simpl; [done|]. destruct (decide (u = u')) as [->|Hne]; csimpl.
  - rewrite <-app_assoc. simpl. by rewrite Permutation_middle.
  - rewrite IH. by rewrite Permutation_middle.
Qed.

Lemma bump_queues_keys w (q : user_queues) : dkeys (bump_queues w q) = dkeys q.
Proof. unfold bump_queues, dkeys. rewrite <-list_fmap_compose. done. Qed.

Lemma bump_queues_items w (q : user_queues) :
  queued_items (bump_queues w q) = map (bump_if w) (queued_items q).
Proof.
  unfold bump_queues, queued_items, dvals. induction q as [|[u l] q IH]; csimpl; [done|].
  rewrite map_app. by f_equal.
Qed.

Lemma bump_if_id w i : WorkflowItem.workflow_id (bump_if w i) = WorkflowItem.workflow_id i.
Proof. unfold bump_if. by case_match. Qed.

Lemma bump_if_config w i : WorkflowItem.config (bump_if w i) = WorkflowItem.config i.
Proof. unfold bump_if. by case_match. Qed.

Lemma bump_queues_inv priority w q rr : pq_inv priority q rr → pq_inv priority (bump_queues w q) rr.
Proof.
  intros [H1 H2 H3 H4 H5].
  assert (Hin : ∀ u l, (u, l) ∈ bump_queues w q → ∃ l0, (u, l0) ∈ q ∧ l = map (bump_if w) l0).
  { intros u l H. unfold bump_queues in H. apply list_elem_of_fmap in H as ([u' l'] & [= -> ->] & H). eauto. }
  split.
  - unfold dict_wf. by rewrite bump_queues_keys.
  - intros u l (l0 & Hl0 & ->)%Hin. specialize (H2 u l0 Hl0). by destruct l0.
  - done.
  - intros u. by rewrite bump_queues_keys.
  - intros u l i (l0 & Hl0 & ->)%Hin Hi. apply list_elem_of_fmap in Hi as (j & -> & Hj).
    unfold WorkflowItem.priority, WorkflowItem.user_id. rewrite bump_if_config. by eapply H5.
Qed.

(** ** The manager *)

Section facts.
Context {S : Type} `{SchedulingPolicy S}.
Context (cfg : ManagerConfig.t).
Context (meets : dict string val → option HardwareRequirements.t → bool).
Implicit Types (m : manager S) (p : PartitionKey).

Record mgr_inv m : Prop := {
mi_queues pr : pq_inv pr (pget (queues m) pr) (pget (rr_user_order m) pr);
mi_ids : NoDup (ids (all_items m));
mi_shared i j : i ∈ all_items m → dget (WorkflowItem.workflow_id i) (items m) = Some j → j = i;
mi_order : NoDup (rr_partition_order m);
mi_members p : p ∈ rr_partition_members m ↔ p ∈ rr_partition_order m;
mi_handle r : active_reservation m = Some r → BatchReservation.handle r < next_handle m;
}.

Lemma init_inv (s : S) : mgr_inv (init_manager s).
Proof.
split; simpl.
- intros pr. destruct pr; apply pq_inv_nil.
- constructor.
- intros i j Hi. unfold all_items in Hi. simpl in Hi. set_solver.
- constructor.
- done.
- done.
Qed.

Lemma elem_of_all_items i m :
i ∈ all_items m ↔ ∃ pr, i ∈ queued_items (pget (queues m) pr).
Proof.
unfold all_items. rewrite list_elem_of_bind. split; [naive_solver|].
intros [pr Hi]. exists pr. split; [done|apply elem_of_priorities].
Qed.

Lemma all_items_flat m :
all_items m = queued_items (pget (queues m) HIGH) ++ queued_items (pget (queues m) MEDIUM) ++
              queued_items (pget (queues m) LOW).
Proof. unfold all_items, priorities. csimpl. by rewrite app_nil_r. Qed.

Lemma all_items_set_queues q rr m : all_items (set_queues q rr m) =
priorities ≫= λ pr, queued_items (pget q pr).
Proof. done. Qed.

(** The priority and user of a queued item are those of its queue. *)
Lemma item_home m i : mgr_inv m → i ∈ all_items m →
i ∈ queued_items (pget (queues m) (WorkflowItem.priority i)).
Proof.
intros Hm Hi. apply elem_of_all_items in Hi as [pr Hi]. pose proof Hi as Hi'.
apply elem_of_queued in Hi' as (u & l & Hin & Hl).
destruct (pq_home _ _ _ (mi_queues m Hm pr) u l i Hin Hl) as [-> _]. done.
Qed.

Lemma same_id m i j : mgr_inv m → i ∈ all_items m → j ∈ all_items m →
WorkflowItem.workflow_id i = WorkflowItem.workflow_id j → i = j.
Proof.
intros Hm Hi Hj Heq.
apply list_elem_of_lookup in Hi as [a Ha]. apply list_elem_of_lookup in Hj as [b Hb].
assert (a = b) as <-; [|congruence].
eapply (NoDup_lookup (ids (all_items m))); [apply Hm|unfold ids; rewrite list_lookup_fmap, Ha; done|].
unfold ids. rewrite list_lookup_fmap, Hb. simpl. congruence.
Qed.

(** *** Dropping workflows *)

Lemma pset_pset {A} pr (a b : A) x : pset pr a (pset pr b x) = pset pr a x.
Proof. by destruct pr. Qed.

Lemma pset_pget {A} pr (x : perprio A) : pset pr (pget x pr) x = x.
Proof. by destruct pr, x. Qed.

Lemma set_queues_same m : set_queues (queues m) (rr_user_order m) m = m.
Proof. by destruct m. Qed.

Lemma drop_from_priority_eq drop m pr :
pq_inv pr (pget (queues m) pr) (pget (rr_user_order m) pr) →
drop_from_priority drop m pr =
  let q := filter_queues drop (pget (queues m) pr) in
  set_queues (pset pr q (queues m))
    (pset pr (prune_users q (pget (rr_user_order m) pr)) (rr_user_order m)) m.
Proof.
intros Hq. pose proof (filter_queues_inv pr drop _ _ Hq) as Hf. unfold drop_from_priority.
destruct (pget (queues m) pr) as [|kv q] eqn:E.
- simpl. assert (pget (rr_user_order m) pr = []) as Hrr.
  { destruct (pget (rr_user_order m) pr) as [|u rr]; [done|].
    assert (u ∈ dkeys ([] : user_queues)) as Hu by (apply (pq_rr _ _ _ Hq); set_solver). set_solver. }
  pose proof (pset_pget pr (queues m)) as P1. rewrite E in P1.
  pose proof (pset_pget pr (rr_user_order m)) as P2. rewrite Hrr in P2.
  rewrite Hrr. unfold filter_queues, prune_users. simpl. rewrite P1, filter_nil, P2. by rewrite set_queues_same.
- unfold prune_empty_user_queues. set (q' := filter_queues drop (kv :: q)) in *. simpl.
  rewrite pget_pset_eq, pset_pset, (prune_queues_id q'); [done|].
  intros u l. apply (pq_nonempty _ _ _ Hf).
Qed.

Lemma drop_workflows_eq drop m :
(∀ pr, pq_inv pr (pget (queues m) pr) (pget (rr_user_order m) pr)) →
drop_workflows drop m =
  set_queues (pmap (filter_queues drop) (queues m))
    (pzip (λ q rr, prune_users (filter_queues drop q) rr) (queues m) (rr_user_order m)) m.
Proof.
intros Hq. unfold drop_workflows, priorities. simpl.
rewrite (drop_from_priority_eq drop m HIGH) by apply (Hq HIGH). cbv zeta.
rewrite (drop_from_priority_eq drop _ MEDIUM) by apply (Hq MEDIUM). cbv zeta.
rewrite (drop_from_priority_eq drop _ LOW) by apply (Hq LOW). done.
Qed.

Lemma drop_workflows_items drop m : mgr_inv m →
all_items (drop_workflows drop m) =
filter (λ i, drop (WorkflowItem.workflow_id i) = false) (all_items m).
Proof.
intros Hm. rewrite drop_workflows_eq by apply Hm.
rewrite !all_items_flat. simpl. by rewrite !filter_queues_items, !filter_app.
Qed.

Lemma ids_filter_nodup (P : WorkflowItem.t → Prop) `{∀ i, Decision (P i)} l :
NoDup (ids l) → NoDup (ids (filter P l)).
Proof. intros Hl. eapply sublist_NoDup; [exact Hl|]. apply fmap_sublist, sublist_filter. Qed.

(** Changing only the queues, to an invariant-respecting sub-multiset. *)
Lemma drop_workflows_inv drop m : mgr_inv m → mgr_inv (drop_workflows drop m).
Proof.
intros Hm. pose proof (drop_workflows_items drop m Hm) as Hi.
rewrite drop_workflows_eq in * by apply Hm. destruct Hm as [H1 H2 H3 H4 H5 H6].
split; try done.
- intros pr. simpl. rewrite pget_pmap, pget_pzip. by apply filter_queues_inv.
- rewrite Hi. by apply ids_filter_nodup.
- intros i j Hin. rewrite Hi in Hin. apply list_elem_of_filter in Hin as [_ Hin]. by apply H3.
Qed.

(** *** Updates that leave the queues alone *)

Lemma set_not_empty_inv b m : mgr_inv m → mgr_inv (set_not_empty b m).
Proof. intros []. by split. Qed.
Lemma set_policy_inv s m : mgr_inv m → mgr_inv (set_policy s m).
Proof. intros []. by split. Qed.
Lemma set_dwell_inv a b m : mgr_inv m → mgr_inv (set_dwell a b m).
Proof. intros []. by split. Qed.
Lemma clear_if_empty_inv m : mgr_inv m → mgr_inv (clear_if_empty m).
Proof. intros. unfold clear_if_empty. case_match; [done|by apply set_not_empty_inv]. Qed.

Lemma set_partitions_inv order members m :
NoDup order → (∀ p, p ∈ members ↔ p ∈ order) → mgr_inv m → mgr_inv (set_partitions order members m).
Proof. intros ? ? []. by split. Qed.

Lemma set_active_inv a h m :
(∀ r, a = Some r → BatchReservation.handle r < h) → mgr_inv m → mgr_inv (set_active a h m).
Proof. intros ? []. by split. Qed.

Lemma finalize_items l (d : dict string WorkflowItem.t) w j :
dget w (foldl (λ d w, ddel w d) d l) = Some j → dget w d = Some j.
Proof.
revert d. induction l as [|x l IH]; intros d Hd; simpl in Hd; [done|].
apply IH in Hd. destruct (decide (w = x)) as [->|Hne]; [by rewrite dget_ddel_eq in Hd|].
by rewrite dget_ddel_ne in Hd.
Qed.

Lemma finalize_workflows_inv l m : mgr_inv m → mgr_inv (finalize_workflows l m).
Proof.
intros []. split; try done. intros i j Hi Hj. apply finalize_items in Hj. by apply mi_shared0.
Qed.

Lemma drop_stale_partitions_inv m : mgr_inv m → mgr_inv (drop_stale_partitions cfg m).
Proof.
intros Hm. apply set_partitions_inv; [apply NoDup_filter, Hm| |done].
intros p. rewrite !list_elem_of_filter. pose proof (mi_members m Hm p). naive_solver.
Qed.

Lemma remove_workflows_inv l m : mgr_inv m → mgr_inv (remove_workflows cfg l m).
Proof.
intros Hm. unfold remove_workflows. destruct l as [|w l]; [done|].
by apply clear_if_empty_inv, drop_stale_partitions_inv, finalize_workflows_inv, drop_workflows_inv.
Qed.

(** *** Enqueueing *)

Lemma enqueue_item_queues m item pr :
pget (queues (enqueue_item cfg m item)) pr =
  if decide (WorkflowItem.priority item = pr)
  then dset (WorkflowItem.user_id item)
         (dget_or [] (WorkflowItem.user_id item) (pget (queues m) pr) ++ [item]) (pget (queues m) pr)
  else pget (queues m) pr.
Proof.
unfold enqueue_item. case_decide as Hd; simpl; rewrite pget_pset; case_decide; subst; done.
Qed.

Lemma enqueue_item_items m item : all_items (enqueue_item cfg m item) ≡ₚ item :: all_items m.
Proof.
rewrite !all_items_flat, !enqueue_item_queues.
destruct (WorkflowItem.priority item); repeat (case_decide; [|done] || case_decide; try done);
  rewrite enqueue_queue_perm; simpl; rewrite ?Permutation_middle; done.
Qed.

Lemma enqueue_item_inv m item :
mgr_inv m → WorkflowItem.workflow_id item ∉ ids (all_items m) →
mgr_inv (enqueue_item cfg m item).
Proof.
intros Hm Hfresh. pose proof (enqueue_item_items m item) as Hperm.
pose proof (enqueue_item_queues m item) as Hqs.
assert (Hrr : ∀ pr, pget (rr_user_order (enqueue_item cfg m item)) pr =
  if decide (WorkflowItem.priority item = pr)
  then if dmem (WorkflowItem.user_id item) (pget (queues m) pr) then pget (rr_user_order m) pr
       else pget (rr_user_order m) pr ++ [WorkflowItem.user_id item]
  else pget (rr_user_order m) pr).
{ intros pr. unfold enqueue_item. case_decide; simpl; rewrite pget_pset; case_decide; subst; done. }
assert (Hit : items (enqueue_item cfg m item) = dset (WorkflowItem.workflow_id item) item (items m)).
{ unfold enqueue_item. by case_decide. }
destruct Hm as [H1 H2 H3 H4 H5 H6]. split.
- intros pr. rewrite Hqs, Hrr. case_decide; subst; [by apply enqueue_queue_inv|done].
- unfold ids. rewrite Hperm. csimpl. by apply NoDup_cons.
- intros i j Hi Hj. rewrite Hperm in Hi. rewrite Hit, dget_dset in Hj.
  apply elem_of_cons in Hi as [->|Hi].
  + rewrite decide_True in Hj by done. congruence.
  + rewrite decide_False in Hj; [by apply H3|]. intros Heq. apply Hfresh. rewrite <-Heq.
    apply list_elem_of_fmap. eauto.
- unfold enqueue_item. case_decide as Hd; simpl in *; [done|]. apply NoDup_app.
  split; [done|]. split; [|apply NoDup_singleton].
  intros x Hx ->%list_elem_of_singleton. by rewrite H5 in Hd.
- intros p. unfold enqueue_item. case_decide; simpl in *; [done|].
  rewrite !elem_of_app, H5. done.
- intros r. unfold enqueue_item. case_decide; simpl; apply H6.
Qed.

(** *** Ageing *)

Definition known m (w : string) : bool := dmem w (items m).

(** An item after the miss counts of [targets] were incremented. *)
Definition age (targets : list string) m (i : WorkflowItem.t) : WorkflowItem.t :=
if decide (WorkflowItem.workflow_id i ∈ targets ∧ known m (WorkflowItem.workflow_id i) = true)
then WorkflowItem.bump i else i.

Lemma age_id targets m i : WorkflowItem.workflow_id (age targets m i) = WorkflowItem.workflow_id i.
Proof. unfold age. by case_decide. Qed.

Lemma ids_map (f : WorkflowItem.t → WorkflowItem.t) l :
(∀ i, WorkflowItem.workflow_id (f i) = WorkflowItem.workflow_id i) → ids (map f l) = ids l.
Proof.
intros Hf. unfold ids. rewrite <-list_fmap_compose. apply list_fmap_ext. intros ? i _. apply Hf.
Qed.

Lemma bump_miss_items w m :
all_items (bump_miss m w) =
if known m w then map (bump_if w) (all_items m) else all_items m.
Proof.
unfold bump_miss, known, dmem. destruct (dget w (items m)); [|done].
rewrite !all_items_flat. simpl. by rewrite !bump_queues_items, !map_app.
Qed.

Lemma bump_miss_known w m w' : known (bump_miss m w) w' = known m w'.
Proof.
unfold bump_miss, known. destruct (dget w (items m)) eqn:E; [|done]. simpl.
apply eq_true_iff_eq. rewrite !dmem_true, elem_of_dkeys_dset. split; [|by right].
intros [->|?]; [|done]. by apply dget_is_Some.
Qed.

Lemma bump_miss_inv w m : mgr_inv m → mgr_inv (bump_miss m w).
Proof.
intros Hm. pose proof (bump_miss_items w m) as Hi. revert Hi.
unfold bump_miss, known, dmem. destruct (dget w (items m)) as [item|] eqn:E; [|done].
intros Hi. destruct Hm as [H1 H2 H3 H4 H5 H6]. split; try done.
- intros pr. simpl. rewrite pget_pmap. by apply bump_queues_inv.
- rewrite Hi, ids_map; [done|apply bump_if_id].
- intros i j Hin Hj. rewrite Hi in Hin. apply list_elem_of_fmap in Hin as (i0 & -> & Hi0).
  simpl in Hj. rewrite bump_if_id in Hj. unfold bump_if.
  destruct (String.eqb_spec (WorkflowItem.workflow_id i0) w) as [Heq|Hne].
  + rewrite Heq, dget_dset_eq in Hj. injection Hj as <-.
    by rewrite (H3 i0 item Hi0) by (by rewrite Heq).
  + rewrite dget_dset_ne in Hj by done. by apply H3.
Qed.

Lemma bump_misses_items targets m :
NoDup targets → all_items (foldl bump_miss m targets) = map (age targets m) (all_items m).
Proof.
revert m. induction targets as [|w targets IH]; intros m Hnd; simpl.
{ symmetry. rewrite <-(list_fmap_id (all_items m)) at 2. apply list_fmap_ext. intros ? i _.
  unfold age. rewrite decide_False; [done|set_solver]. }
apply NoDup_cons in Hnd as [Hw Hnd]. rewrite IH, bump_miss_items by done.
assert (Hk : ∀ i, age targets (bump_miss m w) i = age targets m i).
{ intros i. unfold age. by rewrite bump_miss_known. }
destruct (known m w) eqn:E.
- rewrite map_map. apply list_fmap_ext. intros ? i _. rewrite Hk. unfold age, bump_if.
  destruct (String.eqb_spec (WorkflowItem.workflow_id i) w) as [Heq|Hne].
  + change (WorkflowItem.workflow_id (WorkflowItem.bump i)) with (WorkflowItem.workflow_id i).
    rewrite Heq. rewrite decide_False by naive_solver. rewrite decide_True; [done|set_solver].
  + apply decide_ext. rewrite elem_of_cons. naive_solver.
- apply list_fmap_ext. intros ? i _. rewrite Hk. unfold age. apply decide_ext.
  rewrite elem_of_cons. split; [naive_solver|].
  intros [[Heq|?] ?]; [rewrite Heq in *; congruence|done].
Qed.

Lemma bump_misses_inv targets m : mgr_inv m → mgr_inv (foldl bump_miss m targets).
Proof. revert m. induction targets; intros m Hm; simpl; [done|]. by apply IHtargets, bump_miss_inv. Qed.

(** *** Rotation *)

Lemma rotate_perm {A} (l : list A) : rotate l ≡ₚ l.
Proof. destruct l; simpl; [done|]. by rewrite Permutation_app_comm. Qed.

Lemma advance_partition_inv p m : mgr_inv m → mgr_inv (advance_partition_round_robin p m).
Proof.
intros Hm. unfold advance_partition_round_robin.
destruct (rr_partition_order m) as [|h l] eqn:E; [done|]. case_decide; [|done].
apply set_partitions_inv; [by rewrite rotate_perm, <-E; apply Hm| |done].
intros q. rewrite rotate_perm, <-E. apply Hm.
Qed.

Lemma advance_partition_items p m : all_items (advance_partition_round_robin p m) = all_items m.
Proof. unfold advance_partition_round_robin. repeat case_match; done. Qed.

Lemma advance_user_inv m pr : mgr_inv m → mgr_inv (advance_user_round_robin m pr).
Proof.
intros Hm. unfold advance_user_round_robin. destruct (1 <? _); [|done].
destruct Hm as [H1 H2 H3 H4 H5 H6]. split; try done. intros pr'. simpl. rewrite pget_pset.
case_decide; [|done]. subst. destruct (H1 pr') as [? ? ? Hr ?].
split; try done; [by rewrite rotate_perm|]. intros u. by rewrite rotate_perm, Hr.
Qed.

Lemma advance_users_spec l m :
mgr_inv m → mgr_inv (foldl advance_user_round_robin m l) ∧
all_items (foldl advance_user_round_robin m l) = all_items m.
Proof.
revert m. induction l as [|pr l IH]; intros m Hm; simpl; [done|].
destruct (IH _ (advance_user_inv m pr Hm)) as [H1 H2]. split; [done|]. rewrite H2.
unfold advance_user_round_robin. by case_match.
Qed.

(** *** Commit and abort *)

Lemma clear_if_empty_items m : all_items (clear_if_empty m) = all_items m.
Proof. unfold clear_if_empty. by case_match. Qed.

Lemma commit_spec r m m' :
mgr_inv m → NoDup (ReservationPayload.miss_increment_targets (BatchReservation.payload r)) →
commit_reservation cfg r m = (m', None) →
let payload := BatchReservation.payload r in
mgr_inv m' ∧ is_active m r = true ∧ active_reservation m' = None ∧
all_items m' =
  filter (λ i, WorkflowItem.workflow_id i ∉ ReservationPayload.selected_workflow_ids payload)
    (map (age (ReservationPayload.miss_increment_targets payload) m) (all_items m)).
Proof.
intros Hm Hnd Hc payload. unfold commit_reservation in Hc.
destruct (is_active m r) eqn:Ea; simpl in Hc; [|done].
destruct (on_commit _ _) as [pol [e|]]; [done|]. injection Hc as <-.
fold payload. fold payload in Hnd.
set (targets := ReservationPayload.miss_increment_targets payload) in *.
set (sel := ReservationPayload.selected_workflow_ids payload).
set (m1 := foldl bump_miss (set_policy pol m) targets).
assert (I1 : mgr_inv m1) by by apply bump_misses_inv, set_policy_inv.
assert (A1 : all_items m1 = map (age targets m) (all_items m)) by exact (bump_misses_items targets (set_policy pol m) Hnd).
pose proof (drop_workflows_inv (λ w, bool_decide (w ∈ sel)) m1 I1) as I2.
pose proof (drop_workflows_items (λ w, bool_decide (w ∈ sel)) m1 I1) as A2.
set (m2 := drop_workflows _ m1) in *.
pose proof (drop_stale_partitions_inv m2 I2) as I3.
set (m3 := drop_stale_partitions cfg m2) in *.
set (m4 := match ReservationPayload.rr_partition_to_advance payload with
           | Some p => advance_partition_round_robin p m3 | None => m3 end).
assert (I4 : mgr_inv m4 ∧ all_items m4 = all_items m3).
{ unfold m4. case_match; [|done]. split; [by apply advance_partition_inv|apply advance_partition_items]. }
destruct I4 as [I4 A4].
destruct (advance_users_spec (ReservationPayload.user_rr_priorities_to_advance payload) m4 I4) as [I5 A5].
set (m5 := foldl advance_user_round_robin m4 _) in *.
split_and!; [|done|done|].
- apply set_active_inv; [done|]. by apply clear_if_empty_inv.
- change (all_items (set_active None (next_handle m5) (clear_if_empty m5))) with (all_items (clear_if_empty m5)).
  rewrite clear_if_empty_items, A5, A4. change (all_items m3) with (all_items m2).
  rewrite A2, A1. apply list_filter_iff. intros i. by rewrite bool_decide_eq_false.
Qed.

Lemma commit_raises r m m' e :
commit_reservation cfg r m = (m', Some e) →
queues m' = queues m ∧ rr_user_order m' = rr_user_order m ∧ items m' = items m ∧
rr_partition_order m' = rr_partition_order m ∧ rr_partition_members m' = rr_partition_members m ∧
active_reservation m' = active_reservation m ∧ next_handle m' = next_handle m.
Proof.
unfold commit_reservation. destruct (negb _); [by intros [= <- _]|].
destruct (on_commit _ _) as [pol [e'|]]; [by intros [= <- _]|done].
Qed.

Lemma commit_inv r m m' e :
mgr_inv m → NoDup (ReservationPayload.miss_increment_targets (BatchReservation.payload r)) →
commit_reservation cfg r m = (m', e) → mgr_inv m'.
Proof.
intros Hm Hnd Hc. destruct e as [e|]; [|by eapply commit_spec].
unfold commit_reservation in Hc. destruct (negb _); [by injection Hc as <- _|].
destruct (on_commit _ _) as [pol [e'|]]; [|done]. injection Hc as <- _. by apply set_policy_inv.
Qed.

Lemma abort_inv r reason m m' e :
mgr_inv m → abort_reservation r reason m = (m', e) → mgr_inv m'.
Proof.
intros Hm Hc. unfold abort_reservation in Hc. destruct (negb _); injection Hc as <- _; [done|].
by apply set_active_inv.
Qed.

(** *** The candidate pool *)

Lemma prune_id m pr : mgr_inv m → prune_empty_user_queues pr m = m.
Proof.
intros Hm. destruct (mi_queues m Hm pr) as [H1 H2 H3 H4 H5]. unfold prune_empty_user_queues.
rewrite prune_queues_id by done. rewrite prune_users_id by (intros u; apply H4).
by rewrite !pset_pget, set_queues_same.
Qed.

Lemma rr_pass_perm limit acc qs :
let '(acc', qs') := rr_pass limit acc qs in
acc' ++ concat qs' ≡ₚ acc ++ concat qs ∧ (∃ extra, acc' = acc ++ extra) ∧ length qs' = length qs.
Proof.
revert acc. induction qs as [|[|x q] qs IH]; intros acc; simpl.
- split_and!; [done|exists []; by rewrite app_nil_r|done].
- specialize (IH acc). destruct (rr_pass limit acc qs) as [acc' rest]. simpl.
  destruct IH as (? & ? & ?). split_and!; [done|done|lia].
- destruct (limit <=? _).
  + split_and!; [|by exists [x]|done]. simpl. by rewrite <-app_assoc.
  + specialize (IH (acc ++ [x])). destruct (rr_pass limit (acc ++ [x]) qs) as [acc' rest]. simpl.
    destruct IH as (IH & (extra & ->) & Hl). split_and!; [|exists (x :: extra); by rewrite <-app_assoc|lia].
    rewrite (Permutation_app_swap_app _ q), IH, <-app_assoc. simpl.
    by rewrite (Permutation_app_swap_app q acc), Permutation_middle.
Qed.

Lemma rr_rounds_sub fuel limit acc qs :
∃ rest, rr_rounds fuel limit acc qs ++ rest ≡ₚ acc ++ concat qs.
Proof.
revert acc qs. induction fuel as [|fuel IH]; intros acc qs; simpl; [by eexists|].
destruct (limit <=? _); [by eexists|].
pose proof (rr_pass_perm limit acc qs) as Hp. destruct (rr_pass limit acc qs) as [acc' qs'].
destruct Hp as (Hp & _ & _). destruct (_ =? _); [by exists (concat qs')|].
destruct (IH acc' qs') as [rest Hr]. exists rest. by rewrite Hr.
Qed.

Lemma dget_or_cons_ne (u u' : string) (l : list WorkflowItem.t) (q : user_queues) :
u ≠ u' → dget_or [] u ((u', l) :: q) = dget_or [] u q.
Proof. intros. unfold dget_or. simpl. by rewrite decide_False. Qed.

Lemma queued_by_keys (q : user_queues) :
dict_wf q → queued_items q = dkeys q ≫= λ u, dget_or [] u q.
Proof.
unfold dict_wf, queued_items, dvals, dkeys. induction q as [|[u l] q IH]; csimpl; [done|].
intros [Hu Hnd]%NoDup_cons. rewrite IH by done. f_equal.
- unfold dget_or. simpl. by rewrite decide_True.
- clear IH Hnd. induction q.*1 as [|u' us IH']; csimpl; [done|].
  rewrite dget_or_cons_ne by set_solver. f_equal. apply IH'. set_solver.
Qed.

Lemma user_matches_concat p (q : user_queues) rr :
concat (user_matches cfg p q rr).*2 =
filter (λ i, matches_partition cfg p i = true) (rr ≫= λ u, dget_or [] u q).
Proof.
unfold user_matches. induction rr as [|u rr IH]; csimpl; [done|].
rewrite filter_app. destruct (filter _ (dget_or [] u q)) eqn:E; csimpl; [done|].
by rewrite IH.
Qed.

Lemma user_matches_sub pr p (q : user_queues) rr :
pq_inv pr q rr → concat (user_matches cfg p q rr).*2 ⊆+ queued_items q.
Proof.
intros [H1 H2 H3 H4 H5]. rewrite user_matches_concat, queued_by_keys by done.
assert (Hp : rr ≡ₚ dkeys q) by by apply NoDup_Permutation.
rewrite Hp. apply sublist_submseteq, sublist_filter.
Qed.

Lemma peek_spec pr limit p m :
mgr_inv m →
∃ picked advance, peek_round_robin_for_partition cfg pr limit p m = (m, (picked, advance)) ∧
  picked ⊆+ queued_items (pget (queues m) pr) ∧
  ∀ i, i ∈ picked → matches_partition cfg p i = true.
Proof.
intros Hm. unfold peek_round_robin_for_partition. rewrite prune_id by done.
destruct (Z.leb_spec limit 0).
{ exists [], false. split_and!; [done|apply submseteq_nil_l|set_solver]. }
pose proof (user_matches_sub pr p _ _ (mi_queues m Hm pr)) as Hs.
pose proof (user_matches_concat p (pget (queues m) pr) (pget (rr_user_order m) pr)) as Hc.
assert (Hnone : ∃ picked advance, (m, ([], false)) = (m, (picked, advance)) ∧
  picked ⊆+ queued_items (pget (queues m) pr) ∧ ∀ i, i ∈ picked → matches_partition cfg p i = true).
{ exists [], false. split_and!; [done|apply submseteq_nil_l|set_solver]. }
destruct (pget (queues m) pr) as [|kv q]; [done|].
destruct (pget (rr_user_order m) pr) as [|u rr]; [done|].
destruct ((user_matches cfg p (kv :: q) (u :: rr)).*2) as [|l qs] eqn:E; [done|].
eexists _, _. split; [done|].
destruct (rr_rounds_sub (Datatypes.S (length (concat (l :: qs)))) (Z.to_nat limit) [] (l :: qs)) as [rest Hr].
simpl app in Hr. set (picked := rr_rounds _ _ _ _) in *.
assert (Hsub : picked ⊆+ concat (l :: qs)) by (rewrite <-Hr; apply submseteq_inserts_r; done).
split; [by etrans|]. intros i Hi.
assert (i ∈ concat (l :: qs)) as Hin by by eapply elem_of_submseteq.
rewrite Hc in Hin. by apply list_elem_of_filter in Hin as [? _].
Qed.

(** The shape of the keys this configuration builds. *)
Definition shaped p : Prop :=
is_Some (pk_rest p) ↔ ManagerConfig.capacity_aware_selection cfg = true.

Lemma partition_of_shaped i : shaped (partition_of cfg i).
Proof. unfold shaped, partition_of. simpl. case_match; rewrite is_Some_alt; simpl; naive_solver. Qed.

Lemma matches_spec p i : shaped p → matches_partition cfg p i = true ↔ partition_of cfg i = p.
Proof.
intros Hs. unfold matches_partition. rewrite !andb_true_iff, !bool_decide_eq_true.
unfold shaped in Hs. destruct p as [a b c d e f]. unfold partition_of. simpl in *.
destruct (ManagerConfig.capacity_aware_selection cfg), f as [f|]; simpl in *.
- split; [|intros [= <- <- <- <- <- <-]; split_and!; try done; by destruct (WorkflowItem.requires_gpu i)].
  intros (((((-> & ->) & ->) & ->) & ->) & Hg). by apply Bool.eqb_prop in Hg as ->.
- destruct Hs as [_ Hs]. by destruct (Hs eq_refl).
- destruct Hs as [Hs _]. discriminate Hs. done.
- split; [|by intros [= <- <- <- <- <-]]. by intros (((((-> & ->) & ->) & ->) & ->) & _).
Qed.

Lemma bind_submseteq_priorities (f : Priority → list WorkflowItem.t) m :
(∀ pr, f pr ⊆+ queued_items (pget (queues m) pr)) →
priorities ≫= f ⊆+ all_items m.
Proof.
intros Hf. unfold all_items, priorities. csimpl. rewrite !app_nil_r.
by repeat apply submseteq_app.
Qed.

Lemma pool_spec p m :
mgr_inv m →
∃ c adv, build_candidate_pool_for_partition cfg p m = (m, (c, adv)) ∧ c ⊆+ all_items m ∧
  ∀ i, i ∈ c → matches_partition cfg p i = true.
Proof.
intros Hm.
assert (Hstep : ∀ c adv pr, ∃ c' adv', pool_step cfg p (m, (c, adv)) pr = (m, (c ++ c', adv')) ∧
  c' ⊆+ queued_items (pget (queues m) pr) ∧ ∀ i, i ∈ c' → matches_partition cfg p i = true).
{ intros c adv pr. unfold pool_step. destruct (_ =? 0)%Z.
  - exists [], adv. rewrite app_nil_r. split_and!; [done|apply submseteq_nil_l|set_solver].
  - destruct (peek_spec pr (Z.max 0 (pget (ManagerConfig.quantums cfg) pr)) p m Hm)
      as (picked & advance & -> & H1 & H2).
    eexists _, _. split_and!; [done|done|done]. }
unfold build_candidate_pool_for_partition, priorities. cbn [foldl].
destruct (Hstep [] [] HIGH) as (c1 & a1 & -> & S1 & M1).
destruct (Hstep ([] ++ c1) a1 MEDIUM) as (c2 & a2 & -> & S2 & M2).
destruct (Hstep (([] ++ c1) ++ c2) a2 LOW) as (c3 & a3 & -> & S3 & M3).
eexists _, _. split; [done|]. rewrite all_items_flat, app_nil_l, <-app_assoc. split.
- by repeat apply submseteq_app.
- intros i. rewrite !elem_of_app. naive_solver.
Qed.

Lemma submseteq_ids l1 l2 : l1 ⊆+ l2 → ids l1 ⊆+ ids l2.
Proof. unfold ids. intros Hl. by rewrite Hl. Qed.

Lemma NoDup_submseteq_ids l1 l2 : l1 ⊆+ l2 → NoDup (ids l2) → NoDup (ids l1).
Proof.
intros Hl Hnd. apply submseteq_ids, submseteq_Permutation in Hl as [k Hk].
rewrite Hk in Hnd. by apply NoDup_app in Hnd as (? & _ & _).
Qed.

(** *** The partition pick *)

Lemma pick_round_robin_spec present order members :
NoDup order → (∀ q, q ∈ members ↔ q ∈ order) →
let '(picked, order', members') := pick_round_robin present order members in
NoDup order' ∧ (∀ q, q ∈ members' ↔ q ∈ order') ∧
(∃ evicted, order = evicted ++ order' ∧ ∀ q, q ∈ evicted → q ∉ present) ∧
match picked with
| Some q => q ∈ present ∧ head order' = Some q
| None => order' = []
end.
Proof.
revert members. induction order as [|h order IH]; intros members Hnd Hmem; simpl.
{ split_and!; try done. exists []. split; [done|set_solver]. }
case_decide as Hh.
{ split_and!; try done. exists []. split; [done|set_solver]. }
apply NoDup_cons in Hnd as [Hh' Hnd].
specialize (IH (filter (λ p, p ≠ h) members) Hnd). 
destruct (pick_round_robin present order _) as [[picked order'] members'].
destruct IH as (H1 & H2 & (evicted & -> & H3) & H4).
{ intros q. rewrite list_elem_of_filter, Hmem, elem_of_cons. naive_solver. }
split_and!; try done. exists (h :: evicted). split; [done|]. intros q. rewrite elem_of_cons. naive_solver.
Qed.

Lemma reseed_spec present order members :
NoDup order → (∀ q, q ∈ members ↔ q ∈ order) →
let '(order', members') := reseed present order members in
NoDup order' ∧ (∀ q, q ∈ members' ↔ q ∈ order') ∧
∀ q, q ∈ order' ↔ q ∈ order ∨ q ∈ present.
Proof.
intros Hnd Hmem. unfold reseed.
assert (G : ∀ l om, NoDup om.1 → (∀ q, q ∈ om.2 ↔ q ∈ om.1) →
  let om' := foldl (λ om p, if decide (p ∈ om.2) then om else (om.1 ++ [p], om.2 ++ [p])) om l in
  NoDup om'.1 ∧ (∀ q, q ∈ om'.2 ↔ q ∈ om'.1) ∧ ∀ q, q ∈ om'.1 ↔ q ∈ om.1 ∨ q ∈ l).
{ induction l as [|x l IH]; intros [o mm] H1 H2; simpl in *; [set_solver|].
  case_decide as Hx.
  - destruct (IH (o, mm) H1 H2) as (A & B & C). split_and!; [done|done|]. intros q. rewrite C. simpl.
    rewrite elem_of_cons. rewrite H2 in Hx. naive_solver.
  - destruct (IH (o ++ [x], mm ++ [x])) as (A & B & C).
    + simpl. apply NoDup_app. split; [done|]. split; [set_solver|]. apply NoDup_singleton.
    + simpl. intros q. by rewrite !elem_of_app, H2.
    + split_and!; [done|done|]. intros q. rewrite C. simpl.
      rewrite elem_of_app, (elem_of_cons l q x). set_solver. }
specialize (G (sorted_by partition_key_lt partition_sort_key present) (order, members) Hnd Hmem).
destruct (foldl _ _ _) as [order' members']. destruct G as (A & B & C). simpl in *.
split_and!; [done|done|]. intros q. rewrite C, elem_of_sorted_by. done.
Qed.

Lemma pick_partition_spec present m :
mgr_inv m → present ≠ [] →
∃ q order members, pick_partition present m = (Some q, set_partitions order members m) ∧
  q ∈ present ∧ mgr_inv (set_partitions order members m) ∧ head order = Some q ∧
  ((∃ evicted, rr_partition_order m = evicted ++ order ∧ ∀ q, q ∈ evicted → q ∉ present) ∨
   (∀ q, q ∈ rr_partition_order m → q ∉ present) ∧ ∀ q, q ∈ order → q ∈ present).
Proof.
intros Hm Hne. unfold pick_partition.
pose proof (pick_round_robin_spec present _ _ (mi_order m Hm) (mi_members m Hm)) as Hp.
destruct (pick_round_robin present _ _) as [[picked order] members].
destruct Hp as (P1 & P2 & P3 & P4). destruct picked as [q|].
{ destruct P4 as [P4 P5]. exists q, order, members.
  split_and!; [done|done|by apply set_partitions_inv|done|by left]. }
pose proof (reseed_spec present order members P1 P2) as Hr.
destruct (reseed present order members) as [order1 members1]. destruct Hr as (R1 & R2 & R3).
pose proof (pick_round_robin_spec present order1 members1 R1 R2) as Hp2.
destruct (pick_round_robin present order1 members1) as [[picked order2] members2].
destruct Hp2 as (Q1 & Q2 & (evicted & E1 & E2) & Q4). subst order.
destruct picked as [q|].
- destruct Q4 as [Q4 Q5]. exists q, order2, members2.
  split_and!; [done|done|by apply set_partitions_inv|done|right]. split.
  + destruct P3 as (ev & -> & P3). intros q'. rewrite app_nil_r. apply P3.
  + intros q' Hq'. assert (q' ∈ order1) as Hq1 by (rewrite E1; set_solver).
    apply R3 in Hq1 as [Hq1|Hq1]; [set_solver|done].
- exfalso. subst order2. rewrite app_nil_r in E1. subst evicted.
  destruct present as [|q present]; [done|]. apply (E2 q); [|set_solver]. apply R3. set_solver.
Qed.

(** *** Starvation *)

Lemma fill_slots_spec n sel more :
NoDup sel → length sel ≤ n →
NoDup (fill_slots n sel more) ∧ length (fill_slots n sel more) ≤ n ∧
∃ extra, fill_slots n sel more = sel ++ extra ∧ extra ⊆ more.
Proof.
unfold fill_slots. revert sel. induction more as [|w more IH]; intros sel Hnd Hl; simpl.
{ split_and!; [done|done|]. exists []. rewrite app_nil_r. set_solver. }
case_decide as Hd.
- destruct Hd as [Hw Hlt]. destruct (IH (sel ++ [w])) as (H1 & H2 & extra & H3 & H4).
  + apply NoDup_app. split; [done|]. split; [set_solver|]. apply NoDup_singleton.
  + rewrite length_app. simpl. lia.
  + split_and!; [done|done|]. exists (w :: extra). rewrite H3, <-app_assoc. split; [done|set_solver].
- destruct (IH sel Hnd Hl) as (H1 & H2 & extra & H3 & H4). split_and!; [done|done|].
  exists extra. split; [done|set_solver].
Qed.

Lemma starved_first_spec c :
NoDup (ids c) → NoDup (starved_first cfg c) ∧ starved_first cfg c ⊆ ids c ∧
starved_first cfg c ≡ₚ ids (filter (λ i, is_starved cfg i = true) c).
Proof.
intros Hnd.
assert (Hp : starved_first cfg c ≡ₚ ids (filter (λ i, is_starved cfg i = true) c)).
{ unfold starved_first, ids. by rewrite sorted_by_perm. }
split_and!; [|intros w|done]; rewrite Hp; [by apply ids_filter_nodup|].
unfold ids. rewrite !list_elem_of_fmap. intros (i & -> & Hi). apply list_elem_of_filter in Hi as [_ Hi].
eauto.
Qed.

(** The starved candidates come first, oldest first, and fill the batch up
  to its size. *)
Lemma apply_starvation_spec c base b :
NoDup (ids c) → base ⊆ ids c → (1 <= b)%Z → filter (λ i, is_starved cfg i = true) c ≠ [] →
let r := apply_starvation_policy cfg c base b in
is_batch c b r ∧ take (length (starved_first cfg c)) r = take (Z.to_nat b) (starved_first cfg c).
Proof.
intros Hnd Hbase Hb Hne r.
destruct (starved_first_spec c Hnd) as (N1 & S1 & P1).
assert (Hsf : starved_first cfg c ≠ []).
{ intros E. rewrite E in P1. apply Permutation_nil_l in P1. unfold ids in P1.
  symmetry in P1. by apply fmap_nil_inv in P1. }
unfold r, apply_starvation_policy. destruct (filter _ c) as [|i0 l0]; [done|]. cbv zeta.
set (sf := starved_first cfg c) in *.
destruct (Z_of_nat_complete b) as [n ->]; [lia|]. rewrite Nat2Z.id.
assert (Hn : 1 ≤ n) by lia.
destruct (Nat.leb_spec n (length sf)) as [Hle|Hlt].
- split; [|rewrite take_take, Nat.min_r by lia; done]. split.
  + eapply sublist_NoDup; [exact N1|apply sublist_take].
  + intros w Hw. apply S1. eapply elem_of_sublist; [exact Hw|apply sublist_take].
  + rewrite length_take. lia.
  + destruct sf, n; simpl in *; try lia; done.
- destruct (fill_slots_spec n sf base N1 ltac:(lia)) as (F1 & F2 & ex & F3 & F4).
  assert (Hgood : ∀ l, NoDup l → length l ≤ n → (∃ extra, l = sf ++ extra ∧ extra ⊆ ids c) →
    is_batch c (Z.of_nat n) l ∧ take (length sf) l = take n sf).
  { intros l L1 L2 (extra & -> & L3). split.
    - split; [done|set_solver|lia|]. intros E. apply app_eq_nil in E as [E _]. done.
    - rewrite take_app_length. by rewrite take_ge by lia. }
  destruct (Nat.ltb_spec (length (fill_slots n sf base)) n).
  + destruct (fill_slots_spec n _ (ids c) F1 F2) as (G1 & G2 & ex2 & G3 & G4).
    apply Hgood; [done|done|]. exists (ex ++ ex2). rewrite G3, F3, app_assoc. split; [done|set_solver].
  + apply Hgood; [done|done|]. exists ex. split; [done|set_solver].
Qed.

Lemma affinity_around_sub c b :
NoDup (ids c) → affinity_around_starved cfg c b ⊆ ids c.
Proof.
intros Hnd. unfold affinity_around_starved, select_affinity_batch_ids.
assert (Hk : dkeys (dict_of (map (λ i, (WorkflowItem.workflow_id i, WorkflowItem.runtime_graph i)) c)) = ids c).
{ rewrite dict_of_nodup.
  - unfold dkeys, ids. by rewrite <-list_fmap_compose.
  - rewrite <-list_fmap_compose. done. }
rewrite Hk. edestruct select_affinity_spec as (_ & H2 & _); [|exact Hnd|exact H2].
destruct (Z.leb_spec b 0); lia.
Qed.
End facts.

(** ** Reservations *)

Section reservations.
Context {S : Type} `{PolicyLaws S}.
Context (cfg : ManagerConfig.t).
Context (meets : dict string val → option HardwareRequirements.t → bool).
Implicit Types (m : manager S) (p : PartitionKey).

Lemma select_ids_spec (s : S) c b l :
NoDup (ids c) → c ≠ [] → (1 <= b)%Z → select_ids cfg s c b = Ok l →
is_batch c b l ∧
take (length (starved_first cfg c)) l = take (Z.to_nat b) (starved_first cfg c).
Proof.
intros Hnd Hne Hb Hs. unfold select_ids in Hs.
destruct (filter (λ i, is_starved cfg i = true) c) as [|i0 l0] eqn:E.
- split; [by eapply select_batch_is_batch|]. unfold starved_first. rewrite E. simpl.
  by rewrite take_nil.
- injection Hs as <-. apply apply_starvation_spec; [done|by apply affinity_around_sub|done|].
  by rewrite E.
Qed.

Lemma item_map_get c i : NoDup (ids c) → i ∈ c → dget (WorkflowItem.workflow_id i) (item_map c) = Some i.
Proof.
intros Hnd Hi. unfold item_map.
assert (Hl : NoDup (map (λ i, (WorkflowItem.workflow_id i, i)) c).*1).
{ rewrite <-list_fmap_compose. done. }
rewrite dict_of_nodup by done. apply elem_dget; [done|]. apply list_elem_of_fmap. eauto.
Qed.

Lemma select_items_spec c l sel :
NoDup (ids c) → l ⊆ ids c → mapR (λ w, dindex (KeyError w) w (item_map c)) l = Ok sel →
ids sel = l ∧ sel ⊆ c.
Proof.
intros Hnd Hsub Hm. apply mapR_ok_inv in Hm. revert Hsub.
induction Hm as [|w i l sel Hw Hm IH]; intros Hsub; [split; [done|set_solver]|].
assert (w ∈ ids c) as Hwc by set_solver. apply list_elem_of_fmap in Hwc as (j & -> & Hj).
unfold dindex in Hw. rewrite item_map_get in Hw by done. injection Hw as <-.
destruct IH as [IH1 IH2]; [set_solver|]. split; [unfold ids in *; csimpl; by rewrite IH1|set_solver].
Qed.

Lemma select_items_total c l :
NoDup (ids c) → l ⊆ ids c → ∃ sel, mapR (λ w, dindex (KeyError w) w (item_map c)) l = Ok sel.
Proof.
intros Hnd Hsub. apply mapR_ok_total, Forall_forall. intros w Hw.
apply Hsub, list_elem_of_fmap in Hw as (j & -> & Hj). exists j. unfold dindex.
by rewrite item_map_get.
Qed.

(** What a reservation on the state [m] holds, for its anchor partition and
  its candidate pool. *)
Record reservation_ok m (capacity : option FreeCapacity.t) (b : Z) (r : BatchReservation.t)
  (anchor : PartitionKey) (candidates : list WorkflowItem.t) : Prop := {
ro_eligible : anchor ∈ eligible_partitions cfg meets capacity m;
ro_sub : candidates ⊆+ all_items m;
ro_partition i : i ∈ candidates → partition_of cfg i = anchor;
ro_workflows : BatchSelection.workflows (BatchReservation.selection r) ⊆ candidates;
ro_ids : ids (BatchSelection.workflows (BatchReservation.selection r)) =
         ReservationPayload.selected_workflow_ids (BatchReservation.payload r);
ro_batch : is_batch candidates b
             (ReservationPayload.selected_workflow_ids (BatchReservation.payload r));
ro_starved : take (length (starved_first cfg candidates))
               (ReservationPayload.selected_workflow_ids (BatchReservation.payload r)) =
             take (Z.to_nat b) (starved_first cfg candidates);
ro_misses : ReservationPayload.miss_increment_targets (BatchReservation.payload r) =
  ids (filter (λ i, WorkflowItem.workflow_id i ∉
         ReservationPayload.selected_workflow_ids (BatchReservation.payload r)) candidates);
ro_pool : ∃ adv, build_candidate_pool_for_partition cfg anchor m = (m, (candidates, adv)) ∧
  ReservationPayload.user_rr_priorities_to_advance (BatchReservation.payload r) = adv;
ro_head : match starved_global cfg meets capacity m with
          | i :: _ => anchor = partition_of cfg i
          | [] => ReservationPayload.rr_partition_to_advance (BatchReservation.payload r) = Some anchor
          end;
}.

Lemma build_reservation_spec h c l rrp adv :
NoDup (ids c) → l ⊆ ids c → l ≠ [] →
∃ r, build_reservation h c l rrp adv = Ok r ∧ BatchReservation.handle r = h ∧
  BatchSelection.workflows (BatchReservation.selection r) ⊆ c ∧
  ids (BatchSelection.workflows (BatchReservation.selection r)) = l ∧
  BatchReservation.payload r = ReservationPayload.mk l
    (ids (filter (λ i, WorkflowItem.workflow_id i ∉ l) c)) rrp adv.
Proof.
intros Hnd Hsub Hne. destruct (select_items_total c l Hnd Hsub) as [sel Hsel].
destruct (select_items_spec c l sel Hnd Hsub Hsel) as [Hids Hin].
unfold build_reservation. rewrite Hsel. simpl.
destruct sel as [|i sel]; [by destruct Hne; rewrite <-Hids|]. eexists. by split_and!.
Qed.

Lemma eligible_present capacity m p :
p ∈ eligible_partitions cfg meets capacity m → ∃ i, i ∈ all_items m ∧ partition_of cfg i = p.
Proof.
intros Hp. assert (p ∈ remaining_partitions cfg m) as Hr.
{ unfold eligible_partitions in Hp. destruct capacity as [c|].
  - apply list_elem_of_filter in Hp as [_ Hp]. by rewrite elem_of_remove_dups in Hp.
  - by rewrite elem_of_remove_dups in Hp. }
apply list_elem_of_fmap in Hr as (i & -> & Hi). eauto.
Qed.

(** From the anchor on, with the state that [choose_anchor] leaves. *)
Lemma reserve_from_anchor_spec b capacity anchor rrp m :
mgr_inv m → (1 <= b)%Z → active_reservation m = None →
anchor ∈ eligible_partitions cfg meets capacity m →
let '(m', out) := reserve_from_anchor cfg meets b capacity anchor rrp m in
mgr_inv m' ∧ queues m' = queues m ∧ rr_user_order m' = rr_user_order m ∧ items m' = items m ∧
rr_partition_order m' = rr_partition_order m ∧ rr_partition_members m' = rr_partition_members m ∧
match out with
| Ok (Some r) => active_reservation m' = Some r ∧ BatchReservation.handle r = next_handle m ∧
    ReservationPayload.rr_partition_to_advance (BatchReservation.payload r) = rrp ∧
    ∃ c adv, build_candidate_pool_for_partition cfg anchor m = (m, (c, adv)) ∧
      c ⊆+ all_items m ∧ (∀ i, i ∈ c → partition_of cfg i = anchor) ∧
      BatchSelection.workflows (BatchReservation.selection r) ⊆ c ∧
      (∃ l, ids (BatchSelection.workflows (BatchReservation.selection r)) = l ∧
         BatchReservation.payload r = ReservationPayload.mk l
           (ids (filter (λ i, WorkflowItem.workflow_id i ∉ l) c)) rrp adv ∧
         is_batch c b l ∧
         take (length (starved_first cfg c)) l = take (Z.to_nat b) (starved_first cfg c))
| Ok None | Err _ => active_reservation m' = None
end.
Proof.
intros Hm Hb Hact Hanchor.
destruct (eligible_present _ _ _ Hanchor) as (i0 & _ & Hi0).
destruct (pool_spec cfg anchor m Hm) as (c & adv & Hpool & Hsub & Hmatch).
assert (Hpart : ∀ i, i ∈ c → partition_of cfg i = anchor).
{ intros i Hi. apply matches_spec; [|by apply Hmatch]. rewrite <-Hi0. apply partition_of_shaped. }
assert (Hnd : NoDup (ids c)) by (eapply NoDup_submseteq_ids; [exact Hsub|apply Hm]).
unfold reserve_from_anchor. rewrite Hpool.
destruct c as [|i c0] eqn:Ec; [split_and!; try done; by apply set_not_empty_inv|]. rewrite <-Ec in *.
assert (Hne : c ≠ []) by by rewrite Ec.
set (m1 := set_policy _ m).
destruct (select_ids cfg (policy_impl m1) c b) as [l|e] eqn:El; simpl.
2:{ split_and!; try done. by apply set_policy_inv. }
destruct (select_ids_spec _ c b l Hnd Hne Hb El) as [Hbatch Hstarved].
destruct (build_reservation_spec (next_handle m) c l rrp adv Hnd) as (r & -> & R1 & R2 & R3 & R4);
  [apply Hbatch|apply Hbatch|].
split_and!; try done.
- apply set_active_inv; [intros r' [= <-]; lia|by apply set_policy_inv].
- by rewrite R4.
- exists c, adv. split_and!; try done. by exists l.
Qed.

(** The pool depends on the queues and the user order only. *)
Lemma peek_ext pr limit p m1 m2 :
queues m1 = queues m2 → rr_user_order m1 = rr_user_order m2 →
(peek_round_robin_for_partition cfg pr limit p m1).2 =
(peek_round_robin_for_partition cfg pr limit p m2).2.
Proof.
intros Hq Hr. unfold peek_round_robin_for_partition. destruct (limit <=? 0)%Z; [done|].
unfold prune_empty_user_queues. simpl. rewrite Hq, Hr, !pget_pset_eq.
destruct (prune_queues _); [done|]. destruct (prune_users _ _); [done|].
by destruct (user_matches _ _ _ _).*2.
Qed.

Lemma pool_ext p m1 m2 :
mgr_inv m1 → mgr_inv m2 → queues m1 = queues m2 → rr_user_order m1 = rr_user_order m2 →
(build_candidate_pool_for_partition cfg p m1).2 = (build_candidate_pool_for_partition cfg p m2).2.
Proof.
intros I1 I2 Hq Hr. unfold build_candidate_pool_for_partition.
assert (G : ∀ l st, (foldl (pool_step cfg p) (m1, st) l).2 = (foldl (pool_step cfg p) (m2, st) l).2);
  [|apply G].
induction l as [|pr l IH]; intros [c adv]; [done|]. cbn [foldl].
assert (Hstep : ∃ st, pool_step cfg p (m1, (c, adv)) pr = (m1, st) ∧
                      pool_step cfg p (m2, (c, adv)) pr = (m2, st)).
{ unfold pool_step. destruct (_ =? 0)%Z; [by eexists|].
  destruct (peek_spec cfg pr (Z.max 0 (pget (ManagerConfig.quantums cfg) pr)) p m1 I1)
    as (k1 & a1 & E1 & _).
  destruct (peek_spec cfg pr (Z.max 0 (pget (ManagerConfig.quantums cfg) pr)) p m2 I2)
    as (k2 & a2 & E2 & _).
  pose proof (peek_ext pr (Z.max 0 (pget (ManagerConfig.quantums cfg) pr)) p m1 m2 Hq Hr) as E.
  rewrite E1, E2 in E |- *. simpl in E. injection E as -> ->. by eexists. }
destruct Hstep as (st & -> & ->). apply IH.
Qed.

(** The batch size as [reserve_batch] reads it. *)
Definition effective_size (batch_size : Z) : Z := if (batch_size <=? 0)%Z then 1%Z else batch_size.

Lemma effective_size_pos b : (1 <= effective_size b)%Z.
Proof. unfold effective_size. destruct (Z.leb_spec b 0); lia. Qed.

Lemma head_ne {A} (x : A) l : x :: l ≠ [].
Proof. done. Qed.

(** What the anchor choice leaves of the state. *)
Lemma choose_anchor_spec capacity m :
mgr_inv m → eligible_partitions cfg meets capacity m ≠ [] →
∃ anchor rrp order members,
  choose_anchor cfg meets capacity (eligible_partitions cfg meets capacity m) m =
    (Some (anchor, rrp), set_partitions order members m) ∧
  mgr_inv (set_partitions order members m) ∧
  anchor ∈ eligible_partitions cfg meets capacity m ∧
  match starved_global cfg meets capacity m with
  | i :: _ => anchor = partition_of cfg i ∧ rrp = None
  | [] => rrp = Some anchor ∧ head order = Some anchor
  end.
Proof.
intros Hm Hne. unfold choose_anchor.
destruct (starved_global cfg meets capacity m) as [|i l] eqn:E.
- destruct (pick_partition_spec _ m Hm Hne) as (q & order & members & -> & Q1 & Q2 & Q3 & _).
  exists q, (Some q), order, members. by split_and!.
- exists (partition_of cfg i), None, (rr_partition_order m), (rr_partition_members m).
  assert (set_partitions (rr_partition_order m) (rr_partition_members m) m = m) as -> by by destruct m.
  split_and!; try done.
  assert (i ∈ starved_global cfg meets capacity m) as Hi by (rewrite E; set_solver).
  by apply list_elem_of_filter in Hi as [[_ ?] _].
Qed.

Lemma reserve_batch_spec batch_size capacity m :
mgr_inv m →
let '(m', out) := reserve_batch cfg meets batch_size capacity m in
mgr_inv m' ∧ queues m' = queues m ∧ rr_user_order m' = rr_user_order m ∧ items m' = items m ∧
match out with
| Ok (Some r) => active_reservation m = None ∧ active_reservation m' = Some r ∧
    ∃ anchor c, reservation_ok m capacity (effective_size batch_size) r anchor c
| Ok None | Err _ => active_reservation m' = active_reservation m
end.
Proof.
intros Hm. unfold reserve_batch. fold (effective_size batch_size).
destruct (active_reservation m) as [a|] eqn:Ea; [by split_and!|].
destruct (eligible_partitions cfg meets capacity m) as [|p0 ps] eqn:Ep.
{ split_and!; try done. by apply set_not_empty_inv. }
rewrite <-Ep.
destruct (choose_anchor_spec capacity m Hm) as (anchor & rrp & order & members & -> & Hm2 & Hin & Hstarved).
{ rewrite Ep. apply head_ne. }
pose proof (reserve_from_anchor_spec (effective_size batch_size) capacity anchor rrp
  (set_partitions order members m) Hm2 (effective_size_pos _) Ea Hin) as Hs.
destruct (reserve_from_anchor _ _ _ _ _ _ _) as [m' out].
destruct Hs as (S1 & S2 & S3 & S4 & S5 & S6 & S7).
split_and!; try done. destruct out as [[r|]|e]; [|done|done].
destruct S7 as (T1 & T2 & T3 & c & adv & T4 & T5 & T6 & T7 & l & T8 & T9 & T10 & T11).
split_and!; [done|done|]. exists anchor, c.
split; rewrite ?T9; simpl; try done.
- destruct (pool_spec cfg anchor m Hm) as (c' & adv' & Hp' & _).
  pose proof (pool_ext anchor (set_partitions order members m) m Hm2 Hm eq_refl eq_refl) as He.
  rewrite T4, Hp' in He. simpl in He. injection He as <- <-. by exists adv.
- destruct (starved_global cfg meets capacity m); [|by destruct Hstarved].
  rewrite T9 in T3. simpl in T3. destruct Hstarved as [Hs _]. by rewrite Hs.
Qed.
End reservations.
