(* ===== verification/PriorityQueueProps.v ===== *)
(** * Properties of the job manager

    The manager as a transition system (one step per method call) and the
    properties its callers rely on, for every scheduling policy that satisfies
    the interface's laws; and the dwell tables, by which work that no worker can
    run is failed. *)

From Stdlib Require Import Ascii.
From S2P Require Import Prelude PyFloat PyDict PyValue PyString Protocol RuntimeGraph DslGraph Capacity JobBase Clustering Policies PriorityQueue PriorityQueueFacts.

(** ** The manager as a transition system *)

Section system.
Context {S : Type} `{PolicyLaws S}.
Context (cfg : ManagerConfig.t).
Context (meets : dict string val → option HardwareRequirements.t → bool).
Implicit Types (m : manager S).

(** [unique_id()] draws ids that no queued or indexed workflow has. *)
Definition fresh_ids (fresh : nat → string) m : Prop :=
(∀ a b, fresh a = fresh b → a = b) ∧ ∀ k, fresh k ∉ ids (all_items m).

(** A reservation handle is the object [reserve_batch] returned. *)
Definition same_object m (r : BatchReservation.t) : Prop :=
is_active m r = true → active_reservation m = Some r.

Inductive mgr_step : manager S → manager S → Prop :=
| step_enqueue m job now fresh m' out :
    fresh_ids fresh m → enqueue cfg job now fresh m = (m', out) → mgr_step m m'
| step_reserve m b capacity m' out :
    reserve_batch cfg meets b capacity m = (m', out) → mgr_step m m'
| step_commit m r m' out :
    same_object m r → commit_reservation cfg r m = (m', out) → mgr_step m m'
| step_abort m r reason m' out :
    abort_reservation r reason m = (m', out) → mgr_step m m'
| step_finalize m l : mgr_step m (finalize_workflows l m)
| step_remove m l : mgr_step m (remove_workflows cfg l m)
| step_unsatisfiable m total now m' out :
    permanently_unsatisfiable cfg meets total now m = (m', out) → mgr_step m m'.

Inductive reachable (s : S) : manager S → Prop :=
| reach_init : reachable s (init_manager s)
| reach_step m m' : reachable s m → mgr_step m m' → reachable s m'.

(** The miss-count targets of the outstanding reservation are distinct. *)
Definition active_ok m : Prop :=
∀ r, active_reservation m = Some r →
  NoDup (ReservationPayload.miss_increment_targets (BatchReservation.payload r)).

Lemma make_item_spec job now w ng i :
make_item job now w ng = Ok i →
WorkflowItem.workflow_id i = w ∧ WorkflowItem.config i = Job.config job ∧
WorkflowItem.miss_count i = 0%Z ∧ WorkflowItem.enqueued_at i = now ∧
WorkflowItem.runtime_graph i = ng.2 ∧ WorkflowItem.dispatch_token i = Job.dispatch_token job ∧
WorkflowItem.api_credential_digest i = Job.api_credential_digest job.
Proof. destruct ng. unfold make_item. intros Hi. inv_ok. done. Qed.

Lemma make_items_ids job now fresh l its :
mapR (λ kg : nat * (string * RuntimeGraph.t), make_item job now (fresh kg.1) kg.2) l = Ok its →
ids its = (λ kg, fresh kg.1) <$> l.
Proof.
intros Hm%mapR_ok_inv. induction Hm as [|kg i l its Hi Hm IH]; [done|].
unfold ids in *. csimpl. rewrite IH. f_equal. by apply make_item_spec in Hi as [-> _].
Qed.

Lemma imap_pair_fst {A} (f : nat → string) (l : list A) :
(λ kg, f kg.1) <$> imap pair l = f <$> seq 0 (length l).
Proof.
apply list_eq. intros k. rewrite !list_lookup_fmap, list_lookup_imap.
destruct (l !! k) eqn:E; simpl.
- apply lookup_lt_Some in E. by rewrite lookup_seq_lt.
- apply lookup_ge_None in E. by rewrite lookup_seq_ge.
Qed.

Lemma enqueue_items_inv its m :
mgr_inv m → NoDup (ids its) → (∀ w, w ∈ ids its → w ∉ ids (all_items m)) →
mgr_inv (foldl (enqueue_item cfg) m its) ∧
all_items (foldl (enqueue_item cfg) m its) ≡ₚ its ++ all_items m.
Proof.
revert m. induction its as [|i its IH]; intros m Hm Hnd Hfresh; [done|]. cbn [foldl].
unfold ids in Hnd. csimpl in Hnd. apply NoDup_cons in Hnd as [Hi Hnd].
assert (I1 : mgr_inv (enqueue_item cfg m i)).
{ apply enqueue_item_inv; [done|]. apply Hfresh. unfold ids. csimpl. set_solver. }
pose proof (enqueue_item_items cfg m i) as P1.
destruct (IH _ I1 Hnd) as [I2 P2].
{ intros w Hw. unfold ids. rewrite P1. csimpl. rewrite elem_of_cons. intros [->|Hw'].
  - done.
  - apply (Hfresh w); [unfold ids; csimpl; set_solver|done]. }
split; [done|]. rewrite P2, P1. simpl. by rewrite <-Permutation_middle.
Qed.

Lemma enqueue_active its m :
active_reservation (foldl (enqueue_item cfg) m its) = active_reservation m.
Proof.
revert m. induction its as [|i its IH]; intros m; [done|]. cbn [foldl]. rewrite IH.
unfold enqueue_item. by case_decide.
Qed.

Lemma enqueue_spec job now fresh m m' out :
mgr_inv m → fresh_ids fresh m → enqueue cfg job now fresh m = (m', out) →
mgr_inv m' ∧ active_reservation m' = active_reservation m ∧
match out with
| Ok its => all_items m' ≡ₚ its ++ all_items m ∧
    ids its = fresh <$> seq 0 (length (Job.runtime_graphs job)) ∧ not_empty m' = true ∧
    ∀ i, i ∈ its → WorkflowItem.config i = Job.config job ∧ WorkflowItem.miss_count i = 0%Z
| Err _ => m' = m
end.
Proof.
intros Hm [Hinj Hfresh] He. unfold enqueue in He.
destruct (mapR _ _) as [its|e] eqn:Em; injection He as <- <-; [|done].
assert (Hids : ids its = fresh <$> seq 0 (length (Job.runtime_graphs job))).
{ by rewrite (make_items_ids _ _ _ _ _ Em), imap_pair_fst. }
destruct (enqueue_items_inv its m Hm) as [I P].
{ rewrite Hids. apply NoDup_fmap_2; [intros a b; apply Hinj|apply NoDup_seq]. }
{ intros w. rewrite Hids. intros (k & -> & _)%list_elem_of_fmap. apply Hfresh. }
split_and!; [by apply set_not_empty_inv|apply enqueue_active|exact P|done|done|].
apply mapR_ok_inv in Em. intros i Hi. clear -Em Hi.
induction Em as [|kg j l its Hj Em IH]; [set_solver|]. apply elem_of_cons in Hi as [->|Hi]; [|by apply IH].
apply make_item_spec in Hj. naive_solver.
Qed.

Lemma reservation_targets m capacity b r anchor c :
mgr_inv m → reservation_ok cfg meets m capacity b r anchor c →
NoDup (ReservationPayload.miss_increment_targets (BatchReservation.payload r)).
Proof.
intros Hm Hr. rewrite (ro_misses _ _ _ _ _ _ _ _ Hr). apply ids_filter_nodup.
eapply NoDup_submseteq_ids; [apply Hr|apply Hm].
Qed.

Lemma commit_active r m m' out :
commit_reservation cfg r m = (m', out) →
active_reservation m' = None ∨ active_reservation m' = active_reservation m.
Proof.
intros Hc. destruct out as [e|].
- right. by apply commit_raises in Hc as (_ & _ & _ & _ & _ & ? & _).
- unfold commit_reservation in Hc. destruct (negb _); [done|].
  destruct (on_commit _ _) as [pol [e|]]; [done|]. injection Hc as <-. by left.
Qed.

(** A commit of a handle that is not the active one changes nothing. *)
Lemma commit_foreign r m : is_active m r = false →
commit_reservation cfg r m =
  (m, Some (RuntimeError "commit_reservation: reservation is not the active one")).
Proof. unfold commit_reservation. by intros ->. Qed.

Lemma commit_step_inv r m m' out :
mgr_inv m → active_ok m → same_object m r → commit_reservation cfg r m = (m', out) →
mgr_inv m' ∧ active_ok m'.
Proof.
intros Hm Ha Hsame Hc. destruct (is_active m r) eqn:E.
- split.
  + eapply commit_inv; [done| |exact Hc]. by apply Ha, Hsame.
  + intros r' Hr'. destruct (commit_active _ _ _ _ Hc) as [Hn|Hn]; [by rewrite Hn in Hr'|].
    apply Ha. by rewrite <-Hn.
- rewrite commit_foreign in Hc by done. by injection Hc as <- <-.
Qed.

Lemma mgr_step_inv m m' : mgr_step m m' → mgr_inv m → active_ok m → mgr_inv m' ∧ active_ok m'.
Proof.
intros Hstep Hm Ha. destruct Hstep.
- edestruct enqueue_spec as (I & E & _); [exact Hm|done..|]. split; [done|]. intros r. rewrite E. apply Ha.
- pose proof (reserve_batch_spec cfg meets b capacity m Hm) as Hs. rewrite H1 in Hs.
  destruct Hs as (I & _ & _ & _ & Hs). split; [done|]. intros r Hr. destruct out as [[r'|]|e].
  + destruct Hs as (_ & Hs & anchor & c & Hok). rewrite Hs in Hr. injection Hr as <-.
    eapply reservation_targets; [exact Hm|exact Hok].
  + apply Ha. by rewrite <-Hs.
  + apply Ha. by rewrite <-Hs.
- by eapply commit_step_inv.
- split; [by eapply abort_inv|]. intros r' Hr'. unfold abort_reservation in *.
  destruct (negb _); simplify_eq; first [done|by apply Ha].
- split; [by apply finalize_workflows_inv|done].
- split; [by apply remove_workflows_inv|]. intros r. unfold remove_workflows.
  destruct l as [|w l]; [apply Ha|]. unfold clear_if_empty.
  assert (E : active_reservation (drop_stale_partitions cfg (finalize_workflows (w :: l)
    (drop_workflows (λ w0, bool_decide (w0 ∈ w :: l)) m))) = active_reservation m).
  { rewrite drop_workflows_eq by apply Hm. done. }
  case_match; simpl; simpl in E; rewrite ?E; apply Ha.
- unfold permanently_unsatisfiable in *. case_match. case_match. simplify_eq.
  split; [by apply set_dwell_inv|done].
Qed.

Lemma reachable_inv s m : reachable s m → mgr_inv m ∧ active_ok m.
Proof.
induction 1 as [|m m' _ [Hm Ha] Hstep]; [split; [apply init_inv|done]|]. by eapply mgr_step_inv.
Qed.
End system.

(** ** A small manager for the examples *)

Module Sample.
#[global] Instance policy : SchedulingPolicy simple_policy := simple_scheduling_policy sample_estimate.
#[global] Instance policy_laws : PolicyLaws simple_policy := simple_policy_laws sample_estimate.

Definition cfg : ManagerConfig.t :=
ManagerConfig.init (PerPrio 4 4 4)%Z 3 "halo" 1 1 2 (of_Z 5) true.
Definition meets (_ : dict string val) (_ : option HardwareRequirements.t) : bool := true.

Definition meta : WorkflowSliceMeta.t := WorkflowSliceMeta.mk "g" 0 0 1 1 "t" [].
Definition dsl : CompiledGraph.t := CompiledGraph.mk (Graph.mk [] [] []) [].
Definition job (request user : string) (gpu : bool) (names : list string) : Job.t :=
Job.mk request (map (λ n, (n, sample_graph n "m-7b")) names)
  (map (λ n, (n, sample_graph n "m-7b")) names) (map (λ n, (n, dsl)) names)
  (map (λ n, (n, meta)) names) (sample_config user None) None None
  (map (λ n, (n, gpu)) names).

Definition fresh (pre : string) (k : nat) : string := pre +:+ of_chars (replicate k "x"%char).

Definition empty : manager simple_policy := init_manager PFifo.
Definition m1 := (enqueue cfg (job "r1" "ann" false ["a"; "b"]) (of_Z 1) (fresh "p") empty).1.
Definition m2 := (enqueue cfg (job "r2" "bob" false ["c"]) (of_Z 2) (fresh "q") m1).1.
Definition m3 := (reserve_batch cfg meets 2 None m2).1.
Definition no_reservation : BatchReservation.t :=
BatchReservation.mk 0 (BatchSelection.mk [] [] [] (sample_config "" None))
  (ReservationPayload.mk [] [] None []).
Definition r3 : BatchReservation.t := default no_reservation (active_reservation m3).
Definition batch3 : list WorkflowItem.t := BatchSelection.workflows (BatchReservation.selection r3).
Definition m4 := (commit_reservation cfg r3 m3).1.

Lemma reserve_m2 : reserve_batch cfg meets 2 None m2 = (m3, Ok (Some r3)).
Proof. vm_compute. reflexivity. Qed.

Lemma batch3_ids : ids batch3 = ["p"; "px"].
Proof. vm_compute. reflexivity. Qed.

Lemma commit_m3 : commit_reservation cfg r3 m3 = (m4, None).
Proof. vm_compute. reflexivity. Qed.

Lemma fresh_inj pre a b : fresh pre a = fresh pre b → a = b.
Proof.
unfold fresh. intros Hf. apply (f_equal chars) in Hf. unfold chars in Hf.
assert (Happ : ∀ s t, String.list_ascii_of_string (s +:+ t) =
  String.list_ascii_of_string s ++ String.list_ascii_of_string t).
{ induction s as [|c s IH]; intros t; [done|]. simpl. f_equal. apply IH. }
rewrite !Happ in Hf. apply app_inv_head in Hf.
change String.list_ascii_of_string with chars in Hf. rewrite !chars_of_chars in Hf.
apply (f_equal length) in Hf. by rewrite !length_replicate in Hf.
Qed.

Lemma fresh_head c s k : ∃ t, fresh (String c s) k = String c t.
Proof. by eexists. Qed.

Lemma m1_reach : reachable cfg meets PFifo m1.
Proof.
eapply reach_step; [apply reach_init|].
eapply (step_enqueue _ _ _ (job "r1" "ann" false ["a"; "b"]) (of_Z 1) (fresh "p"));
  [|unfold m1; apply surjective_pairing].
split; [apply fresh_inj|]. intros k. set_solver.
Qed.

Lemma m2_reach : reachable cfg meets PFifo m2.
Proof.
eapply reach_step; [apply m1_reach|].
eapply (step_enqueue _ _ _ (job "r2" "bob" false ["c"]) (of_Z 2) (fresh "q"));
  [|unfold m2; apply surjective_pairing].
split; [apply fresh_inj|]. intros k.
assert (Hids : ids (all_items m1) = ["p"; "px"]) by by vm_compute.
rewrite Hids. destruct (fresh_head "q" "" k) as [t ->].
rewrite !elem_of_cons. intros [?|[?|?]]; [done|done|set_solver].
Qed.

Lemma m3_reach : reachable cfg meets PFifo m3.
Proof.
eapply reach_step; [apply m2_reach|].
eapply (step_reserve _ _ _ 2 None); unfold m3; apply surjective_pairing.
Qed.
End Sample.

(** ** The properties *)

(** C24: every state the manager can reach is well formed: queued ids are
    unique, no empty queue is kept, each priority's round-robin order lists
    exactly the users with queued work, every item sits in the queue of its
    own priority and user, and the partition deque and its mirror set agree. *)
Theorem manager_invariant {S} `{PolicyLaws S} cfg meets (s : S) (m : manager S) :
  reachable cfg meets s m →
  NoDup (ids (all_items m)) ∧
  (∀ pr u l, (u, l) ∈ pget (queues m) pr → l ≠ [] ∧
     ∀ i, i ∈ l → WorkflowItem.priority i = pr ∧ WorkflowItem.user_id i = u) ∧
  (∀ pr, NoDup (pget (rr_user_order m) pr) ∧
     ∀ u, u ∈ pget (rr_user_order m) pr ↔ u ∈ dkeys (pget (queues m) pr)) ∧
  NoDup (rr_partition_order m) ∧
  (∀ p, p ∈ rr_partition_members m ↔ p ∈ rr_partition_order m).
Proof.
  intros Hr. apply reachable_inv in Hr as [[H1 H2 H3 H4 H5 H6] _].
  split_and!; [done| |intros pr; split; apply (H1 pr)|done|done].
  intros pr u l Hin. split; [by eapply (pq_nonempty _ _ _ (H1 pr))|].
  intros i Hi. by eapply (pq_home _ _ _ (H1 pr)).
Qed.

Lemma manager_invariant_witness : NoDup (ids (all_items Sample.m3)).
Proof. exact (proj1 (manager_invariant Sample.cfg Sample.meets PFifo Sample.m3 Sample.m3_reach)). Defined.

(** C37: a batch never spans partitions: all its workflows have the same
    principal, dispatch token, API credential, effective optimizer and
    hardware signature, and under capacity-aware selection the same GPU
    class. *)
Theorem batch_is_partition_pure {S} `{PolicyLaws S} cfg meets (s : S) (m m' : manager S) b capacity r i j :
  reachable cfg meets s m → reserve_batch cfg meets b capacity m = (m', Ok (Some r)) →
  i ∈ BatchSelection.workflows (BatchReservation.selection r) →
  j ∈ BatchSelection.workflows (BatchReservation.selection r) →
  WorkflowItem.principal_id i = WorkflowItem.principal_id j ∧
  WorkflowItem.dispatch_token i = WorkflowItem.dispatch_token j ∧
  WorkflowItem.api_credential_digest i = WorkflowItem.api_credential_digest j ∧
  optimizer_of cfg i = optimizer_of cfg j ∧ item_hardware i = item_hardware j ∧
  (ManagerConfig.capacity_aware_selection cfg = true →
     WorkflowItem.requires_gpu i = WorkflowItem.requires_gpu j).
Proof.
  intros Hr Hres Hi Hj. apply reachable_inv in Hr as [Hm _].
  pose proof (reserve_batch_spec cfg meets b capacity m Hm) as Hs. rewrite Hres in Hs.
  destruct Hs as (_ & _ & _ & _ & _ & _ & anchor & c & Hok).
  assert (Hp : partition_of cfg i = partition_of cfg j).
  { rewrite (ro_partition _ _ _ _ _ _ _ _ Hok i), (ro_partition _ _ _ _ _ _ _ _ Hok j); [done| |];
      by apply (ro_workflows _ _ _ _ _ _ _ _ Hok). }
  unfold partition_of in Hp. injection Hp as -> -> -> -> Hh Hg.
  split_and!; [done|done|done|done|exact Hh|]. intros E. rewrite E in Hg. by injection Hg.
Qed.

Lemma batch_is_partition_pure_witness :
  length Sample.batch3 = 2 ∧ Forall (λ i, Forall (λ j,
    WorkflowItem.principal_id i = WorkflowItem.principal_id j) Sample.batch3) Sample.batch3.
Proof.
  split; [vm_compute; reflexivity|].
  apply Forall_forall. intros i Hi. apply Forall_forall. intros j Hj.
  exact (proj1 (batch_is_partition_pure Sample.cfg Sample.meets PFifo Sample.m2 Sample.m3 2 None Sample.r3
    i j Sample.m2_reach Sample.reserve_m2 Hi Hj)).
Defined.

(** A reservation is a batch of queued workflows, without repetition, not
    empty and within the batch size, and computing it changes no queue, no
    user order and no item; aborting it releases the slot and leaves the
    queues as they were. *)
Theorem reserve_then_abort {S} `{PolicyLaws S} cfg meets (s : S) (m m1 m2 : manager S) b capacity r reason e :
  reachable cfg meets s m → reserve_batch cfg meets b capacity m = (m1, Ok (Some r)) →
  abort_reservation r reason m1 = (m2, e) →
  (let batch := BatchSelection.workflows (BatchReservation.selection r) in
   batch ⊆ all_items m ∧ NoDup (ids batch) ∧ batch ≠ [] ∧
   (Z.of_nat (length batch) <= if (b <=? 0)%Z then 1 else b)%Z) ∧
  e = None ∧ active_reservation m2 = None ∧
  queues m2 = queues m ∧ rr_user_order m2 = rr_user_order m ∧ items m2 = items m.
Proof.
  intros Hr Hres Hab. apply reachable_inv in Hr as [Hm _].
  pose proof (reserve_batch_spec cfg meets b capacity m Hm) as Hs. rewrite Hres in Hs.
  destruct Hs as (_ & Hq & Hu & Hi & _ & Hact & anchor & c & Hok).
  unfold abort_reservation, is_active in Hab. rewrite Hact, Nat.eqb_refl in Hab. injection Hab as <- <-.
  split; [|by split_and!].
  pose proof (ro_ids _ _ _ _ _ _ _ _ Hok) as Hids. pose proof (ro_batch _ _ _ _ _ _ _ _ Hok) as Hb.
  rewrite <-Hids in Hb. destruct Hb as [B1 B2 B3 B4]. unfold ids in B3. rewrite length_fmap in B3.
  split_and!; [|done| |exact B3].
  - intros i Hin. eapply elem_of_submseteq; [|apply Hok]. by apply (ro_workflows _ _ _ _ _ _ _ _ Hok).
  - intros E. rewrite E in B4. done.
Qed.

Lemma reserve_then_abort_witness :
  queues (abort_reservation Sample.r3 CAPACITY Sample.m3).1 = queues Sample.m2.
Proof.
  assert (Hab : abort_reservation Sample.r3 CAPACITY Sample.m3 =
    ((abort_reservation Sample.r3 CAPACITY Sample.m3).1, (abort_reservation Sample.r3 CAPACITY Sample.m3).2))
    by apply surjective_pairing.
  destruct (reserve_then_abort Sample.cfg Sample.meets PFifo Sample.m2 Sample.m3 _ 2 None Sample.r3 CAPACITY _
    Sample.m2_reach Sample.reserve_m2 Hab) as (_ & _ & _ & Hq & _).
  exact Hq.
Defined.

(** A commit removes exactly the batch and loses nothing: the queues keep
    every other workflow in its place, those of the candidate pool that were
    passed over (and are still indexed) with one miss more and the others
    unchanged, and the slot is free again. *)
Theorem commit_removes_the_batch {S} `{PolicyLaws S} cfg meets (s : S) (m m' : manager S) r :
  reachable cfg meets s m → active_reservation m = Some r → commit_reservation cfg r m = (m', None) →
  let payload := BatchReservation.payload r in
  active_reservation m' = None ∧
  all_items m' =
    filter (λ i, WorkflowItem.workflow_id i ∉ ReservationPayload.selected_workflow_ids payload)
      (map (λ i, if decide (WorkflowItem.workflow_id i ∈ ReservationPayload.miss_increment_targets payload ∧
                           dmem (WorkflowItem.workflow_id i) (items m) = true)
                 then WorkflowItem.bump i else i) (all_items m)).
Proof.
  intros Hr Hact Hc payload. apply reachable_inv in Hr as [Hm Ha].
  destruct (commit_spec cfg r m m' Hm (Ha r Hact) Hc) as (_ & _ & H1 & H2). by split.
Qed.

Lemma commit_removes_the_batch_witness :
  (λ i, (WorkflowItem.workflow_id i, WorkflowItem.miss_count i)) <$> all_items Sample.m4 = [("q", 1%Z)] ∧
  active_reservation Sample.m4 = None.
Proof.
  split; [vm_compute; reflexivity|].
  assert (Hact : active_reservation Sample.m3 = Some Sample.r3) by (vm_compute; reflexivity).
  exact (proj1 (commit_removes_the_batch Sample.cfg Sample.meets PFifo Sample.m3 Sample.m4 Sample.r3
    Sample.m3_reach Hact Sample.commit_m3)).
Defined.

(** At most one reservation is outstanding: reserving over an active one,
    and committing or aborting a reservation that is not the active one, raise
    and change nothing. *)
Theorem one_reservation_at_a_time {S} `{SchedulingPolicy S} cfg meets (m : manager S) :
  (∀ a b capacity, active_reservation m = Some a →
     ∃ e, reserve_batch cfg meets b capacity m = (m, Err (RuntimeError e))) ∧
  (∀ r, (∀ a, active_reservation m = Some a → BatchReservation.handle a ≠ BatchReservation.handle r) →
     (∃ e, commit_reservation cfg r m = (m, Some (RuntimeError e))) ∧
     ∀ reason, ∃ e, abort_reservation r reason m = (m, Some (RuntimeError e))).
Proof.
  split.
  - intros a b capacity Ha. unfold reserve_batch. rewrite Ha. by eexists.
  - intros r Hr. assert (Hf : is_active m r = false).
    { unfold is_active. destruct (active_reservation m) as [a|]; [|done]. by apply Nat.eqb_neq, Hr. }
    unfold commit_reservation, abort_reservation. rewrite Hf. split; [by eexists|]. intros _. by eexists.
Qed.

Lemma one_reservation_at_a_time_witness :
  ∃ e, reserve_batch Sample.cfg Sample.meets 2 None Sample.m3 = (Sample.m3, Err (RuntimeError e)).
Proof.
  refine (proj1 (one_reservation_at_a_time Sample.cfg Sample.meets Sample.m3) Sample.r3 2%Z None _).
  vm_compute. reflexivity.
Defined.

(** Starvation is served first: when an eligible workflow has reached the
    miss limit, the batch comes from the partition of the first such workflow
    in queue order, and it begins with the starved workflows of that
    partition's pool, oldest first, as many as fit. *)
Theorem starved_work_goes_first {S} `{PolicyLaws S} cfg meets (s : S) (m m' : manager S) b capacity r i0 rest :
  reachable cfg meets s m → reserve_batch cfg meets b capacity m = (m', Ok (Some r)) →
  starved_global cfg meets capacity m = i0 :: rest →
  let batch := BatchSelection.workflows (BatchReservation.selection r) in
  (∀ i, i ∈ batch → partition_of cfg i = partition_of cfg i0) ∧
  ∃ pool adv, build_candidate_pool_for_partition cfg (partition_of cfg i0) m = (m, (pool, adv)) ∧
    let starved := starved_first cfg pool in
    take (length starved) (ids batch) = take (Z.to_nat (if (b <=? 0)%Z then 1 else b)) starved.
Proof.
  intros Hr Hres Hst batch. apply reachable_inv in Hr as [Hm _].
  pose proof (reserve_batch_spec cfg meets b capacity m Hm) as Hs. rewrite Hres in Hs.
  destruct Hs as (_ & _ & _ & _ & _ & _ & anchor & c & Hok).
  pose proof (ro_head _ _ _ _ _ _ _ _ Hok) as Hh. rewrite Hst in Hh. subst anchor. split.
  - intros i Hi. apply (ro_partition _ _ _ _ _ _ _ _ Hok). by apply (ro_workflows _ _ _ _ _ _ _ _ Hok).
  - destruct (ro_pool _ _ _ _ _ _ _ _ Hok) as (adv & Hp & _). exists c, adv. split; [done|].
    unfold batch. rewrite (ro_ids _ _ _ _ _ _ _ _ Hok). exact (ro_starved _ _ _ _ _ _ _ _ Hok).
Qed.

(** A workflow that was passed over once, with a miss limit of one. *)
Module Starvation.
Definition cfg : ManagerConfig.t :=
ManagerConfig.init (PerPrio 4 4 4)%Z 1 "halo" 1 1 2 (of_Z 5) true.
Definition m1 := (enqueue cfg (Sample.job "r1" "ann" false ["a"; "b"]) (of_Z 1) (Sample.fresh "p") Sample.empty).1.
Definition m2 := (reserve_batch cfg Sample.meets 1 None m1).1.
Definition r2 := default Sample.no_reservation (active_reservation m2).
Definition m3 := (commit_reservation cfg r2 m2).1.
Definition m4 := (reserve_batch cfg Sample.meets 1 None m3).1.
Definition r4 := default Sample.no_reservation (active_reservation m4).

Lemma starvation_m1_reach : reachable cfg Sample.meets PFifo m1.
Proof.
eapply reach_step; [apply reach_init|].
eapply (step_enqueue _ _ _ (Sample.job "r1" "ann" false ["a"; "b"]) (of_Z 1) (Sample.fresh "p"));
  [|unfold m1; apply surjective_pairing].
split; [apply Sample.fresh_inj|]. intros k. set_solver.
Qed.

Lemma starvation_m3_reach : reachable cfg Sample.meets PFifo m3.
Proof.
eapply reach_step; [eapply reach_step; [apply starvation_m1_reach|]|].
- eapply (step_reserve _ _ _ 1 None); apply surjective_pairing.
- eapply (step_commit _ _ _ r2); [|apply surjective_pairing].
  intros _. vm_compute. reflexivity.
Qed.

Lemma reserve_m3 : reserve_batch cfg Sample.meets 1 None m3 = (m4, Ok (Some r4)).
Proof. vm_compute. reflexivity. Qed.
End Starvation.

Lemma starved_work_goes_first_witness :
  ids (starved_global Starvation.cfg Sample.meets None Starvation.m3) = ["px"] ∧
  ∀ i, i ∈ BatchSelection.workflows (BatchReservation.selection Starvation.r4) →
    partition_of Starvation.cfg i = partition_of Starvation.cfg (sample_item "" "ann" "m" 0).
Proof.
  split; [vm_compute; reflexivity|].
  destruct (starved_global Starvation.cfg Sample.meets None Starvation.m3) as [|i0 rest] eqn:E;
    [vm_compute in E; discriminate E|].
  assert (Hp : partition_of Starvation.cfg i0 = partition_of Starvation.cfg (sample_item "" "ann" "m" 0)).
  { vm_compute in E. injection E as <- _. vm_compute. reflexivity. }
  rewrite <-Hp.
  exact (proj1 (starved_work_goes_first Starvation.cfg Sample.meets PFifo Starvation.m3 Starvation.m4 1 None
    Starvation.r4 i0 rest Starvation.starvation_m3_reach Starvation.reserve_m3 E)).
Defined.

(** ** Fairness over users *)

Section user_fairness.
Implicit Types (qs : list (list WorkflowItem.t)).

(** What one pass takes: the first item of the queues before the cut. *)
Fixpoint pass_taken (cut : nat) qs : list WorkflowItem.t :=
match cut, qs with
| Datatypes.S cut', q :: qs' => take 1 q ++ pass_taken cut' qs'
| _, _ => []
end.

Fixpoint pass_left (cut : nat) qs : list (list WorkflowItem.t) :=
match cut, qs with
| Datatypes.S cut', q :: qs' => drop 1 q :: pass_left cut' qs'
| _, _ => qs
end.

Lemma rr_pass_cut limit acc qs :
let '(acc', qs') := rr_pass limit acc qs in
∃ cut, acc' = acc ++ pass_taken cut qs ∧ qs' = pass_left cut qs ∧
  (cut = length qs ∨ limit <= length acc').
Proof.
revert acc. induction qs as [|[|x q] qs IH]; intros acc; simpl.
- exists 0. simpl. rewrite app_nil_r. split_and!; try done. by left.
- specialize (IH acc). destruct (rr_pass limit acc qs) as [acc' rest].
  destruct IH as (cut & -> & -> & Hc). exists (Datatypes.S cut). simpl. split_and!; try done. lia.
- destruct (Nat.leb_spec limit (length (acc ++ [x]))).
  + exists 1. simpl. destruct qs; split_and!; try done; by right.
  + specialize (IH (acc ++ [x])). destruct (rr_pass limit (acc ++ [x]) qs) as [acc' rest].
    destruct IH as (cut & -> & -> & Hc). exists (Datatypes.S cut). simpl.
    rewrite <-!app_assoc. simpl. split_and!; try done. destruct Hc as [->|Hc]; [by left|right].
    by rewrite <-app_assoc in Hc.
Qed.

(** The items taken from each queue after [n] full passes and a partial one. *)
Fixpoint taken (n cut : nat) qs : list (list WorkflowItem.t) :=
match qs with
| [] => []
| q :: qs' => take (n + match cut with O => 0 | _ => 1 end) q :: taken n (pred cut) qs'
end.

Lemma pass_left_all qs n : pass_left (length qs) (drop n <$> qs) = drop (Datatypes.S n) <$> qs.
Proof.
induction qs as [|q qs IH]; csimpl; [done|]. rewrite IH, drop_drop. by rewrite Nat.add_comm.
Qed.

Lemma taken_zero n qs : concat (taken n 0 qs) = concat (take n <$> qs).
Proof. induction qs as [|q qs IH]; csimpl; [done|]. by rewrite IH, Nat.add_0_r. Qed.

Lemma taken_step n cut qs :
concat (take n <$> qs) ++ pass_taken cut (drop n <$> qs) ≡ₚ concat (taken n cut qs).
Proof.
revert cut. induction qs as [|q qs IH]; intros [|cut]; csimpl; [done|done| |].
- rewrite app_nil_r, Nat.add_0_r. by rewrite taken_zero.
- rewrite <-(IH cut), <-(take_take_drop q n 1), <-!app_assoc. apply Permutation_app_head.
  by rewrite Permutation_app_swap_app.
Qed.

Lemma rr_pass_length limit acc qs :
length acc < limit → length (rr_pass limit acc qs).1 ≤ limit.
Proof.
revert acc. induction qs as [|[|x q] qs IH]; intros acc Hl; simpl; [lia| |].
- specialize (IH acc Hl). by destruct (rr_pass limit acc qs).
- destruct (Nat.leb_spec limit (length (acc ++ [x]))); simpl.
  + rewrite length_app. simpl. lia.
  + specialize (IH (acc ++ [x])). destruct (rr_pass limit (acc ++ [x]) qs). simpl in *. lia.
Qed.

Lemma rr_rounds_full fuel limit acc qs : limit ≤ length acc → rr_rounds fuel limit acc qs = acc.
Proof. intros. destruct fuel; simpl; [done|]. destruct (Nat.leb_spec limit (length acc)); [done|lia]. Qed.

(** The result is balanced, within the limit, and takes everything when it
  is below the limit. *)
Lemma rr_rounds_balanced fuel limit n acc qs :
acc ≡ₚ concat (take n <$> qs) → length acc ≤ limit → length (concat (drop n <$> qs)) < fuel →
let r := rr_rounds fuel limit acc (drop n <$> qs) in
∃ k cut, r ≡ₚ concat (taken k cut qs) ∧ length r ≤ limit ∧ (limit ≤ length r ∨ r ≡ₚ concat qs).
Proof.
revert n acc. induction fuel as [|fuel IH]; intros n acc Hacc Hlim Hf; [lia|]. simpl.
destruct (Nat.leb_spec limit (length acc)).
{ exists n, 0. rewrite taken_zero. split_and!; [done|done|by left]. }
pose proof (rr_pass_cut limit acc (drop n <$> qs)) as Hp.
pose proof (rr_pass_length limit acc (drop n <$> qs) ltac:(lia)) as Hl.
destruct (rr_pass limit acc (drop n <$> qs)) as [acc' qs']. simpl in Hl.
destruct Hp as (cut & Ea & -> & Hc). rewrite length_fmap in Hc.
assert (Hperm : acc' ≡ₚ concat (taken n cut qs)) by by rewrite Ea, Hacc, taken_step.
destruct (Nat.eqb_spec (length acc') (length acc)) as [Heq|Hne].
- exists n, cut. split_and!; [done|done|]. destruct Hc as [->|Hc]; [|by left]. right.
  assert (Hall : pass_taken (length qs) (drop n <$> qs) = []).
  { apply length_zero_iff_nil. rewrite Ea, length_app in Heq. lia. }
  rewrite Ea, Hall, app_nil_r, Hacc. clear -Hall. induction qs as [|q qs IHq]; csimpl; [done|].
  csimpl in Hall. apply app_eq_nil in Hall as [H1 H2]. rewrite IHq by done.
  apply Permutation_app_tail. rewrite <-(take_drop n q) at 2. destruct (drop n q); [|done].
  by rewrite app_nil_r.
- destruct Hc as [->|Hc].
  + rewrite pass_left_all.
    apply IH; [|done|].
    * rewrite Hperm. clear. induction qs as [|q qs IHq]; csimpl; [done|].
      by rewrite IHq, Nat.add_comm.
    * assert (Hsplit : ∀ l : list (list WorkflowItem.t),
        length (pass_taken (length l) l) + length (concat (pass_left (length l) l)) = length (concat l)).
      { induction l as [|q l IHl]; simpl; [done|]. rewrite !length_app, length_take, length_drop. lia. }
      specialize (Hsplit (drop n <$> qs)). rewrite length_fmap in Hsplit.
      rewrite pass_left_all in Hsplit. rewrite Ea, length_app in Hne. lia.
  + exists n, cut. rewrite rr_rounds_full by done. split_and!; [done|done|by left].
Qed.

Lemma filter_user_none u (l : list WorkflowItem.t) :
(∀ i, i ∈ l → WorkflowItem.user_id i ≠ u) → filter (λ i, WorkflowItem.user_id i = u) l = [].
Proof.
induction l as [|i l IH]; intros Hl; [done|]. rewrite filter_cons_False by (apply Hl; set_solver).
apply IH. set_solver.
Qed.

Lemma filter_user_all u (l : list WorkflowItem.t) :
(∀ i, i ∈ l → WorkflowItem.user_id i = u) → filter (λ i, WorkflowItem.user_id i = u) l = l.
Proof.
induction l as [|i l IH]; intros Hl; [done|]. rewrite filter_cons_True by (apply Hl; set_solver).
f_equal. apply IH. set_solver.
Qed.

Lemma taken_sub n cut qs i : i ∈ concat (taken n cut qs) → i ∈ concat qs.
Proof.
revert cut. induction qs as [|q qs IH]; intros cut; simpl; [done|].
rewrite !elem_of_app. intros [Hi|Hi]; [left; eapply elem_of_sublist; [exact Hi|apply sublist_take]|].
right. by eapply IH.
Qed.

Lemma concat_length_le (q : list WorkflowItem.t) qs : q ∈ qs → length q ≤ length (concat qs).
Proof.
induction qs as [|q' qs IH]; [set_solver|]. rewrite elem_of_cons. simpl. rewrite length_app.
intros [->|Hq]; [lia|]. specialize (IH Hq). lia.
Qed.

Lemma taken_all qs : taken (length (concat qs)) 0 qs = qs.
Proof.
assert (G : ∀ n, (∀ q, q ∈ qs → length q ≤ n) → taken n 0 qs = qs).
{ induction qs as [|q qs IH]; intros n Hn; simpl; [done|].
  rewrite take_ge by (rewrite Nat.add_0_r; apply Hn; set_solver).
  f_equal. apply IH. set_solver. }
apply G. intros q. apply concat_length_le.
Qed.

(** Each user is served [k] or [k + 1] items, or all it has. *)
Lemma taken_per_user k cut (l : list (string * list WorkflowItem.t)) u q :
NoDup l.*1 → (∀ u q i, (u, q) ∈ l → i ∈ q → WorkflowItem.user_id i = u) → (u, q) ∈ l →
∃ c, c ≤ 1 ∧ length (filter (λ i, WorkflowItem.user_id i = u) (concat (taken k cut l.*2)))
             = (k + c) `min` length q.
Proof.
revert cut. induction l as [|[u' q'] l IH]; intros cut Hnd Hu Hin; [set_solver|]. csimpl in *.
apply NoDup_cons in Hnd as [Hnew Hnd]. rewrite filter_app, length_app.
apply elem_of_cons in Hin as [[= <- <-]|Hin].
- rewrite filter_user_all.
  2:{ intros i Hi. apply (Hu u q); [set_solver|]. eapply elem_of_sublist; [exact Hi|apply sublist_take]. }
  rewrite (filter_user_none u).
  2:{ intros i Hi%taken_sub Heq. apply list_elem_of_In, in_concat in Hi as (q0 & Hq0 & Hi).
      apply list_elem_of_In in Hq0, Hi. apply list_elem_of_fmap in Hq0 as ([u0 q1] & -> & Hq0).
      apply Hnew, list_elem_of_fmap. exists (u0, q1). split; [|done]. simpl.
      rewrite <-Heq. apply (Hu u0 q1); set_solver. }
  rewrite length_take, Nat.add_0_r. exists (match cut with O => 0 | _ => 1 end). split; [case_match; lia|done].
- rewrite (filter_user_none u).
  2:{ intros i Hi Heq. apply Hnew, list_elem_of_fmap. exists (u, q). split; [|done]. simpl.
      rewrite <-Heq. symmetry. apply (Hu u' q'); [set_solver|].
      eapply elem_of_sublist; [exact Hi|apply sublist_take]. }
  simpl. apply IH; [done|set_solver|done].
Qed.
End user_fairness.

Section peek_fair.
Context {S : Type} `{SchedulingPolicy S} (cfg : ManagerConfig.t).
Implicit Types (m : manager S).

(** The items of a user that match a partition, and how many were picked. *)
Definition matching_items p (q : user_queues) (u : string) : list WorkflowItem.t :=
filter (λ item, matches_partition cfg p item = true) (dget_or [] u q).

Definition served (u : string) (picked : list WorkflowItem.t) : nat :=
length (filter (λ i, WorkflowItem.user_id i = u) picked).

Lemma user_matches_entry p (q : user_queues) rr u l :
(u, l) ∈ user_matches cfg p q rr ↔ u ∈ rr ∧ l = matching_items p q u ∧ l ≠ [].
Proof.
unfold user_matches. rewrite list_elem_of_omap. split.
- intros (u' & Hu & Hm). fold (matching_items p q u') in Hm.
  destruct (matching_items p q u') eqn:E; [done|]. injection Hm as <- <-. by rewrite E.
- intros (Hu & -> & Hne). exists u. split; [done|]. fold (matching_items p q u).
  by destruct (matching_items p q u).
Qed.

Lemma user_matches_users p (q : user_queues) rr : (user_matches cfg p q rr).*1 `sublist_of` rr.
Proof.
unfold user_matches. induction rr as [|u rr IH]; csimpl; [done|].
destruct (filter _ _); csimpl; [by apply sublist_cons|by apply sublist_skip].
Qed.

(** The picked items of the peek, as a balanced selection. *)
Lemma peek_balanced pr limit p m m' picked adv :
mgr_inv m → peek_round_robin_for_partition cfg pr limit p m = (m', (picked, adv)) →
(0 < limit)%Z →
let qs := user_matches cfg p (pget (queues m) pr) (pget (rr_user_order m) pr) in
∃ k cut, picked ≡ₚ concat (taken k cut qs.*2) ∧ length picked ≤ Z.to_nat limit ∧
  (Z.to_nat limit ≤ length picked ∨ picked ≡ₚ concat qs.*2).
Proof.
intros Hm Hp Hl qs. unfold peek_round_robin_for_partition in Hp. rewrite prune_id in Hp by done.
destruct (Z.leb_spec limit 0); [lia|].
assert (Hnil : qs.*2 = [] → ∃ k cut, [] ≡ₚ concat (taken k cut qs.*2) ∧
  length ([] : list WorkflowItem.t) ≤ Z.to_nat limit ∧
  (Z.to_nat limit ≤ length ([] : list WorkflowItem.t) ∨ [] ≡ₚ concat qs.*2)).
{ intros ->. exists 0, 0. simpl. split_and!; [done|lia|by right]. }
assert (Hqs : pget (queues m) pr = [] ∨ pget (rr_user_order m) pr = [] → qs.*2 = []).
{ pose proof (user_matches_sub cfg pr p _ _ (mi_queues m Hm pr)) as Hs. fold qs in Hs.
  intros [E|E].
  - rewrite E in Hs. apply submseteq_nil_r in Hs.
    assert (Hne : ∀ l, l ∈ qs.*2 → l ≠ []).
    { intros l Hl'. apply list_elem_of_fmap in Hl' as ([u l'] & -> & Hin).
      by apply user_matches_entry in Hin as (_ & _ & ?). }
    destruct qs.*2 as [|l ls]; [done|]. simpl in Hs. apply app_eq_nil in Hs as [-> _].
    destruct (Hne [] ltac:(set_solver)). done.
  - unfold qs. rewrite E. done. }
destruct (pget (queues m) pr) as [|kv q] eqn:Eq.
{ injection Hp as _ <- _. apply Hnil, Hqs. by left. }
destruct (pget (rr_user_order m) pr) as [|u rr] eqn:Er.
{ injection Hp as _ <- _. apply Hnil, Hqs. by right. }
fold qs in Hp. destruct qs.*2 as [|l0 ls] eqn:E.
{ injection Hp as _ <- _. by apply Hnil. }
injection Hp as _ <- _.
assert (Hd : drop 0 <$> (l0 :: ls) = l0 :: ls) by (rewrite <-(list_fmap_id (l0 :: ls)) at 2; done).
pose proof (rr_rounds_balanced (Datatypes.S (length (concat (l0 :: ls)))) (Z.to_nat limit) 0 [] (l0 :: ls)) as Hb.
rewrite Hd in Hb. apply Hb; [|simpl; lia|lia].
clear. induction (l0 :: ls) as [|x l IH]; csimpl; [done|]. by rewrite <-IH.
Qed.

Lemma served_perm u l1 l2 : l1 ≡ₚ l2 → served u l1 = served u l2.
Proof. intros Hp. unfold served. by rewrite Hp. Qed.
End peek_fair.

(** The candidate pool is fair over users: in one priority, a user that
    still has matching work left is served at most one item less than any
    other user, the quantum is respected, and when it is not exhausted every
    user's matching work is in the pool. *)
Theorem candidate_pool_is_fair {S} `{PolicyLaws S} cfg meets (s : S) (m m' : manager S) pr limit p picked adv :
  reachable cfg meets s m → (0 < limit)%Z →
  peek_round_robin_for_partition cfg pr limit p m = (m', (picked, adv)) →
  let available u := length (matching_items cfg p (pget (queues m) pr) u) in
  (∀ u v, served v picked < available v → served u picked ≤ served v picked + 1) ∧
  length picked ≤ Z.to_nat limit ∧
  (length picked < Z.to_nat limit → ∀ u, served u picked = available u).
Proof.
  intros Hr Hl Hp available. apply reachable_inv in Hr as [Hm _].
  destruct (peek_balanced cfg pr limit p m m' picked adv Hm Hp Hl) as (k & cut & Hk & Hlen & Hfull).
  set (qs := user_matches cfg p (pget (queues m) pr) (pget (rr_user_order m) pr)) in *.
  assert (Hnd : NoDup qs.*1).
  { eapply sublist_NoDup; [apply (pq_rr_nodup _ _ _ (mi_queues m Hm pr))|apply user_matches_users]. }
  assert (Hown : ∀ u q i, (u, q) ∈ qs → i ∈ q → WorkflowItem.user_id i = u).
  { intros u q i Hin Hi. apply user_matches_entry in Hin as (_ & -> & _).
    apply list_elem_of_filter in Hi as [_ Hi]. unfold dget_or in Hi.
    destruct (dget u (pget (queues m) pr)) as [l|] eqn:E; [|set_solver]. apply dget_elem in E.
    by apply (pq_home _ _ _ (mi_queues m Hm pr) u l). }
  assert (Hserved : ∀ u, (available u = 0 ∧ served u picked = 0) ∨
    ∃ c, c ≤ 1 ∧ served u picked = (k + c) `min` available u).
  { intros u. destruct (decide (matching_items cfg p (pget (queues m) pr) u = [])) as [E|E].
    - left. unfold available. rewrite E. split; [done|]. rewrite (served_perm u _ _ Hk). unfold served.
      rewrite filter_user_none; [done|]. intros i Hi%taken_sub Heq.
      apply list_elem_of_In, in_concat in Hi as (q & Hq & Hi). apply list_elem_of_In in Hq, Hi.
      apply list_elem_of_fmap in Hq as ([u' q'] & -> & Hin). rewrite <-Heq, (Hown u' q' i Hin Hi) in E.
      by apply user_matches_entry in Hin as (_ & -> & ?).
    - right. assert (Hin : (u, matching_items cfg p (pget (queues m) pr) u) ∈ qs).
      { apply user_matches_entry. split_and!; [|done|done]. apply (pq_rr _ _ _ (mi_queues m Hm pr)).
        apply dget_is_Some. unfold matching_items, dget_or in E. by destruct (dget u _). }
      destruct (taken_per_user k cut qs u _ Hnd Hown Hin) as (c & Hc & Hs).
      exists c. split; [done|]. rewrite (served_perm u _ _ Hk). exact Hs. }
  split_and!; [|done|].
  - intros u v Hv. destruct (Hserved u) as [[? ?]|(c & ? & ?)], (Hserved v) as [[? ?]|(c' & ? & ?)]; lia.
  - intros Hlt u. destruct Hfull as [Hfull|Hfull]; [lia|].
    destruct (Hserved u) as [[E1 E2]|_]; [lia|].
    destruct (decide (matching_items cfg p (pget (queues m) pr) u = [])) as [E|E].
    { destruct (Hserved u) as [[? ?]|(c & _ & E2)]; [lia|]. unfold available in E2 |- *.
      rewrite E in E2 |- *. simpl in *. lia. }
    assert (Hin : (u, matching_items cfg p (pget (queues m) pr) u) ∈ qs).
    { apply user_matches_entry. split_and!; [|done|done]. apply (pq_rr _ _ _ (mi_queues m Hm pr)).
      apply dget_is_Some. unfold matching_items, dget_or in E. by destruct (dget u _). }
    destruct (taken_per_user (length (concat qs.*2)) 0 qs u _ Hnd Hown Hin) as (c & Hc & Hs).
    rewrite taken_all in Hs by done. rewrite (served_perm u _ _ Hfull). unfold served. rewrite Hs.
    unfold available. assert (length (matching_items cfg p (pget (queues m) pr) u) ≤ length (concat qs.*2)); [|lia].
    apply concat_length_le, list_elem_of_fmap. by exists (u, matching_items cfg p (pget (queues m) pr) u).
Qed.

Lemma candidate_pool_is_fair_witness :
  let picked := (peek_round_robin_for_partition Sample.cfg MEDIUM 2 (partition_of Sample.cfg
    (sample_item "p" "ann" "m" 1)) Sample.m2).2.1 in
  ids picked = ["p"; "q"] ∧ served "ann" picked ≤ served "bob" picked + 1.
Proof.
  intros picked. split; [vm_compute; reflexivity|].
  refine (proj1 (candidate_pool_is_fair Sample.cfg Sample.meets PFifo Sample.m2 _ MEDIUM 2
    (partition_of Sample.cfg (sample_item "p" "ann" "m" 1)) picked _ Sample.m2_reach ltac:(lia) _) "bob" "ann" _).
  - unfold picked. rewrite <-!surjective_pairing. reflexivity.
  - vm_compute. lia.
Defined.

(** ** Rotation over partitions *)

Section rotation.
Context {S : Type} `{PolicyLaws S} (cfg : ManagerConfig.t).
Context (meets : dict string val → option HardwareRequirements.t → bool).
Implicit Types (m : manager S).

(** A reservation is an anchor choice and what follows from it. *)
Lemma reserve_batch_split b capacity m m' r :
mgr_inv m → reserve_batch cfg meets b capacity m = (m', Ok (Some r)) →
eligible_partitions cfg meets capacity m ≠ [] ∧
∃ anchor order members,
  choose_anchor cfg meets capacity (eligible_partitions cfg meets capacity m) m =
    (Some (anchor, ReservationPayload.rr_partition_to_advance (BatchReservation.payload r)),
     set_partitions order members m) ∧
  rr_partition_order m' = order ∧ all_items m' = all_items m ∧
  match starved_global cfg meets capacity m with
  | [] => ReservationPayload.rr_partition_to_advance (BatchReservation.payload r) = Some anchor ∧
          head order = Some anchor
  | _ => ReservationPayload.rr_partition_to_advance (BatchReservation.payload r) = None
  end.
Proof.
intros Hm Hres. unfold reserve_batch in Hres. fold (effective_size b) in Hres.
destruct (active_reservation m) as [a|] eqn:Ea; [done|].
destruct (eligible_partitions cfg meets capacity m) as [|p0 ps] eqn:Ep; [done|]. rewrite <-Ep in *.
assert (Hne : eligible_partitions cfg meets capacity m ≠ []) by (rewrite Ep; apply head_ne).
split; [done|].
destruct (choose_anchor_spec cfg meets capacity m Hm Hne) as (anchor & rrp & order & members & E & Hm2 & Hin & Hst).
rewrite E in Hres.
pose proof (reserve_from_anchor_spec cfg meets (effective_size b) capacity anchor rrp
  (set_partitions order members m) Hm2 (effective_size_pos _) Ea Hin) as Hs.
rewrite Hres in Hs. destruct Hs as (_ & Hq & _ & _ & Ho & _ & _ & _ & Hrr & _). simpl in Ho.
exists anchor, order, members. rewrite Hrr. split_and!; [done|done| |].
- unfold all_items. by rewrite Hq.
- destruct (starved_global cfg meets capacity m); [done|apply Hst].
Qed.

Lemma reserve_batch_head b capacity m m' r :
mgr_inv m → reserve_batch cfg meets b capacity m = (m', Ok (Some r)) →
match ReservationPayload.rr_partition_to_advance (BatchReservation.payload r) with
| Some p => head (rr_partition_order m') = Some p
| None => True
end.
Proof.
intros Hm Hres.
destruct (reserve_batch_split b capacity m m' r Hm Hres) as (_ & anchor & order & members & _ & -> & _ & Hst).
destruct (starved_global cfg meets capacity m); [destruct Hst as [-> ?]; done|by rewrite Hst].
Qed.

Lemma bump_misses_order l m : rr_partition_order (foldl bump_miss m l) = rr_partition_order m ∧
rr_partition_members (foldl bump_miss m l) = rr_partition_members m.
Proof.
revert m. induction l as [|w l IH]; intros m; [done|]. cbn [foldl]. destruct (IH (bump_miss m w)) as [-> ->].
unfold bump_miss. by destruct (dget w (items m)).
Qed.

Lemma advance_users_order l m :
rr_partition_order (foldl advance_user_round_robin m l) = rr_partition_order m.
Proof.
revert m. induction l as [|pr l IH]; intros m; [done|]. cbn [foldl]. rewrite IH.
unfold advance_user_round_robin. by case_match.
Qed.

Lemma drop_stale_order m : (∀ p, p ∈ rr_partition_members m ↔ p ∈ rr_partition_order m) →
rr_partition_order (drop_stale_partitions cfg m) =
filter (λ p, p ∈ remaining_partitions cfg m) (rr_partition_order m).
Proof.
intros Hmem. unfold drop_stale_partitions. simpl.
assert (G : ∀ l, l ⊆ rr_partition_order m →
  filter (λ p, p ∉ filter (λ p, p ∉ remaining_partitions cfg m) (rr_partition_members m)) l =
  filter (λ p, p ∈ remaining_partitions cfg m) l); [|by apply G].
induction l as [|p l IH]; intros Hl; [done|].
assert (Hp : p ∈ rr_partition_members m) by (apply Hmem, Hl; set_solver).
destruct (decide (p ∈ remaining_partitions cfg m)) as [Hin|Hin].
- rewrite !filter_cons_True; [f_equal; apply IH; set_solver|done|].
  rewrite list_elem_of_filter. naive_solver.
- rewrite !filter_cons_False; [apply IH; set_solver|done|].
  rewrite list_elem_of_filter. naive_solver.
Qed.

Lemma commit_order r m m' :
mgr_inv m → active_ok m → active_reservation m = Some r → commit_reservation cfg r m = (m', None) →
rr_partition_order m' =
  let order := filter (λ p, p ∈ remaining_partitions cfg m') (rr_partition_order m) in
  match ReservationPayload.rr_partition_to_advance (BatchReservation.payload r) with
  | Some p => if decide (head order = Some p) then rotate order else order
  | None => order
  end.
Proof.
intros Hm Ha Hact Hc. destruct (commit_spec cfg r m m' Hm (Ha r Hact) Hc) as (_ & Hia & _ & Hit).
unfold commit_reservation in Hc. rewrite Hia in Hc. simpl in Hc.
destruct (on_commit _ _) as [pol [e|]]; [done|]. injection Hc as Hc.
set (payload := BatchReservation.payload r) in *.
set (m1 := foldl bump_miss (set_policy pol m) _) in Hc.
assert (I1 : mgr_inv m1) by by apply bump_misses_inv, set_policy_inv.
destruct (bump_misses_order (ReservationPayload.miss_increment_targets payload) (set_policy pol m)) as [O1 M1].
fold m1 in O1, M1. simpl in O1, M1.
pose proof (drop_workflows_inv (λ w, bool_decide (w ∈ ReservationPayload.selected_workflow_ids payload)) m1 I1) as I2.
set (m2 := drop_workflows _ m1) in *.
assert (O2 : rr_partition_order m2 = rr_partition_order m).
{ unfold m2. rewrite drop_workflows_eq by apply I1. simpl. done. }
pose proof (drop_stale_order m2 (mi_members m2 I2)) as O3. rewrite O2 in O3.
set (m3 := drop_stale_partitions cfg m2) in *.
pose proof (drop_stale_partitions_inv cfg m2 I2) as I3. fold m3 in I3.
set (m4 := match ReservationPayload.rr_partition_to_advance payload with
           | Some p => advance_partition_round_robin p m3 | None => m3 end) in Hc.
assert (H4 : mgr_inv m4 ∧ all_items m4 = all_items m3).
{ unfold m4. case_match; [|done]. split; [by apply advance_partition_inv|apply advance_partition_items]. }
destruct H4 as [I4 A4].
destruct (advance_users_spec (ReservationPayload.user_rr_priorities_to_advance payload) m4 I4) as [_ A5].
pose proof (advance_users_order (ReservationPayload.user_rr_priorities_to_advance payload) m4) as O5.
set (m5 := foldl advance_user_round_robin m4 _) in *.
assert (Hrem : remaining_partitions cfg m' = remaining_partitions cfg m2).
{ unfold remaining_partitions. f_equal. rewrite <-Hc.
  etrans; [apply (clear_if_empty_items m5)|]. by rewrite A5, A4. }
rewrite Hrem. cbv zeta. rewrite <-O3.
assert (Ho : rr_partition_order m' = rr_partition_order m5).
{ rewrite <-Hc. simpl. unfold clear_if_empty. by case_match. }
rewrite Ho, O5. unfold m4.
destruct (ReservationPayload.rr_partition_to_advance payload) as [p|]; [|done].
unfold advance_partition_round_robin. destruct (rr_partition_order m3) as [|h l] eqn:E; simpl.
- by repeat case_match.
- destruct (decide (h = p)) as [->|Hne]; [by rewrite decide_True|].
  rewrite decide_False by congruence. done.
Qed.
End rotation.

(** Partitions rotate: the partition a batch was picked from by round-robin
    goes to the back of the order when it still has queued work and leaves it
    when it is drained, and every other partition with queued work keeps its
    turn and moves up, so a waiting partition is reached after at most as many
    batches as there are partitions ahead of it. *)
Theorem partitions_rotate {S} `{PolicyLaws S} cfg meets (s : S) (m m1 m2 : manager S) b capacity r p :
  reachable cfg meets s m → reserve_batch cfg meets b capacity m = (m1, Ok (Some r)) →
  ReservationPayload.rr_partition_to_advance (BatchReservation.payload r) = Some p →
  commit_reservation cfg r m1 = (m2, None) →
  let live q := q ∈ remaining_partitions cfg m2 in
  ∃ waiting, rr_partition_order m1 = p :: waiting ∧
    rr_partition_order m2 = filter live waiting ++ (if decide (live p) then [p] else []).
Proof.
  intros Hr Hres Hp Hc live.
  assert (Hstep : mgr_step cfg meets m m1) by by eapply step_reserve.
  apply reachable_inv in Hr as [Hm Ha]. destruct (mgr_step_inv cfg meets m m1 Hstep Hm Ha) as [Hm1 Ha1].
  pose proof (reserve_batch_spec cfg meets b capacity m Hm) as Hs. rewrite Hres in Hs.
  destruct Hs as (_ & _ & _ & _ & _ & Hact & _).
  pose proof (reserve_batch_head cfg meets b capacity m m1 r Hm Hres) as Hh. rewrite Hp in Hh.
  pose proof (commit_order cfg r m1 m2 Hm1 Ha1 Hact Hc) as Ho. rewrite Hp in Ho. cbv zeta in Ho.
  pose proof (mi_order m1 Hm1) as Hnd.
  destruct (rr_partition_order m1) as [|h waiting]; [done|]. injection Hh as ->.
  exists waiting. split; [done|]. rewrite Ho. apply NoDup_cons in Hnd as [Hnew _].
  destruct (decide (live p)) as [Hl|Hl].
  - rewrite filter_cons_True by done. simpl. by rewrite decide_True.
  - rewrite filter_cons_False by done. rewrite decide_False, app_nil_r; [done|].
    intros Hhd. apply Hnew. assert (p ∈ filter (λ q, q ∈ remaining_partitions cfg m2) waiting) as Hin.
    { destruct (filter _ waiting); simplify_eq/=. set_solver. }
    by apply list_elem_of_filter in Hin as [_ ?].
Qed.

Lemma partitions_rotate_witness :
  rr_partition_order Sample.m4 = rr_partition_order Sample.m2 ∧
  ∃ waiting, rr_partition_order Sample.m3 = partition_of Sample.cfg (sample_item "" "ann" "m" 0) :: waiting.
Proof.
  split; [vm_compute; reflexivity|].
  destruct (partitions_rotate Sample.cfg Sample.meets PFifo Sample.m2 Sample.m3 Sample.m4 2 None Sample.r3
    (partition_of Sample.cfg (sample_item "" "ann" "m" 0))
    Sample.m2_reach Sample.reserve_m2 ltac:(vm_compute; reflexivity) Sample.commit_m3) as (w & Hw & _).
  exists w. exact Hw.
Defined.

(** The eviction of the round-robin pick is not limited to drained
    partitions: when the head of the order is only ineligible for the current
    capacity, the pick removes it from the order although its work is still
    queued, so it loses its turn. *)
Theorem ineligible_head_loses_its_turn {S} `{PolicyLaws S} cfg meets (s : S) (m m' : manager S) b capacity r p waiting :
  reachable cfg meets s m → rr_partition_order m = p :: waiting →
  p ∈ remaining_partitions cfg m → p ∉ eligible_partitions cfg meets capacity m →
  starved_global cfg meets capacity m = [] →
  reserve_batch cfg meets b capacity m = (m', Ok (Some r)) →
  p ∈ remaining_partitions cfg m' ∧ p ∉ rr_partition_order m'.
Proof.
  intros Hr Ho Hrem Hnel Hst Hres. apply reachable_inv in Hr as [Hm _].
  destruct (reserve_batch_split cfg meets b capacity m m' r Hm Hres) as (Hne & anchor & order & members & E & E1 & E2 & _).
  split; [unfold remaining_partitions; by rewrite E2|]. rewrite E1. clear E1 E2.
  unfold choose_anchor in E. rewrite Hst in E.
  destruct (pick_partition_spec _ m Hm Hne) as (q & order' & members' & Hp & Hq & _ & Hh & Hor).
  rewrite Hp in E. injection E as _ _ -> _. rewrite Ho in Hor.
  destruct Hor as [(evicted & Hev & _)|[_ Hin]]; [|intros Hpo; by apply Hnel, Hin].
  destruct evicted as [|p' evicted].
  - simpl in Hev. rewrite <-Hev in Hh. injection Hh as ->. by destruct Hnel.
  - injection Hev as <- ->. pose proof (mi_order m Hm) as Hnd. rewrite Ho in Hnd.
    apply NoDup_cons in Hnd as [Hnew _]. set_solver.
Qed.

(** A GPU request queued before a stream of CPU requests, while only a CPU
    worker is idle. *)
Module Eviction.
Definition m1 := (enqueue Sample.cfg (Sample.job "r1" "ann" true ["a"]) (of_Z 1) (Sample.fresh "p")
                  Sample.empty).1.
Definition m2 := (enqueue Sample.cfg (Sample.job "r2" "bob" false ["b"; "c"; "d"]) (of_Z 2) (Sample.fresh "q") m1).1.
Definition cpu_only : FreeCapacity.t := FreeCapacity.mk ["w"] [] [("w", [])].
Definition all_free : FreeCapacity.t := FreeCapacity.mk ["w"] ["g"] [("w", []); ("g", [])].
Definition gpu_partition : PartitionKey := PK "principal" None None "halo" (None, None, None, None, None) (Some true).
Definition m3 := (reserve_batch Sample.cfg Sample.meets 1 (Some cpu_only) m2).1.
Definition r3 := default Sample.no_reservation (active_reservation m3).
Definition m4 := (commit_reservation Sample.cfg r3 m3).1.
(** With every worker idle again, the CPU partition is picked a second time. *)
Definition m5 := (reserve_batch Sample.cfg Sample.meets 1 (Some all_free) m4).1.
Definition r5 := default Sample.no_reservation (active_reservation m5).

Lemma eviction_m1_reach : reachable Sample.cfg Sample.meets PFifo m1.
Proof.
eapply reach_step; [apply reach_init|].
eapply (step_enqueue _ _ _ (Sample.job "r1" "ann" true ["a"]) (of_Z 1) (Sample.fresh "p"));
  [|unfold m1; apply surjective_pairing].
split; [apply Sample.fresh_inj|]. intros k. set_solver.
Qed.

Lemma eviction_m2_reach : reachable Sample.cfg Sample.meets PFifo m2.
Proof.
eapply reach_step; [apply eviction_m1_reach|].
eapply (step_enqueue _ _ _ (Sample.job "r2" "bob" false ["b"; "c"; "d"]) (of_Z 2) (Sample.fresh "q"));
  [|unfold m2; apply surjective_pairing].
split; [apply Sample.fresh_inj|]. intros k.
assert (Hids : ids (all_items m1) = ["p"]) by by vm_compute.
rewrite Hids. destruct (Sample.fresh_head "q" "" k) as [t ->].
rewrite elem_of_cons. intros [?|?]; [done|set_solver].
Qed.
End Eviction.

Lemma ineligible_head_loses_its_turn_witness :
  Eviction.gpu_partition ∉ rr_partition_order Eviction.m3 ∧
  Eviction.gpu_partition ∈ eligible_partitions Sample.cfg Sample.meets (Some Eviction.all_free) Eviction.m4 ∧
  ids (BatchSelection.workflows (BatchReservation.selection Eviction.r5)) = ["qx"].
Proof.
  split; [|split; [apply (bool_decide_unpack _); vm_compute; exact I|vm_compute; reflexivity]].
  refine (proj2 (ineligible_head_loses_its_turn Sample.cfg Sample.meets PFifo Eviction.m2 Eviction.m3 1
    (Some Eviction.cpu_only) Eviction.r3 Eviction.gpu_partition
    (tail (rr_partition_order Eviction.m2)) Eviction.eviction_m2_reach _ _ _ _ _)).
  - vm_compute. reflexivity.
  - apply (bool_decide_unpack _). vm_compute. exact I.
  - apply (bool_decide_unpack _). vm_compute. exact I.
  - vm_compute. reflexivity.
  - vm_compute. reflexivity.
Defined.

(** * The dwell of unsatisfiable work

    [permanently_unsatisfiable] fails queued work that no registered worker
    can run, but only after enough consecutive observations and enough time. *)

Section dwell.
Context {S : Type} `{SchedulingPolicy S} (cfg : ManagerConfig.t).
Context (meets : dict string val → option HardwareRequirements.t → bool).
Implicit Types (m : manager S) (p : PartitionKey).

(** The two dwell tables index the same partitions, once each. *)
Definition dwell_wf m : Prop :=
dict_wf (unsatisfiable_since m) ∧ dict_wf (unsatisfiable_count m) ∧
∀ p, p ∈ dkeys (unsatisfiable_since m) ↔ p ∈ dkeys (unsatisfiable_count m).

Lemma keys_dget {V W} (a : dict PartitionKey V) (b : dict PartitionKey W) p :
(p ∈ dkeys a ↔ p ∈ dkeys b) ↔ (is_Some (dget p a) ↔ is_Some (dget p b)).
Proof. by rewrite !dget_is_Some. Qed.

Lemma observe_spec total now l since count :
NoDup l → dict_wf since → dict_wf count →
let '(since', count') := foldl (observe_partition cfg meets total now) (since, count) l in
dict_wf since' ∧ dict_wf count' ∧
∀ p, if decide (p ∈ l) then
       if partition_eligible cfg meets total p then dget p since' = None ∧ dget p count' = None
       else dget p since' = Some (dget_or now p since) ∧ dget p count' = Some (dget_or 0%Z p count + 1)%Z
     else dget p since' = dget p since ∧ dget p count' = dget p count.
Proof.
revert since count. induction l as [|q l IH]; intros since count Hnd H1 H2; cbn [foldl].
{ split_and!; [done|done|]. intros p. rewrite decide_False by set_solver. done. }
apply NoDup_cons in Hnd as [Hq Hnd].
set (st := observe_partition cfg meets total now (since, count) q).
assert (Hst : dict_wf st.1 ∧ dict_wf st.2 ∧
  (∀ p, p ≠ q → dget p st.1 = dget p since ∧ dget p st.2 = dget p count) ∧
  if partition_eligible cfg meets total q then dget q st.1 = None ∧ dget q st.2 = None
  else dget q st.1 = Some (dget_or now q since) ∧ dget q st.2 = Some (dget_or 0%Z q count + 1)%Z).
{ unfold st, observe_partition. destruct (partition_eligible cfg meets total q); simpl.
  - split_and!; [by apply dict_wf_ddel..| |apply dget_ddel_eq|apply dget_ddel_eq].
    intros p Hp. by rewrite !dget_ddel_ne.
  - split_and!; [by apply dict_wf_setdefault|by apply dict_wf_dset| | |by apply dget_dset_eq].
    + intros p Hp. rewrite dget_setdefault, dget_dset_ne by done. by rewrite decide_False.
    + rewrite dget_setdefault. by rewrite decide_True. }
destruct st as [since1 count1]. simpl in Hst. destruct Hst as (W1 & W2 & Hne & Hq').
specialize (IH since1 count1 Hnd W1 W2).
destruct (foldl _ _ l) as [since' count']. destruct IH as (V1 & V2 & IH).
split_and!; [done|done|]. intros p. specialize (IH p).
destruct (decide (p = q)) as [->|Hpq].
- rewrite decide_False in IH by done. rewrite decide_True by set_solver.
  destruct IH as [-> ->]. done.
- destruct (Hne p Hpq) as [E1 E2]. unfold dget_or in *. rewrite E1, E2 in IH.
  destruct (decide (p ∈ l)); [rewrite decide_True by set_solver; done|].
  rewrite decide_False by set_solver. done.
Qed.

Lemma forget_drained_spec present since count :
dict_wf since → dict_wf count → (∀ p, p ∈ dkeys since ↔ p ∈ dkeys count) →
let '(since', count') := forget_drained present since count in
dict_wf since' ∧ dict_wf count' ∧
∀ p, dget p since' = (if decide (p ∈ present) then dget p since else None) ∧
     dget p count' = (if decide (p ∈ present) then dget p count else None).
Proof.
intros H1 H2 Hk. unfold forget_drained.
set (gone := filter (λ p, p ∉ present) (dkeys since)).
split_and!; [by apply dict_wf_filter_key..|]. intros p.
pose proof (dget_filter_key (λ p, p ∉ gone) p since) as E1.
pose proof (dget_filter_key (λ p, p ∉ gone) p count) as E2.
assert (Hg : p ∈ gone ↔ p ∉ present ∧ p ∈ dkeys since) by (unfold gone; by rewrite list_elem_of_filter).
specialize (Hk p). cbv beta in E1, E2.
assert (Hn1 : p ∉ dkeys since → dget p since = None) by apply dget_None.
assert (Hn2 : p ∉ dkeys count → dget p count = None) by apply dget_None.
split.
- etrans; [exact E1|]. clear E1 E2.
  destruct (decide (p ∈ present)), (decide (p ∉ gone)); try done.
  + exfalso. tauto.
  + apply Hn1. tauto.
- etrans; [exact E2|]. clear E1 E2.
  destruct (decide (p ∈ present)), (decide (p ∉ gone)); try done.
  + exfalso. tauto.
  + apply Hn2. tauto.
Qed.
End dwell.

(** Queued work is failed as permanently unsatisfiable exactly when its
    partition cannot run on the registered workers now, was found so by enough
    consecutive observations and for long enough; a satisfiable or drained
    partition starts over. *)
Theorem unsatisfiable_needs_dwell {S} `{SchedulingPolicy S} cfg meets total now (m m' : manager S) doomed :
  dwell_wf m → permanently_unsatisfiable cfg meets total now m = (m', doomed) →
  let blocked p := p ∈ remaining_partitions cfg m ∧ partition_eligible cfg meets total p = false in
  let since p := dget_or now p (unsatisfiable_since m) in
  let count p := (dget_or 0 p (unsatisfiable_count m) + 1)%Z in
  dwell_wf m' ∧ all_items m' = all_items m ∧
  (∀ p, dget p (unsatisfiable_since m') = (if decide (blocked p) then Some (since p) else None) ∧
        dget p (unsatisfiable_count m') = (if decide (blocked p) then Some (count p) else None)) ∧
  ∀ i, i ∈ doomed ↔ i ∈ all_items m ∧ blocked (partition_of cfg i) ∧
    fleb (ManagerConfig.unsatisfiable_dwell_seconds cfg) (fsub now (since (partition_of cfg i))) = true ∧
    (ManagerConfig.unsatisfiable_dwell_observations cfg <= count (partition_of cfg i))%Z.
Proof.
  intros (H1 & H2 & Hk) Hp blocked since count. unfold permanently_unsatisfiable in Hp.
  set (present := remove_dups (remaining_partitions cfg m)) in *.
  pose proof (forget_drained_spec present _ _ H1 H2 Hk) as Hf.
  destruct (forget_drained present _ _) as [s1 c1]. destruct Hf as (F1 & F2 & Hf).
  pose proof (observe_spec cfg meets total now present s1 c1 (NoDup_remove_dups _) F1 F2) as Ho.
  destruct (foldl _ _ present) as [s2 c2]. destruct Ho as (O1 & O2 & Ho). injection Hp as <- <-.
  assert (Hpres : ∀ p, p ∈ present ↔ p ∈ remaining_partitions cfg m)
    by (intros p; apply elem_of_remove_dups).
  assert (Hget : ∀ p, dget p s2 = (if decide (blocked p) then Some (since p) else None) ∧
                      dget p c2 = (if decide (blocked p) then Some (count p) else None)).
  { intros p. specialize (Ho p). destruct (Hf p) as [G1 G2]. unfold blocked, since, count, dget_or in *.
    specialize (Hpres p). destruct (decide (p ∈ present)).
    - rewrite G1, G2 in Ho. destruct (partition_eligible cfg meets total p);
        [rewrite !decide_False by naive_solver|rewrite !decide_True by naive_solver]; done.
    - rewrite !decide_False by naive_solver. rewrite G1, G2 in Ho. done. }
  split_and!; [| done|exact Hget|].
  - split_and!; [done|done|]. intros p. simpl. rewrite <-!dget_is_Some. destruct (Hget p) as [-> ->].
    by case_decide; split; intros [? ?]; eauto.
  - intros i. rewrite list_elem_of_filter. unfold doomed_partitions. rewrite list_elem_of_fmap.
    setoid_rewrite list_elem_of_filter. setoid_rewrite andb_true_iff. destruct (Hget (partition_of cfg i)) as [G1 G2].
    split.
    + intros [([p t] & Hpi & [Ht1 Ht2] & Hin) Hi]. simpl in *. subst p.
      apply (elem_dget _ _ _ O1) in Hin. rewrite G1 in Hin. case_decide as Hb; [|done]. injection Hin as <-.
      unfold dget_or in Ht2 at 1. rewrite G2 in Ht2. split_and!; [done|done|done|]. by apply Z.leb_le in Ht2.
    + intros (Hi & Hb & Ht1 & Ht2). split; [|done]. exists (partition_of cfg i, since (partition_of cfg i)).
      destruct (decide (blocked (partition_of cfg i))) as [_|Hnb]; [|done].
      split_and!; [done|exact Ht1| |by apply dget_elem].
      simpl. unfold dget_or at 1. rewrite G2. by apply Z.leb_le.
Qed.

Lemma unsatisfiable_needs_dwell_witness :
  let total := FreeCapacity.mk [] [] [] in
  let first := permanently_unsatisfiable Sample.cfg Sample.meets total (of_Z 10) Sample.m2 in
  let second := permanently_unsatisfiable Sample.cfg Sample.meets total (of_Z 20) first.1 in
  ids first.2 = [] ∧ ids second.2 = ["p"; "px"; "q"] ∧ dwell_wf second.1.
Proof.
  intros total first second.
  assert (W0 : dwell_wf Sample.m2).
  { split; [apply (bool_decide_unpack _); vm_compute; exact I|].
    split; [apply (bool_decide_unpack _); vm_compute; exact I|]. intros p. reflexivity. }
  assert (W1 : dwell_wf first.1).
  { exact (proj1 (unsatisfiable_needs_dwell Sample.cfg Sample.meets total (of_Z 10) Sample.m2 _ _ W0
      (surjective_pairing first))). }
  split; [vm_compute; reflexivity|]. split; [vm_compute; reflexivity|].
  exact (proj1 (unsatisfiable_needs_dwell Sample.cfg Sample.meets total (of_Z 20) first.1 _ _ W1
    (surjective_pairing second))).
Defined.
