(* ===== verification/CohortPack.v ===== *)
(** * The cohort-packing policy (runtime/job_manager/policies/cohort_pack.py)

    [cohort_pack] groups the candidates by chain, round and template, cuts the
    chains that run the same template in lock step (the cohort) into balanced
    units, and dispatches one unit at a time: a complete one when it can, an
    incomplete one when it has been passed over too often.  Left-over room is
    filled with whole rounds when the cost model says it pays.  Sets of
    templates are [gset string]; [**] on floats is the parameter [pow]. *)

From S2P Require Import Prelude PyFloat PyDict Grouping PyValue PyString Protocol RuntimeGraph DslGraph JobBase.

(** [(chain, round, template)] *)
Definition Key : Type := string * (Z * string).
Definition key_chain (k : Key) : string := k.1.
Definition key_round (k : Key) : Z := k.2.1.
Definition key_template (k : Key) : string := k.2.2.
Definition str_eqb (a b : string) : bool := bool_decide (a = b).
Definition key_lt : Key → Key → bool := lex_lt str_eqb str_ltb (lex_lt Z.eqb Z.ltb str_ltb).

Module CohortPackArgs.
Record t := mk {
fixed_seconds : f64;
mix_seconds : f64;
beta : f64;
area_to_seconds : f64;
gamma : f64;
batch_size : Z;
patience : Z;
}.

Definition default : t := mk fzero fzero (of_Z 1) (of_Z 1) (of_Z 1) 10 8.

(** The field constraints pydantic enforces. *)
Definition valid (a : t) : bool :=
let ge0 x := (is_finite x && fleb fzero x)%bool in
let gt0 x := (is_finite x && fltb fzero x)%bool in
(ge0 (fixed_seconds a) && ge0 (mix_seconds a) && gt0 (beta a) && gt0 (area_to_seconds a) &&
 ge0 (gamma a) && (0 <? batch_size a)%Z && (0 <=? patience a)%Z)%bool.
End CohortPackArgs.

Module BatchCostModel.
Record t := mk {
fixed_seconds : f64;
mix_seconds : f64;
beta : f64;
area_to_seconds : f64;
batch_size : Z;
}.

Section model.
(** Python's [**] on floats. *)
Context (pow : f64 → f64 → result f64).

(** [self.area_to_seconds * max(area, 1e-9)] *)
Definition unit_seconds (m : t) (area : f64) : f64 :=
fmul (area_to_seconds m) (fmax2 area (int_truediv 1 (10 ^ 9))).

Definition fixed (m : t) (area : f64) : result f64 := py_div (fixed_seconds m) (unit_seconds m area).
Definition mix (m : t) (area : f64) : result f64 := py_div (mix_seconds m) (unit_seconds m area).

(** [scale] on a float and on an int ([max(k, 1.0) / batch_size] divides
  exactly in both cases). *)
Definition scale (m : t) (k : f64) : result f64 :=
ratio ← py_div (fmax2 k (of_Z 1)) (of_Z (batch_size m)); pow ratio (fsub (beta m) (of_Z 1)).
Definition scale_int (m : t) (k : Z) : result f64 :=
ratio ← py_int_div (Z.max k 1) (batch_size m); pow ratio (fsub (beta m) (of_Z 1)).

Definition per_work (m : t) (k n_d : Z) (fixed mix : f64) : result f64 :=
base ← py_div (fadd fixed (fmul mix (of_Z (n_d - 1)))) (of_Z k);
s ← scale_int m k;
Ok (fadd base s).

(** [T(n)] and [L(n)] *)
Definition time_of (m : t) (ready : Z) (fixed : f64) (n : Z) : result f64 :=
r ← py_int_div ready n; s ← scale m r; Ok (fadd fixed (fmul r s)).
Definition lane_time (m : t) (ready : Z) (fixed : f64) (n : Z) : result f64 :=
r ← py_int_div ready n; s ← scale m r;
Ok (fadd (fmul (of_Z n) fixed) (fmul (of_Z ready) s)).

(** One more batch saves at least [gamma] times the lane-time it costs. *)
Definition spread_pays (m : t) (ready : Z) (gamma fixed : f64) (n : Z) : result bool :=
t1 ← time_of m ready fixed n;
t2 ← time_of m ready fixed (n + 1);
l2 ← lane_time m ready fixed (n + 1);
l1 ← lane_time m ready fixed n;
Ok (fleb (fmul gamma (fsub l2 l1)) (fsub t1 t2)).

(** The [while] loop; the fuel is [n_max - n], so it ends exactly when the
  guard [n < n_max] fails. *)
Fixpoint spread_loop (fuel : nat) (m : t) (ready : Z) (gamma fixed : f64) (n : Z) : result Z :=
match fuel with
| O => Ok n
| S fuel' =>
    pays ← spread_pays m ready gamma fixed n;
    if (pays : bool) then spread_loop fuel' m ready gamma fixed (n + 1) else Ok n
end.

Definition spread_n (m : t) (ready n_max : Z) (gamma fixed : f64) : result Z :=
q ← py_int_div ready (batch_size m);
c ← fceil q;
let n := Z.max 1 c in
let n_max := Z.max n (Z.min n_max ready) in
spread_loop (Z.to_nat (n_max - n)) m ready gamma fixed n.
End model.
End BatchCostModel.

Module CohortUnit.
Record t := mk { members : list Key; complete : bool }.
End CohortUnit.

(** ** The policy's memory *)

Record cohort_state := Cohort {
  cs_model : BatchCostModel.t;
  cs_gamma : f64;
  cs_patience : Z;
  cs_free_lanes : option Z;
  cs_history : dict string (dict Z (gset string));
  cs_last_round : dict string Z;
  cs_chains_at : dict Z (list string);
  cs_width : dict string Z;
}.

Definition cohort_init (args : CohortPackArgs.t) : cohort_state :=
  Cohort (BatchCostModel.mk (CohortPackArgs.fixed_seconds args) (CohortPackArgs.mix_seconds args)
            (CohortPackArgs.beta args) (CohortPackArgs.area_to_seconds args)
            (CohortPackArgs.batch_size args))
         (CohortPackArgs.gamma args) (CohortPackArgs.patience args) None [] [] [] [].

Definition cohort_observe (st : cohort_state) (free_lanes : option Z) : cohort_state :=
  Cohort (cs_model st) (cs_gamma st) (cs_patience st) free_lanes (cs_history st)
         (cs_last_round st) (cs_chains_at st) (cs_width st).

(** ** What a commit records *)

Definition round_key (i : WorkflowItem.t) : string * Z :=
  (chain_of i, LumilakeRequestConfig.chain_round (WorkflowItem.config i)).

(** [seen] and [templates], one entry per (chain, round) of the batch. *)
Definition tally (workflows : list WorkflowItem.t) : dict (string * Z) (Z * gset string) :=
  foldl (λ d i,
    let '(n, ts) := dget_or (0%Z, ∅) (round_key i) d in
    dset (round_key i) ((n + 1)%Z, {[WorkflowItem.template_hash i]} ∪ ts) d) [] workflows.

(** The width recorded for the chain: the widest batch of its latest round. *)
Definition width_after (st : cohort_state) (chain : string) (rnd latest count : Z) : dict string Z :=
  if bool_decide (Some rnd = dget chain (cs_last_round st))
  then dset chain (Z.max (dget_or 0%Z chain (cs_width st)) count) (cs_width st)
  else if (rnd =? latest)%Z then dset chain count (cs_width st)
  else cs_width st.

Definition commit_round (st : cohort_state) (entry : (string * Z) * (Z * gset string)) :
    cohort_state * option exn :=
  let '((chain, rnd), (count, templates)) := entry in
  let history := dget_or [] chain (cs_history st) in
  let history := dset rnd (dget_or ∅ rnd history ∪ templates) history in
  let previous := dget chain (cs_last_round st) in
  let latest := match previous with None => rnd | Some p => Z.max p rnd end in
  let st := Cohort (cs_model st) (cs_gamma st) (cs_patience st) (cs_free_lanes st)
              (dset chain history (cs_history st)) (cs_last_round st) (cs_chains_at st)
              (width_after st chain rnd latest count) in
  let joined at_ :=
    let here := dget_or [] latest at_ in
    Cohort (cs_model st) (cs_gamma st) (cs_patience st) (cs_free_lanes st) (cs_history st)
           (dset chain latest (cs_last_round st))
           (dset latest (if decide (chain ∈ here) then here else here ++ [chain]) at_)
           (cs_width st) in
  if bool_decide (Some latest = previous) then (st, None)
  else
    match previous with
    | None => (joined (cs_chains_at st), None)
    | Some p =>
        match dget p (cs_chains_at st) with
        | None => (st, Some (KeyError "_chains_at"))
        | Some chains => (joined (dset p (filter (.≠ chain) chains) (cs_chains_at st)), None)
        end
    end.

Fixpoint commit_rounds (st : cohort_state) (entries : list ((string * Z) * (Z * gset string))) :
    cohort_state * option exn :=
  match entries with
  | [] => (st, None)
  | entry :: entries' =>
      match commit_round st entry with
      | (st', None) => commit_rounds st' entries'
      | failed => failed
      end
  end.

Definition cohort_commit (st : cohort_state) (workflows : list WorkflowItem.t) :
    cohort_state * option exn := commit_rounds st (tally workflows).

(** ** Units *)

Abbreviation groups_t := (dict Key (list WorkflowItem.t)).
Abbreviation signature_t := (list (option (gset string))).

Definition signature (st : cohort_state) (chain : string) (rnd : Z) : signature_t :=
  let history := dget_or [] chain (cs_history st) in
  map (λ i, dget i history) (seqZ 0 rnd).

(** Slices of a group ([len(groups[key])]). *)
Definition group_size (groups : groups_t) (key : Key) : Z := Z.of_nat (length (dget_or [] key groups)).

(** [by_template.setdefault((template, round), {})[chain] = key] *)
Definition slot_of (key : Key) : string * Z := (key_template key, key_round key).

Definition by_template (groups : groups_t) : dict (string * Z) (dict string Key) :=
  nest_fold slot_of key_chain (λ key, key) (dkeys groups).

(** The (template, round) slots a chain is ready on. *)
Definition ready_at (slots : dict (string * Z) (dict string Key)) (chain : string) : list (string * Z) :=
  omap (λ kv, if dmem chain kv.2 then Some kv.1 else None) slots.

Definition by_signature (st : cohort_state) (rnd : Z) (ready : dict string Key) :
    dict signature_t (dict string Key) :=
  nest_fold (λ ck : string * Key, signature st ck.1 rnd) fst snd ready.

(** Whether a chain that last committed the previous round is a mate the
    cohort waits for. *)
Definition is_mate (st : cohort_state) (slots : dict (string * Z) (dict string Key))
    (template : string) (rnd : Z) (sig : signature_t) (ready_chains : dict string Key) (chain : string) : bool :=
  (negb (dmem chain ready_chains) && bool_decide (signature st chain rnd = sig) &&
   (bool_decide (ready_at slots chain = []) ||
    bool_decide ((template, rnd) ∈ ready_at slots chain)))%bool.

(** Chain to the slices it counts with. *)
Definition cohort_width (st : cohort_state) (groups : groups_t) (slots : dict (string * Z) (dict string Key))
    (template : string) (rnd : Z) (sig : signature_t) (ready_chains : dict string Key) : dict string Z :=
  let start := map (λ ck, (ck.1, group_size groups ck.2)) ready_chains in
  if (0 <? rnd)%Z then
    foldl (λ width chain,
      let w := dget_or 0%Z chain (cs_width st) in
      dset chain (if (w =? 0)%Z then 1%Z else w) width)
      start
      (filter (λ chain, is_mate st slots template rnd sig ready_chains chain = true)
              (dget_or [] (rnd - 1)%Z (cs_chains_at st)))
  else start.

(** The cut of the sorted cohort into parts. *)
Fixpoint cut (batch_size count : Z) (target : f64) (width : dict string Z) (cohort part : list string)
    (size parts : Z) : list (list string) :=
  match cohort with
  | [] => match part with [] => [] | _ => [part] end
  | chain :: cohort' =>
      let w := dget_or 0%Z chain width in
      if (negb (bool_decide (part = [])) &&
          ((batch_size <? size + w)%Z || ((parts <? count - 1)%Z && fleb target (of_Z size))))%bool
      then part :: cut batch_size count target width cohort' [chain] w (parts + 1)
      else cut batch_size count target width cohort' (part ++ [chain]) (size + w) parts
  end.

Definition zsum (l : list Z) : Z := foldl Z.add 0%Z l.

Definition cohort_parts (batch_size : Z) (width : dict string Z) : result (list (list string)) :=
  let cohort := sorted_by str_ltb id (dkeys width) in
  let total := zsum (dvals width) in
  q ← py_int_div total batch_size;
  c ← fceil q;
  let count := Z.max 1 c in
  target ← py_int_div total count;
  Ok (cut batch_size count target width cohort [] 0 0).

(** The unit of a part: its chains that are ready. *)
Definition unit_of_part (ready_chains : dict string Key) (part : list string) : option CohortUnit.t :=
  match omap (λ c, dget c ready_chains) part with
  | [] => None
  | members => Some (CohortUnit.mk members (bool_decide (length members = length part)))
  end.

Definition cohort_units (st : cohort_state) (groups : groups_t) (slots : dict (string * Z) (dict string Key))
    (batch_size : Z) (template : string) (rnd : Z) (entry : signature_t * dict string Key) :
    result (list CohortUnit.t) :=
  let '(sig, ready_chains) := entry in
  parts ← cohort_parts batch_size (cohort_width st groups slots template rnd sig ready_chains);
  Ok (omap (unit_of_part ready_chains) (parts : list (list string))).

Definition slot_units (st : cohort_state) (groups : groups_t) (slots : dict (string * Z) (dict string Key))
    (batch_size : Z) (slot : (string * Z) * dict string Key) : result (list CohortUnit.t) :=
  let '((template, rnd), ready) := slot in
  units ← mapR (cohort_units st groups slots batch_size template rnd) (by_signature st rnd ready);
  Ok (concat (units : list (list CohortUnit.t))).

Definition units_of (st : cohort_state) (groups : groups_t) (batch_size : Z) : result (list CohortUnit.t) :=
  let slots := by_template groups in
  units ← mapR (slot_units st groups slots batch_size) slots;
  Ok (concat (units : list (list CohortUnit.t))).

(** ** Selecting a batch *)

Definition item_key (i : WorkflowItem.t) : Key :=
  (chain_of i, (LumilakeRequestConfig.chain_round (WorkflowItem.config i), WorkflowItem.template_hash i)).

Definition slice_key_lt : f64 * (Z * string) → f64 * (Z * string) → bool :=
  lex_lt feqb fltb (lex_lt Z.eqb Z.ltb str_ltb).
Definition slice_key (i : WorkflowItem.t) : f64 * (Z * string) :=
  (WorkflowItem.enqueued_at i, (WorkflowItem.slice_index i, WorkflowItem.workflow_id i)).

Definition group_items (candidates : list WorkflowItem.t) : groups_t := group_by item_key candidates.

Definition sorted_groups (candidates : list WorkflowItem.t) : groups_t :=
  map (λ kv, (kv.1, sorted_by slice_key_lt slice_key kv.2)) (group_items candidates).

Section select.
Context (groups : groups_t).

Definition group (k : Key) : list WorkflowItem.t := dget_or [] k groups.
Definition unit_items (u : CohortUnit.t) : list WorkflowItem.t := CohortUnit.members u ≫= group.

(** [groups[k][0].enqueued_at]; the groups are not empty. *)
Definition first_time (k : Key) : f64 :=
match group k with i :: _ => WorkflowItem.enqueued_at i | [] => fzero end.
Definition first_member (u : CohortUnit.t) : Key := default ("", (0%Z, "")) (head (CohortUnit.members u)).

Definition oldest (u : CohortUnit.t) : f64 * Key :=
(match CohortUnit.members u with
 | [] => fzero
 | k :: ks => first_time (min_by fltb first_time k ks)
 end, first_member u).
Definition oldest_lt : f64 * Key → f64 * Key → bool := lex_lt feqb fltb key_lt.

Definition waited (u : CohortUnit.t) : Z :=
match WorkflowItem.miss_count <$> unit_items u with [] => 0%Z | m :: ms => foldl Z.max m ms end.

(** [(waited, tuple(-ord(ch) ...))]; the code units compare as the code
  points do. *)
Definition passed_over (u : CohortUnit.t) : Z * list Z :=
(waited u, map (λ c, (- Z.of_N (ascii_code c))%Z) (chars (key_chain (first_member u)))).
Definition passed_lt : Z * list Z → Z * list Z → bool := lex_lt Z.eqb Z.ltb (list_lt Z.eqb Z.ltb).

Definition anchor_key (u : CohortUnit.t) : Z * (f64 * Key) := ((- waited u)%Z, oldest u).
Definition anchor_lt : Z * (f64 * Key) → Z * (f64 * Key) → bool := lex_lt Z.eqb Z.ltb oldest_lt.

(** [min(l, key=key)] raises on an empty list. *)
Definition py_min {K} (lt : K → K → bool) (key : CohortUnit.t → K) (l : list CohortUnit.t) :
  result CohortUnit.t :=
match l with
| [] => Err (ValueError "min() arg is an empty sequence")
| u :: us => Ok (min_by lt key u us)
end.

Definition overdue (patience : Z) (units : list CohortUnit.t) : list CohortUnit.t :=
filter (λ u, CohortUnit.complete u = false ∧ (patience < waited u)%Z) units.

Definition choose_unit (patience : Z) (units : list CohortUnit.t) : result CohortUnit.t :=
match overdue patience units with
| [] =>
    match filter (λ u, CohortUnit.complete u = true) units with
    | [] => py_min anchor_lt anchor_key units
    | complete => py_min anchor_lt anchor_key complete
    end
| u :: us =>
    let top := passed_over (max_by passed_lt passed_over u us) in
    py_min oldest_lt oldest (filter (λ u, passed_over u = top) (u :: us))
end.
End select.

Section policy.
Context (estimate_area : WorkflowItem.t → result (option f64)).
Context (pow : f64 → f64 → result f64).

(** ** Filling the room that is left *)

(** [(rank, key, template, size)] *)
Definition atom : Type := Z * Key * string * Z.
Definition atom_rank (a : atom) : Z := a.1.1.1.
Definition atom_key (a : atom) : Key := a.1.1.2.
Definition atom_template (a : atom) : string := a.1.2.
Definition atom_size (a : atom) : Z := a.2.

Definition fill_atoms (groups : groups_t) (unit_ : CohortUnit.t) (room : Z) : list atom :=
let order := sorted_by oldest_lt (λ k, (first_time groups k, k)) (dkeys groups) in
filter (λ a, atom_key a ∉ CohortUnit.members unit_ ∧ (atom_size a <= room)%Z)
  (imap (λ rank key, (Z.of_nat rank, key, key_template key, group_size groups key)) order).

(** [itertools.combinations(l, n)] in its order. *)
Fixpoint combinations {A} (n : nat) (l : list A) : list (list A) :=
match n, l with
| O, _ => [[]]
| S n', [] => []
| S n', x :: l' => map (cons x) (combinations n' l') ++ combinations n l'
end.

Definition value (m : BatchCostModel.t) (groups : groups_t) (keys : list Key) (distinct : Z)
  (fixed mix : f64) : result f64 :=
BatchCostModel.per_work pow m (zsum (group_size groups <$> keys)) distinct fixed mix.

(** [unit_of] and the number of other units a combination takes only a part
  of. *)
Definition unit_of (units : list CohortUnit.t) : dict Key nat :=
dict_of (concat (imap (λ i u, (λ k, (k, i)) <$> CohortUnit.members u) units)).

Definition broken (units : list CohortUnit.t) (combo : list atom) : Z :=
let took := foldl (λ d a,
  match dget (atom_key a) (unit_of units) with
  | Some i => dset i (dget_or 0 i d + 1) d
  | None => d
  end) [] combo in
Z.of_nat (length (filter (λ kv : nat * nat,
  kv.2 < length (default [] (CohortUnit.members <$> units !! kv.1))) took)).

Definition score_lt : f64 * (Z * Z) → f64 * (Z * Z) → bool :=
lex_lt feqb fltb (lex_lt Z.eqb Z.ltb Z.ltb).

(** One combination: kept when it fits and scores strictly better. *)
Definition fill_step (m : BatchCostModel.t) (groups : groups_t) (unit_ : CohortUnit.t)
  (units : list CohortUnit.t) (room : Z) (fixed mix : f64)
  (best : (f64 * (Z * Z)) * list Key) (combo : list atom) : result ((f64 * (Z * Z)) * list Key) :=
if (room <? zsum (atom_size <$> combo))%Z then Ok best
else
  let keys := atom_key <$> combo in
  let templates := remove_dups (filter (.≠ key_template (first_member unit_)) (atom_template <$> combo)) in
  v ← value m groups (CohortUnit.members unit_ ++ keys) (1 + Z.of_nat (length templates)) fixed mix;
  let score := (fround9 v, (broken units combo, zsum (atom_rank <$> combo))) in
  Ok (if score_lt score best.1 then (score, keys) else best).

Definition fill (m : BatchCostModel.t) (groups : groups_t) (unit_ : CohortUnit.t)
  (units : list CohortUnit.t) (batch_size : Z) (fixed mix : f64) : result (list WorkflowItem.t) :=
let room := (batch_size - zsum (group_size groups <$> CohortUnit.members unit_))%Z in
let atoms := fill_atoms groups unit_ room in
v ← value m groups (CohortUnit.members unit_) 1 fixed mix;
best ← foldR (fill_step m groups unit_ units room fixed mix) ((fround9 v, (0%Z, 0%Z)), [])
         (combinations 1 atoms ++ combinations 2 atoms ++ combinations 3 atoms);
Ok (best.2 ≫= group groups).

(** ** The whole selection *)

(** How many slices of the unit go out when it is spread over idle lanes;
  [None] when it is not. *)
Definition spread_share (st : cohort_state) (n_units n_out : Z) (fixed : f64) : result (option Z) :=
match cs_free_lanes st with
| Some free =>
    let avail := (free - (n_units - 1))%Z in
    if ((1 <? free) && (1 <? avail))%Z then
      lanes ← BatchCostModel.spread_n pow (cs_model st) n_out (Z.min avail n_out) (cs_gamma st) fixed;
      if (1 <? lanes)%Z then
        q ← py_int_div n_out lanes;
        c ← fceil q;
        Ok (Some (Z.max 1 c))
      else Ok None
    else Ok None
| None => Ok None
end.

(** [estimate_area(...) or 1.0] *)
Definition area_or_one (area : option f64) : f64 :=
match area with Some a => if feqb a fzero then of_Z 1 else a | None => of_Z 1 end.

Definition cohort_select (st : cohort_state) (candidates : list WorkflowItem.t) (batch_size : Z) :
  result (list string) :=
match candidates with
| [] => Ok []
| _ =>
    let groups := sorted_groups candidates in
    units ← units_of st groups batch_size;
    unit_ ← choose_unit groups (cs_patience st) units;
    let out := unit_items groups unit_ in
    first ← ok_or (IndexError "list index out of range") (head (group groups (first_member unit_)));
    estimated ← estimate_area first;
    let area := area_or_one estimated in
    fixed ← BatchCostModel.fixed (cs_model st) area;
    mix ← BatchCostModel.mix (cs_model st) area;
    share ← spread_share st (Z.of_nat (length units)) (Z.of_nat (length out)) fixed;
    match share with
    | Some share => Ok (py_take batch_size (ids (py_take share out)))
    | None =>
        more ← (if (Z.of_nat (length out) <? batch_size)%Z
                then fill (cs_model st) groups unit_ units batch_size fixed mix else Ok []);
        Ok (ids (py_take batch_size (out ++ more)))
    end
end.

#[local] Instance cohort_policy : SchedulingPolicy cohort_state := {
select_batch := cohort_select;
on_commit := cohort_commit;
observe_free_lanes := cohort_observe;
}.
End policy.
