(* ===== verification/CohortPackProps.v ===== *)
(** * Properties of the cohort-packing policy

    The units of a selection partition the ready groups, the selection is a
    batch (the policy interface's law), it serves the units in the order the
    policy promises, and the commit bookkeeping never fails. *)

From S2P Require Import Prelude PyFloat PyDict Grouping PyValue PyString Protocol RuntimeGraph DslGraph JobBase Clustering CohortPack.

(** ** Groups *)

Lemma sorted_groups_keys c : dkeys (sorted_groups c) = dkeys (group_items c).
Proof. unfold sorted_groups, dkeys. by rewrite <-list_fmap_compose. Qed.

Lemma sorted_groups_wf c : dict_wf (sorted_groups c).
Proof. unfold dict_wf. rewrite sorted_groups_keys. apply group_by_wf. Qed.

Lemma sorted_groups_concat c : concat (dvals (sorted_groups c)) ≡ₚ c.
Proof.
  rewrite <-(group_by_concat item_key c) at 2. unfold sorted_groups, group_items, dvals.
  induction (group_by item_key c) as [|[k l] d IH]; csimpl; [done|].
  by rewrite IH, sorted_by_perm.
Qed.

Lemma sorted_groups_entry c k l :
  (k, l) ∈ sorted_groups c → l ≠ [] ∧ ∀ i, i ∈ l ↔ i ∈ c ∧ item_key i = k.
Proof.
  unfold sorted_groups. intros ([k' l'] & [= -> ->] & Hin)%list_elem_of_fmap.
  apply group_by_entry in Hin as [-> Hne]. split.
  - intros E. apply Hne. apply Permutation_nil_r. by rewrite <-(sorted_by_perm slice_key_lt slice_key), E.
  - intros i. rewrite elem_of_sorted_by, list_elem_of_filter. tauto.
Qed.

Lemma group_nonempty c k : k ∈ dkeys (sorted_groups c) → group (sorted_groups c) k ≠ [].
Proof.
  intros ([k' l] & -> & Hin)%list_elem_of_fmap. unfold group, dget_or. simpl.
  rewrite (elem_dget k' l) by (done || apply sorted_groups_wf). by apply sorted_groups_entry in Hin as [? _].
Qed.

Lemma group_elem c k i : i ∈ group (sorted_groups c) k → i ∈ c ∧ item_key i = k.
Proof.
  unfold group, dget_or. destruct (dget k (sorted_groups c)) as [l|] eqn:E; [|set_solver].
  intros Hi. apply dget_elem, sorted_groups_entry in E as [_ E]. by apply E.
Qed.

Lemma sorted_groups_key c k : k ∈ dkeys (sorted_groups c) ↔ ∃ i, i ∈ c ∧ item_key i = k.
Proof. rewrite sorted_groups_keys. apply group_by_keys. Qed.

(** ** The cut *)

Lemma cut_concat b n t w cohort part size parts :
  concat (cut b n t w cohort part size parts) = part ++ cohort.
Proof.
  revert part size parts. induction cohort as [|c cohort IH]; intros part size parts; simpl.
  - destruct part; simpl; by rewrite ?app_nil_r.
  - case_match; simpl; rewrite IH; [done|]. by rewrite <-app_assoc.
Qed.

(** The slices a list of chains counts with. *)
Definition width_of (w : dict string Z) (l : list string) : Z := zsum ((λ c, dget_or 0%Z c w) <$> l).

Lemma zsum_cons x l : zsum (x :: l) = (x + zsum l)%Z.
Proof.
  unfold zsum. simpl. assert (G : ∀ a, foldl Z.add a l = (a + foldl Z.add 0 l)%Z).
  { induction l as [|y l IH]; intros a; cbn [foldl]; [lia|]. rewrite (IH (a + y)%Z), (IH (0 + y)%Z). lia. }
  rewrite G. lia.
Qed.

Lemma zsum_app l1 l2 : zsum (l1 ++ l2) = (zsum l1 + zsum l2)%Z.
Proof. induction l1 as [|x l1 IH]; [done|]. simpl app. rewrite !zsum_cons, IH. lia. Qed.

Lemma zsum_perm l1 l2 : l1 ≡ₚ l2 → zsum l1 = zsum l2.
Proof. induction 1; rewrite ?zsum_cons; lia. Qed.

Lemma zsum_nonneg l : Forall (Z.le 0) l → (0 <= zsum l)%Z.
Proof. induction 1 as [|x l Hx Hl IH]; [done|]. rewrite zsum_cons. lia. Qed.

(** A part of several chains fits the batch size. *)
Lemma cut_fits b n t w cohort part size parts p :
  size = width_of w part → length part ≤ 1 ∨ (size <= b)%Z →
  p ∈ cut b n t w cohort part size parts → (length p ≤ 1 ∨ (width_of w p <= b)%Z) ∧ p ≠ [].
Proof.
  revert part size parts. induction cohort as [|c cohort IH]; intros part size parts -> Hp Hin; simpl in Hin.
  - destruct part; [set_solver|]. apply list_elem_of_singleton in Hin as ->. done.
  - destruct (negb _ && _)%bool eqn:E.
    + apply andb_true_iff in E as [E%negb_true_iff%bool_decide_eq_false _].
      apply elem_of_cons in Hin as [->|Hin]; [done|].
      eapply IH; [| |exact Hin]; [|left; simpl; lia]. unfold width_of. csimpl. rewrite zsum_cons. unfold zsum. simpl. lia.
    + eapply IH; [| |exact Hin].
      * unfold width_of. rewrite fmap_app, zsum_app. csimpl. rewrite zsum_cons. unfold zsum. simpl. lia.
      * destruct part as [|c0 part]; [left; simpl; lia|right]. simpl in E.
        apply orb_false_iff in E as [E%Z.ltb_ge _]. lia.
Qed.

(** ** The units of one cohort *)

Lemma dget_map_snd {V W} (f : V → W) (d : dict string V) c :
  dget c (map (λ cv, (cv.1, f cv.2)) d) = f <$> dget c d.
Proof. induction d as [|[k v] d IH]; simpl; [done|]. by case_decide. Qed.

(** Setting each key of a list to a function of the key. *)
Lemma fold_dset_get {V} (f : string → V) l (d : dict string V) c :
  dget c (foldl (λ d c, dset c (f c) d) d l) = if decide (c ∈ l) then Some (f c) else dget c d.
Proof.
  revert d. induction l as [|x l IH]; intros d; cbn [foldl]; [done|].
  rewrite IH, dget_dset. destruct (decide (c ∈ l)), (decide (c = x)); subst;
    first [by rewrite decide_True by set_solver|by rewrite decide_False by set_solver].
Qed.

Lemma fold_dset_wf {V} (f : string → V) l (d : dict string V) :
  dict_wf d → dict_wf (foldl (λ d c, dset c (f c) d) d l).
Proof. revert d. induction l as [|x l IH]; intros d Hd; [done|]. cbn [foldl]. by apply IH, dict_wf_dset. Qed.

Section cohort.
Context (st : cohort_state) (groups : groups_t) (slots : dict (string * Z) (dict string Key)).
Context (template : string) (rnd : Z) (sig : signature_t) (ready : dict string Key).
Context (Hready : dict_wf ready).

Abbreviation width_ := (cohort_width st groups slots template rnd sig ready).

(** A ready chain counts with its own slices. *)
Lemma width_ready c k : dget c ready = Some k → dget c width_ = Some (group_size groups k).
Proof using Type.
intros Hc. unfold cohort_width. set (start := map _ ready).
assert (Hs : dget c start = Some (group_size groups k)).
{ unfold start. rewrite (dget_map_snd (group_size groups)). by rewrite Hc. }
destruct (0 <? rnd)%Z; [|done].
rewrite (fold_dset_get (λ chain, let w := dget_or 0%Z chain (cs_width st) in if (w =? 0)%Z then 1%Z else w)).
rewrite decide_False; [done|]. rewrite list_elem_of_filter. unfold is_mate, dmem. rewrite Hc. by intros [? _].
Qed.

Lemma width_wf : dict_wf width_.
Proof using Hready.
unfold cohort_width. assert (H : dict_wf (map (λ ck, (ck.1, group_size groups ck.2)) ready)).
{ unfold dict_wf, dkeys. by rewrite <-list_fmap_compose. }
destruct (0 <? rnd)%Z; [|done]. by apply fold_dset_wf.
Qed.

(** Counts are never negative when the recorded widths are not. *)
Lemma width_nonneg c : (∀ c, 0 <= dget_or 0 c (cs_width st))%Z → (0 <= dget_or 0 c width_)%Z.
Proof using Type.
intros Hw. unfold cohort_width. set (start := map _ ready).
assert (Hs : (0 <= dget_or 0 c start)%Z).
{ unfold start, dget_or. rewrite (dget_map_snd (group_size groups)).
  destruct (dget c ready); simpl; unfold group_size; lia. }
destruct (0 <? rnd)%Z; [|done]. unfold dget_or at 1.
rewrite (fold_dset_get (λ chain, let w := dget_or 0%Z chain (cs_width st) in if (w =? 0)%Z then 1%Z else w)).
destruct (decide _); [|done]. cbv zeta. specialize (Hw c). case_match; lia.
Qed.

(** The members of the units of a cohort are its ready keys, once each. *)
Lemma unit_of_part_members parts :
concat (CohortUnit.members <$> omap (unit_of_part ready) parts) =
omap (λ c, dget c ready) (concat parts).
Proof using Type.
induction parts as [|p parts IH]; csimpl; [done|]. rewrite omap_app. unfold unit_of_part at 1.
destruct (omap _ p) as [|k ks] eqn:E; csimpl; [by rewrite IH|]. by rewrite IH.
Qed.

Lemma omap_dget_perm (d : dict string Key) l :
dict_wf d → NoDup l → dkeys d ⊆ l → omap (λ c, dget c d) l ≡ₚ dvals d.
Proof using Type.
intros Hw Hl Hsub. apply NoDup_submseteq in Hsub; [|exact Hw].
apply submseteq_Permutation in Hsub as [rest Hp]. rewrite Hp in Hl |- *.
apply NoDup_app in Hl as (_ & Hdis & _). rewrite omap_app.
assert (E1 : omap (λ c, dget c d) (dkeys d) = dvals d).
{ clear -Hw. unfold dict_wf, dkeys, dvals in *. induction d as [|[k v] d IH]; csimpl in *; [done|].
  apply NoDup_cons in Hw as [Hk Hw]. rewrite decide_True by done. f_equal. rewrite <-IH by done.
  apply list_omap_ext. apply Forall_Forall2_diag, Forall_forall. intros c Hc.
  rewrite decide_False; [done|]. by intros ->. }
assert (E2 : omap (λ c, dget c d) rest = []).
{ clear -Hdis. induction rest as [|c rest IH]; csimpl; [done|].
  rewrite (proj2 (dget_None c d)); [|intros Hc; apply (Hdis c Hc); set_solver].
  apply IH. set_solver. }
by rewrite E1, E2, app_nil_r.
Qed.

Lemma cohort_units_members b units :
cohort_units st groups slots b template rnd (sig, ready) = Ok units →
concat (CohortUnit.members <$> units) ≡ₚ dvals ready.
Proof using Hready.
unfold cohort_units, cohort_parts. intros H. inv_ok.
rewrite unit_of_part_members, cut_concat. simpl. apply omap_dget_perm; [done| |].
- rewrite sorted_by_perm. apply width_wf.
- intros c Hc. rewrite elem_of_sorted_by. apply dget_is_Some.
  apply dget_is_Some in Hc as [k Hk]. rewrite (width_ready c k) by done. by eexists.
Qed.

(** A unit of several members fits the batch size. *)
Lemma cohort_units_fit b units u :
(∀ c, 0 <= dget_or 0 c (cs_width st))%Z →
cohort_units st groups slots b template rnd (sig, ready) = Ok units → u ∈ units →
CohortUnit.members u ≠ [] ∧
(length (CohortUnit.members u) ≤ 1 ∨ (zsum (group_size groups <$> CohortUnit.members u) <= b)%Z).
Proof using Type.
unfold cohort_units, cohort_parts. intros Hw H Hu. inv_ok.
apply list_elem_of_omap in Hu as (p & Hp & Hu).
apply cut_fits in Hp as [Hp _]; [|done|left; simpl; lia].
unfold unit_of_part in Hu. set (ms := omap _ p) in Hu.
assert (Hms : CohortUnit.members u = ms ∧ ms ≠ []) by (destruct ms; simplify_eq; done).
destruct Hms as [-> Hne]. split; [done|].
assert (Hsz : length ms ≤ length p ∧ (zsum (group_size groups <$> ms) <= width_of width_ p)%Z).
{ unfold ms, width_of. clear -Hw. induction p as [|c p [IH1 IH2]]; csimpl; [done|].
  pose proof (width_nonneg c Hw) as Hc. destruct (dget c ready) as [k|] eqn:E; csimpl; rewrite !zsum_cons.
  - unfold dget_or at 1. rewrite (width_ready c k E). split; lia.
  - split; [lia|]. lia. }
destruct Hsz as [H1 H2]. destruct Hp as [Hp|Hp]; [left|right]; lia.
Qed.
End cohort.

(** ** All the units *)

Lemma Forall2_impl_in {A B} (P Q : A → B → Prop) l k :
  Forall2 P l k → (∀ x y, x ∈ l → y ∈ k → P x y → Q x y) → Forall2 Q l k.
Proof. induction 1; intros HPQ; constructor; [by apply HPQ; [left|left|]|set_solver]. Qed.

Lemma concat_perm_parts {A B C} (g : B → list C) (h : A → list C) l (yss : list (list B)) :
  Forall2 (λ x ys, concat (g <$> ys) ≡ₚ h x) l yss →
  concat (g <$> concat yss) ≡ₚ concat (h <$> l).
Proof.
  induction 1 as [|x ys l yss Hx _ IH]; csimpl; [done|].
  by rewrite fmap_app, concat_app, Hx, IH.
Qed.

Lemma by_signature_nested st rnd ready : dict_wf ready →
  nested (λ ck : string * Key, signature st ck.1 rnd) fst snd ready (by_signature st rnd ready).
Proof.
  intros Hw. apply nest_fold_nested. apply (NoDup_fmap_1 snd). rewrite <-list_fmap_compose. exact Hw.
Qed.

Lemma by_template_nested groups : dict_wf groups →
  nested slot_of key_chain (λ k, k) (dkeys groups) (by_template groups).
Proof.
  intros Hw. apply nest_fold_nested. apply NoDup_fmap_2; [|exact Hw].
  intros [c [r t]] [c' [r' t']] E. unfold slot_of, key_chain, key_template, key_round in E. simpl in E.
  congruence.
Qed.

Section units.
Context (st : cohort_state) (groups : groups_t) (batch_size : Z).
Context (Hgroups : dict_wf groups).

Lemma slot_units_members slots t r ready units :
dict_wf ready → slot_units st groups slots batch_size ((t, r), ready) = Ok units →
concat (CohortUnit.members <$> units) ≡ₚ dvals ready.
Proof using Type.
intros Hw H. unfold slot_units in H. inv_ok. pose proof (by_signature_nested st r ready Hw) as Hn.
rewrite (concat_perm_parts CohortUnit.members (λ e, dvals e.2) (by_signature st r ready)).
- pose proof (ne_vals _ _ _ _ _ Hn) as Hv. unfold nested_vals, dvals in Hv |- *.
  rewrite <-list_fmap_compose in Hv. exact Hv.
- apply mapR_ok_inv in Ha. eapply Forall2_impl_in; [exact Ha|].
  intros [sig inner] us Hin _ Hu. simpl. eapply cohort_units_members; [|exact Hu].
  by apply (ne_inner _ _ _ _ _ Hn sig inner).
Qed.

Lemma units_members units : units_of st groups batch_size = Ok units →
concat (CohortUnit.members <$> units) ≡ₚ dkeys groups.
Proof using Hgroups.
intros H. unfold units_of in H. inv_ok. pose proof (by_template_nested groups Hgroups) as Hn.
rewrite (concat_perm_parts CohortUnit.members (λ e, dvals e.2) (by_template groups)).
- pose proof (ne_vals _ _ _ _ _ Hn) as Hv. unfold nested_vals, dvals in Hv |- *.
  rewrite <-list_fmap_compose in Hv. by rewrite list_fmap_id in Hv.
- apply mapR_ok_inv in Ha. eapply Forall2_impl_in; [exact Ha|].
  intros [[t r] inner] us Hin _ Hu. simpl. eapply slot_units_members; [|exact Hu].
  by apply (ne_inner _ _ _ _ _ Hn (t, r) inner).
Qed.

(** A unit comes from one slot. *)
Lemma unit_origin units u : units_of st groups batch_size = Ok units → u ∈ units →
∃ slots t r ready sig inner us, ((t, r), ready) ∈ by_template groups ∧ dict_wf inner ∧
  (∀ c k, (c, k) ∈ inner → (c, k) ∈ ready) ∧
  cohort_units st groups slots batch_size t r (sig, inner) = Ok us ∧ u ∈ us.
Proof using Hgroups.
intros H Hu. unfold units_of in H. inv_ok. apply list_elem_of_In, in_concat in Hu as (l & Hl & Hu).
apply mapR_ok_inv in Ha. apply list_elem_of_In in Hl, Hu.
apply list_elem_of_lookup in Hl as [n Hl]. eapply Forall2_lookup_r in Ha as ([[t r] ready] & Hs & Ha); [|exact Hl].
apply list_elem_of_lookup_2 in Hs. pose proof (by_template_nested groups Hgroups) as Hn.
destruct (ne_inner _ _ _ _ _ Hn _ _ Hs) as [_ Hw]. clear Hn Hl n.
unfold slot_units in Ha. inv_ok. apply list_elem_of_In, in_concat in Hu as (us & Hus & Hu).
apply list_elem_of_In in Hus, Hu. apply mapR_ok_inv in Ha0.
apply list_elem_of_lookup in Hus as [n Hus].
eapply Forall2_lookup_r in Ha0 as ([sig inner] & Hsig & Ha0); [|exact Hus].
apply list_elem_of_lookup_2 in Hsig. pose proof (by_signature_nested st r ready Hw) as Hn.
eexists _, t, r, ready, sig, inner, us. split_and!; [done| | |exact Ha0|done].
- by apply (ne_inner _ _ _ _ _ Hn sig inner).
- intros c k Hin. destruct (ne_entry _ _ _ _ _ Hn _ _ _ _ Hsig Hin) as ([c' k'] & Hr & _ & [= ->] & [= ->]).
  exact Hr.
Qed.

Lemma members_nodup units : units_of st groups batch_size = Ok units →
NoDup (concat (CohortUnit.members <$> units)).
Proof using Hgroups. intros H. by rewrite (units_members _ H). Qed.

(** The members of a unit share template and round, belong to different
  chains and are groups of the pool. *)
Lemma unit_pure units u : units_of st groups batch_size = Ok units → u ∈ units →
NoDup (CohortUnit.members u) ∧ NoDup (key_chain <$> CohortUnit.members u) ∧
∃ t r, ∀ k, k ∈ CohortUnit.members u → k ∈ dkeys groups ∧ key_template k = t ∧ key_round k = r.
Proof using Hgroups.
intros H Hu. assert (Hnd : NoDup (CohortUnit.members u)).
{ pose proof (members_nodup units H) as Hc. apply list_elem_of_split in Hu as (u1 & u2 & ->).
  rewrite fmap_app, concat_app in Hc. csimpl in Hc. by apply NoDup_app in Hc as (_ & _ & [Hc _]%NoDup_app). }
split; [done|].
destruct (unit_origin units u H Hu) as (slots & t & r & ready & sig & inner & us & Hs & _ & Hsub & Hc & Hin).
assert (Hk : ∀ k, k ∈ CohortUnit.members u → k ∈ dkeys groups ∧ slot_of k = (t, r)).
{ intros k Hk. unfold cohort_units in Hc. inv_ok.
  apply list_elem_of_omap in Hin as (part & _ & Hp). unfold unit_of_part in Hp.
  assert (Hm : k ∈ omap (λ c, dget c inner) part) by (destruct (omap _ part); simplify_eq; done).
  apply list_elem_of_omap in Hm as (c & _ & Hg). apply dget_elem, Hsub in Hg.
  destruct (ne_entry _ _ _ _ _ (by_template_nested groups Hgroups) _ _ _ _ Hs Hg) as (k' & ? & ? & _ & ->).
  done. }
split.
- apply NoDup_fmap_2_strong; [|done]. intros [c [r1 t1]] [c' [r2 t2]] [_ H1]%Hk [_ H2]%Hk E.
  unfold slot_of, key_template, key_round, key_chain in *. simpl in *. congruence.
- exists t, r. intros k [? E]%Hk. split; [done|]. unfold slot_of in E. by split; congruence.
Qed.

Lemma unit_fits units u : (∀ c, 0 <= dget_or 0 c (cs_width st))%Z →
units_of st groups batch_size = Ok units → u ∈ units →
CohortUnit.members u ≠ [] ∧
(length (CohortUnit.members u) ≤ 1 ∨ (zsum (group_size groups <$> CohortUnit.members u) <= batch_size)%Z).
Proof using Hgroups.
intros Hw H Hu.
destruct (unit_origin units u H Hu) as (slots & t & r & ready & sig & inner & us & _ & _ & _ & Hc & Hin).
by eapply cohort_units_fit.
Qed.

Lemma unit_nonempty units u : units_of st groups batch_size = Ok units → u ∈ units → CohortUnit.members u ≠ [].
Proof using Hgroups.
intros H Hu.
destruct (unit_origin units u H Hu) as (slots & t & r & ready & sig & inner & us & _ & _ & _ & Hc & Hin).
unfold cohort_units in Hc. inv_ok. apply list_elem_of_omap in Hin as (part & _ & Hp).
unfold unit_of_part in Hp. destruct (omap _ part); simplify_eq; done.
Qed.
End units.

(** ** The chosen unit *)

Lemma py_min_in {K} (lt : K → K → bool) key l u : py_min lt key l = Ok u → u ∈ l.
Proof. destruct l as [|x l]; [done|]. intros [= <-]. apply min_by_in. Qed.

(** An overdue unit is served when there is one, otherwise a complete one
    when there is one. *)
Lemma choose_unit_spec groups patience units u :
  choose_unit groups patience units = Ok u →
  u ∈ units ∧
  (overdue groups patience units ≠ [] →
     u ∈ overdue groups patience units ∧
     ∃ v vs, overdue groups patience units = v :: vs ∧
       passed_over groups u = passed_over groups (max_by passed_lt (passed_over groups) v vs)) ∧
  (overdue groups patience units = [] → (∃ v, v ∈ units ∧ CohortUnit.complete v = true) →
     CohortUnit.complete u = true).
Proof.
  unfold choose_unit. destruct (overdue groups patience units) as [|v vs] eqn:Eo.
  - destruct (filter _ units) as [|w ws] eqn:Ec; intros H%py_min_in.
    + split_and!; [done|done|]. intros _ (v & Hv & Hc).
      assert (Hin : v ∈ filter (λ u, CohortUnit.complete u = true) units) by by apply list_elem_of_filter.
      rewrite Ec in Hin. set_solver.
    + rewrite <-Ec in H. apply list_elem_of_filter in H as [Hc Hu]. split_and!; done.
  - intros H%py_min_in. apply list_elem_of_filter in H as [Hp Hin]. rewrite <-Eo in Hin |- *.
    split_and!; [|intros _; split; [done|by exists v, vs]|].
    + unfold overdue in Hin. by apply list_elem_of_filter in Hin as [_ ?].
    + intros E. rewrite E in Hin. set_solver.
Qed.

(** ** Filling *)

Lemma combinations_sublist {A} n (l c : list A) : c ∈ combinations n l → c `sublist_of` l.
Proof.
  revert n c. induction l as [|x l IH]; intros n c Hc; destruct n as [|n]; simpl in Hc.
  - apply list_elem_of_singleton in Hc as ->. constructor.
  - set_solver.
  - apply list_elem_of_singleton in Hc as ->. apply sublist_nil_l.
  - apply elem_of_app in Hc as [Hc|Hc].
    + change (map (cons x) (combinations n l)) with (cons x <$> combinations n l) in Hc.
      apply list_elem_of_fmap in Hc as (c' & -> & Hc). by apply sublist_skip, (IH n).
    + by apply sublist_cons, (IH (S n)).
Qed.

Lemma imap_fst_keys {A B} (f : nat → A → B) (g : B → A) l :
  (∀ n x, g (f n x) = x) → g <$> imap f l = l.
Proof.
  intros Hg. revert f Hg. induction l as [|x l IH]; intros f Hg; csimpl; [done|].
  rewrite Hg. f_equal. apply IH. intros n y. apply Hg.
Qed.

Lemma fill_atoms_keys groups u room :
  dict_wf groups → NoDup (CohortUnit.members u) →
  NoDup (CohortUnit.members u ++ (atom_key <$> fill_atoms groups u room)) ∧
  (atom_key <$> fill_atoms groups u room) ⊆ dkeys groups.
Proof.
  intros Hw Hu. unfold fill_atoms. set (order := sorted_by _ _ _).
  set (atoms := imap _ order).
  assert (Hk : atom_key <$> atoms = order) by by apply imap_fst_keys.
  assert (Hs : (atom_key <$> filter (λ a, atom_key a ∉ CohortUnit.members u ∧ (atom_size a <= room)%Z) atoms)
    `sublist_of` order) by (rewrite <-Hk; apply fmap_sublist, sublist_filter).
  assert (Ho : order ≡ₚ dkeys groups) by apply sorted_by_perm. split.
  - apply NoDup_app. split; [done|]. split.
    + intros k Hku (a & -> & Ha)%list_elem_of_fmap. by apply list_elem_of_filter in Ha as [[? _] _].
    + eapply sublist_NoDup; [|exact Hs]. by rewrite Ho.
  - intros k Hin. rewrite <-Ho. by eapply elem_of_sublist.
Qed.

Lemma ids_py_take n l : ids (py_take n l) = py_take n (ids l).
Proof. unfold ids, py_take. rewrite length_fmap. case_match; by rewrite fmap_take. Qed.

Section selection.
Context (estimate_area : WorkflowItem.t → result (option f64)).
Context (pow : f64 → f64 → result f64).

Lemma fill_keys m groups u units b fixed mix items :
dict_wf groups → NoDup (CohortUnit.members u) →
fill pow m groups u units b fixed mix = Ok items →
∃ ks, items = ks ≫= group groups ∧ NoDup (CohortUnit.members u ++ ks) ∧ ks ⊆ dkeys groups.
Proof.
intros Hw Hu H. unfold fill in H. inv_ok. set (atoms := fill_atoms _ _ _) in *.
destruct (fill_atoms_keys groups u (b - zsum (group_size groups <$> CohortUnit.members u))%Z Hw Hu) as [Hnd Hsub].
fold atoms in Hnd, Hsub. eexists. split; [done|].
match goal with Hf : foldR _ _ _ = Ok ?best |- _ =>
  eapply (foldR_inv _ (λ best : (f64 * (Z * Z)) * list Key,
    NoDup (CohortUnit.members u ++ best.2) ∧ best.2 ⊆ dkeys groups)) in Hf; [exact Hf| |] end.
- simpl. rewrite app_nil_r. split; [done|set_solver].
- intros best combo best' Hcombo Hb Hstep. unfold fill_step in Hstep.
  destruct (_ <? _)%Z; [by inv_ok; subst|]. inv_ok.
  case_match; [|done]. simpl.
  assert (Hcs : combo `sublist_of` atoms).
  { rewrite !elem_of_app in Hcombo. destruct Hcombo as [Hc|[Hc|Hc]]; by eapply combinations_sublist. }
  assert (Hks : (atom_key <$> combo) `sublist_of` (atom_key <$> atoms)) by by apply fmap_sublist.
  split; [|intros k Hin; apply Hsub; by eapply elem_of_sublist].
  eapply sublist_NoDup; [exact Hnd|]. by apply sublist_app.
Qed.

(** What a selection is made of: the whole chosen unit, then whole rounds, cut
  to the batch size, or only the first slices of the unit. *)
Lemma cohort_select_shape st c b l :
c ≠ [] → cohort_select estimate_area pow st c b = Ok l →
let groups := sorted_groups c in
∃ units u share ks, units_of st groups b = Ok units ∧ choose_unit groups (cs_patience st) units = Ok u ∧
  NoDup (CohortUnit.members u ++ ks) ∧ CohortUnit.members u ++ ks ⊆ dkeys groups ∧
  l = py_take b (ids (match share with
                      | Some s => py_take s (unit_items groups u)
                      | None => (CohortUnit.members u ++ ks) ≫= group groups
                      end)) ∧
  match share with Some s => (1 <= s)%Z ∧ cs_free_lanes st ≠ None | None => True end.
Proof.
intros Hc H groups. destruct c as [|i0 c0]; [done|]. unfold cohort_select in H.
fold groups in H. set (c := i0 :: c0) in *. inv_ok.
match goal with H1 : units_of _ _ _ = Ok ?us, H2 : choose_unit _ _ _ = Ok ?x |- _ =>
  rename us into units; rename x into u; rename H1 into Hus; rename H2 into Hch end.
pose proof (choose_unit_spec _ _ _ _ Hch) as (Hu & _ & _).
destruct (unit_pure st groups b (sorted_groups_wf c) units u Hus Hu) as (Hnd & _ & t & r & Hk).
assert (Hsub : CohortUnit.members u ⊆ dkeys groups) by (intros k Hin; by apply Hk).
match goal with Hs : spread_share _ _ _ _ _ = Ok ?x |- _ => rename x into share; rename Hs into Hshare end.
destruct share as [s|].
- exists units, u, (Some s), []. rewrite app_nil_r. split_and!; try done; [by injection H as <-| |].
  + unfold spread_share in Hshare. repeat case_match; simplify_eq; inv_ok; repeat case_match; inv_ok; simplify_eq; lia.
  + intros E. unfold spread_share in Hshare. rewrite E in Hshare. done.
- apply result_bind_ok in H as (more & Hm & [= <-]). destruct (_ <? b)%Z.
  + eapply fill_keys in Hm as (ks & -> & H1 & H2); [|apply sorted_groups_wf|done].
    exists units, u, None, ks. split_and!; try done.
    * intros k [Hin|Hin]%elem_of_app; auto.
    * by rewrite ids_py_take, bind_app.
  + injection Hm as <-. exists units, u, None, []. rewrite !app_nil_r, ids_py_take. done.
Qed.
End selection.

Section cohort_policy_laws.
Context (estimate_area : WorkflowItem.t → result (option f64)).
Context (pow : f64 → f64 → result f64).

Lemma unit_items_nonempty c ks : ks ⊆ dkeys (sorted_groups c) → ks ≠ [] → ks ≫= group (sorted_groups c) ≠ [].
Proof.
intros Hsub Hne. destruct ks as [|k ks]; [done|]. csimpl. intros [E _]%app_eq_nil.
revert E. apply group_nonempty. set_solver.
Qed.

(** The selection is a batch of the candidates. *)
Lemma cohort_select_is_batch st c b l :
NoDup (ids c) → c ≠ [] → (1 <= b)%Z → cohort_select estimate_area pow st c b = Ok l → is_batch c b l.
Proof.
intros Hnd Hc Hb H.
destruct (cohort_select_shape estimate_area pow st c b l Hc H) as
  (units & u & share & ks & Hus & Hch & Hks & Hsub & -> & Hshare).
pose proof (choose_unit_spec _ _ _ _ Hch) as (Hu & _ & _).
pose proof (unit_nonempty st (sorted_groups c) b (sorted_groups_wf c) units u Hus Hu) as Hne.
set (out := match share with Some s => py_take s (unit_items (sorted_groups c) u) | None => _ end).
assert (Hall : (CohortUnit.members u ++ ks) ≫= group (sorted_groups c) ⊆+ c).
{ rewrite <-(sorted_groups_concat c) at 2. apply bind_groups_submseteq; [apply sorted_groups_wf|done]. }
assert (Hout : out ⊆+ c ∧ out ≠ []).
{ unfold out. destruct share as [s|].
  - split.
    + etrans; [|exact Hall]. etrans; [apply sublist_submseteq, py_take_sublist|].
      rewrite bind_app. by apply submseteq_inserts_r.
    + rewrite py_take_nonneg by lia. pose proof (unit_items_nonempty c (CohortUnit.members u)) as Hi.
      unfold unit_items. destruct (CohortUnit.members u ≫= _); [set_solver|].
      destruct (Z.to_nat s) eqn:E; [lia|done].
  - split; [exact Hall|]. apply unit_items_nonempty; [done|]. by destruct (CohortUnit.members u). }
destruct Hout as [Ho Hone].
assert (Hsubl : ids out ⊆+ ids c) by by apply fmap_submseteq.
assert (Hndo : NoDup (ids out)).
{ apply submseteq_Permutation in Hsubl as [rest Hp]. rewrite Hp in Hnd. by apply NoDup_app in Hnd as [? _]. }
split.
- eapply sublist_NoDup; [exact Hndo|apply py_take_sublist].
- intros w Hw. eapply elem_of_submseteq; [|exact Hsubl]. eapply elem_of_sublist; [exact Hw|apply py_take_sublist].
- rewrite py_take_nonneg, length_take by lia. lia.
- rewrite py_take_nonneg by lia. destruct out as [|i out]; [done|]. destruct (Z.to_nat b) eqn:E; [lia|done].
Qed.

Lemma cohort_policy_laws : @PolicyLaws cohort_state (cohort_policy estimate_area pow).
Proof. split. intros st c b l Hnd Hc Hb H. simpl in H. by apply cohort_select_is_batch with st. Qed.
End cohort_policy_laws.

(** ** The commit bookkeeping *)

(** The items of a batch that belong to one round of one chain. *)
Definition round_items (ws : list WorkflowItem.t) (k : string * Z) : list WorkflowItem.t :=
  filter (λ i, round_key i = k) ws.
Definition round_templates (ws : list WorkflowItem.t) (k : string * Z) : gset string :=
  list_to_set (WorkflowItem.template_hash <$> round_items ws k).

Lemma tally_snoc ws i : tally (ws ++ [i]) =
  let '(n, ts) := dget_or (0%Z, ∅) (round_key i) (tally ws) in
  dset (round_key i) ((n + 1)%Z, {[WorkflowItem.template_hash i]} ∪ ts) (tally ws).
Proof. unfold tally. rewrite foldl_snoc. done. Qed.

Lemma tally_wf ws : dict_wf (tally ws).
Proof.
  induction ws as [|i ws IH] using rev_ind; [constructor|]. rewrite tally_snoc.
  destruct (dget_or _ _ _). by apply dict_wf_dset.
Qed.

Lemma tally_get ws k :
  dget k (tally ws) =
    match round_items ws k with
    | [] => None
    | l => Some (Z.of_nat (length l), round_templates ws k)
    end.
Proof.
  induction ws as [|i ws IH] using rev_ind; [done|]. rewrite tally_snoc.
  unfold round_templates, round_items in *. rewrite filter_app.
  destruct (decide (k = round_key i)) as [->|Hne].
  - rewrite (filter_cons_True _ i) by done. unfold dget_or. rewrite IH.
    destruct (filter (λ j, round_key j = round_key i) ws) as [|j l]; simpl; rewrite dget_dset_eq; [done|].
    f_equal. f_equal; [rewrite length_app; simpl; lia|]. rewrite fmap_app, list_to_set_app_L. csimpl.
    set_solver.
  - rewrite (filter_cons_False _ i) by congruence. rewrite app_nil_r, <-IH.
    destruct (dget_or _ _ _). by apply dget_dset_ne.
Qed.

(** What the policy has recorded for a chain. *)
Definition history_of (st : cohort_state) (chain : string) (r : Z) : gset string :=
  dget_or ∅ r (dget_or [] chain (cs_history st)).

Record cohort_inv (st : cohort_state) : Prop := {
  ci_at chain r : chain ∈ dget_or [] r (cs_chains_at st) ↔ dget chain (cs_last_round st) = Some r;
  ci_nodup r : NoDup (dget_or [] r (cs_chains_at st));
  ci_width chain w : dget chain (cs_width st) = Some w → (1 <= w)%Z;
}.

Lemma cohort_init_inv args : cohort_inv (cohort_init args).
Proof. split; simpl; [set_solver|constructor|done]. Qed.

Definition max_round (previous : option Z) (r : Z) : Z :=
  match previous with None => r | Some p => Z.max p r end.

Lemma commit_round_spec st chain rnd count templates :
  cohort_inv st → (1 <= count)%Z →
  ∃ st', commit_round st ((chain, rnd), (count, templates)) = (st', None) ∧ cohort_inv st' ∧
    (∀ c r, history_of st' c r =
       if decide (c = chain ∧ r = rnd) then history_of st c r ∪ templates else history_of st c r) ∧
    (∀ c, dget c (cs_last_round st') =
       if decide (c = chain) then Some (max_round (dget chain (cs_last_round st)) rnd)
       else dget c (cs_last_round st)).
Proof.
  intros [I1 I2 I3] Hc. unfold commit_round. cbv zeta.
  fold (max_round (dget chain (cs_last_round st)) rnd). set (latest := max_round _ rnd).
  assert (Hw : ∀ c w, dget c (width_after st chain rnd latest count) = Some w → (1 <= w)%Z).
  { intros c w. unfold width_after. destruct (bool_decide _); [|destruct (_ =? _)%Z; [|apply I3]].
    all: rewrite dget_dset; case_decide; [|apply I3]; intros [= <-]; lia. }
  assert (Hh : ∀ c r, dget_or ∅ r (dget_or [] c (dset chain
      (dset rnd (dget_or ∅ rnd (dget_or [] chain (cs_history st)) ∪ templates) (dget_or [] chain (cs_history st)))
      (cs_history st))) =
    if decide (c = chain ∧ r = rnd) then history_of st c r ∪ templates else history_of st c r).
  { intros c r. unfold history_of. rewrite dget_or_dset. destruct (decide (c = chain)) as [->|Hne].
    - rewrite dget_or_dset. destruct (decide (r = rnd)) as [->|]; [by rewrite decide_True|].
      by rewrite decide_False by naive_solver.
    - by rewrite decide_False by naive_solver. }
  case_bool_decide as E.
  { eexists. split; [done|]. split; [by split|]. split; [exact Hh|]. intros c. simpl.
    case_decide; [|done]. by subst. }
  assert (Hjoin : ∀ at_, (∀ c r, c ∈ dget_or [] r at_ ↔ c ≠ chain ∧ dget c (cs_last_round st) = Some r) →
    (∀ r, NoDup (dget_or [] r at_)) →
    let at' := dset latest (if decide (chain ∈ dget_or [] latest at_) then dget_or [] latest at_
                            else dget_or [] latest at_ ++ [chain]) at_ in
    (∀ c r, c ∈ dget_or [] r at' ↔ dget c (dset chain latest (cs_last_round st)) = Some r) ∧
    ∀ r, NoDup (dget_or [] r at')).
  { intros at_ Ha Hn at'. unfold at'. rewrite decide_False by (rewrite Ha; naive_solver). split.
    - intros c r. rewrite dget_or_dset, dget_dset.
      destruct (decide (r = latest)) as [->|Hr], (decide (c = chain)) as [->|Hcc]; rewrite ?elem_of_app, ?Ha;
        rewrite ?list_elem_of_singleton; naive_solver.
    - intros r. rewrite dget_or_dset. case_decide; [|apply Hn]. apply NoDup_app. split; [apply Hn|].
      split; [|apply NoDup_singleton]. intros c Hin. rewrite Ha in Hin. rewrite list_elem_of_singleton. naive_solver. }
  destruct (dget chain (cs_last_round st)) as [p|] eqn:Ep.
  - assert (Hp : chain ∈ dget_or [] p (cs_chains_at st)) by by apply I1.
    unfold dget_or in Hp. destruct (dget p (cs_chains_at st)) as [chains|] eqn:Ech; [|set_solver].
    edestruct (Hjoin (dset p (filter (.≠ chain) chains) (cs_chains_at st))) as [J1 J2].
    + intros c r. rewrite dget_or_dset. destruct (decide (r = p)) as [->|Hr].
      * rewrite list_elem_of_filter. specialize (I1 c p). unfold dget_or in I1. rewrite Ech in I1. naive_solver.
      * rewrite I1. split; [|naive_solver]. intros Hcr. split; [|done]. intros ->. congruence.
    + intros r. rewrite dget_or_dset. case_decide; [|apply I2]. apply NoDup_filter. specialize (I2 p).
      unfold dget_or in I2. by rewrite Ech in I2.
    + cbn [cs_chains_at]. rewrite Ech. eexists. split; [done|]. split; [by split|]. split; [exact Hh|].
      intros c. simpl. by rewrite dget_dset.
  - edestruct (Hjoin (cs_chains_at st)) as [J1 J2]; [|exact I2|].
    + intros c r. rewrite I1. naive_solver.
    + eexists. split; [done|]. split; [by split|]. split; [exact Hh|]. intros c. simpl. rewrite dget_dset. done.
Qed.

(** The recorded round of each chain is the largest of the old one and the
    committed ones. *)
Record rounds_advance (st st' : cohort_state) (committed : list (string * Z)) : Prop := {
  ra_committed c r : (c, r) ∈ committed → ∃ r', dget c (cs_last_round st') = Some r' ∧ (r <= r')%Z;
  ra_kept c r : dget c (cs_last_round st) = Some r → ∃ r', dget c (cs_last_round st') = Some r' ∧ (r <= r')%Z;
  ra_origin c r : dget c (cs_last_round st') = Some r →
    dget c (cs_last_round st) = Some r ∨ (c, r) ∈ committed;
}.

Lemma max_round_spec o r : ∃ r', max_round o r = r' ∧ (r <= r')%Z ∧
  (∀ p, o = Some p → (p <= r')%Z) ∧ (r' = r ∨ o = Some r').
Proof.
  destruct o as [p|]; simpl; eexists; (split; [done|]); split_and!; try lia; try naive_solver lia.
  destruct (Z.max_spec p r) as [[_ ->]|[_ ->]]; auto.
Qed.

Lemma commit_rounds_spec st entries :
  cohort_inv st → NoDup entries.*1 → Forall (λ e, 1 <= e.2.1)%Z entries →
  ∃ st', commit_rounds st entries = (st', None) ∧ cohort_inv st' ∧ rounds_advance st st' entries.*1 ∧
    ∀ c r, history_of st' c r =
      history_of st c r ∪ match dget (c, r) entries with Some (_, ts) => ts | None => ∅ end.
Proof.
  revert st. induction entries as [|[[chain rnd] [count ts]] entries IH]; intros st Hi Hnd Hcount.
  { exists st. split_and!; [done|done| |]; [split; [set_solver|intros; eexists; split; [done|lia]|by left]|].
    intros c r. simpl. set_solver. }
  inversion_clear Hcount as [|?? Hc Hcs]. csimpl in Hnd. apply NoDup_cons in Hnd as [Hnew Hnd]. simpl in Hc.
  destruct (commit_round_spec st chain rnd count ts Hi Hc) as (st1 & E1 & Hi1 & Hh1 & Hl1).
  destruct (IH st1 Hi1 Hnd Hcs) as (st2 & E2 & Hi2 & [A1 A2 A3] & Hh2).
  exists st2. cbn [commit_rounds]. rewrite E1. split_and!; [done|done| |].
  - destruct (max_round_spec (dget chain (cs_last_round st)) rnd) as (m & Em & Hm1 & Hm2 & Hm3).
    rewrite Em in Hl1. split.
    + intros c r [[= -> ->]|Hin]%elem_of_cons; [|by apply A1].
      destruct (A2 chain m) as (r' & ? & ?); [rewrite Hl1; by rewrite decide_True|]. exists r'. split; [done|lia].
    + intros c r Hr. destruct (decide (c = chain)) as [->|Hne].
      * destruct (A2 chain m) as (r' & ? & ?); [rewrite Hl1; by rewrite decide_True|].
        exists r'. split; [done|]. specialize (Hm2 r Hr). lia.
      * apply A2. rewrite Hl1. by rewrite decide_False.
    + intros c r Hr. destruct (A3 c r Hr) as [H|H]; [|right; set_solver]. rewrite Hl1 in H.
      case_decide; [|by left]. subst. injection H as <-. destruct Hm3 as [->|?]; [right; set_solver|by left].
  - intros c r. rewrite Hh2, Hh1. simpl. destruct (decide ((c, r) = (chain, rnd))) as [[= -> ->]|Hne].
    + rewrite decide_True by done. rewrite (proj2 (dget_None (chain, rnd) entries)) by done. set_solver.
    + rewrite decide_False by naive_solver. done.
Qed.

(** The states a policy object goes through. *)
Inductive cohort_reach (args : CohortPackArgs.t) : cohort_state → Prop :=
  | cr_init : cohort_reach args (cohort_init args)
  | cr_observe st lanes : cohort_reach args st → cohort_reach args (cohort_observe st lanes)
  | cr_commit st ws st' e : cohort_reach args st → cohort_commit st ws = (st', e) → cohort_reach args st'.

Lemma cohort_commit_spec st ws : cohort_inv st →
  ∃ st', cohort_commit st ws = (st', None) ∧ cohort_inv st' ∧ rounds_advance st st' (round_key <$> ws) ∧
    ∀ c r, history_of st' c r = history_of st c r ∪ round_templates ws (c, r).
Proof.
  intros Hi. unfold cohort_commit.
  assert (Hk : ∀ k, k ∈ (tally ws).*1 ↔ k ∈ round_key <$> ws).
  { intros k. change ((tally ws).*1) with (dkeys (tally ws)). rewrite <-dget_is_Some, tally_get.
    unfold round_items. rewrite list_elem_of_fmap.
    destruct (filter (λ i, round_key i = k) ws) as [|j l] eqn:E.
    - split; [by intros [? ?]|]. intros (i & -> & Hin). exfalso.
      assert (Hf : i ∈ filter (λ j, round_key j = round_key i) ws) by by apply list_elem_of_filter.
      rewrite E in Hf. set_solver.
    - split; [|by eexists]. intros _. assert (Hj : j ∈ filter (λ i, round_key i = k) ws) by (rewrite E; set_solver).
      apply list_elem_of_filter in Hj as [Hj1 Hj2]. by exists j. }
  destruct (commit_rounds_spec st (tally ws) Hi (tally_wf ws)) as (st' & E & Hi' & [A1 A2 A3] & Hh).
  - apply Forall_forall. intros [k [n ts]] Hin. apply (elem_dget _ _ _ (tally_wf ws)) in Hin.
    rewrite tally_get in Hin. destruct (round_items ws k); [done|]. injection Hin as <- _. simpl. lia.
  - exists st'. split_and!; [done|done| |].
    + split; [intros c r; rewrite <-Hk; apply A1|done|].
      intros c r Hr. rewrite <-Hk. by apply A3.
    + intros c r. rewrite Hh, tally_get. unfold round_templates. by destruct (round_items ws (c, r)).
Qed.

Lemma cohort_reach_inv args st : cohort_reach args st → cohort_inv st.
Proof.
  induction 1 as [|st lanes _ [? ? ?]|st ws st' e _ IH Hc]; [apply cohort_init_inv|by split|].
  destruct (cohort_commit_spec st ws IH) as (st1 & E & Hi & _). rewrite E in Hc. by injection Hc as <- _.
Qed.

(** ** The properties *)

(** The slices of a unit, counted. *)
Lemma group_sizes_length groups ks :
  zsum (group_size groups <$> ks) = Z.of_nat (length (ks ≫= group groups)).
Proof.
  induction ks as [|k ks IH]; [done|]. csimpl. rewrite zsum_cons, IH, length_app.
  unfold group_size, group. lia.
Qed.

Lemma units_items_perm groups units : concat (CohortUnit.members <$> units) ≡ₚ dkeys groups → dict_wf groups →
  concat (unit_items groups <$> units) ≡ₚ concat (dvals groups).
Proof.
  intros Hp Hw. assert (E : concat (unit_items groups <$> units) = concat (CohortUnit.members <$> units) ≫= group groups).
  { clear. induction units as [|u units IH]; csimpl; [done|]. by rewrite IH, bind_app. }
  rewrite E, Hp. clear -Hw. unfold dict_wf, dkeys, dvals in *.
  assert (G : ∀ g, (∀ k l, (k, l) ∈ groups → group g k = l) → groups.*1 ≫= group g = concat groups.*2).
  { clear. induction groups as [|[k l] d IH]; intros g Hg; csimpl; [done|].
    rewrite (Hg k l) by set_solver. f_equal. apply IH. set_solver. }
  rewrite G; [done|]. intros k l Hin. unfold group, dget_or. by rewrite (elem_dget k l).
Qed.

(** The units of a selection partition the pool: every candidate slice is
    in exactly one unit, a unit's slices run one template and one round with
    one group per chain, and a unit of more than one chain fits the batch
    size. *)
Theorem cohort_units_partition args st c b units :
  cohort_reach args st → units_of st (sorted_groups c) b = Ok units →
  concat (unit_items (sorted_groups c) <$> units) ≡ₚ c ∧
  ∀ u, u ∈ units →
    CohortUnit.members u ≠ [] ∧ NoDup (key_chain <$> CohortUnit.members u) ∧
    (∃ t r, ∀ i, i ∈ unit_items (sorted_groups c) u →
       WorkflowItem.template_hash i = t ∧ LumilakeRequestConfig.chain_round (WorkflowItem.config i) = r) ∧
    (length (CohortUnit.members u) = 1 ∨
     (Z.of_nat (length (unit_items (sorted_groups c) u)) <= b)%Z).
Proof.
  intros Hr Hus. apply cohort_reach_inv in Hr as [_ _ Hw]. pose proof (sorted_groups_wf c) as Hg. split.
  - rewrite units_items_perm; [apply sorted_groups_concat|by eapply units_members|done].
  - intros u Hu. destruct (unit_pure _ _ _ Hg units u Hus Hu) as (_ & Hch & t & r & Hk).
    destruct (unit_fits st (sorted_groups c) b Hg units u) as [Hne Hfit]; [|done|done|].
    { intros ch. unfold dget_or. destruct (dget ch (cs_width st)) eqn:E; [|lia]. apply Hw in E. lia. }
    split_and!; [done|done| |].
    + exists t, r. intros i (k & Hi & Hin)%list_elem_of_bind. apply group_elem in Hi as [_ <-].
      by apply Hk in Hin as (_ & ? & ?).
    + rewrite group_sizes_length in Hfit. destruct Hfit as [Hl|Hl]; [left|by right].
      destruct (CohortUnit.members u) as [|k [|k' ks]]; simpl in *; [done|done|lia].
Qed.

(** The largest first component survives [max]. *)
Lemma max_by_first {A B} (key : A → Z * B) (lt : B → B → bool) b l y :
  y ∈ b :: l → ((key y).1 <= (key (max_by (lex_lt Z.eqb Z.ltb lt) key b l)).1)%Z.
Proof.
  assert (Hstep : ∀ x z, let w := if lex_lt Z.eqb Z.ltb lt (key x) (key z) then z else x in
    ((key x).1 <= (key w).1 ∧ (key z).1 <= (key w).1)%Z).
  { intros x z. unfold lex_lt. destruct (Z.eqb_spec (key x).1 (key z).1), (Z.ltb_spec (key x).1 (key z).1);
      cbv zeta; repeat case_match; lia. }
  revert b y. induction l as [|z l IH]; intros b y Hy; cbn [max_by].
  - assert (y = b) as -> by set_solver. lia.
  - destruct (Hstep b z) as [H1 H2].
    pose proof (IH (if lex_lt Z.eqb Z.ltb lt (key b) (key z) then z else b) _ (list_elem_of_here _ _)) as H.
    apply elem_of_cons in Hy as [->|[->|Hy]%elem_of_cons]; [lia|lia|]. apply IH. set_solver.
Qed.

(** A selection is a batch that serves one unit: it holds the unit's slices
    in order, followed by whole rounds when room is left, or their first ones;
    the unit is one that was passed over more than [patience] times when there
    is one (and then the one passed over most), else a complete one when there
    is one. *)
Theorem cohort_select_serves_a_unit estimate_area pow st c b l :
  NoDup (ids c) → c ≠ [] → (1 <= b)%Z → cohort_select estimate_area pow st c b = Ok l →
  is_batch c b l ∧
  ∃ units u, units_of st (sorted_groups c) b = Ok units ∧ u ∈ units ∧
    (l `prefix_of` ids (unit_items (sorted_groups c) u) ∨ ids (unit_items (sorted_groups c) u) `prefix_of` l) ∧
    (∀ v, v ∈ units → CohortUnit.complete v = false → (cs_patience st < waited (sorted_groups c) v)%Z →
       CohortUnit.complete u = false ∧ (waited (sorted_groups c) v <= waited (sorted_groups c) u)%Z) ∧
    ((∀ v, v ∈ units → CohortUnit.complete v = false → (waited (sorted_groups c) v <= cs_patience st)%Z) →
     (∃ v, v ∈ units ∧ CohortUnit.complete v = true) → CohortUnit.complete u = true).
Proof.
  intros Hnd Hc Hb H. split; [by eapply cohort_select_is_batch|].
  destruct (cohort_select_shape estimate_area pow st c b l Hc H) as
    (units & u & share & ks & Hus & Hch & _ & _ & -> & Hshare).
  set (groups := sorted_groups c) in *.
  destruct (choose_unit_spec _ _ _ _ Hch) as (Hu & Ho & Hco). exists units, u.
  split_and!; [done|done| | |].
  - rewrite py_take_nonneg by lia. destruct share as [s|].
    + left. rewrite py_take_nonneg by lia. unfold ids. rewrite <-!fmap_take, take_take.
      exists (WorkflowItem.workflow_id <$> drop (Z.to_nat b `min` Z.to_nat s) (unit_items groups u)).
      by rewrite <-fmap_app, take_drop.
    + rewrite bind_app. unfold ids. rewrite fmap_app, take_app. fold (ids (unit_items groups u)).
      fold (unit_items groups u).
      destruct (Nat.le_ge_cases (Z.to_nat b) (length (unit_items groups u))) as [Hl|Hl].
      * left. rewrite length_fmap. replace (Z.to_nat b - length (unit_items groups u)) with 0 by lia.
        rewrite take_0, app_nil_r. exists (drop (Z.to_nat b) (WorkflowItem.workflow_id <$> unit_items groups u)).
        by rewrite take_drop.
      * right. rewrite take_ge by (rewrite length_fmap; lia). by eexists.
  - intros v Hv Hvc Hvw.
    assert (Hin : v ∈ overdue groups (cs_patience st) units) by by apply list_elem_of_filter.
    destruct Ho as [Huo (w & ws & E & Hp)]; [by intros E; rewrite E in Hin; set_solver|].
    apply list_elem_of_filter in Huo as [[? _] _]. split; [done|].
    change (waited groups v) with (passed_over groups v).1. change (waited groups u) with (passed_over groups u).1.
    rewrite Hp. apply max_by_first. by rewrite <-E.
  - intros Hnone Hex. apply Hco; [|done]. destruct (overdue _ _ _) as [|v vs] eqn:E; [done|].
    assert (Hv : v ∈ overdue groups (cs_patience st) units) by (rewrite E; set_solver).
    apply list_elem_of_filter in Hv as [[Hv1 Hv2] Hv3]. specialize (Hnone v Hv3 Hv1). lia.
Qed.

(** The bookkeeping of a commit never fails and records exactly the batch:
    each round's template set grows by the templates committed for it, the
    last round of a chain becomes the largest of the old one and the committed
    ones, and the index of chains by last round stays the inverse of it. *)
Theorem cohort_commit_records args st ws st' e :
  cohort_reach args st → cohort_commit st ws = (st', e) →
  e = None ∧
  (∀ c r, history_of st' c r = history_of st c r ∪ round_templates ws (c, r)) ∧
  rounds_advance st st' (round_key <$> ws) ∧
  (∀ c r, c ∈ dget_or [] r (cs_chains_at st') ↔ dget c (cs_last_round st') = Some r).
Proof.
  intros Hr Hc. apply cohort_reach_inv in Hr.
  destruct (cohort_commit_spec st ws Hr) as (st1 & E & Hi & Hra & Hh). rewrite E in Hc. injection Hc as <- <-.
  split_and!; [done|done|done|apply Hi].
Qed.

(** Spreading stops at the first batch count that does not pay: every
    smaller count from [ceil(ready / B)] on pays for one more batch, and the
    count is never above the lanes and slices there are. *)
Theorem spread_stops_when_it_does_not_pay pow m ready n_max gamma fixed n :
  BatchCostModel.spread_n pow m ready n_max gamma fixed = Ok n →
  ∃ q c, py_int_div ready (BatchCostModel.batch_size m) = Ok q ∧ fceil q = Ok c ∧
    let first := Z.max 1 c in let last := Z.max first (Z.min n_max ready) in
    (first <= n <= last)%Z ∧
    (∀ k, (first <= k < n)%Z → BatchCostModel.spread_pays pow m ready gamma fixed k = Ok true) ∧
    (n = last ∨ BatchCostModel.spread_pays pow m ready gamma fixed n = Ok false).
Proof.
  unfold BatchCostModel.spread_n. intros H. inv_ok.
  match goal with H1 : py_int_div _ _ = Ok ?x, H2 : fceil _ = Ok ?y |- _ => exists x, y end.
  split; [done|]. split; [done|]. cbv zeta in *.
  set (first := Z.max 1 _) in *. set (last := Z.max first _) in *.
  assert (G : ∀ fuel n0 n, BatchCostModel.spread_loop pow fuel m ready gamma fixed n0 = Ok n →
    (n0 <= n <= n0 + Z.of_nat fuel)%Z ∧
    (∀ k, (n0 <= k < n)%Z → BatchCostModel.spread_pays pow m ready gamma fixed k = Ok true) ∧
    (n = n0 + Z.of_nat fuel ∨ BatchCostModel.spread_pays pow m ready gamma fixed n = Ok false)%Z).
  { clear. induction fuel as [|fuel IH]; intros n0 n H; cbn [BatchCostModel.spread_loop] in H.
    - injection H as <-. split_and!; lia.
    - apply result_bind_ok in H as ([|] & Hp & H).
      + apply IH in H as (H1 & H2 & H3). split_and!; [lia|lia| |].
        * intros k Hk. destruct (decide (k = n0)) as [->|]; [done|]. apply H2. lia.
        * destruct H3 as [->|?]; [left; lia|by right].
      + injection H as <-. split_and!; [lia|lia| |by right]. intros k Hk. lia. }
  apply G in H as (H1 & H2 & H3).
  assert (Hl : (first + Z.of_nat (Z.to_nat (last - first)) = last)%Z) by lia. rewrite Hl in H1, H3.
  split; [exact H1|]. split; [exact H2|exact H3].
Qed.

(** ** A small cohort: chains A and B committed round 0 together, then A comes
    back alone while C, D and E start. *)
Module CohortSample.
Definition slice (id chain template : string) (rnd miss t : Z) : WorkflowItem.t :=
WorkflowItem.mk id id id id 0 0 1 1 template [] (sample_graph id "m-7b") (sample_graph id "m-7b")
  (CompiledGraph.mk (Graph.mk [] [] []) [])
  (LumilakeRequestConfig.mk MEDIUM "u" "org" "u" None None (Some chain) rnd) (of_Z t) None None miss false.
Definition estimate (_ : WorkflowItem.t) : result (option f64) := Ok (Some (of_Z 1)).
(** A power function that is exact on the exponent 0 of the default [beta]. *)
Definition pow (x y : f64) : result f64 := if feqb y fzero then Ok (of_Z 1) else Ok x.
Definition args : CohortPackArgs.t := CohortPackArgs.default.
Definition committed : list WorkflowItem.t := [slice "a0" "A" "t" 0 0 1; slice "b0" "B" "t" 0 0 2].
Definition st : cohort_state := (cohort_commit (cohort_init args) committed).1.
Definition pool : list WorkflowItem.t :=
[slice "a1" "A" "t" 1 0 3; slice "c0" "C" "t" 0 2 4; slice "d0" "D" "s" 0 1 5; slice "e0" "E" "t" 0 1 6].
Definition units : list CohortUnit.t :=
[CohortUnit.mk [("A", (1%Z, "t"))] false;
 CohortUnit.mk [("C", (0%Z, "t")); ("E", (0%Z, "t"))] true;
 CohortUnit.mk [("D", (0%Z, "s"))] true].

Lemma st_reach : cohort_reach args st.
Proof. eapply (cr_commit args _ committed); [apply cr_init|apply surjective_pairing]. Qed.
End CohortSample.

Lemma cohort_units_partition_witness :
  units_of CohortSample.st (sorted_groups CohortSample.pool) 2 = Ok CohortSample.units ∧
  concat (unit_items (sorted_groups CohortSample.pool) <$> CohortSample.units) ≡ₚ CohortSample.pool.
Proof.
  assert (E : units_of CohortSample.st (sorted_groups CohortSample.pool) 2 = Ok CohortSample.units)
    by (vm_compute; reflexivity).
  split; [exact E|].
  exact (proj1 (cohort_units_partition CohortSample.args CohortSample.st CohortSample.pool 2 _ CohortSample.st_reach E)).
Defined.

Lemma cohort_select_serves_a_unit_witness :
  is_batch CohortSample.pool 3 ["c0"; "e0"].
Proof.
  refine (proj1 (cohort_select_serves_a_unit CohortSample.estimate CohortSample.pow CohortSample.st
    CohortSample.pool 3 ["c0"; "e0"] _ _ _ _)).
  - apply (bool_decide_unpack _). vm_compute. exact I.
  - discriminate.
  - lia.
  - vm_compute. reflexivity.
Defined.

Lemma cohort_commit_records_witness :
  dget "A" (cs_last_round CohortSample.st) = Some 0%Z ∧ "A" ∈ dget_or [] 0%Z (cs_chains_at CohortSample.st).
Proof.
  assert (E : dget "A" (cs_last_round CohortSample.st) = Some 0%Z) by (vm_compute; reflexivity).
  split; [exact E|].
  destruct (cohort_commit_records CohortSample.args (cohort_init CohortSample.args) CohortSample.committed
    CohortSample.st _ (cr_init _) (surjective_pairing _)) as (_ & _ & _ & H).
  apply (H "A" 0%Z). exact E.
Defined.

Lemma spread_stops_when_it_does_not_pay_witness :
  BatchCostModel.spread_n CohortSample.pow (cs_model CohortSample.st) 12 4 (of_Z 0) fzero = Ok 4%Z ∧
  BatchCostModel.spread_pays CohortSample.pow (cs_model CohortSample.st) 12 (of_Z 0) fzero 3 = Ok true.
Proof.
  assert (E : BatchCostModel.spread_n CohortSample.pow (cs_model CohortSample.st) 12 4 (of_Z 0) fzero = Ok 4%Z)
    by (vm_compute; reflexivity).
  split; [exact E|].
  destruct (spread_stops_when_it_does_not_pay _ _ _ _ _ _ _ E) as (q & c & Hq & Hc & _ & H & _).
  apply H. vm_compute in Hq. injection Hq as <-. vm_compute in Hc. injection Hc as <-. lia.
Defined.
