(* ===== verification/PolicyRegistry.v ===== *)
(** * The scheduling-policy registry (runtime/job_manager/policies/__init__.py)

    [create_scheduling_policy] resolves a name to a policy object.  The
    built-in policies form one type, an instance of the policy interface, so
    whatever the registry returns satisfies the laws the job manager is
    proved against.  Validation of the custom args by pydantic is the
    parameter [model_validate]. *)

From S2P Require Import Prelude PyFloat PyDict PyValue PyString Protocol RuntimeGraph DslGraph JobBase Clustering Policies CohortPack CohortPackProps.

Inductive builtin_policy :=
  | BSimple (p : simple_policy)
  | BCohort (st : cohort_state).

Section registry.
Context (estimate_area : WorkflowItem.t → result (option f64)).
Context (pow : f64 → f64 → result f64).

Definition builtin_scheduling_policy : SchedulingPolicy builtin_policy := {|
select_batch p c b :=
  match p with
  | BSimple p => @select_batch _ (simple_scheduling_policy estimate_area) p c b
  | BCohort st => @select_batch _ (cohort_policy estimate_area pow) st c b
  end;
on_commit p w :=
  match p with
  | BSimple p => let '(p, e) := @on_commit _ (simple_scheduling_policy estimate_area) p w in (BSimple p, e)
  | BCohort st => let '(st, e) := @on_commit _ (cohort_policy estimate_area pow) st w in (BCohort st, e)
  end;
observe_free_lanes p lanes :=
  match p with
  | BSimple p => BSimple (@observe_free_lanes _ (simple_scheduling_policy estimate_area) p lanes)
  | BCohort st => BCohort (@observe_free_lanes _ (cohort_policy estimate_area pow) st lanes)
  end;
|}.

Lemma builtin_policy_laws : @PolicyLaws builtin_policy builtin_scheduling_policy.
Proof.
split. intros [p|st] c b l; simpl.
- apply (@select_batch_is_batch _ _ (simple_policy_laws estimate_area)).
- apply (@select_batch_is_batch _ _ (cohort_policy_laws estimate_area pow)).
Qed.

(** [SCHEDULING_POLICIES], with what constructing each entry gives; [None]
  stands for the class that takes custom args. *)
Definition SCHEDULING_POLICIES : dict string (option simple_policy) :=
[("default", Some PDefault); ("fifo", Some PFifo); ("spt", Some PSpt); ("lpt", Some PLpt);
 ("plas", Some (PPlas [])); ("cohort_pack", None)].

Context (env_policy : string) (env_custom_args : result (dict string val)).
Context (model_validate : dict string val → result CohortPackArgs.t).

Definition create_scheduling_policy (policy : option string) (custom_args : option (dict string val)) :
  result builtin_policy :=
let policy := norm (default env_policy policy) in
cls ← ok_or (ValueError ("Unknown scheduling policy " +:+ policy)) (dget policy SCHEDULING_POLICIES);
custom_args ← match custom_args with Some args => Ok args | None => env_custom_args end;
match cls with
| Some fresh =>
    match custom_args with
    | [] => Ok (BSimple fresh)
    | _ => Err (ValueError ("Scheduling policy takes no custom args: " +:+ policy))
    end
| None => args ← model_validate custom_args; Ok (BCohort (cohort_init args))
end.
End registry.

(** The registry returns a policy exactly for a registered name (stripped,
    in any case) whose custom args are acceptable, namely none, or for
    cohort_pack the ones that validate; every policy it returns selects
    lawful batches; and any other name or args raise. *)
Theorem registry_creates_lawful_policies estimate_area pow env_policy env_args validate policy custom_args :
  let create := create_scheduling_policy env_policy env_args validate policy custom_args in
  let name := norm (default env_policy policy) in
  let args := match custom_args with Some args => Ok args | None => env_args end in
  ((∃ p, create = Ok p) ↔
     (name ∈ ["default"; "fifo"; "spt"; "lpt"; "plas"] ∧ args = Ok []) ∨
     (name = "cohort_pack" ∧ ∃ a valid, args = Ok a ∧ validate a = Ok valid)) ∧
  ∀ p, create = Ok p → ∀ c b l, NoDup (ids c) → c ≠ [] → (1 <= b)%Z →
    @select_batch _ (builtin_scheduling_policy estimate_area pow) p c b = Ok l → is_batch c b l.
Proof.
  intros create name args. split.
  - unfold create, create_scheduling_policy. fold name args.
    assert (Hn : name ∈ dkeys SCHEDULING_POLICIES ↔
      name ∈ ["default"; "fifo"; "spt"; "lpt"; "plas"] ∨ name = "cohort_pack").
    { change (dkeys SCHEDULING_POLICIES) with (["default"; "fifo"; "spt"; "lpt"; "plas"] ++ ["cohort_pack"]).
      rewrite elem_of_app, list_elem_of_singleton. done. }
    assert (Hs : name ∈ ["default"; "fifo"; "spt"; "lpt"; "plas"] →
      ∃ fresh, dget name SCHEDULING_POLICIES = Some (Some fresh)).
    { intros Hin. repeat (apply elem_of_cons in Hin as [E|Hin]; [rewrite E; eexists; reflexivity|]).
      by apply elem_of_nil in Hin. }
    destruct (dget name SCHEDULING_POLICIES) as [[fresh|]|] eqn:E; simpl.
    + assert (Hin : name ∈ ["default"; "fifo"; "spt"; "lpt"; "plas"]).
      { destruct (proj1 Hn) as [|Ec]; [apply dget_is_Some; by eexists|done|]. rewrite Ec in E. done. }
      assert (name ≠ "cohort_pack") by (intros Ec; rewrite Ec in E; done).
      destruct args as [[|kv a]|e] eqn:Ea; simpl.
      * split; [intros _; by left|intros _; by eexists].
      * split; [by intros [? ?]|by intros [[_ ?]|[? _]]].
      * split; [by intros [? ?]|by intros [[_ ?]|[? _]]].
    + assert (Hc : name = "cohort_pack").
      { destruct (proj1 Hn) as [Hin|Ec]; [apply dget_is_Some; by eexists| |done].
        apply Hs in Hin as [? ?]. done. }
      assert (name ∉ ["default"; "fifo"; "spt"; "lpt"; "plas"]).
      { intros Hin. apply Hs in Hin as [? ?]. done. }
      clear Hn Hs. destruct args as [a|e]; simpl.
      2: { split; [by intros [? ?]|]. intros [[? _]|[_ (? & ? & ? & _)]]; done. }
      destruct (validate a) as [v|e] eqn:Ev; simpl.
      * split; [intros _; right; split; [done|by exists a, v]|intros _; by eexists].
      * split; [by intros [? ?]|]. intros [[? _]|[_ (? & ? & [= <-] & Hv)]]; [done|]. by rewrite Ev in Hv.
    + apply dget_None in E. rewrite Hn in E. split; [by intros [? ?]|].
      intros [[? _]|[? _]]; exfalso; apply E; [by left|by right].
  - intros p _. apply (@select_batch_is_batch _ _ (builtin_policy_laws estimate_area pow)).
Qed.

Lemma registry_creates_lawful_policies_witness :
  let create := create_scheduling_policy "default" (Ok []) (λ _, Ok CohortPackArgs.default) (Some " Cohort_Pack ") None in
  create = Ok (BCohort (cohort_init CohortPackArgs.default)) ∧ is_batch CohortSample.pool 3 ["c0"; "e0"].
Proof.
  intros create. assert (E : create = Ok (BCohort (cohort_init CohortPackArgs.default))) by (vm_compute; reflexivity).
  split; [exact E|].
  refine (proj2 (registry_creates_lawful_policies CohortSample.estimate CohortSample.pow "default" (Ok [])
    (λ _, Ok CohortPackArgs.default) (Some " Cohort_Pack ") None) _ E CohortSample.pool 3%Z ["c0"; "e0"] _ _ _ _).
  - apply (bool_decide_unpack _). vm_compute. exact I.
  - discriminate.
  - lia.
  - vm_compute. reflexivity.
Defined.
