(* ===== verification/WorkerProfile.v ===== *)
(** * Worker profiles and schedule previews (runtime/server.py)

    How the scheduler reads the raw profile a worker advertises: whether it
    has a GPU ([_has_gpu]), whether it meets a request's hardware
    requirements ([_worker_meets_hardware]), the normalised profile the
    optimizer gets, and the choice of one worker per class for a schedule
    preview.  A profile is an arbitrary JSON object, so a section of the wrong
    shape makes [.get] raise, and the functions return a [result]. *)

From S2P Require Import Prelude PyFloat PyDict PyValue PyString Protocol RuntimeGraph Capacity Cost.

(** ** Which ops need a GPU worker *)

(** [FlowmeshRuntimeManager._runtime_op_requires_gpu] *)
Definition runtime_op_requires_gpu (op : RuntimeOp.t) : bool :=
  if bool_decide (norm (RuntimeOp.backend op) ∈ ["vllm"; "transformers"; "diffusers"]) then true
  else bool_decide (norm (RuntimeOp.task_type op) ∈ ["inference"; "embedding"; "diffusion"]).

Definition requires_gpu (op : RuntimeOp.t) : bool := runtime_op_requires_gpu op.

Definition graph_requires_gpu (g : RuntimeGraph.t) : bool :=
  existsb requires_gpu (dvals (RuntimeGraph.nodes g)).

Definition graph_task_types (g : RuntimeGraph.t) : list string :=
  RuntimeOp.task_type <$> dvals (RuntimeGraph.nodes g).

(** ** Reading a profile *)

(** [profile["gpu"]["devices"]], with [KeyError] and [TypeError] (a section
    that is not a mapping) caught. *)
Definition has_gpu (profile : dict string val) : bool :=
  match dget "gpu" profile with
  | Some (VDict gpu) =>
      match dget "devices" gpu with
      | Some (VList devices) => 0 <? length devices
      | _ => false
      end
  | _ => false
  end.

(** [profile.get(key) or {}], used as a mapping. *)
Definition section_of (key : string) (profile : dict string val) : result (dict string val) :=
  let v := vget key profile in
  if truthy v
  then match v with VDict d => Ok d | _ => Err (AttributeError "get") end
  else Ok [].

(** [isinstance(v, int) and v < bound] *)
Definition int_below (v : val) (bound : Z) : bool :=
  match as_int v with Some n => (n <? bound)%Z | None => false end.

(** Some device reports less memory than required. *)
Definition vram_too_small (required : Z) (devices : list val) : bool :=
  existsb (λ device,
    match device with
    | VDict d => int_below (vget "memory_total_bytes" d) required
    | _ => false
    end) devices.

(** The loop over the device names: whether one contains [wanted], and
    whether any device had a name. *)
Fixpoint match_model (wanted : string) (saw_name : bool) (devices : list val) : bool * bool :=
  match devices with
  | [] => (false, saw_name)
  | VDict d :: devices' =>
      match vget "name" d with
      | VStr name =>
          if contains wanted (lower name) then (true, true) else match_model wanted true devices'
      | _ => match_model wanted saw_name devices'
      end
  | _ :: devices' => match_model wanted saw_name devices'
  end.

Definition cpu_too_small (profile : dict string val) (hw : HardwareRequirements.t) : result bool :=
  match HardwareRequirements.cpu hw with
  | None => Ok false
  | Some cpu =>
      section ← section_of "cpu" profile;
      Ok (int_below (vget "logical_cores" section) cpu)
  end.

Definition memory_too_small (profile : dict string val) (hw : HardwareRequirements.t) : result bool :=
  match HardwareRequirements.memory hw with
  | None => Ok false
  | Some memory =>
      section ← section_of "memory" profile;
      Ok (match parse_memory_to_bytes memory with
          | Some required => int_below (vget "total_bytes" section) required
          | None => false
          end)
  end.

(** The constraints that only apply to GPU workers. *)
Definition gpu_devices_meet (gpu_devices : list val) (hw : HardwareRequirements.t) : bool :=
  if match HardwareRequirements.gpu hw with
     | Some gpu => (Z.of_nat (length gpu_devices) <? gpu)%Z
     | None => false
     end then false
  else if match HardwareRequirements.gpu_memory hw, gpu_devices with
          | Some gpu_memory, _ :: _ =>
              match parse_memory_to_bytes gpu_memory with
              | Some required_vram => vram_too_small required_vram gpu_devices
              | None => false
              end
          | _, _ => false
          end then false
  else match HardwareRequirements.gpu_model hw, gpu_devices with
       | Some gpu_model, _ :: _ =>
           let '(found, saw_name) := match_model (lower gpu_model) false gpu_devices in
           (found || negb saw_name)%bool
       | _, _ => true
       end.

Definition worker_meets_hardware (profile : dict string val) (hardware : option HardwareRequirements.t)
    (worker_has_gpu : option bool) : result bool :=
  match hardware with
  | None => Ok true
  | Some hw =>
      cpu_small ← cpu_too_small profile hw;
      if (cpu_small : bool) then Ok false
      else
        memory_small ← memory_too_small profile hw;
        if (memory_small : bool) then Ok false
        else
          if negb (match worker_has_gpu with Some b => b | None => has_gpu profile end) then Ok true
          else
            gpu_section ← section_of "gpu" profile;
            let gpu_devices := match vget "devices" gpu_section with VList l => l | _ => [] end in
            Ok (gpu_devices_meet gpu_devices hw)
  end.

(** [list(v)] *)
Definition py_list (v : val) : result (list val) :=
  match v with
  | VList l | VTuple l => Ok l
  | VStr s => Ok ((λ c, VStr (of_chars [c])) <$> chars s)
  | VDict d => Ok (VStr <$> dkeys d)
  | _ => Err (TypeError "object is not iterable")
  end.

Definition normalize_worker_profile (profile : dict string val) : result (dict string val) :=
  let gpu := match vget "has_gpu" profile with VBool b => b | _ => has_gpu profile end in
  supported ← py_list (dget_or (VTuple []) "supported_task_types" profile);
  Ok [("has_gpu", VBool gpu); ("supported_task_types", VList supported)].

(** ** The workers of a schedule preview *)

Section preview.
(** [await runtime_manager.get_worker_profile(worker)] *)
Context (get_worker_profile : string → result (dict string val)).

(** [normalized_profiles], [gpu_workers], [cpu_workers] *)
Definition preview_state : Type := dict string (dict string val) * list string * list string.

Definition preview_step (hardware : option HardwareRequirements.t) (st : preview_state)
  (worker : string) : result preview_state :=
let '(normalized, gpu_workers, cpu_workers) := st in
raw_profile ← get_worker_profile worker;
meets ← worker_meets_hardware raw_profile hardware (Some (has_gpu raw_profile));
if negb meets then Ok st
else
  profile ← normalize_worker_profile raw_profile;
  let normalized := dset worker profile normalized in
  if bool_decide (dget "has_gpu" profile = Some (VBool true))
  then Ok (normalized, gpu_workers ++ [worker], cpu_workers)
  else Ok (normalized, gpu_workers, cpu_workers ++ [worker]).

Definition preview_gpu (needs_gpu : bool) (gpu_workers : list string) : result (list string) :=
if needs_gpu
then match gpu_workers with
     | [] => Err (RuntimeError "No GPU worker meets the requested hardware for schedule preview, but graph contains GPU nodes")
     | worker :: _ => Ok [worker]
     end
else Ok [].

Definition preview_cpu (needs_cpu : bool) (needed_task_types : list string)
  (normalized : dict string (dict string val)) (cpu_workers : list string) : result (list string) :=
if negb needs_cpu then Ok []
else
  match cpu_workers with
  | [] => Err (RuntimeError "No CPU worker meets the requested hardware for schedule preview, but graph contains data-retrieval nodes")
  | worker :: _ =>
      match needed_task_types with
      | [] => Ok [worker]
      | _ =>
          match filter (λ w, subset_of needed_task_types
                               (advertised_task_types (dget_or [] w normalized)) = true) cpu_workers with
          | [] => Err (RuntimeError "No CPU worker that advertises the task type meets the requested hardware for schedule preview, but graph contains nodes of that type")
          | worker :: _ => Ok [worker]
          end
      end
  end.

Definition select_preview_workers_and_profiles (workers : list string) (g : RuntimeGraph.t)
  (hardware : option HardwareRequirements.t) :
  result (list string * dict string (dict string val)) :=
match workers with
| [] => Err (RuntimeError "No workers available for schedule preview")
| _ =>
    st ← foldR (preview_step hardware) ([], [], []) workers;
    let '(normalized, gpu_workers, cpu_workers) := st in
    selected_gpu ← preview_gpu (graph_requires_gpu g) gpu_workers;
    selected_cpu ← preview_cpu (requires_cpu_worker (graph_task_types g))
                     (required_task_types (graph_task_types g)) normalized cpu_workers;
    selected ←
      match selected_gpu ++ selected_cpu with
      | [] =>
          match dkeys normalized with
          | [] => Err (RuntimeError "No worker meets the requested hardware for schedule preview")
          | worker :: _ => Ok [worker]
          end
      | selected => Ok selected
      end;
    Ok (selected, dict_of ((λ w, (w, dget_or [] w normalized)) <$> selected))
end.
End preview.

(** ** Facts *)

(** [weaker h' h]: every constraint of [h'] is implied by one of [h]. *)
Definition opt_weaker {A} (le : A → A → Prop) (x' x : option A) : Prop :=
  match x' with
  | None => True
  | Some a' => match x with Some a => le a' a | None => False end
  end.

Definition memory_le (m' m : string) : Prop :=
  match parse_memory_to_bytes m', parse_memory_to_bytes m with
  | None, _ => True
  | Some b', Some b => (b' <= b)%Z
  | Some _, None => False
  end.

Record weaker (h' h : HardwareRequirements.t) : Prop := {
  weaker_cpu : opt_weaker Z.le (HardwareRequirements.cpu h') (HardwareRequirements.cpu h);
  weaker_memory : opt_weaker memory_le (HardwareRequirements.memory h') (HardwareRequirements.memory h);
  weaker_gpu : opt_weaker Z.le (HardwareRequirements.gpu h') (HardwareRequirements.gpu h);
  weaker_gpu_memory :
    opt_weaker memory_le (HardwareRequirements.gpu_memory h') (HardwareRequirements.gpu_memory h);
  weaker_gpu_model : opt_weaker eq (HardwareRequirements.gpu_model h') (HardwareRequirements.gpu_model h);
}.

Lemma int_below_mono v b' b : (b' <= b)%Z → int_below v b = false → int_below v b' = false.
Proof. unfold int_below. destruct (as_int v); [|done]. rewrite !Z.ltb_ge. lia. Qed.

Lemma vram_mono b' b devices : (b' <= b)%Z →
  vram_too_small b devices = false → vram_too_small b' devices = false.
Proof.
  intros Hb. unfold vram_too_small. induction devices as [|d devices IH]; simpl; [done|].
  rewrite !orb_false_iff. intros [Hd Hr]. split; [|by apply IH].
  destruct d; try done. by eapply int_below_mono.
Qed.

Section weaker.
Context (h' h : HardwareRequirements.t) (Hw : weaker h' h).

Lemma cpu_weaker profile : cpu_too_small profile h = Ok false → cpu_too_small profile h' = Ok false.
Proof.
unfold cpu_too_small. pose proof (weaker_cpu _ _ Hw) as Hc.
destruct (HardwareRequirements.cpu h') as [c'|]; [|done].
destruct (HardwareRequirements.cpu h) as [c|]; [|done]. simpl in Hc.
destruct (section_of _ _) as [s|e]; csimpl; [|done].
intros [= E]. f_equal. by eapply int_below_mono.
Qed.

Lemma memory_weaker profile :
memory_too_small profile h = Ok false → memory_too_small profile h' = Ok false.
Proof.
unfold memory_too_small. pose proof (weaker_memory _ _ Hw) as Hc.
destruct (HardwareRequirements.memory h') as [c'|]; [|done].
destruct (HardwareRequirements.memory h) as [c|]; [|done]. simpl in Hc. unfold memory_le in Hc.
destruct (section_of _ _) as [s|e]; csimpl; [|done]. intros [= E]. f_equal.
destruct (parse_memory_to_bytes c'); [|done]. destruct (parse_memory_to_bytes c); [|done].
by eapply int_below_mono.
Qed.

Lemma devices_weaker devices : gpu_devices_meet devices h = true → gpu_devices_meet devices h' = true.
Proof.
unfold gpu_devices_meet. destruct Hw as [_ _ Hg Hm Hn].
intros H.
destruct (match HardwareRequirements.gpu h with Some _ => _ | None => _ end) eqn:E1; [done|].
destruct (match HardwareRequirements.gpu_memory h with Some _ => _ | None => _ end) eqn:E2; [done|].
assert (E1' : match HardwareRequirements.gpu h' with
  | Some gpu => (Z.of_nat (length devices) <? gpu)%Z | None => false end = false).
{ destruct (HardwareRequirements.gpu h'); [|done]. destruct (HardwareRequirements.gpu h); [|done].
  simpl in Hg. apply Z.ltb_ge in E1. apply Z.ltb_ge. lia. }
rewrite E1'. clear E1 E1'.
match goal with |- (if ?b then _ else _) = true => assert (E2' : b = false) end.
{ destruct (HardwareRequirements.gpu_memory h') as [m'|]; [|done].
  destruct (HardwareRequirements.gpu_memory h) as [m|]; [|done].
  destruct devices as [|d devices]; [done|]. simpl in Hm. unfold memory_le in Hm.
  destruct (parse_memory_to_bytes m'); [|done]. destruct (parse_memory_to_bytes m); [|done].
  by eapply vram_mono. }
rewrite E2'. destruct (HardwareRequirements.gpu_model h') as [n'|]; [|done].
destruct (HardwareRequirements.gpu_model h) as [n|]; [|done]. simpl in Hn. by subst n'.
Qed.
End weaker.

(** Relaxing a request's hardware requirements never loses a worker: a
    worker that meets the requirements meets every weaker set of requirements,
    in particular it never starts raising on a malformed profile. *)
Theorem weaker_requirements_keep_workers h' h profile gpu :
  weaker h' h →
  worker_meets_hardware profile (Some h) gpu = Ok true →
  worker_meets_hardware profile (Some h') gpu = Ok true.
Proof.
  intros Hw. unfold worker_meets_hardware.
  destruct (cpu_too_small profile h) as [[]|] eqn:E1; csimpl; try done.
  rewrite (cpu_weaker _ _ Hw _ E1). csimpl.
  destruct (memory_too_small profile h) as [[]|] eqn:E2; csimpl; try done.
  rewrite (memory_weaker _ _ Hw _ E2). csimpl. case_match; [done|].
  destruct (section_of _ _) as [s|]; csimpl; [|done]. intros [= E]. f_equal.
  by eapply devices_weaker.
Qed.

Module WorkerSample.
Definition gpu_profile : dict string val :=
[("cpu", VDict [("logical_cores", VInt 16)]);
 ("memory", VDict [("total_bytes", VInt (64 * 1024 ^ 3))]);
 ("gpu", VDict [("devices", VList [VDict [("name", VStr "NVIDIA A100-SXM4-40GB");
                                          ("memory_total_bytes", VInt (40 * 1024 ^ 3))]])]);
 ("supported_task_types", VList [VStr "inference"])].
Definition cpu_profile : dict string val :=
[("cpu", VDict [("logical_cores", VInt 4)]); ("memory", VNone);
 ("supported_task_types", VList [VStr "python"; VStr "api"])].
Definition strict : HardwareRequirements.t :=
HardwareRequirements.mk (Some 8%Z) (Some "32Gi") (Some 1%Z) (Some "40Gi") (Some "a100").
Definition loose : HardwareRequirements.t :=
HardwareRequirements.mk (Some 4%Z) (Some "512Mi") None (Some "16Gi") None.
Definition get_worker_profile (w : string) : result (dict string val) :=
if String.eqb w "g" then Ok gpu_profile
else if String.eqb w "c" then Ok cpu_profile else Err (KeyError w).
Definition op (id task_type backend : string) : RuntimeOp.t :=
RuntimeOp.mk id task_type backend "m" [] [] [] [] [] None None.
Definition mixed : RuntimeGraph.t :=
RuntimeGraph.mk [("a", op "a" "inference" "vllm"); ("b", op "b" "python" "python")]
  ["a"; "b"] [] [] [].

(** Projections of the fetched profiles. *)
Definition raw (w : string) : dict string val :=
match get_worker_profile w with Ok p => p | Err _ => [] end.
Definition normalized (w : string) : dict string val :=
match normalize_worker_profile (raw w) with Ok p => p | Err _ => [] end.
Definition meets (hardware : option HardwareRequirements.t) (w : string) : bool :=
match worker_meets_hardware (raw w) hardware (Some (has_gpu (raw w))) with Ok b => b | Err _ => false end.
End WorkerSample.

Lemma weaker_requirements_keep_workers_witness :
  worker_meets_hardware WorkerSample.gpu_profile (Some WorkerSample.loose) None = Ok true.
Proof.
  apply (weaker_requirements_keep_workers WorkerSample.loose WorkerSample.strict);
    [|vm_compute; reflexivity].
  split; vm_compute; auto; try discriminate.
Defined.

(** A CPU worker is judged by cores and memory alone, and unknown sizes pass. *)
Example cpu_worker_ignores_gpu_constraints :
  worker_meets_hardware WorkerSample.cpu_profile
    (Some (HardwareRequirements.mk (Some 4%Z) (Some "32Gi") (Some 8%Z) (Some "40Gi") (Some "a100"))) None
  = Ok true.
Proof. reflexivity. Qed.

Example malformed_section_raises :
  worker_meets_hardware [("cpu", VStr "16")] (Some WorkerSample.strict) None = Err (AttributeError "get").
Proof. reflexivity. Qed.

Section preview_facts.
Context (get_worker_profile : string → result (dict string val)).
Context (hardware : option HardwareRequirements.t).
(** The profiles that were fetched, the verdicts and the normalised profiles. *)
Context (raw normalized_of : string → dict string val) (meets : string → bool).

Definition fetched (workers : list string) : Prop :=
∀ w, w ∈ workers → get_worker_profile w = Ok (raw w) ∧
  worker_meets_hardware (raw w) hardware (Some (has_gpu (raw w))) = Ok (meets w) ∧
  normalize_worker_profile (raw w) = Ok (normalized_of w).

Definition preview_is_gpu (w : string) : bool :=
bool_decide (dget "has_gpu" (normalized_of w) = Some (VBool true)).

Lemma preview_scan workers : fetched workers →
∃ normalized,
  foldR (preview_step get_worker_profile hardware) ([], [], []) workers
  = Ok (normalized, filter (λ w, meets w = true ∧ preview_is_gpu w = true) workers,
        filter (λ w, meets w = true ∧ preview_is_gpu w = false) workers) ∧
  (∀ w, w ∈ dkeys normalized ↔ w ∈ workers ∧ meets w = true) ∧
  (∀ w, w ∈ dkeys normalized → dget w normalized = Some (normalized_of w)).
Proof.
induction workers as [|w workers IH] using rev_ind; intros Hf; [exists []; set_solver|].
destruct IH as (n & E & Hk & Hg); [intros x Hx; apply Hf; set_solver|].
destruct (Hf w) as (E1 & E2 & E3); [set_solver|].
rewrite foldR_app, E, foldR_cons, !filter_app. unfold preview_step. rewrite E1. csimpl.
rewrite E2. csimpl. rewrite !filter_cons, !filter_nil. cbn beta.
destruct (meets w) eqn:Em; csimpl.
- rewrite E3. csimpl. exists (dset w (normalized_of w) n).
  change (bool_decide (dget "has_gpu" (normalized_of w) = Some (VBool true))) with (preview_is_gpu w).
  split_and!.
  + destruct (preview_is_gpu w); repeat case_decide; rewrite ?app_nil_r; try done; exfalso; intuition congruence.
  + intros x. rewrite elem_of_dkeys_dset, Hk, elem_of_app, list_elem_of_singleton.
    split; [intros [-> |?]; tauto|intuition].
  + intros x [->|Hx]%elem_of_dkeys_dset; [by rewrite dget_dset_eq|].
    rewrite dget_dset. case_decide; [by simplify_eq|by apply Hg].
- exists n. split_and!; [|intros x; rewrite Hk, elem_of_app, list_elem_of_singleton|done].
  + repeat case_decide; rewrite ?app_nil_r; try done; exfalso; intuition congruence.
  + split; [tauto|]. intros [[?| ->] ?]; [tauto|congruence].
Qed.

Definition preview_usable (is_gpu : bool) (workers : list string) : list string :=
filter (λ w, meets w = true ∧ preview_is_gpu w = is_gpu) workers.

Definition preview_capable (needed : list string) (w : string) : bool :=
subset_of needed (advertised_task_types (normalized_of w)).

Lemma preview_cpu_spec needs needed normalized cpu_workers :
(∀ w, w ∈ cpu_workers → dget w normalized = Some (normalized_of w)) →
match preview_cpu needs needed normalized cpu_workers with
| Ok l => (needs = false ∧ l = []) ∨
    ∃ w, needs = true ∧ l = [w] ∧ w ∈ cpu_workers ∧ preview_capable needed w = true
| Err _ => needs = true ∧ ∀ w, w ∈ cpu_workers → preview_capable needed w = false
end.
Proof.
intros Hn. unfold preview_cpu. destruct needs; simpl; [|by left].
destruct cpu_workers as [|w0 ws] eqn:E; [split; set_solver|].
destruct needed as [|t ts] eqn:Et; [right; exists w0; split_and!; try done; left|].
rewrite <-Et, <-E in *. clear t ts Et w0 ws E.
assert (Hc : ∀ w, w ∈ cpu_workers →
  subset_of needed (advertised_task_types (dget_or [] w normalized)) = preview_capable needed w).
{ intros w Hw. unfold dget_or. by rewrite (Hn w Hw). }
destruct (filter _ _) as [|w ws] eqn:E.
- split; [done|]. intros w Hw. apply not_true_iff_false. intros Ht.
  assert (Hin : w ∈ @nil string); [|by apply elem_of_nil in Hin].
  rewrite <-E. apply list_elem_of_filter. by rewrite Hc.
- assert (Hin : w ∈ w :: ws) by left. rewrite <-E in Hin.
  apply list_elem_of_filter in Hin as [Ht Hw]. rewrite Hc in Ht by done. right. by exists w.
Qed.
End preview_facts.

(** A schedule preview names one worker per class the graph needs, all of
    them meeting the hardware requirements and each with its normalised
    profile; when the graph has ops that need a CPU worker, the CPU worker
    advertises every capability-gated task type of the graph.  It fails exactly
    when no worker can take one of these roles. *)
Theorem preview_selects_capable_workers get_worker_profile hardware raw normalized_of meets workers g :
  fetched get_worker_profile hardware raw normalized_of meets workers →
  let usable is_gpu := preview_usable normalized_of meets is_gpu workers in
  let needed := required_task_types (graph_task_types g) in
  match select_preview_workers_and_profiles get_worker_profile workers g hardware with
  | Ok (selected, profiles) =>
      selected ≠ [] ∧
      (∀ w, w ∈ selected → w ∈ workers ∧ meets w = true ∧ dget w profiles = Some (normalized_of w)) ∧
      (graph_requires_gpu g = true → ∃ w, w ∈ selected ∧ w ∈ usable true) ∧
      (requires_cpu_worker (graph_task_types g) = true →
         ∃ w, w ∈ selected ∧ w ∈ usable false ∧ preview_capable normalized_of needed w = true)
  | Err _ =>
      (∀ w, w ∈ workers → meets w = false) ∨
      (graph_requires_gpu g = true ∧ usable true = []) ∨
      (requires_cpu_worker (graph_task_types g) = true ∧
         ∀ w, w ∈ usable false → preview_capable normalized_of needed w = false)
  end.
Proof.
  intros Hf usable needed. destruct (preview_scan _ _ _ _ _ _ Hf) as (n & E & Hk & Hg).
  assert (Hus : ∀ b w, w ∈ usable b → w ∈ dkeys n).
  { intros b w [[Hm _] Hw]%list_elem_of_filter. by apply Hk. }
  assert (Hm : ∀ A (x y : A), match workers with [] => x | _ => y end = if decide (workers = []) then x else y).
  { intros. clear. destruct workers; by case_decide. }
  unfold select_preview_workers_and_profiles. rewrite Hm. clear Hm.
  case_decide as Hempty; [left; rewrite Hempty; by intros w ?%elem_of_nil|].
  rewrite E. csimpl. fold (preview_usable normalized_of meets true workers).
  fold (preview_usable normalized_of meets false workers). fold (usable true) (usable false).
  pose proof (preview_cpu_spec normalized_of (requires_cpu_worker (graph_task_types g)) needed n
    (usable false)) as Hcpu. fold needed.
  specialize (Hcpu (λ w Hw, Hg w (Hus false w Hw))).
  assert (Hgpu : match preview_gpu (graph_requires_gpu g) (usable true) with
    | Ok l => (graph_requires_gpu g = false ∧ l = []) ∨ ∃ w, l = [w] ∧ w ∈ usable true
    | Err _ => graph_requires_gpu g = true ∧ usable true = [] end).
  { unfold preview_gpu. destruct (graph_requires_gpu g); [|by left].
    destruct (usable true) as [|w ws]; [done|]. right. exists w. split; [done|left]. }
  destruct (preview_gpu _ _) as [gpu|]; csimpl; [|by right; left].
  destruct (preview_cpu _ _ _ _) as [cpu|]; csimpl; [|by right; right].
  assert (Hall : ∀ w, w ∈ gpu ++ cpu → w ∈ dkeys n).
  { intros w [Hw|Hw]%elem_of_app.
    - destruct Hgpu as [[_ ->]|(x & -> & Hx)]; [by apply elem_of_nil in Hw|].
      apply list_elem_of_singleton in Hw as ->. by eapply Hus.
    - destruct Hcpu as [[_ ->]|(x & _ & -> & Hx & _)]; [by apply elem_of_nil in Hw|].
      apply list_elem_of_singleton in Hw as ->. by eapply Hus. }
  assert (Hprof : ∀ sel, (∀ w, w ∈ sel → w ∈ dkeys n) → ∀ w, w ∈ sel →
    w ∈ workers ∧ meets w = true ∧
    dget w (dict_of ((λ w, (w, dget_or [] w n)) <$> sel)) = Some (normalized_of w)).
  { intros sel Hs w Hw. pose proof (proj1 (Hk w) (Hs w Hw)) as [? ?]. split_and!; try done.
    rewrite (dget_dict_of_map (λ w, dget_or [] w n)) by done. unfold dget_or. by rewrite Hg by auto. }
  destruct (gpu ++ cpu) as [|w ws] eqn:Es.
  - apply app_eq_nil in Es as [-> ->].
    destruct (dkeys n) as [|w ws] eqn:En; csimpl.
    { left. intros w Hw. apply not_true_iff_false. intros Ht.
      by apply (not_elem_of_nil w), Hk. }
    assert (w ∈ w :: ws) by left. split; [done|]. split; [|split].
    + apply (Hprof [w]). by intros x ->%list_elem_of_singleton.
    + intros Hr. destruct Hgpu as [[? _]|(x & [=] & _)]. congruence.
    + intros Hr. destruct Hcpu as [[? _]|(x & _ & [=] & _)]. congruence.
  - rewrite <-Es in *. csimpl. split; [by rewrite Es|]. split; [by apply Hprof|]. split.
    + intros Hr. destruct Hgpu as [[? _]|(x & -> & Hx)]; [congruence|]. exists x. split; [left|done].
    + intros Hr. destruct Hcpu as [[? _]|(x & _ & -> & Hx & Hc)]; [congruence|].
      exists x. split; [apply elem_of_app; right; left|done].
Qed.

Lemma preview_selects_capable_workers_witness :
  ∃ selected profiles,
    select_preview_workers_and_profiles WorkerSample.get_worker_profile ["c"; "g"] WorkerSample.mixed
      (Some WorkerSample.loose) = Ok (selected, profiles) ∧
    ∃ w, w ∈ selected ∧
      w ∈ preview_usable WorkerSample.normalized (WorkerSample.meets (Some WorkerSample.loose)) true ["c"; "g"].
Proof.
  pose proof (preview_selects_capable_workers WorkerSample.get_worker_profile (Some WorkerSample.loose)
    WorkerSample.raw WorkerSample.normalized (WorkerSample.meets (Some WorkerSample.loose))
    ["c"; "g"] WorkerSample.mixed) as H.
  destruct (select_preview_workers_and_profiles _ _ _ _) as [[selected profiles]|e] eqn:E;
    [|vm_compute in E; discriminate].
  exists selected, profiles. split; [reflexivity|]. apply H; [|vm_compute; reflexivity].
  intros w [-> | [-> | []%elem_of_nil]%elem_of_cons]%elem_of_cons; split_and!; vm_compute; reflexivity.
Defined.

(** ** A GPU op the scheduler does not see

    The cost model counts an op on the [omni] backend as a GPU op, the
    scheduler's own test does not. *)
Lemma omni_op_claims_no_gpu (id task_type backend model : string) deps :
  norm backend = "omni" → norm task_type = "omni_text2image" →
  let op := RuntimeOp.mk id task_type backend model [] [] [] [] deps None None in
  Cost.classify op = GPU ∧ requires_gpu op = false.
Proof.
  intros Hb Ht op. unfold Cost.classify, requires_gpu, runtime_op_requires_gpu.
  simpl. rewrite Hb, Ht. done.
Qed.
