(* ===== verification/Dedupe.v ===== *)
(** * Deduplication of merged graphs (runtime/optimizer/base.py)

    Before it schedules a batch, an optimizer merges the runtime graphs of the
    batch and maps every node to a canonical node with the same signature.
    The signature of an op is what it does, with the nodes it refers to
    replaced by their canonical nodes and its parameter labels replaced by
    numbered tokens.

    [_stable_json] prints a value with sorted keys; the model compares the
    values the texts stand for ([stable_json]): dicts sorted by key, and a
    tuple is printed as a list.  Text is UTF-8, so [len] counts the bytes that
    start a character and [replace] of an empty pattern inserts before each of
    them. *)

From S2P Require Import Prelude PyFloat PyDict PyValue PyString TopoSort RuntimeGraph.
From Stdlib Require Import Ascii.

(** ** Canonical values *)

Fixpoint stable_json (v : val) : val :=
  match v with
  | VDict d =>
      let fix items (d : list (string * val)) :=
        match d with
        | [] => []
        | (key, item) :: d' => (key, stable_json item) :: items d'
        end in
      VDict (sorted_by str_ltb fst (items d))
  | VList l => VList (map stable_json l)
  | VTuple l => VList (map stable_json l)
  | _ => v
  end.

(** ** Labels *)

(** [collect]: the labels of a value, in the order they are found. *)
Fixpoint collect_labels (v : val) : list string :=
  match v with
  | VDict d =>
      let fix items (d : list (string * val)) :=
        match d with
        | [] => []
        | (key, item) :: d' =>
            match item with
            | VStr s => if String.eqb key "label" then [s] else []
            | _ => []
            end ++ collect_labels item ++ items d'
        end in
      items d
  | VList l => concat (map collect_labels l)
  | VTuple l => concat (map collect_labels l)
  | _ => []
  end.

(** [l.replace(old, new)] for a non-empty [old]: leftmost occurrences that do
    not overlap; the fuel is the length of the text. *)
Fixpoint replace_chars (fuel : nat) (old new l : list ascii) : list ascii :=
  match fuel, l with
  | S fuel', c :: l' =>
      if bool_decide (take (length old) l = old)
      then new ++ replace_chars fuel' old new (drop (length old) l)
      else c :: replace_chars fuel' old new l'
  | _, _ => l
  end.

(** [l.replace("", new)] *)
Definition replace_empty (new l : list ascii) : list ascii :=
  concat (map (λ c, if starts_char c then new ++ [c] else [c]) l) ++ new.

Definition replace_all (old new text : string) : string :=
  let l := chars text in
  of_chars
    (match chars old with
     | [] => replace_empty (chars new) l
     | old' => replace_chars (length l) old' (chars new) l
     end).

(** [f"__lbl{idx}__"] *)
Definition label_token (idx : nat) : string :=
  "__lbl" +:+ str_of_nat idx +:+ "__".

(** [replace] *)
Fixpoint replace_labels (label_map : dict string string) (pairs : list (string * string)) (v : val) : val :=
  match v with
  | VDict d =>
      let fix items (d : list (string * val)) :=
        match d with
        | [] => []
        | (key, item) :: d' =>
            (key, match item with
                  | VStr s =>
                      if String.eqb key "label" then VStr (dget_or s s label_map)
                      else replace_labels label_map pairs item
                  | _ => replace_labels label_map pairs item
                  end) :: items d'
        end in
      VDict (items d)
  | VList l => VList (map (replace_labels label_map pairs) l)
  | VTuple l => VTuple (map (replace_labels label_map pairs) l)
  | VStr s => VStr (foldl (λ text p, replace_all p.1 p.2 text) s pairs)
  | _ => v
  end.

(** [label_map.items()] *)
Definition label_pairs (sorted_labels : list string) : list (string * string) :=
  imap (λ idx label, (label, label_token idx)) sorted_labels.

Definition normalize_label_tokens (v : val) : val :=
  match sorted_by str_ltb id (remove_dups (collect_labels v)) with
  | [] => v
  | sorted_labels =>
      let label_map := label_pairs sorted_labels in
      replace_labels label_map (sorted_by (λ a b, b <? a) (λ pair, py_len pair.1) label_map) v
  end.

(** ** Renaming the nodes a spec refers to *)

Definition remap_node_refs (mapping : dict string string) (v : val) : val :=
  RuntimeGraph.remap (λ n, dget n mapping) (λ n, dget n mapping) v.

Definition remap_node_spec (spec : dict string val) (mapping : dict string string) : dict string val :=
  RuntimeGraph.remap_dict (λ n, dget n mapping) (λ n, dget n mapping) spec.

Definition remap_condition_spec (spec : dict string string) (mapping : dict string string) : dict string string :=
  RuntimeGraph.remap_condition (λ n, dget n mapping) (λ n, dget n mapping) spec.

(** ** Signatures *)

Definition normalize_spec_for_signature (spec : dict string val) (mapping : dict string string) : val :=
  normalize_label_tokens (VDict (remap_node_spec spec mapping)).

Module Signature.
Record t := mk {
task_type : string;
backend : string;
model : string;
data_spec : val;
model_spec : val;
inference_spec : val;
api_spec : val;
output_spec : option val;
dependencies : list string;
condition : option val;
}.
#[global] Instance eq_dec : EqDecision t.
Proof. solve_decision. Defined.
End Signature.

Definition condition_val (d : dict string string) : val := VDict (prod_map id VStr <$> d).

Definition runtime_signature (op : RuntimeOp.t) (mapping : dict string string) : Signature.t :=
  let normal spec := stable_json (normalize_spec_for_signature spec mapping) in
  Signature.mk (RuntimeOp.task_type op) (RuntimeOp.backend op) (RuntimeOp.model op)
    (normal (RuntimeOp.data_spec op)) (normal (RuntimeOp.model_spec op))
    (normal (RuntimeOp.inference_spec op)) (normal (RuntimeOp.api_spec op))
    (normal <$> RuntimeOp.output_spec op)
    ((λ dep, dget_or dep dep mapping) <$> RuntimeOp.dependencies op)
    ((λ c, stable_json (condition_val c)) <$> RuntimeOp.condition op).

(** ** Deduplication *)

Definition dedupe_ordered (items : list string) : list string :=
  foldl (λ ordered item, if decide (item ∈ ordered) then ordered else ordered ++ [item]) [] items.

Record dedupe := Dedupe {
  canonical_by_signature : dict Signature.t string;
  node_mapping : dict string string;
}.

Definition dedupe_node (graph : RuntimeGraph.t) (s : dedupe) (node_id : string) : result dedupe :=
  let mapping := node_mapping s in
  if decide (node_id ∈ dkeys (RuntimeGraph.output_node_map graph))
  then Ok (Dedupe (canonical_by_signature s) (dset node_id node_id mapping))
  else
    op ← dindex (KeyError node_id) node_id (RuntimeGraph.nodes graph);
    let signature := runtime_signature op mapping in
    Ok (match dget signature (canonical_by_signature s) with
        | None => Dedupe (dset signature node_id (canonical_by_signature s)) (dset node_id node_id mapping)
        | Some canonical => Dedupe (canonical_by_signature s) (dset node_id canonical mapping)
        end).

Definition dedupe_mapping (graph : RuntimeGraph.t) : result (dict string string) :=
  order ← RuntimeGraph.topological_order graph;
  s ← foldR (dedupe_node graph) (Dedupe [] []) order;
  Ok (node_mapping s).

(** The canonical op, its references renamed. *)
Definition remap_op (canonical : string) (mapping : dict string string) (op : RuntimeOp.t) : RuntimeOp.t :=
  RuntimeOp.mk canonical (RuntimeOp.task_type op) (RuntimeOp.backend op) (RuntimeOp.model op)
    (remap_node_spec (RuntimeOp.data_spec op) mapping)
    (remap_node_spec (RuntimeOp.model_spec op) mapping)
    (remap_node_spec (RuntimeOp.inference_spec op) mapping)
    (remap_node_spec (RuntimeOp.api_spec op) mapping)
    (dedupe_ordered ((λ dep, dget_or dep dep mapping) <$> RuntimeOp.dependencies op))
    ((λ spec, remap_node_spec spec mapping) <$> RuntimeOp.output_spec op)
    ((λ spec, remap_condition_spec spec mapping) <$> RuntimeOp.condition op).

(** One turn of the rebuilding loop on [new_nodes] and [new_order]. *)
Definition rebuild_node (graph : RuntimeGraph.t) (mapping : dict string string)
    (s : dict string RuntimeOp.t * list string) (node_id : string) : result (dict string RuntimeOp.t * list string) :=
  let '(new_nodes, new_order) := s in
  canonical ← dindex (KeyError node_id) node_id mapping;
  if dmem canonical new_nodes then Ok s
  else
    op ← dindex (KeyError canonical) canonical (RuntimeGraph.nodes graph);
    Ok (dset canonical (remap_op canonical mapping op) new_nodes, new_order ++ [canonical]).

(** [{mapping[k]: v for k, v in d.items()}] *)
Definition rekey (mapping d : dict string string) : result (dict string string) :=
  entries ← mapR (λ kv, k ← dindex (KeyError kv.1) kv.1 mapping; Ok (k, kv.2)) d;
  Ok (dict_of entries).

Definition is_identity (mapping : dict string string) : bool :=
  forallb (λ kv, String.eqb kv.1 kv.2) mapping.

Definition dedupe_runtime_graph (graph : RuntimeGraph.t) : result (RuntimeGraph.t * dict string string) :=
  mapping ← dedupe_mapping graph;
  if is_identity mapping then Ok (graph, mapping)
  else
    rebuilt ← foldR (rebuild_node graph mapping) ([], []) (RuntimeGraph.node_order graph);
    let '(new_nodes, new_order) := rebuilt in
    outputs ← rekey mapping (RuntimeGraph.output_node_map graph);
    paths ← rekey mapping (RuntimeGraph.output_paths graph);
    let dsl := map (λ kv, (kv.1, dedupe_ordered ((λ rid, dget_or rid rid mapping) <$> kv.2)))
                 (RuntimeGraph.dsl_to_runtime graph) in
    Ok (RuntimeGraph.mk new_nodes new_order outputs paths dsl, mapping).

(** [BaseOptimizer.optimize_graphs] *)
Definition optimize_graphs (graphs : dict string RuntimeGraph.t) :
    result (RuntimeGraph.t * dict string (string * string) * dict string string) :=
  merged ← RuntimeGraph.merge_runtime_graphs graphs;
  let '(merged_graph, output_mapping) := merged in
  optimized ← dedupe_runtime_graph merged_graph;
  let '(optimized_graph, dedup_mapping) := optimized in
  Ok (optimized_graph, output_mapping, dedup_mapping).

Example label_ex :
  normalize_label_tokens (VDict [("params", VList [VDict [("label", VStr "b")]; VDict [("label", VStr "ab")]]);
                                 ("text", VStr "{ab} {b}")])
  = VDict [("params", VList [VDict [("label", VStr "__lbl1__")]; VDict [("label", VStr "__lbl0__")]]);
           ("text", VStr "{__l__lbl1__l0__} {__lbl1__}")].
Proof. vm_compute. reflexivity. Qed.
Example replace_ex : replace_all "" "-" "ab" = "-a-b-". Proof. reflexivity. Qed.
