(* ===== verification/DedupeProps.v ===== *)
(** * Correctness of deduplication

    Deduplicating a well-formed graph succeeds and gives a well-formed graph
    over the canonical nodes, with the same outputs; only nodes with the same
    signature are merged, which is not always the same task: the signature
    cannot tell apart ops that differ in their labels alone. *)

From S2P Require Import Prelude PyFloat PyDict PyValue PyString TopoSort RuntimeGraph Dedupe.

Notation nodes := RuntimeGraph.nodes.
Notation node_order := RuntimeGraph.node_order.
Notation deps := RuntimeOp.dependencies.
Notation outputs_of g := (dkeys (RuntimeGraph.output_node_map g)).

(** ** Lists *)

Lemma elem_of_dedupe_ordered x l : x ∈ dedupe_ordered l ↔ x ∈ l.
Proof.
  unfold dedupe_ordered. induction l as [|y l IH] using rev_ind; [done|].
  rewrite foldl_snoc, elem_of_app, <-IH. case_decide; set_solver.
Qed.

Lemma dedupe_ordered_nodup l : NoDup (dedupe_ordered l).
Proof.
  unfold dedupe_ordered. induction l as [|y l IH] using rev_ind; [constructor|].
  rewrite foldl_snoc. case_decide; [done|].
  apply NoDup_app. split; [done|]. split; [set_solver|apply NoDup_singleton].
Qed.

Lemma before_snoc l u v x :
  NoDup (l ++ [x]) → RuntimeGraph.before l u v → (x = v → u ∈ l) → RuntimeGraph.before (l ++ [x]) u v.
Proof.
  intros Hnd Hb Hx l1 l2 E. destruct l2 as [|y l2 _] using rev_ind.
  - apply app_inj_tail in E as [-> ->]. by apply Hx.
  - rewrite app_comm_cons, app_assoc in E. apply app_inj_tail in E as [-> _]. by apply (Hb l1 l2).
Qed.

(** In an order without repetition "before" has a rank. *)
Definition position (l : list string) (x : string) : nat := length (take (default 0 (fst <$> list_find (x =.) l)) l).

Lemma position_split l1 x l2 : x ∉ l1 → position (l1 ++ x :: l2) x = length l1.
Proof.
  intros Hx. unfold position.
  assert (E : list_find (x =.) (l1 ++ x :: l2) = Some (length l1, x)).
  { apply list_find_Some. split_and!; [by rewrite lookup_app_r, Nat.sub_diag by lia|done|].
    intros j y Hy Hj. rewrite lookup_app_l in Hy by done. intros <-. apply Hx.
    by apply list_elem_of_lookup_2 in Hy. }
  rewrite E. simpl. rewrite length_take, length_app. simpl. lia.
Qed.

Lemma before_position l u v :
  NoDup l → v ∈ l → RuntimeGraph.before l u v → position l u < position l v.
Proof.
  intros Hnd Hv Hb. apply list_elem_of_split in Hv as (l1 & l2 & ->).
  specialize (Hb l1 l2 eq_refl) as Hu. apply NoDup_app in Hnd as (H1 & H12 & _).
  rewrite (position_split l1 v) by (intros Hx; apply (H12 v Hx); set_solver).
  apply list_elem_of_split in Hu as (k1 & k2 & ->). apply NoDup_app in H1 as (_ & H1 & _).
  rewrite <-app_assoc. simpl. rewrite position_split by (intros Hx; apply (H1 u Hx); set_solver).
  rewrite length_app. simpl. lia.
Qed.

(** ** Well-formed graphs

    Dependencies are nodes, [node_order] puts every node after its
    dependencies, and outputs are nodes. *)
Record graph_ok (g : RuntimeGraph.t) : Prop := {
  go_wf : RuntimeGraph.wf g;
  go_deps u v : RuntimeGraph.depends_on g v u → u ∈ dkeys (nodes g);
  go_order u v : RuntimeGraph.depends_on g v u → RuntimeGraph.before (node_order g) u v;
  go_outputs : dict_wf (RuntimeGraph.output_node_map g);
  go_output_nodes n : n ∈ outputs_of g → n ∈ dkeys (nodes g);
  go_paths : dict_wf (RuntimeGraph.output_paths g);
  go_path_nodes n : n ∈ dkeys (RuntimeGraph.output_paths g) → n ∈ outputs_of g;
}.

Lemma topological_order_exists g : graph_ok g → ∃ order, RuntimeGraph.topological_order g = Ok order.
Proof.
  intros [[W1 W2 W3] Hd Ho _ _ _ _]. apply RuntimeGraph.topological_order_total; [done|].
  exists (position (node_order g)). intros u v Huv. apply before_position; [done| |by apply Ho].
  apply W3. destruct Huv as (op & Hv & _). apply dget_is_Some. eauto.
Qed.

(** ** The mapping *)

Definition submap (m m' : dict string string) : Prop := ∀ k v, dget k m = Some v → dget k m' = Some v.

#[export] Instance submap_preorder : PreOrder submap.
Proof. split; [by intros m k v|]. intros m1 m2 m3 H1 H2 k v Hk. by apply H2, H1. Qed.

Lemma submap_dset k v m : k ∉ dkeys m → submap m (dset k v m).
Proof.
  intros Hk k' v' E. rewrite dget_dset_ne; [done|]. intros ->. apply Hk, dget_is_Some. eauto.
Qed.

Lemma submap_get_or m m' k : submap m m' → k ∈ dkeys m → dget_or k k m' = dget_or k k m.
Proof.
  intros Hs [v Hv]%dget_is_Some. unfold dget_or. by rewrite Hv, (Hs k v Hv).
Qed.

(** Both ops have the same signature, each under the mapping there was when
    its turn came. *)
Definition same_task (m : dict string string) (op canonical : RuntimeOp.t) : Prop :=
  ∃ m1 m2, submap m2 m1 ∧ submap m1 m ∧ deps op ⊆ dkeys m1 ∧ deps canonical ⊆ dkeys m2 ∧
    runtime_signature op m1 = runtime_signature canonical m2.

(** What the mapping says of a node: it is canonical, or it was merged into a
    canonical node with the same signature, and neither is an output. *)
Definition mapped_ok (g : RuntimeGraph.t) (m : dict string string) (n : string) : Prop :=
  ∃ c op canonical, dget n m = Some c ∧ dget c m = Some c ∧
    dget n (nodes g) = Some op ∧ dget c (nodes g) = Some canonical ∧
    (n = c ∨ n ∉ outputs_of g ∧ c ∉ outputs_of g ∧ same_task m op canonical).

Lemma same_task_mono m m' op c : submap m m' → same_task m op c → same_task m' op c.
Proof. intros Hs (m1 & m2 & H12 & H1 & Hr). exists m1, m2. split_and!; [done|by etrans|naive_solver..]. Qed.

Lemma mapped_ok_mono g m m' n : submap m m' → mapped_ok g m n → mapped_ok g m' n.
Proof.
  intros Hs (c & op & cop & H1 & H2 & H3 & H4 & Hr). exists c, op, cop. split_and!; auto.
  destruct Hr as [|(?&?&?)]; [by left|right]. split_and!; try done. by eapply same_task_mono.
Qed.

(** The loop invariant after the nodes [done_]. *)
Record dedupe_inv (g : RuntimeGraph.t) (done_ : list string) (s : dedupe) : Prop := {
  di_keys n : n ∈ dkeys (node_mapping s) ↔ n ∈ done_;
  di_mapped n : n ∈ done_ → mapped_ok g (node_mapping s) n;
  di_table sig c : dget sig (canonical_by_signature s) = Some c →
    c ∉ outputs_of g ∧ dget c (node_mapping s) = Some c ∧
    ∃ op m, dget c (nodes g) = Some op ∧ submap m (node_mapping s) ∧ deps op ⊆ dkeys m ∧
      sig = runtime_signature op m;
}.

Lemma dedupe_node_inv g done_ s n op :
  dedupe_inv g done_ s → n ∉ done_ → dget n (nodes g) = Some op → deps op ⊆ done_ →
  ∃ s', dedupe_node g s n = Ok s' ∧ dedupe_inv g (done_ ++ [n]) s'.
Proof.
  intros [Hk Hm Ht] Hn Hop Hd. unfold dedupe_node.
  assert (Hsub : ∀ c, submap (node_mapping s) (dset n c (node_mapping s)))
    by (intros c; apply submap_dset; by rewrite Hk).
  assert (Hdm : deps op ⊆ dkeys (node_mapping s)) by (intros d ?; by apply Hk, Hd).
  assert (Hself : mapped_ok g (dset n n (node_mapping s)) n).
  { exists n, op, op. rewrite dget_dset_eq. split_and!; auto. }
  (* the part of the invariant that every branch shares *)
  assert (Hcommon : ∀ c tbl, mapped_ok g (dset n c (node_mapping s)) n →
    (∀ sig c', dget sig tbl = Some c' → dget sig (canonical_by_signature s) = Some c' ∨
       c' = n ∧ c = n ∧ n ∉ outputs_of g ∧ sig = runtime_signature op (node_mapping s)) →
    dedupe_inv g (done_ ++ [n]) (Dedupe tbl (dset n c (node_mapping s)))).
  { intros c tbl Hmn Htbl. split; simpl.
    - intros x. rewrite elem_of_dkeys_dset, Hk. set_solver.
    - intros x [Hx| ->%list_elem_of_singleton]%elem_of_app; [|done].
      eapply mapped_ok_mono; [apply Hsub|]. by apply Hm.
    - intros sig c' [E|(-> & -> & Hout & ->)]%Htbl.
      + destruct (Ht sig c' E) as (? & ? & op' & m & ? & ? & ? & ?). split_and!; [done|by apply Hsub|].
        exists op', m. split_and!; try done. etrans; [done|apply Hsub].
      + rewrite dget_dset_eq. split_and!; [done..|]. exists op, (node_mapping s). split_and!; auto. }
  case_decide as Hout.
  { eexists. split; [done|]. apply Hcommon; [done|]. intros; by left. }
  unfold dindex. rewrite Hop. simpl.
  destruct (dget _ (canonical_by_signature s)) as [c|] eqn:E; eexists; (split; [done|]); apply Hcommon; try done.
  - destruct (Ht _ _ E) as (Hco & Hcm & cop & m & Hcop & Hms & Hcd & Hsig).
    exists c, op, cop. rewrite dget_dset_eq. split_and!; try done.
    + by apply Hsub.
    + right. split_and!; try done. exists (node_mapping s), m. split_and!; auto.
  - intros; by left.
  - intros sig c' Hget. rewrite dget_dset in Hget. case_decide as Hs; [|by left].
    right. by simplify_eq.
Qed.

Lemma dedupe_fold g order done_ s :
  dedupe_inv g done_ s → NoDup (done_ ++ order) →
  (∀ n, n ∈ order → n ∈ dkeys (nodes g)) →
  (∀ u v, RuntimeGraph.depends_on g v u → RuntimeGraph.before (done_ ++ order) u v) →
  ∃ s', foldR (dedupe_node g) s order = Ok s' ∧ dedupe_inv g (done_ ++ order) s'.
Proof.
  revert done_ s. induction order as [|n order IH]; intros done_ s Hinv Hnd Hin Hb.
  { exists s. by rewrite app_nil_r. }
  destruct (proj2 (dget_is_Some n (nodes g))) as [op Hop]; [apply Hin; set_solver|].
  assert (n ∉ done_) by (apply NoDup_app in Hnd as (_ & Hd & _); intros Hx; apply (Hd n Hx); set_solver).
  destruct (dedupe_node_inv g done_ s n op) as (s1 & E & Hinv1); try done.
  { intros d Hd. apply (Hb d n) with (l2 := order); [by exists op|done]. }
  rewrite foldR_cons, E. replace (done_ ++ n :: order) with ((done_ ++ [n]) ++ order) in *
    by (by rewrite <-app_assoc).
  apply IH; try done. intros x Hx. apply Hin. set_solver.
Qed.

Lemma dedupe_mapping_ok g : graph_ok g →
  ∃ m, dedupe_mapping g = Ok m ∧ (∀ n, n ∈ dkeys m ↔ n ∈ dkeys (nodes g)) ∧
    ∀ n, n ∈ dkeys (nodes g) → mapped_ok g m n.
Proof.
  intros Hok. destruct (topological_order_exists g Hok) as [order E].
  destruct (RuntimeGraph.topological_order_ok g order) as (Hnd & Hall & Hb); [apply Hok|done|].
  destruct (dedupe_fold g order [] (Dedupe [] [])) as (s & Es & [Hk Hm _]); simpl; try done.
  - split; simpl; [set_solver..|done].
  - intros n. apply Hall.
  - intros u v Huv. apply Hb; [|done]. by eapply go_deps.
  - exists (node_mapping s). unfold dedupe_mapping. rewrite E. simpl. rewrite Es. split; [done|]. split.
    + intros n. rewrite Hk. apply Hall.
    + intros n Hn. by apply Hm, Hall.
Qed.

(** ** Rebuilding the graph *)

Definition rename (m : dict string string) (n : string) : string := dget_or n n m.

Lemma same_task_deps m op c : same_task m op c → rename m <$> deps op = rename m <$> deps c.
Proof.
  intros (m1 & m2 & H21 & H1 & Hop & Hc & Hsig).
  assert (Hd := f_equal Signature.dependencies Hsig). simpl in Hd. clear Hsig.
  trans ((λ d, dget_or d d m1) <$> deps op); [|rewrite Hd]; apply list_fmap_ext; intros i d Hi;
    apply list_elem_of_lookup_2 in Hi.
  - apply submap_get_or; [done|by apply Hop].
  - symmetry. apply submap_get_or; [by etrans|by apply Hc].
Qed.

Record rebuild_inv (g : RuntimeGraph.t) (m : dict string string) (done_ : list string)
    (s : dict string RuntimeOp.t * list string) : Prop := {
  ri_keys : dkeys s.1 = s.2;
  ri_nodup : NoDup s.2;
  ri_image c : c ∈ s.2 ↔ ∃ n, n ∈ done_ ∧ dget n m = Some c;
  ri_ops c op' : dget c s.1 = Some op' → ∃ op, dget c (nodes g) = Some op ∧ op' = remap_op c m op;
  ri_order c op' u : dget c s.1 = Some op' → u ∈ deps op' → RuntimeGraph.before s.2 u c;
}.

Section rebuild.
Context (g : RuntimeGraph.t) (m : dict string string).
Context (Hok : graph_ok g) (Hkeys : ∀ n, n ∈ dkeys m ↔ n ∈ dkeys (nodes g)).
Context (Hm : ∀ n, n ∈ dkeys (nodes g) → mapped_ok g m n).

(** The dependencies of a canonical op are the images of those of any op
  merged into it. *)
Lemma canonical_deps n op c cop u :
dget n (nodes g) = Some op → dget n m = Some c → dget c (nodes g) = Some cop →
u ∈ deps (remap_op c m cop) ↔ ∃ d, d ∈ deps op ∧ dget d m = Some u.
Proof using Hok Hkeys Hm.
intros Hn Hc Hcop. assert (Hn' : n ∈ dkeys (nodes g)) by (apply dget_is_Some; eauto).
destruct (Hm n Hn') as (c' & op' & cop' & H1 & H2 & H3 & H4 & H5). simplify_eq.
assert (E : rename m <$> deps op = rename m <$> deps cop).
{ destruct H5 as [->|(_ & _ & H5)]; [congruence|by apply same_task_deps]. }
unfold remap_op. simpl. rewrite elem_of_dedupe_ordered.
change (u ∈ rename m <$> deps cop ↔ ∃ d, d ∈ deps op ∧ dget d m = Some u).
rewrite <-E, list_elem_of_fmap.
assert (Hd : ∀ d, d ∈ deps op → dget d m = Some (rename m d)).
{ intros d Hd. assert (d ∈ dkeys m) as [x Hx]%dget_is_Some
    by (apply Hkeys; eapply go_deps; [done|by exists op]).
  unfold rename, dget_or. by rewrite Hx. }
split; intros (d & H & H'); exists d; [|split; [|done]].
- subst. split; [done|by apply Hd].
- rewrite Hd in * by done. congruence.
Qed.

Lemma rebuild_node_inv done_ s n rest :
node_order g = done_ ++ n :: rest → rebuild_inv g m done_ s →
∃ s', rebuild_node g m s n = Ok s' ∧ rebuild_inv g m (done_ ++ [n]) s'.
Proof using Hok Hkeys Hm.
intros Hord [H1 H2 H3 H4 H5]. destruct s as [new_nodes new_order]. simpl in *.
assert (Hn : n ∈ dkeys (nodes g)) by (apply (RuntimeGraph.wf_order_nodes g (go_wf g Hok)); rewrite Hord, elem_of_app; right; left).
destruct (Hm n Hn) as (c & op & cop & Hc & Hcc & Hop & Hcop & Hr).
unfold dindex. rewrite Hc. simpl. destruct (dmem c new_nodes) eqn:Emem.
{ apply dmem_true in Emem. rewrite H1 in Emem.
  eexists. split; [done|]. split; simpl; try done. intros x. rewrite H3.
  split; [intros (k & Hk & Hkx); exists k; by rewrite elem_of_app; auto|].
  intros (k & [Hk| ->%list_elem_of_singleton]%elem_of_app & Hkx); [by exists k|].
  simplify_eq. by apply H3. }
apply dmem_false in Emem. rewrite Hcop. simpl. eexists. split; [done|].
rewrite H1 in Emem.
assert (Hnd : NoDup (new_order ++ [c])) by (apply NoDup_app; split; [done|]; split;
  [intros x Hx ->%list_elem_of_singleton; done|apply NoDup_singleton]).
split; simpl.
- rewrite dkeys_dset, H1, decide_False by done. done.
- done.
- intros x. rewrite elem_of_app, list_elem_of_singleton, H3. split.
  + intros [(k & Hk & Hkx)| ->]; [exists k|exists n]; (split; [apply elem_of_app|done]);
      [by left|right; by apply list_elem_of_singleton].
  + intros (k & [Hk| ->%list_elem_of_singleton]%elem_of_app & Hkx); [left; by exists k|right; congruence].
- intros x op'. rewrite dget_dset. case_decide as Hx; [subst x; intros [= <-]; eauto|apply H4].
- intros x op' u. rewrite dget_dset. case_decide as Hx.
  + subst x. intros [= <-] Hu. apply (canonical_deps n op) in Hu as (d & Hd & Hdu); [|done..].
    assert (Hdd : d ∈ done_) by (apply (go_order g Hok d n) with (l2 := rest); [by exists op|done]).
    assert (u ∈ new_order) by (apply H3; eauto).
    apply before_snoc; [done| |done]. intros l1 l2 E. exfalso. apply Emem. rewrite E, elem_of_app. right; left.
  + intros Hget Hu. apply before_snoc; [done|by eapply H5|done].
Qed.

Lemma rebuild_fold rest done_ s :
node_order g = done_ ++ rest → rebuild_inv g m done_ s →
∃ s', foldR (rebuild_node g m) s rest = Ok s' ∧ rebuild_inv g m (node_order g) s'.
Proof using Hok Hkeys Hm.
revert done_ s. induction rest as [|n rest IH]; intros done_ s Hord Hinv.
{ exists s. by rewrite Hord, app_nil_r. }
destruct (rebuild_node_inv done_ s n rest Hord Hinv) as (s1 & E & Hinv1).
rewrite foldR_cons, E. apply (IH (done_ ++ [n])); [by rewrite <-app_assoc|done].
Qed.

(** The maps that name output nodes are kept. *)
Lemma rekey_outputs d :
dict_wf d → (∀ n, n ∈ dkeys d → n ∈ outputs_of g) → rekey m d = Ok d.
Proof using Hok Hm.
intros Hwf Hd. unfold rekey.
assert (E : mapR (λ kv, k ← dindex (KeyError kv.1) kv.1 m; Ok (k, kv.2)) d = Ok d).
{ clear Hwf. induction d as [|[k v] d IH]; simpl; [done|].
  assert (Hk : k ∈ outputs_of g) by (apply Hd; left).
  destruct (Hm k) as (c & op & cop & Hc & _ & _ & _ & Hr); [by eapply go_output_nodes|].
  destruct Hr as [<-|(Hnot & _)]; [|done]. assert (Ek : dindex (KeyError k) k m = Ok k) by (unfold dindex; by rewrite Hc).
  rewrite Ek. simpl. rewrite IH; [done|]. intros x Hx. apply Hd. by right. }
rewrite E. simpl. f_equal. by apply dict_of_nodup.
Qed.
End rebuild.

(** What deduplication returns. *)
Record deduped (g g' : RuntimeGraph.t) (m : dict string string) : Prop := {
  dd_keys n : n ∈ dkeys m ↔ n ∈ dkeys (nodes g);
  dd_mapped n : n ∈ dkeys (nodes g) → mapped_ok g m n;
  dd_nodes c : c ∈ dkeys (nodes g') ↔ ∃ n, n ∈ dkeys (nodes g) ∧ dget n m = Some c;
  dd_ops c op' : dget c (nodes g') = Some op' →
    ∃ op, dget c (nodes g) = Some op ∧ (op' = remap_op c m op ∨ op' = op ∧ is_identity m = true);
  dd_outputs : RuntimeGraph.output_node_map g' = RuntimeGraph.output_node_map g;
  dd_paths : RuntimeGraph.output_paths g' = RuntimeGraph.output_paths g;
  dd_ok : graph_ok g';
}.

Lemma is_identity_get m n c : is_identity m = true → dget n m = Some c → c = n.
Proof.
  unfold is_identity. rewrite forallb_forall. intros H Hn%dget_elem.
  apply list_elem_of_In, H in Hn. simpl in Hn. by apply String.eqb_eq in Hn.
Qed.

Lemma dedupe_runtime_graph_ok g : graph_ok g →
  ∃ g' m, dedupe_runtime_graph g = Ok (g', m) ∧ deduped g g' m.
Proof.
  intros Hok. destruct (dedupe_mapping_ok g Hok) as (m & E & Hk & Hm).
  unfold dedupe_runtime_graph. rewrite E. simpl. destruct (is_identity m) eqn:Eid.
  { exists g, m. split; [done|]. split; try done.
    - intros c. split.
      + intros Hc. exists c. split; [done|]. apply Hk in Hc as Hc'. apply dget_is_Some in Hc' as [x Hx].
        by rewrite (is_identity_get m c x) in Hx.
      + intros (n & Hn & Hc). by rewrite (is_identity_get m n c).
    - eauto. }
  destruct (rebuild_fold g m Hok Hk Hm (node_order g) [] ([], [])) as ([ns order] & Er & [H1 H2 H3 H4 H5]).
  { done. }
  { split; simpl; try done; [constructor|]. intros c. split; [by intros ?%elem_of_nil|by intros (? & ?%elem_of_nil & _)]. }
  rewrite Er. simpl.
  rewrite (rekey_outputs g m Hok Hm (RuntimeGraph.output_node_map g)) by (done || apply Hok).
  rewrite (rekey_outputs g m Hok Hm (RuntimeGraph.output_paths g)) by apply Hok.
  simpl in *. eexists _, m. split; [done|].
  assert (Himg : ∀ c, c ∈ order ↔ ∃ n, n ∈ dkeys (nodes g) ∧ dget n m = Some c).
  { intros c. rewrite H3. by setoid_rewrite (RuntimeGraph.wf_order_nodes g (go_wf g Hok)). }
  split; simpl; try done.
  - intros c. by rewrite H1.
  - intros c op' Hget. destruct (H4 c op' Hget) as (op & ? & ?). eauto.
  - assert (Hdep : ∀ u v, RuntimeGraph.depends_on (RuntimeGraph.mk ns order (RuntimeGraph.output_node_map g)
        (RuntimeGraph.output_paths g) []) v u → RuntimeGraph.before order u v ∧ u ∈ order).
    { intros u v (op' & Hv & Hu). simpl in *. assert (Hb := H5 v op' u Hv Hu). split; [done|].
      assert (Hvo : v ∈ order) by (rewrite <-H1; apply dget_is_Some; eauto).
      apply list_elem_of_split in Hvo as (l1 & l2 & ->). specialize (Hb l1 l2 eq_refl). apply elem_of_app. by left. }
    split; simpl; try apply Hok.
    + split; simpl; [unfold dict_wf; by rewrite H1|done|by rewrite H1].
    + intros u v Huv. rewrite H1. by apply (Hdep u v).
    + intros u v Huv. by apply (Hdep u v).
    + intros n Hn. rewrite H1. apply Himg. exists n.
      assert (Hn' : n ∈ dkeys (nodes g)) by (by apply (go_output_nodes g Hok)).
      split; [done|]. destruct (Hm n Hn') as (c & op & cop & Hc & _ & _ & _ & [<-|[? _]]); done.
Qed.

(** C29: deduplicating a well-formed graph always succeeds and gives a
    well-formed graph: dependencies are nodes, the node order puts every node
    after its dependencies, and outputs keep their nodes and paths.  The
    mapping sends the nodes of the graph onto the nodes of the new one, fixes
    the canonical nodes and the outputs, and merges two nodes only when
    neither is an output and their signatures agree. *)
Theorem dedupe_keeps_graphs_well_formed g :
  graph_ok g →
  ∃ g' m, dedupe_runtime_graph g = Ok (g', m) ∧ graph_ok g' ∧
    RuntimeGraph.output_node_map g' = RuntimeGraph.output_node_map g ∧
    RuntimeGraph.output_paths g' = RuntimeGraph.output_paths g ∧
    (∀ c, c ∈ dkeys (nodes g') ↔ ∃ n, n ∈ dkeys (nodes g) ∧ dget n m = Some c) ∧
    (∀ n, n ∈ outputs_of g → dget n m = Some n) ∧
    ∀ n, n ∈ dkeys (nodes g) → mapped_ok g m n.
Proof.
  intros Hok. destruct (dedupe_runtime_graph_ok g Hok) as (g' & m & E & D).
  exists g', m. split_and!; try done; try apply D.
  intros n Hn. destruct (dd_mapped g g' m D n) as (c & op & cop & Hc & _ & _ & _ & [<-|[? _]]); try done.
  by apply (go_output_nodes g Hok).
Qed.

(** The signature replaces labels wherever they occur as text, so it does
    not tell apart two ops whose prompts differ in the very words they use as
    labels: the prompt about dogs is merged into the one about cats. *)
Theorem dedupe_merges_different_prompts :
  let spec animal := [("template", VStr ("Describe a " +:+ animal +:+ "."));
                      ("params", VList [VDict [("label", VStr animal); ("value", VStr "x")]])] in
  let prompt id animal := RuntimeOp.mk id "inference" "vllm" "m-7b" (spec animal) [] [] [] [] None None in
  let out id dep := RuntimeOp.mk id "inference" "vllm" "m-7b" [] [] [] [] [dep] None None in
  let g := RuntimeGraph.mk
    [("p1", prompt "p1" "cat"); ("p2", prompt "p2" "dog"); ("o1", out "o1" "p1"); ("o2", out "o2" "p2")]
    ["p1"; "p2"; "o1"; "o2"] [("o1", "first"); ("o2", "second")] [] [] in
  ∃ g' m, dedupe_runtime_graph g = Ok (g', m) ∧ dget "p2" m = Some "p1" ∧
    dget "o2" (nodes g') = Some (out "o2" "p1") ∧
    dget "p1" (nodes g') = Some (prompt "p1" "cat") ∧ "p2" ∉ dkeys (nodes g').
Proof.
  intros spec prompt out g. eexists _, _. split; [vm_compute; reflexivity|].
  split; [vm_compute; reflexivity|]. split; [vm_compute; reflexivity|]. split; [vm_compute; reflexivity|].
  apply (bool_decide_unpack _). vm_compute. exact I.
Qed.

(** ** Witnesses *)

Lemma before_of_position l u v :
  NoDup l → u ∈ l → position l u < position l v → RuntimeGraph.before l u v.
Proof.
  intros Hnd Hu Hlt l1 l2 ->. apply elem_of_app in Hu as [|Hu]; [done|exfalso].
  apply NoDup_app in Hnd as (H1 & H12 & Hnd).
  rewrite (position_split l1 v) in Hlt by (intros Hx; apply (H12 v Hx); set_solver).
  apply elem_of_cons in Hu as [->|Hu].
  { rewrite position_split in Hlt by (intros Hx; apply (H12 v Hx); set_solver). lia. }
  assert (Hu1 : u ∉ l1) by (intros Hx; apply (H12 u Hx); set_solver).
  apply NoDup_cons in Hnd as [Hv Hnd2].
  apply list_elem_of_split in Hu as (k1 & k2 & ->). apply NoDup_app in Hnd2 as (_ & H3 & _).
  assert (u ∉ l1 ++ v :: k1) by (rewrite elem_of_app, elem_of_cons; intros [|[->|Hk]]; [done|set_solver|apply (H3 u Hk); set_solver]).
  rewrite app_comm_cons, app_assoc, position_split in Hlt by done. rewrite length_app in Hlt. simpl in Hlt. lia.
Qed.

(** A decidable form of [graph_ok]. *)
Definition graph_checks (g : RuntimeGraph.t) : Prop :=
  (dict_wf (nodes g) ∧ NoDup (node_order g) ∧ dict_wf (RuntimeGraph.output_node_map g) ∧
   dict_wf (RuntimeGraph.output_paths g)) ∧
  (Forall (.∈ dkeys (nodes g)) (node_order g) ∧ Forall (.∈ node_order g) (dkeys (nodes g))) ∧
  Forall (λ kv, Forall (λ d, d ∈ node_order g ∧ position (node_order g) d < position (node_order g) kv.1)
                  (deps kv.2)) (nodes g) ∧
  Forall (.∈ dkeys (nodes g)) (outputs_of g) ∧
  Forall (.∈ outputs_of g) (dkeys (RuntimeGraph.output_paths g)).

Lemma graph_checks_ok g : graph_checks g → graph_ok g.
Proof.
  unfold graph_checks. rewrite !Forall_forall. intros ((H1 & H2 & H3 & H4) & (H5 & H6) & H7 & H8 & H9).
  assert (Hd : ∀ u v, RuntimeGraph.depends_on g v u →
    u ∈ node_order g ∧ position (node_order g) u < position (node_order g) v).
  { intros u v (op & Hv%dget_elem & Hu). specialize (H7 _ Hv). rewrite Forall_forall in H7. by apply (H7 u). }
  split; try done.
  - split; try done. intros n. split; [apply H5|apply H6].
  - intros u v Huv. by apply H5, (Hd u v).
  - intros u v Huv. destruct (Hd u v Huv). by apply before_of_position.
Qed.

Module SampleDedupe.
Definition query (id : string) : RuntimeOp.t :=
RuntimeOp.mk id "data_retrieval" "" "" [("query", VStr "select 1")] [] [] [] [] None None.
Definition prompt (id dep : string) : RuntimeOp.t :=
RuntimeOp.mk id "inference" "vllm" "m-7b" [("source", VDict [("node", VStr dep)])] [] [] [] [dep] None None.
Definition g : RuntimeGraph.t := RuntimeGraph.mk
[("q1", query "q1"); ("q2", query "q2"); ("p1", prompt "p1" "q1"); ("p2", prompt "p2" "q2");
 ("o1", prompt "o1" "p1"); ("o2", prompt "o2" "p2")]
["q1"; "q2"; "p1"; "p2"; "o1"; "o2"] [("o1", "first"); ("o2", "second")] [("o1", "value")] [].
End SampleDedupe.

Lemma dedupe_keeps_graphs_well_formed_witness :
  ∃ g' m, dedupe_runtime_graph SampleDedupe.g = Ok (g', m) ∧ graph_ok g'.
Proof.
  destruct (dedupe_keeps_graphs_well_formed SampleDedupe.g) as (g' & m & E & Hok & _).
  - apply graph_checks_ok, (bool_decide_unpack _). vm_compute. exact I.
  - exists g', m. split; [exact E|exact Hok].
Defined.
