(* ===== verification/Schedule.v ===== *)
(** * Schedules (runtime/server.py, runtime/optimizer/topological_sort.py)

    A [Schedule] maps every worker of a batch to the nodes it runs, in order.
    The file models the scheduler's acceptance test ([_validate_schedule]) and
    the [topological_sort] optimizer, and proves that what the optimizer
    produces passes the test.  Profiles are the normalised ones. *)

From S2P Require Import Prelude PyFloat PyDict PyValue PyString TopoSort RuntimeGraph Grouping Capacity Cost.

Abbreviation worker_assignment := (dict string (list string)).

(** ** Acceptance of a schedule *)

(** [not s.strip()] *)
Definition blank (s : string) : bool := String.eqb (strip s) "".

Definition name_step (names : list string) (node_name : string) : result (list string) :=
  if blank node_name then Err (ValueError "Invalid node id in schedule") else Ok (names ++ [node_name]).

Definition entry_step (names : list string) (entry : string * list string) : result (list string) :=
  if blank entry.1 then Err (ValueError "Invalid worker id in schedule mapping")
  else foldR name_step names entry.2.

Definition schedule_node_names (schedule : worker_assignment) : result (list string) :=
  foldR entry_step [] schedule.

(** Equality of two sets given by lists. *)
Definition same_set (a b : list string) : bool := (subset_of a b && subset_of b a)%bool.

Definition validate_schedule (schedule : worker_assignment) (selected_workers runtime_nodes : list string) :
    result unit :=
  if negb (same_set (dkeys schedule) selected_workers)
  then Err (ValueError "Schedule workers must match selected worker group.")
  else
    schedule_names ← schedule_node_names schedule;
    if negb (same_set schedule_names runtime_nodes)
    then Err (ValueError "Schedule must match runtime graph nodes.")
    else
      foldR (λ _ (entry : string * list string),
        if bool_decide (NoDup entry.2) then Ok tt
        else Err (ValueError "Schedule worker_assignment has duplicate node IDs for worker")) tt schedule.

(** ** The topological_sort optimizer *)

Section optimizer.
Context (worker_names : list string) (worker_profiles : dict string (dict string val)).

Definition known_gpu (w : string) : result bool :=
match dget w worker_profiles with
| None => Ok false
| Some profile => truthy <$> dindex (KeyError "has_gpu") "has_gpu" profile
end.

Definition or_all (l : list string) : list string := match l with [] => worker_names | _ => l end.

(** The workers a node of a capability-gated task type may go to. *)
Definition gated_candidates (task_type : string) : list string :=
filter (λ w,
  let profile := dget_or [] w worker_profiles in
  (negb (truthy (vget "has_gpu" profile)) &&
   bool_decide (task_type ∈ advertised_task_types profile))%bool = true) worker_names.

Definition first_worker (l : list string) : result string :=
match l with w :: _ => Ok w | [] => Err (IndexError "list index out of range") end.

Definition place (gpu_workers cpu_workers : list string) (op : RuntimeOp.t) : result string :=
if bool_decide (RuntimeOp.task_type op ∈ CAPABILITY_GATED_TASK_TYPES) then
  match gated_candidates (RuntimeOp.task_type op) with
  | [] => Err (ValueError "none of the selected CPU workers advertises the task type")
  | w :: _ => Ok w
  end
else if bool_decide (RuntimeOp.backend op ∈ GPU_BACKENDS) then first_worker gpu_workers
else first_worker cpu_workers.

(** [assignment[worker].append(node_id)] *)
Definition append_to (worker node : string) (assignment : worker_assignment) : worker_assignment :=
dset worker (dget_or [] worker assignment ++ [node]) assignment.

Definition place_node (g : RuntimeGraph.t) (gpu_workers cpu_workers : list string)
  (assignment : worker_assignment) (node_id : string) : result worker_assignment :=
op ← dindex (KeyError node_id) node_id (RuntimeGraph.nodes g);
worker ← place gpu_workers cpu_workers op;
Ok (append_to worker node_id assignment).

(** The workers of each class, by the [has_gpu] of their profiles. *)
Definition split_workers : result (list string * list string) :=
flags ← mapR (λ w, b ← known_gpu w; Ok (w, b)) worker_names;
Ok ((filter (λ wb : string * bool, wb.2 = true) flags).*1,
    (filter (λ wb : string * bool, wb.2 = false) flags).*1).

Definition generate_schedule (g : RuntimeGraph.t) : result worker_assignment :=
split ← split_workers;
let gpu_workers := or_all split.1 in
let cpu_workers := or_all split.2 in
order ← RuntimeGraph.topological_order g;
foldR (place_node g gpu_workers cpu_workers) (dict_of ((λ w, (w, [])) <$> worker_names)) order.
End optimizer.

(** ** Acceptance, characterised *)

Lemma same_set_spec a b : same_set a b = true ↔ ∀ x, x ∈ a ↔ x ∈ b.
Proof.
  unfold same_set. rewrite andb_true_iff, !subset_of_spec. set_solver.
Qed.

Lemma inner_names_spec nodes names :
  match foldR name_step names nodes with
  | Ok r => r = names ++ nodes ∧ Forall (λ n, blank n = false) nodes
  | Err _ => ∃ n, n ∈ nodes ∧ blank n = true
  end.
Proof.
  revert names. induction nodes as [|n nodes IH]; intros names.
  - simpl. by rewrite app_nil_r.
  - rewrite foldR_cons. unfold name_step at 1. destruct (blank n) eqn:E; [exists n; split; [left|done]|].
    specialize (IH (names ++ [n])). destruct (foldR _ _ _).
    + destruct IH as [-> H]. rewrite <-app_assoc. split; [done|]. by constructor.
    + destruct IH as (x & Hx & ?). exists x. split; [by right|done].
Qed.

Lemma entries_spec schedule names :
  match foldR entry_step names schedule with
  | Ok r => r = names ++ concat (dvals schedule) ∧
      Forall (λ e : string * list string, blank e.1 = false ∧ Forall (λ n, blank n = false) e.2) schedule
  | Err _ => ∃ w nodes, (w, nodes) ∈ schedule ∧ (blank w = true ∨ ∃ n, n ∈ nodes ∧ blank n = true)
  end.
Proof.
  unfold dvals. revert names. induction schedule as [|[w nodes] schedule IH]; intros names.
  - simpl. by rewrite app_nil_r.
  - rewrite foldR_cons. unfold entry_step at 1. cbn [fst snd].
    destruct (blank w) eqn:E; [exists w, nodes; split; [left|by left]|].
    pose proof (inner_names_spec nodes names) as Hi. destruct (foldR name_step names nodes) as [r|].
    + destruct Hi as [-> Hn]. specialize (IH (names ++ nodes)).
      destruct (foldR _ (names ++ nodes) schedule).
      * destruct IH as [-> H]. csimpl. rewrite app_assoc. split; [done|]. by constructor.
      * destruct IH as (x & l & Hx & ?). exists x, l. split; [by right|done].
    + exists w, nodes. split; [left|by right].
Qed.

Lemma schedule_node_names_spec schedule :
  match schedule_node_names schedule with
  | Ok names => names = concat (dvals schedule) ∧
      Forall (λ e : string * list string, blank e.1 = false ∧ Forall (λ n, blank n = false) e.2) schedule
  | Err _ => ∃ w nodes, (w, nodes) ∈ schedule ∧ (blank w = true ∨ ∃ n, n ∈ nodes ∧ blank n = true)
  end.
Proof. apply (entries_spec schedule []). Qed.

Lemma no_dups_spec (schedule : worker_assignment) :
  match foldR (λ _ (entry : string * list string),
        if bool_decide (NoDup entry.2) then Ok tt
        else Err (ValueError "Schedule worker_assignment has duplicate node IDs for worker")) tt schedule with
  | Ok _ => Forall (λ e : string * list string, NoDup e.2) schedule
  | Err _ => ∃ w nodes, (w, nodes) ∈ schedule ∧ ¬ NoDup nodes
  end.
Proof.
  induction schedule as [|[w nodes] schedule IH]; [by simpl|]. rewrite foldR_cons. cbn [snd].
  case_bool_decide as Hd; [|exists w, nodes; split; [left|done]].
  destruct (foldR _ _ _); [by constructor|]. destruct IH as (x & l & Hx & ?).
  exists x, l. split; [by right|done].
Qed.

(** A schedule the scheduler may dispatch. *)
Record accepted (schedule : worker_assignment) (workers nodes : list string) : Prop := {
  acc_workers w : w ∈ dkeys schedule ↔ w ∈ workers;
  acc_nodes n : n ∈ concat (dvals schedule) ↔ n ∈ nodes;
  acc_entry w l : (w, l) ∈ schedule → blank w = false ∧ NoDup l ∧ ∀ n, n ∈ l → blank n = false;
}.

Lemma validate_schedule_ok schedule workers nodes :
  validate_schedule schedule workers nodes = Ok tt ↔ accepted schedule workers nodes.
Proof.
  unfold validate_schedule. pose proof (schedule_node_names_spec schedule) as Hn.
  pose proof (no_dups_spec schedule) as Hd. split.
  - destruct (same_set (dkeys schedule) workers) eqn:E1; simpl; [|done].
    destruct (schedule_node_names _) as [names|]; csimpl; [|done]. destruct Hn as [-> Hb].
    destruct (same_set _ nodes) eqn:E2; simpl; [|done].
    destruct (foldR _ _ _); [|done]. intros _. rewrite same_set_spec in E1, E2. split; [done..|].
    intros w l Hwl. rewrite Forall_forall in Hb, Hd. pose proof (Hd _ Hwl). destruct (Hb _ Hwl) as [? Hl].
    rewrite Forall_forall in Hl. done.
  - intros [Hw Hns He]. apply same_set_spec in Hw as ->. simpl.
    destruct (schedule_node_names _) as [names|]; csimpl.
    + destruct Hn as [-> Hb]. apply same_set_spec in Hns as ->. simpl.
      destruct (foldR _ _ _) as [[]|]; [done|]. destruct Hd as (w & l & Hwl & Hnd).
      destruct Hnd. by destruct (He _ _ Hwl) as (_ & ? & _).
    + destruct Hn as (w & l & Hwl & Hbad). destruct (He _ _ Hwl) as (? & _ & Hl).
      destruct Hbad as [?|(n & Hnl & ?)]; [congruence|]. pose proof (Hl _ Hnl). congruence.
Qed.

(** ** What the optimizer produces *)

Lemma mapR_ok_zip {A B} (f : A → result B) (h : A → B) l :
  (∀ x, x ∈ l → f x = Ok (h x)) → mapR f l = Ok (h <$> l).
Proof.
  induction l as [|x l IH]; intros H; [done|]. simpl. rewrite (H x) by left. csimpl.
  rewrite IH by (intros y Hy; apply H; by right). done.
Qed.

Section optimizer_facts.
Context (worker_names : list string) (worker_profiles : dict string (dict string val)).
Context (g : RuntimeGraph.t) (gpu_workers cpu_workers : list string).
Notation place_op := (place worker_names worker_profiles gpu_workers cpu_workers).

(** Where the node goes. *)
Definition placement (n : string) : option string :=
match dget n (RuntimeGraph.nodes g) with
| Some op => match place_op op with Ok w => Some w | Err _ => None end
| None => None
end.

(** The schedule after some of the nodes. *)
Record placed (done_ : list string) (a : worker_assignment) : Prop := {
pl_wf : dict_wf a;
pl_keys w : w ∈ dkeys a ↔ w ∈ worker_names;
pl_perm : concat (dvals a) ≡ₚ done_;
pl_get w : dget_or [] w a = filter (λ n, placement n = Some w) done_;
}.

Lemma place_in op w :
gpu_workers ⊆ worker_names → cpu_workers ⊆ worker_names → place_op op = Ok w → w ∈ worker_names.
Proof.
intros Hg Hc. unfold place. case_bool_decide.
- destruct (gated_candidates _ _ _) as [|w' ws] eqn:E; [done|]. intros [= ->].
  assert (Hin : w ∈ w :: ws) by left. rewrite <-E in Hin. by apply list_elem_of_filter in Hin as [_ ?].
- case_bool_decide; unfold first_worker.
  + destruct gpu_workers; [done|]. intros [= ->]. set_solver.
  + destruct cpu_workers; [done|]. intros [= ->]. set_solver.
Qed.

Lemma placed_init : placed [] (dict_of ((λ w, (w, [])) <$> worker_names)).
Proof.
assert (Hg : ∀ w l, (w, l) ∈ dict_of ((λ w : string, (w, @nil string)) <$> worker_names) → l = []).
{ intros w l (x & [= -> ->] & _)%elem_of_dict_of%list_elem_of_fmap. done. }
split; [apply dict_wf_of| | |].
- intros w. rewrite elem_of_dkeys_dict_of, <-list_fmap_compose. by rewrite list_fmap_id.
- assert (Hall : Forall (λ l : list string, l = []) (dvals (dict_of ((λ w : string, (w, @nil string)) <$> worker_names)))).
  { unfold dvals. apply Forall_fmap, Forall_forall. intros [w l] Hin. by eapply Hg. }
  by induction Hall as [|l ls -> _ IH].
- intros w. unfold dget_or. destruct (dget _ _) as [l|] eqn:E; [|done]. apply dget_elem in E. by apply Hg in E.
Qed.

Lemma placed_step done_ a n w :
placement n = Some w → w ∈ worker_names → placed done_ a → placed (done_ ++ [n]) (append_to w n a).
Proof.
intros Hp Hw [H1 H2 H3 H4]. unfold append_to. split.
- by apply dict_wf_dset.
- intros x. rewrite elem_of_dkeys_dset, H2. split; [intros [->|?]; done|by right].
- rewrite dset_app_perm, H3. apply Permutation_app_comm.
- intros x. rewrite filter_app, filter_cons, filter_nil. rewrite Hp.
  destruct (decide (x = w)) as [->|Hne].
  + unfold dget_or at 1. rewrite dget_dset_eq, H4. by rewrite decide_True.
  + unfold dget_or. rewrite dget_dset_ne by done. fold (dget_or [] x a). rewrite H4.
    rewrite decide_False by congruence. by rewrite app_nil_r.
Qed.

Lemma place_all order done_ a :
gpu_workers ⊆ worker_names → cpu_workers ⊆ worker_names → placed done_ a →
match foldR (place_node worker_names worker_profiles g gpu_workers cpu_workers) a order with
| Ok s => placed (done_ ++ order) s ∧ ∀ n, n ∈ order → is_Some (placement n)
| Err _ => ∃ n, n ∈ order ∧ placement n = None
end.
Proof.
intros Hg Hc. revert done_ a. induction order as [|n order IH]; intros done_ a Ha.
- simpl. rewrite app_nil_r. split; [done|]. by intros n ?%elem_of_nil.
- rewrite foldR_cons. unfold place_node at 1. unfold dindex.
  destruct (dget n (RuntimeGraph.nodes g)) as [op|] eqn:En; csimpl.
  2: { exists n. split; [left|]. unfold placement. by rewrite En. }
  destruct (place_op op) as [w|] eqn:Ep; csimpl.
  2: { exists n. split; [left|]. unfold placement. by rewrite En, Ep. }
  assert (Hp : placement n = Some w) by (unfold placement; by rewrite En, Ep).
  specialize (IH _ _ (placed_step _ _ _ _ Hp (place_in _ _ Hg Hc Ep) Ha)).
  destruct (foldR _ _ _) as [s|].
  + destruct IH as [IH1 IH2]. rewrite <-app_assoc in IH1. split; [done|].
    intros x [->|Hx]%elem_of_cons; [by eexists|by apply IH2].
  + destruct IH as (x & Hx & ?). exists x. split; [by right|done].
Qed.
End optimizer_facts.

Section split_facts.
Context (worker_names : list string) (worker_profiles : dict string (dict string val)).

Definition is_gpu_worker (w : string) : bool := truthy (vget "has_gpu" (dget_or [] w worker_profiles)).

(** Every profile says whether the worker has a GPU, as normalised ones do. *)
Definition profiles_normalized : Prop :=
∀ w profile, dget w worker_profiles = Some profile → "has_gpu" ∈ dkeys profile.

Lemma split_workers_spec : profiles_normalized →
split_workers worker_names worker_profiles =
Ok (filter (λ w, is_gpu_worker w = true) worker_names, filter (λ w, is_gpu_worker w = false) worker_names).
Proof.
intros Hn. unfold split_workers.
rewrite (mapR_ok_zip _ (λ w, (w, is_gpu_worker w))).
- csimpl. f_equal. f_equal.
  all: induction worker_names as [|w ws IH]; [done|]; csimpl; rewrite !filter_cons; simpl;
    case_decide; csimpl; by rewrite IH.
- intros w _. unfold known_gpu, is_gpu_worker, dget_or.
  destruct (dget w worker_profiles) as [profile|] eqn:E; [|done].
  destruct (proj2 (dget_is_Some "has_gpu" profile)) as [v Hv]; [by eapply Hn|].
  unfold dindex, vget, dget_or. by rewrite Hv.
Qed.

Lemma split_workers_sub gpu cpu : split_workers worker_names worker_profiles = Ok (gpu, cpu) →
gpu ⊆ worker_names ∧ cpu ⊆ worker_names.
Proof.
unfold split_workers. intros H. inv_ok.
assert (Hall : ∀ wb, wb ∈ a → wb.1 ∈ worker_names).
{ revert a Ha. induction worker_names as [|w ws IH]; intros a Ha wb Hwb; simpl in Ha; inv_ok.
  - by apply elem_of_nil in Hwb.
  - apply elem_of_cons in Hwb as [->|Hwb]; [left|]. right. by eapply IH. }
split; intros w ([x b] & -> & [_ Hin]%list_elem_of_filter)%list_elem_of_fmap; apply (Hall _ Hin).
Qed.

Lemma or_all_sub l : l ⊆ worker_names → or_all worker_names l ⊆ worker_names.
Proof. unfold or_all. by destruct l. Qed.

(** What a node may run on. *)
Definition gated (op : RuntimeOp.t) : Prop := RuntimeOp.task_type op ∈ CAPABILITY_GATED_TASK_TYPES.
Definition can_run (op : RuntimeOp.t) (w : string) : Prop :=
is_gpu_worker w = false ∧ RuntimeOp.task_type op ∈ advertised_task_types (dget_or [] w worker_profiles).
Definition wants_gpu (op : RuntimeOp.t) : bool := bool_decide (RuntimeOp.backend op ∈ GPU_BACKENDS).

Lemma elem_of_gated_candidates op w :
w ∈ gated_candidates worker_names worker_profiles (RuntimeOp.task_type op) ↔ w ∈ worker_names ∧ can_run op w.
Proof.
unfold gated_candidates, can_run, is_gpu_worker.
rewrite list_elem_of_filter, andb_true_iff, negb_true_iff, bool_decide_eq_true. tauto.
Qed.

(** The first worker of a class, or of the whole group when the class is
  empty. *)
Lemma first_of_class (b : bool) :
match first_worker (or_all worker_names (filter (λ w, is_gpu_worker w = b) worker_names)) with
| Ok w => ∀ w', w' ∈ worker_names → is_gpu_worker w' = b → is_gpu_worker w = b
| Err _ => worker_names = []
end.
Proof.
unfold or_all. destruct (filter _ _) as [|w ws] eqn:E.
- destruct worker_names as [|w ws]; simpl; [done|]. intros w' Hw' Hb.
  assert (Hin : w' ∈ filter (λ w, is_gpu_worker w = b) (w :: ws)) by by apply list_elem_of_filter.
  rewrite E in Hin. by apply elem_of_nil in Hin.
- simpl. intros _ _ _. assert (Hin : w ∈ w :: ws) by left. rewrite <-E in Hin.
  by apply list_elem_of_filter in Hin as [? _].
Qed.

Lemma place_spec op :
match place worker_names worker_profiles
  (or_all worker_names (filter (λ w, is_gpu_worker w = true) worker_names))
  (or_all worker_names (filter (λ w, is_gpu_worker w = false) worker_names)) op with
| Ok w => if decide (gated op) then can_run op w
          else ∀ w', w' ∈ worker_names → is_gpu_worker w' = wants_gpu op → is_gpu_worker w = wants_gpu op
| Err _ => worker_names = [] ∨ (gated op ∧ ∀ w, w ∈ worker_names → ¬ can_run op w)
end.
Proof.
unfold place. fold (wants_gpu op). fold (gated op).
destruct (decide (gated op)) as [Hg|Hg]; [rewrite bool_decide_true by done|rewrite bool_decide_false by done].
- destruct (gated_candidates _ _ _) as [|w ws] eqn:E.
  + right. split; [done|]. intros w Hw Hc.
    assert (Hin : w ∈ gated_candidates worker_names worker_profiles (RuntimeOp.task_type op))
      by by apply elem_of_gated_candidates.
    rewrite E in Hin. by apply elem_of_nil in Hin.
  + assert (Hin : w ∈ w :: ws) by left. rewrite <-E in Hin. by apply elem_of_gated_candidates in Hin as [_ ?].
- destruct (wants_gpu op) eqn:E.
  + pose proof (first_of_class true). destruct (first_worker _); [done|by left].
  + pose proof (first_of_class false). destruct (first_worker _); [done|by left].
Qed.
End split_facts.

(** Every schedule the [topological_sort] optimizer returns is accepted by
    the scheduler's validation; it runs every node on exactly one worker, and on
    each worker after the nodes of that worker it depends on. *)
Theorem optimizer_schedules_are_accepted worker_names worker_profiles g s :
  dict_wf (RuntimeGraph.nodes g) →
  (∀ w, w ∈ worker_names → blank w = false) →
  (∀ n, n ∈ dkeys (RuntimeGraph.nodes g) → blank n = false) →
  generate_schedule worker_names worker_profiles g = Ok s →
  validate_schedule s worker_names (dkeys (RuntimeGraph.nodes g)) = Ok tt ∧
  concat (dvals s) ≡ₚ dkeys (RuntimeGraph.nodes g) ∧
  (∀ w nodes u v, (w, nodes) ∈ s → u ∈ nodes → RuntimeGraph.depends_on g v u →
     RuntimeGraph.before nodes u v).
Proof.
  intros Hwf Hw Hn H. unfold generate_schedule in H. inv_ok. destruct a as [gpu cpu]. simpl in *.
  apply split_workers_sub in Ha as [Hg Hc].
  apply RuntimeGraph.topological_order_ok in Ha0 as (Hnd & Hall & Hord); [|done].
  pose proof (place_all worker_names worker_profiles g _ _ a0 [] _ (or_all_sub _ _ Hg) (or_all_sub _ _ Hc)
    (placed_init _ _ _ _ _)) as Hp.
  rewrite H in Hp. simpl in Hp. destruct Hp as [[P1 P2 P3 P4] P5].
  assert (Hperm : concat (dvals s) ≡ₚ dkeys (RuntimeGraph.nodes g)).
  { rewrite P3. apply NoDup_Permutation; [done|exact Hwf|exact Hall]. }
  assert (Hentry : ∀ w nodes, (w, nodes) ∈ s → nodes = filter (λ n, placement worker_names worker_profiles g
    (or_all worker_names gpu) (or_all worker_names cpu) n = Some w) a0).
  { intros w nodes Hin. rewrite <-P4. unfold dget_or. by rewrite (elem_dget _ _ _ P1 Hin). }
  split; [|split; [exact Hperm|]].
  - apply validate_schedule_ok. split; [done|by setoid_rewrite Hperm|].
    intros w nodes Hin. split; [|split].
    + apply Hw, P2. apply list_elem_of_fmap. by exists (w, nodes).
    + rewrite (Hentry _ _ Hin). by apply NoDup_filter.
    + rewrite (Hentry _ _ Hin). intros n [_ Hna]%list_elem_of_filter. by apply Hn, Hall.
  - intros w nodes u v Hin Hu Hdep. rewrite (Hentry _ _ Hin) in *.
    apply list_elem_of_filter in Hu as [Hpu Hu]. apply RuntimeGraph.before_filter; [done|].
    by apply Hord; [apply Hall|].
Qed.

(** The optimizer respects what workers can run: a node of a
    capability-gated task type goes to a worker without GPU that advertises the
    type, any other node on a GPU backend to a GPU worker when the group has
    one, and every other node to a worker without GPU when there is one.  It
    fails exactly on cyclic graphs, on a gated node without capable worker, and
    on a node when the group is empty. *)
Theorem optimizer_places_by_capability worker_names worker_profiles g :
  dict_wf (RuntimeGraph.nodes g) → profiles_normalized worker_profiles →
  ((∃ s, generate_schedule worker_names worker_profiles g = Ok s) ↔
     (∃ rank : string → nat, ∀ u v, RuntimeGraph.depends_on g v u → rank u < rank v) ∧
     (∀ n op, dget n (RuntimeGraph.nodes g) = Some op →
        worker_names ≠ [] ∧ (gated op → ∃ w, w ∈ worker_names ∧ can_run worker_profiles op w))) ∧
  (∀ s w nodes n op, generate_schedule worker_names worker_profiles g = Ok s →
     (w, nodes) ∈ s → n ∈ nodes → dget n (RuntimeGraph.nodes g) = Some op →
     if decide (gated op) then can_run worker_profiles op w
     else ∀ w', w' ∈ worker_names → is_gpu_worker worker_profiles w' = wants_gpu op →
            is_gpu_worker worker_profiles w = wants_gpu op).
Proof.
  intros Hwf Hn. unfold generate_schedule. rewrite split_workers_spec by done. csimpl.
  rewrite <-RuntimeGraph.topological_order_total by done.
  set (gpu := or_all worker_names (filter (λ w, is_gpu_worker worker_profiles w = true) worker_names)).
  set (cpu := or_all worker_names (filter (λ w, is_gpu_worker worker_profiles w = false) worker_names)).
  assert (Hgs : gpu ⊆ worker_names).
  { apply or_all_sub. intros x. by intros [_ ?]%list_elem_of_filter. }
  assert (Hcs : cpu ⊆ worker_names).
  { apply or_all_sub. intros x. by intros [_ ?]%list_elem_of_filter. }
  destruct (RuntimeGraph.topological_order g) as [order|] eqn:Eo; csimpl; [|naive_solver].
  apply RuntimeGraph.topological_order_ok in Eo as (Hnd & Hall & _); [|done].
  pose proof (place_all worker_names worker_profiles g _ _ order [] _ Hgs Hcs (placed_init _ _ _ _ _)) as Hp.
  destruct (foldR _ _ _) as [s|e]; csimpl in Hp.
  - destruct Hp as [[P1 P2 P3 P4] P5]. split.
    + split; [intros _|by eexists]. split; [by eexists|]. intros n op Hop.
      destruct (P5 n) as [w Hw]; [by apply Hall, dget_is_Some|].
      unfold placement in Hw. rewrite Hop in Hw.
      destruct (place _ _ _ _ op) as [w'|] eqn:Ep; [|done]. simplify_eq.
      pose proof (place_in worker_names worker_profiles gpu cpu op w Hgs Hcs Ep) as Hin.
      split; [intros ->; by apply elem_of_nil in Hin|]. intros Hg.
      pose proof (place_spec worker_names worker_profiles op) as Hs. fold gpu cpu in Hs.
      rewrite Ep, decide_True in Hs by done. by exists w.
    + intros s' w nodes n op [= <-] Hin Hnn Hop.
      assert (Hd : dget_or [] w s = nodes) by (unfold dget_or; by rewrite (elem_dget _ _ _ P1 Hin)).
      rewrite P4 in Hd. subst nodes. apply list_elem_of_filter in Hnn as [Hw _].
      unfold placement in Hw. rewrite Hop in Hw.
      destruct (place _ _ _ _ op) as [w'|] eqn:Ep; [|done]. simplify_eq.
      pose proof (place_spec worker_names worker_profiles op) as Hs. fold gpu cpu in Hs.
      by rewrite Ep in Hs.
  - split; [|naive_solver]. split; [naive_solver|]. intros [_ Hok]. exfalso.
    destruct Hp as (n & Hin & Hnone). apply Hall, dget_is_Some in Hin as [op Hop].
    destruct (Hok n op Hop) as [Hne Hcan]. unfold placement in Hnone. rewrite Hop in Hnone.
    pose proof (place_spec worker_names worker_profiles op) as Hs. fold gpu cpu in Hs.
    destruct (place _ _ _ _ op); [done|]. destruct Hs as [?|[Hg Hno]]; [done|].
    destruct (Hcan Hg) as (w & Hw & ?). by eapply Hno.
Qed.

Module ScheduleSample.
Definition op (id task_type backend : string) (deps : list string) : RuntimeOp.t :=
RuntimeOp.mk id task_type backend "m" [] [] [] [] deps None None.
Definition graph : RuntimeGraph.t :=
RuntimeGraph.mk [("ask", op "ask" "inference" "vllm" []); ("clean", op "clean" "python" "python" ["ask"]);
                 ("fetch", op "fetch" "api" "api" []); ("sum", op "sum" "inference" "vllm" ["ask"; "clean"])]
  ["ask"; "clean"; "fetch"; "sum"] [("sum", "answer")] [] [].
Definition workers : list string := ["gpu-1"; "cpu-1"; "cpu-2"].
Definition profile (gpu : bool) (types : list string) : dict string val :=
[("has_gpu", VBool gpu); ("supported_task_types", VList (VStr <$> types))].
Definition profiles : dict string (dict string val) :=
[("gpu-1", profile true ["inference"; "python"]); ("cpu-1", profile false ["api"]);
 ("cpu-2", profile false ["python"])].
Definition schedule : worker_assignment :=
[("gpu-1", ["ask"; "sum"]); ("cpu-1", ["fetch"]); ("cpu-2", ["clean"])].
End ScheduleSample.

Lemma optimizer_schedules_are_accepted_witness :
  validate_schedule ScheduleSample.schedule ScheduleSample.workers ["ask"; "clean"; "fetch"; "sum"] = Ok tt.
Proof.
  apply (optimizer_schedules_are_accepted ScheduleSample.workers ScheduleSample.profiles
    ScheduleSample.graph ScheduleSample.schedule).
  - apply (bool_decide_unpack _). vm_compute. exact I.
  - intros w. apply (proj1 (Forall_forall (λ w, blank w = false) _)).
    repeat (apply Forall_cons; split; [reflexivity|]). apply Forall_nil. exact I.
  - intros n. apply (proj1 (Forall_forall (λ n, blank n = false) _)).
    repeat (apply Forall_cons; split; [reflexivity|]). apply Forall_nil. exact I.
  - vm_compute. reflexivity.
Defined.

Lemma optimizer_places_by_capability_witness :
  can_run ScheduleSample.profiles (ScheduleSample.op "clean" "python" "python" ["ask"]) "cpu-2".
Proof.
  assert (Hwf : dict_wf (RuntimeGraph.nodes ScheduleSample.graph))
    by (apply (bool_decide_unpack _); vm_compute; exact I).
  assert (Hn : profiles_normalized ScheduleSample.profiles).
  { intros w p Hp. apply dget_elem in Hp. unfold ScheduleSample.profiles in Hp.
    repeat (apply elem_of_cons in Hp as [[= -> ->]|Hp]; [left|]). by apply elem_of_nil in Hp. }
  pose proof (proj2 (optimizer_places_by_capability ScheduleSample.workers ScheduleSample.profiles
    ScheduleSample.graph Hwf Hn) ScheduleSample.schedule "cpu-2" ["clean"] "clean"
    (ScheduleSample.op "clean" "python" "python" ["ask"])) as H.
  rewrite decide_True in H by (apply (bool_decide_unpack _); vm_compute; exact I).
  apply H; [vm_compute; reflexivity|right; right; left|left|reflexivity].
Defined.
