(* ===== verification/Kahn.v ===== *)
(** * Kahn's algorithm, one node at a time

    The optimizer runs Kahn's algorithm in three places: over a heap
    (topo_utils.py) and over FIFO queues (the batch enumeration and the depths
    of halo_dp.py).  [kahn] is the loop they share: [pop] takes the next ready
    node, and every child is visited ([visit] updates the loop's own state)
    and relaxed.  The loop never needs more fuel than there are ready nodes
    and nodes of positive in-degree. *)

From S2P Require Import Prelude PyDict TopoSort.

Section kahn.
Context {T : Type} `{EqDecision T} {S : Type}.
Context (pop : list T → option (T * list T)) (children : T → list T) (visit : S → T → T → S).

(** The ready nodes that are left are returned with the order. *)
Fixpoint kahn (fuel : nat) (s : S) (deg : dict T Z) (ready order : list T) : S * list T * list T :=
match fuel with
| O => (s, order, ready)
| Datatypes.S fuel' =>
    match pop ready with
    | None => (s, order, ready)
    | Some (n, rest) =>
        let '(s, (deg, ready)) :=
          foldl (λ st child, (visit st.1 n child, relax st.2 child)) (s, (deg, rest)) (children n) in
        kahn fuel' s deg ready (order ++ [n])
    end
end.

(** ** Fuel *)

Definition positive (kv : T * Z) : Prop := (0 < kv.2)%Z.
#[export] Instance positive_dec kv : Decision (positive kv) := decide (0 < kv.2)%Z.

Definition potential (st : dict T Z * list T) : nat := length st.2 + length (filter positive st.1).

Lemma positive_dset n z (deg : dict T Z) :
(z <= 0)%Z → dget n deg = Some 1%Z →
Datatypes.S (length (filter positive (dset n z deg))) = length (filter positive deg).
Proof.
intros Hz. induction deg as [|[k v] deg IH]; simpl; [done|]. case_decide; intros E; simplify_eq.
- rewrite filter_cons_False, filter_cons_True by (unfold positive; simpl; lia). done.
- rewrite !filter_cons. case_decide; simpl; rewrite IH; done.
Qed.

Lemma positive_decr n (deg : dict T Z) :
length (filter positive (dset n (dget_or 0 n deg - 1)%Z deg)) ≤ length (filter positive deg).
Proof.
unfold dget_or. induction deg as [|[k v] deg IH]; simpl; [done|]. case_decide; subst.
- rewrite !filter_cons. unfold positive in *. simpl. repeat case_decide; simpl in *; lia.
- rewrite !filter_cons. destruct (dget n deg) eqn:E; case_decide; simpl; lia.
Qed.

Lemma relax_potential st n : potential (relax st n) ≤ potential st.
Proof.
destruct st as [deg ready]. unfold potential, relax. simpl. case_decide as D.
- rewrite length_app. simpl. unfold dget_or in *. destruct (dget n deg) as [z|] eqn:E; [|lia].
  assert (z = 1%Z) as -> by lia. pose proof (positive_dset n (1 - 1) deg ltac:(lia) E). lia.
- pose proof (positive_decr n deg). lia.
Qed.

Lemma visit_potential s n st l :
potential (foldl (λ st child, (visit st.1 n child, relax st.2 child)) (s, st) l).2 ≤ potential st.
Proof.
revert s st. induction l as [|c l IH]; intros s st; simpl; [done|].
etrans; [apply IH|]. apply relax_potential.
Qed.

Hypothesis pop_perm : ∀ l n rest, pop l = Some (n, rest) → l ≡ₚ n :: rest.
Hypothesis pop_none : ∀ l, pop l = None → l = [].

(** Enough fuel: the loop ends with nothing ready. *)
Lemma kahn_fuel fuel s deg ready order :
potential (deg, ready) ≤ fuel → (kahn fuel s deg ready order).2 = [].
Proof.
revert s deg ready order. induction fuel as [|fuel IH]; intros s deg ready order Hf; simpl.
- unfold potential in Hf. simpl in Hf. destruct ready; [done|simpl in Hf; lia].
- destruct (pop ready) as [[n rest]|] eqn:E; [|by apply pop_none].
  pose proof (visit_potential s n (deg, rest) (children n)) as H.
  destruct (foldl _ _ _) as [s' [deg' ready']]. simpl in H. apply IH.
  apply pop_perm in E. unfold potential in *. simpl in *. rewrite E in Hf. simpl in Hf. lia.
Qed.

(** ** The order *)

Lemma visit_relax s n st l :
(foldl (λ st child, (visit st.1 n child, relax st.2 child)) (s, st) l).2 = foldl relax st l.
Proof. revert s st. induction l as [|c l IH]; intros s st; simpl; [done|]. apply IH. Qed.

(** One node off the ready list. *)
Lemma topo_inv_pop (g : dict T (list T)) (deg : dict T Z) (n : T) (rest result : list T) :
topo_inv g deg (n :: rest) result →
let st := foldl relax (deg, rest) (succs g n) in topo_inv g st.1 st.2 (result ++ [n]).
Proof.
intros Hinv. pose proof (zero_preds g deg (n :: rest) result) as Hpred. pose proof Hinv as [Ha Hb Hc Hd].
cbv zeta. destruct (foldl_relax deg rest (succs g n)) as [H1 H2].
assert (Hle : ∀ x, (Z.of_nat (occ x (succs g n)) <= dget_or 0 x deg)%Z).
{ intros x. assert (Hnd : NoDup (result ++ [n])).
  { apply NoDup_app in Hb as (Hb1 & Hb2 & Hb3). apply NoDup_app. split; [done|]. split; [|apply NoDup_singleton].
    intros y Hy ->%list_elem_of_singleton. apply (Hb2 _ Hy). by left. }
  pose proof (occ_targets_le g x (result ++ [n]) Hnd) as H.
  rewrite targets_app, targets_cons, !occ_app in H. rewrite Ha. lia. }
destruct (H2 Hle) as [H3 H4]. clear H2. set (st := foldl relax (deg, rest) (succs g n)) in *.
assert (Hz : ∀ x, x ∈ result ++ n :: rest → dget_or 0%Z x deg = 0%Z) by (intros x Hx; by apply Hc in Hx as [_ ?]).
split.
- intros x. rewrite H1, Ha, targets_app, targets_cons, !occ_app. simpl. lia.
- apply NoDup_app in Hb as (Hb1 & Hb2 & [Hn Hr]%NoDup_cons). rewrite <-app_assoc. simpl.
  apply NoDup_app. split; [done|]. split.
  + intros x Hx [->|[Hx'|Hx']%H3]%elem_of_cons.
    * apply (Hb2 n Hx). by left.
    * apply (Hb2 x Hx). by right.
    * assert (dget_or 0%Z x deg = 0%Z) by (apply Hz, elem_of_app; by left). lia.
  + apply NoDup_cons. split.
    * intros [Hx|Hx]%H3; [done|]. assert (dget_or 0%Z n deg = 0%Z) by (apply Hz, elem_of_app; right; left). lia.
    * apply H4; [done|]. intros x Hx. apply Hz, elem_of_app. right. by right.
- intros x. rewrite <-app_assoc, elem_of_app. simpl. rewrite elem_of_cons, H3.
  assert (Hx : x ∈ result ∨ x = n ∨ x ∈ rest ↔ is_node g x ∧ dget_or 0%Z x deg = 0%Z).
  { rewrite <-Hc, elem_of_app, elem_of_cons. tauto. }
  specialize (Hle x). specialize (H1 x). specialize (Ha x). split.
  + intros [Hr|[Hr|[Hr|[Hp Hz']]]].
    1-3: assert (is_node g x ∧ dget_or 0%Z x deg = 0%Z) as [Hn0 Hd0] by (apply Hx; tauto); split; [done|lia].
    split; [|done]. destruct (decide (x ∈ dkeys g)) as [|Hk]; [by left|right]. apply occ_elem. lia.
  + intros [Hn0 Hz']. destruct (decide (dget_or 0%Z x deg = 0%Z)) as [E|E]; [|right; right; right; split; lia].
    assert (x ∈ result ∨ x = n ∨ x ∈ rest) by (by apply Hx). tauto.
- apply respects_app; [done|]. intros v u ->%list_elem_of_singleton Hu.
  apply (Hpred n u); [done| |done]. apply Hz, elem_of_app. right. by left.
Qed.

Context (g : dict T (list T)) (children_eq : ∀ n, children n = succs g n).

Lemma kahn_inv fuel s deg ready order :
topo_inv g deg ready order →
∃ deg', topo_inv g deg' (kahn fuel s deg ready order).2 (kahn fuel s deg ready order).1.2.
Proof.
revert s deg ready order. induction fuel as [|fuel IH]; intros s deg ready order H; simpl; [by exists deg|].
destruct (pop ready) as [[n rest]|] eqn:E; [|by exists deg].
pose proof (visit_relax s n (deg, rest) (children n)) as Hv.
destruct (foldl _ _ _) as [s' [deg' ready']]. simpl in Hv. apply IH.
apply pop_perm in E. apply (topo_inv_perm _ _ _ _ _ E), topo_inv_pop in H. rewrite children_eq in Hv.
cbv zeta in H. by rewrite <-Hv in H.
Qed.
End kahn.

(** [queue.pop(0)] and [heapq.heappop], for the order [lt]. *)
Definition pop_first {T} (l : list T) : option (T * list T) :=
  match l with [] => None | x :: l' => Some (x, l') end.

Lemma pop_first_perm {T} (l : list T) n rest : pop_first l = Some (n, rest) → l ≡ₚ n :: rest.
Proof. destruct l; [done|]. by intros [= <- <-]. Qed.
Lemma pop_first_none {T} (l : list T) : pop_first l = None → l = [].
Proof. by destruct l. Qed.

(** A heap is the multiset of its elements. *)
Definition heappop {T} (lt : T → T → bool) (l : list T) : option (T * list T) := pop_first (sorted_by lt id l).

Lemma heappop_perm {T} (lt : T → T → bool) l n rest : heappop lt l = Some (n, rest) → l ≡ₚ n :: rest.
Proof. intros H%pop_first_perm. by rewrite sorted_by_perm in H. Qed.
Lemma heappop_none {T} (lt : T → T → bool) l : heappop lt l = None → l = [].
Proof. intros H%pop_first_none. apply Permutation_nil. by rewrite <-H, sorted_by_perm. Qed.

(** ** Without any law on the children *)

Section kahn_free.
Context {T : Type} `{EqDecision T} {S : Type}.
Context (pop : list T → option (T * list T)) (children : T → list T) (visit : S → T → T → S).
Hypothesis pop_perm : ∀ l n rest, pop l = Some (n, rest) → l ≡ₚ n :: rest.

Lemma relax_fold_elem (P : T → Prop) (st : dict T Z * list T) l :
(∀ x, x ∈ st.2 → P x) → (∀ x, x ∈ l → P x) → ∀ x, x ∈ (foldl relax st l).2 → P x.
Proof.
revert st. induction l as [|c l IH]; intros st Hst Hl x; simpl; [apply Hst|]. apply IH.
- intros y. unfold relax. simpl. case_decide; [|apply Hst].
  intros [Hy| ->%list_elem_of_singleton]%elem_of_app; [by apply Hst|apply Hl; left].
- intros y Hy. apply Hl. by right.
Qed.

(** What is ready or emitted has no positive in-degree, so it is not pushed
  again. *)
Lemma relax_fold_nodup (order : list T) (st : dict T Z * list T) l :
NoDup (order ++ st.2) → (∀ x, x ∈ order ++ st.2 → (dget_or 0 x st.1 <= 0)%Z) →
let st' := foldl relax st l in
NoDup (order ++ st'.2) ∧ (∀ x, x ∈ order ++ st'.2 → (dget_or 0 x st'.1 <= 0)%Z).
Proof.
revert st. induction l as [|c l IH]; intros st Hnd Hz; [done|]. simpl. apply IH; clear IH.
- unfold relax. simpl. case_decide as D; [|done]. rewrite app_assoc. apply NoDup_app. split; [done|].
  split; [|apply NoDup_singleton]. intros x Hx ->%list_elem_of_singleton. specialize (Hz c Hx). lia.
- intros x Hx. rewrite relax_spec. unfold relax in Hx. simpl in Hx. case_decide as D; [|].
  + rewrite app_assoc, elem_of_app in Hx. destruct Hx as [Hx| ->%list_elem_of_singleton].
    * specialize (Hz x Hx). case_decide; lia.
    * rewrite decide_True by done. lia.
  + specialize (Hz x Hx). case_decide; lia.
Qed.

Lemma kahn_elem (P : T → Prop) fuel s deg ready order :
(∀ x, x ∈ ready → P x) → (∀ x, x ∈ order → P x) → (∀ n x, x ∈ children n → P x) →
∀ x, x ∈ (kahn pop children visit fuel s deg ready order).1.2 → P x.
Proof.
intros Hr Ho Hc. revert s deg ready order Hr Ho. induction fuel as [|fuel IH]; intros s deg ready order Hr Ho x; simpl; [apply Ho|].
destruct (pop ready) as [[n rest]|] eqn:E; [|apply Ho]. apply pop_perm in E.
pose proof (visit_relax visit s n (deg, rest) (children n)) as Hv.
destruct (foldl _ _ _) as [s' [deg' ready']]. simpl in Hv. apply IH.
- assert (H := relax_fold_elem P (deg, rest) (children n)). rewrite <-Hv in H. simpl in H. apply H; [|apply Hc].
  intros y Hy. apply Hr. rewrite E. by right.
- intros y [Hy| ->%list_elem_of_singleton]%elem_of_app; [by apply Ho|]. apply Hr. rewrite E. left.
Qed.

Lemma kahn_nodup fuel s deg ready order :
NoDup (order ++ ready) → (∀ x, x ∈ order ++ ready → (dget_or 0 x deg <= 0)%Z) →
NoDup (kahn pop children visit fuel s deg ready order).1.2.
Proof.
revert s deg ready order. induction fuel as [|fuel IH]; intros s deg ready order Hnd Hz; simpl.
{ by apply NoDup_app in Hnd as (? & _ & _). }
destruct (pop ready) as [[n rest]|] eqn:E; [|by apply NoDup_app in Hnd as (? & _ & _)]. apply pop_perm in E.
pose proof (visit_relax visit s n (deg, rest) (children n)) as Hv.
destruct (foldl _ _ _) as [s' [deg' ready']]. simpl in Hv.
assert (Hp : order ++ ready ≡ₚ (order ++ [n]) ++ rest) by (by rewrite E, <-app_assoc).
destruct (relax_fold_nodup (order ++ [n]) (deg, rest) (children n)) as [H1 H2].
- simpl. by rewrite <-Hp.
- intros x Hx. simpl in *. rewrite <-Hp in Hx. by apply Hz.
- rewrite <-Hv in H1, H2. simpl in *. by apply IH.
Qed.
End kahn_free.
