(* ===== verification/ParentGraph.v ===== *)
(** * Graphs given by their parents

    The optimizer and the FlowMesh rewrite start Kahn's algorithm from the
    parents (dependencies) each node declares: the in-degree of a node is the
    number of its parents, and each parent lists the node among its children,
    once per mention.  [parents_run] runs [kahn] on such a graph, whatever
    order the ready nodes are popped in. *)

From S2P Require Import Prelude PyDict TopoSort Kahn.

(** ** Counting lemmas *)

Section occurrences.
Context {T : Type} `{EqDecision T}.

Lemma occ_bind {A} (f : A → list T) (l : list A) (x : T) : occ x (l ≫= f) = sum_list_with (λ a, occ x (f a)) l.
Proof. induction l as [|a l IH]; csimpl; [done|]. by rewrite occ_app, IH. Qed.

Lemma occ_replicate (x y : T) k : occ x (replicate k y) = if decide (x = y) then k else 0.
Proof. induction k as [|k IH]; simpl; [by case_decide|]. rewrite IH. by case_decide. Qed.

Lemma occ_absent (x : T) l : x ∉ l → occ x l = 0.
Proof. intros Hx. destruct (occ x l) eqn:E; [done|]. destruct Hx. apply occ_elem. lia. Qed.

Lemma sum_zero (f : T → nat) (l : list T) : (∀ m, m ∈ l → f m = 0) → sum_list_with f l = 0.
Proof.
induction l as [|m l IH]; intros H; simpl; [done|]. rewrite (H m) by left. apply IH. intros k Hk. apply H. by right.
Qed.

Lemma sum_one (f : T → nat) (l : list T) n :
NoDup l → n ∈ l → (∀ m, m ∈ l → m ≠ n → f m = 0) → sum_list_with f l = f n.
Proof.
intros Hnd Hn H. induction Hnd as [|m l Hm Hnd IH]; [by apply elem_of_nil in Hn|]. simpl.
destruct (decide (m = n)) as [->|Hne].
- rewrite (sum_zero f l); [lia|]. intros k Hk. apply H; [by right|]. intros ->. done.
- rewrite (H m) by (left || done). rewrite IH; [done| |].
  + by apply elem_of_cons in Hn as [->|Hn].
  + intros k Hk. apply H. by right.
Qed.

Lemma sum_occ (l nodes : list T) :
NoDup nodes → (∀ x, x ∈ l → x ∈ nodes) → sum_list_with (λ p, occ p l) nodes = length l.
Proof.
intros Hnd. induction l as [|x l IH]; intros Hin.
- by apply sum_zero.
- simpl length. rewrite <-IH by (intros y Hy; apply Hin; by right).
  assert (E : sum_list_with (λ p, occ p (x :: l)) nodes =
    sum_list_with (λ p, if decide (p = x) then 1 else 0) nodes + sum_list_with (λ p, occ p l) nodes).
  { clear. induction nodes as [|n ns IHn]; [done|]. cbn [sum_list_with]. rewrite IHn. simpl. lia. }
  rewrite E, (sum_one (λ p, if decide (p = x) then 1 else 0) nodes x); [by rewrite decide_True|done|apply Hin; left|].
  intros m _ Hm. by rewrite decide_False.
Qed.
End occurrences.

(** ** The graph *)

Section parents.
Context {T : Type} `{EqDecision T} (nodes : list T) (parents : T → list T).

Definition parent_degrees : dict T Z := (λ n, (n, Z.of_nat (length (parents n)))) <$> nodes.

Definition add_child (n : T) (children : dict T (list T)) (parent : T) : dict T (list T) :=
dset parent (dget_or [] parent children ++ [n]) children.

Definition children_of : dict T (list T) :=
foldl (λ children n, foldl (add_child n) children (parents n)) ((λ n, (n, [])) <$> nodes) nodes.

Lemma add_children_get n ps d p :
dget_or [] p (foldl (add_child n) d ps) = dget_or [] p d ++ replicate (occ p ps) n.
Proof.
revert d. induction ps as [|q ps IH]; intros d; simpl; [by rewrite app_nil_r|].
rewrite IH. unfold add_child. rewrite dget_or_dset. case_decide; subst; simpl; [|done].
by rewrite <-app_assoc.
Qed.

Lemma children_get p : succs children_of p = nodes ≫= λ n, replicate (occ p (parents n)) n.
Proof.
unfold succs, children_of.
assert (H : ∀ l d, dget_or [] p (foldl (λ children n, foldl (add_child n) children (parents n)) d l) =
  dget_or [] p d ++ (l ≫= λ n, replicate (occ p (parents n)) n)).
{ induction l as [|n l IH]; intros d; csimpl; [by rewrite app_nil_r|].
  rewrite IH, add_children_get. by rewrite app_assoc. }
rewrite H. replace (dget_or [] p _) with (@nil T); [done|]. unfold dget_or.
assert (Hd : ∀ l, match dget p ((λ n : T, (n, @nil T)) <$> l) with Some v => v | None => [] end = []).
{ induction l as [|n l IH]; [done|]. csimpl. by case_decide. }
by rewrite Hd.
Qed.

Hypothesis nodes_nodup : NoDup nodes.
Hypothesis parents_known : ∀ n p, p ∈ parents n → p ∈ nodes.

Lemma children_occ p n : occ n (succs children_of p) = if decide (n ∈ nodes) then occ p (parents n) else 0.
Proof.
rewrite children_get, occ_bind. case_decide as Hn.
- rewrite (sum_one _ nodes n nodes_nodup Hn); [by rewrite occ_replicate, decide_True|].
  intros m _ Hm. by rewrite occ_replicate, decide_False.
- apply sum_zero. intros m Hm. rewrite occ_replicate, decide_False; [done|]. by intros ->.
Qed.

Lemma elem_children p n : n ∈ succs children_of p ↔ n ∈ nodes ∧ p ∈ parents n.
Proof. rewrite occ_elem, children_occ, (occ_elem p). case_decide; [tauto|]. split; [lia|tauto]. Qed.

Lemma children_keys : dkeys children_of = nodes.
Proof.
unfold children_of.
assert (H : ∀ l d, (∀ n p, n ∈ l → p ∈ parents n → p ∈ dkeys d) →
  dkeys (foldl (λ children n, foldl (add_child n) children (parents n)) d l) = dkeys d).
{ induction l as [|n l IH]; intros d Hd; [done|]. simpl.
  assert (Hin : dkeys (foldl (add_child n) d (parents n)) = dkeys d).
  { assert (Hp : ∀ p, p ∈ parents n → p ∈ dkeys d) by (intros p; apply Hd; left).
    clear IH Hd. revert d Hp. induction (parents n) as [|p ps IHp]; intros d Hp; [done|]. simpl.
    assert (E : dkeys (add_child n d p) = dkeys d).
    { unfold add_child. rewrite dkeys_dset, decide_True; [done|]. apply Hp. left. }
    rewrite IHp; [done|]. intros q Hq. rewrite E. apply Hp. by right. }
  rewrite IH; [done|]. intros m p Hm. rewrite Hin. apply Hd. by right. }
assert (E : dkeys ((λ n : T, (n, @nil T)) <$> nodes) = nodes).
{ unfold dkeys. rewrite <-list_fmap_compose. by rewrite list_fmap_id. }
rewrite H; [done|]. intros n p _ Hp. rewrite E. by eapply parents_known.
Qed.

Lemma parent_degrees_get n :
dget_or 0%Z n parent_degrees = if decide (n ∈ nodes) then Z.of_nat (length (parents n)) else 0%Z.
Proof.
clear nodes_nodup parents_known.
unfold parent_degrees, dget_or. induction nodes as [|m l IH]; csimpl; [done|].
destruct (decide (n = m)) as [->|Hne]; [by rewrite decide_True by left|]. rewrite IH.
repeat case_decide; try done; set_solver.
Qed.

Lemma node_known n : is_node children_of n ↔ n ∈ nodes.
Proof.
unfold is_node. rewrite children_keys. split; [|by left]. intros [Hn|Hn]; [done|].
by apply elem_targets in Hn as (p & _ & [Hn _]%elem_children).
Qed.

Lemma parents_init : topo_inv children_of parent_degrees ((filter (λ kv, kv.2 = 0%Z) parent_degrees).*1) [].
Proof.
assert (Hready : ∀ n, n ∈ (filter (λ kv, kv.2 = 0%Z) parent_degrees).*1 ↔ n ∈ nodes ∧ dget_or 0%Z n parent_degrees = 0%Z).
{ intros n. rewrite parent_degrees_get. rewrite list_elem_of_fmap. split.
  - intros ([m z] & -> & [Hz Hin]%list_elem_of_filter). apply list_elem_of_fmap in Hin as (m' & E & Hm).
    injection E as -> ->. simpl in *. by rewrite decide_True.
  - intros [Hn Hz]. rewrite decide_True in Hz by done. exists (n, 0%Z). split; [done|].
    apply list_elem_of_filter. split; [done|]. apply list_elem_of_fmap. exists n. by rewrite Hz. }
split.
- intros n. rewrite parent_degrees_get, children_keys. simpl. unfold targets. rewrite occ_bind.
  case_decide as Hn.
  + rewrite <-(sum_occ (parents n) nodes nodes_nodup) by (by apply parents_known).
    rewrite Z.sub_0_r. f_equal. assert (E : ∀ l, sum_list_with (λ p, occ p (parents n)) l =
      sum_list_with (λ p, occ n (succs children_of p)) l); [|apply E].
    induction l as [|p l IH]; [done|]. simpl. by rewrite IH, children_occ, decide_True.
  + rewrite sum_zero; [done|]. intros p _. by rewrite children_occ, decide_False.
- simpl. apply (sublist_NoDup _ (parent_degrees.*1)).
  + unfold parent_degrees. rewrite <-list_fmap_compose. by rewrite list_fmap_id.
  + apply fmap_sublist, sublist_filter.
- intros n. simpl. by rewrite Hready, node_known.
- intros l1 v l2 H. by destruct l1.
Qed.

(** ** The run *)

Context (pop : list T → option (T * list T)).

Definition parents_run : list T :=
let ready := (filter (λ kv, kv.2 = 0%Z) parent_degrees).*1 in
(kahn pop (succs children_of) (λ _ _ _, ()) (length nodes) () parent_degrees ready []).1.2.

Hypothesis pop_perm : ∀ l n rest, pop l = Some (n, rest) → l ≡ₚ n :: rest.
Hypothesis pop_none : ∀ l, pop l = None → l = [].

Lemma parents_run_inv : ∃ deg, topo_inv children_of deg [] parents_run.
Proof.
unfold parents_run.
pose proof (kahn_fuel pop (succs children_of) (λ _ _ _, ()) pop_perm pop_none (length nodes) () parent_degrees
  ((filter (λ kv, kv.2 = 0%Z) parent_degrees).*1) []) as Hf.
destruct (kahn_inv pop (succs children_of) (λ _ _ _, ()) pop_perm children_of (λ _, eq_refl) (length nodes) ()
  parent_degrees _ [] parents_init) as [deg Hinv].
destruct (kahn _ _ _ _ _ _ _ _) as [[u order] ready]. simpl in *. rewrite Hf in Hinv; [by exists deg|].
unfold potential. simpl. rewrite length_fmap.
assert (Hnn : ∀ kv, kv ∈ parent_degrees → (0 <= kv.2)%Z).
{ intros kv (m & -> & _)%list_elem_of_fmap. simpl. lia. }
assert (Hlen : length parent_degrees = length nodes) by (unfold parent_degrees; by rewrite length_fmap).
rewrite <-Hlen. clear -Hnn. induction parent_degrees as [|kv l IH]; [done|].
rewrite !filter_cons. specialize (Hnn kv) as Hk. simpl.
assert (0 <= kv.2)%Z by (apply Hk; left).
assert (length (filter (λ kv, kv.2 = 0%Z) l) + length (filter positive l) <= length l)
  by (apply IH; intros kv' Hkv'; apply Hnn; by right).
unfold positive at 1. repeat case_decide; simpl; lia.
Qed.

Lemma parents_run_nodup : NoDup parents_run.
Proof. destruct parents_run_inv as [deg [_ H _ _]]. by rewrite app_nil_r in H. Qed.

(** The run is complete exactly when the parents have no cycle. *)
Lemma parents_run_complete :
length parents_run = length nodes ↔ ∃ rank : T → nat, ∀ n p, n ∈ nodes → p ∈ parents n → rank p < rank n.
Proof.
destruct parents_run_inv as [deg Hinv]. pose proof parents_run_nodup as Hnd.
assert (Hsub : ∀ n, n ∈ parents_run → n ∈ nodes).
{ intros n Hn. apply node_known. apply (ti_done _ _ _ _ Hinv). by rewrite app_nil_r. }
split.
- intros Hlen. assert (Hp : parents_run ≡ₚ nodes)
    by (apply submseteq_length_Permutation; [by apply NoDup_submseteq|lia]).
  destruct (respects_acyclic children_of parents_run Hnd) as [rank Hr].
  + intros u v [Hv _]%elem_children. by rewrite Hp.
  + apply Hinv.
  + exists rank. intros n q Hn Hq. by apply Hr, elem_children.
- intros [rank Hr]. apply Permutation_length, NoDup_Permutation; [done..|]. intros n. split; [apply Hsub|].
  intros Hn. eapply topo_inv_complete; [|by exists rank; intros u v [? ?]%elem_children; apply Hr|exact Hinv|by apply node_known].
  unfold dict_wf. by rewrite children_keys.
Qed.

(** A complete run lists every node once, after its parents. *)
Lemma parents_run_order :
length parents_run = length nodes →
parents_run ≡ₚ nodes ∧ ∀ l1 n l2, parents_run = l1 ++ n :: l2 → ∀ p, p ∈ parents n → p ∈ l1.
Proof.
intros Hlen. destruct parents_run_inv as [deg Hinv].
assert (Hsub : ∀ n, n ∈ parents_run → n ∈ nodes).
{ intros n Hn. apply node_known. apply (ti_done _ _ _ _ Hinv). by rewrite app_nil_r. }
split; [apply submseteq_length_Permutation; [apply NoDup_submseteq; [apply parents_run_nodup|done]|lia]|].
intros l1 n l2 E p Hp. eapply (ti_order _ _ _ _ Hinv); [done|]. apply elem_children. split; [|done].
apply Hsub. rewrite E. apply elem_of_app. right. left.
Qed.
End parents.
