(* ===== verification/HaloDp.v ===== *)
(** * The DP scheduler (runtime/optimizer/schedule/halo_dp.py, models.py, topo_utils.py)

    [DPSolver] cuts a graph into epochs.  An epoch runs a set of GPU nodes, at
    most one per GPU worker, together with every CPU node that this makes
    runnable; the solver enumerates the GPU sets, their placements and the
    query plans, and minimizes the sum of the epoch costs by recursion on the
    set of nodes that are done, memoized.

    Node sets are bit masks as in the code.  The interned integers that stand
    for query signatures in a window are the signatures themselves; the other
    caches hold values of pure functions and are left out, except the memo
    table of [_solve]: what a relaxed search stores there is read by others.
    The recursion takes fuel; running out of it is the [RecursionError] of the
    model, and [HaloDpProps] shows that it does not happen. *)

From S2P Require Import Prelude PyFloat PyDict Grouping PyValue PyString TopoSort Kahn ParentGraph.

(** * The optimizer's view of a graph (runtime/optimizer/schedule/models.py, topo_utils.py)

    The records of the DP scheduler and its deterministic topological sort:
    Kahn's algorithm over a heap, so that among the ready nodes the smallest
    id goes first, whatever the iteration order of Python's sets. *)

(** ** models.py *)

Module DBQuery.
Record t := mk {
name : string;
sql : string;
parameters : dict string val;
post_llm : bool;
result_mappings : dict string string;
required_inputs : list string;
param_types : dict string string;
}.
End DBQuery.

Module QueryPlanChoice.
Record t := mk {
plan_id : string;
description : string;
cost : option f64;
raw_cost : option f64;
explain_json : val;
footprints : dict string Z;
}.
#[global] Instance eq_dec : EqDecision t.
Proof. solve_decision. Defined.
End QueryPlanChoice.

Module Node.
Record t := mk {
id : string;
type : string;
engine : option string;
model : option string;
system_prompt : option string;
inputs : list string;
outputs : list string;
db_queries : list DBQuery.t;
raw : dict string val;
}.
End Node.

Module Edge.
Record t := mk { source : string; target : string; mapping : dict string string }.
End Edge.

Module GraphSpec.
Record t := mk { name : string; description : string; nodes : dict string Node.t; edges : list Edge.t }.
End GraphSpec.

Module Worker.
Record t := mk { id : string; kind : string; device : string; capacity : f64; task_types : list string }.
End Worker.

(** ** topo_utils.py *)

Section topo.
Context (dependencies : dict string (list string)) (nodes : option (list string)).

(** The parents a node declares. *)
Definition parents_of (node_id : string) : list string := dget_or [] node_id dependencies.

Definition node_set : list string :=
match nodes with
| Some ns => remove_dups ns
| None => remove_dups (dkeys dependencies ++ concat (dvals dependencies))
end.

Definition known_parents (node_id : string) : list string := filter (.∈ node_set) (parents_of node_id).

Definition topological_order : result (list string) :=
let order := parents_run node_set known_parents (heappop str_ltb) in
if (length order =? length node_set) then Ok order
else Err (ValueError "Cycle detected or missing nodes when building topo order").

Lemma node_set_nodup : NoDup node_set.
Proof. unfold node_set. destruct nodes; apply NoDup_remove_dups. Qed.

Lemma known_parents_known n p : p ∈ known_parents n → p ∈ node_set.
Proof. by intros [Hp _]%list_elem_of_filter. Qed.
End topo.

(** The sort succeeds exactly when the dependencies between the nodes have no
    cycle, and then lists every node once, each after the parents it declares
    among them. *)
Theorem topological_order_correct (dependencies : dict string (list string)) (nodes : option (list string)) :
  ((∃ order, topological_order dependencies nodes = Ok order) ↔
   ∃ rank : string → nat, ∀ n p, n ∈ node_set dependencies nodes → p ∈ known_parents dependencies nodes n →
     rank p < rank n) ∧
  (∀ order, topological_order dependencies nodes = Ok order →
     NoDup order ∧ (∀ n, n ∈ order ↔ n ∈ node_set dependencies nodes) ∧
     ∀ l1 n l2, order = l1 ++ n :: l2 → ∀ p, p ∈ known_parents dependencies nodes n → p ∈ l1).
Proof.
  pose proof (node_set_nodup dependencies nodes) as Hnd. pose proof (known_parents_known dependencies nodes) as Hk.
  unfold topological_order. rewrite <-(parents_run_complete _ _ Hnd Hk _ (heappop_perm str_ltb) (heappop_none str_ltb)).
  pose proof (parents_run_order _ _ Hnd Hk _ (heappop_perm str_ltb) (heappop_none str_ltb)) as Ho.
  destruct (Nat.eqb_spec (length (parents_run (node_set dependencies nodes) (known_parents dependencies nodes) (heappop str_ltb)))
    (length (node_set dependencies nodes))) as [E|E].
  - destruct (Ho E) as [Hp Hord]. split; [split; [done|by eexists]|]. intros _ [= <-].
    split; [by rewrite Hp|]. split; [intros n; by rewrite Hp|done].
  - split; [|done]. split; [by intros [? ?]|done].
Qed.

(** A diamond; the heap puts [a] before [b], and the unknown parent of [a] is
    ignored. *)
Example topological_order_ex :
  topological_order [("z", ["b"; "a"]); ("b", ["r"]); ("a", ["r"; "gone"]); ("r", [])] (Some ["z"; "b"; "a"; "r"])
  = Ok ["r"; "a"; "b"; "z"].
Proof. vm_compute. reflexivity. Qed.
Example topological_order_cycle :
  is_Some (match topological_order [("a", ["b"]); ("b", ["a"])] None with Err e => Some e | Ok _ => None end).
Proof. vm_compute. by eexists. Qed.

Module QuerySignature.
Record t := mk { node_id : string; query_name : string; plan_id : string; footprints : dict string Z }.
#[global] Instance eq_dec : EqDecision t.
Proof. solve_decision. Defined.
End QuerySignature.

Module WorkerState.
Record t := mk { worker_idx : nat; last_model_id : Z; last_node_id : Z }.
#[global] Instance eq_dec : EqDecision t.
Proof. solve_decision. Defined.
End WorkerState.

(** The solver after [__init__]. *)
Module DPSolver.
Record t := mk {
graph : GraphSpec.t;
dependencies : dict string (list string);
workers : dict string Worker.t;
worker_ids : list string;
plan_choices : dict (string * string) (list QueryPlanChoice.t);
window_size : Z;
http_latency_s : dict string f64;
cpu_load_cost_weight : f64;
cpu_load_early_weight : f64;
disable_epoch_batch_cost : bool;
disable_cpu_load_cost : bool;
cpu_cost_mode : string;
gpu_cost_max_weight : f64;
gpu_cost_sum_weight : f64;
switch_penalty_weight : f64;
enable_batch_shape_pruning : bool;
gpu_batch_slack : Z;
enable_lower_bound_pruning : bool;
enable_worker_symmetry : bool;
lower_bound_cost_factor : f64;
gpu_depth_cost_weight : f64;
node_ids : list string;
node_worker_options : dict string (list string);
gpu_worker_ids : list string;
cpu_worker_ids : list string;
db_topo_order : list string;
}.
End DPSolver.

(** The arguments of [__init__] that may be left out. *)
Module Options.
Record t := mk {
node_ids : option (list string);
cpu_load_cost_weight : option f64;
cpu_load_early_weight : option f64;
cpu_cost_mode : option string;
switch_penalty_weight : option f64;
gpu_cost_max_weight : option f64;
gpu_cost_sum_weight : option f64;
disable_epoch_batch_cost : bool;
disable_cpu_load_cost : bool;
node_worker_options : dict string (list string);
gpu_worker_ids : option (list string);
cpu_worker_ids : option (list string);
http_latency_s : dict string f64;
enable_batch_shape_pruning : bool;
gpu_batch_slack : Z;
enable_lower_bound_pruning : bool;
enable_worker_symmetry : bool;
lower_bound_cost_factor : f64;
gpu_depth_cost_weight : option f64;
}.
End Options.

Definition fone : f64 := of_Z 1.
Definition ninety_percent : f64 := int_truediv 9 10.
Definition ten_percent : f64 := int_truediv 1 10.

(** [max(0.0, float(x))], with a default for [None] *)
Definition nonneg (x : f64) : f64 := fmax2 fzero x.
Definition weight_or (default : f64) (x : option f64) : f64 := nonneg (match x with Some w => w | None => default end).

Definition resolve_gpu_weights (max_weight sum_weight : option f64) : f64 * f64 :=
  let '(m, s) :=
    match max_weight, sum_weight with
    | None, None => (ninety_percent, ten_percent)
    | _, _ => (default fzero max_weight, default fzero sum_weight)
    end in
  let total := fadd m s in
  let '(m, s) := if fleb total fzero then (ninety_percent, ten_percent) else (fdiv m total, fdiv s total) in
  (nonneg m, nonneg s).

(** [_resolve_cpu_cost_mode] *)
Definition resolve_cpu_cost_mode (mode : option string) : result string :=
  let raw := norm (match mode with Some m => if String.eqb m "" then "default" else m | None => "default" end) in
  if (String.eqb raw "default" || String.eqb raw "naive")%bool then Ok raw
  else Err (ValueError "Unsupported cpu_cost_mode").

(** [_is_gpu_node] on a known node *)
Definition is_gpu_node (graph : GraphSpec.t) (node_id : string) : bool :=
  match dget node_id (GraphSpec.nodes graph) with
  | Some node => bool_decide (Node.engine node = Some "vllm")
  | None => false
  end.

(** The workers by kind. *)
Definition split_workers (workers : dict string Worker.t) (worker_ids : list string) :
    result (list string * list string) :=
  kinds ← mapR (λ w, worker ← dindex (KeyError w) w workers; Ok (w, String.eqb (Worker.kind worker) "gpu")) worker_ids;
  Ok ((filter (λ wk : string * bool, wk.2 = true) kinds).*1, (filter (λ wk : string * bool, wk.2 = false) kinds).*1).

(** The workers whose costs [_precompute_node_min_cost] asks for must be known. *)
Definition cost_workers (graph : GraphSpec.t) (workers : dict string Worker.t) (options : dict string (list string)) (worker_ids : list string)
    (node_id : string) : result (list Worker.t) :=
  if is_gpu_node graph node_id then mapR (λ w, dindex (KeyError w) w workers) (dget_or worker_ids node_id options) else Ok [].

(** [__init__] *)
Definition init (graph : GraphSpec.t) (dependencies : dict string (list string)) (workers : dict string Worker.t)
    (worker_ids : list string) (plan_choices : dict (string * string) (list QueryPlanChoice.t)) (window_size : Z)
    (o : Options.t) : result DPSolver.t :=
  mode ← resolve_cpu_cost_mode (Options.cpu_cost_mode o);
  let '(max_weight, sum_weight) := resolve_gpu_weights (Options.gpu_cost_max_weight o) (Options.gpu_cost_sum_weight o) in
  let node_ids := match Options.node_ids o with
                  | Some ns => ns
                  | None => sorted_by str_ltb id (dkeys (GraphSpec.nodes graph))
                  end in
  _ ← mapR (λ n, dindex (KeyError n) n (GraphSpec.nodes graph)) node_ids;
  pools ← match Options.gpu_worker_ids o, Options.cpu_worker_ids o with
          | Some gpu, Some cpu => Ok (gpu, cpu)
          | _, _ => split_workers workers worker_ids
          end;
  let '(gpu, cpu) := pools in
  let cpu := match cpu with [] => worker_ids | _ => cpu end in
  let topo := match topological_order dependencies (Some node_ids) with Ok order => order | Err _ => node_ids end in
  _ ← mapR (cost_workers graph workers (Options.node_worker_options o) worker_ids) node_ids;
  Ok (DPSolver.mk graph dependencies workers worker_ids plan_choices window_size (Options.http_latency_s o)
        (weight_or fone (Options.cpu_load_cost_weight o)) (weight_or (of_Z 2) (Options.cpu_load_early_weight o))
        (Options.disable_epoch_batch_cost o) (Options.disable_cpu_load_cost o) mode max_weight sum_weight
        (weight_or ten_percent (Options.switch_penalty_weight o)) (Options.enable_batch_shape_pruning o)
        (Z.max 0 (Options.gpu_batch_slack o)) (Options.enable_lower_bound_pruning o)
        (Options.enable_worker_symmetry o) (nonneg (Options.lower_bound_cost_factor o))
        (weight_or fone (Options.gpu_depth_cost_weight o)) node_ids
        ((λ n, (n, dget_or worker_ids n (Options.node_worker_options o))) <$> node_ids)
        gpu cpu (filter (λ n, is_gpu_node graph n = false) topo)).

(** [seconds] of an HTTP node: the first of these keys that holds a number. *)
Definition latency_keys : list (string * f64) :=
  [("sleep_s", fone); ("sleep_ms", int_truediv 1 1000); ("latency_s", fone); ("latency_ms", int_truediv 1 1000);
   ("timeout_s", fone); ("timeout_ms", int_truediv 1 1000)].

Section latency.
(** [float(s)] on a string; [None] where it raises. *)
Context (float_of_string : string → option f64).

Fixpoint latency_seconds (keys : list (string * f64)) (raw : dict string val) : result f64 :=
match keys with
| [] => Ok fzero
| (key, scale) :: keys' =>
    match dget key raw with
    | Some (VStr s) =>
        match float_of_string (strip s) with
        | Some x => Ok (nonneg (fmul x scale))
        | None => latency_seconds keys' raw
        end
    | Some (VInt z) => if is_finite (of_Z z) then Ok (nonneg (fmul (of_Z z) scale)) else Err OverflowError
    | Some (VBool b) => Ok (nonneg (fmul (of_Z (if b then 1 else 0)) scale))
    | Some (VFloat x) => Ok (nonneg (fmul x scale))
    | _ => latency_seconds keys' raw
    end
end.
End latency.

(** A batch outcome: the costs, the next worker states and the plans. *)
Module Outcome.
Record t := mk {
gpu_cost_max : f64;
gpu_cost_sum : f64;
cpu_load_cost : f64;
next_states : list WorkerState.t;
plans : dict (string * string) QueryPlanChoice.t;
}.
End Outcome.

(** What [_solve] returns: epochs are relative to the state. *)
Module Solution.
Record t := mk {
cost : f64;
schedule : list (Z * string * string);
plans : dict (string * string) QueryPlanChoice.t;
}.
Definition none : t := mk finf [] [].
End Solution.

Definition window : Type := list (option QuerySignature.t).
Definition assignment : Type := list (string * string).

(** One way to run a node: its cost, its query cost, the worker's next state,
    the plans and the window it leaves. *)
Module Variant.
Record t := mk {
node_cost : f64;
node_cpu_cost : f64;
state : WorkerState.t;
plans : dict (string * string) QueryPlanChoice.t;
exit_window : window;
}.
End Variant.

(** The solutions that are known, by done nodes, worker states and epoch. *)
Abbreviation memo := (dict (Z * list WorkerState.t * Z) Solution.t).

Section solver.
Context (s : DPSolver.t).
Context (exec_cost_fn : Node.t → Worker.t → result f64).
Context (cache_multiplier_fn : list QuerySignature.t → QueryPlanChoice.t → f64).
Context (model_init_cost_fn : Node.t → option string → result f64).
Context (llm_cache_bonus_fn : Node.t → option string → list string → f64).
Context (epoch_penalty_fn : Z → f64).
Context (float_of_string : string → option f64).

Definition nodes : dict string Node.t := GraphSpec.nodes (DPSolver.graph s).
Definition node_of (node_id : string) : result Node.t := dindex (KeyError node_id) node_id nodes.
Definition deps (node_id : string) : list string := dget_or [] node_id (DPSolver.dependencies s).
Definition is_gpu (node_id : string) : bool := is_gpu_node (DPSolver.graph s) node_id.
Definition gpu_node_ids : list string := filter (λ n, is_gpu n = true) (DPSolver.node_ids s).
Definition db_node_ids : list string := filter (λ n, is_gpu n = false) (DPSolver.node_ids s).

(** ** Node sets *)

(** [{x: i for i, x in enumerate(l)}]: the last index of a name. *)
Fixpoint index_of (x : string) (l : list string) : option nat :=
match l with
| [] => None
| y :: l' => match index_of x l' with
             | Some i => Some (S i)
             | None => if decide (x = y) then Some 0 else None
             end
end.

(** [1 << self.node_index[node_id]] for a known node. *)
Definition node_index (node_id : string) : Z := Z.of_nat (default 0 (index_of node_id (DPSolver.node_ids s))).
Definition node_bit (node_id : string) : Z := Z.shiftl 1 (node_index node_id).
Definition all_mask : Z := (Z.shiftl 1 (Z.of_nat (length (DPSolver.node_ids s))) - 1)%Z.
Definition add_nodes (mask : Z) (l : list string) : Z := foldl (λ m n, Z.lor m (node_bit n)) mask l.

(** [_is_done] *)
Definition is_done (done_mask : Z) (node_id : string) : bool :=
negb (Z.land done_mask (node_bit node_id) =? 0)%Z.

(** [_build_parents_mask] at a node *)
Definition parents_mask (gpu_only : bool) (node_id : string) : Z :=
add_nodes 0 (filter (λ p, p ∈ DPSolver.node_ids s ∧ (gpu_only = true → is_gpu p = true)) (deps node_id)).

(** [pmask & ~mask]: a parent outside the set. *)
Definition blocked (pmask mask : Z) : bool := negb (Z.land pmask (Z.lnot mask) =? 0)%Z.

(** [_batch_feasible] *)
Definition batch_feasible (batch : list string) (done_mask : Z) : bool :=
let batch_mask := add_nodes done_mask batch in
forallb (λ n, negb (blocked (parents_mask false n) batch_mask)) batch.

(** ** The GPU nodes of an epoch *)

(** The topological order of the pending GPU nodes; the given order when the
  sort does not reach them all.  An edge counts as often as it is declared
  but is taken off once. *)
Definition pending_order (pending : list string) : list string :=
let in_deg := (λ n, (n, Z.of_nat (length (filter (.∈ pending) (deps n))))) <$> pending in
let '(_, topo, _) :=
  kahn pop_first (λ n, filter (λ child, n ∈ deps child) pending) (λ _ _ _, ()) (length pending) () in_deg
    (filter (λ kv, kv.2 = 0%Z) in_deg).*1 [] in
if (length topo =? length (remove_dups pending)) then topo else pending.

(** [dfs] of [_enumerate_gpu_batches] *)
Fixpoint choose_nodes (min_r max_r : Z) (done_mask : Z) (topo selected : list string) (selected_mask : Z) :
  list (list string) :=
match topo with
| [] =>
    let size := Z.of_nat (length selected) in
    if ((min_r <=? size) && (size <=? max_r))%Z%bool then [selected] else []
| n :: topo' =>
    choose_nodes min_r max_r done_mask topo' selected selected_mask ++
    (if (max_r <=? Z.of_nat (length selected))%Z then []
     else if blocked (parents_mask true n) (Z.lor done_mask selected_mask)
     then choose_nodes min_r max_r done_mask topo' selected selected_mask
     else choose_nodes min_r max_r done_mask topo' (selected ++ [n]) (Z.lor selected_mask (node_bit n)))
end.

Definition pending_gpu (done_mask : Z) : list string :=
filter (λ n, is_done done_mask n = false ∧ is_gpu n = true) (DPSolver.node_ids s).

(** [_enumerate_gpu_batches]; [prune] is the current value of
  [enable_batch_shape_pruning]. *)
Definition enumerate_gpu_batches (prune : bool) (done_mask : Z) : result (list (list string)) :=
let max_gpu := Z.max 1 (Z.of_nat (length (DPSolver.gpu_worker_ids s))) in
let pending := pending_gpu done_mask in
match pending with
| [] => Ok [[]]
| _ =>
    let target := Z.min max_gpu (Z.of_nat (length pending)) in
    let min_r := if prune then Z.max 1 (target - DPSolver.gpu_batch_slack s) else 1%Z in
    match choose_nodes min_r target done_mask (pending_order pending) [] 0 with
    | [] => Err (RuntimeError "DP GPU batch enumeration produced no executable GPU batch")
    | results => Ok ([] :: results)
    end
end.

(** [_batch_gpu_depths]: depths within the chosen nodes. *)
Definition selected_parents (gpu_nodes : list string) (n : string) : list string := filter (.∈ gpu_nodes) (deps n).

Definition selected_children (gpu_nodes : list string) : dict string (list string) :=
foldl (λ children n, foldl (add_child n) children (selected_parents gpu_nodes n))
  ((λ n, (n, [])) <$> gpu_nodes) gpu_nodes.

Definition deepen (depths : dict string Z) (n child : string) : dict string Z :=
dset child (Z.max (dget_or 0 child depths) (dget_or 0 n depths + 1))%Z depths.

Definition batch_gpu_depths (gpu_nodes : list string) : dict string Z :=
let indeg := (λ n, (n, Z.of_nat (length (selected_parents gpu_nodes n)))) <$> gpu_nodes in
let queue := (filter (λ kv, kv.2 = 0%Z) indeg).*1 in
let '(depths, _, _) :=
  kahn pop_first (λ n, dget_or [] n (selected_children gpu_nodes)) deepen (length gpu_nodes)
    ((λ n, (n, 0%Z)) <$> queue) indeg queue [] in
foldl (λ depths n, dsetdefault n 0%Z depths) depths gpu_nodes.

(** [_batch_gpu_depth_penalty] *)
Definition batch_gpu_depth_penalty (gpu_nodes : list string) (gpu_depths : dict string Z) : f64 :=
if fleb (DPSolver.gpu_depth_cost_weight s) fzero then fzero
else match gpu_nodes with
     | [] => fzero
     | _ => fmul (DPSolver.gpu_depth_cost_weight s)
              (of_Z (foldr Z.add 0%Z ((λ n, dget_or 0%Z n gpu_depths) <$> gpu_nodes)))
     end.

(** [_gpu_assignments] *)
Fixpoint gpu_assign (gpu_nodes used : list string) (current : assignment) : list assignment :=
match gpu_nodes with
| [] => [current]
| n :: gpu_nodes' =>
    DPSolver.gpu_worker_ids s ≫= λ w,
      if decide (w ∈ dget_or (DPSolver.gpu_worker_ids s) n (DPSolver.node_worker_options s) ∧ w ∉ used)
      then gpu_assign gpu_nodes' (w :: used) (current ++ [(w, n)]) else []
end.
Definition gpu_assignments (gpu_nodes : list string) : list assignment := gpu_assign gpu_nodes [] [].

(** ** The CPU nodes of an epoch *)

(** One pass over the CPU nodes in topological order. *)
Definition fill_step (st : list string * list string * Z * bool) (n : string) : list string * list string * Z * bool :=
let '(selected, pending, batch_mask, progressed) := st in
if decide (n ∈ pending) then
  if blocked (parents_mask false n) batch_mask then st
  else (selected ++ [n], filter (.≠ n) pending, Z.lor batch_mask (node_bit n), true)
else st.

Fixpoint fill_passes (fuel : nat) (selected pending : list string) (batch_mask : Z) : list string :=
match fuel with
| O => selected
| S fuel' =>
    let '(selected, pending, batch_mask, progressed) :=
      foldl fill_step (selected, pending, batch_mask, false) (DPSolver.db_topo_order s) in
    if progressed then fill_passes fuel' selected pending batch_mask else selected
end.

(** [_auto_cpu_batch] *)
Definition auto_cpu_batch (done_mask : Z) (gpu_nodes : list string) : list string :=
let pending := filter (λ n, is_done done_mask n = false) db_node_ids in
match pending with
| [] => []
| _ => fill_passes (S (length pending)) [] pending (add_nodes done_mask gpu_nodes)
end.

(** [_order_cpu_nodes_by_parent_depth]; an unhashable parent raises. *)
Definition parent_depth_key (gpu_depths : dict string Z) (n : string) : result (bool * Z) :=
match dget n nodes with
| None => Ok (true, 0%Z)
| Some node =>
    match vget "parent" (Node.raw node) with
    | VStr parent =>
        match dget parent gpu_depths with Some d => Ok (false, d) | None => Ok (true, 0%Z) end
    | VList _ | VDict _ => Err (TypeError "unhashable type")
    | _ => Ok (true, 0%Z)
    end
end.

Definition key_lt (a b : bool * Z) : bool :=
lex_lt Bool.eqb (λ x y, negb x && y)%bool Z.ltb a b.

Definition order_cpu_nodes_by_parent_depth (cpu_nodes : list string) (gpu_depths : dict string Z) :
  result (list string) :=
match cpu_nodes, gpu_depths with
| [], _ | _, [] => Ok cpu_nodes
| _, _ =>
    keys ← mapR (parent_depth_key gpu_depths) cpu_nodes;
    Ok (snd <$> sorted_by key_lt fst (zip keys cpu_nodes))
end.

(** [_cpu_assignments]: round robin over the workers a node may use. *)
Definition cpu_pool (pool_workers : list string) (n : string) : list string :=
let allowed := dget_or [] n (DPSolver.node_worker_options s) in
match filter (.∈ allowed) pool_workers with
| [] => match allowed with [] => pool_workers | _ => allowed end
| pool => pool
end.

Definition cpu_assignments (cpu_nodes : list string) : assignment :=
match (match DPSolver.cpu_worker_ids s with [] => DPSolver.worker_ids s | ws => ws end) with
| [] => []
| pool_workers =>
    imap (λ idx n, let pool := cpu_pool pool_workers n in
            (default "" (pool !! (idx mod length pool)), n)) cpu_nodes
end.

(** ** Compact ids *)

(** The models of the graph in order; a worker remembers the index of its
  last one, -1 for none. *)
Definition all_models : list string :=
sorted_by str_ltb id (remove_dups
  (omap (λ node, match Node.model node with
                 | Some m => if String.eqb m "" then None else Some m
                 | None => None
                 end) (dvals nodes))).

Definition model_to_id (model : option string) (fallback : Z) : Z :=
match model with
| None => fallback
| Some m => match index_of m all_models with Some i => Z.of_nat i | None => fallback end
end.

Definition name_from_id (names : list string) (i : Z) : option string :=
if (i <? 0)%Z then None else names !! Z.to_nat i.
Definition model_from_id (i : Z) : option string := name_from_id all_models i.
Definition node_from_id (i : Z) : option string := name_from_id (DPSolver.node_ids s) i.

(** ** Queries *)

Definition fallback_choice : QueryPlanChoice.t := QueryPlanChoice.mk "default" "fallback" (Some fone) None VNone [].

Definition choices_of (node : Node.t) (query : DBQuery.t) : list QueryPlanChoice.t :=
match dget_or [] (Node.id node, DBQuery.name query) (DPSolver.plan_choices s) with
| [] => [fallback_choice]
| choices => choices
end.

Definition base_cost (choice : QueryPlanChoice.t) : f64 :=
match QueryPlanChoice.raw_cost choice, QueryPlanChoice.cost choice with
| Some raw, _ => nonneg raw
| None, Some c => c
| None, None => fone
end.

(** [_signature_id]: the signature itself. *)
Definition signature_of (node_id query_name : string) (choice : QueryPlanChoice.t) : QuerySignature.t :=
QuerySignature.mk node_id query_name (QueryPlanChoice.plan_id choice)
  (sorted_by str_ltb fst (QueryPlanChoice.footprints choice)).

(** [_window_signatures] *)
Definition window_signatures (w : window) : list QuerySignature.t := omap id w.

(** [_query_cost] *)
Definition query_cost (w : window) (choice : QueryPlanChoice.t) : f64 :=
fmul (base_cost choice) (cache_multiplier_fn (window_signatures w) choice).

(** [_append_window] *)
Definition append_window (w : window) (node_id query_name : string) (choice : QueryPlanChoice.t) : window :=
let size := DPSolver.window_size s in
if (size <=? 0)%Z then w
else
  let sig := Some (signature_of node_id query_name choice) in
  match w with
  | [] => if (size =? 1)%Z then [sig] else replicate (Z.to_nat (size - 1)) None ++ [sig]
  | _ =>
      let new_window := w ++ [sig] in
      if (size <? Z.of_nat (length new_window))%Z
      then drop (length new_window - Z.to_nat size) new_window else new_window
  end.

Abbreviation plan_seq := (list (string * QueryPlanChoice.t)).

(** [_query_plan_options]: every combination of plans, query by query. *)
Definition add_query (node : Node.t) (outcomes : list (f64 * window * plan_seq)) (query : DBQuery.t) :
  list (f64 * window * plan_seq) :=
outcomes ≫= λ o,
  (λ choice, (fadd o.1.1 (query_cost o.1.2 choice),
              append_window o.1.2 (Node.id node) (DBQuery.name query) choice,
              o.2 ++ [(DBQuery.name query, choice)])) <$> choices_of node query.

Definition query_plan_options (node : Node.t) (enter_window : window) : list (f64 * window * plan_seq) :=
foldl (add_query node) [(fzero, enter_window, [])] (Node.db_queries node).

Definition plan_map (node : Node.t) (seq : plan_seq) : dict (string * string) QueryPlanChoice.t :=
dict_of ((λ qc, ((Node.id node, qc.1), qc.2)) <$> seq).

(** ** Running an assignment *)

(** [_execute_node] *)
Definition execute_node (node_id : string) (state : WorkerState.t) (enter_window : window) : result (list Variant.t) :=
node ← node_of node_id;
let parents := deps node_id in
worker_id ← ok_or (IndexError "tuple index out of range") (DPSolver.worker_ids s !! WorkerState.worker_idx state);
worker ← dindex (KeyError worker_id) worker_id (DPSolver.workers s);
exec_cost ← exec_cost_fn node worker;
model_cost ← model_init_cost_fn node (model_from_id (WorkerState.last_model_id state));
let bonus := llm_cache_bonus_fn node (node_from_id (WorkerState.last_node_id state)) parents in
let bonus := if fleb bonus fzero then fone else bonus in
let last_node := node_index (Node.id node) in
if is_gpu node_id then
  let base_cost := fadd (fmul exec_cost bonus) model_cost in
  let new_state := WorkerState.mk (WorkerState.worker_idx state)
    (model_to_id (Node.model node) (WorkerState.last_model_id state)) last_node in
  match Node.db_queries node with
  | [] => Ok [Variant.mk base_cost fzero new_state [] enter_window]
  | _ => Ok ((λ o : f64 * window * plan_seq, Variant.mk base_cost o.1.1 new_state (plan_map node o.2) o.1.2)
               <$> query_plan_options node enter_window)
  end
else
  Ok [Variant.mk fzero fzero
        (WorkerState.mk (WorkerState.worker_idx state) (WorkerState.last_model_id state) last_node) [] enter_window].

(** [_http_sleep_cost] *)
Definition http_sleep_cost (node : Node.t) : result f64 :=
match dget (Node.id node) (DPSolver.http_latency_s s) with
| Some profiled => Ok (nonneg profiled)
| None => latency_seconds float_of_string latency_keys (Node.raw node)
end.

(** [_apply_cpu_load]: the cheapest plans, in the given order. *)
Definition cheapest (best : f64 * window * plan_seq) (o : f64 * window * plan_seq) : f64 * window * plan_seq :=
if fltb o.1.1 best.1.1 then o else best.

Definition load_step (st : f64 * window * dict (string * string) QueryPlanChoice.t) (node_id : string) :
  result (f64 * window * dict (string * string) QueryPlanChoice.t) :=
let '(total, w, plans) := st in
node ← node_of node_id;
if bool_decide (Node.engine node = Some "http")
then sleep ← http_sleep_cost node; Ok (fadd total sleep, w, plans)
else
  match Node.db_queries node with
  | [] => Ok st
  | _ =>
      let '(cost, exit_window, seq) := foldl cheapest (finf, w, []) (query_plan_options node w) in
      if feqb cost finf then Ok st
      else Ok (fadd total cost, exit_window, dupdate plans (plan_map node seq))
  end.

Definition apply_cpu_load (cpu_nodes : list string) (enter_window : window) :
  result (f64 * dict (string * string) QueryPlanChoice.t) :=
st ← foldR load_step (fzero, enter_window, []) cpu_nodes;
Ok (st.1.1, st.2).

Definition worker_index (worker_id : string) : option nat := index_of worker_id (DPSolver.worker_ids s).

(** The GPU costs of a finished assignment. *)
Definition gpu_costs (worker_costs : list f64) : list f64 :=
(λ w, default fzero (i ← worker_index w; worker_costs !! i)) <$> DPSolver.gpu_worker_ids s.

Definition fmax_list (l : list f64) : f64 := match l with [] => fzero | x :: l' => max_by fltb id x l' end.

(** [_assignment_outcomes]: the choices of the nodes' variants, depth first. *)
Fixpoint assignment_outcomes (assign : assignment) (cpu_nodes : list string) (states : list WorkerState.t)
  (worker_costs : list f64) (acc_plans : dict (string * string) QueryPlanChoice.t) (cpu_load_cost : f64)
  (w : window) : result (list Outcome.t) :=
match assign with
| [] =>
    extra ← apply_cpu_load cpu_nodes w;
    let costs := gpu_costs worker_costs in
    Ok [Outcome.mk (fmax_list costs) (py_sum costs) (fadd cpu_load_cost extra.1) states (dupdate acc_plans extra.2)]
| (worker_id, node_id) :: assign' =>
    idx ← ok_or (KeyError worker_id) (worker_index worker_id);
    state ← ok_or (IndexError "list index out of range") (states !! idx);
    variants ← execute_node node_id state w;
    branches ← mapR (λ v,
      assignment_outcomes assign' cpu_nodes (<[idx := Variant.state v]> states)
        (alter (λ c, fadd c (Variant.node_cost v)) idx worker_costs)
        (dupdate acc_plans (Variant.plans v)) (fadd cpu_load_cost (Variant.node_cpu_cost v))
        (Variant.exit_window v)) variants;
    Ok (concat branches)
end.

Definition outcomes_of (assign : assignment) (cpu_nodes : list string) (states : list WorkerState.t) :
  result (list Outcome.t) :=
assignment_outcomes assign cpu_nodes states (replicate (length (DPSolver.worker_ids s)) fzero) [] fzero [].

(** ** Symmetric workers *)

Abbreviation worker_sig := (string * (f64 * (Z * Z)))%type.

Definition worker_signature (worker_id : string) (state : WorkerState.t) : result worker_sig :=
worker ← dindex (KeyError worker_id) worker_id (DPSolver.workers s);
Ok (Worker.kind worker, (Worker.capacity worker, (WorkerState.last_model_id state, WorkerState.last_node_id state))).

Definition sig_lt (a b : worker_sig) : bool :=
lex_lt String.eqb str_ltb (lex_lt feqb fltb (lex_lt Z.eqb Z.ltb Z.ltb)) a b.

Definition bucket_step (states : list WorkerState.t) (buckets : dict worker_sig (list string)) (wn : string * string) :
  result (dict worker_sig (list string)) :=
idx ← ok_or (KeyError wn.1) (worker_index wn.1);
state ← ok_or (IndexError "tuple index out of range") (states !! idx);
sig ← worker_signature wn.1 state;
Ok (dset sig (dget_or [] sig buckets ++ [wn.2]) buckets).

(** [_assignment_signature] *)
Definition assignment_signature (states : list WorkerState.t) (assign : assignment) :
  result (list (worker_sig * list string)) :=
buckets ← foldR (bucket_step states) [] assign;
Ok (sorted_by sig_lt fst ((λ sn, (sn.1, sorted_by str_ltb id sn.2)) <$> buckets)).

Definition dedup_step (states : list WorkerState.t)
  (st : list (list (worker_sig * list string)) * list assignment) (assign : assignment) :
  result (list (list (worker_sig * list string)) * list assignment) :=
key ← assignment_signature states assign;
Ok (if decide (key ∈ st.1) then st else (st.1 ++ [key], st.2 ++ [assign])).

(** [_dedup_worker_assignments] *)
Definition dedup_worker_assignments (states : list WorkerState.t) (assigns : list assignment) :
  result (list assignment) :=
st ← foldR (dedup_step states) ([], []) assigns;
Ok st.2.

(** ** The lower bound *)

(** [_precompute_node_min_cost] at a node, whose workers [init] has looked up; a
  cost that raises counts as infinite. *)
Definition min_worker_cost (node_id : string) (node : Node.t) : f64 :=
let allowed := dget_or (DPSolver.worker_ids s) node_id (DPSolver.node_worker_options s) in
let cost w := match worker ← dindex (KeyError w) w (DPSolver.workers s); exec_cost_fn node worker with
              | Ok c => c | Err _ => finf end in
let best := foldl (λ best w, fmin2 best (cost w)) finf allowed in
if feqb best finf then fzero else best.

Definition min_plan_cost (node : Node.t) : f64 :=
let best query :=
  let b := foldl (λ b choice, fmin2 b (base_cost choice)) finf (choices_of node query) in
  if feqb b finf then fzero else b in
let total := foldl (λ total query, fadd total (best query)) fzero (Node.db_queries node) in
if (DPSolver.disable_cpu_load_cost s || String.eqb (DPSolver.cpu_cost_mode s) "naive")%bool then fzero
else fmul total (DPSolver.cpu_load_cost_weight s).

Definition node_min_cost (node_id : string) : f64 :=
match dget node_id nodes with
| Some node => if is_gpu node_id then fadd (min_worker_cost node_id node) (min_plan_cost node) else fzero
| None => fzero
end.

(** [math.ceil(a / b)] of small counts *)
Definition ceil_div (a b : Z) : Z := match fceil (int_truediv a b) with Ok z => z | Err _ => 0%Z end.

Definition remaining (done_mask : Z) (l : list string) : list string := filter (λ n, is_done done_mask n = false) l.

(** [_lower_bound_remaining] *)
Definition lower_bound_remaining (done_mask : Z) (epoch_idx : Z) : f64 :=
if negb (DPSolver.enable_lower_bound_pruning s) then fzero
else
  let remaining_gpu := remaining done_mask gpu_node_ids in
  let remaining_cpu := remaining done_mask db_node_ids in
  match remaining_gpu, remaining_cpu with
  | [], [] => fzero
  | _, _ =>
      let capacity := Z.max 1 (Z.of_nat (length (DPSolver.gpu_worker_ids s))) in
      let min_epoch_gpu := match remaining_gpu with
                           | [] => 0%Z | _ => ceil_div (Z.of_nat (length remaining_gpu)) capacity end in
      let min_epochs := Z.max min_epoch_gpu (match remaining_cpu with [] => 0 | _ => 1 end)%Z in
      let gpu_min_sum := py_sum (node_min_cost <$> remaining_gpu) in
      let load_lb := if fltb fzero gpu_min_sum then fdiv gpu_min_sum (of_Z capacity) else fzero in
      let penalty_lb :=
        if DPSolver.disable_epoch_batch_cost s then fzero
        else py_sum ((λ i, epoch_penalty_fn (epoch_idx + Z.of_nat i)%Z) <$> seq 0 (Z.to_nat min_epochs)) in
      fadd penalty_lb (fmul (DPSolver.lower_bound_cost_factor s) load_lb)
  end.

(** ** The naive CPU cost

  [_cpu_needed_for_gpu]: the CPU ancestors of the nodes, by a depth-first
  search whose stack is a Python list. *)
Fixpoint cpu_search (fuel : nat) (stack visited needed : list string) : list string :=
match fuel with
| O => needed
| S fuel' =>
    match rev stack with
    | [] => needed
    | n :: rest =>
        let stack := rev rest in
        if decide (n ∈ visited) then cpu_search fuel' stack visited needed
        else
          let visited := n :: visited in
          let parents := deps n in
          cpu_search fuel' (stack ++ filter (.∉ visited) parents) visited
            (needed ++ filter (λ p, p ∈ db_node_ids ∧ p ∉ needed) (remove_dups parents))
    end
end.

Definition search_fuel (gpu_nodes : list string) : nat :=
length gpu_nodes + length (concat (dvals (DPSolver.dependencies s))).

Definition cpu_needed_for_gpu (gpu_nodes : list string) : list string :=
cpu_search (S (search_fuel gpu_nodes)) gpu_nodes [] [].

Definition naive_cpu_cost (gpu_nodes : list string) : f64 :=
of_Z (foldr Z.add 0%Z ((λ n, Z.of_nat (length (cpu_needed_for_gpu [n]))) <$> gpu_nodes)).

(** ** The search *)

(** The weight of the CPU load in epoch [epoch_idx]. *)
Definition cpu_load_weight (epoch_idx : Z) : f64 :=
if DPSolver.disable_cpu_load_cost s then fzero
else if fltb fzero (DPSolver.cpu_load_early_weight s)
     then fmul (DPSolver.cpu_load_cost_weight s)
            (fadd fone (fdiv (DPSolver.cpu_load_early_weight s) (fadd fone (of_Z epoch_idx))))
     else DPSolver.cpu_load_cost_weight s.

Section expand.
(** The recursive call, and the state it is made from. *)
Context (rec : Z → list WorkerState.t → Z → memo → result (memo * Solution.t)).
Context (done_mask : Z) (states : list WorkerState.t) (epoch_idx : Z).

(** What the nodes of an epoch fix. *)
Record batch_plan := BatchPlan {
bp_new_done : Z;
bp_epoch_penalty : f64;
bp_depth_penalty : f64;
bp_naive_cpu_cost : option f64;
bp_cpu_assign : assignment;
}.

Definition epoch_cost (p : batch_plan) (o : Outcome.t) : f64 :=
let cpu_load := match bp_naive_cpu_cost p with Some c => c | None => Outcome.cpu_load_cost o end in
let gpu_cost := fadd (fmul (DPSolver.gpu_cost_max_weight s) (Outcome.gpu_cost_max o))
                     (fmul (DPSolver.gpu_cost_sum_weight s) (Outcome.gpu_cost_sum o)) in
fadd (fadd (fadd (bp_epoch_penalty p) gpu_cost) (fmul (cpu_load_weight epoch_idx) cpu_load)) (bp_depth_penalty p).

Definition this_epoch (g_assign cpu_assign : assignment) : list (Z * string * string) :=
(λ wn : string * string, (0%Z, wn.1, wn.2)) <$> (g_assign ++ cpu_assign).
Definition shift_epochs (sched : list (Z * string * string)) : list (Z * string * string) :=
(λ ewn : Z * string * string, ((ewn.1.1 + 1)%Z, ewn.1.2, ewn.2)) <$> sched.

(** The bound prunes only once there is a solution to beat. *)
Definition pruned (p : batch_plan) (best : Solution.t) (cost : f64) : bool :=
(DPSolver.enable_lower_bound_pruning s && fltb (Solution.cost best) finf &&
 fleb (Solution.cost best) (fadd cost (lower_bound_remaining (bp_new_done p) (epoch_idx + 1))))%bool.

Definition try_outcome (p : batch_plan) (g_assign : assignment) (acc : memo * Solution.t) (o : Outcome.t) :
  result (memo * Solution.t) :=
let '(m, best) := acc in
let cost := epoch_cost p o in
if pruned p best cost then Ok acc
else
  sub ← rec (bp_new_done p) (Outcome.next_states o) (epoch_idx + 1)%Z m;
  let total := fadd cost (Solution.cost sub.2) in
  Ok (sub.1,
      if fltb total (Solution.cost best)
      then Solution.mk total (this_epoch g_assign (bp_cpu_assign p) ++ shift_epochs (Solution.schedule sub.2))
             (dupdate (Solution.plans sub.2) (Outcome.plans o))
      else best).

Definition expand_assign (p : batch_plan) (cpu_nodes : list string) (acc : memo * Solution.t) (g_assign : assignment) :
  result (memo * Solution.t) :=
match g_assign, bp_cpu_assign p with
| [], [] => Ok acc
| _, _ =>
    outcomes ← outcomes_of g_assign cpu_nodes states;
    foldR (try_outcome p g_assign) acc outcomes
end.

(** The GPU nodes of an epoch by depth, and the CPU nodes they bring. *)
Definition epoch_nodes (gpu_nodes : list string) : result (list string * list string * dict string Z) :=
let gpu_depths := batch_gpu_depths gpu_nodes in
let gpu_nodes := match gpu_depths with
                 | [] => gpu_nodes
                 | _ => sorted_by Z.ltb (λ n, dget_or 0%Z n gpu_depths) gpu_nodes
                 end in
cpu_nodes ← order_cpu_nodes_by_parent_depth (auto_cpu_batch done_mask gpu_nodes) gpu_depths;
Ok (gpu_nodes, cpu_nodes, gpu_depths).

Definition plan_batch (gpu_nodes cpu_nodes : list string) (gpu_depths : dict string Z) : batch_plan :=
let no_batch_cost := DPSolver.disable_epoch_batch_cost s in
BatchPlan (add_nodes done_mask (gpu_nodes ++ cpu_nodes))
  (if no_batch_cost then fzero else epoch_penalty_fn epoch_idx)
  (if no_batch_cost then fzero else batch_gpu_depth_penalty gpu_nodes gpu_depths)
  (if String.eqb (DPSolver.cpu_cost_mode s) "naive" then Some (naive_cpu_cost gpu_nodes) else None)
  (cpu_assignments cpu_nodes).

Definition expand_batch (acc : memo * Solution.t) (gpu_nodes : list string) : result (memo * Solution.t) :=
ns ← epoch_nodes gpu_nodes;
let '(gpu_nodes, cpu_nodes, gpu_depths) := ns in
match gpu_nodes, cpu_nodes with
| [], [] => Ok acc
| _, _ =>
    if batch_feasible (gpu_nodes ++ cpu_nodes) done_mask then
      assigns ← (if DPSolver.enable_worker_symmetry s
                 then dedup_worker_assignments states (gpu_assignments gpu_nodes)
                 else Ok (gpu_assignments gpu_nodes));
      foldR (expand_assign (plan_batch gpu_nodes cpu_nodes gpu_depths) cpu_nodes) acc assigns
    else Ok acc
end.

Definition expand (prune : bool) (m : memo) : result (memo * Solution.t) :=
batches ← enumerate_gpu_batches prune done_mask;
foldR expand_batch (m, Solution.none) batches.
End expand.

(** [_solve]; [prune] is the current value of [enable_batch_shape_pruning].
  When the pruned enumeration finds nothing, the state is solved again
  without it. *)
Fixpoint solve_from (fuel : nat) (prune allow_relax : bool) (done_mask : Z) (states : list WorkerState.t)
  (epoch_idx : Z) (m : memo) : result (memo * Solution.t) :=
match fuel with
| O => Err RecursionError
| S fuel' =>
    if (done_mask =? all_mask)%Z then Ok (m, Solution.mk fzero [] [])
    else
      match dget (done_mask, states, epoch_idx) m with
      | Some solution => Ok (m, solution)
      | None =>
          found ← expand (solve_from fuel' prune allow_relax) done_mask states epoch_idx prune m;
          let '(m, best) := found in
          if feqb (Solution.cost best) finf
          then
            if (allow_relax && prune)%bool then solve_from fuel' false false done_mask states epoch_idx m
            else Err (RuntimeError "DP failed to find a valid schedule; check DAG dependencies.")
          else Ok (dset (done_mask, states, epoch_idx) best m, best)
      end
end.

Definition initial_states : list WorkerState.t :=
imap (λ i _, WorkerState.mk i (-1) (-1)) (DPSolver.worker_ids s).

(** One level per epoch, one for the end and one for the relaxed search. *)
Definition solve_fuel : nat := length (DPSolver.node_ids s) + 2.

(** [solve] *)
Definition solve (initial_worker_states : option (list WorkerState.t)) : result Solution.t :=
out ← solve_from solve_fuel (DPSolver.enable_batch_shape_pruning s) true 0
        (default initial_states initial_worker_states) 0 [];
Ok out.2.
End solver.
