(* ===== verification/HaloDpFacts.v ===== *)
(** * Facts of the DP scheduler

    Node masks, the batches that are enumerated, the CPU nodes they bring and
    the workers they are given: what one epoch of [HaloDp] consists of. *)

From S2P Require Import Prelude PyFloat PyDict Grouping PyValue PyString TopoSort Kahn ParentGraph HaloDp.

Lemma filter_shrinks {A} (P P' : A → Prop) `{!∀ x, Decision (P x), !∀ x, Decision (P' x)} l x :
  x ∈ l → P x → (∀ y, y ∈ l → P' y → P y) → ¬ P' x → length (filter P' l) < length (filter P l).
Proof.
  intros Hx HP Hsub HP'. assert (Hle : ∀ k, (∀ y, y ∈ k → P' y → P y) → length (filter P' k) ≤ length (filter P k)).
  { induction k as [|y k IH]; intros Hk; [done|]. rewrite !filter_cons.
    assert (length (filter P' k) ≤ length (filter P k)) by (apply IH; intros z Hz; apply Hk; by right).
    assert (P' y → P y) by (apply Hk; left). repeat case_decide; simpl; tauto || lia. }
  apply list_elem_of_split in Hx as (l1 & l2 & ->). rewrite !filter_app, !filter_cons, !length_app.
  rewrite (decide_False (P:=P' x)), (decide_True (P:=P x)) by done. simpl.
  assert (length (filter P' l1) ≤ length (filter P l1)) by (apply Hle; intros y Hy; apply Hsub, elem_of_app; by left).
  assert (length (filter P' l2) ≤ length (filter P l2)) by (apply Hle; intros y Hy; apply Hsub, elem_of_app; right; by right).
  lia.
Qed.

(** ** Positions and masks *)

Lemma index_of_lookup x l i : index_of x l = Some i → l !! i = Some x.
Proof.
  revert i. induction l as [|y l IH]; intros i; simpl; [done|].
  destruct (index_of x l) as [j|]; [intros [= <-]; simpl; by apply IH|].
  case_decide; [|done]. intros [= <-]. by subst.
Qed.

Lemma index_of_is_Some x l : x ∈ l → is_Some (index_of x l).
Proof.
  induction l as [|y l IH]; [by intros ?%not_elem_of_nil|]. intros [->|Hx]%elem_of_cons; simpl.
  - destruct (index_of y l); [by eexists|]. rewrite decide_True by done. by eexists.
  - destruct (IH Hx) as [i ->]. by eexists.
Qed.

Lemma index_of_inj x y l : x ∈ l → y ∈ l → default 0 (index_of x l) = default 0 (index_of y l) → x = y.
Proof.
  intros [i Hi]%index_of_is_Some [j Hj]%index_of_is_Some. rewrite Hi, Hj. simpl. intros ->.
  apply index_of_lookup in Hi, Hj. congruence.
Qed.

Lemma land_bit m i : (0 <= i)%Z → negb (Z.land m (Z.shiftl 1 i) =? 0)%Z = Z.testbit m i.
Proof.
  intros Hi. destruct (Z.testbit m i) eqn:E.
  - apply negb_true_iff, Z.eqb_neq. intros H. apply (f_equal (λ z, Z.testbit z i)) in H.
    rewrite Z.land_spec, E, Z.bits_0, Z.shiftl_spec, Z.sub_diag in H by done. done.
  - apply negb_false_iff, Z.eqb_eq, Z.bits_inj_0. intros j. rewrite Z.land_spec.
    destruct (Z.lt_ge_cases j 0); [by rewrite Z.testbit_neg_r|].
    rewrite Z.shiftl_spec by done. destruct (decide (j = i)) as [->|]; [by rewrite E|].
    rewrite andb_comm. apply andb_false_intro1. destruct (Z.lt_ge_cases (j - i) 0); [by apply Z.testbit_neg_r|].
    apply (Z.bits_above_log2 1); simpl; lia.
Qed.

Section facts.
Context (s : DPSolver.t).

Lemma is_done_bit m n : is_done s m n = Z.testbit m (node_index s n).
Proof. apply land_bit. unfold node_index. lia. Qed.

Lemma is_done_none n : is_done s 0 n = false.
Proof. by rewrite is_done_bit, Z.bits_0. Qed.

Lemma node_bit_test n n' : n ∈ DPSolver.node_ids s → n' ∈ DPSolver.node_ids s →
Z.testbit (node_bit s n) (node_index s n') = bool_decide (n' = n).
Proof.
intros Hn Hn'. unfold node_bit. rewrite Z.shiftl_spec by (unfold node_index; lia).
case_bool_decide as E; [subst; by rewrite Z.sub_diag|].
destruct (Z.lt_ge_cases (node_index s n' - node_index s n) 0); [by apply Z.testbit_neg_r|].
destruct (Z.eq_dec (node_index s n') (node_index s n)) as [Heq|].
- destruct E. unfold node_index in Heq. apply (index_of_inj _ _ (DPSolver.node_ids s)); [done..|lia].
- apply (Z.bits_above_log2 1); simpl; lia.
Qed.

Lemma is_done_lor m n n' : n ∈ DPSolver.node_ids s → n' ∈ DPSolver.node_ids s →
is_done s (Z.lor m (node_bit s n)) n' = (is_done s m n' || bool_decide (n' = n))%bool.
Proof. intros Hn Hn'. rewrite !is_done_bit, Z.lor_spec, node_bit_test by done. done. Qed.

Lemma is_done_add l m n : (∀ x, x ∈ l → x ∈ DPSolver.node_ids s) → n ∈ DPSolver.node_ids s →
is_done s (add_nodes s m l) n = true ↔ is_done s m n = true ∨ n ∈ l.
Proof.
unfold add_nodes. revert m. induction l as [|x l IH]; intros m Hl Hn; simpl.
- rewrite elem_of_nil. tauto.
- rewrite IH by (done || (intros y Hy; apply Hl; by right)). rewrite is_done_lor by (done || apply Hl; left).
  rewrite orb_true_iff, bool_decide_eq_true, elem_of_cons. tauto.
Qed.

(** The bits above the nodes do not matter: a set of nodes is a subset of a
  mask when no bit is left over. *)
Lemma blocked_add l m : (∀ x, x ∈ l → x ∈ DPSolver.node_ids s) →
blocked (add_nodes s 0 l) m = false ↔ ∀ x, x ∈ l → is_done s m x = true.
Proof.
intros Hl. unfold blocked. rewrite negb_false_iff, Z.eqb_eq. split.
- intros H x Hx. apply (f_equal (λ z, Z.testbit z (node_index s x))) in H.
  rewrite Z.land_spec, Z.lnot_spec, Z.bits_0, <-!is_done_bit in H by (unfold node_index; lia).
  assert (Hd : is_done s (add_nodes s 0 l) x = true) by (apply is_done_add; auto).
  rewrite Hd in H. simpl in H. by destruct (is_done s m x).
- intros H. apply Z.bits_inj_0. intros i. rewrite Z.land_spec.
  destruct (Z.lt_ge_cases i 0); [by rewrite Z.testbit_neg_r|]. rewrite Z.lnot_spec by done.
  destruct (Z.testbit (add_nodes s 0 l) i) eqn:E; [|done]. simpl.
  assert (Hx : ∃ x, x ∈ l ∧ i = node_index s x).
  { clear H Hl. unfold add_nodes in E. assert (Hz : Z.testbit 0 i = false) by apply Z.bits_0. revert E Hz.
    generalize 0%Z. induction l as [|y l IH]; intros m0 E Hz; simpl in E; [congruence|].
    destruct (Z.eq_dec i (node_index s y)) as [->|Hne]; [exists y; split; [left|done]|].
    destruct (IH _ E) as (x & Hx & ->); [|exists x; split; [by right|done]].
    rewrite Z.lor_spec, Hz. simpl. unfold node_bit. rewrite Z.shiftl_spec by done.
    destruct (Z.lt_ge_cases (i - node_index s y) 0); [by apply Z.testbit_neg_r|].
    apply (Z.bits_above_log2 1); simpl; lia. }
  destruct Hx as (x & Hx & ->). rewrite <-is_done_bit. by rewrite H.
Qed.

Lemma parents_blocked gpu_only n m :
blocked (parents_mask s gpu_only n) m = false ↔
∀ p, p ∈ deps s n → p ∈ DPSolver.node_ids s → (gpu_only = true → is_gpu s p = true) → is_done s m p = true.
Proof.
unfold parents_mask. rewrite blocked_add by (intros x (?&_)%list_elem_of_filter; tauto). split.
- intros H p Hp Hn Hg. apply H, list_elem_of_filter. auto.
- intros H p ((Hn & Hg) & Hp)%list_elem_of_filter. auto.
Qed.

Lemma all_mask_done n : n ∈ DPSolver.node_ids s → is_done s (all_mask s) n = true.
Proof.
intros [i Hi]%index_of_is_Some. rewrite is_done_bit. unfold all_mask, node_index. rewrite Hi. simpl.
apply index_of_lookup, lookup_lt_Some in Hi. apply (Z.ones_spec_low (Z.of_nat (length (DPSolver.node_ids s)))). lia.
Qed.

(** ** The GPU nodes *)

Lemma pending_gpu_spec m n :
n ∈ pending_gpu s m ↔ n ∈ DPSolver.node_ids s ∧ is_done s m n = false ∧ is_gpu s n = true.
Proof. unfold pending_gpu. rewrite list_elem_of_filter. tauto. Qed.

Lemma pending_order_elem pending n : n ∈ pending_order s pending → n ∈ pending.
Proof.
unfold pending_order.
set (in_deg := (λ n, (n, Z.of_nat (length (filter (.∈ pending) (deps s n))))) <$> pending).
set (children := λ n, filter (λ child, n ∈ deps s child) pending).
set (ready := (filter (λ kv : string * Z, kv.2 = 0%Z) in_deg).*1).
pose proof (kahn_elem pop_first children (λ _ _ _, ()) pop_first_perm (.∈ pending)
              (length pending) () in_deg ready []) as H.
destruct (kahn _ _ _ _ _ _ _ _) as [[u topo] rest]. case_match; [|done]. simpl in H. apply H.
- intros x ([y d] & -> & (_ & Hy)%list_elem_of_filter)%list_elem_of_fmap.
  apply list_elem_of_fmap in Hy as (z & [= -> _] & Hz). done.
- by intros x ?%not_elem_of_nil.
- intros y x (_ & Hx)%list_elem_of_filter. done.
Qed.

Lemma degrees_get (f : string → Z) l n : n ∈ l → dget n ((λ x, (x, f x)) <$> l) = Some (f n).
Proof.
induction l as [|x l IH]; [by intros ?%not_elem_of_nil|]. intros Hn. csimpl.
case_decide as E; [by subst|]. apply IH. apply elem_of_cons in Hn as [->|]; [done|by auto].
Qed.

Lemma zero_keys_nodup (f : string → Z) l : NoDup l →
let deg := (λ x, (x, f x)) <$> l in
NoDup (filter (λ kv, kv.2 = 0%Z) deg).*1 ∧ ∀ x, x ∈ (filter (λ kv, kv.2 = 0%Z) deg).*1 → (dget_or 0 x deg <= 0)%Z.
Proof.
intros Hl. simpl. split.
- apply (dict_wf_filter_key (λ kv : string * Z, kv.2 = 0%Z)). unfold dict_wf, dkeys.
  rewrite <-list_fmap_compose. change (NoDup (id <$> l)). by rewrite list_fmap_id.
- intros x ([y d] & -> & (Hd & Hy)%list_elem_of_filter)%list_elem_of_fmap.
  apply list_elem_of_fmap in Hy as (z & [= -> Hz] & Hz'). simpl in *. unfold dget_or.
  rewrite degrees_get by done. simpl. lia.
Qed.

Lemma pending_order_nodup pending : NoDup pending → NoDup (pending_order s pending).
Proof.
intros Hp. unfold pending_order.
destruct (zero_keys_nodup (λ n, Z.of_nat (length (filter (.∈ pending) (deps s n)))) pending Hp) as [H1 H2].
set (in_deg := (λ n, (n, Z.of_nat (length (filter (.∈ pending) (deps s n))))) <$> pending) in *.
set (children := λ n, filter (λ child, n ∈ deps s child) pending).
pose proof (kahn_nodup pop_first children (λ _ _ _, ()) pop_first_perm (length pending) () in_deg
              (filter (λ kv : string * Z, kv.2 = 0%Z) in_deg).*1 [] H1 H2) as H.
destruct (kahn _ _ _ _ _ _ _ _) as [[u topo] rest]. by case_match.
Qed.

Lemma choose_nodes_spec min_r max_r m topo selected smask batch :
batch ∈ choose_nodes s min_r max_r m topo selected smask →
∃ chosen, batch = selected ++ chosen ∧ chosen `sublist_of` topo.
Proof.
revert selected smask. induction topo as [|n topo IH]; intros selected smask; simpl.
{ case_match; [|by intros ?%not_elem_of_nil]. intros ->%list_elem_of_singleton.
  exists []. by rewrite app_nil_r. }
intros [Hb|Hb]%elem_of_app.
{ apply IH in Hb as (c & -> & ?). exists c. split; [done|by constructor]. }
case_match; [by apply not_elem_of_nil in Hb|]. case_match.
{ apply IH in Hb as (c & -> & ?). exists c. split; [done|by constructor]. }
apply IH in Hb as (c & -> & ?). exists (n :: c). split; [by rewrite <-app_assoc|by constructor].
Qed.

Context (node_ids_nodup : NoDup (DPSolver.node_ids s)).

Lemma enumerate_spec prune m batches batch :
enumerate_gpu_batches s prune m = Ok batches → batch ∈ batches →
NoDup batch ∧ ∀ n, n ∈ batch → n ∈ pending_gpu s m.
Proof.
unfold enumerate_gpu_batches. assert (Hp : NoDup (pending_gpu s m)) by by apply NoDup_filter.
destruct (pending_gpu s m) as [|x pending] eqn:E.
{ intros [= <-] ->%list_elem_of_singleton. split; [constructor|by intros n ?%not_elem_of_nil]. }
rewrite <-E in *. clear E x pending. set (min_r := if prune then _ else _). clearbody min_r.
destruct (choose_nodes s min_r _ m (pending_order s (pending_gpu s m)) [] 0) as [|b0 results] eqn:E; [done|].
intros [= <-] [->|Hb]%elem_of_cons; [split; [constructor|by intros n ?%not_elem_of_nil]|].
rewrite <-E in Hb. apply choose_nodes_spec in Hb as (c & -> & Hc). split.
- eapply sublist_NoDup; [by apply pending_order_nodup|done].
- intros n Hn. apply pending_order_elem. eapply elem_of_submseteq; [done|]. by apply sublist_submseteq.
Qed.

(** ** The CPU nodes *)

Lemma filter_ne_perm (n : string) l : NoDup l → n ∈ l → l ≡ₚ n :: filter (.≠ n) l.
Proof.
induction l as [|x l IH]; [by intros _ ?%not_elem_of_nil|]. intros [Hx Hl]%NoDup_cons Hn.
destruct (decide (x = n)) as [->|Hne].
- rewrite filter_cons_False by tauto. f_equiv. rewrite filter_everything; [done|]. intros y Hy ->. done.
- rewrite filter_cons_True by done. apply elem_of_cons in Hn as [->|Hn]; [done|].
  rewrite (IH Hl Hn) at 1. by constructor.
Qed.

Lemma fill_step_perm st n : NoDup st.1.1.2 →
(fill_step s st n).1.1.1 ++ (fill_step s st n).1.1.2 ≡ₚ st.1.1.1 ++ st.1.1.2 ∧ NoDup (fill_step s st n).1.1.2.
Proof.
destruct st as [[[selected pending] bmask] progressed]. simpl. intros Hnd.
destruct (decide (n ∈ pending)) as [Hn|]; [|done]. case_match; [done|]. simpl. split; [|by apply NoDup_filter].
rewrite (filter_ne_perm n pending) at 2 by done. by rewrite <-app_assoc.
Qed.

Lemma fill_pass_perm st l : NoDup st.1.1.2 →
(foldl (fill_step s) st l).1.1.1 ++ (foldl (fill_step s) st l).1.1.2 ≡ₚ st.1.1.1 ++ st.1.1.2 ∧
NoDup (foldl (fill_step s) st l).1.1.2.
Proof.
revert st. induction l as [|n l IH]; intros st Hnd; [done|]. simpl.
destruct (fill_step_perm st n Hnd) as [H1 H2]. destruct (IH _ H2) as [H3 H4]. split; [by rewrite H3|done].
Qed.

Lemma fill_passes_sub fuel selected pending bmask : NoDup pending →
∃ rest, fill_passes s fuel selected pending bmask ++ rest ≡ₚ selected ++ pending.
Proof.
revert selected pending bmask. induction fuel as [|fuel IH]; intros selected pending bmask Hnd; simpl; [by exists pending|].
pose proof (fill_pass_perm (selected, pending, bmask, false) (DPSolver.db_topo_order s) Hnd) as [H1 H2].
destruct (foldl _ _ _) as [[[selected' pending'] bmask'] progressed]. simpl in H1, H2.
destruct progressed; [|by exists pending']. destruct (IH selected' pending' bmask' H2) as [rest Hr].
exists rest. by rewrite Hr.
Qed.

Definition pending_cpu (m : Z) : list string := filter (λ n, is_done s m n = false) (db_node_ids s).

Lemma pending_cpu_spec m n :
n ∈ pending_cpu m ↔ n ∈ DPSolver.node_ids s ∧ is_done s m n = false ∧ is_gpu s n = false.
Proof. unfold pending_cpu, db_node_ids. rewrite !list_elem_of_filter. tauto. Qed.

Lemma pending_cpu_nodup m : NoDup (pending_cpu m).
Proof. by apply NoDup_filter, NoDup_filter. Qed.

Lemma auto_cpu_batch_spec m gpu_nodes :
NoDup (auto_cpu_batch s m gpu_nodes) ∧ ∀ n, n ∈ auto_cpu_batch s m gpu_nodes → n ∈ pending_cpu m.
Proof.
unfold auto_cpu_batch. fold (pending_cpu m). pose proof (pending_cpu_nodup m) as Hnd.
destruct (pending_cpu m) as [|x pending] eqn:E; [split; [constructor|by intros n ?%not_elem_of_nil]|].
rewrite <-E in *. clear E x pending.
destruct (fill_passes_sub (S (length (pending_cpu m))) [] (pending_cpu m) (add_nodes s m gpu_nodes) Hnd) as [rest H].
simpl in H. rewrite <-H in Hnd. apply NoDup_app in Hnd as (H1 & _ & _). split; [done|].
intros n Hn. rewrite <-H. by apply elem_of_app; left.
Qed.

Lemma order_cpu_perm cpu_nodes depths l :
order_cpu_nodes_by_parent_depth s cpu_nodes depths = Ok l → l ≡ₚ cpu_nodes.
Proof.
unfold order_cpu_nodes_by_parent_depth. destruct cpu_nodes as [|n ns]; [by intros [= <-]|].
destruct depths as [|d ds]; [by intros [= <-]|]. intros (keys & Hk & [= <-])%result_bind_ok.
assert (length keys = length (n :: ns)) as Hlen.
{ apply mapR_ok_inv in Hk. symmetry. by eapply Forall2_length. }
rewrite sorted_by_perm, snd_zip; [done|lia].
Qed.

Lemma epoch_nodes_spec m gpu_nodes gpu' cpu' depths :
epoch_nodes s m gpu_nodes = Ok (gpu', cpu', depths) →
NoDup gpu_nodes → (∀ n, n ∈ gpu_nodes → n ∈ pending_gpu s m) →
NoDup (gpu' ++ cpu') ∧ (∀ n, n ∈ gpu' → n ∈ pending_gpu s m) ∧ (∀ n, n ∈ cpu' → n ∈ pending_cpu m).
Proof.
unfold epoch_nodes. set (g := match batch_gpu_depths s gpu_nodes with [] => _ | _ => _ end).
assert (Hg : g ≡ₚ gpu_nodes) by (unfold g; case_match; [done|apply sorted_by_perm]). clearbody g.
intros (c & Hc & [= -> -> _])%result_bind_ok Hnd Hp. apply order_cpu_perm in Hc.
destruct (auto_cpu_batch_spec m gpu') as [Hcn Hcp].
assert (Hp' : ∀ n, n ∈ gpu' → n ∈ pending_gpu s m) by (intros n Hn; rewrite Hg in Hn; by apply Hp).
assert (Hc' : ∀ n, n ∈ cpu' → n ∈ pending_cpu m) by (intros n Hn; rewrite Hc in Hn; by apply Hcp).
split; [|done]. apply NoDup_app. split; [by rewrite Hg|]. split; [|by rewrite Hc].
intros n Hn1%Hp' Hn2%Hc'. apply pending_gpu_spec in Hn1 as (_ & _ & H1).
apply pending_cpu_spec in Hn2 as (_ & _ & H2). congruence.
Qed.

(** ** Placements *)

Lemma gpu_assign_spec gpu_nodes used current assign :
assign ∈ gpu_assign s gpu_nodes used current →
∃ new, assign = current ++ new ∧ new.*2 = gpu_nodes ∧ NoDup new.*1 ∧ (∀ w, w ∈ new.*1 → w ∉ used) ∧
  ∀ w n, (w, n) ∈ new → w ∈ DPSolver.gpu_worker_ids s ∧
                        w ∈ dget_or (DPSolver.gpu_worker_ids s) n (DPSolver.node_worker_options s).
Proof.
revert used current. induction gpu_nodes as [|n gpu_nodes IH]; intros used current; simpl.
{ intros ->%list_elem_of_singleton. exists []. rewrite app_nil_r. split; [done|]. split; [done|].
  split; [constructor|]. split; by intros ? ?%not_elem_of_nil || intros ? ? ?%not_elem_of_nil. }
intros (w & Ha & Hw)%list_elem_of_bind. case_decide as Hd; [|by apply not_elem_of_nil in Ha].
destruct Hd as [Hallow Hused]. apply IH in Ha as (new & -> & <- & Hnd & Hfresh & Hok).
exists ((w, n) :: new). rewrite <-app_assoc. split; [done|]. split; [done|]. csimpl. split.
{ apply NoDup_cons. split; [|done]. intros Hin%Hfresh. apply Hin. left. }
split.
- intros w' [->|Hin]%elem_of_cons; [done|]. apply Hfresh in Hin. intros Hu. apply Hin. by right.
- intros w' n' [[= -> ->]|Hin]%elem_of_cons; [done|by apply Hok].
Qed.

Definition cpu_pool_workers : list string :=
match DPSolver.cpu_worker_ids s with [] => DPSolver.worker_ids s | ws => ws end.

(** The workers a node may run on. *)
Definition may_run (w n : string) : Prop :=
if is_gpu s n
then w ∈ DPSolver.gpu_worker_ids s ∧ w ∈ dget_or (DPSolver.gpu_worker_ids s) n (DPSolver.node_worker_options s)
else match dget_or [] n (DPSolver.node_worker_options s) with
     | [] => w ∈ cpu_pool_workers
     | allowed => w ∈ allowed
     end.

Lemma cpu_pool_spec pool_workers n : pool_workers ≠ [] →
cpu_pool s pool_workers n ≠ [] ∧
∀ w, w ∈ cpu_pool s pool_workers n →
  match dget_or [] n (DPSolver.node_worker_options s) with [] => w ∈ pool_workers | allowed => w ∈ allowed end.
Proof.
intros Hne. unfold cpu_pool. destruct (dget_or [] n (DPSolver.node_worker_options s)) as [|a allowed] eqn:E.
- destruct (filter _ pool_workers) as [|x l] eqn:Ef; [done|].
  assert (Hx : x ∈ filter (.∈ @nil string) pool_workers) by (rewrite Ef; left).
  by apply list_elem_of_filter in Hx as [?%not_elem_of_nil _].
- destruct (filter _ pool_workers) as [|x l] eqn:Ef; [done|]. split; [done|].
  intros w Hw. rewrite <-Ef in Hw. by apply list_elem_of_filter in Hw as [? _].
Qed.

Lemma cpu_assignments_spec cpu_nodes : cpu_pool_workers ≠ [] →
(cpu_assignments s cpu_nodes).*2 = cpu_nodes ∧
∀ w n, (w, n) ∈ cpu_assignments s cpu_nodes → is_gpu s n = false → may_run w n.
Proof.
intros Hne. unfold cpu_assignments. fold cpu_pool_workers.
destruct cpu_pool_workers as [|p ps] eqn:E; [done|]. rewrite <-E in *. clear E p ps. split.
- rewrite fmap_imap. apply list_eq. intros i. rewrite list_lookup_imap. by destruct (cpu_nodes !! i).
- intros w n Hin Hg. apply elem_of_lookup_imap in Hin as (i & n' & [= -> ->] & Hi).
  destruct (cpu_pool_spec cpu_pool_workers n' Hne) as [Hpne Hp]. unfold may_run. rewrite Hg. apply Hp.
  destruct (lookup_lt_is_Some_2 (cpu_pool s cpu_pool_workers n') (i mod length (cpu_pool s cpu_pool_workers n'))) as [w Hw].
  { apply Nat.mod_upper_bound. by destruct (cpu_pool s cpu_pool_workers n'). }
  rewrite Hw. simpl. by apply list_elem_of_lookup_2 in Hw.
Qed.

(** ** The inner loops end by themselves *)

(** A pass that makes progress leaves fewer CPU nodes. *)
Lemma fill_pass_progress st l : st.2 = false → (foldl (fill_step s) st l).2 = true →
length (foldl (fill_step s) st l).1.1.2 < length st.1.1.2.
Proof.
intros Hst. assert (Hle : ∀ l st, length (foldl (fill_step s) st l).1.1.2 ≤ length st.1.1.2).
{ clear. induction l as [|n l IH]; intros st; simpl; [done|]. etrans; [apply IH|].
  destruct st as [[[selected pending] bmask] progressed]. simpl. case_decide; [|done]. case_match; [done|].
  simpl. apply length_filter. }
revert st Hst. induction l as [|n l IH]; intros st Hst; simpl; [congruence|].
destruct st as [[[selected pending] bmask] progressed]. simpl in *. subst progressed.
destruct (decide (n ∈ pending)) as [Hn|]; [|by apply IH]. case_match; [by apply IH|]. intros _.
eapply Nat.le_lt_trans; [apply Hle|]. simpl. apply (length_filter_lt _ _ n); [done|]. tauto.
Qed.

Lemma fill_passes_fuel fuel fuel' selected pending bmask : length pending < fuel → length pending < fuel' →
fill_passes s fuel selected pending bmask = fill_passes s fuel' selected pending bmask.
Proof.
revert fuel' selected pending bmask. induction fuel as [|fuel IH]; intros fuel' selected pending bmask H1 H2; [lia|].
destruct fuel' as [|fuel']; [lia|]. simpl.
pose proof (fill_pass_progress (selected, pending, bmask, false) (DPSolver.db_topo_order s) eq_refl) as H.
destruct (foldl _ _ _) as [[[selected' pending'] bmask'] progressed]. simpl in H.
destruct progressed; [|done]. specialize (H eq_refl). apply IH; lia.
Qed.

Lemma auto_cpu_fuel m gpu_nodes fuel : S (length (pending_cpu m)) ≤ fuel →
fill_passes s fuel [] (pending_cpu m) (add_nodes s m gpu_nodes) = auto_cpu_batch s m gpu_nodes.
Proof.
intros Hf. rewrite (fill_passes_fuel fuel (S (length (pending_cpu m)))) by lia. unfold auto_cpu_batch.
fold (pending_cpu m). destruct (pending_cpu m) as [|x l] eqn:E; [|done]. simpl.
assert (Hid : ∀ l, foldl (fill_step s) ([], [], add_nodes s m gpu_nodes, false) l = ([], [], add_nodes s m gpu_nodes, false)).
{ induction l as [|y l IH]; [done|]. cbn [foldl]. unfold fill_step at 2.
  rewrite decide_False by apply not_elem_of_nil. exact IH. }
by rewrite Hid.
Qed.

(** What the search for CPU ancestors can still push. *)
Definition unvisited (visited : list string) : dict string (list string) :=
filter (λ kv, kv.1 ∉ visited) (DPSolver.dependencies s).

Lemma unvisited_visit n visited : n ∉ visited →
length (concat (dvals (unvisited (n :: visited)))) + length (deps s n) ≤ length (concat (dvals (unvisited visited))).
Proof.
intros Hn. unfold unvisited, deps, dget_or, dvals. generalize (DPSolver.dependencies s) as d.
assert (Hle : ∀ d : dict string (list string),
  length (concat (filter (λ kv, kv.1 ∉ n :: visited) d).*2) ≤ length (concat (filter (λ kv, kv.1 ∉ visited) d).*2)).
{ induction d as [|[k ps] d IH]; [done|]. rewrite !filter_cons. simpl.
  pose proof (not_elem_of_cons visited k n). repeat case_decide; csimpl; rewrite ?length_app; try lia; tauto. }
induction d as [|[k ps] d IH]; [simpl; lia|]. simpl. rewrite !filter_cons. simpl.
destruct (decide (n = k)) as [<-|Hne].
- rewrite decide_False by (intros H; apply H; left). rewrite decide_True by done. csimpl.
  rewrite length_app. specialize (Hle d). simpl. unfold dvals in *. lia.
- destruct (decide (k ∉ visited)) as [Hk|Hk].
  + rewrite decide_True by (rewrite not_elem_of_cons; done). csimpl. rewrite !length_app. lia.
  + rewrite decide_False by (rewrite not_elem_of_cons; tauto). exact IH.
Qed.

Lemma cpu_search_fuel fuel fuel' stack visited needed :
length stack + length (concat (dvals (unvisited visited))) < fuel →
length stack + length (concat (dvals (unvisited visited))) < fuel' →
cpu_search s fuel stack visited needed = cpu_search s fuel' stack visited needed.
Proof.
revert fuel' stack visited needed. induction fuel as [|fuel IH]; intros fuel' stack visited needed H1 H2; [lia|].
destruct fuel' as [|fuel']; [lia|]. simpl. destruct (rev stack) as [|n rest] eqn:E; [done|].
assert (Hlen : length stack = S (length (rev rest))).
{ rewrite length_rev. rewrite <-length_rev, E. done. }
destruct (decide (n ∈ visited)) as [|Hn]; [apply IH; lia|].
pose proof (unvisited_visit n visited Hn) as Hv. pose proof (length_filter (.∉ n :: visited) (deps s n)) as Hf.
apply IH; rewrite length_app; lia.
Qed.

Lemma cpu_needed_fuel fuel gpu_nodes : search_fuel s gpu_nodes < fuel →
cpu_search s fuel gpu_nodes [] [] = cpu_needed_for_gpu s gpu_nodes.
Proof.
intros Hf. assert (He : unvisited [] = DPSolver.dependencies s).
{ apply filter_everything. intros x _. apply not_elem_of_nil. }
apply cpu_search_fuel; rewrite He; unfold search_fuel in *; lia.
Qed.

(** The FIFO loops of the enumeration and the depths stop with an empty queue. *)
Lemma degrees_potential (f : string → nat) l :
let deg := (λ n, (n, Z.of_nat (f n))) <$> l in
potential (deg, (filter (λ kv, kv.2 = 0%Z) deg).*1) ≤ length l.
Proof.
unfold potential. simpl. induction l as [|n l IH]; [done|]. csimpl. rewrite !filter_cons. simpl.
repeat case_decide; unfold positive in *; csimpl in *; lia.
Qed.

Lemma pending_order_ends pending :
let in_deg := (λ n, (n, Z.of_nat (length (filter (.∈ pending) (deps s n))))) <$> pending in
(kahn pop_first (λ n, filter (λ child, n ∈ deps s child) pending) (λ _ _ _, ()) (length pending) () in_deg
   (filter (λ kv, kv.2 = 0%Z) in_deg).*1 []).2 = [].
Proof. apply kahn_fuel; [apply pop_first_perm|apply pop_first_none|apply degrees_potential]. Qed.

Lemma batch_depths_end gpu_nodes :
let indeg := (λ n, (n, Z.of_nat (length (selected_parents s gpu_nodes n)))) <$> gpu_nodes in
let queue := (filter (λ kv, kv.2 = 0%Z) indeg).*1 in
(kahn pop_first (λ n, dget_or [] n (selected_children s gpu_nodes)) deepen (length gpu_nodes)
   ((λ n, (n, 0%Z)) <$> queue) indeg queue []).2 = [].
Proof. apply kahn_fuel; [apply pop_first_perm|apply pop_first_none|apply degrees_potential]. Qed.
End facts.
