(* ===== verification/HaloDpProps.v ===== *)
(** * Properties of the DP scheduler

    What [solve] returns is a schedule: every node once, after its parents, on
    a worker that may run it, GPU workers serving one node an epoch.  The
    search always ends by itself: its fuel is never used up. *)

From S2P Require Import Prelude PyFloat PyDict Grouping PyValue PyString TopoSort Kahn ParentGraph HaloDp HaloDpFacts.

Abbreviation placed := (Z * string * string)%type.

(** ** Schedules *)

(** [sched] completes the set [done_mask]. *)
Record valid_from (s : DPSolver.t) (done_mask : Z) (sched : list placed) : Prop := ValidFrom {
  vf_nodup : NoDup sched.*2;
  vf_nodes : ∀ n, n ∈ sched.*2 ↔ n ∈ DPSolver.node_ids s ∧ is_done s done_mask n = false;
  vf_epochs : ∀ e w n, (e, w, n) ∈ sched → (0 <= e)%Z;
  vf_parents : ∀ e w n p, (e, w, n) ∈ sched → p ∈ deps s n → p ∈ DPSolver.node_ids s →
    is_done s done_mask p = true ∨ ∃ e' w', (e', w', p) ∈ sched ∧ (e' <= e)%Z;
  vf_workers : ∀ e w n, (e, w, n) ∈ sched → may_run s w n;
  vf_gpu : ∀ e w n n', (e, w, n) ∈ sched → (e, w, n') ∈ sched →
    is_gpu s n = true → is_gpu s n' = true → n = n';
}.

Section valid.
Context (s : DPSolver.t).
Context (node_ids_nodup : NoDup (DPSolver.node_ids s)) (pool_nonempty : cpu_pool_workers s ≠ []).

Lemma valid_from_all : valid_from s (all_mask s) [].
Proof.
split; try by intros * ?%not_elem_of_nil.
- constructor.
- intros n. rewrite elem_of_nil. split; [done|]. intros [Hn Hd]. by rewrite all_mask_done in Hd.
Qed.

Lemma this_epoch_elem g c e w n : (e, w, n) ∈ this_epoch g c ↔ e = 0%Z ∧ (w, n) ∈ g ++ c.
Proof.
unfold this_epoch. rewrite list_elem_of_fmap. split.
- intros ([w' n'] & [= -> -> ->] & ?). done.
- intros [-> ?]. by exists (w, n).
Qed.

Lemma shift_epochs_elem e w n sched : (e, w, n) ∈ shift_epochs sched ↔ ((e - 1)%Z, w, n) ∈ sched.
Proof.
unfold shift_epochs. rewrite list_elem_of_fmap. split.
- intros ([[e' w'] n'] & [= -> -> ->] & ?). simpl. by rewrite Z.add_simpl_r.
- intros ?. exists ((e - 1)%Z, w, n). split; [|done]. simpl. do 2 f_equal. lia.
Qed.

Lemma this_epoch_nodes g c : (this_epoch g c).*2 = g.*2 ++ c.*2.
Proof. unfold this_epoch. by rewrite <-list_fmap_compose, <-fmap_app. Qed.

Lemma shift_epochs_nodes sched : (shift_epochs sched).*2 = sched.*2.
Proof. unfold shift_epochs. by rewrite <-list_fmap_compose. Qed.

(** The nodes of an epoch that can run after the nodes of [m]. *)
Record runnable (m : Z) (gpu_nodes cpu_nodes : list string) : Prop := Runnable {
rn_nodup : NoDup (gpu_nodes ++ cpu_nodes);
rn_gpu : ∀ n, n ∈ gpu_nodes → n ∈ pending_gpu s m;
rn_cpu : ∀ n, n ∈ cpu_nodes → n ∈ pending_cpu s m;
rn_feasible : batch_feasible s (gpu_nodes ++ cpu_nodes) m = true;
}.

Lemma runnable_pending m gpu_nodes cpu_nodes n : runnable m gpu_nodes cpu_nodes → n ∈ gpu_nodes ++ cpu_nodes →
n ∈ DPSolver.node_ids s ∧ is_done s m n = false.
Proof.
intros H [Hn|Hn]%elem_of_app.
- apply (rn_gpu _ _ _ H), pending_gpu_spec in Hn. tauto.
- apply (rn_cpu _ _ _ H), pending_cpu_spec in Hn. tauto.
Qed.

Lemma feasible_parents m gpu_nodes cpu_nodes n p : runnable m gpu_nodes cpu_nodes → n ∈ gpu_nodes ++ cpu_nodes →
p ∈ deps s n → p ∈ DPSolver.node_ids s → is_done s m p = true ∨ p ∈ gpu_nodes ++ cpu_nodes.
Proof.
intros H Hn Hp Hpn. pose proof (rn_feasible _ _ _ H) as Hf. unfold batch_feasible in Hf.
rewrite forallb_forall in Hf. specialize (Hf n). rewrite <-list_elem_of_In in Hf. specialize (Hf Hn).
apply negb_true_iff in Hf. rewrite parents_blocked in Hf. apply Hf in Hp; [|done..].
apply is_done_add in Hp; [done| |done]. intros x Hx. by apply (runnable_pending m gpu_nodes cpu_nodes).
Qed.

Lemma epoch_worker m gpu_nodes cpu_nodes g_assign w n :
runnable m gpu_nodes cpu_nodes → g_assign ∈ gpu_assignments s gpu_nodes →
(w, n) ∈ g_assign ++ cpu_assignments s cpu_nodes → may_run s w n.
Proof.
intros H Hg. apply gpu_assign_spec in Hg as (new & -> & Hn & _ & _ & Hok).
destruct (cpu_assignments_spec s cpu_nodes pool_nonempty) as [Hcn Hcok]. intros [Hin|Hin]%elem_of_app.
- assert (Hgpu : n ∈ gpu_nodes) by (rewrite <-Hn; apply list_elem_of_fmap; by exists (w, n)).
  apply (rn_gpu _ _ _ H), pending_gpu_spec in Hgpu as (_ & _ & Hgpu).
  unfold may_run. rewrite Hgpu. by apply Hok.
- apply Hcok; [done|]. assert (Hc : n ∈ cpu_nodes) by (rewrite <-Hcn; apply list_elem_of_fmap; by exists (w, n)).
  apply (rn_cpu _ _ _ H), pending_cpu_spec in Hc. tauto.
Qed.

(** An assignment in front of a completion of the larger set. *)
Lemma valid_from_epoch m gpu_nodes cpu_nodes g_assign sched :
runnable m gpu_nodes cpu_nodes → g_assign ∈ gpu_assignments s gpu_nodes →
valid_from s (add_nodes s m (gpu_nodes ++ cpu_nodes)) sched →
valid_from s m (this_epoch g_assign (cpu_assignments s cpu_nodes) ++ shift_epochs sched).
Proof.
intros Hrun Hg V. pose proof Hg as Hspec. apply gpu_assign_spec in Hspec as (new & E & Hgn & Hgw & _ & _).
simpl in E. subst new. destruct (cpu_assignments_spec s cpu_nodes pool_nonempty) as [Hcn _].
set (c_assign := cpu_assignments s cpu_nodes) in *.
assert (Hnow : ∀ w n, (w, n) ∈ g_assign ++ c_assign → n ∈ gpu_nodes ++ cpu_nodes).
{ intros w n Hin. rewrite <-Hgn, <-Hcn, <-fmap_app. apply list_elem_of_fmap. by exists (w, n). }
assert (Hdone : ∀ n, n ∈ DPSolver.node_ids s →
  is_done s (add_nodes s m (gpu_nodes ++ cpu_nodes)) n = true ↔ is_done s m n = true ∨ n ∈ gpu_nodes ++ cpu_nodes).
{ intros n. apply is_done_add. intros x Hx. by apply (runnable_pending m gpu_nodes cpu_nodes). }
assert (Hlater : ∀ n, n ∈ sched.*2 ↔ n ∈ DPSolver.node_ids s ∧ is_done s m n = false ∧ n ∉ gpu_nodes ++ cpu_nodes).
{ intros n. rewrite (vf_nodes _ _ _ V). split.
  - intros [Hn Hd]. split; [done|]. apply not_true_iff_false in Hd. rewrite Hdone in Hd by done.
    split; [apply not_true_iff_false|]; tauto.
  - intros (Hn & Hd & Hb). split; [done|]. apply not_true_iff_false. rewrite Hdone by done. intros [?|?]; [congruence|done]. }
split.
- rewrite fmap_app, this_epoch_nodes, shift_epochs_nodes, Hgn, Hcn. apply NoDup_app.
  split; [apply Hrun|]. split; [|apply V]. intros n Hn Hn'%Hlater. tauto.
- intros n. rewrite fmap_app, this_epoch_nodes, shift_epochs_nodes, Hgn, Hcn, elem_of_app, Hlater. split.
  + intros [Hn|?]; [by apply (runnable_pending m gpu_nodes cpu_nodes)|tauto].
  + intros [? ?]. destruct (decide (n ∈ gpu_nodes ++ cpu_nodes)); tauto.
- intros e w n [[-> _]%this_epoch_elem|He%shift_epochs_elem%(vf_epochs _ _ _ V)]%elem_of_app; lia.
- intros e w n p [[-> Hin]%this_epoch_elem|He%shift_epochs_elem]%elem_of_app Hp Hpn.
  + destruct (feasible_parents m gpu_nodes cpu_nodes n p Hrun (Hnow w n Hin) Hp Hpn) as [?|Hb]; [by left|right].
    rewrite <-Hgn, <-Hcn, <-fmap_app in Hb. apply list_elem_of_fmap in Hb as ([w' p'] & -> & Hb). exists 0%Z, w'.
    split; [|done]. apply elem_of_app. left. by apply this_epoch_elem.
  + pose proof (vf_epochs _ _ _ V _ _ _ He).
    destruct (vf_parents _ _ _ V _ _ _ _ He Hp Hpn) as [Hd|(e' & w' & Hin & Hle)].
    * apply Hdone in Hd as [?|Hb]; [by left| |done]. right. rewrite <-Hgn, <-Hcn, <-fmap_app in Hb.
      apply list_elem_of_fmap in Hb as ([w' p'] & -> & Hb). exists 0%Z, w'. split; [|lia].
      apply elem_of_app. left. by apply this_epoch_elem.
    * right. exists (e' + 1)%Z, w'. split; [|lia]. apply elem_of_app. right. apply shift_epochs_elem.
      by rewrite Z.add_simpl_r.
- intros e w n [[-> Hin]%this_epoch_elem|He%shift_epochs_elem%(vf_workers _ _ _ V)]%elem_of_app; [|done].
  by apply (epoch_worker m gpu_nodes cpu_nodes g_assign).
- intros e w n n' H1 H2 G1 G2.
  assert (Hc : ∀ w n, (w, n) ∈ c_assign → is_gpu s n = true → False).
  { intros w0 n0 Hin Hgpu. assert (Hn0 : n0 ∈ cpu_nodes) by (rewrite <-Hcn; apply list_elem_of_fmap; by exists (w0, n0)).
    apply (rn_cpu _ _ _ Hrun), pending_cpu_spec in Hn0 as (_ & _ & ?). congruence. }
  rewrite elem_of_app, this_epoch_elem, shift_epochs_elem in H1, H2.
  destruct H1 as [[-> H1]|H1], H2 as [[E2 H2]|H2]; [| |rewrite E2 in H1|].
  + apply elem_of_app in H1 as [H1|H1]; [|by destruct (Hc _ _ H1)].
    apply elem_of_app in H2 as [H2|H2]; [|by destruct (Hc _ _ H2)].
    apply (elem_dget w n) in H1; [|done]. apply (elem_dget w n') in H2; [|done]. congruence.
  + apply (vf_epochs _ _ _ V) in H2. lia.
  + apply (vf_epochs _ _ _ V) in H1. lia.
  + by apply (vf_gpu _ _ _ V _ _ _ _ H1 H2).
Qed.
End valid.

(** ** The search

    One rule for what a level of the search keeps: a property [Q] of the memo
    table and the best solution so far, and a property [E] of exceptions. *)

Definition pending_count (s : DPSolver.t) (m : Z) : nat :=
  length (filter (λ n, is_done s m n = false) (DPSolver.node_ids s)).

Section search.
Context (s : DPSolver.t).
Context (exec_cost_fn : Node.t → Worker.t → result f64).
Context (cache_multiplier_fn : list QuerySignature.t → QueryPlanChoice.t → f64).
Context (model_init_cost_fn : Node.t → option string → result f64).
Context (llm_cache_bonus_fn : Node.t → option string → list string → f64).
Context (epoch_penalty_fn : Z → f64).
Context (float_of_string : string → option f64).
Context (E : exn → Prop) (E_other : ∀ e, e ≠ RecursionError → E e).
Context (exec_E : ∀ node w, post (λ _, True) E (exec_cost_fn node w)).
Context (init_E : ∀ node m, post (λ _, True) E (model_init_cost_fn node m)).
Context (node_ids_nodup : NoDup (DPSolver.node_ids s)).

Local Abbreviation outcomes := (outcomes_of s exec_cost_fn cache_multiplier_fn model_init_cost_fn llm_cache_bonus_fn float_of_string).
Local Abbreviation expand_from := (expand s exec_cost_fn cache_multiplier_fn model_init_cost_fn llm_cache_bonus_fn epoch_penalty_fn float_of_string).
Local Abbreviation search := (solve_from s exec_cost_fn cache_multiplier_fn model_init_cost_fn llm_cache_bonus_fn epoch_penalty_fn float_of_string).

Local Ltac post_lookup x :=
apply (post_bind (λ _, True)); [apply post_ok_or; [done|by apply E_other]|intros x _ _].

Lemma latency_post keys raw : post (λ _, True) E (latency_seconds float_of_string keys raw).
Proof.
induction keys as [|[key scale] keys IH]; simpl; [done|]. destruct (dget key raw) as [v|]; [|done].
destruct v; try done; case_match; try done. by apply E_other.
Qed.

Lemma load_post cpu_nodes w : post (λ _, True) E (apply_cpu_load s cache_multiplier_fn float_of_string cpu_nodes w).
Proof.
unfold apply_cpu_load. apply (post_bind (λ _, True)); [|done]. apply post_foldR; [|done].
intros [[total w'] plans] n _ _. unfold load_step. post_lookup node. case_bool_decide.
- apply (post_bind (λ _, True)); [|done]. unfold http_sleep_cost. case_match; [done|apply latency_post].
- case_match; [done|]. destruct (foldl _ _ _) as [[cost exit_window] seq]. by case_match.
Qed.

Lemma execute_post n st w : post (λ _, True) E
(execute_node s exec_cost_fn cache_multiplier_fn model_init_cost_fn llm_cache_bonus_fn n st w).
Proof.
unfold execute_node. post_lookup node. post_lookup worker_id. post_lookup worker. apply (post_bind (λ _, True)); [apply exec_E|].
intros exec_cost _ _. apply (post_bind (λ _, True)); [apply init_E|].
intros model_cost _ _. case_match; [by case_match|done].
Qed.

Lemma outcomes_post assign cpu_nodes states : post (λ _, True) E (outcomes assign cpu_nodes states).
Proof.
unfold outcomes_of. generalize (replicate (length (DPSolver.worker_ids s)) fzero) as costs.
generalize (@nil ((string * string) * QueryPlanChoice.t)) as plans. generalize (@nil (option QuerySignature.t)) as w.
generalize fzero as load. revert states.
induction assign as [|[worker_id n] assign IH]; intros states load w plans costs; simpl.
{ apply (post_bind (λ _, True)); [apply load_post|done]. }
post_lookup idx. post_lookup st. apply (post_bind (λ _, True)); [apply execute_post|].
intros variants _ _. apply (post_bind (Forall (λ _, True))); [|done]. apply post_mapR. intros v _. apply IH.
Qed.

Lemma dedup_post states assigns :
post (λ l, ∀ a, a ∈ l → a ∈ assigns) E (dedup_worker_assignments s states assigns).
Proof.
unfold dedup_worker_assignments. apply (post_bind (λ st, ∀ a, a ∈ st.2 → a ∈ assigns)); [|done].
apply post_foldR; [|by intros a ?%not_elem_of_nil]. intros st a Ha Hst. unfold dedup_step.
apply (post_bind (λ _, True)).
- unfold assignment_signature. apply (post_bind (λ _, True)); [|done]. apply post_foldR; [|done].
  intros buckets wn _ _. unfold bucket_step. post_lookup idx. post_lookup st0. apply (post_bind (λ _, True)); [|done]. unfold worker_signature.
  apply (post_bind (λ _, True)); [|done]. apply post_ok_or; [done|by apply E_other].
- intros key _ _. simpl. case_decide; [done|]. intros b [Hb| ->%list_elem_of_singleton]%elem_of_app; auto.
Qed.

Lemma epoch_nodes_post m gpu_nodes : post (λ _, True) E (epoch_nodes s m gpu_nodes).
Proof.
unfold epoch_nodes. apply (post_bind (λ _, True)); [|done]. unfold order_cpu_nodes_by_parent_depth.
case_match; [done|]. case_match; [done|]. apply (post_bind (Forall (λ _, True))); [|done].
apply post_mapR. intros n _. unfold parent_depth_key. case_match; [|done]. case_match; try done.
- by case_match.
- by apply E_other.
- by apply E_other.
Qed.

(** An epoch leaves fewer nodes to run. *)
Lemma runnable_progress m gpu_nodes cpu_nodes : runnable s m gpu_nodes cpu_nodes → gpu_nodes ++ cpu_nodes ≠ [] →
pending_count s (add_nodes s m (gpu_nodes ++ cpu_nodes)) < pending_count s m.
Proof.
intros Hrun Hne. unfold pending_count. destruct (gpu_nodes ++ cpu_nodes) as [|x l] eqn:E0; [done|]. rewrite <-E0 in *.
assert (Hx : x ∈ gpu_nodes ++ cpu_nodes) by (rewrite E0; left). clear E0 Hne.
assert (Hin : ∀ y, y ∈ gpu_nodes ++ cpu_nodes → y ∈ DPSolver.node_ids s).
{ intros y Hy. by apply (runnable_pending s m gpu_nodes cpu_nodes). }
destruct (runnable_pending s m gpu_nodes cpu_nodes x Hrun Hx) as [Hxn Hxd].
apply (filter_shrinks _ _ _ x); [done|done| |].
- intros y Hy Hd. apply not_true_iff_false. intros Hm. apply not_true_iff_false in Hd. apply Hd.
  apply is_done_add; auto.
- apply not_false_iff_true, is_done_add; auto.
Qed.

(** What a level keeps: [rec] is only asked to complete a set that an epoch
  of runnable nodes extends. *)
Lemma expand_post (Q : memo * Solution.t → Prop) rec m states epoch prune mm :
Q (mm, Solution.none) →
(∀ gpu_nodes cpu_nodes g_assign o m1 best,
  runnable s m gpu_nodes cpu_nodes → gpu_nodes ++ cpu_nodes ≠ [] → g_assign ∈ gpu_assignments s gpu_nodes →
  Q (m1, best) →
  post (λ sub, Q (sub.1, best) ∧
               ∀ total plans, Q (sub.1, Solution.mk total
                 (this_epoch g_assign (cpu_assignments s cpu_nodes) ++ shift_epochs (Solution.schedule sub.2)) plans))
    E (rec (add_nodes s m (gpu_nodes ++ cpu_nodes)) (Outcome.next_states o) (epoch + 1)%Z m1)) →
post Q E (expand_from rec m states epoch prune mm).
Proof.
intros Hnone Hrec. unfold expand. apply (post_bind (λ bs, enumerate_gpu_batches s prune m = Ok bs)).
{ destruct (enumerate_gpu_batches s prune m) as [bs|e] eqn:Hb; [done|]. revert Hb. unfold enumerate_gpu_batches.
  case_match; [done|]. case_match; [|done]. intros [= <-]. by apply E_other. }
intros batches _ Hbs. apply post_foldR; [|done]. intros acc batch Hbatch Hacc. unfold expand_batch.
destruct (enumerate_spec s node_ids_nodup prune m batches batch Hbs Hbatch) as [Hbnd Hbp].
apply (post_bind (λ ns, epoch_nodes s m batch = Ok ns)).
{ pose proof (epoch_nodes_post m batch) as Hp. by destruct (epoch_nodes s m batch). }
intros [[gpu_nodes cpu_nodes] depths] _ Hns. destruct (epoch_nodes_spec s node_ids_nodup _ _ _ _ _ Hns Hbnd Hbp) as (Hnd & Hg & Hc).
assert (Hsome : gpu_nodes ++ cpu_nodes = [] ∨
  gpu_nodes ++ cpu_nodes ≠ [] ∧ ∀ A (a b : A), match gpu_nodes, cpu_nodes with [], [] => a | _, _ => b end = b).
{ destruct gpu_nodes, cpu_nodes; auto; right; split; done. }
destruct Hsome as [[-> ->]%app_nil|[Hne ->]]; [done|].
destruct (batch_feasible s (gpu_nodes ++ cpu_nodes) m) eqn:Hf; [|done].
apply (post_bind (λ assigns, ∀ a, a ∈ assigns → a ∈ gpu_assignments s gpu_nodes)).
{ destruct (DPSolver.enable_worker_symmetry s); [apply dedup_post|simpl; auto]. }
intros assigns _ Hassigns. apply post_foldR; [|done]. intros acc' g_assign Ha Hacc'. unfold expand_assign.
assert (Hstep : post Q E (outcomes g_assign cpu_nodes states ≫=
  foldR (try_outcome s exec_cost_fn epoch_penalty_fn rec epoch (plan_batch s epoch_penalty_fn m epoch gpu_nodes cpu_nodes depths) g_assign) acc')).
{ apply (post_bind (λ _, True)); [apply outcomes_post|]. intros os _ _. apply post_foldR; [|done].
  intros [m1 best] o _ Hq. unfold try_outcome. case_match; [done|]. cbn.
  eapply post_bind; [apply Hrec; try done; by apply Hassigns|].
  intros [m2 sub] _ [H1 H2]. simpl in *. case_match; [apply H2|apply H1]. }
destruct g_assign; [case_match; [exact Hacc'|]|]; exact Hstep.
Qed.

Context (pool_nonempty : cpu_pool_workers s ≠ []).

Definition memo_ok (mm : memo) : Prop :=
∀ key sol, dget key mm = Some sol → valid_from s key.1.1 (Solution.schedule sol).

(** A level per epoch, one for the end and one for a relaxed search. *)
Definition fuel_needed (prune allow_relax : bool) (m : Z) : nat :=
pending_count s m + (if (allow_relax && prune)%bool then 2 else 1).

Lemma solve_post fuel prune allow_relax m states epoch mm :
memo_ok mm → E RecursionError ∨ fuel_needed prune allow_relax m ≤ fuel →
post (λ sol, memo_ok sol.1 ∧ valid_from s m (Solution.schedule sol.2)) E
  (search fuel prune allow_relax m states epoch mm).
Proof.
revert prune allow_relax m states epoch mm. induction fuel as [|fuel IH]; intros prune allow_relax m states epoch mm Hmm Hfuel.
{ simpl. destruct Hfuel as [?|Hfuel]; [done|]. unfold fuel_needed in Hfuel. case_match; lia. }
simpl. destruct (Z.eqb_spec m (all_mask s)) as [->|_]; [split; [done|by apply valid_from_all]|].
destruct (dget (m, states, epoch) mm) as [sol|] eqn:Hget; [by split; [|apply (Hmm _ _ Hget)]|].
apply (post_bind (λ found, memo_ok found.1 ∧ (found.2 = Solution.none ∨ valid_from s m (Solution.schedule found.2)))).
- apply expand_post; [by split; [|left]|]. intros gpu_nodes cpu_nodes g_assign o m1 best Hrun Hne Hg [Hm1 Hbest].
  eapply post_mono; [|apply IH; [exact Hm1|]].
  + intros [m2 sub] [Hm2 Hv]. simpl in *. split; [by split|]. intros total plans. split; [done|]. right.
    by apply (valid_from_epoch s pool_nonempty m gpu_nodes cpu_nodes).
  + destruct Hfuel as [?|Hfuel]; [by left|right]. pose proof (runnable_progress m gpu_nodes cpu_nodes Hrun Hne).
    unfold fuel_needed in *. case_match; lia.
- intros [m1 best] _ [Hm1 Hbest]. simpl in *. destruct (feqb (Solution.cost best) finf) eqn:Hc.
  + destruct (allow_relax && prune)%bool eqn:Hr; [|by apply E_other]. apply IH; [done|].
    destruct Hfuel as [?|Hfuel]; [by left|right]. unfold fuel_needed in *. rewrite Hr in Hfuel. simpl. lia.
  + destruct Hbest as [->|Hv]; [done|]. split; [|done]. intros key sol. simpl.
    destruct (decide (key = (m, states, epoch))) as [->|Hne].
    * rewrite dget_dset_eq. intros [= <-]. done.
    * rewrite dget_dset_ne by done. apply Hm1.
Qed.
End search.

(** What [init] keeps of its arguments. *)
Lemma init_fields graph dependencies workers worker_ids plan_choices window_size o s :
  init graph dependencies workers worker_ids plan_choices window_size o = Ok s →
  DPSolver.dependencies s = dependencies ∧ DPSolver.worker_ids s = worker_ids ∧ DPSolver.graph s = graph ∧
  DPSolver.node_ids s = match Options.node_ids o with
                        | Some ns => ns | None => sorted_by str_ltb id (dkeys (GraphSpec.nodes graph)) end ∧
  DPSolver.node_worker_options s =
    ((λ n, (n, dget_or worker_ids n (Options.node_worker_options o))) <$> DPSolver.node_ids s) ∧
  (worker_ids ≠ [] → cpu_pool_workers s ≠ []).
Proof.
  unfold init. intros (mode & _ & H)%result_bind_ok.
  destruct (resolve_gpu_weights _ _) as [max_weight sum_weight]. apply result_bind_ok in H as (kn & _ & H).
  apply result_bind_ok in H as ([gpu cpu] & _ & H). apply result_bind_ok in H as (known & _ & H). injection H as <-. unfold cpu_pool_workers. simpl.
  do 5 (split; [done|]). intros Hne. destruct cpu; [|done]. by destruct worker_ids.
Qed.

Lemma pending_count_le s m : pending_count s m ≤ length (DPSolver.node_ids s).
Proof. apply length_filter. Qed.

Section theorems.
Context (exec_cost_fn : Node.t → Worker.t → result f64).
Context (cache_multiplier_fn : list QuerySignature.t → QueryPlanChoice.t → f64).
Context (model_init_cost_fn : Node.t → option string → result f64).
Context (llm_cache_bonus_fn : Node.t → option string → list string → f64).
Context (epoch_penalty_fn : Z → f64).
Context (float_of_string : string → option f64).

Local Abbreviation solve_dp s := (solve s exec_cost_fn cache_multiplier_fn model_init_cost_fn llm_cache_bonus_fn epoch_penalty_fn float_of_string).

Lemma solve_valid s states sol :
NoDup (DPSolver.node_ids s) → cpu_pool_workers s ≠ [] → solve_dp s states = Ok sol →
valid_from s 0 (Solution.schedule sol).
Proof.
intros Hnd Hpool Hsolve. unfold solve in Hsolve. apply result_bind_ok in Hsolve as (out & Hout & [= <-]).
pose proof (solve_post s exec_cost_fn cache_multiplier_fn model_init_cost_fn llm_cache_bonus_fn epoch_penalty_fn
  float_of_string (λ _, True)) as H.
specialize (H ltac:(done) ltac:(intros n w; by destruct (exec_cost_fn n w))
  ltac:(intros n m; by destruct (model_init_cost_fn n m)) Hnd Hpool (solve_fuel s)
  (DPSolver.enable_batch_shape_pruning s) true 0%Z (default (initial_states s) states) 0%Z [] ltac:(done) ltac:(by left)).
rewrite Hout in H. apply H.
Qed.

(** C31: The solver returns a schedule of the graph: every node has exactly one
  place, a node's known parents run in its own epoch or an earlier one, every
  node has a worker that may run it, and a GPU worker gets at most one GPU
  node in an epoch. *)
Theorem solution_is_a_schedule graph dependencies workers worker_ids plan_choices window_size o s states sol :
init graph dependencies workers worker_ids plan_choices window_size o = Ok s →
NoDup (DPSolver.node_ids s) → worker_ids ≠ [] →
solve_dp s states = Ok sol →
(Solution.schedule sol).*2 ≡ₚ DPSolver.node_ids s ∧
(∀ e w n p, (e, w, n) ∈ Solution.schedule sol → p ∈ dget_or [] n dependencies → p ∈ DPSolver.node_ids s →
   ∃ e' w', (e', w', p) ∈ Solution.schedule sol ∧ (0 <= e' <= e)%Z) ∧
(∀ e w n, (e, w, n) ∈ Solution.schedule sol → may_run s w n) ∧
(∀ e w n n', (e, w, n) ∈ Solution.schedule sol → (e, w, n') ∈ Solution.schedule sol →
   is_gpu s n = true → is_gpu s n' = true → n = n').
Proof.
intros Hinit Hnd Hw Hsolve. destruct (init_fields _ _ _ _ _ _ _ _ Hinit) as (<- & _ & _ & _ & _ & Hpool).
pose proof (solve_valid s states sol Hnd (Hpool Hw) Hsolve) as V. split; [|split; [|split; apply V]].
- apply NoDup_Permutation; [apply V|done|]. intros n. rewrite (vf_nodes _ _ _ V), is_done_none. tauto.
- intros e w n p Hin Hp Hpn. destruct (vf_parents _ _ _ V _ _ _ _ Hin Hp Hpn) as [Hd|(e' & w' & Hin' & Hle)].
  + by rewrite is_done_none in Hd.
  + exists e', w'. split; [done|]. split; [by apply (vf_epochs _ _ _ V _ _ _ Hin')|done].
Qed.

(** C32: The solver ends by itself, whatever the costs are: its recursion within
  one level per node, one for the end and one for the relaxed search, and the
  loops of an epoch (the passes over the CPU nodes, the search for CPU
  ancestors) within the fuel they have, as more fuel changes nothing. *)
Theorem solver_terminates graph dependencies workers worker_ids plan_choices window_size o s states :
init graph dependencies workers worker_ids plan_choices window_size o = Ok s →
NoDup (DPSolver.node_ids s) → worker_ids ≠ [] →
(∀ node w, exec_cost_fn node w ≠ Err RecursionError) →
(∀ node m, model_init_cost_fn node m ≠ Err RecursionError) →
solve_dp s states ≠ Err RecursionError ∧
(∀ m gpu_nodes fuel, S (length (pending_cpu s m)) ≤ fuel →
   fill_passes s fuel [] (pending_cpu s m) (add_nodes s m gpu_nodes) = auto_cpu_batch s m gpu_nodes) ∧
(∀ gpu_nodes fuel, search_fuel s gpu_nodes < fuel → cpu_search s fuel gpu_nodes [] [] = cpu_needed_for_gpu s gpu_nodes).
Proof.
intros Hinit Hnd Hw Hexec Hmodel.
split; [|split; [intros m gpu_nodes fuel Hf; by rewrite auto_cpu_fuel|intros gpu_nodes fuel; apply cpu_needed_fuel]]. destruct (init_fields _ _ _ _ _ _ _ _ Hinit) as (_ & _ & _ & _ & _ & Hpool). specialize (Hpool Hw).
pose proof (solve_post s exec_cost_fn cache_multiplier_fn model_init_cost_fn llm_cache_bonus_fn epoch_penalty_fn
  float_of_string (.≠ RecursionError) ltac:(done)) as H.
assert (Hx : ∀ (r : result f64), r ≠ Err RecursionError → post (λ _, True) (.≠ RecursionError) r).
{ intros [x|e] Hr; [done|]. intros ->. done. }
assert (Hfuel : fuel_needed s (DPSolver.enable_batch_shape_pruning s) true 0 ≤ solve_fuel s).
{ unfold fuel_needed, solve_fuel. pose proof (pending_count_le s 0). case_match; lia. }
specialize (H ltac:(auto) ltac:(auto) Hnd Hpool (solve_fuel s) (DPSolver.enable_batch_shape_pruning s) true 0%Z
  (default (initial_states s) states) 0%Z [] ltac:(done) (or_intror Hfuel)).
unfold solve. destruct (solve_from _ _ _ _ _ _ _ _ _ _ _ _ _ _) as [out|e]; [done|]. simpl in *. by intros [= ->].
Qed.
End theorems.

(** ** An instance: two GPU nodes fed by a retrieval, on two GPU workers and a
    CPU worker *)

Module DpSample.
Definition node (id engine : string) (model : option string) (inputs : list string) (qs : list DBQuery.t) : Node.t :=
Node.mk id "" (Some engine) model None inputs [] qs [].
Definition fetch_query : DBQuery.t := DBQuery.mk "fetch_query" "" [] false [] [] [].
Definition graph : GraphSpec.t :=
GraphSpec.mk "g" "" [("fetch", node "fetch" "db" None [] [fetch_query]);
                     ("draft", node "draft" "vllm" (Some "m1") ["fetch"] []);
                     ("judge", node "judge" "vllm" (Some "m2") ["draft"; "fetch"] [])] [].
Definition dependencies : dict string (list string) :=
[("fetch", []); ("draft", ["fetch"]); ("judge", ["draft"; "fetch"])].
Definition worker (id kind : string) : Worker.t := Worker.mk id kind kind fone [].
Definition workers : dict string Worker.t :=
[("g1", worker "g1" "gpu"); ("g2", worker "g2" "gpu"); ("c1", worker "c1" "cpu")].
Definition options : Options.t :=
Options.mk (Some ["fetch"; "draft"; "judge"]) None None None None None None false false
  [("fetch", ["c1"]); ("draft", ["g1"; "g2"]); ("judge", ["g1"; "g2"])] None None []
  true 1 true true (int_truediv 1 5) None.
Definition exec_cost (n : Node.t) (_ : Worker.t) : result f64 :=
Ok (if bool_decide (Node.engine n = Some "vllm") then of_Z 5 else fone).
Definition multiplier (_ : list QuerySignature.t) (_ : QueryPlanChoice.t) : f64 := fone.
Definition model_init (n : Node.t) (last : option string) : result f64 :=
Ok (if decide (last = Node.model n) then fzero else of_Z 2).
Definition bonus (_ : Node.t) (_ : option string) (_ : list string) : f64 := fone.
Definition penalty (_ : Z) : f64 := fone.
Definition parse_float (_ : string) : option f64 := None.
Definition solver : DPSolver.t :=
match init graph dependencies workers ["g1"; "g2"; "c1"] [] 2 options with
| Ok s => s
| Err _ => DPSolver.mk graph [] [] [] [] 0 [] fzero fzero false false "" fzero fzero fzero false 0 false false fzero fzero
             [] [] [] [] []
end.
Definition solution : result Solution.t := solve solver exec_cost multiplier model_init bonus penalty parse_float None.
End DpSample.

Example dp_sample : Solution.schedule <$> DpSample.solution =
  Ok [(0%Z, "g1", "draft"); (0%Z, "g2", "judge"); (0%Z, "c1", "fetch")].
Proof. vm_compute. reflexivity. Qed.

Lemma solution_is_a_schedule_witness : ∃ sol,
  DpSample.solution = Ok sol ∧
  (Solution.schedule sol).*2 ≡ₚ ["fetch"; "draft"; "judge"] ∧
  ∃ e' w', (e', w', "draft") ∈ Solution.schedule sol ∧ (0 <= e' <= 0)%Z.
Proof.
  destruct DpSample.solution as [sol|] eqn:H; [|exfalso; revert H; vm_compute; discriminate].
  exists sol. split; [done|].
  destruct (solution_is_a_schedule DpSample.exec_cost DpSample.multiplier DpSample.model_init DpSample.bonus
    DpSample.penalty DpSample.parse_float DpSample.graph DpSample.dependencies DpSample.workers ["g1"; "g2"; "c1"] [] 2
    DpSample.options DpSample.solver None sol) as (Hn & Hp & _).
  - vm_compute. reflexivity.
  - apply (bool_decide_unpack _). vm_compute. exact I.
  - done.
  - exact H.
  - split; [exact Hn|]. apply (Hp 0%Z "g2" "judge"); [|by left|apply (bool_decide_unpack _); vm_compute; exact I].
    assert (E : Solution.schedule <$> DpSample.solution =
      Ok [(0%Z, "g1", "draft"); (0%Z, "g2", "judge"); (0%Z, "c1", "fetch")]) by (vm_compute; reflexivity).
    rewrite H in E. injection E as ->. right. left.
Defined.

Lemma solver_terminates_witness :
  DpSample.solution ≠ Err RecursionError ∧ cpu_search DpSample.solver 99 ["judge"] [] [] = ["fetch"].
Proof.
  destruct (solver_terminates DpSample.exec_cost DpSample.multiplier DpSample.model_init DpSample.bonus
    DpSample.penalty DpSample.parse_float DpSample.graph DpSample.dependencies DpSample.workers ["g1"; "g2"; "c1"] [] 2
    DpSample.options DpSample.solver None) as (Hrec & _ & Hsearch).
  - vm_compute. reflexivity.
  - apply (bool_decide_unpack _). vm_compute. exact I.
  - done.
  - done.
  - done.
  - split; [exact Hrec|]. rewrite (Hsearch ["judge"] 99) by (vm_compute; lia). vm_compute. reflexivity.
Defined.
