(* ===== verification/HaloCost.v ===== *)
(** * HALO's cost model and tuning (runtime/optimizer/halo.py, runtime/data_profile_utils.py)

    The costs HALO gives the DP scheduler (model sizes, execution, model
    switches, cache effects), the query plans it reads from data profiles, and
    the weights it derives from the shape of the graph and the worker group.
    [math.sqrt] is correctly rounded and modelled as such; [math.log2] and
    [float(str)] are parameters.  A sum over a Python set is written in the
    order of the keys: its terms are small integers, so that the order does
    not matter. *)

From Stdlib Require Import Ascii.
From S2P Require Import Prelude PyFloat PyDict PyValue PyString RuntimeGraph Cost HaloDp.

(** Decimal literals. *)
Definition lit (digits scale : Z) : f64 := int_truediv digits scale.

(** ** Data profiles (data_profile_models.py) *)

Module DataProfileCostEstimate.
Record t := mk {
plan_id : string;
description : option string;
raw_cost : f64;
estimated_rows : option Z;
estimated_files : option Z;
total_size_bytes : option Z;
avg_file_size_bytes : option f64;
footprints : dict string Z;
explain_json : val;
}.
End DataProfileCostEstimate.

Module DataProfileResultRow.
Record t := mk {
node_id : string;
raw_node_id : string;
query_name : string;
table : string;
cost_estimates : list DataProfileCostEstimate.t;
}.
End DataProfileResultRow.

Definition data_profile_key_for_node_query (node_id query_name : string) : string :=
  "data_profile::" +:+ node_id +:+ "::" +:+ query_name.

(** [coerce_data_profile_footprints] on integer weights. *)
Definition coerce_data_profile_footprints (value : dict string Z) : dict string Z :=
  filter (λ kw, (0 < kw.2)%Z) value.

(** ** Model sizes *)

(** [MODEL_SIZE] with lower-case names. *)
Definition model_size_lookup : dict string f64 :=
  [("stabilityai/stable-diffusion-xl-base-1.0", lit 35 10);
   ("stabilityai/stable-diffusion-3.5-medium", lit 25 10);
   ("stabilityai/stable-diffusion-3.5-large", lit 81 10);
   ("meta-llama/llama-3.2-3b-instruct", lit 3 1);
   ("tongyi-mai/z-image-turbo", lit 6 1);
   ("baai/bge-small-en-v1.5", lit 33 1000)].

(** [(?:[\s_-]?)(billion|bn|b|m)], ignoring case. *)
Fixpoint find_unit (units : list string) (l : list ascii) : option string :=
  match units with
  | [] => None
  | u :: units' =>
      match starts_with (chars u) (lower_ascii <$> l) with
      | Some _ => Some u
      | None => find_unit units' l
      end
  end.

Definition is_separator (c : ascii) : bool := (is_space c || (ascii_code c =? 95)%N || (ascii_code c =? 45)%N)%bool.

Definition suffix_unit (l : list ascii) : option string :=
  let units := ["billion"; "bn"; "b"; "m"] in
  match l with
  | c :: l' => if is_separator c
               then match find_unit units l' with Some u => Some u | None => find_unit units l end
               else find_unit units l
  | [] => None
  end.

(** [(\d+(?:\.\d+)?)] and the unit, after the dash. *)
Definition suffix_at (l : list ascii) : option (Z * Z * string) :=
  let '(whole, rest) := span is_digit l in
  match whole with
  | [] => None
  | _ =>
      let with_frac :=
        match rest with
        | c :: rest' =>
            if (ascii_code c =? 46)%N then
              let '(frac, rest'') := span is_digit rest' in
              match frac with
              | [] => None
              | _ => u ← suffix_unit rest''; Some (digits_value (whole ++ frac), (10 ^ Z.of_nat (length frac))%Z, u)
              end
            else None
        | [] => None
        end in
      match with_frac with
      | Some r => Some r
      | None => u ← suffix_unit rest; Some (digits_value whole, 1%Z, u)
      end
  end.

(** [.+-] is greedy: the last dash of the line that is followed by a size and
    is not the first character of the line; lines are tried in order. *)
Fixpoint search_suffix (line_start : bool) (best : option (Z * Z * string)) (l : list ascii) :
    option (Z * Z * string) :=
  match l with
  | [] => best
  | c :: l' =>
      if (ascii_code c =? 10)%N
      then match best with Some r => Some r | None => search_suffix true None l' end
      else
        let here := if ((ascii_code c =? 45)%N && negb line_start)%bool then suffix_at l' else None in
        search_suffix false (match here with Some r => Some r | None => best end) l'
  end.

(** [_model_size_b] *)
Definition model_size_b (node : Node.t) : result f64 :=
  let missing := Err (ValueError "Halo model size resolution requires a non-empty model name.") in
  match Node.model node with
  | None => missing
  | Some model_name =>
      let normalized := strip model_name in
      if (String.eqb model_name "" || String.eqb normalized "")%bool then missing
      else
        match dget (lower normalized) model_size_lookup with
        | Some size => Ok size
        | None =>
            match search_suffix true None (chars normalized) with
            | Some (digits, scale, unit_) =>
                let raw := decimal_float digits scale in
                Ok (if String.eqb unit_ "m" then fdiv raw (of_Z 1000) else raw)
            | None => Err (ValueError "Halo model size is unknown")
            end
        end
  end.

(** ** The optimizer's state *)

(** The cost parameters that tuning writes and the row count of the graph;
    the others are constants. *)
Module HaloState.
Record t := mk {
model_init_sec_per_b : f64;
llm_base_sec_per_b : f64;
llm_input_sec : f64;
db_input_sec : f64;
input_query_count : Z;
}.
(** [__init__] *)
Definition initial : t := mk (lit 75 100) (lit 25 100) (lit 15 100) (lit 5 100) 1.
End HaloState.

Definition default_model_size_b : f64 := of_Z 20.
Definition DEFAULT_TIMEOUT_SECONDS : Z := 600.

(** [float(z)] of an integer. *)
Definition float_of_int (z : Z) : result f64 := if is_finite (of_Z z) then Ok (of_Z z) else Err OverflowError.

(** ** Costs *)

Section costs.
Context (to_float : val → option f64) (float_of_string : string → option f64).
Context (h : HaloState.t).

(** [len(entry["values"]) if entry["kind"] == "literal" else ...] *)
Definition literal_count (entry : val) : result Z :=
match entry with
| VDict d =>
    kind ← dindex (KeyError "kind") "kind" d;
    if bool_decide (kind = VStr "literal") then
      values ← dindex (KeyError "values") "values" d;
      match values with
      | VList l | VTuple l => Ok (Z.of_nat (length l))
      | VDict d => Ok (Z.of_nat (length d))
      | VStr s => Ok (Z.of_nat (py_len s))
      | _ => Err (TypeError "object has no len()")
      end
    else Ok (HaloState.input_query_count h)
| _ => Err (TypeError "indices must be integers")
end.

(** [_python_row_count] *)
Definition python_row_count (raw : dict string val) : result Z :=
match vget "row_count" raw with
| VInt n => Ok n
| _ =>
    match vget "plan" raw with
    | VList plan =>
        counts ← mapR literal_count plan;
        Ok (foldr Z.max 1%Z counts)
    | _ => Ok (Z.max 1 (HaloState.input_query_count h))
    end
end.

(** [_python_exec_cost] *)
Definition python_exec_cost (node : Node.t) : result f64 :=
let raw := Node.raw node in
let hinted (expected : result f64) :=
  expected ← expected; rows ← python_row_count raw; rows ← float_of_int rows; Ok (fmul expected rows) in
match vget "expected_runtime_s" raw with
| VInt z => hinted (float_of_int z)
| VFloat x => hinted (Ok x)
| _ =>
    timeout ← (match vget "timeout_s" raw with
               | VInt z => float_of_int z
               | VBool b => Ok (of_Z (if b then 1 else 0))
               | VFloat x => Ok x
               | _ => Ok (of_Z DEFAULT_TIMEOUT_SECONDS)
               end);
    Ok (fmul (lit 5 100) timeout)
end.

(** [_http_exec_cost] *)
Definition http_exec_cost (node : Node.t) : result f64 := latency_seconds float_of_string latency_keys (Node.raw node).

Definition coefficients : MultimodalCostCoefficients.t :=
MultimodalCostCoefficients.mk (HaloState.llm_base_sec_per_b h) (HaloState.llm_input_sec h)
  (lit 10 100) (lit 8 100) (lit 30 100) (lit 25 100) (lit 20 100) (lit 5 100).

(** [_exec_cost] *)
Definition exec_cost (node : Node.t) (_ : Worker.t) : result f64 :=
let engine_is e := bool_decide (Node.engine node = Some e) in
if engine_is "vllm" then
  size_b ← model_size_b node;
  compute_gpu_exec_cost to_float
    (Cost.Node.mk (Node.id node) (Node.type node) (default "" (Node.model node)) (Node.raw node))
    size_b (HaloState.input_query_count h) coefficients
else if engine_is "http" then http_exec_cost node
else if engine_is "python" then python_exec_cost node
else Ok (fmul (HaloState.db_input_sec h) (of_Z (HaloState.input_query_count h))).

(** [_model_init_cost] *)
Definition model_init_cost (node : Node.t) (last_model : option string) : result f64 :=
if bool_decide (Node.engine node = Some "vllm") then
  if bool_decide (last_model = Some (default "" (Node.model node))) then Ok fzero
  else size_b ← model_size_b node; Ok (fmul (HaloState.model_init_sec_per_b h) size_b)
else Ok fzero.
End costs.

(** [_cache_multiplier] *)
Definition overlap_step (base_fp : dict string Z) (overlap : f64) (nw : string * Z) : f64 :=
  match dget nw.1 base_fp with
  | Some b => fadd overlap (of_Z (Z.min nw.2 b))
  | None => overlap
  end.

Definition cache_multiplier (window : list QuerySignature.t) (choice : QueryPlanChoice.t) : f64 :=
  match QueryPlanChoice.footprints choice, window with
  | [], _ | _, [] => fone
  | base_fp, _ =>
      let overlap := foldl (λ acc sig, foldl (overlap_step base_fp) acc (dict_of (QuerySignature.footprints sig)))
                       fzero window in
      if fleb overlap fzero then fone else fmax2 (lit 5 10) (fsub fone (fmul (lit 1 100) overlap))
  end.

(** [_llm_cache_bonus] *)
Definition llm_cache_bonus (_ : Node.t) (last_node : option string) (parents : list string) : f64 :=
  match parents, last_node with
  | [], _ | _, None | _, Some "" => fone
  | _, Some n => if decide (n ∈ parents) then lit 9 10 else fone
  end.

(** [_epoch_penalty] *)
Definition epoch_penalty (epoch : Z) : f64 := fmul fone (fadd fone (fmul (lit 1 10) (of_Z (Z.max 0 epoch)))).

(** ** The rows of the inputs *)

(** [_collect_input_lengths] *)
Fixpoint collect_input_lengths (v : val) : list Z :=
  match v with
  | VDict d =>
      (match dget "type" d, dget "items" d with
       | Some (VStr "list"), Some (VList items) => [Z.of_nat (length items)]
       | _, _ => []
       end) ++ concat ((λ kv : string * val, collect_input_lengths kv.2) <$> d)
  | VList l => concat (collect_input_lengths <$> l)
  | _ => []
  end.

(** [_resolve_input_query_count] *)
Definition resolve_input_query_count (g : RuntimeGraph.t) : Z :=
  let lengths := concat ((λ op, collect_input_lengths (VDict (RuntimeOp.data_spec op))) <$> dvals (RuntimeGraph.nodes g)) in
  let inferred := match lengths with [] => 0%Z | x :: l => foldr Z.max x l end in
  let resolved := if (0 <? inferred)%Z then inferred else 1%Z in
  Z.max 1 resolved.

(** ** Query plans *)

(** [_plan_choice_score] *)
Definition plan_choice_score (choice : QueryPlanChoice.t) : f64 * string :=
  (default finf (QueryPlanChoice.raw_cost choice), QueryPlanChoice.plan_id choice).
Definition score_lt (a b : f64 * string) : bool := lex_lt feqb fltb str_ltb a b.

Definition add_estimate (node_id : string) (by_plan_id : dict string QueryPlanChoice.t)
    (ie : nat * DataProfileCostEstimate.t) : dict string QueryPlanChoice.t :=
  let '(idx, estimate) := ie in
  let or_else (s default : string) := if String.eqb s "" then default else s in
  let plan_id := or_else (DataProfileCostEstimate.plan_id estimate) (node_id +:+ "-data-profile-" +:+ str_of_nat idx) in
  let choice := QueryPlanChoice.mk plan_id
    (or_else (default "" (DataProfileCostEstimate.description estimate)) "data profile") None
    (Some (DataProfileCostEstimate.raw_cost estimate)) (DataProfileCostEstimate.explain_json estimate)
    (coerce_data_profile_footprints (DataProfileCostEstimate.footprints estimate)) in
  match dget plan_id by_plan_id with
  | Some existing =>
      if score_lt (plan_choice_score choice) (plan_choice_score existing) then dset plan_id choice by_plan_id
      else by_plan_id
  | None => dset plan_id choice by_plan_id
  end.

(** [_build_data_profile_choices] *)
Definition build_data_profile_choices (node_id : string) (estimates : list DataProfileCostEstimate.t) :
    list QueryPlanChoice.t :=
  sorted_by score_lt plan_choice_score
    (dvals (foldl (add_estimate node_id) [] (zip (seq 0 (length estimates)) estimates))).

(** [_retrieval_is_data_profile_eligible] *)
Definition is_profiled_kind (v : val) : bool := bool_decide (v = VStr "sql" ∨ v = VStr "s3").
Definition retrieval_is_data_profile_eligible (data_spec : dict string val) : bool :=
  (is_profiled_kind (vget "type" data_spec) ||
   bool_decide (vget "type" data_spec = VStr "lumid") && is_profiled_kind (vget "mode" data_spec))%bool.

(** [_extract_data_profile_choices_for_op] *)
Definition extract_data_profile_choices_for_op (node_id : string) (op : RuntimeOp.t)
    (results : dict string (list DataProfileResultRow.t)) : list QueryPlanChoice.t :=
  if retrieval_is_data_profile_eligible (RuntimeOp.data_spec op) then
    let rows := dget_or [] (data_profile_key_for_node_query node_id (node_id +:+ "_query")) results in
    match concat (DataProfileResultRow.cost_estimates <$> rows) with
    | [] => []
    | estimates => build_data_profile_choices node_id estimates
    end
  else [].

(** [_parse_data_profile_results]; [validate_row] is pydantic's validation. *)
Section parse_results.
Context (validate_row : val → option DataProfileResultRow.t).

Definition parse_row (row : val + DataProfileResultRow.t) : result DataProfileResultRow.t :=
match row with
| inr r => Ok r
| inl v => ok_or (RuntimeError "Invalid data profile result row") (validate_row v)
end.

Definition parse_step (parsed : dict string (list DataProfileResultRow.t))
  (kr : string * list (val + DataProfileResultRow.t)) : result (dict string (list DataProfileResultRow.t)) :=
rows ← mapR parse_row kr.2;
Ok (match rows with [] => parsed | _ => dset kr.1 rows parsed end).

Definition parse_data_profile_results (results : option (dict string (list (val + DataProfileResultRow.t)))) :
  result (dict string (list DataProfileResultRow.t)) :=
match results with None | Some [] => Ok [] | Some rs => foldR parse_step [] rs end.
End parse_results.

(** ** Tuning *)

Module HaloTuningContext.
Record t := mk {
input_query_count : Z;
total_nodes : Z;
gpu_nodes : Z;
db_nodes : Z;
gpu_workers : Z;
cpu_workers : Z;
unique_models : Z;
switch_pressure : f64;
dominant_model_size_b : f64;
db_query_count : Z;
plan_variants_min : Z;
plan_variants_avg : f64;
plan_variants_max : Z;
reuse_signal : f64;
}.
End HaloTuningContext.

Module HaloCostModelParams.
Record t := mk { model_init_sec_per_b : f64; llm_base_sec_per_b : f64; llm_input_sec : f64; db_input_sec : f64 }.
End HaloCostModelParams.

Module HaloDPTuningParams.
Record t := mk {
window_size : Z;
cpu_load_cost_weight : f64;
cpu_load_early_weight : f64;
cpu_cost_mode : string;
switch_penalty_weight : f64;
gpu_cost_max_weight : f64;
gpu_cost_sum_weight : f64;
disable_epoch_batch_cost : bool;
disable_cpu_load_cost : bool;
enable_batch_shape_pruning : bool;
gpu_batch_slack : Z;
enable_lower_bound_pruning : bool;
enable_worker_symmetry : bool;
lower_bound_cost_factor : f64;
gpu_depth_cost_weight : f64;
}.
End HaloDPTuningParams.

(** [_clamp] *)
Definition clamp (value low high : f64) : f64 := fmax2 low (fmin2 high value).

(** [_footprint_overlap] *)
Definition footprint_overlap (left right : dict string Z) : f64 :=
  match left, right with
  | [], _ | _, [] => fzero
  | _, _ =>
      let union := dkeys left ++ filter (.∉ dkeys left) (dkeys right) in
      let weights key := (dget_or 0%Z key left, dget_or 0%Z key right) in
      let overlap := foldl (λ acc key, fadd acc (of_Z (Z.min (weights key).1 (weights key).2))) fzero union in
      let total := foldl (λ acc key, fadd acc (of_Z (Z.max (weights key).1 (weights key).2))) fzero union in
      if fleb total fzero then fzero else fmax2 fzero (fmin2 fone (fdiv overlap total))
  end.

Abbreviation plan_choices_t := (dict (string * string) (list QueryPlanChoice.t)).

Fixpoint max_overlap (best : f64) (choices : list QueryPlanChoice.t) : f64 :=
  match choices with
  | [] => best
  | c :: choices' =>
      max_overlap (foldl (λ best c', let o := footprint_overlap (QueryPlanChoice.footprints c) (QueryPlanChoice.footprints c') in
                                     if fltb best o then o else best) best choices') choices'
  end.

Definition mean (l : list f64) : f64 := fdiv (py_sum l) (of_Z (Z.of_nat (length l))).

(** [_data_profile_reuse_signal] *)
Definition data_profile_reuse_signal (plan_choices : plan_choices_t) : f64 :=
  match filter (λ o, fltb fzero o = true) (max_overlap fzero <$> dvals plan_choices) with
  | [] => fzero
  | scores => mean scores
  end.

Definition is_gpu_kind (w : Worker.t) : bool := String.eqb (Worker.kind w) "gpu".
Definition count {A} (p : A → bool) (l : list A) : Z := Z.of_nat (length (filter (λ x, p x = true) l)).
Definition is_vllm (n : Node.t) : bool := bool_decide (Node.engine n = Some "vllm").

(** [_build_tuning_context] *)
Definition build_tuning_context (h : HaloState.t) (halo_graph : GraphSpec.t) (workers : dict string Worker.t)
    (plan_choices : plan_choices_t) : result HaloTuningContext.t :=
  let nodes := dvals (GraphSpec.nodes halo_graph) in
  let gpu := filter (λ n, is_vllm n = true) nodes in
  let gpu_nodes := Z.of_nat (length gpu) in
  let gpu_workers := count is_gpu_kind (dvals workers) in
  let cpu_workers := Z.max 1 (count (λ w, negb (is_gpu_kind w)) (dvals workers)) in
  let model_names := remove_dups (omap (λ n, match Node.model n with
                                             | Some "" | None => None
                                             | Some m => Some (strip m)
                                             end) gpu) in
  let unique_models := Z.of_nat (length model_names) in
  sizes ← mapR model_size_b gpu;
  let plan_sizes := (λ c, Z.of_nat (length c)) <$> dvals plan_choices in
  let plan_total := foldr Z.add 0%Z plan_sizes in
  Ok (HaloTuningContext.mk (Z.max 1 (HaloState.input_query_count h)) (Z.of_nat (length nodes)) gpu_nodes
        (count (λ n, negb (is_vllm n)) nodes) (Z.max 1 gpu_workers) (Z.max 1 cpu_workers) unique_models
        (int_truediv unique_models (Z.max 1 (Z.min gpu_nodes gpu_workers)))
        (match sizes with [] => default_model_size_b | _ => mean sizes end)
        (Z.of_nat (length plan_choices))
        (match plan_sizes with [] => 0%Z | x :: l => foldr Z.min x l end)
        (match plan_sizes with [] => fzero | _ => int_truediv plan_total (Z.of_nat (length plan_sizes)) end)
        (match plan_sizes with [] => 0%Z | x :: l => foldr Z.max x l end)
        (data_profile_reuse_signal plan_choices)).

Section tuning.
(** [math.log2] *)
Context (log2 : f64 → f64).
Context (context : HaloTuningContext.t).

Definition db_ratio : f64 :=
fdiv (of_Z (HaloTuningContext.db_nodes context)) (fmax2 fone (of_Z (HaloTuningContext.total_nodes context))).

(** [max(0.0, x - 1.0)] *)
Definition above_one (x : f64) : f64 := fmax2 fzero (fsub x fone).

(** [_resolve_cost_model_params] *)
Definition resolve_cost_model_params : HaloCostModelParams.t :=
let gpu_scale := fsqrt (fdiv (of_Z 3) (fmax2 fone (of_Z (HaloTuningContext.gpu_workers context)))) in
let model_scale := clamp (fdiv (HaloTuningContext.dominant_model_size_b context) (of_Z 20)) (lit 6 10) (of_Z 2) in
let query_scale := clamp (log2 (fadd (of_Z (HaloTuningContext.input_query_count context)) fone)) fzero (of_Z 6) in
let query_extra := above_one query_scale in
let switch_extra := above_one (HaloTuningContext.switch_pressure context) in
HaloCostModelParams.mk
  (clamp (fmul (fmul (fmul (lit 25 10) model_scale) (fadd fone (fmul (lit 35 100) switch_extra))) gpu_scale)
     (lit 15 10) (of_Z 5))
  (clamp (fmul (fmul (lit 25 100) model_scale) gpu_scale) (lit 10 100) (lit 80 100))
  (clamp (fmul (lit 15 100) (fadd fone (fmul (lit 8 100) query_extra))) (lit 10 100) (lit 35 100))
  (clamp (fmul (lit 5 100) (fadd (fadd fone (fmul (lit 12 10) db_ratio)) (fmul (lit 5 100) query_extra)))
     (lit 3 100) (lit 30 100)).

(** [_resolve_dp_tuning] *)
Definition resolve_dp_tuning : HaloDPTuningParams.t :=
let reuse_strong := (fleb (lit 25 100) (HaloTuningContext.reuse_signal context) &&
                     fltb (lit 13 10) (HaloTuningContext.plan_variants_avg context))%bool in
let '(max_weight, sum_weight) :=
  if (HaloTuningContext.gpu_workers context <=? 1)%Z then (fone, fzero) else (lit 93 100, lit 7 100) in
let large := (32 <? HaloTuningContext.total_nodes context)%Z in
HaloDPTuningParams.mk (if reuse_strong then 2 else 1)
  (clamp (fadd (lit 35 100) (fmul (lit 90 100) db_ratio)) (lit 25 100) (lit 125 100))
  (clamp (fadd (lit 8 10) (fmul (lit 16 10) db_ratio)) (lit 5 10) (lit 25 10))
  "default"
  (clamp (fadd (lit 8 100) (fmul (lit 20 100) (above_one (HaloTuningContext.switch_pressure context)))) (lit 5 100)
     (lit 30 100))
  max_weight sum_weight false false true (if large then 0 else 1) true true
  (if large then lit 25 100 else lit 20 100)
  (clamp (fadd (lit 5 10) (fmul fone (fmax2 fzero (fsub db_ratio (lit 3 10))))) (lit 5 10) (lit 16 10)).
End tuning.

(** [_apply_cost_model_params] *)
Definition apply_cost_model_params (h : HaloState.t) (params : HaloCostModelParams.t) : HaloState.t :=
  HaloState.mk (HaloCostModelParams.model_init_sec_per_b params) (HaloCostModelParams.llm_base_sec_per_b params)
    (HaloCostModelParams.llm_input_sec params) (HaloCostModelParams.db_input_sec params)
    (HaloState.input_query_count h).

(** [_resolve_and_apply_tuning] *)
Definition resolve_and_apply_tuning (log2 : f64 → f64) (h : HaloState.t) (halo_graph : GraphSpec.t)
    (workers : dict string Worker.t) (plan_choices : plan_choices_t) : result (HaloState.t * HaloDPTuningParams.t) :=
  context ← build_tuning_context h halo_graph workers plan_choices;
  Ok (apply_cost_model_params h (resolve_cost_model_params log2 context), resolve_dp_tuning context).

(** ** Facts *)

Example sizes :
  (λ m, model_size_b (Node.mk "n" "" None (Some m) None [] [] [] [])) <$> ["Qwen/Qwen2.5-1.5B-Instruct"; "gpt2-560M"; "qwen_7b"] =
  [Ok (lit 15 10); Ok (lit 56 100); Err (ValueError "Halo model size is unknown")].
Proof. vm_compute. reflexivity. Qed.

(** cost.py reads a size anywhere in a name, HALO only after a dash. *)
Example size_readings_differ : Cost.model_size_b "qwen_7b" (of_Z 20) = of_Z 7.
Proof. vm_compute. reflexivity. Qed.
