(* ===== verification/Halo.v ===== *)
(** * The HALO optimizer (runtime/optimizer/halo.py)

    [generate_schedule] turns a runtime graph and a worker group into an
    instance of the DP scheduler, solves it and reads the schedule off the
    epochs.  The weights and costs are in [HaloCost]; logging is left out. *)

From S2P Require Import Prelude PyFloat PyDict Grouping PyValue PyString TopoSort RuntimeGraph Capacity Cost Schedule HaloDp HaloDpFacts HaloDpProps HaloCost.

(** ** Engines *)

(** [_is_gpu_backend] *)
Definition is_gpu_backend (backend : string) : bool := bool_decide (norm backend ∈ GPU_BACKENDS).

(** [_map_engine] *)
Definition map_engine (backend task_type : string) : result string :=
  let b := norm backend in
  if is_gpu_backend b then Ok "vllm"
  else if (String.eqb b "http" || String.eqb b "api")%bool then Ok "http"
  else if String.eqb b "data_retrieval" then Ok "db"
  else if String.eqb b "python" then Ok "python"
  else if String.eqb b "data_profiling"
       then Err (ValueError "Halo optimizer does not support data_profiling nodes in optimized graphs.")
  else Err (ValueError "Halo optimizer only supports backends").

Definition op_of (g : RuntimeGraph.t) (node_id : string) : result RuntimeOp.t :=
  dindex (KeyError node_id) node_id (RuntimeGraph.nodes g).

(** [_assert_no_http_nodes] *)
Definition assert_no_http_nodes (g : RuntimeGraph.t) : result unit :=
  flags ← mapR (λ n, op ← op_of g n; Ok (String.eqb (norm (RuntimeOp.backend op)) "http")) (RuntimeGraph.node_order g);
  if existsb id flags then Err (ValueError "Halo optimizer does not support HTTP nodes by design.") else Ok tt.

(** [_validate_supported_runtime_nodes] *)
Definition validate_supported (g : RuntimeGraph.t) (_ : unit) (node_id : string) : result unit :=
  op ← op_of g node_id;
  match map_engine (RuntimeOp.backend op) (RuntimeOp.task_type op) with
  | Err (ValueError _) => Err (ValueError "Halo optimizer encountered unsupported runtime node")
  | Err e => Err e
  | Ok engine =>
      if (String.eqb engine "db" &&
          negb (String.eqb (norm (RuntimeOp.backend op)) "data_retrieval" &&
                String.eqb (norm (RuntimeOp.task_type op)) "data_retrieval"))%bool
      then Err (ValueError "Halo optimizer only supports data_retrieval nodes on CPU.")
      else Ok tt
  end.
Definition validate_supported_runtime_nodes (g : RuntimeGraph.t) : result unit :=
  foldR (validate_supported g) tt (RuntimeGraph.node_order g).

(** ** Workers *)

Section workers.
Context (worker_profiles : dict string (dict string val)).

Definition profile_of (name : string) : dict string val := dget_or [] name worker_profiles.
Definition profile_has_gpu (name : string) : bool := truthy (vget "has_gpu" (profile_of name)).

(** [_validate_task_type_workers] *)
Definition validate_task_type_workers (g : RuntimeGraph.t) (worker_names : list string) : result unit :=
let cpu_names := filter (λ name, profile_has_gpu name = false) worker_names in
let advertised := concat ((λ name, advertised_task_types (profile_of name)) <$> cpu_names) in
let needed := required_task_types (RuntimeOp.task_type <$> dvals (RuntimeGraph.nodes g)) in
match filter (.∉ advertised) needed with
| [] => Ok tt
| _ => Err (ValueError "none of the selected CPU workers advertises the task type.")
end.

Definition build_worker (name : string) : Worker.t :=
let kind := if profile_has_gpu name then "gpu" else "cpu" in
Worker.mk name kind (if profile_has_gpu name then "cuda:0" else "cpu") fone (advertised_task_types (profile_of name)).

(** [_build_workers] *)
Definition build_workers (worker_names : list string) (g : RuntimeGraph.t) : result (dict string Worker.t) :=
let workers := dict_of ((λ name, (name, build_worker name)) <$> worker_names) in
if (existsb (λ op, is_gpu_backend (RuntimeOp.backend op)) (dvals (RuntimeGraph.nodes g)) &&
    negb (existsb is_gpu_kind (dvals workers)))%bool
then Err (ValueError "Halo DP requires at least one GPU worker because the graph contains GPU nodes.")
else Ok workers.
End workers.

Definition workers_of_kind (gpu : bool) (workers : dict string Worker.t) : list string :=
  (filter (λ kw : string * Worker.t, is_gpu_kind kw.2 = gpu) workers).*1.

(** The workers an engine runs on. *)
Definition candidates (workers : dict string Worker.t) (node : Node.t) : result (list string) :=
  let engine_is e := bool_decide (Node.engine node = Some e) in
  if engine_is "vllm" then Ok (workers_of_kind true workers)
  else if (engine_is "db" && String.eqb (Node.type node) "data_retrieval")%bool then Ok (workers_of_kind false workers)
  else if engine_is "http" then Ok (workers_of_kind false workers)
  else if engine_is "python" then Ok (workers_of_kind false workers)
  else Err (ValueError "Unsupported node for Halo worker assignment").

Definition worker_runs (workers : dict string Worker.t) (type w : string) : bool :=
  match dget w workers with Some worker => bool_decide (type ∈ Worker.task_types worker) | None => false end.

(** [_build_node_worker_options] at a node *)
Definition node_options (workers : dict string Worker.t) (node : Node.t) : result (list string) :=
  tier ← candidates workers node;
  let tier := if decide (Node.type node ∈ CAPABILITY_GATED_TASK_TYPES)
              then filter (λ w, worker_runs workers (Node.type node) w = true) tier else tier in
  match tier with
  | [] => Err (ValueError "No compatible workers for node")
  | _ => Ok (sorted_by str_ltb id tier)
  end.

(** [_build_node_worker_options] *)
Definition build_node_worker_options (graph : GraphSpec.t) (workers : dict string Worker.t) :
    result (dict string (list string)) :=
  mapR (λ kn : string * Node.t, options ← node_options workers kn.2; Ok (kn.1, options)) (GraphSpec.nodes graph).

(** ** The graph *)

(** [_build_node_raw] *)
Definition build_node_raw (op : RuntimeOp.t) (deps : list string) : dict string val :=
  let raw := RuntimeOp.data_spec op in
  let raw := match RuntimeOp.inference_spec op with
             | [] => raw
             | spec => dset "_inference_spec" (VDict spec) raw
             end in
  match deps with
  | [] => raw
  | d :: _ => if dmem "parent" raw then raw else dset "parent" (VStr d) raw
  end.

Definition sql_template (op : RuntimeOp.t) : string :=
  match vget "template" (RuntimeOp.data_spec op) with VStr t => t | _ => "" end.

Definition halo_node (node_id : string) (op : RuntimeOp.t) (engine : string) : Node.t :=
  let deps := RuntimeOp.dependencies op in
  let db_queries := if String.eqb engine "db"
                    then [DBQuery.mk (node_id +:+ "_query") (sql_template op) [] false [] [] []] else [] in
  Node.mk node_id (RuntimeOp.task_type op) (Some engine) (Some (RuntimeOp.model op)) None deps [] db_queries
    (build_node_raw op deps).

Record halo_parts := HaloParts {
  hp_dependencies : dict string (list string);
  hp_nodes : dict string Node.t;
  hp_edges : list Edge.t;
}.

Definition add_halo_node (g : RuntimeGraph.t) (p : halo_parts) (node_id : string) : result halo_parts :=
  op ← op_of g node_id;
  engine ← map_engine (RuntimeOp.backend op) (RuntimeOp.task_type op);
  let deps := RuntimeOp.dependencies op in
  Ok (HaloParts (dset node_id deps (hp_dependencies p)) (dset node_id (halo_node node_id op engine) (hp_nodes p))
        (hp_edges p ++ ((λ dep, Edge.mk dep node_id []) <$> deps))).

Definition halo_graph (p : halo_parts) : GraphSpec.t :=
  GraphSpec.mk "lumilake_runtime" "Runtime graph for Halo DP optimizer" (hp_nodes p) (hp_edges p).

(** [_is_data_profile_candidate] *)
Definition is_data_profile_candidate (op : RuntimeOp.t) : result bool :=
  engine ← map_engine (RuntimeOp.backend op) (RuntimeOp.task_type op);
  Ok (String.eqb engine "db" && retrieval_is_data_profile_eligible (RuntimeOp.data_spec op))%bool.

Definition plan_step (g : RuntimeGraph.t) (results : dict string (list DataProfileResultRow.t))
    (plan_choices : plan_choices_t) (node_id : string) : result plan_choices_t :=
  op ← op_of g node_id;
  candidate ← is_data_profile_candidate op;
  Ok (if (candidate : bool) then
        match extract_data_profile_choices_for_op node_id op results with
        | [] => plan_choices
        | choices => dset (node_id, node_id +:+ "_query") choices plan_choices
        end
      else plan_choices).

(** [_build_data_profile_plan_choices] *)
Definition build_data_profile_plan_choices (g : RuntimeGraph.t) (results : dict string (list DataProfileResultRow.t)) :
    result plan_choices_t :=
  foldR (plan_step g results) [] (RuntimeGraph.node_order g).

(** ** The schedule *)

Definition item_key (g : RuntimeGraph.t) (item : placed) : Z * (Z * string) :=
  (item.1.1, (dget_or 1000000000%Z item.2 (RuntimeGraph.order_index g), item.1.2)).
Definition item_lt (a b : Z * (Z * string)) : bool := lex_lt Z.eqb Z.ltb (lex_lt Z.eqb Z.ltb str_ltb) a b.

Definition group_item (grouped : worker_assignment) (item : placed) : worker_assignment :=
  append_to item.1.2 item.2 grouped.

(** [_group_schedule_by_worker] *)
Definition group_schedule_by_worker (schedule : list placed) (worker_ids : list string) (g : RuntimeGraph.t) :
    worker_assignment :=
  foldl group_item (dict_of ((λ w, (w, [])) <$> worker_ids)) (sorted_by item_lt (item_key g) schedule).

(** [_validate_schedule] *)
Definition validate_own_schedule (schedule : worker_assignment) (g : RuntimeGraph.t) (worker_ids : list string) :
    result unit :=
  if negb (same_set (dkeys schedule) worker_ids) then Err (ValueError "Halo schedule worker mismatch.")
  else
    let flattened := concat ((λ w, dget_or [] w schedule) <$> worker_ids) in
    if negb (bool_decide (NoDup flattened)) then Err (ValueError "Halo schedule has duplicate nodes")
    else if negb (same_set flattened (dkeys (RuntimeGraph.nodes g))) then Err (ValueError "Halo schedule mismatch.")
    else Ok tt.

(** ** [generate_schedule] *)

Section generate.
Context (to_float : val → option f64) (float_of_string : string → option f64) (log2 : f64 → f64).
Context (validate_row : val → option DataProfileResultRow.t).
(** [LUMILAKE_DISABLE_DATA_PROFILE] *)
Context (disable_data_profile : bool).

Definition dp_options (g : RuntimeGraph.t) (p : HaloDPTuningParams.t) (options : dict string (list string))
  (gpu_worker_ids cpu_worker_ids : list string) : Options.t :=
Options.mk (Some (RuntimeGraph.node_order g)) (Some (HaloDPTuningParams.cpu_load_cost_weight p))
  (Some (HaloDPTuningParams.cpu_load_early_weight p)) (Some (HaloDPTuningParams.cpu_cost_mode p))
  (Some (HaloDPTuningParams.switch_penalty_weight p)) (Some (HaloDPTuningParams.gpu_cost_max_weight p))
  (Some (HaloDPTuningParams.gpu_cost_sum_weight p)) (HaloDPTuningParams.disable_epoch_batch_cost p)
  (HaloDPTuningParams.disable_cpu_load_cost p) options (Some gpu_worker_ids) (Some cpu_worker_ids) []
  (HaloDPTuningParams.enable_batch_shape_pruning p) (HaloDPTuningParams.gpu_batch_slack p)
  (HaloDPTuningParams.enable_lower_bound_pruning p) (HaloDPTuningParams.enable_worker_symmetry p)
  (HaloDPTuningParams.lower_bound_cost_factor p) (Some (HaloDPTuningParams.gpu_depth_cost_weight p)).

(** The body of the [try] block. *)
Definition solve_halo (g : RuntimeGraph.t) (h : HaloState.t) (workers_input : list string)
  (worker_profiles : dict string (dict string val)) (results : dict string (list DataProfileResultRow.t)) :
  result worker_assignment :=
parts ← foldR (add_halo_node g) (HaloParts [] [] []) (RuntimeGraph.node_order g);
workers ← build_workers worker_profiles workers_input g;
let worker_ids := dkeys workers in
options ← build_node_worker_options (halo_graph parts) workers;
let gpu_worker_ids := workers_of_kind true workers in
let cpu_worker_ids := match workers_of_kind false workers with [] => worker_ids | ws => ws end in
plan_choices ← build_data_profile_plan_choices g results;
tuned ← resolve_and_apply_tuning log2 h (halo_graph parts) workers plan_choices;
let '(h, dp) := tuned in
solver ← init (halo_graph parts) (hp_dependencies parts) workers worker_ids plan_choices
           (HaloDPTuningParams.window_size dp) (dp_options g dp options gpu_worker_ids cpu_worker_ids);
solution ← solve solver (exec_cost to_float float_of_string h) cache_multiplier (model_init_cost h) llm_cache_bonus
             epoch_penalty float_of_string (Some (imap (λ i _, WorkerState.mk i (-1) (-1)) worker_ids));
let worker_assignment := group_schedule_by_worker (Solution.schedule solution) worker_ids g in
_ ← validate_own_schedule worker_assignment g worker_ids;
Ok worker_assignment.

Definition workers_input (worker_names : list string) : list string :=
strip <$> filter (λ name, blank name = false) worker_names.

Definition generate_schedule (g : RuntimeGraph.t) (worker_names : list string)
  (worker_profiles : dict string (dict string val))
  (data_profile_results : option (dict string (list (val + DataProfileResultRow.t)))) : result worker_assignment :=
match workers_input worker_names with
| [] => Err (ValueError "HaloOptimizer requires at least one worker")
| workers =>
    match RuntimeGraph.nodes g with
    | [] => Ok (dict_of ((λ w, (w, [])) <$> workers))
    | _ =>
        _ ← assert_no_http_nodes g;
        _ ← validate_supported_runtime_nodes g;
        _ ← validate_task_type_workers worker_profiles g workers;
        let h := HaloState.mk (HaloState.model_init_sec_per_b HaloState.initial)
                   (HaloState.llm_base_sec_per_b HaloState.initial) (HaloState.llm_input_sec HaloState.initial)
                   (HaloState.db_input_sec HaloState.initial) (resolve_input_query_count g) in
        results ← (if disable_data_profile then Ok [] else parse_data_profile_results validate_row data_profile_results);
        match solve_halo g h workers worker_profiles results with
        | Ok s => Ok s
        | Err _ => Err (RuntimeError "Halo optimizer failed to generate schedule")
        end
    end
end.
End generate.
