(* ===== verification/HaloProps.v ===== *)
(** * Properties of the HALO optimizer

    A schedule HALO returns passes its own test and the scheduler's, runs
    every node on a worker of the right kind that has the capability, and on
    each worker after the nodes of that worker it depends on. *)

From S2P Require Import Prelude PyFloat PyDict Grouping PyValue PyString TopoSort RuntimeGraph Capacity Cost Schedule HaloDp HaloDpFacts HaloDpProps HaloCost Halo.

(** ** The instance that is solved *)

Lemma add_nodes_spec g order p p' :
  foldR (add_halo_node g) p order = Ok p' → NoDup order → (∀ n, n ∈ order → n ∉ dkeys (hp_nodes p)) →
  dkeys (hp_nodes p') = dkeys (hp_nodes p) ++ order ∧
  ∀ n, dget n (hp_nodes p) = None → n ∈ order → ∃ op engine,
    dget n (RuntimeGraph.nodes g) = Some op ∧ map_engine (RuntimeOp.backend op) (RuntimeOp.task_type op) = Ok engine ∧
    dget n (hp_nodes p') = Some (halo_node n op engine) ∧
    dget n (hp_dependencies p') = Some (RuntimeOp.dependencies op).
Proof.
  revert p. induction order as [|n order IH]; intros p H Hnd Hfresh; simpl in H.
  { injection H as <-. rewrite app_nil_r. split; [done|]. by intros n _ ?%not_elem_of_nil. }
  apply result_bind_ok in H as (p1 & Hstep & H). apply NoDup_cons in Hnd as [Hn Hnd].
  unfold add_halo_node in Hstep. apply result_bind_ok in Hstep as (op & Hop & Hstep).
  apply result_bind_ok in Hstep as (engine & Hengine & [= <-]). apply ok_or_ok in Hop.
  assert (Hnew : n ∉ dkeys (hp_nodes p)) by (apply Hfresh; left).
  destruct (IH _ H Hnd) as [Hkeys Hget]; simpl.
  { intros m Hm. rewrite elem_of_dkeys_dset. intros [->|Hm']; [done|]. by apply (Hfresh m); [right|]. }
  simpl in Hkeys, Hget. rewrite dset_new in Hkeys by done. split.
  { rewrite Hkeys. unfold dkeys. rewrite fmap_app. by rewrite <-app_assoc. }
  intros m Hm [->|Hin]%elem_of_cons.
  - exists op, engine. split; [done|]. split; [done|].
    assert (Hkeep : ∀ order p p', foldR (add_halo_node g) p order = Ok p' → n ∉ order →
      dget n (hp_nodes p') = dget n (hp_nodes p) ∧ dget n (hp_dependencies p') = dget n (hp_dependencies p)).
    { clear. induction order as [|x order IH]; intros p p' H Hx; simpl in H; [by injection H as <-|].
      apply not_elem_of_cons in Hx as [Hne Hx]. apply result_bind_ok in H as (p1 & Hstep & H).
      unfold add_halo_node in Hstep. apply result_bind_ok in Hstep as (op & _ & Hstep).
      apply result_bind_ok in Hstep as (engine & _ & [= <-]). apply IH in H as [-> ->]; [|done]. simpl.
      by rewrite !dget_dset_ne. }
    destruct (Hkeep _ _ _ H Hn) as [-> ->]. simpl. by rewrite !dget_dset_eq.
  - apply Hget; [|done]. rewrite dget_dset_ne; [done|]. by intros ->.
Qed.

Lemma build_workers_spec profiles names g workers : build_workers profiles names g = Ok workers →
  dict_wf workers ∧ (∀ w, w ∈ dkeys workers ↔ w ∈ names) ∧
  ∀ w, w ∈ names → dget w workers = Some (build_worker profiles w).
Proof.
  unfold build_workers. case_match; [done|]. intros [= <-]. split; [apply dict_wf_of|]. split.
  - intros w. rewrite elem_of_dkeys_dict_of, <-list_fmap_compose. change ((fst ∘ _) <$> names) with (id <$> names).
    by rewrite list_fmap_id.
  - intros w Hw. by apply (dget_dict_of_map (build_worker profiles)).
Qed.

(** The workers of a kind. *)
Lemma workers_of_kind_spec profiles names g workers gpu w : build_workers profiles names g = Ok workers →
  w ∈ workers_of_kind gpu workers → w ∈ names ∧ profile_has_gpu profiles w = gpu.
Proof.
  intros Hb ([k worker] & -> & (Hk & Hin)%list_elem_of_filter)%list_elem_of_fmap. simpl in *.
  destruct (build_workers_spec _ _ _ _ Hb) as (Hwf & Hkeys & Hget).
  assert (Hn : k ∈ names) by (apply Hkeys, list_elem_of_fmap; by exists (k, worker)).
  split; [done|]. apply (elem_dget k worker) in Hin; [|done]. rewrite Hget in Hin by done.
  injection Hin as <-. unfold is_gpu_kind, build_worker in Hk. simpl in Hk. by destruct (profile_has_gpu profiles k), gpu.
Qed.

(** What a worker needs to run an op. *)
Definition on_gpu (op : RuntimeOp.t) : bool :=
  match map_engine (RuntimeOp.backend op) (RuntimeOp.task_type op) with Ok e => String.eqb e "vllm" | Err _ => false end.
Definition suits (profiles : dict string (dict string val)) (op : RuntimeOp.t) (w : string) : Prop :=
  profile_has_gpu profiles w = on_gpu op ∧
  (RuntimeOp.task_type op ∈ CAPABILITY_GATED_TASK_TYPES →
   RuntimeOp.task_type op ∈ advertised_task_types (profile_of profiles w)).

Lemma candidates_spec workers n op engine ws :
  map_engine (RuntimeOp.backend op) (RuntimeOp.task_type op) = Ok engine →
  candidates workers (halo_node n op engine) = Ok ws → ws = workers_of_kind (on_gpu op) workers.
Proof.
  intros He. unfold candidates, on_gpu. rewrite He. cbn [Node.engine halo_node].
  destruct (String.eqb_spec engine "vllm") as [->|Hne]; [by rewrite bool_decide_true; [intros [= <-]|]|].
  rewrite bool_decide_false by congruence. intros H.
  destruct (_ && _)%bool; [by injection H as <-|]. do 2 (case_bool_decide; [by injection H as <-|]). done.
Qed.

Lemma node_options_spec profiles names g workers n op engine ws : build_workers profiles names g = Ok workers →
  map_engine (RuntimeOp.backend op) (RuntimeOp.task_type op) = Ok engine →
  node_options workers (halo_node n op engine) = Ok ws →
  ws ≠ [] ∧ ∀ w, w ∈ ws → w ∈ names ∧ suits profiles op w.
Proof.
  intros Hb He H. unfold node_options in H. apply result_bind_ok in H as (tier & Ht & H).
  rewrite (candidates_spec _ _ _ _ _ He Ht) in H. clear tier Ht. cbn [Node.type halo_node] in H.
  assert (Hkind : ∀ w, w ∈ workers_of_kind (on_gpu op) workers → w ∈ names ∧ profile_has_gpu profiles w = on_gpu op).
  { intros w Hw. by eapply workers_of_kind_spec. }
  set (tier := if decide _ then _ else _) in H.
  assert (Htier : ∀ w, w ∈ tier → w ∈ names ∧ suits profiles op w).
  { intros w. unfold tier. case_decide as Hg.
    - intros (Hr & [Hn Hk]%Hkind)%list_elem_of_filter. split; [done|]. split; [done|]. intros _.
      unfold worker_runs in Hr. destruct (build_workers_spec _ _ _ _ Hb) as (_ & _ & Hget). rewrite Hget in Hr by done.
      by apply bool_decide_eq_true in Hr.
    - intros [Hn Hk]%Hkind. split; [done|]. split; [done|]. intros Hg'. done. }
  clearbody tier. destruct tier as [|x tier]; [done|]. assert (ws = sorted_by str_ltb id (x :: tier)) as -> by congruence. split.
  - intros E. apply (f_equal length) in E. by rewrite length_sorted_by in E.
  - intros w Hw%elem_of_sorted_by. by apply Htier.
Qed.

Lemma options_get graph workers options : build_node_worker_options graph workers = Ok options →
  ∀ n node, dget n (GraphSpec.nodes graph) = Some node →
  ∃ ws, node_options workers node = Ok ws ∧ dget n options = Some ws.
Proof.
  unfold build_node_worker_options. generalize (GraphSpec.nodes graph) as nodes. intros nodes. revert options.
  induction nodes as [|[k node0] nodes IH]; intros options H n node; simpl in *; [done|].
  apply result_bind_ok in H as (kv & Hkv & H). apply result_bind_ok in H as (kvs & Hkvs & [= <-]).
  apply result_bind_ok in Hkv as (ws & Hws & [= <-]). simpl. case_decide as E; [|by apply IH].
  intros [= <-]. by exists ws.
Qed.

(** ** Reading the schedule off the epochs *)

Lemma group_items_spec grouped items :
  (∀ w, dget_or [] w (foldl group_item grouped items) =
        dget_or [] w grouped ++ (filter (λ i : placed, i.1.2 = w) items).*2) ∧
  (∀ w, w ∈ dkeys (foldl group_item grouped items) ↔ w ∈ dkeys grouped ∨ ∃ i, i ∈ items ∧ i.1.2 = w) ∧
  (dict_wf grouped → dict_wf (foldl group_item grouped items)).
Proof.
  revert grouped. induction items as [|i items IH]; intros grouped; simpl.
  { split; [intros w; by rewrite app_nil_r|]. split; [|done]. intros w. split; [by left|].
    by intros [?|(i & ?%not_elem_of_nil & _)]. }
  destruct (IH (group_item grouped i)) as (H1 & H2 & H3). split; [|split].
  - intros w. rewrite H1. unfold group_item, append_to. rewrite dget_or_dset, filter_cons.
    destruct (decide (w = i.1.2)) as [->|Hne].
    + rewrite decide_True by done. csimpl. by rewrite <-app_assoc.
    + by rewrite decide_False by congruence.
  - intros w. rewrite H2. unfold group_item, append_to. rewrite elem_of_dkeys_dset. split.
    + intros [[->|?]|(j & ? & ?)]; [right; exists i; split; [left|done]|by left|right; exists j; split; [by right|done]].
    + intros [?|(j & [->|?]%elem_of_cons & <-)]; [by left; right|by left; left|right; by exists j].
  - intros Hw. apply H3. by apply dict_wf_dset.
Qed.

Lemma item_lt_weak : StrictWeakOn (λ _, True) item_lt.
Proof.
  assert (Hweak : ∀ {K} (P : K → Prop) lt, (∀ x, P x) → StrictWeakOn P lt → StrictWeakOn (λ _, True) lt).
  { intros K P lt HP [H1 H2 H3]. split; eauto. }
  assert (HZ : StrictWeakOn (λ _ : Z * string, True) (lex_lt Z.eqb Z.ltb str_ltb)).
  { apply (Hweak _ (λ x : Z * string, True ∧ True)); [done|].
    apply (lex_strict_weak (λ _, True) (λ _, True)); [intros; lia|apply _..]. }
  apply (Hweak _ (λ x : Z * (Z * string), True ∧ True)); [done|].
  apply (lex_strict_weak (λ _, True) (λ _, True)); [intros; lia|apply _..].
Qed.

(** Of two placements on one worker the smaller key goes first. *)
Lemma sorted_before g (sched : list placed) w iu iv : NoDup sched.*2 → iu ∈ sched → iv ∈ sched →
  iu.1.2 = w → item_lt (item_key g iu) (item_key g iv) = true →
  RuntimeGraph.before (filter (λ i : placed, i.1.2 = w) (sorted_by item_lt (item_key g) sched)).*2 iu.2 iv.2.
Proof.
  intros Hnd Hu Hv Hw Hlt l1 l2 Hl.
  assert (Hperm := sorted_by_perm item_lt (item_key g) sched).
  pose proof (sorted_by_sorted item_lt (item_key g) (λ _, True) (StrictWeakOn0 := item_lt_weak) sched
    (proj2 (Forall_forall _ _) (λ _ _, I))) as Hs.
  set (l := sorted_by item_lt (item_key g) sched) in *. rewrite <-Hperm in Hnd, Hu, Hv. clearbody l.
  apply fmap_app_inv in Hl as (k1 & k2' & -> & Hk & Hf). symmetry in Hk. apply fmap_cons_inv in Hk as (iv' & k2 & Hiv & -> & ->).
  assert (Hin : ∀ i, i ∈ k1 ++ iv' :: k2 → i ∈ l) by (intros i Hi; rewrite <-Hf in Hi; by apply list_elem_of_filter in Hi as [_ ?]).
  assert (iv' = iv) as ->.
  { assert (Hiv' : iv' ∈ l) by (apply Hin, elem_of_app; right; left).
    apply list_elem_of_lookup in Hv as [a Ha], Hiv' as [b Hb].
    assert (a = b) as ->; [|congruence]. apply (NoDup_lookup l.*2 a b iv.2); [done|by rewrite list_lookup_fmap, Ha|].
    rewrite list_lookup_fmap, Hb. simpl. congruence. }
  assert (Hsf : StronglySorted (λ a b, item_lt (item_key g b) (item_key g a) = false) (k1 ++ iv :: k2)).
  { rewrite <-Hf. clear -Hs. induction Hs as [|x l Hs IH Hx]; [constructor|]. rewrite filter_cons. case_decide; [|done].
    constructor; [done|]. rewrite Forall_forall in Hx |- *. intros y (_ & Hy)%list_elem_of_filter. by apply Hx. }
  assert (Hiu : iu ∈ k1 ++ iv :: k2) by (rewrite <-Hf; by apply list_elem_of_filter).
  apply elem_of_app in Hiu as [Hi|[->|Hi]%elem_of_cons].
  - apply list_elem_of_fmap. by exists iu.
  - pose proof (sw_irrefl (StrictWeakOn := item_lt_weak) (item_key g iv) I). congruence.
  - apply StronglySorted_app_1_r in Hsf. inversion Hsf as [|? ? _ Hall]; subst.
    rewrite Forall_forall in Hall. rewrite (Hall _ Hi) in Hlt. done.
Qed.

(** ** The solved instance *)

(** What a run of the solver gives: placements of every node, on workers that
    suit it, no earlier than its parents. *)
Record placements (profiles : dict string (dict string val)) (names : list string) (g : RuntimeGraph.t)
    (sched : list placed) : Prop := {
  pl_nodes : sched.*2 ≡ₚ RuntimeGraph.node_order g;
  pl_workers e w n : (e, w, n) ∈ sched →
    w ∈ names ∧ ∃ op, dget n (RuntimeGraph.nodes g) = Some op ∧ suits profiles op w;
  pl_parents e w n p : (e, w, n) ∈ sched → RuntimeGraph.depends_on g n p → p ∈ RuntimeGraph.node_order g →
    ∃ e' w', (e', w', p) ∈ sched ∧ (e' <= e)%Z;
}.

Section solve_halo.
Context (to_float : val → option f64) (float_of_string : string → option f64) (log2 : f64 → f64).

Lemma may_run_option s g dependencies workers worker_ids plan_choices window_size o n ws w :
init g dependencies workers worker_ids plan_choices window_size o = Ok s → n ∈ DPSolver.node_ids s →
dget n (Options.node_worker_options o) = Some ws → ws ≠ [] → may_run s w n → w ∈ ws.
Proof.
intros Hinit Hn Hws Hne. destruct (init_fields _ _ _ _ _ _ _ _ Hinit) as (_ & _ & _ & _ & Hopt & _).
assert (Hget : dget n (DPSolver.node_worker_options s) = Some ws).
{ rewrite Hopt. clear -Hn Hws. induction (DPSolver.node_ids s) as [|x l IH]; [by apply not_elem_of_nil in Hn|].
  csimpl. case_decide as E; [subst; unfold dget_or; by rewrite Hws|]. apply IH. by apply elem_of_cons in Hn as [->|?]. }
unfold may_run, dget_or. rewrite Hget. simpl. destruct (is_gpu s n); [by intros [_ ?]|]. by destruct ws.
Qed.

Lemma solve_halo_ok g h names profiles results s :
RuntimeGraph.wf g → names ≠ [] →
solve_halo to_float float_of_string log2 g h names profiles results = Ok s →
∃ worker_ids sched, (NoDup worker_ids ∧ ∀ w, w ∈ worker_ids ↔ w ∈ names) ∧
  s = group_schedule_by_worker sched worker_ids g ∧ placements profiles names g sched.
Proof.
intros Hwf Hne H. unfold solve_halo in H. apply result_bind_ok in H as (parts & Hparts & H).
apply result_bind_ok in H as (workers & Hworkers & H). apply result_bind_ok in H as (options & Hoptions & H).
apply result_bind_ok in H as (plans & _ & H). apply result_bind_ok in H as ([h' dp] & _ & H).
apply result_bind_ok in H as (solver & Hinit & H). apply result_bind_ok in H as (sol & Hsol & H).
apply result_bind_ok in H as (u & _ & [= <-]). exists (dkeys workers), (Solution.schedule sol).
destruct (build_workers_spec _ _ _ _ Hworkers) as (Hww & Hwk & _).
destruct (init_fields _ _ _ _ _ _ _ _ Hinit) as (Hdeps & _ & Hgraph & Hids & _ & Hpool). simpl in Hids.
assert (Hnd : NoDup (RuntimeGraph.node_order g)) by apply Hwf.
destruct (add_nodes_spec g _ _ _ Hparts Hnd) as [Hkeys Hget]; [by intros n _ ?%not_elem_of_nil|].
assert (Hids_ne : dkeys workers ≠ []).
{ destruct names as [|w names]; [done|]. intros E. assert (Hw : w ∈ dkeys workers) by (apply Hwk; left).
  rewrite E in Hw. by apply not_elem_of_nil in Hw. }
rewrite <-Hids in Hnd.
pose proof (solve_valid _ _ _ _ _ _ solver _ sol Hnd (Hpool Hids_ne) Hsol) as V.
assert (Hin : ∀ e w n, (e, w, n) ∈ Solution.schedule sol → n ∈ RuntimeGraph.node_order g).
{ intros e w n Hin. rewrite <-Hids. assert (Hn : n ∈ (Solution.schedule sol).*2) by (apply list_elem_of_fmap; by exists (e, w, n)).
  by apply (vf_nodes _ _ _ V) in Hn as [? _]. }
split; [by split|]. split; [done|]. split.
- apply NoDup_Permutation; [apply V|by rewrite <-Hids|]. intros n. rewrite (vf_nodes _ _ _ V), is_done_none, Hids. tauto.
- intros e w n Hp. pose proof (Hin _ _ _ Hp) as Hn. destruct (Hget n) as (op & engine & Hop & He & Hnode & _); [done..|].
  destruct (options_get _ _ _ Hoptions n _ Hnode) as (ws & Hws & Hopt).
  destruct (node_options_spec _ _ _ _ _ _ _ _ Hworkers He Hws) as [Hwne Hall].
  assert (Hw : w ∈ ws).
  { rewrite <-Hids in Hn. refine (may_run_option _ _ _ _ _ _ _ _ n ws w Hinit Hn Hopt Hwne _). apply (vf_workers _ _ _ V _ _ _ Hp). }
  destruct (Hall w Hw). split; [done|]. by exists op.
- intros e w n p Hp (op & Hop & Hdep) Hpn. pose proof (Hin _ _ _ Hp) as Hn.
  destruct (Hget n) as (op' & engine & Hop' & _ & _ & Hd); [done..|].
  assert (op' = op) as -> by congruence.
  destruct (vf_parents _ _ _ V _ _ _ p Hp) as [Hx|Hx]; [|by rewrite Hids| |done].
  + unfold deps, dget_or. rewrite Hdeps, Hd. done.
  + by rewrite is_done_none in Hx.
Qed.
End solve_halo.

(** The placements of the workers, in order. *)
Lemma group_schedule_spec sched worker_ids g :
  NoDup worker_ids → (∀ e w n, (e, w, n) ∈ sched → w ∈ worker_ids) →
  let s := group_schedule_by_worker sched worker_ids g in
  dict_wf s ∧ (∀ w, w ∈ dkeys s ↔ w ∈ worker_ids) ∧
  (∀ w nodes, (w, nodes) ∈ s → nodes = (filter (λ i : placed, i.1.2 = w) (sorted_by item_lt (item_key g) sched)).*2).
Proof.
  intros Hnd Hw s. unfold s, group_schedule_by_worker. clear s. set (items := sorted_by item_lt (item_key g) sched).
  destruct (group_items_spec (dict_of ((λ w, (w, [])) <$> worker_ids)) items) as (Hget & Hkeys & Hwf).
  specialize (Hwf (dict_wf_of _)). split; [done|].
  assert (Hk0 : ∀ w, w ∈ dkeys (dict_of ((λ w, (w, @nil string)) <$> worker_ids)) ↔ w ∈ worker_ids).
  { intros w. rewrite elem_of_dkeys_dict_of, <-list_fmap_compose. change ((fst ∘ _) <$> worker_ids) with (id <$> worker_ids).
    by rewrite list_fmap_id. }
  split.
  - intros w. rewrite Hkeys, Hk0. split; [|by left]. intros [?|([[e w'] n] & Hi & <-)]; [done|]. simpl.
    unfold items in Hi. apply elem_of_sorted_by in Hi. by apply (Hw e _ n).
  - intros w nodes Hin. apply (elem_dget w nodes _ Hwf) in Hin. specialize (Hget w). unfold dget_or at 1 in Hget.
    rewrite Hin in Hget. simpl in Hget. rewrite Hget. unfold dget_or.
    destruct (dget w (dict_of _)) as [l|] eqn:E; [|done]. simpl.
    apply dget_elem, elem_of_dict_of, list_elem_of_fmap in E as (w' & [= -> ->] & _). done.
Qed.

Lemma concat_by_key {A} (key : A → string) ks items : NoDup ks → (∀ i, i ∈ items → key i ∈ ks) →
  concat ((λ w, filter (λ i, key i = w) items) <$> ks) ≡ₚ items.
Proof.
  revert items. induction ks as [|w ks IH]; intros items Hnd Hall; csimpl.
  { destruct items as [|i items]; [done|]. by destruct (not_elem_of_nil (key i)); apply Hall; left. }
  apply NoDup_cons in Hnd as [Hw Hnd].
  etrans; [|apply (filter_app_complement (λ i, key i = w))]. f_equiv.
  rewrite <-(IH (filter (λ i, ¬ key i = w) items) Hnd).
  - apply Permutation_refl'. f_equal. apply list_fmap_ext. intros j w' Hj. rewrite list_filter_filter_l; [done|].
    intros i Hi Hiw. apply Hw. rewrite <-Hiw, Hi. by apply list_elem_of_lookup_2 in Hj.
  - intros i (Hi & Hin)%list_elem_of_filter. apply Hall in Hin. by apply elem_of_cons in Hin as [?|?].
Qed.

Lemma group_schedule_nodes sched worker_ids g :
  NoDup worker_ids → (∀ e w n, (e, w, n) ∈ sched → w ∈ worker_ids) →
  concat (dvals (group_schedule_by_worker sched worker_ids g)) ≡ₚ sched.*2.
Proof.
  intros Hnd Hw. destruct (group_schedule_spec sched worker_ids g Hnd Hw) as (Hwf & Hkeys & Hent).
  set (s := group_schedule_by_worker sched worker_ids g) in *. set (items := sorted_by item_lt (item_key g) sched) in *.
  assert (Hvals : dvals s = fmap snd <$> ((λ w, filter (λ i : placed, i.1.2 = w) items) <$> dkeys s)).
  { rewrite <-list_fmap_compose. unfold dvals, dkeys. rewrite <-list_fmap_compose. apply list_fmap_ext.
    intros i [w nodes] Hi. apply list_elem_of_lookup_2 in Hi. simpl. by apply Hent. }
  rewrite Hvals. rewrite <-(List.concat_map snd). f_equiv.
  rewrite (concat_by_key (λ i : placed, i.1.2) (dkeys s) items Hwf); [apply sorted_by_perm|].
  intros [[e w] n] Hi. apply elem_of_sorted_by in Hi. apply Hkeys. simpl. by apply (Hw e w n).
Qed.

Lemma placed_node profiles names g sched : placements profiles names g sched →
  ∀ e w n, (e, w, n) ∈ sched → n ∈ RuntimeGraph.node_order g.
Proof. intros P e w n Hin. rewrite <-(pl_nodes _ _ _ _ P). apply list_elem_of_fmap. by exists (e, w, n). Qed.

Lemma unique_item (sched : list placed) i j : NoDup sched.*2 → i ∈ sched → j ∈ sched → i.2 = j.2 → i = j.
Proof.
  intros Hnd [a Ha]%list_elem_of_lookup [b Hb]%list_elem_of_lookup E.
  assert (a = b) as ->; [|congruence]. apply (NoDup_lookup sched.*2 a b i.2); [done|by rewrite list_lookup_fmap, Ha|].
  rewrite list_lookup_fmap, Hb. simpl. congruence.
Qed.

Lemma item_lt_intro g eu ev w u v : (eu <= ev)%Z →
  (dget_or 1000000000 u (RuntimeGraph.order_index g) < dget_or 1000000000 v (RuntimeGraph.order_index g))%Z →
  item_lt (item_key g (eu, w, u)) (item_key g (ev, w, v)) = true.
Proof.
  intros He Hi. unfold item_lt, item_key. simpl.
  unfold lex_lt; simpl. destruct (Z.eqb_spec eu ev); [|by apply Z.ltb_lt; lia].
  rewrite (proj2 (Z.eqb_neq _ _)) by lia. by apply Z.ltb_lt.
Qed.

Lemma order_index_get g i n : NoDup (RuntimeGraph.node_order g) → RuntimeGraph.node_order g !! i = Some n →
  dget n (RuntimeGraph.order_index g) = Some (Z.of_nat i).
Proof.
  unfold RuntimeGraph.order_index. generalize (RuntimeGraph.node_order g) as l. intros l Hnd Hi.
  assert (Hfst : (zip l (Z.of_nat <$> seq 0 (length l))).*1 = l) by (rewrite fst_zip; [done|]; rewrite length_fmap, length_seq; lia).
  rewrite dict_of_nodup by by rewrite Hfst. apply elem_dget; [unfold dict_wf, dkeys; by rewrite Hfst|].
  apply list_elem_of_lookup. exists i. apply lookup_zip_with_Some. exists n, (Z.of_nat i). split; [done|]. split; [done|].
  rewrite list_lookup_fmap, lookup_seq_lt; [done|]. by apply lookup_lt_Some in Hi.
Qed.

Lemma order_index_lt g u v : NoDup (RuntimeGraph.node_order g) → v ∈ RuntimeGraph.node_order g →
  RuntimeGraph.before (RuntimeGraph.node_order g) u v →
  (dget_or 1000000000 u (RuntimeGraph.order_index g) < dget_or 1000000000 v (RuntimeGraph.order_index g))%Z.
Proof.
  intros Hnd (l1 & l2 & Hl)%list_elem_of_split Hb. pose proof (Hb _ _ Hl) as [i Hi]%list_elem_of_lookup.
  assert (Hlt := lookup_lt_Some _ _ _ Hi). unfold dget_or.
  rewrite (order_index_get g i u), (order_index_get g (length l1) v); [simpl; lia|done| |done|].
  - by rewrite Hl, list_lookup_middle.
  - by rewrite Hl, lookup_app_l.
Qed.

(** ** Acceptance *)

Section theorem.
Context (to_float : val → option f64) (float_of_string : string → option f64) (log2 : f64 → f64).
Context (validate_row : val → option DataProfileResultRow.t) (disable_data_profile : bool).

Local Abbreviation generate := (generate_schedule to_float float_of_string log2 validate_row disable_data_profile).

(** C30: A schedule HALO returns is accepted by the scheduler's validation, runs
  every node of the graph exactly once, on a worker of the kind its engine
  needs that advertises its task type when that is gated, and, when the
  graph lists its nodes in dependency order, each worker runs a node after
  the nodes it depends on that it runs too. *)
Theorem halo_schedules_are_accepted g worker_names profiles results s :
RuntimeGraph.wf g → RuntimeGraph.nodes g ≠ [] →
(∀ n, n ∈ dkeys (RuntimeGraph.nodes g) → blank n = false) →
generate g worker_names profiles results = Ok s →
validate_schedule s (workers_input worker_names) (dkeys (RuntimeGraph.nodes g)) = Ok tt ∧
concat (dvals s) ≡ₚ dkeys (RuntimeGraph.nodes g) ∧
(∀ w nodes n, (w, nodes) ∈ s → n ∈ nodes →
   ∃ op, dget n (RuntimeGraph.nodes g) = Some op ∧ suits profiles op w) ∧
((∀ u v, u ∈ dkeys (RuntimeGraph.nodes g) → RuntimeGraph.depends_on g v u →
    RuntimeGraph.before (RuntimeGraph.node_order g) u v) →
 ∀ w nodes u v, (w, nodes) ∈ s → u ∈ nodes → RuntimeGraph.depends_on g v u → RuntimeGraph.before nodes u v).
Proof.
intros Hwf Hne Hblank H. unfold generate_schedule in H. destruct (workers_input worker_names) as [|w0 ws] eqn:Ew; [done|].
rewrite <-Ew in *. destruct (RuntimeGraph.nodes g) as [|kv nds] eqn:En; [done|]. rewrite <-En in *.
do 3 apply result_bind_ok in H as (? & _ & H). apply result_bind_ok in H as (rs & _ & H).
destruct (solve_halo _ _ _ _ _ _ _ _) as [s0|e] eqn:Hs; [|done]. injection H as ->.
assert (Hwne : workers_input worker_names ≠ []) by (by rewrite Ew).
destruct (solve_halo_ok _ _ _ g _ _ _ _ _ Hwf Hwne Hs) as (ids & sched & [Hnd Hids] & -> & P).
assert (Hw : ∀ e w n, (e, w, n) ∈ sched → w ∈ ids).
{ intros e w n Hin. apply Hids. by apply (pl_workers _ _ _ _ P _ _ _ Hin). }
destruct (group_schedule_spec sched ids g Hnd Hw) as (Hsw & Hsk & Hent).
assert (Hperm : concat (dvals (group_schedule_by_worker sched ids g)) ≡ₚ dkeys (RuntimeGraph.nodes g)).
{ rewrite (group_schedule_nodes sched ids g Hnd Hw), (pl_nodes _ _ _ _ P).
  apply NoDup_Permutation; [apply Hwf|apply Hwf|]. apply (RuntimeGraph.wf_order_nodes g Hwf). }
assert (Hsched : NoDup sched.*2) by (rewrite (pl_nodes _ _ _ _ P); apply Hwf).
assert (Hitem : ∀ w nodes n, (w, nodes) ∈ group_schedule_by_worker sched ids g → n ∈ nodes → ∃ e, (e, w, n) ∈ sched).
{ intros w nodes n Hin Hn. rewrite (Hent _ _ Hin) in Hn.
  apply list_elem_of_fmap in Hn as ([[e w'] n'] & -> & (Hw' & Hi)%list_elem_of_filter). simpl in Hw'. subst w'.
  apply elem_of_sorted_by in Hi. by exists e. }
split; [|split; [exact Hperm|split]].
- apply validate_schedule_ok. split; [intros w; by rewrite Hsk, Hids|intros n; by rewrite Hperm|].
  intros w nodes Hin. split; [|split].
  + assert (Hwn : w ∈ workers_input worker_names) by (apply Hids, Hsk, list_elem_of_fmap; by exists (w, nodes)).
    apply list_elem_of_fmap in Hwn as (name & -> & (Hb & _)%list_elem_of_filter). unfold blank in *. by rewrite strip_idem.
  + rewrite (Hent _ _ Hin). eapply sublist_NoDup; [|apply fmap_sublist, sublist_filter].
    by rewrite (sorted_by_perm item_lt (item_key g) sched).
  + intros n Hn. apply Hblank. rewrite <-Hperm. apply list_elem_of_In, in_concat. exists nodes.
    split; [|by apply list_elem_of_In]. apply list_elem_of_In, list_elem_of_fmap. by exists (w, nodes).
- intros w nodes n Hin Hn. destruct (Hitem w nodes n Hin Hn) as [e He]. by apply (pl_workers _ _ _ _ P _ _ _ He).
- intros Htopo w nodes u v Hin Hu Hdep l1 l2 Hl.
  destruct (Hitem w nodes u Hin Hu) as [eu Heu]. destruct (Hitem w nodes v Hin) as [ev Hev].
  { rewrite Hl. apply elem_of_app. right. left. }
  assert (Huo : u ∈ RuntimeGraph.node_order g) by (by apply (placed_node _ _ _ _ P) in Heu).
  assert (Hvo : v ∈ RuntimeGraph.node_order g) by (by apply (placed_node _ _ _ _ P) in Hev).
  destruct (pl_parents _ _ _ _ P _ _ _ _ Hev Hdep Huo) as (e' & w' & He' & Hle).
  assert (e' = eu) as -> by (pose proof (unique_item _ _ _ Hsched He' Heu eq_refl); congruence).
  pose proof (sorted_before g sched w (eu, w, u) (ev, w, v) Hsched Heu Hev eq_refl) as Hbefore.
  rewrite <-(Hent _ _ Hin) in Hbefore. apply (Hbefore ltac:(apply item_lt_intro; [exact Hle|apply order_index_lt; try done; [apply Hwf|apply Htopo; [by apply (RuntimeGraph.wf_order_nodes g Hwf)|done]]]) l1 l2 Hl).
Qed.
End theorem.

(** ** An instance *)

Module HaloSample.
Definition op (id task_type backend model : string) (data : dict string val) (deps : list string) : RuntimeOp.t :=
RuntimeOp.mk id task_type backend model data [] [] [] deps None None.
Definition graph : RuntimeGraph.t :=
RuntimeGraph.mk
  [("fetch", op "fetch" "data_retrieval" "data_retrieval" "" [("type", VStr "sql"); ("template", VStr "select 1")] []);
   ("draft", op "draft" "inference" "vllm" "org/small-7B" [] ["fetch"]);
   ("judge", op "judge" "inference" "vllm" "org/big-70B" [] ["draft"]);
   ("score", op "score" "python" "python" "" [("timeout_s", VInt 10)] ["judge"])]
  ["fetch"; "draft"; "judge"; "score"] [("score", "out")] [] [].
Definition profiles : dict string (dict string val) :=
[("gpu-1", [("has_gpu", VBool true)]);
 ("cpu-1", [("has_gpu", VBool false)]);
 ("cpu-2", [("has_gpu", VBool false); ("supported_task_types", VList [VStr "python"])])].
Definition names : list string := ["gpu-1"; " cpu-1"; ""; "cpu-2"].
Definition log2 (_ : f64) : f64 := fone.
Definition generated : result worker_assignment :=
generate_schedule (λ _, None) (λ _, None) log2 (λ _, None) false graph names profiles None.
Definition schedule : worker_assignment :=
[("gpu-1", ["draft"; "judge"]); ("cpu-1", ["fetch"]); ("cpu-2", ["score"])].
End HaloSample.

Lemma before_intro (l k1 k2 : list string) u v : NoDup l → l = k1 ++ v :: k2 → u ∈ k1 → RuntimeGraph.before l u v.
Proof.
  intros Hnd -> Hu l1 l2 Hl. assert (l1 = k1) as ->; [|done].
  assert (Hlen : ∀ a b c d : list string, NoDup (a ++ v :: b) → a ++ v :: b = c ++ v :: d → length a = length c).
  { intros a b c d Hn E. apply (NoDup_lookup (a ++ v :: b) _ _ v); [done|by rewrite list_lookup_middle|].
    rewrite E. by rewrite list_lookup_middle. }
  apply (app_inj_1 l1 k1 (v :: l2) (v :: k2)); [|done]. symmetry. by apply (Hlen k1 k2 l1 l2).
Qed.

Lemma sample_ordered u v : RuntimeGraph.depends_on HaloSample.graph v u →
  RuntimeGraph.before (RuntimeGraph.node_order HaloSample.graph) u v.
Proof.
  intros (op & Hop & Hu). apply dget_elem in Hop. unfold HaloSample.graph in Hop.
  assert (Hnd : NoDup (RuntimeGraph.node_order HaloSample.graph)) by (apply (bool_decide_unpack _); vm_compute; exact I).
  repeat (apply elem_of_cons in Hop as [[= -> ->]|Hop]); cbn [RuntimeOp.dependencies HaloSample.op] in Hu.
  - by apply not_elem_of_nil in Hu.
  - apply list_elem_of_singleton in Hu as ->. apply (before_intro _ ["fetch"] ["judge"; "score"]); [done..|by left].
  - apply list_elem_of_singleton in Hu as ->. apply (before_intro _ ["fetch"; "draft"] ["score"]); [done..|by right; left].
  - apply list_elem_of_singleton in Hu as ->.
    apply (before_intro _ ["fetch"; "draft"; "judge"] []); [done..|by right; right; left].
  - by apply not_elem_of_nil in Hop.
Qed.

Example halo_sample : HaloSample.generated = Ok HaloSample.schedule.
Proof. vm_compute. reflexivity. Qed.

Lemma halo_schedules_are_accepted_witness :
  validate_schedule HaloSample.schedule ["gpu-1"; "cpu-1"; "cpu-2"] ["fetch"; "draft"; "judge"; "score"] = Ok tt ∧
  RuntimeGraph.before ["draft"; "judge"] "draft" "judge".
Proof.
  destruct (halo_schedules_are_accepted (λ _, None) (λ _, None) HaloSample.log2 (λ _, None) false HaloSample.graph
    HaloSample.names HaloSample.profiles None HaloSample.schedule) as (Hv & _ & _ & Ho).
  - split; [apply (bool_decide_unpack _); vm_compute; exact I|apply (bool_decide_unpack _); vm_compute; exact I|].
    intros n. change (n ∈ ["fetch"; "draft"; "judge"; "score"] ↔ n ∈ ["fetch"; "draft"; "judge"; "score"]). done.
  - done.
  - intros n. apply (proj1 (Forall_forall (λ n, blank n = false) _)).
    repeat (apply Forall_cons; split; [reflexivity|]). apply Forall_nil. exact I.
  - vm_compute. reflexivity.
  - split; [exact Hv|]. apply (Ho (λ u v _, sample_ordered u v) "gpu-1" ["draft"; "judge"] "draft" "judge"); [by left|by left|].
    exists (HaloSample.op "judge" "inference" "vllm" "org/big-70B" [] ["draft"]). split; [vm_compute; reflexivity|by left].
Defined.
