(* ===== verification/RequestState.v ===== *)
(** * Request state and node accounting (runtime/server.py, runtime/request.py)

    [RequestState] is what the scheduler keeps per request: the workflows
    still pending, the buffers their results are merged into, the errors, and
    counters of runtime nodes by stage.  The record below regroups its fields
    into [Counters] (the node counters) and [Buffers]; wall-clock telemetry and
    the plan cache are not modelled.  [results] is the content of the result
    queue of the request's handler. *)

From S2P Require Import Prelude PyFloat PyDict PyValue PyString Protocol RuntimeGraph Grouping JobBase.

Module LumilakeResponse.
Record t := mk {
outputs : dict string (dict string (list string));
error_info : option (list (dict string val));
chat_histories : dict string (dict string (list val));
}.
End LumilakeResponse.

(** One dispatch row ([WorkflowDispatch]); the FlowMesh id is filled in
    after submission. *)
Module WorkflowDispatch.
Record t := mk {
workflow_id : string;
graph_name : string;
public_graph_name : string;
slice_index : Z;
slice_start : Z;
slice_length : Z;
total_length : Z;
enqueued_at : f64;
dispatched_at : f64;
miss_count : Z;
batch_id : string;
execution_request_id : string;
batch_workflow_ids : list string;
workers : list string;
flowmesh_workflow_id : option string;
}.

Definition set_flowmesh (w : option string) (r : t) : t :=
mk (workflow_id r) (graph_name r) (public_graph_name r) (slice_index r) (slice_start r) (slice_length r)
   (total_length r) (enqueued_at r) (dispatched_at r) (miss_count r) (batch_id r)
   (execution_request_id r) (batch_workflow_ids r) (workers r) w.
End WorkflowDispatch.

Module Counters.
Record t := mk {
pending_raw : Z;
processing_raw : Z;
processing_optimized : Z;
processed_raw : Z;
processed_optimized : Z;
(** [batch_node_counts]: raw and optimized nodes of the running batches. *)
batch_node_counts : dict string (Z * Z);
}.
End Counters.

Module Buffers.
Record t := mk {
output_buffers : dict string (dict string (list val));
chat_history_buffers : dict string (dict string (list val));
}.
End Buffers.

Module RequestState.
Record t := mk {
results : list LumilakeResponse.t;
config : LumilakeRequestConfig.t;
pending_workflows : list string;
outputs : dict string (dict string (list string));
chat_histories : dict string (dict string (list val));
buffers : Buffers.t;
workflow_lengths : dict string Z;
error_info : option (list (dict string val));
counters : Counters.t;
workflow_dispatches : list WorkflowDispatch.t;
total_input_items : Z;
completed_input_items_success : Z;
successful_workflow_ids : list string;
list_lambda_outputs : dict string (list string);
ready : bool;
}.

Definition set_pending (p : list string) (s : t) : t :=
mk (results s) (config s) p (outputs s) (chat_histories s) (buffers s) (workflow_lengths s)
   (error_info s) (counters s) (workflow_dispatches s) (total_input_items s)
   (completed_input_items_success s) (successful_workflow_ids s) (list_lambda_outputs s) (ready s).
Definition set_outputs o h (s : t) : t :=
mk (results s) (config s) (pending_workflows s) o h (buffers s) (workflow_lengths s)
   (error_info s) (counters s) (workflow_dispatches s) (total_input_items s)
   (completed_input_items_success s) (successful_workflow_ids s) (list_lambda_outputs s) (ready s).
Definition set_buffers (b : Buffers.t) (s : t) : t :=
mk (results s) (config s) (pending_workflows s) (outputs s) (chat_histories s) b (workflow_lengths s)
   (error_info s) (counters s) (workflow_dispatches s) (total_input_items s)
   (completed_input_items_success s) (successful_workflow_ids s) (list_lambda_outputs s) (ready s).
Definition set_errors e (s : t) : t :=
mk (results s) (config s) (pending_workflows s) (outputs s) (chat_histories s) (buffers s)
   (workflow_lengths s) e (counters s) (workflow_dispatches s) (total_input_items s)
   (completed_input_items_success s) (successful_workflow_ids s) (list_lambda_outputs s) (ready s).
Definition set_counters c (s : t) : t :=
mk (results s) (config s) (pending_workflows s) (outputs s) (chat_histories s) (buffers s)
   (workflow_lengths s) (error_info s) c (workflow_dispatches s) (total_input_items s)
   (completed_input_items_success s) (successful_workflow_ids s) (list_lambda_outputs s) (ready s).
Definition set_dispatches d (s : t) : t :=
mk (results s) (config s) (pending_workflows s) (outputs s) (chat_histories s) (buffers s)
   (workflow_lengths s) (error_info s) (counters s) d (total_input_items s)
   (completed_input_items_success s) (successful_workflow_ids s) (list_lambda_outputs s) (ready s).
Definition set_success n l (s : t) : t :=
mk (results s) (config s) (pending_workflows s) (outputs s) (chat_histories s) (buffers s)
   (workflow_lengths s) (error_info s) (counters s) (workflow_dispatches s) (total_input_items s)
   n l (list_lambda_outputs s) (ready s).
Definition set_lambdas l (s : t) : t :=
mk (results s) (config s) (pending_workflows s) (outputs s) (chat_histories s) (buffers s)
   (workflow_lengths s) (error_info s) (counters s) (workflow_dispatches s) (total_input_items s)
   (completed_input_items_success s) (successful_workflow_ids s) l (ready s).
Definition put_result (r : LumilakeResponse.t) (s : t) : t :=
mk (results s ++ [r]) (config s) (pending_workflows s) (outputs s) (chat_histories s) (buffers s)
   (workflow_lengths s) (error_info s) (counters s) (workflow_dispatches s) (total_input_items s)
   (completed_input_items_success s) (successful_workflow_ids s) (list_lambda_outputs s) (ready s).

(** [append_error]: the list is created on the first error. *)
Definition append_error (payload : dict string val) (s : t) : t :=
set_errors (Some (default [] (error_info s) ++ [payload])) s.

(** [pending_workflows.discard(w)] *)
Definition discard_pending (w : string) (s : t) : t :=
set_pending (filter (.≠ w) (pending_workflows s)) s.

(** The response sent when a request is done. *)
Definition response (s : t) : LumilakeResponse.t :=
LumilakeResponse.mk (outputs s) (error_info s) (chat_histories s).
End RequestState.

Abbreviation request_table := (dict string RequestState.t).

(** A change to the state of one request, skipped when it is unknown. *)
Definition on_request (request_id : string) (f : RequestState.t → RequestState.t) (reqs : request_table) :
    request_table :=
  match dget request_id reqs with
  | Some s => dset request_id (f s) reqs
  | None => reqs
  end.

Lemma on_request_get id id' f reqs :
  dget id' (on_request id f reqs) = if decide (id' = id) then f <$> dget id reqs else dget id' reqs.
Proof.
  unfold on_request. destruct (dget id reqs) eqn:E; [rewrite dget_dset|]; case_decide; subst; try done.
Qed.

(** ** Runtime nodes by stage *)

(** [graphs] of one request in a batch: the nodes it brings. *)
Definition raw_nodes_by_request (workflows : list WorkflowItem.t) : dict string Z :=
  foldl (λ d i, dset (WorkflowItem.request_id i)
                  (dget_or 0 (WorkflowItem.request_id i) d +
                   RuntimeGraph.node_count (WorkflowItem.runtime_graph i))%Z d) [] workflows.

(** Entering a batch: nodes move from pending to processing. *)
Definition start_nodes (batch_id : string) (raw_nodes : Z) (c : Counters.t) : result Counters.t :=
  if (Counters.pending_raw c <? raw_nodes)%Z
  then Err (RuntimeError "Pending runtime nodes underflow for request")
  else Ok (Counters.mk (Counters.pending_raw c - raw_nodes) (Counters.processing_raw c + raw_nodes)
             (Counters.processing_optimized c) (Counters.processed_raw c) (Counters.processed_optimized c)
             (dset batch_id (raw_nodes, 0) (Counters.batch_node_counts c)))%Z.

(** Once the batch is optimized: its share of the optimized nodes. *)
Definition record_optimized (batch_id : string) (optimized_nodes : Z) (c : Counters.t) : result Counters.t :=
  match dget batch_id (Counters.batch_node_counts c) with
  | None => Err (RuntimeError "Missing batch node counts for request")
  | Some (raw, optimized) =>
      if negb (optimized =? 0)%Z
      then Err (RuntimeError "Batch optimized nodes already recorded for request")
      else Ok (Counters.mk (Counters.pending_raw c) (Counters.processing_raw c)
                 (Counters.processing_optimized c + optimized_nodes)
                 (Counters.processed_raw c) (Counters.processed_optimized c)
                 (dset batch_id (raw, optimized_nodes) (Counters.batch_node_counts c)))%Z
  end.

(** Leaving a batch, with [retry] when its requests are re-run one by one.
    The counts are popped before the checks, which raise on an underflow. *)
Definition finish_nodes (batch_id : string) (retry : bool) (c : Counters.t) : Counters.t * option exn :=
  match dget batch_id (Counters.batch_node_counts c) with
  | None => (c, None)
  | Some (raw, optimized) =>
      let counts := ddel batch_id (Counters.batch_node_counts c) in
      let 'Counters.mk pending processing processing_opt processed processed_opt _ := c in
      if retry then
        (Counters.mk (pending + raw) (processing - raw) (processing_opt - optimized)
           processed processed_opt counts, None)%Z
      else if (negb (raw =? 0) && (processing <? raw))%Z%bool
      then (Counters.mk pending processing processing_opt processed processed_opt counts,
            Some (RuntimeError "Processing runtime raw underflow for request"))
      else if (negb (optimized =? 0) && (processing_opt <? optimized))%Z%bool
      then (Counters.mk pending (processing - raw) processing_opt (processed + raw) processed_opt counts,
            Some (RuntimeError "Processing runtime optimized underflow for request"))%Z
      else (Counters.mk pending (processing - raw) (processing_opt - optimized)
              (processed + raw) (processed_opt + optimized) counts, None)%Z
  end.

(** ** Shares of the optimized nodes

    Deduplication merges nodes of several requests; each request is charged
    its proportional share, rounded down, and the first requests in id order
    one node more until all nodes are charged. *)

Definition floor_share (total_nodes total_raw raw_nodes : Z) : Z :=
  if (total_raw <=? 0)%Z then 0%Z else (total_nodes * raw_nodes / total_raw)%Z.

(** [for request_id in request_order: if remainder <= 0: break; ...] *)
Fixpoint spread_remainder (remainder : Z) (order : list string) (shares : dict string Z) : dict string Z :=
  match order with
  | [] => shares
  | request_id :: order' =>
      if (remainder <=? 0)%Z then shares
      else spread_remainder (remainder - 1) order'
             (dset request_id (dget_or 0 request_id shares + 1) shares)%Z
  end.

Definition optimized_nodes_by_request (total_nodes : Z) (raw : dict string Z) : dict string Z :=
  let total_raw := foldr Z.add 0%Z (dvals raw) in
  let request_order := sorted_by str_ltb id (dkeys raw) in
  let shares := dict_of ((λ r, (r, floor_share total_nodes total_raw (dget_or 0%Z r raw))) <$> request_order) in
  spread_remainder (total_nodes - foldr Z.add 0 (dvals shares))%Z request_order shares.

(** ** Batches and dispatch rows *)

Definition subset_graphs (ids : list string) (graphs : dict string RuntimeGraph.t) :
    result (dict string RuntimeGraph.t) :=
  dict_of <$> mapR (λ w, g ← dindex (KeyError w) w graphs; Ok (w, g)) ids.

(** [_split_batch_by_request] *)
Definition split_batch_by_request (batch : BatchSelection.t) : result (list BatchSelection.t) :=
  mapR (λ workflows : list WorkflowItem.t,
    runtime_graphs ← subset_graphs (ids workflows) (BatchSelection.runtime_graphs batch);
    data_profile_graphs ← subset_graphs (ids workflows) (BatchSelection.data_profile_graphs batch);
    Ok (BatchSelection.mk workflows runtime_graphs data_profile_graphs (BatchSelection.config batch)))
    (dvals (group_by WorkflowItem.request_id (BatchSelection.workflows batch))).

Definition dispatch_row (now : f64) (batch : BatchSelection.t) (batch_id execution_request_id : string)
    (workers : list string) (i : WorkflowItem.t) : WorkflowDispatch.t :=
  WorkflowDispatch.mk (WorkflowItem.workflow_id i) (WorkflowItem.graph_name i)
    (WorkflowItem.public_graph_name i) (WorkflowItem.slice_index i) (WorkflowItem.slice_start i)
    (WorkflowItem.slice_length i) (WorkflowItem.total_length i) (WorkflowItem.enqueued_at i)
    now (WorkflowItem.miss_count i) batch_id execution_request_id
    (ids (BatchSelection.workflows batch)) workers None.

(** [_record_workflow_dispatches] *)
Definition record_workflow_dispatches (now : f64) (batch : BatchSelection.t)
    (batch_id execution_request_id : string) (workers : list string) (reqs : request_table) : request_table :=
  foldl (λ reqs i, on_request (WorkflowItem.request_id i)
    (λ s, RequestState.set_dispatches
            (RequestState.workflow_dispatches s ++
             [dispatch_row now batch batch_id execution_request_id workers i]) s) reqs)
    reqs (BatchSelection.workflows batch).

(** [_fill_flowmesh_workflow_ids] for one request: [found] is the id the
    runtime manager recorded for the execution and batch. *)
Definition fill_row (batch_id execution_request_id flowmesh : string) (row : WorkflowDispatch.t) :
    WorkflowDispatch.t :=
  if bool_decide (WorkflowDispatch.execution_request_id row = execution_request_id ∧
                  WorkflowDispatch.batch_id row = batch_id)
  then WorkflowDispatch.set_flowmesh (Some flowmesh) row
  else row.

Definition fill_flowmesh_workflow_ids (batch_id execution_request_id : string) (found : option string)
    (member_request_ids : list string) (reqs : request_table) : request_table :=
  match found with
  | None => reqs
  | Some flowmesh =>
      foldl (λ reqs r, on_request r
        (λ s, RequestState.set_dispatches
                (fill_row batch_id execution_request_id flowmesh <$> RequestState.workflow_dispatches s) s) reqs)
        reqs member_request_ids
  end.

(** ** Every runtime node is in exactly one stage *)

Definition sumZ (l : list Z) : Z := foldr Z.add 0%Z l.

Lemma sumZ_perm l l' : l ≡ₚ l' → sumZ l = sumZ l'.
Proof. unfold sumZ. induction 1; simpl; lia. Qed.

Definition raw_running (c : Counters.t) : Z := sumZ (fst <$> dvals (Counters.batch_node_counts c)).
Definition optimized_running (c : Counters.t) : Z := sumZ (snd <$> dvals (Counters.batch_node_counts c)).

Record counters_ok (c : Counters.t) : Prop := {
  co_wf : dict_wf (Counters.batch_node_counts c);
  co_raw : Counters.processing_raw c = raw_running c;
  co_optimized : Counters.processing_optimized c = optimized_running c;
  co_nonneg : Forall (λ ro : Z * Z, (0 <= ro.1)%Z ∧ (0 <= ro.2)%Z) (dvals (Counters.batch_node_counts c));
  co_pending : (0 <= Counters.pending_raw c)%Z;
}.

Definition all_nodes (c : Counters.t) : Z :=
  (Counters.pending_raw c + Counters.processing_raw c + Counters.processed_raw c)%Z.

(** The accounting steps of one request, as its batches make them. *)
Inductive node_step : Counters.t → Counters.t → Prop :=
  | NodeStart batch_id raw c c' :
      batch_id ∉ dkeys (Counters.batch_node_counts c) → (0 <= raw)%Z →
      start_nodes batch_id raw c = Ok c' → node_step c c'
  | NodeOptimized batch_id optimized c c' :
      (0 <= optimized)%Z → record_optimized batch_id optimized c = Ok c' → node_step c c'
  | NodeFinish batch_id retry c c' e :
      finish_nodes batch_id retry c = (c', e) → node_step c c'.

Definition initial_counters (n : Z) : Counters.t := Counters.mk n 0 0 0 0 [].

Section sums.
Context {A} (f : A → Z).
Lemma sum_dset_new k v (d : dict string A) : k ∉ dkeys d →
sumZ (f <$> dvals (dset k v d)) = (sumZ (f <$> dvals d) + f v)%Z.
Proof.
intros Hk. rewrite dset_new by done. unfold dvals, sumZ. induction d as [|[k' v'] d IH]; csimpl; [lia|].
rewrite IH; [lia|]. set_solver.
Qed.

Lemma sum_dset_old k v v' (d : dict string A) : dget k d = Some v' →
sumZ (f <$> dvals (dset k v d)) = (sumZ (f <$> dvals d) - f v' + f v)%Z.
Proof.
unfold dvals, sumZ. induction d as [|[k1 v1] d IH]; simpl; [done|].
case_decide as D; intros E; simplify_eq; csimpl; [lia|]. rewrite IH by done. lia.
Qed.

Lemma sum_ddel k v (d : dict string A) : dict_wf d → dget k d = Some v →
sumZ (f <$> dvals (ddel k d)) = (sumZ (f <$> dvals d) - f v)%Z.
Proof.
unfold dvals, sumZ, dict_wf, dkeys. induction d as [|[k1 v1] d IH]; csimpl; [done|].
intros [Hk1 Hnd]%NoDup_cons. case_decide as D; intros E; simplify_eq; csimpl.
- enough (ddel k1 d = d) as -> by lia.
  rewrite ddel_filter. clear IH Hnd. induction d as [|[k2 v2] d IH]; [done|].
  rewrite filter_cons. cbn. rewrite decide_True by set_solver. rewrite IH; [done|set_solver].
- rewrite IH by done. lia.
Qed.
End sums.

Lemma dvals_dset_forall (P : Z * Z → Prop) k v (d : dict string (Z * Z)) :
  Forall P (dvals d) → P v → Forall P (dvals (dset k v d)).
Proof.
  unfold dvals. rewrite !Forall_fmap, !Forall_forall. intros Hd Hv [k' v'] [[-> ->]|Hin]%elem_of_dset; [done|].
  by apply Hd.
Qed.

Lemma sum_nonneg (rs : list Z) : Forall (λ z, 0 <= z)%Z rs → (0 <= sumZ rs)%Z.
Proof. unfold sumZ. induction 1; simpl; lia. Qed.

Lemma running_bound (f : Z * Z → Z) (d : dict string (Z * Z)) k v :
  (∀ ro, (0 <= ro.1)%Z ∧ (0 <= ro.2)%Z → (0 <= f ro)%Z) →
  Forall (λ ro : Z * Z, (0 <= ro.1)%Z ∧ (0 <= ro.2)%Z) (dvals d) → dget k d = Some v →
  (0 <= f v <= sumZ (f <$> dvals d))%Z.
Proof.
  intros Hf Hd Hk. apply dget_elem in Hk. unfold dvals in *.
  apply list_elem_of_split in Hk as (d1 & d2 & ->).
  rewrite (sumZ_perm _ (f v :: (f <$> (d1 ++ d2).*2))).
  - rewrite fmap_app in Hd. csimpl in Hd. apply Forall_app in Hd as [Hd1 [Hv Hd2]%Forall_cons].
    assert (H : Forall (λ z, 0 <= z)%Z (f <$> (d1 ++ d2).*2)).
    { rewrite !fmap_app. apply Forall_app. split; apply Forall_fmap.
      - eapply Forall_impl; [exact Hd1|exact Hf].
      - eapply Forall_impl; [exact Hd2|exact Hf]. }
    apply sum_nonneg in H. specialize (Hf v Hv). unfold sumZ in *. simpl. lia.
  - rewrite !fmap_app. csimpl. by rewrite <-Permutation_middle.
Qed.

Lemma running_le c k raw optimized :
  counters_ok c → dget k (Counters.batch_node_counts c) = Some (raw, optimized) →
  (0 <= raw <= Counters.processing_raw c)%Z ∧ (0 <= optimized <= Counters.processing_optimized c)%Z.
Proof.
  intros [H1 H2 H3 H4 _] Hk. rewrite H2, H3. unfold raw_running, optimized_running.
  split; [apply (running_bound fst _ k (raw, optimized))|apply (running_bound snd _ k (raw, optimized))];
    try done; naive_solver.
Qed.

Lemma node_step_ok c c' : node_step c c' → counters_ok c → counters_ok c' ∧ all_nodes c' = all_nodes c.
Proof.
  intros Hs Hok. pose proof Hok as [H1 H2 H3 H4 H5].
  destruct Hs as [b raw c c' Hb Hr E|b opt c c' Ho E|b retry c c' e E].
  - unfold start_nodes in E. destruct (Z.ltb_spec (Counters.pending_raw c) raw); [done|]. inv_ok.
    unfold all_nodes. simpl. split; [|lia].
    split; unfold raw_running, optimized_running in *; simpl.
    + by apply dict_wf_dset.
    + rewrite sum_dset_new by done. simpl. lia.
    + rewrite sum_dset_new by done. simpl. lia.
    + by apply dvals_dset_forall.
    + lia.
  - unfold record_optimized in E. destruct (dget b _) as [[raw optd]|] eqn:Ed; [|done].
    destruct (Z.eqb_spec optd 0); simpl in E; [|done]. inv_ok.
    pose proof (running_le _ _ _ _ Hok Ed). unfold all_nodes. simpl. split; [|lia].
    split; unfold raw_running, optimized_running in *; simpl.
    + by apply dict_wf_dset.
    + rewrite (sum_dset_old _ _ _ _ _ Ed). simpl. lia.
    + rewrite (sum_dset_old _ _ _ _ _ Ed). simpl. lia.
    + apply dvals_dset_forall; [done|]. simpl. lia.
    + lia.
  - unfold finish_nodes in E. destruct (dget b _) as [[raw opt]|] eqn:Ed; [|by simplify_eq].
    pose proof (running_le _ _ _ _ Hok Ed) as [Hr Ho].
    assert (Hpop : ∀ p pr po pd pdo,
      (0 <= p)%Z → pr = (Counters.processing_raw c - raw)%Z → po = (Counters.processing_optimized c - opt)%Z →
      counters_ok (Counters.mk p pr po pd pdo (ddel b (Counters.batch_node_counts c)))).
    { intros p pr po pd pdo Hp -> ->. split; unfold raw_running, optimized_running in *; simpl.
      - by apply dict_wf_ddel.
      - rewrite (sum_ddel _ _ _ _ H1 Ed). simpl. lia.
      - rewrite (sum_ddel _ _ _ _ H1 Ed). simpl. lia.
      - unfold dvals in *. rewrite Forall_fmap, Forall_forall in H4 |- *.
        intros [k v] [_ Hin]%elem_of_ddel. by apply (H4 (k, v)).
      - done. }
    destruct c as [p pr po pd pdo counts]. unfold all_nodes. simpl in *.
    destruct retry; [simplify_eq; split; [apply Hpop; lia|simpl; lia]|].
    destruct (Z.ltb_spec pr raw); [lia|]. rewrite andb_false_r in E.
    destruct (Z.ltb_spec po opt); [lia|]. rewrite andb_false_r in E.
    simplify_eq. split; [apply Hpop; lia|simpl; lia].
Qed.

Lemma finish_never_raises b retry c : counters_ok c → (finish_nodes b retry c).2 = None.
Proof.
  intros Hok. unfold finish_nodes. destruct (dget b _) as [[raw opt]|] eqn:Ed; [|done].
  pose proof (running_le _ _ _ _ Hok Ed). destruct c as [p pr po pd pdo counts]. simpl in *.
  destruct retry; [done|].
  destruct (Z.ltb_spec pr raw); [lia|]. rewrite andb_false_r.
  destruct (Z.ltb_spec po opt); [lia|]. by rewrite andb_false_r.
Qed.

(** The runtime nodes of a request are conserved: along any sequence of
    batches starting, being optimized, retried and finishing, every node is in
    exactly one of the three stages, finishing a batch never reports an
    underflow, and with no batch running nothing is left in processing. *)
Theorem nodes_are_conserved n c :
  (0 <= n)%Z → rtc node_step (initial_counters n) c →
  all_nodes c = n ∧ counters_ok c ∧
  (∀ batch_id retry, (finish_nodes batch_id retry c).2 = None) ∧
  (Counters.batch_node_counts c = [] → Counters.processing_raw c = 0%Z ∧ Counters.processing_optimized c = 0%Z).
Proof.
  intros Hn Hc. assert (H : all_nodes c = n ∧ counters_ok c).
  { revert Hc. apply (rtc_ind_r (λ c, all_nodes c = n ∧ counters_ok c)).
    - unfold all_nodes. simpl. split; [lia|]. split; try done. constructor.
    - intros c1 c2 _ Hs [IH1 IH2]. destruct (node_step_ok _ _ Hs IH2) as [? ->]. done. }
  destruct H as [H1 H2]. split_and!; try done.
  - intros b retry. by apply finish_never_raises.
  - intros He. destruct H2 as [_ -> -> _ _]. unfold raw_running, optimized_running. by rewrite He.
Qed.

Lemma nodes_are_conserved_witness :
  all_nodes (Counters.mk 2 3 1 4 2 [("b2", (3, 1)%Z)]) = 9%Z.
Proof.
  apply (nodes_are_conserved 9); [lia|].
  assert (E1 : start_nodes "b1" 4 (initial_counters 9) = Ok (Counters.mk 5 4 0 0 0 [("b1", (4, 0))]%Z)) by reflexivity.
  eapply rtc_l; [eapply (NodeStart "b1" 4); [apply not_elem_of_nil|discriminate|exact E1]|].
  eapply rtc_l; [eapply (NodeOptimized "b1" 2); [discriminate|reflexivity]|].
  eapply rtc_l; [eapply (NodeStart "b2" 3); [|discriminate|reflexivity]|].
  { apply (bool_decide_unpack _). vm_compute. exact I. }
  eapply rtc_l; [eapply (NodeFinish "b1" false); reflexivity|].
  eapply rtc_l; [eapply (NodeOptimized "b2" 1); [discriminate|reflexivity]|].
  apply rtc_refl.
Defined.

(** ** Shares add up *)

Lemma sumZ_app l l' : sumZ (l ++ l') = (sumZ l + sumZ l')%Z.
Proof. unfold sumZ. induction l; simpl; lia. Qed.

Lemma spread_remainder_spec R order (shares : dict string Z) :
  NoDup order → (∀ r, r ∈ order → r ∈ dkeys shares) → (0 <= R <= Z.of_nat (length order))%Z →
  sumZ (dvals (spread_remainder R order shares)) = (sumZ (dvals shares) + R)%Z ∧
  (∀ r, r ∉ order → dget r (spread_remainder R order shares) = dget r shares) ∧
  (∀ r s, dget r shares = Some s →
     ∃ s', dget r (spread_remainder R order shares) = Some s' ∧ (s <= s' <= s + 1)%Z).
Proof.
  revert R shares. induction order as [|o order IH]; intros R shares Hnd Hin HR; simpl in *.
  - split; [lia|]. split; [done|]. intros r s Hs. exists s. split; [done|lia].
  - apply NoDup_cons in Hnd as [Ho Hnd].
    destruct (Z.leb_spec R 0).
    { split; [lia|]. split; [done|]. intros r s Hs. exists s. split; [done|lia]. }
    destruct (proj2 (dget_is_Some o shares)) as [so Hso]; [apply Hin; left|].
    edestruct (IH (R - 1)%Z (dset o (dget_or 0 o shares + 1)%Z shares)) as (IH1 & IH2 & IH3); [done| |lia|].
    { intros r Hr. apply elem_of_dkeys_dset. right. apply Hin. by right. }
    rewrite IH1. unfold dget_or. rewrite Hso. split; [|split].
    + pose proof (sum_dset_old id o (so + 1)%Z so shares Hso) as Hsum. rewrite !list_fmap_id in Hsum.
      rewrite Hsum. unfold id. lia.
    + intros r Hr. unfold dget_or in IH2. rewrite Hso in IH2. rewrite IH2 by set_solver.
      apply dget_dset_ne. set_solver.
    + intros r s Hs. unfold dget_or in *. rewrite Hso in IH2, IH3.
      destruct (decide (r = o)) as [->|Hne].
      * rewrite IH2 by done. rewrite dget_dset_eq. simplify_eq. eexists. split; [done|lia].
      * apply IH3. by rewrite dget_dset_ne.
Qed.

Lemma floor_shares_bound total_nodes total_raw (raws : list Z) :
  (0 < total_raw)%Z →
  (total_raw * sumZ (floor_share total_nodes total_raw <$> raws) <= total_nodes * sumZ raws)%Z ∧
  (total_nodes * sumZ raws <=
   total_raw * (sumZ (floor_share total_nodes total_raw <$> raws) + Z.of_nat (length raws)) - Z.of_nat (length raws))%Z.
Proof.
  intros HT. unfold sumZ. induction raws as [|x raws [IH1 IH2]]; [simpl; lia|].
  rewrite fmap_cons. cbn [foldr length]. unfold floor_share at 1 3.
  destruct (Z.leb_spec total_raw 0); [lia|].
  pose proof (Z.div_mod (total_nodes * x) total_raw ltac:(lia)).
  pose proof (Z.mod_pos_bound (total_nodes * x) total_raw HT). lia.
Qed.

(** The nodes of an optimized batch are charged to its requests without
    loss: the shares add up to the optimized node count, and every request is
    charged its proportional share rounded down, or one node more. *)
Theorem optimized_shares_add_up total_nodes raw :
  dict_wf raw → (0 <= total_nodes)%Z → (0 < sumZ (dvals raw))%Z →
  let shares := optimized_nodes_by_request total_nodes raw in
  sumZ (dvals shares) = total_nodes ∧
  ∀ r n, dget r raw = Some n → ∃ s, dget r shares = Some s ∧
    (total_nodes * n / sumZ (dvals raw) <= s <= total_nodes * n / sumZ (dvals raw) + 1)%Z.
Proof.
  intros Hwf Ht HT. unfold optimized_nodes_by_request. fold (sumZ (dvals raw)).
  set (T := sumZ (dvals raw)) in *. set (order := sorted_by str_ltb id (dkeys raw)).
  assert (Hperm : order ≡ₚ dkeys raw) by apply sorted_by_perm.
  assert (Hnd : NoDup order) by (by rewrite Hperm).
  set (f r := floor_share total_nodes T (dget_or 0%Z r raw)).
  assert (Hs : dict_of ((λ r, (r, f r)) <$> order) = (λ r, (r, f r)) <$> order).
  { apply dict_of_nodup. rewrite <-list_fmap_compose. by rewrite list_fmap_id. }
  cbv zeta. fold order. match goal with |- context [dict_of ?m] => change m with ((λ r, (r, f r)) <$> order) end.
  rewrite Hs. fold (sumZ (dvals ((λ r, (r, f r)) <$> order))).
  assert (Hk : dkeys ((λ r, (r, f r)) <$> order) = order).
  { unfold dkeys. rewrite <-list_fmap_compose. by apply list_fmap_id. }
  assert (Hraws : (λ r, dget_or 0%Z r raw) <$> dkeys raw = dvals raw).
  { unfold dkeys, dvals. rewrite <-list_fmap_compose. apply list_fmap_ext.
    intros i [k v] Hi. simpl. unfold dget_or.
    by rewrite (elem_dget k v raw) by (done || by eapply list_elem_of_lookup_2). }
  assert (Hsum : sumZ (dvals ((λ r, (r, f r)) <$> order)) = sumZ (floor_share total_nodes T <$> dvals raw)).
  { unfold dvals. rewrite <-list_fmap_compose. fold (dvals raw). rewrite <-Hraws, <-list_fmap_compose.
    apply sumZ_perm. by rewrite Hperm. }
  assert (Hlen : length (dvals raw) = length order).
  { rewrite Hperm. unfold dvals, dkeys. by rewrite !length_fmap. }
  destruct (floor_shares_bound total_nodes T (dvals raw) HT) as [Hlo Hhi].
  fold T in Hlo, Hhi. rewrite Hlen in Hhi.
  set (F := sumZ (floor_share total_nodes T <$> dvals raw)) in *.
  assert (HR : (0 <= total_nodes - F <= Z.of_nat (length order))%Z) by nia.
  destruct (spread_remainder_spec (total_nodes - F) order ((λ r, (r, f r)) <$> order)) as (S1 & _ & S3);
    [done|by rewrite Hk|done|].
  rewrite Hsum. split; [rewrite S1, Hsum; lia|].
  intros r n Hr. assert (Hin : r ∈ order) by (rewrite Hperm; apply dget_is_Some; by eexists).
  destruct (S3 r (f r)) as (s & Hs' & Hb).
  { rewrite <-Hs. by apply (dget_dict_of_map f). }
  exists s. split; [done|]. unfold f, dget_or, floor_share in Hb. rewrite Hr in Hb.
  destruct (Z.leb_spec T 0); [lia|]. done.
Qed.

Lemma optimized_shares_add_up_witness :
  sumZ (dvals (optimized_nodes_by_request 7 [("r2", 5%Z); ("r1", 3%Z); ("r3", 3%Z)])) = 7%Z.
Proof.
  apply (optimized_shares_add_up 7 [("r2", 5%Z); ("r1", 3%Z); ("r3", 3%Z)]).
  - apply (bool_decide_unpack _). vm_compute. exact I.
  - discriminate.
  - reflexivity.
Defined.

Example shares_ex : optimized_nodes_by_request 7 [("r2", 5%Z); ("r1", 3%Z); ("r3", 3%Z)]
  = [("r1", 2%Z); ("r2", 4%Z); ("r3", 1%Z)].
Proof. reflexivity. Qed.
