(* ===== verification/Coalesce.v ===== *)
(** * Coalescing the slices of a workflow (runtime/server.py)

    The slices of one request workflow that land in the same batch run as one:
    [_group_workflows_by_parent_workflow] groups them,
    [_merge_group_compiled_graph] concatenates the inputs that vary from slice
    to slice and rewrites the literals of the DSL graph that were bound to
    them.  [json.loads] is the parameter [json_loads]. *)

From S2P Require Import Prelude PyFloat PyDict Grouping PyValue PyString RuntimeGraph DslGraph JobBase.
From Stdlib Require Import Ascii SpecFloat.

(** ** Grouping *)

Definition request_workflow_parent_id (w : WorkflowItem.t) : string :=
  "request::" +:+ WorkflowItem.request_id w +:+ "::" +:+ WorkflowItem.public_graph_name w +:+
  "::" +:+ WorkflowItem.template_hash w.

(** [key=lambda item: (request_id, public_graph_name, slice_index, workflow_id)] *)
Definition slice_key (w : WorkflowItem.t) : string * (string * (Z * string)) :=
  (WorkflowItem.request_id w, (WorkflowItem.public_graph_name w,
    (WorkflowItem.slice_index w, WorkflowItem.workflow_id w))).

Definition slice_key_lt : string * (string * (Z * string)) → string * (string * (Z * string)) → bool :=
  lex_lt String.eqb str_ltb (lex_lt String.eqb str_ltb (lex_lt Z.eqb Z.ltb str_ltb)).

Definition sorted_slices (l : list WorkflowItem.t) : list WorkflowItem.t := sorted_by slice_key_lt slice_key l.

(** [a * b] and [a / b] on numbers; a boolean is an integer. *)
Inductive num := NInt (z : Z) | NFloat (f : f64).

Definition as_num (v : val) : result num :=
  match v with
  | VFloat f => Ok (NFloat f)
  | _ => match as_int v with Some z => Ok (NInt z) | None => Err (TypeError "unsupported operand type(s)") end
  end.

Definition num_float (n : num) : result f64 :=
  match n with
  | NFloat f => Ok f
  | NInt z => match of_Z z with S754_infinity _ => Err OverflowError | f => Ok f end
  end.

Definition num_mul (a b : num) : result num :=
  match a, b with
  | NInt x, NInt y => Ok (NInt (x * y))
  | _, _ => x ← num_float a; y ← num_float b; Ok (NFloat (fmul x y))
  end.

Definition num_div (a b : num) : result f64 :=
  match a, b with
  | NInt x, NInt y =>
      q ← py_int_div x y;
      match q with S754_infinity _ => Err OverflowError | _ => Ok q end
  | _, _ => x ← num_float a; y ← num_float b; py_div x y
  end.

(** The share of its time limit one python step of a slice is expected to
    use; infinite when its row count is unknown. *)
Definition step_share (data_spec : dict string val) : result f64 :=
  if dmem "row_count" data_spec then
    expected ← as_num (vget "expected_runtime_s" data_spec);
    rows ← as_num (vget "row_count" data_spec);
    product ← num_mul expected rows;
    timeout ← dindex (KeyError "timeout_s") "timeout_s" data_spec;
    limit ← as_num timeout;
    num_div product limit
  else Ok finf.

Definition counts_for_share (op : RuntimeOp.t) : bool :=
  (String.eqb (RuntimeOp.task_type op) PYTHON_TASK_TYPE &&
   dmem "expected_runtime_s" (RuntimeOp.data_spec op))%bool.

(** [max(..., default=0.0)] over the steps of the slice *)
Definition slice_share (w : WorkflowItem.t) : result f64 :=
  shares ← mapR (λ op, step_share (RuntimeOp.data_spec op))
             (filter (λ op, counts_for_share op = true)
                (dvals (RuntimeGraph.nodes (WorkflowItem.runtime_graph w))));
  Ok (match shares with [] => fzero | s :: rest => max_by fltb id s rest end).

(** [chunks[-1].append(item)] *)
Definition append_last {A} (x : A) (chunks : list (list A)) : list (list A) :=
  alter (λ chunk, chunk ++ [x]) (pred (length chunks)) chunks.

Definition fone : f64 := of_Z 1.

Definition chunk_step (s : list (list WorkflowItem.t) * f64) (w : WorkflowItem.t) :
    result (list (list WorkflowItem.t) * f64) :=
  let '(chunks, load) := s in
  share ← slice_share w;
  match chunks with
  | _ :: _ =>
      if fleb (fadd load share) fone then Ok (append_last w chunks, fadd load share)
      else Ok (chunks ++ [[w]], share)
  | [] => Ok (chunks ++ [[w]], share)
  end.

(** [_chunk_within_python_timeouts] *)
Definition chunk_within_python_timeouts (ordered : list WorkflowItem.t) : result (list (list WorkflowItem.t)) :=
  s ← foldR chunk_step ([], fzero) ordered;
  Ok s.1.

Definition chunk_key (parent : string) (idx : nat) : string :=
  if idx =? 0 then parent else parent +:+ "::" +:+ str_of_nat idx.

(** The chunks of one parent, under their keys. *)
Definition group_step (grouped : dict string (list WorkflowItem.t)) (kv : string * list WorkflowItem.t) :
    result (dict string (list WorkflowItem.t)) :=
  chunks ← chunk_within_python_timeouts (sorted_slices kv.2);
  Ok (foldl (λ grouped c, dset c.1 c.2 grouped) grouped
        (imap (λ idx chunk, (chunk_key kv.1 idx, chunk)) chunks)).

(** [_group_workflows_by_parent_workflow] *)
Definition group_workflows_by_parent_workflow (workflows : list WorkflowItem.t) :
    result (dict string (list WorkflowItem.t)) :=
  foldR group_step [] (group_by request_workflow_parent_id workflows).

(** ** Literals bound to inputs *)

(** What [_iter_input_bound_list_specs] yields for one entry of [params] or
    [rowwise_columns]: the label and the data of a list literal, and the
    entry itself ([owner]). *)
Definition bound_spec (entry : val) : option (string * dict string val * dict string val) :=
  match entry with
  | VDict owner =>
      match vget "label" owner, vget "data" owner with
      | VStr label, VDict data =>
          match vget "type" data, vget "items" data with
          | VStr "list", VList _ => Some (label, data, owner)
          | _, _ => None
          end
      | _, _ => None
      end
  | _ => None
  end.

(** The entries of an op that may be bound to inputs. *)
Definition bound_entries (op : DslOp.t) : list val :=
  match DslOp.cls op with
  | DslOp.DataRetrievalOp data_spec => match vget "params" data_spec with VList l => l | _ => [] end
  | DslOp.LLMChatOp (VList columns) => columns
  | _ => []
  end.

Definition iter_input_bound_list_specs (g : dict string DslOp.t) :
    list (string * dict string val * dict string val) :=
  dvals g ≫= λ op, omap bound_spec (bound_entries op).

(** Rewriting the entries of an op in place. *)
Definition set_entries (entries : list val) (op : DslOp.t) : DslOp.t :=
  DslOp.mk (DslOp.id op)
    (match DslOp.cls op with
     | DslOp.DataRetrievalOp data_spec =>
         match vget "params" data_spec with
         | VList _ => DslOp.DataRetrievalOp (dset "params" (VList entries) data_spec)
         | _ => DslOp.cls op
         end
     | DslOp.LLMChatOp (VList _) => DslOp.LLMChatOp (VList entries)
     | cls => cls
     end) (DslOp.name op) (DslOp.inputs op) (DslOp.max_iter op).

(** ** Validation of the merged inputs *)

Definition str_mem (k : string) (l : list string) : bool := bool_decide (k ∈ l).

(** The slices must be consistent, and every varying input as long as the
    slice says. *)
Definition check_slice_input (key : string) (expected : Z) (w : WorkflowItem.t) : result Z :=
  match dget key (CompiledGraph.inputs (WorkflowItem.dsl_graph w)) with
  | None => Err (ValueError "Missing varying input key")
  | Some values =>
      if (Z.of_nat (length values) =? WorkflowItem.slice_length w)%Z
      then Ok (expected + Z.of_nat (length values))%Z
      else Err (ValueError "Workflow input length mismatch for varying key")
  end.

Definition check_merged_key (workflows : list WorkflowItem.t) (first_total_length : Z)
    (merged_inputs : dict string (list string)) (key : string) : result unit :=
  expected ← foldR (check_slice_input key) 0%Z workflows;
  if (first_total_length <? expected)%Z
  then Err (ValueError "Merged varying input length exceeds total_length")
  else
    match dget key merged_inputs with
    | None => Err (ValueError "Merged inputs missing varying key")
    | Some merged =>
        if (Z.of_nat (length merged) =? expected)%Z then Ok tt
        else Err (ValueError "Merged varying input length mismatch")
    end.

Definition sorted_strings (l : list string) : list string := sorted_by str_ltb id (remove_dups l).

(** [_validate_merged_varying_inputs] *)
Definition validate_merged_varying_inputs (workflows : list WorkflowItem.t)
    (merged_inputs : dict string (list string)) (varying_input_keys : list string) : result unit :=
  match varying_input_keys, workflows with
  | [], _ => Ok tt
  | _, [] => Err (IndexError "list index out of range")
  | _, first :: _ =>
      let input_keys := dkeys (CompiledGraph.inputs (WorkflowItem.dsl_graph first)) in
      if negb (forallb (λ k, str_mem k input_keys) varying_input_keys)
      then Err (ValueError "Varying input keys missing from compiled graph inputs")
      else if negb (forallb (λ w, WorkflowItem.total_length w =? WorkflowItem.total_length first)%Z workflows)
      then Err (ValueError "Inconsistent total_length across slices in merge group")
      else foldR (λ _, check_merged_key workflows (WorkflowItem.total_length first) merged_inputs) tt
             (sorted_strings varying_input_keys)
  end.

(** ** Projecting literal inputs (common.py) *)

Section json.
Context (json_loads : string → option val).

Definition walk_key (obj : val) (key : string) : result val :=
match obj with
| VDict d => dindex (ValueError "value missing field at path") key d
| _ => Err (ValueError "value missing field at path")
end.

(** [project_input_keys] *)
Definition project_input_keys (values keys : list string) : result (list val) :=
mapR (λ value,
  obj ← ok_or (ValueError "value is not JSON at field path") (json_loads value);
  foldR walk_key obj keys) values.

(** [text[len(prefix):]] when the text starts with the prefix *)
Definition after_prefix (prefix text : string) : option string :=
of_chars <$> starts_with (chars prefix) (chars text).

Definition path_keys (normalized : string) : list string :=
let dotted s := py_split "."%char s in
match after_prefix "item.json." normalized with
| Some rest => dotted rest
| None =>
    match after_prefix "item.output." normalized with
    | Some rest => dotted rest
    | None =>
        match after_prefix "item." normalized with
        | Some rest => dotted rest
        | None => dotted normalized
        end
    end
end.

(** [project_input_values] *)
Definition project_input_values (values : list string) (path : option string) : result (list val) :=
let normalized := strip (default "" path) in
if str_mem normalized ["item"; "item.output"; "item.json"] then Ok (VStr <$> values)
else
  let keys := path_keys normalized in
  if bool_decide (keys = [""]) then Ok (VStr <$> values)
  else project_input_keys values keys.

(** ** Rewriting *)

Definition strings_val (l : list string) : val := VList (VStr <$> l).

Section rewrite.
Context (merged_inputs first_slice_inputs : dict string (list string)).
Context (varying_input_keys : list string).

(** The labels that name no varying key but carry the literal of exactly one. *)
Definition infer_alias (aliases : dict string string) (spec : string * dict string val * dict string val) :
  result (dict string string) :=
let '(label, data, owner) := spec in
if str_mem label varying_input_keys then Ok aliases
else
  match vget "input_ref" owner with
  | VDict _ => Ok aliases
  | _ =>
      match (filter (λ kv, vget "items" data = strings_val kv.2) first_slice_inputs).*1 with
      | [] => Ok aliases
      | [key] => Ok (dset label key aliases)
      | _ => Err (ValueError "Ambiguous varying input alias")
      end
  end.

(** [_rewrite_target_key] *)
Definition rewrite_target_key (aliases : dict string string) (label : string) (owner : dict string val) :
  result (option string) :=
match vget "input_ref" owner with
| VDict input_ref =>
    match vget "key" input_ref with
    | VStr key => Ok (if str_mem key varying_input_keys then Some key else None)
    | _ => Err (ValueError "Invalid input_ref key")
    end
| _ => if str_mem label varying_input_keys then Ok (Some label) else Ok (dget label aliases)
end.

(** The new [data] of a literal bound to the input [target]. *)
Definition rewrite_data (target : string) (data owner : dict string val) : result (dict string val) :=
replacement ← dindex (KeyError target) target merged_inputs;
match vget "input_ref" owner with
| VDict input_ref =>
    match vget "key" input_ref, vget "path" input_ref with
    | VStr _, VStr path =>
        projected ← project_input_values replacement (Some path);
        Ok (if 1 <? length replacement
            then dset "grouped" (VBool true) (dset "items" (VList projected) data)
            else dset "items" (VList projected) data)
    | VStr _, VNone =>
        projected ← project_input_values replacement None;
        Ok (if 1 <? length replacement
            then dset "grouped" (VBool true) (dset "items" (VList projected) data)
            else dset "items" (VList projected) data)
    | _, _ => Err (ValueError "Invalid input_ref")
    end
| _ => Ok (dset "items" (strings_val replacement) data)
end.

(** One entry: the hits are counted per target key. *)
Definition rewrite_entry (aliases : dict string string) (hits : dict string Z) (entry : val) :
  result (dict string Z * val) :=
match bound_spec entry with
| None => Ok (hits, entry)
| Some (label, data, owner) =>
    target ← rewrite_target_key aliases label owner;
    match target with
    | None => Ok (hits, entry)
    | Some key =>
        data' ← rewrite_data key data owner;
        Ok (dset key (dget_or 0 key hits + 1)%Z hits, VDict (dset "data" (VDict data') owner))
    end
end.

Definition rewrite_op (aliases : dict string string) (hits : dict string Z) (kv : string * DslOp.t) :
  result (dict string Z * (string * DslOp.t)) :=
r ← mapAccumR (rewrite_entry aliases) hits (bound_entries kv.2);
Ok (r.1, (kv.1, set_entries r.2 kv.2)).

(** A varying key nothing was rewritten for must be read by an [InputOp]. *)
Definition check_hit (input_ops : dict string DslOp.t) (kv : string * Z) : result unit :=
if (0 <? kv.2)%Z then Ok tt
else if (dmem kv.1 input_ops && dmem kv.1 merged_inputs)%bool then Ok tt
else Err (ValueError "No rewrite target found for varying key").

Definition check_rewritten (aliases : dict string string) (spec : string * dict string val * dict string val) :
  result unit :=
let '(label, data, owner) := spec in
target ← rewrite_target_key aliases label owner;
match target with
| None => Ok tt
| Some key =>
    merged ← dindex (KeyError key) key merged_inputs;
    match vget "items" data with
    | VList items =>
        if length items =? length merged then Ok tt
        else Err (ValueError "Rewritten field length mismatch")
    | _ => Err (ValueError "Rewritten field is no longer a list")
    end
end.

(** [_rewrite_varying_input_literals]: the rewritten ops and the hits. *)
Definition rewrite_varying_input_literals (g : Graph.t) : result (Graph.t * dict string Z) :=
aliases ← foldR infer_alias [] (iter_input_bound_list_specs (Graph.graph g));
r ← mapAccumR (rewrite_op aliases) (dict_of ((λ k, (k, 0%Z)) <$> varying_input_keys)) (Graph.graph g);
let '(hits, ops) := r in
_ ← mapR (check_hit (Graph.input_ops g)) hits;
_ ← mapR (check_rewritten aliases) (iter_input_bound_list_specs ops);
Ok (Graph.mk ops (Graph.input_ops g) (Graph.output_ops g), hits).
End rewrite.

(** ** Merging a group *)

Definition same_keys (a b : list string) : bool :=
(forallb (λ k, str_mem k b) a && forallb (λ k, str_mem k a) b)%bool.

Definition slice_inputs (w : WorkflowItem.t) : dict string (list string) :=
CompiledGraph.inputs (WorkflowItem.dsl_graph w).

(** The merged values of one input. *)
Definition merge_input (ordered : list WorkflowItem.t) (first : WorkflowItem.t) (varying : list string)
  (input_key : string) : result (list string) :=
if str_mem input_key varying
then parts ← mapR (λ w, dindex (ValueError "Missing input key in workflow slice") input_key (slice_inputs w)) ordered;
     Ok (concat parts)
else dindex (ValueError "Missing non-varying input key in workflow slice") input_key (slice_inputs first).

(** [_merge_group_compiled_graph]: the merged graph, with the rewrite hits, or
  [None] when there was nothing to rewrite. *)
Definition merge_group_compiled_graph (workflows : list WorkflowItem.t) :
  result (CompiledGraph.t * option (dict string Z)) :=
let ordered := sorted_slices workflows in
match ordered with
| [] => Err (ValueError "Cannot merge an empty workflow group")
| [first] => Ok (WorkflowItem.dsl_graph first, None)
| first :: _ =>
    let varying := WorkflowItem.varying_input_keys first in
    if negb (forallb (λ w, same_keys (WorkflowItem.varying_input_keys w) varying) ordered)
    then Err (ValueError "Inconsistent varying_input_keys in merge group")
    else
      merged_inputs ← mapR (λ k, values ← merge_input ordered first varying k; Ok (k, values))
                        (dkeys (slice_inputs first));
      _ ← validate_merged_varying_inputs ordered merged_inputs varying;
      first_slice_inputs ← mapR (λ k, values ← dindex (KeyError k) k (slice_inputs first); Ok (k, values))
                             (sorted_strings varying);
      r ← rewrite_varying_input_literals merged_inputs first_slice_inputs varying
            (CompiledGraph.graph (WorkflowItem.dsl_graph first));
      Ok (CompiledGraph.mk r.1 merged_inputs, Some r.2)
end.
End json.
