(* ===== verification/CoalesceProps.v ===== *)
(** * Correctness of coalescing

    Grouping loses no slice and keeps the slices of a request workflow in
    order; a chunk of several slices is expected to stay within the time
    limit; merging a group concatenates the inputs of its slices. *)

From S2P Require Import Prelude PyFloat PyDict Grouping PyValue PyString Protocol RuntimeGraph DslGraph JobBase Coalesce.
From Stdlib Require Import Ascii SpecFloat.

(** ** Chunks *)

Lemma append_last_snoc {A} (x : A) chunks c : append_last x (chunks ++ [c]) = chunks ++ [c ++ [x]].
Proof.
  unfold append_last. rewrite length_app. simpl. replace (pred (length chunks + 1)) with (length chunks + 0) by lia.
  by rewrite alter_app_r.
Qed.

(** The load of a chunk, as the loop adds it up. *)
Inductive chunk_load : list WorkflowItem.t → f64 → Prop :=
  | load_one w share : slice_share w = Ok share → chunk_load [w] share
  | load_more c w load share : chunk_load c load → slice_share w = Ok share →
      fleb (fadd load share) fone = true → chunk_load (c ++ [w]) (fadd load share).

(** Every chunk keeps its limit, and a chunk is closed only when the next slice
    does not fit. *)
Inductive chunks_ok : list (list WorkflowItem.t) → f64 → Prop :=
  | chunks_one c load : chunk_load c load → chunks_ok [c] load
  | chunks_more cs c last load load' w rest share : chunks_ok (cs ++ [last]) load' → chunk_load c load →
      c = w :: rest → slice_share w = Ok share → fleb (fadd load' share) fone = false →
      chunks_ok ((cs ++ [last]) ++ [c]) load.

Lemma chunk_load_cons c load : chunk_load c load → ∃ w rest, c = w :: rest.
Proof. induction 1 as [w|c w load share _ (x & r & ->)]; eauto. Qed.

Lemma chunks_ok_extend cs c w load share :
  chunks_ok (cs ++ [c]) load → slice_share w = Ok share → fleb (fadd load share) fone = true →
  chunks_ok (cs ++ [c ++ [w]]) (fadd load share).
Proof.
  intros H Hs Hf. inversion H as [c' load0 Hl E|cs' c' last load0 load' w' rest share' H' Hl Hc Hw Hn E].
  - destruct cs as [|x cs]; [|by destruct cs]. injection E as ->. constructor. by constructor.
  - apply app_inj_tail in E as [<- <-].
    apply (chunks_more _ _ _ _ load' w' (rest ++ [w]) share'); subst; try done. by constructor.
Qed.

Lemma chunk_fold ordered chunks load chunks' load' :
  foldR chunk_step (chunks, load) ordered = Ok (chunks', load') →
  (chunks = [] ∨ chunks_ok chunks load) →
  concat chunks' = concat chunks ++ ordered ∧ (chunks' = [] ∨ chunks_ok chunks' load').
Proof.
  revert chunks load. induction ordered as [|w ordered IH]; intros chunks load H Hok; simpl in H.
  { injection H as <- <-. by rewrite app_nil_r. }
  apply result_bind_ok in H as ([c1 l1] & H1 & H). unfold chunk_step in H1.
  apply result_bind_ok in H1 as (share & Hs & H1).
  destruct chunks as [|c cs _] using rev_ind.
  { injection H1 as <- <-. apply IH in H as [-> Hk]; [|right; by repeat constructor]. done. }
  destruct Hok as [Hok|Hok]; [by destruct cs|].
  assert (H1' : (if fleb (fadd load share) fone then Ok (append_last w (cs ++ [c]), fadd load share)
                 else Ok ((cs ++ [c]) ++ [[w]], share)) = Ok (c1, l1)) by (destruct cs; exact H1).
  destruct (fleb (fadd load share) fone) eqn:Ef; injection H1' as <- <-.
  - rewrite append_last_snoc in H. apply IH in H as [-> Hk]; [|right; by apply chunks_ok_extend].
    split; [|done]. rewrite !concat_app. simpl. by rewrite !app_nil_r, <-!app_assoc.
  - apply IH in H as [-> Hk].
    + split; [|done]. rewrite concat_app. simpl. by rewrite <-!app_assoc.
    + right. eapply chunks_more; [done|by constructor|done..].
Qed.

Lemma chunks_concat ordered chunks :
  chunk_within_python_timeouts ordered = Ok chunks →
  concat chunks = ordered ∧ (chunks = [] ∨ ∃ load, chunks_ok chunks load).
Proof.
  unfold chunk_within_python_timeouts. intros H. apply result_bind_ok in H as ([cs load] & H & [= <-]).
  apply chunk_fold in H as [-> [->|Hk]]; eauto.
Qed.

Lemma chunks_ok_forall chunks load : chunks_ok chunks load → ∀ c, c ∈ chunks → ∃ l, chunk_load c l.
Proof.
  induction 1 as [c load Hl|cs c last load load' w rest share H IH Hl Hc Hs Hf]; intros x Hx.
  - apply list_elem_of_singleton in Hx as ->. eauto.
  - apply elem_of_app in Hx as [Hx| ->%list_elem_of_singleton]; eauto.
Qed.

(** Infinity absorbs: once a share is infinite the load is never within the
    limit again. *)
Definition beyond (x : f64) : Prop := x = S754_infinity false ∨ x = S754_nan.

Lemma beyond_add x y : beyond x → beyond (fadd x y).
Proof. intros [->| ->]; destruct y as [| [] | |]; unfold fadd; simpl; unfold beyond; auto. Qed.

Lemma beyond_add_inf x : beyond (fadd x finf).
Proof. destruct x as [| [] | |]; unfold fadd, finf; simpl; unfold beyond; auto. Qed.

Lemma beyond_limit x : beyond x → fleb x fone = false.
Proof. by intros [->| ->]. Qed.

Lemma chunk_load_unknown c load w :
  chunk_load c load → w ∈ c → slice_share w = Ok finf → c = [w] ∨ beyond load ∧ fleb load fone = true.
Proof.
  induction 1 as [w' share Hs|c w' load share Hl IH Hs Hf]; intros Hw Hinf.
  - apply list_elem_of_singleton in Hw as ->. by left.
  - right. split; [|done]. apply elem_of_app in Hw as [Hw| ->%list_elem_of_singleton].
    + destruct (IH Hw Hinf) as [->|[Hb _]]; [|by apply beyond_add].
      inversion Hl as [? ? Hs' E1 E2|c0 ? ? ? Hl0 ? ? E1]; subst.
      * rewrite Hinf in Hs'. injection Hs' as <-. apply beyond_add. by left.
      * destruct (chunk_load_cons _ _ Hl0) as (? & ? & ->). destruct x0; discriminate E1.
    + rewrite Hinf in Hs. injection Hs as <-. apply beyond_add_inf.
Qed.

(** A slice whose row count is unknown runs alone. *)
Lemma unknown_rows_alone c load w :
  chunk_load c load → w ∈ c → slice_share w = Ok finf → c = [w].
Proof.
  intros Hl Hw Hinf. destruct (chunk_load_unknown c load w Hl Hw Hinf) as [|[Hb Hf]]; [done|].
  by rewrite beyond_limit in Hf.
Qed.

(** ** Groups *)

(** A template hash is a digest: it has no colon and is not a number. *)
Definition proper_hash (w : WorkflowItem.t) : Prop :=
  ":"%char ∉ chars (WorkflowItem.template_hash w) ∧ isdigit (chars (WorkflowItem.template_hash w)) = false.

Lemma digits_no_colon l : isdigit l = true → ":"%char ∉ l.
Proof.
  intros H Hin. assert (Hd : forallb is_digit l = true) by (by destruct l).
  rewrite forallb_forall in Hd. specialize (Hd ":"%char (proj1 (list_elem_of_In _ _) Hin)). done.
Qed.

Lemma chunk_key_later parent idx : idx ≠ 0 →
  chars (chunk_key parent idx) = (chars parent ++ [":"%char]) ++ ":"%char :: chars (str_of_nat idx).
Proof.
  intros Hi. unfold chunk_key. apply Nat.eqb_neq in Hi as ->. rewrite !chars_app, <-!app_assoc. done.
Qed.

Lemma parent_chars w : ∃ l,
  chars (request_workflow_parent_id w) = l ++ ":"%char :: chars (WorkflowItem.template_hash w).
Proof.
  unfold request_workflow_parent_id. rewrite !chars_app.
  exists (chars "request::" ++ chars (WorkflowItem.request_id w) ++ chars "::" ++
          chars (WorkflowItem.public_graph_name w) ++ [":"%char]).
  by rewrite <-!app_assoc.
Qed.

Lemma chunk_key_inj w1 w2 i j : proper_hash w1 → proper_hash w2 →
  chunk_key (request_workflow_parent_id w1) i = chunk_key (request_workflow_parent_id w2) j →
  request_workflow_parent_id w1 = request_workflow_parent_id w2 ∧ i = j.
Proof.
  intros [C1 D1] [C2 D2] E. apply (f_equal chars) in E.
  assert (Hno : ∀ n, ":"%char ∉ chars (str_of_nat n)) by (intros n; apply digits_no_colon, str_of_nat_spec).
  destruct (decide (i = 0)) as [->|Hi], (decide (j = 0)) as [->|Hj].
  - split; [|done]. by apply (inj chars).
  - rewrite (chunk_key_later _ _ Hj) in E. destruct (parent_chars w1) as [l El].
    change (chunk_key (request_workflow_parent_id w1) 0) with (request_workflow_parent_id w1) in E.
    rewrite El in E. apply last_char_split in E as [_ E]; [|done..].
    rewrite E, (proj2 (str_of_nat_spec j)) in D1. done.
  - rewrite (chunk_key_later _ _ Hi) in E. destruct (parent_chars w2) as [l El].
    change (chunk_key (request_workflow_parent_id w2) 0) with (request_workflow_parent_id w2) in E.
    rewrite El in E. apply last_char_split in E as [_ E]; [|done..].
    rewrite <-E, (proj2 (str_of_nat_spec i)) in D2. done.
  - rewrite !chunk_key_later in E by done. apply last_char_split in E as [Ep Ei]; [|done..].
    apply app_inj_tail in Ep as [Ep _]. split; by apply (inj _) in Ep; apply (inj _) in Ei; try apply (inj _) in Ei.
Qed.

Definition chunk_entries (kv : string * list WorkflowItem.t) (chunks : list (list WorkflowItem.t)) :
    list (string * list WorkflowItem.t) :=
  imap (λ idx chunk, (chunk_key kv.1 idx, chunk)) chunks.

Lemma elem_of_chunk_entries kv chunks k c :
  (k, c) ∈ chunk_entries kv chunks ↔ ∃ i, chunks !! i = Some c ∧ k = chunk_key kv.1 i.
Proof.
  unfold chunk_entries. rewrite elem_of_lookup_imap. naive_solver.
Qed.

Lemma chunk_entries_vals kv chunks : (chunk_entries kv chunks).*2 = chunks.
Proof.
  unfold chunk_entries. rewrite fmap_imap. change (imap (const (@id (list WorkflowItem.t))) chunks = chunks).
  rewrite imap_const. apply list_fmap_id.
Qed.

Lemma slice_key_strict_weak : StrictWeakOn (λ _, True) slice_key_lt.
Proof.
  assert (HZ : StrictWeakOn (λ x : Z * string, True ∧ True) (lex_lt Z.eqb Z.ltb str_ltb)).
  { apply (lex_strict_weak (λ _, True) (λ _, True)); [intros; lia|apply _..]. }
  assert (Hweak : ∀ {K} (P : K → Prop) lt, (∀ x, P x) → StrictWeakOn P lt → StrictWeakOn (λ _, True) lt).
  { intros K P lt HP [H1 H2 H3]. split; eauto. }
  assert (HZ' : StrictWeakOn (λ _ : Z * string, True) (lex_lt Z.eqb Z.ltb str_ltb)) by (by apply (Hweak _ _ _ (λ _, conj I I))).
  assert (H2 : StrictWeakOn (λ _ : string * (Z * string), True) (lex_lt String.eqb str_ltb (lex_lt Z.eqb Z.ltb str_ltb))).
  { apply (Hweak _ (λ x : string * (Z * string), True ∧ True)); [done|].
    apply (lex_strict_weak (λ _, True) (λ _, True)); [intros; apply string_eqb_incomparable|apply _..]. }
  apply (Hweak _ (λ x : string * (string * (Z * string)), True ∧ True)); [done|].
  apply (lex_strict_weak (λ _, True) (λ _, True)); [intros; apply string_eqb_incomparable|apply _..].
Qed.

(** In slice order: no later slice has a smaller key. *)
Definition in_slice_order (l : list WorkflowItem.t) : Prop :=
  StronglySorted (λ a b, slice_key_lt (slice_key b) (slice_key a) = false) l.

Lemma sorted_slices_order l : in_slice_order (sorted_slices l).
Proof.
  apply (sorted_by_sorted slice_key_lt slice_key (λ _, True) (StrictWeakOn0 := slice_key_strict_weak)).
  by apply Forall_forall.
Qed.

Lemma sorted_concat (cs : list (list WorkflowItem.t)) c : in_slice_order (concat cs) → c ∈ cs → in_slice_order c.
Proof.
  intros H (cs1 & cs2 & ->)%list_elem_of_split. rewrite concat_app in H. simpl in H.
  apply StronglySorted_app in H as (_ & _ & H). apply StronglySorted_app in H as (_ & H & _). done.
Qed.

Lemma group_fold kvs grouped grouped' :
  foldR group_step grouped kvs = Ok grouped' →
  ∃ css, Forall2 (λ kv cs, chunk_within_python_timeouts (sorted_slices kv.2) = Ok cs) kvs css ∧
    grouped' = dupdate grouped (concat (zip_with chunk_entries kvs css)).
Proof.
  revert grouped. induction kvs as [|kv kvs IH]; intros grouped H; simpl in H.
  { injection H as <-. by exists []. }
  apply result_bind_ok in H as (g1 & H1 & H). unfold group_step in H1.
  apply result_bind_ok in H1 as (cs & Hcs & [= <-]). apply IH in H as (css & Hall & ->).
  exists (cs :: css). split; [by constructor|]. simpl. unfold dupdate. by rewrite foldl_app.
Qed.

Lemma chunk_entries_keys kv cs w : proper_hash w → kv.1 = request_workflow_parent_id w →
  NoDup (chunk_entries kv cs).*1.
Proof.
  intros Hp Hk. apply NoDup_alt. intros i j k Hi Hj. unfold chunk_entries in *.
  rewrite fmap_imap, list_lookup_imap in Hi, Hj.
  apply fmap_Some in Hi as (c & _ & ->), Hj as (c' & _ & Hj). simpl in Hj. rewrite Hk in Hj.
  by apply chunk_key_inj in Hj as [_ ->].
Qed.

Lemma all_entries_keys kvs css :
  length kvs = length css → NoDup kvs.*1 →
  (∀ kv, kv ∈ kvs → ∃ w, proper_hash w ∧ kv.1 = request_workflow_parent_id w) →
  NoDup (concat (zip_with chunk_entries kvs css)).*1.
Proof.
  revert css. induction kvs as [|kv kvs IH]; intros [|cs css] Hlen Hnd Hw; simplify_eq/=; [constructor..|].
  apply NoDup_cons in Hnd as [Hnew Hnd]. destruct (Hw kv) as (w & Hp & Hk); [left|].
  rewrite fmap_app. apply NoDup_app. split; [by eapply chunk_entries_keys|]. split.
  - intros k ([k1 c] & -> & (i & _ & ->)%elem_of_chunk_entries)%list_elem_of_fmap Hin. simpl in *.
    apply list_elem_of_fmap in Hin as ([k2 c2] & Ek & Hin).
    apply list_elem_of_In, in_concat in Hin as (es & Hes%list_elem_of_In & Hin%list_elem_of_In).
    apply elem_of_zip_with in Hes as (kv2 & cs2 & -> & Hkv2 & _).
    apply elem_of_chunk_entries in Hin as (j & _ & ->). simpl in Ek.
    destruct (Hw kv2) as (w2 & Hp2 & Hk2); [by right|]. rewrite Hk, Hk2 in Ek.
    apply chunk_key_inj in Ek as [Ek _]; [|done..]. apply Hnew. rewrite Hk, Ek, <-Hk2.
    apply list_elem_of_fmap. by exists kv2.
  - apply IH; [lia|done|]. intros kv' ?. apply Hw. by right.
Qed.

Lemma zip_chunk_vals kvs css :
  length kvs = length css → (concat (zip_with chunk_entries kvs css)).*2 = concat css.
Proof.
  revert css. induction kvs as [|kv kvs IH]; intros [|cs css] Hlen; simplify_eq/=; [done|].
  by rewrite fmap_app, chunk_entries_vals, IH by lia.
Qed.

Lemma chunked_perm (kvs : dict string (list WorkflowItem.t)) css :
  Forall2 (λ kv cs, chunk_within_python_timeouts (sorted_slices kv.2) = Ok cs) kvs css →
  concat (concat css) ≡ₚ concat (dvals kvs).
Proof.
  induction 1 as [|kv cs kvs css Hc _ IH]; [done|]. simpl. rewrite concat_app, IH.
  f_equiv. apply chunks_concat in Hc as [-> _]. apply sorted_by_perm.
Qed.

(** Every slice of a batch is coalesced into exactly one group.  A group
    holds slices of one request workflow in slice order; several slices run
    together only as long as their expected python time, added up, stays
    within the limit, and a slice whose row count is unknown runs alone. *)
Theorem slices_are_grouped_once workflows grouped :
  Forall proper_hash workflows → group_workflows_by_parent_workflow workflows = Ok grouped →
  concat (dvals grouped) ≡ₚ workflows ∧ dict_wf grouped ∧
  ∀ key c, (key, c) ∈ grouped →
    in_slice_order c ∧ (∃ load, chunk_load c load) ∧
    (∃ parent idx, key = chunk_key parent idx ∧ ∀ w, w ∈ c → request_workflow_parent_id w = parent) ∧
    ∀ w, w ∈ c → slice_share w = Ok finf → c = [w].
Proof.
  intros Hproper H. unfold group_workflows_by_parent_workflow in H.
  set (kvs := group_by request_workflow_parent_id workflows) in *.
  apply group_fold in H as (css & Hall & ->).
  assert (Hlen : length kvs = length css) by (by eapply Forall2_length).
  rewrite Forall_forall in Hproper.
  assert (Hkeys : NoDup (concat (zip_with chunk_entries kvs css)).*1).
  { apply all_entries_keys; [done|apply group_by_wf|]. intros [k xs] Hin.
    apply group_by_entry in Hin as [-> Hne].
    destruct (filter (λ x, request_workflow_parent_id x = k) workflows) as [|w rest] eqn:E; [done|].
    assert (Hw : w ∈ filter (λ x, request_workflow_parent_id x = k) workflows) by (rewrite E; left).
    apply list_elem_of_filter in Hw as [<- Hw]. exists w. auto. }
  change (dupdate [] (concat (zip_with chunk_entries kvs css)))
    with (dict_of (concat (zip_with chunk_entries kvs css))).
  rewrite dict_of_nodup by done. split; [|split; [done|]].
  - unfold dvals. rewrite zip_chunk_vals by done. rewrite (chunked_perm kvs) by done. apply group_by_concat.
  - intros key c Hin. apply list_elem_of_In, in_concat in Hin as (es & Hes%list_elem_of_In & Hin%list_elem_of_In).
    apply elem_of_lookup_zip_with in Hes as (j & kv & cs & -> & Hkv & Hcs).
    apply elem_of_chunk_entries in Hin as (i & Hi & ->).
    pose proof (Forall2_lookup_lr _ _ _ _ _ _ Hall Hkv Hcs) as Hc.
    apply list_elem_of_lookup_2 in Hi, Hkv. apply chunks_concat in Hc as [Hconcat Hok].
    destruct Hok as [->|[load Hok]]; [by apply elem_of_nil in Hi|].
    destruct (chunks_ok_forall _ _ Hok c Hi) as [l Hl]. split_and!.
    + apply (sorted_concat cs); [rewrite Hconcat; apply sorted_slices_order|done].
    + by exists l.
    + exists kv.1, i. split; [done|]. intros w Hw.
      assert (Hw' : w ∈ kv.2).
      { apply (elem_of_sorted_by slice_key_lt slice_key). change (w ∈ sorted_slices kv.2).
        rewrite <-Hconcat. apply list_elem_of_In, in_concat.
        exists c. by rewrite <-!list_elem_of_In. }
      destruct kv as [k xs]. apply group_by_entry in Hkv as [-> _]. by apply list_elem_of_filter in Hw' as [? _].
    + intros w Hw. by apply (unknown_rows_alone c l).
Qed.

(** ** Merging *)

Section merge.
Context (json_loads : string → option val).

Definition rows (key : string) (w : WorkflowItem.t) : list string := dget_or [] key (slice_inputs w).

Lemma check_slices_ok key n ordered e :
foldR (check_slice_input key) n ordered = Ok e →
(∀ w, w ∈ ordered → dget key (slice_inputs w) = Some (rows key w) ∧
   Z.of_nat (length (rows key w)) = WorkflowItem.slice_length w) ∧
e = (n + foldr Z.add 0 (WorkflowItem.slice_length <$> ordered))%Z.
Proof.
revert n. induction ordered as [|w ordered IH]; intros n H; simpl in H.
{ injection H as <-. split; [intros w Hw; by apply elem_of_nil in Hw|csimpl; lia]. }
apply result_bind_ok in H as (n1 & H1 & H). apply IH in H as [Hall ->].
unfold check_slice_input, rows, dget_or, slice_inputs in *.
destruct (dget key (CompiledGraph.inputs (WorkflowItem.dsl_graph w))) as [values|] eqn:E; [|done].
destruct (Z.eqb_spec (Z.of_nat (length values)) (WorkflowItem.slice_length w)) as [El|]; [|done].
injection H1 as <-. split.
- intros x [->|Hx]%elem_of_cons; [by rewrite E|by apply Hall].
- csimpl. lia.
Qed.

Lemma foldR_unit_ok {A} (f : A → result unit) l :
foldR (λ _, f) tt l = Ok tt → ∀ x, x ∈ l → f x = Ok tt.
Proof.
induction l as [|y l IH]; intros H x Hx; [by apply elem_of_nil in Hx|]. simpl in H.
apply result_bind_ok in H as ([] & Hy & H). apply elem_of_cons in Hx as [->|Hx]; auto.
Qed.

Lemma forallb_elem {A} (p : A → bool) l : forallb p l = true ↔ ∀ x, x ∈ l → p x = true.
Proof. rewrite forallb_forall. by setoid_rewrite <-list_elem_of_In. Qed.

Lemma validate_ok first rest merged varying :
validate_merged_varying_inputs (first :: rest) merged varying = Ok tt → varying ≠ [] →
let ordered := first :: rest in
(∀ k, k ∈ varying → k ∈ dkeys (slice_inputs first)) ∧
(∀ w, w ∈ ordered → WorkflowItem.total_length w = WorkflowItem.total_length first) ∧
(∀ k, k ∈ varying →
   (∀ w, w ∈ ordered → dget k (slice_inputs w) = Some (rows k w) ∧
      Z.of_nat (length (rows k w)) = WorkflowItem.slice_length w) ∧
   (foldr Z.add 0 (WorkflowItem.slice_length <$> ordered) <= WorkflowItem.total_length first)%Z).
Proof.
unfold validate_merged_varying_inputs. intros H Hne. destruct varying as [|v0 vs]; [done|].
set (varying := v0 :: vs) in *. clearbody varying. set (ordered := first :: rest) in *. clearbody ordered.
destruct (forallb _ varying) eqn:E1; [|done]. cbn [negb] in H.
destruct (forallb _ ordered) eqn:E2; [|done]. cbn [negb] in H.
rewrite forallb_elem in E1. rewrite forallb_elem in E2. split_and!.
- intros k Hk. specialize (E1 k Hk). unfold str_mem in E1. by apply bool_decide_eq_true in E1.
- intros w Hw. by apply Z.eqb_eq, E2.
- intros k Hk. assert (Hc := foldR_unit_ok _ _ H k). unfold sorted_strings in Hc.
  rewrite elem_of_sorted_by, elem_of_remove_dups in Hc. specialize (Hc Hk).
  unfold check_merged_key in Hc. apply result_bind_ok in Hc as (e & He & Hc).
  apply check_slices_ok in He as [Hall ->]. split; [done|].
  destruct (Z.ltb_spec (WorkflowItem.total_length first)
    (0 + foldr Z.add 0 (WorkflowItem.slice_length <$> ordered))%Z); [done|lia].
Qed.

Lemma merge_input_varying ordered first varying k values :
k ∈ varying → merge_input ordered first varying k = Ok values → values = concat (rows k <$> ordered).
Proof.
intros Hk H. unfold merge_input, str_mem in H. rewrite bool_decide_true in H by done.
apply result_bind_ok in H as (parts & Hp & [= <-]). f_equal. apply mapR_ok_inv in Hp.
induction Hp as [|w p ordered parts H _ IH]; [done|]. csimpl. rewrite IH. f_equal.
unfold rows, dget_or. unfold dindex in H. apply ok_or_ok in H. by rewrite H.
Qed.

(** A rewritten literal holds the merged rows. *)
Definition literal_of (merged : dict string (list string)) (target : result (option string))
  (spec : string * dict string val * dict string val) : Prop :=
∀ key, target = Ok (Some key) → as_dict (vget "input_ref" spec.2) = None →
  ∃ values, dget key merged = Some values ∧ vget "items" spec.1.2 = strings_val values.

Lemma rewrite_data_items merged target data owner data' :
rewrite_data json_loads merged target data owner = Ok data' →
(∃ items, vget "items" data' = VList items) ∧ vget "type" data' = vget "type" data ∧
(as_dict (vget "input_ref" owner) = None →
   ∃ values, dget target merged = Some values ∧ vget "items" data' = strings_val values).
Proof.
unfold rewrite_data. intros H. apply result_bind_ok in H as (values & Hv & H).
unfold dindex in Hv. apply ok_or_ok in Hv.
assert (Hproj : ∀ path, (projected ← project_input_values json_loads values path;
    Ok (if 1 <? length values
        then dset "grouped" (VBool true) (dset "items" (VList projected) data)
        else dset "items" (VList projected) data)) = Ok data' →
  (∃ items, vget "items" data' = VList items) ∧ vget "type" data' = vget "type" data).
{ intros path Hp. apply result_bind_ok in Hp as (projected & _ & [= <-]).
  destruct (1 <? length values); rewrite !vget_dset; simpl; eauto. }
destruct (vget "input_ref" owner) eqn:Eref; simpl.
all: try (injection H as <-; rewrite !vget_dset; simpl; split; [by eexists|]; split; [done|by exists values]).
destruct (vget "key" d); try done. destruct (vget "path" d); try done;
  destruct (Hproj _ H) as [? ?]; split_and!; done.
Qed.

Context (merged first_inputs : dict string (list string)) (varying : list string).

Lemma rewrite_entry_spec aliases hits entry hits' entry' spec' :
rewrite_entry json_loads merged varying aliases hits entry = Ok (hits', entry') →
bound_spec entry' = Some spec' →
literal_of merged (rewrite_target_key varying aliases spec'.1.1 spec'.2) spec'.
Proof.
unfold rewrite_entry. intros H Hs'. destruct (bound_spec entry) as [[[label data] owner]|] eqn:Hs; [|congruence].
apply result_bind_ok in H as (target & Ht & H). destruct target as [key|].
2:{ injection H as _ <-. rewrite Hs in Hs'. injection Hs' as <-. intros k Hk. simpl in *. congruence. }
apply result_bind_ok in H as (data' & Hd & [= _ <-]).
apply rewrite_data_items in Hd as ((items & Hi) & Hty & Hlit).
unfold bound_spec in Hs. destruct entry as [| | | | | | |entry]; try done.
destruct (vget "label" entry) eqn:El; try done. destruct (vget "data" entry) eqn:Ed; try done.
destruct (vget "type" d) eqn:Et; try done. destruct (decide (s0 = "list")) as [->|Hne].
2:{ exfalso. clear -Hs Hne. repeat case_match; simplify_eq. }
destruct (vget "items" d) eqn:Eit; try done. injection Hs as -> -> ->.
unfold bound_spec in Hs'. rewrite !vget_dset in Hs'. simpl in Hs'. rewrite El, Hty, Et, Hi in Hs'.
injection Hs' as <-. intros k Hk Href. simpl in *. rewrite vget_dset in Href. simpl in Href.
assert (k = key) as ->; [|by apply Hlit].
unfold rewrite_target_key in Ht, Hk. rewrite vget_dset in Hk. simpl in Hk. congruence.
Qed.

Lemma bound_entries_set op es : (bound_entries op = [] → es = []) → bound_entries (set_entries es op) = es.
Proof.
unfold bound_entries, set_entries. intros H. simpl. destruct (DslOp.cls op) as [| |d|columns|] eqn:Ec; simpl;
  try (symmetry; by apply H).
- destruct (vget "params" d) eqn:E; simpl; rewrite ?Ec, ?E; try (symmetry; by apply H).
  by rewrite vget_dset.
- destruct columns; simpl; try (symmetry; by apply H). done.
Qed.

Lemma rewrite_ops_literals aliases hits ops hits' ops' spec :
mapAccumR (rewrite_op json_loads merged varying aliases) hits ops = Ok (hits', ops') →
spec ∈ iter_input_bound_list_specs ops' →
literal_of merged (rewrite_target_key varying aliases spec.1.1 spec.2) spec.
Proof.
intros H Hspec. apply mapAccumR_ok_inv in H. unfold iter_input_bound_list_specs in Hspec.
apply list_elem_of_bind in Hspec as (op' & Hspec & Hop').
apply list_elem_of_fmap in Hop' as (kv' & -> & Hkv').
apply list_elem_of_lookup in Hkv' as [i Hi].
destruct (Forall2_lookup_r _ _ _ _ _ H Hi) as (kv & _ & h1 & h2 & Hr).
unfold rewrite_op in Hr. apply result_bind_ok in Hr as ([h3 es] & Hes & [= _ <-]).
simpl in Hspec. assert (Hes' := mapAccumR_ok_inv _ _ _ _ _ Hes). rewrite bound_entries_set in Hspec.
- apply list_elem_of_omap in Hspec as (entry' & He' & Hb). apply list_elem_of_lookup in He' as [j Hj].
  destruct (Forall2_lookup_r _ _ _ _ _ Hes' Hj) as (entry & _ & g1 & g2 & Hentry).
  by eapply rewrite_entry_spec.
- intros E. rewrite E in Hes'. by inversion Hes'.
Qed.

Lemma mapR_keys {A} (f : string → result A) ks l :
mapR (λ k, a ← f k; Ok (k, a)) ks = Ok l → dkeys l = ks ∧ ∀ k a, (k, a) ∈ l → f k = Ok a.
Proof.
intros H. apply mapR_ok_inv in H. induction H as [|k kv ks l Hkv _ [IH1 IH2]].
{ split; [done|]. intros k a Hk. by apply elem_of_nil in Hk. }
apply result_bind_ok in Hkv as (a & Ha & [= <-]). split.
- unfold dkeys in *. csimpl. by rewrite IH1.
- intros k' a' [[= -> ->]|Hin]%elem_of_cons; auto.
Qed.
End merge.

(** The merged graph of a group runs all its slices: a varying input of it
    is the concatenation of the slices' inputs in slice order, each of them as
    long as its slice says, and together no longer than the workflow; every
    other input is the one the slices share.  A varying input that is not read
    by an input op was rewritten into at least one literal, and every literal
    of the merged graph bound to it directly holds the merged rows. *)
Theorem merged_inputs_cover_the_slices json_loads workflows g hits :
  merge_group_compiled_graph json_loads workflows = Ok (g, Some hits) →
  ∃ first rest aliases, sorted_slices workflows = first :: rest ∧
    let varying := WorkflowItem.varying_input_keys first in
    dkeys (CompiledGraph.inputs g) = dkeys (slice_inputs first) ∧
    (∀ k values, (k, values) ∈ CompiledGraph.inputs g → k ∈ varying →
       values = concat (rows k <$> sorted_slices workflows)) ∧
    (∀ k values, (k, values) ∈ CompiledGraph.inputs g → k ∉ varying →
       dget k (slice_inputs first) = Some values) ∧
    (∀ k w, k ∈ varying → w ∈ workflows →
       dget k (slice_inputs w) = Some (rows k w) ∧
       Z.of_nat (length (rows k w)) = WorkflowItem.slice_length w ∧
       WorkflowItem.total_length w = WorkflowItem.total_length first) ∧
    (varying ≠ [] → (foldr Z.add 0 (WorkflowItem.slice_length <$> sorted_slices workflows)
                     <= WorkflowItem.total_length first)%Z) ∧
    (∀ k n, (k, n) ∈ hits → (0 < n)%Z ∨ k ∈ dkeys (Graph.input_ops (CompiledGraph.graph g))) ∧
    ∀ spec, spec ∈ iter_input_bound_list_specs (Graph.graph (CompiledGraph.graph g)) →
      literal_of (CompiledGraph.inputs g) (rewrite_target_key varying aliases spec.1.1 spec.2) spec.
Proof.
  unfold merge_group_compiled_graph. intros H. assert (Hin : ∀ w, w ∈ sorted_slices workflows ↔ w ∈ workflows)
    by (intros w; apply elem_of_sorted_by).
  destruct (sorted_slices workflows) as [|first rest] eqn:Es; [done|]. destruct rest as [|second rest]; [done|].
  set (varying := WorkflowItem.varying_input_keys first) in *.
  set (ordered := first :: second :: rest) in *.
  destruct (forallb _ ordered); [|done]. cbn [negb] in H.
  apply result_bind_ok in H as (merged & Hm & H). apply result_bind_ok in H as ([] & Hv & H).
  apply result_bind_ok in H as (first_inputs & _ & H). apply result_bind_ok in H as ([g' hits'] & Hr & H).
  injection H as <- <-. unfold rewrite_varying_input_literals in Hr.
  apply result_bind_ok in Hr as (aliases & _ & Hr). apply result_bind_ok in Hr as ([hs ops] & Hops & Hr).
  apply result_bind_ok in Hr as (l1 & Hcheck & Hr). apply result_bind_ok in Hr as (l2 & _ & [= <- <-]).
  apply mapR_keys in Hm as [Hk Hm].
  pose proof (validate_ok first (second :: rest) merged varying Hv) as Hval.
  exists first, (second :: rest), aliases. split; [done|].
  cbn [CompiledGraph.inputs CompiledGraph.graph Graph.graph Graph.input_ops fst snd]. fold ordered varying.
  cbv zeta in Hval. split_and!.
  - done.
  - intros k values Hkv Hk'. apply Hm in Hkv. by eapply merge_input_varying.
  - intros k values Hkv Hk'. apply Hm in Hkv. unfold merge_input, str_mem in Hkv.
    rewrite bool_decide_false in Hkv by done. unfold dindex in Hkv. by apply ok_or_ok in Hkv.
  - intros k w Hk' Hw%Hin. destruct Hval as (_ & H2 & H3); [by intros E; rewrite E in Hk'; apply elem_of_nil in Hk'|].
    destruct (H3 k Hk') as [H4 _]. destruct (H4 w Hw) as [? ?]. split_and!; auto.
  - intros Hne. destruct (Hval Hne) as (_ & _ & H3). destruct varying as [|k ks]; [done|]. apply (H3 k). left.
  - intros k n Hkn. apply mapR_ok_inv in Hcheck. apply list_elem_of_lookup in Hkn as [i Hi].
    destruct (Forall2_lookup_l _ _ _ _ _ Hcheck Hi) as (u & _ & Hu). unfold check_hit in Hu. simpl in Hu.
    destruct (Z.ltb_spec 0 n); [by left|]. right.
    destruct (dmem k (Graph.input_ops _)) eqn:E; [by apply dmem_true|done].
  - intros spec Hspec. by eapply rewrite_ops_literals.
Qed.

(** ** Witnesses *)

Module SampleCoalesce.
Definition config : LumilakeRequestConfig.t :=
LumilakeRequestConfig.mk MEDIUM "ann" "org" "principal" None None None 0.
Definition op (id : string) (kind : DslOp.kind) (inputs : list string) : DslOp.t := DslOp.mk id kind id inputs None.
Definition columns (items : list string) : val :=
VList [VDict [("label", VStr "q"); ("data", VDict [("type", VStr "list"); ("items", strings_val items)])]].
Definition dsl (items : list string) : CompiledGraph.t :=
let q := op "q" DslOp.InputOp [] in
let out := op "out" DslOp.OutputOp ["chat"] in
CompiledGraph.mk (Graph.mk [("q", q); ("chat", op "chat" (DslOp.LLMChatOp (columns items)) ["q"]); ("out", out)]
                    [("q", q)] [("out", out)])
  [("q", items)].
Definition step : RuntimeOp.t :=
RuntimeOp.mk "s" PYTHON_TASK_TYPE "python" "" [("expected_runtime_s", VInt 1); ("row_count", VInt 2); ("timeout_s", VInt 6)]
  [] [] [] [] None None.
Definition runtime : RuntimeGraph.t := RuntimeGraph.mk [("s", step)] ["s"] [] [] [].
Definition slice (id request : string) (index start : Z) (items : list string) : WorkflowItem.t :=
WorkflowItem.mk id request id "report" index start (Z.of_nat (length items)) 3 "t4f" ["q"] runtime runtime
  (dsl items) config fzero None None 0 false.
Definition workflows : list WorkflowItem.t :=
[slice "w2" "r1" 1 2 ["c"]; slice "w3" "r2" 0 0 ["x"; "y"; "z"]; slice "w1" "r1" 0 0 ["a"; "b"]].
Definition groups : dict string (list WorkflowItem.t) :=
[("request::r1::report::t4f", [slice "w1" "r1" 0 0 ["a"; "b"]; slice "w2" "r1" 1 2 ["c"]]);
 ("request::r2::report::t4f", [slice "w3" "r2" 0 0 ["x"; "y"; "z"]])].

Lemma hashes : Forall proper_hash workflows.
Proof. unfold proper_hash. apply (bool_decide_unpack _). vm_compute. exact I. Qed.

Lemma grouping : group_workflows_by_parent_workflow workflows = Ok groups.
Proof. vm_compute. reflexivity. Qed.
End SampleCoalesce.

Lemma slices_are_grouped_once_witness :
  in_slice_order [SampleCoalesce.slice "w1" "r1" 0 0 ["a"; "b"]; SampleCoalesce.slice "w2" "r1" 1 2 ["c"]].
Proof.
  apply (slices_are_grouped_once SampleCoalesce.workflows SampleCoalesce.groups SampleCoalesce.hashes
           SampleCoalesce.grouping) with (key := "request::r1::report::t4f"). left.
Defined.

Lemma merged_inputs_cover_the_slices_witness :
  ∃ g hits, merge_group_compiled_graph (λ _, None)
      [SampleCoalesce.slice "w2" "r1" 1 2 ["c"]; SampleCoalesce.slice "w1" "r1" 0 0 ["a"; "b"]] = Ok (g, Some hits) ∧
    dget "q" (CompiledGraph.inputs g) = Some ["a"; "b"; "c"] ∧
    dkeys (CompiledGraph.inputs g) = ["q"].
Proof.
  eexists _, _. split; [vm_compute; reflexivity|]. split; [vm_compute; reflexivity|].
  edestruct (merged_inputs_cover_the_slices (λ _, None)
    [SampleCoalesce.slice "w2" "r1" 1 2 ["c"]; SampleCoalesce.slice "w1" "r1" 0 0 ["a"; "b"]])
    as (first & rest & aliases & E & Hk & _); [vm_compute; reflexivity|].
  vm_compute in E. injection E as <- _. exact Hk.
Defined.
