(* ===== verification/Demux.v ===== *)
(** * Splitting the outputs of a batch (runtime/server.py, [_process_batch])

    The runtime returns one list of values per output node of the merged
    graph.  An output of a coalesced group is cut back into the slices of the
    group, in slice order; the output of a list-mode lambda belongs to a group
    of one slice as it is; and an output of a node that carries a workflow's
    own prefix goes to that workflow.  Histories are split the same way. *)

From S2P Require Import Prelude PyFloat PyDict Grouping PyValue PyString RuntimeGraph JobBase RequestState.

(** [group_workflow_prefixes]: the longest workflow id first. *)
Definition workflow_prefixes (workflows : list WorkflowItem.t) : list (string * WorkflowItem.t) :=
  (λ w, (WorkflowItem.workflow_id w +:+ "__", w)) <$>
    sorted_by (λ a b, b <? a) (λ w, py_len (WorkflowItem.workflow_id w)) workflows.

(** [node_id.startswith(prefix)] *)
Definition py_starts_with (prefix s : string) : bool :=
  match starts_with (chars prefix) (chars s) with Some _ => true | None => false end.

Section demux.
Context (grouped_workflows : dict string (list WorkflowItem.t)).
Context (output_mapping : dict string (string * string)).

(** [match_workflow_for_group_node] *)
Definition match_workflow_for_group_node (group_key node_id : string) : option WorkflowItem.t :=
snd <$> (snd <$> list_find (λ p, py_starts_with p.1 node_id = true)
           (workflow_prefixes (dget_or [] group_key grouped_workflows))).

(** The outputs whose nodes depend on a list-mode lambda. *)
Definition list_lambda_outputs (dependent_nodes : list string) : list (string * string) :=
remove_dups ((filter (λ kv, kv.1 ∈ dependent_nodes) output_mapping).*2).

(** They are recorded in the state of the request when its group is a single
  slice. *)
Definition add_lambda_output (workflow_id output_name : string) (s : RequestState.t) : RequestState.t :=
let lambdas := RequestState.list_lambda_outputs s in
let names := dget_or [] workflow_id lambdas in
RequestState.set_lambdas
  (dset workflow_id (if decide (output_name ∈ names) then names else names ++ [output_name]) lambdas) s.

Definition record_lambda_output (reqs : request_table) (gn : string * string) : request_table :=
match dget_or [] gn.1 grouped_workflows with
| [w] => on_request (WorkflowItem.request_id w) (add_lambda_output (WorkflowItem.workflow_id w) gn.2) reqs
| _ => reqs
end.

Definition record_lambda_outputs (lambdas : list (string * string)) (reqs : request_table) : request_table :=
foldl record_lambda_output reqs lambdas.

(** [direct_*] and [grouped_*] *)
Notation slots := (dict string (dict string (list val))).

(** [d.setdefault(k, {}).setdefault(name, []).extend(values)] *)
Definition extend_in (k name : string) (values : list val) (d : slots) : slots :=
let inner := dget_or [] k d in
dset k (dset name (dget_or [] name inner ++ values) inner) d.

(** One output (or history) node. *)
Definition demux_node (lambdas : list (string * string)) (s : slots * slots) (kv : string * val) :
  result (slots * slots) :=
let '(direct, grouped) := s in
mapping ← ok_or (ValueError "Missing output mapping for runtime node") (dget kv.1 output_mapping);
let '(group_key, output_name) := mapping in
match kv.2 with
| VList outputs =>
    let matched := match_workflow_for_group_node group_key kv.1 in
    if decide ((group_key, output_name) ∈ lambdas) then
      match dget_or [] group_key grouped_workflows with
      | [w] => Ok (dset_in (WorkflowItem.workflow_id w) output_name outputs direct, grouped)
      | _ => Err (ValueError "List-Lambda output cannot be split across slices")
      end
    else
      match matched with
      | Some w =>
          if (Z.of_nat (length outputs) =? WorkflowItem.slice_length w)%Z
          then Ok (dset_in (WorkflowItem.workflow_id w) output_name outputs direct, grouped)
          else Err (ValueError "Output length mismatch for workflow slice")
      | None => Ok (direct, extend_in group_key output_name outputs grouped)
      end
| _ => Err (ValueError "Expected list output for node")
end.

(** The slice of one workflow; the offset moves on by the slice length. *)
Definition give_slice (output_name : string) (values : list val) (s : slots * Z) (w : WorkflowItem.t) :
  result (slots * Z) :=
let '(remapped, offset) := s in
let next_offset := (offset + WorkflowItem.slice_length w)%Z in
let outputs := dget_or [] (WorkflowItem.workflow_id w) remapped in
if dmem output_name outputs
then Err (ValueError "Duplicate output assignment for workflow")
else Ok (dset_in (WorkflowItem.workflow_id w) output_name (py_slice offset next_offset values) remapped, next_offset).

Definition by_slice_index (workflows : list WorkflowItem.t) : list WorkflowItem.t :=
sorted_by Z.ltb WorkflowItem.slice_index workflows.

Definition total_slice_len (workflows : list WorkflowItem.t) : Z :=
foldr Z.add 0%Z (WorkflowItem.slice_length <$> workflows).

Definition split_output (ordered : list WorkflowItem.t) (remapped : slots) (kv : string * list val) : result slots :=
if (Z.of_nat (length kv.2) =? total_slice_len ordered)%Z
then s ← foldR (give_slice kv.1 kv.2) (remapped, 0%Z) ordered; Ok s.1
else Err (ValueError "Output length mismatch for merged workflow").

(** One group: its outputs, then its histories. *)
Definition split_group (grouped grouped_h : slots) (s : slots * slots) (kv : string * list WorkflowItem.t) :
  result (slots * slots) :=
let ordered := by_slice_index kv.2 in
outputs ← foldR (split_output ordered) s.1 (dget_or [] kv.1 grouped);
histories ← foldR (split_output ordered) s.2 (dget_or [] kv.1 grouped_h);
Ok (outputs, histories).

(** Step 5 of [_process_batch]: outputs and histories per workflow. *)
Definition demux (lambdas : list (string * string)) (flat_outputs chat_histories : dict string val) :
  result (slots * slots) :=
o ← foldR (demux_node lambdas) ([], []) flat_outputs;
h ← foldR (demux_node []) ([], []) chat_histories;
foldR (split_group o.2 h.2) (o.1, h.1) grouped_workflows.
End demux.

Notation slots := (dict string (dict string (list val))).
