(* ===== verification/DemuxProps.v ===== *)
(** * Correctness of the output split

    Splitting the concatenated outputs of a group gives every slice its own
    rows back, so coalescing is transparent to the requests. *)

From S2P Require Import Prelude PyFloat PyDict Grouping PyValue PyString RuntimeGraph DslGraph JobBase RequestState Coalesce CoalesceProps Demux.

(** The output [o] of [w]. *)
Definition cell (w o : string) (d : slots) : option (list val) := dget o (dget_or [] w d).

Lemma cell_dset_in w w' o o' v d :
  cell w o (dset_in w' o' v d) = if decide (w = w' ∧ o = o') then Some v else cell w o d.
Proof. apply dget_dset_in. Qed.

Notation wid := WorkflowItem.workflow_id.

(** ** One output of one group *)

Lemma dget_zip_fmap {A} (f : string → A) l w :
  dget w (zip l (f <$> l)) = if decide (w ∈ l) then Some (f w) else None.
Proof.
  induction l as [|x l IH]; csimpl; [done|].
  destruct (decide (w = x)) as [->|Hne]; [by rewrite decide_True by left|].
  rewrite IH. repeat case_decide; set_solver.
Qed.

Section one_output.
Context (out : string → list val).

Lemma give_slices o pre ordered r values :
values = pre ++ concat (out <$> ids ordered) → NoDup (ids ordered) →
(∀ w, w ∈ ordered → Z.of_nat (length (out (wid w))) = WorkflowItem.slice_length w) →
(∀ w, w ∈ ordered → cell (wid w) o r = None) →
∃ r', foldR (give_slice o values) (r, Z.of_nat (length pre)) ordered = Ok (r', Z.of_nat (length values)) ∧
  ∀ w' o', cell w' o' r' = if decide (o' = o ∧ w' ∈ ids ordered) then Some (out w') else cell w' o' r.
Proof.
unfold ids. revert pre r. induction ordered as [|w ordered IH]; intros pre r Hv Hnd Hlen Hnone; csimpl in *.
{ exists r. rewrite app_nil_r in Hv. subst. split; [done|]. intros w' o'. rewrite decide_False; [done|]. set_solver. }
apply NoDup_cons in Hnd as [Hw Hnd].
assert (Hcell : dmem o (dget_or [] (wid w) r) = false).
{ apply dmem_false, dget_None. apply (Hnone w). left. }
rewrite Hcell. simpl.
assert (Hseg : py_slice (Z.of_nat (length pre)) (Z.of_nat (length pre) + WorkflowItem.slice_length w) values
               = out (wid w)).
{ rewrite <-(Hlen w) by left. rewrite py_slice_nat by (subst; rewrite !length_app; lia).
  subst. rewrite drop_app_length. by rewrite take_app_length. }
rewrite Hseg.
destruct (IH (pre ++ out (wid w)) (dset_in (wid w) o (out (wid w)) r)) as (r' & Hr & Hcells).
- by rewrite <-app_assoc.
- done.
- intros x Hx. apply Hlen. by right.
- intros x Hx. rewrite cell_dset_in, decide_False; [apply Hnone; by right|]. intros [E _]. apply Hw.
  rewrite <-E. by apply list_elem_of_fmap_2.
- replace (Z.of_nat (length pre) + WorkflowItem.slice_length w)%Z
    with (Z.of_nat (length (pre ++ out (wid w)))) by (rewrite length_app, Nat2Z.inj_add, (Hlen w) by left; lia).
  exists r'. split; [exact Hr|]. intros w' o'. rewrite Hcells, cell_dset_in.
  destruct (decide (o' = o)) as [->|]; [|rewrite !decide_False by naive_solver; done].
  destruct (decide (w' = wid w)) as [->|].
  + rewrite decide_False by naive_solver. rewrite !decide_True; [done|split; [done|left]|done].
  + destruct (decide (w' ∈ wid <$> ordered)).
    * rewrite !decide_True; [done|split; [done|by right]|done].
    * rewrite !decide_False; [done|set_solver|naive_solver..].
Qed.

Lemma total_length_of ordered :
(∀ w, w ∈ ordered → Z.of_nat (length (out (wid w))) = WorkflowItem.slice_length w) →
Z.of_nat (length (concat (out <$> ids ordered))) = total_slice_len ordered.
Proof.
unfold total_slice_len, ids. induction ordered as [|w ordered IH]; intros Hlen; csimpl; [done|].
rewrite length_app, Nat2Z.inj_add, IH, (Hlen w); [done|left|]. intros x Hx. apply Hlen. by right.
Qed.

Lemma split_output_ok o ordered r :
NoDup (ids ordered) →
(∀ w, w ∈ ordered → Z.of_nat (length (out (wid w))) = WorkflowItem.slice_length w) →
(∀ w, w ∈ ordered → cell (wid w) o r = None) →
∃ r', split_output ordered r (o, concat (out <$> ids ordered)) = Ok r' ∧
  ∀ w' o', cell w' o' r' = if decide (o' = o ∧ w' ∈ ids ordered) then Some (out w') else cell w' o' r.
Proof.
intros Hnd Hlen Hnone. unfold split_output. simpl. rewrite total_length_of, Z.eqb_refl by done.
destruct (give_slices o [] ordered r _ eq_refl Hnd Hlen Hnone) as (r' & Hr & Hc).
change (Z.of_nat (length (@nil val))) with 0%Z in Hr. rewrite app_nil_l in Hr.
rewrite Hr. simpl. by exists r'.
Qed.
End one_output.

(** ** The outputs of a group *)

Lemma split_outputs_ok (out : string → string → list val) (entries : dict string (list val)) ordered r :
  dict_wf entries → NoDup (ids ordered) →
  (∀ o values, (o, values) ∈ entries → values = concat (out o <$> ids ordered) ∧
     (∀ w, w ∈ ordered → Z.of_nat (length (out o (wid w))) = WorkflowItem.slice_length w ∧ cell (wid w) o r = None)) →
  ∃ r', foldR (split_output ordered) r entries = Ok r' ∧
    ∀ w' o', cell w' o' r' =
      if decide (o' ∈ dkeys entries ∧ w' ∈ ids ordered) then Some (out o' w') else cell w' o' r.
Proof.
  unfold dict_wf, dkeys. revert r. induction entries as [|[o values] entries IH]; intros r Hwf Hnd Hent; csimpl in *.
  { by exists r. }
  apply NoDup_cons in Hwf as [Ho Hwf]. destruct (Hent o values) as [-> Hw]; [left|].
  destruct (split_output_ok (out o) o ordered r Hnd) as (r1 & Hr1 & Hc1); [intros; by apply Hw..|].
  destruct (IH r1 Hwf Hnd) as (r' & Hr & Hc).
  { intros o1 v1 Hin. destruct (Hent o1 v1) as [-> Hw1]; [by right|]. split; [done|].
    intros w Hwo. destruct (Hw1 w Hwo) as [Hl Hn]. split; [done|].
    rewrite Hc1, decide_False; [done|]. intros [-> _]. apply Ho. by eapply (list_elem_of_fmap_2 fst) in Hin. }
  exists r'. rewrite Hr1. split; [exact Hr|]. intros w' o'. rewrite Hc, Hc1.
  destruct (decide (w' ∈ ids ordered)); [|rewrite !decide_False by naive_solver; done].
  destruct (decide (o' ∈ entries.*1)).
  - rewrite !decide_True; [done|split; [by right|done]|done].
  - rewrite (decide_False (P := o' ∈ entries.*1 ∧ _)) by naive_solver.
    destruct (decide (o' = o)) as [->|].
    + rewrite !decide_True; [done|split; [left|done]|done].
    + rewrite !decide_False; [done|set_solver|naive_solver].
Qed.

(** ** All groups *)

Section groups.
Context (out : string → string → string → list val).

(** The collected outputs of the groups are the outputs of their slices, one
  after the other, and no slice has any of them yet. *)
Definition collected (grouped : slots) (groups : dict string (list WorkflowItem.t)) (r : slots) : Prop :=
∀ g ws, (g, ws) ∈ groups → dict_wf (dget_or [] g grouped) ∧
  ∀ o values, (o, values) ∈ dget_or [] g grouped →
    values = concat (out g o <$> ids (by_slice_index ws)) ∧
    ∀ w, w ∈ ws → Z.of_nat (length (out g o (wid w))) = WorkflowItem.slice_length w ∧ cell (wid w) o r = None.

(** What the slices of [groups] have when the groups have been split. *)
Definition delivered (grouped : slots) (groups : dict string (list WorkflowItem.t)) (r r' : slots) : Prop :=
(∀ g ws w o, (g, ws) ∈ groups → w ∈ ws →
   cell (wid w) o r' = if decide (o ∈ dkeys (dget_or [] g grouped)) then Some (out g o (wid w)) else cell (wid w) o r) ∧
∀ w o, w ∉ ids (concat (dvals groups)) → cell w o r' = cell w o r.

Lemma elem_of_by_slice_index w ws : w ∈ by_slice_index ws ↔ w ∈ ws.
Proof. apply elem_of_sorted_by. Qed.

Lemma ids_by_slice_index ws : ids (by_slice_index ws) ≡ₚ ids ws.
Proof. apply fmap_Permutation, sorted_by_perm. Qed.

Lemma split_one_group grouped g ws r : NoDup (ids ws) →
collected grouped [(g, ws)] r →
∃ r', foldR (split_output (by_slice_index ws)) r (dget_or [] g grouped) = Ok r' ∧
  ∀ w' o', cell w' o' r' =
    if decide (o' ∈ dkeys (dget_or [] g grouped) ∧ w' ∈ ids ws) then Some (out g o' w') else cell w' o' r.
Proof.
intros Hnd Hc. destruct (Hc g ws) as [Hwf Hent]; [left|].
destruct (split_outputs_ok (out g) (dget_or [] g grouped) (by_slice_index ws) r) as (r' & Hr & Hcells); [done| | |].
- by rewrite ids_by_slice_index.
- intros o values Hin. destruct (Hent o values Hin) as [-> Hw]. split; [done|].
  intros w Hww. apply Hw. by apply elem_of_by_slice_index.
- exists r'. split; [done|]. intros w' o'. rewrite Hcells.
  assert (E : w' ∈ ids (by_slice_index ws) ↔ w' ∈ ids ws) by (by rewrite ids_by_slice_index).
  repeat case_decide; naive_solver.
Qed.

Lemma delivered_nil grouped r : delivered grouped [] r r.
Proof. split; [intros g ws w o Hin; by apply elem_of_nil in Hin|done]. Qed.

Lemma delivered_cons grouped g ws groups r r1 r' :
NoDup (ids (ws ++ concat (dvals groups))) →
(∀ w' o', cell w' o' r1 =
    if decide (o' ∈ dkeys (dget_or [] g grouped) ∧ w' ∈ ids ws) then Some (out g o' w') else cell w' o' r) →
delivered grouped groups r1 r' → delivered grouped ((g, ws) :: groups) r r'.
Proof.
unfold ids. rewrite fmap_app. intros (_ & Hdis & _)%NoDup_app H1 [Hin Hout]. split.
- intros g' ws' w o [[= -> ->]|Hin']%elem_of_cons Hw.
  + rewrite Hout, H1 by (by apply Hdis, list_elem_of_fmap_2).
    assert (wid w ∈ ids ws) by (by apply list_elem_of_fmap_2). repeat case_decide; naive_solver.
  + rewrite (Hin g' ws') by done. case_decide; [done|]. rewrite H1. apply decide_False. intros [_ Hx].
    apply (Hdis _ Hx). apply list_elem_of_fmap_2. apply list_elem_of_In, in_concat. exists ws'.
    rewrite <-!list_elem_of_In. split; [|done]. apply list_elem_of_fmap. by exists (g', ws').
- intros w o Hw. unfold dvals, ids in Hw. csimpl in Hw. rewrite fmap_app, elem_of_app in Hw.
  rewrite Hout, H1 by naive_solver. apply decide_False. naive_solver.
Qed.

Lemma collected_step grouped g ws groups r r1 :
NoDup (ids (ws ++ concat (dvals groups))) →
(∀ w' o', cell w' o' r1 =
    if decide (o' ∈ dkeys (dget_or [] g grouped) ∧ w' ∈ ids ws) then Some (out g o' w') else cell w' o' r) →
collected grouped ((g, ws) :: groups) r → collected grouped groups r1.
Proof.
unfold ids. rewrite fmap_app. intros (_ & Hdis & _)%NoDup_app H1 Hc g' ws' Hin.
destruct (Hc g' ws') as [Hwf Hent]; [by right|]. split; [done|].
intros o values Hov. destruct (Hent o values Hov) as [-> Hw]. split; [done|].
intros w Hww. destruct (Hw w Hww) as [Hl Hn]. split; [done|]. rewrite H1, decide_False; [done|].
intros [_ Hx]. apply (Hdis _ Hx). apply list_elem_of_fmap_2. apply list_elem_of_In, in_concat. exists ws'.
rewrite <-!list_elem_of_In. split; [|done]. apply list_elem_of_fmap. by exists (g', ws').
Qed.
End groups.

Lemma split_groups_ok out out_h grouped grouped_h groups r h :
  NoDup (ids (concat (dvals groups))) →
  collected out grouped groups r → collected out_h grouped_h groups h →
  ∃ r' h', foldR (split_group grouped grouped_h) (r, h) groups = Ok (r', h') ∧
    delivered out grouped groups r r' ∧ delivered out_h grouped_h groups h h'.
Proof.
  revert r h. induction groups as [|[g ws] groups IH]; intros r h Hnd Hc Hh.
  { exists r, h. split; [done|]. split; apply delivered_nil. }
  change (concat (dvals ((g, ws) :: groups))) with (ws ++ concat (dvals groups)) in Hnd.
  assert (Hws : NoDup (ids ws)) by (unfold ids in *; rewrite fmap_app in Hnd; by apply NoDup_app in Hnd as [? _]).
  assert (Hone : ∀ out grouped r, collected out grouped ((g, ws) :: groups) r → collected out grouped [(g, ws)] r).
  { intros o1 g1 r1 H1 g' ws' Hin%list_elem_of_singleton. injection Hin as -> ->. apply H1. left. }
  destruct (split_one_group out grouped g ws r Hws (Hone _ _ _ Hc)) as (r1 & Hr1 & H1).
  destruct (split_one_group out_h grouped_h g ws h Hws (Hone _ _ _ Hh)) as (h1 & Hh1 & H2).
  destruct (IH r1 h1) as (r' & h' & Hf & Hd & Hdh).
  - unfold ids in *. rewrite fmap_app in Hnd. by apply NoDup_app in Hnd as (_ & _ & ?).
  - by eapply collected_step.
  - by eapply collected_step.
  - exists r', h'. split; [|split; by eapply delivered_cons].
    assert (E : split_group grouped grouped_h (r, h) (g, ws) = Ok (r1, h1)).
    { unfold split_group. cbn [fst snd]. rewrite Hr1. simpl. by rewrite Hh1. }
    by rewrite foldR_cons, E.
Qed.

(** ** Collecting the outputs of the nodes *)

Definition key_of (x : string * string * list val) : string * string := x.1.
Definition collect (d : slots) (x : string * string * list val) : slots := extend_in x.1.1 x.1.2 x.2 d.

Lemma collect_spec xs d :
  NoDup (key_of <$> xs) → (∀ x, x ∈ xs → cell x.1.1 x.1.2 d = None) →
  let d' := foldl collect d xs in
  (∀ x, x ∈ xs → cell x.1.1 x.1.2 d' = Some x.2) ∧
  (∀ g o, (g, o) ∉ key_of <$> xs → cell g o d' = cell g o d) ∧
  ((∀ g, dict_wf (dget_or [] g d)) → ∀ g, dict_wf (dget_or [] g d')).
Proof.
  revert d. induction xs as [|[[g o] l] xs IH]; intros d Hnd Hnone; csimpl in *.
  { split_and!; [|done|done]. intros x Hx. by apply elem_of_nil in Hx. }
  apply NoDup_cons in Hnd as [Hnew Hnd]. unfold key_of at 1 in Hnew. simpl in Hnew.
  assert (Hgo : dget o (dget_or [] g d) = None) by (apply (Hnone (g, o, l)); left).
  assert (Hd1 : collect d (g, o, l) = dset_in g o l d).
  { assert (E : dget_or [] o (dget_or [] g d) = []) by (unfold dget_or at 1; by rewrite Hgo).
    unfold collect, extend_in, dset_in. simpl. by rewrite E. }
  rewrite Hd1. destruct (IH (dset_in g o l d) Hnd) as (H1 & H2 & H3).
  { intros x Hx. rewrite cell_dset_in, decide_False; [apply Hnone; by right|].
    intros [E1 E2]. apply Hnew. rewrite <-E1, <-E2, <-surjective_pairing. by apply list_elem_of_fmap_2. }
  split_and!.
  - intros x [->|Hx]%elem_of_cons; [|by apply H1]. simpl. rewrite H2 by done.
    rewrite cell_dset_in, decide_True by done. done.
  - intros g' o' Hno. apply not_elem_of_cons in Hno as [Hne Hno]. unfold key_of in Hne. simpl in Hne.
    rewrite H2 by done. rewrite cell_dset_in, decide_False; [done|]. naive_solver.
  - intros Hwf g'. apply H3. intros g1. unfold dset_in. rewrite dget_or_dset. case_decide; [|done].
    apply dict_wf_dset, Hwf.
Qed.

Section theorem.
Context (groups : dict string (list WorkflowItem.t)) (output_mapping : dict string (string * string)).
Context (lambdas : list (string * string)).

(** The runtime returned, for a node of a group, the outputs [out] of the
  slices of the group in slice order.  The node is not one of a single
  slice: no list-mode lambda, and no workflow prefix. *)
Definition group_node (ls : list (string * string)) (out : string → string → string → list val)
  (kv : string * val) (x : string * string * list val) : Prop :=
∃ ws, dget kv.1 output_mapping = Some x.1 ∧ (x.1.1, ws) ∈ groups ∧ x.1 ∉ ls ∧
  match_workflow_for_group_node groups x.1.1 kv.1 = None ∧ kv.2 = VList x.2 ∧
  x.2 = concat (out x.1.1 x.1.2 <$> ids (by_slice_index ws)) ∧
  ∀ w, w ∈ ws → Z.of_nat (length (out x.1.1 x.1.2 (wid w))) = WorkflowItem.slice_length w.

Lemma collect_nodes ls out flat xs direct grouped :
Forall2 (group_node ls out) flat xs →
foldR (demux_node groups output_mapping ls) (direct, grouped) flat = Ok (direct, foldl collect grouped xs).
Proof.
intros H. revert grouped. induction H as [|[n v] [[g o] l] flat xs Hx _ IH]; intros grouped; [done|].
destruct Hx as (ws & Hmap & _ & Hl & Hmatch & Hv & _). simpl in *. subst v.
rewrite Hmap. simpl. rewrite decide_False by done. rewrite Hmatch. simpl. apply IH.
Qed.

Lemma collected_nodes ls out flat xs :
dict_wf groups → Forall2 (group_node ls out) flat xs → NoDup (key_of <$> xs) →
collected out (foldl collect [] xs) groups [].
Proof.
intros Hg Hall Hnd. destruct (collect_spec xs [] Hnd) as (H1 & H2 & H3); [done|].
intros g ws Hin. split; [apply H3; intros; constructor|]. intros o values Hov.
apply (elem_dget o values) in Hov; [|apply H3; intros; constructor].
change (cell g o (foldl collect [] xs) = Some values) in Hov.
destruct (decide ((g, o) ∈ key_of <$> xs)) as [Hk|Hk]; [|by rewrite H2 in Hov].
apply list_elem_of_fmap in Hk as ([k l] & Ek & Hx). unfold key_of in Ek. simpl in Ek. subst k.
specialize (H1 _ Hx) as Hl. simpl in Hl. rewrite Hl in Hov. injection Hov as <-. clear Hl.
apply list_elem_of_lookup in Hx as [i Hi]. destruct (Forall2_lookup_r _ _ _ _ _ Hall Hi) as (kv & _ & Hn).
destruct Hn as (ws' & _ & Hin' & _ & _ & _ & Hl & Hlen). simpl in *.
assert (ws' = ws) as -> by (apply (elem_dget _ _ _ Hg) in Hin, Hin'; congruence).
split; [done|]. intros w Hw. by rewrite Hlen.
Qed.

(** C27: splitting undoes coalescing: when the runtime returns for every output
  node of the groups the outputs of the group's slices one after the other,
  the split succeeds and every slice gets its own outputs and histories,
  and nothing else. *)
Theorem demux_returns_the_slices out out_h flat xs histories hs :
dict_wf groups → NoDup (ids (concat (dvals groups))) →
Forall2 (group_node lambdas out) flat xs → NoDup (key_of <$> xs) →
Forall2 (group_node [] out_h) histories hs → NoDup (key_of <$> hs) →
∃ outputs chat_histories, demux groups output_mapping lambdas flat histories = Ok (outputs, chat_histories) ∧
  ∀ g ws w o, (g, ws) ∈ groups → w ∈ ws →
    cell (wid w) o outputs = (if decide ((g, o) ∈ key_of <$> xs) then Some (out g o (wid w)) else None) ∧
    cell (wid w) o chat_histories = (if decide ((g, o) ∈ key_of <$> hs) then Some (out_h g o (wid w)) else None).
Proof.
intros Hg Hids Hflat Hxs Hhist Hhs.
destruct (split_groups_ok out out_h (foldl collect [] xs) (foldl collect [] hs) groups [] []) as
  (r & h & Hr & [Hd _] & [Hdh _]); [done|by eapply collected_nodes..|].
exists r, h. unfold demux.
rewrite (collect_nodes lambdas out flat xs) by done. simpl.
rewrite (collect_nodes [] out_h histories hs) by done. simpl. split; [exact Hr|].
assert (Hkeys : ∀ (ys : list (string * string * list val)) g o, NoDup (key_of <$> ys) →
  o ∈ dkeys (dget_or [] g (foldl collect [] ys)) ↔ (g, o) ∈ key_of <$> ys).
{ intros ys g o Hnd. destruct (collect_spec ys [] Hnd) as (H1 & H2 & _); [done|].
  rewrite <-dget_is_Some. change (is_Some (cell g o (foldl collect [] ys)) ↔ (g, o) ∈ key_of <$> ys). split.
  - intros [l Hl]. destruct (decide ((g, o) ∈ key_of <$> ys)) as [|Hn]; [done|]. by rewrite H2 in Hl.
  - intros ([k l] & Ek & Hx)%list_elem_of_fmap. unfold key_of in Ek. simpl in Ek. subst k.
    specialize (H1 _ Hx) as Hl. simpl in Hl. rewrite Hl. eauto. }
intros g ws w o Hin Hw. rewrite (Hd g ws w o), (Hdh g ws w o) by done.
specialize (Hkeys xs g o Hxs) as K1. specialize (Hkeys hs g o Hhs) as K2.
split; repeat case_decide; naive_solver.
Qed.
End theorem.

(** ** Coalescing is transparent *)

Lemma sorted_by_id {A K} (lt : K → K → bool) (key : A → K) l :
  StronglySorted (λ a b, lt (key b) (key a) = false) l → sorted_by lt key l = l.
Proof.
  induction 1 as [|x l _ IH Hx]; [done|]. simpl. rewrite IH. destruct l as [|y l]; [done|].
  simpl. inversion Hx as [|?? Hy _]. by rewrite Hy.
Qed.

(** Parent ids tell request workflows apart. *)
Definition parents_unambiguous (workflows : list WorkflowItem.t) : Prop :=
  ∀ w w', w ∈ workflows → w' ∈ workflows → request_workflow_parent_id w = request_workflow_parent_id w' →
    WorkflowItem.request_id w = WorkflowItem.request_id w' ∧
    WorkflowItem.public_graph_name w = WorkflowItem.public_graph_name w'.

Lemma slice_order_index ws :
  (∀ w w', w ∈ ws → w' ∈ ws → WorkflowItem.request_id w = WorkflowItem.request_id w' ∧
     WorkflowItem.public_graph_name w = WorkflowItem.public_graph_name w') →
  in_slice_order ws → by_slice_index ws = ws.
Proof.
  intros Hsame Hord. apply sorted_by_id. unfold in_slice_order in Hord.
  induction Hord as [|x l Hord IH Hx]; [constructor|].
  constructor; [apply IH; intros; apply Hsame; by right|].
  rewrite Forall_forall in Hx |- *. intros y Hy. specialize (Hx y Hy).
  destruct (Hsame y x) as [E1 E2]; [by right|left|].
  unfold slice_key_lt, slice_key, lex_lt in Hx. simpl in Hx. rewrite E1, E2, !String.eqb_refl in Hx.
  destruct (Z.eqb_spec (WorkflowItem.slice_index y) (WorkflowItem.slice_index x)); [lia|done].
Qed.

Section transparent.
Context (json_loads : string → option val) (workflows : list WorkflowItem.t).
Context (groups : dict string (list WorkflowItem.t)).
Context (Hhash : Forall proper_hash workflows) (Hids : NoDup (ids workflows)).
Context (Hparents : parents_unambiguous workflows).
Context (Hgroups : group_workflows_by_parent_workflow workflows = Ok groups).

Lemma grouped_in_order g ws : (g, ws) ∈ groups →
(∀ w, w ∈ ws → w ∈ workflows) ∧ sorted_slices ws = ws ∧ by_slice_index ws = ws.
Proof using Hhash Hparents Hgroups.
intros Hin. destruct (slices_are_grouped_once workflows groups Hhash Hgroups) as (Hperm & _ & Hgrp).
destruct (Hgrp g ws Hin) as (Hord & _ & (parent & _ & _ & Hp) & _).
assert (Hsub : ∀ w, w ∈ ws → w ∈ workflows).
{ intros w Hw. rewrite <-Hperm. apply list_elem_of_In, in_concat. exists ws. rewrite <-!list_elem_of_In.
  split; [|done]. apply list_elem_of_fmap. by exists (g, ws). }
split_and!; [done|by apply sorted_by_id|]. apply slice_order_index; [|done].
intros w w' Hw Hw'. apply Hparents; auto. by rewrite (Hp w), (Hp w').
Qed.

Lemma merged_values ws graph hits k values :
merge_group_compiled_graph json_loads ws = Ok (graph, hits) →
(∀ w, w ∈ ws → k ∈ WorkflowItem.varying_input_keys w) →
dget k (CompiledGraph.inputs graph) = Some values → values = concat (rows k <$> sorted_slices ws).
Proof.
intros H Hk Hget. destruct hits as [hits|].
- destruct (merged_inputs_cover_the_slices json_loads ws graph hits H) as (first & rest & _ & E & _ & Hv & _).
  apply (Hv k); [by apply dget_elem|]. apply Hk. apply (elem_of_sorted_by slice_key_lt slice_key).
  change (first ∈ sorted_slices ws). rewrite E. left.
- unfold merge_group_compiled_graph in H. destruct (sorted_slices ws) as [|first [|second rest]] eqn:E; [done| |].
  + injection H as <-. csimpl. rewrite app_nil_r. unfold rows, dget_or, slice_inputs. by rewrite Hget.
  + destruct (negb _) in H; [done|]. repeat (apply result_bind_ok in H as (? & _ & H)). done.
Qed.

(** The runtime computes output [x.1.2] of group [x.1.1] row by row, with the
  function [f], out of the rows of its merged input [key]. *)
Definition rowwise_node (output_mapping : dict string (string * string)) (lambdas : list (string * string))
  (key : string → string → string) (f : string → string → string → val)
  (kv : string * val) (x : string * string * list val) : Prop :=
∃ ws graph hits values, dget kv.1 output_mapping = Some x.1 ∧ (x.1.1, ws) ∈ groups ∧ x.1 ∉ lambdas ∧
  match_workflow_for_group_node groups x.1.1 kv.1 = None ∧
  merge_group_compiled_graph json_loads ws = Ok (graph, hits) ∧
  (∀ w, w ∈ ws → key x.1.1 x.1.2 ∈ WorkflowItem.varying_input_keys w ∧
     Z.of_nat (length (rows (key x.1.1 x.1.2) w)) = WorkflowItem.slice_length w) ∧
  dget (key x.1.1 x.1.2) (CompiledGraph.inputs graph) = Some values ∧
  kv.2 = VList x.2 ∧ x.2 = f x.1.1 x.1.2 <$> values.

Definition item_rows (key : string) (id : string) : list string :=
match dget id (zip (ids workflows) workflows) with Some w => rows key w | None => [] end.

Lemma item_rows_of key w : w ∈ workflows → item_rows key (wid w) = rows key w.
Proof using Hids.
intros Hw. unfold item_rows. rewrite (elem_dget (wid w) w); [done| |].
- unfold dict_wf, dkeys. by rewrite fst_zip by (unfold ids; by rewrite length_fmap).
- unfold ids. clear -Hw. induction workflows as [|x l IH]; [by apply elem_of_nil in Hw|]. csimpl.
  apply elem_of_cons in Hw as [->|Hw]; [left|right; auto].
Qed.

Lemma concat_rows (h : string → val) key ws : (∀ w, w ∈ ws → w ∈ workflows) →
h <$> concat (rows key <$> ws) = concat ((λ id, h <$> item_rows key id) <$> ids ws).
Proof using Hids.
unfold ids. induction ws as [|w ws IH]; intros Hsub; [done|]. csimpl. rewrite fmap_app, IH.
- by rewrite item_rows_of by (apply Hsub; left).
- intros x Hx. apply Hsub. by right.
Qed.

(** C26: coalescing slices is transparent: when the slices of a batch are
  grouped, the inputs of each group merged, the group run once row by row
  and its outputs split, every slice receives what running it alone on its
  own rows computes, in its own row order. *)
Theorem coalescing_is_transparent output_mapping lambdas key f flat xs :
Forall2 (rowwise_node output_mapping lambdas key f) flat xs → NoDup (key_of <$> xs) →
∃ outputs histories, demux groups output_mapping lambdas flat [] = Ok (outputs, histories) ∧
  ∀ g ws w o, (g, ws) ∈ groups → w ∈ ws → (g, o) ∈ key_of <$> xs →
    cell (wid w) o outputs = Some (f g o <$> rows (key g o) w).
Proof using All.
intros Hflat Hxs. destruct (slices_are_grouped_once workflows groups Hhash Hgroups) as (Hperm & Hwf & _).
set (out g o id := f g o <$> item_rows (key g o) id).
destruct (demux_returns_the_slices groups output_mapping lambdas out (λ _ _ _, []) flat xs [] [])
  as (outputs & histories & E & Hcells); try done.
- unfold ids in *. by rewrite Hperm.
- eapply Forall2_impl; [exact Hflat|].
  intros kv x (ws & graph & hits & values & H1 & H2 & H3 & H4 & H5 & H6 & H7 & H8 & H9).
  destruct (grouped_in_order x.1.1 ws H2) as (Hsub & Es & Eb).
  exists ws. split_and!; try done.
  + rewrite Eb, H9. apply merged_values with (k := key x.1.1 x.1.2) (values := values) in H5; [|apply H6|done].
    rewrite H5, Es. by apply concat_rows.
  + intros w Hw. unfold out. rewrite length_fmap, item_rows_of by auto. by apply H6.
- constructor.
- exists outputs, histories. split; [done|]. intros g ws w o Hin Hw Hgo.
  destruct (Hcells g ws w o Hin Hw) as [-> _]. rewrite decide_True by done. unfold out.
  destruct (grouped_in_order g ws Hin) as (Hsub & _). by rewrite item_rows_of by auto.
Qed.
End transparent.

(** ** Witnesses *)

Module SampleDemux.
Definition g1 : string := "request::r1::report::t4f".
Definition g2 : string := "request::r2::report::t4f".
Definition mapping : dict string (string * string) := [("n1", (g1, "answer")); ("n2", (g2, "answer"))].
Definition upper (_ _ s : string) : val := VStr ("<" +:+ s +:+ ">").
Definition flat : dict string val :=
[("n1", VList [VStr "<a>"; VStr "<b>"; VStr "<c>"]); ("n2", VList [VStr "<x>"; VStr "<y>"; VStr "<z>"])].
Definition xs : list (string * string * list val) :=
[(g1, "answer", [VStr "<a>"; VStr "<b>"; VStr "<c>"]); (g2, "answer", [VStr "<x>"; VStr "<y>"; VStr "<z>"])].

Lemma unambiguous : parents_unambiguous SampleCoalesce.workflows.
Proof.
intros w w' Hw Hw' E. unfold SampleCoalesce.workflows in *. rewrite !elem_of_cons, elem_of_nil in Hw, Hw'.
destruct Hw as [->|[->|[->|[]]]], Hw' as [->|[->|[->|[]]]]; vm_compute in E; try discriminate E; split; reflexivity.
Qed.

Lemma rowwise : Forall2 (rowwise_node (λ _, None) SampleCoalesce.groups mapping [] (λ _ _, "q") upper) flat xs.
Proof.
constructor; [|constructor; [|constructor]]; eexists _, _, _, _; cbn [fst snd].
all: split; [vm_compute; reflexivity|].
1: split; [left|]. 2: split; [right; left|].
all: split; [by intros ?%elem_of_nil|]; split; [vm_compute; reflexivity|]; split; [vm_compute; reflexivity|].
all: split; [|split; [vm_compute; reflexivity|split; [reflexivity|vm_compute; reflexivity]]].
all: intros w Hw; rewrite ?elem_of_cons, elem_of_nil in Hw.
- destruct Hw as [->|[->|[]]]; (split; [left|reflexivity]).
- destruct Hw as [->|[]]; (split; [left|reflexivity]).
Qed.

Lemma distinct : NoDup (ids SampleCoalesce.workflows) ∧ NoDup (key_of <$> xs).
Proof. apply (bool_decide_unpack _). vm_compute. exact I. Qed.
End SampleDemux.

Lemma coalescing_is_transparent_witness :
  ∃ outputs histories,
    demux SampleCoalesce.groups SampleDemux.mapping [] SampleDemux.flat [] = Ok (outputs, histories) ∧
    cell "w2" "answer" outputs = Some [VStr "<c>"].
Proof.
  destruct (coalescing_is_transparent (λ _, None) SampleCoalesce.workflows SampleCoalesce.groups
    SampleCoalesce.hashes (proj1 SampleDemux.distinct)
    SampleDemux.unambiguous SampleCoalesce.grouping SampleDemux.mapping [] (λ _ _, "q") SampleDemux.upper
    SampleDemux.flat SampleDemux.xs SampleDemux.rowwise
    (proj2 SampleDemux.distinct)) as (o & h & E & H).
  exists o, h. split; [exact E|].
  refine (H SampleDemux.g1 _ (SampleCoalesce.slice "w2" "r1" 1 2 ["c"]) "answer" _ _ _); [left|right; left|left].
Defined.

Lemma demux_returns_the_slices_witness :
  let out (g o id : string) : list val :=
    if decide (id = "w1") then [VInt 1; VInt 2] else if decide (id = "w2") then [VInt 3] else [VInt 4; VInt 5; VInt 6] in
  ∃ outputs histories,
    demux SampleCoalesce.groups SampleDemux.mapping [] [("n1", VList [VInt 1; VInt 2; VInt 3])] [] = Ok (outputs, histories) ∧
    cell "w1" "answer" outputs = Some [VInt 1; VInt 2] ∧ cell "w3" "answer" outputs = None.
Proof.
  intros out.
  destruct (demux_returns_the_slices SampleCoalesce.groups SampleDemux.mapping [] out out
    [("n1", VList [VInt 1; VInt 2; VInt 3])] [(SampleDemux.g1, "answer", [VInt 1; VInt 2; VInt 3])] [] [])
    as (o & h & E & H).
  - apply (bool_decide_unpack _). vm_compute. exact I.
  - apply (bool_decide_unpack _). vm_compute. exact I.
  - constructor; [|constructor]. eexists. cbn [fst snd]. split; [reflexivity|]. split; [left|].
    split; [by intros ?%elem_of_nil|]. split; [reflexivity|]. split; [reflexivity|]. split; [reflexivity|].
    intros w Hw. rewrite !elem_of_cons, elem_of_nil in Hw. destruct Hw as [->|[->|[]]]; reflexivity.
  - apply NoDup_singleton.
  - constructor.
  - constructor.
  - exists o, h. split; [exact E|]. split.
    + refine (proj1 (H SampleDemux.g1 _ (SampleCoalesce.slice "w1" "r1" 0 0 ["a"; "b"]) "answer" _ _)); left.
    + refine (proj1 (H SampleDemux.g2 _ (SampleCoalesce.slice "w3" "r2" 0 0 ["x"; "y"; "z"]) "answer" _ _));
        [right; left|left].
Defined.
