(* ===== verification/Results.v ===== *)
(** * Merging batch results into requests (runtime/server.py, [_handle_batch_results])

    A request is split into slices that finish in any order, in different
    batches.  Their outputs are written into per-output buffers as long as the
    whole workflow; when the last pending workflow of a request is accounted
    for, the buffers become the response.

    [None] cells of a buffer are [VNone].  Python's [str] on a JSON value is
    the parameter [to_str].  [error] is the redacted text of the error a batch
    failed with. *)

From S2P Require Import Prelude PyFloat PyDict PyValue PyString Protocol RuntimeGraph Grouping JobBase PriorityQueue RequestState.

(** [f"{[1, 2]}"] *)
Definition str_of_indices (l : list nat) : string :=
  "[" +:+ String.concat ", " ((λ n, str_of_Z (Z.of_nat n)) <$> l) +:+ "]".

Definition opt_val (x : option string) : val := match x with Some s => VStr s | None => VNone end.

(** The buffers of outputs or of chat histories. *)
Definition get_buffers (is_history : bool) (s : RequestState.t) : dict string (dict string (list val)) :=
  if is_history then Buffers.chat_history_buffers (RequestState.buffers s)
  else Buffers.output_buffers (RequestState.buffers s).

Definition put_buffers (is_history : bool) (b : dict string (dict string (list val))) (s : RequestState.t) :
    RequestState.t :=
  RequestState.set_buffers
    (if is_history then Buffers.mk (Buffers.output_buffers (RequestState.buffers s)) b
     else Buffers.mk b (Buffers.chat_history_buffers (RequestState.buffers s))) s.

(** [buffers[public_name][output_name] = target] *)
Definition put_target (is_history : bool) (public_name output_name : string) (target : list val)
    (s : RequestState.t) : RequestState.t :=
  put_buffers is_history (dset_in public_name output_name target (get_buffers is_history s)) s.

Definition get_target (is_history : bool) (public_name output_name : string) (s : RequestState.t) :
    option (list val) :=
  dget output_name (dget_or [] public_name (get_buffers is_history s)).

Definition slice_error (i : WorkflowItem.t) (output : option string) (error : string) : dict string val :=
  [("graph", VStr (WorkflowItem.public_graph_name i)); ("slice_index", VInt (WorkflowItem.slice_index i));
   ("workflow_id", VStr (WorkflowItem.workflow_id i))] ++
  match output with Some o => [("output", VStr o)] | None => [] end ++ [("error", VStr error)].

(** The indices of [[start, start + length values)] already written. *)
Definition overlap (start len : nat) (target : list val) : list nat :=
  filter (λ idx, default VNone (target !! idx) ≠ VNone) (seq start len).

(** One output of a slice: the new state, and whether it merged cleanly. *)
Definition merge_output (i : WorkflowItem.t) (is_history : bool) (s : RequestState.t)
    (output : string * list val) : RequestState.t * result bool :=
  let '(output_name, values) := output in
  let public_name := WorkflowItem.public_graph_name i in
  let total_length := Z.to_nat (WorkflowItem.total_length i) in
  let start := Z.to_nat (WorkflowItem.slice_start i) in
  if bool_decide (output_name ∈ dget_or [] (WorkflowItem.workflow_id i) (RequestState.list_lambda_outputs s)) then
    match values with
    | [value] =>
        match default [VNone] (get_target is_history public_name output_name s) with
        | [] => (s, Err (IndexError "list index out of range"))
        | old :: rest =>
            let clean := is_none old in
            let s := if clean then s
                     else RequestState.append_error
                            (slice_error i (Some output_name) "overlapping slice assignment") s in
            (put_target is_history public_name output_name (value :: rest) s, Ok clean)
        end
    | _ =>
        (RequestState.append_error (slice_error i (Some output_name)
           ("list-Lambda output length mismatch: expected=1 got=" +:+ str_of_Z (Z.of_nat (length values)))) s,
         Ok false)
    end
  else if negb (Z.of_nat (length values) =? WorkflowItem.slice_length i)%Z then
    (RequestState.append_error (slice_error i (Some output_name)
       ("slice payload length mismatch: expected=" +:+ str_of_Z (WorkflowItem.slice_length i)
          +:+ " got=" +:+ str_of_Z (Z.of_nat (length values)))) s,
     Ok false)
  else
    let target := default (replicate total_length VNone) (get_target is_history public_name output_name s) in
    if negb (length target =? total_length)
    then (put_target is_history public_name output_name target s,
          Err (RuntimeError "Inconsistent buffer size"))
    else
      let over := overlap start (length values) target in
      let s := match over with
               | [] => s
               | _ => RequestState.append_error (slice_error i (Some output_name)
                        ("overlapping slice assignment at indices " +:+ str_of_indices over)) s
               end in
      (put_target is_history public_name output_name (list_inserts start values target) s,
       Ok (bool_decide (over = []))).

Fixpoint merge_outputs (i : WorkflowItem.t) (is_history : bool) (s : RequestState.t) (merged : bool)
    (payload : dict string (list val)) : RequestState.t * result bool :=
  match payload with
  | [] => (s, Ok merged)
  | output :: payload' =>
      match merge_output i is_history s output with
      | (s, Err e) => (s, Err e)
      | (s, Ok clean) => merge_outputs i is_history s (merged && clean) payload'
      end
  end.

Definition merge_slice_payload (i : WorkflowItem.t) (is_history : bool) (payload : dict string (list val))
    (s : RequestState.t) : RequestState.t * result bool :=
  if (WorkflowItem.total_length i <=? 0)%Z
  then (RequestState.append_error (slice_error i None "invalid total slice length") s, Ok false)
  else if ((WorkflowItem.slice_start i <? 0) ||
           (WorkflowItem.total_length i <? WorkflowItem.slice_start i + WorkflowItem.slice_length i))%Z%bool
  then (RequestState.append_error (slice_error i None "slice range out of bounds") s, Ok false)
  else
    let s := put_buffers is_history
               (dsetdefault (WorkflowItem.public_graph_name i) [] (get_buffers is_history s)) s in
    merge_outputs i is_history s true payload.

(** [mark_successful_input_completion] *)
Definition mark_successful_input_completion (i : WorkflowItem.t) (s : RequestState.t) : RequestState.t :=
  let workflow_id := WorkflowItem.workflow_id i in
  if bool_decide (workflow_id ∈ RequestState.successful_workflow_ids s) then s
  else RequestState.set_success
         (RequestState.completed_input_items_success s + Z.max 0 (WorkflowItem.slice_length i))%Z
         (RequestState.successful_workflow_ids s ++ [workflow_id]) s.

Definition run_error (i : WorkflowItem.t) (execution_request_id : option string) (key value : string) :
    dict string val :=
  [(key, VStr value); ("execution_request_id", opt_val execution_request_id);
   ("graph", VStr (WorkflowItem.public_graph_name i)); ("slice_index", VInt (WorkflowItem.slice_index i))].

Section results.
Context (to_str : val → string).

(** The outcome of a batch. *)
Context (batch_outputs batch_histories : dict string (dict string (list val))).
Context (error : option string) (cancelled_requests : list string).
Context (execution_request_id : option string).

(** The body of the loop over the batch's workflows, on the state of the
  workflow's request. *)
Definition account_outputs (i : WorkflowItem.t) (s : RequestState.t) : RequestState.t * option exn :=
match dget (WorkflowItem.workflow_id i) batch_outputs with
| Some payload =>
    match merge_slice_payload i false payload s with
    | (s, Ok merged) => (if merged then mark_successful_input_completion i s else s, None)
    | (s, Err e) => (s, Some e)
    end
| None =>
    match error with
    | None => (RequestState.append_error
                 (run_error i execution_request_id "missing_output" (WorkflowItem.workflow_id i)) s, None)
    | Some _ => (s, None)
    end
end.

Definition account_histories (i : WorkflowItem.t) (s : RequestState.t) : RequestState.t * option exn :=
match dget (WorkflowItem.workflow_id i) batch_histories with
| Some payload =>
    match merge_slice_payload i true payload s with
    | (s, Ok _) => (s, None)
    | (s, Err e) => (s, Some e)
    end
| None => (s, None)
end.

Definition account_workflow (i : WorkflowItem.t) (s : RequestState.t) : RequestState.t * option exn :=
let workflow_id := WorkflowItem.workflow_id i in
if bool_decide (WorkflowItem.request_id i ∈ cancelled_requests) then
  (RequestState.discard_pending workflow_id
     (RequestState.append_error
        (run_error i execution_request_id "request_cancelled" (WorkflowItem.request_id i) ++
         [("workflow_id", VStr workflow_id)]) s), None)
else
  let s := match error with
           | Some text => RequestState.append_error
               (run_error i execution_request_id "batch_error" text ++ [("workflow_id", VStr workflow_id)]) s
           | None => s
           end in
  match account_outputs i s with
  | (s, Some e) => (s, Some e)
  | (s, None) =>
      match account_histories i s with
      | (s, Some e) => (s, Some e)
      | (s, None) => (RequestState.discard_pending workflow_id s, None)
      end
  end.

Fixpoint account_workflows (workflows : list WorkflowItem.t) (reqs : request_table) :
  request_table * option exn :=
match workflows with
| [] => (reqs, None)
| i :: workflows' =>
    match dget (WorkflowItem.request_id i) reqs with
    | None => account_workflows workflows' reqs
    | Some s =>
        match account_workflow i s with
        | (s, None) => account_workflows workflows' (dset (WorkflowItem.request_id i) s reqs)
        | (s, Some e) => (dset (WorkflowItem.request_id i) s reqs, Some e)
        end
    end
end.

(** [finalize_state] *)
Definition missing_indices (values : list val) : list nat :=
filter (λ idx, default VNone (values !! idx) = VNone) (seq 0 (length values)).

Definition finalize_buffer {V} (what : string) (render : val → V)
  (st : RequestState.t * dict string (dict string (list V))) (entry : string * (string * list val)) :
  RequestState.t * dict string (dict string (list V)) :=
let '(s, finalized) := st in
let '(public_name, (output_name, values)) := entry in
let s := match missing_indices values with
         | [] => s
         | missing => RequestState.append_error
             [("graph", VStr public_name); ("output", VStr output_name);
              ("error", VStr ("missing " +:+ what +:+ " indices " +:+ str_of_indices missing))] s
         end in
(s, dset_in public_name output_name (render <$> values) finalized).

(** The entries in the order of the nested loops. *)
Definition buffer_entries (b : dict string (dict string (list val))) : list (string * (string * list val)) :=
b ≫= λ pm, (λ ov, (pm.1, ov)) <$> pm.2.

Definition finalize_state (s : RequestState.t) : RequestState.t :=
let '(s, outputs) :=
  foldl (finalize_buffer "output" (λ v, if is_none v then "" else to_str v)) (s, [])
    (buffer_entries (get_buffers false s)) in
let '(s, histories) :=
  foldl (finalize_buffer "chat history" (λ v, if is_none v then VList [] else v)) (s, [])
    (buffer_entries (get_buffers true s)) in
RequestState.set_outputs outputs histories s.

(** A request with nothing pending gets its response. *)
Definition finish_request (s : RequestState.t) : RequestState.t :=
match RequestState.pending_workflows s, RequestState.ready s with
| [], true =>
    let s := finalize_state s in
    RequestState.put_result (RequestState.response s) s
| _, _ => s
end.

(** The requests of the batch that are known ([affected_requests]). *)
Definition affected_requests (workflows : list WorkflowItem.t) (reqs : request_table) : list string :=
remove_dups (filter (λ r, r ∈ dkeys reqs) (WorkflowItem.request_id <$> workflows)).

Definition handle_batch_results (workflows : list WorkflowItem.t) (batch_id : option string)
  (task_node_map : dict string string) (reqs : request_table) : request_table * option exn :=
let affected := affected_requests workflows reqs in
match account_workflows workflows reqs with
| (reqs, Some e) => (reqs, Some e)
| (reqs, None) =>
    let reqs :=
      match error, task_node_map with
      | Some _, _ :: _ =>
          foldl (λ reqs r, on_request r (RequestState.append_error
            [("batch_id", opt_val batch_id); ("execution_request_id", opt_val execution_request_id);
             ("task_node_map", VDict ((λ kv, (kv.1, VStr kv.2)) <$> task_node_map))]) reqs) reqs affected
      | _, _ => reqs
      end in
    (foldl (λ reqs r, on_request r finish_request reqs) reqs affected, None)
end.
End results.
