(* ===== verification/ResultsProps.v ===== *)
(** * Correctness of the result merge

    The slices of a workflow reassemble to the whole output whatever the
    order they finish in, and a request is answered exactly when its last
    pending workflow is accounted for. *)

From S2P Require Import Prelude PyFloat PyDict PyValue PyString Protocol RuntimeGraph DslGraph Grouping JobBase PriorityQueue RequestState Results.

(** ** Buffers as a table *)

Lemma get_put_buffers h h' b s :
  get_buffers h' (put_buffers h b s) = if decide (h' = h) then b else get_buffers h' s.
Proof. by destruct h, h'. Qed.

Lemma get_put_target h h' P P' o o' t s :
  get_target h' P' o' (put_target h P o t s) =
  if decide (h' = h ∧ P' = P ∧ o' = o) then Some t else get_target h' P' o' s.
Proof.
  unfold get_target, put_target. rewrite get_put_buffers. case_decide as D.
  - subst h'. rewrite dget_dset_in. repeat case_decide; naive_solver.
  - rewrite decide_False by naive_solver. done.
Qed.

(** Everything but the buffers is the same. *)
Definition same_rest (s s' : RequestState.t) : Prop :=
  s' = RequestState.set_buffers (RequestState.buffers s') s.

Lemma same_rest_refl s : same_rest s s.
Proof. by destruct s. Qed.
Lemma same_rest_trans s1 s2 s3 : same_rest s1 s2 → same_rest s2 s3 → same_rest s1 s3.
Proof. unfold same_rest. intros H1 H2. rewrite H2, H1. by destruct s1. Qed.
Lemma same_rest_put h b s : same_rest s (put_buffers h b s).
Proof. by destruct s. Qed.
Lemma same_rest_target h P o t s : same_rest s (put_target h P o t s).
Proof. apply same_rest_put. Qed.
Lemma same_rest_lambda s s' w : same_rest s s' →
  dget_or [] w (RequestState.list_lambda_outputs s') = dget_or [] w (RequestState.list_lambda_outputs s).
Proof. intros ->. by destruct s. Qed.

(** ** One slice *)

Section slice.
Context (h : bool) (P : string) (N : nat).

(** A slice of workflow output [P] of length [N] with its outputs. *)
Record slice_fits (s : RequestState.t) (i : WorkflowItem.t) (payload : dict string (list val)) : Prop := {
sf_public : WorkflowItem.public_graph_name i = P;
sf_total : WorkflowItem.total_length i = Z.of_nat N;
sf_start : (0 <= WorkflowItem.slice_start i)%Z;
sf_len : (0 <= WorkflowItem.slice_length i)%Z;
sf_range : (WorkflowItem.slice_start i + WorkflowItem.slice_length i <= Z.of_nat N)%Z;
sf_keys : dict_wf payload;
sf_values o values : (o, values) ∈ payload → Z.of_nat (length values) = WorkflowItem.slice_length i;
sf_lambda o : o ∈ dkeys payload →
  o ∉ dget_or [] (WorkflowItem.workflow_id i) (RequestState.list_lambda_outputs s);
}.

Definition slice_at (i : WorkflowItem.t) : nat := Z.to_nat (WorkflowItem.slice_start i).

Definition target_of (s : RequestState.t) (o : string) : list val :=
default (replicate N VNone) (get_target h P o s).

(** The cells the slice will write are still empty. *)
Definition room (s : RequestState.t) (start len : nat) (o : string) : Prop :=
length (target_of s o) = N ∧ ∀ k, start ≤ k < start + len → target_of s o !! k = Some VNone ∨ N ≤ k.

Lemma overlap_nil start len target :
(∀ k, start ≤ k < start + len → target !! k = Some VNone ∨ length target ≤ k) → overlap start len target = [].
Proof.
intros H. unfold overlap. destruct (filter _ _) as [|k ks] eqn:E; [done|exfalso].
assert (Hin : k ∈ k :: ks) by left. rewrite <-E in Hin.
apply list_elem_of_filter in Hin as [Hn Hk%elem_of_seq].
apply Hn. destruct (H k ltac:(lia)) as [->|Hge]; [done|].
by rewrite (lookup_ge_None_2 target k Hge).
Qed.

Lemma merge_output_fits s i payload o values :
slice_fits s i payload → (o, values) ∈ payload → room s (slice_at i) (length values) o →
merge_output i h s (o, values) =
(put_target h P o (list_inserts (slice_at i) values (target_of s o)) s, Ok true).
Proof.
intros [H1 H2 H3 H4 H5 H6 H7 H8] Hin [Hlen Hroom]. unfold merge_output.
rewrite bool_decide_false by (apply H8, list_elem_of_fmap; by exists (o, values)).
rewrite (H7 _ _ Hin), Z.eqb_refl. simpl. rewrite H1, H2, Nat2Z.id. fold (target_of s o).
rewrite Hlen, Nat.eqb_refl. simpl. rewrite overlap_nil; [done|]. rewrite Hlen. exact Hroom.
Qed.

Lemma target_put s o o' t :
target_of (put_target h P o t s) o' = if decide (o' = o) then t else target_of s o'.
Proof. unfold target_of. rewrite get_put_target. repeat case_decide; naive_solver. Qed.

Lemma merge_outputs_fits i payload s flag :
slice_fits s i payload →
(∀ o values, (o, values) ∈ payload → room s (slice_at i) (length values) o) →
∃ s', merge_outputs i h s flag payload = (s', Ok flag) ∧ same_rest s s' ∧
  (∀ h' P' o, (h', P') ≠ (h, P) → get_target h' P' o s' = get_target h' P' o s) ∧
  ∀ o, match dget o payload with
       | Some values => get_target h P o s' = Some (list_inserts (slice_at i) values (target_of s o))
       | None => get_target h P o s' = get_target h P o s
       end.
Proof.
revert s. induction payload as [|[o values] payload IH]; intros s Hf Hroom.
- exists s. split_and!; try done. apply same_rest_refl.
- cbn [merge_outputs]. rewrite (merge_output_fits s i _ o values Hf) by (left || apply Hroom; left).
  rewrite andb_true_r. set (s1 := put_target h P o _ s).
  assert (Hr1 : same_rest s s1) by apply same_rest_target.
  destruct Hf as [H1 H2 H3 H4 H5 H6 H7 H8]. unfold dict_wf, dkeys in H6. csimpl in H6.
  apply NoDup_cons in H6 as [Ho H6].
  assert (Hne : ∀ o', o' ∈ dkeys payload → o' ≠ o) by (intros o' Ho' ->; by apply Ho).
  destruct (IH s1) as (s' & E & Hr & Hother & Hget).
  { split; try done.
    - intros o' v' Hin. apply (H7 o'). by right.
    - intros o' Ho'. rewrite (same_rest_lambda s s1) by done. apply H8. by right. }
  { intros o' v' Hin. unfold room, s1. rewrite target_put.
    rewrite decide_False by (apply Hne, list_elem_of_fmap; by exists (o', v')).
    apply Hroom. by right. }
  exists s'. split; [exact E|]. split; [exact (same_rest_trans _ _ _ Hr1 Hr)|]. split.
  + intros h' P' o' Hhp. rewrite Hother by done. unfold s1. rewrite get_put_target.
    rewrite decide_False by naive_solver. done.
  + intros o'. simpl. specialize (Hget o'). case_decide as D.
    * subst o'. destruct (dget o payload) eqn:Eo.
      { exfalso. apply Ho. apply dget_elem in Eo. apply list_elem_of_fmap. by exists (o, l). }
      rewrite Hget. unfold s1. rewrite get_put_target. by rewrite decide_True.
    * unfold s1 in Hget. rewrite target_put, get_put_target in Hget.
      rewrite decide_False in Hget by done. rewrite decide_False in Hget by naive_solver. exact Hget.
Qed.

Lemma merge_slice_fits i payload s :
(0 < N) → slice_fits s i payload →
(∀ o values, (o, values) ∈ payload → room s (slice_at i) (length values) o) →
∃ s', merge_slice_payload i h payload s = (s', Ok true) ∧ same_rest s s' ∧
  (∀ h' P' o, (h', P') ≠ (h, P) → get_target h' P' o s' = get_target h' P' o s) ∧
  ∀ o, match dget o payload with
       | Some values => get_target h P o s' = Some (list_inserts (slice_at i) values (target_of s o))
       | None => get_target h P o s' = get_target h P o s
       end.
Proof.
intros HN Hf Hroom. unfold merge_slice_payload. pose proof Hf as [H1 H2 H3 H4 H5 _ _ _].
destruct (Z.leb_spec (WorkflowItem.total_length i) 0); [lia|].
destruct (Z.ltb_spec (WorkflowItem.slice_start i) 0); [lia|].
destruct (Z.ltb_spec (WorkflowItem.total_length i) (WorkflowItem.slice_start i + WorkflowItem.slice_length i)); [lia|].
simpl. set (s1 := put_buffers _ _ s).
assert (Hr1 : same_rest s s1) by apply same_rest_put.
assert (Hg : ∀ h' P' o, get_target h' P' o s1 = get_target h' P' o s).
{ intros h' P' o. unfold get_target, s1. rewrite get_put_buffers. case_decide as D; [|done]. subst h'.
  unfold dget_or. rewrite dget_setdefault. case_decide as D; [|done]. subst P'.
  by destruct (dget _ _). }
assert (Ht : ∀ o, target_of s1 o = target_of s o) by (intros o; unfold target_of; by rewrite Hg).
destruct (merge_outputs_fits i payload s1 true) as (s' & E & Hr & Ho & Hget).
- destruct Hf. by split.
- intros o values Hin. unfold room. rewrite Ht. by apply Hroom.
- exists s'. split; [done|]. split; [exact (same_rest_trans _ _ _ Hr1 Hr)|]. split.
  + intros h' P' o Hne. by rewrite Ho, Hg.
  + intros o. specialize (Hget o). rewrite Hg, Ht in Hget. exact Hget.
Qed.
End slice.

(** ** Well-formed buffers *)

Definition table_wf (b : dict string (dict string (list val))) : Prop :=
  dict_wf b ∧ ∀ P inner, (P, inner) ∈ b → dict_wf inner.
Definition buffers_wf (s : RequestState.t) : Prop := ∀ h, table_wf (get_buffers h s).

Lemma table_wf_inner P b : table_wf b → dict_wf (dget_or [] P b).
Proof.
  intros [_ H]. unfold dget_or. destruct (dget P b) as [inner|] eqn:E; [|constructor].
  by eapply H, dget_elem.
Qed.

Lemma table_wf_set_in P o t b : table_wf b → table_wf (dset_in P o t b).
Proof.
  intros Hb. pose proof (table_wf_inner P _ Hb) as Hi. destruct Hb as [H1 H2]. split; [by apply dict_wf_dset|].
  intros P' inner [[-> ->]|Hin]%elem_of_dset; [by apply dict_wf_dset|by eapply H2].
Qed.

Lemma buffers_wf_target h P o t s : buffers_wf s → buffers_wf (put_target h P o t s).
Proof.
  intros Hs h'. unfold put_target. rewrite get_put_buffers. case_decide; [|apply Hs].
  apply table_wf_set_in, Hs.
Qed.

Lemma buffers_wf_error e s : buffers_wf s → buffers_wf (RequestState.append_error e s).
Proof. intros Hs h. specialize (Hs h). by destruct h. Qed.

Lemma merge_output_wf i h s output : buffers_wf s → buffers_wf (merge_output i h s output).1.
Proof.
  intros Hs. unfold merge_output. destruct output as [o values].
  repeat case_match; simpl; auto using buffers_wf_target, buffers_wf_error.
Qed.

Lemma merge_outputs_wf i h s flag payload : buffers_wf s → buffers_wf (merge_outputs i h s flag payload).1.
Proof.
  revert s flag. induction payload as [|output payload IH]; intros s flag Hs; [done|]. simpl.
  pose proof (merge_output_wf i h s output Hs) as H1.
  destruct (merge_output i h s output) as [s1 [clean|e]]; [by apply IH|done].
Qed.

Lemma merge_slice_wf i h payload s : buffers_wf s → buffers_wf (merge_slice_payload i h payload s).1.
Proof.
  intros Hs. unfold merge_slice_payload. repeat case_match; simpl; auto using buffers_wf_error.
  apply merge_outputs_wf. intros h'. rewrite get_put_buffers. case_decide; [|apply Hs].
  destruct (Hs h) as [B1 B2]. split; [by apply dict_wf_setdefault|].
  intros P inner. unfold dsetdefault. case_match; [apply B2|].
  intros [Hin|[= -> ->]%list_elem_of_singleton]%elem_of_app; [by eapply B2|constructor].
Qed.

(** ** All the slices of a workflow *)

Section slices.
Context (h : bool) (P : string) (N : nat).
(** The outputs the whole workflow should produce. *)
Context (full : dict string (list val)).

Definition slice_cells (i : WorkflowItem.t) : list nat :=
seq (slice_at i) (Z.to_nat (WorkflowItem.slice_length i)).

(** What a slice of it returns. *)
Definition payload_of (i : WorkflowItem.t) : dict string (list val) :=
(λ ov : string * list val,
   (ov.1, take (Z.to_nat (WorkflowItem.slice_length i)) (drop (slice_at i) ov.2))) <$> full.

(** Merging slices one after the other; whether all of them merged cleanly. *)
Fixpoint merge_slices (l : list WorkflowItem.t) (s : RequestState.t) : RequestState.t * bool :=
match l with
| [] => (s, true)
| i :: l' =>
    match merge_slice_payload i h (payload_of i) s with
    | (s, Ok true) => merge_slices l' s
    | (s, _) => (s, false)
    end
end.

Record slice_wf (s : RequestState.t) (i : WorkflowItem.t) : Prop := {
sw_public : WorkflowItem.public_graph_name i = P;
sw_total : WorkflowItem.total_length i = Z.of_nat N;
sw_start : (0 <= WorkflowItem.slice_start i)%Z;
sw_len : (0 <= WorkflowItem.slice_length i)%Z;
sw_range : (WorkflowItem.slice_start i + WorkflowItem.slice_length i <= Z.of_nat N)%Z;
sw_lambda o : o ∈ dkeys full →
  o ∉ dget_or [] (WorkflowItem.workflow_id i) (RequestState.list_lambda_outputs s);
}.

Definition masked (cells : list nat) (l : list val) : list val :=
imap (λ k v, if decide (k ∈ cells) then v else VNone) l.

Lemma payload_keys i : dkeys (payload_of i) = dkeys full.
Proof. unfold payload_of, dkeys. rewrite <-list_fmap_compose. done. Qed.

Lemma payload_get i o :
dget o (payload_of i) =
(λ l, take (Z.to_nat (WorkflowItem.slice_length i)) (drop (slice_at i) l)) <$> dget o full.
Proof.
unfold payload_of. induction full as [|[o' l] d IH]; [done|]. csimpl. case_decide; [done|exact IH].
Qed.

Lemma masked_lookup cells l k :
masked cells l !! k = (λ v, if decide (k ∈ cells) then v else VNone) <$> l !! k.
Proof. unfold masked. by rewrite list_lookup_imap. Qed.

Lemma masked_insert cells i l :
length l = N → (0 <= WorkflowItem.slice_start i)%Z → (0 <= WorkflowItem.slice_length i)%Z →
(WorkflowItem.slice_start i + WorkflowItem.slice_length i <= Z.of_nat N)%Z →
list_inserts (slice_at i) (take (Z.to_nat (WorkflowItem.slice_length i)) (drop (slice_at i) l)) (masked cells l)
= masked (cells ++ slice_cells i) l.
Proof.
intros Hl Hs Hn Hr. unfold slice_cells, slice_at. set (st := Z.to_nat _). set (n := Z.to_nat _).
assert (Hlen : length (take n (drop st l)) = n) by (rewrite length_take, length_drop; lia).
apply list_eq. intros k. rewrite masked_lookup.
assert (Hm : length (masked cells l) = N) by (unfold masked; by rewrite length_imap).
destruct (decide (st ≤ k < st + n)) as [Hk|Hk].
- rewrite list_lookup_inserts by (rewrite ?Hlen, ?Hm; lia).
  rewrite lookup_take_lt, lookup_drop by lia. replace (st + (k - st)) with k by lia.
  destruct (l !! k); simpl; [|done]. by rewrite decide_True by (rewrite elem_of_app, elem_of_seq; lia).
- assert (Hsame : list_inserts st (take n (drop st l)) (masked cells l) !! k = masked cells l !! k).
  { destruct (decide (k < st)); [by rewrite list_lookup_inserts_lt by lia|].
    by rewrite list_lookup_inserts_ge by (rewrite Hlen; lia). }
  rewrite Hsame, masked_lookup. destruct (l !! k); [|done]. simpl. f_equal.
  destruct (decide (k ∈ cells)) as [D|D].
  + by rewrite decide_True by (apply elem_of_app; by left).
  + rewrite decide_False; [done|]. rewrite elem_of_app, elem_of_seq. intros [?|?]; [done|lia].
Qed.

Hypothesis (HN : 0 < N) (Hwf : dict_wf full) (Hfull : ∀ o l, (o, l) ∈ full → length l = N).

Lemma merge_slices_spec l cells s :
(∀ i, i ∈ l → slice_wf s i) →
NoDup (cells ++ (l ≫= slice_cells)) →
(∀ o f, dget o full = Some f → target_of h P N s o = masked cells f) →
∃ s', merge_slices l s = (s', true) ∧ same_rest s s' ∧
  (∀ h' P' o, (h', P') ≠ (h, P) ∨ dget o full = None → get_target h' P' o s' = get_target h' P' o s) ∧
  (buffers_wf s → buffers_wf s') ∧
  (∀ o f, dget o full = Some f → target_of h P N s' o = masked (cells ++ (l ≫= slice_cells)) f ∧
     (l ≠ [] → is_Some (get_target h P o s'))).
Proof.
revert cells s. induction l as [|i l IH]; intros cells s Hl Hnd Ht.
- exists s. split; [done|]. split; [apply same_rest_refl|]. split; [done|]. split; [done|].
  csimpl. rewrite app_nil_r. naive_solver.
- csimpl in Hnd. csimpl. destruct (Hl i) as [W1 W2 W3 W4 W5 W6]; [left|].
  assert (Hf : slice_fits P N s i (payload_of i)).
  { split; try done.
    - unfold dict_wf. by rewrite payload_keys.
    - intros o values Hin. apply (elem_dget o values) in Hin; [|unfold dict_wf; by rewrite payload_keys].
      rewrite payload_get in Hin. destruct (dget o full) as [f|] eqn:E; [|done]. simplify_option_eq.
      apply dget_elem, Hfull in E. rewrite length_take, length_drop. unfold slice_at. lia.
    - intros o. rewrite payload_keys. apply W6. }
  assert (Hdisj : ∀ k, k ∈ slice_cells i → k ∉ cells).
  { intros k Hk Hc. apply NoDup_app in Hnd as (_ & Hd & _). apply (Hd k Hc). apply elem_of_app. by left. }
  destruct (merge_slice_fits h P N i (payload_of i) s HN Hf) as (s1 & E & Hr & Hoth & Hget).
  { intros o values Hin. pose proof (sf_values _ _ _ _ _ Hf _ _ Hin) as Hlen.
    apply (elem_dget o values) in Hin; [|unfold dict_wf; by rewrite payload_keys].
    rewrite payload_get in Hin. destruct (dget o full) as [f|] eqn:Eo; [|done].
    unfold room. rewrite (Ht _ _ Eo). unfold masked at 1. rewrite length_imap.
    pose proof (Hfull _ _ (dget_elem _ _ _ Eo)) as Hlf. split; [done|]. intros k Hk. left.
    rewrite masked_lookup. destruct (lookup_lt_is_Some_2 f k) as [v ->]; [unfold slice_at in Hk; lia|].
    simpl. rewrite decide_False; [done|]. apply Hdisj. unfold slice_cells. apply elem_of_seq. lia. }
  simpl. rewrite E.
  destruct (IH (cells ++ slice_cells i) s1) as (s' & E' & Hr' & Hoth' & Hwf' & Ht').
  + intros j Hj. destruct (Hl j) as [V1 V2 V3 V4 V5 V6]; [by right|]. split; try done.
    intros o Ho. rewrite (same_rest_lambda s s1) by done. by apply V6.
  + by rewrite <-app_assoc.
  + intros o f Ho. specialize (Hget o). rewrite payload_get, Ho in Hget. simpl in Hget.
    unfold target_of at 1. rewrite Hget. simpl. rewrite (Ht _ _ Ho).
    apply masked_insert; try done. by eapply Hfull, dget_elem.
  + exists s'. split; [done|]. split; [exact (same_rest_trans _ _ _ Hr Hr')|]. split; [|split].
    { intros h' P' o Ho. rewrite Hoth' by done.
      destruct (decide ((h', P') = (h, P))) as [[= -> ->]|]; [|by apply Hoth].
      destruct Ho as [Ho|Ho]; [done|]. specialize (Hget o). rewrite payload_get, Ho in Hget. exact Hget. }
    { intros Hs. apply Hwf'. pose proof (merge_slice_wf i h (payload_of i) s Hs) as Hw. by rewrite E in Hw. }
    intros o f Ho. destruct (Ht' o f Ho) as [H1 H2]. rewrite <-app_assoc in H1. split; [done|].
    intros _. destruct l as [|j l]; [|by apply H2].
    simpl in E'. simplify_eq. specialize (Hget o). rewrite payload_get, Ho in Hget. simpl in Hget.
    rewrite Hget. by eexists.
Qed.
End slices.

(** ** Finalisation *)

Section finalize.

Lemma finalize_fold_get {V} what (render : val → V) entries s d P o :
NoDup ((λ e : string * (string * list val), (e.1, e.2.1)) <$> entries) →
dget o (dget_or [] P (foldl (finalize_buffer what render) (s, d) entries).2) =
match list_find (λ e : string * (string * list val), e.1 = P ∧ e.2.1 = o) entries with
| Some (_, e) => Some (render <$> e.2.2)
| None => dget o (dget_or [] P d)
end.
Proof.
revert s d. induction entries as [|[P1 [o1 values]] entries IH]; intros s d Hnd; [done|].
csimpl in Hnd. apply NoDup_cons in Hnd as [Hn Hnd].
cbn [foldl finalize_buffer]. rewrite IH by done. rewrite dget_dset_in.
cbn [list_find fst snd]. destruct (decide (P1 = P ∧ o1 = o)) as [[-> ->]|Hne].
- destruct (list_find _ entries) as [[k e]|] eqn:E.
  + exfalso. apply list_find_Some in E as (Hk & [E1 E2] & _). apply Hn.
    apply list_elem_of_fmap. exists e. rewrite E1, E2. split; [done|by eapply list_elem_of_lookup_2].
  + simpl. by rewrite decide_True.
- rewrite decide_False by naive_solver. by destruct (list_find _ entries) as [[k e]|].
Qed.

Lemma finalize_fold_errors {V} what (render : val → V) entries s d :
Forall (λ e : string * (string * list val), missing_indices e.2.2 = []) entries →
(foldl (finalize_buffer what render) (s, d) entries).1 = s.
Proof.
intros H. revert d. induction H as [|[P [o values]] entries He _ IH]; intros d; [done|].
cbn [foldl finalize_buffer]. simpl in He. rewrite He. apply IH.
Qed.

Lemma elem_of_buffer_entries b P o values : table_wf b →
(P, (o, values)) ∈ buffer_entries b ↔ dget o (dget_or [] P b) = Some values.
Proof.
intros [H1 H2]. unfold buffer_entries. rewrite list_elem_of_bind. split.
- intros ([P' inner] & (ov & [= -> <-] & Hin)%list_elem_of_fmap & Hb).
  unfold dget_or. rewrite (elem_dget _ _ _ H1 Hb). apply elem_dget; [by eapply H2|done].
- unfold dget_or. destruct (dget P b) as [inner|] eqn:E; [|done]. intros Ho%dget_elem.
  apply dget_elem in E. exists (P, inner). split; [|done]. apply list_elem_of_fmap. by exists (o, values).
Qed.

Lemma buffer_entries_nodup b : table_wf b →
NoDup ((λ e : string * (string * list val), (e.1, e.2.1)) <$> buffer_entries b).
Proof.
unfold table_wf, buffer_entries, dict_wf, dkeys. intros [H1 H2].
induction b as [|[P inner] b IH]; csimpl; [constructor|].
csimpl in H1. apply NoDup_cons in H1 as [Hp H1]. rewrite fmap_app, <-list_fmap_compose.
apply NoDup_app. split; [|split].
- change (NoDup ((λ o : string, (P, o)) ∘ fst <$> inner)). rewrite list_fmap_compose.
  apply NoDup_fmap_2; [by intros ?? [= ->]|]. apply (H2 P). left.
- intros e (ov & -> & _)%list_elem_of_fmap (e2 & E & Hb)%list_elem_of_fmap.
  apply list_elem_of_bind in Hb as ([P2 in2] & (ov2 & -> & _)%list_elem_of_fmap & Hb).
  cbn in E. injection E as E1 E2. apply Hp, list_elem_of_fmap. exists (P2, in2). split; [exact E1|done].
- apply IH; [done|]. intros P' i' Hin. apply (H2 P'). by right.
Qed.

Lemma finalize_get {V} what (render : val → V) b s P o : table_wf b →
dget o (dget_or [] P (foldl (finalize_buffer what render) (s, []) (buffer_entries b)).2) =
match dget o (dget_or [] P b) with Some l => Some (render <$> l) | None => None end.
Proof.
intros Hb. rewrite finalize_fold_get by by apply buffer_entries_nodup.
destruct (list_find _ _) as [[k [P1 [o1 values]]]|] eqn:E.
- apply list_find_Some in E as (Hk & [E1 E2] & _). simpl in *. subst.
  apply list_elem_of_lookup_2, elem_of_buffer_entries in Hk; [|done]. by rewrite Hk.
- apply list_find_None in E. destruct (dget o (dget_or [] P b)) as [values|] eqn:Ed; [|done].
  apply elem_of_buffer_entries in Ed; [|done]. rewrite Forall_forall in E.
  by destruct (E _ Ed).
Qed.

Lemma missing_none values : (∀ v, v ∈ values → v ≠ VNone) → missing_indices values = [].
Proof.
intros H. unfold missing_indices. destruct (filter _ _) as [|k ks] eqn:E; [done|exfalso].
assert (Hin : k ∈ k :: ks) by left. rewrite <-E in Hin.
apply list_elem_of_filter in Hin as [Hn Hk%elem_of_seq].
destruct (lookup_lt_is_Some_2 values k) as [v Hv]; [lia|]. rewrite Hv in Hn. simpl in Hn.
by eapply H, Hn; eapply list_elem_of_lookup_2.
Qed.
End finalize.

(** Finalising complete buffers adds no error and renders every value. *)
Definition complete (s : RequestState.t) : Prop :=
  ∀ h P o f, get_target h P o s = Some f → ∀ v, v ∈ f → v ≠ VNone.

Lemma complete_no_missing h s : buffers_wf s → complete s →
  Forall (λ e : string * (string * list val), missing_indices e.2.2 = []) (buffer_entries (get_buffers h s)).
Proof.
  intros Hw Hc. apply Forall_forall. intros [P [o f]] Hin.
  apply elem_of_buffer_entries in Hin; [|by apply Hw]. apply missing_none. by eapply Hc.
Qed.

Lemma finalize_complete to_str s : buffers_wf s → complete s →
  ∃ outs hists, finalize_state to_str s = RequestState.set_outputs outs hists s ∧
    ∀ P o f, get_target false P o s = Some f → dget o (dget_or [] P outs) = Some (to_str <$> f).
Proof.
  intros Hw Hc. unfold finalize_state.
  set (render := λ v, if is_none v then "" else to_str v).
  set (render_history := λ v, if is_none v then VList [] else v).
  pose proof (finalize_fold_errors "output" render _ s [] (complete_no_missing false s Hw Hc)) as H1.
  pose proof (finalize_get "output" render (get_buffers false s) s) as Hg.
  destruct (foldl (finalize_buffer "output" render) _ _) as [s1 outs]. simpl in H1, Hg. subst s1.
  pose proof (finalize_fold_errors "chat history" render_history _ s [] (complete_no_missing true s Hw Hc)) as H2.
  destruct (foldl (finalize_buffer "chat history" render_history) _ _) as [s2 hists]. simpl in H2. subst s2.
  exists outs, hists. split; [done|]. intros P o f Hf. rewrite Hg by apply (Hw false).
  unfold get_target in Hf. cbn [get_buffers] in *. rewrite Hf. f_equal. apply list_fmap_ext. intros k v Hk.
  assert (Hv : v ≠ VNone) by (eapply (Hc false P o); [done|by eapply list_elem_of_lookup_2]). by destruct v.
Qed.

Lemma masked_all cells f : (∀ k, k < length f → k ∈ cells) → masked cells f = f.
Proof.
  intros H. apply list_eq. intros k. rewrite masked_lookup. destruct (f !! k) eqn:E; [|done]. simpl.
  rewrite decide_True; [done|]. by eapply H, lookup_lt_Some.
Qed.

Lemma masked_nil f : masked [] f = replicate (length f) VNone.
Proof.
  apply list_eq. intros k. rewrite masked_lookup. destruct (f !! k) eqn:E; simpl; symmetry.
  - apply lookup_replicate. split; [done|by eapply lookup_lt_Some].
  - apply lookup_replicate_None. by apply lookup_ge_None.
Qed.

(** The buffers after all the slices: the whole outputs and nothing else. *)
Lemma merge_all_slices P N full l s :
  0 < N → dict_wf full → (∀ o f, (o, f) ∈ full → length f = N) →
  (∀ i, i ∈ l → slice_wf P N full s i) → (l ≫= slice_cells) ≡ₚ seq 0 N →
  RequestState.buffers s = Buffers.mk [] [] →
  ∃ s', merge_slices false full l s = (s', true) ∧ same_rest s s' ∧ buffers_wf s' ∧
    ∀ h' P' o f, get_target h' P' o s' = Some f ↔ h' = false ∧ P' = P ∧ dget o full = Some f.
Proof.
  intros HN Hwf Hfull Hl Hpart Hb.
  assert (Hempty : ∀ h' P' o, get_target h' P' o s = None).
  { intros h' P' o. unfold get_target, get_buffers. rewrite Hb. by destruct h'. }
  destruct (merge_slices_spec false P N full HN Hwf Hfull l [] s) as (s' & E & Hr & Hoth & Hwf' & Ht).
  { done. }
  { simpl. rewrite Hpart. apply NoDup_seq. }
  { intros o f Ho. unfold target_of. rewrite Hempty, masked_nil. simpl. by erewrite Hfull by by eapply dget_elem. }
  assert (Hne : l ≠ []).
  { intros ->. apply Permutation_length in Hpart. rewrite length_seq in Hpart. simpl in Hpart. lia. }
  exists s'. split; [done|]. split; [done|]. split.
  { apply Hwf'. intros h'. unfold get_buffers. rewrite Hb.
    by destruct h'; (split; [apply NoDup_nil_2|intros ?? ?%elem_of_nil]). }
  assert (Hget : ∀ o f, dget o full = Some f → get_target false P o s' = Some f).
  { intros o f Ho. destruct (Ht o f Ho) as [H1 [t H2]%(λ H, H Hne)].
    unfold target_of in H1. rewrite H2 in *. simpl in H1. subst t. f_equal. apply masked_all.
    intros k Hk. rewrite Hpart. apply elem_of_seq. apply dget_elem, Hfull in Ho. lia. }
  intros h' P' o f. split; [|by intros (-> & -> & ?); apply Hget].
  destruct (decide ((h', P') = (false, P))) as [[= -> ->]|Hh].
  - destruct (dget o full) as [f'|] eqn:Ho; [rewrite (Hget _ _ Ho); naive_solver|].
    rewrite Hoth, Hempty by (by right). done.
  - rewrite Hoth, Hempty by (by left). done.
Qed.

(** C25: the slices of a workflow reassemble: merged one after the other in any
    order, slices that partition the rows of the workflow merge without error,
    and the response that follows carries exactly the whole outputs. *)
Theorem slices_reassemble to_str P N full l s :
  0 < N → dict_wf full → (∀ o f, (o, f) ∈ full → length f = N ∧ ∀ v, v ∈ f → v ≠ VNone) →
  (∀ i, i ∈ l → slice_wf P N full s i) →
  (l ≫= slice_cells) ≡ₚ seq 0 N →
  RequestState.buffers s = Buffers.mk [] [] →
  RequestState.pending_workflows s = [] → RequestState.ready s = true →
  ∃ s' r, merge_slices false full l s = (s', true) ∧
    RequestState.results (finish_request to_str s') = RequestState.results s ++ [r] ∧
    LumilakeResponse.error_info r = RequestState.error_info s ∧
    ∀ o f, dget o full = Some f → dget o (dget_or [] P (LumilakeResponse.outputs r)) = Some (to_str <$> f).
Proof.
  intros HN Hwf Hfull Hl Hpart Hb Hp Hrd.
  destruct (merge_all_slices P N full l s HN Hwf (λ o f Hin, proj1 (Hfull o f Hin)) Hl Hpart Hb)
    as (s' & E & Hr & Hw & Hget).
  destruct (finalize_complete to_str s' Hw) as (outs & hists & Hfin & Houts).
  { intros h' P' o f (_ & _ & Hf)%Hget. by apply dget_elem, Hfull in Hf as [_ ?]. }
  exists s', (RequestState.response (finalize_state to_str s')). split; [done|].
  assert (Hp' : RequestState.pending_workflows s' = []) by (rewrite Hr; by destruct s).
  assert (Hrd' : RequestState.ready s' = true) by (rewrite Hr; by destruct s).
  unfold finish_request. rewrite Hp', Hrd', Hfin. simpl.
  split; [rewrite Hr; by destruct s|]. split; [rewrite Hr; by destruct s|].
  intros o f Hf. by apply Houts, Hget.
Qed.

(** ** When a request is answered *)

Section answered.
Context (to_str : val → string).
Context (batch_outputs batch_histories : dict string (dict string (list val))).
Context (error : option string) (cancelled_requests : list string) (execution_request_id : option string).

(** What only the completion of a workflow touches. *)
Definition frame (s s' : RequestState.t) : Prop :=
RequestState.pending_workflows s' = RequestState.pending_workflows s ∧
RequestState.results s' = RequestState.results s ∧ RequestState.ready s' = RequestState.ready s ∧
RequestState.counters s' = RequestState.counters s.

Lemma frame_refl s : frame s s.
Proof. by split. Qed.
Lemma frame_trans s1 s2 s3 : frame s1 s2 → frame s2 s3 → frame s1 s3.
Proof. unfold frame. intros (->&->&->&->) (->&->&->&->). done. Qed.
Lemma frame_error e s : frame s (RequestState.append_error e s).
Proof. by split. Qed.
Lemma frame_put h P o t s : frame s (put_target h P o t s).
Proof. by split. Qed.
#[local] Hint Resolve frame_refl frame_error frame_put : core.

Lemma frame_put_error h P o t e s : frame s (put_target h P o t (RequestState.append_error e s)).
Proof. by split. Qed.
#[local] Hint Resolve frame_put_error : core.

Lemma merge_output_frame i h s output : frame s (merge_output i h s output).1.
Proof. unfold merge_output. destruct output. repeat case_match; simpl; auto. Qed.

Lemma merge_outputs_frame i h s flag payload : frame s (merge_outputs i h s flag payload).1.
Proof.
revert s flag. induction payload as [|output payload IH]; intros s flag; [done|]. simpl.
pose proof (merge_output_frame i h s output) as H1.
destruct (merge_output i h s output) as [s1 [clean|e]]; [|done].
by eapply frame_trans, IH.
Qed.

Lemma merge_slice_frame i h payload s : frame s (merge_slice_payload i h payload s).1.
Proof.
unfold merge_slice_payload. repeat case_match; simpl; auto.
eapply frame_trans, merge_outputs_frame. by split.
Qed.

Lemma account_workflow_spec i s :
let r := account_workflow batch_outputs batch_histories error cancelled_requests execution_request_id i s in
RequestState.results r.1 = RequestState.results s ∧ RequestState.ready r.1 = RequestState.ready s ∧
RequestState.counters r.1 = RequestState.counters s ∧
RequestState.pending_workflows r.1 =
  match r.2 with
  | None => filter (.≠ WorkflowItem.workflow_id i) (RequestState.pending_workflows s)
  | Some _ => RequestState.pending_workflows s
  end.
Proof.
cbv zeta. unfold account_workflow. case_bool_decide; [done|].
set (s0 := match error with Some _ => _ | None => s end).
assert (H0 : frame s s0) by (unfold s0; destruct error; auto).
assert (H1 : frame s0 (account_outputs batch_outputs error execution_request_id i s0).1).
{ unfold account_outputs. destruct (dget _ batch_outputs) as [payload|]; [|by destruct error].
  pose proof (merge_slice_frame i false payload s0) as H1.
  destruct (merge_slice_payload _ _ _ _) as [s1 [[]|e]]; simpl in *; try done.
  eapply frame_trans; [exact H1|]. unfold mark_successful_input_completion. by case_bool_decide. }
destruct (account_outputs _ _ _ i s0) as [s1 [e|]]; simpl in H1.
{ simpl. pose proof (frame_trans _ _ _ H0 H1) as (?&?&?&?). done. }
assert (H2 : frame s1 (account_histories batch_histories i s1).1).
{ unfold account_histories. destruct (dget _ batch_histories) as [payload|]; [|done].
  pose proof (merge_slice_frame i true payload s1) as H2.
  by destruct (merge_slice_payload _ _ _ _) as [s2 [b|e]]. }
destruct (account_histories _ i s1) as [s2 [e|]]; simpl in H2 |- *;
  pose proof (frame_trans _ _ _ H0 (frame_trans _ _ _ H1 H2)) as (E1&E2&E3&E4); [done|].
unfold RequestState.discard_pending. simpl. rewrite E1. done.
Qed.

(** The workflows of request [r] in a batch. *)
Definition done_ids (r : string) (workflows : list WorkflowItem.t) : list string :=
WorkflowItem.workflow_id <$> filter (λ i, WorkflowItem.request_id i = r) workflows.

Lemma account_workflows_spec workflows reqs reqs' :
account_workflows batch_outputs batch_histories error cancelled_requests execution_request_id workflows reqs
  = (reqs', None) →
∀ r, match dget r reqs with
     | Some s => ∃ s', dget r reqs' = Some s' ∧
         RequestState.results s' = RequestState.results s ∧ RequestState.ready s' = RequestState.ready s ∧
         RequestState.counters s' = RequestState.counters s ∧
         RequestState.pending_workflows s' =
           filter (λ w, w ∉ done_ids r workflows) (RequestState.pending_workflows s)
     | None => dget r reqs' = None
     end.
Proof.
revert reqs. induction workflows as [|i workflows IH]; intros reqs H r.
- simpl in H. simplify_eq. destruct (dget r reqs') as [s|]; [|done]. exists s. split_and!; try done.
  symmetry. apply filter_everything. intros w _. apply not_elem_of_nil.
- simpl in H. destruct (dget (WorkflowItem.request_id i) reqs) as [si|] eqn:Ei.
  2: { specialize (IH _ H r). destruct (dget r reqs) as [s|] eqn:Er; [|done].
       unfold done_ids in *. rewrite filter_cons, decide_False by congruence. exact IH. }
  pose proof (account_workflow_spec i si) as (A1 & A2 & A0 & A3). cbv zeta in A0, A1, A2, A3.
  destruct (account_workflow _ _ _ _ _ i si) as [s1 [e|]]; [done|]. simpl in A0, A1, A2, A3.
  specialize (IH _ H r). rewrite dget_dset in IH. unfold done_ids in *. rewrite filter_cons.
  case_decide as D.
  + subst r. rewrite Ei. destruct IH as (s' & H1 & H2 & H3 & H0 & H4). exists s'.
    rewrite decide_True by done. split; [done|]. split; [congruence|]. split; [congruence|]. split; [congruence|].
    rewrite H4, A3 by done. rewrite list_filter_filter. apply list_filter_iff.
    intros w. csimpl. rewrite not_elem_of_cons. tauto.
  + destruct (dget r reqs) as [s|]; [|done]. rewrite decide_False by done. exact IH.
Qed.

Lemma on_all_get (f : RequestState.t → RequestState.t) rs reqs r :
NoDup rs →
dget r (foldl (λ reqs r, on_request r f reqs) reqs rs) = if decide (r ∈ rs) then f <$> dget r reqs else dget r reqs.
Proof.
revert reqs. induction rs as [|x rs IH]; intros reqs Hnd; [done|].
apply NoDup_cons in Hnd as [Hx Hnd]. csimpl. rewrite IH, !on_request_get by done.
destruct (decide (r = x)) as [->|Hne].
- rewrite decide_False by done. by rewrite decide_True by left.
- destruct (decide (r ∈ rs)).
  + by rewrite decide_True by by right.
  + by rewrite decide_False by (rewrite not_elem_of_cons; done).
Qed.

Lemma finalize_buffer_frame {V} what (render : val → V) entries s d :
frame s (foldl (finalize_buffer what render) (s, d) entries).1.
Proof.
revert s d. induction entries as [|[P [o values]] entries IH]; intros s d; [done|].
cbn [foldl finalize_buffer]. case_match; [apply IH|]. eapply frame_trans, IH. auto.
Qed.

Lemma finalize_state_frame s : frame s (finalize_state to_str s).
Proof.
unfold finalize_state.
pose proof (finalize_buffer_frame "output" (λ v, if is_none v then "" else to_str v)
  (buffer_entries (get_buffers false s)) s []) as H1.
destruct (foldl _ _ _) as [s1 outs]. simpl in H1.
pose proof (finalize_buffer_frame "chat history" (λ v, if is_none v then VList [] else v)
  (buffer_entries (get_buffers true s1)) s1 []) as H2.
destruct (foldl _ _ _) as [s2 hists]. simpl in H2.
eapply frame_trans; [exact H1|]. eapply frame_trans; [exact H2|]. by split.
Qed.

Lemma finish_request_spec s :
RequestState.pending_workflows (finish_request to_str s) = RequestState.pending_workflows s ∧
RequestState.counters (finish_request to_str s) = RequestState.counters s ∧
RequestState.results (finish_request to_str s) = RequestState.results s ++
  (if decide (RequestState.pending_workflows s = [] ∧ RequestState.ready s = true)
   then [RequestState.response (finish_request to_str s)] else []).
Proof.
unfold finish_request. destruct (RequestState.pending_workflows s) as [|w ws] eqn:Ep.
- destruct (RequestState.ready s) eqn:Er.
  + rewrite decide_True by done. destruct (finalize_state_frame s) as (H1 & H2 & _ & H4).
    simpl. by rewrite H1, H2, H4, Ep.
  + rewrite decide_False by naive_solver. by rewrite app_nil_r.
- rewrite decide_False by naive_solver. by rewrite app_nil_r.
Qed.
End answered.

Lemma handle_batch_results_spec to_str outs hists error cancelled execution workflows batch_id
    task_node_map reqs reqs' :
  handle_batch_results to_str outs hists error cancelled execution workflows batch_id task_node_map reqs
    = (reqs', None) →
  ∀ r s, dget r reqs = Some s →
  ∃ s', dget r reqs' = Some s' ∧ RequestState.counters s' = RequestState.counters s ∧
    RequestState.pending_workflows s' =
      filter (λ w, w ∉ done_ids r workflows) (RequestState.pending_workflows s) ∧
    RequestState.results s' = RequestState.results s ++
      (if decide (r ∈ WorkflowItem.request_id <$> workflows ∧
                  RequestState.pending_workflows s' = [] ∧ RequestState.ready s = true)
       then [RequestState.response s'] else []).
Proof.
  unfold handle_batch_results. intros H r s Hr.
  destruct (account_workflows _ _ _ _ _ workflows reqs) as [reqs1 [e|]] eqn:E1; [done|].
  pose proof (account_workflows_spec _ _ _ _ _ _ _ _ E1 r) as Ha. rewrite Hr in Ha.
  destruct Ha as (s1 & G1 & G2 & G3 & G0 & G4).
  set (affected := affected_requests workflows reqs) in *.
  assert (Hnd : NoDup affected) by apply NoDup_remove_dups.
  assert (Haff : r ∈ affected ↔ r ∈ WorkflowItem.request_id <$> workflows).
  { unfold affected, affected_requests. rewrite elem_of_remove_dups, list_elem_of_filter.
    split; [tauto|]. intros Hin. split; [|done]. apply dget_is_Some. by eexists. }
  injection H as <-.
  match goal with |- context [foldl _ ?rs affected] => set (reqs2 := rs) end.
  assert (H2 : ∃ s2, dget r reqs2 = Some s2 ∧ frame s1 s2).
  { unfold reqs2. destruct error as [text|]; [|by exists s1].
    destruct task_node_map as [|tn tns]; [by exists s1|].
    rewrite on_all_get, G1 by done. case_decide; [|by exists s1]. eexists. split; [done|by split]. }
  destruct H2 as (s2 & G5 & F1 & F2 & F3 & F4).
  rewrite on_all_get, G5 by done.
  destruct (decide (r ∈ affected)) as [Hin|Hin].
  - destruct (finish_request_spec to_str s2) as (P1 & P0 & P2). exists (finish_request to_str s2). split; [done|].
    rewrite P0, P1, P2, F1, F2, F3, F4, G0, G2, G3, G4. split; [done|]. split; [done|]. f_equal.
    repeat case_decide; try done; tauto.
  - exists s2. split; [done|]. rewrite F1, F2, F4, G0, G2, G4. split; [done|]. split; [done|].
    rewrite decide_False by tauto. by rewrite app_nil_r.
Qed.

(** Accounting for a batch takes exactly its workflows off the pending
    sets, and answers a request exactly when one of its workflows was in the
    batch and nothing is pending any more: it then gets one response, with its
    final outputs and errors.  Other requests are untouched. *)
Theorem answered_when_nothing_is_pending to_str outs hists error cancelled execution workflows batch_id
    task_node_map reqs reqs' :
  handle_batch_results to_str outs hists error cancelled execution workflows batch_id task_node_map reqs
    = (reqs', None) →
  ∀ r s, dget r reqs = Some s →
  ∃ s', dget r reqs' = Some s' ∧
    RequestState.pending_workflows s' =
      filter (λ w, w ∉ done_ids r workflows) (RequestState.pending_workflows s) ∧
    RequestState.results s' = RequestState.results s ++
      (if decide (r ∈ WorkflowItem.request_id <$> workflows ∧
                  RequestState.pending_workflows s' = [] ∧ RequestState.ready s = true)
       then [RequestState.response s'] else []).
Proof.
  intros H r s Hr.
  destruct (handle_batch_results_spec _ _ _ _ _ _ _ _ _ _ _ H r s Hr) as (s' & H1 & _ & H2 & H3).
  by exists s'.
Qed.

Module ResultsSample.
Definition config : LumilakeRequestConfig.t :=
LumilakeRequestConfig.mk MEDIUM "u" "org" "p" None None None 0.
Definition slice (id request : string) (start len : Z) : WorkflowItem.t :=
WorkflowItem.mk id request id "report" 0 start len 5 "t" [] (RuntimeGraph.mk [] [] [] [] [])
  (RuntimeGraph.mk [] [] [] [] []) (CompiledGraph.mk (Graph.mk [] [] []) []) config (of_Z 1) None None 0 false.
Definition full : dict string (list val) :=
[("title", VStr <$> ["a"; "b"; "c"; "d"; "e"]); ("score", VStr <$> ["1"; "2"; "3"; "4"; "5"])].
(** Finished out of order. *)
Definition slices : list WorkflowItem.t := [slice "w2" "r" 3 2; slice "w0" "r" 0 1; slice "w1" "r" 1 2].
Definition fresh (pending : list string) : RequestState.t :=
RequestState.mk [] config pending [] [] (Buffers.mk [] []) [("report", 5%Z)] None (initial_counters 3)
  [] 5 0 [] [] true.
Definition to_str (v : val) : string := match v with VStr s => s | _ => "" end.
Definition outputs : dict string (dict string (list val)) :=
[("w2", payload_of full (slice "w2" "r" 3 2)); ("w0", payload_of full (slice "w0" "r" 0 1))].
Definition requests : request_table := [("r", fresh ["w0"; "w1"; "w2"]); ("q", fresh ["v0"])].
End ResultsSample.

Lemma slices_reassemble_witness :
  ∃ s' r, merge_slices false ResultsSample.full ResultsSample.slices (ResultsSample.fresh []) = (s', true) ∧
    RequestState.results (finish_request ResultsSample.to_str s') = [r] ∧
    LumilakeResponse.error_info r = None ∧
    ∀ o f, dget o ResultsSample.full = Some f →
      dget o (dget_or [] "report" (LumilakeResponse.outputs r)) = Some (ResultsSample.to_str <$> f).
Proof.
  apply (slices_reassemble ResultsSample.to_str "report" 5 ResultsSample.full ResultsSample.slices
    (ResultsSample.fresh [])).
  - apply Nat.lt_0_succ.
  - apply (bool_decide_unpack _). vm_compute. exact I.
  - assert (H : Forall (λ e : string * list val, length e.2 = 5 ∧ Forall (λ v, v ≠ VNone) e.2) ResultsSample.full)
      by (apply (bool_decide_unpack _); vm_compute; exact I).
    intros o f Hin. destruct (proj1 (Forall_forall _ _) H _ Hin) as [H1 H2]. split; [exact H1|].
    intros v Hv. exact (proj1 (Forall_forall _ _) H2 v Hv).
  - intros i Hi. repeat (apply elem_of_cons in Hi as [->|Hi];
      [split; try reflexivity; try discriminate; intros o _; apply not_elem_of_nil|]). by apply elem_of_nil in Hi.
  - apply (bool_decide_unpack _). vm_compute. exact I.
  - reflexivity.
  - reflexivity.
  - reflexivity.
Defined.

Lemma answered_when_nothing_is_pending_witness :
  ∃ reqs' s', handle_batch_results ResultsSample.to_str ResultsSample.outputs [] None [] None
      [ResultsSample.slice "w2" "r" 3 2; ResultsSample.slice "w0" "r" 0 1] None [] ResultsSample.requests
    = (reqs', None) ∧ dget "r" reqs' = Some s' ∧
    RequestState.pending_workflows s' = ["w1"] ∧ RequestState.results s' = [].
Proof.
  destruct (handle_batch_results ResultsSample.to_str ResultsSample.outputs [] None [] None
      [ResultsSample.slice "w2" "r" 3 2; ResultsSample.slice "w0" "r" 0 1] None [] ResultsSample.requests)
    as [reqs' e] eqn:E.
  assert (He : e = None) by (vm_compute in E; congruence). subst e.
  destruct (answered_when_nothing_is_pending _ _ _ _ _ _ _ _ _ _ _ E "r" (ResultsSample.fresh ["w0"; "w1"; "w2"])
    eq_refl) as (s' & H1 & H2 & H3).
  exists reqs', s'. split; [reflexivity|]. split; [exact H1|].
  assert (Hp : RequestState.pending_workflows s' = ["w1"]) by (rewrite H2; vm_compute; reflexivity).
  split; [exact Hp|]. rewrite H3, decide_False; [reflexivity|]. rewrite Hp. by intros (_ & [=] & _).
Defined.
