(* ===== verification/Scheduler.v ===== *)
(** * The scheduler loop (runtime/server.py)

    [_scheduler_loop] snapshots the free workers, reserves a batch from the
    job manager, claims workers for it, commits the reservation and starts
    the batch as a task.  The loop and the running batches share the job
    manager, the set of busy workers and the request table; they interleave
    at the loop's awaits.  The loop is therefore a step relation with a
    program counter ([phase]): each step is the code between two awaits that
    can interleave, and other tasks step in between.

    Workers and profiles come from the runtime manager, an external service:
    they are arguments of the snapshots.  The clock and the accumulation wait
    do not change the state. *)

From S2P Require Import Prelude PyFloat PyDict PyValue PyString Protocol RuntimeGraph JobBase Capacity PriorityQueue RequestState Results WorkerProfile.

Module ServerConfig.
Record t := mk {
batch_size : Z;
batch_accumulation_seconds : f64;
cpu_worker_group_size : Z;
gpu_worker_group_size : Z;
capacity_aware_selection : bool;
}.

(** [__init__] clamps the group sizes and refuses two empty groups. *)
Definition init (batch_size : Z) (accumulation : f64) (cpu gpu : Z) (capacity_aware : bool) : result t :=
if ((Z.max 0 cpu =? 0) && (Z.max 0 gpu =? 0))%Z%bool
then Err (ValueError "At least one of cpu_worker_group_size or gpu_worker_group_size must be > 0")
else Ok (mk batch_size accumulation (Z.max 0 cpu) (Z.max 0 gpu) capacity_aware).
End ServerConfig.

(** ** Snapshots *)

Section snapshots.
(** [get_worker_profile]; a worker whose profile cannot be fetched is
  skipped. *)
Context (get_worker_profile : string → result (dict string val)).

Definition snapshot_step (c : FreeCapacity.t) (candidate : string) : FreeCapacity.t :=
match get_worker_profile candidate with
| Err _ => c
| Ok profile =>
    let profiles := dset candidate profile (FreeCapacity.profiles c) in
    if has_gpu profile
    then FreeCapacity.mk (FreeCapacity.cpu_worker_ids c) (FreeCapacity.gpu_worker_ids c ++ [candidate]) profiles
    else FreeCapacity.mk (FreeCapacity.cpu_worker_ids c ++ [candidate]) (FreeCapacity.gpu_worker_ids c) profiles
end.

Definition snapshot_of (workers : list string) : FreeCapacity.t :=
foldl snapshot_step (FreeCapacity.mk [] [] []) workers.

(** [_snapshot_free_capacity], [_snapshot_total_capacity] *)
Definition snapshot_free_capacity (workers busy : list string) : FreeCapacity.t :=
snapshot_of (filter (λ w, w ∉ busy) workers).
Definition snapshot_total_capacity (all_workers : list string) : FreeCapacity.t :=
snapshot_of all_workers.
End snapshots.

(** ** What a batch needs *)

Definition batch_requires_gpu (batch : BatchSelection.t) : bool :=
  existsb graph_requires_gpu (dvals (BatchSelection.runtime_graphs batch)).

Definition batch_task_types (batch : BatchSelection.t) : list string :=
  dvals (BatchSelection.runtime_graphs batch) ≫= graph_task_types.

Definition batch_required_task_types (batch : BatchSelection.t) : list string :=
  required_task_types (batch_task_types batch).

Definition batch_requires_cpu (batch : BatchSelection.t) : bool :=
  requires_cpu_worker (batch_task_types batch).

(** ** Claiming and releasing workers *)

Section claim.
Context (cfg : ServerConfig.t).
Context (meets : dict string val → option HardwareRequirements.t → bool).

Definition claim_gpu_group_size (batch : BatchSelection.t) : Z :=
if batch_requires_gpu batch then ServerConfig.gpu_worker_group_size cfg else 0%Z.

Definition claim_cpu_group_size (batch : BatchSelection.t) : Z :=
let cpu_group_size := ServerConfig.cpu_worker_group_size cfg in
if (batch_requires_cpu batch && (cpu_group_size <=? 0)%Z)%bool then 1%Z else cpu_group_size.

(** The selection before the lock is taken.  [total] is only snapshot when
  it is needed. *)
Definition select_workers (batch : BatchSelection.t) (free total : FreeCapacity.t) :
  option (list string * list string) :=
let cpu := claim_cpu_group_size batch in
let gpu := claim_gpu_group_size batch in
let hardware := LumilakeRequestConfig.hardware_requirements (BatchSelection.config batch) in
let required := batch_required_task_types batch in
match FreeCapacity.eligible_workers meets hardware free cpu gpu required with
| Some selected => Some selected
| None =>
    match required with
    | [] => None
    | _ =>
        if FreeCapacity.has_cpu_worker_advertising total required then None
        else FreeCapacity.eligible_workers meets hardware free cpu gpu []
    end
end.

(** [_try_claim_workers]: the claimed workers and the new busy set. *)
Definition try_claim_workers (batch : BatchSelection.t) (free total : FreeCapacity.t) (busy : list string) :
  option (list string * list string) :=
match select_workers batch free total with
| None => None
| Some (selected_cpu, selected_gpu) =>
    match selected_gpu ++ selected_cpu with
    | [] => None
    | selected_workers =>
        if existsb (λ w, bool_decide (w ∈ busy)) selected_workers then None
        else Some (selected_workers, busy ++ selected_workers)
    end
end.

(** [_release_workers] on the busy set. *)
Definition release_workers (workers busy : list string) : list string := filter (λ w, w ∉ workers) busy.

(** [_maybe_wait_for_batch_accumulation]: the seconds to sleep. *)
Definition accumulation_wait (pending : nat * option f64) (free : FreeCapacity.t) (now : f64) : f64 :=
let wait_seconds := ServerConfig.batch_accumulation_seconds cfg in
if fleb wait_seconds fzero then fzero
else
  match pending with
  | (_, None) => fzero
  | (pending_count, Some oldest_enqueued_at) =>
      if pending_count =? 0 then fzero
      else if (Z.of_nat pending_count <=? FreeCapacity.cpu_count free + FreeCapacity.gpu_count free)%Z
      then fzero
      else
        let remaining := fsub wait_seconds (fsub now oldest_enqueued_at) in
        if fleb remaining fzero then fzero else remaining
  end.

(** ** Failing work that can never run *)

Definition placement_error (i : WorkflowItem.t) : dict string val :=
[("placement_failed", VStr (WorkflowItem.workflow_id i));
 ("graph", VStr (WorkflowItem.public_graph_name i)); ("slice_index", VInt (WorkflowItem.slice_index i));
 ("error", VStr ("no worker in the cluster can satisfy this request (required_cpu="
    +:+ str_of_Z (ServerConfig.cpu_worker_group_size cfg) +:+ " required_gpu="
    +:+ str_of_Z (ServerConfig.gpu_worker_group_size cfg) +:+ ")"))].

Definition fail_workflow (reqs : request_table) (i : WorkflowItem.t) : request_table :=
on_request (WorkflowItem.request_id i)
  (λ s, RequestState.discard_pending (WorkflowItem.workflow_id i)
          (RequestState.append_error (placement_error i) s)) reqs.

(** The response is built from [state.outputs] as they are. *)
Definition answer_failed (s : RequestState.t) : RequestState.t :=
match RequestState.pending_workflows s, RequestState.ready s with
| [], true => RequestState.put_result (RequestState.response s) s
| _, _ => s
end.

Definition answer_workflow (reqs : request_table) (i : WorkflowItem.t) : request_table :=
on_request (WorkflowItem.request_id i) answer_failed reqs.

(** [_fail_unplaceable_batch] on the request table; the workflows are then
  removed from the job manager. *)
Definition fail_unplaceable (workflows : list WorkflowItem.t) (reqs : request_table) : request_table :=
foldl answer_workflow (foldl fail_workflow reqs workflows) workflows.
End claim.

(** ** The loop *)

Inductive phase :=
  | Idle
  | Selecting (free : FreeCapacity.t)
  | Doomed (workflows : list WorkflowItem.t)
  | Reserved (free : FreeCapacity.t) (r : BatchReservation.t)
  | Claimed (r : BatchReservation.t) (workers : list string).

Record server (S : Type) := Server {
  jobs : manager S;
  busy_workers : list string;
  (** the tasks of [_inflight_tasks]: the workers and the batch of each *)
  inflight : list (list string * BatchSelection.t);
  requests : request_table;
  at_phase : phase;
}.
Arguments Server {S} _ _ _ _ _.
Arguments jobs {S} _.
Arguments busy_workers {S} _.
Arguments inflight {S} _.
Arguments requests {S} _.
Arguments at_phase {S} _.

Section loop.
Context {S : Type} `{SchedulingPolicy S}.
Context (cfg : ServerConfig.t) (mcfg : ManagerConfig.t).
Context (meets : dict string val → option HardwareRequirements.t → bool).
Implicit Types (st : server S).

(** Snapshot the free workers; without any, wait and start over. *)
Definition do_snapshot (get_worker_profile : string → result (dict string val)) (workers : list string) st :
  server S :=
let free := snapshot_free_capacity get_worker_profile workers (busy_workers st) in
Server (jobs st) (busy_workers st) (inflight st) (requests st)
  (if FreeCapacity.is_empty free then Idle else Selecting free).

(** Look for work no worker of the cluster can run. *)
Definition do_check (total : FreeCapacity.t) (now : f64) (free : FreeCapacity.t) st : server S :=
if ServerConfig.capacity_aware_selection cfg then
  let '(m, doomed) := permanently_unsatisfiable mcfg meets total now (jobs st) in
  Server m (busy_workers st) (inflight st) (requests st)
    (match doomed with [] => Selecting free | _ => Doomed doomed end)
else st.

Definition do_fail (workflows : list WorkflowItem.t) st : server S :=
Server (remove_workflows mcfg (ids workflows) (jobs st)) (busy_workers st) (inflight st)
  (fail_unplaceable cfg workflows (requests st)) Idle.

(** Reserve a batch.  An exception is logged and the loop starts over. *)
Definition do_reserve (free : FreeCapacity.t) st : server S :=
let '(m, out) := reserve_batch mcfg meets (ServerConfig.batch_size cfg)
  (if ServerConfig.capacity_aware_selection cfg then Some free else None) (jobs st) in
Server m (busy_workers st) (inflight st) (requests st)
  (match out with Ok (Some r) => Reserved free r | Ok None | Err _ => Idle end).

(** Claim workers; the reservation is aborted when that fails. *)
Definition do_claim (total : FreeCapacity.t) (free : FreeCapacity.t) (r : BatchReservation.t) st : server S :=
match try_claim_workers cfg meets (BatchReservation.selection r) free total (busy_workers st) with
| None =>
    Server (abort_reservation r CAPACITY (jobs st)).1 (busy_workers st) (inflight st) (requests st) Idle
| Some (workers, busy) => Server (jobs st) busy (inflight st) (requests st) (Claimed r workers)
end.

(** Commit and dispatch; when the commit raises, the [finally] block gives
  the workers and the reservation back. *)
Definition do_commit (r : BatchReservation.t) (workers : list string) st : server S :=
match commit_reservation mcfg r (jobs st) with
| (m, None) =>
    Server m (busy_workers st) (inflight st ++ [(workers, BatchReservation.selection r)]) (requests st) Idle
| (m, Some _) =>
    Server (abort_reservation r POLICY m).1 (release_workers workers (busy_workers st)) (inflight st)
      (requests st) Idle
end.

(** The end of a batch task: its workers are released and its workflows
  finalized. *)
Definition do_finish (workers : list string) (batch : BatchSelection.t) (rest : list (list string * BatchSelection.t))
  st : server S :=
Server (finalize_workflows (ids (BatchSelection.workflows batch)) (jobs st))
  (release_workers workers (busy_workers st)) rest (requests st) (at_phase st).
End loop.
