(* ===== verification/SchedulerProps.v ===== *)
(** * Properties of the scheduler loop

    The loop and the batch tasks as one transition system, with the
    invariants that hold under every interleaving: no worker runs two
    batches, no reservation is leaked, no workflow is dispatched twice. *)

From S2P Require Import Prelude PyFloat PyDict PyValue PyString Protocol RuntimeGraph DslGraph JobBase Capacity Policies PriorityQueue PriorityQueueFacts PriorityQueueProps RequestState Results ResultsProps WorkerProfile Scheduler.

(** ** Snapshots *)

Section snapshot_facts.
Context (get_worker_profile : string → result (dict string val)).

(** The class of a worker whose profile can be fetched. *)
Definition worker_class (w : string) : option bool :=
match get_worker_profile w with Ok profile => Some (has_gpu profile) | Err _ => None end.

Lemma snapshot_spec workers :
let c := snapshot_of get_worker_profile workers in
FreeCapacity.cpu_worker_ids c = filter (λ w, worker_class w = Some false) workers ∧
FreeCapacity.gpu_worker_ids c = filter (λ w, worker_class w = Some true) workers ∧
(∀ w profile, w ∈ workers → get_worker_profile w = Ok profile → FreeCapacity.profile_of c w = profile) ∧
(FreeCapacity.profiles c = [] → FreeCapacity.cpu_worker_ids c = [] ∧ FreeCapacity.gpu_worker_ids c = []).
Proof.
cbv zeta. unfold snapshot_of. induction workers as [|w workers IH] using rev_ind; [by split_and!; set_solver|].
destruct IH as (IH1 & IH2 & IH3 & IH4). rewrite foldl_snoc, !filter_app, !filter_cons, !filter_nil.
set (c := foldl _ _ workers) in *. unfold snapshot_step, worker_class. cbn beta.
destruct (get_worker_profile w) as [profile|e] eqn:E.
- assert (Hp : ∀ x profile0, x ∈ workers ++ [w] → get_worker_profile x = Ok profile0 →
    dget_or [] x (dset w profile (FreeCapacity.profiles c)) = profile0).
  { intros x p0 Hx Ep. rewrite dget_or_dset. case_decide as D; [subst; congruence|].
    apply elem_of_app in Hx as [Hx|Hx%list_elem_of_singleton]; [|done]. by apply IH3. }
  assert (Hne : dset w profile (FreeCapacity.profiles c) ≠ []).
  { intros Hn. assert (Hg : dget w (dset w profile (FreeCapacity.profiles c)) = None) by by rewrite Hn.
    rewrite dget_dset_eq in Hg. done. }
  destruct (has_gpu profile); unfold FreeCapacity.profile_of; simpl; rewrite IH1, IH2, ?app_nil_r;
    split_and!; try done.
- simpl. rewrite !app_nil_r. split_and!; try done. intros x p0 Hx Ep.
  apply elem_of_app in Hx as [Hx|Hx%list_elem_of_singleton]; [by apply IH3|congruence].
Qed.

Lemma snapshot_nodup workers : NoDup workers →
let c := snapshot_of get_worker_profile workers in
NoDup (FreeCapacity.gpu_worker_ids c ++ FreeCapacity.cpu_worker_ids c).
Proof.
intros Hnd c. destruct (snapshot_spec workers) as (E1 & E2 & _). fold c in E1, E2. rewrite E1, E2.
apply NoDup_app. split_and!; [by apply NoDup_filter| |by apply NoDup_filter].
intros w [H1 _]%list_elem_of_filter [H2 _]%list_elem_of_filter. congruence.
Qed.
End snapshot_facts.

(** ** Claims *)

Section claim_facts.
Context (cfg : ServerConfig.t).
Context (meets : dict string val → option HardwareRequirements.t → bool).

(** What [__init__] guarantees. *)
Definition config_ok : Prop :=
(0 <= ServerConfig.cpu_worker_group_size cfg)%Z ∧ (0 <= ServerConfig.gpu_worker_group_size cfg)%Z.

Lemma group_sizes batch : config_ok →
(0 <= claim_cpu_group_size cfg batch)%Z ∧ (0 <= claim_gpu_group_size cfg batch)%Z ∧
(batch_requires_cpu batch = true → (1 <= claim_cpu_group_size cfg batch)%Z).
Proof.
intros [H1 H2]. unfold claim_cpu_group_size, claim_gpu_group_size.
destruct (batch_requires_cpu batch), (batch_requires_gpu batch); simpl;
  destruct (Z.leb_spec (ServerConfig.cpu_worker_group_size cfg) 0); split_and!; lia || done.
Qed.

Definition claim_hardware (batch : BatchSelection.t) : option HardwareRequirements.t :=
LumilakeRequestConfig.hardware_requirements (BatchSelection.config batch).

(** What is selected: groups of the asked sizes out of the snapshot. *)
Lemma select_workers_spec batch free total cpu gpu :
config_ok → select_workers cfg meets batch free total = Some (cpu, gpu) →
∃ required,
  selects meets (claim_hardware batch) free (claim_cpu_group_size cfg batch) (claim_gpu_group_size cfg batch)
    required cpu gpu ∧
  (required = batch_required_task_types batch ∨
   required = [] ∧
   FreeCapacity.has_cpu_worker_advertising total (batch_required_task_types batch) = false).
Proof.
intros Hc. destruct (group_sizes batch Hc) as (H1 & H2 & _). unfold select_workers. fold (claim_hardware batch).
pose proof (eligible_workers_spec meets (claim_hardware batch) free _ _ (batch_required_task_types batch) H1 H2) as Hs.
destruct (FreeCapacity.eligible_workers _ _ free _ _ (batch_required_task_types batch)) as [[c g]|].
{ intros [= -> ->]. eexists. split; [apply Hs|by left]. }
destruct (batch_required_task_types batch) as [|t ts] eqn:E; [done|].
destruct (FreeCapacity.has_cpu_worker_advertising total (t :: ts)) eqn:Ea; [done|]. intros Hsel.
pose proof (eligible_workers_spec meets (claim_hardware batch) free _ _ [] H1 H2) as Hs'.
rewrite Hsel in Hs'. exists []. split; [apply Hs'|by right].
Qed.

Lemma selects_nodup hw free cs gs required cpu gpu :
NoDup (FreeCapacity.gpu_worker_ids free ++ FreeCapacity.cpu_worker_ids free) →
selects meets hw free cs gs required cpu gpu → NoDup (gpu ++ cpu).
Proof.
intros (N1 & Nd & N2)%NoDup_app [_ _ Hc Hg Hnc Hng _]. apply NoDup_app. split_and!; [by apply Hng| |by apply Hnc].
intros w Hw1 Hw2. apply (Nd w).
- by apply Hg, meeting_hardware_spec in Hw1 as [? _].
- by apply Hc, meeting_hardware_spec in Hw2 as [? _].
Qed.

Lemma try_claim_spec batch free total busy workers busy' :
config_ok → NoDup (FreeCapacity.gpu_worker_ids free ++ FreeCapacity.cpu_worker_ids free) →
try_claim_workers cfg meets batch free total busy = Some (workers, busy') →
∃ cpu gpu, select_workers cfg meets batch free total = Some (cpu, gpu) ∧ workers = gpu ++ cpu ∧
  workers ≠ [] ∧ busy' = busy ++ workers ∧ NoDup workers ∧ ∀ w, w ∈ workers → w ∉ busy.
Proof.
intros Hc Hnd. unfold try_claim_workers.
destruct (select_workers _ _ _ _ _) as [[cpu gpu]|] eqn:Es; [|done].
destruct (select_workers_spec _ _ _ _ _ Hc Es) as (required & Hsel & _).
pose proof (selects_nodup _ _ _ _ _ _ _ Hnd Hsel) as Hn.
destruct (gpu ++ cpu) as [|w ws] eqn:Ew; [done|]. rewrite <-Ew in *.
destruct (existsb _ _) eqn:Ex; [done|]. intros [= <- <-]. exists cpu, gpu.
split_and!; try done; [by rewrite Ew|]. intros x Hx Hb.
apply not_true_iff_false in Ex. apply Ex, existsb_exists. exists x.
split; [by apply list_elem_of_In|by apply bool_decide_eq_true].
Qed.
End claim_facts.

Lemma NoDup_of_submseteq {A} (l k : list A) : l ⊆+ k → NoDup k → NoDup l.
Proof.
  intros [r Hr]%submseteq_Permutation Hk. rewrite Hr in Hk. by apply NoDup_app in Hk as (? & _ & _).
Qed.

(** ** The system *)

Section system.
Context {S : Type} `{PolicyLaws S}.
Context (cfg : ServerConfig.t) (mcfg : ManagerConfig.t).
Context (meets : dict string val → option HardwareRequirements.t → bool).
Implicit Types (st : server S) (m : manager S).

(** The workers of the running batches and of the batch being committed. *)
Definition held st : list string :=
concat (inflight st).*1 ++ match at_phase st with Claimed _ workers => workers | _ => [] end.

(** The workflows of the running batches. *)
Definition running_ids st : list string :=
concat ((λ wb, ids (BatchSelection.workflows wb.2)) <$> inflight st).

(** One step of the loop. *)
Inductive loop_step : server S → server S → Prop :=
| LoopSnapshot get_worker_profile workers st :
    at_phase st = Idle → NoDup workers → loop_step st (do_snapshot get_worker_profile workers st)
| LoopCheck total now free st :
    at_phase st = Selecting free → loop_step st (do_check cfg mcfg meets total now free st)
| LoopFail workflows st :
    at_phase st = Doomed workflows → loop_step st (do_fail cfg mcfg workflows st)
| LoopReserve free st :
    at_phase st = Selecting free → loop_step st (do_reserve cfg mcfg meets free st)
| LoopClaim total free r st :
    at_phase st = Reserved free r → loop_step st (do_claim cfg meets total free r st)
| LoopCommit r workers st :
    at_phase st = Claimed r workers → loop_step st (do_commit mcfg r workers st).

(** A step of another task: a batch ends, a request is enqueued (ids are
  drawn fresh), or results are recorded in the request table. *)
Inductive task_step : server S → server S → Prop :=
| TaskFinish workers batch l1 l2 st :
    inflight st = l1 ++ (workers, batch) :: l2 →
    task_step st (do_finish workers batch (l1 ++ l2) st)
| TaskEnqueue job now fresh st :
    fresh_ids fresh (jobs st) → (∀ k, fresh k ∉ running_ids st) →
    task_step st (Server (enqueue mcfg job now fresh (jobs st)).1 (busy_workers st) (inflight st)
                    (requests st) (at_phase st))
| TaskResults reqs st :
    task_step st (Server (jobs st) (busy_workers st) (inflight st) reqs (at_phase st)).

Definition server_step st st' : Prop := loop_step st st' ∨ task_step st st'.

Definition init_server (policy : S) : server S := Server (init_manager policy) [] [] [] Idle.

Definition server_reachable (policy : S) st : Prop := rtc server_step (init_server policy) st.

(** The reserved batch is still queued. *)
Record reserved_ok m (r : BatchReservation.t) : Prop := {
rv_ids : ids (BatchSelection.workflows (BatchReservation.selection r)) =
         ReservationPayload.selected_workflow_ids (BatchReservation.payload r);
rv_nodup : NoDup (ids (BatchSelection.workflows (BatchReservation.selection r)));
rv_queued : ids (BatchSelection.workflows (BatchReservation.selection r)) ⊆ ids (all_items m);
}.

Definition snapshot_ok (free : FreeCapacity.t) : Prop :=
NoDup (FreeCapacity.gpu_worker_ids free ++ FreeCapacity.cpu_worker_ids free).

Definition phase_ok m (p : phase) : Prop :=
match p with
| Idle | Doomed _ => active_reservation m = None
| Selecting free => active_reservation m = None ∧ snapshot_ok free
| Reserved free r => active_reservation m = Some r ∧ reserved_ok m r ∧ snapshot_ok free
| Claimed r _ => active_reservation m = Some r ∧ reserved_ok m r
end.

Record server_inv st : Prop := {
si_mgr : mgr_inv (jobs st);
si_targets : active_ok (jobs st);
si_phase : phase_ok (jobs st) (at_phase st);
si_busy w : w ∈ busy_workers st ↔ w ∈ held st;
si_held : NoDup (held st);
si_ids : NoDup (ids (all_items (jobs st)) ++ running_ids st);
}.

(** A change of the job manager that keeps the reservation and the queued
  workflows keeps the phase valid. *)
Lemma phase_ok_mono m m' p :
active_reservation m' = active_reservation m → ids (all_items m) ⊆ ids (all_items m') →
phase_ok m p → phase_ok m' p.
Proof.
intros Ha Hi. destruct p; simpl; rewrite ?Ha; try done.
- intros (? & [R1 R2 R3] & ?). split_and!; try done. split; try done. by etrans.
- intros (? & [R1 R2 R3]). split; try done. split; try done. by etrans.
Qed.

Lemma remove_workflows_spec l m : mgr_inv m →
active_reservation (remove_workflows mcfg l m) = active_reservation m ∧
ids (all_items (remove_workflows mcfg l m)) ⊆+ ids (all_items m).
Proof.
intros Hm. unfold remove_workflows. destruct l as [|w l]; [done|].
set (m1 := drop_workflows _ m). unfold clear_if_empty.
assert (E1 : active_reservation m1 = active_reservation m).
{ unfold m1. by rewrite drop_workflows_eq by apply Hm. }
assert (E2 : ids (all_items m1) ⊆+ ids (all_items m)).
{ unfold m1. rewrite drop_workflows_items by done. apply submseteq_ids, sublist_submseteq, sublist_filter. }
case_match; split; try exact E1; exact E2.
Qed.

Lemma unsatisfiable_spec total now m :
let m' := (permanently_unsatisfiable mcfg meets total now m).1 in
active_reservation m' = active_reservation m ∧ all_items m' = all_items m ∧
(mgr_inv m → mgr_inv m') ∧ (active_ok m → active_ok m').
Proof.
unfold permanently_unsatisfiable. case_match. case_match. split_and!; try done. apply set_dwell_inv.
Qed.

Lemma held_phase st p : (∀ r workers, p ≠ Claimed r workers) →
(∀ r workers, at_phase st ≠ Claimed r workers) → ∀ m reqs,
held (Server m (busy_workers st) (inflight st) reqs p) = held st.
Proof. intros Hp Hs m reqs. unfold held. simpl. destruct p, (at_phase st); try done; naive_solver. Qed.

(** Moving between phases that hold no workers. *)
Lemma inv_move st m p reqs :
server_inv st → (∀ r workers, p ≠ Claimed r workers) → (∀ r workers, at_phase st ≠ Claimed r workers) →
mgr_inv m → active_ok m → phase_ok m p → ids (all_items m) ⊆+ ids (all_items (jobs st)) →
server_inv (Server m (busy_workers st) (inflight st) reqs p).
Proof.
intros [I1 I2 I3 I4 I5 I6] Hp Hs Hm Ha Hok Hids. split; simpl; try done.
- intros w. rewrite (held_phase st p Hp Hs). apply I4.
- by rewrite (held_phase st p Hp Hs).
- unfold running_ids in *. simpl. eapply NoDup_of_submseteq; [|exact I6]. by apply submseteq_skips_r.
Qed.

Context (Hcfg : config_ok cfg).

Lemma snapshot_step_inv gwp workers st :
at_phase st = Idle → NoDup workers → server_inv st → server_inv (do_snapshot gwp workers st).
Proof.
intros Hp Hnd Hi. pose proof Hi as [I1 I2 I3 I4 I5 I6]. rewrite Hp in I3. simpl in I3. unfold do_snapshot.
apply inv_move; try done.
- intros r ws. by case_match.
- intros r ws. by rewrite Hp.
- case_match; simpl; [done|]. split; [done|]. apply snapshot_nodup. by apply NoDup_filter.
Qed.

Lemma check_step_inv total now free st :
at_phase st = Selecting free → server_inv st → server_inv (do_check cfg mcfg meets total now free st).
Proof.
intros Hp Hi. pose proof Hi as [I1 I2 I3 I4 I5 I6]. rewrite Hp in I3. simpl in I3. unfold do_check.
case_match; [|done].
destruct (unsatisfiable_spec total now (jobs st)) as (U1 & U2 & U3 & U4).
destruct (permanently_unsatisfiable _ _ _ _ _) as [m doomed]. simpl in *.
apply inv_move; auto.
- intros r ws. by destruct doomed.
- intros r ws. by rewrite Hp.
- destruct doomed; simpl; rewrite U1; [done|apply I3].
- by rewrite U2.
Qed.

Lemma fail_step_inv workflows st :
at_phase st = Doomed workflows → server_inv st → server_inv (do_fail cfg mcfg workflows st).
Proof.
intros Hp Hi. pose proof Hi as [I1 I2 I3 I4 I5 I6]. rewrite Hp in I3. simpl in I3. unfold do_fail.
destruct (remove_workflows_spec (ids workflows) (jobs st) I1) as [R1 R2].
apply inv_move; auto.
- intros r ws. by rewrite Hp.
- by apply remove_workflows_inv.
- intros r. rewrite R1. apply I2.
- simpl. by rewrite R1.
Qed.

Lemma reserve_step_inv free st :
at_phase st = Selecting free → server_inv st → server_inv (do_reserve cfg mcfg meets free st).
Proof.
intros Hp Hi. pose proof Hi as [I1 I2 I3 I4 I5 I6]. rewrite Hp in I3. destruct I3 as [Ha Hf]. unfold do_reserve.
set (capacity := if ServerConfig.capacity_aware_selection cfg then Some free else None).
pose proof (reserve_batch_spec mcfg meets (ServerConfig.batch_size cfg) capacity (jobs st) I1) as Hs.
destruct (reserve_batch _ _ _ capacity _) as [m out]. destruct Hs as (S1 & S2 & S3 & S4 & S5).
assert (Eq : all_items m = all_items (jobs st)) by (unfold all_items; by rewrite S2).
apply inv_move; auto.
- intros r ws. by destruct out as [[r'|]|].
- intros r ws. by rewrite Hp.
- intros r Hr. destruct out as [[r'|]|e]; [|by apply I2; rewrite <-S5..].
  destruct S5 as (_ & Hr' & anchor & c & Hok). rewrite Hr' in Hr. injection Hr as <-.
  eapply reservation_targets; [exact I1|exact Hok].
- destruct out as [[r'|]|e]; simpl; [|by rewrite S5..].
  destruct S5 as (_ & Hr' & anchor & c & Hok). split; [done|]. split; [|done].
  pose proof (ro_batch _ _ _ _ _ _ _ _ Hok) as [B1 B2 _ _].
  split; rewrite ?(ro_ids _ _ _ _ _ _ _ _ Hok); try done.
  intros w Hw. rewrite Eq. eapply elem_of_submseteq; [by apply B2|]. apply submseteq_ids, Hok.
- by rewrite Eq.
Qed.

Lemma abort_spec r reason m : active_reservation m = Some r →
active_reservation (abort_reservation r reason m).1 = None ∧
all_items (abort_reservation r reason m).1 = all_items m.
Proof.
intros Ha. unfold abort_reservation, is_active. rewrite Ha, Nat.eqb_refl. done.
Qed.

Lemma abort_mgr_inv r reason m : mgr_inv m → mgr_inv (abort_reservation r reason m).1.
Proof. intros Hm. eapply abort_inv; [exact Hm|apply surjective_pairing]. Qed.

Lemma claim_step_inv total free r st :
at_phase st = Reserved free r → server_inv st → server_inv (do_claim cfg meets total free r st).
Proof.
intros Hp Hi. pose proof Hi as [I1 I2 I3 I4 I5 I6]. rewrite Hp in I3. destruct I3 as (Ha & Hr & Hf). unfold do_claim.
destruct (try_claim_workers _ _ _ _ _ _) as [[workers busy]|] eqn:Ec.
- destruct (try_claim_spec _ _ _ _ _ _ _ _ Hcfg Hf Ec) as (cpu & gpu & _ & _ & _ & -> & Hn & Hd).
  assert (Hheld : held st = concat (inflight st).*1) by (unfold held; by rewrite Hp, app_nil_r).
  rewrite Hheld in I4, I5. split; simpl; try done.
  + unfold held. simpl. intros w. rewrite !elem_of_app, I4. done.
  + unfold held. simpl. apply NoDup_app. split_and!; try done. intros w Hw Hw'. apply (Hd _ Hw'). by apply I4.
- destruct (abort_spec r CAPACITY (jobs st) Ha) as [A1 A2]. apply inv_move; auto.
  + intros r' ws. by rewrite Hp.
  + by apply abort_mgr_inv.
  + intros r'. by rewrite A1.
  + by rewrite A2.
Qed.

Lemma age_ids targets m l : ids (map (age targets m) l) = ids l.
Proof. apply ids_map. intros i. apply age_id. Qed.

Lemma release_spec workers busy w : w ∈ release_workers workers busy ↔ w ∈ busy ∧ w ∉ workers.
Proof. unfold release_workers. rewrite list_elem_of_filter. tauto. Qed.

Lemma commit_step_ok r workers st :
at_phase st = Claimed r workers → server_inv st → server_inv (do_commit mcfg r workers st).
Proof.
intros Hp Hi. pose proof Hi as [I1 I2 I3 I4 I5 I6]. rewrite Hp in I3. destruct I3 as [Ha [R1 R2 R3]]. unfold do_commit.
assert (Hheld : held st = concat (inflight st).*1 ++ workers) by (unfold held; by rewrite Hp).
rewrite Hheld in I4, I5.
destruct (commit_reservation mcfg r (jobs st)) as [m [e|]] eqn:Ec.
- apply commit_raises in Ec as Er. destruct Er as (Q1 & _ & _ & _ & _ & Q2 & _).
  rewrite Ha in Q2. destruct (abort_spec r POLICY m Q2) as [A1 A2].
  assert (Hm : mgr_inv m) by (eapply commit_inv; [exact I1|by apply I2|exact Ec]).
  assert (Eq : all_items m = all_items (jobs st)) by (unfold all_items; by rewrite Q1).
  split; simpl.
  + by apply abort_mgr_inv.
  + intros r'. by rewrite A1.
  + done.
  + intros w. unfold held. simpl. rewrite app_nil_r, release_spec, I4, elem_of_app.
    apply NoDup_app in I5 as (_ & Hd & _). split; [tauto|]. intros Hw. split; [by left|]. by apply Hd.
  + unfold held. simpl. rewrite app_nil_r. by apply NoDup_app in I5 as (? & _ & _).
  + by rewrite A2, Eq.
- apply commit_spec in Ec as (C1 & _ & C3 & C4); [|done|by apply I2].
  split; simpl; try done.
  + intros r'. by rewrite C3.
  + intros w. rewrite I4. unfold held. simpl. rewrite fmap_app, concat_app. csimpl. by rewrite !app_nil_r.
  + unfold held. simpl. rewrite fmap_app, concat_app. csimpl. by rewrite !app_nil_r.
  + unfold running_ids in *. simpl. rewrite fmap_app, concat_app. csimpl. rewrite app_nil_r, R1.
    rewrite C4. set (sel := ReservationPayload.selected_workflow_ids _) in *.
    set (aged := map (age _ _) _).
    assert (Hids : ids aged = ids (all_items (jobs st))) by apply age_ids.
    assert (Hfil : ids (filter (λ i, WorkflowItem.workflow_id i ∉ sel) aged) =
      filter (λ w, w ∉ sel) (ids (all_items (jobs st)))).
    { rewrite <-Hids. clear. unfold ids. induction aged as [|i l IH]; [done|].
      csimpl. rewrite !filter_cons. case_decide; csimpl; by rewrite IH. }
    rewrite Hfil. apply NoDup_app in I6 as (N1 & N2 & N3).
    rewrite R1 in R2, R3.
    apply NoDup_app. split_and!; [by apply NoDup_filter| |].
    * intros w [Hw1 Hw2]%list_elem_of_filter [Hw|Hw]%elem_of_app; [by apply (N2 w)|done].
    * apply NoDup_app. split_and!; try done. intros w Hw Hw'. by apply (N2 w), Hw; apply R3.
Qed.

Lemma task_step_inv st st' : task_step st st' → server_inv st → server_inv st'.
Proof.
intros Hs Hi. pose proof Hi as [I1 I2 I3 I4 I5 I6]. destruct Hs as [workers batch l1 l2 st E|job now fresh st Hf Hr|reqs st].
- unfold do_finish.
  assert (Hheld : held st ≡ₚ workers ++ held (Server (jobs st) (busy_workers st) (l1 ++ l2) (requests st) (at_phase st))).
  { unfold held. simpl. rewrite E. rewrite !fmap_app. csimpl. rewrite !concat_app. simpl.
    rewrite <-!app_assoc, (app_assoc (concat l1.*1) workers), (Permutation_app_comm (concat l1.*1) workers).
    by rewrite <-!app_assoc. }
  rewrite Hheld in I5. apply NoDup_app in I5 as (_ & Hd & Hn).
  split; simpl; try done.
  + by apply finalize_workflows_inv.
  + by eapply phase_ok_mono, I3.
  + intros w. rewrite release_spec, I4, Hheld, elem_of_app. split; [tauto|].
    intros Hw. split; [by right|]. intros Hw'. by apply (Hd w).
  + unfold running_ids in *. simpl. eapply NoDup_of_submseteq; [|exact I6].
    apply submseteq_skips_l. rewrite E, !fmap_app. csimpl. rewrite !concat_app. simpl.
    apply submseteq_skips_l. apply submseteq_inserts_l. done.
- destruct (enqueue mcfg job now fresh (jobs st)) as [m out] eqn:Ee.
  destruct (enqueue_spec _ _ _ _ _ _ _ I1 Hf Ee) as (E1 & E2 & E3). simpl.
  assert (Hids : ∃ new, ids (all_items m) ≡ₚ new ++ ids (all_items (jobs st)) ∧ NoDup new ∧
    ∀ w, w ∈ new → w ∉ ids (all_items (jobs st)) ∧ w ∉ running_ids st).
  { destruct out as [its|e]; [|subst m; exists []; split_and!; [done|constructor|by intros w ?%elem_of_nil]].
    destruct E3 as (P & Hn & _). exists (ids its). split; [unfold ids; by rewrite P, fmap_app|].
    rewrite Hn. destruct Hf as [Hinj Hfr]. split.
    - apply NoDup_fmap_2; [intros a b; apply Hinj|apply NoDup_seq].
    - intros w (k & -> & _)%list_elem_of_fmap. split; [apply Hfr|apply Hr]. }
  destruct Hids as (new & Hp & Hn & Hd). split; simpl; try done.
  + intros r. rewrite E2. apply I2.
  + eapply phase_ok_mono, I3; [done|]. intros w Hw. rewrite Hp. apply elem_of_app. by right.
  + unfold running_ids in *. simpl. rewrite Hp, <-app_assoc. apply NoDup_app. split_and!; try done.
    intros w Hw [?|?]%elem_of_app; destruct (Hd _ Hw); done.
- by split.
Qed.

Lemma server_step_inv st st' : server_step st st' → server_inv st → server_inv st'.
Proof.
intros [Hs|Hs]; [|by apply task_step_inv]. destruct Hs; eauto using snapshot_step_inv, check_step_inv,
  fail_step_inv, reserve_step_inv, claim_step_inv, commit_step_ok.
Qed.

Lemma server_reachable_inv policy st : server_reachable policy st → server_inv st.
Proof.
apply (rtc_ind_r server_inv).
- split; simpl; try done; [apply init_inv|constructor|constructor].
- intros st1 st2 _ Hs. by apply server_step_inv.
Qed.
End system.

Lemma init_config_ok size accumulation cpu gpu aware cfg :
  ServerConfig.init size accumulation cpu gpu aware = Ok cfg → config_ok cfg.
Proof.
  unfold ServerConfig.init. case_match; [done|]. intros [= <-]. unfold config_ok. simpl. lia.
Qed.

(** C1: no worker runs two batches: under every interleaving of the scheduler
    loop with finishing batches and arriving requests, the workers of the
    running batches and of the batch being committed are pairwise distinct,
    and the busy set is exactly these workers, so none is leaked either. *)
Theorem no_worker_is_double_booked {S} `{PolicyLaws S} size accumulation cpu gpu aware cfg mcfg meets
    (policy : S) st :
  ServerConfig.init size accumulation cpu gpu aware = Ok cfg →
  server_reachable cfg mcfg meets policy st →
  NoDup (held st) ∧ ∀ w, w ∈ busy_workers st ↔ w ∈ held st.
Proof.
  intros Hc Hr. destruct (server_reachable_inv cfg mcfg meets (init_config_ok _ _ _ _ _ _ Hc) _ _ Hr) as [_ _ _ H1 H2 _].
  by split.
Qed.

(** C28: the scheduler never leaks a reservation: whatever failed in the previous
    round, the slot of the job manager is taken exactly while the loop holds
    the reservation, so reserving from the loop never reports an outstanding
    one. *)
Theorem reservations_never_leak {S} `{PolicyLaws S} size accumulation cpu gpu aware cfg mcfg meets
    (policy : S) st :
  ServerConfig.init size accumulation cpu gpu aware = Ok cfg →
  server_reachable cfg mcfg meets policy st →
  active_reservation (jobs st) =
    match at_phase st with Reserved _ r | Claimed r _ => Some r | _ => None end.
Proof.
  intros Hc Hr. destruct (server_reachable_inv cfg mcfg meets (init_config_ok _ _ _ _ _ _ Hc) _ _ Hr) as [_ _ H1 _ _ _].
  destruct (at_phase st); simpl in H1; naive_solver.
Qed.

(** C2: a workflow is dispatched at most once: the workflows of the running
    batches are distinct, and none of them is still queued. *)
Theorem no_workflow_is_dispatched_twice {S} `{PolicyLaws S} size accumulation cpu gpu aware cfg mcfg meets
    (policy : S) st :
  ServerConfig.init size accumulation cpu gpu aware = Ok cfg →
  server_reachable cfg mcfg meets policy st →
  NoDup (running_ids st) ∧ ∀ w, w ∈ running_ids st → w ∉ ids (all_items (jobs st)).
Proof.
  intros Hc Hr. destruct (server_reachable_inv cfg mcfg meets (init_config_ok _ _ _ _ _ _ Hc) _ _ Hr) as [_ _ _ _ _ H1].
  apply NoDup_app in H1 as (_ & Hd & Hn). split; [done|]. intros w Hw Hq. by apply (Hd w).
Qed.

(** A claim takes idle workers that can run the batch: distinct workers of
    the snapshot that nobody took meanwhile and that meet the hardware
    requirements, the configured number of GPU workers when an op needs one
    and none otherwise, a CPU worker when an op needs one, and a CPU worker
    that advertises every gated task type, unless no CPU worker of the whole
    cluster does. *)
Theorem claimed_workers_can_run_the_batch size accumulation cpu gpu aware cfg meets get_worker_profile workers
    batch total busy0 busy claimed busy' :
  ServerConfig.init size accumulation cpu gpu aware = Ok cfg → NoDup workers →
  try_claim_workers cfg meets batch (snapshot_free_capacity get_worker_profile workers busy0) total busy
    = Some (claimed, busy') →
  let required := batch_required_task_types batch in
  busy' = busy ++ claimed ∧ NoDup claimed ∧ claimed ≠ [] ∧
  (∀ w, w ∈ claimed → w ∈ workers ∧ w ∉ busy0 ∧ w ∉ busy ∧
     ∃ profile, get_worker_profile w = Ok profile ∧ meets profile (claim_hardware batch) = true) ∧
  Z.of_nat (length (filter (λ w, worker_class get_worker_profile w = Some true) claimed)) =
    (if batch_requires_gpu batch then ServerConfig.gpu_worker_group_size cfg else 0)%Z ∧
  (batch_requires_cpu batch = true → ∃ w, w ∈ claimed ∧ worker_class get_worker_profile w = Some false) ∧
  (required ≠ [] → FreeCapacity.has_cpu_worker_advertising total required = true →
     ∃ w profile, w ∈ claimed ∧ get_worker_profile w = Ok profile ∧ has_gpu profile = false ∧
       required ⊆ advertised_task_types profile).
Proof.
  intros Hc%init_config_ok Hnd Hclaim required. unfold snapshot_free_capacity in Hclaim.
  set (avail := filter (λ w, w ∉ busy0) workers) in *.
  assert (Havail : NoDup avail) by by apply NoDup_filter.
  destruct (snapshot_spec get_worker_profile avail) as (E1 & E2 & E3 & E4).
  pose proof (snapshot_nodup get_worker_profile avail Havail) as Hsn.
  set (free := snapshot_of get_worker_profile avail) in *. cbv zeta in *.
  destruct (try_claim_spec _ _ _ _ _ _ _ _ Hc Hsn Hclaim) as (sc & sg & Hsel & -> & Hne & -> & Hn & Hd).
  destruct (select_workers_spec _ _ _ _ _ _ _ Hc Hsel) as (req & [L1 L2 Hcpu Hgpu _ _ Hcap] & Hreq).
  assert (Hcl : ∀ w, w ∈ sc → w ∈ avail ∧ worker_class get_worker_profile w = Some false).
  { intros w [Hw _]%Hcpu%meeting_hardware_spec. rewrite E1 in Hw. by apply list_elem_of_filter in Hw as [? ?]. }
  assert (Hgl : ∀ w, w ∈ sg → w ∈ avail ∧ worker_class get_worker_profile w = Some true).
  { intros w [Hw _]%Hgpu%meeting_hardware_spec. rewrite E2 in Hw. by apply list_elem_of_filter in Hw as [? ?]. }
  assert (Hprof : FreeCapacity.profiles free ≠ []).
  { intros Hp. destruct (E4 Hp) as [Z1 Z2]. apply Hne. destruct (sg ++ sc) as [|w ws] eqn:Ew; [done|].
    assert (Hw : w ∈ sg ++ sc) by (rewrite Ew; left). exfalso. apply elem_of_app in Hw as [Hw|Hw].
    - apply Hgpu, meeting_hardware_spec in Hw as [Hw _]. rewrite Z2 in Hw. by apply elem_of_nil in Hw.
    - apply Hcpu, meeting_hardware_spec in Hw as [Hw _]. rewrite Z1 in Hw. by apply elem_of_nil in Hw. }
  assert (Hmeets : ∀ w, w ∈ sg ++ sc → w ∈ avail ∧ meets (FreeCapacity.profile_of free w) (claim_hardware batch) = true).
  { intros w [Hw|Hw]%elem_of_app.
    - split; [by apply (Hgl w Hw)|]. by apply Hgpu, meeting_hardware_spec in Hw as [_ [?|?]].
    - split; [by apply (Hcl w Hw)|]. by apply Hcpu, meeting_hardware_spec in Hw as [_ [?|?]]. }
  assert (Hfetch : ∀ w b, w ∈ avail → worker_class get_worker_profile w = Some b →
    ∃ profile, get_worker_profile w = Ok profile ∧ has_gpu profile = b ∧ FreeCapacity.profile_of free w = profile).
  { intros w b Hw Hcw. unfold worker_class in Hcw. destruct (get_worker_profile w) as [profile|] eqn:Ep; [|done].
    exists profile. split_and!; [done|congruence|by apply E3]. }
  split_and!; try done.
  - intros w Hw. destruct (Hmeets w Hw) as [Ha Hm]. pose proof Ha as [Hb Hin]%list_elem_of_filter.
    split_and!; try done; [by apply Hd|].
    assert (Hb' : ∃ b, worker_class get_worker_profile w = Some b).
    { apply elem_of_app in Hw as [Hw|Hw]; [exists true; by apply Hgl|exists false; by apply Hcl]. }
    destruct Hb' as [b Hb']. destruct (Hfetch w b Ha Hb') as (profile & P1 & _ & P3).
    exists profile. by rewrite <-P3 at 2.
  - rewrite filter_app. rewrite (filter_everything _ sg) by (intros w Hw; by apply Hgl).
    assert (Hnil : filter (λ w, worker_class get_worker_profile w = Some true) sc = []).
    { destruct (filter _ sc) as [|w ws] eqn:Ef; [done|]. assert (Hw : w ∈ w :: ws) by left. rewrite <-Ef in Hw.
      apply list_elem_of_filter in Hw as [Ht Hw]. apply Hcl in Hw as [_ Hf]. congruence. }
    rewrite Hnil, app_nil_r, L2. done.
  - intros Hr. destruct (group_sizes cfg batch Hc) as (_ & _ & Hone). specialize (Hone Hr).
    destruct sc as [|w ws]; [simpl in L1; lia|]. exists w. split; [apply elem_of_app; right; left|].
    apply Hcl. left.
  - intros Hr Ht. destruct Hreq as [->|[_ Hf]]; [|unfold required in Ht; congruence].
    destruct (Hcap Hr) as (w & Hw & Ha). destruct (Hcl w Hw) as [Hav Hclw].
    destruct (Hfetch w false Hav Hclw) as (profile & P1 & P2 & P3). exists w, profile.
    split_and!; [apply elem_of_app; by right|done|done|].
    unfold FreeCapacity.advertises in Ha. rewrite P3 in Ha. by apply subset_of_spec.
Qed.

(** ** Work that is neither run nor failed *)

Lemma eligible_not_doomed {S} `{SchedulingPolicy S} mcfg meets total now (m : manager S) i :
  dwell_wf m → i ∈ all_items m → partition_eligible mcfg meets total (partition_of mcfg i) = true →
  i ∉ (permanently_unsatisfiable mcfg meets total now m).2.
Proof.
  intros (H1 & H2 & Hk) Hi He. unfold permanently_unsatisfiable.
  set (present := remove_dups (remaining_partitions mcfg m)).
  pose proof (forget_drained_spec present _ _ H1 H2 Hk) as Hf.
  destruct (forget_drained present _ _) as [s1 c1]. destruct Hf as (F1 & F2 & _).
  pose proof (observe_spec mcfg meets total now present s1 c1 (NoDup_remove_dups _) F1 F2) as Ho.
  destruct (foldl _ _ present) as [s2 c2]. destruct Ho as (O1 & _ & Ho).
  specialize (Ho (partition_of mcfg i)). rewrite He in Ho. rewrite decide_True in Ho.
  2: { apply elem_of_remove_dups. unfold remaining_partitions. apply list_elem_of_fmap. by exists i. }
  destruct Ho as [Hnone _]. simpl. intros [Hd _]%list_elem_of_filter.
  unfold doomed_partitions in Hd. apply list_elem_of_fmap in Hd as ([p t] & Hp & [_ Hin]%list_elem_of_filter).
  simpl in Hp. subst p. apply (elem_dget _ _ _ O1) in Hin. congruence.
Qed.

(** C40: a batch that needs a gated task type waits for ever when some CPU worker
    advertises the type but all that do are too small for its hardware
    requirements, and the partition of its workflows is eligible in the whole
    cluster, which looks at sizes and hardware but not at task types.  Whatever
    workers are idle, the claim of a reserved batch is refused: nothing is
    dispatched, no worker becomes busy, no request is answered, and its
    workflows stay in the queues, where the next reservation finds them.  And
    whenever the loop looks for work that no worker can run, it finds none of
    the workflows of the batch, however long they have waited. *)
Theorem unclaimable_batch_waits_forever {S} `{SchedulingPolicy S} size accumulation cpu gpu aware cfg mcfg meets
    get_worker_profile all_workers batch :
  ServerConfig.init size accumulation cpu gpu aware = Ok cfg →
  let required := batch_required_task_types batch in
  let total := snapshot_total_capacity get_worker_profile all_workers in
  required ≠ [] → FreeCapacity.has_cpu_worker_advertising total required = true →
  (∀ w profile, w ∈ all_workers → get_worker_profile w = Ok profile → has_gpu profile = false →
     required ⊆ advertised_task_types profile → meets profile (claim_hardware batch) = false) →
  (∀ i, i ∈ BatchSelection.workflows batch → partition_eligible mcfg meets total (partition_of mcfg i) = true) →
  (∀ (st : server S) r workers busy, BatchReservation.selection r = batch → workers ⊆ all_workers →
     let st' := do_claim cfg meets total (snapshot_free_capacity get_worker_profile workers busy) r st in
     at_phase st' = Idle ∧ inflight st' = inflight st ∧ busy_workers st' = busy_workers st ∧ requests st' = requests st ∧
     queues (jobs st') = queues (jobs st)) ∧
  (∀ (m : manager S) now i, dwell_wf m → i ∈ all_items m → i ∈ BatchSelection.workflows batch →
     i ∉ (permanently_unsatisfiable mcfg meets total now m).2).
Proof.
  intros Hc%init_config_ok required total Hr Hadv Hsmall Hel. split; [|intros m now i Hm Hi Hb; apply eligible_not_doomed; [done|done|by apply Hel]].
  intros st r workers busy0 Hsel Hsub. unfold do_claim. rewrite Hsel.
  enough (Hno : try_claim_workers cfg meets batch (snapshot_free_capacity get_worker_profile workers busy0) total (busy_workers st) = None).
  { rewrite Hno. split_and!; [done..|]. unfold jobs, abort_reservation. by destruct (negb _). }
  unfold try_claim_workers, select_workers. fold (claim_hardware batch) required.
  set (free := snapshot_free_capacity get_worker_profile workers busy0).
  destruct (group_sizes cfg batch Hc) as (G1 & G2 & _).
  pose proof (eligible_workers_spec meets (claim_hardware batch) free _ _ required G1 G2) as Hs.
  destruct (FreeCapacity.eligible_workers _ _ free _ _ required) as [[sc sg]|].
  - exfalso. destruct Hs as [_ (_ & _ & Hcap)]. destruct (Hcap Hr) as (_ & Hp & w & Hw & Hm & Ha).
    unfold free, snapshot_free_capacity in Hw, Ha, Hm, Hp.
    set (avail := filter (λ w, w ∉ busy0) workers) in *.
    destruct (snapshot_spec get_worker_profile avail) as (E1 & _ & E3 & _).
    rewrite E1 in Hw. apply list_elem_of_filter in Hw as [Hcl Hav]. unfold worker_class in Hcl.
    destruct (get_worker_profile w) as [profile|] eqn:Ep; [|done].
    rewrite (E3 w profile Hav Ep) in Hm. destruct Hm as [?|Hm]; [done|].
    unfold FreeCapacity.advertises in Ha. rewrite (E3 w profile Hav Ep) in Ha. apply subset_of_spec in Ha.
    apply list_elem_of_filter in Hav as [_ Hin].
    rewrite (Hsmall w profile) in Hm; [done| |done| |done]; [by apply Hsub|congruence].
  - destruct required as [|t ts] eqn:E; [done|]. by rewrite Hadv.
Qed.

(** ** Failing unplaceable work *)

Section failing.
Context (cfg : ServerConfig.t).

Definition failures (r : string) (workflows : list WorkflowItem.t) : list WorkflowItem.t :=
filter (λ i, WorkflowItem.request_id i = r) workflows.

(** The state of a request after its workflows failed. *)
Definition failed_state (s : RequestState.t) (mine : list WorkflowItem.t) : RequestState.t :=
foldl (λ s i, RequestState.discard_pending (WorkflowItem.workflow_id i)
                (RequestState.append_error (placement_error cfg i) s)) s mine.

Lemma fold_on_request (f : WorkflowItem.t → RequestState.t → RequestState.t) workflows reqs r :
dget r (foldl (λ reqs i, on_request (WorkflowItem.request_id i) (f i) reqs) reqs workflows) =
match dget r reqs with
| Some s => Some (foldl (λ s i, f i s) s (failures r workflows))
| None => None
end.
Proof.
revert reqs. unfold failures. induction workflows as [|i workflows IH]; intros reqs; csimpl.
- by destruct (dget r reqs).
- rewrite IH, on_request_get, filter_cons.
  destruct (decide (r = WorkflowItem.request_id i)) as [->|Hne].
  + rewrite decide_True by done. by destruct (dget _ reqs).
  + by rewrite decide_False by done.
Qed.

Lemma failed_state_spec s mine :
RequestState.pending_workflows (failed_state s mine) =
  filter (λ w, w ∉ ids mine) (RequestState.pending_workflows s) ∧
RequestState.results (failed_state s mine) = RequestState.results s ∧
RequestState.ready (failed_state s mine) = RequestState.ready s ∧
RequestState.outputs (failed_state s mine) = RequestState.outputs s ∧
(mine ≠ [] → RequestState.error_info (failed_state s mine) =
   Some (default [] (RequestState.error_info s) ++ (placement_error cfg <$> mine))).
Proof.
unfold failed_state. revert s. induction mine as [|i mine IH]; intros s; csimpl.
- split_and!; try done. symmetry. apply filter_everything. intros w _. apply not_elem_of_nil.
- set (s1 := RequestState.discard_pending _ _). destruct (IH s1) as (H1 & H2 & H3 & H4 & H5).
  rewrite H1, H2, H3, H4. split_and!; try done.
  + unfold s1. simpl. rewrite list_filter_filter. apply list_filter_iff. intros w.
    unfold ids. csimpl. rewrite not_elem_of_cons. tauto.
  + intros _. destruct mine as [|j mine]; [done|]. rewrite H5 by done. simpl.
    by rewrite <-app_assoc.
Qed.

Lemma answer_failed_iter s k :
RequestState.pending_workflows s = [] → RequestState.ready s = true →
let s' := Nat.iter k answer_failed s in
RequestState.pending_workflows s' = [] ∧ RequestState.ready s' = true ∧
RequestState.response s' = RequestState.response s ∧ RequestState.outputs s' = RequestState.outputs s ∧
RequestState.error_info s' = RequestState.error_info s ∧
RequestState.results s' = RequestState.results s ++ replicate k (RequestState.response s).
Proof.
intros Hp Hr. induction k as [|k IH]; csimpl; [by rewrite app_nil_r|].
destruct IH as (H1 & H2 & H3 & H4 & H5 & H6). simpl in *. set (t := Nat.iter k answer_failed s) in *.
assert (E : answer_failed t = RequestState.put_result (RequestState.response t) t)
  by (unfold answer_failed; by rewrite H1, H2).
rewrite E. simpl. split_and!; try done.
rewrite H6, H3, <-app_assoc. f_equal. symmetry. apply (replicate_S_end k).
Qed.

Lemma fold_const {A B} (f : A → A) (l : list B) s : foldl (λ s _, f s) s l = Nat.iter (length l) f s.
Proof.
revert s. induction l as [|x l IH]; intros s; [done|]. csimpl. rewrite IH. symmetry. apply (Nat.iter_succ_r (length l) _ f s).
Qed.
End failing.

(** Failing unplaceable workflows takes exactly them off the pending sets
    and records one error for each; a request left with nothing pending is
    answered, once per failed workflow.  The answer carries [state.outputs],
    which only the regular completion computes from the buffers: whatever
    slices of the request already finished, their outputs are not in it. *)
Theorem failed_requests_lose_finished_outputs cfg workflows reqs r s :
  dget r reqs = Some s → failures r workflows ≠ [] →
  ∃ s', dget r (fail_unplaceable cfg workflows reqs) = Some s' ∧
    RequestState.pending_workflows s' =
      filter (λ w, w ∉ ids (failures r workflows)) (RequestState.pending_workflows s) ∧
    RequestState.error_info s' =
      Some (default [] (RequestState.error_info s) ++ (placement_error cfg <$> failures r workflows)) ∧
    RequestState.outputs s' = RequestState.outputs s ∧
    RequestState.results s' = RequestState.results s ++
      (if decide (RequestState.pending_workflows s' = [] ∧ RequestState.ready s = true)
       then replicate (length (failures r workflows)) (RequestState.response s') else []) ∧
    LumilakeResponse.outputs (RequestState.response s') = RequestState.outputs s.
Proof.
  intros Hr Hne. unfold fail_unplaceable, answer_workflow.
  rewrite (fold_on_request (λ _, answer_failed)). unfold fail_workflow.
  rewrite (fold_on_request (λ i s, RequestState.discard_pending (WorkflowItem.workflow_id i)
            (RequestState.append_error (placement_error cfg i) s))), Hr.
  set (mine := failures r workflows) in *. fold (failed_state cfg s mine).
  destruct (failed_state_spec cfg s mine) as (H1 & H2 & H3 & H4 & H5). specialize (H5 Hne).
  set (s1 := failed_state cfg s mine) in *. rewrite fold_const. eexists. split; [done|].
  destruct (decide (RequestState.pending_workflows s1 = [] ∧ RequestState.ready s = true)) as [[Hp Hrd]|Hn].
  - destruct (answer_failed_iter s1 (length mine)) as (A1 & A2 & A3 & A4 & A5 & A6); [done|congruence|].
    rewrite A1, A3, A4, A5, A6. rewrite decide_True by done.
    split_and!; try done; [by rewrite <-H1|by rewrite H2].
  - assert (Hi : Nat.iter (length mine) answer_failed s1 = s1).
    { generalize (length mine). intros k. induction k as [|k IH]; [done|]. simpl. rewrite IH.
      unfold answer_failed. rewrite H3. destruct (RequestState.pending_workflows s1); [|done].
      destruct (RequestState.ready s); [|done]. by destruct Hn. }
    rewrite Hi. rewrite decide_False by done. rewrite H2, app_nil_r. by split_and!.
Qed.

Module SchedulerSample.
Definition cfg : ServerConfig.t := ServerConfig.mk 2 fzero 1 1 true.
Definition profile (devices : list val) (types : list string) : dict string val :=
[("gpu", VDict [("devices", VList devices)]); ("supported_task_types", VList (VStr <$> types))].
Definition get_worker_profile (w : string) : result (dict string val) :=
if String.eqb w "g1" then Ok (profile [VDict [("name", VStr "A100")]] ["inference"])
else if String.eqb w "c1" then Ok (profile [] ["python"])
else Err (RuntimeError "gone").
Definition workers : list string := ["c1"; "lost"; "g1"].

Definition s0 : server simple_policy := init_server PFifo.
Definition s1 : server simple_policy :=
Server (enqueue Sample.cfg (Sample.job "r1" "ann" true ["a"; "b"]) (of_Z 1) (Sample.fresh "p") (jobs s0)).1
  [] [] [] Idle.
Definition s2 : server simple_policy := do_snapshot get_worker_profile workers s1.
Definition free : FreeCapacity.t := snapshot_free_capacity get_worker_profile workers [].
Definition s3 : server simple_policy := do_reserve cfg Sample.cfg Sample.meets free s2.
Definition r : BatchReservation.t := default Sample.no_reservation (active_reservation (jobs s3)).
Definition s4 : server simple_policy := do_claim cfg Sample.meets free free r s3.
Definition s5 : server simple_policy := do_commit Sample.cfg r ["g1"; "c1"] s4.

Notation step := (server_step cfg Sample.cfg Sample.meets).

Lemma step1 : step s0 s1.
Proof.
right. refine (TaskEnqueue Sample.cfg (Sample.job "r1" "ann" true ["a"; "b"]) (of_Z 1) (Sample.fresh "p") s0 _ _).
- split; [apply Sample.fresh_inj|]. intros k. apply not_elem_of_nil.
- intros k. apply not_elem_of_nil.
Qed.

Lemma step2 : step s1 s2.
Proof.
left. refine (LoopSnapshot cfg Sample.cfg Sample.meets get_worker_profile workers s1 eq_refl _).
apply (bool_decide_unpack _). vm_compute. exact I.
Qed.

Lemma step3 : step s2 s3.
Proof. left. refine (LoopReserve cfg Sample.cfg Sample.meets free s2 _). vm_compute. reflexivity. Qed.

Lemma step4 : step s3 s4.
Proof. left. refine (LoopClaim cfg Sample.cfg Sample.meets free free r s3 _). vm_compute. reflexivity. Qed.

Lemma step5 : step s4 s5.
Proof. left. refine (LoopCommit cfg Sample.cfg Sample.meets r ["g1"; "c1"] s4 _). vm_compute. reflexivity. Qed.

Lemma s5_reach : server_reachable cfg Sample.cfg Sample.meets PFifo s5.
Proof.
exact (rtc_l _ s0 s1 s5 step1 (rtc_l _ s1 s2 s5 step2 (rtc_l _ s2 s3 s5 step3
  (rtc_l _ s3 s4 s5 step4 (rtc_l _ s4 s5 s5 step5 (rtc_refl _ s5)))))).
Qed.
End SchedulerSample.

Lemma no_worker_is_double_booked_witness :
  held SchedulerSample.s5 = ["g1"; "c1"] ∧ "c1" ∈ busy_workers SchedulerSample.s5.
Proof.
  split; [vm_compute; reflexivity|].
  apply (no_worker_is_double_booked 2 fzero 1 1 true SchedulerSample.cfg Sample.cfg Sample.meets PFifo
    SchedulerSample.s5 eq_refl SchedulerSample.s5_reach).
  apply (bool_decide_unpack _). vm_compute. exact I.
Defined.

Lemma reservations_never_leak_witness :
  at_phase SchedulerSample.s5 = Idle ∧ active_reservation (jobs SchedulerSample.s5) = None.
Proof.
  split; [vm_compute; reflexivity|].
  exact (reservations_never_leak 2 fzero 1 1 true SchedulerSample.cfg Sample.cfg Sample.meets PFifo
    SchedulerSample.s5 eq_refl SchedulerSample.s5_reach).
Defined.

Lemma no_workflow_is_dispatched_twice_witness :
  running_ids SchedulerSample.s5 = ["p"; "px"] ∧ "p" ∉ ids (all_items (jobs SchedulerSample.s5)).
Proof.
  split; [vm_compute; reflexivity|].
  apply (no_workflow_is_dispatched_twice 2 fzero 1 1 true SchedulerSample.cfg Sample.cfg Sample.meets PFifo
    SchedulerSample.s5 eq_refl SchedulerSample.s5_reach).
  apply (bool_decide_unpack _). vm_compute. exact I.
Defined.

Module ClaimSample.
Definition op (id task_type backend : string) : RuntimeOp.t :=
RuntimeOp.mk id task_type backend "m" [] [] [] [] [] None None.
Definition graph : RuntimeGraph.t :=
RuntimeGraph.mk [("ask", op "ask" "inference" "vllm"); ("step", op "step" "python" "python")]
  ["ask"; "step"] [] [] [].
Definition config (hw : option HardwareRequirements.t) : LumilakeRequestConfig.t :=
LumilakeRequestConfig.mk MEDIUM "u" "org" "p" None hw None 0.
Definition item (hw : option HardwareRequirements.t) : WorkflowItem.t :=
WorkflowItem.mk "w" "r" "g" "g" 0 0 1 1 "t" [] graph graph (CompiledGraph.mk (Graph.mk [] [] []) []) (config hw) fzero None None 0 true.
Definition batch (hw : option HardwareRequirements.t) : BatchSelection.t :=
BatchSelection.mk [item hw] [("w", graph)] [] (config hw).
(** The check of [worker_meets_hardware], refusing malformed profiles. *)
Definition meets (profile : dict string val) (hw : option HardwareRequirements.t) : bool :=
match worker_meets_hardware profile hw None with Ok b => b | Err _ => false end.
(** [c1] advertises python but has too few cores, [c2] is large enough. *)
Definition get_worker_profile (w : string) : result (dict string val) :=
if String.eqb w "g1" then Ok WorkerSample.gpu_profile
else if String.eqb w "c1" then Ok WorkerSample.cpu_profile
else Ok [("cpu", VDict [("logical_cores", VInt 32)])].
Definition eight_cores : option HardwareRequirements.t :=
Some (HardwareRequirements.mk (Some 8%Z) None None None None).
Definition workers : list string := ["c1"; "c2"; "g1"].
Definition total : FreeCapacity.t := snapshot_total_capacity get_worker_profile workers.
Definition mcfg : ManagerConfig.t := ManagerConfig.init (PerPrio 4 4 4)%Z 3 "halo" 1 1 2 (of_Z 5) true.
End ClaimSample.

Lemma claimed_workers_can_run_the_batch_witness :
  ∃ claimed busy', try_claim_workers SchedulerSample.cfg ClaimSample.meets (ClaimSample.batch None)
      (snapshot_free_capacity ClaimSample.get_worker_profile ClaimSample.workers []) ClaimSample.total []
    = Some (claimed, busy') ∧ NoDup claimed.
Proof.
  destruct (try_claim_workers SchedulerSample.cfg ClaimSample.meets (ClaimSample.batch None)
      (snapshot_free_capacity ClaimSample.get_worker_profile ClaimSample.workers []) ClaimSample.total [])
    as [[claimed busy']|] eqn:E; [|vm_compute in E; discriminate].
  exists claimed, busy'. split; [reflexivity|].
  assert (Hnd : NoDup ClaimSample.workers) by (apply (bool_decide_unpack _); vm_compute; exact I).
  apply (claimed_workers_can_run_the_batch 2 fzero 1 1 true _ _ _ _ _ _ _ _ _ _ eq_refl Hnd E).
Defined.

(** A cluster with a large CPU worker that does not run python steps and a
    small one that does: the batch is eligible, never doomed and never
    claimed. *)
Lemma unclaimable_batch_waits_forever_witness :
  let batch := ClaimSample.batch ClaimSample.eight_cores in
  let r := BatchReservation.mk 0 batch (ReservationPayload.mk ["w"] [] None []) in
  let st := Server (init_manager PFifo) [] [] [] (Reserved (snapshot_free_capacity ClaimSample.get_worker_profile ClaimSample.workers []) r) in
  at_phase (do_claim SchedulerSample.cfg ClaimSample.meets ClaimSample.total (snapshot_free_capacity ClaimSample.get_worker_profile ClaimSample.workers []) r st) = Idle.
Proof.
  intros batch r st.
  refine (proj1 (proj1 (unclaimable_batch_waits_forever (S := simple_policy) 2 fzero 1 1 true SchedulerSample.cfg
    ClaimSample.mcfg ClaimSample.meets ClaimSample.get_worker_profile ClaimSample.workers batch eq_refl _ _ _ _)
    st r ClaimSample.workers [] eq_refl _)).
  - vm_compute. discriminate.
  - vm_compute. reflexivity.
  - intros w profile Hw Hp. unfold ClaimSample.workers in Hw.
    repeat (apply elem_of_cons in Hw as [->|Hw]; [injection Hp as <-|]); [| | |by apply elem_of_nil in Hw].
    + intros _ _. vm_compute. reflexivity.
    + intros _ Hsub. exfalso. apply (not_elem_of_nil "python"). apply Hsub.
      apply (bool_decide_unpack _). vm_compute. exact I.
    + intros Hg. vm_compute in Hg. discriminate.
  - intros i ->%list_elem_of_singleton. vm_compute. reflexivity.
  - done.
Defined.

Lemma failed_requests_lose_finished_outputs_witness :
  ∃ s', dget "r" (fail_unplaceable SchedulerSample.cfg [ResultsSample.slice "w1" "r" 1 2]
      [("r", ResultsSample.fresh ["w1"])]) = Some s' ∧
    length (RequestState.results s') = 1 ∧ RequestState.outputs s' = [].
Proof.
  destruct (failed_requests_lose_finished_outputs SchedulerSample.cfg [ResultsSample.slice "w1" "r" 1 2]
    [("r", ResultsSample.fresh ["w1"])] "r" (ResultsSample.fresh ["w1"]) eq_refl) as (s' & H1 & H2 & _ & H4 & H5 & _).
  { vm_compute. discriminate. }
  exists s'. split; [exact H1|].
  assert (Hp : RequestState.pending_workflows s' = []) by (rewrite H2; vm_compute; reflexivity).
  split; [|exact H4]. rewrite H5, decide_True by (split; [exact Hp|reflexivity]). vm_compute. reflexivity.
Defined.
