(* ===== verification/BatchRun.v ===== *)
(** * Running a batch (runtime/server.py: [_run_batch], [_run_batch_inner])

    One dispatched batch: its dispatch rows and execution tracking, the node
    counters of its requests, the processing, the accounting of its results,
    and the isolated re-run of every request when a batch of several requests
    fails at runtime.

    [_process_batch] is seen from outside: [ProcessOutcome] is what it
    returned or raised, with the state it changed on the way (the charged
    shares of the optimized nodes, the recorded list-lambda outputs).  Its own
    parts are the files [Coalesce], [Dedupe], [Schedule] and [Demux].
    Cancellation flags and worker profiles are read from the runtime manager:
    an [Execution] holds what one run reads. *)

From S2P Require Import Prelude PyFloat PyDict Grouping PyValue Protocol RuntimeGraph JobBase PriorityQueue RequestState Demux Results Scheduler.

(** ** Execution tracking *)

Module ExecutionBatchContext.
Record t := mk {
execution_request_id : string;
batch_id : string;
request_ids : list string;
workflow_ids : list string;
}.
End ExecutionBatchContext.

Record tracking := Tracking {
  execution_contexts : dict string ExecutionBatchContext.t;
  request_execution_ids : dict string (list string);
  request_execution_history_ids : dict string (list string);
  unreleased_execution_members : dict string (list string);
}.

(** [d.setdefault(k, set()).add(x)] *)
Definition add_to_set (k x : string) (d : dict string (list string)) : dict string (list string) :=
  let members := dget_or [] k d in
  dset k (if decide (x ∈ members) then members else members ++ [x]) d.

(** The start of [_run_batch]. *)
Definition track_execution (execution_request_id batch_id : string) (request_ids workflow_ids : list string)
    (t : tracking) : tracking :=
  let add d := foldl (λ d r, add_to_set r execution_request_id d) d request_ids in
  Tracking
    (dset execution_request_id
       (ExecutionBatchContext.mk execution_request_id batch_id request_ids workflow_ids) (execution_contexts t))
    (add (request_execution_ids t)) (add (request_execution_history_ids t))
    (dset execution_request_id request_ids (unreleased_execution_members t)).

(** [_cleanup_execution_tracking] *)
Definition cleanup_request (execution_request_id : string) (d : dict string (list string)) (request_id : string) :
    dict string (list string) :=
  match dget request_id d with
  | None => d
  | Some execution_ids =>
      match filter (.≠ execution_request_id) execution_ids with
      | [] => ddel request_id d
      | others => dset request_id others d
      end
  end.

Definition cleanup_execution_tracking (execution_request_id : string) (request_ids : list string)
    (t : tracking) : tracking :=
  Tracking (ddel execution_request_id (execution_contexts t))
    (foldl (cleanup_request execution_request_id) (request_execution_ids t) request_ids)
    (request_execution_history_ids t) (unreleased_execution_members t).

(** The executions of a request, present and past. *)
Definition executions_of (request_id : string) (t : tracking) : list string :=
  remove_dups (dget_or [] request_id (request_execution_ids t) ++
               dget_or [] request_id (request_execution_history_ids t)).

(** [release_request_workflows]: the executions no other request still needs. *)
Definition release_execution (request_id : string) (s : dict string (list string) * list string)
    (execution_id : string) : dict string (list string) * list string :=
  let '(unreleased, released) := s in
  match dget execution_id unreleased with
  | None => (unreleased, released ++ [execution_id])
  | Some members =>
      match filter (.≠ request_id) members with
      | [] => (ddel execution_id unreleased, released ++ [execution_id])
      | others => (dset execution_id others unreleased, released)
      end
  end.

Definition release_request_workflows (request_id : string) (t : tracking) : tracking * list string :=
  let '(unreleased, released) :=
    foldl (release_execution request_id) (unreleased_execution_members t, []) (executions_of request_id t) in
  (Tracking (execution_contexts t) (request_execution_ids t) (request_execution_history_ids t) unreleased,
   released).

(** ** Node counters of a batch *)

(** A fallible change to the counters of one request; unknown requests are
    skipped. *)
Definition on_counters (request_id : string) (f : Counters.t → Counters.t * option exn) (reqs : request_table) :
    request_table * option exn :=
  match dget request_id reqs with
  | None => (reqs, None)
  | Some s =>
      let '(c, e) := f (RequestState.counters s) in
      (dset request_id (RequestState.set_counters c s) reqs, e)
  end.

(** A loop that stops at the first exception and keeps the state it left. *)
Fixpoint foldE {A S} (f : S → A → S * option exn) (s : S) (l : list A) : S * option exn :=
  match l with
  | [] => (s, None)
  | x :: l' => match f s x with (s', None) => foldE f s' l' | (s', Some e) => (s', Some e) end
  end.

Definition keep {S} (s : S) (r : result S) : S * option exn :=
  match r with Ok s' => (s', None) | Err e => (s, Some e) end.

Definition start_batch_nodes (batch_id : string) (raw : dict string Z) (reqs : request_table) :
    request_table * option exn :=
  foldE (λ reqs rn, on_counters rn.1 (λ c, keep c (start_nodes batch_id rn.2 c)) reqs) reqs raw.

Definition charge_optimized (batch_id : string) (shares : dict string Z) (reqs : request_table) :
    request_table * option exn :=
  foldE (λ reqs rn, on_counters rn.1 (λ c, keep c (record_optimized batch_id rn.2 c)) reqs) reqs shares.

Definition finish_batch_nodes (batch_id : string) (retry : bool) (request_ids : list string) (reqs : request_table) :
    request_table * option exn :=
  foldE (λ reqs r, on_counters r (finish_nodes batch_id retry) reqs) reqs request_ids.

(** ** What a run reads *)

Abbreviation outputs := (dict string (dict string (list val))).

(** The list-lambda outputs it recorded come with the outcome; [text] is the
    redacted text of an exception. *)
Inductive ProcessOutcome :=
  | Produced (lambdas : list (WorkflowItem.t * string)) (batch_outputs batch_histories : outputs)
  | ExecutionCancelled (text : string)
  | RuntimeExecutionError_ (text : string)
  | ProcessFailed (lambdas : list (WorkflowItem.t * string)) (text : string).

Module Execution.
Record t := mk {
batch_id : string;
execution_request_id : string;
now : f64;
(** the cancelled members before the run and at its end *)
cancelled_before : list string;
cancelled_after : list string;
(** the text of the exception that fetching the worker profiles raised *)
profile_error : option string;
(** the node count of the optimized graph, once there is one *)
optimized_nodes : option Z;
outcome : ProcessOutcome;
(** the id of the submitted workflow, when there is one *)
flowmesh_workflow_id : option string;
}.
End Execution.

Definition exn_text (e : exn) : string :=
  match e with
  | ValueError m | KeyError m | RuntimeError m | IndexError m | TypeError m | AttributeError m | ValidationError m | DriverProtocolError m => m
  | ZeroDivisionError => "division by zero"
  | OverflowError => "overflow"
  | RecursionError => "maximum recursion depth exceeded"
  | HTTPException status detail => str_of_Z status +:+ ": " +:+ detail
  end.

Definition is_nil {A} (l : list A) : bool := match l with [] => true | _ => false end.

(** How the body of the [try] ended. *)
Inductive body_result :=
  | BodyDone
  | BodyCancelled (text : string)
  | BodyFailed (at_runtime : bool) (text : string).

(** What a batch task does to the workers, in the order in which it does it: the
    runs it starts on them and the releases *)
Inductive worker_event :=
  | Started (execution_request_id : string)
  | Released (workers : list string).

Section run.
Context (to_str : val → string).

Definition record_lambdas (lambdas : list (WorkflowItem.t * string)) (reqs : request_table) : request_table :=
foldl (λ reqs wn, on_request (WorkflowItem.request_id wn.1)
                    (add_lambda_output (WorkflowItem.workflow_id wn.1) wn.2) reqs) reqs lambdas.

(** [_handle_batch_results] of the whole batch. *)
Definition account (e : Execution.t) (workflows : list WorkflowItem.t) (out hist : outputs) (error : option string)
  (cancelled : list string) (reqs : request_table) : request_table * option exn :=
handle_batch_results to_str out hist error cancelled (Some (Execution.execution_request_id e)) workflows
  (Some (Execution.batch_id e)) [] reqs.

(** The charge of the optimized nodes, once there is an optimized graph. *)
Definition charge (e : Execution.t) (active : list WorkflowItem.t) (reqs : request_table) :
  request_table * option exn :=
match Execution.optimized_nodes e with
| None => (reqs, None)
| Some n => charge_optimized (Execution.batch_id e) (optimized_nodes_by_request n (raw_nodes_by_request active)) reqs
end.

(** The call of [_process_batch] and the accounting of its results. *)
Definition process_and_account (e : Execution.t) (active workflows : list WorkflowItem.t) (reqs : request_table) :
  request_table * body_result :=
match charge e active reqs with
| (reqs, Some x) => (reqs, BodyFailed false (exn_text x))
| (reqs, None) =>
    match Execution.outcome e with
    | ExecutionCancelled text => (reqs, BodyCancelled text)
    | RuntimeExecutionError_ text => (reqs, BodyFailed true text)
    | ProcessFailed lambdas text => (record_lambdas lambdas reqs, BodyFailed false text)
    | Produced lambdas out hist =>
        match account e workflows out hist None (Execution.cancelled_after e) (record_lambdas lambdas reqs) with
        | (reqs, None) => (reqs, BodyDone)
        | (reqs, Some x) => (reqs, BodyFailed false (exn_text x))
        end
    end
end.

(** The body of the [try] of [_run_batch_inner]. *)
Definition run_body (e : Execution.t) (active workflows : list WorkflowItem.t) (reqs : request_table) :
  request_table * body_result :=
match start_batch_nodes (Execution.batch_id e) (raw_nodes_by_request active) reqs with
| (reqs, Some x) => (reqs, BodyFailed false (exn_text x))
| (reqs, None) =>
    match active with
    | [] =>
        match account e workflows [] [] None (Execution.cancelled_before e) reqs with
        | (reqs, None) => (reqs, BodyDone)
        | (reqs, Some x) => (reqs, BodyFailed false (exn_text x))
        end
    | _ =>
        match Execution.profile_error e with
        | Some text => (reqs, BodyFailed false text)
        | None => process_and_account e active workflows reqs
        end
    end
end.

(** The [except] clauses: the accounting of a failure, or the batches to
  re-run. *)
Definition run_except (e : Execution.t) (isolate_failures : bool) (active : list WorkflowItem.t)
  (batch : BatchSelection.t) (reqs : request_table) (r : body_result) :
  request_table * (list BatchSelection.t * option exn) :=
let workflows := BatchSelection.workflows batch in
let fail text :=
  let '(reqs, x) := account e workflows [] [] (Some text) (Execution.cancelled_after e) reqs in
  (reqs, ([], x)) in
match r with
| BodyDone => (reqs, ([], None))
| BodyCancelled text => fail text
| BodyFailed at_runtime text =>
    if (at_runtime && isolate_failures && (1 <? length (remove_dups (WorkflowItem.request_id <$> active))))%bool
    then match split_batch_by_request batch with
         | Ok retry => (reqs, (retry, None))
         | Err x => (reqs, ([], Some x))
         end
    else fail text
end.

Context {S : Type}.

(** What the batch tasks share with the scheduler loop; [w_events] logs the runs
    that started and the releases, which the code does not record. *)
Record world := World {
w_requests : request_table;
w_busy : list string;
w_jobs : manager S;
w_tracking : tracking;
w_events : list worker_event;
}.

Definition set_requests (reqs : request_table) (w : world) : world :=
World reqs (w_busy w) (w_jobs w) (w_tracking w) (w_events w).
Definition release (workers : list string) (w : world) : world :=
World (w_requests w) (release_workers workers (w_busy w)) (w_jobs w) (w_tracking w) (w_events w ++ [Released workers]).
Definition finalize (workflows : list WorkflowItem.t) (w : world) : world :=
World (w_requests w) (w_busy w) (finalize_workflows (ids workflows) (w_jobs w)) (w_tracking w) (w_events w).

(** The members that run: those not cancelled before. *)
Definition active_workflows (e : Execution.t) (batch : BatchSelection.t) : list WorkflowItem.t :=
filter (λ i, WorkflowItem.request_id i ∉ Execution.cancelled_before e) (BatchSelection.workflows batch).

(** What [_run_batch_inner] does to the request table: the batches to re-run,
  the exception it raised, and whether its [finally] got to the release. *)
Definition settle_requests (e : Execution.t) (batch : BatchSelection.t) (isolate_failures : bool)
  (reqs : request_table) : request_table * (list BatchSelection.t * option exn * bool) :=
let active := active_workflows e batch in
let '(reqs, r) := run_body e active (BatchSelection.workflows batch) reqs in
let '(reqs, retry_raised) := run_except e isolate_failures active batch reqs r in
let reqs :=
  match active with
  | [] => reqs
  | _ => fill_flowmesh_workflow_ids (Execution.batch_id e) (Execution.execution_request_id e)
           (Execution.flowmesh_workflow_id e) (remove_dups (WorkflowItem.request_id <$> active)) reqs
  end in
let '(reqs, x) :=
  finish_batch_nodes (Execution.batch_id e) (negb (is_nil retry_raised.1)) (dkeys (raw_nodes_by_request active)) reqs in
match x with
| Some _ => (reqs, (retry_raised.1, x, false))
| None => (reqs, (retry_raised, true))
end.

(** [_run_batch_inner] *)
Definition run_batch_inner (e : Execution.t) (workers : list string) (batch : BatchSelection.t)
  (isolate_failures release_flag : bool) (w : world) : world * (list BatchSelection.t * option exn) :=
let '(reqs, (retry_raised, settled)) := settle_requests e batch isolate_failures (w_requests w) in
let w := set_requests reqs w in
let w := if (settled && is_nil retry_raised.1)%bool
         then finalize (BatchSelection.workflows batch) (if release_flag then release workers w else w)
         else w in
(w, retry_raised).

(** [sorted({workflow.request_id for workflow in batch.workflows})] *)
Definition batch_request_ids (batch : BatchSelection.t) : list string :=
sorted_by str_ltb id (remove_dups (WorkflowItem.request_id <$> BatchSelection.workflows batch)).

Definition begin_run (e : Execution.t) (workers : list string) (batch : BatchSelection.t) (w : world) : world :=
World
  (record_workflow_dispatches (Execution.now e) batch (Execution.batch_id e) (Execution.execution_request_id e)
     workers (w_requests w))
  (w_busy w) (w_jobs w)
  (track_execution (Execution.execution_request_id e) (Execution.batch_id e) (batch_request_ids batch)
     (ids (BatchSelection.workflows batch)) (w_tracking w))
  (w_events w ++ [Started (Execution.execution_request_id e)]).

Definition end_run (e : Execution.t) (batch : BatchSelection.t) (w : world) : world :=
World (w_requests w) (w_busy w) (w_jobs w)
  (cleanup_execution_tracking (Execution.execution_request_id e) (batch_request_ids batch) (w_tracking w)) (w_events w).

(** A run up to the end of its own [try]/[finally]. *)
Definition run_once (e : Execution.t) (workers : list string) (batch : BatchSelection.t)
  (isolate_failures release_flag : bool) (w : world) : world * (list BatchSelection.t * option exn) :=
let '(w, retry_raised) :=
  run_batch_inner e workers batch isolate_failures release_flag (begin_run e workers batch w) in
(end_run e batch w, retry_raised).

Definition still_pending (reqs : request_table) (i : WorkflowItem.t) : bool :=
match dget (WorkflowItem.request_id i) reqs with
| Some s => bool_decide (WorkflowItem.workflow_id i ∈ RequestState.pending_workflows s)
| None => false
end.

(** [_fail_unrecorded_workflows]; what the accounting raises is logged. *)
Definition fail_unrecorded_requests (batch : BatchSelection.t) (error : exn) (reqs : request_table) : request_table :=
match filter (λ i, still_pending reqs i = true) (BatchSelection.workflows batch) with
| [] => reqs
| unrecorded => (handle_batch_results to_str [] [] (Some (exn_text error)) [] None unrecorded None [] reqs).1
end.

Definition fail_unrecorded_workflows (batch : BatchSelection.t) (error : exn) (w : world) : world :=
finalize (BatchSelection.workflows batch)
  (set_requests (fail_unrecorded_requests batch error (w_requests w)) w).

(** One isolated re-run. *)
Definition rerun (workers : list string) (w : world) (eb : Execution.t * BatchSelection.t) : world :=
match run_once eb.1 workers eb.2 false false w with
| (w, (_, None)) => w
| (w, (_, Some x)) => fail_unrecorded_workflows eb.2 x w
end.

(** [_run_batch] as the scheduler loop calls it.  [reruns] is what the re-runs
  read, one execution per retried batch. *)
Definition run_batch (e : Execution.t) (reruns : list Execution.t) (workers : list string) (batch : BatchSelection.t)
  (w : world) : world * option exn :=
match run_once e workers batch true true w with
| (w, (_, Some x)) => (w, Some x)
| (w, ([], None)) => (w, None)
| (w, (retry, None)) => (release workers (foldl (rerun workers) w (zip reruns retry)), None)
end.
End run.
