(* ===== verification/BatchRunProps.v ===== *)
(** * Correctness of running a batch

    Every run accounts for its batch, whatever fails in it; a failed joint run
    leaves no trace but its dispatch rows, so every request then ends as its
    own re-run makes it; and a shared execution stays tracked until its last
    member is released. *)

From S2P Require Import Prelude PyFloat PyDict Grouping PyValue PyString Protocol RuntimeGraph DslGraph JobBase PriorityQueue RequestState Demux Results ResultsProps Scheduler BatchRun.

(** ** What a piece of a run reads and writes

    A piece of a run is [local] to a set of requests when it reads and writes
    the states of these requests only. *)

Definition agree (rs : list string) (reqs reqs' : request_table) : Prop :=
  ∀ r, r ∈ rs → dget r reqs = dget r reqs'.

#[export] Instance agree_equiv rs : Equivalence (agree rs).
Proof.
  split.
  - by intros reqs r.
  - intros reqs reqs' H r Hr. symmetry. by apply H.
  - intros reqs1 reqs2 reqs3 H1 H2 r Hr. rewrite (H1 r Hr). by apply H2.
Qed.

Record local {X} (rs : list string) (f : request_table → request_table * X) : Prop := {
  local_agree reqs reqs' : agree rs reqs reqs' → agree rs (f reqs).1 (f reqs').1;
  local_same reqs reqs' : agree rs reqs reqs' → (f reqs).2 = (f reqs').2;
  local_others reqs r : r ∉ rs → dget r (f reqs).1 = dget r reqs;
}.

(** The same for the pieces that only change the table. *)
Definition local_pure (rs : list string) (f : request_table → request_table) : Prop :=
  local rs (λ reqs, (f reqs, ())).

Create HintDb local.

Section local.
Context (rs : list string).

Lemma local_ret {X} (x : X) : local rs (λ reqs, (reqs, x)).
Proof. by split. Qed.

Lemma local_bind_post {X Y} (P : X → Prop) (f : request_table → request_table * X)
  (k : request_table → X → request_table * Y) :
local rs f → (∀ reqs, P (f reqs).2) → (∀ x, P x → local rs (λ reqs, k reqs x)) →
local rs (λ reqs, let '(reqs, x) := f reqs in k reqs x).
Proof.
intros Hf HP Hk. split; intros reqs; [intros reqs' H|intros reqs' H|intros r Hr].
1,2: pose proof (local_agree _ _ Hf _ _ H) as H1; pose proof (local_same _ _ Hf _ _ H) as H2;
  pose proof (HP reqs) as H3; destruct (f reqs) as [a x], (f reqs') as [b y]; simpl in *; subst.
- by apply (local_agree _ _ (Hk y H3)).
- by apply (local_same _ _ (Hk y H3)).
- pose proof (local_others _ _ Hf reqs r Hr) as H1. pose proof (HP reqs) as H3.
  destruct (f reqs) as [a x]. simpl in *. by rewrite (local_others _ _ (Hk x H3)).
Qed.

Lemma local_bind {X Y} (f : request_table → request_table * X) (k : request_table → X → request_table * Y) :
local rs f → (∀ x, local rs (λ reqs, k reqs x)) → local rs (λ reqs, let '(reqs, x) := f reqs in k reqs x).
Proof. intros Hf Hk. by apply (local_bind_post (λ _, True)). Qed.

Lemma local_then {Y} (f : request_table → request_table) (k : request_table → request_table * Y) :
local_pure rs f → local rs k → local rs (λ reqs, k (f reqs)).
Proof. intros Hf Hk. apply (local_bind (λ reqs, (f reqs, ())) (λ reqs _, k reqs)); done. Qed.

Lemma local_fst {X} (f : request_table → request_table * X) : local rs f → local_pure rs (λ reqs, (f reqs).1).
Proof. intros [L1 L2 L3]. by split. Qed.

Lemma local_match_exn {X} (f : request_table → request_table * option exn) (k1 : request_table → request_table * X)
  (k2 : exn → request_table → request_table * X) :
local rs f → local rs k1 → (∀ x, local rs (k2 x)) →
local rs (λ reqs, match f reqs with (reqs, None) => k1 reqs | (reqs, Some x) => k2 x reqs end).
Proof.
intros Hf H1 H2.
apply (local_bind f (λ reqs x, match x with None => k1 reqs | Some x => k2 x reqs end)); [done|].
by intros [x|].
Qed.

Lemma local_on_request r f : r ∈ rs → local_pure rs (on_request r f).
Proof.
intros Hr. split; simpl.
- intros reqs reqs' H r' Hr'. rewrite !on_request_get. case_decide; subst; by rewrite ?H.
- done.
- intros reqs r' Hr'. rewrite on_request_get. case_decide; [by subst|done].
Qed.

Lemma local_on_counters r f : r ∈ rs → local rs (on_counters r f).
Proof.
intros Hr. unfold on_counters. split.
- intros reqs reqs' H r' Hr'. rewrite <-(H r Hr). destruct (dget r reqs) as [s|]; [|by apply H].
  destruct (f _). simpl. rewrite !dget_dset. case_decide; [done|]. by apply H.
- intros reqs reqs' H. rewrite <-(H r Hr). destruct (dget r reqs) as [s|]; [|done]. by destruct (f _).
- intros reqs r' Hr'. destruct (dget r reqs) as [s|]; [|done].
  destruct (f _). simpl. rewrite dget_dset. case_decide; [by subst|done].
Qed.

Lemma local_foldl {A} (f : request_table → A → request_table) l :
(∀ a, a ∈ l → local_pure rs (λ reqs, f reqs a)) → local_pure rs (λ reqs, foldl f reqs l).
Proof.
induction l as [|a l IH]; intros Hf; [apply local_ret|]. simpl.
apply (local_then (λ reqs, f reqs a) (λ reqs, (foldl f reqs l, ()))); [apply Hf; left|].
apply IH. intros b Hb. apply Hf. by right.
Qed.

Lemma local_foldE {A} (f : request_table → A → request_table * option exn) l :
(∀ a, a ∈ l → local rs (λ reqs, f reqs a)) → local rs (λ reqs, foldE f reqs l).
Proof.
induction l as [|a l IH]; intros Hf; [apply local_ret|]. simpl.
apply (local_match_exn (λ reqs, f reqs a) (λ reqs, foldE f reqs l) (λ x reqs, (reqs, Some x))).
- apply Hf. left.
- apply IH. intros b Hb. apply Hf. by right.
- intros x. apply local_ret.
Qed.
End local.

(** ** The pieces of a run are local to the requests of the batch *)

Lemma raw_nodes_keys workflows r :
  r ∈ dkeys (raw_nodes_by_request workflows) ↔ r ∈ WorkflowItem.request_id <$> workflows.
Proof.
  unfold raw_nodes_by_request. rewrite <-(rev_involutive workflows).
  induction (rev workflows) as [|i l IH]; [done|]. simpl.
  rewrite foldl_app, fmap_app, elem_of_app, <-IH. simpl. rewrite elem_of_dkeys_dset. set_solver.
Qed.

Lemma raw_nodes_wf workflows : dict_wf (raw_nodes_by_request workflows).
Proof.
  unfold raw_nodes_by_request. assert (H : dict_wf ([] : dict string Z)) by constructor.
  revert H. generalize ([] : dict string Z). induction workflows as [|i l IH]; intros d H; simpl; [done|].
  by apply IH, dict_wf_dset.
Qed.

Lemma spread_keys R order (shares : dict string Z) r :
  r ∈ dkeys (spread_remainder R order shares) → r ∈ order ∨ r ∈ dkeys shares.
Proof.
  revert R shares. induction order as [|o order IH]; intros R shares H; simpl in H; [by right|].
  destruct (Z.leb_spec R 0); [by right|]. apply IH in H as [H|H]; [left; by right|].
  apply elem_of_dkeys_dset in H as [->|H]; [left; left|by right].
Qed.

Lemma optimized_keys n raw r : r ∈ dkeys (optimized_nodes_by_request n raw) → r ∈ dkeys raw.
Proof.
  unfold optimized_nodes_by_request. intros [H|H]%spread_keys.
  - by rewrite (sorted_by_perm str_ltb id) in H.
  - apply (proj1 (elem_of_dkeys_dict_of _ _)) in H. apply list_elem_of_fmap in H as ([k v] & -> & H).
    apply list_elem_of_fmap in H as (r' & E & H). injection E as -> _.
    by rewrite (sorted_by_perm str_ltb id) in H.
Qed.

Section pieces.
Context (to_str : val → string) (rs : list string).

(** The workflows of the requests [rs]. *)
Definition members_in (workflows : list WorkflowItem.t) : Prop :=
∀ i, i ∈ workflows → WorkflowItem.request_id i ∈ rs.

Lemma members_in_keys workflows r :
members_in workflows → r ∈ WorkflowItem.request_id <$> workflows → r ∈ rs.
Proof. intros H (i & -> & Hi)%list_elem_of_fmap. by apply H. Qed.

Lemma local_account_workflows outs hists error cancelled execution workflows :
members_in workflows → local rs (account_workflows outs hists error cancelled execution workflows).
Proof.
induction workflows as [|i workflows IH]; intros Hm; [apply local_ret|]. simpl.
assert (Hi : WorkflowItem.request_id i ∈ rs) by (apply Hm; left).
assert (IH' := IH (λ j Hj, Hm j (list_elem_of_further _ _ _ Hj))). clear IH.
set (r := WorkflowItem.request_id i) in *.
assert (Hset : ∀ s : RequestState.t, local_pure rs (dset r s)).
{ intros s. split; simpl; [|done|].
  - intros reqs reqs' H r' Hr'. rewrite !dget_dset. case_decide; [done|]. by apply H.
  - intros reqs r' Hr'. rewrite dget_dset. case_decide; [by subst|done]. }
assert (Hk : ∀ o, local rs (λ reqs, match o with
   | None => account_workflows outs hists error cancelled execution workflows reqs
   | Some (s, None) => account_workflows outs hists error cancelled execution workflows (dset r s reqs)
   | Some (s, Some e) => (dset r s reqs, Some e) end)).
{ intros [[s [x|]]|].
  - by apply (local_then rs (dset r s) (λ reqs, (reqs, Some x))), local_ret.
  - by apply (local_then rs (dset r s)).
  - done. }
pose (o reqs := account_workflow outs hists error cancelled execution i <$> dget r reqs).
assert (Ho : local rs (λ reqs, (reqs, o reqs))).
{ split; simpl; try done. intros reqs reqs' H. unfold o. by rewrite (H r Hi). }
pose proof (local_bind rs _ _ Ho Hk) as Hl.
assert (E : ∀ reqs, (let '(reqs, o) := (reqs, o reqs) in match o with
   | None => account_workflows outs hists error cancelled execution workflows reqs
   | Some (s, None) => account_workflows outs hists error cancelled execution workflows (dset r s reqs)
   | Some (s, Some e) => (dset r s reqs, Some e) end) =
   match dget r reqs with
   | Some s => match account_workflow outs hists error cancelled execution i s with
               | (s, None) => account_workflows outs hists error cancelled execution workflows (dset r s reqs)
               | (s, Some e) => (dset r s reqs, Some e) end
   | None => account_workflows outs hists error cancelled execution workflows reqs end).
{ intros reqs. unfold o. by destruct (dget r reqs). }
destruct Hl as [L1 L2 L3]. split; intros; rewrite <-!E; auto.
Qed.

Lemma affected_agree workflows reqs reqs' :
members_in workflows → agree rs reqs reqs' → affected_requests workflows reqs = affected_requests workflows reqs'.
Proof.
intros Hm H. unfold affected_requests. f_equal.
assert (Hl : ∀ r, r ∈ WorkflowItem.request_id <$> workflows → r ∈ rs) by (intros r; by apply members_in_keys).
induction (WorkflowItem.request_id <$> workflows) as [|r l IH]; [done|].
rewrite !filter_cons, IH by (intros r' Hr'; apply Hl; by right).
assert (E : r ∈ dkeys reqs ↔ r ∈ dkeys reqs').
{ rewrite <-!dget_is_Some. by rewrite (H r) by (apply Hl; left). }
repeat case_decide; tauto.
Qed.

Lemma local_handle outs hists error cancelled execution workflows batch_id nodes :
members_in workflows →
local rs (handle_batch_results to_str outs hists error cancelled execution workflows batch_id nodes).
Proof.
intros Hm.
set (finish affected reqs :=
  (foldl (λ reqs r, on_request r (finish_request to_str) reqs)
     match error, nodes with
     | Some _, _ :: _ =>
          foldl (λ reqs r, on_request r (RequestState.append_error
            [("batch_id", opt_val batch_id); ("execution_request_id", opt_val execution);
             ("task_node_map", VDict ((λ kv, (kv.1, VStr kv.2)) <$> nodes))]) reqs) reqs affected
     | _, _ => reqs
     end affected, None : option exn)).
apply (local_bind_post rs (λ affected, ∀ r, r ∈ affected → r ∈ rs)
  (λ reqs, (reqs, affected_requests workflows reqs))
  (λ reqs affected, match account_workflows outs hists error cancelled execution workflows reqs with
     | (reqs, Some e) => (reqs, Some e) | (reqs, None) => finish affected reqs end)).
- split; simpl; try done. intros reqs reqs'. by apply affected_agree.
- intros reqs r. simpl. unfold affected_requests. rewrite elem_of_remove_dups, list_elem_of_filter.
  intros [_ Hr]. by apply (members_in_keys workflows).
- intros affected Haff.
  apply (local_match_exn rs _ (finish affected) (λ x reqs, (reqs, Some x))).
  + by apply local_account_workflows.
  + unfold finish.
    assert (Hf : local_pure rs (λ reqs, foldl (λ reqs r, on_request r (finish_request to_str) reqs) reqs affected))
      by (apply local_foldl; intros r Hr; apply local_on_request; auto).
    assert (Hr : local rs (λ reqs, (foldl (λ reqs r, on_request r (finish_request to_str) reqs) reqs affected, None : option exn)))
      by (by apply (local_then rs _ (λ reqs, (reqs, None : option exn)) Hf), local_ret).
    destruct error as [text|]; [|exact Hr]. destruct nodes as [|kv nodes]; [exact Hr|].
    refine (local_then rs (λ reqs, foldl _ reqs affected) _ _ Hr).
    apply local_foldl. intros r Hr'. apply local_on_request; auto.
  + intros x. apply local_ret.
Qed.
End pieces.

Definition outcome_lambdas (o : ProcessOutcome) : list (WorkflowItem.t * string) :=
  match o with Produced lambdas _ _ | ProcessFailed lambdas _ => lambdas | _ => [] end.

(** The list-lambda outputs an execution records are those of its batch. *)
Definition lambdas_of (e : Execution.t) (workflows : list WorkflowItem.t) : Prop :=
  Forall (λ wn, wn.1 ∈ workflows) (outcome_lambdas (Execution.outcome e)).

Section run.
Context (to_str : val → string) (rs : list string).

Lemma local_start b workflows : members_in rs workflows → local rs (start_batch_nodes b (raw_nodes_by_request workflows)).
Proof.
intros Hm. apply local_foldE. intros [r n] Hin. apply local_on_counters.
apply (members_in_keys rs workflows); [done|]. apply raw_nodes_keys, list_elem_of_fmap. by exists (r, n).
Qed.

Lemma local_charge b n workflows :
members_in rs workflows → local rs (charge_optimized b (optimized_nodes_by_request n (raw_nodes_by_request workflows))).
Proof.
intros Hm. apply local_foldE. intros [r k] Hin. apply local_on_counters.
apply (members_in_keys rs workflows); [done|]. apply raw_nodes_keys, (optimized_keys n).
apply list_elem_of_fmap. by exists (r, k).
Qed.

Lemma local_finish b retry workflows :
members_in rs workflows → local rs (finish_batch_nodes b retry (dkeys (raw_nodes_by_request workflows))).
Proof.
intros Hm. apply local_foldE. intros r Hr. apply local_on_counters.
apply (members_in_keys rs workflows); [done|]. by apply raw_nodes_keys.
Qed.

Lemma local_lambdas lambdas workflows :
members_in rs workflows → Forall (λ wn : WorkflowItem.t * string, wn.1 ∈ workflows) lambdas →
local_pure rs (record_lambdas lambdas).
Proof.
intros Hm Hl. apply local_foldl. intros wn Hin. apply local_on_request, Hm.
by apply (proj1 (Forall_forall _ _) Hl).
Qed.

Lemma local_fill b execution found workflows :
members_in rs workflows →
local_pure rs (fill_flowmesh_workflow_ids b execution found (remove_dups (WorkflowItem.request_id <$> workflows))).
Proof.
intros Hm. unfold fill_flowmesh_workflow_ids. destruct found as [f|]; [|apply local_ret].
apply local_foldl. intros r Hr. apply local_on_request.
apply (members_in_keys rs workflows); [done|]. by apply elem_of_remove_dups.
Qed.

Lemma local_dispatches now batch b execution workers :
members_in rs (BatchSelection.workflows batch) →
local_pure rs (record_workflow_dispatches now batch b execution workers).
Proof. intros Hm. apply local_foldl. intros i Hi. by apply local_on_request, Hm. Qed.

Lemma local_account e workflows outs hists error cancelled :
members_in rs workflows → local rs (account to_str e workflows outs hists error cancelled).
Proof. intros Hm. by apply local_handle. Qed.

#[local] Hint Resolve local_ret local_start local_charge local_finish local_account : local.

Lemma local_process e active workflows :
members_in rs active → members_in rs workflows → lambdas_of e workflows →
local rs (process_and_account to_str e active workflows).
Proof.
intros Ha Hw Hl. unfold process_and_account, lambdas_of in *.
apply (local_match_exn rs (charge e active) _ (λ x reqs, (reqs, BodyFailed false (exn_text x)))); auto with local.
- unfold charge. destruct (Execution.optimized_nodes e); auto with local.
- destruct (Execution.outcome e) as [lambdas outs hists|text|text|lambdas text]; auto with local; simpl in Hl.
  + refine (local_then rs (record_lambdas lambdas) _ _ (local_match_exn rs _ (λ reqs, (reqs, BodyDone))
      (λ x reqs, (reqs, BodyFailed false (exn_text x))) _ _ _)); auto with local.
    by apply (local_lambdas _ workflows).
  + apply (local_then rs (record_lambdas lambdas) (λ reqs, (reqs, BodyFailed false text))); auto with local. by apply (local_lambdas _ workflows).
Qed.

Lemma local_run_body e active workflows :
members_in rs active → members_in rs workflows → lambdas_of e workflows →
local rs (run_body to_str e active workflows).
Proof.
intros Ha Hw Hl. unfold run_body.
apply (local_match_exn rs (start_batch_nodes (Execution.batch_id e) (raw_nodes_by_request active))
  _ (λ x reqs, (reqs, BodyFailed false (exn_text x)))); auto with local.
destruct active as [|i active'] eqn:E.
- apply (local_match_exn rs _ (λ reqs, (reqs, BodyDone)) (λ x reqs, (reqs, BodyFailed false (exn_text x))));
    auto with local.
- destruct (Execution.profile_error e); auto with local. by apply local_process.
Qed.

Lemma local_run_except e isolate active batch r :
members_in rs (BatchSelection.workflows batch) →
local rs (λ reqs, run_except to_str e isolate active batch reqs r).
Proof.
intros Hw. unfold run_except.
assert (Hf : ∀ text, local rs (λ reqs, let '(reqs, x) := account to_str e (BatchSelection.workflows batch) [] []
    (Some text) (Execution.cancelled_after e) reqs in (reqs, ([] : list BatchSelection.t, x)))).
{ intros text. apply (local_bind rs _ (λ reqs x, (reqs, ([], x)))); auto with local. }
destruct r as [|text|at_runtime text]; auto with local.
case_match; [|done]. destruct (split_batch_by_request batch); auto with local.
Qed.

Lemma local_settle e batch isolate :
members_in rs (BatchSelection.workflows batch) → lambdas_of e (BatchSelection.workflows batch) →
local rs (settle_requests to_str e batch isolate).
Proof.
intros Hw Hl. unfold settle_requests. set (active := active_workflows e batch).
assert (Ha : members_in rs active) by (intros i [_ Hi]%list_elem_of_filter; by apply Hw).
apply (local_bind rs (run_body to_str e active (BatchSelection.workflows batch))); [by apply local_run_body|].
intros r. apply (local_bind rs (λ reqs, run_except to_str e isolate active batch reqs r)); [by apply local_run_except|].
intros rr.
refine (local_then rs (λ reqs, match active with [] => reqs | _ => _ reqs end) _ _
  (local_bind rs (finish_batch_nodes (Execution.batch_id e) (negb (is_nil rr.1)) (dkeys (raw_nodes_by_request active)))
     (λ reqs x, match x with Some _ => (reqs, (rr.1, x, false)) | None => (reqs, (rr, true)) end) _ _)).
- destruct active eqn:E; [apply local_ret|]. rewrite <-E in *. by apply local_fill.
- auto with local.
- intros [x|]; auto with local.
Qed.

Context {S : Type}.
Implicit Types (w : world (S := S)).

(** A run from a dispatched batch to the end of its [try]: on the table, it is
  the dispatch rows and then [settle_requests]. *)
Lemma run_once_requests e workers batch isolate flag w :
w_requests (run_once to_str e workers batch isolate flag w).1 =
  (settle_requests to_str e batch isolate (record_workflow_dispatches (Execution.now e) batch
     (Execution.batch_id e) (Execution.execution_request_id e) workers (w_requests w))).1 ∧
(run_once to_str e workers batch isolate flag w).2 =
  (settle_requests to_str e batch isolate (record_workflow_dispatches (Execution.now e) batch
     (Execution.batch_id e) (Execution.execution_request_id e) workers (w_requests w))).2.1.
Proof.
unfold run_once, run_batch_inner. simpl.
destruct (settle_requests _ _ _ _ _) as [reqs [[retry raised] settled]]. simpl.
by destruct settled, retry, flag.
Qed.

Lemma local_run_once e workers batch isolate :
members_in rs (BatchSelection.workflows batch) → lambdas_of e (BatchSelection.workflows batch) →
local rs (λ reqs, settle_requests to_str e batch isolate (record_workflow_dispatches (Execution.now e) batch
     (Execution.batch_id e) (Execution.execution_request_id e) workers reqs)).
Proof. intros Hw Hl. apply local_then; [by apply local_dispatches|by apply local_settle]. Qed.

Lemma local_fail_unrecorded batch error :
members_in rs (BatchSelection.workflows batch) → local_pure rs (fail_unrecorded_requests to_str batch error).
Proof.
intros Hm.
apply (local_bind_post rs (λ unrecorded, members_in rs unrecorded)
  (λ reqs, (reqs, filter (λ i, still_pending reqs i = true) (BatchSelection.workflows batch)))
  (λ reqs unrecorded, (match unrecorded with
     | [] => reqs
     | i :: l => (handle_batch_results to_str [] [] (Some (exn_text error)) [] None (i :: l) None [] reqs).1
     end, ()))).
- split; simpl; try done. intros reqs reqs' H. clear error.
  assert (Hs : ∀ i, i ∈ BatchSelection.workflows batch → still_pending reqs i = still_pending reqs' i).
  { intros i Hi. unfold still_pending. by rewrite (H _ (Hm i Hi)). }
  clear Hm. induction (BatchSelection.workflows batch) as [|i l IH]; [done|].
  rewrite !filter_cons, (Hs i) by left. rewrite IH; [done|]. intros j Hj. apply Hs. by right.
- intros reqs i [_ Hi]%list_elem_of_filter. by apply Hm.
- intros unrecorded Hu. destruct unrecorded as [|i l]; [apply local_ret|].
  apply (local_fst rs (handle_batch_results to_str [] [] (Some (exn_text error)) [] None (i :: l) None [])).
  by apply local_handle.
Qed.

(** An isolated re-run on the table. *)
Definition rerun_requests (workers : list string) (e : Execution.t) (batch : BatchSelection.t) (reqs : request_table) :
  request_table * unit :=
let '(reqs, out) :=
  settle_requests to_str e batch false (record_workflow_dispatches (Execution.now e) batch
     (Execution.batch_id e) (Execution.execution_request_id e) workers reqs) in
match out.1.2 with None => (reqs, ()) | Some x => (fail_unrecorded_requests to_str batch x reqs, ()) end.

Lemma rerun_eq workers e batch w :
w_requests (rerun to_str workers w (e, batch)) = (rerun_requests workers e batch (w_requests w)).1.
Proof.
unfold rerun, rerun_requests. destruct (run_once_requests e workers batch false false w) as [H1 H2]. simpl.
destruct (run_once _ _ _ _ _ _ _) as [w1 [retry raised]].
destruct (settle_requests _ _ _ _ _) as [reqs [rr settled]]. simpl in *. subst rr. simpl.
destruct raised; simpl; by rewrite H1.
Qed.

(** It touches its own requests only, and what it makes of them depends on
  nothing else. *)
Lemma local_rerun workers e batch :
members_in rs (BatchSelection.workflows batch) → lambdas_of e (BatchSelection.workflows batch) →
local rs (rerun_requests workers e batch).
Proof.
intros Hw Hl. apply (local_bind rs _ (λ reqs out, match out.1.2 with
  | None => (reqs, ()) | Some x => (fail_unrecorded_requests to_str batch x reqs, ()) end)
  (local_run_once e workers batch false Hw Hl)).
intros [[retry [x|]] settled]; simpl; [by apply local_fail_unrecorded|apply local_ret].
Qed.
End run.

(** ** A failed joint run is undone

    Entering the batch, charging its optimized nodes and leaving it with
    [retry] gives every request its counters back. *)

Definition rows_only (reqs reqs' : request_table) : Prop :=
  ∀ r s, dget r reqs = Some s → ∃ rows, dget r reqs' = Some (RequestState.set_dispatches rows s).

#[export] Instance rows_only_preorder : PreOrder rows_only.
Proof.
  split.
  - intros reqs r s Hr. exists (RequestState.workflow_dispatches s). rewrite Hr. by destruct s.
  - intros reqs1 reqs2 reqs3 H1 H2 r s Hr. destruct (H1 r s Hr) as [rows1 Hr1].
    destruct (H2 _ _ Hr1) as [rows2 Hr2]. exists rows2. by rewrite Hr2.
Qed.

Lemma rows_only_foldl {A} (key : A → string) (rows : A → RequestState.t → list WorkflowDispatch.t) l reqs :
  rows_only reqs (foldl (λ reqs a, on_request (key a) (λ s, RequestState.set_dispatches (rows a s) s) reqs) reqs l).
Proof.
  revert reqs. induction l as [|a l IH]; intros reqs; [done|]. simpl. etrans; [|apply IH].
  intros r s Hr. rewrite on_request_get, Hr. case_decide as D.
  - subst r. rewrite Hr. by eexists.
  - exists (RequestState.workflow_dispatches s). by destruct s.
Qed.

Lemma record_rows_only now batch b execution workers reqs :
  rows_only reqs (record_workflow_dispatches now batch b execution workers reqs).
Proof. apply rows_only_foldl. Qed.

Lemma fill_rows_only b execution found rs reqs :
  rows_only reqs (fill_flowmesh_workflow_ids b execution found rs reqs).
Proof. unfold fill_flowmesh_workflow_ids. destruct found; [apply rows_only_foldl|done]. Qed.

Section counters_loop.
Context {A : Type} (key : A → string) (f : A → Counters.t → Counters.t * option exn).

Definition counters_loop (l : list A) (reqs : request_table) : request_table * option exn :=
foldE (λ reqs a, on_counters (key a) (f a) reqs) reqs l.

Lemma on_counters_get a reqs reqs' e r s :
on_counters (key a) (f a) reqs = (reqs', e) → dget r reqs = Some s →
dget r reqs' = Some (if decide (r = key a) then RequestState.set_counters (f a (RequestState.counters s)).1 s else s).
Proof.
unfold on_counters. intros E Hr. destruct (dget (key a) reqs) as [sa|] eqn:Ea.
- destruct (f a _) as [c x] eqn:Ef. injection E as <- <-. rewrite dget_dset.
  case_decide; [|done]. subst r. rewrite Hr in Ea. injection Ea as <-. by rewrite Ef.
- injection E as <- <-. rewrite Hr. f_equal. case_decide; [by subst r; rewrite Hr in Ea|done].
Qed.

(** Each request is visited once: its counters change by its own step. *)
Lemma counters_loop_get l reqs reqs' r s :
NoDup (key <$> l) → counters_loop l reqs = (reqs', None) → dget r reqs = Some s →
(r ∉ key <$> l ∧ dget r reqs' = Some s) ∨
(∃ a c, a ∈ l ∧ key a = r ∧ f a (RequestState.counters s) = (c, None) ∧
   dget r reqs' = Some (RequestState.set_counters c s)).
Proof.
unfold counters_loop. revert reqs s. induction l as [|a l IH]; intros reqs s Hnd E Hr.
- simpl in E. injection E as <-. left. split; [apply not_elem_of_nil|done].
- csimpl in *. apply NoDup_cons in Hnd as [Ha Hnd].
  destruct (on_counters (key a) (f a) reqs) as [reqs1 [x|]] eqn:E1; [done|].
  pose proof (on_counters_get _ _ _ _ _ _ E1 Hr) as Hr1.
  destruct (IH _ _ Hnd E Hr1) as [[Hn Hr']|(b & c & Hb & Hk & Hf & Hr')]; case_decide as D.
  + right. subst r. unfold on_counters in E1. rewrite Hr in E1.
    destruct (f a (RequestState.counters s)) as [c x] eqn:Ef. injection E1 as _ ->.
    exists a, c. split_and!; [left|done|done|exact Hr'].
  + left. split; [|done]. by apply not_elem_of_cons.
  + subst r. destruct Ha. apply list_elem_of_fmap. exists b. done.
  + right. exists b, c. split_and!; try done. by right.
Qed.

(** A loop whose steps keep [Q] and cannot raise on counters that satisfy it. *)
Lemma counters_loop_total (Q : Counters.t → Prop) l reqs :
(∀ a c, a ∈ l → Q c → (f a c).2 = None ∧ Q (f a c).1) →
(∀ r s, dget r reqs = Some s → Q (RequestState.counters s)) →
(counters_loop l reqs).2 = None.
Proof.
unfold counters_loop. revert reqs. induction l as [|a l IH]; intros reqs Hf HQ; [done|]. simpl.
destruct (on_counters (key a) (f a) reqs) as [reqs1 x] eqn:E1. unfold on_counters in E1.
destruct (dget (key a) reqs) as [s|] eqn:E.
- destruct (Hf a (RequestState.counters s) (list_elem_of_here _ _) (HQ _ _ E)) as [H1 H2].
  destruct (f a _) as [c y]. simpl in *. injection E1 as <- <-. subst y.
  apply IH; [intros b c' Hb; apply Hf; by right|]. intros r s'. rewrite dget_dset. case_decide; [|apply HQ].
  by intros [= <-].
- injection E1 as <- <-. apply IH; [intros b c' Hb; apply Hf; by right|done].
Qed.
End counters_loop.

(** The counters of a request that has not entered batch [b]. *)
Definition not_in_batch (b : string) (s : RequestState.t) : Prop :=
  b ∉ dkeys (Counters.batch_node_counts (RequestState.counters s)).

Lemma start_get b workflows reqs reqs' r s :
  start_batch_nodes b (raw_nodes_by_request workflows) reqs = (reqs', None) → dget r reqs = Some s →
  (r ∉ dkeys (raw_nodes_by_request workflows) ∧ dget r reqs' = Some s) ∨
  (∃ n c, r ∈ dkeys (raw_nodes_by_request workflows) ∧ start_nodes b n (RequestState.counters s) = Ok c ∧
     dget r reqs' = Some (RequestState.set_counters c s)).
Proof.
  intros E Hr.
  destruct (counters_loop_get fst (λ (rn : string * Z) c, keep c (start_nodes b rn.2 c)) _ _ _ _ _
    (raw_nodes_wf workflows) E Hr) as [H|([r' n] & c & Ha & Hk & Hf & Hr')]; [by left|right].
  simpl in *. subst r'. exists n, c. split; [apply list_elem_of_fmap; by exists (r, n)|]. split; [|done].
  destruct (start_nodes b n _); simpl in Hf; [by injection Hf as ->|done].
Qed.

Lemma dict_wf_spread R order (shares : dict string Z) : dict_wf shares → dict_wf (spread_remainder R order shares).
Proof.
  revert R shares. induction order as [|o order IH]; intros R shares H; simpl; [done|].
  case_match; [done|]. by apply IH, dict_wf_dset.
Qed.

Lemma charge_get e workflows reqs reqs' r s :
  charge e workflows reqs = (reqs', None) → dget r reqs = Some s →
  dget r reqs' = Some s ∨
  (∃ n c, r ∈ dkeys (raw_nodes_by_request workflows) ∧
     record_optimized (Execution.batch_id e) n (RequestState.counters s) = Ok c ∧
     dget r reqs' = Some (RequestState.set_counters c s)).
Proof.
  unfold charge. destruct (Execution.optimized_nodes e) as [total|]; [|intros [= <-]; by left].
  intros E Hr. set (shares := optimized_nodes_by_request _ _) in E.
  assert (Hw : NoDup (fst <$> shares)) by apply dict_wf_spread, dict_wf_of.
  destruct (counters_loop_get fst (λ (rn : string * Z) c, keep c (record_optimized (Execution.batch_id e) rn.2 c))
    _ _ _ _ _ Hw E Hr) as [[_ H]|([r' n] & c & Ha & Hk & Hf & Hr')]; [by left|right].
  simpl in *. subst r'. exists n, c. split; [|split; [|done]].
  - apply (optimized_keys total), list_elem_of_fmap. by exists (r, n).
  - destruct (record_optimized _ n _); simpl in Hf; [by injection Hf as ->|done].
Qed.

Lemma retry_finish_total b keys reqs : (finish_batch_nodes b true keys reqs).2 = None.
Proof.
  apply (counters_loop_total id (λ _, finish_nodes b true) (λ _, True)); [|done].
  intros r c _ _. split; [|done]. unfold finish_nodes. destruct (dget _ _) as [[raw opt]|]; [|done]. by destruct c.
Qed.

(** Leaving a batch for a retry right after entering it. *)
Lemma start_then_retry b n c c1 :
  b ∉ dkeys (Counters.batch_node_counts c) → start_nodes b n c = Ok c1 → (finish_nodes b true c1).1 = c.
Proof.
  intros Hb E. unfold start_nodes in E. case_match; [done|]. injection E as <-. unfold finish_nodes. simpl.
  rewrite dget_dset_eq. simpl. rewrite dset_new, ddel_filter, filter_app by done.
  rewrite filter_everything by (intros [k v] Hk Hk'; simpl in Hk'; subst k; apply Hb, list_elem_of_fmap; by exists (b, v)).
  rewrite filter_cons_False by naive_solver. rewrite filter_nil, app_nil_r.
  destruct c as [p pr po pd pdo counts]. simpl. f_equal; lia.
Qed.

Lemma start_charge_retry b n m c c1 c2 :
  b ∉ dkeys (Counters.batch_node_counts c) → start_nodes b n c = Ok c1 → record_optimized b m c1 = Ok c2 →
  (finish_nodes b true c2).1 = c.
Proof.
  intros Hb E1 E2. rewrite <-(start_then_retry b n c c1) by done. unfold start_nodes in E1. case_match; [done|].
  injection E1 as <-. unfold record_optimized in E2. simpl in E2. rewrite dget_dset_eq in E2. simpl in E2.
  injection E2 as <-. unfold finish_nodes. simpl. rewrite !dget_dset_eq. simpl.
  rewrite (dset_new b _ (Counters.batch_node_counts c)), !ddel_filter by done.
  assert (E : ∀ k v (d : dict string (Z * Z)), filter (λ kv, kv.1 ≠ k) (dset k v d) = filter (λ kv, kv.1 ≠ k) d).
  { intros k v d. rewrite <-!ddel_filter. induction d as [|[k' v'] d IH]; simpl; [by rewrite decide_True|].
    case_decide; simpl; [by rewrite decide_True|by rewrite decide_False, IH]. }
  rewrite E. f_equal. lia.
Qed.

(** The body fails at runtime after all nodes have entered and are charged. *)
Lemma run_body_runtime to_str e active workflows reqs reqs' text :
  run_body to_str e active workflows reqs = (reqs', BodyFailed true text) →
  active ≠ [] ∧ Execution.outcome e = RuntimeExecutionError_ text ∧ ∃ reqs1,
    start_batch_nodes (Execution.batch_id e) (raw_nodes_by_request active) reqs = (reqs1, None) ∧
    charge e active reqs1 = (reqs', None).
Proof.
  unfold run_body. destruct (start_batch_nodes _ _ reqs) as [reqs1 [x|]]; [done|].
  destruct active as [|i l] eqn:El; [by destruct (account _ _ _ _ _ _ _ _) as [? []]|]. rewrite <-El in *.
  destruct (Execution.profile_error e); [done|]. unfold process_and_account.
  destruct (charge e active reqs1) as [reqs2 [x|]] eqn:Ec; [done|]. intros E.
  split; [by subst|].
  destruct (Execution.outcome e); try done; [by destruct (account _ _ _ _ _ _ _ _) as [? []]|].
  injection E as <- ->. split; [done|]. by exists reqs1.
Qed.

Lemma run_except_retry to_str e isolate active batch reqs r reqs' retry raised :
  run_except to_str e isolate active batch reqs r = (reqs', (retry, raised)) → retry ≠ [] →
  reqs' = reqs ∧ raised = None ∧ isolate = true ∧ split_batch_by_request batch = Ok retry ∧
  ∃ text, r = BodyFailed true text.
Proof.
  unfold run_except. intros E Hn.
  destruct r as [|text|at_runtime text]; [by injection E as _ <- _| |].
  { destruct (account _ _ _ _ _ _ _ _); by injection E as _ <- _. }
  destruct (at_runtime && isolate && _)%bool eqn:Ei.
  2: { destruct (account _ _ _ _ _ _ _ _); by injection E as _ <- _. }
  apply andb_true_iff in Ei as [[-> ->]%andb_true_iff _].
  destruct (split_batch_by_request batch) as [l|x]; injection E as <- <- <-; [|done].
  split_and!; try done. by exists text.
Qed.

(** How a run came to hand out re-runs. *)
Lemma retry_inv to_str e batch isolate reqs reqs' retry raised settled :
  settle_requests to_str e batch isolate reqs = (reqs', (retry, raised, settled)) → retry ≠ [] →
  let active := active_workflows e batch in
  isolate = true ∧ split_batch_by_request batch = Ok retry ∧ raised = None ∧ settled = true ∧
  (∃ text, Execution.outcome e = RuntimeExecutionError_ text) ∧
  ∃ reqs1 reqs2,
    start_batch_nodes (Execution.batch_id e) (raw_nodes_by_request active) reqs = (reqs1, None) ∧
    charge e active reqs1 = (reqs2, None) ∧
    reqs' = (finish_batch_nodes (Execution.batch_id e) true (dkeys (raw_nodes_by_request active))
      (fill_flowmesh_workflow_ids (Execution.batch_id e) (Execution.execution_request_id e)
         (Execution.flowmesh_workflow_id e) (remove_dups (WorkflowItem.request_id <$> active)) reqs2)).1.
Proof.
  cbv zeta. unfold settle_requests. set (active := active_workflows e batch). intros E Hn.
  destruct (run_body to_str e active _ reqs) as [reqs2 r] eqn:Eb.
  destruct (run_except to_str e isolate active batch reqs2 r) as [reqs3 [retry' raised']] eqn:Ee.
  assert (Hr : retry = retry') by (destruct (finish_batch_nodes _ _ _ _) as [? [x|]]; by injection E).
  subst retry'.
  destruct (run_except_retry _ _ _ _ _ _ _ _ _ _ Ee Hn) as (-> & -> & -> & Hs & text & ->).
  destruct (run_body_runtime _ _ _ _ _ _ _ Eb) as (Ha & Ho & reqs1 & Hb1 & Hb2).
  destruct retry as [|b0 retry]; [done|]. simpl in E.
  match type of E with context [finish_batch_nodes ?b ?f ?k ?t] =>
    pose proof (retry_finish_total b k t) as Hf; simpl in Hf; destruct (finish_batch_nodes b f k t) as [reqs4 x] eqn:Ef end.
  simpl in Hf. subst x. injection E as <- <- <-. split_and!; try done; [by eexists|]. exists reqs1, reqs2. split_and!; try done.
  destruct active; [done|]. by rewrite Ef.
Qed.

(** Hence the joint run changed nothing but dispatch rows. *)
Lemma retry_undoes to_str e batch isolate reqs reqs' retry raised settled r s :
  settle_requests to_str e batch isolate reqs = (reqs', (retry, raised, settled)) → retry ≠ [] →
  dget r reqs = Some s → not_in_batch (Execution.batch_id e) s →
  ∃ rows, dget r reqs' = Some (RequestState.set_dispatches rows s).
Proof.
  intros E Hn Hr Hb. destruct (retry_inv _ _ _ _ _ _ _ _ _ E Hn) as (_ & _ & _ & _ & _ & reqs1 & reqs2 & E1 & E2 & ->).
  set (b := Execution.batch_id e) in *. set (active := active_workflows e batch) in *.
  unfold not_in_batch in Hb.
  match goal with |- context [finish_batch_nodes b true ?k ?t] => set (reqs3 := t); set (ks := k) end.
  pose proof (fill_rows_only b (Execution.execution_request_id e) (Execution.flowmesh_workflow_id e)
    (remove_dups (WorkflowItem.request_id <$> active)) reqs2) as Hfill.
  assert (Hfin : ∀ s3, dget r reqs3 = Some s3 →
    (r ∉ ks ∧ dget r (finish_batch_nodes b true ks reqs3).1 = Some s3) ∨
    (r ∈ ks ∧ dget r (finish_batch_nodes b true ks reqs3).1 =
       Some (RequestState.set_counters (finish_nodes b true (RequestState.counters s3)).1 s3))).
  { intros s3 Hr3. pose proof (retry_finish_total b ks reqs3) as Ht.
    destruct (finish_batch_nodes b true ks reqs3) as [reqs4 x] eqn:Ef. simpl in Ht. subst x.
    assert (Hk : NoDup (id <$> ks)) by (rewrite list_fmap_id; apply raw_nodes_wf).
    destruct (counters_loop_get id (λ _, finish_nodes b true) ks _ _ _ _ Hk Ef Hr3)
      as [[H1 H2]|(r' & c & H1 & H2 & H3 & H4)]; [left|right].
    - rewrite list_fmap_id in H1. done.
    - unfold id in H2. subst r'. split; [done|]. simpl. by rewrite H3. }
  destruct (start_get _ _ _ _ _ _ E1 Hr) as [[Hk Hr1]|(n & c & Hk & Es & Hr1)];
    (destruct (charge_get _ _ _ _ _ _ E2 Hr1) as [Hr2|(m & c2 & Hk2 & Ec & Hr2)]; [|try done]);
    destruct (Hfill _ _ Hr2) as [rows Hr3]; exists rows;
    destruct (Hfin _ Hr3) as [[Hk3 ->]|[Hk3 ->]]; try done; f_equal; simpl in *.
  - rewrite (start_then_retry b n (RequestState.counters s) c) by done. by destruct s.
  - rewrite (start_charge_retry b n m (RequestState.counters s) c c2) by done. by destruct s.
Qed.

(** ** The re-runs *)

(** A batch that runs the members of [batch] that belong to request [r]. *)
Definition batch_of (batch : BatchSelection.t) (r : string) (b : BatchSelection.t) : Prop :=
  BatchSelection.workflows b = filter (λ i, WorkflowItem.request_id i = r) (BatchSelection.workflows batch).

Lemma batch_of_members batch r b : batch_of batch r b → members_in [r] (BatchSelection.workflows b).
Proof. intros -> i [<- _]%list_elem_of_filter. by apply list_elem_of_singleton. Qed.

(** The retried batches are those of the requests of the batch, one each. *)
Lemma split_groups batch retry :
  split_batch_by_request batch = Ok retry →
  ∃ ks, NoDup ks ∧ (∀ r, r ∈ ks ↔ r ∈ WorkflowItem.request_id <$> BatchSelection.workflows batch) ∧
    Forall2 (batch_of batch) ks retry.
Proof.
  intros H%mapR_ok_inv. set (groups := group_by WorkflowItem.request_id (BatchSelection.workflows batch)) in *.
  exists (dkeys groups). split; [apply group_by_wf|]. split.
  - intros r. unfold groups. rewrite group_by_keys, list_elem_of_fmap. naive_solver.
  - unfold dvals in H. apply Forall2_fmap_l in H. apply Forall2_fmap_l.
    apply Forall2_same_length_lookup in H as [Hl H]. apply Forall2_same_length_lookup_2; [done|].
    intros j [k ws] b Hj Hb. specialize (H _ _ _ Hj Hb). simpl in *.
    apply result_bind_ok in H as (g1 & _ & H). apply result_bind_ok in H as (g2 & _ & H).
    injection H as <-. unfold batch_of. simpl.
    by apply list_elem_of_lookup_2, group_by_entry in Hj as [-> _].
Qed.

Section reruns.
Context (to_str : val → string) {S : Type} (workers : list string).
Implicit Types (w : world (S := S)).

(** The re-runs of distinct requests one after the other. *)
Lemma fold_reruns ks ebs w :
NoDup ks →
Forall2 (λ k eb, members_in [k] (BatchSelection.workflows eb.2) ∧ lambdas_of eb.1 (BatchSelection.workflows eb.2)) ks ebs →
let w' := foldl (rerun to_str workers) w ebs in
(∀ r, r ∉ ks → dget r (w_requests w') = dget r (w_requests w)) ∧
(∀ j k eb w1, ks !! j = Some k → ebs !! j = Some eb → dget k (w_requests w1) = dget k (w_requests w) →
   dget k (w_requests w') = dget k (w_requests (rerun to_str workers w1 eb))).
Proof.
intros Hnd H. revert w Hnd. induction H as [|k [e b] ks ebs [Hm Hl] _ IH]; intros w Hnd; [done|].
apply NoDup_cons in Hnd as [Hk Hnd]. simpl.
pose proof (local_rerun to_str [k] workers e b Hm Hl) as L.
destruct (IH (rerun to_str workers w (e, b)) Hnd) as [IH1 IH2]. split.
- intros r Hr%not_elem_of_cons. destruct Hr as [Hr1 Hr2]. rewrite IH1 by done. rewrite rerun_eq.
  apply (local_others _ _ L). by rewrite list_elem_of_singleton.
- intros [|j] k' eb w1 Hk' Heb Hw1; simpl in Hk', Heb.
  + injection Hk' as <-. injection Heb as <-. rewrite IH1 by done. rewrite !rerun_eq.
    apply (local_agree _ _ L); [|by apply list_elem_of_singleton].
    by intros r ->%list_elem_of_singleton.
  + apply (IH2 j k' eb w1 Hk' Heb). rewrite Hw1, rerun_eq. symmetry.
    apply (local_others _ _ L). rewrite list_elem_of_singleton. intros ->.
    by apply Hk, (list_elem_of_lookup_2 _ j).
Qed.
End reruns.

(** C4: when the joint run of several requests fails at runtime and they are
    re-run, every request of the batch ends exactly as its own re-run leaves
    it in a world that knows no other request, started from the state it had
    before the joint run but for the dispatch rows: neither the failed joint
    run nor the other members have any influence on it.  Requests outside the
    batch are not touched. *)
Theorem failed_requests_are_isolated to_str {S : Type} e reruns workers batch (w : world (S := S)) retry :
  (run_once to_str e workers batch true true w).2 = (retry, None) → retry ≠ [] →
  (∀ r s, dget r (w_requests w) = Some s → not_in_batch (Execution.batch_id e) s) →
  Forall2 (λ e' b, lambdas_of e' (BatchSelection.workflows b)) reruns retry →
  let w' := (run_batch to_str e reruns workers batch w).1 in
  (∀ r s, dget r (w_requests w) = Some s → r ∈ WorkflowItem.request_id <$> BatchSelection.workflows batch →
     ∃ e' b rows, e' ∈ reruns ∧ batch_of batch r b ∧
       ∀ w1 : world (S := S), w_requests w1 = [(r, RequestState.set_dispatches rows s)] →
         dget r (w_requests w') = dget r (w_requests (rerun to_str workers w1 (e', b)))) ∧
  (∀ r, r ∉ WorkflowItem.request_id <$> BatchSelection.workflows batch →
     dget r (w_requests w') = dget r (w_requests w)).
Proof.
  intros E Hn Hb Hl. cbv zeta.
  destruct (run_once_requests to_str e workers batch true true w) as [R1 R2]. unfold run_batch.
  destruct (run_once to_str e workers batch true true w) as [w1 rr]. simpl in E, R1, R2. subst rr.
  destruct (settle_requests _ _ _ _ _) as [reqs [[retry' raised] settled]] eqn:Es. simpl in *.
  injection R2 as <- <-.
  destruct (retry_inv _ _ _ _ _ _ _ _ _ Es Hn) as (_ & Hs & _ & _ & (text & Ho) & _).
  destruct (split_groups batch retry Hs) as (ks & Hnd & Hks & Hof).
  assert (Hebs : Forall2 (λ k eb, members_in [k] (BatchSelection.workflows eb.2) ∧
      lambdas_of eb.1 (BatchSelection.workflows eb.2)) ks (zip reruns retry)).
  { apply Forall2_same_length_lookup in Hl as [Hlen Hl]. apply Forall2_same_length_lookup_2.
    - rewrite length_zip, (Forall2_length _ _ _ Hof). lia.
    - intros j k [e' b] Hj (x1 & x2 & [= <- <-] & He' & Hb')%lookup_zip_with_Some. simpl. split; [|by eapply Hl].
      by eapply batch_of_members, Forall2_lookup_lr. }
  destruct (fold_reruns to_str workers ks (zip reruns retry) w1 Hnd Hebs) as [F1 F2].
  replace (w_requests (match retry with [] => (w1, None) | _ :: _ =>
    (release workers (foldl (rerun to_str workers) w1 (zip reruns retry)), None) end).1)
    with (w_requests (foldl (rerun to_str workers) w1 (zip reruns retry))) by (by destruct retry).
  rewrite R1 in F1, F2. split.
  - intros r s Hr Hin. apply Hks, list_elem_of_lookup in Hin as [j Hj].
    destruct (Forall2_lookup_l _ _ _ _ _ Hof Hj) as (b & Hbj & Hbr).
    destruct (Forall2_lookup_r _ _ _ _ _ Hl Hbj) as (e' & Hej & _).
    destruct (record_rows_only (Execution.now e) batch (Execution.batch_id e) (Execution.execution_request_id e)
      workers (w_requests w) r s Hr) as [rows0 Hr0].
    destruct (retry_undoes _ _ _ _ _ _ _ _ _ r _ Es Hn Hr0 (Hb r s Hr)) as [rows Hr1].
    exists e', b, rows. split; [by eapply list_elem_of_lookup_2|]. split; [done|].
    intros w2 Hw2. apply (F2 j r (e', b)); [done| |].
    + apply lookup_zip_with_Some. by exists e', b.
    + rewrite Hw2, Hr1. simpl. by rewrite decide_True.
  - intros r Hr. rewrite F1 by (by rewrite Hks).
    assert (L : local (WorkflowItem.request_id <$> BatchSelection.workflows batch)
      (λ reqs, settle_requests to_str e batch true (record_workflow_dispatches (Execution.now e) batch
       (Execution.batch_id e) (Execution.execution_request_id e) workers reqs))).
    { apply local_run_once; [|by unfold lambdas_of; rewrite Ho].
      intros i Hi. apply list_elem_of_fmap. by exists i. }
    pose proof (local_others _ _ L (w_requests w) r Hr) as H. cbv beta in H. by rewrite Es in H.
Qed.

(** ** Every run accounts for its batch

    [sound F D r s]: the counters of request [r] add up, no batch of [F] has
    started, and the workflows of [D] are not pending. *)

Record sound (F : list string) (D : list WorkflowItem.t) (r : string) (s : RequestState.t) : Prop := {
  so_counters : counters_ok (RequestState.counters s);
  so_fresh b : b ∈ F → not_in_batch b s;
  so_done i : i ∈ D → WorkflowItem.request_id i = r → WorkflowItem.workflow_id i ∉ RequestState.pending_workflows s;
}.

Definition all_states (Q : string → RequestState.t → Prop) (reqs : request_table) : Prop :=
  ∀ r s, dget r reqs = Some s → Q r s.

Lemma all_states_impl (Q Q' : string → RequestState.t → Prop) reqs :
  all_states Q reqs → (∀ r s, Q r s → Q' r s) → all_states Q' reqs.
Proof. intros H HQ r s Hr. by apply HQ, H. Qed.

Lemma all_states_set (Q : string → RequestState.t → Prop) r s reqs :
  all_states Q reqs → Q r s → all_states Q (dset r s reqs).
Proof. intros H Hs r' s'. rewrite dget_dset. case_decide; [intros [= <-]; by subst|apply H]. Qed.

Lemma all_states_foldl {A} (Q : string → RequestState.t → Prop) (key : A → string) f l reqs :
  (∀ a r s, Q r s → Q r (f a s)) → all_states Q reqs →
  all_states Q (foldl (λ reqs a, on_request (key a) (f a) reqs) reqs l).
Proof.
  intros Hf. revert reqs. induction l as [|a l IH]; intros reqs H; simpl; [done|]. apply IH.
  intros r s. rewrite on_request_get. case_decide; [|apply H]. subst r.
  destruct (dget (key a) reqs) as [s0|] eqn:E; [|done]. intros [= <-]. by apply Hf, H.
Qed.

(** Only counters and pending workflows matter. *)
Lemma sound_same F D r s s' :
  RequestState.counters s' = RequestState.counters s →
  (∀ w, w ∈ RequestState.pending_workflows s' → w ∈ RequestState.pending_workflows s) →
  sound F D r s → sound F D r s'.
Proof.
  intros Hc Hp [H1 H2 H3]. split; unfold not_in_batch in *; try (by rewrite Hc).
  intros i Hi Hr Hw. by apply (H3 i Hi Hr), Hp.
Qed.

Lemma sound_weaken F F' D D' r s : F' ⊆ F → D' ⊆ D → sound F D r s → sound F' D' r s.
Proof. intros HF HD [H1 H2 H3]. split; eauto. Qed.

Section counters_states.
Context {A : Type} (key : A → string) (f : A → Counters.t → Counters.t * option exn).

(** Each visited request goes from [Q] to [Q']. *)
Lemma counters_loop_mixed (Q Q' : string → RequestState.t → Prop) l reqs :
NoDup (key <$> l) → (∀ r s, Q r s → Q' r s) →
(∀ a s, a ∈ l → Q (key a) s → Q' (key a) (RequestState.set_counters (f a (RequestState.counters s)).1 s)) →
all_states (λ r s, if decide (r ∈ key <$> l) then Q r s else Q' r s) reqs →
all_states Q' (counters_loop key f l reqs).1.
Proof.
unfold counters_loop. intros Hnd HQ. revert reqs. induction l as [|a l IH]; intros reqs Hf H.
- eapply all_states_impl; [exact H|]. intros r s. cbv beta. case_decide; [apply HQ|done].
- csimpl in *. apply NoDup_cons in Hnd as [Ha Hnd].
  destruct (on_counters (key a) (f a) reqs) as [reqs1 x] eqn:E1.
  assert (H1 : all_states (λ r s, if decide (r ∈ key <$> l) then Q r s else Q' r s) reqs1).
  { intros r s Hr. unfold on_counters in E1. destruct (dget (key a) reqs) as [sa|] eqn:Ea.
    - pose proof (Hf a sa (list_elem_of_here _ _)) as Hfa. destruct (f a _) as [c y]. injection E1 as <- <-.
      rewrite dget_dset in Hr. destruct (decide (r = key a)) as [->|Hne].
      + injection Hr as <-. rewrite decide_False by done. apply Hfa.
        specialize (H _ _ Ea). cbv beta in H. by rewrite decide_True in H by left.
      + specialize (H _ _ Hr). cbv beta in H. repeat case_decide; try done; set_solver.
    - injection E1 as <- <-. pose proof (H _ _ Hr) as Hs. cbv beta in Hs. destruct (decide (r ∈ key <$> l)).
      + by rewrite decide_True in Hs by by right.
      + case_decide; [by apply HQ|done]. }
  destruct x as [x|].
  + eapply all_states_impl; [exact H1|]. intros r s. cbv beta. case_decide; [apply HQ|done].
  + apply IH; try done. intros b s Hb. apply Hf. by right.
Qed.

Lemma counters_loop_states (Q Q' : string → RequestState.t → Prop) l reqs :
NoDup (key <$> l) → (∀ r s, Q r s → Q' r s) →
(∀ a s, a ∈ l → Q (key a) s → Q' (key a) (RequestState.set_counters (f a (RequestState.counters s)).1 s)) →
all_states Q reqs → all_states Q' (counters_loop key f l reqs).1.
Proof.
intros Hnd HQ Hf H. apply (counters_loop_mixed Q Q'); try done.
eapply all_states_impl; [exact H|]. intros r s. cbv beta. case_decide; [done|apply HQ].
Qed.
End counters_states.

Lemma raw_nodes_nonneg workflows r n : (r, n) ∈ raw_nodes_by_request workflows → (0 <= n)%Z.
Proof.
  unfold raw_nodes_by_request.
  assert (H : ∀ k v, (k, v) ∈ ([] : dict string Z) → (0 <= v)%Z) by (intros k v ?%elem_of_nil; done).
  revert H. generalize ([] : dict string Z) as d. induction workflows as [|i l IH]; intros d H Hin; simpl in *; [by eapply H|].
  eapply IH, Hin. intros k v [[-> ->]|Hk]%elem_of_dset; [|by eapply H].
  unfold RuntimeGraph.node_count, dget_or. destruct (dget _ d) as [m|] eqn:E; [|lia].
  apply dget_elem, H in E. lia.
Qed.

(** Entering the batch. *)
Lemma start_states b F D workflows reqs :
  b ∉ F → all_states (sound (b :: F) D) reqs →
  all_states (sound F D) (start_batch_nodes b (raw_nodes_by_request workflows) reqs).1.
Proof.
  intros HbF. apply (counters_loop_states fst (λ (rn : string * Z) c, keep c (start_nodes b rn.2 c))
    (sound (b :: F) D) (sound F D)).
  - apply raw_nodes_wf.
  - intros r s. apply sound_weaken; [by right|done].
  - intros [r n] s Hin [H1 H2 H3]. simpl. destruct (start_nodes b n _) as [c|x] eqn:E; simpl.
    + destruct (node_step_ok (RequestState.counters s) c) as [Hok _];
        [apply (NodeStart b n); [apply H2; left|by eapply raw_nodes_nonneg|done]|done|].
      split; simpl; [done| |done]. intros b' Hb'. pose proof (H2 b' (list_elem_of_further _ _ _ Hb')) as Hf.
      unfold not_in_batch in *. simpl. unfold start_nodes in E. case_match; [done|]. injection E as <-. simpl.
      rewrite elem_of_dkeys_dset. intros [->|?]; done.
    + replace (RequestState.set_counters (RequestState.counters s) s) with s by (by destruct s).
      split; [done| |done]. intros b' Hb'. apply H2. by right.
Qed.

(** Charging the optimized nodes. *)
Lemma foldr_add_nonneg l : Forall (λ z, 0 <= z)%Z l → (0 <= foldr Z.add 0 l)%Z.
Proof. induction 1; simpl; lia. Qed.

Lemma spread_nonneg R order (shares : dict string Z) :
  (∀ r n, (r, n) ∈ shares → (0 <= n)%Z) → ∀ r n, (r, n) ∈ spread_remainder R order shares → (0 <= n)%Z.
Proof.
  revert R shares. induction order as [|o order IH]; intros R shares H r n; simpl; [apply H|].
  case_match; [apply H|]. apply IH. intros k v [[-> ->]|Hk]%elem_of_dset; [|by eapply H].
  unfold dget_or. destruct (dget o shares) as [m|] eqn:E; [|lia]. apply dget_elem, H in E. lia.
Qed.

Lemma shares_nonneg total workflows r n :
  (0 <= total)%Z → (r, n) ∈ optimized_nodes_by_request total (raw_nodes_by_request workflows) → (0 <= n)%Z.
Proof.
  intros Ht. apply spread_nonneg. clear r n. intros r n Hin%elem_of_dict_of.
  apply list_elem_of_fmap in Hin as (r' & [= -> ->] & _). unfold floor_share.
  destruct (Z.leb_spec (foldr Z.add 0%Z (dvals (raw_nodes_by_request workflows))) 0); [lia|].
  apply Z.div_pos; [|done]. apply Z.mul_nonneg_nonneg; [done|].
  unfold dget_or. destruct (dget r' _) as [m|] eqn:E; [|lia]. by eapply raw_nodes_nonneg, dget_elem.
Qed.

Lemma charge_states F D e active reqs :
  (∀ n, Execution.optimized_nodes e = Some n → (0 <= n)%Z) →
  all_states (sound F D) reqs → all_states (sound F D) (charge e active reqs).1.
Proof.
  intros He. unfold charge. destruct (Execution.optimized_nodes e) as [total|]; [|done].
  apply (counters_loop_states fst (λ (rn : string * Z) c, keep c (record_optimized (Execution.batch_id e) rn.2 c))
    (sound F D) (sound F D)); [by apply dict_wf_spread, dict_wf_of|done|].
  intros [r n] s Hin [H1 H2 H3]. simpl. destruct (record_optimized _ n _) as [c|x] eqn:E; simpl.
  - destruct (node_step_ok (RequestState.counters s) c) as [Hok _];
      [apply (NodeOptimized (Execution.batch_id e) n); [eapply shares_nonneg; eauto|done]|done|].
    split; simpl; [done| |done]. intros b Hb. specialize (H2 b Hb). unfold not_in_batch in *. simpl.
    unfold record_optimized in E. destruct (dget _ _) as [[raw opt]|] eqn:Ed; [|done]. case_match; [done|].
    injection E as <-. simpl. rewrite elem_of_dkeys_dset. intros [->|?]; [|done].
    apply H2, dget_is_Some. by eexists.
  - by destruct s.
Qed.

(** Leaving it. *)
Lemma finish_states F D b retry keys reqs :
  NoDup keys → all_states (sound F D) reqs →
  (finish_batch_nodes b retry keys reqs).2 = None ∧
  all_states (sound F D) (finish_batch_nodes b retry keys reqs).1.
Proof.
  intros Hnd H. split.
  - apply (counters_loop_total id (λ _, finish_nodes b retry) counters_ok).
    + intros r c _ Hc. split; [by apply finish_never_raises|].
      apply (node_step_ok c); [|done]. apply (NodeFinish b retry _ _ (finish_nodes b retry c).2).
      by destruct (finish_nodes b retry c).
    + intros r s Hr. by apply (so_counters _ _ _ _ (H r s Hr)).
  - apply (counters_loop_states id (λ _, finish_nodes b retry) (sound F D)); try done.
    { by rewrite list_fmap_id. }
    intros r s _ [H1 H2 H3]. destruct (finish_nodes b retry (RequestState.counters s)) as [c x] eqn:E. simpl.
    destruct (node_step_ok (RequestState.counters s) c) as [Hok _]; [by eapply NodeFinish|done|].
    split; simpl; [done| |done]. intros b' Hb'. specialize (H2 b' Hb'). unfold not_in_batch in *. simpl.
    unfold finish_nodes in E. destruct (dget b _) as [[raw opt]|]; [|by injection E as <- _].
    enough (Hk : Counters.batch_node_counts c = ddel b (Counters.batch_node_counts (RequestState.counters s))).
    { rewrite Hk, dkeys_ddel, list_elem_of_filter. tauto. }
    destruct (RequestState.counters s) as [p pr po pd pdo counts]. simpl in *.
    repeat case_match; by injection E as <- _.
Qed.

(** Accounting. *)
Section accounting.
Context (outs hists : outputs) (error : option string) (cancelled : list string) (execution : option string).
Let accounts := account_workflows outs hists error cancelled execution.

Lemma account_states F D workflows reqs :
all_states (sound F D) reqs →
all_states (sound F match (accounts workflows reqs).2 with None => D ++ workflows | Some _ => D end)
  (accounts workflows reqs).1.
Proof.
unfold accounts. revert D reqs. induction workflows as [|i workflows IH]; intros D reqs H; simpl.
{ by rewrite app_nil_r. }
destruct (dget (WorkflowItem.request_id i) reqs) as [s|] eqn:Ei.
- destruct (account_workflow_spec outs hists error cancelled execution i s) as (_ & _ & A1 & A2).
  destruct (account_workflow _ _ _ _ _ i s) as [s1 [x|]]; simpl in *.
  + apply all_states_set; [done|]. apply (sound_same F D _ s); [done| |by apply H]. by rewrite A2.
  + specialize (IH (D ++ [i]) (dset (WorkflowItem.request_id i) s1 reqs)).
    rewrite <-app_assoc in IH.
    assert (H1 : all_states (sound F (D ++ [i])) (dset (WorkflowItem.request_id i) s1 reqs)).
    { intros r s' Hr.
      assert (Hs : sound F D r s' ∧ (r = WorkflowItem.request_id i →
          WorkflowItem.workflow_id i ∉ RequestState.pending_workflows s')).
      { rewrite dget_dset in Hr. destruct (decide (r = WorkflowItem.request_id i)) as [->|Hne].
        - injection Hr as <-. split.
          + apply (sound_same F D _ s); [done| |by apply H]. rewrite A2. intros w [_ Hw]%list_elem_of_filter. done.
          + intros _. rewrite A2, list_elem_of_filter. tauto.
        - split; [by apply H|done]. }
      destruct Hs as [[S1 S2 S3] Hw]. split; try done.
      intros j [Hj| ->%list_elem_of_singleton]%elem_of_app Hr'; [by apply S3|by apply Hw]. }
    specialize (IH H1). destruct (account_workflows _ _ _ _ _ workflows _) as [reqs2 [x|]]; simpl in *; [|done].
    eapply all_states_impl; [exact IH|]. intros r s'. apply sound_weaken; [done|]. by apply list_subseteq_app_l.
- specialize (IH (D ++ [i]) reqs). rewrite <-app_assoc in IH.
  assert (H1 : all_states (sound F (D ++ [i])) reqs).
  { intros r s' Hr. destruct (H r s' Hr) as [S1 S2 S3]. split; try done.
    intros j [Hj| ->%list_elem_of_singleton]%elem_of_app Hr'; [by apply S3|]. by rewrite Hr', Hr in Ei. }
  specialize (IH H1). destruct (account_workflows _ _ _ _ _ workflows _) as [reqs2 [x|]]; simpl in *; [|done].
  eapply all_states_impl; [exact IH|]. intros r s'. apply sound_weaken; [done|]. by apply list_subseteq_app_l.
Qed.

Lemma handle_states to_str F D workflows batch_id nodes reqs :
all_states (sound F D) reqs →
let out := handle_batch_results to_str outs hists error cancelled execution workflows batch_id nodes reqs in
all_states (sound F match out.2 with None => D ++ workflows | Some _ => D end) out.1.
Proof.
intros H. cbv zeta. unfold handle_batch_results. pose proof (account_states F D workflows reqs H) as H1.
unfold accounts in H1. destruct (account_workflows _ _ _ _ _ workflows reqs) as [reqs1 [x|]]; simpl in *; [done|].
apply (all_states_foldl _ id (λ _, finish_request to_str)).
{ intros r0 r s. destruct (finish_request_spec to_str s) as (P1 & P2 & _). apply sound_same; [done|]. by rewrite P1. }
destruct error as [text|]; [|done]. destruct nodes as [|kv nodes]; [done|].
eapply (all_states_foldl _ id (λ _, RequestState.append_error _)); [|exact H1].
intros r0 r s. by apply sound_same.
Qed.

(** Without outputs nothing can go wrong. *)
Lemma handle_total to_str workflows batch_id nodes reqs :
outs = [] → hists = [] →
(handle_batch_results to_str outs hists error cancelled execution workflows batch_id nodes reqs).2 = None.
Proof.
intros -> ->. unfold handle_batch_results.
assert (H : ∀ reqs, (account_workflows [] [] error cancelled execution workflows reqs).2 = None).
{ induction workflows as [|i l IH]; intros reqs'; [done|]. simpl.
  destruct (dget (WorkflowItem.request_id i) reqs') as [s|]; [|apply IH].
  unfold account_workflow. case_bool_decide; [apply IH|]. unfold account_outputs, account_histories. simpl.
  destruct error; apply IH. }
specialize (H reqs). by destruct (account_workflows _ _ _ _ _ workflows reqs) as [reqs1 x]; simpl in H; subst x.
Qed.
End accounting.

(** What [do_reserve] hands out: every workflow with its graphs. *)
Definition batch_complete (batch : BatchSelection.t) : Prop :=
  Forall (λ w, w ∈ dkeys (BatchSelection.runtime_graphs batch) ∧ w ∈ dkeys (BatchSelection.data_profile_graphs batch))
    (ids (BatchSelection.workflows batch)).

Definition execution_ok (e : Execution.t) : Prop :=
  ∀ n, Execution.optimized_nodes e = Some n → (0 <= n)%Z.

Lemma subset_graphs_ok workflows graphs :
  Forall (λ w, w ∈ dkeys graphs) (ids workflows) → ∃ g, subset_graphs (ids workflows) graphs = Ok g.
Proof.
  intros H. unfold subset_graphs. match goal with |- context [mapR ?f _] => destruct (mapR_ok_total f (ids workflows)) as [l Hl] end.
  - eapply Forall_impl; [exact H|]. intros w [g Hg]%dget_is_Some. exists (w, g). unfold dindex. by rewrite Hg.
  - exists (dict_of l). by rewrite Hl.
Qed.

Lemma split_total batch : batch_complete batch → ∃ retry, split_batch_by_request batch = Ok retry.
Proof.
  intros H. apply mapR_ok_total, Forall_forall. intros ws Hws.
  assert (Hin : ∀ i, i ∈ ws → i ∈ BatchSelection.workflows batch).
  { apply list_elem_of_fmap in Hws as ([k ws'] & -> & [-> _]%group_by_entry). by intros i [_ Hi]%list_elem_of_filter. }
  unfold batch_complete, ids in H. rewrite Forall_fmap, Forall_forall in H.
  destruct (subset_graphs_ok ws (BatchSelection.runtime_graphs batch)) as [g1 E1].
  { apply Forall_fmap, Forall_forall. intros i Hi. by apply H, Hin. }
  destruct (subset_graphs_ok ws (BatchSelection.data_profile_graphs batch)) as [g2 E2].
  { apply Forall_fmap, Forall_forall. intros i Hi. by apply H, Hin. }
  eexists. by rewrite E1, E2.
Qed.

Section settle.
Context (to_str : val → string) (F : list string) (D : list WorkflowItem.t).

(** Done with [workflows] when [done] holds. *)
Definition settled_states (done : Prop) (workflows : list WorkflowItem.t) (reqs : request_table) : Prop :=
all_states (sound F D) reqs ∧ (done → all_states (sound F (D ++ workflows)) reqs).

Lemma account_settled e workflows outs hists error cancelled reqs :
all_states (sound F D) reqs →
let out := account to_str e workflows outs hists error cancelled reqs in
settled_states (out.2 = None) workflows out.1.
Proof.
intros H. pose proof (handle_states outs hists error cancelled (Some (Execution.execution_request_id e)) to_str F D
  workflows (Some (Execution.batch_id e)) [] reqs H) as H1. cbv zeta in *. unfold account.
destruct (handle_batch_results _ _ _ _ _ _ _ _ _ reqs) as [reqs1 [x|]]; split; simpl in *; try done.
eapply all_states_impl; [exact H1|]. intros r s. apply sound_weaken; [done|]. by apply list_subseteq_app_l.
Qed.

Lemma lambdas_states lambdas reqs : all_states (sound F D) reqs → all_states (sound F D) (record_lambdas lambdas reqs).
Proof.
apply (all_states_foldl _ (λ wn : WorkflowItem.t * string, WorkflowItem.request_id wn.1)
  (λ wn, add_lambda_output (WorkflowItem.workflow_id wn.1) wn.2)).
intros wn r s. by apply sound_same.
Qed.

Lemma run_body_settled e active workflows reqs :
Execution.batch_id e ∉ F → execution_ok e → all_states (sound (Execution.batch_id e :: F) D) reqs →
let out := run_body to_str e active workflows reqs in settled_states (out.2 = BodyDone) workflows out.1.
Proof.
intros Hb He H. cbv zeta. unfold run_body.
pose proof (start_states _ F D active reqs Hb H) as H1.
destruct (start_batch_nodes _ _ reqs) as [reqs1 [x|]]; simpl in H1; [by split|].
assert (Hacc : ∀ outs hists error cancelled reqs, all_states (sound F D) reqs →
  let out := match account to_str e workflows outs hists error cancelled reqs with
             | (reqs, None) => (reqs, BodyDone) | (reqs, Some x) => (reqs, BodyFailed false (exn_text x)) end in
  settled_states (out.2 = BodyDone) workflows out.1).
{ intros outs hists error cancelled reqs' H'.
  pose proof (account_settled e workflows outs hists error cancelled reqs' H') as Ha. cbv zeta in *.
  by destruct (account _ _ _ _ _ _ _ _) as [reqs2 [x|]]; destruct Ha as [Ha1 Ha2]; split; simpl in *; auto. }
destruct active as [|i l]; [by apply Hacc|]. destruct (Execution.profile_error e); [by split|].
unfold process_and_account. pose proof (charge_states F D e (i :: l) reqs1 He H1) as H2.
destruct (charge e (i :: l) reqs1) as [reqs2 [x|]]; simpl in H2; [by split|].
destruct (Execution.outcome e) as [lambdas outs hists|text|text|lambdas text]; [|by split..|].
- by apply Hacc, lambdas_states.
- split; [by apply lambdas_states|done].
Qed.

Lemma run_except_settled e isolate active batch reqs r :
(isolate = true → batch_complete batch) → settled_states (r = BodyDone) (BatchSelection.workflows batch) reqs →
let out := run_except to_str e isolate active batch reqs r in
settled_states (out.2.1 = []) (BatchSelection.workflows batch) out.1 ∧ out.2.2 = None.
Proof.
intros Hc [H1 H2]. cbv zeta. unfold run_except.
assert (Hfail : ∀ text, let out := (let '(reqs, x) := account to_str e (BatchSelection.workflows batch) [] [] (Some text)
    (Execution.cancelled_after e) reqs in (reqs, ([] : list BatchSelection.t, x))) in
  settled_states (out.2.1 = []) (BatchSelection.workflows batch) out.1 ∧ out.2.2 = None).
{ intros text. cbv zeta.
  pose proof (account_settled e (BatchSelection.workflows batch) [] [] (Some text) (Execution.cancelled_after e) reqs H1) as Ha.
  assert (Ht : (account to_str e (BatchSelection.workflows batch) [] [] (Some text) (Execution.cancelled_after e) reqs).2 = None)
    by by apply handle_total.
  cbv zeta in Ha. destruct (account _ _ _ _ _ _ _ _) as [reqs2 x]. simpl in *. subst x.
  destruct Ha as [Ha1 Ha2]. split; [split|]; auto. }
destruct r as [|text|at_runtime text]; [|by apply Hfail|].
- split; [split|]; auto.
- destruct isolate; [|rewrite andb_false_r; by apply Hfail].
  case_match; [|by apply Hfail]. destruct (split_total batch (Hc eq_refl)) as [retry Hs]. rewrite Hs. simpl.
  split; [split|]; [done| |done]. intros ->. destruct (split_groups batch [] Hs) as (ks & _ & Hks & Hof).
  apply Forall2_nil_inv_r in Hof. subst ks. destruct (BatchSelection.workflows batch) as [|i l].
  + by rewrite app_nil_r.
  + exfalso. apply (not_elem_of_nil (WorkflowItem.request_id i)), Hks. left.
Qed.

Lemma settle_sound e batch isolate reqs :
Execution.batch_id e ∉ F → execution_ok e → (isolate = true → batch_complete batch) →
all_states (sound (Execution.batch_id e :: F) D) reqs →
let out := settle_requests to_str e batch isolate reqs in
settled_states (out.2.1.1 = []) (BatchSelection.workflows batch) out.1 ∧ out.2.1.2 = None ∧ out.2.2 = true.
Proof.
intros Hb He Hc H. cbv zeta. unfold settle_requests. set (active := active_workflows e batch).
pose proof (run_body_settled e active (BatchSelection.workflows batch) reqs Hb He H) as H1. cbv zeta in H1.
destruct (run_body to_str e active _ reqs) as [reqs1 r]. simpl in H1.
destruct (run_except_settled e isolate active batch reqs1 r Hc H1) as [[H2 H3] Hx]. cbv zeta in *.
destruct (run_except to_str e isolate active batch reqs1 r) as [reqs2 [retry raised]]. simpl in *. subst raised.
set (reqs3 := match active with [] => reqs2 | _ => _ end).
assert (Hfill : ∀ D', all_states (sound F D') reqs2 → all_states (sound F D') reqs3).
{ intros D' H'. unfold reqs3. destruct active; [done|]. unfold fill_flowmesh_workflow_ids.
  destruct (Execution.flowmesh_workflow_id e); [|done].
  eapply (all_states_foldl _ id (λ _ s, RequestState.set_dispatches _ s)); [|exact H'].
  intros r0 r' s0. by apply sound_same. }
destruct (finish_states F D (Execution.batch_id e) (negb (is_nil retry)) (dkeys (raw_nodes_by_request active)) reqs3
  (raw_nodes_wf active) (Hfill D H2)) as [F1 F2].
assert (F3 : retry = [] → all_states (sound F (D ++ BatchSelection.workflows batch))
  (finish_batch_nodes (Execution.batch_id e) (negb (is_nil retry)) (dkeys (raw_nodes_by_request active)) reqs3).1).
{ intros Hr. apply finish_states; [apply raw_nodes_wf|]. by apply Hfill, H3. }
destruct (finish_batch_nodes _ _ _ _) as [reqs4 x]. simpl in *. subst x. simpl. split; [by split|done].
Qed.
End settle.

Section accounted.
Context (to_str : val → string) {S : Type} (workers : list string).
Implicit Types (w : world (S := S)).

(** [w'] is [w] with [workflows] finalized in the job manager. *)
Definition finalized (workflows : list WorkflowItem.t) w w' : Prop :=
∀ x, x ∈ dkeys (items (w_jobs w')) ↔ x ∈ dkeys (items (w_jobs w)) ∧ x ∉ ids workflows.

Lemma finalize_keys (workflow_ids : list string) (m : manager S) x :
x ∈ dkeys (items (finalize_workflows workflow_ids m)) ↔ x ∈ dkeys (items m) ∧ x ∉ workflow_ids.
Proof.
unfold finalize_workflows. simpl. generalize (items m) as d.
induction workflow_ids as [|y l IH]; intros d; simpl; [set_solver|].
rewrite IH, dkeys_ddel, list_elem_of_filter. set_solver.
Qed.

Lemma run_once_sound F D e batch isolate flag w :
Execution.batch_id e ∉ F → execution_ok e → (isolate = true → batch_complete batch) →
all_states (sound (Execution.batch_id e :: F) D) (w_requests w) →
let out := run_once to_str e workers batch isolate flag w in
settled_states F D (out.2.1 = []) (BatchSelection.workflows batch) (w_requests out.1) ∧ out.2.2 = None ∧
match out.2.1 with
| [] => w_busy out.1 = (if flag then release_workers workers (w_busy w) else w_busy w) ∧
        w_events out.1 = w_events w ++ Started (Execution.execution_request_id e) :: (if flag then [Released workers] else []) ∧
        finalized (BatchSelection.workflows batch) w out.1
| _ => w_busy out.1 = w_busy w ∧ w_events out.1 = w_events w ++ [Started (Execution.execution_request_id e)] ∧ w_jobs out.1 = w_jobs w
end.
Proof.
intros Hb He Hc H. cbv zeta. unfold run_once, run_batch_inner. simpl.
set (reqs0 := record_workflow_dispatches _ _ _ _ _ _).
assert (H0 : all_states (sound (Execution.batch_id e :: F) D) reqs0).
{ eapply (all_states_foldl _ WorkflowItem.request_id (λ i s, RequestState.set_dispatches _ s)); [|exact H].
  intros i r s0. by apply sound_same. }
destruct (settle_sound to_str F D e batch isolate reqs0 Hb He Hc H0) as (H1 & H2 & H3). cbv zeta in *.
destruct (settle_requests to_str e batch isolate reqs0) as [reqs [[retry raised] settled]]. simpl in *. subst raised settled.
destruct retry as [|b retry]; simpl; [|done].
destruct flag; simpl; rewrite <-?app_assoc; (split_and!; [done..|]); intros x; apply finalize_keys.
Qed.

Lemma finalized_app l1 l2 w1 w2 w3 : finalized l1 w1 w2 → finalized l2 w2 w3 → finalized (l1 ++ l2) w1 w3.
Proof. intros H1 H2 x. rewrite (H2 x), (H1 x). unfold ids. rewrite fmap_app, elem_of_app. tauto. Qed.

Lemma rerun_sound F D e b w :
Execution.batch_id e ∉ F → execution_ok e →
all_states (sound (Execution.batch_id e :: F) D) (w_requests w) →
let w' := rerun to_str workers w (e, b) in
all_states (sound F (D ++ BatchSelection.workflows b)) (w_requests w') ∧ w_busy w' = w_busy w ∧
w_events w' = w_events w ++ [Started (Execution.execution_request_id e)] ∧
finalized (BatchSelection.workflows b) w w'.
Proof.
intros Hb He H. destruct (run_once_sound F D e b false false w Hb He ltac:(done) H) as ([_ H1] & H2 & H3).
cbv zeta in *. destruct (run_once_requests to_str e workers b false false w) as [_ R2]. unfold rerun. simpl.
destruct (run_once to_str e workers b false false w) as [w1 [retry raised]]. simpl in *. subst raised.
assert (retry = []) as ->.
{ destruct (settle_requests _ _ _ _ _) as [reqs [[retry' raised] settled]] eqn:Es. simpl in R2.
  injection R2 as <- <-. destruct retry as [|b0 retry]; [done|].
  by destruct (retry_inv _ _ _ _ _ _ _ _ _ Es ltac:(done)) as [? _]. }
split; [by apply H1|done].
Qed.

Lemma reruns_sound D ebs w :
NoDup (Execution.batch_id <$> ebs.*1) → Forall execution_ok ebs.*1 →
all_states (sound (Execution.batch_id <$> ebs.*1) D) (w_requests w) →
let w' := foldl (rerun to_str workers) w ebs in
let workflows := ebs.*2 ≫= BatchSelection.workflows in
all_states (sound [] (D ++ workflows)) (w_requests w') ∧ w_busy w' = w_busy w ∧
w_events w' = w_events w ++ ((λ e, Started (Execution.execution_request_id e)) <$> ebs.*1) ∧ finalized workflows w w'.
Proof.
revert D w. induction ebs as [|[e b] ebs IH]; intros D w Hnd Hok H; simpl.
{ rewrite !app_nil_r. split_and!; try done. intros x. set_solver. }
csimpl in *. apply NoDup_cons in Hnd as [Hb Hnd]. apply Forall_cons in Hok as [He Hok].
destruct (rerun_sound _ D e b w Hb He H) as (H1 & H2 & Hev & H3). cbv zeta in *.
destruct (IH (D ++ BatchSelection.workflows b) _ Hnd Hok H1) as (I1 & I2 & Iev & I3). cbv zeta in *.
rewrite app_assoc. split_and!; [done|by rewrite I2|by rewrite Iev, Hev, <-app_assoc|]. by eapply finalized_app.
Qed.
End accounted.

(** The re-runs cover the batch. *)
Lemma split_members batch ks retry i :
  (∀ r, r ∈ ks ↔ r ∈ WorkflowItem.request_id <$> BatchSelection.workflows batch) → Forall2 (batch_of batch) ks retry →
  i ∈ retry ≫= BatchSelection.workflows ↔ i ∈ BatchSelection.workflows batch.
Proof.
  intros Hks Hof. rewrite list_elem_of_bind. split.
  - intros (b & Hi & [j Hj]%list_elem_of_lookup). destruct (Forall2_lookup_r _ _ _ _ _ Hof Hj) as (k & _ & Hb).
    rewrite Hb in Hi. by apply list_elem_of_filter in Hi as [_ Hi].
  - intros Hi. assert (Hk : WorkflowItem.request_id i ∈ ks) by (apply Hks, list_elem_of_fmap; by exists i).
    apply list_elem_of_lookup in Hk as [j Hj]. destruct (Forall2_lookup_l _ _ _ _ _ Hof Hj) as (b & Hbj & Hb).
    exists b. split; [|by eapply list_elem_of_lookup_2]. rewrite Hb. by apply list_elem_of_filter.
Qed.

Lemma split_length batch ks retry :
  NoDup ks → (∀ r, r ∈ ks ↔ r ∈ WorkflowItem.request_id <$> BatchSelection.workflows batch) →
  Forall2 (batch_of batch) ks retry →
  length retry = length (remove_dups (WorkflowItem.request_id <$> BatchSelection.workflows batch)).
Proof.
  intros Hnd Hks Hof. rewrite <-(Forall2_length _ _ _ Hof). apply Permutation_length, NoDup_Permutation.
  - done.
  - apply NoDup_remove_dups.
  - intros r. by rewrite elem_of_remove_dups.
Qed.

(** After a failed joint run, the re-runs account for everything. *)
Lemma reruns_account to_str {S : Type} workers batch ks reruns retry (w : world (S := S)) :
  NoDup ks → (∀ r, r ∈ ks ↔ r ∈ WorkflowItem.request_id <$> BatchSelection.workflows batch) →
  Forall2 (batch_of batch) ks retry →
  length reruns = length (remove_dups (WorkflowItem.request_id <$> BatchSelection.workflows batch)) →
  NoDup (Execution.batch_id <$> reruns) → Forall execution_ok reruns →
  all_states (sound (Execution.batch_id <$> reruns) []) (w_requests w) →
  let w' := foldl (rerun to_str workers) w (zip reruns retry) in
  all_states (sound [] (BatchSelection.workflows batch)) (w_requests w') ∧ w_busy w' = w_busy w ∧
  w_events w' = w_events w ++ ((λ e, Started (Execution.execution_request_id e)) <$> reruns) ∧
  finalized (BatchSelection.workflows batch) w w'.
Proof.
  intros Hks1 Hks2 Hof Hlen Hnd Hok H. cbv zeta. rewrite <-(split_length _ _ _ Hks1 Hks2 Hof) in Hlen.
  set (ebs := zip reruns retry).
  assert (E1 : ebs.*1 = reruns) by (apply fst_zip; lia).
  assert (E2 : ebs.*2 = retry) by (apply snd_zip; lia).
  destruct (reruns_sound to_str workers [] ebs w) as (G1 & G2 & Gev & G3); rewrite ?E1; try done.
  cbv zeta in *. rewrite E1 in Gev. rewrite E2 in G1, G3.
  pose proof (λ i, split_members batch ks retry i Hks2 Hof) as Hm. split_and!.
  - eapply all_states_impl; [exact G1|]. intros r s. apply sound_weaken; [done|]. intros i Hi. by apply Hm.
  - done.
  - done.
  - intros x. rewrite (G3 x). unfold ids. rewrite !list_elem_of_fmap. naive_solver.
Qed.

(** C3: whatever goes wrong while a batch runs (a cancelled request, a profile
    that cannot be read, an optimizer or runtime failure, bad outputs, nodes
    that do not add up), the batch task raises nothing, gives its workers back
    exactly once, after the joint run and after every isolated re-run has
    ended, finalizes exactly its workflows in the job manager, and leaves none
    of them pending; the node counters of every request still add up.  The
    isolated re-runs are either none or one per request of the batch. *)
Theorem every_batch_is_accounted to_str {S : Type} e reruns workers batch (w : world (S := S)) :
  NoDup (Execution.batch_id <$> e :: reruns) → Forall execution_ok (e :: reruns) → batch_complete batch →
  (∀ r s, dget r (w_requests w) = Some s → counters_ok (RequestState.counters s) ∧
     ∀ b, b ∈ Execution.batch_id <$> e :: reruns → not_in_batch b s) →
  length reruns = length (remove_dups (WorkflowItem.request_id <$> BatchSelection.workflows batch)) →
  let '(w', raised) := run_batch to_str e reruns workers batch w in
  raised = None ∧ w_busy w' = release_workers workers (w_busy w) ∧
  (∃ isolated, (isolated = [] ∨ isolated = reruns) ∧
     w_events w' = w_events w ++ ((λ e, Started (Execution.execution_request_id e)) <$> e :: isolated) ++ [Released workers]) ∧
  finalized (BatchSelection.workflows batch) w w' ∧
  (∀ i, i ∈ BatchSelection.workflows batch → still_pending (w_requests w') i = false) ∧
  (∀ r s, dget r (w_requests w') = Some s → counters_ok (RequestState.counters s)).
Proof.
  intros Hnd Hok Hc Hs Hlen. csimpl in *. apply NoDup_cons in Hnd as [Hb Hnd]. apply Forall_cons in Hok as [He Hok].
  assert (H : all_states (sound (Execution.batch_id e :: (Execution.batch_id <$> reruns)) []) (w_requests w)).
  { intros r s Hr. destruct (Hs r s Hr) as [S1 S2]. split; [done|done|by intros i ?%elem_of_nil]. }
  assert (Hend : ∀ reqs, all_states (sound [] (BatchSelection.workflows batch)) reqs →
    (∀ i, i ∈ BatchSelection.workflows batch → still_pending reqs i = false) ∧
    (∀ r s, dget r reqs = Some s → counters_ok (RequestState.counters s))).
  { intros reqs Hr. split.
    - intros i Hi. unfold still_pending. destruct (dget _ reqs) as [s|] eqn:Es; [|done].
      apply bool_decide_eq_false. by apply (so_done _ _ _ _ (Hr _ _ Es)).
    - intros r s Hrs. by apply (so_counters _ _ _ _ (Hr _ _ Hrs)). }
  destruct (run_once_sound to_str workers _ [] e batch true true w Hb He ltac:(done) H) as ([H0 H1] & H2 & H3).
  cbv zeta in *. destruct (run_once_requests to_str e workers batch true true w) as [_ R2]. unfold run_batch.
  destruct (run_once to_str e workers batch true true w) as [w1 [retry raised]]. simpl in *. subst raised.
  destruct retry as [|b0 retry].
  - destruct H3 as (H3 & Hev & H4). split_and!; try done; [by exists []; split; [left|]|..]; apply Hend; (eapply all_states_impl; [by apply H1|]);
      intros r s; apply sound_weaken; set_solver.
  - destruct (settle_requests _ _ _ _ _) as [reqs [[retry' raised'] settled]] eqn:Es. simpl in R2.
    injection R2 as <- <-.
    destruct (retry_inv _ _ _ _ _ _ _ _ _ Es ltac:(done)) as (_ & Hsplit & _).
    destruct (split_groups batch _ Hsplit) as (ks & Hks1 & Hks2 & Hof).
    destruct H3 as (H3 & Hev & H4).
    destruct (reruns_account to_str workers batch ks reruns (b0 :: retry) w1 Hks1 Hks2 Hof Hlen Hnd Hok H0) as (G1 & G2 & Gev & G3).
    split_and!; try done; [by simpl; rewrite <-H3, <-G2| |by intros x; rewrite <-H4; apply G3|by apply Hend..].
    exists reruns. split; [by right|]. simpl. by rewrite Gev, Hev, <-!app_assoc.
Qed.

(** ** Shared executions *)

(** The releases of several requests one after the other. *)
Definition release_all (rs : list string) (t : tracking) : tracking * list string :=
  foldl (λ s r, let '(t, released) := release_request_workflows r s.1 in (t, s.2 ++ released)) (t, []) rs.

Lemma add_to_set_get k x d r : dget_or [] r (add_to_set k x d) =
  if decide (r = k) then (let members := dget_or [] k d in if decide (x ∈ members) then members else members ++ [x])
  else dget_or [] r d.
Proof. unfold add_to_set. by rewrite dget_or_dset. Qed.

Lemma add_to_all x rs d r :
  r ∈ rs → x ∈ dget_or [] r (foldl (λ d r, add_to_set r x d) d rs).
Proof.
  assert (Hmono : ∀ rs d, x ∈ dget_or [] r d → x ∈ dget_or [] r (foldl (λ d r, add_to_set r x d) d rs)).
  { clear. induction rs as [|k rs IH]; intros d Hx; simpl; [done|]. apply IH. rewrite add_to_set_get.
    case_decide; [subst|done]. cbv zeta. case_decide; [done|]. apply elem_of_app. by left. }
  revert d. induction rs as [|k rs IH]; intros d Hr; [by apply elem_of_nil in Hr|]. simpl.
  apply elem_of_cons in Hr as [->|Hr]; [|by apply IH]. apply Hmono. rewrite add_to_set_get, decide_True by done.
  cbv zeta. case_decide; [done|]. apply elem_of_app. right. by left.
Qed.

(** What one release does to execution [x]. *)
Definition members_left (x : string) (d : dict string (list string)) : list string := dget_or [] x d.

Lemma release_other r x y s : x ≠ y →
  dget x (release_execution r s y).1 = dget x s.1 ∧ (x ∈ (release_execution r s y).2 ↔ x ∈ s.2).
Proof.
  destruct s as [d released]. intros Hne. unfold release_execution.
  destruct (dget y d) as [ms|]; [case_match|]; simpl; rewrite ?dget_ddel_ne, ?dget_dset_ne by done;
    (split; [done|]); rewrite ?elem_of_app, ?list_elem_of_singleton; naive_solver.
Qed.

Lemma release_fold_other r x ys s : x ∉ ys →
  dget x (foldl (release_execution r) s ys).1 = dget x s.1 ∧ (x ∈ (foldl (release_execution r) s ys).2 ↔ x ∈ s.2).
Proof.
  revert s. induction ys as [|y ys IH]; intros s Hx; simpl; [done|].
  apply not_elem_of_cons in Hx as [Hne Hx]. destruct (IH (release_execution r s y) Hx) as [-> ->].
  by apply release_other.
Qed.

(** Nothing is left of a released execution. *)
Definition kept_for (x : string) (left_members : list string) (d : dict string (list string)) : Prop :=
  dget x d = match left_members with [] => None | _ => Some left_members end.

Lemma release_one r x ms t : x ∈ executions_of r t → kept_for x ms (unreleased_execution_members t) →
  let out := release_request_workflows r t in
  kept_for x (filter (.≠ r) ms) (unreleased_execution_members out.1) ∧
  (x ∈ out.2 ↔ filter (.≠ r) ms = []) ∧ (∀ r', executions_of r' out.1 = executions_of r' t).
Proof.
  intros Hx Hk. cbv zeta. unfold release_request_workflows.
  assert (Hnd : NoDup (executions_of r t)) by apply NoDup_remove_dups.
  apply list_elem_of_split in Hx as (l1 & l2 & E). rewrite E in *.
  apply NoDup_app in Hnd as (_ & Hd & [Hn _]%NoDup_cons).
  assert (Hx1 : x ∉ l1) by (intros Hx; apply (Hd x Hx); left).
  rewrite foldl_app. simpl.
  destruct (release_fold_other r x l1 (unreleased_execution_members t, []) Hx1) as [A1 A2]. simpl in *.
  destruct (foldl _ _ l1) as [d1 rel1]. simpl in *.
  assert (B : kept_for x (filter (.≠ r) ms) (release_execution r (d1, rel1) x).1 ∧
    (x ∈ (release_execution r (d1, rel1) x).2 ↔ filter (.≠ r) ms = [])).
  { unfold release_execution, kept_for in *. rewrite A1, Hk. destruct ms as [|m ms]; simpl.
    - rewrite A1, Hk, elem_of_app. split; [done|]. split; [done|]. intros _. right. by left.
    - destruct (filter (.≠ r) (m :: ms)) as [|m' ms'] eqn:Ef; simpl.
      + rewrite dget_ddel_eq, elem_of_app. split; [done|]. split; [done|]. intros _. right. by left.
      + rewrite dget_dset_eq. split; [done|]. rewrite A2. split; [intros ?%elem_of_nil; done|done]. }
  destruct B as [B1 B2].
  destruct (release_fold_other r x l2 (release_execution r (d1, rel1) x) Hn) as [C1 C2].
  destruct (foldl _ _ l2) as [d2 rel2]. simpl in *. unfold kept_for in *. rewrite C1, C2. done.
Qed.

Lemma release_fold x t (members rs : list string) s ms :
  (∀ r, r ∈ members → x ∈ executions_of r t) → (∀ r, r ∈ rs → r ∈ members) →
  (∀ r, executions_of r s.1 = executions_of r t) → kept_for x ms (unreleased_execution_members s.1) →
  (x ∈ s.2 ↔ ms = []) →
  let s' := foldl (λ s r, let '(t, released) := release_request_workflows r s.1 in (t, s.2 ++ released)) s rs in
  kept_for x (filter (.∉ rs) ms) (unreleased_execution_members s'.1) ∧ (x ∈ s'.2 ↔ filter (.∉ rs) ms = []).
Proof.
  intros Hex. revert s ms. induction rs as [|r rs IH]; intros s ms Hrs Hs Hk Hx; simpl.
  - rewrite (filter_everything (.∉ [])) by (intros y _; apply not_elem_of_nil). done.
  - assert (Hr : x ∈ executions_of r s.1) by (rewrite Hs; apply Hex, Hrs; left).
    destruct (release_one r x ms s.1 Hr Hk) as (R1 & R2 & R3). cbv zeta in *.
    destruct (release_request_workflows r s.1) as [t1 rel1]. simpl in *.
    destruct (IH (t1, s.2 ++ rel1) (filter (.≠ r) ms)) as [I1 I2]; simpl.
    + intros r' Hr'. apply Hrs. by right.
    + intros r'. by rewrite R3.
    + done.
    + rewrite elem_of_app, R2, Hx. split; [intros [->|?]; done|by right].
    + rewrite list_filter_filter in I1, I2.
      assert (E : filter (λ y, y ∉ r :: rs) ms = filter (λ y, y ∉ rs ∧ y ≠ r) ms).
      { apply list_filter_iff. intros y. rewrite not_elem_of_cons. tauto. }
      rewrite E. done.
Qed.

(** An execution that runs several requests together is released exactly
    when every one of its members has been released, in whatever order, and
    stays tracked until then, also after the run is over. *)
Theorem shared_execution_is_kept x b members workflow_ids t0 rs :
  members ≠ [] → (∀ r, r ∈ rs → r ∈ members) →
  let t := cleanup_execution_tracking x members (track_execution x b members workflow_ids t0) in
  let '(t', released) := release_all rs t in
  (x ∈ released ↔ ∀ r, r ∈ members → r ∈ rs) ∧
  dget x (unreleased_execution_members t') =
    match filter (.∉ rs) members with [] => None | left_members => Some left_members end.
Proof.
  intros Hne Hrs. cbv zeta. set (t := cleanup_execution_tracking _ _ _).
  assert (Hex : ∀ r, r ∈ members → x ∈ executions_of r t).
  { intros r Hr. unfold executions_of. rewrite elem_of_remove_dups, elem_of_app. right.
    unfold t, cleanup_execution_tracking, track_execution. simpl. by apply add_to_all. }
  assert (Hk : kept_for x members (unreleased_execution_members t)).
  { unfold kept_for, t, cleanup_execution_tracking, track_execution. simpl. rewrite dget_dset_eq. by destruct members. }
  destruct (release_fold x t members rs (t, []) members Hex Hrs) as [G1 G2]; try done.
  { simpl. split; [by intros ?%elem_of_nil|]. done. }
  unfold release_all. destruct (foldl _ _ rs) as [t' released]. simpl in *. split; [|unfold kept_for in G1; rewrite G1; by destruct (filter _ _)].
  rewrite G2. split.
  - intros E r Hr. destruct (decide (r ∈ rs)) as [|Hn]; [done|].
    assert (Hin : r ∈ filter (.∉ rs) members) by (by apply list_elem_of_filter). rewrite E in Hin. by apply elem_of_nil in Hin.
  - intros Hall. destruct (filter _ members) as [|r l] eqn:E; [done|].
    assert (Hin : r ∈ filter (.∉ rs) members) by (rewrite E; left). apply list_elem_of_filter in Hin as [Hn Hin].
    by destruct (Hn (Hall r Hin)).
Qed.

(** ** A batch of two requests whose joint run fails *)

Module RunSample.
Definition op (id : string) : RuntimeOp.t := RuntimeOp.mk id "inference" "vllm" "m" [] [] [] [] [] None None.
Definition graph : RuntimeGraph.t :=
RuntimeGraph.mk [("ask", op "ask"); ("rate", op "rate")] ["ask"; "rate"] [] [] [].
Definition config : LumilakeRequestConfig.t :=
LumilakeRequestConfig.mk MEDIUM "u" "org" "p" None None None 0.
Definition item (id request : string) : WorkflowItem.t :=
WorkflowItem.mk id request id "report" 0 0 1 1 "t" [] graph graph (CompiledGraph.mk (Graph.mk [] [] []) [])
  config (of_Z 1) None None 0 false.
Definition batch_with (l : list WorkflowItem.t) : BatchSelection.t :=
BatchSelection.mk l ((λ i, (WorkflowItem.workflow_id i, graph)) <$> l)
  ((λ i, (WorkflowItem.workflow_id i, graph)) <$> l) config.
Definition batch : BatchSelection.t := batch_with [item "w0" "r"; item "v0" "q"].
Definition retry : list BatchSelection.t := [batch_with [item "w0" "r"]; batch_with [item "v0" "q"]].
Definition fresh (pending : list string) : RequestState.t :=
RequestState.mk [] config pending [] [] (Buffers.mk [] []) [("report", 1%Z)] None (initial_counters 2)
  [] 1 0 [] [] true.
Definition execution (batch_id id : string) (o : ProcessOutcome) : Execution.t :=
Execution.mk batch_id id (of_Z 2) [] [] None (Some 3%Z) o (Some "flow").
(** The joint run fails; alone, the request [r] succeeds and [q] fails. *)
Definition joint : Execution.t := execution "b0" "x0" (RuntimeExecutionError_ "out of memory").
Definition reruns : list Execution.t :=
[execution "b1" "x1" (Produced [] [("w0", [("title", [VStr "a"])])] []);
 execution "b2" "x2" (RuntimeExecutionError_ "out of memory")].
Definition to_str (v : val) : string := match v with VStr s => s | _ => "" end.
Definition jobs : manager () := set_items [("w0", item "w0" "r"); ("v0", item "v0" "q"); ("u0", item "u0" "p")] (init_manager ()).
Definition before : world (S := ()) :=
World [("r", fresh ["w0"]); ("q", fresh ["v0"]); ("p", fresh ["u0"])] ["c1"; "g1"] jobs (Tracking [] [] [] []) [].
Definition after : world (S := ()) := (run_batch to_str joint reruns ["g1"] batch before).1.

Example after_ex :
w_busy after = ["c1"] ∧ w_events after = [Started "x0"; Started "x1"; Started "x2"; Released ["g1"]] ∧ dkeys (items (w_jobs after)) = ["u0"] ∧
(λ rs, (rs.1, length (RequestState.results rs.2), RequestState.outputs rs.2, RequestState.pending_workflows rs.2))
  <$> w_requests after =
[("r", 1, [("report", [("title", ["a"])])], []); ("q", 1, [], []); ("p", 0, [], ["u0"])].
Proof. vm_compute. done. Qed.
End RunSample.

Lemma failed_requests_are_isolated_witness :
  ∃ e' b rows, e' ∈ RunSample.reruns ∧ batch_of RunSample.batch "r" b ∧
    dget "r" (w_requests RunSample.after) = dget "r" (w_requests (rerun RunSample.to_str ["g1"]
      (World [("r", RequestState.set_dispatches rows (RunSample.fresh ["w0"]))] [] RunSample.jobs
         (Tracking [] [] [] []) []) (e', b))).
Proof.
  assert (E : (run_once RunSample.to_str RunSample.joint ["g1"] RunSample.batch true true RunSample.before).2 =
    (RunSample.retry, None)) by (vm_compute; reflexivity).
  assert (Hl : Forall2 (λ e' b, lambdas_of e' (BatchSelection.workflows b)) RunSample.reruns RunSample.retry)
    by (repeat apply Forall2_cons_2; apply Forall_nil_2 || apply Forall2_nil_2).
  assert (Hin : "r" ∈ WorkflowItem.request_id <$> BatchSelection.workflows RunSample.batch) by left.
  assert (Hb : ∀ r s, dget r (w_requests RunSample.before) = Some s → not_in_batch "b0" s).
  { intros r s Hr%dget_elem. repeat (apply elem_of_cons in Hr as [Hr|Hr];
      [apply (f_equal snd) in Hr; simpl in Hr; subst s; apply not_elem_of_nil|]). by apply elem_of_nil in Hr. }
  destruct (failed_requests_are_isolated RunSample.to_str RunSample.joint RunSample.reruns ["g1"] RunSample.batch
    RunSample.before RunSample.retry E ltac:(discriminate) Hb Hl) as [H _].
  destruct (H "r" (RunSample.fresh ["w0"]) eq_refl Hin) as (e' & b & rows & H1 & H2 & H3).
  exists e', b, rows. split; [exact H1|]. split; [exact H2|]. apply H3. reflexivity.
Defined.

Lemma every_batch_is_accounted_witness :
  w_busy RunSample.after = ["c1"] ∧
  still_pending (w_requests RunSample.after) (RunSample.item "v0" "q") = false.
Proof.
  assert (H : let '(w', raised) := run_batch RunSample.to_str RunSample.joint RunSample.reruns ["g1"]
      RunSample.batch RunSample.before in
    raised = None ∧ w_busy w' = release_workers ["g1"] (w_busy RunSample.before) ∧
    (∃ isolated, (isolated = [] ∨ isolated = RunSample.reruns) ∧
       w_events w' = w_events RunSample.before ++
         ((λ e, Started (Execution.execution_request_id e)) <$> RunSample.joint :: isolated) ++ [Released ["g1"]]) ∧
    finalized (BatchSelection.workflows RunSample.batch) RunSample.before w' ∧
    (∀ i, i ∈ BatchSelection.workflows RunSample.batch → still_pending (w_requests w') i = false) ∧
    (∀ r s, dget r (w_requests w') = Some s → counters_ok (RequestState.counters s))).
  { apply (every_batch_is_accounted RunSample.to_str RunSample.joint RunSample.reruns ["g1"] RunSample.batch
      RunSample.before).
    - apply (bool_decide_unpack _). vm_compute. exact I.
    - repeat apply Forall_cons_2; [..|apply Forall_nil_2]; intros n [= <-]; discriminate.
    - apply (bool_decide_unpack _). vm_compute. exact I.
    - intros r s Hr%dget_elem. repeat (apply elem_of_cons in Hr as [Hr|Hr];
        [apply (f_equal snd) in Hr; simpl in Hr; subst s; split;
           [split; try reflexivity; [constructor|constructor|discriminate]|intros b _; apply not_elem_of_nil]|]).
      by apply elem_of_nil in Hr.
    - reflexivity. }
  unfold RunSample.after. destruct (run_batch _ _ _ _ _ _) as [w' raised]. destruct H as (_ & H2 & _ & _ & H4 & _).
  split; [exact H2|]. apply H4. right. left.
Defined.

Lemma shared_execution_is_kept_witness :
  "x0" ∉ (release_all ["q"] (cleanup_execution_tracking "x0" ["q"; "r"]
    (track_execution "x0" "b0" ["q"; "r"] ["w0"; "v0"] (Tracking [] [] [] [])))).2.
Proof.
  assert (Hsub : ∀ r, r ∈ ["q"] → r ∈ ["q"; "r"]) by (intros r ->%list_elem_of_singleton; left).
  pose proof (shared_execution_is_kept "x0" "b0" ["q"; "r"] ["w0"; "v0"] (Tracking [] [] [] []) ["q"]
    ltac:(discriminate) Hsub) as H. cbv zeta in H.
  destruct (release_all _ _) as [t' released]. destruct H as [H _]. simpl. rewrite H. intros Hall.
  assert (Hr : "r" ∈ ["q"]) by (apply Hall; right; left). apply list_elem_of_singleton in Hr. discriminate.
Defined.
