(* ===== verification/ShardData.v ===== *)
(** * Sharding of one node: partitions, static lists, references

    The FlowMesh runtime manager splits a node that several workers may run
    into shards (runtime/runtime_manager/flowmesh.py).  This file models what
    happens to the node's own data: the size of its inputs
    ([resolve_static_partition_total]), the index ranges of the shards
    ([build_index_partitions]), the slice of every static list
    ([slice_static_lists]), the references to sharded dependencies
    ([rewrite_shard_node_references]) and to the rows of the unsharded ones
    ([inline_visit]).  A spec is a tree of values: the source deep-copies the
    node before it mutates it. *)

From S2P Require Import Prelude PyFloat PyDict PyValue PyString.

(** [f"{n}"] for the sizes below, which are never negative. *)
Definition str_of_size (n : Z) : string := str_of_nat (Z.to_nat n).

(** [str(l)] for a list of sizes. *)
Definition str_of_sizes (l : list Z) : string := "[" +:+ String.concat ", " (str_of_size <$> l) +:+ "]".

Definition boundary_error (raw_node_id detail : string) : exn :=
  ValueError ("Unsupported shard boundary for raw node '" +:+ raw_node_id +:+ "': " +:+ detail).

(** ** Sizes *)

(** [max(l)] of a non-empty list. *)
Definition zmax (x : Z) (l : list Z) : Z := foldl Z.max x l.

(** The items of a static list. *)
Definition static_items (d : dict string val) : option (list val) :=
  match vget "type" d, vget "items" d with
  | VStr t, VList l => if String.eqb t "list" then Some l else None
  | _, _ => None
  end.

Fixpoint collect_static_list_lengths (value : val) : list Z :=
  match value with
  | VDict d =>
      match static_items d with Some l => [Z.of_nat (length l)] | None => [] end
      ++ concat (map (λ kv, collect_static_list_lengths kv.2) d)
  | VList l => concat (map collect_static_list_lengths l)
  | _ => []
  end.

(** [length not in {1, total}] *)
Definition misaligned (total length : Z) : bool := negb ((length =? 1) || (length =? total))%Z.

Definition resolve_static_partition_total (raw_node_id : string) (data_spec : dict string val)
    (context_node_id : string) : result (option Z) :=
  match collect_static_list_lengths (VDict data_spec) with
  | [] => Ok None
  | x :: l =>
      let total := zmax x l in
      if existsb (misaligned total) (x :: l) then
        Err (boundary_error raw_node_id ("node '" +:+ context_node_id +:+ "' has inconsistent static list lengths "
          +:+ str_of_sizes (sorted_by Z.ltb id (remove_dups (x :: l)))))
      else Ok (Some (Z.max 1 total))
  end.

(** ** Index ranges *)

Definition add_partition (base remainder : Z) (st : list (Z * Z) * Z) (idx : nat) : list (Z * Z) * Z :=
  let size := (base + if Z.of_nat idx <? remainder then 1 else 0)%Z in
  (st.1 ++ [(st.2, st.2 + size)%Z], (st.2 + size)%Z).

Definition build_index_partitions (total shard_count : Z) : list (Z * Z) :=
  let safe_total := Z.max 1 total in
  let safe_count := Z.max 1 shard_count in
  (foldl (add_partition (safe_total / safe_count) (safe_total mod safe_count)) ([], 0%Z)
    (seq 0 (Z.to_nat safe_count))).1.

(** ** Slices of the static lists *)

(** [isinstance(d.get("type"), str)]: the items of a typed value are left to
    its own cut. *)
Definition is_typed (d : dict string val) : bool :=
  match vget "type" d with VStr _ => true | _ => false end.

(** The value of ["items"] once the static list is cut. *)
Definition cut_items (raw_node_id : string) (start stop total : Z) (d : dict string val) : result (option val) :=
  match static_items d with
  | None => Ok (dget "items" d)
  | Some l =>
      if (Z.of_nat (length l) =? total)%Z then Ok (Some (VList (py_slice start stop l)))
      else if Nat.eqb (length l) 1 then Ok (Some (VList l))
      else Err (boundary_error raw_node_id ("static list length " +:+ str_of_nat (length l)
             +:+ " cannot be partitioned to total " +:+ str_of_size total))
  end.

Fixpoint slice_static_lists (raw_node_id : string) (start stop total : Z) (value : val) : result val :=
  match value with
  | VDict d =>
      items ← cut_items raw_node_id start stop total d;
      d' ← mapR (λ kv,
        if (String.eqb kv.1 "items" && is_typed d)%bool then Ok (kv.1, default kv.2 items)
        else v ← slice_static_lists raw_node_id start stop total kv.2; Ok (kv.1, v)) d;
      Ok (VDict d')
  | VList l => l' ← mapR (slice_static_lists raw_node_id start stop total) l; Ok (VList l')
  | _ => Ok value
  end.

(** ** References to sharded dependencies *)

Section references.
Context (raw_node_id : string) (shard_idx : nat) (shard_nodes_by_raw : dict string (list string)).

(** The new value of ["node"], when it names a sharded node. *)
Definition shard_reference (d : dict string val) : result (option string) :=
match vget "node" d with
| VStr ref_node =>
    match dget ref_node shard_nodes_by_raw with
    | None => Ok None
    | Some shards =>
        match shards !! shard_idx with
        | Some name => Ok (Some name)
        | None => Err (boundary_error raw_node_id ("shard index mismatch for dependency '" +:+ ref_node +:+ "'"))
        end
    end
| _ => Ok None
end.

(** The walk leaves the other strings alone. *)
Fixpoint rewrite_shard_node_references (node : val) : result val :=
match node with
| VDict d =>
    new_ref ← shard_reference d;
    d' ← mapR (λ kv,
      match new_ref, kv.2 with
      | Some name, VStr s => Ok (kv.1, VStr (if String.eqb kv.1 "node" then name else s))
      | _, _ => v ← rewrite_shard_node_references kv.2; Ok (kv.1, v)
      end) d;
    Ok (VDict d')
| VList l => l' ← mapR rewrite_shard_node_references l; Ok (VList l')
| _ => Ok node
end.

(** [dependsOn] of the shard; duplicates keep their first place. *)
Definition rewrite_dependency (rewritten : list string) (dep : val) : result (list string) :=
match dep with
| VStr dep =>
    match dget dep shard_nodes_by_raw with
    | None => Ok (rewritten ++ [dep])
    | Some shard_nodes =>
        match shard_nodes !! shard_idx with
        | Some name => Ok (rewritten ++ [name])
        | None => Err (ValueError ("Unsupported shard dependency rewrite for '" +:+ dep
                        +:+ "': shard index out of range"))
        end
    end
| _ => Ok rewritten
end.

Definition rewrite_shard_dependencies (deps : val) : result (list string) :=
match deps with
| VNone => Ok []
| VList l =>
    rewritten ← foldR rewrite_dependency [] l;
    Ok (dkeys (dict_of ((λ dep, (dep, ())) <$> rewritten)))
| _ => Err (ValueError "Invalid shard boundary: 'dependsOn' must be a list")
end.
End references.

(** ** Rows of the unsharded dependencies *)

Definition startswith (pre s : string) : bool :=
  match starts_with (chars pre) (chars s) with Some _ => true | None => false end.

Definition extract_unindexed_items_suffix (path : string) : result string :=
  let normalized := strip path in
  let prefix := if startswith "value.items" normalized then "value.items" else "items" in
  match starts_with (chars prefix) (chars normalized) with
  | Some suffix => Ok (of_chars suffix)
  | None => Err (ValueError ("Invalid shard boundary rewrite path: expected '" +:+ prefix +:+ "*', got '"
                  +:+ path +:+ "'"))
  end.

Definition is_unindexed_items_path (path : string) : bool :=
  let normalized := strip path in
  let normalized :=
    if startswith "value.items" normalized then of_chars (drop (length (chars "value.")) (chars normalized))
    else normalized in
  (startswith "items" normalized && negb (startswith "items[" normalized))%bool.

(** [node["spec"]["data"]], when both are mappings. *)
Definition node_data (node : dict string val) : option (dict string val) :=
  spec ← as_dict (vget "spec" node); as_dict (vget "data" spec).

(** A row of an unsharded dependency. *)
Definition row_reference (dep_id prefix suffix : string) (idx : Z) : val :=
  VDict [("node", VStr dep_id); ("path", VStr (prefix +:+ "items[" +:+ str_of_size idx +:+ "]" +:+ suffix))].

Definition zrange (start stop : Z) : list Z :=
  (λ i, (start + Z.of_nat i)%Z) <$> seq 0 (Z.to_nat (stop - start)).

Section inline.
Context (raw_node_id : string) (start stop total : Z).
Context (shard_nodes_by_raw : dict string (list string)) (node_map : dict string (dict string val)).

(** [dep_total_cache] only saves time: the total is a function of the id. *)
Definition dependency_static_total (dep_id : string) : result (option Z) :=
match dget dep_id node_map ≫= node_data with
| None => Ok None
| Some dep_data => resolve_static_partition_total raw_node_id dep_data dep_id
end.

Definition rewrite_inline_slice (column : dict string val) (dep_id path : string) : result (dict string val) :=
dep_total ← dependency_static_total dep_id;
match dep_total with
| Some t =>
    if misaligned total t then
      Err (boundary_error raw_node_id ("dependency '" +:+ dep_id +:+ "' static cardinality " +:+ str_of_size t
        +:+ " does not match shard source cardinality " +:+ str_of_size total))
    else Ok tt
| None => Ok tt
end ;;
suffix ← extract_unindexed_items_suffix path;
let prefix := if startswith "value." (strip path) then "value." else "" in
let items := (λ source_idx,
  row_reference dep_id prefix suffix (if decide (dep_total = Some 1%Z) then 0%Z else source_idx))
  <$> zrange start stop in
Ok (dset "data" (VDict [("type", VStr "list"); ("items", VList items)]) (ddel "path" (ddel "node" column))).

(** A column that names an unsharded node of the graph. *)
Definition inline_column (d : dict string val) : result (dict string val) :=
match vget "node" d with
| VStr ref_node =>
    if (negb (dmem ref_node shard_nodes_by_raw) && dmem ref_node node_map)%bool then
      match vget "path" d with
      | VNone =>
          dep_total ← dependency_static_total ref_node;
          if decide (dep_total = Some 1%Z) then Ok d
          else Err (boundary_error raw_node_id ("dependency '" +:+ ref_node
                 +:+ "' missing path for shard boundary rewrite"))
      | VStr ref_path => if is_unindexed_items_path ref_path then rewrite_inline_slice d ref_node ref_path else Ok d
      | _ => Ok d
      end
    else Ok d
| _ => Ok d
end.

(** The walk goes on into the values it has just written, so it is not a
    structural recursion: [fuel] bounds its depth. *)
Fixpoint inline_visit (fuel : nat) (node : val) : result val :=
match fuel with
| O => Err RecursionError
| S fuel =>
    match node with
    | VDict d =>
        d ← inline_column d;
        d' ← mapR (λ kv, v ← inline_visit fuel kv.2; Ok (kv.1, v)) d;
        Ok (VDict d')
    | VList l => l' ← mapR (inline_visit fuel) l; Ok (VList l')
    | _ => Ok node
    end
end.

Fixpoint val_depth (v : val) : nat :=
match v with
| VDict d => S (foldr (λ kv n, Nat.max (val_depth kv.2) n) 0 d)
| VList l => S (foldr (λ v n, Nat.max (val_depth v) n) 0 l)
| _ => 0
end.

(** What the walk writes is four levels deep. *)
Definition inline_unsharded_dependency_slices (spec : val) : result val := inline_visit (val_depth spec + 5) spec.
End inline.

(** ** Examples (test_shard_rewrite.py) *)

Example partitions_ex : build_index_partitions 7 3 = [(0, 3); (3, 5); (5, 7)]%Z.
Proof. vm_compute. reflexivity. Qed.

Example slice_ex :
  slice_static_lists "n" 1 3 3
    (VDict [("type", VStr "list"); ("items", VList [VStr "a"; VStr "b"; VStr "c"]); ("k", VList [VInt 1])])
  = Ok (VDict [("type", VStr "list"); ("items", VList [VStr "b"; VStr "c"]); ("k", VList [VInt 1])]).
Proof. vm_compute. reflexivity. Qed.

Example inline_ex :
  inline_unsharded_dependency_slices "n1" 1 2 2 []
    [("n0", [("spec", VDict [("data", VDict [("type", VStr "list"); ("items", VList [VStr "a"])])])])]
    (VDict [("columns", VList [VDict [("label", VStr "x"); ("node", VStr "n0"); ("path", VStr "items.output")]])])
  = Ok (VDict [("columns", VList [VDict [("label", VStr "x");
      ("data", VDict [("type", VStr "list"); ("items", VList [
        VDict [("node", VStr "n0"); ("path", VStr "items[0].output")]])])]])]).
Proof. vm_compute. reflexivity. Qed.

Example dependencies_ex :
  rewrite_shard_dependencies 1 [("a", ["a__shard_0"; "a__shard_1"])] (VList [VStr "a"; VStr "b"; VInt 3; VStr "b"])
  = Ok ["a__shard_1"; "b"].
Proof. vm_compute. reflexivity. Qed.
