(* ===== verification/ShardRewrite.v ===== *)
(** * Sharding of a workflow

    A node that the schedule puts on several workers is split into one shard
    per worker before the workflow is submitted to FlowMesh
    (runtime/runtime_manager/flowmesh.py).  [rewrite_nodes_for_shard_intent]
    decides for each such node, in dependency order, how many shards it gets
    and which rows each of them computes ([plan_node]), then rewrites the
    nodes ([rewrite_node]; a merge node stands for a sharded node that others
    still read whole) and the worker assignment
    ([rewrite_worker_assignment_for_shards]).  [build_flat_schedule_hint] is
    the execution order sent along.

    Sets are lists without duplicates; the order in which the source iterates
    over the set of merge nodes is the order of the list.  An error message
    that prints a sorted set is cut before it, except where the message is
    read again ([classify_shard_boundary_error]). *)

From S2P Require Import Prelude PyFloat PyDict PyValue PyString TopoSort Kahn ParentGraph ShardData.

Record ShardRewriteResult := mkShardRewriteResult {
  sr_nodes : list (dict string val);
  sr_worker_assignment : dict string (list string);
  sr_flowmesh_to_raw : dict string string;
}.

(** [[dep for dep in deps if isinstance(dep, str)] if isinstance(deps, list)
    else []] *)
Definition str_deps (node : dict string val) : list string :=
  match vget "dependsOn" node with
  | VList l => omap (λ v, match v with VStr s => Some s | _ => None end) l
  | _ => []
  end.

Definition deps_of (node_map : dict string (dict string val)) (node_id : string) : list string :=
  str_deps (dget_or [] node_id node_map).

Definition same_members (a b : list string) : bool :=
  (forallb (λ x, bool_decide (x ∈ b)) a && forallb (λ x, bool_decide (x ∈ a)) b)%bool.

Definition add_new (x : string) (l : list string) : list string :=
  if bool_decide (x ∈ l) then l else l ++ [x].

(** ** The order of the nodes *)

(** A dependency in the two Kahn sorts; [err] is the message for a self
    dependency. *)
Definition count_dependency (node_names : list string) (err : string) (node_id : string)
    (st : dict string Z * dict string (list string)) (dep : string) : result (dict string Z * dict string (list string)) :=
  if negb (bool_decide (dep ∈ node_names)) then Ok st
  else if String.eqb dep node_id then Err (ValueError (err +:+ "'" +:+ node_id +:+ "'"))
  else Ok (bump st.1 node_id, add_child node_id st.2 dep).

Definition count_dependencies (node_names : list string) (err : string) (deps : string → list string) :
    result (dict string Z * dict string (list string)) :=
  foldR (λ st node_id, foldR (count_dependency node_names err node_id) st (deps node_id))
    (dict_of ((λ n, (n, 0%Z)) <$> node_names), dict_of ((λ n, (n, [])) <$> node_names)) node_names.

(** [{node_id: idx for idx, node_id in enumerate(node_names)}] *)
Definition order_index (node_names : list string) : dict string Z :=
  dict_of (imap (λ idx n, (n, Z.of_nat idx)) node_names).

(** The heap holds tuples that end with the node and start with a key
    computed from it, so it is a heap of nodes ordered by [lt]. *)
Definition sort_nodes (node_names : list string) (lt : string → string → bool) (cycle : string)
    (st : dict string Z * dict string (list string)) : result (list string) :=
  let ready := filter (λ n, dget_or 0%Z n st.1 = 0%Z) node_names in
  let '(_, ordered, _) :=
    kahn (heappop lt) (λ n, dget_or [] n st.2) (λ _ _ _, ()) (length node_names) () st.1 ready [] in
  if Nat.eqb (length ordered) (length node_names) then Ok ordered else Err (ValueError cycle).

Definition rewrite_key_lt (node_order : list string) (a b : string) : bool :=
  lex_lt Z.eqb Z.ltb str_ltb (dget_or 0%Z a (order_index node_order), a) (dget_or 0%Z b (order_index node_order), b).

Definition build_shard_rewrite_topological_order (node_order : list string)
    (node_map : dict string (dict string val)) : result (list string) :=
  st ← count_dependencies node_order "Invalid shard rewrite dependency graph: self dependency on " (deps_of node_map);
  sort_nodes node_order (rewrite_key_lt node_order)
    "Invalid shard rewrite dependency graph: cycle detected in flowmesh nodes" st.

(** *** The schedule hint *)

(** [node_to_workers], [first_seen_rank] (whose keys are [seen_nodes], in the
    order of their ranks) and [local_seen]. *)
Definition hint_node (node_set : list string) (worker : string)
    (st : dict string (list string) * dict string Z * list string) (node_name : string) :
    result (dict string (list string) * dict string Z * list string) :=
  let '(node_to_workers, first_seen_rank, local_seen) := st in
  if bool_decide (node_name ∈ local_seen) then
    Err (ValueError ("Invalid schedule hint: duplicate node found within worker assignment for worker '"
      +:+ worker +:+ "': " +:+ node_name))
  else if negb (bool_decide (node_name ∈ node_set)) then
    Err (ValueError ("Invalid schedule hint: worker assignment references unknown node '" +:+ node_name +:+ "'"))
  else Ok (dset node_name (add_new worker (dget_or [] node_name node_to_workers)) node_to_workers,
           dsetdefault node_name (Z.of_nat (length first_seen_rank)) first_seen_rank,
           local_seen ++ [node_name]).

Definition hint_worker (node_set : list string) (st : dict string (list string) * dict string Z)
    (entry : string * list string) : result (dict string (list string) * dict string Z) :=
  st' ← foldR (hint_node node_set entry.1) (st.1, st.2, []) entry.2; Ok st'.1.

Definition hint_key_lt (first_seen_rank : dict string Z) (node_names : list string) (a b : string) : bool :=
  let key n := (dget_or 1000000000%Z n first_seen_rank, (dget_or 0%Z n (order_index node_names), n)) in
  lex_lt Z.eqb Z.ltb (lex_lt Z.eqb Z.ltb str_ltb) (key a) (key b).

Definition build_flat_schedule_hint (worker_assignment : dict string (list string)) (node_names : list string)
    (node_dependencies : dict string (list string)) : result (list string * dict string (list string)) :=
  st ← foldR (hint_worker node_names) ([], []) worker_assignment;
  let '(node_to_workers, first_seen_rank) := st in
  if negb (same_members (dkeys first_seen_rank) node_names) then
    Err (ValueError "Invalid internal schedule: worker assignment does not cover graph nodes.")
  else
    candidates ← mapR (λ n, workers ← dindex (KeyError n) n node_to_workers; Ok (n, workers)) node_names;
    graph ← count_dependencies node_names "Invalid schedule hint dependency graph: self dependency on "
              (λ n, dget_or [] n node_dependencies);
    ordered ← sort_nodes node_names (hint_key_lt first_seen_rank node_names)
                "Invalid schedule hint dependency graph: cycle detected in flowmesh nodes" graph;
    Ok (ordered, dict_of candidates).

(** ** The workers of a node *)

Definition candidate_node (node_set : list string) (worker : string)
    (st : dict string (list string) * list string) (node_id : string) : result (dict string (list string) * list string) :=
  if bool_decide (node_id ∈ st.2) then
    Err (ValueError ("Worker assignment contains duplicate node IDs for worker '" +:+ worker +:+ "': " +:+ node_id))
  else if negb (bool_decide (node_id ∈ node_set)) then
    Err (ValueError ("Worker assignment references unknown node '" +:+ node_id +:+ "'"))
  else Ok (dset node_id (add_new worker (dget_or [] node_id st.1)) st.1, st.2 ++ [node_id]).

(** [seen_nodes] are the keys of the candidates. *)
Definition collect_node_worker_candidates (worker_assignment : dict string (list string)) (node_names : list string) :
    result (dict string (list string) * dict string (list string)) :=
  candidates ← foldR (λ candidates entry, st ← foldR (candidate_node node_names entry.1) (candidates, []) entry.2; Ok st.1)
    [] worker_assignment;
  if same_members (dkeys candidates) node_names then Ok (candidates, worker_assignment)
  else Err (ValueError "Worker assignment must cover all runtime nodes exactly at least once.").

(** ** Sizes taken from the dependencies *)

Section sizes.
Context (raw_node_id : string) (node_map : dict string (dict string val)).

(** The depth-first walk over the ancestors; the top of the stack is the head
of the list. *)
Fixpoint ancestor_loop (fuel : nat) (stack visited : list string) (totals : list Z) : result (list Z) :=
match fuel with
| O => Err RecursionError
| S fuel =>
  match stack with
  | [] => Ok totals
  | node_id :: stack =>
      if bool_decide (node_id ∈ visited) then ancestor_loop fuel stack visited totals
      else
        let visited := visited ++ [node_id] in
        match dget node_id node_map with
        | None => ancestor_loop fuel stack visited totals
        | Some node =>
            total ← match node_data node with
                    | Some data_spec => resolve_static_partition_total raw_node_id data_spec node_id
                    | None => Ok None
                    end;
            ancestor_loop fuel
              (foldl (λ stack dep, if bool_decide (dep ∈ visited) then stack else dep :: stack) stack (str_deps node))
              visited (totals ++ option_list total)
        end
  end
end.

(** Every visited node pushes its dependencies once. *)
Definition collect_ancestor_partition_totals (dependency_ids : list string) : result (list Z) :=
ancestor_loop (S (length dependency_ids + sum_list_with (λ kv, length (str_deps kv.2)) node_map))
(rev dependency_ids) [] [].

(** [max(totals)], when the other totals are [1] or the same. *)
Definition aligned_total (detail : string) (totals : list Z) : result (option Z) :=
match totals with
| [] => Ok None
| x :: l =>
  let total := zmax x l in
  if existsb (misaligned total) (x :: l) then Err (boundary_error raw_node_id detail) else Ok (Some total)
end.

Definition direct_total (totals : list Z) (dep : string) : result (list Z) :=
total ← dependency_static_total raw_node_id node_map dep; Ok (totals ++ option_list total).

Definition infer_unsharded_dependency_total (dependency_ids : list string) : result (option Z) :=
direct ← foldR direct_total [] dependency_ids;
direct_total ← aligned_total "dependency static partition sizes do not align" direct;
match direct_total with
| Some total => Ok (Some total)
| None =>
  ancestors ← collect_ancestor_partition_totals dependency_ids;
  aligned_total "ancestor static partition sizes do not align" ancestors
end.

(** [sum(end - start for start, end in partitions)] *)
Definition partition_rows (partitions : list (Z * Z)) : Z := foldl (λ n p, (n + (p.2 - p.1))%Z) 0%Z partitions.

Definition dep_partition_total (shard_count : Z) (partitions_by_raw : dict string (list (Z * Z)))
(totals : list Z) (dep : string) : result (list Z) :=
match dget dep partitions_by_raw with
| None => Ok totals
| Some partitions =>
  if (Z.of_nat (length partitions) =? shard_count)%Z then Ok (totals ++ [partition_rows partitions])
  else Err (boundary_error raw_node_id ("dependency '" +:+ dep +:+ "' shard count mismatch"))
end.

Definition infer_shard_input_size (data_spec : dict string val) (shard_count : Z) (dependency_ids : list string)
(partitions_by_raw : dict string (list (Z * Z))) : result Z :=
local_total ← resolve_static_partition_total raw_node_id data_spec raw_node_id;
match local_total with
| Some total => Ok total
| None =>
  dep_totals ← foldR (dep_partition_total shard_count partitions_by_raw) [] dependency_ids;
  match dep_totals with
  | first :: _ =>
      if forallb (λ total, (total =? first)%Z) dep_totals then Ok (Z.max 1 first)
      else Err (boundary_error raw_node_id "dependency partition sizes do not align")
  | [] =>
      ancestors ← collect_ancestor_partition_totals dependency_ids;
      total ← aligned_total "ancestor static partition sizes do not align" ancestors;
      match total with
      | Some total => Ok (Z.max 1 total)
      | None => Err (boundary_error raw_node_id "cannot infer static partition size")
      end
  end
end.
End sizes.

(** ** The shards of a node *)

Record shard_plan := mkShardPlan {
  shard_nodes_by_raw : dict string (list string);
  partitions_by_raw : dict string (list (Z * Z));
  effective_node_candidates : dict string (list string);
}.

Definition shard_name (node_id : string) (idx : nat) : string := node_id +:+ "__shard_" +:+ str_of_nat idx.
Definition shard_names (node_id : string) (shard_count : Z) : list string :=
  shard_name node_id <$> seq 0 (Z.to_nat shard_count).

Definition classify_shard_boundary_error (message : string) : string :=
  let message_lower := lower message in
  if existsb (λ token, contains token message_lower)
       ["cardinality"; "mismatch"; "inconsistent static list lengths"; "do not align"] then "cardinality mismatch"
  else if contains "unresolved sharded deps" message_lower then "unresolved sharded deps"
  else "non-partitionable boundary".

(** [fail_reason]: a category and a detail. *)
Abbreviation reason := (string * string)%type.

Section plan.
Context (node_map : dict string (dict string val)) (explicit_shard_intent_nodes : dict string (list string)).

(** Where the size of the node comes from. *)
Definition missing_source (node_id : string) (local_total : option Z) (dep_list : list string)
(dep_shard_counts : list Z) : result (option reason) :=
match local_total, dep_list, dep_shard_counts with
| None, [], _ => Ok (Some ("non-partitionable boundary", "node has no partitionable local inputs or dependencies"))
| None, _, [] =>
  inferred_dep_total ← infer_unsharded_dependency_total node_id node_map dep_list;
  Ok (if match inferred_dep_total with None => true | Some total => (total <=? 1)%Z end
      then Some ("unresolved sharded deps", "node has no local partition and no sharded dependencies")
      else None)
| _, _, _ => Ok None
end.

(** [shard_count] once it is bounded by the shards of the dependencies. *)
Definition aligned_count (shard_count : Z) (dep_shard_counts : list Z) : reason + Z :=
match dep_shard_counts with
| [] => inr shard_count
| expected :: _ =>
  if forallb (λ count, (count =? expected)%Z) dep_shard_counts then inr (Z.min shard_count expected)
  else inl ("cardinality mismatch", "dependency shard counts do not align")
end.

Definition plan_shards (st : shard_plan) (node_id : string) (workers : list string) (data_spec : dict string val)
(dep_list : list string) (shard_count : Z) : result (reason + shard_plan) :=
total_items ← infer_shard_input_size node_id node_map data_spec shard_count dep_list (partitions_by_raw st);
let shard_count := Z.min shard_count (Z.max 1 total_items) in
let active_workers := py_take shard_count workers in
if negb (Z.of_nat (length active_workers) =? shard_count)%Z then
Ok (inl ("non-partitionable boundary", "failed to resolve active shard workers"))
else Ok (inr (mkShardPlan
(dset node_id (shard_names node_id shard_count) (shard_nodes_by_raw st))
(dset node_id (build_index_partitions total_items shard_count) (partitions_by_raw st))
(dset node_id active_workers (effective_node_candidates st)))).

(** The [try] block for one node of [explicit_shard_intent_nodes]. *)
Definition plan_body (st : shard_plan) (node_id : string) (workers : list string) : result (reason + shard_plan) :=
let node := dget_or [] node_id node_map in
match as_dict (vget "spec" node) with
| None => Ok (inl ("non-partitionable boundary", "node spec is not a mapping"))
| Some spec =>
  match as_dict (vget "data" spec) with
  | None => Ok (inl ("non-partitionable boundary", "spec.data is missing or invalid"))
  | Some data_spec =>
      let dep_list := str_deps node in
      local_total ← resolve_static_partition_total node_id data_spec node_id;
      let dep_shard_counts :=
        omap (λ dep, (λ names, Z.of_nat (length names)) <$> dget dep (shard_nodes_by_raw st)) dep_list in
      missing ← missing_source node_id local_total dep_list dep_shard_counts;
      match missing with
      | Some reason => Ok (inl reason)
      | None =>
          match aligned_count (Z.of_nat (length workers)) dep_shard_counts with
          | inl reason => Ok (inl reason)
          | inr shard_count =>
              if (shard_count <=? 0)%Z then
                Ok (inl ("non-partitionable boundary", "no active shard worker is available"))
              else plan_shards st node_id workers data_spec dep_list shard_count
          end
      end
  end
end.

Definition shard_intent_error (node_id : string) (fail_reason : reason) : exn :=
ValueError ("Explicit shard-intent rewrite failed for raw node '" +:+ node_id +:+ "' (reason: "
+:+ fail_reason.1 +:+ "): " +:+ fail_reason.2).

Definition plan_node (st : shard_plan) (node_id : string) : result shard_plan :=
match dget node_id explicit_shard_intent_nodes with
| None => Ok st
| Some workers =>
  match plan_body st node_id workers with
  | Ok (inr st) => Ok st
  | Ok (inl fail_reason) => Err (shard_intent_error node_id fail_reason)
  | Err (ValueError message) => Err (shard_intent_error node_id (classify_shard_boundary_error message, message))
  | Err e => Err e
  end
end.
End plan.

(** ** The nodes *)

Definition pin_non_explicit_unsharded_nodes (explicit_shard_intent_nodes : dict string (list string))
    (st : shard_plan) (baseline_node_candidates : dict string (list string)) : dict string (list string) :=
  (λ kv : string * list string,
    if (dmem kv.1 explicit_shard_intent_nodes || dmem kv.1 (shard_nodes_by_raw st))%bool then kv
    else match dget_or [] kv.1 baseline_node_candidates, kv.2 with
         | w :: _, _ => (kv.1, [w])
         | [], w :: _ => (kv.1, [w])
         | [], [] => kv
         end) <$> effective_node_candidates st.

Definition prune_node (node_candidates : dict string (list string)) (worker : string)
    (deduped_nodes : list string) (node_id : string) : list string :=
  match dget node_id node_candidates with
  | Some allowed => if bool_decide (worker ∈ allowed) then add_new node_id deduped_nodes else deduped_nodes
  | None => add_new node_id deduped_nodes
  end.

Definition prune_worker_assignment_to_candidates (worker_assignment node_candidates : dict string (list string)) :
    dict string (list string) :=
  (λ kv : string * list string, (kv.1, foldl (prune_node node_candidates kv.1) [] kv.2)) <$> worker_assignment.

Definition compute_merge_required_nodes (node_order : list string) (node_map : dict string (dict string val))
    (shard_nodes_by_raw : dict string (list string)) (output_node_names : list string) : list string :=
  foldl (λ required consumer_id,
    if dmem consumer_id shard_nodes_by_raw then required
    else foldl (λ required dep, if dmem dep shard_nodes_by_raw then add_new dep required else required)
           required (deps_of node_map consumer_id))
    (remove_dups (filter (λ n, dmem n shard_nodes_by_raw) output_node_names)) node_order.

Definition merge_item (shard_name : string) (partition : Z * Z) : option val :=
  if (partition.2 <=? partition.1)%Z then None
  else Some (VDict [("node", VStr shard_name); ("path", VStr "items.output")]).

Definition build_merge_node (raw_node_id : string) (base_node : dict string val) (shard_names : list string)
    (partitions : list (Z * Z)) : result (dict string val) :=
  if negb (Nat.eqb (length shard_names) (length partitions)) then
    Err (ValueError ("Internal shard merge mismatch for raw node '" +:+ raw_node_id +:+ "'"))
  else match as_dict (vget "spec" base_node) with
  | None => Err (boundary_error raw_node_id "node spec is not a mapping")
  | Some _ =>
      Ok [("name", VStr raw_node_id);
          ("dependsOn", VList (VStr <$> shard_names));
          ("spec", VDict [("taskType", VStr "echo");
             ("data", VDict [("type", VStr "list");
                ("items", VList (omap id (zip_with merge_item shard_names partitions)))])])]
  end.

(** The end of the last range. *)
Definition partitions_total (partitions : list (Z * Z)) : Z :=
  match last partitions with Some p => p.2 | None => 0%Z end.

Section rewrite.
Context (node_map : dict string (dict string val)) (shards : dict string (list string)).

Definition shard_node (raw_node_id : string) (base_node : dict string val) (total : Z) (shard_idx : nat)
(shard_name : string) (partition : Z * Z) : result (dict string val) :=
let rewritten_node := dset "name" (VStr shard_name) base_node in
match as_dict (vget "spec" rewritten_node) with
| None => Err (ValueError ("FlowMesh node '" +:+ raw_node_id +:+ "' has invalid spec type for rewrite"))
| Some spec =>
  match as_dict (vget "data" spec) with
  | None => Err (ValueError ("Unsupported shard boundary for raw node '" +:+ raw_node_id
                   +:+ "': spec.data is missing or invalid"))
  | Some spec_data =>
      data ← slice_static_lists raw_node_id partition.1 partition.2 total (VDict spec_data);
      spec ← rewrite_shard_node_references raw_node_id shard_idx shards (VDict (dset "data" data spec));
      spec ← inline_unsharded_dependency_slices raw_node_id partition.1 partition.2 total shards node_map spec;
      deps ← rewrite_shard_dependencies shard_idx shards (vget "dependsOn" rewritten_node);
      Ok (dset "dependsOn" (VList (VStr <$> deps)) (dset "spec" spec rewritten_node))
  end
end.

(** [for shard_idx, shard_name in enumerate(shard_names)] *)
Fixpoint shard_nodes_from (raw_node_id : string) (base_node : dict string val) (total : Z) (shard_idx : nat)
(shard_names : list string) (partitions : list (Z * Z)) : result (list (dict string val)) :=
match shard_names, partitions with
| name :: names, partition :: partitions =>
  node ← shard_node raw_node_id base_node total shard_idx name partition;
  nodes ← shard_nodes_from raw_node_id base_node total (S shard_idx) names partitions;
  Ok (node :: nodes)
| _, _ => Ok []
end.

Definition rewrite_node (plan : shard_plan) (merge_required_nodes : list string) (node_id : string) :
result (list (dict string val) * list (string * string)) :=
let base_node := dget_or [] node_id node_map in
match dget node_id shards with
| None => Ok ([base_node], [(node_id, node_id)])
| Some shard_names =>
  partitions ← dindex (KeyError node_id) node_id (partitions_by_raw plan);
  if negb (Nat.eqb (length partitions) (length shard_names)) then
    Err (ValueError ("Internal shard rewrite mismatch for raw node '" +:+ node_id +:+ "'"))
  else
    nodes ← shard_nodes_from node_id base_node (partitions_total partitions) 0 shard_names partitions;
    let raw := (λ name, (name, node_id)) <$> shard_names in
    if bool_decide (node_id ∈ merge_required_nodes) then
      merge ← build_merge_node node_id base_node shard_names partitions;
      Ok (nodes ++ [merge], raw ++ [(node_id, node_id)])
    else Ok (nodes, raw)
end.
End rewrite.

(** ** The worker assignment *)

Definition index_node_workers (shards : dict string (list string))
    (st : dict string (dict string nat) * dict string string) (entry : string * list string) :
    result (dict string (dict string nat) * dict string string) :=
  match dget entry.1 shards with
  | None => Ok st
  | Some expected_shard_nodes =>
      match entry.2 with
      | [] => Err (ValueError ("Invalid shard rewrite assignment: missing worker candidates for node '"
                    +:+ entry.1 +:+ "'"))
      | primary :: _ =>
          if negb (Nat.eqb (length entry.2) (length expected_shard_nodes)) then
            Err (ValueError ("Invalid shard rewrite assignment: shard worker count mismatch for node '"
                   +:+ entry.1 +:+ "'"))
          else Ok (dset entry.1 (dict_of (imap (λ idx w, (w, idx)) entry.2)) st.1, dset entry.1 primary st.2)
      end
  end.

Section assignment.
Context (shards : dict string (list string)) (merge_nodes : list string).

(** A merge node goes to a worker without a shard of it, or else to the worker
of its first shard. *)
Definition merge_host (worker_ids : list string) (shard_index_by_worker : dict string (dict string nat))
(primary_worker_by_raw : dict string string) (hosts : dict string string) (node_id : string) :
result (dict string string) :=
if negb (dmem node_id shards) then Ok hosts
else
match filter (λ w, w ∉ dkeys (dget_or [] node_id shard_index_by_worker)) worker_ids with
| worker :: _ => Ok (dset node_id worker hosts)
| [] =>
    match dget node_id primary_worker_by_raw with
    | Some worker => Ok (dset node_id worker hosts)
    | None => Err (ValueError ("Invalid shard rewrite assignment: missing primary worker for merge node '"
                    +:+ node_id +:+ "'"))
    end
end.

Definition hosts_merge (hosts : dict string string) (worker node_id : string) : bool :=
(bool_decide (node_id ∈ merge_nodes) && bool_decide (dget node_id hosts = Some worker))%bool.

(** [seen] holds the names of [out]. *)
Definition assign_node (shard_index_by_worker : dict string (dict string nat)) (hosts : dict string string)
(worker : string) (out : list string) (node_id : string) : result (list string) :=
mapped ← match dget node_id shards with
       | None => Ok (Some node_id)
       | Some shard_nodes =>
           match dget worker (dget_or [] node_id shard_index_by_worker) with
           | None => Ok (if hosts_merge hosts worker node_id then Some node_id else None)
           | Some shard_idx => name ← ok_or (IndexError "list index out of range") (shard_nodes !! shard_idx); Ok (Some name)
           end
       end;
match mapped with
| None => Ok out
| Some mapped =>
  if bool_decide (mapped ∈ out) then Ok out
  else Ok (if hosts_merge hosts worker node_id then add_new node_id (out ++ [mapped]) else out ++ [mapped])
end.

Definition add_merge_host (rewritten : dict string (list string)) (entry : string * string) : dict string (list string) :=
dset entry.2 (add_new entry.1 (dget_or [] entry.2 rewritten)) rewritten.

Definition rewrite_worker_assignment_for_shards (original_assignment node_candidates : dict string (list string)) :
result (dict string (list string)) :=
index ← foldR (index_node_workers shards) ([], []) node_candidates;
hosts ← foldR (merge_host (dkeys original_assignment) index.1 index.2) [] merge_nodes;
rewritten ← mapR (λ kv : string * list string,
out ← foldR (assign_node index.1 hosts kv.1) [] kv.2; Ok (kv.1, out)) original_assignment;
Ok (foldl add_merge_host rewritten hosts).
End assignment.

(** ** The rewrite *)

Definition index_flowmesh_node (st : dict string (dict string val) * list string) (node : dict string val) :
    result (dict string (dict string val) * list string) :=
  match vget "name" node with
  | VStr name =>
      if String.eqb name "" then Err (ValueError "FlowMesh node is missing a valid 'name'")
      else if dmem name st.1 then Err (ValueError ("Duplicate FlowMesh node name: " +:+ name))
      else Ok (dset name node st.1, st.2 ++ [name])
  | _ => Err (ValueError "FlowMesh node is missing a valid 'name'")
  end.

(** [str(node.get("name"))] of a rewritten node, whose name is a string. *)
Definition node_name (node : dict string val) : string := match vget "name" node with VStr s => s | _ => "" end.

Definition explicit_intent (candidates : dict string (list string)) : dict string (list string) :=
  filter (λ kv, 1 < length kv.2) candidates.

Definition rewrite_all (plan : shard_plan) (node_order : list string) (node_map : dict string (dict string val))
    (explicit candidates normalized : dict string (list string)) (output_node_names : list string) :
    result ShardRewriteResult :=
  let effective := pin_non_explicit_unsharded_nodes explicit plan candidates in
  let input_assignment := prune_worker_assignment_to_candidates normalized effective in
  let shards := shard_nodes_by_raw plan in
  let merge_required_nodes := compute_merge_required_nodes node_order node_map shards output_node_names in
  rewritten ← mapR (rewrite_node node_map shards plan merge_required_nodes) node_order;
  let nodes := concat rewritten.*1 in
  assignment ← rewrite_worker_assignment_for_shards shards merge_required_nodes input_assignment effective;
  if forallb (λ n, existsb (λ names, bool_decide (n ∈ names)) (dvals assignment)) (node_name <$> nodes)
  then Ok (mkShardRewriteResult nodes assignment (dict_of (concat rewritten.*2)))
  else Err (ValueError "Rewritten schedule does not cover all flowmesh nodes.").

Definition rewrite_nodes_for_shard_intent (nodes : list (dict string val)) (worker_assignment : dict string (list string))
    (output_node_names : list string) : result ShardRewriteResult :=
  indexed ← foldR index_flowmesh_node ([], []) nodes;
  let '(node_map, node_order) := indexed in
  collected ← collect_node_worker_candidates worker_assignment node_order;
  let '(candidates, normalized) := collected in
  let explicit := explicit_intent candidates in
  match explicit with
  | [] => Ok (mkShardRewriteResult ((λ n, dget_or [] n node_map) <$> node_order) normalized
            (dict_of ((λ n, (n, n)) <$> node_order)))
  | _ =>
      rewrite_order ← build_shard_rewrite_topological_order node_order node_map;
      plan ← foldR (plan_node node_map explicit) (mkShardPlan [] [] candidates) rewrite_order;
      rewrite_all plan node_order node_map explicit candidates normalized output_node_names
  end.

(** ** The schedule hint of the submitted workflow *)

Definition valid_name (node : dict string val) : result string :=
  match vget "name" node with
  | VStr name => if String.eqb name "" then Err (ValueError "FlowMesh rewritten node is missing a valid 'name'") else Ok name
  | _ => Err (ValueError "FlowMesh rewritten node is missing a valid 'name'")
  end.

(** [dependsOn] of a FlowMesh node is a list. *)
Definition hint_dependencies (nodes : list (dict string val)) : dict string (list string) :=
  dict_of ((λ node, (node_name node, str_deps node)) <$> nodes).

Definition build_schedule_hint (nodes : list (dict string val)) (worker_assignment : dict string (list string)) :
    result (list string * dict string (list string)) :=
  node_names ← mapR valid_name nodes;
  build_flat_schedule_hint worker_assignment node_names (hint_dependencies nodes).

(** ** Examples (test_shard_rewrite.py, test_schedule_hint_topology.py) *)

Definition two_nodes (path : string) (items : list val) : list (dict string val) :=
  [[("name", VStr "n0"); ("dependsOn", VList []);
    ("spec", VDict [("data", VDict [("type", VStr "list"); ("items", VList items)])])];
   [("name", VStr "n1"); ("dependsOn", VList [VStr "n0"]);
    ("spec", VDict [("data", VDict [("type", VStr "graph_template"); ("template", VDict [("columns", VList
      [VDict [("label", VStr "x"); ("node", VStr "n0"); ("path", VStr path)]])])])])]].

Definition letters : list val := [VStr "a"; VStr "b"; VStr "c"; VStr "d"].

Example expands_nodes : ∃ nodes raw,
  rewrite_nodes_for_shard_intent (two_nodes "items[0].output" letters) [("gpu-0", ["n0"; "n1"]); ("gpu-1", ["n0"])] []
  = Ok (mkShardRewriteResult nodes [("gpu-0", ["n0__shard_0"; "n0"; "n1"]); ("gpu-1", ["n0__shard_1"])] raw) ∧
  node_name <$> nodes = ["n0__shard_0"; "n0__shard_1"; "n0"; "n1"] ∧
  vget "dependsOn" (nodes !!! 2) = VList [VStr "n0__shard_0"; VStr "n0__shard_1"].
Proof. do 2 eexists. split; [vm_compute; reflexivity|]. by split; vm_compute. Qed.

Example caps_shards : ∃ nodes assignment raw,
  rewrite_nodes_for_shard_intent (two_nodes "items[0].output" [VStr "a"; VStr "b"])
    [("gpu-0", ["n0"; "n1"]); ("gpu-1", ["n0"; "n1"]); ("gpu-2", ["n0"; "n1"])] []
  = Ok (mkShardRewriteResult nodes assignment raw) ∧
  node_name <$> nodes = ["n0__shard_0"; "n0__shard_1"; "n1__shard_0"; "n1__shard_1"] ∧
  dget "gpu-2" assignment = Some [] ∧ vget "dependsOn" (nodes !!! 3) = VList [VStr "n0__shard_1"].
Proof. do 3 eexists. split; [vm_compute; reflexivity|]. by repeat split; vm_compute. Qed.

Example hint_ex :
  build_flat_schedule_hint [("w1", ["b"; "a"]); ("w2", ["c"; "a"])] ["a"; "b"; "c"] [("b", ["a"])]
  = Ok (["a"; "b"; "c"], [("a", ["w1"; "w2"]); ("b", ["w1"]); ("c", ["w2"])]).
Proof. vm_compute. reflexivity. Qed.
