(* ===== verification/ShardDataProps.v ===== *)
(** * Properties of the shards of one node

    The index ranges of a sharded node cut its rows into contiguous, balanced
    pieces; the slices of every static list put together are the list; the
    rows inlined for an unsharded dependency are the rows of the shard. *)

From Stdlib Require Import Ascii.
From S2P Require Import Prelude PyFloat PyDict PyValue PyString ShardData.

(** ** Ranges *)

(** [parts] leads from [start] to [stop] without gaps or overlaps. *)
Fixpoint contiguous (start : Z) (parts : list (Z * Z)) (stop : Z) : Prop :=
  match parts with
  | [] => start = stop
  | p :: parts => p.1 = start ∧ (p.1 <= p.2)%Z ∧ contiguous p.2 parts stop
  end.

Lemma contiguous_app a parts b c s : contiguous a parts b → (b <= c)%Z → s = b → contiguous a (parts ++ [(s, c)]) c.
Proof.
  revert a. induction parts as [|p parts IH]; intros a; simpl.
  - intros -> ? ->. done.
  - intros (-> & ? & H) ??. split; [done|]. split; [done|]. by apply IH.
Qed.

Lemma contiguous_le a parts b : contiguous a parts b → (a <= b)%Z.
Proof. revert a. induction parts as [|p parts IH]; intros a; simpl; [lia|]. intros (<- & ? & H%IH). lia. Qed.

Lemma contiguous_bounds a parts b p : contiguous a parts b → p ∈ parts → (a <= p.1 <= p.2)%Z ∧ (p.2 <= b)%Z.
Proof.
  revert a. induction parts as [|q parts IH]; intros a; simpl; [by intros _ ?%elem_of_nil|].
  intros (<- & ? & H) [->|Hp]%elem_of_cons.
  - apply contiguous_le in H. lia.
  - apply (IH _ H) in Hp. lia.
Qed.

Lemma contiguous_last a parts b : contiguous a parts b → parts ≠ [] → ∃ p, last parts = Some p ∧ p.2 = b.
Proof.
  revert a. induction parts as [|p parts IH]; intros a; simpl; [done|]. intros (_ & _ & H) _.
  destruct parts as [|q parts]; [by exists p|]. by apply (IH p.2).
Qed.

Section ranges.
Context {A : Type}.

Lemma zrange_app a b c : (a <= b <= c)%Z → zrange a b ++ zrange b c = zrange a c.
Proof.
intros H. unfold zrange. replace (Z.to_nat (c - a)) with (Z.to_nat (b - a) + Z.to_nat (c - b)) by lia.
rewrite seq_app, fmap_app. f_equal. simpl. rewrite <-(Nat.add_0_r (Z.to_nat (b - a))) at 1.
rewrite <-fmap_add_seq, <-list_fmap_compose. apply list_fmap_ext. intros i x _. simpl. lia.
Qed.

Lemma zrange_empty a : zrange a a = [].
Proof. unfold zrange. by rewrite Z.sub_diag. Qed.

(** What is computed row by row over contiguous ranges. *)
Lemma zrange_concat (f : Z → A) a parts b :
contiguous a parts b → concat (map (λ p, f <$> zrange p.1 p.2) parts) = f <$> zrange a b.
Proof.
revert a. induction parts as [|p parts IH]; intros a; simpl.
- intros ->. by rewrite zrange_empty.
- intros (<- & ? & H). rewrite (IH _ H), <-fmap_app, zrange_app; [done|]. apply contiguous_le in H. lia.
Qed.

Lemma py_slice_range lo hi (l : list A) :
(0 <= lo <= hi)%Z → (hi <= Z.of_nat (length l))%Z → py_slice lo hi l = take (Z.to_nat (hi - lo)) (drop (Z.to_nat lo) l).
Proof.
intros H1 H2. pose proof (py_slice_nat (Z.to_nat lo) (Z.to_nat (hi - lo)) l) as H.
rewrite !Z2Nat.id in H by lia. replace (lo + (hi - lo))%Z with hi in H by lia. apply H. lia.
Qed.

Lemma py_slice_whole (l : list A) : py_slice 0 (Z.of_nat (length l)) l = l.
Proof. rewrite py_slice_range by lia. simpl. rewrite Z.sub_0_r, Nat2Z.id. by rewrite firstn_all. Qed.

Lemma slices_concat (l : list A) a parts b :
contiguous a parts b → (0 <= a)%Z → (b <= Z.of_nat (length l))%Z →
concat (map (λ p, py_slice p.1 p.2 l) parts) = py_slice a b l.
Proof.
revert a. induction parts as [|p parts IH]; intros a; simpl.
- intros -> ??. rewrite py_slice_range by lia. by rewrite Z.sub_diag.
- intros (<- & ? & H) ??. pose proof (contiguous_le _ _ _ H). rewrite (IH _ H) by lia.
  rewrite !py_slice_range by lia. replace (Z.to_nat (b - p.1)) with (Z.to_nat (p.2 - p.1) + Z.to_nat (b - p.2)) by lia.
  rewrite <-take_take_drop, drop_drop. do 3 f_equal. lia.
Qed.
End ranges.

(** ** The partitions *)

Section partitions.
Context (total shard_count : Z).
Local Abbreviation rows := (Z.max 1 total).
Local Abbreviation count := (Z.max 1 shard_count).

Lemma partitions_fold k :
let st := foldl (add_partition (rows / count) (rows mod count)) ([], 0%Z) (seq 0 k) in
st.2 = (Z.of_nat k * (rows / count) + Z.min (Z.of_nat k) (rows mod count))%Z ∧
contiguous 0 st.1 st.2 ∧ length st.1 = k ∧
Forall (λ p, p.2 - p.1 = rows / count ∨ p.2 - p.1 = rows / count + 1)%Z st.1.
Proof.
pose proof (Z.mod_pos_bound rows count ltac:(lia)). pose proof (Z.div_pos rows count ltac:(lia) ltac:(lia)).
induction k as [|k IH]; [simpl; split; [lia|]; by split|]. rewrite seq_S, foldl_app. simpl.
destruct IH as (H1 & H2 & H3 & H4). set (st := foldl _ _ _) in *. unfold add_partition. cbn [fst snd].
split; [destruct (Z.ltb_spec (Z.of_nat k) (rows mod count)); lia|]. split.
- apply contiguous_app with (b := st.2); [done| |done]. destruct (Z.ltb_spec (Z.of_nat k) (rows mod count)); lia.
- split; [rewrite length_app, H3; simpl; lia|]. apply Forall_app. split; [done|]. apply Forall_singleton. cbn [fst snd].
  destruct (Z.ltb_spec (Z.of_nat k) (rows mod count)); lia.
Qed.

Lemma partitions_contiguous : contiguous 0 (build_index_partitions total shard_count) rows.
Proof.
destruct (partitions_fold (Z.to_nat count)) as (H1 & H2 & _). unfold build_index_partitions. cbv zeta in *.
rewrite H1 in H2. rewrite Z2Nat.id in H2 by lia.
pose proof (Z.mod_pos_bound rows count ltac:(lia)). pose proof (Z.div_mod rows count ltac:(lia)).
replace (count * (rows / count) + Z.min count (rows mod count))%Z with rows in H2 by lia. done.
Qed.

Lemma length_partitions : length (build_index_partitions total shard_count) = Z.to_nat count.
Proof. by destruct (partitions_fold (Z.to_nat count)) as (_ & _ & ? & _). Qed.

Lemma partitions_sizes :
Forall (λ p, p.2 - p.1 = rows / count ∨ p.2 - p.1 = rows / count + 1)%Z (build_index_partitions total shard_count).
Proof. by destruct (partitions_fold (Z.to_nat count)) as (_ & _ & _ & ?). Qed.
End partitions.

(** The ranges of a node of [total] rows on [shard_count] shards start at row
    0, follow each other without gap or overlap, end at the last row, differ
    in size by at most one row, and none of them is empty when there are at
    least as many rows as shards. *)
Theorem partitions_cover (total shard_count : Z) (Ht : (1 <= total)%Z) (Hc : (1 <= shard_count)%Z) :
  let parts := build_index_partitions total shard_count in
  contiguous 0 parts total ∧ length parts = Z.to_nat shard_count ∧
  (∀ p q, p ∈ parts → q ∈ parts → Z.abs ((p.2 - p.1) - (q.2 - q.1)) <= 1)%Z ∧
  ((shard_count <= total)%Z → ∀ p, p ∈ parts → (p.1 < p.2)%Z).
Proof.
  intros parts. pose proof (partitions_contiguous total shard_count) as H1.
  pose proof (length_partitions total shard_count) as H2. pose proof (partitions_sizes total shard_count) as H3.
  rewrite Z.max_r in H1, H2, H3 by done. rewrite Z.max_r in H3 by done. rewrite Forall_forall in H3.
  split; [done|]. split; [done|]. split.
  - intros p q Hp%H3 Hq%H3. lia.
  - intros Hle p Hp%H3. assert (1 <= total / shard_count)%Z by (apply Z.div_le_lower_bound; lia). lia.
Qed.

Lemma partitions_cover_witness :
  let parts := build_index_partitions 7 3 in contiguous 0 parts 7 ∧ length parts = 3 ∧
  (∀ p q, p ∈ parts → q ∈ parts → Z.abs ((p.2 - p.1) - (q.2 - q.1)) <= 1)%Z ∧
  ((3 <= 7)%Z → ∀ p, p ∈ parts → (p.1 < p.2)%Z).
Proof. apply (partitions_cover 7 3); lia. Defined.

(** ** Static lists *)

(** A place in a spec that the slicing reaches: it does not go below the items
    of a typed value. *)
Inductive place_step := Field (key : string) | Item (idx : nat).

Fixpoint walk (path : list place_step) (v : val) : option val :=
  match path, v with
  | [], _ => Some v
  | Field key :: path, VDict d =>
      if (String.eqb key "items" && is_typed d)%bool then None else dget key d ≫= walk path
  | Item idx :: path, VList l => l !! idx ≫= walk path
  | _, _ => None
  end.

(** The static list at a place. *)
Definition static_at (path : list place_step) (v : val) : option (list val) :=
  match walk path v with Some (VDict d) => static_items d | _ => None end.

(** What every shard has in common at a place: a value that is neither a dict nor a
list, and the items of a typed value that is no static list, with all that is
below them. *)
Definition whole_at (path : list place_step) (v : val) : option val :=
  match walk path v with
  | Some (VDict d) => if (is_typed d && bool_decide (static_items d = None))%bool then dget "items" d else None
  | Some (VList _) => None
  | v => v
  end.

(** What a shard keeps of a static list. *)
Definition kept (start stop total : Z) (l : list val) : list val :=
  if decide (Z.of_nat (length l) = total) then py_slice start stop l else l.

Section slices.
Context (raw_node_id : string) (start stop total : Z).
Local Abbreviation slice := (slice_static_lists raw_node_id start stop total).

(** What happens to one entry of a dict. *)
Definition sliced_entry (d : dict string val) (kv kv' : string * val) : Prop :=
kv'.1 = kv.1 ∧
if (String.eqb kv.1 "items" && is_typed d)%bool
then ∃ items, cut_items raw_node_id start stop total d = Ok items ∧ kv'.2 = default kv.2 items
else slice kv.2 = Ok kv'.2.

Lemma slice_dict_inv d v' : slice (VDict d) = Ok v' →
∃ d', v' = VDict d' ∧ is_Some (match cut_items raw_node_id start stop total d with Ok i => Some i | _ => None end) ∧
  Forall2 (sliced_entry d) d d'.
Proof.
simpl. intros H. apply result_bind_ok in H as (items & Hi & H). apply result_bind_ok in H as (d' & Hd & [= <-]).
exists d'. split; [done|]. split; [by rewrite Hi|]. apply mapR_ok_inv in Hd. eapply Forall2_impl; [exact Hd|].
intros kv kv'. unfold sliced_entry. destruct (_ && _)%bool.
2:{ intros (x & Hx & [= <-])%result_bind_ok. done. }
intros [= <-]. split; [done|]. by exists items.
Qed.

Lemma sliced_entry_get d (P : list (string * val)) d' k :
Forall2 (sliced_entry d) P d' →
match dget k P, dget k d' with
| Some v, Some v' => sliced_entry d (k, v) (k, v')
| None, None => True
| _, _ => False
end.
Proof.
induction 1 as [|[k1 v] [k2 v'] l l' H Hl IH]; simpl; [done|].
pose proof H as [E _]. simpl in E. subst k2. by case_decide; subst.
Qed.

(** Slicing keeps the type of a value. *)
Lemma sliced_type d d' t :
Forall2 (sliced_entry d) d d' → vget "type" d = VStr t → vget "type" d' = VStr t.
Proof.
intros H. apply (sliced_entry_get d d d' "type") in H. unfold vget, dget_or.
destruct (dget "type" d) as [v|], (dget "type" d') as [v'|]; try done.
destruct H as [_ H]. simpl in H. intros ->. simpl in H. by injection H as <-.
Qed.

Lemma sliced_typed d d' : Forall2 (sliced_entry d) d d' → is_typed d' = is_typed d.
Proof.
intros Hf. unfold is_typed, vget, dget_or. apply (sliced_entry_get d d d' "type") in Hf.
destruct (dget "type" d) as [v|], (dget "type" d') as [v'|]; try done. destruct Hf as [_ Hf]. cbn [fst snd andb] in Hf.
change (String.eqb "type" "items") with false in Hf. cbn [andb] in Hf.
destruct v; simpl in Hf; try (by injection Hf as <-); by inv_ok.
Qed.

Lemma walk_slice path v v' w :
slice v = Ok v' → walk path v = Some w → ∃ w', walk path v' = Some w' ∧ slice w = Ok w'.
Proof.
revert v v'. induction path as [|[key|idx] path IH]; intros v v' Hs Hw; simpl in Hw.
- injection Hw as <-. by exists v'.
- destruct v as [| | | | | | |d]; try done. apply slice_dict_inv in Hs as (d' & -> & _ & Hd). simpl.
  rewrite (sliced_typed _ _ Hd). destruct (_ && _)%bool eqn:Eb; [done|].
  apply (sliced_entry_get d d d' key) in Hd. destruct (dget key d) as [x|]; [|done]. simpl in Hw.
  destruct (dget key d') as [x'|]; [|done]. simpl. destruct Hd as [_ Hd]. cbn [fst snd] in Hd. rewrite Eb in Hd. by apply (IH x).
- destruct v as [| | | | |l| |]; try done. simpl in Hs. apply result_bind_ok in Hs as (l' & Hl & [= <-]). simpl.
  apply mapR_ok_inv in Hl. destruct (l !! idx) as [x|] eqn:E; [|done].
  destruct (Forall2_lookup_l _ _ _ _ _ Hl E) as (x' & -> & Hx). simpl. by apply (IH x).
Qed.

Lemma static_type d l : static_items d = Some l → vget "type" d = VStr "list" ∧ dget "items" d = Some (VList l).
Proof.
unfold static_items. destruct (vget "type" d) as [| | | |t| | |]; try done. unfold vget, dget_or.
destruct (dget "items" d) as [[| | | | |l'| |]|]; try done. destruct (String.eqb_spec t "list") as [->|]; naive_solver.
Qed.

(** The slice of a static list. *)
Lemma slice_static d l v' : static_items d = Some l → slice (VDict d) = Ok v' →
(Z.of_nat (length l) = total ∨ length l = 1) ∧
∃ d', v' = VDict d' ∧ static_items d' = Some (kept start stop total l).
Proof.
intros Hst Hs. pose proof (static_type _ _ Hst) as [Ht Hi]. apply slice_dict_inv in Hs as (d' & -> & Hc & Hd).
pose proof (sliced_type _ _ _ Hd Ht) as Ht'.
pose proof (sliced_entry_get d d d' "items" Hd) as He. rewrite Hi in He. destruct (dget "items" d') as [x'|] eqn:E'; [|done].
destruct He as [_ He]. simpl in He. unfold is_typed in He. rewrite Ht in He. destruct He as (items & Hcut & ->).
assert (Hd' : ∀ l', dget "items" d' = Some (VList l') → static_items d' = Some l').
{ intros l' El. unfold static_items. rewrite Ht'. unfold vget, dget_or. by rewrite El. }
unfold cut_items in Hcut. rewrite Hst in Hcut. unfold kept.
destruct (Z.eqb_spec (Z.of_nat (length l)) total) as [El|El].
- injection Hcut as <-. split; [by left|]. exists d'. split; [done|]. rewrite decide_True by done. by apply Hd'.
- destruct (Nat.eqb_spec (length l) 1) as [E1|]; [|done]. injection Hcut as <-. split; [by right|].
  exists d'. split; [done|]. rewrite decide_False by done. by apply Hd'.
Qed.

Lemma static_at_slice path v v' l : static_at path v = Some l → slice v = Ok v' →
(Z.of_nat (length l) = total ∨ length l = 1) ∧ static_at path v' = Some (kept start stop total l).
Proof.
unfold static_at. intros Hat Hs. destruct (walk path v) as [w|] eqn:Ew; [|done].
destruct w as [| | | | | | |d]; try done. destruct (walk_slice _ _ _ _ Hs Ew) as (w' & Ew' & Hw').
rewrite Ew'. destruct (slice_static _ _ _ Hat Hw') as (H & d' & -> & H'). by split.
Qed.

Lemma whole_at_slice path v v' x : whole_at path v = Some x → slice v = Ok v' → whole_at path v' = Some x.
Proof.
unfold whole_at. intros Hat Hs. destruct (walk path v) as [w|] eqn:Ew; [|done]. destruct (walk_slice _ _ _ _ Hs Ew) as (w' & -> & Hw').
destruct w as [| | | | | | |d]; try (by injection Hat as <-; injection Hw' as <-); [done|].
destruct (is_typed d) eqn:Et; [|done]. case_bool_decide as Hst; [|done]. cbn [andb] in Hat.
apply slice_dict_inv in Hw' as (d' & -> & Hc & Hd). rewrite (sliced_typed _ _ Hd), Et. unfold cut_items in Hc. rewrite Hst in Hc.
pose proof (sliced_entry_get d d d' "items" Hd) as He. rewrite Hat in He. destruct (dget "items" d') as [x'|] eqn:Ex; [|done].
destruct He as [_ He]. cbn [fst snd] in He. rewrite Et in He. destruct He as (items & Hi & ->). unfold cut_items in Hi. rewrite Hst, Hat in Hi.
injection Hi as <-. simpl in Ex |- *. assert (Hst' : static_items d' = None).
{ unfold static_items in Hst |- *. unfold is_typed in Et. destruct (vget "type" d) as [| | | |t| | |] eqn:E; try done. rewrite (sliced_type _ _ _ Hd E).
  unfold vget, dget_or in Hst |- *. rewrite Ex. rewrite Hat in Hst. done. }
by rewrite bool_decide_eq_true_2.
Qed.

(** Slicing fails on nothing but a static list of another length. *)
Lemma slice_total v :
Forall (λ n, n = 1 ∨ n = total)%Z (collect_static_list_lengths v) → ∃ v', slice v = Ok v'.
Proof.
induction v as [| | | | |l IH|l IH|d IH] using val_nested_ind; simpl; intros H; try by eexists.
- destruct (mapR_ok_total slice l) as [l' ->]; [|by eexists]. rewrite Forall_forall in IH |- *. intros x Hx.
  apply IH; [done|]. rewrite Forall_forall in H |- *. intros n Hn. apply H. apply list_elem_of_In, in_concat.
  exists (collect_static_list_lengths x). split; [by apply in_map, list_elem_of_In|by apply list_elem_of_In].
- apply Forall_app in H as [H1 H2].
  assert (Hcut : ∃ items, cut_items raw_node_id start stop total d = Ok items).
  { unfold cut_items. destruct (static_items d) as [l|]; [|by eexists]. apply Forall_inv in H1.
    destruct (Z.eqb_spec (Z.of_nat (length l)) total); [by eexists|].
    destruct (Nat.eqb_spec (length l) 1); [by eexists|lia]. }
  destruct Hcut as [items ->]. simpl.
  match goal with |- context [mapR ?f d] => destruct (mapR_ok_total f d) as [d' ->]; [|by eexists] end.
  rewrite Forall_forall in IH |- *. intros kv Hkv. destruct (_ && _)%bool; [by eexists|].
  destruct (IH kv Hkv) as [v' ->]; [|by eexists].
  rewrite Forall_forall in H2 |- *. intros n Hn. apply H2. apply list_elem_of_In, in_concat.
  exists (collect_static_list_lengths kv.2). split; [|by apply list_elem_of_In].
  apply in_map_iff. exists kv. split; [done|by apply list_elem_of_In].
Qed.
End slices.

(** What a resolved size says of the static lists. *)
Lemma zmax_spec x l : (zmax x l ∈ x :: l) ∧ (∀ y, y ∈ x :: l → (y <= zmax x l)%Z).
Proof.
  unfold zmax. revert x. induction l as [|y l IH]; intros x; simpl.
  - split; [left|]. intros y ->%list_elem_of_singleton. done.
  - destruct (IH (Z.max x y)) as [H1 H2]. split.
    + apply elem_of_cons in H1 as [E|H1]; [|by do 2 right]. rewrite E.
      destruct (Z.max_spec x y) as [[_ ->]|[_ ->]]; [right; left|left].
    + intros z [->|[->|Hz]%elem_of_cons]%elem_of_cons.
      * etrans; [apply (Z.le_max_l x y)|]. apply H2. left.
      * etrans; [apply (Z.le_max_r x y)|]. apply H2. left.
      * apply H2. by right.
Qed.

Lemma misaligned_false total n : misaligned total n = false ↔ (n = 1 ∨ n = total)%Z.
Proof. unfold misaligned. rewrite negb_false_iff, orb_true_iff, !Z.eqb_eq. done. Qed.

Lemma aligned_spec (total : Z) l :
  existsb (misaligned total) l = false ↔ Forall (λ n, n = 1 ∨ n = total)%Z l.
Proof.
  induction l as [|n l IH]; simpl; [split; [constructor|done]|].
  by rewrite orb_false_iff, IH, misaligned_false, Forall_cons.
Qed.

Lemma lengths_nonneg v n : n ∈ collect_static_list_lengths v → (0 <= n)%Z.
Proof.
  revert n. induction v as [| | | | |l IH|l IH|d IH] using val_nested_ind; intros n; simpl;
    try by intros ?%elem_of_nil.
  - rewrite list_elem_of_In, in_concat. intros (ns & (x & <- & Hx)%in_map_iff & Hn).
    rewrite Forall_forall in IH. apply (IH x); by apply list_elem_of_In.
  - intros [Hn|Hn]%elem_of_app.
    + destruct (static_items d); [|by apply elem_of_nil in Hn]. apply list_elem_of_singleton in Hn as ->. lia.
    + rewrite list_elem_of_In, in_concat in Hn. destruct Hn as (ns & (x & <- & Hx)%in_map_iff & Hn).
      rewrite Forall_forall in IH. apply (IH x); by apply list_elem_of_In.
Qed.

Lemma resolve_lengths raw_node_id ctx d total :
  resolve_static_partition_total raw_node_id d ctx = Ok (Some total) →
  (0%Z ∉ collect_static_list_lengths (VDict d)) →
  (1 <= total)%Z ∧ Forall (λ n, n = 1 ∨ n = total)%Z (collect_static_list_lengths (VDict d)).
Proof.
  unfold resolve_static_partition_total. pose proof (lengths_nonneg (VDict d)) as Hnn.
  destruct (collect_static_list_lengths (VDict d)) as [|x l]; [done|]. destruct (existsb _ _) eqn:E; [done|].
  intros [= <-] H0. apply aligned_spec in E. destruct (zmax_spec x l) as [Hin Hle].
  assert (zmax x l ≠ 0)%Z by (intros Ez; rewrite Ez in Hin; done). specialize (Hnn _ Hin). split; [lia|].
  replace (Z.max 1 (zmax x l)) with (zmax x l) by lia. done.
Qed.

(** The rows that a node's static lists give: as many as the longest list has
items, at least one; every other list has one item. *)
Definition rows_of_lists (lengths : list Z) (rows : Z) : Prop :=
  lengths ≠ [] ∧ ∃ top, top ∈ lengths ∧ Forall (λ n, (n <= top)%Z ∧ (n = 1 ∨ n = top)%Z) lengths ∧ rows = Z.max 1 top.

Lemma rows_of_lists_unique lengths rows rows' : rows_of_lists lengths rows → rows_of_lists lengths rows' → rows = rows'.
Proof.
  intros (_ & t & Ht & Hall & ->) (_ & t' & Ht' & Hall' & ->). rewrite Forall_forall in Hall, Hall'.
  pose proof (Hall t' Ht') as [? _]. pose proof (Hall' t Ht) as [? _]. lia.
Qed.

Lemma aligned_rows x l : existsb (misaligned (zmax x l)) (x :: l) = false → rows_of_lists (x :: l) (Z.max 1 (zmax x l)).
Proof.
  intros E%aligned_spec. split; [done|]. destruct (zmax_spec x l) as [Hin Hle]. exists (zmax x l). split; [done|]. split; [|done].
  rewrite Forall_forall in E |- *. auto.
Qed.

Lemma resolve_rows raw_node_id ctx d total : resolve_static_partition_total raw_node_id d ctx = Ok total →
  match total with Some rows => rows_of_lists (collect_static_list_lengths (VDict d)) rows | None => collect_static_list_lengths (VDict d) = [] end.
Proof.
  unfold resolve_static_partition_total. destruct (collect_static_list_lengths (VDict d)) as [|x l]; [by intros [= <-]|].
  destruct (existsb _ _) eqn:E; [done|]. intros [= <-]. by apply aligned_rows.
Qed.

(** C35: the slices of a node put together.  The walk of the slicing goes
everywhere but below the items of a typed value ([type] is a string).  At every
place it reaches, the pieces of a static list with one item per row concatenate
to the list, and a list of one item is in every piece.  Nothing else differs
between the pieces: a value that is neither a dict nor a list is in every piece at
its place, and the items of a typed value that is no static list are in every
piece as they are, with the static lists that may be below them.  Slicing
succeeds when the size of the node could be resolved and no static list of it
is empty. *)
Theorem static_lists_reassemble (raw_node_id ctx : string) (d : dict string val) (total shard_count : Z)
    (Htotal : resolve_static_partition_total raw_node_id d ctx = Ok (Some total))
    (Hempty : (0%Z ∉ collect_static_list_lengths (VDict d))) :
  let parts := build_index_partitions total shard_count in
  ∃ pieces,
    mapR (λ p, slice_static_lists raw_node_id p.1 p.2 total (VDict d)) parts = Ok pieces ∧
    (∀ path l, static_at path (VDict d) = Some l →
      (Z.of_nat (length l) = total ∧
       ∃ slices, static_at path <$> pieces = Some <$> slices ∧ concat slices = l) ∨
      (length l = 1 ∧ Forall (λ piece, static_at path piece = Some l) pieces)) ∧
    ∀ path v, whole_at path (VDict d) = Some v → Forall (λ piece, whole_at path piece = Some v) pieces.
Proof.
  intros parts. pose proof (partitions_contiguous total shard_count) as Hc. fold parts in Hc.
  destruct (resolve_lengths _ _ _ _ Htotal Hempty) as [Hpos Hlen].
  destruct (mapR_ok_total (λ p, slice_static_lists raw_node_id p.1 p.2 total (VDict d)) parts) as [pieces Hp].
  { apply Forall_forall. intros p _. by apply slice_total. }
  exists pieces. split; [done|]. apply mapR_ok_inv in Hp. split.
  2: { intros path v Hat. clear -Hp Hat. induction Hp as [|p v' ps vs Hs _ IH]; constructor; [by eapply whole_at_slice|exact IH]. }
  intros path l Hat.
  assert (Hne : parts ≠ []).
  { intros E. pose proof (length_partitions total shard_count) as Hl. fold parts in Hl. rewrite E in Hl. simpl in Hl. lia. }
  assert (Hk : static_at path <$> pieces = Some <$> map (λ p, kept p.1 p.2 total l) parts).
  { clear Hc Hne. induction Hp as [|p v' ps vs Hs Hf IH]; [done|]. csimpl. rewrite IH.
    by destruct (static_at_slice _ _ _ _ _ _ _ _ Hat Hs) as [_ ->]. }
  assert (Hcase : Z.of_nat (length l) = total ∨ length l = 1).
  { destruct Hp as [|p v' ps vs Hs Hf]; [done|]. by destruct (static_at_slice _ _ _ _ _ _ _ _ Hat Hs) as [? _]. }
  unfold kept in Hk. destruct (decide (Z.of_nat (length l) = total)) as [E|E].
  - left. split; [done|]. exists (map (λ p, py_slice p.1 p.2 l) parts). split; [done|].
    rewrite (slices_concat l 0 parts (Z.max 1 total)) by (done || lia). replace (Z.max 1 total) with (Z.of_nat (length l)) by lia.
    apply py_slice_whole.
  - right. destruct Hcase as [|Hone]; [done|]. split; [done|]. apply Forall_forall. intros piece Hpiece.
    assert (Hin : static_at path piece ∈ static_at path <$> pieces) by (by apply list_elem_of_fmap_2).
    rewrite Hk in Hin. by apply list_elem_of_fmap in Hin as (x & -> & (p & <- & _)%list_elem_of_In%in_map_iff).
Qed.

(** The list below the items of a typed value counts for the size of a node, but
it is not cut: each of the three shards has all of its items. *)
Definition nested_list : dict string val :=
  [("type", VStr "message"); ("items", VList [VDict [("type", VStr "list"); ("items", VList [VInt 1; VInt 2; VInt 3])]])].
Example nested_list_is_counted_and_copied :
  resolve_static_partition_total "n" nested_list "n" = Ok (Some 3%Z) ∧
  mapR (λ p, slice_static_lists "n" p.1 p.2 3 (VDict nested_list)) (build_index_partitions 3 3) = Ok (replicate 3 (VDict nested_list)).
Proof. split; vm_compute; reflexivity. Qed.

Lemma static_lists_reassemble_witness :
  let d := [("columns", VList [VDict [("type", VStr "list"); ("items", VList [VInt 1; VInt 2; VInt 3])];
                               VDict [("type", VStr "list"); ("items", VList [VStr "x"])]; VDict nested_list])] in
  let parts := build_index_partitions 3 2 in
  ∃ pieces,
    mapR (λ p, slice_static_lists "n" p.1 p.2 3 (VDict d)) parts = Ok pieces ∧
    (∀ path l, static_at path (VDict d) = Some l →
      (Z.of_nat (length l) = 3%Z ∧
       ∃ slices, static_at path <$> pieces = Some <$> slices ∧ concat slices = l) ∨
      (length l = 1 ∧ Forall (λ piece, static_at path piece = Some l) pieces)) ∧
    ∀ path v, whole_at path (VDict d) = Some v → Forall (λ piece, whole_at path piece = Some v) pieces.
Proof.
  apply (static_lists_reassemble "n" "n" _ 3 2); [reflexivity|]. apply (bool_decide_unpack _). vm_compute. exact I.
Defined.

(** ** Rows of the unsharded dependencies *)

Lemma drop_spaces_app_stop l c r : is_space c = false → drop_spaces (l ++ c :: r) = drop_spaces l ++ c :: r.
Proof. intros Hc. induction l as [|x l IH]; simpl; [by rewrite Hc|]. by destruct (is_space x). Qed.

(** [strip] keeps what is enclosed by characters that are not spaces. *)
Lemma strip_keeps c a c' rest : is_space c = false → is_space c' = false →
  ∃ rest', chars (strip (of_chars (c :: a ++ c' :: rest))) = c :: a ++ c' :: rest'.
Proof.
  intros Hc Hc'. unfold strip. rewrite !chars_of_chars. cbn [drop_spaces]. rewrite Hc.
  exists (reverse (drop_spaces (reverse rest))).
  assert (E : reverse (c :: a ++ c' :: rest) = reverse rest ++ c' :: reverse (c :: a)).
  { rewrite !reverse_cons, reverse_app, reverse_cons. by rewrite <-!app_assoc. }
  rewrite E, drop_spaces_app_stop by done. rewrite reverse_app, reverse_cons, reverse_involutive. simpl.
  by rewrite <-app_assoc.
Qed.

(** A reference to one row is not an unindexed path. *)
Lemma row_path_indexed prefix tail : prefix = "" ∨ prefix = "value." →
  is_unindexed_items_path (prefix +:+ "items[" +:+ tail) = false.
Proof.
  intros Hp. unfold is_unindexed_items_path.
  assert (H : ∃ rest, chars (strip (prefix +:+ "items[" +:+ tail)) = chars prefix ++ chars "items[" ++ rest).
  { rewrite <-(of_chars_chars (prefix +:+ _)), !chars_app. destruct Hp as [->| ->].
    - destruct (strip_keeps "i"%char (chars "tems") "["%char (chars tail)) as [r Hr]; [done..|]. by exists r.
    - destruct (strip_keeps "v"%char (chars "alue.items") "["%char (chars tail)) as [r Hr]; [done..|]. by exists r. }
  destruct H as [rest H]. unfold startswith, starts_with. rewrite H. destruct Hp as [->| ->]; simpl; by rewrite ?H.
Qed.

Definition value_error (e : exn) : Prop := ∃ message, e = ValueError message.

Lemma resolve_value_error raw_node_id d ctx :
  post (λ _, True) value_error (resolve_static_partition_total raw_node_id d ctx).
Proof.
  unfold resolve_static_partition_total. destruct (collect_static_list_lengths _); [done|].
  destruct (existsb _ _); [by eexists|done].
Qed.

Lemma mapR_id {A} (f : A → result A) l : (∀ x, x ∈ l → f x = Ok x) → mapR f l = Ok l.
Proof.
  induction l as [|x l IH]; intros H; [done|]. simpl. rewrite (H x) by left. simpl.
  rewrite IH; [done|]. intros y Hy. apply H. by right.
Qed.

Section inline.
Context (raw_node_id : string) (total : Z).
Context (shards : dict string (list string)) (node_map : dict string (dict string val)).
Local Abbreviation column_of := (λ start stop, inline_column raw_node_id start stop total shards node_map).
Local Abbreviation visit := (λ start stop, inline_visit raw_node_id start stop total shards node_map).

Lemma static_total_value_error dep : post (λ _, True) value_error (dependency_static_total raw_node_id node_map dep).
Proof. unfold dependency_static_total. destruct (_ ≫= _); [apply resolve_value_error|done]. Qed.

(** The rows of the shard, and the data of the column made of them. *)
Definition inlined_row (dep prefix suffix : string) (single : bool) (i : Z) : val :=
row_reference dep prefix suffix (if single then 0%Z else i).

Definition inlined_data (dep prefix suffix : string) (single : bool) (start stop : Z) : val :=
VDict [("type", VStr "list"); ("items", VList (inlined_row dep prefix suffix single <$> zrange start stop))].

Definition row_prefix (prefix : string) : Prop := prefix = "" ∨ prefix = "value.".

(** A column read row by row: what it becomes depends on the range only
  through the rows. *)
Definition inline_parts (dep path : string) : result (string * string * bool) :=
dep_total ← dependency_static_total raw_node_id node_map dep;
match dep_total with
| Some t =>
    if misaligned total t then
      Err (boundary_error raw_node_id ("dependency '" +:+ dep +:+ "' static cardinality " +:+ str_of_size t
        +:+ " does not match shard source cardinality " +:+ str_of_size total))
    else Ok tt
| None => Ok tt
end ;;
suffix ← extract_unindexed_items_suffix path;
Ok (if startswith "value." (strip path) then "value." else "", suffix, bool_decide (dep_total = Some 1%Z)).

Definition inlined (start stop : Z) (d : dict string val) (dep : string) (parts : string * string * bool) : dict string val :=
dset "data" (inlined_data dep parts.1.1 parts.1.2 parts.2 start stop) (ddel "path" (ddel "node" d)).

Lemma inline_slice_parts start stop d dep path :
rewrite_inline_slice raw_node_id start stop total node_map d dep path =
inlined start stop d dep <$> inline_parts dep path.
Proof.
unfold rewrite_inline_slice, inline_parts. destruct (dependency_static_total _ _ _) as [t|e]; [|done]. simpl.
destruct (match t with Some t => _ | None => _ end) as [[]|e]; [|done]. simpl.
destruct (extract_unindexed_items_suffix path) as [suffix|e]; [|done]. simpl. unfold inlined, inlined_data. simpl.
do 7 f_equal. apply list_fmap_ext. intros i x _. unfold inlined_row. by repeat case_match; case_bool_decide.
Qed.

Lemma inline_parts_prefix dep path parts : inline_parts dep path = Ok parts → row_prefix parts.1.1.
Proof.
unfold inline_parts. intros H. inv_ok. simpl. destruct (startswith _ _); [by right|by left].
Qed.

Lemma inline_parts_value_error dep path : post (λ _, True) value_error (inline_parts dep path).
Proof.
unfold inline_parts. apply (post_bind (λ _, True)); [apply static_total_value_error|]. intros t _ _.
apply (post_bind (λ _, True)); [|intros u _ _; apply (post_bind (λ _, True)); [|done]].
- destruct t as [t|]; [|done]. destruct (misaligned total t); [by eexists|done].
- unfold extract_unindexed_items_suffix. destruct (starts_with _ _); [done|by eexists].
Qed.

Lemma inline_column_value_error start stop d : post (λ _, True) value_error (column_of start stop d).
Proof.
unfold inline_column. destruct (vget "node" d) as [| | | |r| | |]; try done. destruct (_ && _)%bool; [|done].
destruct (vget "path" d) as [| | | |q| | |]; try done.
- apply (post_bind (λ _, True)); [apply static_total_value_error|]. intros t _ _. case_decide; [done|by eexists].
- destruct (is_unindexed_items_path q); [|done]. rewrite inline_slice_parts.
  pose proof (inline_parts_value_error r q). by destruct (inline_parts r q).
Qed.

(** The entries of a column are its own, or rows. *)
Lemma inline_column_entries start stop d d' : column_of start stop d = Ok d' →
∀ kv, kv ∈ d' → kv ∈ d ∨ ∃ dep parts, row_prefix parts.1.1 ∧ kv.2 = inlined_data dep parts.1.1 parts.1.2 parts.2 start stop.
Proof.
unfold inline_column. intros H kv Hkv. destruct (vget "node" d) as [| | | |r| | |]; try (by inv_ok; left).
destruct (_ && _)%bool; [|by inv_ok; left]. destruct (vget "path" d) as [| | | |q| | |]; try (by inv_ok; left).
- apply result_bind_ok in H as (t & _ & H). case_decide; [|done]. injection H as <-. by left.
- destruct (is_unindexed_items_path q); [|by inv_ok; left]. rewrite inline_slice_parts in H.
  destruct (inline_parts r q) as [parts|] eqn:E; [|done]. injection H as <-.
  destruct kv as [k v]. apply elem_of_dset in Hkv as [[-> ->]|Hkv].
  + right. exists r, parts. split; [by eapply inline_parts_prefix|done].
  + left. by apply elem_of_ddel in Hkv as [_ [_ Hkv]%elem_of_ddel].
Qed.

(** The walk leaves the rows it has written alone. *)
Lemma visit_row start stop fuel dep prefix suffix i :
row_prefix prefix → 2 <= fuel → visit start stop fuel (row_reference dep prefix suffix i) = Ok (row_reference dep prefix suffix i).
Proof.
intros Hp Hf. destruct fuel as [|[|fuel]]; [lia..|]. unfold row_reference. cbn [inline_visit].
assert (E : column_of start stop [("node", VStr dep); ("path", VStr (prefix +:+ "items[" +:+ str_of_size i +:+ "]" +:+ suffix))]
  = Ok [("node", VStr dep); ("path", VStr (prefix +:+ "items[" +:+ str_of_size i +:+ "]" +:+ suffix))]).
{ unfold inline_column. change (vget "node" _) with (VStr dep). cbv beta iota. destruct (negb (dmem dep shards) && dmem dep node_map)%bool; [|done].
  change (vget "path" _) with (VStr (prefix +:+ "items[" +:+ str_of_size i +:+ "]" +:+ suffix)). cbv iota.
  by rewrite row_path_indexed. }
rewrite E. done.
Qed.

Lemma visit_dict start stop fuel d :
visit start stop (S fuel) (VDict d) =
  d ← column_of start stop d; d' ← mapR (λ kv, v ← visit start stop fuel kv.2; Ok (kv.1, v)) d; Ok (VDict d').
Proof. done. Qed.

Lemma visit_data start stop fuel dep prefix suffix single a b :
row_prefix prefix → 4 <= fuel →
visit start stop fuel (inlined_data dep prefix suffix single a b) = Ok (inlined_data dep prefix suffix single a b).
Proof.
intros Hp Hf. destruct fuel as [|fuel]; [lia|]. unfold inlined_data. rewrite visit_dict.
assert (E : ∀ x, column_of start stop [("type", VStr "list"); ("items", x)] = Ok [("type", VStr "list"); ("items", x)]) by done.
rewrite E. cbn [mbind result_bind]. rewrite mapR_id; [done|].
assert (Hrows : mapR (visit start stop (pred fuel)) (inlined_row dep prefix suffix single <$> zrange a b)
  = Ok (inlined_row dep prefix suffix single <$> zrange a b)).
{ apply mapR_id. intros x (i & -> & _)%list_elem_of_fmap. unfold inlined_row. apply visit_row; [done|lia]. }
destruct fuel as [|fuel]; [lia|]. intros kv [->|[->|[]%elem_of_nil]%elem_of_cons]%elem_of_cons; [done|]. simpl in *.
by rewrite Hrows.
Qed.

Lemma depth_entry (kv : string * val) d : kv ∈ d → S (val_depth kv.2) <= val_depth (VDict d).
Proof.
intros H. simpl. apply le_n_S. induction d as [|x d IH]; [by apply elem_of_nil in H|]. simpl.
apply elem_of_cons in H as [<-|H]; [lia|]. specialize (IH H). lia.
Qed.

Lemma depth_item x l : x ∈ l → S (val_depth x) <= val_depth (VList l).
Proof.
intros H. simpl. apply le_n_S. induction l as [|y l IH]; [by apply elem_of_nil in H|]. simpl.
apply elem_of_cons in H as [<-|H]; [lia|]. specialize (IH H). lia.
Qed.

(** The fuel is enough: the only exceptions are the [ValueError]s of the
  source. *)
Lemma visit_value_error start stop fuel v :
val_depth v + 5 <= fuel → post (λ _, True) value_error (visit start stop fuel v).
Proof.
revert v. induction fuel as [|fuel IH]; intros v Hf; [lia|]. simpl. destruct v as [| | | | |l| |d]; try done.
- apply (post_bind (Forall (λ _, True))); [|done]. apply post_mapR. intros x Hx%depth_item. apply IH. lia.
- apply (post_bind (λ _, True)); [apply inline_column_value_error|]. intros d' Hd' _.
  apply (post_bind (Forall (λ _, True))); [|done]. apply post_mapR. intros kv Hkv.
  apply (post_bind (λ _, True)); [|done].
  destruct (inline_column_entries _ _ _ _ Hd' _ Hkv) as [H%depth_entry|(dep & parts & Hp & ->)]; [apply IH; lia|].
  rewrite visit_data; [done|done|]. assert (1 <= val_depth (VDict d)) by (simpl; lia). lia.
Qed.

Lemma visited_get (f : val → result val) (d d' : dict string val) k v :
mapR (λ kv, v ← f kv.2; Ok (kv.1, v)) d = Ok d' → dget k d = Some v → ∃ v', f v = Ok v' ∧ dget k d' = Some v'.
Proof.
intros H%mapR_ok_inv. induction H as [|[k1 v1] kv' d d' H Hd IH]; simpl; [done|].
apply result_bind_ok in H as (v1' & Hv & [= <-]). simpl in *. case_decide; [|done]. intros [= <-]. by exists v1'.
Qed.

(** The static list of one piece. *)
Lemma visit_column start stop fuel d dep path v' :
6 <= fuel → vget "node" d = VStr dep → vget "path" d = VStr path →
dmem dep shards = false → dmem dep node_map = true → is_unindexed_items_path path = true →
visit start stop fuel (VDict d) = Ok v' →
∃ parts, inline_parts dep path = Ok parts ∧
  static_at [Field "data"] v' = Some (inlined_row dep parts.1.1 parts.1.2 parts.2 <$> zrange start stop).
Proof.
intros Hf Hn Hp Hs Hm Hu H. destruct fuel as [|fuel]; [lia|]. simpl in H.
apply result_bind_ok in H as (d1 & Hc & H). apply result_bind_ok in H as (d2 & Hv & [= <-]).
unfold inline_column in Hc. rewrite Hn, Hs, Hm in Hc. simpl in Hc. rewrite Hp, Hu, inline_slice_parts in Hc.
destruct (inline_parts dep path) as [parts|] eqn:E; [|done]. injection Hc as <-. exists parts. split; [done|].
destruct (visited_get _ _ _ "data" (inlined_data dep parts.1.1 parts.1.2 parts.2 start stop) Hv) as (v' & Hv' & Hd).
- unfold inlined. apply dget_dset_eq.
- rewrite visit_data in Hv' by (lia || by eapply inline_parts_prefix). injection Hv' as <-.
  unfold static_at. cbn [walk]. change (String.eqb "data" "items") with false. cbn [andb]. by rewrite Hd.
Qed.

Lemma inline_parts_single dep path parts : inline_parts dep path = Ok parts →
parts.2 = true ↔ dependency_static_total raw_node_id node_map dep = Ok (Some 1%Z).
Proof.
unfold inline_parts. intros H. apply result_bind_ok in H as (t & -> & H). inv_ok. simpl. rewrite bool_decide_eq_true.
naive_solver.
Qed.
End inline.

Theorem inlining_terminates (raw_node_id : string) (start stop total : Z) (shards : dict string (list string))
    (node_map : dict string (dict string val)) (spec : val) :
  post (λ _, True) value_error (inline_unsharded_dependency_slices raw_node_id start stop total shards node_map spec).
Proof. apply visit_value_error. lia. Qed.

(** A column that names an unsharded node of the graph and reads all its
    items: the pieces of the shards name, one after the other, every row of
    the shard source once and in order (the only row of the dependency each
    time, when it has a single one). *)
Theorem inlined_rows_reassemble (raw_node_id : string) (total shard_count : Z) (shards : dict string (list string))
    (node_map : dict string (dict string val)) (fuel : nat) (d : dict string val) (dep path : string) (pieces : list val)
    (Htotal : (1 <= total)%Z) (Hfuel : 6 <= fuel) (Hdep : vget "node" d = VStr dep) (Hpath : vget "path" d = VStr path)
    (Hknown : dmem dep shards = false ∧ dmem dep node_map = true) (Hunindexed : is_unindexed_items_path path = true)
    (Hpieces : mapR (λ p, inline_visit raw_node_id p.1 p.2 total shards node_map fuel (VDict d))
       (build_index_partitions total shard_count) = Ok pieces) :
  ∃ prefix suffix single slices,
    (single = true ↔ dependency_static_total raw_node_id node_map dep = Ok (Some 1%Z)) ∧
    static_at [Field "data"] <$> pieces = Some <$> slices ∧
    concat slices = inlined_row dep prefix suffix single <$> zrange 0 total.
Proof.
  pose proof (partitions_contiguous total shard_count) as Hc. rewrite Z.max_r in Hc by done.
  apply mapR_ok_inv in Hpieces.
  assert (Hall : Forall2 (λ (p : Z * Z) v', ∃ parts, inline_parts raw_node_id total node_map dep path = Ok parts ∧
    static_at [Field "data"] v' = Some (inlined_row dep parts.1.1 parts.1.2 parts.2 <$> zrange p.1 p.2))
    (build_index_partitions total shard_count) pieces).
  { eapply Forall2_impl; [exact Hpieces|]. intros p v' Hv. destruct Hknown. eapply visit_column; [exact Hfuel|..]; done. }
  destruct (inline_parts raw_node_id total node_map dep path) as [parts|e] eqn:E.
  - exists parts.1.1, parts.1.2, parts.2.
    exists (map (λ p, inlined_row dep parts.1.1 parts.1.2 parts.2 <$> zrange p.1 p.2) (build_index_partitions total shard_count)).
    split; [by eapply inline_parts_single|]. split; [|by apply zrange_concat].
    clear Hc Hpieces. induction Hall as [|p v' ps vs (parts' & [= <-] & Hv) Hl IH]; [done|]. csimpl. by rewrite Hv, IH.
  - exfalso. pose proof (length_partitions total shard_count) as Hl.
    destruct Hall as [|p v' ps vs (parts' & ? & _) _]; [simpl in Hl; lia|done].
Qed.

Lemma inlined_rows_reassemble_witness :
  let node_map := [("n0", [("spec", VDict [("data", VDict [("type", VStr "list"); ("items", VList [VStr "a"])])])])] in
  ∃ pieces prefix suffix single slices,
    mapR (λ p, inline_visit "n1" p.1 p.2 3 [] node_map 6
      (VDict [("node", VStr "n0"); ("path", VStr "items.output")])) (build_index_partitions 3 2) = Ok pieces ∧
    (single = true ↔ dependency_static_total "n1" node_map "n0" = Ok (Some 1%Z)) ∧
    static_at [Field "data"] <$> pieces = Some <$> slices ∧
    concat slices = inlined_row "n0" prefix suffix single <$> zrange 0 3.
Proof.
  intros node_map. eexists. destruct (inlined_rows_reassemble "n1" 3 2 [] node_map 6
    [("node", VStr "n0"); ("path", VStr "items.output")] "n0" "items.output" _ ltac:(lia) ltac:(lia)
    eq_refl eq_refl (conj eq_refl eq_refl) eq_refl eq_refl) as (prefix & suffix & single & slices & H1 & H2 & H3).
  exists prefix, suffix, single, slices. split; [reflexivity|]. split; [exact H1|]. split; [exact H2|exact H3].
Defined.

(** ** References *)

(** The nodes a spec refers to, in the order of the walk. *)
Fixpoint references (v : val) : list string :=
  match v with
  | VDict d =>
      match vget "node" d with VStr r => [r] | _ => [] end ++ concat (map (λ kv, references kv.2) d)
  | VList l => concat (map references l)
  | _ => []
  end.

(** What a reference becomes in the shard [idx]. *)
Definition shard_ref (idx : nat) (shards : dict string (list string)) (r : string) : option string :=
  match dget r shards with Some names => names !! idx | None => Some r end.

Section references.
Context (raw_node_id : string) (idx : nat) (shards : dict string (list string)).
Local Abbreviation rewrite_refs := (rewrite_shard_node_references raw_node_id idx shards).

Lemma shard_reference_spec d new_ref : shard_reference raw_node_id idx shards d = Ok new_ref →
match vget "node" d with
| VStr r => shard_ref idx shards r = Some (default r new_ref)
| _ => new_ref = None
end.
Proof.
unfold shard_reference, shard_ref. destruct (vget "node" d); try (by intros [= <-]).
destruct (dget s shards); [|by intros [= <-]]. destruct (_ !! idx); [by intros [= <-]|done].
Qed.

(** Rewriting maps every reference and nothing else. *)
Lemma rewrite_references v v' : rewrite_refs v = Ok v' →
Forall2 (λ r r', shard_ref idx shards r = Some r') (references v) (references v').
Proof.
revert v'. induction v as [| | | | |l IH|l IH|d IH] using val_nested_ind; intros v' H; simpl in H;
  try (by injection H as <-; constructor).
- apply result_bind_ok in H as (l' & Hl & [= <-]). apply mapR_ok_inv in Hl. simpl.
  induction Hl as [|x x' l l' Hx Hl IHl]; simpl; [constructor|]. apply Forall_cons in IH as [IH1 IH2].
  apply Forall2_app; [by apply IH1|by apply IHl].
- apply result_bind_ok in H as (new_ref & Hr & H). apply result_bind_ok in H as (d' & Hd & [= <-]).
  apply shard_reference_spec in Hr. apply mapR_ok_inv in Hd. simpl.
  assert (Hentry : Forall2 (λ kv kv' : string * val, kv'.1 = kv.1 ∧
    match kv.2 with
    | VStr s => kv'.2 = VStr (if String.eqb kv.1 "node" then default s new_ref else s)
    | _ => rewrite_refs kv.2 = Ok kv'.2
    end) d d').
  { eapply Forall2_impl; [exact Hd|]. intros [k v] [k' v'] Hkv. cbn [fst snd] in *.
    destruct new_ref as [name|], v; inv_ok; split; try done; simpl in *; inv_ok; by destruct (String.eqb _ "node"). }
  clear Hd. apply Forall2_app.
  + assert (Hnode : match vget "node" d with VStr r => vget "node" d' = VStr (default r new_ref)
                    | _ => ∀ r, vget "node" d' ≠ VStr r end).
    { clear IH Hr. unfold vget, dget_or. induction Hentry as [|[k v] [k' v'] d d' [E Hkv] Hl IHl]; simpl in *; [done|].
      subst k'. case_decide as Ek; [|by apply IHl]. subst k. destruct v; simpl in Hkv; inv_ok; done. }
    destruct (vget "node" d); try (destruct (vget "node" d'); try constructor; by edestruct Hnode).
    rewrite Hnode. by repeat constructor.
  + clear Hr. induction Hentry as [|kv kv' d d' [_ Hkv] Hl IHl]; simpl; [constructor|].
    apply Forall_cons in IH as [IH1 IH2]. apply Forall2_app; [|by apply IHl].
    destruct (kv.2) eqn:E; try (apply IH1; done). rewrite Hkv. constructor.
Qed.
End references.
