(* ===== verification/ShardProps.v ===== *)
(** * Properties of the sharded workflow

    What the FlowMesh rewrite promises to the scheduler and to FlowMesh: the
    shards of a node are aligned with those of its dependencies, every node
    of the rewritten workflow runs on exactly one worker, its dependencies
    are nodes of the rewritten workflow, and the schedule hint can be built.  First the
    sorts that order the plan. *)

From S2P Require Import Prelude PyFloat PyDict PyValue PyString TopoSort Kahn ParentGraph ShardData ShardRewrite ShardDataProps.

(** * The orders of the sharded workflow

    Both sorts of the FlowMesh rewrite (the order in which shards are planned
    and the execution order of the schedule hint) are Kahn's algorithm over
    the dependencies between known nodes: they succeed exactly when these
    have no cycle, and list every node once, after its dependencies. *)

(** Two dicts with the same keys in the same order and the same values. *)
Lemma dict_ext {V} (def : V) (d1 d2 : dict string V) :
  dict_wf d1 → dkeys d1 = dkeys d2 → (∀ k, dget_or def k d1 = dget_or def k d2) → d1 = d2.
Proof.
  unfold dict_wf, dkeys. revert d2. induction d1 as [|[k v] d1 IH]; intros [|[k2 v2] d2] Hwf Hk Hd; try done.
  csimpl in *. injection Hk as <- Hk. apply NoDup_cons in Hwf as [Hn Hwf].
  pose proof (Hd k) as E. unfold dget_or in E. simpl in E. rewrite !decide_True in E by done. subst v2. f_equal. apply IH; [done..|].
  intros k'. specialize (Hd k'). unfold dget_or in *. simpl in Hd. case_decide as Ek; [subst k'|done].
  assert (dget k d1 = None) as -> by (by apply dget_None).
  assert (dget k d2 = None) as -> by (apply dget_None; unfold dkeys; by rewrite <-Hk). done.
Qed.

Lemma filter_ext_elem {A} (P Q : A → Prop) `{∀ x, Decision (P x)} `{∀ x, Decision (Q x)} (l : list A) :
  (∀ x, x ∈ l → P x ↔ Q x) → filter P l = filter Q l.
Proof.
  induction l as [|x l IH]; intros Hpq; [done|]. rewrite !filter_cons.
  rewrite (IH (λ y Hy, Hpq y (list_elem_of_further y x l Hy))). specialize (Hpq x (list_elem_of_here x l)).
  repeat case_decide; tauto.
Qed.

Section order.
Context (node_names : list string) (deps : string → list string).

Definition known_deps (n : string) : list string := filter (.∈ node_names) (deps n).

Hypothesis names_nodup : NoDup node_names.

Lemma count_inner err n st ds : n ∉ filter (.∈ node_names) ds →
foldR (count_dependency node_names err n) st ds =
Ok (foldl (λ d _, bump d n) st.1 (filter (.∈ node_names) ds), foldl (add_child n) st.2 (filter (.∈ node_names) ds)).
Proof.
revert st. induction ds as [|d ds IH]; intros st Hn; [by destruct st|]. rewrite foldR_cons. unfold count_dependency at 1.
rewrite filter_cons in Hn |- *. case_bool_decide as Hd; simpl.
- rewrite decide_True in Hn |- * by done. apply not_elem_of_cons in Hn as [Hne Hn].
  destruct (String.eqb_spec d n) as [->|_]; [done|]. by rewrite IH.
- rewrite decide_False in Hn |- * by done. by apply IH.
Qed.

Lemma count_inner_self err n st ds : n ∈ filter (.∈ node_names) ds →
∃ m, foldR (count_dependency node_names err n) st ds = Err (ValueError m).
Proof.
revert st. induction ds as [|d ds IH]; intros st Hn; [by apply elem_of_nil in Hn|]. rewrite foldR_cons.
unfold count_dependency at 1. rewrite filter_cons in Hn. case_bool_decide as Hd; simpl.
- rewrite decide_True in Hn by done. destruct (String.eqb_spec d n) as [->|Hne]; [by eexists|].
  apply elem_of_cons in Hn as [->|Hn]; [done|]. by apply IH.
- rewrite decide_False in Hn by done. by apply IH.
Qed.

Lemma bumps_get (deg : dict string Z) (n : string) (l : list string) (k : string) :
dget_or 0%Z k (foldl (λ d _, bump d n) deg l) =
  (dget_or 0%Z k deg + if decide (k = n) then Z.of_nat (length l) else 0)%Z.
Proof.
revert deg. induction l as [|x l IH]; intros deg; simpl; [case_decide; lia|]. rewrite IH. unfold bump.
rewrite dget_or_dset. case_decide; subst; [rewrite ?decide_True by done; lia|]. rewrite ?decide_False by congruence. lia.
Qed.

Lemma bumps_keys (deg : dict string Z) (n : string) (l : list string) : n ∈ dkeys deg → dkeys (foldl (λ d _, bump d n) deg l) = dkeys deg.
Proof.
revert deg. induction l as [|x l IH]; intros deg Hn; simpl; [done|].
assert (E : dkeys (bump deg n) = dkeys deg) by (unfold bump; by rewrite dkeys_dset, decide_True).
rewrite IH; [done|]. by rewrite E.
Qed.

Lemma zero_keys : dkeys ((λ n, (n, 0%Z)) <$> node_names) = node_names.
Proof. unfold dkeys. by rewrite <-list_fmap_compose, list_fmap_id. Qed.

Lemma counted_keys (deg : dict string Z) (l : list string) : (∀ n, n ∈ l → n ∈ node_names) → (∀ n, n ∈ node_names → n ∈ dkeys deg) →
dkeys (foldl (λ d n, foldl (λ d _, bump d n) d (known_deps n)) deg l) = dkeys deg.
Proof.
revert deg. induction l as [|n l IH]; intros deg Hl Hd; simpl; [done|].
assert (E : dkeys (foldl (λ d _, bump d n) deg (known_deps n)) = dkeys deg) by (apply bumps_keys, Hd, Hl; left).
rewrite IH; [done| |]; [intros m Hm; apply Hl; by right|]. by rewrite E.
Qed.

Lemma counted_get (k : string) (deg : dict string Z) (l : list string) : NoDup l →
dget_or 0%Z k (foldl (λ d n, foldl (λ d _, bump d n) d (known_deps n)) deg l) =
(dget_or 0%Z k deg + if decide (k ∈ l) then Z.of_nat (length (known_deps k)) else 0)%Z.
Proof.
intros Hnd. revert deg. induction Hnd as [|n l Hn Hnd IH]; intros deg; cbn [foldl]; [rewrite decide_False by apply not_elem_of_nil; lia|].
rewrite IH, bumps_get. destruct (decide (k = n)) as [->|Hne].
- rewrite (decide_False (P := n ∈ l)), decide_True by (done || left). lia.
- destruct (decide (k ∈ l)); [rewrite decide_True by (by right)|rewrite decide_False by set_solver]; lia.
Qed.

(** The tables the two loops build are those of the parent graph. *)
Lemma count_ok err : (∀ n, n ∈ node_names → n ∉ known_deps n) →
count_dependencies node_names err deps = Ok (parent_degrees node_names known_deps, children_of node_names known_deps).
Proof.
intros Hself. unfold count_dependencies, children_of.
rewrite !dict_of_nodup by (by rewrite <-list_fmap_compose, list_fmap_id).
assert (G : ∀ l deg ch, (∀ n, n ∈ l → n ∈ node_names) →
  foldR (λ st n, foldR (count_dependency node_names err n) st (deps n)) (deg, ch) l =
  Ok (foldl (λ d n, foldl (λ d _, bump d n) d (known_deps n)) deg l,
      foldl (λ ch n, foldl (add_child n) ch (known_deps n)) ch l)).
{ induction l as [|n l IH]; intros deg ch Hl; [done|]. rewrite foldR_cons.
  rewrite count_inner by (apply Hself, Hl; left). simpl. apply IH. intros m Hm. apply Hl. by right. }
rewrite G by done. do 2 f_equal. apply (dict_ext 0%Z).
- unfold dict_wf. rewrite counted_keys; [|done|intros n Hn; by rewrite zero_keys]. by rewrite zero_keys.
- rewrite counted_keys; [|done|intros n Hn; by rewrite zero_keys]. rewrite zero_keys. unfold dkeys, parent_degrees.
  by rewrite <-list_fmap_compose, list_fmap_id.
- intros k. rewrite counted_get by done. rewrite parent_degrees_get.
  assert (E : dget_or 0%Z k ((λ n, (n, 0%Z)) <$> node_names) = 0%Z).
  { unfold dget_or. clear. induction node_names as [|n l IH]; csimpl; [done|]. by case_decide. }
  by rewrite E.
Qed.

(** A self dependency is a cycle; both raise. *)
Lemma count_self err : (∃ n, n ∈ node_names ∧ n ∈ known_deps n) →
∃ m, count_dependencies node_names err deps = Err (ValueError m).
Proof.
intros (n & Hn & Hself). unfold count_dependencies. revert Hn. generalize (dict_of ((λ n, (n, 0%Z)) <$> node_names)).
generalize (dict_of ((λ n, (n, @nil string)) <$> node_names)). intros ch deg.
assert (G : ∀ l st, n ∈ l → ∃ m, foldR (λ st n, foldR (count_dependency node_names err n) st (deps n)) st l = Err (ValueError m)).
{ induction l as [|x l IH]; intros st Hn; [by apply elem_of_nil in Hn|]. rewrite foldR_cons.
  destruct (decide (x ∈ known_deps x)) as [Hx|Hx].
  - destruct (count_inner_self err x st (deps x) Hx) as [m ->]. by eexists.
  - rewrite count_inner by done. apply IH. by apply elem_of_cons in Hn as [->|Hn]. }
apply G.
Qed.

(** ** Sorting *)

Context (lt : string → string → bool) (err cycle : string).

Definition sort_by_deps : result (list string) :=
st ← count_dependencies node_names err deps; sort_nodes node_names lt cycle st.

Lemma known_deps_known n p : p ∈ known_deps n → p ∈ node_names.
Proof. by intros [? _]%list_elem_of_filter. Qed.

Lemma sort_by_deps_run : (∀ n, n ∈ node_names → n ∉ known_deps n) →
sort_by_deps = if Nat.eqb (length (parents_run node_names known_deps (heappop lt))) (length node_names)
  then Ok (parents_run node_names known_deps (heappop lt)) else Err (ValueError cycle).
Proof.
intros Hself. unfold sort_by_deps. rewrite count_ok by done. simpl. unfold sort_nodes, parents_run. cbn [fst snd].
assert (E : filter (λ n, dget_or 0%Z n (parent_degrees node_names known_deps) = 0%Z) node_names =
  (filter (λ kv, kv.2 = 0%Z) (parent_degrees node_names known_deps)).*1).
{ transitivity (filter (λ n, Z.of_nat (length (known_deps n)) = 0%Z) node_names).
  - apply filter_ext_elem. intros n Hn. by rewrite parent_degrees_get, decide_True.
  - unfold parent_degrees. clear. induction node_names as [|n l IH]; csimpl; [done|].
    rewrite !filter_cons. simpl. case_decide; csimpl; by rewrite IH. }
rewrite E. by destruct (kahn _ _ _ _ _ _ _ _) as [[u order] r].
Qed.

Lemma sort_by_deps_correct :
((∃ order, sort_by_deps = Ok order) ↔
 ∃ rank : string → nat, ∀ n p, n ∈ node_names → p ∈ node_names → p ∈ deps n → rank p < rank n) ∧
(∀ order, sort_by_deps = Ok order →
   order ≡ₚ node_names ∧
   ∀ l1 n l2, order = l1 ++ n :: l2 → ∀ p, p ∈ node_names → p ∈ deps n → p ∈ l1) ∧
post (λ _, True) (λ e, ∃ m, e = ValueError m) sort_by_deps.
Proof.
assert (Hr : (∃ rank : string → nat, ∀ n p, n ∈ node_names → p ∈ node_names → p ∈ deps n → rank p < rank n) ↔
  ∃ rank : string → nat, ∀ n p, n ∈ node_names → p ∈ known_deps n → rank p < rank n).
{ split; intros [rank H]; exists rank; [intros n p Hn [? ?]%list_elem_of_filter; by apply H|].
  intros n p ???. apply H; [done|]. by apply list_elem_of_filter. }
rewrite Hr. clear Hr. destruct (decide (Exists (λ n, n ∈ known_deps n) node_names)) as [Hs|Hs].
- apply Exists_exists in Hs as (n & Hn & Hself). destruct (count_self err) as [m Hm]; [by exists n|].
  unfold sort_by_deps. rewrite Hm. simpl. split; [|split; [done|by eexists]].
  split; [by intros [? ?]|]. intros [rank H]. specialize (H n n Hn Hself). lia.
- assert (Hself : ∀ n, n ∈ node_names → n ∉ known_deps n).
  { intros n Hn Hk. apply Hs, Exists_exists. by exists n. }
  rewrite (sort_by_deps_run Hself).
  rewrite <-(parents_run_complete _ _ names_nodup known_deps_known _ (heappop_perm lt) (heappop_none lt)).
  pose proof (parents_run_order _ _ names_nodup known_deps_known _ (heappop_perm lt) (heappop_none lt)) as Ho.
  destruct (Nat.eqb_spec (length (parents_run node_names known_deps (heappop lt))) (length node_names)) as [E|E].
  + destruct (Ho E) as [Hp Hord]. split; [split; [done|by eexists]|]. split; [|done]. intros _ [= <-]. split; [done|].
    intros l1 n l2 El p Hp1 Hp2. eapply Hord; [done|]. by apply list_elem_of_filter.
  + split; [split; [by intros [? ?]|done]|]. split; [done|by eexists].
Qed.
End order.

(** ** The workers of a node *)

Definition add_candidate (worker : string) (candidates : dict string (list string)) (node_id : string) :
    dict string (list string) :=
  dset node_id (add_new worker (dget_or [] node_id candidates)) candidates.

(** The candidates of an assignment that passes the checks. *)
Definition all_candidates (assignment : dict string (list string)) : dict string (list string) :=
  foldl (λ c entry, foldl (add_candidate entry.1) c entry.2) [] assignment.

(** What the two readers of an assignment check of each worker. *)
Definition assignment_ok (names : list string) (assignment : dict string (list string)) : Prop :=
  ∀ entry, entry ∈ assignment → NoDup entry.2 ∧ ∀ n, n ∈ entry.2 → n ∈ names.

Lemma elem_of_add_new x y l : y ∈ add_new x l ↔ y = x ∨ y ∈ l.
Proof. unfold add_new. case_bool_decide; set_solver. Qed.

Lemma NoDup_add_new x l : NoDup l → NoDup (add_new x l).
Proof.
  intros Hl. unfold add_new. case_bool_decide; [done|]. apply NoDup_app. split; [done|]. split; [|apply NoDup_singleton].
  set_solver.
Qed.

Lemma NoDup_snoc (l1 l2 : list string) x : NoDup (l1 ++ x :: l2) → NoDup ((l1 ++ [x]) ++ l2).
Proof. by rewrite <-app_assoc. Qed.

Section candidates.
Context (names : list string).

Lemma candidate_fold worker c seen l : NoDup (seen ++ l) → (∀ n, n ∈ l → n ∈ names) →
foldR (candidate_node names worker) (c, seen) l = Ok (foldl (add_candidate worker) c l, seen ++ l).
Proof.
revert c seen. induction l as [|n l IH]; intros c seen Hnd Hin; [by rewrite app_nil_r|]. rewrite foldR_cons.
unfold candidate_node at 1. cbn [fst snd].
rewrite bool_decide_false by (apply NoDup_app in Hnd as (_ & H & _); intros Hs; apply (H n Hs); left).
rewrite (bool_decide_true (n ∈ names)) by (apply Hin; left). simpl.
rewrite IH; [by rewrite <-app_assoc|by apply NoDup_snoc|]. intros m Hm. apply Hin. by right.
Qed.

Lemma candidate_fold_inv worker c seen l st : NoDup seen →
foldR (candidate_node names worker) (c, seen) l = Ok st → NoDup (seen ++ l) ∧ ∀ n, n ∈ l → n ∈ names.
Proof.
revert c seen. induction l as [|n l IH]; intros c seen Hnd H; [rewrite app_nil_r; set_solver|].
rewrite foldR_cons in H. unfold candidate_node at 1 in H. cbn [fst snd] in H.
case_bool_decide as Hs; [done|]. case_bool_decide as Hn; [|done]. simpl in H. apply IH in H as [H1 H2].
- split; [by rewrite <-app_assoc in H1|]. intros m [->|Hm]%elem_of_cons; auto.
- apply NoDup_app. split; [done|]. split; [set_solver|apply NoDup_singleton].
Qed.

Lemma same_members_spec a b : same_members a b = true ↔ ∀ x, x ∈ a ↔ x ∈ b.
Proof.
unfold same_members. rewrite andb_true_iff, !forallb_forall. setoid_rewrite bool_decide_eq_true.
setoid_rewrite <-list_elem_of_In. naive_solver.
Qed.

Lemma collect_ok assignment candidates normalized :
collect_node_worker_candidates assignment names = Ok (candidates, normalized) →
assignment_ok names assignment ∧ candidates = all_candidates assignment ∧ normalized = assignment ∧
(∀ n, n ∈ dkeys candidates ↔ n ∈ names).
Proof.
unfold collect_node_worker_candidates, all_candidates. intros H. apply result_bind_ok in H as (c & Hc & H).
destruct (same_members _ _) eqn:Es; [|done]. injection H as <- <-. rewrite same_members_spec in Es.
enough (G : ∀ l d c, foldR (λ candidates entry, st ← foldR (candidate_node names entry.1) (candidates, []) entry.2; Ok st.1) d l
  = Ok c → assignment_ok names l ∧ c = foldl (λ c entry, foldl (add_candidate entry.1) c entry.2) d l)
  by (apply G in Hc; naive_solver).
clear. induction l as [|e l IH]; intros d c H; simpl in H.
- injection H as <-. split; [by intros ? ?%elem_of_nil|done].
- apply result_bind_ok in H as (d' & H1 & H). apply result_bind_ok in H1 as (st & H1 & [= <-]).
  pose proof (candidate_fold_inv _ _ _ _ _ (NoDup_nil_2) H1) as [H2 H3]. simpl in H2.
  rewrite candidate_fold in H1 by done. injection H1 as <-. apply IH in H as [H4 ->]. split; [|done].
  intros e' [->|He]%elem_of_cons; [done|by apply H4].
Qed.
End candidates.

Lemma add_candidates_get worker c l n : dget_or [] n (foldl (add_candidate worker) c l) =
  if decide (n ∈ l) then add_new worker (dget_or [] n c) else dget_or [] n c.
Proof.
  assert (Hidem : ∀ x, add_new worker (add_new worker x) = add_new worker x).
  { intros x. unfold add_new at 1. rewrite bool_decide_true; [done|]. apply elem_of_add_new. by left. }
  revert c. induction l as [|m l IH]; intros c; cbn [foldl]; [by rewrite decide_False by apply not_elem_of_nil|].
  rewrite IH. unfold add_candidate. rewrite dget_or_dset. destruct (decide (n = m)) as [->|Hne].
  - rewrite (decide_True (P := m ∈ m :: l)) by left. case_decide; [apply Hidem|done].
  - destruct (decide (n ∈ l)); [rewrite decide_True by (by right)|rewrite decide_False by set_solver]; done.
Qed.

Lemma add_candidates_keys worker c l n :
  n ∈ dkeys (foldl (add_candidate worker) c l) ↔ n ∈ dkeys c ∨ n ∈ l.
Proof.
  revert c. induction l as [|m l IH]; intros c; simpl; [set_solver|]. rewrite IH. unfold add_candidate.
  rewrite elem_of_dkeys_dset. set_solver.
Qed.

(** The candidates of a node are the workers that list it, in their order. *)
Lemma all_candidates_get assignment n : NoDup (dkeys assignment) →
  dget_or [] n (all_candidates assignment) = (filter (λ e, n ∈ e.2) assignment).*1.
Proof.
  intros Hnd. unfold all_candidates.
  assert (G : ∀ l c, NoDup (dget_or [] n c ++ dkeys l) →
    dget_or [] n (foldl (λ c entry, foldl (add_candidate entry.1) c entry.2) c l) =
    dget_or [] n c ++ (filter (λ e, n ∈ e.2) l).*1).
  { induction l as [|[w l'] l IH]; intros c Hc; cbn [foldl]; [by rewrite app_nil_r|].
    cbn [fst snd]. rewrite filter_cons. cbn [snd]. rewrite IH; rewrite add_candidates_get; csimpl in Hc.
    - destruct (decide (n ∈ l')); csimpl; [|done]. unfold add_new. rewrite bool_decide_false; [by rewrite <-app_assoc|].
      apply NoDup_app in Hc as (_ & H & _). intros Hw. apply (H w Hw). left.
    - destruct (decide (n ∈ l')).
      + unfold add_new. rewrite bool_decide_false; [by apply NoDup_snoc|].
        apply NoDup_app in Hc as (_ & H & _). intros Hw. apply (H w Hw). left.
      + eapply sublist_NoDup; [exact Hc|]. apply sublist_app; [done|]. by constructor. }
  by rewrite G.
Qed.

Lemma all_candidates_keys assignment n : n ∈ dkeys (all_candidates assignment) ↔ ∃ e, e ∈ assignment ∧ n ∈ e.2.
Proof.
  unfold all_candidates.
  assert (G : ∀ l c, n ∈ dkeys (foldl (λ c entry, foldl (add_candidate entry.1) c entry.2) c l) ↔
    n ∈ dkeys c ∨ ∃ e, e ∈ l ∧ n ∈ e.2).
  { induction l as [|e l IH]; intros c; cbn [foldl]; [set_solver|]. rewrite IH, add_candidates_keys.
    setoid_rewrite elem_of_cons. naive_solver. }
  rewrite G. set_solver.
Qed.

Lemma all_candidates_wf assignment : dict_wf (all_candidates assignment).
Proof.
  unfold all_candidates. assert (G : ∀ l c, dict_wf c → dict_wf (foldl (λ c entry, foldl (add_candidate entry.1) c entry.2) c l)).
  { induction l as [|e l IH]; intros c Hc; simpl; [done|]. apply IH. clear IH. revert c Hc.
    induction e.2 as [|m l' IH]; intros c Hc; simpl; [done|]. apply IH. by apply dict_wf_dset. }
  apply G. constructor.
Qed.

(** ** The plan of one node *)

Lemma partition_rows_contiguous parts a b : contiguous a parts b → partition_rows parts = (b - a)%Z.
Proof.
  unfold partition_rows. assert (G : ∀ z a, contiguous a parts b → foldl (λ n p, (n + (p.2 - p.1))%Z) z parts = (z + (b - a))%Z).
  { induction parts as [|p parts IH]; intros z a'; simpl; [intros ->; lia|]. intros (<- & _ & H). rewrite (IH _ _ H). lia. }
  intros H. by rewrite (G 0%Z a H).
Qed.

Lemma partition_rows_build t k : partition_rows (build_index_partitions t k) = Z.max 1 t.
Proof. rewrite (partition_rows_contiguous _ 0 (Z.max 1 t)) by apply partitions_contiguous. lia. Qed.

Lemma build_safe t k : build_index_partitions (Z.max 1 t) k = build_index_partitions t k.
Proof. unfold build_index_partitions. by replace (Z.max 1 (Z.max 1 t)) with (Z.max 1 t) by lia. Qed.

Lemma length_shard_names n k : (1 <= k)%Z → Z.of_nat (length (shard_names n k)) = k.
Proof. intros H. unfold shard_names. rewrite length_fmap, length_seq. lia. Qed.

Lemma length_take_workers k (workers : list string) : (1 <= k)%Z → (k <= Z.of_nat (length workers))%Z →
  Z.of_nat (length (py_take k workers)) = k.
Proof. intros H1 H2. rewrite py_take_nonneg by lia. rewrite length_take. lia. Qed.

(** ** The walk over the ancestors *)

Section ancestors.
Context (raw_node_id : string) (node_map : dict string (dict string val)).

(** The dependencies that nodes not yet visited can still push. *)
Definition unvisited_edges (visited : list string) : nat :=
sum_list_with (λ kv, length (str_deps kv.2)) (filter (λ kv, kv.1 ∉ visited) node_map).

Lemma unvisited_edges_visit visited n node : n ∉ visited → dget n node_map = Some node →
length (str_deps node) + unvisited_edges (visited ++ [n]) <= unvisited_edges visited.
Proof.
intros Hn. unfold unvisited_edges.
assert (Hmono : ∀ d : dict string (dict string val), sum_list_with (λ kv, length (str_deps kv.2)) (filter (λ kv, kv.1 ∉ visited ++ [n]) d) <=
  sum_list_with (λ kv, length (str_deps kv.2)) (filter (λ kv, kv.1 ∉ visited) d)).
{ induction d as [|kv d IH]; [done|]. rewrite !filter_cons. repeat case_decide; simpl; try lia. set_solver. }
induction node_map as [|[k v] d IH]; [done|]. simpl. rewrite !filter_cons. case_decide as E.
- subst k. intros [= ->]. rewrite (decide_False (P := n ∉ visited ++ [n])) by set_solver.
  rewrite decide_True by done. simpl. specialize (Hmono d). lia.
- intros Hd. specialize (IH Hd). repeat case_decide; simpl in *; try lia. set_solver.
Qed.

Lemma push_length (visited deps stack : list string) :
length (foldl (λ stack dep, if bool_decide (dep ∈ visited) then stack else dep :: stack) stack deps) <= length stack + length deps.
Proof.
revert stack. induction deps as [|d deps IH]; intros stack; simpl; [lia|]. etrans; [apply IH|]. case_bool_decide; simpl; lia.
Qed.

Lemma ancestor_loop_fuel fuel stack visited totals : length stack + unvisited_edges visited < fuel →
post (λ _, True) value_error (ancestor_loop raw_node_id node_map fuel stack visited totals).
Proof.
revert stack visited totals. induction fuel as [|fuel IH]; intros stack visited totals Hf; [lia|]. simpl.
destruct stack as [|n stack]; [done|]. simpl in Hf. case_bool_decide as Hv; [apply IH; lia|].
destruct (dget n node_map) as [node|] eqn:En.
- pose proof (unvisited_edges_visit visited n node Hv En). apply (post_bind (λ _, True)).
  + destruct (node_data node); [apply resolve_value_error|done].
  + intros total _ _. apply IH. pose proof (push_length (visited ++ [n]) (str_deps node) stack). lia.
- apply IH. assert (unvisited_edges (visited ++ [n]) <= unvisited_edges visited); [|lia]. unfold unvisited_edges.
  clear. induction node_map as [|kv d IH]; [done|]. rewrite !filter_cons. repeat case_decide; simpl; try lia. set_solver.
Qed.

(** The fuel is enough: the walk ends, and raises nothing but the errors of
  the static lists it meets. *)
Lemma ancestors_terminate dependency_ids :
post (λ _, True) value_error (collect_ancestor_partition_totals raw_node_id node_map dependency_ids).
Proof.
apply ancestor_loop_fuel. rewrite length_rev. unfold unvisited_edges. rewrite filter_everything; [lia|].
intros x _. by apply not_elem_of_nil.
Qed.

(** What is upstream of a node: its dependencies and theirs *)
Inductive upstream (deps : list string) : string → Prop :=
  | upstream_direct d : d ∈ deps → upstream deps d
  | upstream_step a node d : upstream deps a → dget a node_map = Some node → d ∈ str_deps node → upstream deps d.

(** The rows of a node, as its static lists give them *)
Definition static_rows_of (node_id : string) (rows : Z) : Prop :=
∃ node data, dget node_id node_map = Some node ∧ node_data node = Some data ∧ rows_of_lists (collect_static_list_lengths (VDict data)) rows.

Record walk_inv (deps stack visited : list string) (totals : list Z) : Prop := {
wi_upstream a : a ∈ stack ∨ a ∈ visited → upstream deps a;
wi_direct d : d ∈ deps → d ∈ stack ∨ d ∈ visited;
wi_step a node d : a ∈ visited → dget a node_map = Some node → d ∈ str_deps node → d ∈ stack ∨ d ∈ visited;
wi_totals x : x ∈ totals ↔ ∃ a, a ∈ visited ∧ static_rows_of a x;
}.

Lemma elem_of_pushed (visited deps stack : list string) x :
x ∈ foldl (λ stack dep, if bool_decide (dep ∈ visited) then stack else dep :: stack) stack deps ↔ x ∈ stack ∨ (x ∈ deps ∧ x ∉ visited).
Proof.
revert stack. induction deps as [|d deps IH]; intros stack; simpl; [set_solver|]. rewrite IH. case_bool_decide; set_solver.
Qed.

Lemma ancestor_loop_rows deps fuel stack visited totals found : walk_inv deps stack visited totals →
ancestor_loop raw_node_id node_map fuel stack visited totals = Ok found → ∀ x, x ∈ found ↔ ∃ a, upstream deps a ∧ static_rows_of a x.
Proof.
revert stack visited totals. induction fuel as [|fuel IH]; intros stack visited totals [U D T X] H; [done|]. simpl in H.
destruct stack as [|n stack].
{ injection H as <-. intros x. rewrite X. split; intros (a & Ha & Hx); exists a; (split; [|done]); [auto|].
  clear Hx. induction Ha as [d Hd|a node d _ IHa Hn Hd]; [destruct (D d Hd); [set_solver|done]|destruct (T a node d IHa Hn Hd); [set_solver|done]]. }
case_bool_decide as Hv; [apply (IH stack visited totals); [|done]; split; set_solver|].
assert (Hskip : (∀ x, ¬ static_rows_of n x) → dget n node_map = None → walk_inv deps stack (visited ++ [n]) totals).
{ intros Hno Hn. split; [set_solver|set_solver| |].
  - intros a node d. rewrite !elem_of_app, list_elem_of_singleton. intros [Ha| ->] Hnode Hd; [|congruence]. destruct (T a node d Ha Hnode Hd); set_solver.
  - intros x. rewrite X. split; intros (a & Ha & Hx); exists a; (split; [|done]); set_solver. }
destruct (dget n node_map) as [node|] eqn:En.
2:{ refine (IH _ _ _ _ H). apply Hskip; [|done]. intros x (node & _ & E & _). congruence. }
clear Hskip. apply result_bind_ok in H as (total & Ht & H). refine (IH _ _ _ _ H).
assert (Htotal : ∀ x, x ∈ option_list total ↔ static_rows_of n x).
{ intros x. unfold static_rows_of. destruct (node_data node) as [data|] eqn:Ed.
  - pose proof (resolve_rows _ _ _ _ Ht) as Hrows. split.
    + intros Hx. exists node, data. destruct total as [t|]; [|set_solver]. assert (x = t) as -> by set_solver. by split_and!.
    + intros (node' & data' & E & Ed' & Hx). assert (node' = node) as -> by congruence. assert (data' = data) as -> by congruence.
      destruct total as [t|]; [rewrite (rows_of_lists_unique _ _ _ Hx Hrows); set_solver|]. rewrite Hrows in Hx. by destruct Hx.
  - injection Ht as <-. split; [set_solver|]. intros (node' & data' & E & Ed' & _). congruence. }
split.
- intros a. rewrite elem_of_pushed, elem_of_app, list_elem_of_singleton. intros [[Ha|[Ha _]]|[Ha| ->]]; [apply U; set_solver| |apply U; set_solver|apply U; set_solver].
  apply (upstream_step _ n node); [apply U; set_solver|done|done].
- intros d Hd. rewrite elem_of_pushed. destruct (D d Hd); set_solver.
- intros a node' d. rewrite elem_of_pushed, !elem_of_app, list_elem_of_singleton. intros [Ha| ->] Hn Hd.
  + destruct (T a node' d Ha Hn Hd); set_solver.
  + assert (node' = node) as -> by congruence. destruct (decide (d ∈ visited ++ [n])); set_solver.
- intros x. rewrite elem_of_app, Htotal, X. split.
  + intros [(a & Ha & Hx)|Hx]; [exists a|exists n]; (split; [set_solver|done]).
  + intros (a & [Ha| ->%list_elem_of_singleton]%elem_of_app & Hx); [left; by exists a|by right].
Qed.

(** The totals of the walk are those of the nodes upstream. *)
Lemma ancestors_rows deps found : collect_ancestor_partition_totals raw_node_id node_map deps = Ok found →
∀ x, x ∈ found ↔ ∃ a, upstream deps a ∧ static_rows_of a x.
Proof.
apply ancestor_loop_rows. assert (Hrev : ∀ x, x ∈ rev deps ↔ x ∈ deps) by (intros x; rewrite !list_elem_of_In; symmetry; apply in_rev).
split; [intros a; rewrite Hrev; intros [|]; [by constructor|set_solver]|intros d; rewrite Hrev; auto|set_solver|set_solver].
Qed.
End ancestors.

Lemma aligned_total_rows detail raw totals t : aligned_total raw detail totals = Ok (Some t) → rows_of_lists totals (Z.max 1 t).
Proof. destruct totals as [|x l]; [done|]. unfold aligned_total. destruct (existsb _ _) eqn:E; [done|]. intros [= <-]. by apply aligned_rows. Qed.

Lemma dep_totals_spec raw sc parts deps totals acc :
foldR (dep_partition_total raw sc parts) acc deps = Ok totals →
(∀ x, x ∈ acc → x ∈ totals) ∧
∀ d ps, d ∈ deps → dget d parts = Some ps → Z.of_nat (length ps) = sc ∧ partition_rows ps ∈ totals.
Proof.
revert acc. induction deps as [|d deps IH]; intros acc H; [injection H as <-; split; [done|]; by intros ?? ?%elem_of_nil|].
rewrite foldR_cons in H. unfold dep_partition_total at 1 in H.
destruct (dget d parts) as [ps|] eqn:Ed.
- destruct (Z.eqb_spec (Z.of_nat (length ps)) sc) as [El|]; [|done]. apply IH in H as [H1 H2]. split.
  + intros x Hx. apply H1, elem_of_app. by left.
  + intros d' ps' [->|Hd]%elem_of_cons; [|by apply H2]. rewrite Ed. intros [= <-]. split; [done|].
    apply H1, elem_of_app. right. left.
- apply IH in H as [H1 H2]. split; [done|]. intros d' ps' [->|Hd]%elem_of_cons; [by rewrite Ed|by apply H2].
Qed.

Lemma dep_totals_origin raw sc parts deps totals acc : foldR (dep_partition_total raw sc parts) acc deps = Ok totals →
  ∀ x, x ∈ totals → x ∈ acc ∨ ∃ d ps, d ∈ deps ∧ dget d parts = Some ps.
Proof.
  revert acc. induction deps as [|d deps IH]; intros acc H x Hx; [injection H as <-; by left|].
  rewrite foldR_cons in H. apply result_bind_ok in H as (acc' & Ha & H). destruct (IH _ H x Hx) as [Hin|(d' & ps & ? & ?)].
  - unfold dep_partition_total in Ha. destruct (dget d parts) as [ps|] eqn:Ed; [|injection Ha as <-; by left].
    right. exists d, ps. split; [left|done].
  - right. exists d', ps. split; [by right|done].
Qed.

(** ** The rows of a sharded node

    They are those of its own static lists; without any, those its sharded
    dependencies are cut at; without these, those of the static lists
    upstream. *)
Definition rows_of_node (node_map : dict string (dict string val)) (parts : dict string (list (Z * Z))) (n : string) (rows : Z) : Prop :=
  ∃ data, node_data (dget_or [] n node_map) = Some data ∧
    let lengths := collect_static_list_lengths (VDict data) in
    rows_of_lists lengths rows ∨
    (lengths = [] ∧ (∃ d, d ∈ deps_of node_map n ∧ d ∈ dkeys parts) ∧
     ∀ d ps, d ∈ deps_of node_map n → dget d parts = Some ps → rows = Z.max 1 (partition_rows ps)) ∨
    (lengths = [] ∧ (∀ d, d ∈ deps_of node_map n → d ∉ dkeys parts) ∧
     ∃ totals, (∀ x, x ∈ totals ↔ ∃ a, upstream node_map (deps_of node_map n) a ∧ static_rows_of node_map a x) ∧ rows_of_lists totals rows).

Lemma rows_of_node_pos node_map parts n rows : rows_of_node node_map parts n rows → (1 <= rows)%Z.
Proof.
  intros (data & _ & [(_ & t & _ & _ & ->)|[(_ & (d & Hd & [ps Hps]%dget_is_Some) & Hr)|(_ & _ & totals & _ & (_ & t & _ & _ & ->))]]); [lia| |lia].
  rewrite (Hr d ps Hd Hps). lia.
Qed.

Lemma infer_rows n node_map data sc parts rows : node_data (dget_or [] n node_map) = Some data →
  infer_shard_input_size n node_map data sc (deps_of node_map n) parts = Ok rows → rows_of_node node_map parts n rows.
Proof.
  intros Hdata H. exists data. split; [done|]. unfold infer_shard_input_size in H. apply result_bind_ok in H as (local & Hl & H).
  pose proof (resolve_rows _ _ _ _ Hl) as Hrows. destruct local as [t|]; [injection H as <-; by left|]. right.
  apply result_bind_ok in H as (totals & Ht & H). pose proof (dep_totals_origin _ _ _ _ _ _ Ht) as Ho. apply dep_totals_spec in Ht as [_ Ht].
  destruct totals as [|first totals].
  - right. split; [done|]. split; [intros d Hd [ps Hps]%dget_is_Some; destruct (Ht d ps Hd Hps); set_solver|].
    apply result_bind_ok in H as (found & Hf & H). pose proof (ancestors_rows _ _ _ _ Hf) as Hup. exists found. split; [done|].
    apply result_bind_ok in H as (total & Ha & H). destruct total as [t|]; [|done]. injection H as <-. by eapply aligned_total_rows.
  - left. split; [done|]. split.
    { destruct (Ho first) as [?|(d & ps & Hd & Hps)]; [left|set_solver|]. exists d. split; [done|]. apply dget_is_Some. by eexists. }
    intros d ps Hd Hps. destruct (Ht d ps Hd Hps) as [_ Hin]. destruct (forallb _ _) eqn:E; [|done]. injection H as <-.
    rewrite forallb_forall in E. apply list_elem_of_In, E, Z.eqb_eq in Hin. by rewrite Hin.
Qed.

(** The rows of a node do not depend on the nodes it does not depend on. *)
Lemma rows_of_node_other node_map parts n m ps rows : n ∉ deps_of node_map m → rows_of_node node_map parts m rows →
  rows_of_node node_map (dset n ps parts) m rows.
Proof.
  intros Hn (data & Hd & H). exists data. split; [done|]. destruct H as [H|[(H1 & (d & Hd1 & Hd2) & H3)|(H1 & H2 & H3)]]; [by left|right; left|right; right].
  - split; [done|]. split; [exists d; split; [done|]; apply elem_of_dkeys_dset; by right|]. intros d' ps' Hd'. rewrite dget_dset_ne by (by intros ->). by apply H3.
  - split; [done|]. split; [|done]. intros d Hd'. rewrite elem_of_dkeys_dset. intros [->|?]; [done|]. by apply (H2 d).
Qed.

Section plan.
Context (node_map : dict string (dict string val)) (explicit candidates : dict string (list string)).

(** What the plan records of a sharded node. *)
Definition planned (st : shard_plan) (n : string) (workers : list string) (t k : Z) : Prop :=
dget n explicit = Some workers ∧ (1 <= k <= Z.of_nat (length workers))%Z ∧ (k <= Z.max 1 t)%Z ∧
dget n (shard_nodes_by_raw st) = Some (shard_names n k) ∧
dget n (partitions_by_raw st) = Some (build_index_partitions t k) ∧
dget n (effective_node_candidates st) = Some (py_take k workers).

(** The static lists of the node itself give its size. *)
Definition has_local_rows (n : string) : Prop :=
∃ data t, node_data (dget_or [] n node_map) = Some data ∧ resolve_static_partition_total n data n = Ok (Some t).

Record plan_inv (done_ : list string) (st : shard_plan) : Prop := {
pi_wf : dict_wf (shard_nodes_by_raw st) ∧ dict_wf (partitions_by_raw st);
pi_keys : dkeys (effective_node_candidates st) = dkeys candidates;
pi_planned n : n ∈ dkeys (shard_nodes_by_raw st) → n ∈ done_ ∧ ∃ workers t k, planned st n workers t k;
pi_parts n : n ∈ dkeys (partitions_by_raw st) → n ∈ dkeys (shard_nodes_by_raw st);
pi_rest n : n ∉ dkeys (shard_nodes_by_raw st) → dget n (effective_node_candidates st) = dget n candidates;
pi_all n : n ∈ done_ → n ∈ dkeys explicit → n ∈ dkeys (shard_nodes_by_raw st);
pi_deps n d names dnames : dget n (shard_nodes_by_raw st) = Some names → d ∈ deps_of node_map n →
  dget d (shard_nodes_by_raw st) = Some dnames → length names <= length dnames;
pi_aligned n d parts : ¬ has_local_rows n → dget n (partitions_by_raw st) = Some parts → d ∈ deps_of node_map n →
  d ∈ dkeys (partitions_by_raw st) → dget d (partitions_by_raw st) = Some parts;
pi_rows n parts : dget n (partitions_by_raw st) = Some parts → ∃ rows, rows_of_node node_map (partitions_by_raw st) n rows ∧ contiguous 0 parts rows;
pi_data n : n ∈ dkeys (shard_nodes_by_raw st) → ∃ data, node_data (dget_or [] n node_map) = Some data;
}.

Lemma aligned_count_spec shard_count counts k : aligned_count shard_count counts = inr k →
(k <= shard_count)%Z ∧ (∀ c, c ∈ counts → (k <= c)%Z) ∧ (k = shard_count ∨ k ∈ counts).
Proof.
unfold aligned_count. destruct counts as [|e counts]; [intros [= ->]; split; [done|]; split; [by intros c ?%elem_of_nil|by left]|].
destruct (forallb _ _) eqn:E; [|done]. intros [= <-]. rewrite forallb_forall in E. split; [lia|]. split.
- intros c Hc. apply list_elem_of_In, E, Z.eqb_eq in Hc. lia.
- destruct (Z.min_spec shard_count e) as [[_ ->]|[_ ->]]; [by left|right; left].
Qed.

(** The size of a node without static lists is that of its sharded
  dependencies. *)
Lemma infer_from_deps n data sc deps parts t d ps :
infer_shard_input_size n node_map data sc deps parts = Ok t →
resolve_static_partition_total n data n = Ok None → d ∈ deps → dget d parts = Some ps →
Z.of_nat (length ps) = sc ∧ t = Z.max 1 (partition_rows ps).
Proof.
unfold infer_shard_input_size. intros H Hr Hd Hps. rewrite Hr in H. simpl in H. apply result_bind_ok in H as (totals & Ht & H).
apply dep_totals_spec in Ht as [_ Ht]. destruct (Ht d ps Hd Hps) as [H1 H2]. split; [done|].
destruct totals as [|first totals]; [by apply elem_of_nil in H2|]. destruct (forallb _ _) eqn:E; [|done].
injection H as <-. rewrite forallb_forall in E. apply list_elem_of_In, E, Z.eqb_eq in H2. by rewrite H2.
Qed.

(** One planned node. *)
Lemma plan_node_inv st n workers st' : dget n explicit = Some workers → plan_node node_map explicit st n = Ok st' →
∃ data sc t, node_data (dget_or [] n node_map) = Some data ∧
  (1 <= sc <= Z.of_nat (length workers))%Z ∧
  (∀ d names, d ∈ deps_of node_map n → dget d (shard_nodes_by_raw st) = Some names → (sc <= Z.of_nat (length names))%Z) ∧
  infer_shard_input_size n node_map data sc (deps_of node_map n) (partitions_by_raw st) = Ok t ∧
  let k := Z.min sc (Z.max 1 t) in
  st' = mkShardPlan (dset n (shard_names n k) (shard_nodes_by_raw st))
          (dset n (build_index_partitions t k) (partitions_by_raw st))
          (dset n (py_take k workers) (effective_node_candidates st)).
Proof.
intros Hw H. unfold plan_node in H. rewrite Hw in H.
destruct (plan_body node_map st n workers) as [[r|p]|e] eqn:E; [done| |by destruct e]. injection H as <-.
unfold plan_body in E. destruct (as_dict _) as [spec|] eqn:Es; [|done].
destruct (as_dict (vget "data" spec)) as [data|] eqn:Ed; [|done].
apply result_bind_ok in E as (local & Hl & E). apply result_bind_ok in E as (missing & Hm & E).
destruct missing; [done|]. destruct (aligned_count _ _) as [r|sc] eqn:Ea; [done|].
destruct (Z.leb_spec sc 0) as [|Hpos]; [done|]. unfold plan_shards in E. apply result_bind_ok in E as (t & Ht & E).
destruct (negb _); [done|]. injection E as <-. apply aligned_count_spec in Ea as (H1 & H2 & _).
exists data, sc, t. split; [|split; [lia|split; [|by split]]].
- unfold node_data. rewrite Es. exact Ed.
- intros d names Hd Hnames. apply H2. apply list_elem_of_omap. exists d. split; [done|]. by rewrite Hnames.
Qed.

(** The record of another node is not touched. *)
Lemma planned_other st n m workers t k names parts ws : m ≠ n → planned st m workers t k →
planned (mkShardPlan (dset n names (shard_nodes_by_raw st)) (dset n parts (partitions_by_raw st))
           (dset n ws (effective_node_candidates st))) m workers t k.
Proof. intros Hne (H1 & H2 & H3 & H4 & H5 & H6). unfold planned. simpl. rewrite !dget_dset_ne by done. done. Qed.

Hypothesis explicit_candidates : ∀ n, n ∈ dkeys explicit → n ∈ dkeys candidates.

Lemma plan_inv_step done_ st n workers st' :
plan_inv done_ st → n ∉ done_ → dget n explicit = Some workers →
(∀ d, d ∈ deps_of node_map n → d ∈ done_ ∨ d ∉ dkeys explicit) → (∀ m, m ∈ done_ → n ∉ deps_of node_map m) →
plan_node node_map explicit st n = Ok st' → plan_inv (done_ ++ [n]) st'.
Proof.
intros Hi Hn Hw Hdeps Hback H. destruct (plan_node_inv _ _ _ _ Hw H) as (data & sc & t & Hdata & Hsc & Hcounts & Ht & ->).
clear H. set (k := Z.min sc (Z.max 1 t)).
assert (Hk : (1 <= k <= Z.of_nat (length workers))%Z ∧ (k <= Z.max 1 t)%Z) by lia.
assert (Hnew : n ∉ dkeys (shard_nodes_by_raw st)) by (intros Hx; by apply Hi in Hx as [? _]).
assert (Hnewp : n ∉ dkeys (partitions_by_raw st)) by (intros Hx; by apply Hi in Hx).
assert (Hself : n ∉ deps_of node_map n).
{ intros Hd. destruct (Hdeps n Hd) as [|Hx]; [done|]. apply Hx, dget_is_Some. by rewrite Hw. }
split; cbn [shard_nodes_by_raw partitions_by_raw effective_node_candidates].
- destruct Hi as [[? ?] _ _ _ _ _ _ _]. by split; apply dict_wf_dset.
- rewrite dkeys_dset, decide_True; [apply Hi|]. rewrite (pi_keys _ _ Hi). apply explicit_candidates, dget_is_Some. by rewrite Hw.
- intros m [->|Hm]%elem_of_dkeys_dset.
  + split; [apply elem_of_app; right; left|]. exists workers, t, k. unfold planned. simpl. rewrite !dget_dset_eq.
    split; [done|]. split; [lia|]. split; [lia|done].
  + destruct (pi_planned _ _ Hi m Hm) as [Hd (w & t' & k' & Hp)]. split; [apply elem_of_app; by left|].
    exists w, t', k'. apply planned_other; [|done]. by intros ->.
- intros m. rewrite !elem_of_dkeys_dset. intros [->|Hm]; [by left|right; by apply Hi].
- intros m. rewrite elem_of_dkeys_dset. intros Hm. rewrite dget_dset_ne by tauto. apply Hi. tauto.
- intros m [Hm| ->%list_elem_of_singleton]%elem_of_app Hx; apply elem_of_dkeys_dset; [right; by apply (pi_all _ _ Hi)|by left].
- intros m d names dnames Hm Hd Hdn. destruct (decide (m = n)) as [->|Hne].
  + rewrite dget_dset_eq in Hm. injection Hm as <-. assert (d ≠ n) by (by intros ->).
    rewrite dget_dset_ne in Hdn by done. specialize (Hcounts d dnames Hd Hdn). pose proof (length_shard_names n k). lia.
  + rewrite dget_dset_ne in Hm by done. assert (Hmd : m ∈ done_) by (apply (pi_planned _ _ Hi); apply dget_is_Some; by rewrite Hm).
    assert (d ≠ n) by (intros ->; by apply (Hback m)). rewrite dget_dset_ne in Hdn by done. by eapply Hi.
- intros m d parts Hloc Hm Hd Hdk. destruct (decide (m = n)) as [->|Hne].
  + assert (d ≠ n) by (by intros ->). rewrite dget_dset_eq in Hm. injection Hm as <-.
    apply elem_of_dkeys_dset in Hdk as [->|Hdk]; [done|]. rewrite dget_dset_ne by done.
    destruct (pi_planned _ _ Hi d (pi_parts _ _ Hi d Hdk)) as [_ (w & td & kd & Hp)].
    destruct Hp as (_ & Hp2 & Hp3 & Hp4 & Hp5 & _).
    destruct (resolve_static_partition_total n data n) as [[t'|]|e] eqn:Er.
    * destruct Hloc. by exists data, t'.
    * destruct (infer_from_deps _ _ _ _ _ _ _ _ Ht Er Hd Hp5) as [Hlen Et].
      rewrite length_partitions in Hlen. rewrite partition_rows_build in Et.
      assert (Ek : k = kd) by (unfold k; lia). by rewrite Hp5, Ek, Et, !build_safe.
    * exfalso. clear -Ht Er. unfold infer_shard_input_size in Ht. by rewrite Er in Ht.
  + rewrite dget_dset_ne in Hm by done. assert (Hmk : m ∈ dkeys (partitions_by_raw st)) by (apply dget_is_Some; by rewrite Hm).
    assert (Hmd : m ∈ done_) by (by apply (pi_planned _ _ Hi), Hi).
    assert (d ≠ n) by (intros ->; by apply (Hback m)). apply elem_of_dkeys_dset in Hdk as [->|Hdk]; [done|].
    rewrite dget_dset_ne by done. by eapply Hi.
- intros m parts. destruct (decide (m = n)) as [->|Hne].
  + rewrite dget_dset_eq. intros [= <-]. apply (infer_rows _ _ _ _ _ _ Hdata) in Ht. exists t. split; [by apply rows_of_node_other|].
    pose proof (partitions_contiguous t k) as Hc. apply rows_of_node_pos in Ht. by replace (Z.max 1 t) with t in Hc by lia.
  + rewrite dget_dset_ne by done. intros Hm. destruct (pi_rows _ _ Hi m parts Hm) as (rows & Hr & Hc). exists rows. split; [|done].
    apply rows_of_node_other; [|done]. apply Hback, (pi_planned _ _ Hi), Hi, dget_is_Some. by eexists.
- intros m [->|Hm]%elem_of_dkeys_dset; [by exists data|by apply Hi].
Qed.

Lemma plan_inv_skip done_ st n : plan_inv done_ st → n ∉ dkeys explicit → plan_inv (done_ ++ [n]) st.
Proof.
intros [] Hn. split; try done.
- intros m Hm. destruct (pi_planned0 m Hm) as [? ?]. split; [|done]. apply elem_of_app. by left.
- intros m [Hm| ->%list_elem_of_singleton]%elem_of_app; [auto|done].
Qed.

Lemma plan_inv_run order plan : NoDup order →
(∀ n, n ∈ dkeys explicit → n ∈ order) →
(∀ l1 n l2, order = l1 ++ n :: l2 → ∀ d, d ∈ order → d ∈ deps_of node_map n → d ∈ l1) →
foldR (plan_node node_map explicit) (mkShardPlan [] [] candidates) order = Ok plan → plan_inv order plan.
Proof.
intros Hnd Hall Hord.
assert (G : ∀ l2 l1 st, order = l1 ++ l2 → plan_inv l1 st → foldR (plan_node node_map explicit) st l2 = Ok plan → plan_inv order plan).
{ induction l2 as [|n l2 IH]; intros l1 st E Hi H.
  - injection H as <-. rewrite app_nil_r in E. by subst.
  - rewrite foldR_cons in H. destruct (plan_node node_map explicit st n) as [st'|] eqn:En; [|done].
    apply (IH (l1 ++ [n]) st'); [by rewrite <-app_assoc| |done]. rewrite E in Hnd.
    assert (Hn : n ∉ l1) by (apply NoDup_app in Hnd as (_ & Hx & _); intros Hy; apply (Hx n Hy); left).
    destruct (dget n explicit) as [workers|] eqn:Ew.
    + eapply plan_inv_step; [done..| | |exact En].
      * intros d Hd. destruct (decide (d ∈ dkeys explicit)); [left|by right]. eapply Hord; [exact E|by apply Hall|done].
      * intros m Hm Hd. apply list_elem_of_split in Hm as (a & b & ->).
        assert (n ∈ a) as Ha.
        { eapply (Hord a m (b ++ n :: l2)); [by rewrite E, <-app_assoc| |done]. rewrite E. set_solver. }
        apply Hn. set_solver.
    + unfold plan_node in En. rewrite Ew in En. injection En as <-. apply plan_inv_skip; [done|]. by apply dget_None. }
intros H. apply (G order [] (mkShardPlan [] [] candidates)); [done| |done].
split; simpl; try done; try (by intros ? ?%elem_of_nil); try (intros; by apply elem_of_nil in H0).
split; constructor.
Qed.
End plan.

(** ** The worker assignment of the sharded workflow

    [rewrite_worker_assignment_for_shards] on an assignment that lists every
    node on exactly its candidates: each shard goes to its own worker, each
    other node stays, each merge node goes to one host. *)

Lemma elem_of_imap_index (ws : list string) w i : (w, i) ∈ imap (λ i w, (w, i)) ws ↔ ws !! i = Some w.
Proof.
  rewrite list_elem_of_lookup. split.
  - intros [j Hj]. rewrite list_lookup_imap in Hj. destruct (ws !! j) eqn:E; [|done]. by injection Hj as -> ->.
  - intros H. exists i. by rewrite list_lookup_imap, H.
Qed.

Lemma worker_index (ws : list string) w i : NoDup ws →
  dget w (dict_of (imap (λ i w, (w, i)) ws)) = Some i ↔ ws !! i = Some w.
Proof.
  intros Hnd. assert (E : (imap (λ (i : nat) (w : string), (w, i)) ws).*1 = ws).
  { rewrite fmap_imap. clear. induction ws as [|w ws IH]; csimpl; [done|]. f_equal. exact IH. }
  rewrite dict_of_nodup by (by rewrite E). rewrite <-elem_of_imap_index. split; [apply dget_elem|].
  apply elem_dget. unfold dict_wf, dkeys. by rewrite E.
Qed.

Lemma NoDup_fst_unique {V} (d : dict string V) k v v' : NoDup (dkeys d) → (k, v) ∈ d → (k, v') ∈ d → v = v'.
Proof. intros Hd H1 H2. pose proof (elem_dget k v d Hd H1). pose proof (elem_dget k v' d Hd H2). congruence. Qed.

Lemma add_hosts_keys (hs : dict string string) (rw : dict string (list string)) :
(∀ n w, (n, w) ∈ hs → w ∈ dkeys rw) → dkeys (foldl add_merge_host rw hs) = dkeys rw.
Proof.
revert rw. induction hs as [|[n w'] hs IH]; intros rw Hk; cbn [foldl]; [done|].
assert (Ek : dkeys (add_merge_host rw (n, w')) = dkeys rw).
{ unfold add_merge_host. simpl. rewrite dkeys_dset, decide_True; [done|]. apply (Hk n). left. }
rewrite IH; [done|]. intros m w0 Hm. rewrite Ek. apply (Hk m). by right.
Qed.

Lemma add_hosts_spec (hs : dict string string) (rw : dict string (list string)) (w : string) :
(∀ n w, (n, w) ∈ hs → w ∈ dkeys rw) → NoDup (dget_or [] w rw) →
NoDup (dget_or [] w (foldl add_merge_host rw hs)) ∧
∀ x, x ∈ dget_or [] w (foldl add_merge_host rw hs) ↔ x ∈ dget_or [] w rw ∨ (x, w) ∈ hs.
Proof.
revert rw. induction hs as [|[n w'] hs IH]; intros rw Hk Hnd; cbn [foldl]; [split; [done|set_solver]|].
assert (Eg : dget_or [] w (add_merge_host rw (n, w')) = if decide (w = w') then add_new n (dget_or [] w rw) else dget_or [] w rw).
{ unfold add_merge_host. simpl. rewrite dget_or_dset. by case_decide; subst. }
destruct (IH (add_merge_host rw (n, w'))) as (H2 & H3).
- intros m w0 Hm. unfold add_merge_host. apply elem_of_dkeys_dset. right. apply (Hk m). by right.
- rewrite Eg. case_decide; [by apply NoDup_add_new|done].
- split; [done|]. intros x. rewrite H3, Eg, elem_of_cons.
  case_decide; [rewrite elem_of_add_new; naive_solver|naive_solver].
Qed.
Section assignment.
Context (shards : dict string (list string)) (merges : list string) (assignment eff : dict string (list string)).

Hypothesis workers_nodup : NoDup (dkeys assignment).
Hypothesis entries_nodup : ∀ w l, (w, l) ∈ assignment → NoDup l.
Hypothesis eff_wf : dict_wf eff.
Hypothesis eff_nodup : ∀ n ws, dget n eff = Some ws → NoDup ws.
Hypothesis listed_on_candidates : ∀ w l n, (w, l) ∈ assignment → n ∈ l → ∃ ws, dget n eff = Some ws ∧ w ∈ ws.
Hypothesis candidates_list : ∀ n ws w, dget n eff = Some ws → w ∈ ws → ∃ l, (w, l) ∈ assignment ∧ n ∈ l.
Hypothesis shards_have_workers : ∀ n names, dget n shards = Some names →
  ∃ w ws, dget n eff = Some (w :: ws) ∧ length (w :: ws) = length names.
Hypothesis merges_sharded : ∀ n, n ∈ merges → n ∈ dkeys shards.

(** [shard_index_by_worker] and [primary_worker_by_raw]. *)
Definition indexed (idx : dict string (dict string nat)) (prim : dict string string) (n : string) : Prop :=
match dget n shards with
| None => True
| Some names => ∃ w ws, dget n eff = Some (w :: ws) ∧ dget n prim = Some w ∧
    dget n idx = Some (dict_of (imap (λ i w, (w, i)) (w :: ws)))
end.

Lemma index_run : ∃ idx prim, foldR (index_node_workers shards) ([], []) eff = Ok (idx, prim) ∧
∀ n, n ∈ dkeys eff → indexed idx prim n.
Proof.
assert (G : ∀ l2 l1 idx prim, eff = l1 ++ l2 → (∀ n, n ∈ dkeys l1 → indexed idx prim n) →
  ∃ idx' prim', foldR (index_node_workers shards) (idx, prim) l2 = Ok (idx', prim') ∧ ∀ n, n ∈ dkeys eff → indexed idx' prim' n).
{ induction l2 as [|[n ws] l2 IH]; intros l1 idx prim E Hi.
  - exists idx, prim. split; [done|]. intros n. rewrite E, app_nil_r. apply Hi.
  - assert (Hget : dget n eff = Some ws) by (apply elem_dget; [done|]; rewrite E; set_solver).
    assert (Hn : n ∉ dkeys l1).
    { pose proof eff_wf as Hw. unfold dict_wf, dkeys in Hw. rewrite E, fmap_app in Hw. csimpl in Hw.
      apply NoDup_app in Hw as (_ & Hw & _). intros Hx. apply (Hw n Hx). left. }
    rewrite foldR_cons. unfold index_node_workers at 1. cbn [fst snd].
    destruct (dget n shards) as [names|] eqn:Es.
    + destruct (shards_have_workers n names Es) as (w & ws' & Hw & Hlen). rewrite Hget in Hw. injection Hw as ->.
      rewrite Hlen, Nat.eqb_refl. cbn [negb]. apply (IH (l1 ++ [(n, w :: ws')])); [by rewrite <-app_assoc|].
      intros m Hm. unfold dkeys in Hm. rewrite fmap_app in Hm. apply elem_of_app in Hm as [Hm|Hm].
      * assert (m ≠ n) by (by intros ->). specialize (Hi m Hm). unfold indexed in *. destruct (dget m shards); [|done].
        by rewrite !dget_dset_ne.
      * apply list_elem_of_singleton in Hm as ->. unfold indexed. simpl. rewrite Es. exists w, ws'. by rewrite !dget_dset_eq.
    + apply (IH (l1 ++ [(n, ws)])); [by rewrite <-app_assoc|]. intros m Hm. unfold dkeys in Hm. rewrite fmap_app in Hm.
      apply elem_of_app in Hm as [Hm|Hm]; [by apply Hi|]. apply list_elem_of_singleton in Hm as ->.
      unfold indexed. simpl. by rewrite Es. }
apply (G eff [] [] []); [done|]. by intros n ?%elem_of_nil.
Qed.

Section run.
Context (idx : dict string (dict string nat)) (prim : dict string string).
Hypothesis idx_ok : ∀ n, n ∈ dkeys eff → indexed idx prim n.

Lemma hosts_run : ∃ hosts, foldR (merge_host shards (dkeys assignment) idx prim) [] merges = Ok hosts ∧
dict_wf hosts ∧ (∀ n, n ∈ dkeys hosts ↔ n ∈ merges) ∧ ∀ n w, dget n hosts = Some w → w ∈ dkeys assignment.
Proof.
assert (G : ∀ l hosts, (∀ n, n ∈ l → n ∈ merges) → dict_wf hosts → (∀ n w, dget n hosts = Some w → w ∈ dkeys assignment) →
  ∃ hosts', foldR (merge_host shards (dkeys assignment) idx prim) hosts l = Ok hosts' ∧ dict_wf hosts' ∧
    (∀ n, n ∈ dkeys hosts' ↔ n ∈ dkeys hosts ∨ n ∈ l) ∧ ∀ n w, dget n hosts' = Some w → w ∈ dkeys assignment).
{ induction l as [|n l IH]; intros hosts Hl Hwf Hh.
  - exists hosts. split; [done|]. split; [done|]. split; [|done]. set_solver.
  - assert (Hn : n ∈ dkeys shards) by (apply merges_sharded, Hl; left).
    assert (Hw : ∃ w, w ∈ dkeys assignment ∧ merge_host shards (dkeys assignment) idx prim hosts n = Ok (dset n w hosts)).
    { unfold merge_host. rewrite (proj2 (dmem_true n shards) Hn). cbn [negb].
      destruct (filter _ _) as [|w ws] eqn:Ef.
      - apply dget_is_Some in Hn as [names Hnames]. destruct (shards_have_workers n names Hnames) as (w & ws & Hw & _).
        assert (Hi : indexed idx prim n) by (apply idx_ok, dget_is_Some; by rewrite Hw).
        unfold indexed in Hi. rewrite Hnames in Hi. destruct Hi as (w' & ws' & E & -> & _). exists w'. split; [|done].
        rewrite Hw in E. injection E as <- <-. destruct (candidates_list n _ w Hw) as (l' & Hin & _); [left|].
        apply list_elem_of_fmap. by exists (w, l').
      - exists w. split; [|done]. assert (Hin : w ∈ w :: ws) by left. rewrite <-Ef in Hin.
        by apply list_elem_of_filter in Hin as [_ ?]. }
    destruct Hw as (w & Hw & Em). rewrite foldR_cons, Em.
    destruct (IH (dset n w hosts)) as (hosts' & H1 & H2 & H3 & H4).
    + intros m Hm. apply Hl. by right.
    + by apply dict_wf_dset.
    + intros m w'. rewrite dget_dset. case_decide; [by intros [= <-]|apply Hh].
    + exists hosts'. split; [done|]. split; [done|]. split; [|done]. intros m. rewrite H3, elem_of_dkeys_dset. set_solver. }
destruct (G merges []) as (hosts & H1 & H2 & H3 & H4); [done|constructor|done|]. exists hosts. split; [done|]. split; [done|].
split; [|done]. intros n. rewrite H3. set_solver.
Qed.

(** Where the name [x] of the rewritten workflow comes from on worker [w]. *)
Definition mapped_to (w n x : string) : Prop :=
match dget n shards with
| None => x = n
| Some names => ∃ ws i, dget n eff = Some ws ∧ ws !! i = Some w ∧ names !! i = Some x
end.

Lemma mapped_to_fun w n x x' : mapped_to w n x → mapped_to w n x' → x = x'.
Proof.
unfold mapped_to. destruct (dget n shards); [|by intros -> ->].
intros (ws & i & H1 & H2 & H3) (ws' & j & H1' & H2' & H3'). rewrite H1 in H1'. injection H1' as <-.
assert (i = j) as <- by (eapply NoDup_lookup; [by eapply eff_nodup|done..]). congruence.
Qed.

Context (hosts : dict string string).

Lemma assign_step w l out n : (w, l) ∈ assignment → n ∈ l → NoDup out →
∃ x out', mapped_to w n x ∧ assign_node shards merges idx hosts w out n = Ok out' ∧ NoDup out' ∧ x ∈ out' ∧
  (∀ y, y ∈ out → y ∈ out') ∧ ∀ y, y ∈ out' → y ∈ out ∨ y = x ∨ (y = n ∧ n ∈ merges ∧ dget n hosts = Some w).
Proof.
intros Hwl Hn Hnd. destruct (listed_on_candidates w l n Hwl Hn) as (ws & Hws & Hw).
assert (Hi : indexed idx prim n) by (apply idx_ok, dget_is_Some; by rewrite Hws).
assert (Hmap : ∃ x, mapped_to w n x ∧ (match dget n shards with
   | None => Ok (Some n)
   | Some shard_nodes =>
       match dget w (dget_or [] n idx) with
       | None => Ok (if hosts_merge merges hosts w n then Some n else None)
       | Some shard_idx => name ← ok_or (IndexError "list index out of range") (shard_nodes !! shard_idx); Ok (Some name)
       end
   end) = Ok (Some x)).
{ unfold mapped_to, indexed in *. destruct (dget n shards) as [names|] eqn:Es; [|by exists n].
  destruct Hi as (w0 & ws0 & E & _ & Eidx). rewrite Hws in E. injection E as ->.
  destruct (shards_have_workers n names Es) as (w1 & ws1 & E1 & Hlen). rewrite Hws in E1. injection E1 as <- <-.
  apply list_elem_of_lookup in Hw as [i Hi]. unfold dget_or. rewrite Eidx.
  rewrite (proj2 (worker_index _ w i (eff_nodup _ _ Hws)) Hi).
  destruct (names !! i) as [x|] eqn:Ex.
  - exists x. split; [|done]. by exists (w0 :: ws0), i.
  - apply lookup_ge_None in Ex. apply lookup_lt_Some in Hi. lia. }
destruct Hmap as (x & Hx & E). exists x. unfold assign_node. rewrite E. simpl.
case_bool_decide as Hin; [exists out; naive_solver|].
assert (Hnd' : NoDup (out ++ [x])) by (apply NoDup_app; split; [done|]; split; [set_solver|apply NoDup_singleton]).
unfold hosts_merge. destruct (_ && _)%bool eqn:Eh.
- apply andb_true_iff in Eh as [H1%bool_decide_eq_true H2%bool_decide_eq_true].
  exists (add_new n (out ++ [x])). split; [done|]. split; [done|]. split; [by apply NoDup_add_new|].
  split; [apply elem_of_add_new; set_solver|]. split; intros y; rewrite elem_of_add_new; set_solver.
- exists (out ++ [x]). split; [done|]. split; [done|]. split; [done|]. split; [set_solver|]. split; intros y; set_solver.
Qed.

Lemma assign_run w l : (w, l) ∈ assignment →
∃ out, foldR (assign_node shards merges idx hosts w) [] l = Ok out ∧ NoDup out ∧
  (∀ n, n ∈ l → ∃ x, mapped_to w n x ∧ x ∈ out) ∧
  ∀ x, x ∈ out → (∃ n, n ∈ l ∧ mapped_to w n x) ∨ (x ∈ merges ∧ dget x hosts = Some w).
Proof.
intros Hwl.
assert (G : ∀ l2 out, (∀ n, n ∈ l2 → n ∈ l) → NoDup out →
  ∃ out', foldR (assign_node shards merges idx hosts w) out l2 = Ok out' ∧ NoDup out' ∧ (∀ x, x ∈ out → x ∈ out') ∧
    (∀ n, n ∈ l2 → ∃ x, mapped_to w n x ∧ x ∈ out') ∧
    ∀ x, x ∈ out' → x ∈ out ∨ (∃ n, n ∈ l2 ∧ mapped_to w n x) ∨ (x ∈ merges ∧ dget x hosts = Some w)).
{ induction l2 as [|n l2 IH]; intros out Hl Hnd.
  - exists out. split; [done|]. split; [done|]. split; [done|]. split; [by intros n ?%elem_of_nil|]. tauto.
  - destruct (assign_step w l out n Hwl) as (x & out1 & Hx & E & Hnd1 & Hin & Hsub & Hback); [apply Hl; left|done|].
    destruct (IH out1) as (out' & E' & Hnd' & Hsub' & Hall & Hback'); [intros m Hm; apply Hl; by right|done|].
    exists out'. rewrite foldR_cons, E. split; [done|]. split; [done|]. split; [auto|]. split.
    + intros m [->|Hm]%elem_of_cons; [exists x; auto|by apply Hall].
    + intros y [Hy|[(m & Hm & Hy)|Hy]]%Hback'; [|right; left; exists m; split; [by right|done]|by right; right].
      apply Hback in Hy as [Hy|[->|(-> & Hy)]]; [by left|right; left; exists n; split; [left|done]|by right; right]. }
destruct (G l []) as (out & H1 & H2 & _ & H3 & H4); [done|constructor|]. exists out. split; [done|]. split; [done|].
split; [done|]. intros x [Hx|Hx]%H4; [by apply elem_of_nil in Hx|done].
Qed.

End run.

(** What runs on worker [w] in the end. *)
Definition placed (hosts : dict string string) (w x : string) : Prop :=
(∃ n ws, dget n eff = Some ws ∧ w ∈ ws ∧ mapped_to w n x) ∨ (x ∈ merges ∧ dget x hosts = Some w).

Lemma rewrite_assignment_spec : ∃ rw hosts,
rewrite_worker_assignment_for_shards shards merges assignment eff = Ok rw ∧
dkeys rw = dkeys assignment ∧
(∀ n, n ∈ merges → ∃ w, dget n hosts = Some w ∧ w ∈ dkeys assignment) ∧
∀ w out, (w, out) ∈ rw → NoDup out ∧ ∀ x, x ∈ out ↔ placed hosts w x.
Proof.
destruct index_run as (idx & prim & Ei & Hidx). destruct (hosts_run idx prim Hidx) as (hosts & Eh & Hwf & Hk & Hw).
unfold rewrite_worker_assignment_for_shards. rewrite Ei. simpl. rewrite Eh. simpl.
destruct (mapR_ok_total (λ kv : string * list string,
  out ← foldR (assign_node shards merges idx hosts kv.1) [] kv.2; Ok (kv.1, out)) assignment) as [rewritten Er].
{ apply Forall_forall. intros [w l] Hin. destruct (assign_run idx prim Hidx hosts w l Hin) as (out & E & _).
  cbn [fst snd]. rewrite E. by eexists. }
rewrite Er. simpl. exists (foldl add_merge_host rewritten hosts), hosts. split; [done|]. apply mapR_ok_inv in Er.
assert (Hent : ∀ w out, (w, out) ∈ rewritten → ∃ l, (w, l) ∈ assignment ∧ foldR (assign_node shards merges idx hosts w) [] l = Ok out).
{ intros w out Hin. apply list_elem_of_lookup in Hin as [i Hi]. destruct (Forall2_lookup_r _ _ _ _ _ Er Hi) as ([w' l] & Hl & H).
  inv_ok. simpl in *. exists l. split; [by eapply list_elem_of_lookup_2|done]. }
assert (Hkeys : dkeys rewritten = dkeys assignment).
{ unfold dkeys. clear -Er. induction Er as [|[w l] [w' out] l1 l2 H Hl IH]; csimpl; [done|]. inv_ok. simpl in *. by rewrite IH. }
assert (Hhk : ∀ n w, (n, w) ∈ hosts → w ∈ dkeys rewritten) by (intros n w H; rewrite Hkeys; by apply (Hw n), elem_dget).
assert (Hwfr : dict_wf rewritten) by (unfold dict_wf; by rewrite Hkeys).
assert (Hget : ∀ w, w ∈ dkeys assignment → ∃ l out, (w, l) ∈ assignment ∧ dget_or [] w rewritten = out ∧
  foldR (assign_node shards merges idx hosts w) [] l = Ok out).
{ intros w Hin. rewrite <-Hkeys in Hin. apply dget_is_Some in Hin as [out Ho]. pose proof Ho as Ho'%dget_elem.
  apply Hent in Ho' as (l & Hl & E). exists l, out. unfold dget_or. by rewrite Ho. }
split; [|split].
- by rewrite <-Hkeys, add_hosts_keys.
- intros n Hn. rewrite <-Hk in Hn. apply dget_is_Some in Hn as [w Hx]. exists w. split; [done|]. by apply (Hw n).
- intros w out Hin. assert (Hwk : w ∈ dkeys (foldl add_merge_host rewritten hosts)) by (apply list_elem_of_fmap; by exists (w, out)).
  rewrite add_hosts_keys, Hkeys in Hwk by done. destruct (Hget w Hwk) as (l & out0 & Hl & E1 & E2).
  destruct (assign_run idx prim Hidx hosts w l Hl) as (out' & E3 & Hnd & Hall & Hback). rewrite E2 in E3. injection E3 as <-.
  assert (Hout : dget_or [] w (foldl add_merge_host rewritten hosts) = out).
  { unfold dget_or. rewrite (elem_dget w out); [done| |done]. unfold dict_wf. by rewrite add_hosts_keys. }
  destruct (add_hosts_spec hosts rewritten w Hhk) as [H1 H2]; [by rewrite E1|]. rewrite Hout in H1, H2. split; [done|].
  intros x. rewrite H2, E1. unfold placed. split.
  + intros [[(n & Hn & Hx)|Hx]%Hback|Hx]; [left|by right|right].
    * destruct (listed_on_candidates w l n Hl Hn) as (ws & Hws & Hw'). by exists n, ws.
    * split; [apply Hk; apply list_elem_of_fmap; by exists (x, w)|by apply elem_dget].
  + intros [(n & ws & Hws & Hw' & Hx)|[_ Hx]]; [left|right; by apply dget_elem].
    destruct (candidates_list n ws w Hws Hw') as (l' & Hl' & Hn).
    assert (l' = l) as -> by (eapply (NoDup_fst_unique assignment); done).
    destruct (Hall n Hn) as (x' & Hx' & Hin'). by rewrite (mapped_to_fun w n x x').
Qed.
End assignment.
