(* ===== verification/ShardRewriteProps.v ===== *)
(** * The sharded workflow as a whole

    Under unique node names (no node is called like a shard of another one)
    the rewritten assignment places every node of the rewritten workflow once
    and nothing else, its dependencies stay inside the workflow, and the
    schedule hint built from both succeeds. *)

From Stdlib Require Import Ascii.
From S2P Require Import Prelude PyFloat PyDict PyValue PyString TopoSort ShardData ShardDataProps ShardRewrite ShardProps.

(** ** Names *)

Lemma shard_name_inj m n i j : shard_name m i = shard_name n j → m = n ∧ i = j.
Proof.
  assert (E : ∀ m i, chars (shard_name m i) = (chars m ++ chars "__shard") ++ "_"%char :: chars (str_of_nat i)).
  { intros m' i'. unfold shard_name. rewrite !chars_app. by rewrite <-app_assoc. }
  assert (Hd : ∀ i, "_"%char ∉ chars (str_of_nat i)).
  { intros i' Hin. destruct (str_of_nat_spec i') as [_ H]. unfold isdigit in H.
    destruct (chars (str_of_nat i')) as [|c l]; [done|]. rewrite forallb_forall in H.
    apply list_elem_of_In, H in Hin. done. }
  intros H. apply (f_equal chars) in H. rewrite !E in H. apply last_char_split in H as [H1 H2]; [|done..].
  apply app_inv_tail in H1. split; [by apply chars_inj|by apply str_of_nat_inj, chars_inj].
Qed.

Lemma shard_names_lookup n k i x : shard_names n k !! i = Some x ↔ x = shard_name n i ∧ (Z.of_nat i < k)%Z.
Proof.
  unfold shard_names. rewrite list_lookup_fmap_Some. split.
  - intros (j & -> & Hj). apply lookup_seq in Hj as [-> H]. split; [done|lia].
  - intros [-> H]. exists i. split; [done|]. apply lookup_seq. lia.
Qed.

Lemma elem_of_shard_names n k x : x ∈ shard_names n k ↔ ∃ i, x = shard_name n i ∧ (Z.of_nat i < k)%Z.
Proof. rewrite list_elem_of_lookup. by setoid_rewrite shard_names_lookup. Qed.

Lemma NoDup_shard_names n k : NoDup (shard_names n k).
Proof. unfold shard_names. apply NoDup_fmap_2_strong; [|apply NoDup_seq]. by intros i j _ _ [_ ->]%shard_name_inj. Qed.

(** No node is called like a shard. *)
Definition fresh_shard_names (names : list string) : Prop :=
  ∀ n m i, n ∈ names → m ∈ names → n ≠ shard_name m i.

(** ** The index of the nodes *)

Lemma index_nodes_ok nodes node_map node_order :
  foldR index_flowmesh_node ([], []) nodes = Ok (node_map, node_order) →
  node_order = node_name <$> nodes ∧ NoDup node_order ∧ node_map = (λ node, (node_name node, node)) <$> nodes ∧
  "" ∉ node_order.
Proof.
  assert (G : ∀ l2 l1 st, NoDup (node_name <$> l1) → "" ∉ node_name <$> l1 →
    foldR index_flowmesh_node ((λ node, (node_name node, node)) <$> l1, node_name <$> l1) l2 = Ok st →
    NoDup (node_name <$> l1 ++ l2) ∧ st = ((λ node, (node_name node, node)) <$> l1 ++ l2, node_name <$> l1 ++ l2) ∧
    "" ∉ node_name <$> l1 ++ l2).
  { induction l2 as [|node l2 IH]; intros l1 st Hnd Hne H.
    - injection H as <-. by rewrite app_nil_r.
    - rewrite foldR_cons in H. unfold index_flowmesh_node at 1 in H. cbn [fst snd] in H.
      destruct (vget "name" node) as [| | | |s| | |] eqn:En; try done.
      destruct (String.eqb_spec s "") as [|Hs0]; [done|]. destruct (dmem s _) eqn:Em; [done|].
      assert (Es : node_name node = s) by (unfold node_name; by rewrite En).
      assert (Hs : s ∉ node_name <$> l1).
      { apply dmem_false in Em. unfold dkeys in Em. by rewrite <-list_fmap_compose in Em. }
      rewrite dset_new in H by (by apply dmem_false).
      assert (E : ∀ {B} (f : dict string val → B), (f <$> l1) ++ [f node] = f <$> l1 ++ [node]) by (intros B f; by rewrite fmap_app).
      rewrite <-Es in H. rewrite (E _ (λ node, (node_name node, node))), (E _ node_name) in H.
      apply IH in H; [by rewrite <-app_assoc in H| |].
      + rewrite fmap_app. apply NoDup_app. split; [done|].
        split; [|apply NoDup_singleton]. intros x Hx ->%list_elem_of_singleton. by rewrite Es in Hx.
      + rewrite fmap_app. intros [?|E0%list_elem_of_singleton]%elem_of_app; [done|]. rewrite Es in E0. by subst. }
  intros H. apply (G nodes [] _) in H as (H1 & [= -> ->] & H3); [done|constructor|by intros ?%elem_of_nil].
Qed.

Section dict_filter.
Context {V : Type} (P : string * V → Prop) `{∀ kv, Decision (P kv)}.
Lemma dget_filter (d : dict string V) k : dict_wf d →
dget k (filter P d) = match dget k d with Some v => if decide (P (k, v)) then Some v else None | None => None end.
Proof.
unfold dict_wf. induction d as [|[k' v] d IH]; intros Hnd; [done|]. csimpl in Hnd. apply NoDup_cons in Hnd as [Hk Hnd].
rewrite filter_cons. simpl. destruct (decide (P (k', v))) as [Hp|Hp]; simpl; repeat case_decide; subst; try done; try (by apply IH).
rewrite (IH Hnd). assert (dget k' d = None) as -> by (by apply dget_None). done.
Qed.
End dict_filter.

(** ** Decomposition of a rewrite *)

Definition names_of (nodes : list (dict string val)) : list string := node_name <$> nodes.
Definition map_of (nodes : list (dict string val)) : dict string (dict string val) := (λ node, (node_name node, node)) <$> nodes.

Lemma dkeys_map_of nodes : dkeys (map_of nodes) = names_of nodes.
Proof. unfold dkeys, map_of. by rewrite <-list_fmap_compose. Qed.

Lemma map_of_get nodes node : NoDup (names_of nodes) → node ∈ nodes → dget_or [] (node_name node) (map_of nodes) = node.
Proof.
  intros Hnd Hin. unfold dget_or. rewrite (elem_dget (node_name node) node); [done| |].
  - unfold dict_wf. by rewrite dkeys_map_of.
  - apply list_elem_of_fmap. by exists node.
Qed.

Lemma map_of_names nodes : NoDup (names_of nodes) → (λ n, dget_or [] n (map_of nodes)) <$> names_of nodes = nodes.
Proof.
  intros Hnd. unfold names_of. rewrite <-list_fmap_compose.
  assert (G : ∀ l : list (dict string val), (∀ x, x ∈ l → x ∈ nodes) →
    ((λ n, dget_or [] n (map_of nodes)) ∘ node_name) <$> l = l); [|by apply G].
  induction l as [|x l IH]; intros Hl; csimpl; [done|]. rewrite map_of_get by (done || apply Hl; left). f_equal. apply IH.
  intros y Hy. apply Hl. by right.
Qed.

Lemma map_of_name nodes n : n ∈ names_of nodes → NoDup (names_of nodes) → node_name (dget_or [] n (map_of nodes)) = n.
Proof. intros (node & -> & Hin)%list_elem_of_fmap Hnd. by rewrite map_of_get. Qed.

Lemma rewrite_inv nodes assignment outs r :
  rewrite_nodes_for_shard_intent nodes assignment outs = Ok r →
  let names := names_of nodes in let candidates := all_candidates assignment in
  (NoDup names ∧ "" ∉ names) ∧ assignment_ok names assignment ∧ (∀ n, n ∈ dkeys candidates ↔ n ∈ names) ∧
  ((explicit_intent candidates = [] ∧ sr_nodes r = nodes ∧ sr_worker_assignment r = assignment) ∨
   (∃ order plan, build_shard_rewrite_topological_order names (map_of nodes) = Ok order ∧
      foldR (plan_node (map_of nodes) (explicit_intent candidates)) (mkShardPlan [] [] candidates) order = Ok plan ∧
      rewrite_all plan names (map_of nodes) (explicit_intent candidates) candidates assignment outs = Ok r)).
Proof.
  unfold rewrite_nodes_for_shard_intent. intros H. apply result_bind_ok in H as ([nm no] & Hi & H).
  apply index_nodes_ok in Hi as (-> & Hnd & -> & Hne). apply result_bind_ok in H as ([cands norm] & Hc & H).
  apply collect_ok in Hc as (Hok & -> & -> & Hk). split; [done|]. split; [done|]. split; [done|].
  destruct (explicit_intent (all_candidates assignment)) as [|e l] eqn:Ee.
  - left. split; [done|]. injection H as <-. simpl. split; [|done]. by apply map_of_names.
  - right. apply result_bind_ok in H as (order & Ho & H). apply result_bind_ok in H as (plan & Hp & H). by exists order, plan.
Qed.

(** ** The rewritten nodes *)

(** The dependencies of a shard. *)
Lemma shard_deps_elem idx shards l acc res : foldR (rewrite_dependency idx shards) acc l = Ok res →
  ∀ x, x ∈ res → x ∈ acc ∨ ∃ d, VStr d ∈ l ∧ shard_ref idx shards d = Some x.
Proof.
  revert acc. induction l as [|v l IH]; intros acc H x Hx; [injection H as <-; by left|].
  rewrite foldR_cons in H. destruct (rewrite_dependency idx shards acc v) as [acc'|] eqn:E; [|done].
  destruct (IH acc' H x Hx) as [Hx'|(d & Hd & Hr)]; [|right; exists d; split; [by right|done]].
  destruct v as [| | | |s| | |]; simpl in E; try (injection E as <-; by left).
  unfold shard_ref. destruct (dget s shards) as [names|] eqn:Es.
  - destruct (names !! idx) as [name|] eqn:En; [|done]. injection E as <-.
    apply elem_of_app in Hx' as [Hx'| ->%list_elem_of_singleton]; [by left|]. right. exists s. split; [left|]. by rewrite Es.
  - injection E as <-. apply elem_of_app in Hx' as [Hx'| ->%list_elem_of_singleton]; [by left|]. right. exists s.
    split; [left|]. by rewrite Es.
Qed.

(** A string among the dependencies. *)
Lemma elem_of_str_deps node d : d ∈ str_deps node ↔ ∃ l, vget "dependsOn" node = VList l ∧ VStr d ∈ l.
Proof.
  unfold str_deps. destruct (vget "dependsOn" node); try (split; [by intros ?%elem_of_nil|by intros (? & ? & _)]).
  rewrite list_elem_of_omap. split.
  - intros (v & Hv & E). exists l. split; [done|]. destruct v; by simplify_eq.
  - intros (l' & [= <-] & Hl). by exists (VStr d).
Qed.

Lemma elem_of_str_deps_list (l : list string) node d :
  vget "dependsOn" node = VList (VStr <$> l) → d ∈ str_deps node → d ∈ l.
Proof.
  intros E H. apply elem_of_str_deps in H as (l' & E' & Hd). rewrite E in E'. injection E' as <-.
  by apply list_elem_of_fmap in Hd as (x & [= ->] & Hx).
Qed.

Lemma shard_node_spec node_map shards raw base total idx name p node :
  shard_node node_map shards raw base total idx name p = Ok node →
  node_name node = name ∧ ∀ x, x ∈ str_deps node → ∃ d, d ∈ str_deps base ∧ shard_ref idx shards d = Some x.
Proof.
  unfold shard_node. intros H. destruct (as_dict _) as [spec|]; [|done]. destruct (as_dict _) as [data|]; [|done].
  apply result_bind_ok in H as (data' & _ & H). apply result_bind_ok in H as (s1 & _ & H).
  apply result_bind_ok in H as (s2 & _ & H). apply result_bind_ok in H as (deps & Hd & [= <-]).
  split; [unfold node_name; by rewrite !vget_dset|]. intros x Hx.
  apply (elem_of_str_deps_list deps) in Hx; [|by rewrite vget_dset]. rewrite vget_dset, decide_False in Hd by done.
  unfold rewrite_shard_dependencies in Hd. destruct (vget "dependsOn" base) as [| | | | |l| |] eqn:Eb; try done.
  - injection Hd as <-. by apply elem_of_nil in Hx.
  - apply result_bind_ok in Hd as (res & Hr & [= <-]). apply (proj1 (elem_of_dkeys_dict_of _ _)) in Hx.
    apply list_elem_of_fmap in Hx as (kv & -> & (x & -> & Hx)%list_elem_of_fmap). cbn [fst]. destruct (shard_deps_elem _ _ _ _ _ Hr x Hx) as [Hn|(d & Hd & Hs)]; [by apply elem_of_nil in Hn|].
    exists d. split; [|done]. apply elem_of_str_deps. by exists l.
Qed.

Lemma shard_nodes_spec node_map shards raw base total idx names parts nodes :
  length names = length parts →
  shard_nodes_from node_map shards raw base total idx names parts = Ok nodes →
  names_of nodes = names ∧ ∀ node, node ∈ nodes → ∃ i, names !! i = Some (node_name node) ∧
    ∀ x, x ∈ str_deps node → ∃ d, d ∈ str_deps base ∧ shard_ref (idx + i) shards d = Some x.
Proof.
  revert idx parts nodes. induction names as [|name names IH]; intros idx [|p parts] nodes Hl H; simpl in Hl; try lia.
  - simpl in H. injection H as <-. split; [done|]. by intros node ?%elem_of_nil.
  - simpl in H. apply result_bind_ok in H as (node & Hn & H). apply result_bind_ok in H as (rest & Hr & [= <-]).
    apply shard_node_spec in Hn as [Hn1 Hn2]. destruct (IH _ _ _ (eq_add_S _ _ Hl) Hr) as [H1 H2].
    split; [unfold names_of in *; csimpl; by rewrite Hn1, H1|]. intros node' [->|Hin]%elem_of_cons.
    + exists 0. split; [by rewrite Hn1|]. by rewrite Nat.add_0_r.
    + destruct (H2 node' Hin) as (i & Hi & Hd). exists (S i). split; [done|]. intros x Hx. rewrite Nat.add_succ_r. by apply Hd.
Qed.

(** The names a node becomes. *)
Definition new_names (shards : dict string (list string)) (merges : list string) (n : string) : list string :=
  match dget n shards with
  | None => [n]
  | Some names => names ++ if bool_decide (n ∈ merges) then [n] else []
  end.

(** Where the dependencies of a rewritten node come from. *)
Definition comes_from (shards : dict string (list string)) (merges : list string) (base : dict string val) (n : string)
    (node : dict string val) : Prop :=
  match dget n shards with
  | None => node = base
  | Some names =>
      (∃ i, names !! i = Some (node_name node) ∧
         ∀ x, x ∈ str_deps node → ∃ d, d ∈ str_deps base ∧ shard_ref i shards d = Some x) ∨
      (n ∈ merges ∧ node_name node = n ∧ ∀ x, x ∈ str_deps node → x ∈ names)
  end.

Lemma rewrite_node_spec node_map plan merges n res : node_name (dget_or [] n node_map) = n →
  rewrite_node node_map (shard_nodes_by_raw plan) plan merges n = Ok res →
  names_of res.1 = new_names (shard_nodes_by_raw plan) merges n ∧
  ∀ node, node ∈ res.1 → comes_from (shard_nodes_by_raw plan) merges (dget_or [] n node_map) n node.
Proof.
  intros Hname H. unfold rewrite_node, new_names, comes_from in *. destruct (dget n (shard_nodes_by_raw plan)) as [names|].
  2:{ injection H as <-. split; [unfold names_of; simpl; by rewrite Hname|]. by intros node ->%list_elem_of_singleton. }
  apply result_bind_ok in H as (parts & _ & H). destruct (Nat.eqb_spec (length parts) (length names)) as [El|]; [|done].
  cbn [negb] in H. apply result_bind_ok in H as (nodes & Hn & H). apply shard_nodes_spec in Hn as [H1 H2]; [|done].
  case_bool_decide as Hm.
  - apply result_bind_ok in H as (merge & Hmerge & [= <-]). simpl. unfold build_merge_node in Hmerge.
    destruct (negb _); [done|]. destruct (as_dict _); [|done]. injection Hmerge as <-. split.
    + unfold names_of in *. by rewrite fmap_app, H1.
    + intros node [Hin| ->%list_elem_of_singleton]%elem_of_app; [left; by apply H2|right].
      split; [done|]. split; [done|]. intros x Hx. by apply (elem_of_str_deps_list names) in Hx.
  - injection H as <-. simpl. split; [by rewrite app_nil_r|]. intros node Hin. left. by apply H2.
Qed.

Section sharded.
Context (nodes : list (dict string val)) (assignment : dict string (list string)) (outs order : list string) (plan : shard_plan).
Local Abbreviation names := (names_of nodes).
Local Abbreviation candidates := (all_candidates assignment).
Local Abbreviation explicit := (explicit_intent candidates).
Local Abbreviation shards := (shard_nodes_by_raw plan).
Local Abbreviation eff := (pin_non_explicit_unsharded_nodes explicit plan candidates).
Local Abbreviation pruned := (prune_worker_assignment_to_candidates assignment eff).
Local Abbreviation merges := (compute_merge_required_nodes names (map_of nodes) shards outs).

Hypothesis workers_nodup : NoDup (dkeys assignment).
Hypothesis names_nodup : NoDup names.
Hypothesis checked : assignment_ok names assignment.
Hypothesis candidates_names : ∀ n, n ∈ dkeys candidates ↔ n ∈ names.
Hypothesis ordered : build_shard_rewrite_topological_order names (map_of nodes) = Ok order.
Hypothesis plan_ok : foldR (plan_node (map_of nodes) explicit) (mkShardPlan [] [] candidates) order = Ok plan.

Lemma order_ok : order ≡ₚ names ∧
∀ l1 n l2, order = l1 ++ n :: l2 → ∀ p, p ∈ names → p ∈ deps_of (map_of nodes) n → p ∈ l1.
Proof.
destruct (sort_by_deps_correct names (deps_of (map_of nodes)) names_nodup (rewrite_key_lt names)
  "Invalid shard rewrite dependency graph: self dependency on "
  "Invalid shard rewrite dependency graph: cycle detected in flowmesh nodes") as (_ & H & _).
exact (H order ordered).
Qed.

Lemma names_acyclic : ∃ rank : string → nat, ∀ n p, n ∈ names → p ∈ names → p ∈ deps_of (map_of nodes) n → rank p < rank n.
Proof.
destruct (sort_by_deps_correct names (deps_of (map_of nodes)) names_nodup (rewrite_key_lt names)
  "Invalid shard rewrite dependency graph: self dependency on "
  "Invalid shard rewrite dependency graph: cycle detected in flowmesh nodes") as (H & _).
apply H. by exists order.
Qed.

Lemma explicit_get n : dget n explicit = match dget n candidates with Some ws => if decide (1 < length ws) then Some ws else None | None => None end.
Proof. apply dget_filter, all_candidates_wf. Qed.

Lemma explicit_names n : n ∈ dkeys explicit → n ∈ names.
Proof.
rewrite <-candidates_names, <-!dget_is_Some, explicit_get. destruct (dget n candidates); [done|by intros [? ?]].
Qed.

Lemma plan_run : plan_inv (map_of nodes) explicit candidates order plan.
Proof.
destruct order_ok as [Hp Ho]. apply (plan_inv_run _ _ _ (λ n, match candidates_names n with conj _ H => λ Hx, H (explicit_names n Hx) end));
  [by rewrite Hp|intros n Hn; rewrite Hp; by apply explicit_names| |exact plan_ok].
intros l1 n l2 E d Hd. apply (Ho l1 n l2 E d). by rewrite <-Hp.
Qed.

Lemma sharded_iff n : n ∈ dkeys shards ↔ n ∈ dkeys explicit.
Proof.
split.
- intros Hn. destruct (pi_planned _ _ _ _ _ plan_run n Hn) as [_ (ws & t & k & Hw & _)]. apply dget_is_Some. by eexists.
- intros Hn. apply (pi_all _ _ _ _ _ plan_run); [|done]. destruct order_ok as [-> _]. by apply explicit_names.
Qed.

(** The workers of a node in the end: one, or one per shard. *)
Lemma candidates_nonempty n : n ∈ names → ∃ w ws, dget n candidates = Some (w :: ws).
Proof.
intros Hn. apply candidates_names in Hn as Hk. pose proof Hk as [ws Hws]%dget_is_Some.
pose proof (all_candidates_get assignment n workers_nodup) as Hg. unfold dget_or in Hg. rewrite Hws in Hg.
destruct ws as [|w ws]; [exfalso|by exists w, ws].
apply all_candidates_keys in Hk as (e & He & Hne).
assert (Hin : e.1 ∈ (filter (λ e, n ∈ e.2) assignment).*1) by (apply list_elem_of_fmap_2, list_elem_of_filter; done).
rewrite <-Hg in Hin. by apply elem_of_nil in Hin.
Qed.

Lemma candidate_listed n ws w : dget n candidates = Some ws → w ∈ ws → ∃ l, (w, l) ∈ assignment ∧ n ∈ l.
Proof.
intros Hws Hw. pose proof (all_candidates_get assignment n workers_nodup) as Hg. unfold dget_or in Hg. rewrite Hws in Hg.
rewrite Hg in Hw. apply list_elem_of_fmap in Hw as ([w' l] & -> & [H1 H2]%list_elem_of_filter). by exists l.
Qed.

Lemma candidates_nodup n ws : dget n candidates = Some ws → NoDup ws.
Proof.
intros Hws. pose proof (all_candidates_get assignment n workers_nodup) as Hg. unfold dget_or in Hg. rewrite Hws in Hg.
rewrite Hg. eapply sublist_NoDup; [exact workers_nodup|]. apply fmap_sublist, sublist_filter.
Qed.

Lemma eff_get n : dget n eff =
if decide (n ∈ dkeys shards) then dget n (effective_node_candidates plan)
else match dget n candidates with Some (w :: _) => Some [w] | o => o end.
Proof.
unfold pin_non_explicit_unsharded_nodes.
assert (G : ∀ d : dict string (list string), (∀ k v, (k, v) ∈ d → k ∉ dkeys shards → dget k candidates = Some v) →
  dget n ((λ kv : string * list string,
    if (dmem kv.1 explicit || dmem kv.1 shards)%bool then kv
    else match dget_or [] kv.1 candidates, kv.2 with
         | w :: _, _ => (kv.1, [w]) | [], w :: _ => (kv.1, [w]) | [], [] => kv end) <$> d) =
  match dget n d with
  | Some v => Some (if decide (n ∈ dkeys shards) then v else match v with w :: _ => [w] | [] => [] end)
  | None => None end).
{ induction d as [|[k v] d IH]; intros Hd; csimpl; [done|].
  assert (Hkey : (if (dmem k explicit || dmem k shards)%bool then (k, v)
    else match dget_or [] k candidates, v with
         | w :: _, _ => (k, [w]) | [], w :: _ => (k, [w]) | [], [] => (k, v) end) =
    (k, if decide (k ∈ dkeys shards) then v else match v with w :: _ => [w] | [] => [] end)).
  { destruct (decide (k ∈ dkeys shards)) as [Hk|Hk].
    - by rewrite (proj2 (dmem_true k shards) Hk), orb_true_r.
    - rewrite (proj2 (dmem_false k shards) Hk). rewrite sharded_iff in Hk. rewrite (proj2 (dmem_false k explicit) Hk).
      cbn [orb]. unfold dget_or. rewrite <-sharded_iff in Hk. rewrite (Hd k v) by (done || left). by destruct v. }
  rewrite Hkey. destruct (decide (n = k)) as [->|_]; [done|]. apply IH. intros k' v' Hin. apply Hd. by right. }
rewrite G.
- destruct (decide (n ∈ dkeys shards)) as [Hn|Hn]; [by destruct (dget n _)|].
  rewrite (pi_rest _ _ _ _ _ plan_run n Hn). by destruct (dget n candidates) as [[]|].
- intros k v Hin Hk. rewrite <-(pi_rest _ _ _ _ _ plan_run k Hk). apply elem_dget; [|done].
  unfold dict_wf. rewrite (pi_keys _ _ _ _ _ plan_run). apply all_candidates_wf.
Qed.

Lemma eff_wf : dict_wf eff.
Proof.
unfold dict_wf. assert (E : dkeys eff = dkeys (effective_node_candidates plan)).
{ unfold dkeys, pin_non_explicit_unsharded_nodes. rewrite <-list_fmap_compose. apply list_fmap_ext.
  intros i [k v] _. simpl. repeat case_match; done. }
rewrite E, (pi_keys _ _ _ _ _ plan_run). apply all_candidates_wf.
Qed.

(** The two cases of a node. *)
Lemma eff_unsharded n : n ∈ names → n ∉ dkeys shards → ∃ w, dget n eff = Some [w] ∧ dget n candidates = Some [w].
Proof.
intros Hn Hs. destruct (candidates_nonempty n Hn) as (w & ws & Hw). exists w. rewrite eff_get, decide_False by done.
rewrite Hw. split; [done|]. rewrite sharded_iff, <-dget_is_Some, explicit_get, Hw in Hs.
destruct ws as [|w' ws]; [done|]. exfalso. apply Hs. rewrite decide_True by (simpl; lia). by eexists.
Qed.

Lemma eff_sharded n ns : dget n shards = Some ns → ∃ ws t k,
n ∈ names ∧ dget n candidates = Some ws ∧ (1 <= k <= Z.of_nat (length ws))%Z ∧ ns = shard_names n k ∧
dget n (partitions_by_raw plan) = Some (build_index_partitions t k) ∧ (k <= Z.max 1 t)%Z ∧
dget n eff = Some (py_take k ws) ∧ Z.of_nat (length (py_take k ws)) = k.
Proof.
intros Hns. assert (Hn : n ∈ dkeys shards) by (apply dget_is_Some; by eexists).
destruct (pi_planned _ _ _ _ _ plan_run n Hn) as [_ (ws & t & k & Hx & Hk & Hkt & Hs & Hp & He)].
exists ws, t, k. split; [by apply explicit_names, dget_is_Some; eexists|]. split.
{ rewrite explicit_get in Hx. destruct (dget n candidates); [|done]. by case_decide; simplify_eq. }
split; [done|]. split; [rewrite Hns in Hs; by injection Hs|]. split; [done|]. split; [done|]. split.
- by rewrite eff_get, decide_True.
- apply length_take_workers; lia.
Qed.

Lemma eff_sub n ws : dget n eff = Some ws → NoDup ws ∧ n ∈ names ∧ ∃ cs, dget n candidates = Some cs ∧ ∀ w, w ∈ ws → w ∈ cs.
Proof.
intros Hws. destruct (decide (n ∈ dkeys shards)) as [Hn|Hn].
- apply dget_is_Some in Hn as [ns Hns]. destruct (eff_sharded n ns Hns) as (cs & t & k & Hn & Hcs & Hk & _ & _ & _ & He & _).
  rewrite He in Hws. injection Hws as <-. split; [|split; [done|exists cs; split; [done|]]].
  + eapply sublist_NoDup; [by eapply candidates_nodup|apply py_take_sublist].
  + intros w. apply sublist_subseteq. apply py_take_sublist.
- assert (Hnn : n ∈ names).
  { apply candidates_names, dget_is_Some. rewrite eff_get, decide_False in Hws by done. destruct (dget n candidates); [by eexists|done]. }
  destruct (eff_unsharded n Hnn Hn) as (w & He & Hc). rewrite He in Hws. injection Hws as <-.
  split; [apply NoDup_singleton|]. split; [done|]. by exists [w].
Qed.

(** The pruned assignment lists every node on exactly its workers. *)
Lemma pruned_entry w l : (w, l) ∈ pruned → NoDup l ∧ ∃ l0, (w, l0) ∈ assignment ∧
∀ n, n ∈ l ↔ n ∈ l0 ∧ match dget n eff with Some ws => w ∈ ws | None => True end.
Proof.
intros ([w' l0] & E & Hin)%list_elem_of_fmap. cbn [fst snd] in E. injection E as -> ->.
assert (G : ∀ l0 acc, NoDup acc → NoDup (foldl (prune_node eff w') acc l0) ∧
  ∀ n, n ∈ foldl (prune_node eff w') acc l0 ↔ n ∈ acc ∨ (n ∈ l0 ∧ match dget n eff with Some ws => w' ∈ ws | None => True end)).
{ clear. induction l0 as [|m l0 IH]; intros acc Hacc; cbn [foldl]; [split; [done|set_solver]|].
  assert (H1 : NoDup (prune_node eff w' acc m)).
  { unfold prune_node. repeat case_match; try done; by apply NoDup_add_new. }
  destruct (IH _ H1) as [H2 H3]. split; [done|]. intros n. rewrite H3.
  assert (Hm : n ∈ prune_node eff w' acc m ↔ n ∈ acc ∨ n = m ∧ match dget m eff with Some ws => w' ∈ ws | None => True end).
  { unfold prune_node. destruct (dget m eff); [case_bool_decide|]; rewrite ?elem_of_add_new; tauto. }
  rewrite Hm, elem_of_cons. split; [intros [[?|[-> ?]]|[? ?]]; auto|intros [?|[[->|?] ?]]; auto]. }
destruct (G l0 []) as [H1 H2]; [constructor|]. split; [done|]. exists l0. split; [done|]. intros n. rewrite H2. set_solver.
Qed.

Lemma eff_entry n w : (∃ ws, dget n eff = Some ws ∧ w ∈ ws) → ∃ l, (w, l) ∈ pruned ∧ n ∈ l.
Proof.
intros (ws & Hws & Hw). destruct (eff_sub n ws Hws) as (_ & Hn & cs & Hcs & Hsub).
destruct (candidate_listed n cs w Hcs (Hsub w Hw)) as (l & Hl & Hnl).
exists (foldl (prune_node eff w) [] l). assert (Hin : (w, foldl (prune_node eff w) [] l) ∈ pruned).
{ apply list_elem_of_fmap. by exists (w, l). }
split; [done|]. destruct (pruned_entry w _ Hin) as (_ & l0 & Hl0 & H). apply H.
assert (l0 = l) as -> by (by eapply (NoDup_fst_unique assignment)). split; [done|]. by rewrite Hws.
Qed.

Lemma pruned_keys : dkeys pruned = dkeys assignment.
Proof. unfold dkeys, prune_worker_assignment_to_candidates. rewrite <-list_fmap_compose. by apply list_fmap_ext. Qed.

Lemma merges_spec : NoDup merges ∧ (∀ n, n ∈ merges → n ∈ dkeys shards) ∧
∀ n d, n ∈ names → n ∉ dkeys shards → d ∈ deps_of (map_of nodes) n → d ∈ dkeys shards → d ∈ merges.
Proof.
unfold compute_merge_required_nodes.
set (step := λ required dep, if dmem dep shards then add_new dep required else required).
assert (Hin : ∀ ds acc, (NoDup acc ∧ ∀ n, n ∈ acc → n ∈ dkeys shards) →
  (NoDup (foldl step acc ds) ∧ ∀ n, n ∈ foldl step acc ds → n ∈ dkeys shards) ∧
  (∀ n, n ∈ acc → n ∈ foldl step acc ds) ∧ ∀ d, d ∈ ds → d ∈ dkeys shards → d ∈ foldl step acc ds).
{ induction ds as [|d ds IH]; intros acc [H1 H2]; cbn [foldl]; [split; [done|split; [done|by intros d ?%elem_of_nil]]|].
  assert (H3 : (NoDup (step acc d) ∧ ∀ n, n ∈ step acc d → n ∈ dkeys shards)).
  { unfold step. destruct (dmem d shards) eqn:Ed; [|done]. apply dmem_true in Ed. split; [by apply NoDup_add_new|].
    intros n [->|Hn]%elem_of_add_new; auto. }
  destruct (IH _ H3) as (H4 & H5 & H6). split; [done|]. split.
  - intros n Hn. apply H5. unfold step. destruct (dmem d shards); [apply elem_of_add_new; by right|done].
  - intros d' [->|Hd']%elem_of_cons Hs; [|by apply H6]. apply H5. unfold step. rewrite (proj2 (dmem_true d shards) Hs).
    apply elem_of_add_new. by left. }
assert (G : ∀ l acc, (NoDup acc ∧ ∀ n, n ∈ acc → n ∈ dkeys shards) →
  let res := foldl (λ required consumer_id, if dmem consumer_id shards then required
    else foldl step required (deps_of (map_of nodes) consumer_id)) acc l in
  (NoDup res ∧ ∀ n, n ∈ res → n ∈ dkeys shards) ∧ (∀ n, n ∈ acc → n ∈ res) ∧
  ∀ n d, n ∈ l → n ∉ dkeys shards → d ∈ deps_of (map_of nodes) n → d ∈ dkeys shards → d ∈ res).
{ induction l as [|c l IH]; intros acc Hacc; cbn [foldl]; [split; [done|split; [done|by intros n d ?%elem_of_nil]]|].
  destruct (dmem c shards) eqn:Ec.
  - destruct (IH acc Hacc) as (H1 & H2 & H3). split; [done|]. split; [done|]. intros n d [->|Hn]%elem_of_cons Hs; [|by apply H3].
    by apply dmem_true in Ec.
  - destruct (Hin (deps_of (map_of nodes) c) acc Hacc) as (H1 & H2 & H3). destruct (IH _ H1) as (H4 & H5 & H6).
    split; [done|]. split; [auto|]. intros n d [->|Hn]%elem_of_cons Hs Hd Hd'; [by apply H5, H3|by eapply H6]. }
destruct (G names (remove_dups (filter (λ n, dmem n shards) outs))) as ((H1 & H2) & _ & H3); [|done].
split; [apply NoDup_remove_dups|]. intros n [Hn _]%elem_of_remove_dups%list_elem_of_filter.
apply dmem_true. by destruct (dmem n shards).
Qed.

Lemma assignment_run : ∃ rw hosts,
rewrite_worker_assignment_for_shards shards merges pruned eff = Ok rw ∧
dkeys rw = dkeys assignment ∧
(∀ n, n ∈ merges → ∃ w, dget n hosts = Some w ∧ w ∈ dkeys assignment) ∧
∀ w out, (w, out) ∈ rw → NoDup out ∧ ∀ x, x ∈ out ↔ placed shards merges eff hosts w x.
Proof.
destruct (rewrite_assignment_spec shards merges pruned eff) as (rw & hosts & H1 & H2 & H3 & H4).
- by rewrite pruned_keys.
- intros w l Hl. by apply (pruned_entry w l Hl).
- apply eff_wf.
- intros n ws Hws. by apply (eff_sub n ws Hws).
- intros w l n Hl Hn. destruct (pruned_entry w l Hl) as (_ & l0 & Hl0 & H). apply H in Hn. destruct Hn as [Hn Hw].
  assert (Hnn : n ∈ names) by (by apply (checked _ Hl0)).
  destruct (decide (n ∈ dkeys shards)) as [Hs|Hs].
  + apply dget_is_Some in Hs as [ns Hns]. destruct (eff_sharded n ns Hns) as (ws & t & k & _ & _ & _ & _ & _ & _ & He & _).
    rewrite He in Hw. by eexists.
  + destruct (eff_unsharded n Hnn Hs) as (w' & He & _). rewrite He in Hw. by eexists.
- intros n ws w Hws Hw. apply eff_entry. by exists ws.
- intros n ns Hns. destruct (eff_sharded n ns Hns) as (ws & t & k & _ & _ & Hk & -> & _ & _ & He & Hlen).
  destruct (py_take k ws) as [|w ws'] eqn:E; [simpl in Hlen; lia|]. exists w, ws'. split; [done|].
  pose proof (length_shard_names n k). lia.
- apply merges_spec.
- rewrite pruned_keys in *. by exists rw, hosts.
Qed.

Lemma rewrite_all_inv r : rewrite_all plan names (map_of nodes) explicit candidates assignment outs = Ok r →
∃ rewritten, mapR (rewrite_node (map_of nodes) shards plan merges) names = Ok rewritten ∧
  sr_nodes r = concat rewritten.*1 ∧
  rewrite_worker_assignment_for_shards shards merges pruned eff = Ok (sr_worker_assignment r).
Proof.
unfold rewrite_all. intros H. apply result_bind_ok in H as (rewritten & Hr & H). apply result_bind_ok in H as (rw & Hw & H).
destruct (forallb _ _); [|done]. injection H as <-. exists rewritten. by split.
Qed.

(** The names of the rewritten workflow. *)
Definition all_new_names : list string := concat (new_names shards merges <$> names).

Lemma elem_of_all_new_names x : x ∈ all_new_names ↔ ∃ n, n ∈ names ∧ x ∈ new_names shards merges n.
Proof.
unfold all_new_names. rewrite list_elem_of_In, in_concat. split.
- intros (l & Hl & Hx). apply list_elem_of_In, list_elem_of_fmap in Hl as (n & -> & Hn). exists n. split; [done|by apply list_elem_of_In].
- intros (n & Hn & Hx). exists (new_names shards merges n). split; [|by apply list_elem_of_In].
  apply list_elem_of_In, list_elem_of_fmap. by exists n.
Qed.

Lemma new_names_cases n x : n ∈ names → x ∈ new_names shards merges n ↔
(x = n ∧ n ∉ dkeys shards) ∨
(∃ ns i, dget n shards = Some ns ∧ ns !! i = Some x ∧ x = shard_name n i) ∨
(x = n ∧ n ∈ merges).
Proof.
intros Hn. unfold new_names. destruct (dget n shards) as [ns|] eqn:Es.
- assert (Hk : n ∈ dkeys shards) by (apply dget_is_Some; by eexists).
  destruct (eff_sharded n ns Es) as (ws & t & k & _ & _ & _ & -> & _). rewrite elem_of_app. split.
  + intros [Hx|Hx].
    * right. left. apply list_elem_of_lookup in Hx as [i Hi]. exists (shard_names n k), i. split; [done|]. split; [done|].
      by apply shard_names_lookup in Hi as [-> _].
    * right. right. case_bool_decide; [|by apply elem_of_nil in Hx]. by apply list_elem_of_singleton in Hx.
  + intros [[_ ?]|[(ns & i & [= <-] & Hi & _)|[-> Hm]]]; [done|left; by eapply list_elem_of_lookup_2|right].
    rewrite bool_decide_true by done. left.
- assert (Hk : n ∉ dkeys shards) by (by apply dget_None). rewrite list_elem_of_singleton. split; [intros ->; by left|].
  intros [[-> _]|[(ns & i & ? & _)|[-> Hm]]]; [done|done|done].
Qed.

Hypothesis fresh : fresh_shard_names names.

(** Two nodes give no common name. *)
Lemma new_names_disjoint n m x : n ∈ names → m ∈ names →
x ∈ new_names shards merges n → x ∈ new_names shards merges m → n = m.
Proof.
intros Hn Hm Hx1 Hx2. apply (new_names_cases n x Hn) in Hx1. apply (new_names_cases m x Hm) in Hx2.
destruct Hx1 as [[-> _]|[(ns & i & _ & _ & ->)|[-> _]]]; destruct Hx2 as [[E _]|[(ns' & j & _ & _ & E)|[E _]]]; try done;
  try (by destruct (fresh _ _ _ Hn Hm E)); try (by symmetry in E; destruct (fresh _ _ _ Hm Hn E)).
by apply shard_name_inj in E as [-> _].
Qed.

Lemma new_names_nodup n : n ∈ names → NoDup (new_names shards merges n).
Proof.
intros Hn. unfold new_names. destruct (dget n shards) as [ns|] eqn:Es; [|apply NoDup_singleton].
destruct (eff_sharded n ns Es) as (ws & t & k & _ & _ & _ & -> & _). apply NoDup_app. split; [apply NoDup_shard_names|].
split; [|case_bool_decide; [apply NoDup_singleton|constructor]].
intros x (i & -> & _)%elem_of_shard_names Hx. case_bool_decide; [|by apply elem_of_nil in Hx].
apply list_elem_of_singleton in Hx. symmetry in Hx. by apply (fresh n n i).
Qed.

Lemma all_new_names_nodup : NoDup all_new_names.
Proof.
unfold all_new_names. pose proof names_nodup as Hnd.
assert (G : ∀ l, NoDup l → (∀ n, n ∈ l → n ∈ names) → NoDup (concat (new_names shards merges <$> l))); [|by apply G].
induction 1 as [|n l Hn Hl IH]; intros Hin; csimpl; [constructor|]. apply NoDup_app.
split; [apply new_names_nodup, Hin; left|]. split; [|apply IH; intros m Hm; apply Hin; by right].
intros x Hx Hc. apply list_elem_of_In, in_concat in Hc as (l' & Hl' & Hx').
apply list_elem_of_In, list_elem_of_fmap in Hl' as (m & -> & Hm). apply list_elem_of_In in Hx'.
apply Hn. rewrite (new_names_disjoint n m x); [done|apply Hin; left|apply Hin; by right|done..].
Qed.

(** Every name has one place. *)
Section placing.
Context (hosts : dict string string).
Hypothesis hosted : ∀ n, n ∈ merges → ∃ w, dget n hosts = Some w ∧ w ∈ dkeys assignment.

Local Abbreviation place := (placed shards merges eff hosts).

(** A placed name, by the node it comes from. *)
Lemma placed_cases w x : place w x → ∃ n, n ∈ names ∧
((x = n ∧ n ∉ dkeys shards ∧ dget n eff = Some [w]) ∨
 (∃ ns ws i, dget n shards = Some ns ∧ dget n eff = Some ws ∧ ws !! i = Some w ∧ ns !! i = Some x ∧ x = shard_name n i) ∨
 (x = n ∧ n ∈ merges ∧ dget n hosts = Some w)).
Proof.
intros [(n & ws & Hws & Hw & Hm)|[Hm Hh]].
- destruct (eff_sub n ws Hws) as (_ & Hn & _). exists n. split; [done|]. unfold mapped_to in Hm.
  destruct (dget n shards) as [ns|] eqn:Es.
  + destruct Hm as (ws' & i & E & Hi & Hx). rewrite Hws in E. injection E as <-. right. left. exists ns, ws, i.
    split; [done|]. split; [done|]. split; [done|]. split; [done|].
    destruct (eff_sharded n ns Es) as (? & t & k & _ & _ & _ & -> & _). by apply shard_names_lookup in Hx as [-> _].
  + left. assert (Hk : n ∉ dkeys shards) by (by apply dget_None). split; [done|]. split; [done|].
    destruct (eff_unsharded n Hn Hk) as (w' & He & _). rewrite Hws in He. injection He as ->.
    apply list_elem_of_singleton in Hw as ->. done.
- exists x. split; [|by right; right]. apply explicit_names, sharded_iff, merges_spec, Hm.
Qed.

Lemma placed_new w x : place w x → x ∈ all_new_names.
Proof.
intros (n & Hn & H)%placed_cases. apply elem_of_all_new_names. exists n. split; [done|]. apply new_names_cases; [done|].
destruct H as [(? & ? & _)|[(ns & ws & i & ? & _ & _ & ? & ?)|(? & ? & _)]]; [by left|right; left; by exists ns, i|by right; right].
Qed.

Lemma new_placed x : x ∈ all_new_names → ∃ w, place w x ∧ w ∈ dkeys assignment.
Proof.
assert (Hin : ∀ n ws w, dget n eff = Some ws → w ∈ ws → w ∈ dkeys assignment).
{ intros n ws w Hws Hw. destruct (eff_entry n w) as (l & Hl & _); [by exists ws|]. rewrite <-pruned_keys.
  apply list_elem_of_fmap. by exists (w, l). }
intros (n & Hn & Hx)%elem_of_all_new_names. apply (new_names_cases n x Hn) in Hx as [[-> Hs]|[(ns & i & Hns & Hi & _)|[-> Hm]]].
- destruct (eff_unsharded n Hn Hs) as (w & He & _). exists w. split; [|apply (Hin n [w]); [done|left]]. left. exists n, [w].
  split; [done|]. split; [left|]. unfold mapped_to. by rewrite (proj2 (dget_None n shards) Hs).
- destruct (eff_sharded n ns Hns) as (ws & t & k & _ & _ & Hk & -> & _ & _ & He & Hlen).
  destruct (py_take k ws !! i) as [w|] eqn:Ew.
  + exists w. assert (Hw : w ∈ py_take k ws) by (by eapply list_elem_of_lookup_2). split; [|by eapply Hin].
    left. exists n, (py_take k ws). split; [done|]. split; [done|]. unfold mapped_to. rewrite Hns. by exists (py_take k ws), i.
  + apply lookup_ge_None in Ew. apply shard_names_lookup in Hi as [_ Hi]. lia.
- destruct (hosted n Hm) as (w & Hw & Hk). exists w. split; [by right|done].
Qed.

Lemma placed_unique w w' x : place w x → place w' x → w = w'.
Proof.
intros H1 H2. pose proof (placed_cases _ _ H1) as (n & Hn & C1). pose proof (placed_cases _ _ H2) as (m & Hm & C2).
assert (Hx : ∀ w n, n ∈ names → ((x = n ∧ n ∉ dkeys shards ∧ dget n eff = Some [w]) ∨
   (∃ ns ws i, dget n shards = Some ns ∧ dget n eff = Some ws ∧ ws !! i = Some w ∧ ns !! i = Some x ∧ x = shard_name n i) ∨
   (x = n ∧ n ∈ merges ∧ dget n hosts = Some w)) → x ∈ new_names shards merges n).
{ clear -ordered plan_ok candidates_names names_nodup checked workers_nodup fresh. intros w0 n0 Hn0 H. apply new_names_cases; [done|].
  destruct H as [(? & ? & _)|[(ns & ws & i & ? & _ & _ & ? & ?)|(? & ? & _)]]; [by left|right; left; by exists ns, i|by right; right]. }
assert (n = m) as <- by (eapply (new_names_disjoint n m x); eauto). clear Hx H1 H2 Hm.
assert (Hmk : n ∈ merges → n ∈ dkeys shards) by apply merges_spec.
destruct C1 as [(E1 & Hs1 & He1)|[(ns & ws & i & Hs1 & He1 & Hi1 & _ & E1)|(E1 & Hm1 & Hh1)]];
  destruct C2 as [(E2 & Hs2 & He2)|[(ns' & ws' & j & Hs2 & He2 & Hi2 & _ & E2)|(E2 & Hm2 & Hh2)]]; subst x;
  try (by destruct (fresh _ _ _ Hn Hn (eq_sym E2))); try (by destruct (fresh _ _ _ Hn Hn E2)).
- rewrite He1 in He2. by injection He2.
- by destruct (Hs1 (Hmk Hm2)).
- apply shard_name_inj in E2 as [_ <-]. rewrite He1 in He2. injection He2 as <-. rewrite Hi1 in Hi2. by injection Hi2.
- by destruct (Hs2 (Hmk Hm1)).
- rewrite Hh1 in Hh2. by injection Hh2.
Qed.
End placing.

Context (r : ShardRewriteResult).
Hypothesis rewritten_ok : rewrite_all plan names (map_of nodes) explicit candidates assignment outs = Ok r.

Lemma rewritten_nodes : names_of (sr_nodes r) = all_new_names ∧
∀ node, node ∈ sr_nodes r → ∃ n, n ∈ names ∧ node_name node ∈ new_names shards merges n ∧
  comes_from shards merges (dget_or [] n (map_of nodes)) n node.
Proof.
destruct (rewrite_all_inv r rewritten_ok) as (rewritten & Hr & -> & _). apply mapR_ok_inv in Hr. unfold all_new_names.
assert (Hnames : ∀ n, n ∈ names → node_name (dget_or [] n (map_of nodes)) = n) by (intros n Hn; by apply map_of_name).
assert (G : ∀ l rs, Forall2 (λ n res, rewrite_node (map_of nodes) shards plan merges n = Ok res) l rs →
  (∀ n, n ∈ l → node_name (dget_or [] n (map_of nodes)) = n) →
  names_of (concat rs.*1) = concat (new_names shards merges <$> l) ∧
  ∀ node, node ∈ concat rs.*1 → ∃ n, n ∈ l ∧ node_name node ∈ new_names shards merges n ∧
    comes_from shards merges (dget_or [] n (map_of nodes)) n node); [|by apply G].
clear. induction 1 as [|n res l rs Hn Hl IH]; intros Hnames; csimpl; [split; [done|by intros ? ?%elem_of_nil]|].
destruct (rewrite_node_spec _ _ _ _ _ (Hnames n (list_elem_of_here n l)) Hn) as [H1 H2].
destruct IH as [IH1 IH2]; [intros m Hm; apply Hnames; by right|]. split.
- unfold names_of in *. by rewrite fmap_app, H1, IH1.
- intros node [Hin|Hin]%elem_of_app.
  + exists n. split; [left|]. split; [|by apply H2]. rewrite <-H1. by apply list_elem_of_fmap_2.
  + destruct (IH2 node Hin) as (m & Hm & H). exists m. split; [by right|done].
Qed.

Lemma rewritten_places : dkeys (sr_worker_assignment r) = dkeys assignment ∧
(∀ w out, (w, out) ∈ sr_worker_assignment r → NoDup out) ∧
(∀ w w' out out' x, (w, out) ∈ sr_worker_assignment r → (w', out') ∈ sr_worker_assignment r → x ∈ out → x ∈ out' → w = w') ∧
∀ x, x ∈ names_of (sr_nodes r) ↔ ∃ w out, (w, out) ∈ sr_worker_assignment r ∧ x ∈ out.
Proof.
destruct rewritten_nodes as [-> _]. destruct (rewrite_all_inv r rewritten_ok) as (rewritten & _ & _ & Hrw).
destruct assignment_run as (rw & hosts & E & Hk & Hhost & Hout). rewrite Hrw in E. injection E as <-.
split; [done|]. split; [intros w out Hin; by apply (Hout w out Hin)|]. split.
- intros w w' out out' x H1 H2 Hx Hx'. apply (Hout _ _ H1) in Hx. apply (Hout _ _ H2) in Hx'.
  by eapply (placed_unique hosts).
- intros x. split.
  + intros Hx. destruct (new_placed hosts Hhost x Hx) as (w & Hw & Hwk). rewrite <-Hk in Hwk.
    apply list_elem_of_fmap in Hwk as ([w' out] & -> & Hin). exists w', out. split; [done|]. by apply (Hout _ _ Hin).
  + intros (w & out & Hin & Hx). apply (Hout _ _ Hin) in Hx. by eapply placed_new.
Qed.
End sharded.

(** ** One worker per node *)

(** An assignment that puts every name on one worker, once. *)
Definition one_worker_each (names : list string) (assignment : dict string (list string)) : Prop :=
  (∀ w out, (w, out) ∈ assignment → NoDup out) ∧
  (∀ w w' out out' x, (w, out) ∈ assignment → (w', out') ∈ assignment → x ∈ out → x ∈ out' → w = w') ∧
  ∀ x, x ∈ names ↔ ∃ w out, (w, out) ∈ assignment ∧ x ∈ out.

Lemma one_worker_perm names assignment : NoDup (dkeys assignment) → NoDup names → one_worker_each names assignment →
  concat (dvals assignment) ≡ₚ names.
Proof.
  intros Hk Hn (H1 & H2 & H3). apply NoDup_Permutation; [|done|].
  - clear H3 Hn. induction assignment as [|[w out] l IH]; csimpl in *; [constructor|].
    apply NoDup_cons in Hk as [Hw Hk]. apply NoDup_app. split; [apply (H1 w); left|]. split.
    + intros x Hx Hc. apply list_elem_of_In, in_concat in Hc as (out' & Ho%list_elem_of_In & Hx'%list_elem_of_In).
      apply list_elem_of_fmap in Ho as ([w' o] & -> & Hin). simpl in Hx'.
      assert (w = w') as <- by (apply (H2 w w' out o x); [left|by right|done..]).
      apply Hw, list_elem_of_fmap. by exists (w, o).
    + apply IH; [done|intros w' o Hin; apply (H1 w'); by right|].
      intros w1 w2 o1 o2 x Hi1 Hi2. apply H2; by right.
  - intros x. rewrite H3. rewrite list_elem_of_In, in_concat. split.
    + intros (out & Ho%list_elem_of_In & Hx%list_elem_of_In). apply list_elem_of_fmap in Ho as ([w o] & -> & Hin).
      by exists w, o.
    + intros (w & out & Hin & Hx). exists out. split; [|by apply list_elem_of_In].
      apply list_elem_of_In, list_elem_of_fmap. by exists (w, out).
Qed.

Lemma rewritten_one_worker nodes assignment outs r :
  rewrite_nodes_for_shard_intent nodes assignment outs = Ok r → NoDup (dkeys assignment) →
  fresh_shard_names (names_of nodes) →
  dkeys (sr_worker_assignment r) = dkeys assignment ∧ NoDup (names_of (sr_nodes r)) ∧
  one_worker_each (names_of (sr_nodes r)) (sr_worker_assignment r).
Proof.
  intros H Hw Hf. destruct (rewrite_inv _ _ _ _ H) as ([Hnd _] & Hok & Hk & [(He & -> & ->)|(order & plan & Ho & Hp & Hr)]).
  - split; [done|]. split; [done|]. split; [intros w out Hin; by apply (Hok _ Hin)|]. split.
    + intros w w' out out' x H1 H2 Hx Hx'.
      assert (Hin : ∀ v o, (v, o) ∈ assignment → x ∈ o → v ∈ dget_or [] x (all_candidates assignment)).
      { intros v o Hv Hxo. rewrite all_candidates_get by done. apply list_elem_of_fmap. exists (v, o). split; [done|].
        by apply list_elem_of_filter. }
      pose proof (Hin _ _ H1 Hx) as I1. pose proof (Hin _ _ H2 Hx') as I2. unfold dget_or in I1, I2.
      destruct (dget x (all_candidates assignment)) as [ws|] eqn:E; [|by apply elem_of_nil in I1].
      assert (Hx0 : dget x (explicit_intent (all_candidates assignment)) = None) by (by rewrite He).
      unfold explicit_intent in Hx0. rewrite dget_filter, E in Hx0 by apply all_candidates_wf.
      case_decide as Hl; [done|]. simpl in Hl. destruct ws as [|a [|b ws]]; [by apply elem_of_nil in I1| |simpl in Hl; lia].
      apply list_elem_of_singleton in I1, I2. congruence.
    + intros x. rewrite <-Hk, all_candidates_keys. split; [intros ([w o] & ? & ?); by exists w, o|intros (w & o & ? & ?); by exists (w, o)].
  - destruct (rewritten_places nodes assignment outs order plan Hw Hnd Hok Hk Ho Hp Hf r Hr) as (H1 & H2 & H3 & H4).
    split; [done|]. split; [|by split].
    destruct (rewritten_nodes nodes assignment outs plan Hnd r Hr) as [-> _]. by eapply all_new_names_nodup.
Qed.

(** Names too short to be those of shards. *)
Lemma fresh_by_length names : forallb (λ n, Nat.leb (length (chars n)) 8) names = true → fresh_shard_names names.
Proof.
  rewrite forallb_forall. intros H n m i Hn _ ->. apply list_elem_of_In, H, Nat.leb_le in Hn. unfold shard_name in Hn.
  rewrite !chars_app, !length_app in Hn. destruct (str_of_nat_spec i) as [_ Hd]. unfold isdigit in Hd.
  destruct (chars (str_of_nat i)); [done|]. simpl in Hn. lia.
Qed.

(** C34: however the schedule spreads the nodes over the workers, the rewritten
    assignment has the same workers and runs every node of the rewritten
    workflow, each shard and each merge node included, exactly once on exactly
    one of them, and nothing else. *)
Theorem every_rewritten_node_has_one_worker (nodes : list (dict string val)) (assignment : dict string (list string))
    (outs : list string) (r : ShardRewriteResult)
    (Hr : rewrite_nodes_for_shard_intent nodes assignment outs = Ok r)
    (Hworkers : NoDup (dkeys assignment)) (Hfresh : fresh_shard_names (names_of nodes)) :
  dkeys (sr_worker_assignment r) = dkeys assignment ∧
  NoDup (names_of (sr_nodes r)) ∧
  concat (dvals (sr_worker_assignment r)) ≡ₚ names_of (sr_nodes r).
Proof.
  destruct (rewritten_one_worker nodes assignment outs r Hr Hworkers Hfresh) as (H1 & H2 & H3).
  split; [done|]. split; [done|]. apply one_worker_perm; [by rewrite H1|done..].
Qed.

Lemma every_rewritten_node_has_one_worker_witness : ∃ r,
  rewrite_nodes_for_shard_intent (two_nodes "items[0].output" letters) [("gpu-0", ["n0"; "n1"]); ("gpu-1", ["n0"])] [] = Ok r ∧
  dkeys (sr_worker_assignment r) = ["gpu-0"; "gpu-1"] ∧ NoDup (names_of (sr_nodes r)) ∧
  concat (dvals (sr_worker_assignment r)) ≡ₚ names_of (sr_nodes r).
Proof.
  eexists. split; [vm_compute; reflexivity|].
  refine (every_rewritten_node_has_one_worker (two_nodes "items[0].output" letters)
    [("gpu-0", ["n0"; "n1"]); ("gpu-1", ["n0"])] [] _ eq_refl _ _).
  - apply (bool_decide_unpack _). vm_compute. exact I.
  - apply fresh_by_length. vm_compute. reflexivity.
Defined.

(** ** Aligned shards *)

(** C36: in a plan, a sharded node has at least one and at most as many shards as
    workers, one per worker, with ranges that cut its rows: those of its own
    static lists (as many as the longest has items, the others have one); without
    any, those its sharded dependencies are cut at; without these, those of
    the static lists of the nodes upstream.  A sharded dependency of it has at
    least as many shards; and when the node has no static lists of its own, each
    of its sharded dependencies is cut at exactly the same rows, so that shard
    [i] reads the rows shard [i] of the dependency computed. *)
Theorem shards_are_aligned (nodes : list (dict string val)) (assignment : dict string (list string))
    (order : list string) (plan : shard_plan) (n : string) (names : list string)
    (Hnames : NoDup (names_of nodes)) (Hworkers : NoDup (dkeys assignment))
    (Hcandidates : collect_node_worker_candidates assignment (names_of nodes) = Ok (all_candidates assignment, assignment))
    (Horder : build_shard_rewrite_topological_order (names_of nodes) (map_of nodes) = Ok order)
    (Hplan : foldR (plan_node (map_of nodes) (explicit_intent (all_candidates assignment)))
       (mkShardPlan [] [] (all_candidates assignment)) order = Ok plan)
    (Hsharded : dget n (shard_nodes_by_raw plan) = Some names) :
  ∃ workers parts rows,
    dget n (effective_node_candidates plan) = Some workers ∧ NoDup workers ∧
    (∀ w, w ∈ workers → ∃ l, (w, l) ∈ assignment ∧ n ∈ l) ∧
    dget n (partitions_by_raw plan) = Some parts ∧ rows_of_node (map_of nodes) (partitions_by_raw plan) n rows ∧ contiguous 0 parts rows ∧
    length names = length workers ∧ length parts = length workers ∧ 1 <= length workers ∧
    ∀ d dnames, d ∈ deps_of (map_of nodes) n → dget d (shard_nodes_by_raw plan) = Some dnames →
      length names <= length dnames ∧
      (¬ has_local_rows (map_of nodes) n → dget d (partitions_by_raw plan) = Some parts).
Proof.
  apply collect_ok in Hcandidates as (Hok & _ & _ & Hk).
  pose proof (plan_run nodes assignment order plan Hnames Hk Horder Hplan) as Hi.
  destruct (pi_planned _ _ _ _ _ Hi n) as [_ (ws & t & k & Hx & Hkw & Hkt & Hs & Hp & He)]; [apply dget_is_Some; by eexists|].
  rewrite Hsharded in Hs. injection Hs as ->.
  assert (Hws : dget n (all_candidates assignment) = Some ws).
  { rewrite explicit_get in Hx. destruct (dget n (all_candidates assignment)); [|done]. by case_decide; simplify_eq. }
  pose proof (length_shard_names n k ltac:(lia)) as Hl1. pose proof (length_take_workers k ws ltac:(lia) ltac:(lia)) as Hl2.
  pose proof (length_partitions t k) as Hl3.
  destruct (pi_rows _ _ _ _ _ Hi n _ Hp) as (rows & Hrows & Hcut).
  exists (py_take k ws), (build_index_partitions t k), rows. split; [done|].
  split; [eapply sublist_NoDup; [by eapply candidates_nodup|apply py_take_sublist]|].
  split; [intros w Hw; eapply candidate_listed; [done|done|by eapply sublist_subseteq; [apply py_take_sublist|]]|].
  split; [done|]. split; [done|]. split; [done|]. split; [lia|]. split; [lia|]. split; [lia|].
  intros d dnames Hd Hdn. split; [by eapply Hi|]. intros Hloc. eapply (pi_aligned _ _ _ _ _ Hi n d); [done..|].
  destruct (pi_planned _ _ _ _ _ Hi d) as [_ (wd & td & kd & _ & _ & _ & _ & Hpd & _)]; [apply dget_is_Some; by eexists|].
  apply dget_is_Some. by eexists.
Qed.

Lemma shards_are_aligned_witness :
  let nodes := two_nodes "items.output" letters in
  let assignment := [("gpu-0", ["n0"; "n1"]); ("gpu-1", ["n0"; "n1"])] in
  ∃ plan, foldR (plan_node (map_of nodes) (explicit_intent (all_candidates assignment)))
     (mkShardPlan [] [] (all_candidates assignment)) ["n0"; "n1"] = Ok plan ∧
  ∃ workers parts rows,
    dget "n1" (effective_node_candidates plan) = Some workers ∧ NoDup workers ∧
    (∀ w, w ∈ workers → ∃ l, (w, l) ∈ assignment ∧ "n1" ∈ l) ∧
    dget "n1" (partitions_by_raw plan) = Some parts ∧ rows_of_node (map_of nodes) (partitions_by_raw plan) "n1" rows ∧ contiguous 0 parts rows ∧
    2 = length workers ∧ length parts = length workers ∧ 1 <= length workers ∧
    ∀ d dnames, d ∈ deps_of (map_of nodes) "n1" → dget d (shard_nodes_by_raw plan) = Some dnames →
      2 <= length dnames ∧ (¬ has_local_rows (map_of nodes) "n1" → dget d (partitions_by_raw plan) = Some parts).
Proof.
  intros nodes assignment. eexists. split; [vm_compute; reflexivity|].
  refine (shards_are_aligned nodes assignment ["n0"; "n1"] _ "n1" ["n1__shard_0"; "n1__shard_1"] _ _ _ _ _ _);
    [apply (bool_decide_unpack _); vm_compute; exact I..|vm_compute; reflexivity|vm_compute; reflexivity|
     vm_compute; reflexivity|vm_compute; reflexivity].
Defined.

(** With static lists of its own the node is not checked against its
    dependencies: here [n1] has two shards of three rows and reads two of the
    three shards of [n0], which have two rows each; nobody reads the third. *)
Definition local_and_sharded : list (dict string val) :=
  [[("name", VStr "n0"); ("dependsOn", VList []);
    ("spec", VDict [("data", VDict [("type", VStr "list"); ("items", VList (letters ++ [VStr "e"; VStr "f"]))])])];
   [("name", VStr "n1"); ("dependsOn", VList [VStr "n0"]);
    ("spec", VDict [("data", VDict [("columns", VList
      [VDict [("label", VStr "x"); ("node", VStr "n0"); ("path", VStr "items.output")];
       VDict [("label", VStr "y"); ("data", VDict [("type", VStr "list"); ("items", VList (letters ++ [VStr "e"; VStr "f"]))])]])])])]].

Example local_rows_are_misaligned : ∃ r,
  rewrite_nodes_for_shard_intent local_and_sharded [("w0", ["n0"; "n1"]); ("w1", ["n0"; "n1"]); ("w2", ["n0"])] [] = Ok r ∧
  names_of (sr_nodes r) = ["n0__shard_0"; "n0__shard_1"; "n0__shard_2"; "n1__shard_0"; "n1__shard_1"] ∧
  str_deps <$> sr_nodes r = [[]; []; []; ["n0__shard_0"]; ["n0__shard_1"]] ∧
  (static_at [Field "spec"; Field "data"] ∘ VDict) <$> take 1 (sr_nodes r) = [Some [VStr "a"; VStr "b"]] ∧
  (static_at [Field "spec"; Field "data"; Field "columns"; Item 1; Field "data"] ∘ VDict) <$> drop 3 (sr_nodes r)
    = [Some [VStr "a"; VStr "b"; VStr "c"]; Some [VStr "d"; VStr "e"; VStr "f"]].
Proof. eexists. split; [vm_compute; reflexivity|]. by repeat split; vm_compute. Qed.

(** A sharded node with an empty static list makes the rewrite fail. *)
Example empty_list_cannot_be_sharded :
  rewrite_nodes_for_shard_intent (two_nodes "items.output" []) [("w0", ["n0"; "n1"]); ("w1", ["n0"])] [] =
  Err (ValueError "Unsupported shard boundary for raw node 'n0': static list length 0 cannot be partitioned to total 1").
Proof. vm_compute. reflexivity. Qed.
