(* ===== verification/ShardHint.v ===== *)
(** * The schedule hint of the sharded workflow

    The rewritten nodes and the rewritten assignment always make a schedule
    hint when the submitted graph has no cycle: splitting nodes and merging
    them introduces none, every name is covered, and every node has one
    worker. *)

From S2P Require Import Prelude PyFloat PyDict PyValue PyString TopoSort ShardData ShardDataProps ShardRewrite ShardProps ShardRewriteProps.

(** ** Reading the assignment *)

Section reading.
Context (names : list string).

Definition rank_node (ranks : dict string Z) (n : string) : dict string Z := dsetdefault n (Z.of_nat (length ranks)) ranks.

Lemma hint_fold worker c ranks seen l : NoDup (seen ++ l) → (∀ n, n ∈ l → n ∈ names) →
foldR (hint_node names worker) (c, ranks, seen) l = Ok (foldl (add_candidate worker) c l, foldl rank_node ranks l, seen ++ l).
Proof.
revert c ranks seen. induction l as [|n l IH]; intros c ranks seen Hnd Hin; [by rewrite app_nil_r|]. rewrite foldR_cons.
unfold hint_node at 1.
rewrite bool_decide_false by (apply NoDup_app in Hnd as (_ & H & _); intros Hs; apply (H n Hs); left).
rewrite (bool_decide_true (n ∈ names)) by (apply Hin; left). cbn [negb].
rewrite IH; [by rewrite <-app_assoc|by apply NoDup_snoc|]. intros m Hm. apply Hin. by right.
Qed.

Lemma rank_keys ranks l n : n ∈ dkeys (foldl rank_node ranks l) ↔ n ∈ dkeys ranks ∨ n ∈ l.
Proof.
revert ranks. induction l as [|m l IH]; intros ranks; cbn [foldl]; [set_solver|]. rewrite IH. unfold rank_node, dsetdefault.
destruct (dmem m ranks) eqn:E.
- apply dmem_true in E. rewrite elem_of_cons. naive_solver.
- unfold dkeys. rewrite fmap_app, elem_of_app. csimpl. rewrite list_elem_of_singleton, elem_of_cons. tauto.
Qed.

Lemma hint_run assignment : (∀ w l, (w, l) ∈ assignment → NoDup l ∧ ∀ n, n ∈ l → n ∈ names) →
∃ ranks, foldR (hint_worker names) ([], []) assignment = Ok (all_candidates assignment, ranks) ∧
  ∀ n, n ∈ dkeys ranks ↔ ∃ w l, (w, l) ∈ assignment ∧ n ∈ l.
Proof.
unfold all_candidates. intros H.
assert (G : ∀ l c ranks, (∀ w l', (w, l') ∈ l → NoDup l' ∧ ∀ n, n ∈ l' → n ∈ names) →
  ∃ ranks', foldR (hint_worker names) (c, ranks) l = Ok (foldl (λ c entry, foldl (add_candidate entry.1) c entry.2) c l, ranks') ∧
  ∀ n, n ∈ dkeys ranks' ↔ n ∈ dkeys ranks ∨ ∃ w l', (w, l') ∈ l ∧ n ∈ l').
{ induction l as [|[w l'] l IH]; intros c ranks Hl; [exists ranks; split; [done|]; set_solver|].
  rewrite foldR_cons. unfold hint_worker at 1. cbn [fst snd]. destruct (Hl w l') as [H1 H2]; [left|].
  rewrite hint_fold by done. simpl. destruct (IH (foldl (add_candidate w) c l') (foldl rank_node ranks l')) as (ranks' & E & Hr).
  { intros w0 l0 Hin. apply (Hl w0). by right. }
  exists ranks'. split; [done|]. intros n. rewrite Hr, rank_keys. setoid_rewrite elem_of_cons. naive_solver. }
destruct (G assignment [] [] H) as (ranks & E & Hr). exists ranks. split; [done|]. intros n. rewrite Hr. set_solver.
Qed.

(** The hint is the sort of the nodes by their dependencies. *)
Lemma hint_sorts assignment deps : NoDup (dkeys assignment) → one_worker_each names assignment →
∃ ranks, build_flat_schedule_hint assignment names deps =
  (ordered ← sort_by_deps names (λ n, dget_or [] n deps) (hint_key_lt ranks names)
     "Invalid schedule hint dependency graph: self dependency on "
     "Invalid schedule hint dependency graph: cycle detected in flowmesh nodes";
   Ok (ordered, dict_of ((λ n, (n, dget_or [] n (all_candidates assignment))) <$> names))).
Proof.
intros Hk (H1 & H2 & H3). destruct (hint_run assignment) as (ranks & E & Hr).
{ intros w l Hin. split; [by apply (H1 w)|]. intros n Hn. apply H3. by exists w, l. }
exists ranks. unfold build_flat_schedule_hint. rewrite E. cbn [mbind result_bind].
assert (Hs : same_members (dkeys ranks) names = true) by (apply same_members_spec; intros x; by rewrite Hr, H3).
rewrite Hs. cbn [negb].
assert (Hc : mapR (λ n, workers ← dindex (KeyError n) n (all_candidates assignment); Ok (n, workers)) names =
  Ok ((λ n, (n, dget_or [] n (all_candidates assignment))) <$> names)).
{ assert (G : ∀ l, (∀ n, n ∈ l → n ∈ names) →
    mapR (λ n, workers ← dindex (KeyError n) n (all_candidates assignment); Ok (n, workers)) l =
    Ok ((λ n, (n, dget_or [] n (all_candidates assignment))) <$> l)); [|by apply G].
  induction l as [|n l IH]; intros Hl; [done|]. csimpl.
  assert (Hn : n ∈ dkeys (all_candidates assignment)).
  { apply all_candidates_keys. assert (Hin : n ∈ names) by (apply Hl; left). apply H3 in Hin as (w & o & ? & ?). by exists (w, o). }
  apply dget_is_Some in Hn as [ws Hws].
  assert (E1 : dindex (KeyError n) n (all_candidates assignment) = Ok ws) by (unfold dindex; by rewrite Hws).
  rewrite E1. simpl. rewrite IH; [unfold dget_or at 2; by rewrite Hws|]. intros m Hm. apply Hl. by right. }
rewrite Hc. cbn [mbind result_bind]. unfold sort_by_deps.
by destruct (count_dependencies _ _ _).
Qed.
End reading.

Lemma hint_deps_get nodes node : NoDup (names_of nodes) → node ∈ nodes →
  dget_or [] (node_name node) (hint_dependencies nodes) = str_deps node.
Proof.
  intros Hnd Hin. unfold hint_dependencies.
  assert (E : ((λ node, (node_name node, str_deps node)) <$> nodes).*1 = names_of nodes) by (by rewrite <-list_fmap_compose).
  rewrite dict_of_nodup by (by rewrite E). unfold dget_or. rewrite (elem_dget (node_name node) (str_deps node)); [done| |].
  - unfold dict_wf, dkeys. by rewrite E.
  - apply list_elem_of_fmap. by exists node.
Qed.

(** ** Splitting and merging introduce no cycle *)

Section ranks.
Context (shards : dict string (list string)) (names : list string) (rank : string → nat).

(** The node a shard belongs to. *)
Definition origin (x : string) : option string :=
snd <$> list_find (λ n, x ∈ dget_or [] n shards) names.

Definition new_rank (x : string) : nat :=
match origin x with Some n => 2 * rank n | None => 2 * rank x + 1 end.

Hypothesis shard_shape : ∀ n ns x, dget n shards = Some ns → x ∈ ns → ∃ i, x = shard_name n i.
Hypothesis fresh : fresh_shard_names names.

Lemma origin_shard n ns x : n ∈ names → dget n shards = Some ns → x ∈ ns → new_rank x = 2 * rank n.
Proof.
intros Hn Hs Hx. unfold new_rank, origin. destruct (list_find _ _) as [[i m]|] eqn:E.
- apply list_find_Some in E as (Hm & Hin & _). unfold dget_or in Hin. destruct (dget m shards) as [ms|] eqn:Em; [|by apply elem_of_nil in Hin].
  destruct (shard_shape n ns x Hs Hx) as [j ->]. destruct (shard_shape m ms _ Em Hin) as [j' Ej].
  apply shard_name_inj in Ej as [-> _]. done.
- apply list_find_None in E. rewrite Forall_forall in E. exfalso. apply (E n Hn). unfold dget_or. by rewrite Hs.
Qed.

Lemma origin_raw x : x ∈ names → new_rank x = 2 * rank x + 1.
Proof.
intros Hx. unfold new_rank, origin. destruct (list_find _ _) as [[i m]|] eqn:E; [exfalso|done].
apply list_find_Some in E as (Hm & Hin & _). unfold dget_or in Hin. destruct (dget m shards) as [ms|] eqn:Em; [|by apply elem_of_nil in Hin].
destruct (shard_shape m ms x Em Hin) as [j ->]. apply list_elem_of_lookup_2 in Hm. by apply (fresh _ m j Hx Hm).
Qed.
End ranks.

(** ** The hint *)

Lemma valid_names nodes : "" ∉ names_of nodes → mapR valid_name nodes = Ok (names_of nodes).
Proof.
  induction nodes as [|node nodes IH]; intros Hne; [done|]. unfold names_of in *. csimpl in *.
  apply not_elem_of_cons in Hne as [H1 H2].
  assert (E : valid_name node = Ok (node_name node)).
  { unfold valid_name, node_name in *. destruct (vget "name" node); try done. by destruct (String.eqb_spec s ""). }
  by rewrite E, (IH H2).
Qed.

Lemma shard_name_nonempty n i : shard_name n i ≠ "".
Proof.
  intros H. apply (f_equal chars) in H. unfold shard_name in H. rewrite !chars_app in H. apply (f_equal length) in H.
  rewrite !length_app in H. simpl in H. lia.
Qed.

(** The candidates of a name that has one worker. *)
Lemma one_worker_candidate names assignment n : NoDup (dkeys assignment) → one_worker_each names assignment → n ∈ names →
  ∃ w out, (w, out) ∈ assignment ∧ n ∈ out ∧ dget_or [] n (all_candidates assignment) = [w].
Proof.
  intros Hk (H1 & H2 & H3) Hn. apply H3 in Hn as (w & out & Hin & Hx). exists w, out. split; [done|]. split; [done|].
  rewrite all_candidates_get by done.
  assert (G : ∀ l, NoDup (dkeys l) → (∀ e, e ∈ l → e ∈ assignment) → (w, out) ∈ l → (filter (λ e, n ∈ e.2) l).*1 = [w]).
  { induction l as [|[w' o] l IH]; intros Hl Hsub Hwl; [by apply elem_of_nil in Hwl|]. csimpl in Hl.
    apply NoDup_cons in Hl as [Hw' Hl]. apply elem_of_cons in Hwl as [[= <- <-]|Hwl].
    - rewrite filter_cons_True by done. csimpl. f_equal.
      assert (filter (λ e, n ∈ e.2) l = []) as ->; [|done].
      destruct (filter (λ e, n ∈ e.2) l) as [|[v o] l'] eqn:E; [done|exfalso].
      assert (Hin' : (v, o) ∈ filter (λ e, n ∈ e.2) l) by (rewrite E; left). apply list_elem_of_filter in Hin' as [Hno Hvl].
      assert (w = v) as <- by (apply (H2 w v out o n); [done|apply Hsub; by right|done..]).
      apply Hw', list_elem_of_fmap. by exists (w, o).
    - rewrite filter_cons_False.
      + apply IH; [done| |done]. intros e He. apply Hsub. by right.
      + simpl. intros Hno. assert (w' = w) as -> by (apply (H2 w' w o out n); [apply Hsub; left|done..]).
        apply Hw', list_elem_of_fmap. by exists (w, out). }
  by apply G.
Qed.

(** What the sort needs of the nodes. *)
Definition acyclic_nodes (nodes : list (dict string val)) : Prop :=
  ∃ rank : string → nat, ∀ node d, node ∈ nodes → d ∈ str_deps node → rank d < rank (node_name node).
Definition closed_nodes (nodes : list (dict string val)) : Prop :=
  ∀ node d, node ∈ nodes → d ∈ str_deps node → d ∈ names_of nodes.

Lemma hint_exists nodes assignment : NoDup (names_of nodes) → "" ∉ names_of nodes → NoDup (dkeys assignment) →
  one_worker_each (names_of nodes) assignment → closed_nodes nodes → acyclic_nodes nodes →
  ∃ order selected, build_schedule_hint nodes assignment = Ok (order, selected) ∧
    order ≡ₚ names_of nodes ∧
    (∀ node d l1 l2, node ∈ nodes → order = l1 ++ node_name node :: l2 → d ∈ str_deps node → d ∈ l1) ∧
    ∀ n, n ∈ names_of nodes → ∃ w out, (w, out) ∈ assignment ∧ n ∈ out ∧ dget n selected = Some [w].
Proof.
  intros Hnd Hne Hk Hone Hclosed [rank Hrank]. unfold build_schedule_hint. rewrite valid_names by done. cbn [mbind result_bind].
  destruct (hint_sorts (names_of nodes) assignment (hint_dependencies nodes) Hk Hone) as [ranks ->].
  match goal with |- context [sort_by_deps ?a ?b ?c ?d ?e] => destruct (sort_by_deps_correct a b Hnd c d e) as (H1 & H2 & _) end.
  destruct H1 as [_ H1]. destruct H1 as [order Ho].
  { exists rank. intros n p (node & -> & Hin)%list_elem_of_fmap Hp Hd. rewrite hint_deps_get in Hd by done. by apply Hrank. }
  rewrite Ho. cbn [mbind result_bind]. destruct (H2 order Ho) as [Hp Hord].
  eexists order, _. split; [done|]. split; [done|]. split.
  - intros node d l1 l2 Hin E Hd. eapply Hord; [exact E|by eapply Hclosed|]. by rewrite hint_deps_get.
  - intros n Hn. destruct (one_worker_candidate _ _ n Hk Hone Hn) as (w & out & Hin & Hx & E). exists w, out.
    split; [done|]. split; [done|]. rewrite dget_dict_of_map by done. by rewrite E.
Qed.

Section rewritten.
Context (nodes : list (dict string val)) (assignment : dict string (list string)) (outs order : list string)
  (plan : shard_plan) (r : ShardRewriteResult).
Local Abbreviation names := (names_of nodes).
Local Abbreviation candidates := (all_candidates assignment).
Local Abbreviation shards := (shard_nodes_by_raw plan).
Local Abbreviation merges := (compute_merge_required_nodes names (map_of nodes) shards outs).

Hypothesis workers_nodup : NoDup (dkeys assignment).
Hypothesis names_nodup : NoDup names.
Hypothesis checked : assignment_ok names assignment.
Hypothesis candidates_names : ∀ n, n ∈ dkeys candidates ↔ n ∈ names.
Hypothesis ordered : build_shard_rewrite_topological_order names (map_of nodes) = Ok order.
Hypothesis plan_ok : foldR (plan_node (map_of nodes) (explicit_intent candidates)) (mkShardPlan [] [] candidates) order = Ok plan.
Hypothesis fresh : fresh_shard_names names.
Hypothesis rewritten_ok : rewrite_all plan names (map_of nodes) (explicit_intent candidates) candidates assignment outs = Ok r.
Hypothesis closed : closed_nodes nodes.

(** A dependency of a rewritten node is a rewritten node, and comes before it
  in the order of the submitted graph. *)
Lemma rewritten_dep (rank : string → nat) node d :
(∀ n p, n ∈ names → p ∈ deps_of (map_of nodes) n → rank p < rank n) →
node ∈ sr_nodes r → d ∈ str_deps node →
d ∈ all_new_names nodes outs plan ∧ new_rank shards names rank d < new_rank shards names rank (node_name node).
Proof.
intros Hrank Hin Hd. destruct (rewritten_nodes nodes assignment outs plan names_nodup r rewritten_ok) as [_ Hfrom].
destruct (Hfrom node Hin) as (n & Hn & Hname & Hc). clear Hfrom.
assert (Hshape : ∀ n ns x, dget n shards = Some ns → x ∈ ns → ∃ i, x = shard_name n i).
{ intros m ms x Hm Hx. destruct (eff_sharded nodes assignment order plan names_nodup candidates_names ordered plan_ok m ms Hm) as (? & ? & k & _ & _ & _ & -> & _).
  apply elem_of_shard_names in Hx as (i & -> & _). by exists i. }
assert (Hbase : ∀ p, p ∈ str_deps (dget_or [] n (map_of nodes)) → p ∈ names).
{ apply list_elem_of_fmap in Hn as (base & -> & Hb). intros p. rewrite map_of_get by done. by apply closed. }
assert (Hraw : ∀ x, x ∈ names → new_rank shards names rank x = 2 * rank x + 1) by (intros x Hx; by apply origin_raw).
assert (Hshard : ∀ m ms x, m ∈ names → dget m shards = Some ms → x ∈ ms → new_rank shards names rank x = 2 * rank m).
{ intros m ms x ???. by eapply origin_shard. }
assert (Hnew : ∀ m x, m ∈ names → x ∈ new_names shards merges m → x ∈ all_new_names nodes outs plan).
{ intros m x Hm Hx. apply elem_of_all_new_names. by exists m. }
pose proof (merges_spec nodes outs plan) as (_ & Hms & Hmd).
unfold comes_from in Hc. destruct (dget n shards) as [ns|] eqn:Es.
- destruct Hc as [(i & Hi & Hdeps)|(Hm & Enode & Hdeps)].
  + rewrite (Hshard n ns (node_name node)) by (done || by eapply list_elem_of_lookup_2).
    destruct (Hdeps d Hd) as (p & Hp & Hs). pose proof (Hbase p Hp) as Hpn. pose proof (Hrank n p Hn Hp) as Hlt.
    unfold shard_ref in Hs. destruct (dget p shards) as [ps|] eqn:Ep.
    * apply list_elem_of_lookup_2 in Hs. rewrite (Hshard p ps d) by done. split; [|lia]. apply (Hnew p); [done|].
      unfold new_names. rewrite Ep. apply elem_of_app. by left.
    * injection Hs as ->. rewrite Hraw by done. split; [|lia]. apply (Hnew d); [done|]. unfold new_names. rewrite Ep. left.
  + rewrite Enode. rewrite (Hraw n) by done. rewrite (Hshard n ns d) by auto. split; [|lia].
    apply (Hnew n); [done|]. unfold new_names. rewrite Es. apply elem_of_app. left. by apply Hdeps.
- subst node. rewrite map_of_name by done. rewrite (Hraw n) by done. pose proof (Hbase d Hd) as Hdn. rewrite (Hraw d) by done.
  pose proof (Hrank n d Hn Hd). split; [|lia]. apply (Hnew d); [done|]. unfold new_names.
  destruct (dget d shards) as [ds|] eqn:Ed; [|left]. apply elem_of_app. right. rewrite bool_decide_true; [left|].
  apply (Hmd n d); [done| |done|apply dget_is_Some; by eexists]. by apply dget_None.
Qed.
End rewritten.

(** When the rewrite succeeds on a graph without cycles whose dependencies are
    its own nodes, the schedule hint exists, runs every rewritten node once and
    after all its dependencies, and names for each of them the one worker that
    has it. *)
Lemma rewritten_hint (nodes : list (dict string val)) (assignment : dict string (list string))
    (outs : list string) (r : ShardRewriteResult)
    (Hr : rewrite_nodes_for_shard_intent nodes assignment outs = Ok r)
    (Hworkers : NoDup (dkeys assignment)) (Hfresh : fresh_shard_names (names_of nodes))
    (Hclosed : closed_nodes nodes) (Hacyclic : acyclic_nodes nodes) :
  ∃ order selected, build_schedule_hint (sr_nodes r) (sr_worker_assignment r) = Ok (order, selected) ∧
    order ≡ₚ names_of (sr_nodes r) ∧
    (∀ node d l1 l2, node ∈ sr_nodes r → order = l1 ++ node_name node :: l2 → d ∈ str_deps node → d ∈ l1) ∧
    ∀ n, n ∈ names_of (sr_nodes r) →
      ∃ w out, (w, out) ∈ sr_worker_assignment r ∧ n ∈ out ∧ dget n selected = Some [w].
Proof.
  destruct (rewritten_one_worker nodes assignment outs r Hr Hworkers Hfresh) as (Hk & Hnd' & Hone).
  destruct (rewrite_inv _ _ _ _ Hr) as ([Hnd Hne] & Hok & Hcn & [(_ & En & _)|(order & plan & Ho & Hp & Hall)]).
  - apply hint_exists; rewrite ?En in *; try done. by rewrite Hk.
  - destruct (rewritten_nodes nodes assignment outs plan Hnd r Hall) as [Enames Hfrom].
    assert (Hrank : ∃ rank : string → nat, ∀ n p, n ∈ names_of nodes → p ∈ deps_of (map_of nodes) n → rank p < rank n).
    { destruct Hacyclic as [rank H]. exists rank. intros n p (node & -> & Hin)%list_elem_of_fmap Hp'.
      unfold deps_of in Hp'. rewrite map_of_get in Hp' by done. by apply H. }
    destruct Hrank as [rank Hrank].
    assert (Hdep : ∀ node d, node ∈ sr_nodes r → d ∈ str_deps node → d ∈ names_of (sr_nodes r) ∧
      new_rank (shard_nodes_by_raw plan) (names_of nodes) rank d < new_rank (shard_nodes_by_raw plan) (names_of nodes) rank (node_name node)).
    { intros node d Hin Hd. rewrite Enames. eapply rewritten_dep; eauto. }
    apply hint_exists; [done| |by rewrite Hk|done|intros node d Hin Hd; by destruct (Hdep node d Hin Hd)|].
    + rewrite Enames. intros (n & Hn & Hx)%elem_of_all_new_names.
      apply (new_names_cases nodes assignment outs order plan Hnd Hcn Ho Hp n "" Hn) in Hx.
      destruct Hx as [[<- _]|[(ns & i & _ & _ & E)|[<- _]]]; [done| |done]. symmetry in E. by apply shard_name_nonempty in E.
    + eexists. intros node d Hin Hd. by destruct (Hdep node d Hin Hd).
Qed.

