(* ===== verification/Sensitive.v ===== *)
(** * Redaction of credentials (runtime/sensitive.py)

    What leaves the process (archives, optimizer requests, error messages) goes
    through [redact_sensitive]: entries under sensitive keys become a
    placeholder and every other text is scrubbed by three substitutions.  Each
    regular expression of the source has at most one match at a position (its
    character classes are disjoint where one ends and the next begins), so a
    matcher is a function from the text to the end of the match. *)

From Stdlib Require Import Ascii.
From S2P Require Import Prelude PyFloat PyDict PyValue PyString.

Definition REDACTED_TOKEN_PLACEHOLDER : string := "***REDACTED***".
Definition SENSITIVE_DATA_SPEC_KEYS : list string := ["lumid_data_token"; "Authorization"].

Definition is_sensitive_key (key : string) : bool := bool_decide (lower key ∈ lower <$> SENSITIVE_DATA_SPEC_KEYS).

(** ** The substitutions *)

Definition is_alpha (c : ascii) : bool := (is_upper c || is_lower c)%bool.
Definition non_space (c : ascii) : bool := negb (is_space c).
(** A word character or a hyphen. *)
Definition is_scheme (c : ascii) : bool := (is_word c || (ascii_code c =? 45)%N)%bool.
Definition is_quote (c : ascii) : bool := (ascii_code c =? 34)%N.
Definition quote : ascii := ascii_of_N 34.

(** A word at the head of a text, in any case. *)
Fixpoint match_word (word l : list ascii) : option (list ascii) :=
  match word, l with
  | [], _ => Some l
  | w :: word, c :: l => if Ascii.eqb (lower_ascii c) w then match_word word l else None
  | _ :: _, [] => None
  end.

(** One or more characters of a class. *)
Definition match_some (p : ascii → bool) (l : list ascii) : option (list ascii) :=
  match span p l with
  | (_ :: _, rest) => Some rest
  | _ => None
  end.

Definition match_char (p : ascii → bool) (l : list ascii) : option (list ascii) :=
  match l with c :: l => if p c then Some l else None | [] => None end.

(** The word, space, and a token. *)
Definition match_bearer (l : list ascii) : option (list ascii) :=
  l ← match_word (chars "bearer") l; l ← match_some is_space l; match_some non_space l.

(** The group of [_AUTH_HEADER_RE]: up to the space after the scheme; the match
    goes on to the end of the line. *)
Definition match_auth_header (l : list ascii) : option (list ascii) :=
  l ← match_word (chars "authorization") l;
  l ← match_char (λ c, (ascii_code c =? 58)%N) (span is_space l).2;
  l ← match_char is_alpha (span is_space l).2;
  match_some is_space (span is_scheme l).2.

(** [_AUTH_HEADER_JSON_RE]: the end of its group and the end of the match. *)
Definition match_auth_json (l : list ascii) : option (list ascii * list ascii) :=
  l ← match_char is_quote l;
  l ← match_word (chars "authorization") l;
  l ← match_char is_quote l;
  l ← match_char (λ c, (ascii_code c =? 58)%N) (span is_space l).2;
  let group_end := (span is_space l).2 in
  l ← match_char is_quote group_end;
  l ← match_char is_quote (span (λ c, negb (is_quote c)) l).2;
  Some (group_end, l).

(** The text before a suffix of [l]. *)
Definition until (l suffix : list ascii) : list ascii := take (length l - length suffix) l.

(** [pattern.sub]: leftmost matches that do not overlap. [m] gives the
    replacement of a match at the head of the text and what follows it; no
    pattern matches the empty text, so the length is fuel enough. *)
Fixpoint sub_all (fuel : nat) (m : list ascii → option (list ascii * list ascii)) (l : list ascii) : list ascii :=
  match fuel, l with
  | S fuel, c :: l' =>
      match m l with
      | Some (replacement, rest) => replacement ++ sub_all fuel m rest
      | None => c :: sub_all fuel m l'
      end
  | _, _ => l
  end.

Definition placeholder : list ascii := chars REDACTED_TOKEN_PLACEHOLDER.

Definition sub_bearer (l : list ascii) : option (list ascii * list ascii) :=
  rest ← match_bearer l; Some (chars "Bearer " ++ placeholder, rest).
Definition sub_auth_header (l : list ascii) : option (list ascii * list ascii) :=
  line ← match_auth_header l;
  Some (until l line ++ placeholder, (span (λ c, negb (ascii_code c =? 10)%N) line).2).
Definition sub_auth_json (l : list ascii) : option (list ascii * list ascii) :=
  m ← match_auth_json l; Some (until l m.1 ++ [quote] ++ placeholder ++ [quote], m.2).

Definition sub_pattern (m : list ascii → option (list ascii * list ascii)) (l : list ascii) : list ascii :=
  sub_all (length l) m l.

(** [_redact_text] *)
Definition redact_text (text : string) : string :=
  of_chars (sub_pattern sub_auth_json (sub_pattern sub_auth_header (sub_pattern sub_bearer (chars text)))).

(** ** Values *)

Fixpoint redact_sensitive (value : val) : val :=
  match value with
  | VDict d =>
      let fix entries (d : list (string * val)) :=
        match d with
        | [] => []
        | (key, sub) :: d =>
            (key, match sub with
                  | VStr s => if (is_sensitive_key key && negb (String.eqb s ""))%bool
                              then VStr REDACTED_TOKEN_PLACEHOLDER else redact_sensitive sub
                  | _ => redact_sensitive sub
                  end) :: entries d
        end in
      VDict (entries d)
  | VList l => VList (map redact_sensitive l)
  | VStr s => VStr (redact_text s)
  | _ => value
  end.

(** [redact_secrets_in_text] of a text; [json.loads] and [json.dumps] are
    parameters. *)
Section text.
Context (json_loads : string → option val) (json_dumps : val → string).

Definition redact_secrets_in_text (text : string) : string :=
match json_loads text with
| Some (VDict d) => json_dumps (redact_sensitive (VDict d))
| Some (VList l) => json_dumps (redact_sensitive (VList l))
| _ => redact_text text
end.
End text.

Example redact_text_ex : redact_text "GET /x Authorization: basic abc def" = "GET /x Authorization: basic ***REDACTED***".
Proof. reflexivity. Qed.
Example redact_text_ex2 : redact_text "bearer  tok1, BEARER tok2 x" = "Bearer ***REDACTED*** Bearer ***REDACTED*** x".
Proof. reflexivity. Qed.
Example redact_text_ex3 : chars (redact_text (of_chars (quote :: chars "AUTHORIZATION" ++ quote :: chars " : " ++ quote :: chars "s" ++ [quote])))
  = quote :: chars "AUTHORIZATION" ++ quote :: chars " : " ++ quote :: chars "***REDACTED***" ++ [quote].
Proof. reflexivity. Qed.
