(* ===== verification/SensitiveProps.v ===== *)
(** * No credential survives redaction

    After [redact_sensitive] no text under a sensitive key is left, and in
    every other text each bearer token is the placeholder: the first
    substitution replaces all of them, and the other two only cut text after a
    space or inside quotes, which uncovers none. *)

From Stdlib Require Import Ascii.
From S2P Require Import Prelude PyFloat PyDict PyValue PyString Sensitive.

(** ** Spans *)

Lemma span_app p l : (span p l).1 ++ (span p l).2 = l.
Proof. induction l as [|c l IH]; simpl; [done|]. destruct (p c); [|done]. destruct (span p l). simpl in *. by rewrite IH. Qed.

Lemma span_true p l c : c ∈ (span p l).1 → p c = true.
Proof.
  induction l as [|d l IH]; simpl; [set_solver|]. destruct (p d) eqn:E; [|set_solver].
  destruct (span p l). simpl in *. set_solver.
Qed.

Lemma span_head p l c l' : (span p l).2 = c :: l' → p c = false.
Proof.
  induction l as [|d l IH]; simpl; [done|]. destruct (p d) eqn:E; [|by intros [= -> ->]].
  destruct (span p l). simpl in *. done.
Qed.

(** What starts with no character of the class. *)
Definition starts_no (p : ascii → bool) (l : list ascii) : Prop := match l with c :: _ => p c = false | [] => True end.

Lemma span_prefix p a l : (∀ c, c ∈ a → p c = true) → starts_no p l → span p (a ++ l) = (a, l).
Proof.
  intros Ha Hl. induction a as [|c a IH]; simpl.
  - destruct l as [|c l]; [done|]. simpl in *. by rewrite Hl.
  - rewrite (Ha c) by left. rewrite IH; [done|]. intros d Hd. apply Ha. by right.
Qed.

(** The token of a match of the bearer pattern at the head of a text. *)
Definition bearer_token (l : list ascii) : option (list ascii) :=
  l ← match_word (chars "bearer") l;
  l ← match_some is_space l;
  match (span non_space l).1 with [] => None | token => Some token end.

Definition no_bearer (l : list ascii) : Prop := ∀ l1 l2 token, l = l1 ++ l2 → bearer_token l2 = Some token → token = placeholder.

Lemma no_bearer_cons c l : (∀ token, bearer_token (c :: l) = Some token → token = placeholder) → no_bearer l → no_bearer (c :: l).
Proof.
  intros H Hl [|d l1] l2 token E Ht; simplify_eq/=; [by apply H|]. by apply (Hl l1 l2).
Qed.

Lemma bearer_token_match l token : bearer_token l = Some token → is_Some (match_bearer l).
Proof.
  unfold bearer_token, match_bearer. destruct (match_word _ l) as [l1|]; [|done]. simpl.
  destruct (match_some is_space l1) as [l2|]; [|done]. simpl. unfold match_some at 1.
  destruct (span non_space l2) as [[|c t] r]; simpl; [done|]. eauto.
Qed.

(** ** Cuts

    [cut l out]: the text [out] is [l] with some pieces replaced by the
    placeholder; a piece follows a character of the class [gate] and is
    followed by one of the class [stop] or the end. *)
Section cut.
Context (gate stop : ascii → bool).

Inductive cut : list ascii → list ascii → Prop :=
  | cut_nil : cut [] []
  | cut_copy c l out : cut l out → cut (c :: l) (c :: out)
  | cut_piece c piece l out : gate c = true → cut l out → starts_no (λ d, negb (stop d)) l →
      cut (c :: piece ++ l) (c :: placeholder ++ out).

Lemma cut_id l : cut l l.
Proof. induction l; constructor; done. Qed.

Lemma cut_app a l out : cut l out → cut (a ++ l) (a ++ out).
Proof. intros H. induction a; [done|]. by constructor. Qed.

Lemma cut_starts_no p l out : cut l out → starts_no p l → starts_no p out.
Proof. by destruct 1. Qed.

Lemma cut_word word l out rest : (∀ c, lower_ascii c ∈ word → gate c = false) → cut l out → match_word word out = Some rest →
∃ rest', match_word word l = Some rest' ∧ cut rest' rest.
Proof.
intros Hg. revert l out. induction word as [|w word IH]; intros l out Hc Hm; [injection Hm as <-; by exists l|].
destruct Hc as [|c l out Hc|c piece l out Hgate Hc Hs]; [done| |]; simpl in Hm |- *;
  destruct (Ascii.eqb_spec (lower_ascii c) w) as [E|]; try done.
- apply (IH (λ c Hc, Hg c (list_elem_of_further _ _ _ Hc)) l out Hc Hm).
- rewrite (Hg c) in Hgate; [done|]. rewrite E. left.
Qed.

(** A text that has no character of the gate is copied. *)
Lemma cut_plain a l out : (∀ c, c ∈ a → gate c = false) → cut (a ++ l) out → ∃ out', out = a ++ out' ∧ cut l out'.
Proof.
revert out. induction a as [|c a IH]; intros out Ha H; [by exists out|]. simpl in H.
inversion H as [|c' l' out' H' |c' piece l' out' Hg H' Hs]; subst.
- destruct (IH out') as (out2 & -> & ?); [intros d Hd; apply Ha; by right|done|]. by exists out2.
- rewrite (Ha c) in Hg by left. done.
Qed.

(** The spaces before the token. *)
Lemma cut_spaces l out : cut l out →
(∃ l', cut l' (span is_space out).2 ∧ l = (span is_space out).1 ++ l' ∧ starts_no is_space l') ∨
(∃ c piece l' out', gate c = true ∧ is_space c = true ∧ cut l' out' ∧ starts_no (λ d, negb (stop d)) l' ∧
   (span is_space out).2 = placeholder ++ out' ∧ ∃ a, l = a ++ c :: piece ++ l').
Proof.
induction 1 as [|c l out H IH|c piece l out Hg H IH Hs].
- left. exists []. by repeat constructor.
- simpl. destruct (is_space c) eqn:E.
  + destruct (span is_space out) as [a b] eqn:Es. simpl in *. destruct IH as [(l' & ? & -> & ?)|(d & piece & l' & out' & ? & ? & ? & ? & ? & a' & ->)].
    * left. by exists l'.
    * right. exists d, piece, l', out'. split_and!; try done. by exists (c :: a').
  + left. exists (c :: l). split_and!; [by constructor|done|done].
- simpl. destruct (is_space c) eqn:E.
  + right. exists c, piece, l, out. split_and!; try done; try (by exists []).
  + left. exists (c :: piece ++ l). split_and!; [by constructor|done|done].
Qed.
End cut.

Lemma no_bearer_suffix a l : no_bearer (a ++ l) → no_bearer l.
Proof. intros H l1 l2 token -> Ht. apply (H (a ++ l1) l2); [by rewrite app_assoc|done]. Qed.

Lemma no_bearer_placeholder l : no_bearer l → no_bearer (placeholder ++ l).
Proof. intros H. unfold placeholder. simpl. repeat (apply no_bearer_cons; [by intros ? [=]|]). done. Qed.

Lemma placeholder_token l : starts_no non_space l → (span non_space (placeholder ++ l)).1 = placeholder.
Proof.
  intros H. rewrite span_prefix; [done| |done]. intros c Hc.
  assert (G : forallb non_space placeholder = true) by reflexivity.
  apply (proj1 (forallb_forall _ _) G). by apply list_elem_of_In.
Qed.

Section keep.
Context (gate stop : ascii → bool).
Hypothesis gate_word : ∀ c, lower_ascii c ∈ chars "bearer" → gate c = false.
Hypothesis gate_placeholder : ∀ c, c ∈ placeholder → gate c = false.
Hypothesis gate_stop : (∀ c, gate c = true → is_space c = false) ∨ (∀ c, stop c = true → is_space c = true).

Lemma cut_head l out token : cut gate stop l out → no_bearer l → bearer_token out = Some token → token = placeholder.
Proof.
intros Hc Hl. unfold bearer_token. destruct (match_word _ out) as [out1|] eqn:Ew; [|done]. simpl.
destruct (cut_word gate stop _ l out out1 gate_word Hc Ew) as (l1 & Ew' & Hc1). unfold match_some.
destruct (cut_spaces gate stop l1 out1 Hc1) as [(l2 & Hc2 & E1 & Hs)|(c & piece & l2 & out2 & Hg & Hsp & Hc2 & Hst & E2 & _)].
- destruct (span is_space out1) as [sp out2] eqn:Es. cbn [fst snd] in *. destruct sp as [|s0 sp]; [done|]. simpl.
  destruct (span non_space out2).1 as [|t0 t] eqn:Et; [done|]. intros [= <-].
  assert (Hsp : ∀ c, c ∈ s0 :: sp → is_space c = true).
  { intros c Hin. apply (span_true is_space out1). by rewrite Es. }
  assert (El : span is_space l1 = (s0 :: sp, l2)) by (rewrite E1; by apply span_prefix).
  assert (Hl2 : (span non_space l2).1 = placeholder).
  { apply (Hl [] l); [done|]. unfold bearer_token. rewrite Ew'. simpl. unfold match_some. rewrite El. simpl.
    destruct (span non_space l2).1 as [|x r] eqn:E; [|done]. exfalso.
    destruct Hc2 as [|c l2 out2 ?|c piece l2 out2 ??]; [done| |]; cbn [span starts_no] in E, Hs; unfold non_space at 1 in E;
      rewrite Hs in E; cbn [negb] in E; [destruct (span non_space l2)|destruct (span non_space (piece ++ l2))]; done. }
  pose proof (span_app non_space l2) as Ep. rewrite Hl2 in Ep. rewrite <-Ep in Hc2.
  destruct (cut_plain gate stop _ _ _ gate_placeholder Hc2) as (out3 & -> & Hc3). rewrite <-Et.
  apply placeholder_token. apply (cut_starts_no _ _ _ _ _ Hc3). destruct (span non_space l2).2 as [|d r] eqn:Ed; [done|].
  by apply (span_head non_space l2 d r).
- destruct (span is_space out1) as [sp out3]. cbn [fst snd] in *. subst out3. destruct sp as [|s0 sp]; [done|]. cbn [mbind option_bind].
  destruct gate_stop as [G|G]; [by rewrite (G c) in Hsp|]. rewrite placeholder_token; [by intros [= <-]|].
  apply (cut_starts_no _ _ _ _ _ Hc2). destruct l2 as [|d l2]; [done|]. simpl in *. unfold non_space. rewrite (G d); [done|].
  by destruct (stop d).
Qed.

Lemma cut_no_bearer l out : cut gate stop l out → no_bearer l → no_bearer out.
Proof.
induction 1 as [|c l out H IH|c piece l out Hg H IH Hs]; intros Hl; [done|..].
- apply no_bearer_cons; [|by apply IH, (no_bearer_suffix [c])]. intros token. apply (cut_head (c :: l)); [by constructor|done].
- simpl. apply no_bearer_cons.
  + intros token. apply (cut_head (c :: piece ++ l)); [by constructor|done].
  + apply no_bearer_placeholder, IH, (no_bearer_suffix (c :: piece)), Hl.
Qed.
End keep.

(** ** The first substitution *)

Lemma match_word_cons w word l rest : match_word (w :: word) l = Some rest → ∃ c l', l = c :: l' ∧ lower_ascii c = w ∧ match_word word l' = Some rest.
Proof. destruct l as [|c l']; [done|]. simpl. destruct (Ascii.eqb_spec (lower_ascii c) w); [|done]. intros H. by exists c, l'. Qed.

Lemma match_some_spec p l rest : match_some p l = Some rest → ∃ c l', l = c :: l' ∧ p c = true ∧ rest = (span p l).2.
Proof.
  unfold match_some. destruct l as [|c l]; [done|]. simpl. destruct (p c) eqn:E; [|done].
  destruct (span p l) as [a b]. intros [= <-]. by exists c, l.
Qed.

Lemma length_span p l : length (span p l).2 ≤ length l.
Proof. rewrite <-(span_app p l) at 2. rewrite length_app. lia. Qed.

Lemma match_word_length word l rest : match_word word l = Some rest → length l = length word + length rest.
Proof.
  revert l. induction word as [|w word IH]; intros l H; [by injection H as ->|].
  apply match_word_cons in H as (c & l' & -> & _ & H). simpl. by rewrite (IH l').
Qed.

Lemma match_some_length p l rest : match_some p l = Some rest → length rest < length l.
Proof.
  intros (c & l' & -> & Hp & ->)%match_some_spec. simpl. rewrite Hp. destruct (span p l') as [a b] eqn:E.
  pose proof (length_span p l'). rewrite E in H. simpl in *. lia.
Qed.

Lemma match_bearer_inv l rest : match_bearer l = Some rest → ∃ c l', l = c :: l' ∧ lower_ascii c = "b"%char ∧ starts_no non_space rest ∧
  length rest ≤ length l'.
Proof.
  unfold match_bearer. destruct (match_word _ l) as [l1|] eqn:E1; [|done]. cbn [mbind option_bind].
  destruct (match_some is_space l1) as [l2|] eqn:E2; [|done]. cbn [mbind option_bind]. intros E3.
  pose proof (match_word_length _ _ _ E1). pose proof (match_some_length _ _ _ E2). pose proof (match_some_length _ _ _ E3).
  apply match_word_cons in E1 as (c & l' & -> & Hc & _). exists c, l'. split; [done|]. split; [done|]. split; [|simpl in *; lia].
  apply match_some_spec in E3 as (d & l3 & -> & _ & ->). destruct (span non_space (d :: l3)).2 eqn:E; [done|]. by apply span_head in E.
Qed.

Local Abbreviation clean fuel l := (sub_all fuel sub_bearer l).

Lemma clean_cases fuel c l : clean (S fuel) (c :: l) = c :: clean fuel l ∧ match_bearer (c :: l) = None ∨
  ∃ rest, match_bearer (c :: l) = Some rest ∧ clean (S fuel) (c :: l) = chars "Bearer " ++ placeholder ++ clean fuel rest.
Proof.
  change (clean (S fuel) (c :: l)) with
    (match sub_bearer (c :: l) with Some (replacement, rest) => replacement ++ clean fuel rest | None => c :: clean fuel l end).
  assert (E : sub_bearer (c :: l) = rest ← match_bearer (c :: l); Some (chars "Bearer " ++ placeholder, rest)) by done.
  rewrite E. destruct (match_bearer (c :: l)) as [rest|]; [right; by exists rest|by left].
Qed.

Lemma clean_word fuel word l rest : "b"%char ∉ word → length l ≤ fuel → match_word word (clean fuel l) = Some rest →
  ∃ fuel' l', match_word word l = Some l' ∧ length l' ≤ fuel' ∧ rest = clean fuel' l'.
Proof.
  revert fuel l. induction word as [|w word IH]; intros fuel l Hb Hl H; [injection H as <-; by exists fuel, l|].
  destruct l as [|c l]; [by destruct fuel|]. destruct fuel as [|fuel]; [simpl in Hl; lia|].
  destruct (clean_cases fuel c l) as [[E _]|(rest' & _ & E)]; rewrite E in H; apply match_word_cons in H as (d & l' & Ed & Hd & H).
  - injection Ed as <- <-. simpl. rewrite Hd, Ascii.eqb_refl. apply (IH fuel l); [set_solver|simpl in Hl; lia|done].
  - injection Ed as <- <-. exfalso. apply Hb. rewrite <-Hd. by left.
Qed.

Lemma b_is_no_space c : lower_ascii c = "b"%char → is_space c = false.
Proof. destruct c as [[][][][][][][][]]; vm_compute; congruence. Qed.

Lemma clean_space fuel l : length l ≤ fuel → ∃ fuel' l', span is_space (clean fuel l) = ((span is_space l).1, clean fuel' l') ∧
  (span is_space l).2 = l' ∧ length l' ≤ fuel'.
Proof.
  revert fuel. induction l as [|c l IH]; intros [|fuel] Hl; try (by exists 0, []); simpl in Hl; [lia|].
  destruct (clean_cases fuel c l) as [[E _]|(rest & Hm & E)].
  - rewrite E. simpl. destruct (is_space c); [|exists (S fuel), (c :: l); rewrite E; split_and!; [done|done|simpl; lia]].
    destruct (IH fuel) as (fuel' & l' & E1 & E2 & ?); [lia|]. rewrite E1. exists fuel', l'.
    destruct (span is_space l). simpl in *. by subst.
  - apply match_bearer_inv in Hm as (d & l' & [= <- <-] & Hd & _). exists (S fuel), (c :: l). rewrite E.
    pose proof (b_is_no_space c Hd) as Hs.
    simpl. rewrite Hs. split_and!; [done|done|lia].
Qed.

Lemma clean_starts_no fuel l : starts_no non_space l → starts_no non_space (clean fuel l).
Proof.
  destruct fuel as [|fuel]; [done|]. destruct l as [|c l]; [done|]. intros H.
  destruct (clean_cases fuel c l) as [[-> _]|(rest & Hm & _)]; [done|]. exfalso.
  apply match_bearer_inv in Hm as (d & l' & [= <- <-] & Hd & _). simpl in H. unfold non_space in H. by rewrite (b_is_no_space c Hd) in H.
Qed.

Lemma clean_head fuel c l token : length l ≤ fuel → match_bearer (c :: l) = None → bearer_token (c :: clean fuel l) = Some token → False.
Proof.
  intros Hl Hm. unfold bearer_token. destruct (match_word _ _) as [out1|] eqn:E; [|done]. cbn [mbind option_bind].
  apply match_word_cons in E as (? & ? & [= <- <-] & Hc & E). apply clean_word in E as (f1 & l1 & E1 & Hl1 & ->); [|set_solver|done].
  unfold match_some. destruct (clean_space f1 l1 Hl1) as (f2 & l2 & E2 & E3 & Hl2). rewrite E2.
  destruct (span is_space l1).1 as [|s0 sp] eqn:Es; [done|]. cbn [mbind option_bind]. intros H.
  assert (Hn : starts_no non_space l2).
  { destruct l2 as [|d l2]; [done|]. simpl. destruct (non_space d) eqn:En; [|done]. exfalso.
    assert (Hw : match_word (chars "bearer") (c :: l) = Some l1) by (cbn in E1 |- *; by rewrite Hc, Ascii.eqb_refl).
    unfold match_bearer in Hm. rewrite Hw in Hm. cbn [mbind option_bind] in Hm. unfold match_some in Hm.
    destruct (span is_space l1) as [a b]. cbn [fst snd] in *. subst a b. cbn [mbind option_bind span] in Hm. rewrite En in Hm.
    by destruct (span non_space l2). }
  apply (clean_starts_no f2) in Hn. destruct (clean f2 l2) as [|d r]; [done|]. simpl in Hn, H. by rewrite Hn in H.
Qed.

Lemma no_bearer_nil : no_bearer [].
Proof. by intros [|? ?] [|? ?] token. Qed.

Lemma cleaned_token l : starts_no non_space l → bearer_token (chars "Bearer " ++ placeholder ++ l) = Some placeholder.
Proof.
  intros H. unfold bearer_token. change (match_word (chars "bearer") (chars "Bearer " ++ placeholder ++ l)) with (Some (" "%char :: placeholder ++ l)).
  cbn [mbind option_bind]. change (match_some is_space (" "%char :: placeholder ++ l)) with (Some (placeholder ++ l)).
  cbn [mbind option_bind]. by rewrite placeholder_token.
Qed.

Lemma bearer_is_cleaned fuel l : length l ≤ fuel → no_bearer (clean fuel l).
Proof.
  revert l. induction fuel as [|fuel IH]; intros [|c l] Hl; try apply no_bearer_nil; simpl in Hl; [lia|].
  destruct (clean_cases fuel c l) as [[-> Hm]|(rest & Hm & ->)].
  - apply no_bearer_cons; [|apply IH; lia]. intros token Ht. exfalso. apply (clean_head fuel c l token); [lia|done..].
  - apply match_bearer_inv in Hm as (d & l' & [= <- <-] & _ & Hr & Hlen).
    pose proof (cleaned_token _ (clean_starts_no fuel rest Hr)) as Ht.
    apply no_bearer_cons; [intros token Ht'; pose proof (eq_trans (eq_sym Ht) Ht') as E; by injection E as <-|].
    cbn [chars String.list_ascii_of_string app].
    repeat (apply no_bearer_cons; [intros ? Ht'; cbn in Ht'; discriminate|]). apply IH. lia.
Qed.

(** ** The other substitutions are cuts *)

Lemma sub_all_cut gate stop m fuel l :
  (∀ l replacement rest, m l = Some (replacement, rest) → ∃ group c piece tail,
     l = group ++ c :: piece ++ tail ++ rest ∧ replacement = group ++ c :: placeholder ++ tail ∧ gate c = true ∧
     starts_no (λ d, negb (stop d)) (tail ++ rest)) →
  cut gate stop l (sub_all fuel m l).
Proof.
  intros Hm. revert l. induction fuel as [|fuel IH]; intros l; [apply cut_id|]. destruct l as [|c l]; [constructor|].
  simpl. destruct (m (c :: l)) as [[replacement rest]|] eqn:E; [|by constructor].
  apply Hm in E as (group & d & piece & tail & -> & -> & Hg & Hs). rewrite <-app_assoc. apply cut_app. cbn [app].
  rewrite <-app_assoc. apply cut_piece; [done|by apply cut_app|done].
Qed.

Ltac norm_app := repeat (rewrite <-app_assoc || cbn [app]).

Lemma until_app a l : until (a ++ l) l = a.
Proof. unfold until. rewrite length_app, Nat.add_sub. apply take_app_length. Qed.

Lemma match_word_suffix word l rest : match_word word l = Some rest → ∃ a, l = a ++ rest.
Proof.
  revert l. induction word as [|w word IH]; intros l H; [injection H as ->; by exists []|].
  apply match_word_cons in H as (c & l' & -> & _ & [a ->]%IH). by exists (c :: a).
Qed.

Lemma match_char_suffix p l rest : match_char p l = Some rest → ∃ c, l = c :: rest ∧ p c = true.
Proof. destruct l as [|c l]; [done|]. simpl. destruct (p c) eqn:E; [|done]. intros [= ->]. by exists c. Qed.

Lemma span_suffix p l : ∃ a, l = a ++ (span p l).2.
Proof. exists (span p l).1. by rewrite span_app. Qed.

(** One or more characters end with one of the class. *)
Lemma match_some_last p l rest : match_some p l = Some rest → ∃ a c, l = a ++ c :: rest ∧ p c = true.
Proof.
  unfold match_some. pose proof (span_app p l) as E. pose proof (λ c, span_true p l c) as Hp. destruct (span p l) as [a b]. simpl in *.
  destruct a as [|x a]; [done|]. intros [= <-]. destruct (exists_last (l := x :: a)) as (a' & c & Ea); [done|].
  exists a', c. rewrite Ea in E, Hp. rewrite <-E, <-app_assoc. split; [done|]. apply Hp. apply elem_of_app. right. left.
Qed.

Lemma auth_header_cut l : cut is_space is_space l (sub_pattern sub_auth_header l).
Proof.
  apply sub_all_cut. intros l0 replacement rest. unfold sub_auth_header, match_auth_header.
  destruct (match_word _ l0) as [l1|] eqn:E1; [|done]. cbn [mbind option_bind].
  destruct (match_char _ _) as [l2|] eqn:E2; [|done]. cbn [mbind option_bind].
  destruct (match_char is_alpha _) as [l3|] eqn:E3; [|done]. cbn [mbind option_bind].
  destruct (match_some is_space _) as [line|] eqn:E4; [|done]. intros [= <- <-].
  apply match_word_suffix in E1 as [a1 ->]. apply match_char_suffix in E2 as (c2 & E2 & _), E3 as (c3 & E3 & _).
  apply match_some_last in E4 as (a4 & c & E4 & Hc).
  destruct (span_suffix is_space l1) as [b1 Eb1], (span_suffix is_space l2) as [b2 Eb2], (span_suffix is_scheme l3) as [b3 Eb3].
  rewrite E2 in Eb1. rewrite E3 in Eb2. rewrite E4 in Eb3. rewrite Eb1, Eb2, Eb3.
  set (q := λ c, negb (ascii_code c =? 10)%N).
  exists (a1 ++ b1 ++ c2 :: b2 ++ c3 :: b3 ++ a4), c, (span q line).1, [].
  assert (E : a1 ++ b1 ++ c2 :: b2 ++ c3 :: b3 ++ a4 ++ c :: line = ((a1 ++ b1 ++ c2 :: b2 ++ c3 :: b3 ++ a4) ++ [c]) ++ line).
  { by norm_app. }
  rewrite E, until_app, app_nil_l, span_app, app_nil_r. norm_app. split; [done|]. split; [done|]. split; [done|].
  destruct (span q line).2 as [|d r] eqn:Es; [done|]. apply span_head in Es. subst q. simpl in Es |- *. apply negb_false_iff in Es.
  apply N.eqb_eq in Es. assert (d = ascii_of_N 10) as ->; [by rewrite <-Es, ascii_N_embedding|done].
Qed.

Lemma auth_json_cut l : cut is_quote is_quote l (sub_pattern sub_auth_json l).
Proof.
  apply sub_all_cut. intros l0 replacement rest. unfold sub_auth_json, match_auth_json.
  destruct (match_char is_quote l0) as [l1|] eqn:E1; [|done]. cbn [mbind option_bind].
  destruct (match_word _ l1) as [l2|] eqn:E2; [|done]. cbn [mbind option_bind].
  destruct (match_char is_quote l2) as [l3|] eqn:E3; [|done]. cbn [mbind option_bind].
  destruct (match_char (λ c, (ascii_code c =? 58)%N) (span is_space l3).2) as [l4|] eqn:E4; [|done]. cbn [mbind option_bind].
  destruct (match_char is_quote (span is_space l4).2) as [l5|] eqn:E5; [|done]. cbn [mbind option_bind].
  destruct (match_char is_quote (span (λ c, negb (is_quote c)) l5).2) as [l6|] eqn:E6; [|done]. intros [= <- <-]. cbn [fst snd].
  apply match_char_suffix in E1 as (c1 & -> & _), E3 as (c3 & -> & _), E4 as (c4 & E4 & _), E5 as (c5 & E5 & Hq5), E6 as (c6 & E6 & Hq6).
  apply match_word_suffix in E2 as [a2 ->].
  destruct (span_suffix is_space l3) as [b3 Eb3], (span_suffix is_space l4) as [b4 Eb4], (span_suffix (λ c, negb (is_quote c)) l5) as [b5 Eb5].
  assert (Hquote : ∀ c, is_quote c = true → c = quote).
  { intros c Hc. apply N.eqb_eq in Hc. unfold ascii_code in Hc. unfold quote. by rewrite <-Hc, ascii_N_embedding. }
  apply Hquote in Hq5 as ->, Hq6 as ->. rewrite E5 in Eb4 |- *. rewrite E4 in Eb3. rewrite E6 in Eb5. rewrite Eb3, Eb4.
  exists (c1 :: a2 ++ c3 :: b3 ++ c4 :: b4), quote, b5, [quote].
  assert (E : c1 :: a2 ++ c3 :: b3 ++ c4 :: b4 ++ quote :: l5 = (c1 :: a2 ++ c3 :: b3 ++ c4 :: b4) ++ quote :: l5).
  { by norm_app. }
  rewrite E, until_app, Eb5. norm_app. split_and!; done.
Qed.

(** A fact about every character is a computation. *)
Lemma word_gate p : forallb (λ n, let c := ascii_of_nat n in
    (negb (existsb (Ascii.eqb (lower_ascii c)) (chars "bearer")) || negb (p c))%bool) (seq 0 256) = true →
  ∀ c, lower_ascii c ∈ chars "bearer" → p c = false.
Proof.
  intros H c Hc. rewrite forallb_forall in H. specialize (H (nat_of_ascii c)). cbv zeta in H. rewrite ascii_nat_embedding in H.
  destruct (p c); [|done]. apply orb_true_iff in H as [H|H]; [|done|].
  - apply negb_true_iff in H. apply not_true_iff_false in H. exfalso. apply H, existsb_exists. exists (lower_ascii c).
    split; [by apply list_elem_of_In|apply Ascii.eqb_refl].
  - apply in_seq. pose proof (nat_ascii_bounded c). lia.
Qed.

Lemma redact_text_no_bearer s : no_bearer (chars (redact_text s)).
Proof.
  unfold redact_text. rewrite chars_of_chars.
  assert (Hw : ∀ p, forallb (λ c, negb (p c)) placeholder = true → ∀ c, c ∈ placeholder → p c = false).
  { intros p H c Hc. rewrite forallb_forall in H. apply negb_true_iff, H. by apply list_elem_of_In. }
  eapply (cut_no_bearer is_quote is_quote).
  - by apply word_gate.
  - by apply Hw.
  - left. intros c Hc. apply N.eqb_eq in Hc. unfold ascii_code in Hc. by rewrite <-(ascii_N_embedding c), Hc.
  - apply auth_json_cut.
  - eapply (cut_no_bearer is_space is_space).
    + by apply word_gate.
    + by apply Hw.
    + by right.
    + apply auth_header_cut.
    + apply bearer_is_cleaned. done.
Qed.

(** ** Values *)

(** The texts of a value, with the way to them: the keys, list items and tuple
    items one goes through *)
Inductive crumb := Key (key : string) | Item | TupleItem.
#[export] Instance crumb_eq_dec : EqDecision crumb.
Proof. solve_decision. Defined.
Inductive text_in : list crumb → string → val → Prop :=
  | text_here s : text_in [] s (VStr s)
  | text_dict key p s x d : (key, x) ∈ d → text_in p s x → text_in (Key key :: p) s (VDict d)
  | text_list p s x l : x ∈ l → text_in p s x → text_in (Item :: p) s (VList l)
  | text_tuple p s x l : x ∈ l → text_in p s x → text_in (TupleItem :: p) s (VTuple l).

Definition redact_entry (kv : string * val) : string * val :=
  (kv.1, match kv.2 with
         | VStr s => if (is_sensitive_key kv.1 && negb (String.eqb s ""))%bool then VStr REDACTED_TOKEN_PLACEHOLDER else redact_sensitive kv.2
         | _ => redact_sensitive kv.2
         end).

Lemma redact_dict d : redact_sensitive (VDict d) = VDict (map redact_entry d).
Proof. simpl. f_equal. induction d as [|[key sub] d IH]; [done|]. simpl. by rewrite IH. Qed.

Lemma no_bearer_computed l : forallb (λ n, match bearer_token (drop n l) with Some t => bool_decide (t = placeholder) | None => true end) (seq 0 (S (length l))) = true →
  no_bearer l.
Proof.
  intros H l1 l2 token -> Ht. rewrite forallb_forall in H. specialize (H (length l1)). rewrite drop_app_length, Ht in H.
  apply (bool_decide_eq_true_1 _), H, in_seq. rewrite length_app. lia.
Qed.

(** C9: in a redacted payload, a text that is the value of a sensitive key, at
    whatever depth in its dicts and lists, is empty or the placeholder; and in
    every text, those nested deeper under a sensitive key included, each bearer
    token that can be read is the placeholder.  Tuples, which the redaction
    does not enter, are left out. *)
Theorem no_credential_survives (v : val) (p : list crumb) (s : string) (Ht : text_in p s (redact_sensitive v)) (Hp : TupleItem ∉ p) :
  no_bearer (chars s) ∧ (∀ key, last p = Some (Key key) → is_sensitive_key key = true → s = "" ∨ s = REDACTED_TOKEN_PLACEHOLDER).
Proof.
  revert p s Ht Hp. induction v as [| | | |t|l IH| |d IH] using val_nested_ind; intros p s Ht Hp.
  all: try (by inversion Ht).
  - simpl in Ht. inversion Ht; subst. split; [apply redact_text_no_bearer|done].
  - inversion Ht as [| |p' ? x ? Hx Hs|]; subst. apply list_elem_of_In, in_map_iff in Hx as (y & <- & Hy%list_elem_of_In).
    rewrite Forall_forall in IH. apply not_elem_of_cons in Hp as [_ Hp]. destruct (IH y Hy p' s Hs Hp) as [H1 H2]. split; [done|].
    intros key E. destruct p' as [|c p']; [done|]. by apply H2.
  - inversion Ht as [|? ? ? ? ? Hx|? ? ? ? Hx|p' ? x ? Hx]; subst. exfalso. apply Hp. left.
  - rewrite redact_dict in Ht.
    assert (Hred : no_bearer (chars REDACTED_TOKEN_PLACEHOLDER)) by (by apply no_bearer_computed).
    inversion Ht as [|key p' ? x ? Hx Hs| |]; subst. apply not_elem_of_cons in Hp as [_ Hp].
    apply list_elem_of_In, in_map_iff in Hx as ([key' y] & E & Hy%list_elem_of_In). unfold redact_entry in E. cbn [fst snd] in E.
    injection E as -> E. rewrite Forall_forall in IH. specialize (IH (key, y) Hy p' s). cbn [snd] in IH.
    destruct y as [| | | |t| | |]; try (rewrite <-E in Hs; destruct (IH Hs Hp) as [H1 H2]; split; [done|];
      intros key'; destruct p' as [|c p']; [by inversion Hs|by apply H2]).
    destruct (is_sensitive_key key) eqn:Ek; cbn [andb] in E.
    + destruct (String.eqb_spec t "") as [->|]; cbn [negb] in E; rewrite <-E in Hs; inversion Hs; subst;
        (split; [by apply no_bearer_computed|]; intros ? _ _; by auto).
    + rewrite <-E in Hs. inversion Hs; subst. split; [apply redact_text_no_bearer|]. intros key' [= <-]. by rewrite Ek.
Qed.

Lemma no_credential_survives_witness : ∃ s,
  text_in [Key "headers"; Item; Key "authorization"] s
    (redact_sensitive (VDict [("headers", VList [VDict [("authorization", VStr "x")]]); ("note", VStr "use bearer abc")])) ∧
  no_bearer (chars s) ∧ (s = "" ∨ s = REDACTED_TOKEN_PLACEHOLDER).
Proof.
  eexists.
  assert (H : text_in [Key "headers"; Item; Key "authorization"] REDACTED_TOKEN_PLACEHOLDER
    (redact_sensitive (VDict [("headers", VList [VDict [("authorization", VStr "x")]]); ("note", VStr "use bearer abc")]))).
  { vm_compute. eapply text_dict; [left|]. eapply text_list; [left|]. eapply text_dict; [left|]. apply text_here. }
  split; [exact H|]. destruct (no_credential_survives _ _ _ H) as [H1 H2]; [by apply (bool_decide_unpack _)|].
  split; [exact H1|]. apply (H2 "authorization"); reflexivity.
Defined.

(** A list or a dict under a sensitive key is not replaced: what it holds is
    scrubbed as any other text. *)
Example nested_under_a_sensitive_key :
  redact_sensitive (VDict [("Authorization", VList [VStr "secret"]); ("lumid_data_token", VDict [("value", VStr "secret")])]) =
    VDict [("Authorization", VList [VStr "secret"]); ("lumid_data_token", VDict [("value", VStr "secret")])].
Proof. vm_compute. reflexivity. Qed.
