(* ===== verification/FlowmeshClient.v ===== *)
(** * Calls to the FlowMesh service

    The service is outside the program: a call takes the state of the service
    and gives its answer, or the exception the client raises, and the new
    state ([call], a state and error monad).  Modelled here, from
    runtime/runtime_manager/flowmesh.py: reads that are retried, the
    submission of a workflow without double submission, and the map between
    the accepted tasks and the nodes of the workflow. *)

From Stdlib Require Import Ascii.
From S2P Require Import Prelude PyFloat PyDict PyValue PyString Sensitive.

Module APIError.
Record t := mk {
message : string;
status_code : option Z;
method : option string;
url : option string;
body : option string;
}.
End APIError.

(** What a call raises. *)
Inductive failure :=
  | Api (e : APIError.t)
  | RequestCancelledError (request_id : string)
  | Raised (e : exn).

Inductive reply (A : Type) :=
  | Return (a : A)
  | Raise (f : failure).
Arguments Return {A} _.
Arguments Raise {A} _.

Definition call (S A : Type) : Type := S → reply A * S.

#[export] Instance call_ret S : MRet (call S) := λ _ a s, (Return a, s).
#[export] Instance call_bind S : MBind (call S) := λ _ _ f m s,
  match m s with
  | (Return a, s) => f a s
  | (Raise e, s) => (Raise e, s)
  end.

(** A local computation inside a call. *)
Definition lift {S A} (r : result A) : call S A := λ s, (match r with Ok a => Return a | Err e => Raise (Raised e) end, s).
Definition throw {S A} (f : failure) : call S A := λ s, (Raise f, s).

(** [except APIError as e: raise f(e) from None] *)
Definition except_api {S A} (f : APIError.t → APIError.t) (m : call S A) : call S A := λ s,
  match m s with
  | (Raise (Api e), s) => (Raise (Api (f e)), s)
  | r => r
  end.

Fixpoint mapC {S A B} (f : A → call S B) (l : list A) : call S (list B) :=
  match l with
  | [] => mret []
  | x :: l => y ← f x; ys ← mapC f l; mret (y :: ys)
  end.

(** ** Errors *)

(** The first [n] characters. *)
Fixpoint take_chars (n : nat) (l : list ascii) : list ascii :=
  match l with
  | [] => []
  | c :: l =>
      if starts_char c then match n with O => [] | S n => c :: take_chars n l end
      else c :: take_chars n l
  end.

Section sanitize.
Context (json_loads : string → option val) (json_dumps : val → string).

Definition sanitize_flowmesh_api_error (e : APIError.t) : APIError.t :=
let body := redact_secrets_in_text json_loads json_dumps
  (match APIError.body e with Some body => body | None => APIError.message e end) in
let body := if 2000 <? py_len body then of_chars (take_chars 2000 (chars body)) +:+ "...[truncated]" else body in
APIError.mk (redact_secrets_in_text json_loads json_dumps (APIError.message e))
  (APIError.status_code e) (APIError.method e) (APIError.url e) (Some body).
End sanitize.

(** ** Retried reads *)

Definition TRANSIENT_FLOWMESH_STATUS : list Z := [502; 503; 504]%Z.
Definition FLOWMESH_RETRY_DELAYS_S : list Z := [1; 2; 4; 8; 16; 30]%Z.

Definition is_transient (f : failure) : bool :=
  match f with
  | Api e => match APIError.status_code e with Some c => bool_decide (c ∈ TRANSIENT_FLOWMESH_STATUS) | None => false end
  | _ => false
  end.

Module Workflow.
Record t := mk {
workflow_id : string;
task_ids : list string;
submitted_at : string;
}.
End Workflow.

(** The operations of the service the program uses, and the passing of time. *)
Record service (S : Type) := Service {
  sv_sleep : Z → S → S;
  sv_task_status : string → call S (string * option string * option string);
  sv_task_retrieve : string → call S (dict string val);
  sv_result_retrieve : string → call S (dict string val);
  sv_workflow_list : call S (list Workflow.t);
  sv_workflow_submit : string → call S (string * list string);
  sv_workflow_cancel : string → call S ();
}.
Arguments sv_sleep {S} _ _ _.
Arguments sv_task_status {S} _ _ _.
Arguments sv_task_retrieve {S} _ _ _.
Arguments sv_result_retrieve {S} _ _ _.
Arguments sv_workflow_list {S} _ _.
Arguments sv_workflow_submit {S} _ _ _.
Arguments sv_workflow_cancel {S} _ _ _.

Section client.
Context {S : Type} (fm : service S).
Context (json_loads : string → option val) (json_dumps : val → string).
(** [datetime.fromisoformat], in microseconds *)
Context (fromisoformat : string → result Z).
Local Abbreviation sanitize := (sanitize_flowmesh_api_error json_loads json_dumps).

Definition sleep (delay : Z) : call S () := λ s, (Return (), sv_sleep fm delay s).

(** The loop over the delays, then the last attempt. *)
Fixpoint retry_read_from {A} (delays : list Z) (m : call S A) : call S A :=
match delays with
| [] => m
| delay :: delays => λ s,
    match m s with
    | (Raise f, s) => if is_transient f then retry_read_from delays m (sv_sleep fm delay s) else (Raise f, s)
    | r => r
    end
end.
Definition retry_transient_read {A} (m : call S A) : call S A := retry_read_from FLOWMESH_RETRY_DELAYS_S m.

Definition fetch_task_status (task_id : string) : call S (string * option string * option string) :=
except_api sanitize (retry_transient_read (sv_task_status fm task_id)).

Definition fetch_task_description (task_id : string) : call S (dict string val) :=
except_api sanitize (retry_transient_read (sv_task_retrieve fm task_id)).

(** ** Submission *)

(** [(desc["task"]["metadata"]["annotations"].get("custom") or {}).get("lumilake_submit_id")] *)
Definition description_submit_id (desc : dict string val) : result val :=
task ← vindex "task" (VDict desc);
metadata ← vindex "metadata" task;
annotations ← vindex "annotations" metadata;
custom ← vget_attr "custom" annotations;
vget_attr "lumilake_submit_id" (if truthy custom then custom else VDict []).

Definition SUBMIT_LOOKUP_SKEW : Z := 120000000.

Fixpoint find_in (submit_id : string) (cutoff : Z) (workflows : list Workflow.t) : call S (option Workflow.t) :=
match workflows with
| [] => mret None
| wf :: workflows =>
    match Workflow.task_ids wf with
    | [] => find_in submit_id cutoff workflows
    | first_task :: _ =>
        submitted_at ← lift (fromisoformat (Workflow.submitted_at wf));
        if (submitted_at <? cutoff)%Z then find_in submit_id cutoff workflows
        else
          desc ← fetch_task_description first_task;
          id ← lift (description_submit_id desc);
          if bool_decide (id = VStr submit_id) then mret (Some wf) else find_in submit_id cutoff workflows
    end
end.

Definition find_submitted_workflow (submit_id : string) (since : Z) : call S (option Workflow.t) :=
workflows ← retry_transient_read (sv_workflow_list fm);
find_in submit_id (since - SUBMIT_LOOKUP_SKEW) workflows.

Fixpoint submit_from (delays : list Z) (task_yaml submit_id : string) (since : Z) : call S (string * list string) :=
match delays with
| [] => sv_workflow_submit fm task_yaml
| delay :: delays => λ s,
    match sv_workflow_submit fm task_yaml s with
    | (Raise f, s) =>
        if is_transient f then
          (_ ← sleep delay;
           existing ← find_submitted_workflow submit_id since;
           match existing with
           | Some wf => mret (Workflow.workflow_id wf, Workflow.task_ids wf)
           | None => submit_from delays task_yaml submit_id since
           end) s
        else (Raise f, s)
    | r => r
    end
end.

Definition submit_workflow (task_yaml submit_id : string) (since : Z) : call S (string * list string) :=
submit_from FLOWMESH_RETRY_DELAYS_S task_yaml submit_id since.

(** ** Tasks and nodes *)

(** One description: the maps from tasks to nodes and back. *)
Definition map_task (expected : list string) (maps : dict string string * dict string string) (entry : string * reply (dict string val)) :
  result (dict string string * dict string string) :=
let '(task_to_node, node_to_task) := maps in
let '(task_id, answer) := entry in
match answer with
| Raise _ => Err (RuntimeError ("Failed to fetch FlowMesh task description for task_id=" +:+ task_id))
| Return task_desc =>
    match vget "graph_node_name" task_desc with
    | VStr node_name =>
        if negb (bool_decide (node_name ∈ expected)) then
          Err (RuntimeError ("FlowMesh task description missing valid graph_node_name for task_id=" +:+ task_id))
        else match dget node_name node_to_task with
        | Some existing_task =>
            if String.eqb existing_task task_id then
              Ok (dset task_id node_name task_to_node, dset node_name task_id node_to_task)
            else Err (RuntimeError ("Duplicate FlowMesh graph_node_name in task descriptions: node='" +:+ node_name +:+ "'"))
        | None => Ok (dset task_id node_name task_to_node, dset node_name task_id node_to_task)
        end
    | _ => Err (RuntimeError ("FlowMesh task description missing valid graph_node_name for task_id=" +:+ task_id))
    end
end.

Definition task_node_maps (task_ids expected_node_names : list string) (descriptions : list (reply (dict string val))) :
  result (dict string string * dict string string) :=
maps ← foldR (map_task expected_node_names) ([], []) (zip task_ids descriptions);
if (forallb (λ t, dmem t maps.1) task_ids && forallb (λ n, dmem n maps.2) expected_node_names)%bool then Ok maps
else Err (RuntimeError "Task/node map is incomplete.").

(** [asyncio.gather] with [return_exceptions]: every call is made, in some
  order that the calls themselves do not show. *)
Fixpoint gather {A B} (f : A → call S B) (l : list A) : S → list (reply B) * S :=
match l with
| [] => λ s, ([], s)
| x :: l => λ s, let '(r, s) := f x s in let '(rs, s) := gather f l s in (r :: rs, s)
end.

Definition resolve_task_node_maps (task_ids expected_node_names : list string) : call S (dict string string * dict string string) := λ s,
let '(descriptions, s) := gather fetch_task_description task_ids s in
lift (task_node_maps task_ids expected_node_names descriptions) s.

(** [_abort_workflow] *)
Definition abort_workflow (workflow_id : string) : call S () := λ s,
match sv_workflow_cancel fm workflow_id s with
| (Raise (Api _), s) => (Return (), s)
| r => r
end.
End client.
