(* ===== verification/FlowmeshClientProps.v ===== *)
(** * Properties of the FlowMesh calls

    A workflow is submitted at most once however often its submission is
    answered with a gateway error, and the map between accepted tasks and nodes
    is a bijection.  Both are stated for every service that keeps its documented
    promises ([lookup_laws]). *)

From S2P Require Import Prelude PyFloat PyDict PyValue PyString Sensitive FlowmeshClient.

(** ** Reasoning on calls *)

Definition triple {S A} (P : S → Prop) (m : call S A) (Q : reply A → S → Prop) : Prop :=
  ∀ s, P s → Q (m s).1 (m s).2.

(** What holds of the returned value, and the state property [P] in any case. *)
Definition returns {S A} (P : S → Prop) (m : call S A) (Q : A → Prop) : Prop :=
  triple P m (λ r s, P s ∧ ∀ a, r = Return a → Q a).

Lemma returns_bind {S A B} (P : S → Prop) (m : call S A) (f : A → call S B) (Q : A → Prop) (R : B → Prop) :
  returns P m Q → (∀ a, Q a → returns P (f a) R) → returns P (m ≫= f) R.
Proof.
  intros Hm Hf s Hs. specialize (Hm s Hs). unfold mbind, call_bind. destruct (m s) as [[a|e] s'].
  - destruct Hm as [Hs' Ha]. by apply (Hf a (Ha a eq_refl)).
  - split; [apply Hm|done].
Qed.

Lemma returns_ret {S A} (P : S → Prop) (a : A) (Q : A → Prop) : Q a → returns P (mret a) Q.
Proof. intros H s Hs. split; [done|]. by intros ? [= <-]. Qed.

Lemma returns_lift {S A} (P : S → Prop) (r : result A) (Q : A → Prop) : (∀ a, r = Ok a → Q a) → returns P (lift r) Q.
Proof. intros H s Hs. split; [done|]. unfold lift. simpl. destruct r; [|done]. intros ? [= <-]. by apply H. Qed.

Lemma returns_except {S A} (P : S → Prop) f (m : call S A) (Q : A → Prop) : returns P m Q → returns P (except_api f m) Q.
Proof.
  intros H s Hs. specialize (H s Hs). unfold except_api. destruct (m s) as [[a|[e|e|e]] s']; try done. split; [apply H|done].
Qed.

Lemma returns_true {S A} (P : S → Prop) (m : call S A) (Q : A → Prop) : returns P m Q → returns P m (λ _, True).
Proof. intros H s Hs. destruct (H s Hs). done. Qed.

Section retry.
Context {S : Type} (fm : service S).

Lemma returns_retry {A} (P : S → Prop) (m : call S A) (Q : A → Prop) :
(∀ d s, P s → P (sv_sleep fm d s)) → returns P m Q → returns P (retry_transient_read fm m) Q.
Proof.
intros Hsleep Hm. unfold retry_transient_read. generalize FLOWMESH_RETRY_DELAYS_S. intros delays.
induction delays as [|d delays IH]; [done|]. intros s Hs. specialize (Hm s Hs). simpl. destruct (m s) as [[a|f] s']; [done|].
destruct Hm as [Hs' _]. destruct (is_transient f); [apply IH, Hsleep, Hs'|done].
Qed.
End retry.

(** ** The promises of the service

    [created s] are the workflows in the service that carry the submit id. *)
Record lookup_laws {S} (fm : service S) (fromisoformat : string → result Z) (task_yaml submit_id : string) (since : Z)
    (created : S → list Workflow.t) : Prop := {
  sleep_creates_none d s : created (sv_sleep fm d s) = created s;
  list_creates_none s : created (sv_workflow_list fm s).2 = created s;
  retrieve_creates_none t s : created (sv_task_retrieve fm t s).2 = created s;
  (** A submission creates a workflow when it is accepted, and may create one
      when its answer is lost. *)
  submit_accepted s id tasks : (sv_workflow_submit fm task_yaml s).1 = Return (id, tasks) →
    ∃ wf, created (sv_workflow_submit fm task_yaml s).2 = created s ++ [wf] ∧ Workflow.workflow_id wf = id ∧ Workflow.task_ids wf = tasks;
  submit_lost s f : (sv_workflow_submit fm task_yaml s).1 = Raise f →
    created (sv_workflow_submit fm task_yaml s).2 = created s ∨
    ∃ wf, created (sv_workflow_submit fm task_yaml s).2 = created s ++ [wf];
  (** Workflows are listed with their tasks and with a time that is not more
      than the skew before the submission. *)
  created_listed s l wf : (sv_workflow_list fm s).1 = Return l → wf ∈ created s → wf ∈ l;
  created_has_tasks s wf : wf ∈ created s → Workflow.task_ids wf ≠ [];
  created_in_time s wf : wf ∈ created s →
    ∃ at_, fromisoformat (Workflow.submitted_at wf) = Ok at_ ∧ (since - SUBMIT_LOOKUP_SKEW <= at_)%Z;
  (** The first task of a workflow says which submission it belongs to. *)
  described s l wf t tasks desc : (sv_workflow_list fm s).1 = Return l → wf ∈ l → Workflow.task_ids wf = t :: tasks →
    ∀ s', created s' = created s → (sv_task_retrieve fm t s').1 = Return desc →
    (description_submit_id desc = Ok (VStr submit_id) ↔ wf ∈ created s);
}.

Section submit.
Context {S : Type} (fm : service S) (json_loads : string → option val) (json_dumps : val → string).
Context (fromisoformat : string → result Z) (task_yaml submit_id : string) (since : Z) (created : S → list Workflow.t).
Hypothesis laws : lookup_laws fm fromisoformat task_yaml submit_id since created.
Local Abbreviation keeps c := (λ s, created s = c).

Lemma describe_returns c t (Q : dict string val → Prop) :
(∀ s desc, created s = c → (sv_task_retrieve fm t s).1 = Return desc → Q desc) →
returns (keeps c) (fetch_task_description fm json_loads json_dumps t) Q.
Proof.
intros H. apply returns_except, returns_retry; [intros d s; by rewrite (sleep_creates_none _ _ _ _ _ _ laws)|].
intros s Hs. split; [by rewrite (retrieve_creates_none _ _ _ _ _ _ laws)|]. intros desc Hd. by apply (H s).
Qed.

(** A lookup finds the workflow that was created, if there is one. *)
Lemma find_in_spec s0 all l : (sv_workflow_list fm s0).1 = Return all → (∀ wf, wf ∈ l → wf ∈ all) →
returns (keeps (created s0)) (find_in fm json_loads json_dumps fromisoformat submit_id (since - SUBMIT_LOOKUP_SKEW) l)
  (λ r, match r with Some wf => wf ∈ created s0 | None => ∀ wf, wf ∈ l → wf ∉ created s0 end).
Proof.
intros Hall. induction l as [|wf l IH]; intros Hl; [apply returns_ret; set_solver|].
assert (IH' : wf ∉ created s0 → returns (keeps (created s0))
  (find_in fm json_loads json_dumps fromisoformat submit_id (since - SUBMIT_LOOKUP_SKEW) l)
  (λ r, match r with Some wf => wf ∈ created s0 | None => ∀ wf', wf' ∈ wf :: l → wf' ∉ created s0 end)).
{ intros Hwf s Hs. destruct (IH (λ x Hx, Hl x (list_elem_of_further _ _ _ Hx)) s Hs) as [H1 H2]. split; [done|]. intros a Ha.
  specialize (H2 a Ha). destruct a as [x|]; [done|]. intros x [->|Hx]%elem_of_cons; [done|by apply H2]. }
simpl. destruct (Workflow.task_ids wf) as [|t tasks] eqn:Et.
{ apply IH'. intros Hin. by apply (created_has_tasks _ _ _ _ _ _ laws s0 wf). }
apply (returns_bind _ _ _ (λ at_, fromisoformat (Workflow.submitted_at wf) = Ok at_)); [by apply returns_lift|].
intros at_ Ha. destruct (Z.ltb_spec at_ (since - SUBMIT_LOOKUP_SKEW)).
{ apply IH'. intros Hin. destruct (created_in_time _ _ _ _ _ _ laws s0 wf Hin) as (at' & Ha' & ?). rewrite Ha in Ha'. injection Ha' as <-. lia. }
apply (returns_bind _ _ _ (λ desc, description_submit_id desc = Ok (VStr submit_id) ↔ wf ∈ created s0)).
{ apply describe_returns. intros s desc Hs Hd. eapply (described _ _ _ _ _ _ laws s0 all wf t tasks desc); try done. apply Hl. left. }
intros desc Hd. apply (returns_bind _ _ _ (λ id, description_submit_id desc = Ok id)); [by apply returns_lift|].
intros id Hid. rewrite Hid in Hd. case_bool_decide as D.
- apply returns_ret. apply Hd. by rewrite D.
- apply IH'. intros Hin. apply Hd in Hin. congruence.
Qed.

Lemma find_spec c : returns (keeps c) (find_submitted_workflow fm json_loads json_dumps fromisoformat submit_id since)
(λ r, match r with Some wf => wf ∈ c | None => c = [] end).
Proof.
unfold find_submitted_workflow.
apply (returns_bind _ _ _ (λ l, ∃ s0, created s0 = c ∧ (sv_workflow_list fm s0).1 = Return l)).
- apply returns_retry; [intros d s; by rewrite (sleep_creates_none _ _ _ _ _ _ laws)|].
  intros s Hs. split; [by rewrite (list_creates_none _ _ _ _ _ _ laws)|]. intros l Hl. by exists s.
- intros l (s0 & <- & Hl). intros s Hs. destruct (find_in_spec s0 l l Hl (λ _ H, H) s Hs) as [H1 H2]. split; [done|].
  intros [wf|] Ha; specialize (H2 _ Ha); [done|]. destruct (created s0) as [|wf c] eqn:E; [done|]. exfalso.
  apply (H2 wf); [|left]. apply (created_listed _ _ _ _ _ _ laws s0 l wf Hl). rewrite E. left.
Qed.

Lemma submit_once s : created s = [] → 
length (created (sv_workflow_submit fm task_yaml s).2) ≤ 1 ∧
∀ id tasks, (sv_workflow_submit fm task_yaml s).1 = Return (id, tasks) →
  ∃ wf, created (sv_workflow_submit fm task_yaml s).2 = [wf] ∧ Workflow.workflow_id wf = id ∧ Workflow.task_ids wf = tasks.
Proof.
intros Hs. pose proof (submit_accepted _ _ _ _ _ _ laws s) as Ha. pose proof (submit_lost _ _ _ _ _ _ laws s) as Hl. rewrite Hs in *.
destruct (sv_workflow_submit fm task_yaml s) as [[[id tasks]|f] s']; simpl in *.
- destruct (Ha id tasks eq_refl) as (wf & -> & ? & ?). split; [done|]. intros ? ? [= <- <-]. by exists wf.
- split; [|done]. destruct (Hl f eq_refl) as [->|[wf ->]]; simpl; lia.
Qed.

Lemma submit_from_spec delays s : created s = [] →
triple (λ s, created s = []) (submit_from fm json_loads json_dumps fromisoformat delays task_yaml submit_id since)
  (λ r s', length (created s') ≤ 1 ∧ ∀ id tasks, r = Return (id, tasks) →
     ∃ wf, created s' = [wf] ∧ Workflow.workflow_id wf = id ∧ Workflow.task_ids wf = tasks).
Proof.
intros _. induction delays as [|d delays IH]; intros s1 Hs1; [by apply submit_once|].
pose proof (submit_once s1 Hs1) as [H1 H2]. pose proof (submit_lost _ _ _ _ _ _ laws s1) as Hl. rewrite Hs1 in Hl.
simpl. destruct (sv_workflow_submit fm task_yaml s1) as [[r|f] s2]; [done|]. simpl in *.
destruct (is_transient f); [|done]. unfold sleep, mbind, call_bind.
assert (Hc : created (sv_sleep fm d s2) = created s2) by apply (sleep_creates_none _ _ _ _ _ _ laws).
destruct (find_spec (created s2) (sv_sleep fm d s2) Hc) as [H3 H4].
destruct (find_submitted_workflow _ _ _ _ _ _ _) as [[[wf|]|e] s3]; simpl in *; rewrite ?H3; try done.
- split; [done|]. intros id tasks [= <- <-]. specialize (H4 _ eq_refl). simpl in H4. destruct (created s2) as [|x [|y l]]; simpl in *; try lia; [set_solver|].
  apply list_elem_of_singleton in H4 as ->. by exists x.
- apply IH. rewrite H3. by apply (H4 None).
Qed.
End submit.

(** C8: a workflow is created at most once however its submission goes: gateway
    errors are retried, but when the service created a workflow behind a lost
    answer the next lookup adopts it; and the identifiers returned are those of
    the one workflow that exists. *)
Theorem workflow_is_submitted_once {S} (fm : service S) (json_loads : string → option val) (json_dumps : val → string)
    (fromisoformat : string → result Z) (task_yaml submit_id : string) (since : Z) (created : S → list Workflow.t) (s : S)
    (laws : lookup_laws fm fromisoformat task_yaml submit_id since created) (Hs : created s = []) :
  let '(r, s') := submit_workflow fm json_loads json_dumps fromisoformat task_yaml submit_id since s in
  length (created s') ≤ 1 ∧
  ∀ id tasks, r = Return (id, tasks) → ∃ wf, created s' = [wf] ∧ Workflow.workflow_id wf = id ∧ Workflow.task_ids wf = tasks.
Proof.
  unfold submit_workflow.
  pose proof (submit_from_spec fm json_loads json_dumps fromisoformat task_yaml submit_id since created laws FLOWMESH_RETRY_DELAYS_S s Hs s Hs) as H.
  by destruct (submit_from _ _ _ _ _ _ _ _ _).
Qed.

(** A service whose first answer to a submission is lost. *)
Definition demo_workflow : Workflow.t := Workflow.mk "wf-1" ["t-1"] "now".
Definition demo_description : dict string val :=
  [("graph_node_name", VStr "n0");
   ("task", VDict [("metadata", VDict [("annotations", VDict [("custom", VDict [("lumilake_submit_id", VStr "s-1")])])])])].
Definition gateway_error : APIError.t := APIError.mk "unavailable" (Some 503%Z) None None None.
Definition demo_service : service (bool * nat) := Service (bool * nat)
  (λ _ s, s) (λ _ s, (Return ("DONE", None, None), s)) (λ _ s, (Return demo_description, s)) (λ _ s, (Return [], s))
  (λ s, (Return (repeat demo_workflow s.2), s))
  (λ _ s, (if s.1 then Raise (Api gateway_error) else Return ("wf-1", ["t-1"]), (false, S s.2)))
  (λ _ s, (Return (), s)).
Definition demo_created (s : bool * nat) : list Workflow.t := repeat demo_workflow s.2.

Lemma elem_of_repeat {A} (x y : A) n : y ∈ repeat x n → y = x.
Proof. intros H%list_elem_of_In. by apply repeat_spec in H. Qed.

Lemma demo_laws : lookup_laws demo_service (λ _, Ok 0%Z) "" "s-1" 0%Z demo_created.
Proof.
  split; unfold demo_created; simpl; try done.
  - intros [[] n] id tasks; [done|]. intros [= <- <-]. exists demo_workflow. split; [|done]. simpl. by rewrite <-repeat_cons.
  - intros [[] n] f; [|done]. right. exists demo_workflow. simpl. by rewrite <-repeat_cons.
  - intros s l wf [= <-]. done.
  - by intros s wf ->%elem_of_repeat.
  - intros s wf _. exists 0%Z. done.
  - intros s l wf t tasks desc [= <-] Hwf _ s' _ [= <-]. split; [done|]. intros _. reflexivity.
Qed.

Lemma workflow_is_submitted_once_witness :
  demo_created (true, 0) = [] ∧
  let '(r, s') := submit_workflow demo_service (λ _, None) (λ _, "") (λ _, Ok 0%Z) "" "s-1" 0%Z (true, 0) in
  length (demo_created s') ≤ 1 ∧
  ∀ id tasks, r = Return (id, tasks) → ∃ wf, demo_created s' = [wf] ∧ Workflow.workflow_id wf = id ∧ Workflow.task_ids wf = tasks.
Proof.
  split; [reflexivity|].
  exact (workflow_is_submitted_once demo_service (λ _, None) (λ _, "") (λ _, Ok 0%Z) "" "s-1" 0%Z demo_created (true, 0) demo_laws eq_refl).
Defined.

Example lost_answer_is_adopted :
  submit_workflow demo_service (λ _, None) (λ _, "") (λ _, Ok 0%Z) "" "s-1" 0%Z (true, 0) = (Return ("wf-1", ["t-1"]), (false, 1)).
Proof. reflexivity. Qed.

(** ** Tasks and nodes *)

Definition inverse_maps (maps : dict string string * dict string string) : Prop :=
  ∀ t n, dget t maps.1 = Some n ↔ dget n maps.2 = Some t.

Lemma map_task_inv expected maps task_id answer maps' : inverse_maps maps → task_id ∉ dkeys maps.1 →
  map_task expected maps (task_id, answer) = Ok maps' →
  inverse_maps maps' ∧ dkeys maps'.1 = dkeys maps.1 ++ [task_id] ∧
  ∃ n, n ∈ expected ∧ n ∉ dkeys maps.2 ∧ dkeys maps'.2 = dkeys maps.2 ++ [n].
Proof.
  destruct maps as [tn nt]. intros Hinv Hnew H. unfold map_task in H. destruct answer as [desc|]; [|done].
  destruct (vget "graph_node_name" desc) as [| | | |n| | |]; try done.
  case_bool_decide as Hn; [|done]. cbn [negb] in H.
  assert (En : dget n nt = None).
  { destruct (dget n nt) as [t|] eqn:E; [|done]. destruct (String.eqb_spec t task_id) as [->|]; [|done]. exfalso.
    apply Hinv in E. apply Hnew. apply dget_is_Some. by exists n. }
  rewrite En in H. injection H as <-. simpl in *. apply dget_None in En.
  rewrite !dset_new by done. split; [|split; [unfold dkeys; by rewrite fmap_app|]].
  - intros t m. simpl. rewrite <-!dset_new by done. rewrite !dget_dset. specialize (Hinv t m). simpl in Hinv.
    case_decide as D1; case_decide as D2; subst; try done.
    + split; [by intros [= <-]|]. intros E. exfalso. apply Hinv in E. apply Hnew, dget_is_Some. by eexists.
    + split; [|by intros [= <-]]. intros E. exfalso. apply Hinv in E. apply En, dget_is_Some. by eexists.
  - exists n. split; [done|]. split; [done|]. unfold dkeys. by rewrite fmap_app.
Qed.

Lemma map_tasks_inv expected l maps maps' : inverse_maps maps → NoDup (dkeys maps.1 ++ l.*1) → NoDup (dkeys maps.2) →
  foldR (map_task expected) maps l = Ok maps' →
  inverse_maps maps' ∧ dkeys maps'.1 = dkeys maps.1 ++ l.*1 ∧ NoDup (dkeys maps'.2) ∧
  ∃ ns, dkeys maps'.2 = dkeys maps.2 ++ ns ∧ length ns = length l ∧ ∀ n, n ∈ ns → n ∈ expected.
Proof.
  revert maps. induction l as [|[t r] l IH]; intros maps Hinv Hnd Hnd2 H.
  - injection H as <-. split; [done|]. split; [by rewrite app_nil_r|]. split; [done|]. exists []. split; [by rewrite app_nil_r|set_solver].
  - rewrite foldR_cons in H. destruct (map_task expected maps (t, r)) as [maps1|] eqn:E; [|done]. csimpl in Hnd.
    apply map_task_inv in E as (H1 & H2 & n & Hn & Hn2 & H3); [|done|]; cycle 1.
    { apply NoDup_app in Hnd as (_ & Hd & _). intros Hin. apply (Hd t Hin). left. }
    destruct (IH maps1 H1) as (H4 & H5 & H6' & ns & H6 & H7 & H8); [rewrite H2, <-app_assoc; done|rewrite H3; apply NoDup_app; split_and!; [done|set_solver|apply NoDup_singleton]|done|].
    split; [done|]. split; [rewrite H5, H2, <-app_assoc; done|]. split; [done|]. exists (n :: ns). split; [rewrite H6, H3, <-app_assoc; done|].
    split; [by simpl; rewrite H7|]. intros m [->|Hm]%elem_of_cons; [done|by apply H8].
Qed.

(** When the tasks FlowMesh accepted can be matched with the nodes of the
    workflow, the two maps are inverse to each other, every accepted task has a
    node of the workflow and every node has a task: one task per node. *)
Theorem tasks_and_nodes_match (task_ids expected : list string) (descriptions : list (reply (dict string val)))
    (maps : dict string string * dict string string)
    (H : task_node_maps task_ids expected descriptions = Ok maps)
    (Htasks : NoDup task_ids) (Hnames : NoDup expected) (Hlen : length descriptions = length task_ids) :
  (∀ t n, dget t maps.1 = Some n ↔ dget n maps.2 = Some t) ∧ dkeys maps.1 = task_ids ∧
  dkeys maps.2 ≡ₚ expected ∧ length task_ids = length expected.
Proof.
  unfold task_node_maps in H. apply result_bind_ok in H as (maps' & Hf & H).
  destruct (forallb _ task_ids && _)%bool eqn:E; [|done]. injection H as ->. apply andb_true_iff in E as [_ E].
  assert (Ez : (zip task_ids descriptions).*1 = task_ids) by (apply fst_zip; lia).
  destruct (map_tasks_inv expected (zip task_ids descriptions) ([], []) maps) as (H1 & H2 & Hnd & ns & H3 & H4 & H5); [done|by rewrite Ez|apply NoDup_nil_2|done|].
  rewrite Ez in H2. simpl in H2, H3. rewrite length_zip_with, Hlen, Nat.min_id in H4. rewrite H3.
  assert (Hall : ∀ n, n ∈ expected → n ∈ ns).
  { intros n Hn. rewrite forallb_forall in E. rewrite <-H3. apply dmem_true, E. by apply list_elem_of_In. }
  simpl in H3. assert (Hp : ns ≡ₚ expected).
  { apply NoDup_Permutation; [by rewrite <-H3|done|]. intros n. split; [apply H5|apply Hall]. }
  split; [done|]. split; [done|]. split; [done|]. by rewrite <-Hp, H4.
Qed.

Lemma tasks_and_nodes_match_witness :
  let descriptions := [Return [("graph_node_name", VStr "b")]; Return [("graph_node_name", VStr "a")]] in
  ∃ maps, task_node_maps ["t1"; "t2"] ["a"; "b"] descriptions = Ok maps ∧
  (∀ t n, dget t maps.1 = Some n ↔ dget n maps.2 = Some t) ∧ dkeys maps.1 = ["t1"; "t2"] ∧
  dkeys maps.2 ≡ₚ ["a"; "b"] ∧ length ["t1"; "t2"] = length ["a"; "b"].
Proof.
  eexists. split; [vm_compute; reflexivity|].
  apply (tasks_and_nodes_match ["t1"; "t2"] ["a"; "b"] [Return [("graph_node_name", VStr "b")]; Return [("graph_node_name", VStr "a")]]);
    [reflexivity|apply (bool_decide_unpack _); vm_compute; exact I..|reflexivity].
Defined.
