(* ===== verification/PythonStep.v ===== *)
(** * Python steps (runtime/python_step.py)

    A LambdaOp that no LLM consumes runs as a FlowMesh [python] task.  The
    module writes the task's program from templates; here a program is a value
    of [source] ([render], the text of the filled template, is a parameter) and
    the definitions below [run_main] are what the templates do when the task
    runs: [_column] reads one input, [main] combines the columns.

    The result files of the upstream tasks are [inputs], from node to the JSON
    value read.  The caller's function ([materialize(_USER_CODE, _FN_NAME)]),
    [str.format_map], [json.loads] and [json.dumps] are parameters.  The
    messages of the errors the templates raise are cut after their first
    words. *)

From Stdlib Require Import Ascii.
From S2P Require Import Prelude PyFloat PyDict PyValue PyString RuntimeGraph.

Definition BACKEND : string := "python".
Definition DEFAULT_TIMEOUT_SECONDS : Z := 600.

Inductive source :=
  | flatten_source (node_id : string) (plan : list val) (template : val)
  | regroup_source (node_id : string) (plan : list val)
  | wrapper_source (op_id : string) (fn_name user_code : val) (plan : list val) (mode : val).

(** A loop of checks. *)
Definition iterR {A} (f : A → result ()) (l : list A) : result () := foldR (λ _ x, f x) () l.

(** ** Values as Python sees them *)

(** The characters of a text. *)
Definition code_points (s : string) : list string :=
  of_chars <$> foldr (λ c acc, match acc with
                               | [] => [[c]]
                               | p :: l => if match p with d :: _ => starts_char d | [] => true end then [c] :: acc else (c :: p) :: l
                               end) [] (chars s).

(** [list(v)] *)
Definition py_iter (v : val) : result (list val) :=
  match v with
  | VList l => Ok l
  | VTuple l => Ok l
  | VDict d => Ok (VStr <$> dkeys d)
  | VStr s => Ok (VStr <$> code_points s)
  | _ => Err (TypeError "object is not iterable")
  end.

(** [len(v)] *)
Definition py_length (v : val) : result nat :=
  match v with
  | VList l => Ok (length l)
  | VTuple l => Ok (length l)
  | VDict d => Ok (length d)
  | VStr s => Ok (length (code_points s))
  | _ => Err (TypeError "object has no len()")
  end.

(** [v[j]] for a non-negative index *)
Definition py_nth (v : val) (j : nat) : result val :=
  match v with
  | VList l => ok_or (IndexError "list index out of range") (l !! j)
  | VTuple l => ok_or (IndexError "tuple index out of range") (l !! j)
  | VStr s => ok_or (IndexError "string index out of range") (VStr <$> code_points s !! j)
  | VDict _ => Err (KeyError "")
  | _ => Err (TypeError "object is not subscriptable")
  end.

(** [int(text)]: an optional sign and digits, single underscores between
    them, spaces around. *)
Definition py_int (s : string) : option Z :=
  let digits l :=
    let parts := split_chars "_"%char l in
    if forallb isdigit parts then Some (digits_value (concat parts)) else None in
  match chars (strip s) with
  | c :: l => if (ascii_code c =? 45)%N then Z.opp <$> digits l
              else if (ascii_code c =? 43)%N then digits l else digits (c :: l)
  | [] => None
  end.

(** ** The task spec *)

Section spec.
Context (render : source → string) (to_str : val → string).

Definition plan_entries (v : val) : result (list val) := py_iter v.

(** [dict.fromkeys(entry["node"] for entry in plan if entry["kind"] == "stage")] *)
Definition add_stage (stages : list val) (entry : val) : result (list val) :=
kind ← vindex "kind" entry;
if bool_decide (kind = VStr "stage") then
  node ← vindex "node" entry;
  Ok (if bool_decide (node ∈ stages) then stages else stages ++ [node])
else Ok stages.
Definition plan_stages (plan : list val) : result (list val) := foldR add_stage [] plan.

Definition step_source (node_id : string) (data_spec : dict string val) (plan : list val) : result source :=
let mode := dget_or (VStr "row") "mode" data_spec in
if bool_decide (mode = VStr "flatten") then
  template ← dindex (KeyError "template") "template" data_spec; Ok (flatten_source node_id plan template)
else if bool_decide (mode = VStr "regroup") then Ok (regroup_source node_id plan)
else
  fn_name ← dindex (KeyError "fn_name") "fn_name" data_spec;
  code ← dindex (KeyError "code") "code" data_spec;
  Ok (wrapper_source node_id fn_name code plan mode).

Definition flowmesh_spec (node_id : string) (data_spec : dict string val) : result (dict string val) :=
plan_val ← dindex (KeyError "plan") "plan" data_spec;
plan ← plan_entries plan_val;
code ← step_source node_id data_spec plan;
timeout ← dindex (KeyError "timeout_s") "timeout_s" data_spec;
let spec := [("taskType", VStr PYTHON_TASK_TYPE); ("code", VStr (render code)); ("entrypoint", VStr "main"); ("timeoutSeconds", timeout)] in
let spec := if truthy (vget "image" data_spec) then dset "image" (vget "image" data_spec) spec else spec in
let spec := if is_none (vget "cache" data_spec) then spec else dset "cache" (vget "cache" data_spec) spec in
stages ← plan_stages plan;
let spec := match stages with [] => spec | _ => dset "inputs" (VList ((λ stage, VDict [("stage", stage)]) <$> stages)) spec end in
Ok (match dget "memory_mb" data_spec with
    | Some memory_mb => dset "resources" (VDict [("hardware", VDict [("memory", VStr (to_str memory_mb +:+ "Mi"))])]) spec
    | None => spec
    end).
End spec.

(** ** Reading the columns *)

Section run.
Context (json_loads : string → option val) (json_dumps : val → string).
Context (format_map : string → dict val string → result string).

(** [_text] *)
Definition py_text (value : val) : string := match value with VStr s => s | v => json_dumps v end.

(** A serialized table: a dict with the one key [df], which holds a text. *)
Definition df_table (value : val) : option string :=
match value with
| VDict [(key, VStr s)] => if String.eqb key "df" then Some s else None
| _ => None
end.

(** [table[part]] after the membership test *)
Definition table_column (table : val) (part : string) : result (dict string val) :=
match table with
| VDict t =>
    match dget part t with
    | Some (VDict column) => Ok column
    | _ => Err (ValueError "missing")
    end
| VList l => Err (if bool_decide (VStr part ∈ l) then TypeError "indices must be integers" else ValueError "missing")
| VStr s => Err (if contains part s then TypeError "indices must be integers" else ValueError "missing")
| _ => Err (TypeError "argument is not iterable")
end.

(** [[column[k] for k in sorted(column, key=int)]] *)
Definition column_values (column : dict string val) : result (list val) :=
keyed ← mapR (λ kv : string * val, n ← ok_or (ValueError "invalid literal for int()") (py_int kv.1); Ok (n, kv.2)) column;
Ok (sorted_by Z.ltb fst keyed).*2.

Fixpoint walk_path (parts : list string) (value : val) : result val :=
match parts with
| [] => Ok value
| part :: rest =>
    value ← match value with
            | VStr s => ok_or (ValueError "bad JSON") (json_loads s)
            | _ => Ok value
            end;
    match df_table value with
    | Some s =>
        table ← ok_or (ValueError "bad JSON") (json_loads s);
        column ← table_column table part;
        values ← column_values column;
        match rest with
        | [] => Ok (VList values)
        | _ => walked ← mapR (walk_path rest) values; Ok (VList walked)
        end
    | None =>
        match value with
        | VDict d => match dget part d with Some v => walk_path rest v | None => Err (ValueError "missing") end
        | _ => Err (ValueError "missing")
        end
    end
end.

(** [_row_content] *)
Definition row_content (row : val) : result val :=
let content :=
  json ← vindex "json" row;
  choices ← vindex "choices" json;
  choice ← py_nth choices 0;
  message ← vindex "message" choice;
  vindex "content" message in
match content with
| Ok v => Ok v
| Err _ => match row with VDict d => Ok (dget_or row "text" d) | _ => Err (AttributeError "get") end
end.

(** [i["output"] if isinstance(i, dict) and "output" in i else i] *)
Definition item_output (i : val) : val :=
match i with VDict d => match dget "output" d with Some v => v | None => i end | _ => i end.

(** The items of an upstream result file. *)
Definition envelope_items (node : string) (envelope : val) : result (list val) :=
match envelope with
| VDict e =>
    match dget_or envelope "result" e with
    | VDict result =>
        let items := vget "items" result in
        let items := if is_none items then match vget "value" result with VDict value => vget "items" value | _ => items end else items in
        let items := if is_none items then match vget "text" result with VStr t => VList [VDict [("output", VStr t)]] | _ => items end else items in
        match items with
        | VList items => Ok items
        | _ => Err (ValueError ("upstream '" +:+ node +:+ "' produced no items"))
        end
    | _ => Err (AttributeError "get")
    end
| _ => Err (AttributeError "get")
end.

(** One item of a rowwise upstream. *)
Definition flatten_item (text : val → val) (flat : list val) (i : val) : result (list val) :=
match i with
| VDict d =>
    match dget "rows" d with
    | Some rows => rows ← py_iter rows; contents ← mapR row_content rows; Ok (flat ++ (text <$> contents))
    | None => Ok (flat ++ match item_output i with VList out => text <$> out | out => [text out] end)
    end
| VList out => Ok (flat ++ (text <$> out))
| _ => Ok (flat ++ [text i])
end.

Definition column (text : val → val) (inputs : dict string val) (entry : val) : result (list val) :=
kind ← vindex "kind" entry;
if bool_decide (kind = VStr "literal") then
  values ← vindex "values" entry; values ← py_iter values; Ok (map text values)
else
  node ← vindex "node" entry;
  node ← match node with VStr node => Ok node | _ => Err (KeyError "") end;
  envelope ← dindex (KeyError node) node inputs;
  items ← envelope_items node envelope;
  path ← vget_attr "path" entry;
  flatten ← vget_attr "flatten" entry;
  if truthy path then
    match path with
    | VStr path => mapR (walk_path (py_split "."%char path)) items
    | _ => Err (AttributeError "split")
    end
  else if truthy flatten then foldR (flatten_item text) [] items
  else Ok (map (λ i, text (item_output i)) items).

Definition as_text (v : val) : val := VStr (py_text v).

(** ** The mains *)

Definition items_result (items : list val) : val := VDict [("items", VList items)].

Definition is_grouped (entry : val) : result bool := grouped ← vget_attr "grouped" entry; Ok (truthy grouped).

(** One column checked against the groups of the first grouped one. *)
Definition check_column (n : nat) (group_sizes : list nat) (entry_col : val * list val) : result () :=
is_grouped entry_col.1 ≫= λ grouped : bool,
if grouped then
  if negb (Nat.eqb (length entry_col.2) n) then Err (ValueError "flatten grouped column")
  else
    iterR (λ gs : val * nat, size ← py_length gs.1;
             if Nat.eqb size gs.2 then Ok () else Err (ValueError "flatten grouped column")) (zip entry_col.2 group_sizes)
else if (Nat.eqb (length entry_col.2) 1 || Nat.eqb (length entry_col.2) n)%bool then Ok ()
else Err (ValueError "flatten row-level column").

(** [values[label]] for one column of row [i], group member [j] *)
Definition flatten_value (n i j : nat) (values : dict val string) (entry_col : val * list val) : result (dict val string) :=
label ← vget_attr "label" entry_col.1;
is_grouped entry_col.1 ≫= λ grouped : bool,
v ← (if grouped then group ← py_nth (VList entry_col.2) i; py_nth group j
     else if Nat.eqb (length entry_col.2) n then py_nth (VList entry_col.2) i else py_nth (VList entry_col.2) 0);
Ok (dset label (py_text v) values).

Definition flatten_item_at (template : string) (n : nat) (columns : list (val * list val)) (i j : nat) : result val :=
values ← foldR (flatten_value n i j) [] (tail columns);
prompt ← format_map template values;
Ok (VDict [("output", VStr prompt); ("row", VInt (Z.of_nat i))]).

Definition flatten_main (plan : list val) (template : string) (inputs : dict string val) : result val :=
columns ← mapR (column as_text inputs) plan;
let entries := zip plan columns in
grouped ← foldR (λ l ec, is_grouped ec.1 ≫= λ g : bool, Ok (if g then l ++ [ec.2] else l)) [] entries;
first ← ok_or (IndexError "list index out of range") (head grouped);
let n := length first in
group_sizes ← mapR py_length first;
_ ← iterR (check_column n group_sizes) entries;
items ← mapR (λ isz : nat * nat, mapR (flatten_item_at template n entries isz.1) (seq 0 isz.2)) (zip (seq 0 n) group_sizes);
Ok (items_result (concat items)).

(** [result[row].append(value)] *)
Definition regroup_value (n : nat) (groups : list (list val)) (value_row : val * val) : result (list (list val)) :=
match as_int value_row.2 with
| None => Err (ValueError "regroup row is not an integer")
| Some row =>
    if ((0 <=? row) && (row <? Z.of_nat n))%Z then Ok (alter (λ group, group ++ [value_row.1]) (Z.to_nat row) groups)
    else Err (ValueError "regroup row out of range")
end.

Definition regroup_columns (values rows groups : list val) : result val :=
let n := length groups in
if negb (Nat.eqb (length values) (length rows)) then Err (ValueError "regroup outputs and rows")
else
  regrouped ← foldR (regroup_value n) (replicate n []) (zip values rows);
  _ ← iterR (λ gr : val * list val, size ← py_length gr.1;
               if Nat.eqb (length gr.2) size then Ok () else Err (ValueError "regroup row outputs")) (zip groups regrouped);
  Ok (items_result ((λ group, VDict [("output", VList group)]) <$> regrouped)).

Definition regroup_main (plan : list val) (inputs : dict string val) : result val :=
columns ← mapR (column as_text inputs) plan;
match columns with
| values :: rows :: groups :: _ => regroup_columns values rows groups
| _ => Err (IndexError "list index out of range")
end.

(** [max((len(c) for c in columns), default=default)] *)
Definition max_length (default : nat) (columns : list (list val)) : nat :=
match columns with
| [] => default
| c :: columns => foldl Nat.max (length c) (length <$> columns)
end.

Definition check_lengths (n : nat) (columns : list (list val)) : result () :=
if forallb (λ c, Nat.eqb (length c) 1 || Nat.eqb (length c) n)%bool columns then Ok ()
else Err (ValueError "input rows").

(** [c[0] if len(c) == 1 else c[i]] *)
Definition broadcast (c : list val) (i : nat) : result val := py_nth (VList c) (if Nat.eqb (length c) 1 then 0 else i).

Definition row_main (fn : list val → result val) (plan : list val) (inputs : dict string val) : result val :=
columns ← mapR (column as_text inputs) plan;
let n := max_length 1 columns in
_ ← check_lengths n columns;
rows ← mapR (λ i, mapR (λ c, broadcast c i) columns) (seq 0 n);
results ← mapR fn rows;
Ok (items_result ((λ r, VDict [("output", as_text r); ("value", r)]) <$> results)).

Definition list_main (fn : list val → result val) (plan : list val) (inputs : dict string val) : result val :=
columns ← mapR (column id inputs) plan;
values ← fn (VList <$> columns);
values ← py_iter values;
Ok (items_result ((λ v, VDict [("output", v)]) <$> values)).

Definition aligned_main (fn : list val → result val) (plan : list val) (inputs : dict string val) : result val :=
columns ← mapR (column id inputs) plan;
let n := max_length 0 columns in
_ ← check_lengths n columns;
values ← fn (VList <$> columns);
size ← py_length values;
if negb (Nat.eqb size n) then Err (ValueError "aligned lambda")
else values ← py_iter values; Ok (items_result ((λ v, VDict [("output", v)]) <$> values)).

(** What the program does; [fn_of] is the caller's function. *)
Definition run_main (fn_of : val → val → list val → result val) (program : source) (inputs : dict string val) : result val :=
match program with
| flatten_source _ plan template => match template with VStr t => flatten_main plan t inputs | _ => Err (AttributeError "format_map") end
| regroup_source _ plan => regroup_main plan inputs
| wrapper_source _ fn_name code plan mode =>
    let fn := fn_of code fn_name in
    if bool_decide (mode = VStr "list") then list_main fn plan inputs
    else if bool_decide (mode = VStr "aligned") then aligned_main fn plan inputs
    else row_main fn plan inputs
end.
End run.

(** ** The steps of a flattened per-row VLM (runtime/runtime_graph.py) *)

(** The plan of the regroup step: the outputs of the inference, the rows the
    flatten step wrote, and the groups of the image column. *)
Definition regroup_plan (infer_id flatten_id : string) (image_entry : dict string val) : list val :=
  [VDict [("kind", VStr "stage"); ("node", VStr infer_id); ("label", VStr "outputs")];
   VDict [("kind", VStr "stage"); ("node", VStr flatten_id); ("path", VStr "row"); ("label", VStr "rows")];
   VDict (dset "label" (VStr "groups") image_entry)].

Definition image_entry (node path label : string) : dict string val :=
  [("kind", VStr "stage"); ("node", VStr node); ("path", VStr path); ("label", VStr label); ("grouped", VBool true)].

Example code_points_ex : code_points "ab" = ["a"; "b"]. Proof. reflexivity. Qed.
Example py_int_ex : py_int " -1_0 " = Some (-10)%Z. Proof. reflexivity. Qed.
