(* ===== verification/PythonStepProps.v ===== *)
(** * Properties of the Python steps

    The regroup step of a per-row VLM puts the outputs of the flattened prompts
    back into the groups they came from, and a row step applies the caller's
    function to every row, whatever the columns. *)

From Stdlib Require Import Ascii.
From S2P Require Import Prelude PyFloat PyDict PyValue PyString RuntimeGraph PythonStep.

Lemma iterR_ok {A} (f : A → result ()) l : iterR f l = Ok () ↔ Forall (λ x, f x = Ok ()) l.
Proof.
  unfold iterR. induction l as [|x l IH]; simpl; [by split|]. rewrite Forall_cons. destruct (f x) as [[]|e] eqn:E; simpl.
  - rewrite IH. naive_solver.
  - split; [done|]. by intros [? _].
Qed.

(** ** Regrouping *)

Section regroup.
Context (n : nat).

Lemma alter_middle {A} (f : A → A) (l1 l2 : list A) x : alter f (length l1) (l1 ++ x :: l2) = l1 ++ f x :: l2.
Proof. rewrite <-(Nat.add_0_r (length l1)), alter_app_r. done. Qed.

(** The values of one group. *)
Lemma regroup_one (done_ rest : list (list val)) g vs : length done_ < n →
foldR (regroup_value n) (done_ ++ g :: rest) (zip vs (replicate (length vs) (VInt (Z.of_nat (length done_))))) =
Ok (done_ ++ (g ++ vs) :: rest).
Proof.
intros Hn. revert g. induction vs as [|v vs IH]; intros g; [by rewrite app_nil_r|]. simpl replicate. simpl zip. rewrite foldR_cons.
unfold regroup_value at 1. cbn [fst snd as_int].
assert ((0 <=? Z.of_nat (length done_))%Z && (Z.of_nat (length done_) <? Z.of_nat n)%Z = true)%bool as ->.
{ apply andb_true_iff. split; [apply Z.leb_le|apply Z.ltb_lt]; lia. }
rewrite Nat2Z.id, alter_middle, IH. by rewrite <-app_assoc.
Qed.

(** The rows the flatten step writes for groups of the given sizes. *)
Definition rows_from (k : nat) (sizes : list nat) : list val :=
concat (imap (λ i size, replicate size (VInt (Z.of_nat (k + i)))) sizes).

Lemma rows_from_cons k size sizes : rows_from k (size :: sizes) = replicate size (VInt (Z.of_nat k)) ++ rows_from (S k) sizes.
Proof.
unfold rows_from. simpl. rewrite Nat.add_0_r. do 2 f_equal. apply imap_ext. intros i x _. simpl. by rewrite Nat.add_succ_r.
Qed.

Lemma regroup_all (done_ : list (list val)) sizes values : length done_ + length sizes = n → length values = sum_list sizes →
∃ segs, foldR (regroup_value n) (done_ ++ replicate (length sizes) []) (zip values (rows_from (length done_) sizes)) = Ok (done_ ++ segs) ∧
  concat segs = values ∧ length <$> segs = sizes.
Proof.
revert done_ values. induction sizes as [|size sizes IH]; intros done_ values Hn Hlen.
- exists []. destruct values; [done|simpl in Hlen; lia].
- simpl in Hlen, Hn. destruct (IH (done_ ++ [take size values]) (drop size values)) as (segs & E & Hc & Hs).
  { rewrite length_app. simpl. lia. }
  { rewrite length_drop. lia. }
  exists (take size values :: segs). rewrite rows_from_cons. rewrite <-(take_drop size values) at 1.
  rewrite zip_with_app by (rewrite length_take, length_replicate; lia). rewrite foldR_app.
  replace (replicate size (VInt (Z.of_nat (length done_)))) with
    (replicate (length (take size values)) (VInt (Z.of_nat (length done_)))) by (rewrite length_take; f_equal; lia).
  simpl replicate at 1. rewrite regroup_one by lia. cbn [mbind result_bind app].
  rewrite length_app in E. simpl in E. rewrite Nat.add_1_r, <-!app_assoc in E. simpl in E. split; [done|]. csimpl.
  rewrite Hc, Hs, take_drop, length_take. split; [done|]. f_equal. lia.
Qed.
End regroup.

Lemma regroup_columns_ok values rows groups sizes : mapR py_length groups = Ok sizes →
  rows = rows_from 0 sizes → length values = length rows →
  ∃ segs, regroup_columns values rows groups = Ok (items_result ((λ seg, VDict [("output", VList seg)]) <$> segs)) ∧
    concat segs = values ∧ Forall2 (λ seg g, py_length g = Ok (length seg)) segs groups.
Proof.
  intros Hsizes -> Hlen. apply mapR_ok_inv in Hsizes. pose proof (Forall2_length _ _ _ Hsizes) as Hgs.
  assert (Hrows : length (rows_from 0 sizes) = sum_list sizes).
  { clear. generalize 0. induction sizes as [|s sizes IH]; intros k; [done|].
    rewrite rows_from_cons, length_app, length_replicate, IH. done. }
  destruct (regroup_all (length groups) [] sizes values) as (segs & E & Hc & Hs); [simpl; lia|lia|]. simpl in E.
  exists segs. unfold regroup_columns. rewrite Hlen, Nat.eqb_refl. cbn [negb]. rewrite Hgs in E |- *. rewrite E. cbn [mbind result_bind].
  assert (Hf : Forall2 (λ seg g, py_length g = Ok (length seg)) segs groups).
  { apply Forall2_same_length_lookup_2; [rewrite Hgs, <-Hs; by rewrite length_fmap|].
    intros i seg g Hseg Hg. destruct (Forall2_lookup_l _ _ _ i g Hsizes Hg) as (size & Hsize & ->).
    rewrite <-Hs, list_lookup_fmap, Hseg in Hsize. by injection Hsize as <-. }
  assert (iterR (λ gr : val * list val, size ← py_length gr.1;
     if Nat.eqb (length gr.2) size then Ok () else Err (ValueError "regroup row outputs")) (zip groups segs) = Ok ()) as ->.
  { apply iterR_ok. clear -Hf. induction Hf as [|seg g segs groups H _ IH]; constructor; [|done]. simpl. rewrite H. simpl. by rewrite Nat.eqb_refl. }
  done.
Qed.

(** ** The flatten step *)

Section steps.
Context (json_loads : string → option val) (json_dumps : val → string).
Context (format_map : string → dict val string → result string).
Local Abbreviation column_of := (column json_loads (as_text json_dumps)).

(** What the flatten step writes for one row. *)
Definition row_item (i : nat) (item : val) : Prop :=
∃ prompt, item = VDict [("output", VStr prompt); ("row", VInt (Z.of_nat i))].

Lemma flatten_items template n entries isz l : mapR (λ isz : nat * nat,
  mapR (flatten_item_at json_dumps format_map template n entries isz.1) (seq 0 isz.2)) isz = Ok l →
Forall2 (λ (isz : nat * nat) items, length items = isz.2 ∧ Forall (row_item isz.1) items) isz l.
Proof.
intros H. apply mapR_ok_inv in H. eapply Forall2_impl; [exact H|]. intros [i size] items Hi. simpl in *.
apply mapR_ok_inv in Hi. split; [by rewrite <-(Forall2_length _ _ _ Hi), length_seq|].
apply Forall_forall. intros item Hitem. apply list_elem_of_lookup in Hitem as [j Hj].
destruct (Forall2_lookup_r _ _ _ j item Hi Hj) as (j' & _ & E). unfold flatten_item_at in E. inv_ok. by eexists.
Qed.

Lemma rows_of_items k sizes l :
Forall2 (λ (isz : nat * nat) items, length items = isz.2 ∧ Forall (row_item isz.1) items) (zip (seq k (length sizes)) sizes) l →
mapR (walk_path json_loads ["row"]) (concat l) = Ok (rows_from k sizes).
Proof.
revert k l. induction sizes as [|size sizes IH]; intros k l H.
- by apply Forall2_nil_inv_l in H as ->.
- simpl in H. apply Forall2_cons_inv_l in H as (items & l' & [Hlen Hall] & H & ->). rewrite rows_from_cons. simpl in Hlen, Hall.
  simpl concat. rewrite mapR_app, (IH _ _ H), (mapR_const _ (VInt (Z.of_nat k))).
  + by rewrite Hlen.
  + eapply Forall_impl; [exact Hall|]. by intros item [prompt ->].
Qed.

Lemma flatten_main_inv image columns template inputs v : is_grouped image = Ok true →
flatten_main json_loads json_dumps format_map (image :: columns) template inputs = Ok v →
∃ groups sizes items, column_of inputs image = Ok groups ∧ mapR py_length groups = Ok sizes ∧ v = items_result items ∧
  mapR (walk_path json_loads ["row"]) items = Ok (rows_from 0 sizes) ∧ length items = length (rows_from 0 sizes).
Proof.
intros Hg H. unfold flatten_main in H. apply result_bind_ok in H as (cols & Hcols & H). simpl in Hcols.
apply result_bind_ok in Hcols as (groups & Hgroups & Hcols). apply result_bind_ok in Hcols as (others & _ & [= <-]).
simpl zip in H. apply result_bind_ok in H as (grouped & Hgr & H). rewrite foldR_cons in Hgr. cbn [fst snd] in Hgr. rewrite Hg in Hgr.
cbn [mbind result_bind] in Hgr. assert (Hhead : head grouped = Some groups).
{ assert (G : ∀ l acc res, foldR (λ l ec, is_grouped ec.1 ≫= λ g : bool, Ok (if g then l ++ [ec.2] else l)) (groups :: acc) l = Ok res →
    head res = Some groups).
  { induction l as [|ec l IH]; intros acc res Hl; [by injection Hl as <-|]. rewrite foldR_cons in Hl.
    destruct (is_grouped ec.1) as [[]|]; [| |done]; cbn [mbind result_bind] in Hl; by apply IH in Hl. }
  by apply G in Hgr. }
rewrite Hhead in H. cbn [ok_or mbind result_bind] in H. apply result_bind_ok in H as (sizes & Hsizes & H).
apply result_bind_ok in H as ([] & _ & H). apply result_bind_ok in H as (l & Hl & [= <-]). apply flatten_items in Hl.
pose proof (mapR_ok_inv _ _ _ Hsizes) as Hs. apply Forall2_length in Hs. rewrite Hs in Hl.
pose proof (rows_of_items 0 sizes l Hl) as Hrows. exists groups, sizes, (concat l). split_and!; try done.
apply mapR_ok_inv, Forall2_length in Hrows. done.
Qed.

(** ** Columns *)

Lemma output_column outs : map (λ i, as_text json_dumps (item_output i)) ((λ o, VDict [("output", VStr o)]) <$> outs) = VStr <$> outs.
Proof. induction outs as [|o outs IH]; [done|]. csimpl. by rewrite IH. Qed.

Lemma column_stage inputs d node envelope : dget "kind" d = Some (VStr "stage") → dget "node" d = Some (VStr node) →
dget node inputs = Some envelope →
column_of inputs (VDict d) = (items ← envelope_items node envelope;
  if truthy (vget "path" d) then
    match vget "path" d with
    | VStr path => mapR (walk_path json_loads (py_split "."%char path)) items
    | _ => Err (AttributeError "split")
    end
  else if truthy (vget "flatten" d) then foldR (flatten_item (as_text json_dumps)) [] items
  else Ok (map (λ i, as_text json_dumps (item_output i)) items)).
Proof.
intros H1 H2 H3. unfold column, vindex, vget_attr, dindex. rewrite H1. cbn [ok_or mbind result_bind].
rewrite bool_decide_false by done. rewrite H2. cbn [ok_or mbind result_bind]. rewrite H3. done.
Qed.

Lemma infer_column inputs infer_id outs :
dget infer_id inputs = Some (VDict [("result", VDict [("items", VList ((λ o, VDict [("output", VStr o)]) <$> outs))])]) →
column_of inputs (VDict [("kind", VStr "stage"); ("node", VStr infer_id); ("label", VStr "outputs")]) = Ok (VStr <$> outs).
Proof.
intros H. rewrite (column_stage inputs _ infer_id _) by (reflexivity || exact H).
change (Ok (map (λ i, as_text json_dumps (item_output i)) ((λ o, VDict [("output", VStr o)]) <$> outs)) = Ok (VStr <$> outs)).
by rewrite output_column.
Qed.

Lemma row_column inputs flatten_id items rows :
dget flatten_id inputs = Some (VDict [("result", VDict [("value", items_result items)])]) →
mapR (walk_path json_loads ["row"]) items = Ok rows →
column_of inputs (VDict [("kind", VStr "stage"); ("node", VStr flatten_id); ("path", VStr "row"); ("label", VStr "rows")]) = Ok rows.
Proof. intros H Hrows. rewrite (column_stage inputs _ flatten_id _) by (reflexivity || exact H). exact Hrows. Qed.

Lemma column_same inputs inputs' d d' node : dget node inputs' = dget node inputs →
dget "kind" d = Some (VStr "stage") → dget "node" d = Some (VStr node) → dget "kind" d' = Some (VStr "stage") → dget "node" d' = Some (VStr node) →
vget "path" d' = vget "path" d → vget "flatten" d' = vget "flatten" d →
column_of inputs' (VDict d') = column_of inputs (VDict d).
Proof.
intros H H1 H2 H3 H4 H5 H6. destruct (dget node inputs) as [envelope|] eqn:E.
- by rewrite (column_stage inputs d node envelope), (column_stage inputs' d' node envelope), H5, H6.
- unfold column, vindex, dindex. rewrite H1, H2, H3, H4. cbn [ok_or mbind result_bind]. rewrite bool_decide_false by done.
  cbn [ok_or mbind result_bind]. by rewrite H, E.
Qed.
End steps.

(** C11: the regroup step undoes the flatten step.  Whatever the groups of the
    image column, when the flatten step produced its prompts and the inference
    answered every one of them, regrouping succeeds, the groups follow one
    another as the outputs came, and each has as many outputs as the group of
    the image column has images. *)
Theorem regroup_undoes_flatten (json_loads : string → option val) (json_dumps : val → string)
    (format_map : string → dict val string → result string) (node path label infer_id flatten_id template : string)
    (columns items : list val) (outs : list string) (inputs inputs' : dict string val)
    (Hflat : flatten_main json_loads json_dumps format_map (VDict (image_entry node path label) :: columns) template inputs = Ok (items_result items))
    (Houts : length outs = length items) (Hnode : dget node inputs' = dget node inputs)
    (Hitems : dget flatten_id inputs' = Some (VDict [("result", VDict [("value", items_result items)])]))
    (Hinfer : dget infer_id inputs' = Some (VDict [("result", VDict [("items", VList ((λ o, VDict [("output", VStr o)]) <$> outs))])])) :
  ∃ groups segs, column json_loads (as_text json_dumps) inputs (VDict (image_entry node path label)) = Ok groups ∧
    regroup_main json_loads json_dumps (regroup_plan infer_id flatten_id (image_entry node path label)) inputs' =
      Ok (items_result ((λ seg, VDict [("output", VList seg)]) <$> segs)) ∧
    concat segs = VStr <$> outs ∧ Forall2 (λ seg g, py_length g = Ok (length seg)) segs groups.
Proof.
  destruct (flatten_main_inv json_loads json_dumps format_map (VDict (image_entry node path label)) columns template inputs _ eq_refl Hflat)
    as (groups & sizes & items' & Hg & Hs & [= <-] & Hrows & Hlen).
  exists groups.
  destruct (regroup_columns_ok (VStr <$> outs) (rows_from 0 sizes) groups sizes Hs eq_refl) as (segs & E & Hc & Hf).
  { rewrite length_fmap. lia. }
  exists segs. split; [done|]. split; [|done]. unfold regroup_main, regroup_plan. cbn [mapR].
  rewrite (infer_column _ _ _ _ outs Hinfer). rewrite (row_column _ _ _ _ items _ Hitems Hrows).
  rewrite (column_same _ _ inputs inputs' (image_entry node path label) _ node Hnode) by done. rewrite Hg. exact E.
Qed.

Lemma regroup_undoes_flatten_witness :
  let image := VDict [("result", VDict [("items", VList [VDict [("imgs", VList [VStr "a"; VStr "b"])]; VDict [("imgs", VList [])]; VDict [("imgs", VList [VStr "c"])]])])] in
  let inputs := [("src", image)] in
  let items := [VDict [("output", VStr "p"); ("row", VInt 0)]; VDict [("output", VStr "p"); ("row", VInt 0)]; VDict [("output", VStr "p"); ("row", VInt 2)]] in
  let inputs' := [("src", image); ("flat", VDict [("result", VDict [("value", items_result items)])]);
                  ("infer", VDict [("result", VDict [("items", VList ((λ o, VDict [("output", VStr o)]) <$> ["x"; "y"; "z"]))])])] in
  flatten_main (λ _, None) (λ _, "") (λ t _, Ok t) (VDict (image_entry "src" "imgs" "image") :: []) "p" inputs = Ok (items_result items) ∧
  ∃ groups segs, column (λ _, None) (as_text (λ _, "")) inputs (VDict (image_entry "src" "imgs" "image")) = Ok groups ∧
    regroup_main (λ _, None) (λ _, "") (regroup_plan "infer" "flat" (image_entry "src" "imgs" "image")) inputs' =
      Ok (items_result ((λ seg, VDict [("output", VList seg)]) <$> segs)) ∧
    concat segs = VStr <$> ["x"; "y"; "z"] ∧ Forall2 (λ seg g, py_length g = Ok (length seg)) segs groups.
Proof.
  cbv zeta. split; [vm_compute; reflexivity|].
  eapply (regroup_undoes_flatten (λ _, None) (λ _, "") (λ t _, Ok t) "src" "imgs" "image" "infer" "flat" "p" []);
    vm_compute; reflexivity.
Defined.

(** ** Row steps *)

(** The row the caller's function gets for index [i]. *)
Definition row_at (columns : list (list val)) (i : nat) (row : list val) : Prop :=
  Forall2 (λ c x, c !! (if Nat.eqb (length c) 1 then 0 else i) = Some x) columns row.

Lemma max_length_ge d columns c : c ∈ columns → length c ≤ max_length d columns.
Proof.
  destruct columns as [|c0 columns]; [set_solver|]. simpl.
  assert (G : ∀ l m, m ≤ foldl Nat.max m l ∧ ∀ x, x ∈ l → x ≤ foldl Nat.max m l).
  { induction l as [|y l IH]; intros m; simpl; [split; [lia|set_solver]|]. destruct (IH (Nat.max m y)) as [H1 H2].
    split; [lia|]. intros x [->|Hx]%elem_of_cons; [lia|by apply H2]. }
  destruct (G (length <$> columns) (length c0)) as [H1 H2]. intros [->|Hc]%elem_of_cons; [done|].
  apply H2, list_elem_of_fmap. by exists c.
Qed.

Lemma broadcast_row columns n i : i < n → check_lengths n columns = Ok () →
  ∃ row, mapR (λ c, broadcast c i) columns = Ok row ∧ row_at columns i row.
Proof.
  unfold check_lengths. intros Hi. destruct (forallb _ columns) eqn:E; [|done]. intros _. rewrite forallb_forall in E.
  unfold row_at. induction columns as [|c columns IH]; [by exists []|].
  destruct IH as (row & Hr & Hf); [intros x Hx; apply E; by right|]. specialize (E c (or_introl eq_refl)).
  assert (Hc : is_Some (c !! (if Nat.eqb (length c) 1 then 0 else i))).
  { apply lookup_lt_is_Some. apply orb_true_iff in E as [E|E]; [rewrite E; apply Nat.eqb_eq in E; lia|].
    apply Nat.eqb_eq in E. destruct (Nat.eqb_spec (length c) 1); lia. }
  destruct Hc as [x Hx]. exists (x :: row). simpl.
  assert (Hb : broadcast c i = Ok x) by (unfold broadcast, py_nth; by rewrite Hx). rewrite Hb. simpl. rewrite Hr. split; [done|by constructor].
Qed.

Lemma broadcast_row_at columns i row : mapR (λ c, broadcast c i) columns = Ok row → row_at columns i row.
Proof.
  intros H%mapR_ok_inv. unfold row_at. eapply Forall2_impl; [exact H|]. intros c x Hx. unfold broadcast, py_nth in Hx.
  by apply ok_or_ok in Hx.
Qed.

Lemma broadcast_rows_at columns n rows : mapR (λ i, mapR (λ c, broadcast c i) columns) (seq 0 n) = Ok rows →
  length rows = n ∧ ∀ i row, rows !! i = Some row → row_at columns i row.
Proof.
  intros H%mapR_ok_inv. split; [by rewrite <-(Forall2_length _ _ _ H), length_seq|]. intros i row Hi.
  destruct (Forall2_lookup_r _ _ _ _ _ H Hi) as (j & Hj & Hrow). apply lookup_seq in Hj as [-> _]. by apply broadcast_row_at.
Qed.

(** A row step whose inputs can be read either refuses them, exactly when
    some input has a number of values that is neither one nor the number of
    rows, or applies the function once to every row in order, inputs of one
    value repeated, and returns one item per row. *)
Theorem row_step_maps_rows (json_loads : string → option val) (json_dumps : val → string) (fn : list val → result val)
    (plan : list val) (inputs : dict string val) (columns : list (list val))
    (Hcols : mapR (column json_loads (as_text json_dumps) inputs) plan = Ok columns) :
  let n := max_length 1 columns in
  ((∃ c, c ∈ columns ∧ length c ≠ 1 ∧ length c ≠ n) ∧ row_main json_loads json_dumps fn plan inputs = Err (ValueError "input rows")) ∨
  (∃ rows, length rows = n ∧ (∀ i row, rows !! i = Some row → row_at columns i row) ∧
     row_main json_loads json_dumps fn plan inputs =
       (results ← mapR fn rows; Ok (items_result ((λ r, VDict [("output", as_text json_dumps r); ("value", r)]) <$> results)))).
Proof.
  intros n. unfold row_main. rewrite Hcols. cbn [mbind result_bind]. fold n. destruct (check_lengths n columns) as [[]|e] eqn:E.
  - right. cbn [mbind result_bind].
    assert (G : ∀ m k, k + m ≤ n → ∃ rows, mapR (λ i, mapR (λ c, broadcast c i) columns) (seq k m) = Ok rows ∧ length rows = m ∧
      ∀ i row, rows !! i = Some row → row_at columns (k + i) row).
    { induction m as [|m IH]; intros k Hk; [by exists []|]. destruct (IH (S k)) as (rows & Hr & Hl & Hrows); [lia|].
      destruct (broadcast_row columns n k) as (row & Hrow & Hat); [lia|done|]. exists (row :: rows). simpl. rewrite Hrow. simpl. rewrite Hr.
      split; [done|]. split; [by rewrite Hl|]. intros [|i] r Hi; simpl in Hi; [injection Hi as <-; by rewrite Nat.add_0_r|].
      rewrite Nat.add_succ_r. by apply (Hrows i). }
    destruct (G n 0) as (rows & Hr & Hl & Hrows); [lia|]. exists rows. split; [done|]. split; [done|]. by rewrite Hr.
  - left. unfold check_lengths in E. destruct (forallb _ columns) eqn:Ef; [done|]. injection E as <-. split; [|done].
    apply not_true_iff_false in Ef. assert (Hx : ¬ Forall (λ c, length c = 1 ∨ length c = n) columns).
    { intros Hall. apply Ef, forallb_forall. intros c Hc%list_elem_of_In. rewrite Forall_forall in Hall.
      destruct (Hall c Hc) as [H|H]; rewrite H; rewrite Nat.eqb_refl; [done|apply orb_true_r]. }
    apply not_Forall_Exists in Hx; [|intros c; apply _]. apply Exists_exists in Hx as (c & Hc & Hn). exists c. split; [done|].
    split; intros ?; apply Hn; [by left|by right].
Qed.

Lemma row_step_maps_rows_witness :
  let plan := [VDict [("kind", VStr "literal"); ("values", VList [VStr "a"; VStr "b"])]; VDict [("kind", VStr "literal"); ("values", VList [VStr "x"])]] in
  let columns := [[VStr "a"; VStr "b"]; [VStr "x"]] in
  mapR (column (λ _, None) (as_text (λ _, "")) []) plan = Ok columns ∧
  let n := max_length 1 columns in
  ((∃ c, c ∈ columns ∧ length c ≠ 1 ∧ length c ≠ n) ∧ row_main (λ _, None) (λ _, "") (λ r, Ok (VTuple r)) plan [] = Err (ValueError "input rows")) ∨
  (∃ rows, length rows = n ∧ (∀ i row, rows !! i = Some row → row_at columns i row) ∧
     row_main (λ _, None) (λ _, "") (λ r, Ok (VTuple r)) plan [] =
       (results ← mapR (λ r, Ok (VTuple r)) rows; Ok (items_result ((λ r, VDict [("output", as_text (λ _, "") r); ("value", r)]) <$> results)))).
Proof.
  cbv zeta. split; [reflexivity|]. apply (row_step_maps_rows (λ _, None) (λ _, "") (λ r, Ok (VTuple r))). reflexivity.
Defined.
