(* ===== verification/FlowmeshSpec.v ===== *)
(** * The task spec of a batch

    [_build_task_spec] turns the runtime graph of a batch and its schedule into
    the workflow FlowMesh gets: every runtime op becomes a node
    (runtime/runtime_ops.py, runtime/runtime_graph.py), GPU nodes get their
    hardware, nodes on several workers are sharded ([ShardRewrite]) and the
    schedule hint is attached.  [resolve_api_credentials] then fills in the
    credentials of API nodes (runtime/runtime_manager/flowmesh.py,
    runtime/flowmesh_client.py).

    Environment configuration is a [config]; [urllib.parse.urlsplit] and the
    text of a Python step are parameters. *)

From Stdlib Require Import Ascii.
From S2P Require Import Prelude PyFloat PyDict PyValue PyString Protocol RuntimeGraph Sensitive PythonStep ShardData ShardRewrite.

Record config := Config {
  HARDWARE_CPU_REQUIREMENT : Z;
  HARDWARE_MEMORY_REQUIREMENT : string;
  HARDWARE_GPU_REQUIREMENT : Z;
  HARDWARE_GPU_MEMORY_REQUIREMENT : string;
  FLOWMESH_OUTPUT_DESTINATION : string;
  LUMILAKE_API_DEFAULT_URL : string;
  LUMILAKE_API_TRUSTED_ORIGINS : string;
  RUNTIME_TOKEN : option string;
}.

(** ** Nodes *)

Section nodes.
Context (render : source → string) (to_str : val → string).

Definition condition_val (condition : dict string string) : val := VDict ((λ kv, (kv.1, VStr kv.2)) <$> condition).

(** [[*self.dependencies]] and the node of the condition *)
Definition node_deps (op : RuntimeOp.t) : result (list string) :=
let deps := RuntimeOp.dependencies op in
match RuntimeOp.condition op with
| None => Ok deps
| Some condition =>
    node ← dindex (KeyError "node") "node" condition;
    Ok (if bool_decide (node ∈ deps) then deps else deps ++ [node])
end.

(** [spec_payload] *)
Definition spec_payload (op : RuntimeOp.t) : result (dict string val) :=
let task_type := RuntimeOp.task_type op in
payload ← (if String.eqb task_type PYTHON_TASK_TYPE then flowmesh_spec render to_str (RuntimeOp.node_id op) (RuntimeOp.data_spec op)
           else Ok [("taskType", VStr task_type); ("data", VDict (RuntimeOp.data_spec op))]);
let payload := if String.eqb task_type "api" then dset "api" (VDict (RuntimeOp.api_spec op)) payload
  else if bool_decide (task_type ∈ ["inference"; "diffusion"; "embedding"; "omni_text2image"])
  then dset "model" (VDict (RuntimeOp.model_spec op)) payload else payload in
Ok (if bool_decide (task_type ∈ ["inference"; "diffusion"; "omni_text2image"])
    then dset "inference" (VDict (RuntimeOp.inference_spec op)) payload else payload).

Definition to_flowmesh_node (op : RuntimeOp.t) : result (dict string val) :=
payload ← spec_payload op;
deps ← node_deps op;
let payload := match RuntimeOp.output_spec op with
  | Some (kv :: d) => dset "output" (VDict (kv :: d)) payload | _ => payload end in
let payload := match RuntimeOp.condition op with
  | Some (kv :: d) => dset "condition" (condition_val (kv :: d)) payload | _ => payload end in
Ok ([("name", VStr (RuntimeOp.node_id op)); ("spec", VDict payload)] ++
    match deps with [] => [] | _ => [("dependsOn", VList (VStr <$> deps))] end).

(** The exported dependencies are runtime nodes. *)
Definition export_node (valid_node_ids : list string) (node_payload : dict string val) : dict string val :=
if dmem "dependsOn" node_payload then
  match filter (.∈ valid_node_ids) (str_deps node_payload) with
  | [] => ddel "dependsOn" node_payload
  | filtered => dset "dependsOn" (VList (VStr <$> filtered)) node_payload
  end
else node_payload.

Definition to_flowmesh_nodes (g : RuntimeGraph.t) : result (list (dict string val)) :=
mapR (λ node_id,
  op ← dindex (KeyError node_id) node_id (RuntimeGraph.nodes g);
  node ← to_flowmesh_node op;
  Ok (export_node (dkeys (RuntimeGraph.nodes g)) node)) (RuntimeGraph.node_order g).
End nodes.

(** ** Hardware *)

Section hardware.
Context (env : config) (hardware : option HardwareRequirements.t).

Definition resolve_field {A} (field : HardwareRequirements.t → option A) (default : A) : A :=
match hardware ≫= field with Some x => x | None => default end.

Definition resolve_cpu : Z := resolve_field HardwareRequirements.cpu (HARDWARE_CPU_REQUIREMENT env).
Definition resolve_memory : string := resolve_field HardwareRequirements.memory (HARDWARE_MEMORY_REQUIREMENT env).
Definition resolve_gpu_count : Z := resolve_field HardwareRequirements.gpu (HARDWARE_GPU_REQUIREMENT env).
Definition resolve_gpu_memory : string := resolve_field HardwareRequirements.gpu_memory (HARDWARE_GPU_MEMORY_REQUIREMENT env).

Definition runtime_op_requires_gpu (op : RuntimeOp.t) : bool :=
(bool_decide (norm (RuntimeOp.backend op) ∈ ["vllm"; "transformers"; "diffusers"]) ||
 bool_decide (norm (RuntimeOp.task_type op) ∈ ["inference"; "embedding"; "diffusion"]))%bool.

(** [d.setdefault(key, {})], when the value is a dict [f] goes on with it. *)
Definition in_dict (key : string) (f : dict string val → dict string val) (d : dict string val) : dict string val :=
let d := dsetdefault key (VDict []) d in
match vget key d with VDict sub => dset key (VDict (f sub)) d | _ => d end.

Definition set_hardware (h : dict string val) : dict string val :=
dset "gpu" (VDict [("type", VStr "any"); ("count", VInt resolve_gpu_count); ("memory", VStr resolve_gpu_memory)])
  (dset "memory" (VStr resolve_memory) (dset "cpu" (VInt resolve_cpu) h)).

Definition hint_resources (g : RuntimeGraph.t) (node : dict string val) : result (dict string val) :=
match vget "name" node with
| VStr node_name =>
    match dget node_name (RuntimeGraph.nodes g) with
    | Some op =>
        if runtime_op_requires_gpu op then
          if (resolve_gpu_count <=? 0)%Z then Err (ValueError "hardware.gpu but runtime node requires a GPU worker")
          else Ok (in_dict "spec" (in_dict "resources" (in_dict "hardware" set_hardware)) node)
        else Ok node
    | None => Ok node
    end
| _ => Ok node
end.

Definition apply_per_node_resource_hints (nodes : list (dict string val)) (g : RuntimeGraph.t) : result (list (dict string val)) :=
mapR (hint_resources g) nodes.
End hardware.

(** ** The spec *)

Definition runtime_output_destination (env : config) : val :=
  if String.eqb (FLOWMESH_OUTPUT_DESTINATION env) "http" then VDict [("type", VStr "http"); ("timeoutSec", VInt 3600)]
  else VDict [("type", VStr "local")].

Definition valid_raw_name (node : dict string val) : result string :=
  match vget "name" node with
  | VStr name => if String.eqb name "" then Err (ValueError "FlowMesh node is missing a valid 'name'") else Ok name
  | _ => Err (ValueError "FlowMesh node is missing a valid 'name'")
  end.

(** What is submitted, besides the fixed fields: the nodes and the hint. *)
Record task_parts := TaskParts {
  tp_nodes : list (dict string val);
  tp_hint : option (list string * dict string (list string));
  tp_flowmesh_to_raw : dict string string;
}.

Section build.
Context (render : source → string) (to_str : val → string) (env : config).

Definition hint_annotation (hint : list string * dict string (list string)) : val :=
VDict ([("node_execution_order", VList (VStr <$> hint.1))] ++
  match hint.2 with
  | [] => []
  | selected => [("selected_worker", VDict [("selected", VDict ((λ kv, (kv.1, VList (VStr <$> kv.2))) <$> selected))])]
  end).

Definition task_spec (request_id : string) (hardware : option HardwareRequirements.t) (parts : task_parts) : dict string val :=
[("apiVersion", VStr "mloc/v1"); ("kind", VStr "InferenceTask");
 ("metadata", VDict [("name", VStr ("lumilake-" +:+ request_id)); ("owner", VStr "lumilake");
    ("annotations", VDict ([("description", VStr ("Lumilake logical plan execution for request " +:+ request_id))] ++
       match tp_hint parts with Some hint => [("schedule_hint", hint_annotation hint)] | None => [] end))]);
 ("spec", VDict [("taskType", VStr "inference");
    ("resources", VDict [("replicas", VInt 1);
       ("hardware", VDict [("cpu", VInt (resolve_cpu env hardware)); ("memory", VStr (resolve_memory env hardware))])]);
    ("graph", VDict [("nodes", VList (VDict <$> tp_nodes parts))]);
    ("output", VDict [("destination", runtime_output_destination env); ("artifacts", VList [VStr "results.json"; VStr "logs"])])])].

(** [output_node_indices] *)
Definition output_nodes (g : RuntimeGraph.t) : list (nat * string) :=
filter (λ p, p.2 ∈ dkeys (RuntimeGraph.output_node_map g)) (imap pair (RuntimeGraph.node_order g)).

Definition build_task_parts (hardware : option HardwareRequirements.t) (g : RuntimeGraph.t)
  (schedule : option (dict string (list string))) : result task_parts :=
nodes ← to_flowmesh_nodes render to_str g;
nodes ← apply_per_node_resource_hints env hardware nodes g;
names ← mapR valid_raw_name nodes;
match schedule with
| None => Ok (TaskParts nodes None (dict_of ((λ n, (n, n)) <$> names)))
| Some worker_assignment =>
    rewrite ← rewrite_nodes_for_shard_intent nodes worker_assignment (output_nodes g).*2;
    hint ← build_schedule_hint (sr_nodes rewrite) (sr_worker_assignment rewrite);
    Ok (TaskParts (sr_nodes rewrite) (Some hint) (sr_flowmesh_to_raw rewrite))
end.

Definition build_task_spec (request_id : string) (hardware : option HardwareRequirements.t) (g : RuntimeGraph.t)
  (schedule : option (dict string (list string))) : result (dict string val * list (nat * string) * dict string string) :=
parts ← build_task_parts hardware g schedule;
Ok (task_spec request_id hardware parts, output_nodes g, tp_flowmesh_to_raw parts).
End build.

(** ** Credentials *)

Definition API_CREDENTIAL_PLACEHOLDER : string := "${credential}".
Definition DEFAULT_API_ORIGIN : string := "https://lum.id".

(** [_AUTH_SCHEME_RE]: a scheme and space at the start. *)
Definition is_token_char (c : ascii) : bool :=
  (is_digit c || is_alpha c || bool_decide (c ∈ chars "!#$%&'*+.^_`|~-"))%bool.
Definition has_auth_scheme (l : list ascii) : bool :=
  match match_char is_alpha l with
  | Some l => match match_some is_space (span is_token_char l).2 with Some _ => true | None => false end
  | None => false
  end.
Definition with_auth_scheme (credential : string) : string :=
  if has_auth_scheme (chars credential) then credential else "Bearer " +:+ credential.

Section credentials.
(** [urlsplit(url)]: scheme, hostname and port *)
Context (urlsplit : string → result (string * option string * option Z)) (env : config).

Definition default_port (scheme : string) : option Z :=
if String.eqb scheme "https" then Some 443%Z else if String.eqb scheme "http" then Some 80%Z else None.

Definition origin (url : string) : result (string * string * option Z) :=
parts ← urlsplit url;
let '(scheme, hostname, port) := parts in
match hostname with
| None | Some "" => Err (ValueError "invalid API endpoint origin (no host)")
| Some host =>
    Ok (lower scheme, lower host, match port with Some p => Some p | None => default_port (lower scheme) end)
end.

Definition trusted_origins : result (list (string * string * option Z)) :=
default ← origin DEFAULT_API_ORIGIN;
configured ← origin (LUMILAKE_API_DEFAULT_URL env);
let raw := strip (LUMILAKE_API_TRUSTED_ORIGINS env) in
others ← mapR (λ item, origin (strip item))
  (filter (λ item, strip item ≠ "") (if String.eqb raw "" then [] else py_split ","%char raw));
Ok (default :: configured :: others).

Definition is_api_origin_trusted (url : string) : result bool :=
o ← origin url; trusted ← trusted_origins; Ok (bool_decide (o ∈ trusted)).

Definition resolve_api_credential (url : string) : result (option string) :=
trusted ← is_api_origin_trusted url; Ok (if trusted : bool then RUNTIME_TOKEN env else None).

(** [get_api_credential] *)
Context (get_api_credential : string → option string) (member_request_ids : list string).

Definition first_member_credential : option string := head (omap get_api_credential member_request_ids).

Definition credential_for (url : val) : result (option string) :=
match url with
| VStr url =>
    is_api_origin_trusted url ≫= λ trusted : bool,
    if trusted then resolve_api_credential url else Ok first_member_credential
| _ => Ok first_member_credential
end.

(** The headers of an API node. *)
Definition resolve_headers (api_spec headers : dict string val) : result (dict string val) :=
if bool_decide (vget "Authorization" headers = VStr API_CREDENTIAL_PLACEHOLDER) then
  resolved ← credential_for (vget "url" api_spec);
  Ok (match resolved with
      | Some r => if String.eqb r "" then headers else dset "Authorization" (VStr (with_auth_scheme r)) headers
      | None => headers
      end)
else Ok headers.

Definition resolve_node (node : val) : result val :=
match node with
| VDict d =>
    match dget_or (VDict []) "spec" d with
    | VDict spec =>
        match vget "api" spec with
        | VDict api_spec =>
            match vget "headers" api_spec with
            | VDict headers =>
                headers ← resolve_headers api_spec headers;
                Ok (VDict (dset "spec" (VDict (dset "api" (VDict (dset "headers" (VDict headers) api_spec)) spec)) d))
            | _ => Ok node
            end
        | _ => Ok node
        end
    | _ => Err (AttributeError "get")
    end
| _ => Ok node
end.

Definition resolve_api_credentials (task_spec : dict string val) : result (dict string val) :=
match dget_or (VDict []) "spec" task_spec with
| VDict spec =>
    match dget_or (VDict []) "graph" spec with
    | VDict graph =>
        match dget "nodes" graph with
        | Some (VList nodes) =>
            nodes ← mapR resolve_node nodes;
            Ok (dset "spec" (VDict (dset "graph" (VDict (dset "nodes" (VList nodes) graph)) spec)) task_spec)
        | _ => Ok task_spec
        end
    | _ => Err (AttributeError "get")
    end
| _ => Err (AttributeError "get")
end.
End credentials.

Example scheme_ex : with_auth_scheme "tok" = "Bearer tok". Proof. reflexivity. Qed.
Example scheme_ex2 : with_auth_scheme "Basic dXNlcg==" = "Basic dXNlcg==". Proof. reflexivity. Qed.
