(* ===== verification/FlowmeshSpecProps.v ===== *)
(** * Properties of the submitted workflow

    The nodes built from a runtime graph depend only on one another, so the
    workflow that is submitted always has a schedule hint; and credentials go
    where they belong. *)

From Stdlib Require Import Ascii.
From S2P Require Import Prelude PyFloat PyDict PyValue PyString Protocol RuntimeGraph Sensitive SensitiveProps PythonStep ShardData ShardRewrite ShardRewriteProps ShardHint FlowmeshSpec.

(** ** The exported nodes *)

(** Every op is stored under its own id. *)
Definition ids_match (g : RuntimeGraph.t) : Prop := ∀ k op, dget k (RuntimeGraph.nodes g) = Some op → RuntimeOp.node_id op = k.

(** A node waits for its dependencies and for the node of its condition. *)
Definition waits_for (op : RuntimeOp.t) (d : string) : Prop :=
  d ∈ RuntimeOp.dependencies op ∨ RuntimeOp.condition op ≫= dget "node" = Some d.

Definition acyclic_graph (g : RuntimeGraph.t) : Prop :=
  ∃ rank : string → nat, ∀ k op d, dget k (RuntimeGraph.nodes g) = Some op → waits_for op d → rank d < rank k.

Lemma vget_cons_ne k k' v (d : dict string val) : k ≠ k' → vget k ((k', v) :: d) = vget k d.
Proof. intros H. unfold vget, dget_or. simpl. by rewrite decide_False. Qed.

Lemma str_deps_of_list (l : list string) node : vget "dependsOn" node = VList (VStr <$> l) → str_deps node = l.
Proof. intros H. unfold str_deps. rewrite H. clear H. induction l as [|x l IH]; [done|]. csimpl. by rewrite IH. Qed.

Lemma str_deps_same a b : vget "dependsOn" a = vget "dependsOn" b → str_deps a = str_deps b.
Proof. unfold str_deps. by intros ->. Qed.

Section export.
Context (render : source → string) (to_str : val → string).

Lemma to_flowmesh_node_spec op node : to_flowmesh_node render to_str op = Ok node →
node_name node = RuntimeOp.node_id op ∧ ∀ d, d ∈ str_deps node → waits_for op d.
Proof.
unfold to_flowmesh_node. intros H. apply result_bind_ok in H as (payload & _ & H). apply result_bind_ok in H as (deps & Hd & H).
assert (Hw : ∀ d, d ∈ deps → waits_for op d).
{ unfold node_deps in Hd. unfold waits_for. destruct (RuntimeOp.condition op) as [c|]; [|injection Hd as ->; by left].
  apply result_bind_ok in Hd as (n & Hn & Hd). unfold dindex in Hn. apply ok_or_ok in Hn. injection Hd as <-. simpl. rewrite Hn.
  case_bool_decide; [by left|]. intros d [?| ->%list_elem_of_singleton]%elem_of_app; [by left|by right]. }
injection H as <-. split; [done|]. intros d Hin. apply Hw. destruct deps as [|x deps].
- by apply elem_of_nil in Hin.
- by rewrite (str_deps_of_list (x :: deps)) in Hin.
Qed.

Lemma export_node_spec ids node : node_name (export_node ids node) = node_name node ∧
∀ d, d ∈ str_deps (export_node ids node) → d ∈ ids ∧ d ∈ str_deps node.
Proof.
unfold export_node. destruct (dmem "dependsOn" node) eqn:E.
- destruct (filter _ (str_deps node)) as [|x l] eqn:Ef.
  + split; [unfold node_name, vget, dget_or; by rewrite dget_ddel_ne|]. intros d Hd.
    unfold str_deps, vget, dget_or in Hd. rewrite dget_ddel_eq in Hd. by apply elem_of_nil in Hd.
  + split; [unfold node_name; by rewrite vget_dset|]. intros d Hd.
    rewrite (str_deps_of_list (x :: l)) in Hd by (by rewrite vget_dset). rewrite <-Ef in Hd. by apply list_elem_of_filter in Hd.
- split; [done|]. intros d Hd. apply dmem_false in E. unfold str_deps, vget, dget_or in Hd. apply dget_None in E.
  rewrite E in Hd. by apply elem_of_nil in Hd.
Qed.

Lemma to_flowmesh_nodes_spec g nodes : ids_match g → to_flowmesh_nodes render to_str g = Ok nodes →
names_of nodes = RuntimeGraph.node_order g ∧
∀ node, node ∈ nodes → ∃ op, dget (node_name node) (RuntimeGraph.nodes g) = Some op ∧
  ∀ d, d ∈ str_deps node → d ∈ dkeys (RuntimeGraph.nodes g) ∧ waits_for op d.
Proof.
intros Hids H. apply mapR_ok_inv in H. unfold names_of. induction H as [|id node ids nodes Hn _ [IH1 IH2]]; [split; [done|set_solver]|].
apply result_bind_ok in Hn as (op & Hop & Hn). unfold dindex in Hop. apply ok_or_ok in Hop.
apply result_bind_ok in Hn as (raw & Hraw & [= <-]). apply to_flowmesh_node_spec in Hraw as [Hname Hdeps].
destruct (export_node_spec (dkeys (RuntimeGraph.nodes g)) raw) as [He1 He2]. rewrite Hname, (Hids id op Hop) in He1.
csimpl. rewrite IH1, He1. split; [done|]. intros node [->|Hin]%elem_of_cons; [|by apply IH2].
exists op. rewrite He1. split; [done|]. intros d Hd. destruct (He2 d Hd). split; [done|by apply Hdeps].
Qed.
End export.

Lemma in_dict_other key f d k : k ≠ key → vget k (in_dict key f d) = vget k d.
Proof.
  intros Hk. unfold in_dict. assert (E : vget k (dsetdefault key (VDict []) d) = vget k d).
  { unfold vget, dget_or. rewrite dget_setdefault. by rewrite decide_False. }
  destruct (vget key (dsetdefault key (VDict []) d)); rewrite ?vget_dset, ?decide_False by done; done.
Qed.

Lemma hints_keep env hardware g nodes nodes' : apply_per_node_resource_hints env hardware nodes g = Ok nodes' →
  Forall2 (λ a b, node_name b = node_name a ∧ str_deps b = str_deps a) nodes nodes'.
Proof.
  intros H. apply mapR_ok_inv in H. eapply Forall2_impl; [exact H|]. clear H. intros a b H. unfold hint_resources in H.
  destruct (vget "name" a) as [| | | |name| | |] eqn:En; try (by injection H as <-).
  destruct (dget name _) as [op|]; [|by injection H as <-]. destruct (runtime_op_requires_gpu op); [|by injection H as <-].
  destruct (_ <=? 0)%Z; [done|]. injection H as <-. split; [unfold node_name|apply str_deps_same]; by rewrite in_dict_other.
Qed.

Lemma kept_nodes nodes nodes' : Forall2 (λ a b, node_name b = node_name a ∧ str_deps b = str_deps a) nodes nodes' →
  names_of nodes' = names_of nodes ∧ ∀ b, b ∈ nodes' → ∃ a, a ∈ nodes ∧ node_name b = node_name a ∧ str_deps b = str_deps a.
Proof.
  unfold names_of. induction 1 as [|a b nodes nodes' [H1 H2] _ [IH1 IH2]]; [split; [done|set_solver]|]. csimpl. rewrite IH1, H1.
  split; [done|]. intros x [->|Hx]%elem_of_cons; [exists a; split; [left|done]|]. destruct (IH2 x Hx) as (y & ? & ?).
  exists y. split; [by right|done].
Qed.

(** C33: once the runtime graph of a batch is translated and the rewrite for the
    schedule succeeds, the task spec is built: the workflow that is submitted
    depends on nothing outside itself, whatever op ids the graph mentions; its
    schedule hint runs every node once and after all its dependencies, and
    names the one worker that has it. *)
Theorem submitted_workflow_is_scheduled (render : source → string) (to_str : val → string) (env : config)
    (hardware : option HardwareRequirements.t) (g : RuntimeGraph.t) (assignment : dict string (list string))
    (raw nodes : list (dict string val)) (r : ShardRewriteResult)
    (Hwf : RuntimeGraph.wf g) (Hids : ids_match g) (Hacyclic : acyclic_graph g)
    (Hnonempty : "" ∉ RuntimeGraph.node_order g) (Hfresh : fresh_shard_names (RuntimeGraph.node_order g))
    (Hworkers : NoDup (dkeys assignment))
    (Hraw : to_flowmesh_nodes render to_str g = Ok raw)
    (Hnodes : apply_per_node_resource_hints env hardware raw g = Ok nodes)
    (Hr : rewrite_nodes_for_shard_intent nodes assignment (output_nodes g).*2 = Ok r) :
  ∃ order selected,
    build_task_parts render to_str env hardware g (Some assignment) = Ok (TaskParts (sr_nodes r) (Some (order, selected)) (sr_flowmesh_to_raw r)) ∧
    order ≡ₚ names_of (sr_nodes r) ∧
    (∀ node d l1 l2, node ∈ sr_nodes r → order = l1 ++ node_name node :: l2 → d ∈ str_deps node → d ∈ l1) ∧
    ∀ n, n ∈ names_of (sr_nodes r) →
      ∃ w out, (w, out) ∈ sr_worker_assignment r ∧ n ∈ out ∧ dget n selected = Some [w].
Proof.
  destruct (to_flowmesh_nodes_spec render to_str g raw Hids Hraw) as [Hn1 Hn2].
  destruct (kept_nodes raw nodes (hints_keep _ _ _ _ _ Hnodes)) as [Hk1 Hk2].
  assert (Hnode : ∀ node d, node ∈ nodes → d ∈ str_deps node → ∃ op, dget (node_name node) (RuntimeGraph.nodes g) = Some op ∧
    d ∈ dkeys (RuntimeGraph.nodes g) ∧ waits_for op d).
  { intros node d Hin Hd. destruct (Hk2 node Hin) as (a & Ha & -> & E). rewrite E in Hd. destruct (Hn2 a Ha) as (op & Hop & Hdeps).
    exists op. split; [done|by apply Hdeps]. }
  assert (Hnames : names_of nodes = RuntimeGraph.node_order g) by congruence.
  destruct (rewritten_hint nodes assignment (output_nodes g).*2 r Hr Hworkers) as (order & selected & Hh & Hrest).
  - by rewrite Hnames.
  - intros node d Hin Hd. rewrite Hnames. apply (RuntimeGraph.wf_order_nodes _ Hwf). by destruct (Hnode node d Hin Hd) as (op & _ & ? & _).
  - destruct Hacyclic as [rank Hrank]. exists rank. intros node d Hin Hd. destruct (Hnode node d Hin Hd) as (op & Hop & _ & Hw). by apply (Hrank _ op).
  - exists order, selected. split; [|done]. unfold build_task_parts. rewrite Hraw. cbn [mbind result_bind]. rewrite Hnodes.
    cbn [mbind result_bind].
    assert (Hv : mapR valid_raw_name nodes = Ok (names_of nodes)).
    { rewrite <-Hnames in Hnonempty. clear -Hnonempty. unfold names_of in *. induction nodes as [|node nodes IH]; [done|]. csimpl in *.
      apply not_elem_of_cons in Hnonempty as [H1 H2]. assert (E : valid_raw_name node = Ok (node_name node)).
      { unfold valid_raw_name, node_name in *. destruct (vget "name" node); try done. by destruct (String.eqb_spec s ""). }
      by rewrite E, (IH H2). }
    rewrite Hv. cbn [mbind result_bind]. rewrite Hr. cbn [mbind result_bind]. by rewrite Hh.
Qed.

(** Two ops; the second also names an input op that is no runtime node. *)
Definition demo_op (id : string) (data : dict string val) (deps : list string) : RuntimeOp.t :=
  RuntimeOp.mk id "echo" "cpu" "" data [] [] [] deps None None.
Definition demo_graph : RuntimeGraph.t := RuntimeGraph.mk
  [("n0", demo_op "n0" [("type", VStr "list"); ("items", VList letters)] []);
   ("n1", demo_op "n1" [("type", VStr "graph_template"); ("template", VDict [("columns", VList
      [VDict [("label", VStr "x"); ("node", VStr "n0"); ("path", VStr "items.output")]])])] ["n0"; "input"])]
  ["n0"; "n1"] [("n1", "out")] [] [].
Definition demo_config : config := Config 1 "1Gi" 1 "1Gi" "local" "https://lum.id" "" (Some "pat").
Definition demo_assignment : dict string (list string) := [("gpu-0", ["n0"; "n1"]); ("gpu-1", ["n0"])].

Lemma submitted_workflow_is_scheduled_witness : ∃ raw nodes r,
  to_flowmesh_nodes (λ _, "") (λ _, "") demo_graph = Ok raw ∧
  apply_per_node_resource_hints demo_config None raw demo_graph = Ok nodes ∧
  rewrite_nodes_for_shard_intent nodes demo_assignment (output_nodes demo_graph).*2 = Ok r ∧
  ∃ order selected,
    build_task_parts (λ _, "") (λ _, "") demo_config None demo_graph (Some demo_assignment) =
      Ok (TaskParts (sr_nodes r) (Some (order, selected)) (sr_flowmesh_to_raw r)) ∧
    order ≡ₚ names_of (sr_nodes r) ∧
    (∀ node d l1 l2, node ∈ sr_nodes r → order = l1 ++ node_name node :: l2 → d ∈ str_deps node → d ∈ l1) ∧
    ∀ n, n ∈ names_of (sr_nodes r) →
      ∃ w out, (w, out) ∈ sr_worker_assignment r ∧ n ∈ out ∧ dget n selected = Some [w].
Proof.
  do 3 eexists. split; [vm_compute; reflexivity|]. split; [vm_compute; reflexivity|]. split; [vm_compute; reflexivity|].
  eapply (submitted_workflow_is_scheduled (λ _, "") (λ _, "") demo_config None demo_graph demo_assignment).
  - split; [apply (bool_decide_unpack _); vm_compute; exact I..|]. intros n. split; intros H; exact H.
  - intros k op H. unfold demo_graph, dget in H. simpl in H. repeat case_decide; simplify_eq; done.
  - exists (λ k, if decide (k = "n1") then 1 else 0). intros k op d H Hw. unfold demo_graph, dget in H. simpl in H.
    repeat case_decide; simplify_eq/=; destruct Hw as [Hw|Hw]; simpl in Hw; try done; try by apply elem_of_nil in Hw.
    all: first [lia|exfalso; repeat (apply elem_of_cons in Hw as [Hw|Hw]; [discriminate Hw|]); by apply elem_of_nil in Hw].
  - apply (bool_decide_unpack _). vm_compute. exact I.
  - apply fresh_by_length. vm_compute. reflexivity.
  - apply (bool_decide_unpack _). vm_compute. exact I.
  - vm_compute. reflexivity.
  - vm_compute. reflexivity.
  - vm_compute. reflexivity.
Defined.

(** ** Credentials *)

Section credentials.
Context (urlsplit : string → result (string * option string * option Z)) (env : config).
Context (get_api_credential : string → option string) (members : list string).
Local Abbreviation trusted := (is_api_origin_trusted urlsplit env).

(** Where the credential of an endpoint comes from. *)
Definition credential_source (url : val) (credential : string) : Prop :=
(∃ u, url = VStr u ∧ trusted u = Ok true ∧ RUNTIME_TOKEN env = Some credential) ∨
((∀ u, url = VStr u → trusted u = Ok false) ∧ ∃ m, m ∈ members ∧ get_api_credential m = Some credential).

(** The node with other headers for its API call. *)
Definition with_headers (d spec api headers : dict string val) : val :=
VDict (dset "spec" (VDict (dset "api" (VDict (dset "headers" (VDict headers) api)) spec)) d).

(** A node that keeps its headers, or one whose placeholder was replaced. *)
Definition filled (node node' : val) : Prop :=
node' = node ∨
∃ d spec api headers credential, node = VDict d ∧ vget "spec" d = VDict spec ∧ vget "api" spec = VDict api ∧ vget "headers" api = VDict headers ∧
  vget "Authorization" headers = VStr API_CREDENTIAL_PLACEHOLDER ∧ credential ≠ "" ∧ credential_source (vget "url" api) credential ∧
  node' = with_headers d spec api (dset "Authorization" (VStr (with_auth_scheme credential)) headers).

Lemma vget_get key (d : dict string val) v : vget key d = v → v ≠ VNone → dget key d = Some v.
Proof. unfold vget, dget_or. destruct (dget key d); [by intros -> _|done]. Qed.

Lemma first_credential c : first_member_credential get_api_credential members = Some c → ∃ m, m ∈ members ∧ get_api_credential m = Some c.
Proof.
unfold first_member_credential. intros H. apply head_Some_elem_of in H. apply list_elem_of_omap in H as (m & Hm & E). by exists m.
Qed.

Lemma credential_for_source url c : credential_for urlsplit env get_api_credential members url = Ok (Some c) → credential_source url c.
Proof.
unfold credential_for, credential_source. destruct url as [| | | |u| | |]; try (intros [= H]; right; split; [done|by apply first_credential]).
intros H. apply result_bind_ok in H as ([] & Ht & H).
- left. unfold resolve_api_credential in H. rewrite Ht in H. simpl in H. injection H as H. by exists u.
- right. injection H as H. split; [by intros ? [= <-]|by apply first_credential].
Qed.

Lemma resolve_node_filled node node' : resolve_node urlsplit env get_api_credential members node = Ok node' → filled node node'.
Proof.
unfold resolve_node, filled. destruct node as [| | | | | | |d]; try (intros [= <-]; by left).
destruct (dget_or (VDict []) "spec" d) as [| | | | | | |spec] eqn:Es; try done.
destruct (vget "api" spec) as [| | | | | | |api] eqn:Ea; try (intros [= <-]; by left).
destruct (vget "headers" api) as [| | | | | | |headers] eqn:Eh; try (intros [= <-]; by left).
assert (Hspec : dget "spec" d = Some (VDict spec)).
{ unfold dget_or in Es. destruct (dget "spec" d); [by rewrite Es|]. injection Es as <-. done. }
intros H. apply result_bind_ok in H as (headers' & Hh & [= <-]). unfold resolve_headers in Hh.
assert (Hsame : headers' = headers → VDict (dset "spec" (VDict (dset "api" (VDict (dset "headers" (VDict headers') api)) spec)) d) = VDict d).
{ intros ->. do 2 f_equal. rewrite (dset_same "headers") by (by apply vget_get). rewrite (dset_same "api") by (by apply vget_get).
  by rewrite dset_same. }
case_bool_decide as D; [|injection Hh as <-; left; by apply Hsame].
apply result_bind_ok in Hh as ([c|] & Hc & [= <-]); [|left; by apply Hsame].
destruct (String.eqb_spec c "") as [->|Hne]; [left; by apply Hsame|]. right.
exists d, spec, api, headers, c. split_and!; try done; [unfold vget, dget_or; by rewrite Hspec|by apply credential_for_source].
Qed.
End credentials.

(** C10: filling in credentials changes nothing of the nodes but authorization
    headers that hold the placeholder.  The token of the server goes only to
    endpoints whose origin is trusted, and the credential of a caller only to
    the others. *)
Theorem credentials_go_where_they_belong (urlsplit : string → result (string * option string * option Z)) (env : config)
    (get_api_credential : string → option string) (members : list string) (request_id : string)
    (hardware : option HardwareRequirements.t) (parts : task_parts) (spec' : dict string val)
    (H : resolve_api_credentials urlsplit env get_api_credential members (task_spec env request_id hardware parts) = Ok spec') :
  ∃ nodes', Forall2 (filled urlsplit env get_api_credential members) (VDict <$> tp_nodes parts) nodes' ∧
    vget "metadata" spec' = vget "metadata" (task_spec env request_id hardware parts) ∧
    ∃ inner graph, vget "spec" spec' = VDict inner ∧ vget "graph" inner = VDict graph ∧ vget "nodes" graph = VList nodes'.
Proof.
  unfold resolve_api_credentials in H. simpl in H. apply result_bind_ok in H as (nodes' & Hn & [= <-]).
  exists nodes'. split; [|split; [done|by do 2 eexists]]. apply mapR_ok_inv in Hn.
  eapply Forall2_impl; [exact Hn|]. intros a b. apply resolve_node_filled.
Qed.

Definition demo_urlsplit (url : string) : result (string * option string * option Z) :=
  Ok (if String.eqb url "https://evil.example" then ("https", Some "evil.example", None) else ("https", Some "lum.id", None)).
Definition demo_api_node (url : string) : dict string val :=
  [("name", VStr "n"); ("spec", VDict [("taskType", VStr "api"); ("api", VDict [("url", VStr url);
     ("headers", VDict [("Authorization", VStr API_CREDENTIAL_PLACEHOLDER)])])])].
Definition demo_parts : task_parts := TaskParts [demo_api_node "https://lum.id"; demo_api_node "https://evil.example"] None [].

Lemma credentials_go_where_they_belong_witness : ∃ spec',
  resolve_api_credentials demo_urlsplit demo_config (λ _, Some "key") ["req-1"] (task_spec demo_config "exec-1" None demo_parts) = Ok spec' ∧
  ∃ nodes', Forall2 (filled demo_urlsplit demo_config (λ _, Some "key") ["req-1"]) (VDict <$> tp_nodes demo_parts) nodes' ∧
    vget "metadata" spec' = vget "metadata" (task_spec demo_config "exec-1" None demo_parts) ∧
    ∃ inner graph, vget "spec" spec' = VDict inner ∧ vget "graph" inner = VDict graph ∧ vget "nodes" graph = VList nodes'.
Proof.
  eexists. split; [vm_compute; reflexivity|].
  apply (credentials_go_where_they_belong demo_urlsplit demo_config (λ _, Some "key") ["req-1"] "exec-1" None demo_parts).
  vm_compute. reflexivity.
Defined.

(** An untrusted endpoint gets the credential of the caller. *)
Example untrusted_endpoint :
  resolve_node demo_urlsplit demo_config (λ _, Some "key") ["req-1"] (VDict (demo_api_node "https://evil.example")) =
  Ok (VDict [("name", VStr "n"); ("spec", VDict [("taskType", VStr "api"); ("api", VDict [("url", VStr "https://evil.example");
     ("headers", VDict [("Authorization", VStr "Bearer key")])])])]).
Proof. vm_compute. reflexivity. Qed.
