(* ===== verification/FlowmeshOutputs.v ===== *)
(** * Reading the outputs of a workflow

    The results of an output node are a JSON value; its items are found
    ([resolve_output_items]), artifacts they refer to are archived, and the
    path of the output is walked through every item
    (runtime/runtime_manager/flowmesh.py: [_walk_output_path],
    [_resolve_output_items], [_expand_embedding_rows],
    [_archive_artifact_items], [_aggregate_output_node]).

    Downloading an artifact and saving it is the parameter [archive], which
    gives the uri or the text of the error.  Error messages are cut before the
    values they print. *)

From Stdlib Require Import Ascii.
From S2P Require Import Prelude PyFloat PyDict PyValue PyString RuntimeGraph PythonStep ShardData.

Section outputs.
Context (json_loads : string → option val) (json_dumps : val → string).

(** ** Walking a path *)

(** [_select_dataframe_column] *)
Definition select_dataframe_column (value : val) (attr : string) : option (list val) :=
s ← df_table value;
decoded ← json_loads s;
match decoded with
| VDict d =>
    match vget attr d with
    | VDict column => Some (match column_values column with Ok ordered => ordered | Err _ => dvals column end)
    | _ => None
    end
| _ => None
end.

Definition split_walk_part (part : string) : result (string * option nat) :=
let malformed := Err (RuntimeError ("malformed output path part '" +:+ part +:+ "'")) in
match span (λ c, negb (ascii_code c =? 91)%N) (chars part) with
| (_, []) => if String.eqb part "" then malformed else Ok (part, None)
| (attr, _ :: rest) =>
    match reverse rest with
    | c :: suffix =>
        if (ascii_code c =? 93)%N then
          if isdigit (reverse suffix) then Ok (of_chars attr, Some (Z.to_nat (digits_value (reverse suffix))))
          else Err (RuntimeError ("malformed output path index in '" +:+ part +:+ "'"))
        else malformed
    | [] => malformed
    end
end.

Definition missing_field (output_op_id : string) : exn := RuntimeError ("output node " +:+ output_op_id +:+ " item missing field").
Definition missing_index (output_op_id : string) : exn := RuntimeError ("output node " +:+ output_op_id +:+ " item missing index").

Definition is_mapping (v : val) : bool := match v with VDict _ => true | _ => false end.
Definition is_list (v : val) : bool := match v with VList _ => true | _ => false end.

(** The attribute of one value. *)
Definition walk_attr_item (output_op_id attr : string) (value : val) : result val :=
match select_dataframe_column value attr with
| Some column => Ok (VList column)
| None =>
    match value with
    | VDict d => ok_or (missing_field output_op_id) (dget attr d)
    | _ => Err (missing_field output_op_id)
    end
end.

Definition walk_attr (output_op_id attr : string) (value : val) : result val :=
match value with
| VList l => if forallb is_mapping l then VList <$> mapR (walk_attr_item output_op_id attr) l else walk_attr_item output_op_id attr value
| _ => walk_attr_item output_op_id attr value
end.

(** A list of lists is indexed element by element. *)
Fixpoint walk_index (output_op_id : string) (index : nat) (value : val) : result val :=
match value with
| VList l =>
    if forallb is_list l then
      let fix go (l : list val) : result (list val) :=
        match l with
        | [] => Ok []
        | v :: l => v ← walk_index output_op_id index v; l ← go l; Ok (v :: l)
        end in
      l ← go l; Ok (VList l)
    else ok_or (missing_index output_op_id) (l !! index)
| _ => Err (missing_index output_op_id)
end.

Definition walk_part (output_op_id : string) (value : val) (part : string) : result val :=
value ← match value with
        | VStr s => ok_or (RuntimeError ("output node " +:+ output_op_id +:+ " cannot descend into non-JSON string")) (json_loads s)
        | _ => Ok value
        end;
parsed ← split_walk_part part;
let '(attr, index) := parsed in
value ← (if String.eqb attr "" then Ok value else walk_attr output_op_id attr value);
match index with Some i => walk_index output_op_id i value | None => Ok value end.

Definition walk_output_path (output_op_id : string) (item : val) (parts : list string) : result val :=
foldR (walk_part output_op_id) item parts.

(** [_coerce_output_value] *)
Definition coerce_output_value (value : val) : string := match value with VStr s => s | v => json_dumps v end.

(** ** Items *)

Definition no_items (output_op_id : string) : exn := RuntimeError ("output " +:+ output_op_id +:+ " produced no items").

Definition resolve_output_items (results_json : dict string val) (output_op_id : string) (task_type : option string)
  (prompt : option val) : result (list val) :=
match vget "items" results_json with
| VList items => Ok items
| _ =>
    if bool_decide (task_type = Some "python") then
      match vget "value" results_json with
      | VDict value =>
          match vget "items" value with
          | VList items => Ok items
          | _ => Err (RuntimeError ("python step " +:+ output_op_id +:+ " returned no items"))
          end
      | _ => Err (RuntimeError ("python step " +:+ output_op_id +:+ " returned no items"))
      end
    else if bool_decide (task_type = Some "api") then
      match vget "text" results_json with
      | VStr text =>
          Ok [VDict ([("output", VStr text)] ++ match prompt with Some p => [("metadata", VDict [("prompt", p)])] | None => [] end)]
      | _ => Err (RuntimeError ("output " +:+ output_op_id +:+ " produced no API response text"))
      end
    else
      match vget "embedding_file" results_json with
      | VDict file => if truthy (vget "path" file) then Ok [VDict results_json] else Err (no_items output_op_id)
      | _ => Err (no_items output_op_id)
      end
end.

Definition embedding_row_count (g : RuntimeGraph.t) (output_op_id : string) : option nat :=
node ← dget output_op_id (RuntimeGraph.nodes g);
if String.eqb (RuntimeOp.task_type node) "embedding" then
  match vget "items" (RuntimeOp.data_spec node) with VList items => Some (length items) | _ => None end
else None.

(** One entry per embedded row. *)
Definition expand_item (output_op_id : string) (it : val) : result (list val) :=
match it with
| VDict d =>
    match vget "usage" d with
    | VDict usage =>
        match vget "num_requests" usage with
        | VInt count =>
            if (count <? 1)%Z then Err (RuntimeError ("embedding output " +:+ output_op_id +:+ " has invalid usage.num_requests"))
            else Ok ((λ row, VDict (dset "row" (VInt (Z.of_nat row)) d)) <$> seq 0 (Z.to_nat count))
        | _ => Err (RuntimeError ("embedding output " +:+ output_op_id +:+ " has invalid usage.num_requests"))
        end
    | _ => Err (RuntimeError ("embedding output " +:+ output_op_id +:+ " item missing usage"))
    end
| _ => Err (AttributeError "get")
end.

Definition expand_embedding_rows (items : list val) (expected_row_count : option nat) (output_op_id : string) : result (list val) :=
rows ← mapR (expand_item output_op_id) items;
let expanded := concat rows in
match expected_row_count with
| Some n => if Nat.eqb (length expanded) n then Ok expanded
            else Err (RuntimeError ("embedding output " +:+ output_op_id +:+ " row count mismatch"))
| None => Ok expanded
end.

(** ** Artifacts *)

(** [Path(text).name] *)
Definition path_name (s : string) : string :=
default "" (last (filter (λ p, p ≠ "" ∧ p ≠ ".") (py_split "/"%char s))).

Section archive.
(** Downloads [path], saves it under a file name and gives its uri, or the
text of the error. *)
Context (archive : string → string → string + string).

Record archive_state := ArchiveState {
uri_by_path : dict string string;
error_by_path : dict string string;
(** the paths downloaded *)
downloads : list string;
}.

Definition failed_entry (error : string) : val := VDict [("output", VStr ""); ("error", VStr error)].

Definition archive_item (output_op_id ref_key : string) (extra_fields : list string) (st : archive_state) (it : val) :
result (archive_state * val) :=
match it with
| VDict d =>
  match vget ref_key d with
  | VDict ref =>
      match vget "path" ref with
      | VStr path =>
          if String.eqb path "" then Err (RuntimeError ("item missing " +:+ ref_key +:+ ".path"))
          else
            let entry uri := VDict (("output", VStr uri) :: ((λ f, (f, vget f d)) <$> extra_fields)) in
            match dget path (error_by_path st), dget path (uri_by_path st) with
            | Some error, _ => Ok (st, failed_entry error)
            | None, Some uri => Ok (st, entry uri)
            | None, None =>
                raw_name ← match vget "filename" ref with
                           | VStr f => Ok (if String.eqb f "" then path_name path else f)
                           | v => if truthy v then Err (TypeError "Path") else Ok (path_name path)
                           end;
                let filename := output_op_id +:+ "-" +:+ path_name raw_name in
                let downloads := downloads st ++ [path] in
                Ok (match archive path filename with
                    | inl uri => (ArchiveState (dset path uri (uri_by_path st)) (error_by_path st) downloads, entry uri)
                    | inr error => (ArchiveState (uri_by_path st) (dset path error (error_by_path st)) downloads, failed_entry error)
                    end)
            end
      | v => Err (if truthy v then TypeError "Path" else RuntimeError ("item missing " +:+ ref_key +:+ ".path"))
      end
  | _ => Err (RuntimeError ("item missing " +:+ ref_key))
  end
| _ => Err (AttributeError "get")
end.

Definition archive_artifact_items (archive_prefix output_op_id ref_key artifact_label : string) (items : list val)
(extra_fields : list string) : result (archive_state * list val) :=
if String.eqb archive_prefix "" then Err (RuntimeError ("S3_ARCHIVE_PREFIX is required for " +:+ artifact_label +:+ " outputs"))
else mapAccumR (archive_item output_op_id ref_key extra_fields) (ArchiveState [] [] []) items.

(** ** One output node *)

(** [any(isinstance(it.get(key), dict) for it in items)] *)
Fixpoint any_mapping (key : string) (items : list val) : result bool :=
match items with
| [] => Ok false
| VDict d :: items => if is_mapping (vget key d) then Ok true else any_mapping key items
| _ :: _ => Err (AttributeError "get")
end.

Definition malformed_path (output_op_id : string) : exn := RuntimeError ("OutputOp '" +:+ output_op_id +:+ "' has malformed path").

Definition output_parts (output_op_id : string) (output_path : option string) : result (list string) :=
match output_path with
| None => Ok ["output"]
| Some path =>
  if String.eqb path "items." then Err (malformed_path output_op_id)
  else if String.eqb path "items" then Ok []
  else match starts_with (chars "items.") (chars path) with
       | None => Err (malformed_path output_op_id)
       | Some rest =>
           let parts := py_split "."%char (of_chars rest) in
           if existsb (λ p, String.eqb p "" || startswith "[" p)%bool parts then Err (malformed_path output_op_id) else Ok parts
       end
end.

(** The items with their artifacts archived, and the path to walk. *)
Definition output_items (archive_prefix output_op_id : string) (items : list val) (output_path : option string)
(expected_row_count : option nat) : result (list val * list string) :=
any_mapping "image" items ≫= λ images : bool,
if images then
archived ← archive_artifact_items archive_prefix output_op_id "image" "image" items [];
Ok (archived.2, ["output"])
else
any_mapping "embedding_file" items ≫= λ embeddings : bool,
if embeddings then
  items ← expand_embedding_rows items expected_row_count output_op_id;
  archived ← archive_artifact_items archive_prefix output_op_id "embedding_file" "embedding" items ["model"; "row"];
  Ok (archived.2, [])
else parts ← output_parts output_op_id output_path; Ok (items, parts).

Definition flatten_rows (walked : val) : list string :=
match walked with VList l => coerce_output_value <$> l | v => [coerce_output_value v] end.

Definition aggregate_output_node (archive_prefix output_op_id : string) (items : list val) (output_path : option string)
(expected_row_count : option nat) (list_lambda list_lambda_cardinality rowwise_llm : bool) : result (list string) :=
prepared ← output_items archive_prefix output_op_id items output_path expected_row_count;
let '(items, parts) := prepared in
walked ← mapR (λ item, walk_output_path output_op_id item parts) items;
if list_lambda then Ok [coerce_output_value (VList walked)]
else if (match output_path with Some path => startswith "items.rows" path | None => false end || rowwise_llm)%bool then
let flattened := concat (flatten_rows <$> walked) in
Ok (if list_lambda_cardinality then [coerce_output_value (VList (VStr <$> flattened))] else flattened)
else Ok (coerce_output_value <$> walked).
End archive.

(** ** Chat histories *)

(** [item["metadata"]["prompt"]], when it is a list *)
Definition item_prompt (item : val) : option (list val) :=
match item with
| VDict d =>
    match dget "metadata" d with
    | Some (VDict metadata) => match dget "prompt" metadata with Some (VList prompt) => Some prompt | _ => None end
    | _ => None
    end
| _ => None
end.

Definition output_prompts (items : list val) (outputs : list string) : list val :=
if Nat.eqb (length items) (length outputs) then
  omap (λ it : val * string,
    (λ prompt, VList (prompt ++ [VDict [("role", VStr "assistant"); ("content", VStr it.2)]])) <$> item_prompt it.1)
    (zip items outputs)
else [].
End outputs.

Example split_part_ex : split_walk_part "choices[12]" = Ok ("choices", Some 12). Proof. reflexivity. Qed.
Example split_part_ex2 : split_walk_part "[0]" = Ok ("", Some 0). Proof. reflexivity. Qed.
Example path_name_ex : path_name "out/a.png" = "a.png". Proof. reflexivity. Qed.
Example walk_ex : walk_output_path (λ _, None) "o"
  (VDict [("rows", VList [VDict [("c", VList [VStr "x"])]; VDict [("c", VList [VStr "y"])]])]) ["rows"; "c[0]"] = Ok (VList [VStr "x"; VStr "y"]).
Proof. reflexivity. Qed.
