(* ===== verification/FlowmeshOutputsProps.v ===== *)
(** * Properties of the outputs of a workflow

    What a Python step returns is what its output node shows; every artifact
    is downloaded once; every embedded row becomes one item. *)

From Stdlib Require Import Ascii.
From S2P Require Import Prelude PyFloat PyDict PyValue PyString RuntimeGraph PythonStep PythonStepProps ShardData FlowmeshOutputs.

(** ** Python steps *)

Section python.
Context (json_loads : string → option val) (json_dumps : val → string) (archive : string → string → string + string).
Local Abbreviation aggregate := (aggregate_output_node json_loads json_dumps archive).

(** An item of a Python step: a dict with an output and nothing that refers to
an artifact. *)
Definition plain_item (item : val) (output : val) : Prop :=
∃ d, item = VDict d ∧ dget "output" d = Some output ∧ dget "image" d = None ∧ dget "embedding_file" d = None ∧ df_table item = None.

Lemma plain_no_artifacts key items outs : (key = "image" ∨ key = "embedding_file") → Forall2 plain_item items outs → any_mapping key items = Ok false.
Proof.
intros Hk. induction 1 as [|item out items outs (d & -> & _ & Hi & He & _) _ IH]; [done|]. simpl. unfold vget, dget_or.
destruct Hk as [-> | ->]; by rewrite ?Hi, ?He.
Qed.

Lemma walk_plain output_op_id items outs : Forall2 plain_item items outs →
mapR (λ item, walk_output_path json_loads output_op_id item ["output"]) items = Ok outs.
Proof.
induction 1 as [|item out items outs (d & -> & Ho & _ & _ & Hdf) _ IH]; [done|]. simpl. rewrite IH.
unfold walk_output_path. simpl. unfold walk_part. cbn [mbind result_bind].
change (split_walk_part "output") with (Ok ("output", @None nat) : result (string * option nat)). cbn [mbind result_bind String.eqb Ascii.eqb].
unfold walk_attr, walk_attr_item, select_dataframe_column. rewrite Hdf. cbn. by rewrite Ho.
Qed.

Lemma aggregate_plain prefix o items outs cardinality list_lambda : Forall2 plain_item items outs →
aggregate prefix o items None None list_lambda cardinality false =
Ok (if list_lambda : bool then [coerce_output_value json_dumps (VList outs)] else coerce_output_value json_dumps <$> outs).
Proof.
intros H. unfold aggregate_output_node, output_items.
rewrite (plain_no_artifacts "image" items outs) by auto. cbn [mbind result_bind].
rewrite (plain_no_artifacts "embedding_file" items outs) by auto. cbn [mbind result_bind output_parts].
rewrite (walk_plain o items outs H). cbn. by destruct list_lambda.
Qed.

Lemma plain_rows results : Forall2 plain_item ((λ r, VDict [("output", as_text json_dumps r); ("value", r)]) <$> results) (as_text json_dumps <$> results).
Proof. induction results as [|r results IH]; csimpl; constructor; [|done]. by eexists. Qed.

Lemma plain_outputs outs : Forall2 plain_item ((λ v, VDict [("output", v)]) <$> outs) outs.
Proof. induction outs as [|v outs IH]; csimpl; constructor; [|done]. eexists. split_and!; try done. simpl. by destruct v. Qed.

(** The results FlowMesh keeps of a Python task. *)
Definition python_results (returned : val) : dict string val := [("value", returned)].

Lemma resolve_python items o prompt : resolve_output_items (python_results (items_result items)) o (Some "python") prompt = Ok items.
Proof. done. Qed.
End python.

(** C12: the outputs of a Lambda that is a workflow output are exactly what its
    function computed on its inputs.  In row mode there is one output per row,
    in order, the text of the function's result on that row of the inputs, of
    which those of one value are repeated; in list mode one output, the JSON text of all
    values; in aligned mode one output per value, as many as there are rows. *)
Theorem lambda_outputs (json_loads : string → option val) (json_dumps : val → string) (archive : string → string → string + string)
    (fn : list val → result val) (plan : list val) (inputs : dict string val) (prefix o : string) (cardinality : bool) :
  let shown list_lambda returned :=
    items ← resolve_output_items (python_results returned) o (Some "python") None;
    aggregate_output_node json_loads json_dumps archive prefix o items None None list_lambda cardinality false in
  (∀ v, row_main json_loads json_dumps fn plan inputs = Ok v → ∃ columns rows results,
     mapR (column json_loads (as_text json_dumps) inputs) plan = Ok columns ∧ mapR fn rows = Ok results ∧
     length rows = max_length 1 columns ∧ (∀ i row, rows !! i = Some row → row_at columns i row) ∧ shown false v = Ok (py_text json_dumps <$> results)) ∧
  (∀ v, list_main json_loads fn plan inputs = Ok v → ∃ columns value values,
     mapR (column json_loads id inputs) plan = Ok columns ∧ fn (VList <$> columns) = Ok value ∧ py_iter value = Ok values ∧
     shown true v = Ok [json_dumps (VList values)]) ∧
  (∀ v, aligned_main json_loads fn plan inputs = Ok v → ∃ columns value values,
     mapR (column json_loads id inputs) plan = Ok columns ∧ fn (VList <$> columns) = Ok value ∧ py_iter value = Ok values ∧
     length values = max_length 0 columns ∧ shown false v = Ok (coerce_output_value json_dumps <$> values)).
Proof.
  cbv zeta. split_and!.
  - intros v H. unfold row_main in H. apply result_bind_ok in H as (columns & Hc & H). apply result_bind_ok in H as ([] & _ & H).
    apply result_bind_ok in H as (rows & Hr & H). apply result_bind_ok in H as (results & Hf & [= <-]).
    exists columns, rows, results. split; [done|]. split; [done|]. apply broadcast_rows_at in Hr as [Hlen Hrows].
    split; [done|]. split; [done|].
    rewrite resolve_python. cbn [mbind result_bind]. rewrite (aggregate_plain _ _ _ _ _ _ _ _ _ (plain_rows json_dumps results)).
    f_equal. rewrite <-list_fmap_compose. done.
  - intros v H. unfold list_main in H. apply result_bind_ok in H as (columns & Hc & H). apply result_bind_ok in H as (value & Hv & H).
    apply result_bind_ok in H as (values & Hi & [= <-]). exists columns, value, values. split_and!; try done.
    rewrite resolve_python. cbn [mbind result_bind]. by rewrite (aggregate_plain _ _ _ _ _ _ _ _ _ (plain_outputs values)).
  - intros v H. unfold aligned_main in H. apply result_bind_ok in H as (columns & Hc & H). apply result_bind_ok in H as ([] & _ & H).
    apply result_bind_ok in H as (value & Hv & H). apply result_bind_ok in H as (size & Hs & H).
    destruct (Nat.eqb_spec size (max_length 0 columns)) as [E|]; [|done]. cbn [negb] in H.
    apply result_bind_ok in H as (values & Hi & [= <-]). exists columns, value, values. split_and!; try done.
    { rewrite <-E. destruct value; simpl in *; try done; injection Hs as <-; injection Hi as <-; rewrite ?length_fmap; try done. unfold dkeys. by rewrite length_fmap. }
    rewrite resolve_python. cbn [mbind result_bind]. by rewrite (aggregate_plain _ _ _ _ _ _ _ _ _ (plain_outputs values)).
Qed.

Lemma lambda_outputs_witness :
  let plan := [VDict [("kind", VStr "literal"); ("values", VList [VStr "a"; VStr "b"])]] in
  let v := items_result [VDict [("output", VStr "a"); ("value", VStr "a")]; VDict [("output", VStr "b"); ("value", VStr "b")]] in
  let fn row := ok_or (IndexError "") (head row) in
  row_main (λ _, None) (λ _, "") fn plan [] = Ok v ∧
  ∃ columns rows results, mapR (column (λ _, None) (as_text (λ _, "")) []) plan = Ok columns ∧ mapR fn rows = Ok results ∧
    length rows = max_length 1 columns ∧ (∀ i row, rows !! i = Some row → row_at columns i row) ∧
    (items ← resolve_output_items (python_results v) "o" (Some "python") None;
     aggregate_output_node (λ _, None) (λ _, "") (λ _ _, inl "") "" "o" items None None false false false) = Ok (py_text (λ _, "") <$> results).
Proof.
  cbv zeta. split; [reflexivity|].
  apply (proj1 (lambda_outputs (λ _, None) (λ _, "") (λ _ _, inl "") (λ row, ok_or (IndexError "") (head row))
    [VDict [("kind", VStr "literal"); ("values", VList [VStr "a"; VStr "b"])]] [] "" "o" false)).
  reflexivity.
Defined.

(** ** Artifacts *)

Section archive.
Context (archive : string → string → string + string) (output_op_id ref_key : string) (extra_fields : list string).

(** The path an item refers to. *)
Definition item_path (it : val) : option string :=
match it with
| VDict d => match vget ref_key d with VDict ref => match vget "path" ref with VStr p => Some p | _ => None end | _ => None end
| _ => None
end.

Definition entry_output (entry : val) : option (string + string) :=
match entry with
| VDict (("output", VStr out) :: rest) => match rest with [("error", VStr e)] => Some (inr e) | _ => Some (inl out) end
| _ => None
end.

Record archive_inv (st : archive_state) : Prop := {
ai_nodup : NoDup (downloads st);
ai_known p : p ∈ downloads st ↔ p ∈ dkeys (uri_by_path st) ∨ p ∈ dkeys (error_by_path st);
ai_split p : p ∈ dkeys (uri_by_path st) → p ∉ dkeys (error_by_path st);
}.

(** What is kept of a path: its uri or its error. *)
Definition outcome_of (st : archive_state) (p : string) : option (string + string) :=
match dget p (error_by_path st) with Some e => Some (inr e) | None => inl <$> dget p (uri_by_path st) end.

(** The entry written for an item with a given outcome. *)
Definition entry_for (it : val) (outcome : string + string) : val :=
match outcome with
| inr error => failed_entry error
| inl uri => VDict (("output", VStr uri) :: ((λ f, (f, match it with VDict d => vget f d | _ => VNone end)) <$> extra_fields))
end.

Lemma archive_item_spec st it st' entry : archive_inv st → archive_item archive output_op_id ref_key extra_fields st it = Ok (st', entry) →
archive_inv st' ∧ ∃ p outcome, item_path it = Some p ∧ entry = entry_for it outcome ∧ outcome_of st' p = Some outcome ∧
  (∀ q o, outcome_of st q = Some o → outcome_of st' q = Some o) ∧
  (downloads st' = downloads st ++ [p] ∧ p ∉ downloads st ∨ st' = st ∧ p ∈ downloads st).
Proof.
intros Hinv. unfold archive_item, item_path. destruct it as [| | | | | | |d]; try done.
destruct (vget ref_key d) as [| | | | | | |ref]; try done. destruct (vget "path" ref) as [| | | |p| | |]; try done.
destruct (String.eqb_spec p "") as [|Hp]; [done|].
destruct (dget p (error_by_path st)) as [e|] eqn:Ee.
{ intros [= <- <-]. split; [done|]. exists p, (inr e). split_and!; try done; [unfold outcome_of; by rewrite Ee|].
  right. split; [done|]. apply (ai_known _ Hinv). right. apply dget_is_Some. by eexists. }
destruct (dget p (uri_by_path st)) as [u|] eqn:Eu.
{ intros [= <- <-]. split; [done|]. exists p, (inl u). split_and!; try done; [unfold outcome_of; by rewrite Ee, Eu|].
  right. split; [done|]. apply (ai_known _ Hinv). left. apply dget_is_Some. by eexists. }
intros H. apply result_bind_ok in H as (name & _ & [= H]).
assert (Hnew : p ∉ downloads st).
{ rewrite (ai_known _ Hinv). apply dget_None in Ee, Eu. tauto. }
assert (Hnd : NoDup (downloads st ++ [p])).
{ apply NoDup_app. split; [apply Hinv|]. split; [set_solver|apply NoDup_singleton]. }
destruct (archive p _) as [uri|error]; injection H as <- <-.
- split; [split; simpl; [done| |]|].
  + intros q. rewrite elem_of_app, list_elem_of_singleton, elem_of_dkeys_dset, (ai_known _ Hinv). tauto.
  + intros q. rewrite elem_of_dkeys_dset. intros [->|Hq]; [by apply dget_None|by apply (ai_split _ Hinv)].
  + exists p, (inl uri). unfold outcome_of. simpl. rewrite Ee, dget_dset_eq. split_and!; try done; [|by left].
    intros q o Hq. rewrite dget_dset. case_decide as D; [|done]. subst q. by rewrite Ee, Eu in Hq.
- split; [split; simpl; [done| |]|].
  + intros q. rewrite elem_of_app, list_elem_of_singleton, elem_of_dkeys_dset, (ai_known _ Hinv). tauto.
  + intros q Hq. rewrite elem_of_dkeys_dset. intros [->|Hq']; [by apply dget_None in Eu|by apply (ai_split _ Hinv q)].
  + exists p, (inr error). unfold outcome_of. simpl. rewrite dget_dset_eq. split_and!; try done; [|by left].
    intros q o Hq. rewrite dget_dset. case_decide as D; [|done]. subst q. by rewrite Ee, Eu in Hq.
Qed.

Lemma archive_items_spec st items st' entries : archive_inv st →
mapAccumR (archive_item archive output_op_id ref_key extra_fields) st items = Ok (st', entries) →
archive_inv st' ∧ (∀ q o, outcome_of st q = Some o → outcome_of st' q = Some o) ∧
Forall2 (λ it entry, ∃ p outcome, item_path it = Some p ∧ outcome_of st' p = Some outcome ∧ entry = entry_for it outcome) items entries ∧
(∀ p, p ∈ downloads st' ↔ p ∈ downloads st ∨ ∃ it, it ∈ items ∧ item_path it = Some p).
Proof.
revert st entries. induction items as [|it items IH]; intros st entries Hinv H.
- injection H as <- <-. split_and!; try done. set_solver.
- simpl in H. apply result_bind_ok in H as ([st1 entry] & H1 & H). apply result_bind_ok in H as ([st2 entries'] & H2 & [= <- <-]).
  apply archive_item_spec in H1 as (Hinv1 & p & outcome & Hp & -> & Ho & Hmono & Hd); [|done]. simpl in H2.
  destruct (IH st1 entries' Hinv1 H2) as (Hinv2 & Hmono2 & Hf & Hd2). split; [done|]. split; [auto|]. split.
  + constructor; [|done]. exists p, outcome. split_and!; auto.
  + intros q. rewrite Hd2. setoid_rewrite elem_of_cons. destruct Hd as [[-> _]|[-> Hin]].
    * rewrite elem_of_app, list_elem_of_singleton. split; [|naive_solver].
      intros [[?| ->]|(x & ? & ?)]; [by left|right; exists it; auto|right; exists x; auto].
    * split; [naive_solver|]. intros [?|(x & [->|Hx] & E)]; [by left| |right; by exists x]. left. congruence.
Qed.
End archive.

(** Archiving the artifacts of an output downloads the artifact of each
    path that occurs once, never twice, and answers every item: with the uri of
    its artifact and the fields that are kept, or with the error, the same for
    all items that share the path. *)
Theorem artifacts_are_archived_once (archive : string → string → string + string) (prefix o ref_key label : string)
    (items : list val) (extra_fields : list string) (st : archive_state) (entries : list val)
    (H : archive_artifact_items archive prefix o ref_key label items extra_fields = Ok (st, entries)) :
  NoDup (downloads st) ∧ (∀ p, p ∈ downloads st ↔ ∃ it, it ∈ items ∧ item_path ref_key it = Some p) ∧
  ∃ outcome : string → string + string,
    Forall2 (λ it entry, ∃ p, item_path ref_key it = Some p ∧ entry = entry_for extra_fields it (outcome p)) items entries.
Proof.
  unfold archive_artifact_items in H. destruct (String.eqb prefix ""); [done|].
  apply archive_items_spec in H as (Hinv & _ & Hf & Hd).
  - split; [apply Hinv|]. split; [intros p; rewrite Hd; simpl; set_solver|].
    exists (λ p, default (inl "") (outcome_of st p)). eapply Forall2_impl; [exact Hf|].
    intros it entry (p & outcome & Hp & Ho & ->). exists p. split; [done|]. by rewrite Ho.
  - split; simpl; [constructor|set_solver|set_solver].
Qed.

Definition demo_item (path : string) : val := VDict [("embedding_file", VDict [("path", VStr path)]); ("model", VStr "m"); ("row", VInt 0)].

Lemma artifacts_are_archived_once_witness : ∃ st entries,
  archive_artifact_items (λ p f, inl f) "s3" "o" "embedding_file" "embedding" [demo_item "d/a"; demo_item "d/a"; demo_item "d/b"] ["model"; "row"] = Ok (st, entries) ∧
  NoDup (downloads st) ∧ (∀ p, p ∈ downloads st ↔ ∃ it, it ∈ [demo_item "d/a"; demo_item "d/a"; demo_item "d/b"] ∧ item_path "embedding_file" it = Some p) ∧
  ∃ outcome : string → string + string,
    Forall2 (λ it entry, ∃ p, item_path "embedding_file" it = Some p ∧ entry = entry_for ["model"; "row"] it (outcome p))
      [demo_item "d/a"; demo_item "d/a"; demo_item "d/b"] entries.
Proof.
  do 2 eexists. split; [vm_compute; reflexivity|].
  eapply (artifacts_are_archived_once (λ p f, inl f) "s3" "o" "embedding_file" "embedding"). vm_compute. reflexivity.
Defined.
