(* ===== verification/FlowmeshTables.v ===== *)
(** * The tables of the FlowMesh runtime manager

    [FlowmeshRuntimeManager] keeps, for every execution batch, the status of
    its tasks, its workflow, its progress, and the credentials of the requests
    (runtime/runtime_manager/flowmesh.py).  Here are the state and the
    operations that only read or write it; running a batch is [FlowmeshRun].
    Times are floats given to the operations that read the clock. *)

From S2P Require Import Prelude PyFloat PyDict PyValue PyString RuntimeGraph Sensitive FlowmeshClient.

Definition TERMINAL_STATUSES : list string := ["DONE"; "FAILED"].
Definition is_terminal (status : string) : bool := bool_decide (status ∈ TERMINAL_STATUSES).

(** (request id, batch id) *)
Abbreviation batch_key := (string * string)%type.

Module DispatchCredentials.
Record t := mk {
runtime_token : option string;
api_credential : option string;
}.
End DispatchCredentials.

Record manager := Manager {
  schema_cache : dict string val;
  data_profile_task_status : dict batch_key (dict string string);
  execution_task_status : dict batch_key (dict string string);
  execution_task_errors : dict string string;
  execution_output_tasks : dict batch_key (list string);
  task_node_map : dict batch_key (dict string string);
  batch_status : dict batch_key string;
  batch_metadata : dict batch_key (dict string val);
  batch_workflow_id : dict batch_key string;
  request_task_ids : dict batch_key (list string);
  cancelled_requests : list string;
  dispatch_tokens : dict string DispatchCredentials.t;
}.

Definition set_schema_cache (x : dict string val) (m : manager) : manager :=
  Manager x (data_profile_task_status m) (execution_task_status m) (execution_task_errors m) (execution_output_tasks m) (task_node_map m) (batch_status m) (batch_metadata m) (batch_workflow_id m) (request_task_ids m) (cancelled_requests m) (dispatch_tokens m).
Definition set_execution_task_status (x : dict batch_key (dict string string)) (m : manager) : manager :=
  Manager (schema_cache m) (data_profile_task_status m) x (execution_task_errors m) (execution_output_tasks m) (task_node_map m) (batch_status m) (batch_metadata m) (batch_workflow_id m) (request_task_ids m) (cancelled_requests m) (dispatch_tokens m).
Definition set_execution_task_errors (x : dict string string) (m : manager) : manager :=
  Manager (schema_cache m) (data_profile_task_status m) (execution_task_status m) x (execution_output_tasks m) (task_node_map m) (batch_status m) (batch_metadata m) (batch_workflow_id m) (request_task_ids m) (cancelled_requests m) (dispatch_tokens m).
Definition set_execution_output_tasks (x : dict batch_key (list string)) (m : manager) : manager :=
  Manager (schema_cache m) (data_profile_task_status m) (execution_task_status m) (execution_task_errors m) x (task_node_map m) (batch_status m) (batch_metadata m) (batch_workflow_id m) (request_task_ids m) (cancelled_requests m) (dispatch_tokens m).
Definition set_task_node_map (x : dict batch_key (dict string string)) (m : manager) : manager :=
  Manager (schema_cache m) (data_profile_task_status m) (execution_task_status m) (execution_task_errors m) (execution_output_tasks m) x (batch_status m) (batch_metadata m) (batch_workflow_id m) (request_task_ids m) (cancelled_requests m) (dispatch_tokens m).
Definition set_batch_status (x : dict batch_key string) (m : manager) : manager :=
  Manager (schema_cache m) (data_profile_task_status m) (execution_task_status m) (execution_task_errors m) (execution_output_tasks m) (task_node_map m) x (batch_metadata m) (batch_workflow_id m) (request_task_ids m) (cancelled_requests m) (dispatch_tokens m).
Definition set_batch_metadata (x : dict batch_key (dict string val)) (m : manager) : manager :=
  Manager (schema_cache m) (data_profile_task_status m) (execution_task_status m) (execution_task_errors m) (execution_output_tasks m) (task_node_map m) (batch_status m) x (batch_workflow_id m) (request_task_ids m) (cancelled_requests m) (dispatch_tokens m).
Definition set_batch_workflow_id (x : dict batch_key string) (m : manager) : manager :=
  Manager (schema_cache m) (data_profile_task_status m) (execution_task_status m) (execution_task_errors m) (execution_output_tasks m) (task_node_map m) (batch_status m) (batch_metadata m) x (request_task_ids m) (cancelled_requests m) (dispatch_tokens m).
Definition set_request_task_ids (x : dict batch_key (list string)) (m : manager) : manager :=
  Manager (schema_cache m) (data_profile_task_status m) (execution_task_status m) (execution_task_errors m) (execution_output_tasks m) (task_node_map m) (batch_status m) (batch_metadata m) (batch_workflow_id m) x (cancelled_requests m) (dispatch_tokens m).
Definition set_cancelled_requests (x : list string) (m : manager) : manager :=
  Manager (schema_cache m) (data_profile_task_status m) (execution_task_status m) (execution_task_errors m) (execution_output_tasks m) (task_node_map m) (batch_status m) (batch_metadata m) (batch_workflow_id m) (request_task_ids m) x (dispatch_tokens m).
Definition set_dispatch_tokens (x : dict string DispatchCredentials.t) (m : manager) : manager :=
  Manager (schema_cache m) (data_profile_task_status m) (execution_task_status m) (execution_task_errors m) (execution_output_tasks m) (task_node_map m) (batch_status m) (batch_metadata m) (batch_workflow_id m) (request_task_ids m) (cancelled_requests m) x.

Definition empty_manager : manager := Manager [] [] [] [] [] [] [] [] [] [] [] [].

(** ** Credentials *)

Definition credentials_of (m : manager) (request_id : string) : DispatchCredentials.t :=
  dget_or (DispatchCredentials.mk None None) request_id (dispatch_tokens m).

Definition set_dispatch_token (request_id : string) (token : option string) (m : manager) : manager :=
  set_dispatch_tokens (dset request_id
    (DispatchCredentials.mk token (DispatchCredentials.api_credential (credentials_of m request_id))) (dispatch_tokens m)) m.
Definition get_dispatch_token (request_id : string) (m : manager) : option string :=
  dget request_id (dispatch_tokens m) ≫= DispatchCredentials.runtime_token.
Definition set_api_credential (request_id : string) (credential : option string) (m : manager) : manager :=
  set_dispatch_tokens (dset request_id
    (DispatchCredentials.mk (DispatchCredentials.runtime_token (credentials_of m request_id)) credential) (dispatch_tokens m)) m.
Definition get_api_credential (request_id : string) (m : manager) : option string :=
  dget request_id (dispatch_tokens m) ≫= DispatchCredentials.api_credential.
Definition clear_dispatch_token (request_id : string) (m : manager) : manager :=
  set_dispatch_tokens (ddel request_id (dispatch_tokens m)) m.

(** ** Task statuses *)

(** [len([t for t in task_status.values() if t == status])] *)
Definition count_status (status : string) (task_status : dict string string) : Z :=
  Z.of_nat (length (filter (λ t, t = status) (dvals task_status))).

Definition formulate_details (task_status : dict string string) : dict string Z :=
  [("succeeded", count_status "DONE" task_status); ("failed", count_status "FAILED" task_status);
   ("pending", count_status "PENDING" task_status); ("dispatched", count_status "DISPATCHED" task_status)].

Section errors.
Context (json_loads : string → option val) (json_dumps : val → string).

(** [error.strip()] of the first of the two that is not empty *)
Definition task_error (error last_error : option string) : option string :=
let first := match error with Some "" | None => last_error | _ => error end in
match first with
| Some e => if String.eqb (strip e) "" then None else Some (redact_secrets_in_text json_loads json_dumps (strip e))
| None => None
end.

Definition record_task_error (task_id : string) (error last_error : option string) (m : manager) : manager :=
match task_error error last_error with
| Some e => set_execution_task_errors (dset task_id e (execution_task_errors m)) m
| None => m
end.
End errors.

Definition task_failure_reason (m : manager) (task_id : string) (task_node_map : dict string string) : string :=
  match dget task_id task_node_map with Some "" | None => "" | Some node_id => " (node " +:+ node_id +:+ ")" end +:+
  match dget task_id (execution_task_errors m) with Some "" | None => "" | Some error => ": " +:+ error end.

(** [_output_task_status_aggregated] *)
Definition output_task_status_aggregated (m : manager) (execution_batch_keys : list batch_key) : result (dict string string) :=
  foldR (λ aggregated key,
    tasks ← dindex (KeyError key.2) key (execution_output_tasks m);
    foldR (λ aggregated task_id,
      statuses ← dindex (KeyError key.2) key (execution_task_status m);
      status ← dindex (KeyError task_id) task_id statuses;
      Ok (dset task_id status aggregated)) aggregated tasks) [] execution_batch_keys.

(** ** Batches *)

Definition blank_metadata : dict string val :=
  [("total_nodes", VInt 0); ("output_nodes", VInt 0); ("start_time", VNone); ("end_time", VNone);
   ("raw_nodes", VInt 0); ("flowmesh_nodes", VInt 0)].

Definition mark_batch_pending (request_id batch_id : string) (total_nodes output_nodes : Z) (m : manager) : manager :=
  let key := (request_id, batch_id) in
  set_batch_metadata (dset key
    [("total_nodes", VInt total_nodes); ("output_nodes", VInt output_nodes); ("start_time", VNone); ("end_time", VNone);
     ("raw_nodes", VInt total_nodes); ("flowmesh_nodes", VInt total_nodes)] (batch_metadata m))
    (set_batch_status (dset key "PENDING" (batch_status m)) m).

(** [if metadata.get(key) is None: metadata[key] = time.time()] *)
Definition stamp (key : string) (now : f64) (metadata : dict string val) : dict string val :=
  if is_none (vget key metadata) then dset key (VFloat now) metadata else metadata.

Definition update_metadata (key : batch_key) (f : dict string val → dict string val) (m : manager) : manager :=
  set_batch_metadata (dset key (f (dget_or blank_metadata key (batch_metadata m))) (batch_metadata m)) m.

Definition mark_batch_running (request_id batch_id : string) (now : f64) (m : manager) : manager :=
  let key := (request_id, batch_id) in
  update_metadata key (λ metadata, dset "end_time" VNone (stamp "start_time" now metadata))
    (set_batch_status (dset key "RUNNING" (batch_status m)) m).

(** The two calls of the clock may differ. *)
Definition finish_batch (status request_id batch_id : string) (now now' : f64) (m : manager) : manager :=
  let key := (request_id, batch_id) in
  update_metadata key (λ metadata, stamp "end_time" now' (stamp "start_time" now metadata))
    (set_batch_status (dset key status (batch_status m)) m).
Definition mark_batch_completed := finish_batch "COMPLETED".
Definition mark_batch_failed := finish_batch "FAILED".

Definition get_task_node_map (request_id batch_id : string) (m : manager) : dict string string :=
  dget_or [] (request_id, batch_id) (task_node_map m).

(** The task ids per workflow id of a member request. *)
Definition task_ids_for_request (request_id : string) (m : manager) : dict string (list string) :=
  dict_of (omap (λ entry : batch_key * list string,
    if String.eqb entry.1.1 request_id then Some (entry.1.2, entry.2) else None) (request_task_ids m)).

Definition release_executions (execution_ids : list string) (m : manager) : manager :=
  set_batch_workflow_id (filter (λ entry, entry.1.1 ∉ execution_ids) (batch_workflow_id m)) m.
Definition release_request_task_ids (request_id : string) (m : manager) : manager :=
  set_request_task_ids (filter (λ entry, entry.1.1 ≠ request_id) (request_task_ids m)) m.

Definition count_runtime_nodes (graphs : dict string RuntimeGraph.t) : Z :=
  foldl Z.add 0%Z (RuntimeGraph.node_count <$> dvals graphs).

(** ** Progress *)

Definition as_non_negative_int (v : val) : result Z :=
  match v with
  | VFloat f => z ← (match to_frac f with
                     | Some (n, d) => Ok (Z.quot n d)
                     | None => Err (if is_nan f then ValueError "cannot convert float NaN to integer" else OverflowError)
                     end); Ok (Z.max 0 z)
  | _ => Ok (match as_int v with Some z => Z.max 0 z | None => 0%Z end)
  end.

(** [round(x, 1)] *)
Definition fround1 (x : f64) : f64 :=
  match to_frac x with Some (n, d) => int_truediv (half_even (n * 10) d) 10 | None => x end.

Definition num_float (v : val) : option f64 :=
  match v with VFloat f => Some f | VInt z => Some (of_Z z) | VBool b => Some (of_Z (if b then 1 else 0)) | _ => None end.

Record batch_info := BatchInfo {
  bi_batch_id : string;
  bi_status : string;
  bi_elapsed_time : option f64;
  bi_nodes : dict string Z;
}.

(** The counters of the loop. *)
Record progress := Progress {
  completed_count : Z; running_count : Z; pending_count : Z; failed_count : Z;
  total_nodes_overall : Z; completed_nodes_overall : Z; raw_nodes_overall : Z; flowmesh_nodes_overall : Z;
  completed_batches_elapsed : f64;
  batches : list batch_info;
}.
Definition no_progress : progress := Progress 0 0 0 0 0 0 0 0 fzero [].

(** [elapsed]; [start_time] and [end_time] are numbers or [None]. *)
Definition batch_elapsed (status : string) (start_time end_time : val) (now : f64) : result (option f64) :=
  if is_none start_time then Ok None
  else
    start ← ok_or (TypeError "unsupported operand") (num_float start_time);
    let elapsed := match num_float end_time with
                   | Some end_ => if bool_decide (status ∈ ["COMPLETED"; "FAILED"]) then fsub end_ start else fsub now start
                   | None => fsub now start
                   end in
    Ok (Some (if fltb elapsed fzero then fzero else elapsed)).

Definition batch_progress (now : f64) (m : manager) (p : progress) (key : batch_key) : result progress :=
  let status := dget_or "PENDING" key (batch_status m) in
  let metadata := dget_or [] key (batch_metadata m) in
  flowmesh_nodes ← as_non_negative_int (vget "flowmesh_nodes" metadata);
  raw_nodes ← as_non_negative_int (vget "raw_nodes" metadata);
  elapsed ← batch_elapsed status (vget "start_time" metadata) (vget "end_time" metadata) now;
  let one (s : string) := if String.eqb status s then 1%Z else 0%Z in
  let other := if bool_decide (status ∈ ["COMPLETED"; "RUNNING"; "FAILED"]) then 0%Z else 1%Z in
  let '(nodes, total, completed) :=
    match dget key (execution_task_status m) with
    | Some task_status =>
        let details := formulate_details task_status in
        let total := foldl Z.add 0%Z (dvals details) in
        (details ++ [("total", total)], total, (count_status "DONE" task_status + count_status "FAILED" task_status)%Z)
    | None => ([("total", flowmesh_nodes)], flowmesh_nodes, 0%Z)
    end in
  let done_elapsed := match elapsed with Some e => if String.eqb status "COMPLETED" then fadd (completed_batches_elapsed p) e
                                         else completed_batches_elapsed p | None => completed_batches_elapsed p end in
  Ok (Progress (completed_count p + one "COMPLETED") (running_count p + one "RUNNING") (pending_count p + other) (failed_count p + one "FAILED")
        (total_nodes_overall p + total) (completed_nodes_overall p + completed) (raw_nodes_overall p + raw_nodes)
        (flowmesh_nodes_overall p + flowmesh_nodes) done_elapsed
        (batches p ++ [BatchInfo key.2 status (fround1 <$> elapsed) nodes]))%Z.

Record batch_report := BatchReport {
  br_total : Z;
  br_counts : progress;
  br_percentage : f64;
  br_eta : option f64;
}.

Definition build_batch_progress (now : f64) (m : manager) (batch_keys : list batch_key) : result batch_report :=
  p ← foldR (batch_progress now m) no_progress batch_keys;
  let eta :=
    if ((0 <? completed_count p) && ((0 <? running_count p) || (0 <? pending_count p)))%Z%bool then
      Some (fround1 (fmul (fdiv (completed_batches_elapsed p) (of_Z (completed_count p))) (of_Z (running_count p + pending_count p))))
    else None in
  let percentage :=
    if (0 <? total_nodes_overall p)%Z then
      fround1 (fmul (int_truediv (completed_nodes_overall p) (total_nodes_overall p)) (of_Z 100))
    else fzero in
  Ok (BatchReport (Z.of_nat (length batch_keys)) p percentage eta).

Example round_ex : fround1 (fdiv (of_Z 1) (of_Z 3)) = fdiv (of_Z 3) (of_Z 10). Proof. vm_compute. reflexivity. Qed.
