(* ===== verification/FlowmeshRun.v ===== *)
(** * Running a batch on FlowMesh

    [process_request] submits the workflow of a batch, maps the accepted tasks
    to nodes, polls their statuses, archives the response of every finished
    task and reads the outputs (runtime/runtime_manager/flowmesh.py).

    The world of the coroutine is the service, the tables of the manager, the
    artifacts saved and the workflows submitted.  At every await other
    coroutines may run: [others] is what they do to the tables meanwhile.  The
    clock is read from the service state.  One round of the poll loop is
    [poll_round]; the loop has fuel, and a run that exhausts it is still
    polling ([None]). *)

From S2P Require Import Prelude PyFloat PyDict PyValue PyString Protocol RuntimeGraph Sensitive PythonStep ShardData ShardRewrite.
From S2P Require Import FlowmeshClient FlowmeshSpec FlowmeshOutputs FlowmeshTables.

(** The part of [RequestInfo] a run reads. *)
Record run_info := RunInfo {
  ri_request_id : string;
  ri_batch_id : string;
  ri_graph : RuntimeGraph.t;
  ri_hardware_requirements : option HardwareRequirements.t;
  ri_member_request_ids : list string;
  ri_task_owner_members : dict string (list string);
}.
Definition ri_key (info : run_info) : batch_key := (ri_request_id info, ri_batch_id info).

Record world (S : Type) := World {
  w_service : S;
  w_manager : manager;
  w_artifacts : list (string * val);
  w_submitted : list string;
}.
Arguments World {S} _ _ _ _.
Arguments w_service {S} _.
Arguments w_manager {S} _.
Arguments w_artifacts {S} _.
Arguments w_submitted {S} _.

Record run_result := RunResult {
  flat_outputs : dict string (list string);
  chat_histories : dict string (list val);
  rr_task_node_map : dict string string;
}.

Section run.
Context {S : Type} (fm : service S) (others : S → manager → manager) (clock : S → f64).
Context (json_loads : string → option val) (json_dumps : val → string) (fromisoformat : string → result Z).
Context (render : source → string) (to_str : val → string) (urlsplit : string → result (string * option string * option Z)).
(** the text of a task spec, and what the service would answer to the download
of an artifact *)
Context (yaml_dump : dict string val → string) (archive : S → string → string → string → string + string).
Context (env : config) (archive_prefix : string) (poll_timeout : f64) (poll_interval : Z).
Local Abbreviation call_w := (call (world S)).

(** ** Steps of the world *)

(** A call of the service; other coroutines run while it is awaited. *)
Definition remote {A} (m : call S A) : call_w A := λ w,
let '(r, s) := m (w_service w) in (r, World s (others s (w_manager w)) (w_artifacts w) (w_submitted w)).

Definition get_manager : call_w manager := λ w, (Return (w_manager w), w).
Definition get_service : call_w S := λ w, (Return (w_service w), w).
Definition with_manager (f : manager → manager) : call_w () := λ w,
(Return (), World (w_service w) (f (w_manager w)) (w_artifacts w) (w_submitted w)).

(** [async with self._task_status_lock]: waiting for the lock, then a block
without awaits. *)
Definition lock (f : manager → manager) : call_w () := λ w,
with_manager f (World (w_service w) (others (w_service w) (w_manager w)) (w_artifacts w) (w_submitted w)).

Definition now : call_w f64 := λ w, (Return (clock (w_service w)), w).
Definition sleep_w (delay : Z) : call_w () := remote (sleep fm delay).
Definition save (filename : string) (data : val) : call_w () := λ w,
(Return (), World (w_service w) (w_manager w) (w_artifacts w ++ [(filename, data)]) (w_submitted w)).
Definition submitted (workflow_id : string) : call_w () := λ w,
(Return (), World (w_service w) (w_manager w) (w_artifacts w) (w_submitted w ++ [workflow_id])).

Definition is_request_cancelled (request_id : string) : call_w bool :=
_ ← lock id; m ← get_manager; mret (bool_decide (request_id ∈ cancelled_requests m)).
Definition stop_if_cancelled (request_id : string) : call_w () :=
is_request_cancelled request_id ≫= λ cancelled : bool,
if cancelled then throw (RequestCancelledError request_id) else mret ().

(** ** Registering the accepted tasks *)

(** [raw_task_node_map] *)
Definition raw_node (flowmesh_to_raw raw_map : dict string string) (entry : string * string) : result (dict string string) :=
match dget entry.2 flowmesh_to_raw with
| Some raw => Ok (dset entry.1 raw raw_map)
| None => Err (ValueError "Missing raw-node mapping for FlowMesh node")
end.

(** [member_task_ids] *)
Definition attribute_task (owner_members : dict string (list string)) (members : dict string (list string))
  (entry : string * string) : dict string (list string) :=
foldl (λ members member_id,
  match dget member_id members with
  | Some tasks => dset member_id (tasks ++ [entry.1]) members
  | None => members
  end) members (dget_or [] entry.2 owner_members).

Definition member_task_ids (info : run_info) (raw_map : dict string string) : dict string (list string) :=
foldl (attribute_task (ri_task_owner_members info)) (dict_of ((λ m, (m, [])) <$> ri_member_request_ids info)) raw_map.

(** [self._request_task_ids[(member_id, workflow_id)] = task_ids] for the
members that own tasks. *)
Definition own_tasks (workflow_id : string) (owned : dict batch_key (list string)) (entry : string * list string) : dict batch_key (list string) :=
match entry.2 with [] => owned | task_ids => dset (entry.1, workflow_id) task_ids owned end.

(** The variable [task_ids] after the loop [for member_id, task_ids in
member_task_ids.items()], which rebinds it. *)
Definition task_ids_after (task_ids : list string) (members : dict string (list string)) : list string :=
default task_ids (last (dvals members)).

(** The first part of the block: the tasks are known before the mapping is
checked. *)
Definition register_tasks (key : batch_key) (task_ids : list string) (m : manager) : manager :=
set_execution_task_status (dset key (dict_of ((λ t, (t, "PENDING")) <$> task_ids)) (execution_task_status m))
  (set_execution_output_tasks (dset key (remove_dups task_ids) (execution_output_tasks m)) m).

(** The metadata the block falls back to has no node counts. *)
Definition register_nodes (info : run_info) (workflow_id : string) (raw_map : dict string string)
  (raw_node_count flowmesh_node_count : Z) (m : manager) : manager :=
let key := ri_key info in
let m := set_task_node_map (dset key raw_map (task_node_map m)) m in
let m := set_request_task_ids (foldl (own_tasks workflow_id) (request_task_ids m) (member_task_ids info raw_map)) m in
let metadata := dget_or [("total_nodes", VInt 0); ("output_nodes", VInt 0); ("start_time", VNone); ("end_time", VNone)] key (batch_metadata m) in
set_batch_metadata (dset key (dset "flowmesh_nodes" (VInt flowmesh_node_count) (dset "raw_nodes" (VInt raw_node_count) metadata)) (batch_metadata m)) m.

Definition register (info : run_info) (workflow_id : string) (task_ids : list string) (task_to_node flowmesh_to_raw : dict string string)
  (raw_node_count flowmesh_node_count : Z) : call_w (dict string string) :=
_ ← lock (register_tasks (ri_key info) task_ids);
raw_map ← lift (foldR (raw_node flowmesh_to_raw) [] task_to_node);
_ ← with_manager (register_nodes info workflow_id raw_map raw_node_count flowmesh_node_count);
mret raw_map.

(** ** Polling *)

Definition statuses (key : batch_key) (m : manager) : dict string string := dget_or [] key (execution_task_status m).

(** [task_status[task_id] = task_info.status] on the dict of the batch *)
Definition put_status (key : batch_key) (task_id status : string) (m : manager) : manager :=
set_execution_task_status (dset key (dset task_id status (statuses key m)) (execution_task_status m)) m.

(** [update_task_status] on the statuses of a batch *)
Fixpoint update_statuses (key : batch_key) (entries : list (string * string)) (completed : bool) : call_w bool :=
match entries with
| [] => mret completed
| (task_id, status) :: entries =>
    if is_terminal status then update_statuses key entries completed
    else
      info ← remote (fetch_task_status fm json_loads json_dumps task_id);
      let '(status, error, last_error) := info in
      _ ← lock (λ m,
        let m := put_status key task_id status m in
        if String.eqb status "FAILED" then record_task_error json_loads json_dumps task_id error last_error m else m);
      update_statuses key entries (completed && is_terminal status)
end.
Definition update_task_status (key : batch_key) : call_w bool :=
m ← get_manager; update_statuses key (statuses key m) true.

Definition archive_task_response (tid : string) : call_w () :=
response ← remote (except_api (sanitize_flowmesh_api_error json_loads json_dumps) (retry_transient_read fm (sv_result_retrieve fm tid)));
save ("per-task-response/" +:+ tid +:+ ".json") (redact_sensitive (VDict response)).

(** The responses of the newly completed tasks. *)
Fixpoint download_responses (key : batch_key) (task_to_node : dict string string) (task_ids downloaded : list string) : call_w (list string) :=
match task_ids with
| [] => mret downloaded
| tid :: task_ids =>
    m ← get_manager;
    status ← lift (dindex (KeyError tid) tid (statuses key m));
    if (String.eqb status "DONE" && negb (bool_decide (tid ∈ downloaded)))%bool then
      _ ← lift (ok_or (RuntimeError ("Missing task->node mapping for task " +:+ tid)) (dget tid task_to_node));
      _ ← archive_task_response tid;
      download_responses key task_to_node task_ids (downloaded ++ [tid])
    else download_responses key task_to_node task_ids downloaded
end.

Definition failed_tasks (m : manager) (key : batch_key) : list string :=
(filter (λ entry, entry.2 = "FAILED") (statuses key m)).*1.

Definition failure_reasons (m : manager) (task_to_node : dict string string) (failed : list string) : string :=
String.concat "; " ((λ tid, "Task " +:+ tid +:+ " failed" +:+ task_failure_reason m tid task_to_node) <$> failed).

Definition output_statuses (key : batch_key) (m : manager) : result (dict string string) :=
pairs ← mapR (λ t, s ← dindex (KeyError t) t (statuses key m); Ok (t, s)) (dget_or [] key (execution_output_tasks m));
Ok (dict_of pairs).

(** One round: the statuses of the outputs when all are terminal, or the tasks
downloaded so far. *)
Definition poll_round (info : run_info) (task_to_node : dict string string) (task_ids downloaded : list string) :
  call_w (dict string string + list string) :=
let key := ri_key info in
_ ← stop_if_cancelled (ri_request_id info);
_ ← update_task_status key;
downloaded ← download_responses key task_to_node task_ids downloaded;
m ← get_manager;
outputs ← lift (output_statuses key m);
if forallb is_terminal (dvals outputs) then mret (inl outputs)
else
  match failed_tasks m key with
  | [] => _ ← sleep_w poll_interval; mret (inr downloaded)
  | failed => throw (Raised (RuntimeError (failure_reasons m task_to_node failed +:+ "; aborting workflow")))
  end.

(** The statuses of the outputs, or a timeout. *)
Fixpoint poll (fuel : nat) (info : run_info) (task_to_node : dict string string) (task_ids downloaded : list string)
  (start : f64) (w : world S) : option (reply (dict string string) * world S) :=
match fuel with
| O => None
| Datatypes.S fuel =>
    if fltb (fsub (clock (w_service w)) start) poll_timeout then
      match poll_round info task_to_node task_ids downloaded w with
      | (Return (inl outputs), w) => Some (Return outputs, w)
      | (Return (inr downloaded), w) => poll fuel info task_to_node task_ids downloaded start w
      | (Raise f, w) => Some (Raise f, w)
      end
    else Some (Raise (Raised (RuntimeError "Timeout waiting for output nodes to complete")), w)
end.

(** ** Reading the outputs *)

Definition api_prompt (op : option RuntimeOp.t) : result (option val) :=
match op with
| Some op =>
    if String.eqb (RuntimeOp.task_type op) "api" then
      messages ← vget_attr "messages" (dget_or (VDict []) "json" (RuntimeOp.api_spec op));
      Ok (match messages with VList l => Some (VList l) | _ => None end)
    else Ok None
| None => Ok None
end.

Definition read_output (info : run_info) (node_to_task : dict string string) (list_lambda_nodes : list string) (res : run_result)
  (output_op_id : string) : call_w run_result :=
let g := ri_graph info in
let op := dget output_op_id (RuntimeGraph.nodes g) in
output_task_id ← lift (match dget output_op_id node_to_task with
                       | Some "" | None => Err (RuntimeError "Failed to resolve output node task mapping")
                       | Some t => Ok t
                       end);
results_json ← remote (except_api (sanitize_flowmesh_api_error json_loads json_dumps) (retry_transient_read fm (sv_result_retrieve fm output_task_id)));
prompt ← lift (api_prompt op);
items ← lift (resolve_output_items results_json output_op_id (RuntimeOp.task_type <$> op) prompt);
s ← get_service;
outputs ← lift (aggregate_output_node json_loads json_dumps (archive s output_task_id) archive_prefix output_op_id items
    (dget output_op_id (RuntimeGraph.output_paths g)) (embedding_row_count g output_op_id)
    (match op with Some op => RuntimeGraph.is_list_lambda op | None => false end)
    (bool_decide (output_op_id ∈ list_lambda_nodes))
    (match op with Some op => bool_decide (vget "type" (RuntimeOp.data_spec op) = VStr "dataframe") | None => false end));
let prompts := output_prompts items outputs in
mret (RunResult (dset output_op_id outputs (flat_outputs res))
        (match prompts with [] => chat_histories res | _ => dset output_op_id prompts (chat_histories res) end) (rr_task_node_map res)).

Fixpoint read_outputs (info : run_info) (node_to_task : dict string string) (list_lambda_nodes : list string) (res : run_result)
  (output_op_ids : list string) : call_w run_result :=
match output_op_ids with
| [] => mret res
| o :: os => res ← read_output info node_to_task list_lambda_nodes res o; read_outputs info node_to_task list_lambda_nodes res os
end.

(** ** The run *)

(** What the part before polling leaves for the rest. *)
Record submission := Submission {
sub_task_ids : list string;
sub_task_to_node : dict string string;
sub_node_to_task : dict string string;
sub_raw_map : dict string string;
sub_outputs : list string;
}.

Definition with_submit_id (submit_id : string) (spec : dict string val) : result (dict string val) :=
match vget "metadata" spec with
| VDict metadata =>
    match vget "annotations" metadata with
    | VDict annotations =>
        Ok (dset "metadata" (VDict (dset "annotations" (VDict (dset "custom" (VDict [("lumilake_submit_id", VStr submit_id)]) annotations)) metadata)) spec)
    | _ => Err (KeyError "annotations")
    end
| _ => Err (KeyError "metadata")
end.

(** The names of the nodes of a task spec. *)
Definition spec_nodes (spec : dict string val) : list val :=
match vget "spec" spec with
| VDict inner => match vget "graph" inner with VDict graph => match vget "nodes" graph with VList nodes => nodes | _ => [] end | _ => [] end
| _ => []
end.
Definition spec_node_names (spec : dict string val) : list string :=
omap (λ node, match node with VDict d => match vget "name" d with VStr "" => None | VStr n => Some n | _ => None end | _ => None end) (spec_nodes spec).

Definition graph_summary (info : run_info) (flowmesh_node_count : Z) : val :=
VDict [("node_order", VList (VStr <$> RuntimeGraph.node_order (ri_graph info)));
       ("output_nodes", VList (VStr <$> sorted_by str_ltb id (dkeys (RuntimeGraph.output_node_map (ri_graph info)))));
       ("raw_nodes", VInt (Z.of_nat (length (RuntimeGraph.node_order (ri_graph info))))); ("flowmesh_nodes", VInt flowmesh_node_count)].

Definition submit_request (info : run_info) (schedule : dict string (list string)) (data_profile_results : dict string val)
  (submit_id : string) (since : Z) : call_w submission :=
_ ← stop_if_cancelled (ri_request_id info);
_ ← with_manager (λ m, set_schema_cache (dupdate (schema_cache m) data_profile_results) m);
built ← lift (build_task_spec render to_str env (ri_request_id info) (ri_hardware_requirements info) (ri_graph info) (Some schedule));
let '(spec, outputs, flowmesh_to_raw) := built in
m ← get_manager;
spec ← lift (resolve_api_credentials urlsplit env (λ r, get_api_credential r m) (ri_member_request_ids info) spec);
spec ← lift (with_submit_id submit_id spec);
let flowmesh_node_count := Z.of_nat (length (spec_nodes spec)) in
let raw_node_count := Z.of_nat (length (RuntimeGraph.node_order (ri_graph info))) in
_ ← save "lumilake-runtime-graph.yaml" (graph_summary info flowmesh_node_count);
_ ← save "flowmesh_job.yaml" (redact_sensitive (VDict spec));
_ ← stop_if_cancelled (ri_request_id info);
accepted ← remote (except_api (sanitize_flowmesh_api_error json_loads json_dumps)
  (submit_workflow fm json_loads json_dumps fromisoformat (yaml_dump spec) submit_id since));
let '(workflow_id, task_ids) := accepted in
_ ← submitted workflow_id;
_ ← lock (λ m, set_batch_workflow_id (dset (ri_key info) workflow_id (batch_workflow_id m)) m);
_ ← stop_if_cancelled (ri_request_id info);
maps ← remote (resolve_task_node_maps fm json_loads json_dumps task_ids (spec_node_names spec));
raw_map ← register info workflow_id task_ids maps.1 flowmesh_to_raw raw_node_count flowmesh_node_count;
_ ← save "task-node-map.json" (VDict ((λ kv, (kv.1, VStr kv.2)) <$> raw_map));
mret (Submission (task_ids_after task_ids (member_task_ids info raw_map)) maps.1 maps.2 raw_map (outputs.*2)).

(** The part after polling. *)
Definition finish_run (info : run_info) (sub : submission) (outputs : dict string string) : call_w run_result :=
m ← get_manager;
_ ← lift (match filter (λ entry, entry.2 = "FAILED") outputs with
          | (tid, _) :: _ => Err (RuntimeError ("Output task " +:+ tid +:+ " failed" +:+ task_failure_reason m tid (sub_task_to_node sub)))
          | [] => Ok ()
          end);
list_lambda_nodes ← lift (RuntimeGraph.list_lambda_cardinality_nodes (ri_graph info));
read_outputs info (sub_node_to_task sub) list_lambda_nodes (RunResult [] [] (sub_raw_map sub)) (sub_outputs sub).

Definition process_request_body (fuel : nat) (info : run_info) (schedule : dict string (list string)) (data_profile_results : dict string val)
  (submit_id : string) (since : Z) (w : world S) : option (reply run_result * world S) :=
match submit_request info schedule data_profile_results submit_id since w with
| (Raise f, w) => Some (Raise f, w)
| (Return sub, w) =>
    match poll fuel info (sub_task_to_node sub) (sub_task_ids sub) [] (clock (w_service w)) w with
    | None => None
    | Some (Raise f, w) => Some (Raise f, w)
    | Some (Return outputs, w) => Some (finish_run info sub outputs w)
    end
end.

Fixpoint abort_workflows (workflows : list string) : call_w () :=
match workflows with
| [] => mret ()
| wf :: workflows => _ ← remote (abort_workflow fm wf); abort_workflows workflows
end.

(** [process_request]: the workflows of a failing request are cancelled. *)
Definition process_request (fuel : nat) (info : run_info) (schedule : dict string (list string)) (data_profile_results : dict string val)
  (submit_id : string) (since : Z) (s : S) (m : manager) : option (reply run_result * world S) :=
match process_request_body fuel info schedule data_profile_results submit_id since (World s m [] []) with
| None => None
| Some (Return res, w) => Some (Return res, w)
| Some (Raise f, w) =>
    match abort_workflows (w_submitted w) w with
    | (Return _, w) => Some (Raise f, w)
    | (Raise f', w) => Some (Raise f', w)
    end
end.

(** ** Cancellation *)

(** The workflows of a request, after it is marked as cancelled. *)
Definition cancel_request (request_id : string) : call_w () :=
_ ← lock (λ m, set_cancelled_requests (if bool_decide (request_id ∈ cancelled_requests m) then cancelled_requests m
                                       else cancelled_requests m ++ [request_id]) m);
m ← get_manager;
abort_workflows (omap (λ entry : batch_key * string, if String.eqb entry.1.1 request_id then Some entry.2 else None) (batch_workflow_id m)).
End run.
