(* ===== verification/FlowmeshRunProps.v ===== *)
(** * Properties of running a batch on FlowMesh

    A run that returns has seen every task of the batch finish, and has saved
    the response of a task at most once, for any service and for other
    coroutines that leave the tables of the batch alone ([keeps_batch]).  How
    runs fail and that they end is in [FlowmeshFailProps]. *)

From S2P Require Import Prelude PyFloat PyDict PyValue PyString Protocol RuntimeGraph Sensitive PythonStep ShardData ShardRewrite.
From S2P Require Import FlowmeshClient FlowmeshSpec FlowmeshOutputs FlowmeshTables FlowmeshRun FlowmeshSpecProps.

(** ** Partial correctness of calls *)

(** From worlds in [P], a call that returns [a] ends in a world in [Q a]. *)
Definition spec {W A} (P : W → Prop) (m : call W A) (Q : A → W → Prop) : Prop :=
  ∀ w, P w → match m w with (Return a, w') => Q a w' | _ => True end.

Section rules.
Context {W : Type}.
Implicit Types (P : W → Prop).

Lemma spec_bind {A B} P (m : call W A) (f : A → call W B) (R : A → W → Prop) (Q : B → W → Prop) :
spec P m R → (∀ a, spec (R a) (f a) Q) → spec P (m ≫= f) Q.
Proof.
intros Hm Hf w Hw. specialize (Hm w Hw). unfold mbind, call_bind. destruct (m w) as [[a|] w']; [|done]. by apply (Hf a).
Qed.

Lemma spec_ret {A} P (a : A) (Q : A → W → Prop) : (∀ w, P w → Q a w) → spec P (mret a) Q.
Proof. intros H w Hw. by apply H. Qed.

Lemma spec_lift {A} P (r : result A) (Q : A → W → Prop) : (∀ a w, r = Ok a → P w → Q a w) → spec P (lift r) Q.
Proof. intros H w Hw. unfold lift. destruct r; [by apply H|done]. Qed.

Lemma spec_throw {A} P f (Q : A → W → Prop) : spec P (throw f) Q.
Proof. by intros w Hw. Qed.

Lemma spec_mono {A} P P' (m : call W A) (Q Q' : A → W → Prop) :
(∀ w, P w → P' w) → spec P' m Q' → (∀ a w, Q' a w → Q a w) → spec P m Q.
Proof. intros H1 H2 H3 w Hw. specialize (H2 w (H1 w Hw)). destruct (m w) as [[a|] w']; [by apply H3|done]. Qed.

Lemma spec_pure {A} (φ : Prop) P (m : call W A) Q : (φ → spec P m Q) → spec (λ w, φ ∧ P w) m Q.
Proof. intros H w [Hφ Hw]. by apply H. Qed.
End rules.

(** What other coroutines do not touch: the tasks of a batch and their
    statuses. *)
Definition keeps_batch {S} (others : S → manager → manager) (key : batch_key) : Prop := ∀ s m,
  statuses key (others s m) = statuses key m ∧
  dget key (execution_output_tasks (others s m)) = dget key (execution_output_tasks m).

Section run.
Context {S : Type} (fm : service S) (others : S → manager → manager) (clock : S → f64).
Context (json_loads : string → option val) (json_dumps : val → string) (fromisoformat : string → result Z).
Context (render : source → string) (to_str : val → string) (urlsplit : string → result (string * option string * option Z)).
Context (yaml_dump : dict string val → string) (archive : S → string → string → string → string + string).
Context (env : config) (archive_prefix : string) (poll_timeout : f64) (poll_interval : Z).
Context (info : run_info).
Local Abbreviation key := (ri_key info).
Local Abbreviation W := (world S).
Hypothesis rely : keeps_batch others key.

(** The statuses of the batch and the files saved so far. *)
Definition state_is (st : dict string string) (tasks : list string) (files : list string) (w : W) : Prop :=
statuses key (w_manager w) = st ∧ dget key (execution_output_tasks (w_manager w)) = Some tasks ∧ (w_artifacts w).*1 = files.
Definition files_are (files : list string) (w : W) : Prop := (w_artifacts w).*1 = files.

(** What a wait keeps. *)
Definition stable (P : W → Prop) : Prop := ∀ w s, P w → P (World s (others s (w_manager w)) (w_artifacts w) (w_submitted w)).

Lemma state_stable st tasks files : stable (state_is st tasks files).
Proof. intros w s (H1 & H2 & H3). destruct (rely s (w_manager w)) as [E1 E2]. unfold state_is. simpl. by rewrite E1, E2. Qed.

Lemma files_stable files : stable (files_are files).
Proof. by intros w s H. Qed.

Lemma spec_remote {A} P (m : call S A) : stable P → spec P (remote others m) (λ _, P).
Proof.
intros HP w Hw. unfold remote. destruct (m (w_service w)) as [[a|] s]; [|done]. by apply HP.
Qed.

Lemma spec_remote_reply {A} P (m : call S A) : stable P → spec P (remote others m) (λ a w, (∃ s s', m s = (Return a, s')) ∧ P w).
Proof.
intros HP w Hw. unfold remote. destruct (m (w_service w)) as [[a|] s] eqn:E; [|done]. split; [by eexists _, _|by apply HP].
Qed.

Lemma spec_lock (P : W → Prop) f (Q : W → Prop) : stable P →
(∀ w, P w → Q (World (w_service w) (f (w_manager w)) (w_artifacts w) (w_submitted w))) → spec P (lock others f) (λ _, Q).
Proof. intros HP H w Hw. unfold lock, with_manager. simpl. apply (H (World _ _ _ _)). by apply HP. Qed.

Lemma spec_manager (P : W → Prop) : spec P get_manager (λ m w, P w ∧ m = w_manager w).
Proof. by intros w Hw. Qed.

Lemma spec_with_manager (P Q : W → Prop) f :
(∀ w, P w → Q (World (w_service w) (f (w_manager w)) (w_artifacts w) (w_submitted w))) → spec P (with_manager f) (λ _, Q).
Proof. intros H w Hw. by apply H. Qed.

Lemma spec_cancelled P request_id : stable P → spec P (stop_if_cancelled others request_id) (λ _, P).
Proof.
intros HP. unfold stop_if_cancelled, is_request_cancelled.
eapply spec_bind; [eapply spec_bind; [apply (spec_lock P id P HP); by intros []|]|].
- intros []. eapply spec_bind; [apply spec_manager|]. intros m. apply (spec_ret _ _ (λ _, P)). by intros w [? _].
- intros []; [apply spec_throw|]. by apply spec_ret.
Qed.

(** ** Polling *)

Lemma statuses_put t s m : statuses key (put_status key t s m) = dset t s (statuses key m).
Proof. unfold statuses, put_status. simpl. unfold dget_or. by rewrite dget_dset_eq. Qed.

Lemma record_error_keeps j d t e l m : statuses key (record_task_error j d t e l m) = statuses key m ∧
dget key (execution_output_tasks (record_task_error j d t e l m)) = dget key (execution_output_tasks m).
Proof. unfold record_task_error. by destruct (task_error j d e l). Qed.

(** The statuses after an update: the same tasks, finished tasks as before. *)
Definition advanced (st st' : dict string string) : Prop :=
dkeys st' = dkeys st ∧ ∀ t s, dget t st = Some s → is_terminal s = true → dget t st' = Some s.

Lemma advanced_refl st : advanced st st.
Proof. done. Qed.

Lemma advanced_wf st st' : advanced st st' → dict_wf st → dict_wf st'.
Proof. intros [H _] Hwf. unfold dict_wf. by rewrite H. Qed.

Lemma advanced_trans st st' st'' : advanced st st' → advanced st' st'' → advanced st st''.
Proof. intros [H1 H2] [H3 H4]. split; [congruence|eauto]. Qed.

Lemma advanced_put st t s s0 : dget t st = Some s0 → is_terminal s0 = false → advanced st (dset t s st).
Proof.
intros Ht Hs0. split.
- rewrite dkeys_dset, decide_True; [done|]. apply dget_is_Some. by eexists.
- intros t' s' Hg Hs. rewrite dget_dset. case_decide as D; [|done]. subst t'. congruence.
Qed.

Lemma spec_update tasks files entries completed st : NoDup entries.*1 → (∀ t s, (t, s) ∈ entries → dget t st = Some s) →
spec (state_is st tasks files) (update_statuses fm others json_loads json_dumps key entries completed)
  (λ _ w, ∃ st', advanced st st' ∧ state_is st' tasks files w).
Proof.
revert st completed. induction entries as [|[t s] entries IH]; intros st completed Hnd Hin.
- apply spec_ret. intros w Hw. by exists st.
- simpl. csimpl in Hnd. apply NoDup_cons in Hnd as [Hnt Hnd].
  destruct (is_terminal s) eqn:Es; [apply IH; [done|]; intros t' s' H; apply Hin; by right|].
  eapply spec_bind; [apply spec_remote, state_stable|]. intros [[s1 e] l].
  apply (spec_bind _ _ _ (λ _ : (), state_is (dset t s1 st) tasks files)).
  + apply spec_lock; [apply state_stable|]. intros w (H1 & H2 & H3).
    destruct (record_error_keeps json_loads json_dumps t e l (put_status key t s1 (w_manager w))) as [R1 R2].
    split_and!; [|by destruct (String.eqb s1 "FAILED"); simpl; rewrite ?R2|done].
    destruct (String.eqb s1 "FAILED"); simpl; rewrite ?R1, statuses_put, H1; done.
  + intros []. eapply spec_mono; [intros w Hw; exact Hw|apply (IH (dset t s1 st)); [done|]|].
    * intros t' s' H. rewrite dget_dset, decide_False; [apply Hin; by right|]. intros ->. apply Hnt. apply list_elem_of_fmap. by exists (t, s').
    * intros b w (st' & Ha & Hw). exists st'. split; [|done]. eapply advanced_trans; [|done].
      apply (advanced_put _ _ _ s); [|done]. apply Hin. left.
Qed.

Definition response_file (tid : string) : string := "per-task-response/" +:+ tid +:+ ".json".

Lemma spec_download tasks files st task_to_node task_ids downloaded :
spec (state_is st tasks (files ++ (response_file <$> downloaded)))
  (download_responses fm others json_loads json_dumps key task_to_node task_ids downloaded)
  (λ d w, ∃ new, d = downloaded ++ new ∧ state_is st tasks (files ++ (response_file <$> d)) w ∧
     (NoDup downloaded → NoDup d) ∧ (∀ t, t ∈ new → t ∈ task_ids ∧ dget t st = Some "DONE") ∧
     ∀ t, t ∈ task_ids → is_Some (dget t st) ∧ (dget t st = Some "DONE" → t ∈ d)).
Proof.
revert downloaded. induction task_ids as [|t task_ids IH]; intros downloaded.
{ apply spec_ret. intros w Hw. exists []. rewrite app_nil_r. split_and!; try done; by intros t ?%elem_of_nil. }
simpl. eapply spec_bind; [apply spec_manager|]. intros m. eapply spec_bind.
{ apply (spec_lift _ _ (λ status w, dget t st = Some status ∧ state_is st tasks (files ++ (response_file <$> downloaded)) w)).
  intros status w Hs [Hw ->]. split; [|done]. destruct Hw as (H1 & _). rewrite H1 in Hs. unfold dindex in Hs. by apply ok_or_ok in Hs. }
intros status. apply spec_pure. intros Hst.
destruct (String.eqb status "DONE" && negb (bool_decide (t ∈ downloaded)))%bool eqn:E.
- apply andb_true_iff in E as [E1%String.eqb_eq E2]. subst status. apply negb_true_iff, bool_decide_eq_false in E2.
  eapply spec_bind; [apply (spec_lift _ _ (λ _, state_is st tasks (files ++ (response_file <$> downloaded)))); done|]. intros node.
  apply (spec_bind _ _ _ (λ _ : (), state_is st tasks (files ++ (response_file <$> downloaded ++ [t])))).
  { unfold archive_task_response. eapply spec_bind; [apply spec_remote, state_stable|]. intros r w (H1 & H2 & H3).
    split_and!; [done|done|]. simpl. rewrite fmap_app, H3, fmap_app, app_assoc. done. }
  intros []. eapply spec_mono; [intros w Hw; exact Hw|apply (IH (downloaded ++ [t]))|].
  intros d w (new & -> & Hw & Hnd & Hnew & Hall). exists (t :: new).
  assert (E3 : (downloaded ++ [t]) ++ new = downloaded ++ t :: new) by (by rewrite <-app_assoc).
  rewrite E3 in Hw. rewrite E3 in Hnd. rewrite E3. split; [done|]. split; [done|]. split.
  { intros Hd. apply Hnd, NoDup_app. split; [done|]. split; [by intros x Hx ->%list_elem_of_singleton|apply NoDup_singleton]. }
  split; [intros x [->|Hx]%elem_of_cons; [split; [left|done]|destruct (Hnew x Hx); split; [by right|done]]|].
  intros x [->|Hx]%elem_of_cons; [split; [by eexists|]; intros _; apply elem_of_app; right; left|].
  rewrite <-E3. by apply Hall.
- eapply spec_mono; [intros w Hw; exact Hw|apply (IH downloaded)|].
  intros d w (new & -> & Hw & Hnd & Hnew & Hall). exists new. split; [done|]. split; [done|]. split; [done|].
  split; [intros x Hx; destruct (Hnew x Hx); split; [by right|done]|].
  intros x [->|Hx]%elem_of_cons; [|by apply Hall]. split; [by eexists|]. intros Hd. rewrite Hst in Hd. injection Hd as ->.
  simpl in E. apply negb_false_iff, bool_decide_eq_true in E. apply elem_of_app. by left.
Qed.

(** *** A round *)

Section poll.
Context (keys tasks files task_ids : list string) (task_to_node : dict string string).
Hypothesis tasks_nodup : NoDup tasks.

(** Between two rounds. *)
Definition poll_inv (downloaded : list string) (w : W) : Prop :=
∃ st, dict_wf st ∧ dkeys st = keys ∧ state_is st tasks (files ++ (response_file <$> downloaded)) w ∧ NoDup downloaded ∧
  ∀ t, t ∈ downloaded → t ∈ task_ids ∧ dget t st = Some "DONE".

(** When the outputs are terminal. *)
Definition poll_end (outputs : dict string string) (w : W) : Prop :=
∃ st d, dkeys st = keys ∧ state_is st tasks (files ++ (response_file <$> d)) w ∧ NoDup d ∧
  (∀ t, t ∈ d ↔ t ∈ task_ids ∧ dget t st = Some "DONE") ∧ (∀ t, t ∈ task_ids → is_Some (dget t st)) ∧
  ∀ t, t ∈ tasks → ∃ s, (t, s) ∈ outputs ∧ dget t st = Some s ∧ is_terminal s = true.

Lemma poll_inv_stable downloaded : stable (poll_inv downloaded).
Proof. intros w s (st & H1 & H2 & H3 & H4). exists st. split; [done|]. split; [done|]. split; [by apply state_stable|done]. Qed.

Lemma output_statuses_spec st (w : W) outputs : statuses key (w_manager w) = st →
dget key (execution_output_tasks (w_manager w)) = Some tasks → output_statuses key (w_manager w) = Ok outputs →
∀ t, t ∈ tasks → ∃ s, (t, s) ∈ outputs ∧ dget t st = Some s.
Proof.
intros Hst Hts H. unfold output_statuses in H. apply result_bind_ok in H as (pairs & Hp & [= <-]).
unfold dget_or in Hp. rewrite Hts, Hst in Hp. apply mapR_ok_inv in Hp.
assert (E : pairs.*1 = tasks ∧ ∀ t, t ∈ tasks → ∃ s, (t, s) ∈ pairs ∧ dget t st = Some s).
{ clear -Hp. induction Hp as [|t p tasks pairs H _ [IH1 IH2]]; [split; [done|]; by intros t ?%elem_of_nil|].
  apply result_bind_ok in H as (s & Hs & [= <-]). unfold dindex in Hs. apply ok_or_ok in Hs. csimpl. rewrite IH1. split; [done|].
  intros x [->|Hx]%elem_of_cons; [exists s; split; [left|done]|]. destruct (IH2 x Hx) as (s' & ? & ?). exists s'. split; [by right|done]. }
destruct E as [E1 E2]. rewrite dict_of_nodup by (by rewrite E1). done.
Qed.

Lemma spec_round downloaded :
spec (poll_inv downloaded) (poll_round fm others json_loads json_dumps poll_interval info task_to_node task_ids downloaded)
  (λ r w, match r with inl outputs => poll_end outputs w | inr d => poll_inv d w end).
Proof.
unfold poll_round. eapply spec_bind; [apply spec_cancelled, poll_inv_stable|]. intros [].
apply (spec_bind _ _ _ (λ _ : bool, poll_inv downloaded)).
{ unfold update_task_status. eapply spec_bind; [apply spec_manager|]. intros m w [(st & Hwf & Hk & Hw & Hnd & Hd) ->].
  pose proof (spec_update tasks (files ++ (response_file <$> downloaded)) (statuses key (w_manager w)) true st) as H.
  destruct Hw as (H1 & H2 & H3). rewrite H1 in *. specialize (H Hwf (λ t s, elem_dget t s st Hwf) w). specialize (H (conj H1 (conj H2 H3))).
  destruct (update_statuses _ _ _ _ _ _ _) as [[b|] w']; [|done]. destruct H as (st' & Ha & Hw'). exists st'.
  split; [by eapply advanced_wf|]. destruct Ha as [Ha1 Ha2]. split; [by rewrite Ha1|]. split; [done|]. split; [done|].
  intros t Ht. destruct (Hd t Ht) as [? E]. split; [done|]. by apply Ha2. }
intros completed w (st & Hwf & Hk & Hw & Hnd & Hd).
pose proof (spec_download tasks files st task_to_node task_ids downloaded w Hw) as H. unfold mbind, call_bind.
destruct (download_responses _ _ _ _ _ _ _ _ w) as [[d|] w1]; [|done]. destruct H as (new & -> & Hw1 & Hnd1 & Hnew & Hall).
cbn [get_manager]. destruct (output_statuses key (w_manager w1)) as [outputs|] eqn:Eo; cbn [lift]; [|done].
pose proof Hw1 as (S1 & S2 & S3). pose proof (output_statuses_spec st w1 outputs S1 S2 Eo) as Hout.
assert (Hd' : ∀ t, t ∈ downloaded ++ new → t ∈ task_ids ∧ dget t st = Some "DONE").
{ intros t [Ht|Ht]%elem_of_app; [by apply Hd|by apply Hnew]. }
destruct (forallb is_terminal (dvals outputs)) eqn:Et.
- exists st, (downloaded ++ new). split_and!; try done; [by apply Hnd1| | |].
  + intros t. split; [apply Hd'|]. intros [Ht E]. by apply (Hall t Ht).
  + intros t Ht. by apply Hall.
  + intros t Ht. destruct (Hout t Ht) as (s & Hin & Hs). exists s. split_and!; try done. rewrite forallb_forall in Et.
    apply Et, list_elem_of_In. apply list_elem_of_fmap. by exists (t, s).
- destruct (failed_tasks (w_manager w1) key); [|done]. unfold sleep_w.
  assert (Hinv : poll_inv (downloaded ++ new) w1).
  { exists st. split_and!; try done. by apply Hnd1. }
  pose proof (spec_remote (poll_inv (downloaded ++ new)) (sleep fm poll_interval) (poll_inv_stable _) w1 Hinv) as H.
  destruct (remote others _ w1) as [[[]|] w2]; [|done]. done.
Qed.

Lemma poll_spec fuel downloaded start w outputs w' : poll_inv downloaded w →
poll fm others clock json_loads json_dumps poll_timeout poll_interval fuel info task_to_node task_ids downloaded start w = Some (Return outputs, w') →
poll_end outputs w'.
Proof.
revert downloaded w. induction fuel as [|fuel IH]; intros downloaded w Hinv H; [done|]. simpl in H.
destruct (fltb _ _); [|done]. pose proof (spec_round downloaded w Hinv) as Hr.
destruct (poll_round _ _ _ _ _ _ _ _ _ w) as [[[outs|d]|f] w1]; [|by apply (IH d w1)|done]. by injection H as <- <-.
Qed.
End poll.

(** ** Submission *)

Definition submission_files : list string := ["lumilake-runtime-graph.yaml"; "flowmesh_job.yaml"; "task-node-map.json"].
Definition pending_tasks (task_ids : list string) : dict string string := dict_of ((λ t, (t, "PENDING")) <$> task_ids).

Lemma spec_save P filename data (Q : W → Prop) :
(∀ w, P w → Q (World (w_service w) (w_manager w) (w_artifacts w ++ [(filename, data)]) (w_submitted w))) → spec P (save filename data) (λ _, Q).
Proof. intros H w Hw. by apply H. Qed.

Lemma save_files filename data files : spec (files_are files) (save filename data) (λ _, files_are (files ++ [filename])).
Proof. apply spec_save. intros w Hw. unfold files_are. simpl. by rewrite fmap_app, Hw. Qed.

Lemma register_tasks_spec task_ids m : statuses key (register_tasks key task_ids m) = pending_tasks task_ids ∧
dget key (execution_output_tasks (register_tasks key task_ids m)) = Some (remove_dups task_ids).
Proof. unfold statuses, register_tasks, dget_or. simpl. by rewrite !dget_dset_eq. Qed.

Lemma spec_register workflow_id task_ids t2n f2r n1 n2 files :
spec (files_are files) (register others info workflow_id task_ids t2n f2r n1 n2)
  (λ _, state_is (pending_tasks task_ids) (remove_dups task_ids) files).
Proof.
unfold register. eapply spec_bind.
{ apply (spec_lock (files_are files) _ (state_is (pending_tasks task_ids) (remove_dups task_ids) files)); [apply files_stable|].
  intros w Hw. destruct (register_tasks_spec task_ids (w_manager w)). done. }
intros []. eapply spec_bind; [apply (spec_lift _ _ (λ _, state_is (pending_tasks task_ids) (remove_dups task_ids) files)); done|].
intros raw_map. eapply spec_bind.
{ apply (spec_with_manager _ (state_is (pending_tasks task_ids) (remove_dups task_ids) files)). intros w (H1 & H2 & H3). done. }
intros []. by apply spec_ret.
Qed.

(** The workflow the run submits: the task spec of its graph and schedule, with
    the credentials of its members as the tables have them then ([m]) and the
    submit id as an annotation *)
Definition submitted_text schedule submit_id (m : manager) (text : string) : Prop :=
∃ spec0 outputs f2r spec1 spec2,
  build_task_spec render to_str env (ri_request_id info) (ri_hardware_requirements info) (ri_graph info) (Some schedule) = Ok (spec0, outputs, f2r) ∧
  resolve_api_credentials urlsplit env (λ r, get_api_credential r m) (ri_member_request_ids info) spec0 = Ok spec1 ∧
  with_submit_id submit_id spec1 = Ok spec2 ∧ text = yaml_dump spec2.

(** The service, in the state [s] the run started in, accepts that workflow
    with these tasks. *)
Definition accepted schedule (submit_id : string) (since : Z) (s : S) (m : manager) (task_ids : list string) : Prop :=
∃ text workflow_id s', submitted_text schedule submit_id (others s m) text ∧
  submit_workflow fm json_loads json_dumps fromisoformat text submit_id since s = (Return (workflow_id, task_ids), s').

(** Looking for a cancellation only waits for the lock of the tables. *)
Lemma spec_cancelled_tables (P : W → Prop) request_id :
(∀ w, P w → P (World (w_service w) (others (w_service w) (w_manager w)) (w_artifacts w) (w_submitted w))) →
spec P (stop_if_cancelled others request_id) (λ _, P).
Proof.
intros HP w Hw. specialize (HP w Hw). unfold stop_if_cancelled, is_request_cancelled, mbind, call_bind, lock, with_manager, get_manager, mret, call_ret.
cbn. by destruct (bool_decide _).
Qed.

Lemma spec_lift_is {A} (P : W → Prop) (r : result A) : spec P (lift r) (λ a w, r = Ok a ∧ P w).
Proof. by apply spec_lift. Qed.

Lemma spec_submit schedule profiles submit_id since s m :
spec (λ w, w = World s m [] [])
  (submit_request fm others json_loads json_dumps fromisoformat render to_str urlsplit yaml_dump env info schedule profiles submit_id since)
  (λ sub w, ∃ task_ids, sub_task_ids sub = task_ids_after task_ids (member_task_ids info (sub_raw_map sub)) ∧
     accepted schedule submit_id since s m task_ids ∧ state_is (pending_tasks task_ids) (remove_dups task_ids) submission_files w).
Proof.
unfold submit_request. apply (spec_bind _ _ _ (λ _ w, w = World s (others s m) [] [])).
{ intros w ->. unfold stop_if_cancelled, is_request_cancelled, mbind, call_bind. cbn. by destruct (bool_decide _). }
intros []. set (m1 := set_schema_cache (dupdate (schema_cache (others s m)) profiles) (others s m)).
apply (spec_bind _ _ _ (λ _ w, w = World s m1 [] [])); [by intros w ->|]. intros [].
eapply spec_bind; [apply spec_lift_is|]. intros [[spec_ outputs] f2r]. apply spec_pure. intros Hbuild.
eapply spec_bind; [apply spec_manager|]. intros m2.
eapply spec_bind; [apply spec_lift_is|]. intros spec1. apply spec_pure. intros Hcreds.
eapply spec_bind; [apply spec_lift_is|]. intros spec2. apply spec_pure. intros Hid.
set (files := ([] ++ ["lumilake-runtime-graph.yaml"]) ++ ["flowmesh_job.yaml"]).
apply (spec_bind _ _ _ (λ _ w, m2 = m1 ∧ w_service w = s ∧ w_manager w = m1 ∧ (w_artifacts w).*1 = ["lumilake-runtime-graph.yaml"])).
{ by intros w [-> ->]. }
intros []. apply spec_pure. intros ->.
apply (spec_bind _ _ _ (λ _ w, w_service w = s ∧ files_are files w)).
{ intros w (H1 & H2 & H3). unfold files_are. simpl. by rewrite fmap_app, H3. }
intros []. apply (spec_bind _ _ _ (λ _ w, w_service w = s ∧ files_are files w)).
{ by apply spec_cancelled_tables. }
intros [].
apply (spec_bind _ _ _ (λ a w, accepted schedule submit_id since s m a.2 ∧ files_are files w)).
{ intros w [Hs Hf]. unfold remote, except_api. rewrite Hs.
  destruct (submit_workflow _ _ _ _ _ _ _ s) as [[[workflow_id task_ids]|[]] s3] eqn:E; try done.
  split; [|done]. exists (yaml_dump spec2), workflow_id, s3. split; [|done]. by exists spec_, outputs, f2r, spec1, spec2. }
intros [workflow_id task_ids]. apply spec_pure. intros Ha.
apply (spec_bind _ _ _ (λ _ : (), files_are files)); [by intros w Hw|]. intros [].
apply (spec_bind _ _ _ (λ _ : (), files_are files)); [by apply spec_lock; [apply files_stable|]|]. intros [].
eapply spec_bind; [apply spec_cancelled, files_stable|]. intros [].
eapply spec_bind; [apply spec_remote, files_stable|]. intros maps.
eapply spec_bind; [apply spec_register|]. intros raw_map.
eapply spec_bind.
{ apply (spec_save _ _ _ (state_is (pending_tasks task_ids) (remove_dups task_ids) submission_files)). intros w (H1 & H2 & H3).
  split_and!; [done|done|]. simpl. by rewrite fmap_app, H3. }
intros []. apply spec_ret. intros w Hw. by exists task_ids.
Qed.

(** ** The outputs *)

Lemma spec_read_outputs P n2t lists res os : stable P →
spec P (read_outputs fm others json_loads json_dumps archive archive_prefix info n2t lists res os)
  (λ res' w, P w ∧ rr_task_node_map res' = rr_task_node_map res).
Proof.
intros HP. revert res. induction os as [|o os IH]; intros res; [by apply spec_ret|]. simpl.
eapply spec_bind; [|intros res1; eapply spec_mono; [intros w Hw; exact Hw| |]].
- unfold read_output. eapply spec_bind; [apply (spec_lift _ _ (λ _, P)); done|]. intros t.
  eapply spec_bind; [by apply spec_remote|]. intros results. eapply spec_bind; [apply (spec_lift _ _ (λ _, P)); done|]. intros prompt.
  eapply spec_bind; [apply (spec_lift _ _ (λ _, P)); done|]. intros items.
  eapply spec_bind; [instantiate (1 := λ _, P); by intros w Hw|]. intros s.
  eapply spec_bind; [apply (spec_lift _ _ (λ _, P)); done|]. intros outputs.
  apply (spec_ret _ _ (λ res1 w, rr_task_node_map res1 = rr_task_node_map res ∧ P w)). done.
- apply spec_pure. intros Hres. eapply spec_mono; [intros w Hw; exact Hw|apply IH|]. intros res2 w [Hw E].
  instantiate (1 := λ res2 w, P w ∧ rr_task_node_map res2 = rr_task_node_map res). split; [done|congruence].
- done.
Qed.

Lemma spec_finish sub outputs P : stable P →
spec P (finish_run fm others json_loads json_dumps archive archive_prefix info sub outputs)
  (λ res w, (∀ t s, (t, s) ∈ outputs → s ≠ "FAILED") ∧ P w ∧ rr_task_node_map res = sub_raw_map sub).
Proof.
intros HP. unfold finish_run. eapply spec_bind; [apply spec_manager|]. intros m.
eapply spec_bind; [apply (spec_lift _ _ (λ _ w, (∀ t s, (t, s) ∈ outputs → s ≠ "FAILED") ∧ P w))|].
{ intros [] w Hf [Hw _]. split; [|done]. intros t s Hin ->. destruct (filter _ outputs) as [|[]] eqn:E; [|done].
  assert (Hin' : (t, "FAILED") ∈ filter (λ entry : string * string, entry.2 = "FAILED") outputs) by (by apply list_elem_of_filter).
  rewrite E in Hin'. by apply elem_of_nil in Hin'. }
intros []. apply spec_pure. intros Hf. eapply spec_bind; [apply (spec_lift _ _ (λ _, P)); done|]. intros lists.
eapply spec_mono; [intros w Hw; exact Hw|by apply spec_read_outputs|]. by intros res w [Hw E].
Qed.

Lemma pending_wf task_ids : dict_wf (pending_tasks task_ids) ∧ ∀ t, t ∈ dkeys (pending_tasks task_ids) ↔ t ∈ task_ids.
Proof.
split; [apply dict_wf_of|]. intros t. unfold pending_tasks. rewrite elem_of_dkeys_dict_of, <-list_fmap_compose.
by rewrite list_fmap_id.
Qed.

(** C5: when a run returns, FlowMesh had accepted, in the state in which the run
    started, the workflow of its graph, schedule and credentials, all tasks of
    that workflow are done, and the saved artifacts are the three of the
    submission and then one response for each task, saved once, of the task
    list the registration left; provided the other coroutines that run at the
    awaits leave the tables of this batch alone. *)
Theorem finished_run fuel schedule profiles submit_id since s m res w
  (H : process_request fm others clock json_loads json_dumps fromisoformat render to_str urlsplit yaml_dump archive env archive_prefix
         poll_timeout poll_interval fuel info schedule profiles submit_id since s m = Some (Return res, w)) :
∃ task_ids d, accepted schedule submit_id since s m task_ids ∧
  (∀ t, t ∈ task_ids ↔ is_Some (dget t (statuses key (w_manager w)))) ∧
  (∀ t, t ∈ task_ids → dget t (statuses key (w_manager w)) = Some "DONE") ∧
  (w_artifacts w).*1 = submission_files ++ (response_file <$> d) ∧ NoDup d ∧
  ∀ t, t ∈ d ↔ t ∈ task_ids_after task_ids (member_task_ids info (rr_task_node_map res)).
Proof.
unfold process_request, process_request_body in H.
pose proof (spec_submit schedule profiles submit_id since s m (World s m [] []) eq_refl) as Hsub.
destruct (submit_request _ _ _ _ _ _ _ _ _ _ _ _ _ _ _ (World s m [] [])) as [[sub|f] w1]; [|by destruct (abort_workflows _ _ _ w1) as [[] ?]].
destruct Hsub as (task_ids & Eids & Hacc & Hw1). destruct (pending_wf task_ids) as [Hwf Hpk].
destruct (poll _ _ _ _ _ _ _ _ _ _ _ _ _ w1) as [[[outputs|f] w2]|] eqn:Ep; [|by destruct (abort_workflows _ _ _ w2) as [[] ?]|done].
eapply (poll_spec (dkeys (pending_tasks task_ids)) (remove_dups task_ids) submission_files _ _ (NoDup_remove_dups _)) in Ep; cycle 1.
{ exists (pending_tasks task_ids). rewrite app_nil_r. split_and!; try done; [apply NoDup_nil_2|by intros t ?%elem_of_nil]. }
destruct Ep as (st & d & Hk & Hw2 & Hnd & Hd & Hsome & Hout).
pose proof (spec_finish sub outputs _ (state_stable st (remove_dups task_ids) (submission_files ++ (response_file <$> d))) w2 Hw2) as Hfin.
destruct (finish_run _ _ _ _ _ _ _ _ _ w2) as [[r|f] w3]; [|by destruct (abort_workflows _ _ _ w3) as [[] ?]].
injection H as -> ->. destruct Hfin as (Hnf & (E1 & _ & E3) & Emap).
assert (Hdone : ∀ t, t ∈ task_ids → dget t st = Some "DONE").
{ intros t Ht. destruct (Hout t) as (s' & Hin & E & Hterm); [by apply elem_of_remove_dups|]. apply Hnf in Hin.
  unfold is_terminal in Hterm. apply bool_decide_eq_true in Hterm. apply elem_of_cons in Hterm as [->|Hterm]; [done|].
  apply list_elem_of_singleton in Hterm as ->. done. }
assert (Hkeys : ∀ t, t ∈ task_ids ↔ is_Some (dget t st)).
{ intros t. by rewrite dget_is_Some, Hk, Hpk. }
exists task_ids, d. rewrite E1. split_and!; try done.
intros t. rewrite Hd, Eids, Emap. split; [by intros [? _]|]. intros Ht. split; [done|]. apply Hdone, Hkeys, Hsome. by rewrite Eids.
Qed.
End run.

(** ** A service *)

(** Two tasks that are done after [need] seconds of sleeping, and the
    workflows still open.  The clock ticks every hundred seconds. *)
Record demo_state := Demo { d_time : Z; d_open : list string }.

Definition demo_nodes : dict string string := [("t0", "n0"); ("t1", "n1")].

Definition demo_service (need : Z) : service demo_state := Service demo_state
  (λ d s, Demo (d_time s + Z.max 0 d) (d_open s))
  (λ t s, (Return (if (d_time s <? need)%Z then "RUNNING" else "DONE", None, None), s))
  (λ t s, (Return [("graph_node_name", VStr (dget_or "" t demo_nodes))], s))
  (λ t s, (Return [("items", VList [VDict [("output", VStr ("of " +:+ t))]])], s))
  (λ s, (Return [], s))
  (λ text s, (Return ("wf-1", dkeys demo_nodes), Demo (d_time s) (d_open s ++ ["wf-1"])))
  (λ wf s, (Return (), Demo (d_time s) (filter (.≠ wf) (d_open s)))).

Definition demo_clock (s : demo_state) : f64 := if (d_time s <? 100)%Z then of_Z 0 else of_Z 100.
Definition demo_manager : manager := Manager [] [] [] [] [] [] [] [] [] [] [] [].
Definition demo_info : run_info := RunInfo "r1" "b1" demo_graph None ["alice"; "bob"] [("n0", ["alice"]); ("n1", ["bob"])].
Definition demo_world : world demo_state := World (Demo 0 ["other"]) demo_manager [] [].
Abbreviation demo_run need fuel :=
  (process_request (demo_service need) (λ _ m, m) demo_clock (λ _, None) (λ _, "") (λ _, Ok 0%Z) (λ _, "") (λ _, "") demo_urlsplit
    (λ _, "workflow") (λ _ _ _ _, inr "") demo_config "archive" (of_Z 100) 1 fuel demo_info [("gpu-0", ["n0"; "n1"])] [] "submit-1" 0%Z
    (Demo 0 ["other"]) demo_manager).

Lemma finished_run_witness : match demo_run 2 5 with Some (Return res, w) =>
  ∃ task_ids d, accepted (demo_service 2) (λ _ m, m) (λ _, None) (λ _, "") (λ _, Ok 0%Z) (λ _, "") (λ _, "") demo_urlsplit
      (λ _, "workflow") demo_config demo_info [("gpu-0", ["n0"; "n1"])] "submit-1" 0%Z (Demo 0 ["other"]) demo_manager task_ids ∧
    (∀ t, t ∈ task_ids ↔ is_Some (dget t (statuses (ri_key demo_info) (w_manager w)))) ∧
    (∀ t, t ∈ task_ids → dget t (statuses (ri_key demo_info) (w_manager w)) = Some "DONE") ∧
    (w_artifacts w).*1 = submission_files ++ (response_file <$> d) ∧ NoDup d ∧
    ∀ t, t ∈ d ↔ t ∈ task_ids_after task_ids (member_task_ids demo_info (rr_task_node_map res))
  | _ => False end.
Proof.
  assert (E0 : match demo_run 2 5 with Some (Return _, _) => true | _ => false end = true) by (vm_compute; reflexivity).
  destruct (demo_run 2 5) as [[[res|f] w]|] eqn:E; [|discriminate E0..].
  apply (finished_run (demo_service 2) (λ _ m, m) demo_clock (λ _, None) (λ _, "") (λ _, Ok 0%Z) (λ _, "") (λ _, "") demo_urlsplit
    (λ _, "workflow") (λ _ _ _ _, inr "") demo_config "archive" (of_Z 100) 1 demo_info (λ s m, conj eq_refl eq_refl) 5
    [("gpu-0", ["n0"; "n1"])] [] "submit-1" 0%Z (Demo 0 ["other"]) demo_manager res w E).
Defined.

(** The run serves two requests.  The list of tasks whose responses are saved
    is the one of the last request: the response of [t0], which is done and
    belongs to alice, is never saved. *)
Example responses_of_the_last_member :
  (λ r, (λ w, (w_artifacts w.2).*1) <$> r) (demo_run 2 5) =
    Some ["lumilake-runtime-graph.yaml"; "flowmesh_job.yaml"; "task-node-map.json"; "per-task-response/t1.json"] ∧
  (λ r, (λ w, statuses (ri_key demo_info) (w_manager w.2)) <$> r) (demo_run 2 5) = Some [("t0", "DONE"); ("t1", "DONE")].
Proof. by vm_compute. Qed.
