(* ===== verification/FlowmeshFailProps.v ===== *)
(** * Runs that fail, and that runs end

    What the steps of a run may change; a run that fails leaves none of its
    workflows at the service but those whose answer or cancellation was lost; the poll loop ends because its timeout does. *)

From S2P Require Import Prelude PyFloat PyDict PyValue PyString Protocol RuntimeGraph Sensitive PythonStep ShardData ShardRewrite.
From S2P Require Import FlowmeshClient FlowmeshSpec FlowmeshOutputs FlowmeshTables FlowmeshRun FlowmeshSpecProps FlowmeshRunProps.

(** ** What the steps of a run may change

    [moves R m]: whatever a call answers, it takes the service from a state to
    one that [R] relates to it.  For a preorder [R] that the reads of the
    service and the passing of time respect, every call of the client that
    submits and cancels nothing respects it; for a preorder on worlds, the
    steps of a run do. *)

Definition moves {S A} (R : S → S → Prop) (m : call S A) : Prop := ∀ s, R s (m s).2.

Create HintDb moves.

Section rules.
Context {S : Type} (R : S → S → Prop) `{!PreOrder R}.

Lemma moves_ret {A} (a : A) : moves R (mret a).
Proof. intros s. simpl. reflexivity. Qed.

Lemma moves_lift {A} (r : result A) : moves R (lift r).
Proof. intros s. simpl. reflexivity. Qed.

Lemma moves_throw {A} f : moves R (throw (A := A) f).
Proof. intros s. simpl. reflexivity. Qed.

Lemma moves_bind {A B} (m : call S A) (f : A → call S B) : moves R m → (∀ a, moves R (f a)) → moves R (m ≫= f).
Proof.
intros Hm Hf s. unfold mbind, call_bind. specialize (Hm s). destruct (m s) as [[a|e] s']; [|done]. etransitivity; [done|apply Hf].
Qed.

Lemma moves_except {A} f (m : call S A) : moves R m → moves R (except_api f m).
Proof. intros Hm s. unfold except_api. specialize (Hm s). by destruct (m s) as [[a|[]] s']. Qed.
End rules.
#[export] Hint Resolve moves_ret moves_lift moves_throw moves_bind moves_except : moves.

(** ** The client *)

(** The calls that only read, and sleeping, respect [R]. *)
Class Reads {S} (R : S → S → Prop) (fm : service S) : Prop := {
  reads_sleep d s : R s (sv_sleep fm d s);
  reads_status t : moves R (sv_task_status fm t);
  reads_task t : moves R (sv_task_retrieve fm t);
  reads_result t : moves R (sv_result_retrieve fm t);
  reads_list : moves R (sv_workflow_list fm);
}.

Section client.
Context {S : Type} (R : S → S → Prop) `{!PreOrder R} (fm : service S) `{!Reads R fm}.
Context (json_loads : string → option val) (json_dumps : val → string) (fromisoformat : string → result Z).

Lemma moves_sleep d : moves R (sleep fm d).
Proof. intros s. apply reads_sleep. Qed.

Lemma moves_retry_from {A} delays (m : call S A) : moves R m → moves R (retry_read_from fm delays m).
Proof.
intros Hm. induction delays as [|d delays IH]; [done|]. intros s. simpl. specialize (Hm s). destruct (m s) as [[a|f] s']; [done|].
destruct (is_transient f); [|done]. etransitivity; [exact Hm|]. etransitivity; [apply reads_sleep|apply IH].
Qed.

Lemma moves_retry {A} (m : call S A) : moves R m → moves R (retry_transient_read fm m).
Proof. apply moves_retry_from. Qed.

Lemma moves_fetch_status t : moves R (fetch_task_status fm json_loads json_dumps t).
Proof. apply moves_except, moves_retry, reads_status. Qed.

Lemma moves_fetch_description t : moves R (fetch_task_description fm json_loads json_dumps t).
Proof. apply moves_except, moves_retry, reads_task. Qed.

Lemma moves_find_in submit_id cutoff workflows : moves R (find_in fm json_loads json_dumps fromisoformat submit_id cutoff workflows).
Proof.
induction workflows as [|wf workflows IH]; [by apply moves_ret|]. simpl. destruct (Workflow.task_ids wf) as [|t ts]; [done|].
apply moves_bind; [done|by apply moves_lift|]. intros at_. destruct (at_ <? cutoff)%Z; [done|].
apply moves_bind; [done|apply moves_fetch_description|]. intros desc. apply moves_bind; [done|by apply moves_lift|]. intros id.
case_bool_decide; [by apply moves_ret|done].
Qed.

Lemma moves_find submit_id since : moves R (find_submitted_workflow fm json_loads json_dumps fromisoformat submit_id since).
Proof. apply moves_bind; [done|apply moves_retry, reads_list|]. intros workflows. apply moves_find_in. Qed.

Lemma moves_gather {A B} (f : A → call S B) l s : (∀ x, moves R (f x)) → R s (gather f l s).2.
Proof.
intros Hf. revert s. induction l as [|x l IH]; intros s; simpl; [reflexivity|]. specialize (Hf x s). destruct (f x s) as [r s1].
specialize (IH s1). destruct (gather f l s1) as [rs s2]. by etransitivity.
Qed.

Lemma moves_resolve task_ids names : moves R (resolve_task_node_maps fm json_loads json_dumps task_ids names).
Proof.
intros s. unfold resolve_task_node_maps. pose proof (moves_gather _ task_ids s moves_fetch_description) as H.
by destruct (gather _ task_ids s).
Qed.

(** Submission, by what one attempt does: [Q] holds from the start to the end
when the answer is the one returned. *)
Lemma submit_from_moves (Q : reply (string * list string) → S → S → Prop) delays text submit_id since :
(∀ r s s1 s2, R s s1 → Q r s1 s2 → Q r s s2) → (∀ r s s', R s s' → Q r s s') →
(∀ s, match sv_workflow_submit fm text s with (Raise f, s') => R s s' ∧ Q (Raise f) s s' | (r, s') => Q r s s' end) →
∀ s, let '(r, s') := submit_from fm json_loads json_dumps fromisoformat delays text submit_id since s in Q r s s'.
Proof.
intros Hq Hr Hs. induction delays as [|d delays IH]; intros s; simpl.
{ specialize (Hs s). destruct (sv_workflow_submit fm text s) as [[a|f] s']; [done|by destruct Hs]. }
specialize (Hs s). destruct (sv_workflow_submit fm text s) as [[a|f] s1]; [done|]. destruct Hs as [H1 HQ]. destruct (is_transient f); [|done].
unfold mbind, call_bind, sleep. cbn [fst snd].
pose proof (moves_find submit_id since (sv_sleep fm d s1)) as H2.
assert (H3 : R s (sv_sleep fm d s1)) by (etransitivity; [exact H1|apply reads_sleep]).
destruct (find_submitted_workflow _ _ _ _ _ _ _) as [[[wf|]|f'] s2]; simpl in H2; [apply Hr; by etransitivity| |apply Hr; by etransitivity].
specialize (IH s2). destruct (submit_from _ _ _ _ _ _ _ _ s2) as [r s3]. eapply Hq; [|exact IH]. by etransitivity.
Qed.
End client.

(** ** The run *)

Section run.
Context {S : Type} (R : S → S → Prop) (fm : service S) `{!Reads R fm} `{!PreOrder R}.
Context (T : world S → world S → Prop) `{!PreOrder T}.
Context (others : S → manager → manager) (clock : S → f64).
Context (json_loads : string → option val) (json_dumps : val → string) (fromisoformat : string → result Z).
Context (archive : S → string → string → string → string + string).
Context (env : config) (archive_prefix : string) (poll_timeout : f64) (poll_interval : Z) (info : run_info).

(** Steps that keep the submitted workflows and move the service by [R]. *)
Hypothesis calls : ∀ w w', R (w_service w) (w_service w') → w_submitted w' = w_submitted w → T w w'.

Lemma same w w' : w_service w' = w_service w → w_submitted w' = w_submitted w → T w w'.
Proof. intros E1 E2. apply calls; [by rewrite E1|done]. Qed.

Lemma moves_remote {A} (m : call S A) : moves R m → moves T (remote others m).
Proof. intros Hm w. unfold remote. specialize (Hm (w_service w)). destruct (m (w_service w)) as [r s]. by apply calls. Qed.

Lemma moves_manager : moves T get_manager.
Proof. intros w. by apply same. Qed.

Lemma moves_service : moves T get_service.
Proof. intros w. by apply same. Qed.

Lemma moves_with_manager f : moves T (with_manager f).
Proof. intros w. by apply same. Qed.

Lemma moves_lock f : moves T (lock others f).
Proof. intros w. by apply same. Qed.

Lemma moves_save filename data : moves T (save filename data).
Proof. intros w. by apply same. Qed.

Local Hint Resolve moves_remote moves_manager moves_service moves_with_manager moves_lock moves_save : moves.
Local Hint Resolve moves_retry moves_sleep moves_fetch_status moves_resolve reads_result : moves.
Local Ltac step := apply moves_bind; [done|by eauto with moves|intros ?].

Lemma moves_cancelled request_id : moves T (stop_if_cancelled others request_id).
Proof.
unfold stop_if_cancelled, is_request_cancelled. apply moves_bind; [done| |].
- do 2 step. by apply moves_ret.
- intros []; [by apply moves_throw|by apply moves_ret].
Qed.

Lemma moves_update key entries completed : moves T (update_statuses fm others json_loads json_dumps key entries completed).
Proof.
revert completed. induction entries as [|[t s] entries IH]; intros completed; [by apply moves_ret|]. simpl.
destruct (is_terminal s); [done|]. apply moves_bind; [done|apply moves_remote, moves_fetch_status; done|].
intros [[s1 e] l]. step. done.
Qed.

Lemma moves_archive_response tid : moves T (archive_task_response fm others json_loads json_dumps tid).
Proof.
unfold archive_task_response. apply moves_bind; [done|apply moves_remote, moves_except, moves_retry, reads_result; done|].
intros response. apply moves_save.
Qed.

Lemma moves_download key t2n task_ids downloaded : moves T (download_responses fm others json_loads json_dumps key t2n task_ids downloaded).
Proof.
revert downloaded. induction task_ids as [|t task_ids IH]; intros downloaded; [by apply moves_ret|]. simpl.
step. apply moves_bind; [done|by apply moves_lift|]. intros s. destruct (_ && _)%bool; [|done].
apply moves_bind; [done|by apply moves_lift|]. intros node. apply moves_bind; [done|apply moves_archive_response|]. done.
Qed.

(** A round that goes on has slept. *)
Lemma moves_round t2n task_ids downloaded : moves T (poll_round fm others json_loads json_dumps poll_interval info t2n task_ids downloaded).
Proof.
unfold poll_round. apply moves_bind; [done|apply moves_cancelled|intros _].
apply moves_bind; [done|unfold update_task_status; step; apply moves_update|intros _].
apply moves_bind; [done|apply moves_download|intros d]. step. apply moves_bind; [done|by apply moves_lift|intros outputs].
destruct (forallb _ _); [by apply moves_ret|]. destruct (failed_tasks _ _); [|by apply moves_throw].
apply moves_bind; [done|apply moves_remote, moves_sleep; done|intros _]. by apply moves_ret.
Qed.

Lemma moves_poll fuel t2n task_ids downloaded start w r w' :
poll fm others clock json_loads json_dumps poll_timeout poll_interval fuel info t2n task_ids downloaded start w = Some (r, w') → T w w'.
Proof.
revert downloaded w. induction fuel as [|fuel IH]; intros downloaded w H; [done|]. simpl in H.
destruct (fltb _ _); [|by injection H as <- <-]. pose proof (moves_round t2n task_ids downloaded w) as Hr.
destruct (poll_round _ _ _ _ _ _ _ _ _ w) as [[[outs|d]|f] w1]; [by injection H as <- <-|etransitivity; [exact Hr|by apply (IH d)]|by injection H as <- <-].
Qed.

Lemma moves_read_outputs n2t lists res os : moves T (read_outputs fm others json_loads json_dumps archive archive_prefix info n2t lists res os).
Proof.
revert res. induction os as [|o os IH]; intros res; [by apply moves_ret|]. simpl. apply moves_bind; [done| |done].
unfold read_output. apply moves_bind; [done|by apply moves_lift|intros t].
apply moves_bind; [done|apply moves_remote, moves_except, moves_retry, reads_result; done|intros results].
apply moves_bind; [done|by apply moves_lift|intros prompt]. apply moves_bind; [done|by apply moves_lift|intros items].
step. apply moves_bind; [done|by apply moves_lift|intros outputs]. by apply moves_ret.
Qed.

Lemma moves_finish sub outputs : moves T (finish_run fm others json_loads json_dumps archive archive_prefix info sub outputs).
Proof.
unfold finish_run. step. apply moves_bind; [done|by apply moves_lift|intros _].
apply moves_bind; [done|by apply moves_lift|intros lists]. apply moves_read_outputs.
Qed.

Lemma moves_register workflow_id task_ids t2n f2r n1 n2 : moves T (register others info workflow_id task_ids t2n f2r n1 n2).
Proof.
unfold register. step. apply moves_bind; [done|by apply moves_lift|intros raw]. step. by apply moves_ret.
Qed.
End run.

(** ** A run that fails *)

(** What a service promises to a client that cleans up after itself, about the
    calls that succeed: reads open no workflow, a submission that is answered
    opens only the workflow it answers with, and a cancellation that is
    answered closes its workflow. *)
Class OpensAnswered {S} (fm : service S) (open : S → list string) : Prop := {
  answered_reads :: Reads (λ s s', open s' ⊆ open s) fm;
  answered_submit text s workflow_id task_ids s' : sv_workflow_submit fm text s = (Return (workflow_id, task_ids), s') → open s' ⊆ workflow_id :: open s;
  answered_cancel workflow_id s : open (sv_workflow_cancel fm workflow_id s).2 ⊆ open s;
  answered_close workflow_id s s' : sv_workflow_cancel fm workflow_id s = (Return (), s') → workflow_id ∉ open s';
}.

(** The calls that fail are kept in a ledger: the workflows that attempts to
    submit opened before they raised, and those whose cancellation raised. *)
Record ledger := Ledger {
  lost_submissions : list string;
  failed_cancels : list string;
}.
Definition no_failures : ledger := Ledger [] [].

Section ledger.
Context {S : Type} (fm : service S) (open : S → list string).
Local Abbreviation L := (S * ledger)%type.

Definition lift_call {A} (m : call S A) : call L A := λ sl, let '(r, s) := m sl.1 in (r, (s, sl.2)).
Definition submit_noting (text : string) : call L (string * list string) := λ sl,
let '(r, s) := sv_workflow_submit fm text sl.1 in
let l := sl.2 in
(r, (s, match r with
        | Return _ => l
        | Raise _ => Ledger (lost_submissions l ++ filter (λ x, x ∉ open sl.1) (open s)) (failed_cancels l)
        end)).
Definition cancel_noting (workflow_id : string) : call L () := λ sl,
let '(r, s) := sv_workflow_cancel fm workflow_id sl.1 in
let l := sl.2 in
(r, (s, match r with Return _ => l | Raise _ => Ledger (lost_submissions l) (failed_cancels l ++ [workflow_id]) end)).

(** The same service, with the ledger *)
Definition noting : service L := Service L
  (λ d sl, (sv_sleep fm d sl.1, sl.2)) (λ t, lift_call (sv_task_status fm t)) (λ t, lift_call (sv_task_retrieve fm t))
  (λ t, lift_call (sv_result_retrieve fm t)) (lift_call (sv_workflow_list fm)) submit_noting cancel_noting.
End ledger.

Section failing.
Context {S0 : Type} (fm0 : service S0) (open0 : S0 → list string) `{!OpensAnswered fm0 open0}.
Local Abbreviation S := (S0 * ledger)%type.
Local Abbreviation fm := (noting fm0 open0).
Local Abbreviation open := (λ s : S, open0 s.1).
Local Abbreviation lost := (λ s : S, lost_submissions s.2).
Context (others : S → manager → manager) (clock : S → f64).
Context (json_loads : string → option val) (json_dumps : val → string) (fromisoformat : string → result Z).
Context (render : source → string) (to_str : val → string) (urlsplit : string → result (string * option string * option Z)).
Context (yaml_dump : dict string val → string) (archive : S → string → string → string → string + string).
Context (env : config) (archive_prefix : string) (poll_timeout : f64) (poll_interval : Z).
Context (info : run_info).
(** Nothing is opened and no call fails. *)
Local Abbreviation shrinks := (λ s s' : S, open s' ⊆ open s ∧ s'.2 = s.2).

Instance shrinks_order : PreOrder shrinks.
Proof. split; [done|]. intros s s' s'' [H1 E1] [H2 E2]. split; [set_solver|congruence]. Qed.

Lemma lift_shrinks {A} (m : call S0 A) : moves (λ s s', open0 s' ⊆ open0 s) m → moves shrinks (lift_call m).
Proof. intros H [s l]. unfold lift_call. specialize (H s). simpl in *. by destruct (m s). Qed.

#[local] Instance noting_reads : Reads shrinks fm.
Proof.
split; [intros d [s l]; split; [exact (reads_sleep (R := λ s s', open0 s' ⊆ open0 s) d s)|done]|intros; apply lift_shrinks..].
- apply reads_status.
- apply reads_task.
- apply reads_result.
- apply reads_list.
Qed.

Instance keeps_order (P : world S → Prop) : PreOrder (λ w w', P w → P w').
Proof. split; [by intros w|]. intros w w' w''. auto. Qed.

Section before.
Context (before : list string).


(** Nothing is submitted and nothing is open that was not before, unless the
    answer was lost. *)
Definition nothing_new (w : world S) : Prop :=
w_submitted w = [] ∧ open (w_service w) ⊆ before ++ lost (w_service w).
(** At most the submitted workflow is. *)
Definition one_new (w : world S) : Prop :=
nothing_new w ∨ ∃ workflow_id, w_submitted w = [workflow_id] ∧ open (w_service w) ⊆ workflow_id :: before ++ lost (w_service w).

(** Returning or not, from [P]. *)
Definition ends {A} (P : world S → Prop) (m : call (world S) A) (Q : A → world S → Prop) : Prop :=
∀ w, P w → match m w with (Return a, w') => Q a w' | (Raise _, w') => one_new w' end.

Lemma ends_bind {A B} P (m : call (world S) A) (f : A → call (world S) B) R Q :
ends P m R → (∀ a, ends (R a) (f a) Q) → ends P (m ≫= f) Q.
Proof.
intros Hm Hf w Hw. specialize (Hm w Hw). unfold mbind, call_bind. destruct (m w) as [[a|] w']; [|done]. by apply (Hf a).
Qed.

Lemma nothing_calls (w w' : world S) : shrinks (w_service w) (w_service w') → w_submitted w' = w_submitted w →
nothing_new w → nothing_new w'.
Proof. intros [H1 E1] H2 [H3 H4]. split; [congruence|]. rewrite E1. set_solver. Qed.

Lemma one_calls (w w' : world S) : shrinks (w_service w) (w_service w') → w_submitted w' = w_submitted w →
one_new w → one_new w'.
Proof.
intros [H1 E1] H2 [H|(wf & H3 & H4)]; [left; by eapply nothing_calls|]. right. exists wf. split; [congruence|]. rewrite E1. set_solver.
Qed.

Lemma ends_nothing {A} (m : call (world S) A) : moves (λ w w', nothing_new w → nothing_new w') m → ends nothing_new m (λ _, nothing_new).
Proof. intros H w Hw. specialize (H w Hw). destruct (m w) as [[a|f] w']; [done|by left]. Qed.

Lemma ends_one {A} (m : call (world S) A) : moves (λ w w', one_new w → one_new w') m → ends one_new m (λ _, one_new).
Proof. intros H w Hw. specialize (H w Hw). by destruct (m w) as [[a|f] w']. Qed.

(** What is open after a submission is the accepted workflow, was open before
    or belongs to a lost answer. *)
Definition opened_none (s s' : S) : Prop :=
(∀ x, x ∈ lost s → x ∈ lost s') ∧ ∀ x, x ∈ open s' → x ∈ open s ∨ x ∈ lost s'.
Definition opened_by (r : reply (string * list string)) (s s' : S) : Prop :=
match r with
| Return (workflow_id, _) => (∀ x, x ∈ lost s → x ∈ lost s') ∧ ∀ x, x ∈ open s' → x = workflow_id ∨ x ∈ open s ∨ x ∈ lost s'
| Raise _ => opened_none s s'
end.

Instance opened_none_order : PreOrder opened_none.
Proof. split; [split; eauto|]. intros s1 s2 s3 [H1 H2] [H3 H4]. split; [eauto|]. intros x [[]%H2|]%H4; eauto. Qed.

Lemma shrinks_opened s s' : shrinks s s' → opened_none s s'.
Proof. intros [H E]. unfold opened_none. rewrite E. split; [done|]. intros x Hx. left. by apply H. Qed.

#[local] Instance opened_reads : Reads opened_none fm.
Proof.
destruct noting_reads as [H1 H2 H3 H4 H5]. split; intros; try intros s; apply shrinks_opened; [apply H1|apply H2|apply H3|apply H4|apply H5].
Qed.

Lemma opened_none_by r s s' : opened_none s s' → opened_by r s s'.
Proof. intros [H1 H2]. destruct r as [[wf ids]|f]; split; eauto. Qed.

Lemma opened_by_trans r s1 s2 s3 : opened_none s1 s2 → opened_by r s2 s3 → opened_by r s1 s3.
Proof.
intros [H1 H2] H. destruct r as [[wf ids]|f]; destruct H as [H3 H4]; (split; [eauto|]).
- intros x [|[[]%H2|]]%H4; eauto.
- intros x [[]%H2|]%H4; eauto.
Qed.

Lemma submit_opens text s : opened_by (sv_workflow_submit fm text s).1 s (sv_workflow_submit fm text s).2.
Proof.
destruct s as [s l]. simpl. unfold submit_noting. simpl.
destruct (sv_workflow_submit fm0 text s) as [[[wf ids]|f] s'] eqn:E; simpl; (split; [intros x Hx; simpl in *; rewrite ?elem_of_app; by auto|]); intros x Hx.
- apply (answered_submit text s wf ids s' E) in Hx. apply elem_of_cons in Hx as [?|?]; eauto.
- simpl in *. destruct (decide (x ∈ open0 s)) as [|Hn]; [by left|]. right. apply elem_of_app. right. by apply list_elem_of_filter.
Qed.

Lemma ends_accept text submit_id since :
ends nothing_new (remote others (except_api (sanitize_flowmesh_api_error json_loads json_dumps)
    (submit_workflow fm json_loads json_dumps fromisoformat text submit_id since)))
  (λ a w, w_submitted w = [] ∧ open (w_service w) ⊆ a.1 :: before ++ lost (w_service w)).
Proof.
intros w [H1 H2]. unfold remote, except_api, submit_workflow.
pose proof (submit_from_moves opened_none fm json_loads json_dumps fromisoformat opened_by FLOWMESH_RETRY_DELAYS_S text submit_id since
  (λ r s1 s2 s3, opened_by_trans r s1 s2 s3) (λ r s1 s2, opened_none_by r s1 s2)) as H.
ospecialize (H _ (w_service w)).
- intros s1. pose proof (submit_opens text s1) as E. destruct (sv_workflow_submit fm text s1) as [[a|f] s2]; [done|by split].
- destruct (submit_from _ _ _ _ _ _ _ _ (w_service w)) as [[[wf ids]|f] s1]; simpl in H; destruct H as [H3 H4].
  + split; [done|]. simpl. intros x [->|[Hx|Hx]]%H4; [left| |set_solver]. apply H2, elem_of_app in Hx. set_solver.
  + assert (Hn : one_new (World s1 (others s1 (w_manager w)) (w_artifacts w) (w_submitted w))).
    { left. split; [done|]. simpl. intros x [Hx|Hx]%H4; [|set_solver]. apply H2, elem_of_app in Hx. set_solver. }
    by destruct f.
Qed.

Local Ltac quiet := try first [exact nothing_calls|exact one_calls]; try typeclasses eauto.

Lemma ends_submit schedule profiles submit_id since :
ends nothing_new
  (submit_request fm others json_loads json_dumps fromisoformat render to_str urlsplit yaml_dump env info schedule profiles submit_id since)
  (λ _, one_new).
Proof.
unfold submit_request. apply (ends_bind _ _ _ (λ _, nothing_new)); [apply ends_nothing; eapply (moves_cancelled shrinks); quiet|intros []].
apply (ends_bind _ _ _ (λ _, nothing_new)); [apply ends_nothing; eapply (moves_with_manager shrinks); quiet|intros []].
eapply ends_bind; [apply ends_nothing, moves_lift; apply _|]. intros [[spec_ outputs] f2r].
apply (ends_bind _ _ _ (λ _, nothing_new)); [apply ends_nothing; eapply (moves_manager shrinks); quiet|intros m].
eapply ends_bind; [apply ends_nothing, moves_lift; apply _|]. intros spec1.
eapply ends_bind; [apply ends_nothing, moves_lift; apply _|]. intros spec2.
apply (ends_bind _ _ _ (λ _, nothing_new)); [apply ends_nothing; eapply (moves_save shrinks); quiet|intros []].
apply (ends_bind _ _ _ (λ _, nothing_new)); [apply ends_nothing; eapply (moves_save shrinks); quiet|intros []].
apply (ends_bind _ _ _ (λ _, nothing_new)); [apply ends_nothing; eapply (moves_cancelled shrinks); quiet|intros []].
eapply ends_bind; [apply ends_accept|]. intros [workflow_id task_ids].
apply (ends_bind _ _ _ (λ _, one_new)); [intros w [H1 H2]; right; exists workflow_id; split; [simpl; by rewrite H1|done]|intros []].
apply (ends_bind _ _ _ (λ _, one_new)); [apply ends_one; eapply (moves_lock shrinks); quiet|intros []].
apply (ends_bind _ _ _ (λ _, one_new)); [apply ends_one; eapply (moves_cancelled shrinks); quiet|intros []].
apply (ends_bind _ _ _ (λ _, one_new)); [apply ends_one; eapply (moves_remote shrinks); quiet; apply moves_resolve; apply _|intros maps].
apply (ends_bind _ _ _ (λ _, one_new)); [apply ends_one; eapply (moves_register shrinks); quiet|intros raw].
apply (ends_bind _ _ _ (λ _, one_new)); [apply ends_one; eapply (moves_save shrinks); quiet|intros []].
by intros w Hw.
Qed.

(** Cancelling the submitted workflow, if there is one *)
Lemma abort_leaves w x : one_new w → x ∈ open (w_service (abort_workflows fm others (w_submitted w) w).2) →
let w' := (abort_workflows fm others (w_submitted w) w).2 in
x ∈ before ∨ (x ∈ w_submitted w' ∧ x ∈ failed_cancels (w_service w').2) ∨ (x ∉ w_submitted w' ∧ x ∈ lost (w_service w')).
Proof.
intros [[H1 H2]|(wf & H1 & H2)].
{ rewrite H1. simpl. rewrite H1. intros [Hx|Hx]%H2%elem_of_app; [by left|]. right; right. split; [apply not_elem_of_nil|done]. }
rewrite H1. simpl. unfold mbind, call_bind, remote, abort_workflow. simpl. unfold cancel_noting.
destruct (w_service w) as [s l]. simpl in *. pose proof (answered_cancel (open := open0) wf s) as Hc. pose proof (answered_close (open := open0) wf s) as Hclose.
assert (Hcase : ∀ r, x ∈ open0 r → open0 r ⊆ open0 s → x = wf ∨ x ∈ before ∨ x ∈ lost_submissions l).
{ intros r Hx Hr. apply Hr, H2, elem_of_cons in Hx as [?|?%elem_of_app]; auto. }
destruct (sv_workflow_cancel fm0 wf s) as [[[]|f] s']; simpl in *; rewrite ?H1.
- intros Hx. destruct (Hcase s' Hx Hc) as [->|[?|?]]; [by destruct (Hclose s' eq_refl)|by left|].
  right; right. split; [|done]. intros ->%list_elem_of_singleton. by destruct (Hclose s' eq_refl).
- intros Hx. destruct f; simpl in *; rewrite ?H1 in *;
  (destruct (decide (x = wf)) as [->|Hne]; [right; left; split; [left|set_solver]|
   destruct (Hcase s' Hx Hc) as [?|[?|?]]; [done|by left|right; right; split; [by intros ?%list_elem_of_singleton|done]]]).
Qed.

End before.

(** C6: when a run fails, at whatever point, a workflow that is open at the
    service afterwards was open before, or it is the workflow the run submitted
    and its cancellation failed, or the answer to an attempt to submit it was
    lost and the run never learned its id; a workflow it did learn of, be it by
    looking up a lost submission, is cancelled. *)
Theorem failed_run_is_aborted fuel schedule profiles submit_id since s m f w
  (H : process_request fm others clock json_loads json_dumps fromisoformat render to_str urlsplit yaml_dump archive env archive_prefix
         poll_timeout poll_interval fuel info schedule profiles submit_id since (s, no_failures) m = Some (Raise f, w)) x :
x ∈ open (w_service w) →
x ∈ open0 s ∨ (x ∈ w_submitted w ∧ x ∈ failed_cancels (w_service w).2) ∨ (x ∉ w_submitted w ∧ x ∈ lost (w_service w)).
Proof.
unfold process_request in H. set (s0 := (s, no_failures)) in *. set (one := one_new (open0 s)).
assert (Hone : ∀ r w', process_request_body fm others clock json_loads json_dumps fromisoformat render to_str urlsplit yaml_dump archive env
  archive_prefix poll_timeout poll_interval fuel info schedule profiles submit_id since (World s0 m [] []) = Some (r, w') → one w').
{ intros r w' Hb. unfold process_request_body in Hb.
  pose proof (ends_submit (open0 s) schedule profiles submit_id since (World s0 m [] [])) as Hs.
  ospecialize (Hs _); [split; [done|]; simpl; by rewrite app_nil_r|].
  destruct (submit_request _ _ _ _ _ _ _ _ _ _ _ _ _ _ _ (World s0 m [] [])) as [[sub|e] w1]; [|by injection Hb as <- <-].
  destruct (poll _ _ _ _ _ _ _ _ _ _ _ _ _ w1) as [[r2 w2]|] eqn:Ep; [|done].
  assert (Hp : one w2) by (revert Hs; eapply (moves_poll shrinks fm (λ w w', one w → one w')); [..|exact Ep]; try exact (one_calls _); try typeclasses eauto).
  destruct r2 as [outputs|e]; [|by injection Hb as <- <-]. injection Hb as Hb.
  pose proof (moves_finish shrinks fm (λ w w', one w → one w') others json_loads json_dumps archive archive_prefix info
    (one_calls (open0 s)) sub outputs w2 Hp) as Hfin. by rewrite Hb in Hfin. }
destruct (process_request_body _ _ _ _ _ _ _ _ _ _ _ _ _ _ _ _ _ _ _ _ _ _) as [[[res|e] w1]|] eqn:Eb; [done| |done].
specialize (Hone _ _ eq_refl). assert (Hw : w = (abort_workflows fm others (w_submitted w1) w1).2).
{ by destruct (abort_workflows _ _ _ w1) as [[|] ?]; injection H as _ ->. }
subst w. by apply abort_leaves.
Qed.
End failing.

(** ** Runs end *)

Section ending.
Context {S : Type} (fm : service S) (others : S → manager → manager) (clock : S → f64).
Context (json_loads : string → option val) (json_dumps : val → string) (fromisoformat : string → result Z).
Context (render : source → string) (to_str : val → string) (urlsplit : string → result (string * option string * option Z)).
Context (yaml_dump : dict string val → string) (archive : S → string → string → string → string + string).
Context (env : config) (archive_prefix : string) (poll_timeout : f64) (poll_interval : Z).
Context (info : run_info).

(** Sleeps until the timeout: reads do not add any, a sleep takes one off. *)
Context (remaining : S → nat) `{!Reads (λ s s', remaining s' ≤ remaining s) fm}.
Hypothesis sleeping : ∀ s, remaining s ≠ 0 → remaining (sv_sleep fm poll_interval s) < remaining s.
Local Abbreviation within k := (λ w : world S, remaining (w_service w) ≤ k).

Instance within_order k : PreOrder (λ w w' : world S, within k w → within k w').
Proof. split; [by intros w|]. intros w w' w''. auto. Qed.

Instance fewer_order : PreOrder (λ s s' : S, remaining s' ≤ remaining s).
Proof. split; [by intros s|]. intros s s' s''. lia. Qed.

Lemma within_calls k (w w' : world S) : remaining (w_service w') ≤ remaining (w_service w) → w_submitted w' = w_submitted w →
within k w → within k w'.
Proof. simpl. lia. Qed.

Lemma spec_within {A} k (m : call (world S) A) : moves (λ w w', within k w → within k w') m → spec (within k) m (λ _, within k).
Proof. intros H w Hw. specialize (H w Hw). by destruct (m w) as [[a|f] w']. Qed.

Local Abbreviation fewer := (λ s s' : S, remaining s' ≤ remaining s).
Local Ltac quiet := try exact (within_calls _); try typeclasses eauto.

Lemma round_sleeps k t2n task_ids downloaded : k ≠ 0 →
spec (within k) (poll_round fm others json_loads json_dumps poll_interval info t2n task_ids downloaded)
  (λ r w, match r with inl _ => True | inr _ => remaining (w_service w) < k end).
Proof.
intros Hk. unfold poll_round. apply (spec_bind _ _ _ (λ _, within k)); [apply spec_within; eapply (moves_cancelled fewer); quiet|intros _].
apply (spec_bind _ _ _ (λ _, within k)).
{ apply spec_within. unfold update_task_status. apply moves_bind; [apply _|eapply (moves_manager fewer); quiet|].
  intros m. apply (moves_update fewer fm); [typeclasses eauto..|exact (within_calls k)]. }
intros _. apply (spec_bind _ _ _ (λ _, within k)); [apply spec_within; eapply (moves_download fewer); quiet|intros d].
apply (spec_bind _ _ _ (λ _, within k)); [apply spec_within; eapply (moves_manager fewer); quiet|intros m].
apply (spec_bind _ _ _ (λ _, within k)); [apply spec_within, moves_lift; apply _|intros outputs].
destruct (forallb _ _); [by apply spec_ret|]. destruct (failed_tasks _ _); [|apply spec_throw].
apply (spec_bind _ _ _ (λ _ w, remaining (w_service w) < k)); [|intros _; by apply spec_ret].
intros w Hw. simpl. destruct (decide (remaining (w_service w) = 0)) as [E|E].
- pose proof (reads_sleep (R := fewer) poll_interval (w_service w)) as H. simpl in H. lia.
- pose proof (sleeping _ E). lia.
Qed.

Lemma poll_ends start (Hend : ∀ s, remaining s = 0 → fltb (fsub (clock s) start) poll_timeout = false) t2n task_ids n downloaded w :
remaining (w_service w) ≤ n → ∃ r, ∀ fuel, n < fuel →
  poll fm others clock json_loads json_dumps poll_timeout poll_interval fuel info t2n task_ids downloaded start w = Some r.
Proof.
revert downloaded w. induction n as [|n IH]; intros downloaded w Hn.
{ eexists. intros [|fuel] Hf; [lia|]. simpl. rewrite Hend by lia. done. }
destruct (fltb (fsub (clock (w_service w)) start) poll_timeout) eqn:Et.
2: { eexists. intros [|fuel] Hf; [lia|]. simpl. rewrite Et. done. }
assert (Hk : remaining (w_service w) ≠ 0) by (intros E; rewrite Hend in Et; done).
pose proof (round_sleeps _ t2n task_ids downloaded Hk w (le_n _)) as Hr.
destruct (poll_round fm others json_loads json_dumps poll_interval info t2n task_ids downloaded w) as [[[outs|d]|f] w1] eqn:Er.
- eexists. intros [|fuel] Hf; [lia|]. simpl. rewrite Et, Er. done.
- destruct (IH d w1) as [r H]; [lia|]. exists r. intros [|fuel] Hf; [lia|]. simpl. rewrite Et, Er. apply H. lia.
- eexists. intros [|fuel] Hf; [lia|]. simpl. rewrite Et, Er. done.
Qed.

(** C7: when sleeping brings the timeout closer, a run ends: with more fuel than
    the sleeps that remain after the submission it has one outcome. *)
Theorem runs_end schedule profiles submit_id since s m w1
  (Hsubmit : (submit_request fm others json_loads json_dumps fromisoformat render to_str urlsplit yaml_dump env info schedule profiles
                submit_id since (World s m [] [])).2 = w1)
  (Hend : ∀ s, remaining s = 0 → fltb (fsub (clock s) (clock (w_service w1))) poll_timeout = false) :
∃ r, ∀ fuel, remaining (w_service w1) < fuel →
  process_request fm others clock json_loads json_dumps fromisoformat render to_str urlsplit yaml_dump archive env archive_prefix
    poll_timeout poll_interval fuel info schedule profiles submit_id since s m = Some r.
Proof.
assert (Hbody : ∃ r, ∀ fuel, remaining (w_service w1) < fuel →
  process_request_body fm others clock json_loads json_dumps fromisoformat render to_str urlsplit yaml_dump archive env archive_prefix
    poll_timeout poll_interval fuel info schedule profiles submit_id since (World s m [] []) = Some r).
{ unfold process_request_body. destruct (submit_request _ _ _ _ _ _ _ _ _ _ _ _ _ _ _ _) as [[sub|f] w]; simpl in Hsubmit; subst w.
  - destruct (poll_ends _ Hend (sub_task_to_node sub) (sub_task_ids sub) _ [] w1 (le_n _)) as [[[outs|f] w2] Hp].
    + eexists. intros fuel Hf. rewrite (Hp fuel Hf). done.
    + eexists. intros fuel Hf. rewrite (Hp fuel Hf). done.
  - eexists. done. }
destruct Hbody as [[[res|f] w] Hb].
- eexists. intros fuel Hf. unfold process_request. rewrite (Hb fuel Hf). done.
- destruct (abort_workflows fm others (w_submitted w) w) as [[[]|f'] w'] eqn:Ea.
  + eexists. intros fuel Hf. unfold process_request. rewrite (Hb fuel Hf), Ea. done.
  + eexists. intros fuel Hf. unfold process_request. rewrite (Hb fuel Hf), Ea. done.
Qed.
End ending.

(** ** The service of the example *)

(** The example with a gateway that may lose the answer of a submission, which
    it does not retry, or refuse to cancel *)
Definition gateway_error : failure := Api (APIError.mk "gateway" (Some 500%Z) None None None).
Definition faulty_service (loses refuses : bool) : service demo_state :=
  let fm := demo_service 1000 in
  Service demo_state (sv_sleep fm) (sv_task_status fm) (sv_task_retrieve fm) (sv_result_retrieve fm) (sv_workflow_list fm)
    (λ text s, let '(r, s) := sv_workflow_submit fm text s in (if loses then Raise gateway_error else r, s))
    (λ wf s, if refuses then (Raise gateway_error, s) else sv_workflow_cancel fm wf s).

#[export] Instance faulty_opens loses refuses : OpensAnswered (faulty_service loses refuses) d_open.
Proof.
  split.
  - by split; try intros ??; try intros ?; simpl.
  - intros text s wf ids s'. destruct loses; simpl; [done|]. intros [= <- <- <-]. simpl. set_solver.
  - intros wf s. destruct refuses; simpl; [done|]. intros x [_ Hx]%list_elem_of_filter. done.
  - intros wf s s'. destruct refuses; simpl; [done|]. intros [= <-]. simpl. intros [? _]%list_elem_of_filter. done.
Qed.

Abbreviation faulty_run loses refuses :=
  (process_request (noting (faulty_service loses refuses) d_open) (λ _ m, m) (λ s, demo_clock s.1) (λ _, None) (λ _, "") (λ _, Ok 0%Z) (λ _, "") (λ _, "") demo_urlsplit
    (λ _, "workflow") (λ _ _ _ _, inr "") demo_config "archive" (of_Z 100) 1 101 demo_info [("gpu-0", ["n0"; "n1"])] [] "submit-1" 0%Z
    (Demo 0 ["other"], no_failures) demo_manager).

(** Of a run that times out nothing is left, unless the gateway fails. *)
Example what_is_left :
  let left_open r := (λ rw : reply run_result * world (demo_state * ledger), (d_open (w_service rw.2).1, w_submitted rw.2, (w_service rw.2).2)) <$> r in
  left_open (faulty_run false false) = Some (["other"], ["wf-1"], no_failures) ∧
  left_open (faulty_run false true) = Some (["other"; "wf-1"], ["wf-1"], Ledger [] ["wf-1"]) ∧
  left_open (faulty_run true false) = Some (["other"; "wf-1"], [], Ledger ["wf-1"] []).
Proof. vm_compute. done. Qed.

Lemma failed_run_is_aborted_witness : match faulty_run false false with Some (Raise f, w) => ∀ x, x ∈ d_open (w_service w).1 → x = "other" | _ => False end.
Proof.
  assert (E0 : match faulty_run false false with Some (Raise _, w) => match (w_service w).2 with Ledger [] [] => true | _ => false end | _ => false end = true) by (vm_compute; reflexivity).
  destruct (faulty_run false false) as [[[res|f] w]|] eqn:E; [discriminate E0| |discriminate E0].
  assert (E1 : (w_service w).2 = no_failures) by (by destruct ((w_service w).2) as [[] []]). intros x Hx.
  destruct (failed_run_is_aborted (faulty_service false false) d_open (λ _ m, m) (λ s, demo_clock s.1) (λ _, None) (λ _, "") (λ _, Ok 0%Z) (λ _, "") (λ _, "") demo_urlsplit
    (λ _, "workflow") (λ _ _ _ _, inr "") demo_config "archive" (of_Z 100) 1 demo_info 101
    [("gpu-0", ["n0"; "n1"])] [] "submit-1" 0%Z (Demo 0 ["other"]) demo_manager f w E x Hx) as [H|[[_ H]|[_ H]]].
  - exact (proj1 (list_elem_of_singleton x "other") H).
  - rewrite E1 in H. destruct (proj1 (elem_of_nil x) H).
  - rewrite E1 in H. destruct (proj1 (elem_of_nil x) H).
Defined.

Definition demo_remaining (s : demo_state) : nat := Z.to_nat (100 - d_time s).

#[export] Instance demo_reads_time need : Reads (λ s s', demo_remaining s' ≤ demo_remaining s) (demo_service need).
Proof. split; try intros ??; try intros ?; simpl; unfold demo_remaining; simpl; lia. Qed.

Lemma runs_end_witness : ∃ r, ∀ fuel, 100 < fuel → demo_run 1000 fuel = Some r.
Proof.
  apply (runs_end (demo_service 1000) (λ _ m, m) demo_clock (λ _, None) (λ _, "") (λ _, Ok 0%Z) (λ _, "") (λ _, "") demo_urlsplit
    (λ _, "workflow") (λ _ _ _ _, inr "") demo_config "archive" (of_Z 100) 1 demo_info demo_remaining) with (w1 := (submit_request (demo_service 1000) (λ _ m, m) (λ _, None) (λ _, "") (λ _, Ok 0%Z) (λ _, "") (λ _, "") demo_urlsplit
      (λ _, "workflow") demo_config demo_info [("gpu-0", ["n0"; "n1"])] [] "submit-1" 0%Z demo_world).2).
  - intros s H. unfold demo_remaining in *. simpl. lia.
  - reflexivity.
  - intros s H. unfold demo_remaining in H. unfold demo_clock at 1. destruct (Z.ltb_spec (d_time s) 100); [lia|]. vm_compute. reflexivity.
Defined.
