(* ===== verification/YamlParser.v ===== *)
(** * YAML workflows (parser/yaml_parser.py, parser/common.py)

    A workflow is a mapping with inputs, ops and outputs; parsing it gives the
    serialized graph that [Graph.from_json] loads: a dict from op ids to op
    dicts, in an order that follows the declared inputs.  [load_graph] is that load,
    with what the constructors of the ops (ops/) check of their fields.

    Loading the YAML text is the parameter [yaml_load], and [blake2b_2] the
    two-byte digest of the id of an op.  An exception is a [ValueError] with the
    text of its message cut before the values it prints. *)

From Stdlib Require Import Ascii.
From S2P Require Import Prelude PyFloat PyDict PyValue PyString PythonStep.

(** ** Ids *)

Definition is_alnum (c : ascii) : bool := (is_digit c || is_upper c || is_lower c)%bool.

(** [re.sub(r"[^A-Za-z0-9]+", "_", s)] *)
Fixpoint slug_chars (in_run : bool) (l : list ascii) : list ascii :=
  match l with
  | [] => []
  | c :: l =>
      if is_alnum c then c :: slug_chars false l
      else if in_run then slug_chars true l else "_"%char :: slug_chars true l
  end.

(** [s.strip("_")] *)
Fixpoint drop_underscores (l : list ascii) : list ascii :=
  match l with
  | "_"%char :: l => drop_underscores l
  | _ => l
  end.
Definition strip_underscores (l : list ascii) : list ascii := reverse (drop_underscores (reverse (drop_underscores l))).

Definition slug (default : string) (s : string) : string :=
  match strip_underscores (slug_chars false (chars s)) with [] => default | l => of_chars l end.

Section ids.
(** [int(blake2b(s, digest_size=2).hexdigest(), 16)] *)
Context (blake2b_2 : string → nat).

Definition make_id (scope prefix name : string) : string :=
prefix +:+ "_" +:+ slug "graph" scope +:+ "_" +:+ slug "node" name +:+ "_" +:+ str_of_nat (Nat.modulo (blake2b_2 (scope +:+ ":" +:+ name)) 10000).
End ids.

Definition SUPPORTED_OPS : list string :=
  ["DataOp"; "DataRetrievalOp"; "MessageOp"; "LLMChatOp"; "LLMVisionOp"; "ImageGenerationOp"; "EmbeddingOp"; "FormatOp"; "LambdaOp"].

Definition op_id_prefix (op_type : string) : string :=
  dget_or (lower op_type) op_type
    [("DataOp", "data"); ("DataRetrievalOp", "retrieval"); ("MessageOp", "message"); ("LLMChatOp", "llm"); ("LLMVisionOp", "llmvision");
     ("ImageGenerationOp", "imagegen"); ("EmbeddingOp", "embedding"); ("FormatOp", "format"); ("LambdaOp", "lambda")].

(** [common.GenerationConfig], its fields *)
Definition GENERATION_CONFIG_FIELDS : list string :=
  ["model"; "api"; "frequency_penalty"; "logit_bias"; "logprobs"; "max_tokens"; "n"; "presence_penalty"; "seed"; "stop"; "stream";
   "stream_options"; "temperature"; "top_p"; "ignore_eos"; "chat_template_kwargs"; "min_tokens"; "repetition_penalty"; "top_k"; "min_p";
   "extra_sampling_params"; "max_model_len"; "gpu_memory_utilization"; "tensor_parallel_size"; "dtype"; "extra_engine_kwargs"].
(** [LambdaOp.LAMBDA_MODES] *)
Definition LAMBDA_MODES : list val := [VStr "row"; VStr "list"; VStr "aligned"].

(** ** Entries *)

Module OpEntry.
Record t := mk {
id : string;
op : string;
inputs : list string;
fields : dict string val;
max_iter : val;
}.
End OpEntry.

Module OutputEntry.
Record t := mk {
name : string;
ref : string;
path : option string;
}.
End OutputEntry.

(** A graph op: its fields *)
Abbreviation op_dict := (dict string val).
Record graph_spec := GraphSpec {
  gs_graph : dict string op_dict;
  gs_inputs : dict string (list string);
}.

Definition as_str (v : val) : option string := match v with VStr s => Some s | _ => None end.
(** [isinstance(v, list) and all(isinstance(x, str) for x in v)] *)
Definition str_list (v : val) : option (list string) := match v with VList l => mapM as_str l | _ => None end.
(** [isinstance(v, dict) and all(isinstance(x, str) for x in v.values())] *)
Definition str_dict (v : val) : option (dict string string) :=
  match v with VDict d => mapM (λ kv : string * val, s ← as_str kv.2; Some (kv.1, s)) d | _ => None end.
(** [isinstance(v, str) and v.strip()] *)
Definition text_of (v : val) : option string := match v with VStr s => if String.eqb (strip s) "" then None else Some s | _ => None end.
(** [d.get(key, default) or default] *)
Definition get_or (key : string) (default : val) (d : dict string val) : val :=
  let v := dget_or default key d in if truthy v then v else default.

Definition get_graph_name (spec : dict string val) : result string :=
  match vget "name" spec with
  | VNone => Ok "yaml_workflow"
  | v => name ← ok_or (ValueError "workflow 'name' must be a non-empty string") (text_of v); Ok (strip name)
  end.

Definition validate_input (inputs : dict string (list string)) (entry : string * val) : result (dict string (list string)) :=
  if String.eqb (strip entry.1) "" then Err (ValueError "input names must be non-empty strings")
  else value ← ok_or (ValueError ("input '" +:+ entry.1 +:+ "' must be a list of strings")) (str_list entry.2);
       Ok (dset entry.1 value inputs).
Definition validate_inputs (inputs_block : val) : result (dict string (list string)) :=
  match inputs_block with
  | VDict d => foldR validate_input [] d
  | _ => Err (ValueError "'inputs' must be a mapping of name -> list[str]")
  end.

Definition reserved : list string := ["id"; "op"; "inputs"; "max_iter"].

Definition parse_op_entry (entry : val) : result OpEntry.t :=
  match entry with
  | VDict d =>
      user_id ← ok_or (ValueError "op entry missing 'id'") (text_of (vget "id" d));
      op_type ← ok_or (ValueError ("op entry '" +:+ user_id +:+ "' missing 'op' type")) (text_of (vget "op" d));
      raw_inputs ← ok_or (ValueError ("op '" +:+ user_id +:+ "' inputs must be a list of ids")) (str_list (get_or "inputs" (VList []) d));
      max_iter ← match vget "max_iter" d with
                 | (VNone | VInt _ | VBool _) as v => Ok v
                 | _ => Err (ValueError ("op '" +:+ user_id +:+ "' max_iter must be int or null"))
                 end;
      Ok (OpEntry.mk (strip user_id) (strip op_type) raw_inputs (filter (λ kv : string * val, kv.1 ∉ reserved) d) max_iter)
  | _ => Err (ValueError "op entry must be a mapping")
  end.

Definition parse_output_entry (entry : val) : result OutputEntry.t :=
  match entry with
  | VDict d =>
      name ← ok_or (ValueError "output entry missing 'name'") (text_of (vget "name" d));
      ref ← ok_or (ValueError ("output entry '" +:+ name +:+ "' missing 'ref'")) (text_of (vget "ref" d));
      path ← match vget "path" d with
             | VNone => Ok None
             | v => p ← ok_or (ValueError ("output entry '" +:+ name +:+ "' path must be a non-empty string")) (text_of v); Ok (Some (strip p))
             end;
      Ok (OutputEntry.mk (strip name) (strip ref) path)
  | _ => Err (ValueError "output entry must be a mapping")
  end.

(** ** Ops *)

Section workflow.
Context (blake2b_2 : string → nat) (scope : string).
(** user-facing ids to op ids *)
Context (user_id_to_internal : dict string string).

Definition vids (ids : list string) : val := VList (VStr <$> ids).
Definition lookup_id (message : string) (ref : string) : result string := ok_or (ValueError message) (dget ref user_id_to_internal).
Definition resolve_or_self (ref : string) : string := dget_or ref ref user_id_to_internal.

(** [_build_generation_config] *)
Definition build_generation_config (config : dict string val) : result val :=
if forallb (λ k, bool_decide (k ∈ GENERATION_CONFIG_FIELDS)) (dkeys config) then Ok (VDict config)
else Err (ValueError "config has unknown fields").

Definition emit_data_op (entry : OpEntry.t) (op : op_dict) : result op_dict :=
data ← ok_or (ValueError "DataOp requires 'data: list[str]'") (str_list (vget "data" (OpEntry.fields entry)));
Ok (dset "_inputs" (VList []) (dset "data" (vids data) op)).

(** The [node] of one parameter *)
Definition resolve_param (param : val) : result val :=
match param with
| VDict d =>
match dget "node" d with
| Some (VStr node_ref) => node ← lookup_id "params.node references unknown input/op id" node_ref; Ok (VDict (dset "node" (VStr node) d))
| Some _ => Err (ValueError "params.node must be a string")
| None => Ok param
end
| _ => Err (ValueError "params must be a mapping")
end.

Definition resolve_data_spec (data_spec : dict string val) : result (dict string val) :=
match vget "params" data_spec with
| VNone => Ok data_spec
| VList params => new_params ← mapR resolve_param params; Ok (dset "params" (VList new_params) data_spec)
| _ => Err (ValueError "params must be a list")
end.

Definition emit_data_retrieval_op (entry : OpEntry.t) (op : op_dict) : result op_dict :=
match vget "data_spec" (OpEntry.fields entry) with
| VDict data_spec => spec ← resolve_data_spec data_spec; Ok (dset "data_spec" (VDict spec) op)
| _ => Err (ValueError "DataRetrievalOp requires 'data_spec'")
end.

Definition serialize_message (msg : val) : result val :=
match msg with
| VDict d =>
match vget "role" d, vget "content" d with
| VStr role, VStr content => Ok (VDict [("role", VStr role); ("content", VStr (resolve_or_self content))])
| _, _ => Err (ValueError "messages requires string role + content")
end
| _ => Err (ValueError "messages must be a mapping")
end.

Definition emit_message_op (messages : val) (op : op_dict) : result op_dict :=
match messages with
| VList (m :: ms) => serialized ← mapR serialize_message (m :: ms); Ok (dset "messages" (VList serialized) op)
| _ => Err (ValueError "MessageOp requires non-empty 'messages'")
end.

Definition emit_format_op (entry : OpEntry.t) (op : op_dict) : result op_dict :=
template ← ok_or (ValueError "FormatOp requires 'template: str'") (as_str (vget "template" (OpEntry.fields entry)));
fmt_args ← ok_or (ValueError "format_args must be list[str]") (str_list (get_or "format_args" (VList []) (OpEntry.fields entry)));
fmt_kwargs ← ok_or (ValueError "format_kwargs must be dict[str, str]") (str_dict (get_or "format_kwargs" (VDict []) (OpEntry.fields entry)));
Ok (dset "format_kwargs" (VDict ((λ kv, (kv.1, VStr (resolve_or_self kv.2))) <$> fmt_kwargs))
 (dset "format_args" (vids (resolve_or_self <$> fmt_args)) (dset "template" (VStr template) op))).

(** A field with its check: absent, or copied when [ok]. *)
Definition copy_field (key : string) (ok : val → bool) (fields : dict string val) (op : op_dict) : result op_dict :=
match vget key fields with
| VNone => Ok op
| v => if ok v then Ok (dset key v op) else Err (ValueError ("LambdaOp '" +:+ key +:+ "'"))
end.

Definition is_number (v : val) : bool := match v with VInt _ | VFloat _ => true | _ => false end.
Definition is_integer (v : val) : bool := match v with VInt _ => true | _ => false end.
Definition is_bool (v : val) : bool := match v with VBool _ => true | _ => false end.

Definition emit_lambda_op (entry : OpEntry.t) (op : op_dict) : result op_dict :=
let fields := OpEntry.fields entry in
let code := if truthy (vget "code" fields) then vget "code" fields else vget "_code" fields in
fn_name ← ok_or (ValueError "LambdaOp requires 'fn_name: str'") (as_str (vget "fn_name" fields));
code ← ok_or (ValueError "LambdaOp requires 'code: str'") (as_str code);
let mode := dget_or (VStr "row") "mode" fields in
if negb (bool_decide (mode ∈ LAMBDA_MODES)) then Err (ValueError "LambdaOp mode")
else
op ← copy_field "timeout_s" is_number fields (dset "mode" mode (dset "_code" (VStr code) (dset "fn_name" (VStr fn_name) op)));
op ← copy_field "memory_mb" is_integer fields op;
op ← copy_field "image" (λ v, match text_of v with Some _ => true | None => false end) fields op;
op ← copy_field "expected_runtime_s" is_number fields op;
copy_field "cache" is_bool fields op.

(** *** Ops that call a model *)

Definition format_op (id : string) (inputs : list string) (template : string) (kwargs : dict string string) : op_dict :=
[("_id", VStr id); ("_op", VStr "FormatOp"); ("_max_iter", VNone); ("_inputs", vids inputs); ("template", VStr template);
("format_args", VList []); ("format_kwargs", VDict ((λ kv, (kv.1, VStr kv.2)) <$> kwargs))].

Context (graph_ops : dict string op_dict).

Definition is_op (op_type id : string) : bool :=
match dget id graph_ops with Some op => bool_decide (vget "_op" op = VStr op_type) | None => false end.

(** The implicit format op that several messages share: its references *)
Record wrapped := Wrapped {
wr_messages : list val;
wr_kwargs : dict string string;
wr_inputs : list string;
}.

(** The text of a message of this role *)
Definition role_content (role : string) (d : dict string val) : option string :=
if bool_decide (vget "role" d = VStr role) then as_str (vget "content" d) else None.
Definition user_content (d : dict string val) : option string := role_content "user" d.

Definition wrap_message (format_id : string) (st : wrapped) (msg : val) : wrapped :=
let keep := Wrapped (wr_messages st ++ [msg]) (wr_kwargs st) (wr_inputs st) in
match msg with
| VDict d =>
match user_content d with
| Some content =>
    match dget content user_id_to_internal with
    | None => keep
    | Some op_id =>
        if is_op "FormatOp" op_id then keep
        else Wrapped (wr_messages st ++ [VDict (dset "content" (VStr format_id) d)])
               (dset ("ref" +:+ str_of_nat (length (wr_kwargs st))) op_id (wr_kwargs st))
               (if bool_decide (op_id ∈ wr_inputs st) then wr_inputs st else wr_inputs st ++ [op_id])
    end
| None => keep
end
| _ => keep
end.

(** [_wrap_user_content_refs]: the messages and the format op, if any *)
Definition wrap_user_content_refs (entry_id : string) (messages : val) : val * list op_dict :=
match messages with
| VList (m :: ms) =>
let format_id := make_id blake2b_2 scope "format" entry_id in
let st := foldl (wrap_message format_id) (Wrapped [] [] []) (m :: ms) in
match wr_kwargs st with
| [] => (messages, [])
| kwargs => (VList (wr_messages st),
    [format_op format_id (wr_inputs st) (foldr (λ k t, "{" +:+ k +:+ "}" +:+ t) "" (dkeys kwargs)) kwargs])
end
| _ => (messages, [])
end.

Definition add_ref (l : list string) (x : string) : list string := if bool_decide (x ∈ l) then l else l ++ [x].

(** The references of a prompt and the inputs of its format op *)
Definition resolve_kwarg (st : dict string string * list string) (entry : string * string) : result (dict string string * list string) :=
internal ← lookup_id "prompt.format_kwargs references unknown id" entry.2;
Ok (dset entry.1 internal st.1, add_ref st.2 internal).

Definition prompt_message (format_id : string) (msg : val) : val :=
match msg with
| VDict d => if bool_decide (vget "role" d = VStr "user") then VDict (dset "content" (VStr format_id) d) else msg
| _ => msg
end.

(** [_build_inline_messages] *)
Definition build_inline_messages (messages prompt_spec : val) (entry_id : string) : result (val * list op_dict) :=
match prompt_spec with
| VDict prompt =>
template ← ok_or (ValueError "prompt.template must be a string") (as_str (vget "template" prompt));
format_kwargs ← ok_or (ValueError "prompt.format_kwargs must be dict[str, str]") (str_dict (get_or "format_kwargs" (VDict []) prompt));
resolved ← foldR resolve_kwarg ([], []) format_kwargs;
let format_id := make_id blake2b_2 scope "format" entry_id in
msgs ← py_iter messages;
Ok (VList (map (prompt_message format_id) msgs), [format_op format_id resolved.2 template resolved.1])
| _ => Ok (wrap_user_content_refs entry_id messages)
end.

(** [resolved_contents] *)
Definition message_contents (messages : list val) : list string :=
omap (λ msg, match msg with
         | VDict d => match vget "content" d with VStr content => Some (resolve_or_self content) | _ => None end
         | _ => None
         end) messages.

(** The message op an LLM op depends on: its id and the ops that are added. *)
Definition llm_messages (entry : OpEntry.t) : result (string * list op_dict) :=
let fields := OpEntry.fields entry in
match vget "messages_ref" fields, vget "messages" fields with
| VNone, VNone => Err (ValueError "requires 'messages' (inline) or 'messages_ref'")
| VNone, inline_messages =>
built ← build_inline_messages inline_messages (vget "prompt" fields) (OpEntry.id entry);
let '(prepared, extra_format_ops) := built in
let message_id := make_id blake2b_2 scope "message" (OpEntry.id entry) in
deps ← mapR (λ ref, ok_or (KeyError ref) (dget ref user_id_to_internal)) (OpEntry.inputs entry);
let seen := foldl add_ref (foldl add_ref [] deps) (omap (λ op, as_str (vget "_id" op)) extra_format_ops) in
msgs ← py_iter prepared;
message ← emit_message_op prepared
  [("_id", VStr message_id); ("_op", VStr "MessageOp"); ("_max_iter", VNone);
   ("_inputs", vids (filter (.∈ message_contents msgs) seen))];
Ok (message_id, extra_format_ops ++ [message])
| VStr messages_ref, _ =>
id ← lookup_id "messages_ref references unknown id" messages_ref;
if is_op "MessageOp" id then Ok (id, []) else Err (ValueError "messages_ref must reference a MessageOp")
| _, _ => Err (ValueError "messages_ref must be a string id")
end.

Definition resolve_row (item : val) : result val :=
match item with
| VDict d =>
Ok (VDict (match vget "node" d with
           | VStr node_ref => match dget node_ref user_id_to_internal with Some id => dset "node" (VStr id) d | None => d end
           | _ => d
           end))
| _ => Err (ValueError "aggregate_table/rowwise_columns entries must be mappings")
end.

(** [_resolve_table_nodes] *)
Definition resolve_table_nodes (table : val) : result (option (list val)) :=
match table with
| VNone => Ok None
| VList items => out ← mapR resolve_row items; Ok (Some out)
| _ => Err (ValueError "aggregate_table/rowwise_columns must be a list")
end.

Definition row_node (item : val) : option string := match item with VDict d => as_str (vget "node" d) | _ => None end.

Definition set_field (key : string) (v : option val) (op : op_dict) : op_dict := match v with Some v => dset key v op | None => op end.
Definition copied (key : string) (fields : dict string val) (op : op_dict) : op_dict := set_field key (dget key fields) op.

(** The text of the system messages of a list *)
Definition system_texts (messages : list val) : list val :=
omap (λ m, match m with VDict d => VStr <$> role_content "system" d | _ => None end) messages.

Definition system_messages (fields : dict string val) : option val :=
match dget "system_messages" fields with
| Some v => Some v
| None =>
if dmem "rowwise_template" fields then
  match vget "messages" fields with
  | VList l => match system_texts l with [] => None | t => Some (VList t) end
  | _ => None
  end
else None
end.

Definition model_config (op_kind : string) (fields : dict string val) : result (dict string val) :=
match vget "config" fields with
| VDict config => if dmem "model" config then Ok config else Err (ValueError (op_kind +:+ " requires 'config' with a 'model' field"))
| _ => Err (ValueError (op_kind +:+ " requires 'config' with a 'model' field"))
end.

Definition flag (key : string) (fields : dict string val) : val := VBool (truthy (vget key fields)).

(** [_emit_llm_like_op]: the op and the ops that are added with it *)
Definition emit_llm_like_op (op_kind : string) (entry : OpEntry.t) (op : op_dict) : result (op_dict * list op_dict) :=
let fields := OpEntry.fields entry in
config ← model_config op_kind fields;
message ← llm_messages entry;
config ← build_generation_config config;
aggregate ← resolve_table_nodes (vget "aggregate_table" fields);
rowwise ← resolve_table_nodes (vget "rowwise_columns" fields);
let op := dset "cacheable" (flag "cacheable" fields) (dset "return_history" (flag "return_history" fields)
        (dset "config" config (dset "messages" (VStr message.1) op))) in
let op := copied "structural_outputs" fields op in
let op := set_field "aggregate_table" (VList <$> aggregate) op in
let op := copied "rowwise_template" fields op in
let op := set_field "rowwise_columns" (VList <$> rowwise) op in
let op := set_field "system_messages" (system_messages fields) op in
let nodes := if String.eqb op_kind "LLMChatOp" then omap row_node (default [] aggregate ++ default [] rowwise) else [] in
Ok (dset "_inputs" (vids (foldl add_ref [message.1] nodes)) op, message.2).

Definition emit_llm_vision_op (entry : OpEntry.t) (op : op_dict) : result (op_dict * list op_dict) :=
let fields := OpEntry.fields entry in
image_source ← ok_or (ValueError "LLMVisionOp requires 'image_source' referencing an op id") (text_of (vget "image_source" fields));
source_id ← lookup_id "image_source references unknown id" image_source;
image_path ← match dget_or (VStr "images") "image_path" fields with
         | VStr p => if String.eqb p "" then Err (ValueError "image_path must be a string") else Ok p
         | _ => Err (ValueError "image_path must be a string")
         end;
built ← emit_llm_like_op "LLMVisionOp" entry op;
Ok (dset "image_path" (VStr image_path) (dset "image_source" (VStr source_id) built.1), built.2).

Definition emit_image_generation_op (entry : OpEntry.t) (op : op_dict) : result (op_dict * list op_dict) :=
let fields := OpEntry.fields entry in
config ← model_config "ImageGenerationOp" fields;
content_ref ← ok_or (ValueError "ImageGenerationOp requires a 'content' user-id reference") (text_of (vget "content" fields));
target ← lookup_id "content references unknown id" (strip content_ref);
let format_id := make_id blake2b_2 scope "format" (OpEntry.id entry) in
let '(content_id, implicit) := if is_op "FormatOp" target then (target, []) else (format_id, [format_op format_id [target] "{ref0}" [("ref0", target)]]) in
config ← build_generation_config config;
Ok (dset "_inputs" (vids [content_id]) (dset "cacheable" (flag "cacheable" fields) (dset "config" config (dset "content" (VStr content_id) op))), implicit).

Definition emit_embedding_op (entry : OpEntry.t) (op : op_dict) : result op_dict :=
let fields := OpEntry.fields entry in
config ← model_config "EmbeddingOp" fields;
content_ref ← ok_or (ValueError "EmbeddingOp requires an 'input' reference") (text_of (vget "input" fields));
content_id ← lookup_id "input references unknown id" (strip content_ref);
config ← build_generation_config config;
Ok (dset "_inputs" (vids [content_id]) (dset "cacheable" (flag "cacheable" fields) (dset "config" config (dset "content" (VStr content_id) op)))).

Definition alone (r : result op_dict) : result (op_dict * list op_dict) := op ← r; Ok (op, []).

(** [_build_op_dict], with the implicit ops apart *)
Definition build_op_dict (entry : OpEntry.t) : result (string * op_dict * list op_dict) :=
internal_id ← ok_or (KeyError (OpEntry.id entry)) (dget (OpEntry.id entry) user_id_to_internal);
input_ids ← mapR (λ ref, ok_or (KeyError ref) (dget ref user_id_to_internal)) (OpEntry.inputs entry);
let op : op_dict := [("_id", VStr internal_id); ("_op", VStr (OpEntry.op entry));
       ("_max_iter", OpEntry.max_iter entry); ("_inputs", vids input_ids)] in
built ← match OpEntry.op entry with
    | "DataOp" => alone (emit_data_op entry op)
    | "DataRetrievalOp" => alone (emit_data_retrieval_op entry op)
    | "MessageOp" => alone (emit_message_op (vget "messages" (OpEntry.fields entry)) op)
    | "LLMChatOp" => emit_llm_like_op "LLMChatOp" entry op
    | "LLMVisionOp" => emit_llm_vision_op entry op
    | "ImageGenerationOp" => emit_image_generation_op entry op
    | "EmbeddingOp" => alone (emit_embedding_op entry op)
    | "FormatOp" => alone (emit_format_op entry op)
    | "LambdaOp" => alone (emit_lambda_op entry op)
    | _ => Err (ValueError "unsupported op type")
    end;
Ok (internal_id, built.1, built.2).
End workflow.

(** ** The workflow *)

Section compile.
Context (blake2b_2 : string → nat) (scope : string).

Definition input_op (id name : string) : op_dict :=
[("_id", VStr id); ("_op", VStr "InputOp"); ("_max_iter", VNone); ("_inputs", VList []); ("name", VStr name)].

(** The ids and ops of the inputs, then the ids of the ops *)
Definition add_input (st : dict string string * dict string op_dict) (name : string) : result (dict string string * dict string op_dict) :=
if dmem name st.1 then Err (ValueError ("duplicate id '" +:+ name +:+ "' (input collides with op)"))
else
let id := make_id blake2b_2 scope "input" name in
Ok (dset name id st.1, dset id (input_op id name) st.2).

Definition register_op (ids : dict string string) (entry : OpEntry.t) : result (dict string string) :=
if dmem (OpEntry.id entry) ids then Err (ValueError ("duplicate id '" +:+ OpEntry.id entry +:+ "'"))
else if negb (bool_decide (OpEntry.op entry ∈ SUPPORTED_OPS)) then Err (ValueError ("unsupported op type '" +:+ OpEntry.op entry +:+ "'"))
else Ok (dset (OpEntry.id entry) (make_id blake2b_2 scope (op_id_prefix (OpEntry.op entry)) (OpEntry.id entry)) ids).

(** One pending op: emitted when none of its inputs is pending *)
Definition emit_entry (ids : dict string string) (st : dict string op_dict * dict string OpEntry.t) (item : string * OpEntry.t) :
result (dict string op_dict * dict string OpEntry.t) :=
let '(user_id, entry) := item in
let '(graph_ops, pending) := st in
if negb (forallb (λ ref, dmem ref ids) (OpEntry.inputs entry)) then Err (ValueError ("op '" +:+ user_id +:+ "' references unknown id(s)"))
else if existsb (λ ref, dmem ref pending) (OpEntry.inputs entry) then Ok st
else
built ← build_op_dict blake2b_2 scope ids graph_ops entry;
let '(id, op, implicit) := built in
Ok (dset id op (foldl (λ g (o : op_dict), match vget "_id" o with VStr i => dset i o g | _ => g end) graph_ops implicit), ddel user_id pending).

(** The passes over the pending ops *)
Fixpoint emit_pending (fuel : nat) (ids : dict string string) (graph_ops : dict string op_dict) (pending : dict string OpEntry.t) :
result (dict string op_dict) :=
match pending with
| [] => Ok graph_ops
| _ =>
match fuel with
| O => Err RecursionError
| S fuel =>
    st ← foldR (emit_entry ids) (graph_ops, pending) pending;
    if Nat.eqb (length st.2) (length pending) then Err (ValueError "cycle detected in YAML workflow ops")
    else emit_pending fuel ids st.1 st.2
end
end.

Definition emit_output (ids : dict string string) (graph_ops : dict string op_dict) (out : OutputEntry.t) : result (dict string op_dict) :=
ref ← ok_or (ValueError ("output '" +:+ OutputEntry.name out +:+ "' references unknown id")) (dget (OutputEntry.ref out) ids);
let id := make_id blake2b_2 scope "output" (OutputEntry.name out) in
if dmem id graph_ops then Err (ValueError ("duplicate output id derived for '" +:+ OutputEntry.name out +:+ "'"))
else Ok (dset id ([("_id", VStr id); ("_op", VStr "OutputOp"); ("_max_iter", VNone); ("_inputs", vids [ref]); ("name", VStr (OutputEntry.name out))] ++
              match OutputEntry.path out with Some p => [("path", VStr p)] | None => [] end) graph_ops).

Definition compile_entries (inputs : dict string (list string)) (ops : list OpEntry.t) (outputs : list OutputEntry.t) : result (dict string op_dict) :=
st ← foldR add_input ([], []) (dkeys inputs);
ids ← foldR register_op st.1 ops;
graph_ops ← emit_pending (length ops) ids st.2 (dict_of ((λ e, (OpEntry.id e, e)) <$> ops));
foldR (emit_output ids) graph_ops outputs.

Definition as_list (message : string) (v : val) : result (list val) := match v with VList l => Ok l | _ => Err (ValueError message) end.

Definition compile_workflow (spec : dict string val) : result graph_spec :=
let inputs_block := get_or "inputs" (VDict []) spec in
_ ← ok_or (ValueError "'inputs' must be a mapping of name -> list[str]") (as_dict inputs_block);
ops_block ← as_list "'ops' must be a list" (get_or "ops" (VList []) spec);
outputs_block ← as_list "'outputs' must be a list" (get_or "outputs" (VList []) spec);
inputs ← validate_inputs inputs_block;
op_entries ← mapR parse_op_entry ops_block;
output_entries ← mapR parse_output_entry outputs_block;
graph ← compile_entries inputs op_entries output_entries;
Ok (GraphSpec graph inputs).
End compile.

(** ** Payloads *)

Section parse.
Context (blake2b_2 : string → nat).

(** What loading a YAML text gives: a value, or an error with the line and
the column of its mark, counted from zero, if it has one. *)
Inductive yaml_outcome :=
| Loaded (v : val)
| Marked (line column : nat) (message : string)
| Unmarked (message : string).
Context (yaml_load : string → yaml_outcome).

Definition coerce_to_dict (payload : val) : result (dict string val) :=
match payload with
| VStr text =>
match yaml_load text with
| Loaded (VDict d) => Ok d
| Loaded _ => Err (ValueError "YAML workflow must be a mapping at the top level")
| Marked line column message =>
    Err (ValueError ("Invalid YAML at line " +:+ str_of_nat (S line) +:+ ", column " +:+ str_of_nat (S column) +:+ ": " +:+ message))
| Unmarked message => Err (ValueError ("Invalid YAML: " +:+ message))
end
| VDict d => Ok d
| _ => Err (ValueError "YAML workflow payload must be a string or dict")
end.

(** The name of the graph and its spec *)
Definition parse_yaml_payload (payload : val) : result (string * graph_spec) :=
spec_dict ← coerce_to_dict payload;
graph_name ← get_graph_name spec_dict;
if dmem "ops" spec_dict then
spec ← compile_workflow blake2b_2 graph_name spec_dict; Ok (graph_name, spec)
else Err (ValueError "YAML workflow must declare an 'ops:' list at the top level").
End parse.

(** ** Loading a graph

    [Graph.from_json] builds the ops one after the other: [_from_json] of the
    class of an op looks the ops it refers to up among those built before
    ([other_ops[...]], a [KeyError] if there is none), and the constructors
    check their fields (ops/*.py, common.py).  What a loaded op is, is the
    subject of [GraphNodes]; modelled here is which graphs are loaded and what
    the others raise.  [validate_source] parses the code of a function. *)

Definition API_CONFIG_FIELDS : list string := ["url"; "model"; "authorization"; "timeout_sec"; "retries"].
Definition MIN_MEMORY_MB : Z := 128.
Definition MAX_MEMORY_MB : Z := 8192.
Definition MAX_TIMEOUT_S : f64 := of_Z 600.
Definition MAX_IMAGE_TIMEOUT_S : f64 := of_Z 3600.

(** [not isinstance(v, bool) and isinstance(v, (int, float))] *)
Definition as_number (v : val) : option f64 := match v with VInt z => Some (of_Z z) | VFloat f => Some f | _ => None end.
(** [0 < x <= cap]; the bounds are small integers, so rounding an integer to
    the nearest double does not change the answer. *)
Definition within (x cap : f64) : bool := (fltb fzero x && fleb x cap)%bool.

(** [_validate_limits] *)
Definition validate_limits (timeout_s memory_mb : val) (has_image : bool) (expected_runtime_s : val) : result () :=
  timeout ← match timeout_s with
            | VNone => Ok MAX_TIMEOUT_S
            | v =>
                t ← ok_or (ValueError "timeout_s must be a number") (as_number v);
                if within t (if has_image then MAX_IMAGE_TIMEOUT_S else MAX_TIMEOUT_S) then Ok t else Err (ValueError "timeout_s must be in range")
            end;
  _ ← match expected_runtime_s with
      | VNone => Ok ()
      | v =>
          t ← ok_or (ValueError "expected_runtime_s must be a number") (as_number v);
          if within t timeout then Ok () else Err (ValueError "expected_runtime_s must be in range")
      end;
  match memory_mb with
  | VNone => Ok ()
  | VInt mb => if ((MIN_MEMORY_MB <=? mb) && (mb <=? MAX_MEMORY_MB))%Z then Ok () else Err (ValueError "memory_mb must be in range")
  | _ => Err (ValueError "memory_mb must be an integer")
  end.

(** [GenerationConfig( **config)] *)
Definition construct_config (config : val) : result () :=
  match config with
  | VDict d =>
      if forallb (λ k, bool_decide (k ∈ GENERATION_CONFIG_FIELDS)) (dkeys d) then
        _ ← match vget "api" d with
            | VNone => Ok ()
            | VDict api => if forallb (λ k, bool_decide (k ∈ API_CONFIG_FIELDS)) (dkeys api) then Ok () else Err (TypeError "unexpected keyword argument")
            | _ => Err (ValueError "GenerationConfig.api must be a mapping or ApiConfig")
            end;
        if truthy (vget "model" d) then Ok () else Err (ValueError "GenerationConfig.model is required in both local and API mode.")
      else Err (TypeError "unexpected keyword argument")
  | _ => Err (TypeError "argument after ** must be a mapping")
  end.

Section load.
Context (validate_source : string → string → result ()).

(** What the constructors do, [look_up] being [other_ops[...]] *)
Section construct.
Context (look_up : val → result ()).
Definition field (key : string) (data : op_dict) : result val := dindex (KeyError key) key data.
Definition look_up_all (refs : val) : result () := l ← py_iter refs; _ ← mapR look_up l; Ok ().

Definition construct_format (data : op_dict) : result () :=
args ← field "format_args" data;
_ ← look_up_all args;
kwargs ← field "format_kwargs" data;
match kwargs with
| VDict d =>
    _ ← mapR look_up (dvals d);
    _ ← field "template" data;
    (* [cls(data["template"], *format_args, **format_kwargs)] *)
    if existsb (λ k, bool_decide (k ∈ ["self"; "template"])) (dkeys d) then Err (TypeError "got multiple values for argument") else Ok ()
| _ => Err (AttributeError "items")
end.

Definition construct_lambda (data : op_dict) : result () :=
let fn_name := vget "fn_name" data in
let code := vget "_code" data in
if negb (truthy fn_name && truthy code)%bool then Err (ValueError "LambdaOp serialization missing function code or name")
else
  _ ← match code, fn_name with
      | VStr code, VStr fn_name =>
          match validate_source code fn_name with
          | Err (ValueError _) => Err (ValueError ("Invalid LambdaOp function '" +:+ fn_name +:+ "'"))
          | r => r
          end
      | _, _ => Err (TypeError "source code must be a string")
      end;
  inputs ← field "_inputs" data;
  _ ← look_up_all inputs;
  if negb (bool_decide (dget_or (VStr "row") "mode" data ∈ LAMBDA_MODES)) then Err (ValueError "LambdaOp mode must be one of")
  else
    _ ← match vget "image" data with
        | VNone => Ok ()
        | VStr image => if String.eqb (strip image) "" then Err (ValueError "LambdaOp image must be a non-empty string") else Ok ()
        | _ => Err (AttributeError "strip")
        end;
    if negb (is_none (vget "cache" data) || is_bool (vget "cache" data)) then Err (ValueError "LambdaOp cache must be a bool")
    else validate_limits (vget "timeout_s" data) (vget "memory_mb" data) (negb (is_none (vget "image" data))) (vget "expected_runtime_s" data).

(** [content_or_id in other_ops] *)
Definition construct_message (message : val) : result () :=
_ ← vindex "role" message;
content ← vindex "content" message;
match content with VList _ | VDict _ => Err (TypeError "unhashable type") | _ => Ok () end.

Definition construct_chat (data : op_dict) : result () :=
messages ← field "messages" data;
_ ← look_up messages;
config ← field "config" data;
_ ← construct_config config;
_ ← field "return_history" data;
_ ← field "cacheable" data;
Ok ().

(** [other_ops.get(image_source)] *)
Definition construct_vision (data : op_dict) : result () :=
_ ← construct_chat data;
match dget_or (VStr "") "image_source" data with
| VList _ | VDict _ => Err (TypeError "unhashable type")
| image_source => if truthy image_source then Ok () else Err (ValueError "LLMVisionOp requires image_source")
end.

Definition construct_content (data : op_dict) : result () :=
config ← field "config" data;
_ ← construct_config config;
content ← field "content" data;
_ ← look_up content;
_ ← field "cacheable" data;
Ok ().

Definition construct_output (data : op_dict) : result () :=
input_ids ← field "_inputs" data;
n ← py_length input_ids;
if negb (Nat.eqb n 1) then Err (ValueError "OutputOp must have exactly one input")
else
  _ ← field "name" data;
  l ← py_iter input_ids;
  match input_ids with VDict _ => Err (KeyError "0") | _ => _ ← mapR look_up l; Ok () end.

(** [_from_json] of the classes of the registry *)
Definition constructors (data : op_dict) : dict string (result ()) :=
[("FormatOp", construct_format data);
 ("LambdaOp", construct_lambda data);
 ("DataOp", _ ← field "data" data; Ok ());
 ("DataRetrievalOp", _ ← look_up_all (dget_or (VList []) "_inputs" data); _ ← field "data_spec" data; Ok ());
 ("MessageOp", messages ← field "messages" data; l ← py_iter messages; iterR construct_message l);
 ("InputOp", _ ← field "name" data; Ok ());
 ("OutputOp", construct_output data);
 ("LLMChatOp", construct_chat data);
 ("LLMVisionOp", construct_vision data);
 ("ImageGenerationOp", construct_content data);
 ("EmbeddingOp", construct_content data)].

(** [Op.from_json] *)
Definition construct (data : op_dict) : result () :=
op_type ← field "_op" data;
_ ← match op_type with
    | VStr t => match dget t (constructors data) with Some r => r | None => Err (KeyError "is not registered in ops") end
    | VList _ | VDict _ => Err (TypeError "unhashable type")
    | _ => Err (KeyError "is not registered in ops")
    end;
_ ← field "_id" data;
_ ← field "_max_iter" data;
Ok ().
End construct.

(** [other_ops[ref]], for the ids of the ops built so far *)
Definition other_ops (built : list string) (ref : val) : result () :=
match ref with
| VStr id => if bool_decide (id ∈ built) then Ok () else Err (KeyError id)
| VList _ | VDict _ => Err (TypeError "unhashable type")
| _ => Err (KeyError "")
end.

Definition load_op (built : list string) (item : string * op_dict) : result (list string) :=
_ ← construct (other_ops built) item.2; Ok (built ++ [item.1]).
Definition load_graph (graph : dict string op_dict) : result (list string) := foldR load_op [] graph.
End load.

(** *** The lookups alone *)

Definition items_of (v : val) : list string := match py_iter v with Ok l => omap as_str l | Err _ => [] end.
Definition values_of (v : val) : list string := match v with VDict d => omap as_str (dvals d) | _ => [] end.

Definition refs_of_type (op_type : string) (op : op_dict) : list string :=
  match op_type with
  | "DataRetrievalOp" => items_of (dget_or (VList []) "_inputs" op)
  | "LambdaOp" | "OutputOp" => items_of (vget "_inputs" op)
  | "LLMChatOp" | "LLMVisionOp" => option_list (as_str (vget "messages" op))
  | "ImageGenerationOp" | "EmbeddingOp" => option_list (as_str (vget "content" op))
  | "FormatOp" => items_of (vget "format_args" op) ++ values_of (vget "format_kwargs" op)
  | _ => []
  end.
(** The ids [construct] looks up *)
Definition op_refs (op : op_dict) : list string :=
  match vget "_op" op with VStr op_type => refs_of_type op_type op | _ => [] end.

Definition look_up_op (built : list string) (item : string * op_dict) : result (list string) :=
  _ ← mapR (λ ref, if bool_decide (ref ∈ built) then Ok () else Err (KeyError ref)) (op_refs item.2);
  Ok (built ++ [item.1]).
Definition look_up_graph (graph : dict string op_dict) : result (list string) := foldR look_up_op [] graph.
