(* ===== verification/YamlParserProps.v ===== *)
(** * Properties of YAML workflows

    Parsing ends and fails with a [ValueError]; a parsed graph lists every op
    after the ops it refers to, so it can be loaded, as soon as the ops declare
    the references of their fields among their inputs. *)

From Stdlib Require Import Ascii.
From S2P Require Import Prelude PyFloat PyDict PyValue PyString PythonStep YamlParser.

(** ** Fields of op dicts *)

Lemma vget_dset_ne k k' v (d : op_dict) : k ≠ k' → vget k (dset k' v d) = vget k d.
Proof. intros H. rewrite vget_dset. by rewrite decide_False. Qed.

Lemma vget_dset_eq k v (d : op_dict) : vget k (dset k v d) = v.
Proof. rewrite vget_dset. by rewrite decide_True. Qed.

Lemma vget_set_field k k' v (d : op_dict) : k ≠ k' → vget k (set_field k' v d) = vget k d.
Proof. intros H. destruct v; [by apply vget_dset_ne|done]. Qed.

Lemma copy_field_ok key check fields (op op' : op_dict) k : k ≠ key → copy_field key check fields op = Ok op' → vget k op' = vget k op.
Proof.
  intros Hk H. unfold copy_field in H. destruct (vget key fields); try (injection H as <-; done);
  destruct (check _); try done; injection H as <-; by apply vget_dset_ne.
Qed.

Lemma vget_default k (d : dict string val) v w : vget k d = v → v ≠ VNone → dget_or w k d = v.
Proof. unfold vget, dget_or. by destruct (dget k d); intros <-. Qed.

Ltac vsimp := repeat first [rewrite vget_dset_eq | rewrite vget_dset_ne by discriminate | rewrite vget_set_field by discriminate].

(** The string list, if it is one *)
Definition strings_of (v : val) : list string := default [] (str_list v).

Lemma str_list_vids l : str_list (vids l) = Some l.
Proof. unfold vids, str_list. apply mapM_Some, Forall2_fmap_l. by apply Forall_Forall2_diag, Forall_forall. Qed.

Lemma strings_of_vids l : strings_of (vids l) = l.
Proof. unfold strings_of. by rewrite str_list_vids. Qed.

Lemma str_dict_vstr (d : dict string string) : str_dict (VDict ((λ kv, (kv.1, VStr kv.2)) <$> d)) = Some d.
Proof. unfold str_dict. apply mapM_Some, Forall2_fmap_l. apply Forall_Forall2_diag, Forall_forall. by intros [k v]. Qed.

Lemma omap_as_str (l : list string) : omap as_str (VStr <$> l) = l.
Proof. induction l as [|s l IH]; [done|]. csimpl. by rewrite IH. Qed.

Lemma items_of_vids l : items_of (vids l) = l.
Proof. apply omap_as_str. Qed.

Lemma values_of_vstr (d : dict string string) : values_of (VDict ((λ kv, (kv.1, VStr kv.2)) <$> d)) = dvals d.
Proof. unfold values_of, dvals. rewrite <-list_fmap_compose. rewrite <-(omap_as_str (d.*2)), <-list_fmap_compose. done. Qed.

(** ** The references of an op *)

Definition message_refs (messages : val) : list string :=
  match messages with
  | VList l => omap (λ m, match m with VDict d => user_content d | _ => None end) l
  | _ => []
  end.

Definition llm_references (known : list string) (fields : dict string val) : list string :=
  match vget "messages_ref" fields with
  | VNone =>
      match vget "prompt" fields with
      | VDict prompt => dvals (default [] (str_dict (get_or "format_kwargs" (VDict []) prompt)))
      | _ => filter (.∈ known) (message_refs (vget "messages" fields))
      end
  | _ => []
  end.

(** The user-facing ids an entry refers to in its fields, besides its inputs;
    message contents count when they are ids. *)
Definition op_references (known : list string) (entry : OpEntry.t) : list string :=
  let fields := OpEntry.fields entry in
  match OpEntry.op entry with
  | "FormatOp" => strings_of (get_or "format_args" (VList []) fields) ++ dvals (default [] (str_dict (get_or "format_kwargs" (VDict []) fields)))
  | "LLMChatOp" | "LLMVisionOp" => llm_references known fields
  | "ImageGenerationOp" => strip <$> option_list (as_str (vget "content" fields))
  | "EmbeddingOp" => strip <$> option_list (as_str (vget "input" fields))
  | _ => []
  end.

Definition id_of (op : op_dict) : option string := as_str (vget "_id" op).

Section op.
Context (blake2b_2 : string → nat) (scope : string) (ids : dict string string) (g : dict string op_dict).
Local Abbreviation resolve := (resolve_or_self ids).
Local Abbreviation format_id entry := (make_id blake2b_2 scope "format" (OpEntry.id entry)).
Local Abbreviation message_id entry := (make_id blake2b_2 scope "message" (OpEntry.id entry)).

(** What an op refers to: ops of the graph, ops that come with it, or the ops of
its user-facing references. *)
Definition refs_ok (implicit : list op_dict) (users : list string) (op : op_dict) : Prop :=
∀ r, r ∈ op_refs op → r ∈ dkeys g ∨ r ∈ omap id_of implicit ∨ ∃ u, u ∈ users ∧ u ∈ dkeys ids ∧ resolve u = r.

(** The ops that come with an op: at most a format op and a message op, whose
ids derive from the entry. *)
Definition format_ok (entry : OpEntry.t) (users : list string) (f : op_dict) : Prop :=
∃ inputs template kwargs, f = format_op (format_id entry) inputs template kwargs ∧
∀ r, r ∈ dvals kwargs → ∃ u, u ∈ users ∧ u ∈ dkeys ids ∧ resolve u = r.
Definition message_ok (entry : OpEntry.t) (m : op_dict) : Prop :=
vget "_id" m = VStr (message_id entry) ∧ vget "_op" m = VStr "MessageOp".
Inductive implicit_ok (entry : OpEntry.t) (users : list string) : list op_dict → Prop :=
| implicit_none : implicit_ok entry users []
| implicit_format f : format_ok entry users f → implicit_ok entry users [f]
| implicit_message m : message_ok entry m → implicit_ok entry users [m]
| implicit_both f m : format_ok entry users f → message_ok entry m → implicit_ok entry users [f; m].

Lemma resolve_known u id : dget u ids = Some id → u ∈ dkeys ids ∧ resolve u = id.
Proof. intros H. split; [apply dget_is_Some; by eexists|]. unfold resolve_or_self, dget_or. by rewrite H. Qed.

Lemma lookup_ok message u id : lookup_id ids message u = Ok id → u ∈ dkeys ids ∧ resolve u = id.
Proof. intros H. apply ok_or_ok in H. by apply resolve_known. Qed.

(** *** Messages *)

Lemma wrapped_refs format_id st l (users : list string) :
(∀ r, r ∈ dvals (wr_kwargs st) → ∃ u, u ∈ users ∧ u ∈ dkeys ids ∧ resolve u = r) →
(∀ u, u ∈ message_refs (VList l) → u ∈ dkeys ids → u ∈ users) →
∀ r, r ∈ dvals (wr_kwargs (foldl (wrap_message ids g format_id) st l)) → ∃ u, u ∈ users ∧ u ∈ dkeys ids ∧ resolve u = r.
Proof.
revert st. induction l as [|m l IH]; intros st Hst Hl; [exact Hst|]. simpl. apply IH.
- unfold wrap_message. destruct m as [| | | | | | |d]; try exact Hst. destruct (user_content d) as [c|] eqn:Ed; [|exact Hst].
destruct (dget c ids) as [id|] eqn:Ec; [|exact Hst]. apply resolve_known in Ec as [Ec1 Ec2]. destruct (is_op g "FormatOp" id); [exact Hst|].
simpl. intros r Hr. apply list_elem_of_fmap in Hr as ([k v] & -> & Hin). apply elem_of_dset in Hin as [[-> ->]|Hin].
+ exists c. split_and!; try done. apply Hl; [|done]. simpl. rewrite Ed. left.
+ apply Hst. apply list_elem_of_fmap. by exists (k, v).
- intros u Hu. apply Hl. simpl in Hu |- *. destruct m as [| | | | | | |d]; try done. destruct (user_content d); [by right|done].
Qed.

(** Format ops for the messages of an entry *)
Lemma inline_messages_ok entry messages prompt msgs formats (users : list string) :
build_inline_messages blake2b_2 scope ids g messages prompt (OpEntry.id entry) = Ok (msgs, formats) →
(∀ u, u ∈ match prompt with
        | VDict p => dvals (default [] (str_dict (get_or "format_kwargs" (VDict []) p)))
        | _ => message_refs messages
        end → u ∈ dkeys ids → u ∈ users) →
formats = [] ∨ ∃ f, formats = [f] ∧ format_ok entry users f.
Proof.
intros H Hu. unfold build_inline_messages in H.
assert (Hwrap : wrap_user_content_refs blake2b_2 scope ids g (OpEntry.id entry) messages = (msgs, formats) →
(∀ u, u ∈ message_refs messages → u ∈ dkeys ids → u ∈ users) → formats = [] ∨ ∃ f, formats = [f] ∧ format_ok entry users f).
{ clear. intros H Hu. unfold wrap_user_content_refs in H. destruct messages as [| | | | |[|m ms]| |]; try (injection H as <- <-; by left).
pose proof (wrapped_refs (format_id entry) (Wrapped [] [] []) (m :: ms) users) as Hw. ospecialize (Hw _ Hu); [by intros r ?%elem_of_nil|].
destruct (wr_kwargs _) as [|kv kwargs] eqn:E; [injection H as <- <-; by left|]. injection H as <- <-. right.
eexists. split; [reflexivity|]. eexists _, _, _. split; [reflexivity|]. exact Hw. }
destruct prompt as [| | | | | | |p]; try (injection H as H; by apply Hwrap).
inv_ok. right. eexists. split; [reflexivity|]. eexists _, _, _. split; [reflexivity|]. intros r Hr.
assert (Hkw : ∀ l st st', foldR (resolve_kwarg ids) st l = Ok st' → ∀ r, r ∈ dvals st'.1 → r ∈ dvals st.1 ∨ ∃ u, u ∈ l.*2 ∧ u ∈ dkeys ids ∧ resolve u = r).
{ clear. induction l as [|[k u] l IH]; intros st st' H r Hr; [injection H as <-; by left|]. rewrite foldR_cons in H. unfold resolve_kwarg in H at 1.
destruct (lookup_id ids _ _) as [id|] eqn:El; [|done]. simpl in El, H. apply lookup_ok in El as [E1 E2].
destruct (IH _ _ H r Hr) as [Hin|(u' & Hu & ?)]; [|right; exists u'; split; [by right|done]]. simpl in Hin.
apply list_elem_of_fmap in Hin as ([k' v] & -> & Hin). apply elem_of_dset in Hin as [[-> ->]|Hin].
- right. exists u. split; [left|done].
- left. apply list_elem_of_fmap. by exists (k', v). }
match goal with E : foldR _ ([], []) ?l = Ok ?st |- _ => destruct (Hkw l _ _ E r Hr) as [Hin|(u & Hin & Hk & Hr')]; [by apply elem_of_nil in Hin|] end.
exists u. split; [|done]. apply Hu; [|done]. match goal with E : str_dict _ = Some _ |- _ => rewrite E end. done.
Qed.

Lemma format_op_id entry users f : format_ok entry users f → id_of f = Some (format_id entry).
Proof. by intros (? & ? & ? & -> & _). Qed.

Lemma message_op_id entry m : message_ok entry m → id_of m = Some (message_id entry).
Proof. intros [H _]. unfold id_of. by rewrite H. Qed.

Lemma is_op_known op_type id : is_op g op_type id = true → id ∈ dkeys g.
Proof. unfold is_op. intros H. apply dget_is_Some. destruct (dget id g); [by eexists|done]. Qed.

Lemma emit_message_keeps messages op op' k : k ≠ "messages" → emit_message_op ids messages op = Ok op' → vget k op' = vget k op.
Proof.
intros Hk H. unfold emit_message_op in H. destruct messages as [| | | | |[|m ms]| |]; try done. inv_ok. by apply vget_dset_ne.
Qed.

Lemma llm_messages_ok entry mid implicit users :
llm_messages blake2b_2 scope ids g entry = Ok (mid, implicit) →
(∀ u, u ∈ llm_references (dkeys ids) (OpEntry.fields entry) → u ∈ users) →
implicit_ok entry users implicit ∧ (mid ∈ dkeys g ∨ mid ∈ omap id_of implicit).
Proof.
intros H Hu. unfold llm_messages in H. unfold llm_references in Hu.
destruct (vget "messages_ref" (OpEntry.fields entry)) as [| | | |r| | |] eqn:Er; try done.
2: { inv_ok. destruct (is_op g "MessageOp" _) eqn:Ei; [|done]. inv_ok. split; [constructor|left].
   unfold is_op in Ei. apply dget_is_Some. destruct (dget mid g); [by eexists|done]. }
destruct (decide (vget "messages" (OpEntry.fields entry) = VNone)) as [E|E]; [rewrite E in H; done|].
assert (Hm : ∃ built, build_inline_messages blake2b_2 scope ids g (vget "messages" (OpEntry.fields entry)) (vget "prompt" (OpEntry.fields entry)) (OpEntry.id entry) = Ok built ∧
∃ message, implicit = built.2 ++ [message] ∧ mid = message_id entry ∧ message_ok entry message).
{ destruct (vget "messages" (OpEntry.fields entry)); try done; inv_ok; destruct a as [prepared formats]; inv_ok;
(eexists; split; [done|]); (eexists; split; [done|]; split; [done|]);
match goal with Hmsg : emit_message_op _ _ _ = Ok _ |- _ =>
  split; [by rewrite (emit_message_keeps _ _ _ "_id" ltac:(discriminate) Hmsg)|by rewrite (emit_message_keeps _ _ _ "_op" ltac:(discriminate) Hmsg)] end. }
destruct Hm as ([msgs formats] & Hb & message & -> & -> & Hmsg). cbn [snd].
split; [|right; rewrite omap_app; apply elem_of_app; right; simpl; rewrite (message_op_id _ _ Hmsg); left].
apply (inline_messages_ok _ _ _ _ _ users) in Hb as [->|(f & -> & Hf)]; [by constructor|by constructor|].
intros u. destruct (vget "prompt" (OpEntry.fields entry)); intros Hin Hk; apply Hu; try done; by apply list_elem_of_filter.
Qed.

(** *** Ops *)

Lemma emit_llm_ok kind entry op op' implicit :
emit_llm_like_op blake2b_2 scope ids g kind entry op = Ok (op', implicit) →
∃ mid, llm_messages blake2b_2 scope ids g entry = Ok (mid, implicit) ∧ vget "messages" op' = VStr mid ∧
vget "_id" op' = vget "_id" op ∧ vget "_op" op' = vget "_op" op.
Proof.
intros H. unfold emit_llm_like_op in H. inv_ok. destruct a0 as [mid extra]. exists mid. cbn [fst snd]. split; [done|].
unfold copied. split_and!; vsimp; done.
Qed.

Lemma inputs_resolved inputs input_ids : mapR (λ ref, ok_or (KeyError ref) (dget ref ids)) inputs = Ok input_ids →
∀ r, r ∈ input_ids → ∃ u, u ∈ inputs ∧ u ∈ dkeys ids ∧ resolve u = r.
Proof.
intros H%mapR_ok_inv r Hr. apply list_elem_of_lookup in Hr as [i Hi]. destruct (Forall2_lookup_r _ _ _ _ _ H Hi) as (u & Hu & E).
exists u. split; [by eapply list_elem_of_lookup_2|]. apply ok_or_ok in E. by apply resolve_known.
Qed.

Section build.
(** the op with the fields it starts with *)
Context (entry : OpEntry.t) (input_ids : list string) (id : string) (start : op_dict).
Local Abbreviation users := (OpEntry.inputs entry ++ op_references (dkeys ids) entry).
Hypothesis inputs_ok : mapR (λ ref, ok_or (KeyError ref) (dget ref ids)) (OpEntry.inputs entry) = Ok input_ids.
Hypothesis known : ∀ u, u ∈ op_references (dkeys ids) entry → u ∈ dkeys ids.
Hypothesis start_id : vget "_id" start = VStr id.
Hypothesis start_op : vget "_op" start = VStr (OpEntry.op entry).
Hypothesis start_inputs : vget "_inputs" start = vids input_ids.

(** What is shown of every kind of op *)
Definition built_ok (built : op_dict * list op_dict) : Prop :=
vget "_id" built.1 = VStr id ∧ vget "_op" built.1 = VStr (OpEntry.op entry) ∧ refs_ok built.2 users built.1 ∧
implicit_ok entry users built.2.

Lemma built_alone op : vget "_id" op = vget "_id" start → vget "_op" op = vget "_op" start →
(∀ r, r ∈ refs_of_type (OpEntry.op entry) op → ∃ u, u ∈ users ∧ u ∈ dkeys ids ∧ resolve u = r) → built_ok (op, []).
Proof.
intros H1 H2 H3. rewrite start_id in H1. rewrite start_op in H2. split_and!; [done|done| |constructor].
intros r Hr. right. right. apply H3. unfold op_refs in Hr. simpl in Hr. by rewrite H2 in Hr.
Qed.

Lemma from_inputs r : r ∈ input_ids → ∃ u, u ∈ users ∧ u ∈ dkeys ids ∧ resolve u = r.
Proof. intros Hr. destruct (inputs_resolved _ _ inputs_ok r Hr) as (u & H & ?). exists u. split; [apply elem_of_app; by left|done]. Qed.

Lemma from_references u : u ∈ op_references (dkeys ids) entry → ∃ u', u' ∈ users ∧ u' ∈ dkeys ids ∧ resolve u' = resolve u.
Proof. intros Hu. exists u. split_and!; [apply elem_of_app; by right|by apply known|done]. Qed.

Lemma build_data op : OpEntry.op entry = "DataOp" → emit_data_op entry start = Ok op → built_ok (op, []).
Proof. intros E H. unfold emit_data_op in H. inv_ok. apply built_alone; vsimp; [done|done|]. rewrite E. by intros r ?%elem_of_nil. Qed.

Lemma build_message op : OpEntry.op entry = "MessageOp" → emit_message_op ids (vget "messages" (OpEntry.fields entry)) start = Ok op → built_ok (op, []).
Proof.
intros E H. apply built_alone; [by apply (emit_message_keeps _ _ _ "_id") in H|by apply (emit_message_keeps _ _ _ "_op") in H|].
rewrite E. by intros r ?%elem_of_nil.
Qed.

Lemma build_retrieval op : OpEntry.op entry = "DataRetrievalOp" → emit_data_retrieval_op ids entry start = Ok op → built_ok (op, []).
Proof.
intros E H. unfold emit_data_retrieval_op in H. destruct (vget "data_spec" _) as [| | | | | | |d]; try done. inv_ok. apply built_alone; vsimp; [done|done|].
rewrite E. intros r Hr. simpl in Hr. rewrite dget_or_dset, decide_False, (vget_default _ _ _ _ start_inputs), items_of_vids in Hr by done. by apply from_inputs.
Qed.

Lemma lambda_keeps op k : emit_lambda_op entry start = Ok op →
k ∉ ["timeout_s"; "memory_mb"; "image"; "expected_runtime_s"; "cache"; "mode"; "_code"; "fn_name"] → vget k op = vget k start.
Proof.
intros H Hk. unfold emit_lambda_op in H. inv_ok. destruct (negb _); [done|]. inv_ok.
repeat match goal with Hc : copy_field ?key _ _ _ = Ok _ |- _ => apply (copy_field_ok _ _ _ _ _ k) in Hc; [|intros ->; apply Hk; by repeat (first [left|right])] end.
repeat match goal with Hc : vget k _ = vget k _ |- _ => rewrite Hc; clear Hc end.
by rewrite !vget_dset_ne by (intros ->; apply Hk; by repeat (first [left|right])).
Qed.

Lemma build_lambda op : OpEntry.op entry = "LambdaOp" → emit_lambda_op entry start = Ok op → built_ok (op, []).
Proof.
intros E H. pose proof (λ k Hk, lambda_keeps op k H (bool_decide_unpack _ Hk)) as K.
apply built_alone; [by apply K|by apply K|]. rewrite E. intros r Hr. simpl in Hr. rewrite K, start_inputs, items_of_vids in Hr by done. by apply from_inputs.
Qed.

Lemma build_format op : OpEntry.op entry = "FormatOp" → emit_format_op ids entry start = Ok op → built_ok (op, []).
Proof.
intros E H. unfold emit_format_op in H. inv_ok. apply built_alone; vsimp; [done|done|]. rewrite E. intros r Hr. simpl in Hr.
rewrite vget_dset_ne, vget_dset_eq, items_of_vids, vget_dset_eq in Hr by done.
assert (Hu : ∀ u, u ∈ a0 ++ dvals a1 → u ∈ op_references (dkeys ids) entry).
{ intros u Hu. unfold op_references. rewrite E. unfold strings_of. match goal with H1 : str_list _ = _, H2 : str_dict _ = _ |- _ => by rewrite H1, H2 end. }
assert (Hd : values_of (VDict ((λ kv : string * string, (kv.1, VStr (resolve kv.2))) <$> a1)) = dvals ((λ kv : string * string, (kv.1, resolve kv.2)) <$> a1)).
{ rewrite <-values_of_vstr, <-list_fmap_compose. done. }
rewrite Hd in Hr. simpl in Hr. apply elem_of_app in Hr as [Hr|Hr].
- apply list_elem_of_fmap in Hr as (u & -> & Hin). apply from_references, Hu, elem_of_app. by left.
- unfold dvals in Hr. rewrite <-list_fmap_compose in Hr. apply list_elem_of_fmap in Hr as ([k u] & -> & Hin).
apply from_references, Hu, elem_of_app. right. apply list_elem_of_fmap. by exists (k, u).
Qed.
Lemma build_llm kind built : OpEntry.op entry ∈ ["LLMChatOp"; "LLMVisionOp"] →
emit_llm_like_op blake2b_2 scope ids g kind entry start = Ok built →
∀ op, vget "_id" op = vget "_id" built.1 → vget "_op" op = vget "_op" built.1 → vget "messages" op = vget "messages" built.1 → built_ok (op, built.2).
Proof.
intros E H op K1 K2 K3. destruct built as [op' implicit]. apply emit_llm_ok in H as (mid & Hm & H1 & H2 & H3). simpl in K1, K2, K3.
rewrite H1 in K3. rewrite H2, start_id in K1. rewrite H3, start_op in K2.
apply (llm_messages_ok _ _ _ users) in Hm as [Hi Hmid].
2: { intros u Hu. apply elem_of_app. right. unfold op_references.
   apply elem_of_cons in E as [E|E%list_elem_of_singleton]; rewrite E; exact Hu. }
split_and!; [done|done| |done]. simpl. intros r Hr. unfold op_refs in Hr. rewrite K2 in Hr.
assert (Hr' : r ∈ option_list (as_str (vget "messages" op))) by (apply elem_of_cons in E as [E|E%list_elem_of_singleton]; rewrite E in Hr; exact Hr).
rewrite K3 in Hr'. apply list_elem_of_singleton in Hr' as ->. destruct Hmid; [by left|by right; left].
Qed.

Lemma text_of_ok v t : text_of v = Some t → v = VStr t.
Proof. unfold text_of. destruct v; try done. destruct (String.eqb _ _); [done|]. by intros [= <-]. Qed.

Lemma build_image built : OpEntry.op entry = "ImageGenerationOp" → emit_image_generation_op blake2b_2 scope ids g entry start = Ok built → built_ok built.
Proof.
intros E H. unfold emit_image_generation_op in H. inv_ok.
match goal with Ht : text_of _ = Some _, Hl : lookup_id _ _ _ = Ok ?id |- _ => apply text_of_ok in Ht; apply lookup_ok in Hl as [Hl1 Hl2] end.
assert (Hin : strip a0 ∈ op_references (dkeys ids) entry).
{ unfold op_references. rewrite E. match goal with Ht : vget "content" _ = VStr _ |- _ => rewrite Ht end. left. }
destruct (is_op g "FormatOp" a1) eqn:Ei; inv_ok; (split_and!; cbn [fst snd]; [by vsimp|by vsimp| |]).
- intros r Hr. left. unfold op_refs in Hr. rewrite !vget_dset_ne, start_op, E in Hr by done. simpl in Hr.
rewrite vget_dset_ne, vget_dset_ne, vget_dset_ne, vget_dset_eq in Hr by done. apply list_elem_of_singleton in Hr as ->.
apply is_op_known in Ei. exact Ei.
- constructor.
- intros r Hr. right. left. unfold op_refs in Hr. rewrite !vget_dset_ne, start_op, E in Hr by done. simpl in Hr.
rewrite vget_dset_ne, vget_dset_ne, vget_dset_ne, vget_dset_eq in Hr by done. apply list_elem_of_singleton in Hr as ->. left.
- apply implicit_format. eexists _, _, _. split; [reflexivity|]. intros r Hr. apply list_elem_of_singleton in Hr as ->.
exists (strip a0). split_and!; [apply elem_of_app; by right|done|done].
Qed.

Lemma build_embedding op : OpEntry.op entry = "EmbeddingOp" → emit_embedding_op ids entry start = Ok op → built_ok (op, []).
Proof.
intros E H. unfold emit_embedding_op in H. inv_ok.
match goal with Ht : text_of _ = Some _, Hl : lookup_id _ _ _ = Ok ?id |- _ => apply text_of_ok in Ht; apply lookup_ok in Hl as [Hl1 Hl2] end.
apply built_alone; vsimp; [done|done|]. rewrite E. intros r Hr. simpl in Hr.
rewrite vget_dset_ne, vget_dset_ne, vget_dset_ne, vget_dset_eq in Hr by done. apply list_elem_of_singleton in Hr as ->.
rewrite <-Hl2. apply from_references. unfold op_references. rewrite E. match goal with Ht : vget "input" _ = VStr _ |- _ => rewrite Ht end. left.
Qed.

Lemma build_vision built : OpEntry.op entry = "LLMVisionOp" → emit_llm_vision_op blake2b_2 scope ids g entry start = Ok built → built_ok built.
Proof.
intros E H. unfold emit_llm_vision_op in H. inv_ok. eapply (build_llm "LLMVisionOp"); [rewrite E; right; left|done|by vsimp..].
Qed.
End build.

Lemma build_op_ok entry id op implicit (Hs : OpEntry.op entry ∈ SUPPORTED_OPS) :
(∀ u, u ∈ op_references (dkeys ids) entry → u ∈ dkeys ids) →
build_op_dict blake2b_2 scope ids g entry = Ok (id, op, implicit) →
dget (OpEntry.id entry) ids = Some id ∧ built_ok entry id (op, implicit).
Proof.
intros Hk H. unfold build_op_dict in H. inv_ok. split; [done|]. destruct a1 as [op implicit]. cbn [fst snd].
rename Ha0 into Hin, Ha1 into Hb. revert Hb. set (start := _ :: _ :: _ :: _ :: []). intros Hb.
assert (S1 : vget "_id" start = VStr id) by done. assert (S2 : vget "_op" start = VStr (OpEntry.op entry)) by done.
assert (S3 : vget "_inputs" start = vids a0) by done. clearbody start.
assert (Halone : ∀ r, alone r = Ok (op, implicit) → implicit = [] ∧ r = Ok op) by (intros [o|e] Ho; [by injection Ho as -> <-|done]).
unfold SUPPORTED_OPS in Hs.
repeat (apply elem_of_cons in Hs as [Hs|Hs]; [rewrite Hs in Hb|]); [..|by apply elem_of_nil in Hs].
all: try (apply Halone in Hb as [-> Hb]).
- by eapply build_data.
- by eapply build_retrieval.
- by eapply build_message.
- eapply (build_llm entry id start S1 S2 "LLMChatOp" (op, implicit)); [rewrite Hs; left|exact Hb|done..].
- by eapply build_vision.
- by eapply build_image.
- by eapply build_embedding.
- by eapply build_format.
- by eapply build_lambda.
Qed.
End op.

(** ** Passes *)

Lemma emit_pending_step blake2b_2 scope fuel ids g pending : pending ≠ [] →
  emit_pending blake2b_2 scope (S fuel) ids g pending =
    (st ← foldR (emit_entry blake2b_2 scope ids) (g, pending) pending;
     if Nat.eqb (length st.2) (length pending) then Err (ValueError "cycle detected in YAML workflow ops")
     else emit_pending blake2b_2 scope fuel ids st.1 st.2).
Proof. by destruct pending. Qed.
