(* ===== verification/YamlGraphProps.v ===== *)
(** * Parsed graphs can be loaded

    The passes of the parser emit an op when its inputs are emitted; so when the
    fields of the ops refer to nothing but their inputs and the inputs of the
    workflow, [Graph.from_json] finds every op it looks up
    and can only fail in the constructor of an op. *)

From Stdlib Require Import Ascii.
From S2P Require Import Prelude PyFloat PyDict PyValue PyString PythonStep YamlParser YamlParserProps.

(** ** Loading *)

Lemma look_up_op_ok built k op : (∀ r, r ∈ op_refs op → r ∈ built) → look_up_op built (k, op) = Ok (built ++ [k]).
Proof.
  intros H. unfold look_up_op. cbn [fst snd].
  rewrite (mapR_const _ () (op_refs op)); [done|]. apply Forall_forall. intros r Hr. by rewrite bool_decide_eq_true_2 by auto.
Qed.

Lemma look_up_graph_snoc g k op : look_up_graph g = Ok (dkeys g) → (∀ r, r ∈ op_refs op → r ∈ dkeys g) →
  look_up_graph (g ++ [(k, op)]) = Ok (dkeys (g ++ [(k, op)])).
Proof.
  intros Hg H. unfold look_up_graph in *. rewrite foldR_app, Hg, foldR_cons, look_up_op_ok by done.
  unfold dkeys. by rewrite fmap_app.
Qed.

(** *** Loading and looking up *)

(** Every id is there. *)
Definition found (ref : val) : result () := match ref with VStr _ => Ok () | _ => other_ops [] ref end.

(** Every op comes after the ops it refers to. *)
Definition refs_before (g : dict string op_dict) : Prop :=
  ∀ g1 k op g2 r, g = g1 ++ (k, op) :: g2 → r ∈ op_refs op → r ∈ dkeys g1.

Section construct.
Context (validate_source : string → string → result ()) (built : list string).

Lemma other_ops_found ref : (∀ r, r ∈ option_list (as_str ref) → r ∈ built) → other_ops built ref = found ref.
Proof. intros H. destruct ref; try done. simpl. rewrite bool_decide_eq_true_2; [done|]. apply H. left. Qed.

Lemma mapR_found l : (∀ r, r ∈ omap as_str l → r ∈ built) → mapR (other_ops built) l = mapR found l.
Proof.
induction l as [|ref l IH]; intros H; [done|]. cbn [mapR]. rewrite other_ops_found, IH; [done| |].
- intros r Hr. apply H. simpl. destruct (as_str ref); [by right|done].
- intros r Hr. apply H. simpl. destruct (as_str ref); [apply list_elem_of_singleton in Hr as ->; left|by apply elem_of_nil in Hr].
Qed.

Lemma look_up_all_found v : (∀ r, r ∈ items_of v → r ∈ built) → look_up_all (other_ops built) v = look_up_all found v.
Proof. unfold look_up_all, items_of. destruct (py_iter v); [|done]. intros H. simpl. by rewrite mapR_found. Qed.

Lemma bind_ext {A B} (m : result A) (f f' : A → result B) : (∀ a, m = Ok a → f a = f' a) → (m ≫= f) = (m ≫= f').
Proof. intros H. destruct m; [by apply H|done]. Qed.

Lemma field_vget key data v : field key data = Ok v → vget key data = v.
Proof. intros H%ok_or_ok. unfold vget, dget_or. by rewrite H. Qed.

Lemma construct_chat_found data : (∀ r, r ∈ option_list (as_str (vget "messages" data)) → r ∈ built) →
construct_chat (other_ops built) data = construct_chat found data.
Proof. intros H. apply bind_ext. intros m <-%field_vget. by rewrite other_ops_found. Qed.

(** A constructor that finds the ops it refers to sees no more of the others. *)
Lemma construct_found data : (∀ r, r ∈ op_refs data → r ∈ built) →
construct validate_source (other_ops built) data = construct validate_source found data.
Proof.
unfold op_refs. intros H. apply bind_ext. intros op_type <-%field_vget.
assert (Hc : ∀ a b c : result (), a = b → (a ≫= λ _, c) = (b ≫= λ _, c)) by (by intros a b c ->). apply Hc.
destruct (vget "_op" data) as [| | | |t| | |]; try done. unfold constructors.
repeat (cbn [dget fst snd]; case_decide; [subst t; cbn -[items_of values_of] in H|]); try done.
- unfold construct_format. apply bind_ext. intros args <-%field_vget. rewrite look_up_all_found; [|intros r Hr; apply H, elem_of_app; by left].
  apply bind_ext. intros [] _. apply bind_ext. intros kwargs Hk. apply field_vget in Hk. destruct kwargs as [| | | | | | |d]; try done.
  rewrite mapR_found; [done|]. intros r Hr. apply H, elem_of_app. right. by rewrite Hk.
- unfold construct_lambda. destruct (negb _); [done|]. apply bind_ext. intros [] _. apply bind_ext. intros inputs <-%field_vget.
  by rewrite look_up_all_found.
- by rewrite look_up_all_found.
- unfold construct_output. apply bind_ext. intros ids <-%field_vget. apply bind_ext. intros n _. destruct (negb _); [done|].
  apply bind_ext. intros _ _. apply bind_ext. intros l Hl. destruct (vget "_inputs" data); try done; (rewrite mapR_found; [done|]);
  intros r Hr; apply H; unfold items_of; by rewrite Hl.
- by apply construct_chat_found.
- unfold construct_vision. by rewrite construct_chat_found.
- unfold construct_content. apply bind_ext. intros config _. apply bind_ext. intros [] _. apply bind_ext. intros content <-%field_vget.
  by rewrite other_ops_found.
- unfold construct_content. apply bind_ext. intros config _. apply bind_ext. intros [] _. apply bind_ext. intros content <-%field_vget.
  by rewrite other_ops_found.
Qed.

End construct.

Lemma look_up_graph_before built g out : foldR look_up_op built g = Ok out →
  ∀ g1 k op g2 r, g = g1 ++ (k, op) :: g2 → r ∈ op_refs op → r ∈ built ++ dkeys g1.
Proof.
  revert built. induction g as [|[k0 op0] g IH]; intros built H g1 k op g2 r E Hr; [by destruct g1|].
  simpl in H. apply result_bind_ok in H as (built' & H0 & H). unfold look_up_op in H0. apply result_bind_ok in H0 as (u & Hu & [= <-]).
  destruct g1 as [|[k1 op1] g1]; injection E; intros; subst k0 op0 || subst k1 op1.
  - apply mapR_ok_inv in Hu. apply list_elem_of_lookup in Hr as [i Hi]. destruct (Forall2_lookup_l _ _ _ _ _ Hu Hi) as (y & _ & Hy).
    case_bool_decide; [|done]. apply elem_of_app. by left.
  - specialize (IH _ H g1 k op g2 r H0 Hr). simpl in *. by rewrite <-app_assoc in IH.
Qed.

(** A graph whose lookups succeed is loaded, or rejected by one of its
    constructors. *)
Lemma looked_up_loads validate_source g : look_up_graph g = Ok (dkeys g) → refs_before g ∧
  (load_graph validate_source g = Ok (dkeys g) ∨
   ∃ k op e, (k, op) ∈ g ∧ construct validate_source found op = Err e ∧ load_graph validate_source g = Err e).
Proof.
  intros H. pose proof (look_up_graph_before [] g _ H) as Hb. split; [exact Hb|]. clear H. unfold load_graph.
  assert (G : ∀ built l, (∀ g1 k op g2 r, l = g1 ++ (k, op) :: g2 → r ∈ op_refs op → r ∈ built ++ dkeys g1) →
    foldR (load_op validate_source) built l = Ok (built ++ dkeys l) ∨
    ∃ k op e, (k, op) ∈ l ∧ construct validate_source found op = Err e ∧ foldR (load_op validate_source) built l = Err e); [|by apply (G [] g)].
  clear. intros built l. revert built. induction l as [|[k op] l IH]; intros built H; [left; simpl; by rewrite app_nil_r|].
  rewrite foldR_cons. assert (El : load_op validate_source built (k, op) = (_ ← construct validate_source found op; Ok (built ++ [k]))).
  { unfold load_op. cbn [fst snd]. rewrite construct_found; [done|]. intros r Hr. specialize (H [] k op l r eq_refl Hr). by rewrite app_nil_r in H. }
  rewrite El. destruct (construct _ _ op) as [[]|e] eqn:E; [|right; exists k, op, e; by split_and!; [left|..]]. simpl.
  destruct (IH (built ++ [k])) as [->|(k' & op' & e & Hin & He & ->)].
  - intros g1 k' op' g2 r -> Hr. specialize (H ((k, op) :: g1) k' op' g2 r eq_refl Hr). simpl in H. by rewrite <-app_assoc.
  - left. by rewrite <-app_assoc.
  - right. exists k', op', e. by split_and!; [right|..].
Qed.

(** ** Ids *)

Section compile.
Context (blake2b_2 : string → nat) (scope : string).
Context (inputs : list string) (entries : list OpEntry.t).
Local Abbreviation own_id e := (make_id blake2b_2 scope (op_id_prefix (OpEntry.op e)) (OpEntry.id e)).
Local Abbreviation input_id n := (make_id blake2b_2 scope "input" n).

(** The names ids are made of: of inputs, of ops and of the ops that may come
with them. *)
Definition id_names : list (string * string) :=
((λ n, ("input", n)) <$> inputs) ++
concat ((λ e, [(op_id_prefix (OpEntry.op e), OpEntry.id e); ("format", OpEntry.id e); ("message", OpEntry.id e)]) <$> entries).
Definition ids_distinct : Prop := NoDup ((λ pn, make_id blake2b_2 scope pn.1 pn.2) <$> remove_dups id_names).

Lemma make_id_inj p n p' n' : ids_distinct → (p, n) ∈ id_names → (p', n') ∈ id_names →
make_id blake2b_2 scope p n = make_id blake2b_2 scope p' n' → p = p' ∧ n = n'.
Proof.
intros Hd H1 H2 E. apply elem_of_remove_dups in H1, H2. apply list_elem_of_lookup in H1 as [i Hi], H2 as [j Hj].
assert (i = j) as ->. { eapply (NoDup_lookup _ _ _ (make_id blake2b_2 scope p n) Hd); rewrite list_lookup_fmap; [by rewrite Hi|by rewrite Hj, E]. }
rewrite Hi in Hj. by injection Hj as -> ->.
Qed.

Lemma id_names_entry e p : e ∈ entries → p ∈ [op_id_prefix (OpEntry.op e); "format"; "message"] → (p, OpEntry.id e) ∈ id_names.
Proof.
intros He Hp. apply elem_of_app. right. apply list_elem_of_In, in_concat. eexists. split; [apply list_elem_of_In, list_elem_of_fmap; by exists e|].
apply list_elem_of_In. change [(op_id_prefix (OpEntry.op e), OpEntry.id e); ("format", OpEntry.id e); ("message", OpEntry.id e)] with
((λ p, (p, OpEntry.id e)) <$> [op_id_prefix (OpEntry.op e); "format"; "message"]). apply list_elem_of_fmap. by exists p.
Qed.

Lemma id_names_input n : n ∈ inputs → ("input", n) ∈ id_names.
Proof. intros Hn. apply elem_of_app. left. apply list_elem_of_fmap. by exists n. Qed.

(** *** Registration *)

Definition input_ids : dict string string := (λ n, (n, input_id n)) <$> inputs.
Definition input_ops : dict string op_dict := (λ n, (input_id n, input_op (input_id n) n)) <$> inputs.
Definition all_ids : dict string string := input_ids ++ ((λ e, (OpEntry.id e, own_id e)) <$> entries).

Lemma add_inputs_spec names ids g st : (∀ n n', n ∈ names → n' ∈ names → input_id n = input_id n' → n = n') →
(∀ n, n ∈ names → n ∉ dkeys ids → input_id n ∉ dkeys g) →
foldR (add_input blake2b_2 scope) (ids, g) names = Ok st →
NoDup names ∧ (∀ n, n ∈ names → n ∉ dkeys ids) ∧
st = (ids ++ ((λ n, (n, input_id n)) <$> names), g ++ ((λ n, (input_id n, input_op (input_id n) n)) <$> names)).
Proof.
revert ids g. induction names as [|n names IH]; intros ids g Hinj Hfresh H.
- injection H as <-. split; [apply NoDup_nil_2|]. split; [by intros n ?%elem_of_nil|]. by rewrite !app_nil_r.
- rewrite foldR_cons in H. unfold add_input in H at 1. cbn [fst snd] in H. destruct (dmem n ids) eqn:En; [done|].
apply dmem_false in En. rewrite dset_new in H by done. rewrite dset_new in H by (apply Hfresh; [left|done]).
assert (Hk : dkeys (ids ++ [(n, input_id n)]) = dkeys ids ++ [n]) by (unfold dkeys; by rewrite fmap_app).
apply IH in H as (H1 & H2 & ->).
+ split; [apply NoDup_cons; split; [|done]; intros Hin; apply (H2 n Hin); rewrite Hk; apply elem_of_app; right; left|]. split.
  * intros m [->|Hm]%elem_of_cons; [done|]. intros Hin. apply (H2 m Hm). rewrite Hk. apply elem_of_app. by left.
  * by rewrite <-!app_assoc.
+ intros m m' Hm Hm'. apply Hinj; by right.
+ intros m Hm Hm'. rewrite Hk in Hm'. unfold dkeys. rewrite fmap_app. intros [Hin|Hin]%elem_of_app.
  * apply (Hfresh m); [by right| |done]. intros ?. apply Hm'. apply elem_of_app. by left.
  * simpl in Hin. apply list_elem_of_singleton in Hin. apply Hinj in Hin; [|by right|left]. subst. apply Hm', elem_of_app. right. left.
Qed.

Lemma register_ops_spec es ids ids' : foldR (register_op blake2b_2 scope) ids es = Ok ids' →
ids' = ids ++ ((λ e, (OpEntry.id e, own_id e)) <$> es) ∧ NoDup (OpEntry.id <$> es) ∧
∀ e, e ∈ es → OpEntry.op e ∈ SUPPORTED_OPS ∧ OpEntry.id e ∉ dkeys ids.
Proof.
revert ids. induction es as [|e es IH]; intros ids H.
- injection H as <-. rewrite app_nil_r. split; [done|]. split; [apply NoDup_nil_2|]. by intros e ?%elem_of_nil.
- rewrite foldR_cons in H. unfold register_op in H at 1. destruct (dmem (OpEntry.id e) ids) eqn:En; [done|]. apply dmem_false in En.
destruct (negb _) eqn:Es; [done|]. apply negb_false_iff, bool_decide_eq_true in Es. rewrite dset_new in H by done.
apply IH in H as (-> & Hnd & Hall). rewrite <-app_assoc. split; [done|].
assert (Hk : ∀ u, u ∈ dkeys (ids ++ [(OpEntry.id e, own_id e)]) ↔ u ∈ dkeys ids ∨ u = OpEntry.id e).
{ intros u. unfold dkeys. rewrite fmap_app, elem_of_app. simpl. by rewrite list_elem_of_singleton. }
split.
+ csimpl. apply NoDup_cons. split; [|done]. intros Hin. apply list_elem_of_fmap in Hin as (e' & E & Hin). apply (Hall e' Hin), Hk. by right.
+ intros e' [->|Hin]%elem_of_cons; [done|]. destruct (Hall e' Hin) as [H1 H2]. split; [done|]. intros Hin'. apply H2, Hk. by left.
Qed.

(** *** Emission *)

Lemma build_op_implicit g entry id op implicit : OpEntry.op entry ∈ SUPPORTED_OPS →
build_op_dict blake2b_2 scope all_ids g entry = Ok (id, op, implicit) →
implicit = [] ∨ OpEntry.op entry ∈ ["LLMChatOp"; "LLMVisionOp"; "ImageGenerationOp"].
Proof.
intros Hs H. unfold build_op_dict in H. inv_ok. unfold SUPPORTED_OPS in Hs. destruct a1 as [o i].
assert (Halone : ∀ r, alone r = Ok (o, i) → i = []) by (intros [x|x] Ho; [by injection Ho as -> <-|done]).
repeat (apply elem_of_cons in Hs as [Hs|Hs]; [rewrite Hs in *|]); [..|by apply elem_of_nil in Hs].
all: first [left; by eapply Halone|right; set_solver].
Qed.

(** The ops added to a graph in one step *)
Local Abbreviation add_implicit := (foldl (λ g (o : op_dict), match vget "_id" o with VStr i => dset i o g | _ => g end)).

Lemma add_implicit_loads g implicit new : Forall2 (λ o i, id_of o = Some i) implicit new → NoDup new → (∀ i, i ∈ new → i ∉ dkeys g) →
(∀ o r, o ∈ implicit → r ∈ op_refs o → r ∈ dkeys g) → look_up_graph g = Ok (dkeys g) →
dkeys (add_implicit g implicit) = dkeys g ++ new ∧ look_up_graph (add_implicit g implicit) = Ok (dkeys (add_implicit g implicit)).
Proof.
intros H. revert g. induction H as [|o i implicit new Ho _ IH]; intros g Hnd Hf Hr Hg; [by rewrite app_nil_r|].
apply NoDup_cons in Hnd as [Hi Hnd]. simpl. unfold id_of in Ho. destruct (vget "_id" o); try done. injection Ho as ->.
rewrite dset_new by (apply Hf; left).
assert (Hk : dkeys (g ++ [(i, o)]) = dkeys g ++ [i]) by (unfold dkeys; by rewrite fmap_app).
destruct (IH (g ++ [(i, o)])) as [H1 H2]; [done| | | |split; [|done]].
- intros j Hj. rewrite Hk. intros [Hin|Hin%list_elem_of_singleton]%elem_of_app; [apply (Hf j); [by right|done]|by subst].
- intros o' r Ho' Hr'. rewrite Hk. apply elem_of_app. left. by apply (Hr o'); [right|].
- apply look_up_graph_snoc; [done|]. intros r Hin. apply (Hr o); [left|done].
- by rewrite H1, Hk, <-app_assoc.
Qed.

Hypothesis distinct : ids_distinct.
Hypothesis entries_nodup : NoDup (OpEntry.id <$> entries).
Hypothesis supported : ∀ e, e ∈ entries → OpEntry.op e ∈ SUPPORTED_OPS ∧ OpEntry.id e ∉ inputs.
Hypothesis inputs_nodup : NoDup inputs.
(** the references of the fields are declared *)
Hypothesis declared : ∀ e u, e ∈ entries → u ∈ op_references (dkeys all_ids) e → u ∈ OpEntry.inputs e ∨ u ∈ inputs.

Lemma all_ids_keys : dkeys all_ids = inputs ++ (OpEntry.id <$> entries).
Proof. unfold all_ids, input_ids, dkeys. rewrite fmap_app, <-!list_fmap_compose. f_equal. simpl. by rewrite list_fmap_id. Qed.

Lemma all_ids_wf : dict_wf all_ids.
Proof.
unfold dict_wf. rewrite all_ids_keys. apply NoDup_app. split_and!; [done| |done].
intros n Hn (e & -> & He)%list_elem_of_fmap. by apply (supported e He).
Qed.

Lemma resolve_input n : n ∈ inputs → resolve_or_self all_ids n = input_id n.
Proof.
intros Hn. apply resolve_known, elem_dget; [apply all_ids_wf|]. apply elem_of_app. left. apply list_elem_of_fmap. by exists n.
Qed.

Lemma own_id_known e : e ∈ entries → dget (OpEntry.id e) all_ids = Some (own_id e).
Proof. intros He. apply elem_dget; [apply all_ids_wf|]. apply elem_of_app. right. apply list_elem_of_fmap. by exists e. Qed.

Lemma entry_unique e e' : e ∈ entries → e' ∈ entries → OpEntry.id e = OpEntry.id e' → e = e'.
Proof.
intros He He' E. apply list_elem_of_lookup in He as [i Hi], He' as [j Hj].
assert (i = j) as ->. { eapply (NoDup_lookup _ _ _ (OpEntry.id e) entries_nodup); rewrite list_lookup_fmap; [by rewrite Hi|by rewrite Hj, E]. }
congruence.
Qed.

(** The ids the ops emitted for an entry can have *)
Definition entry_ids (e : OpEntry.t) : list string := (λ p, make_id blake2b_2 scope p (OpEntry.id e)) <$> [op_id_prefix (OpEntry.op e); "format"; "message"].

(** Between two entries: the graph loads, it holds the inputs and the entries
that are no longer pending, and nothing else. *)
Record emitting (g : dict string op_dict) (pending : dict string OpEntry.t) : Prop := {
em_pending : ∀ u e, (u, e) ∈ pending → e ∈ entries ∧ u = OpEntry.id e;
em_inputs : ∀ n, n ∈ inputs → input_id n ∈ dkeys g;
em_emitted : ∀ e, e ∈ entries → OpEntry.id e ∉ dkeys pending → own_id e ∈ dkeys g;
em_only : ∀ k, k ∈ dkeys g → (∃ n, n ∈ inputs ∧ k = input_id n) ∨ ∃ e, e ∈ entries ∧ OpEntry.id e ∉ dkeys pending ∧ k ∈ entry_ids e;
em_loads : look_up_graph g = Ok (dkeys g);
}.

(** Ids of a pending entry are new *)
Lemma entry_ids_new g pending e k : emitting g pending → e ∈ entries → OpEntry.id e ∈ dkeys pending → k ∈ entry_ids e → k ∉ dkeys g.
Proof.
intros Hem He Hp (p & -> & Hk)%list_elem_of_fmap Hin. destruct (em_only _ _ Hem _ Hin) as [(n & Hn & E)|(e' & He' & Hp' & Hk')].
- apply make_id_inj in E as [_ E]; [|done|by apply id_names_entry|by apply id_names_input]. apply (supported e He). by rewrite E.
- apply list_elem_of_fmap in Hk' as (p' & E & Hk'). apply make_id_inj in E as [_ E]; [|done|by apply id_names_entry..].
apply Hp'. by rewrite <-E.
Qed.

(** References of a pending entry whose inputs are emitted are in the graph *)
Lemma users_emitted g pending e u : emitting g pending → e ∈ entries → (∀ ref, ref ∈ OpEntry.inputs e → ref ∉ dkeys pending) →
u ∈ OpEntry.inputs e ++ op_references (dkeys all_ids) e → u ∈ dkeys all_ids → resolve_or_self all_ids u ∈ dkeys g.
Proof.
intros Hem He Hin Hu Hk.
assert (Hu' : u ∈ OpEntry.inputs e ∨ u ∈ inputs) by (apply elem_of_app in Hu as [?|?]; [by left|by apply declared]).
rewrite all_ids_keys in Hk. apply elem_of_app in Hk as [Hk|(e' & -> & He')%list_elem_of_fmap].
- rewrite resolve_input by done. by apply (em_inputs _ _ Hem).
- destruct Hu' as [Hu'|Hu']; [|by destruct (supported e' He')]. destruct (resolve_known all_ids _ _ (own_id_known e' He')) as [_ ->].
apply (em_emitted _ _ Hem); [done|]. by apply Hin.
Qed.

Lemma implicit_ids e implicit users : e ∈ entries → implicit_ok blake2b_2 scope all_ids e users implicit →
implicit = [] ∨ OpEntry.op e ∈ ["LLMChatOp"; "LLMVisionOp"; "ImageGenerationOp"] →
∃ new, Forall2 (λ o i, id_of o = Some i) implicit new ∧ NoDup new ∧ (∀ i, i ∈ new → i ∈ entry_ids e ∧ i ≠ own_id e) ∧
omap id_of implicit = new.
Proof.
intros He Hi Hop.
assert (Hp : ∀ p p', p ∈ [op_id_prefix (OpEntry.op e); "format"; "message"] → p' ∈ [op_id_prefix (OpEntry.op e); "format"; "message"] → p ≠ p' →
make_id blake2b_2 scope p (OpEntry.id e) ≠ make_id blake2b_2 scope p' (OpEntry.id e)).
{ intros p p' H1 H2 Hne E. apply make_id_inj in E as [E _]; [done|done|by apply id_names_entry..]. }
assert (Hpre : implicit ≠ [] → "format" ≠ op_id_prefix (OpEntry.op e) ∧ "message" ≠ op_id_prefix (OpEntry.op e)).
{ intros Hne. destruct Hop as [->|Hop]; [done|]. repeat (apply elem_of_cons in Hop as [->|Hop]; [by split|]). by apply elem_of_nil in Hop. }
assert (Hf : make_id blake2b_2 scope "format" (OpEntry.id e) ∈ entry_ids e) by (apply list_elem_of_fmap; exists "format"; split; [done|right; left]).
assert (Hm : make_id blake2b_2 scope "message" (OpEntry.id e) ∈ entry_ids e) by (apply list_elem_of_fmap; exists "message"; split; [done|right; right; left]).
destruct Hi as [|f Hfo|m Hmo|f m Hfo Hmo].
- exists []. split_and!; [constructor|constructor|by intros i ?%elem_of_nil|done].
- destruct (Hpre ltac:(done)) as [P1 P2]. apply format_op_id in Hfo. eexists [_]. split_and!; [by repeat constructor|apply NoDup_singleton| |by simpl; rewrite Hfo].
intros i ->%list_elem_of_singleton. split; [done|]. apply Hp; [set_solver|left|done].
- destruct (Hpre ltac:(done)) as [P1 P2]. apply message_op_id in Hmo. eexists [_]. split_and!; [by repeat constructor|apply NoDup_singleton| |by simpl; rewrite Hmo].
intros i ->%list_elem_of_singleton. split; [done|]. apply Hp; [set_solver|left|done].
- destruct (Hpre ltac:(done)) as [P1 P2]. apply format_op_id in Hfo. apply message_op_id in Hmo. eexists [_; _].
split_and!; [by repeat constructor| | |by simpl; rewrite Hfo; simpl; rewrite Hmo].
+ apply NoDup_cons. split; [|apply NoDup_singleton]. rewrite list_elem_of_singleton. apply Hp; [set_solver|set_solver|done].
+ intros i [->| ->%list_elem_of_singleton]%elem_of_cons; (split; [done|]; apply Hp; [set_solver|left|done]).
Qed.

Lemma implicit_refs e implicit users o r : implicit_ok blake2b_2 scope all_ids e users implicit → o ∈ implicit → r ∈ op_refs o →
∃ u, u ∈ users ∧ u ∈ dkeys all_ids ∧ resolve_or_self all_ids u = r.
Proof.
assert (Hf : ∀ f, format_ok blake2b_2 scope all_ids e users f → r ∈ op_refs f → ∃ u, u ∈ users ∧ u ∈ dkeys all_ids ∧ resolve_or_self all_ids u = r).
{ intros f (fi & template & kwargs & -> & Hk) Hr. apply Hk. change (op_refs _) with (values_of (VDict ((λ kv : string * string, (kv.1, VStr kv.2)) <$> kwargs))) in Hr.
by rewrite values_of_vstr in Hr. }
assert (Hm : ∀ m, message_ok blake2b_2 scope e m → r ∉ op_refs m).
{ intros m [_ H] Hr. unfold op_refs in Hr. rewrite H in Hr. by apply elem_of_nil in Hr. }
intros [|f Hfo|m Hmo|f m Hfo Hmo] Ho Hr; [by apply elem_of_nil in Ho|apply list_elem_of_singleton in Ho as ->..|]; [by eapply Hf|by destruct (Hm m)|].
apply elem_of_cons in Ho as [->| ->%list_elem_of_singleton]; [by eapply Hf|by destruct (Hm m)].
Qed.

Lemma emit_entry_emitting g pending u e st : emitting g pending → (u, e) ∈ pending →
emit_entry blake2b_2 scope all_ids (g, pending) (u, e) = Ok st →
emitting st.1 st.2 ∧ (st.2 = pending ∨ st.2 = ddel u pending).
Proof.
intros Hem Hin H. destruct (em_pending _ _ Hem _ _ Hin) as [He ->]. unfold emit_entry in H.
destruct (negb _) eqn:Ek; [done|]. apply negb_false_iff in Ek. destruct (existsb _ _) eqn:Ep; [injection H as <-; split; [done|by left]|].
inv_ok. destruct a as [[id op] implicit]. injection H as <-. cbn [fst snd]. split; [|by right].
assert (Hpend : ∀ ref, ref ∈ OpEntry.inputs e → ref ∉ dkeys pending).
{ intros ref Hr. apply dmem_false, not_true_is_false. intros Hd. apply not_true_iff_false in Ep. apply Ep, existsb_exists. exists ref.
split; [by apply list_elem_of_In|done]. }
assert (Hk : ∀ v, v ∈ op_references (dkeys all_ids) e → v ∈ dkeys all_ids).
{ intros v Hv. destruct (declared _ _ He Hv) as [Hv'|Hv'].
- apply dmem_true. rewrite forallb_forall in Ek. apply Ek. by apply list_elem_of_In.
- rewrite all_ids_keys. apply elem_of_app. by left. }
pose proof (build_op_implicit _ _ _ _ _ (proj1 (supported e He)) Ha) as Himp.
apply build_op_ok in Ha as [Hid (H1 & H2 & H3 & H4)]; [|by apply supported|done]. rewrite own_id_known in Hid by done. injection Hid as <-.
destruct (implicit_ids _ _ _ He H4 Himp) as (new & N1 & N2 & N3 & N4).
assert (Hp : OpEntry.id e ∈ dkeys pending) by (apply list_elem_of_fmap; by exists (OpEntry.id e, e)).
pose proof (λ k, entry_ids_new g pending e k Hem He Hp) as Hnew.
pose proof (λ v, users_emitted g pending e v Hem He Hpend) as Husers.
destruct (add_implicit_loads g implicit new N1 N2) as [L1 L2]; [|by intros o r Ho Hr; destruct (implicit_refs _ _ _ _ _ H4 Ho Hr) as (v & V1 & V2 & <-); apply Husers|by apply (em_loads _ _ Hem)|].
{ intros i Hi. apply Hnew. by apply N3. }
assert (Hown : own_id e ∈ entry_ids e) by (apply list_elem_of_fmap; eexists; split; [done|left]).
assert (Hfresh : own_id e ∉ dkeys (add_implicit g implicit)).
{ rewrite L1. intros [Hd|Hd]%elem_of_app; [by apply (Hnew _ Hown)|by apply (N3 _ Hd)]. }
rewrite dset_new by done.
assert (Hkeys : ∀ k, k ∈ dkeys (add_implicit g implicit ++ [(own_id e, op)]) ↔ k ∈ dkeys g ∨ k ∈ new ∨ k = own_id e).
{ intros k. unfold dkeys. rewrite fmap_app. fold (dkeys (add_implicit g implicit)). rewrite L1, !elem_of_app. simpl. rewrite list_elem_of_singleton. tauto. }
split.
- intros v e' [_ Hv]%elem_of_ddel. by apply (em_pending _ _ Hem).
- intros n Hn. apply Hkeys. left. by apply (em_inputs _ _ Hem).
- intros e' He' Hne. apply Hkeys. destruct (decide (OpEntry.id e' = OpEntry.id e)) as [E|E]; [right; right; by rewrite (entry_unique e' e)|].
left. apply (em_emitted _ _ Hem); [done|]. intros Hd. apply Hne. rewrite dkeys_ddel. by apply list_elem_of_filter.
- intros k [Hd|Hd]%Hkeys.
+ destruct (em_only _ _ Hem _ Hd) as [?|(e' & ? & Hn & ?)]; [by left|right]. exists e'. split_and!; [done| |done].
  rewrite dkeys_ddel. intros [_ ?]%list_elem_of_filter. done.
+ right. exists e. split; [done|]. split; [rewrite dkeys_ddel; by intros [? _]%list_elem_of_filter|].
  destruct Hd as [Hd| ->]; [by apply N3|done].
- apply look_up_graph_snoc; [done|]. intros r Hr. destruct (H3 r Hr) as [Hg|[Hi|(v & V1 & V2 & <-)]]; rewrite L1; apply elem_of_app.
+ by left.
+ right. cbn [snd] in Hi. by rewrite <-N4.
+ left. by apply Husers.
Qed.

Lemma emit_pass_emitting l g pending st : emitting g pending → NoDup l.*1 → (∀ u e, (u, e) ∈ l → (u, e) ∈ pending) →
foldR (emit_entry blake2b_2 scope all_ids) (g, pending) l = Ok st → emitting st.1 st.2.
Proof.
revert g pending. induction l as [|[u e] l IH]; intros g pending Hem Hnd Hl H; [by injection H as <-|].
rewrite foldR_cons in H. destruct (emit_entry _ _ _ _ _) as [[g' pending']|] eqn:E; [|done].
apply NoDup_cons in Hnd as [Hu Hnd]. apply emit_entry_emitting in E as [Hem' Hp]; [|done|apply Hl; left]. cbn [fst snd] in Hem', Hp.
apply IH in H; [done|done|done|]. intros v e' Hv. assert (Hin : (v, e') ∈ pending) by (apply Hl; by right).
destruct Hp as [-> | ->]; [done|]. apply elem_of_ddel. split; [|done]. intros ->. apply Hu, list_elem_of_fmap. by exists (u, e').
Qed.

Lemma emitting_wf g pending st l : dict_wf pending → foldR (emit_entry blake2b_2 scope all_ids) (g, pending) l = Ok st → dict_wf st.2.
Proof.
revert g pending. induction l as [|[u e] l IH]; intros g pending Hwf H; [by injection H as <-|].
rewrite foldR_cons in H. destruct (emit_entry _ _ _ _ _) as [[g' pending']|] eqn:E; [|done]. apply IH in H; [done|].
unfold emit_entry in E. destruct (negb _); [done|]. destruct (existsb _ _); [by injection E as <- <-|]. inv_ok. destruct a as [[id op] implicit].
injection E as <- <-. by apply dict_wf_ddel.
Qed.

Lemma emit_pending_emitting fuel g pending g' : emitting g pending → dict_wf pending →
emit_pending blake2b_2 scope fuel all_ids g pending = Ok g' → emitting g' [].
Proof.
revert g pending. induction fuel as [|fuel IH]; intros g pending Hem Hwf H; (destruct (decide (pending = [])) as [->|Hne]; [by injection H as <-|]).
- by destruct pending.
- rewrite emit_pending_step in H by done. inv_ok. destruct (Nat.eqb _ _); [done|].
pose proof Ha as Hst. apply emitting_wf in Hst; [|done]. apply emit_pass_emitting in Ha; [|done|done|done]. by apply (IH a.1 a.2).
Qed.

(** The start: only the inputs *)
Lemma inputs_loads l : look_up_graph ((λ n, (input_id n, input_op (input_id n) n)) <$> l) = Ok (dkeys ((λ n, (input_id n, input_op (input_id n) n)) <$> l)).
Proof.
induction l as [|n l IH] using rev_ind; [done|]. rewrite fmap_app. apply look_up_graph_snoc; [done|]. by intros r ?%elem_of_nil.
Qed.

Lemma start_emitting : emitting input_ops ((λ e, (OpEntry.id e, e)) <$> entries).
Proof.
assert (Hk : ∀ k, k ∈ dkeys input_ops ↔ ∃ n, n ∈ inputs ∧ k = input_id n).
{ intros k. unfold input_ops, dkeys. rewrite <-list_fmap_compose, list_elem_of_fmap. split; intros (n & ? & ?); by exists n. }
split.
- intros u e (e' & [= -> ->] & He)%list_elem_of_fmap. done.
- intros n Hn. apply Hk. by exists n.
- intros e He Hne. destruct Hne. unfold dkeys. rewrite <-list_fmap_compose. apply list_elem_of_fmap. by exists e.
- intros k (n & Hn & ->)%Hk. left. by exists n.
- apply inputs_loads.
Qed.

(** *** Outputs *)

Lemma emit_output_loads g out g' : (∀ u id, dget u all_ids = Some id → id ∈ dkeys g) → look_up_graph g = Ok (dkeys g) →
emit_output blake2b_2 scope all_ids g out = Ok g' →
(∀ k, k ∈ dkeys g → k ∈ dkeys g') ∧ look_up_graph g' = Ok (dkeys g').
Proof.
intros Hids Hg H. unfold emit_output in H. inv_ok. destruct (dmem _ g) eqn:E; [done|]. apply dmem_false in E. injection H as <-.
rewrite dset_new by done. split; [intros k Hk; unfold dkeys; rewrite fmap_app; apply elem_of_app; by left|].
apply look_up_graph_snoc; [done|]. intros r Hr. unfold op_refs in Hr. cbn in Hr. apply list_elem_of_singleton in Hr as ->. by eapply Hids.
Qed.

Lemma emit_outputs_load outs g g' : (∀ u id, dget u all_ids = Some id → id ∈ dkeys g) → look_up_graph g = Ok (dkeys g) →
foldR (emit_output blake2b_2 scope all_ids) g outs = Ok g' → (∀ k, k ∈ dkeys g → k ∈ dkeys g') ∧ look_up_graph g' = Ok (dkeys g').
Proof.
revert g. induction outs as [|out outs IH]; intros g Hids Hg H; [by injection H as <-|].
rewrite foldR_cons in H. destruct (emit_output _ _ _ _ _) as [g1|] eqn:E; [|done]. apply emit_output_loads in E as [H1 H2]; [|done|done].
apply IH in H as [H3 H4]; [|intros u id Hu; by eapply H1, Hids|done]. split; [auto|done].
Qed.

Lemma all_ids_emitted g : emitting g [] → ∀ u id, dget u all_ids = Some id → id ∈ dkeys g.
Proof.
intros Hem u id H%dget_elem. apply elem_of_app in H as [(n & [= -> ->] & Hn)%list_elem_of_fmap|(e & [= -> ->] & He)%list_elem_of_fmap].
- by apply (em_inputs _ _ Hem).
- apply (em_emitted _ _ Hem); [done|]. by intros ?%elem_of_nil.
Qed.
End compile.

(** ** Compiled workflows *)

(** The fields of the entries refer to inputs only, of the entry or of the workflow *)
Definition references_declared (inputs : list string) (entries : list OpEntry.t) : Prop :=
  ∀ e u, e ∈ entries → u ∈ op_references (inputs ++ (OpEntry.id <$> entries)) e → u ∈ OpEntry.inputs e ∨ u ∈ inputs.

(** The compiled graph: the inputs and ops, then the outputs *)
Lemma compile_entries_emitting blake2b_2 scope inputs entries outputs g : dict_wf inputs →
  ids_distinct blake2b_2 scope (dkeys inputs) entries → references_declared (dkeys inputs) entries →
  compile_entries blake2b_2 scope inputs entries outputs = Ok g →
  ∃ g0, emitting blake2b_2 scope (dkeys inputs) entries g0 [] ∧ (∀ e, e ∈ entries → OpEntry.op e ∈ SUPPORTED_OPS) ∧
    foldR (emit_output blake2b_2 scope (all_ids blake2b_2 scope (dkeys inputs) entries)) g0 outputs = Ok g.
Proof.
  intros Hwf Hd Hdecl H. unfold compile_entries in H. inv_ok.
  match goal with Hi : foldR (add_input _ _) _ _ = Ok _ |- _ => apply (add_inputs_spec blake2b_2 scope) in Hi as (_ & _ & ->) end.
  2: { intros n n' Hn Hn' E. eapply (make_id_inj blake2b_2 scope (dkeys inputs) entries) in E as [_ E]; [done|done|by apply id_names_input..]. }
  2: { by intros n _ _ ?%elem_of_nil. }
  match goal with Hr : foldR (register_op _ _) _ _ = Ok _ |- _ => apply register_ops_spec in Hr as (-> & Hnd & Hall) end.
  rewrite dict_of_nodup in * by (rewrite <-list_fmap_compose; done).
  cbn [fst snd app] in *.
  match type of Ha1 with emit_pending _ _ _ ?x ?y _ = _ =>
    change x with (all_ids blake2b_2 scope (dkeys inputs) entries) in *; change y with (input_ops blake2b_2 scope (dkeys inputs)) in * end.
  assert (Hs : ∀ e, e ∈ entries → OpEntry.op e ∈ SUPPORTED_OPS ∧ OpEntry.id e ∉ dkeys inputs).
  { intros e He. destruct (Hall e He) as [H1 H2]. split; [done|]. intros Hin. apply H2. unfold dkeys at 1. rewrite <-list_fmap_compose.
    apply list_elem_of_fmap. by exists (OpEntry.id e). }
  assert (Hr : ∀ e u, e ∈ entries → u ∈ op_references (dkeys (all_ids blake2b_2 scope (dkeys inputs) entries)) e → u ∈ OpEntry.inputs e ∨ u ∈ dkeys inputs).
  { rewrite all_ids_keys. exact Hdecl. }
  apply (emit_pending_emitting _ _ (dkeys inputs) entries Hd Hnd Hs Hwf Hr) in Ha1; [|by apply start_emitting|].
  2: { unfold dict_wf, dkeys. by rewrite <-list_fmap_compose. }
  exists a1. split_and!; [done|intros e He; by apply Hs|done].
Qed.

Lemma compile_entries_loads blake2b_2 scope inputs entries outputs g : dict_wf inputs →
  ids_distinct blake2b_2 scope (dkeys inputs) entries → references_declared (dkeys inputs) entries →
  compile_entries blake2b_2 scope inputs entries outputs = Ok g →
  look_up_graph g = Ok (dkeys g) ∧ ∀ e, e ∈ entries → make_id blake2b_2 scope (op_id_prefix (OpEntry.op e)) (OpEntry.id e) ∈ dkeys g.
Proof.
  intros Hwf Hd Hdecl H. destruct (compile_entries_emitting _ _ _ _ _ _ Hwf Hd Hdecl H) as (g0 & Hem & _ & Ho).
  apply (emit_outputs_load _ _ (dkeys inputs) entries) in Ho as [H1 H2]; [|by apply all_ids_emitted|by apply (em_loads _ _ _ _ _ _ Hem)].
  split; [done|]. intros e He. apply H1, (em_emitted _ _ _ _ _ _ Hem); [done|]. by intros ?%elem_of_nil.
Qed.

(** The ops of a workflow, parsed *)
Definition workflow_entries (spec : dict string val) : list OpEntry.t :=
  match ops ← as_list "'ops' must be a list" (get_or "ops" (VList []) spec); mapR parse_op_entry ops with Ok es => es | Err _ => [] end.

Lemma parsed_workflow_compiles blake2b_2 yaml_load payload d name spec :
  coerce_to_dict yaml_load payload = Ok d → parse_yaml_payload blake2b_2 yaml_load payload = Ok (name, spec) →
  get_graph_name d = Ok name ∧ dict_wf (gs_inputs spec) ∧ validate_inputs (get_or "inputs" (VDict []) d) = Ok (gs_inputs spec) ∧
  ∃ outputs, mapR parse_output_entry (default [] (match get_or "outputs" (VList []) d with VList l => Some l | _ => None end)) = Ok outputs ∧
    compile_entries blake2b_2 name (gs_inputs spec) (workflow_entries d) outputs = Ok (gs_graph spec).
Proof.
  intros Hc H. unfold parse_yaml_payload in H. rewrite Hc in H. clear Hc. simpl in H.
  destruct (get_graph_name d) as [n|]; [|done]. simpl in H. destruct (dmem "ops" d); [|done].
  destruct (compile_workflow blake2b_2 n d) as [s|] eqn:E; [|done]. injection H as -> ->.
  unfold compile_workflow in E. unfold workflow_entries. inv_ok. cbn [gs_graph gs_inputs] in *.
  assert (Hwf : dict_wf a2).
  { unfold validate_inputs in Ha2. destruct (get_or "inputs" (VDict []) d) as [| | | | | | |kvs]; try done.
    refine (foldR_inv validate_input dict_wf [] kvs a2 _ _ Ha2); [by apply NoDup_nil_2|]. intros st x st' _ Hst Hx. unfold validate_input in Hx. destruct (String.eqb _ _); [done|].
    inv_ok. by apply dict_wf_dset. }
  split_and!; [done|done|done|]. rewrite Ha0. cbn. rewrite Ha3. exists a4. split; [|done].
  unfold as_list in Ha1. destruct (get_or "outputs" (VList []) d); try done. by injection Ha1 as ->.
Qed.


Definition references_declared_b (inputs : list string) (entries : list OpEntry.t) : bool :=
  forallb (λ e, forallb (λ u, bool_decide (u ∈ OpEntry.inputs e ∨ u ∈ inputs)) (op_references (inputs ++ (OpEntry.id <$> entries)) e)) entries.
Lemma references_declared_b_ok inputs entries : references_declared_b inputs entries = true → references_declared inputs entries.
Proof.
  intros H e u He Hu. unfold references_declared_b in H. rewrite forallb_forall in H. apply list_elem_of_In, H in He.
  rewrite forallb_forall in He. apply list_elem_of_In, He in Hu. by apply bool_decide_eq_true in Hu.
Qed.

(** A workflow with an input, a format op and a chat op whose messages are
given inline, the chat op first: a message op and no format op come with it. *)
Definition demo_op (fields : list (string * val)) : val := VDict fields.
Definition demo_format (ref : string) : val :=
  demo_op [("id", VStr "prompt"); ("op", VStr "FormatOp"); ("inputs", VList [VStr "topic"]); ("template", VStr "Write about {t}");
           ("format_kwargs", VDict [("t", VStr ref)])].
Definition demo_chat (content : string) : val :=
  demo_op [("id", VStr "chat"); ("op", VStr "LLMChatOp"); ("inputs", VList [VStr "prompt"]);
           ("messages", VList [VDict [("role", VStr "user"); ("content", VStr content)]]);
           ("config", VDict [("model", VStr "m")])].
Definition demo_workflow (ref content : string) : val :=
  VDict [("name", VStr "demo"); ("inputs", VDict [("topic", VList [VStr "tea"])]); ("ops", VList [demo_chat content; demo_format ref]);
         ("outputs", VList [VDict [("name", VStr "answer"); ("ref", VStr "chat")]])].
Definition demo_digest (s : string) : nat := String.length s.
Definition demo_yaml (_ : string) : yaml_outcome := Unmarked "no text".
Definition demo_keys (payload : val) : option (list string) :=
  match parse_yaml_payload demo_digest demo_yaml payload with Ok (_, spec) => Some (dkeys (gs_graph spec)) | Err _ => None end.

(** A format op that refers to an id nobody declares is accepted by the parser,
and loading the graph then fails with a [KeyError]; one with a placeholder
called template is accepted as well, and its constructor fails. *)
Definition any_source (code fn_name : string) : result () := Ok ().
Definition demo_load (payload : val) : result (list string) :=
  r ← parse_yaml_payload demo_digest demo_yaml payload; load_graph any_source (gs_graph r.2).
Definition template_workflow : val :=
  VDict [("name", VStr "demo"); ("inputs", VDict [("topic", VList [VStr "tea"])]);
    ("ops", VList [demo_op [("id", VStr "prompt"); ("op", VStr "FormatOp"); ("inputs", VList [VStr "topic"]); ("template", VStr "As {template}");
                            ("format_kwargs", VDict [("template", VStr "topic")])]]);
    ("outputs", VList [VDict [("name", VStr "answer"); ("ref", VStr "prompt")]])].
Example graphs_that_do_not_load :
  demo_load (demo_workflow "nobody" "prompt") = Err (KeyError "nobody") ∧
  demo_load template_workflow = Err (TypeError "got multiple values for argument").
Proof. vm_compute. split; reflexivity. Qed.

Example demo_workflow_loads : demo_load (demo_workflow "topic" "prompt") = (r ← parse_yaml_payload demo_digest demo_yaml (demo_workflow "topic" "prompt"); Ok (dkeys (gs_graph r.2))).
Proof. vm_compute. reflexivity. Qed.
