(* ===== verification/YamlErrorProps.v ===== *)
(** * Errors of the YAML parser

    Parsing ends, and an error it raises is about its input: the fuel of the
    passes over the pending ops is enough, and the ids that are looked up
    without a check are always there. *)

From Stdlib Require Import Ascii.
From S2P Require Import Prelude PyFloat PyDict PyValue PyString PythonStep YamlParser YamlParserProps YamlGraphProps.

(** Errors about the input; a [KeyError] or a [RecursionError] is not one. *)
Definition input_error (e : exn) : Prop := match e with ValueError _ | TypeError _ => True | _ => False end.
Abbreviation rejects := (post (λ _, True) input_error).

Lemma rejects_bind {A B} (r : result A) (f : A → result B) : rejects r → (∀ a, r = Ok a → rejects (f a)) → rejects (r ≫= f).
Proof. intros H1 H2. eapply post_bind; [exact H1|]. intros a E _. by apply H2. Qed.

Lemma rejects_mapR {A B} (f : A → result B) l : (∀ x, x ∈ l → rejects (f x)) → rejects (mapR f l).
Proof. intros H. eapply post_mono; [|by apply (post_mapR (λ _, True))]. done. Qed.

Lemma rejects_foldR {A S} (f : S → A → result S) s l : (∀ s x, x ∈ l → rejects (f s x)) → rejects (foldR f s l).
Proof. intros H. apply (post_foldR (λ _, True)); [|done]. auto. Qed.

(** Follows the code of an operation down to the errors it names. *)
Ltac rejects_auto := repeat (cbn zeta; intros;
  match goal with
  | |- rejects (Ok _) => exact I
  | |- rejects (Err _) => exact I
  | |- rejects (_ ≫= _) => apply rejects_bind; [|intros ? _]
  | |- rejects (mapR _ _) => apply rejects_mapR
  | |- rejects (foldR _ _ _) => apply rejects_foldR
  | |- rejects (ok_or (ValueError _) ?o) => destruct o; exact I
  | |- rejects (match ?x with _ => _ end) => destruct x
  end).

Lemma parse_op_entry_rejects v : rejects (parse_op_entry v).
Proof. unfold parse_op_entry. rejects_auto. Qed.

Lemma parse_output_entry_rejects v : rejects (parse_output_entry v).
Proof. unfold parse_output_entry. rejects_auto. Qed.

Section op.
Context (blake2b_2 : string → nat) (scope : string) (ids : dict string string) (g : dict string op_dict).

Lemma lookup_rejects message ref : rejects (lookup_id ids message ref).
Proof. unfold lookup_id. rejects_auto. Qed.

Lemma iter_rejects v : rejects (py_iter v).
Proof. by destruct v. Qed.

Lemma generation_config_rejects c : rejects (build_generation_config c).
Proof. unfold build_generation_config. rejects_auto. Qed.

Lemma message_rejects messages op : rejects (emit_message_op ids messages op).
Proof. unfold emit_message_op, serialize_message. rejects_auto. Qed.

Lemma inline_messages_rejects messages prompt id : rejects (build_inline_messages blake2b_2 scope ids g messages prompt id).
Proof.
unfold build_inline_messages, resolve_kwarg. rejects_auto; first [apply lookup_rejects|apply iter_rejects].
Qed.

Lemma table_rejects v : rejects (resolve_table_nodes ids v).
Proof. unfold resolve_table_nodes, resolve_row. rejects_auto. Qed.

Lemma model_config_rejects kind fields : rejects (model_config kind fields).
Proof. unfold model_config. rejects_auto. Qed.

Section known.
Context (entry : OpEntry.t).
(** every input is the id of something *)
Hypothesis known : ∀ ref, ref ∈ OpEntry.inputs entry → ref ∈ dkeys ids.

Lemma input_known ref : ref ∈ OpEntry.inputs entry → rejects (ok_or (KeyError ref) (dget ref ids)).
Proof. intros Hr%known. apply dget_is_Some in Hr as [id ->]. done. Qed.

Lemma llm_messages_rejects : rejects (llm_messages blake2b_2 scope ids g entry).
Proof.
unfold llm_messages. rejects_auto; first [apply lookup_rejects|apply inline_messages_rejects|by apply input_known|apply iter_rejects|apply message_rejects].
Qed.

Lemma llm_like_rejects kind op : rejects (emit_llm_like_op blake2b_2 scope ids g kind entry op).
Proof.
unfold emit_llm_like_op. rejects_auto;
first [apply model_config_rejects|apply llm_messages_rejects|apply generation_config_rejects|apply table_rejects].
Qed.

Lemma op_rejects : OpEntry.op entry ∈ SUPPORTED_OPS → OpEntry.id entry ∈ dkeys ids → rejects (build_op_dict blake2b_2 scope ids g entry).
Proof.
intros Hs Hid. unfold build_op_dict. apply rejects_bind; [apply dget_is_Some in Hid as [id ->]; done|]. intros id _.
apply rejects_bind; [apply rejects_mapR, input_known|]. intros input_ids _. apply rejects_bind; [|done].
assert (Halone : ∀ r, rejects r → rejects (alone r)) by (intros r Hr; unfold alone; by apply rejects_bind).
unfold SUPPORTED_OPS in Hs.
repeat (apply elem_of_cons in Hs as [Hs|Hs]; [rewrite Hs; cbn match; try apply Halone|]); [..|by apply elem_of_nil in Hs].
all: first [apply llm_like_rejects|apply message_rejects
|unfold emit_data_op, emit_data_retrieval_op, resolve_data_spec, resolve_param, emit_format_op, emit_lambda_op, copy_field, emit_embedding_op,
   emit_llm_vision_op, emit_image_generation_op; rejects_auto;
 first [apply lookup_rejects|apply llm_like_rejects|apply model_config_rejects|apply generation_config_rejects]].
Qed.
End known.
End op.

(** ** Passes *)

Section passes.
Context (blake2b_2 : string → nat) (scope : string) (ids : dict string string).
(** the entries are registered, under supported ops *)
Definition registered (pending : dict string OpEntry.t) : Prop :=
∀ u e, (u, e) ∈ pending → OpEntry.id e ∈ dkeys ids ∧ OpEntry.op e ∈ SUPPORTED_OPS.

Lemma entry_rejects st item : OpEntry.id item.2 ∈ dkeys ids → OpEntry.op item.2 ∈ SUPPORTED_OPS → rejects (emit_entry blake2b_2 scope ids st item).
Proof.
intros Hid Hop. unfold emit_entry. destruct item as [u e], st as [g pending]. destruct (negb _) eqn:E; [exact I|].
destruct (existsb _ _); [exact I|]. apply rejects_bind; [|by intros [[id op] implicit] _]. apply op_rejects; [|done|done].
apply negb_false_iff in E. rewrite forallb_forall in E. intros ref Hr. by apply dmem_true, E, list_elem_of_In.
Qed.

(** A pass removes entries and adds none. *)
Lemma pass_shrinks l st st' : foldR (emit_entry blake2b_2 scope ids) st l = Ok st' → st'.2 `sublist_of` st.2.
Proof.
intros H. refine (foldR_inv _ (λ s, s.2 `sublist_of` st.2) st l st' _ _ H); [done|].
intros [g pending] [u e] s' _ Hs Hstep. unfold emit_entry in Hstep. destruct (negb _); [done|]. destruct (existsb _ _); [by injection Hstep as <-|].
inv_ok. destruct a as [[id op] implicit]. injection Hstep as <-. cbn [snd] in *. etrans; [|exact Hs]. rewrite ddel_filter. apply sublist_filter.
Qed.

Lemma registered_sublist pending pending' : pending' `sublist_of` pending → registered pending → registered pending'.
Proof. intros Hs Hr u e Hin. apply (Hr u e). eapply elem_of_submseteq; [exact Hin|by apply sublist_submseteq]. Qed.

(** A pass that leaves as many entries as it found is the last one; so as many
passes as entries are enough. *)
Lemma passes_reject fuel g pending : registered pending → length pending <= fuel → rejects (emit_pending blake2b_2 scope fuel ids g pending).
Proof.
revert g pending. induction fuel as [|fuel IH]; intros g pending Hr Hl; (destruct (decide (pending = [])) as [->|Hne]; [done|]).
- destruct pending; [done|simpl in Hl; lia].
- rewrite emit_pending_step by done. apply rejects_bind.
+ apply rejects_foldR. intros st [u e] Hin. apply entry_rejects; by apply (Hr u e).
+ intros st Hst. apply pass_shrinks in Hst as Hs. cbn [snd] in Hs. pose proof (sublist_length _ _ Hs) as Hlen.
  destruct (Nat.eqb _ _) eqn:E; [exact I|]. apply Nat.eqb_neq in E. apply IH; [by eapply registered_sublist|]. lia.
Qed.
End passes.

Lemma compile_rejects blake2b_2 scope inputs ops outputs : rejects (compile_entries blake2b_2 scope inputs ops outputs).
Proof.
  unfold compile_entries. apply rejects_bind; [unfold add_input; rejects_auto|]. intros st _.
  apply rejects_bind; [unfold register_op; rejects_auto|]. intros ids Hids. apply register_ops_spec in Hids as (-> & Hnd & Hall).
  assert (Hd : dict_of ((λ e, (OpEntry.id e, e)) <$> ops) = (λ e, (OpEntry.id e, e)) <$> ops) by (apply dict_of_nodup; by rewrite <-list_fmap_compose).
  apply rejects_bind.
  - rewrite Hd. apply passes_reject; [|by rewrite length_fmap]. intros u e (e' & [= -> ->] & He)%list_elem_of_fmap. split; [|by apply Hall].
    unfold dkeys. rewrite fmap_app, <-list_fmap_compose. apply elem_of_app. right. apply list_elem_of_fmap. by exists e'.
  - intros g _. unfold emit_output. rejects_auto.
Qed.

(** C14: Parsing a YAML workflow ends with a graph or with an error about the
payload: the passes over the pending ops do not run out, and no id is looked up
without being there. *)
Theorem yaml_parse_rejects blake2b_2 yaml_load payload :
  match parse_yaml_payload blake2b_2 yaml_load payload with
  | Ok _ => True
  | Err e => ∃ message, e = ValueError message ∨ e = TypeError message
  end.
Proof.
  assert (H : rejects (parse_yaml_payload blake2b_2 yaml_load payload)).
  { unfold parse_yaml_payload. apply rejects_bind; [unfold coerce_to_dict; rejects_auto|]. intros d _.
    apply rejects_bind; [unfold get_graph_name; rejects_auto|]. intros name _. destruct (dmem "ops" d); [|exact I].
    apply rejects_bind; [|done]. unfold compile_workflow, as_list, validate_inputs, validate_input.
    rejects_auto; intros; first [apply parse_op_entry_rejects|apply parse_output_entry_rejects|apply compile_rejects]. }
  destruct (parse_yaml_payload _ _ _) as [r|e]; [done|]. destruct e; try done; eauto.
Qed.

(** [messages] that cannot be iterated over are not reported as a [ValueError]. *)
Example messages_of_a_number :
  parse_yaml_payload demo_digest demo_yaml
    (VDict [("ops", VList [VDict [("id", VStr "chat"); ("op", VStr "LLMChatOp"); ("messages", VInt 5); ("config", VDict [("model", VStr "m")])]])])
  = Err (TypeError "object is not iterable").
Proof. vm_compute. reflexivity. Qed.
