(* ===== verification/GraphNodes.v ===== *)
(** * The nodes the builder makes from ops (runtime/runtime_graph.py)

    [RuntimeGraphBuilder] compiles each op to runtime ops: a retrieval to a
    [data_retrieval] task, a list lambda to a [python] step, an LLM op to an
    inference, embedding, image or API task whose messages come from the trace
    of its ancestors, and a vision op to several tasks.  The file models those
    builders without the data-profile override.

    The environment is [builder_env]; [limit] is Python's recursion limit, in
    calls of the function.  Parameters: Python's [str] and [str.format], the
    JSON functions, [urlsplit], the functions of the process ([call_fn]), the
    check of inlined source ([inline_ok], an analysis of Python's syntax tree) and
    the order in which Python iterates a set ([set_order]). *)

From Stdlib Require Import Ascii.
From S2P Require Import Prelude PyFloat PyDict PyValue PyString RuntimeGraph Dedupe Coalesce Demux PythonStep FlowmeshSpec YamlParser.

(** * Ops of a compiled graph, as the runtime graph builder reads them

    The classes of ops/ops.py, ops/data_ops.py, ops/llm_ops.py,
    ops/embedding_ops.py and ops/util_ops.py with the fields
    runtime/runtime_graph.py uses, the generation config (common.py), and the
    parts of the builder that only look at ops and specs: row counts, read
    paths, node references, and the checks on conditions and columns.

    An op object is identified by its id; a field that holds an op holds its id
    here, and the object is looked up in the dict of the compiled graph.  An
    assertion that fails is [ValueError "AssertionError"], and the text of a
    message is cut before the values it prints. *)

(** ** Generation config (common.py) *)

Module ApiConfig.
Record t := mk {
url : option string;
model : option string;
authorization : option string;
timeout_sec : val;
retries : val;
}.
End ApiConfig.

Module GenerationConfig.
(** The fields other than [model] and [api], by name; [None] is [VNone]. *)
Record t := mk {
model : string;
api : option ApiConfig.t;
fields : dict string val;
}.

Definition NON_SAMPLER_FIELDS : list string :=
["model"; "api"; "stream"; "stream_options"; "extra_sampling_params"; "max_model_len"; "gpu_memory_utilization"; "tensor_parallel_size"; "dtype"; "extra_engine_kwargs"].
Definition ENGINE_OVERLAY_FIELDS : list string := ["max_model_len"; "gpu_memory_utilization"; "tensor_parallel_size"; "dtype"].

Definition resolved_model (c : t) : string :=
match api c with
| Some a => match ApiConfig.model a with Some m => if String.eqb m "" then model c else m | None => model c end
| None => model c
end.

(** The fields of these names that are not [None] *)
Definition set_fields (names : list string) (c : t) : dict string val :=
omap (λ name, match vget name (fields c) with VNone => None | v => Some (name, v) end) names.

(** [typed] with the extras, which may not overlap *)
Definition with_extras (extras : val) (typed : dict string val) : result (dict string val) :=
extras ← (if truthy extras then ok_or (TypeError "extras") (as_dict extras) else Ok []);
if existsb (λ k, dmem k typed) (dkeys extras) then Err (ValueError "extras conflict with typed fields")
else Ok (dupdate typed extras).

Definition inference_spec (c : t) : result (dict string val) :=
with_extras (vget "extra_sampling_params" (fields c)) (set_fields (filter (.∉ NON_SAMPLER_FIELDS) GENERATION_CONFIG_FIELDS) c).

Definition engine_overlay (c : t) : result (dict string val) :=
with_extras (vget "extra_engine_kwargs" (fields c)) (set_fields ENGINE_OVERLAY_FIELDS c).
End GenerationConfig.

(** ** Ops *)

(** [SubmittedFunction] or a function of the process *)
Inductive op_fn := SubmittedFunction | LocalFunction.
#[export] Instance op_fn_eq_dec : EqDecision op_fn.
Proof. solve_decision. Defined.

Module Lambda.
Record t := mk {
fn : op_fn;
fn_name : string;
code : string;
mode : string;
timeout_s : val;
memory_mb : val;
image : option string;
expected_runtime_s : val;
cache : val;
}.

Definition takes_whole_columns (l : t) : bool := bool_decide (mode l ∈ ["list"; "aligned"]).
End Lambda.

(** [OpMessage.content] *)
Inductive content := Text (s : string) | OpRef (id : string).

Module Chat.
(** The fields of an [LLMChatOp] but its messages (its first input) and config *)
Record t := mk {
return_history : bool;
structural_outputs : val;
aggregate_table : list (dict string val);
rowwise_template : option string;
rowwise_columns : list (dict string val);
system_messages : list string;
condition : option (dict string string);
}.
(** [if op.rowwise_template] *)
Definition rowwise (c : t) : bool := match rowwise_template c with None | Some "" => false | _ => true end.
End Chat.

Module GOp.
Inductive body :=
| InputOp (name : string)
| OutputOp (name : string) (path : option string)
| DataOp (data : list string)
| DataRetrievalOp (data_spec : dict string val)
| MessageOp (messages : list (string * content))
| FormatOp (template : string) (format_kwargs format_paths : dict string string)
| LambdaOp (l : Lambda.t)
| LLMChatOp (config : GenerationConfig.t) (c : Chat.t)
| LLMVisionOp (config : GenerationConfig.t) (c : Chat.t) (image_source image_path : string)
| ImageGenerationOp (config : GenerationConfig.t)
| EmbeddingOp (config : GenerationConfig.t).

Record t := mk {
id : string;
inputs : list string;
cls : body;
}.

(** [op.config] of an [LLMOp]: [isinstance(op, LLMOp)] *)
Definition llm (op : t) : option GenerationConfig.t :=
match cls op with
| LLMChatOp config _ | LLMVisionOp config _ _ _ | ImageGenerationOp config | EmbeddingOp config => Some config
| _ => None
end.
(** [isinstance(op, LLMChatOp)], which a vision op is too *)
Definition chat (op : t) : option Chat.t :=
match cls op with LLMChatOp _ c | LLMVisionOp _ c _ _ => Some c | _ => None end.
Definition is_llm (op : t) : bool := match llm op with Some _ => true | None => false end.
Definition is_vision (op : t) : bool := match cls op with LLMVisionOp _ _ _ _ => true | _ => false end.
Definition is_input (op : t) : bool := match cls op with InputOp _ => true | _ => false end.
Definition is_retrieval (op : t) : bool := match cls op with DataRetrievalOp _ => true | _ => false end.
Definition lambda (op : t) : option Lambda.t := match cls op with LambdaOp l => Some l | _ => None end.
Definition is_list_lambda (op : t) : bool := match lambda op with Some l => Lambda.takes_whole_columns l | None => false end.
Definition is_row_lambda (op : t) : bool := match lambda op with Some l => negb (Lambda.takes_whole_columns l) | None => false end.

(** [op.messages] of a chat op and [op.content] of the others: the first input *)
Definition first_input (op : t) : result string := ok_or (IndexError "list index out of range") (head (inputs op)).
End GOp.

(** The graph and its inputs: [compiled_graph.graph.as_dict()] and [.inputs] *)
Abbreviation ops_dict := (dict string GOp.t).
Abbreviation inputs_dict := (dict string (list string)).

(** The object of an op: what it refers to is in the graph. *)
Definition deref (graph : ops_dict) (id : string) : result GOp.t := dindex (KeyError id) id graph.

Definition assert (b : bool) : result () := if b then Ok () else Err (ValueError "AssertionError").

(** ** Row counts *)

Definition omapR {A B} (f : A → result (option B)) (l : list A) : result (list B) :=
  match mapR f l with Ok l' => Ok (omap (M:=list) (λ x, x) l') | Err e => Err e end.
Definition max_count (l : list nat) : option nat := match l with [] => None | _ => Some (max_list l) end.

Section rows.
Context (inputs : inputs_dict) (graph : ops_dict).

(** [_static_output_row_count].  The recursion follows inputs and the nodes of
  rowwise columns; Python stops it at its recursion limit. *)
Fixpoint static_output_row_count (fuel : nat) (op : GOp.t) : result (option nat) :=
match fuel with
| O => Err RecursionError
| S fuel =>
    let count_of id := op ← deref graph id; static_output_row_count fuel op in
    let column_count (col : dict string val) :=
      match (match vget "data" col with VDict data => match vget "items" data with VList items => Some (length items) | _ => None end | _ => None end) with
      | Some n => Ok (Some n)
      | None =>
          match vget "node" col with
          | VStr node_ref => match dget node_ref graph with Some upstream => static_output_row_count fuel upstream | None => Ok None end
          | _ => Ok None
          end
      end in
    let known ids := counts ← omapR count_of ids; Ok (max_count counts) in
    match GOp.cls op with
    | GOp.InputOp name => Ok (length <$> dget name inputs)
    | GOp.DataOp data => Ok (Some (length data))
    | GOp.LLMChatOp _ c | GOp.LLMVisionOp _ c _ _ =>
        match Chat.rowwise_columns c with
        | [] =>
            mid ← GOp.first_input op; m ← deref graph mid;
            known (match GOp.cls m with
                   | GOp.MessageOp messages => omap (λ rc : string * content, match rc.2 with OpRef id => Some id | Text _ => None end) messages
                   | _ => []
                   end)
        | cols => counts ← omapR column_count cols; Ok (max_count counts)
        end
    | GOp.EmbeddingOp _ | GOp.ImageGenerationOp _ => content ← GOp.first_input op; count_of content
    | GOp.FormatOp _ _ _ => known (GOp.inputs op)
    | GOp.LambdaOp l => if String.eqb (Lambda.mode l) "list" then Ok None else known (GOp.inputs op)
    | _ => Ok None
    end
end.

(** [_python_step_row_count] *)
Definition python_step_row_count (row_counts : list (string * option nat)) (combines_rows : bool) : result (option nat) :=
let known := omap snd row_counts in
if (combines_rows && Nat.ltb 1 (length (remove_dups (filter (λ n, 1 < n) known))))%bool
then Err (ValueError "LambdaOp combines inputs of different row counts")
else Ok (if Nat.eqb (length known) (length row_counts) then Some (max_list (1 :: known)) else None).

(** [_static_output_row_count(op, ...) or 1] *)
Definition rows_or_one (fuel : nat) (op : GOp.t) : result nat :=
n ← static_output_row_count fuel op; Ok (match n with Some (S k) => S k | _ => 1 end).

(** [_row_condition] *)
Definition row_condition (fuel : nat) (condition : option (dict string string)) (consumer_row_count : nat) : result (option (dict string string)) :=
match condition with
| None => Ok None
| Some d =>
    match dget "node" d ≫= λ node, dget node graph with
    | None => Ok condition
    | Some source =>
        n ← static_output_row_count fuel source;
        match n with
        | Some n => if (Nat.ltb 1 n && Nat.ltb 1 consumer_row_count)%bool then Err (ValueError "a condition can only gate a whole task") else Ok condition
        | None => Ok condition
        end
    end
end.

(** [_guard_single_row_node_ref] *)
Definition guard_single_row_node_ref (fuel : nat) (upstream : GOp.t) : result () :=
if GOp.is_llm upstream then
  n ← static_output_row_count fuel upstream;
  match n with
  | Some n => if Nat.ltb 1 n then Err (ValueError "a single node reference can only carry one row") else Ok ()
  | None => Ok ()
  end
else Ok ().
End rows.

(** ** What an op's output looks like *)

(** [_is_api_task], [_is_rowwise_api_task], [_emits_one_item_per_row] *)
Definition is_api_task (op : GOp.t) : bool :=
  match GOp.llm op with
  | Some config => (negb (GOp.is_vision op) && match GenerationConfig.api config with Some _ => true | None => false end)%bool
  | None => false
  end.
Definition is_rowwise_api_task (op : GOp.t) : bool :=
  (is_api_task op && match GOp.chat op with Some c => match Chat.rowwise_template c with Some _ => true | None => false end | None => false end)%bool.
Definition emits_one_item_per_row (op : GOp.t) : bool :=
  match GOp.chat op with
  | Some c => (match Chat.rowwise_template c with None => true | Some _ => false end && negb (is_api_task op))%bool
  | None => false
  end.

Definition API_ROW_PATH : string := "items.rows.json.choices[0].message.content".
Definition API_ITEM_PATH : string := "items.json.choices[0].message.content".

(** [retrieval_items_path(data_spec["mode"])] (common.py) *)
Definition retrieval_items_path (data_spec : dict string val) : result string :=
  mode ← dindex (KeyError "mode") "mode" data_spec;
  if bool_decide (mode = VStr "sql") then Ok "items.table"
  else if bool_decide (mode = VStr "s3") then Ok "items.content"
  else if bool_decide (mode = VStr "agent") then Ok "items.table"
  else Err (ValueError "Unsupported retrieval mode").

Definition vlist (l : list string) : val := VList (VStr <$> l).
Definition list_spec (items : list string) : dict string val := [("type", VStr "list"); ("items", vlist items)].

(** [s[n:]] *)
Definition py_drop (n : nat) (s : string) : string := String.concat "" (drop n (code_points s)).

(** [project_input_keys] (common.py): [json_loads] gives the value of a text. *)
Section project.
Context (json_loads : string → option val) (json_dumps : val → string).

Definition project_value (keys : list string) (value : string) : result val :=
obj ← ok_or (ValueError "Input value is not JSON at field path") (json_loads value);
foldR (λ obj key, match obj with
                  | VDict d => ok_or (ValueError "Input value missing field at path") (dget key d)
                  | _ => Err (ValueError "Input value missing field at path")
                  end) obj keys.

(** [_project_input_field] *)
Definition project_input_field (values : list string) (path : string) : result (list string) :=
if String.eqb path "items.output" then Ok values
else if py_starts_with "items.output." path then
  projected ← mapR (project_value (py_split "."%char (py_drop 13 path))) values;
  Ok (map (py_text json_dumps) projected)
else Err (ValueError "InputOp field path must start with 'items.output'").
End project.

(** [_lambda_read_path] *)
Definition lambda_read_path (path : string) (upstream : Lambda.t) : result string :=
  if negb (py_starts_with "items.output" path) then Err (ValueError "only 'items.output' (the whole output) is supported")
  else if (negb (Lambda.takes_whole_columns upstream) && negb (String.eqb path "items.output"))%bool
  then Ok ("value.items.value." +:+ py_drop 13 path)
  else Ok ("value." +:+ path).

Section columns.
Context (inputs : inputs_dict) (flattened_vlm_ids : list string).

(** [_upstream_output_path] *)
Definition upstream_output_path (op : GOp.t) : string :=
if bool_decide (GOp.id op ∈ flattened_vlm_ids) then "value.items.output"
else if is_api_task op then (if is_rowwise_api_task op then API_ROW_PATH else API_ITEM_PATH)
else if GOp.is_row_lambda op then "value.items.output"
else "items.output".

(** [_node_ref_column] *)
Definition node_ref_column (label node_ref path : string) (upstream : option GOp.t) : result (dict string val) :=
let column path := Ok [("label", VStr label); ("node", VStr node_ref); ("path", VStr path)] in
match upstream with
| None => column path
| Some up =>
    match GOp.cls up with
    | GOp.InputOp name =>
        values ← ok_or (ValueError "no values were supplied for that input") (dget name inputs);
        if String.eqb path "" then Ok [("label", VStr label); ("data", VDict (list_spec values))]
        else Err (ValueError "InputOp-derived columns cannot be drilled")
    | _ =>
        if is_api_task up then
          if String.eqb path "items.output" then column (upstream_output_path up)
          else Err (ValueError "only 'items.output' (the whole output) is supported")
        else match GOp.lambda up with
             | Some l => path ← lambda_read_path path l; column path
             | None =>
                 if bool_decide (GOp.id up ∈ flattened_vlm_ids) then
                   if py_starts_with "items.output" path then column ("value." +:+ path)
                   else Err (ValueError "only 'items.output' is supported")
                 else column path
             end
    end
end.
End columns.

(** ** References in a spec *)

(** [_iter_spec_refs] *)
Fixpoint iter_spec_refs (allow_expr : bool) (v : val) {struct v} : list string :=
  match v with
  | VDict d =>
      let fix values (d : list (string * val)) : list string :=
        match d with [] => [] | (_, x) :: d => iter_spec_refs allow_expr x ++ values d end in
      let fix items (d : list (string * val)) : list string :=
        match d with [] => [] | (k, x) :: d => if decide ("items" = k) then iter_spec_refs false x else items d end in
      match vget "node" d with
      | VStr node =>
          if (dmem "path" d || (allow_expr && dmem "expr" d))%bool then [node]
          else if bool_decide (vget "type" d = VStr "list") then items d
          else if bool_decide (vget "kind" d = VStr "stage") then [node]
          else values d
      | _ => if bool_decide (vget "type" d = VStr "list") then items d else values d
      end
  | VList l => concat (map (iter_spec_refs allow_expr) l)
  | _ => []
  end.

(** [_iter_runtime_refs] *)
Definition iter_runtime_refs (node : RuntimeOp.t) : list string :=
  iter_spec_refs true (VDict (RuntimeOp.data_spec node)) ++
  match RuntimeOp.condition node with Some d => option_list (dget "node" d) | None => [] end.

(** [_collect_graph_template_dependencies]: the nodes of the columns, through
    nested frames and templates.  [data.get("columns", []) or []] is iterated;
    a column that is not a mapping is passed over. *)
Definition iterable (v : val) : result (list val) := if truthy v then py_iter v else Ok [].

Fixpoint visit_column (fuel : nat) (deps : list string) (column : val) : result (list string) :=
  match column with
  | VDict c =>
      let deps := match vget "node" c with VStr node => add_ref deps node | _ => deps end in
      match vget "data" c, fuel with
      | VDict data, S fuel =>
          if bool_decide (vget "type" data = VStr "dataframe") then
            nested ← iterable (vget "columns" data); foldR (visit_column fuel) deps nested
          else if bool_decide (vget "type" data = VStr "graph_template") then
            match vget "template" data with
            | VDict template => nested ← iterable (vget "columns" template); foldR (visit_column fuel) deps nested
            | _ => Ok deps
            end
          else Ok deps
      | VDict _, O => Err RecursionError
      | _, _ => Ok deps
      end
  | _ => Ok deps
  end.

(** The nesting depth of a value, which bounds that of the visit *)
Fixpoint val_depth (v : val) : nat :=
  match v with
  | VDict d => S ((fix go (d : list (string * val)) := match d with [] => 0 | (_, x) :: d => Nat.max (val_depth x) (go d) end) d)
  | VList l | VTuple l => S (max_list (map val_depth l))
  | _ => 0
  end.

Definition collect_graph_template_dependencies (template : dict string val) : result (list string) :=
  columns ← iterable (vget "columns" template);
  foldR (visit_column (val_depth (VDict template))) [] columns.

Record builder_env := BuilderEnv {
  be_config : config;
  LUMID_DATA_URL : string;
  LUMID_DATA_WORKER_URL : string;
  LUMID_DATA_TOKEN : string;
  LUMILAKE_VLLM_MAX_NUM_BATCHED_TOKENS : Z;
  LUMILAKE_VLLM_MAX_CUDAGRAPH_CAPTURE_SIZE : Z;
  LUMILAKE_VLLM_GPU_MEMORY_UTILIZATION : f64;
  LUMILAKE_VLLM_MAX_MODEL_LEN : Z;
}.

Definition nonempty (s : string) : bool := negb (String.eqb s "").

(** ** Specs *)

Section specs.
Context (env : builder_env) (to_str : val → string).

(** [str(v)] *)
Definition str_of (v : val) : string := match v with VStr s => s | _ => to_str v end.

(** [_default_output_destination] *)
Definition default_output_destination : dict string val :=
if String.eqb (FLOWMESH_OUTPUT_DESTINATION (be_config env)) "http" then [("type", VStr "http"); ("timeoutSec", VInt 3600)]
else [("type", VStr "local")].

(** [_build_output_spec] with both arguments *)
Definition build_output_spec (artifacts : list string) : dict string val :=
[("destination", VDict default_output_destination); ("artifacts", vlist artifacts)].

Definition lumid_url : string := if nonempty (LUMID_DATA_WORKER_URL env) then LUMID_DATA_WORKER_URL env else LUMID_DATA_URL env.

(** [_attach_lumid_cfg] *)
Definition attach_lumid_cfg (data_spec : dict string val) : result (dict string val) :=
if (negb (bool_decide (vget "type" data_spec = VStr "list")) || dmem "lumid_cfg" data_spec)%bool then Ok data_spec
else match vget "items" data_spec with
     | VList items =>
         if negb (existsb (λ i, match i with VStr s => py_starts_with "s3://" s | _ => false end) items) then Ok data_spec
         else if negb (nonempty (LUMID_DATA_URL env)) then Err (ValueError "LUMID_DATA_URL is required")
         else if negb (nonempty (LUMID_DATA_TOKEN env)) then Err (ValueError "LUMID_DATA_TOKEN is required")
         else Ok (dset "lumid_cfg" (VDict [("lumid_data_url", VStr lumid_url); ("lumid_data_token", VStr (LUMID_DATA_TOKEN env))]) data_spec)
     | _ => Ok data_spec
     end.

(** [_create_runtime_op] *)
Definition create_runtime_op (name task_type : string) (data_spec model_spec inference_spec api_spec : dict string val) (backend model : string)
  (dependencies : list string) (output_spec : option (dict string val)) (condition : option (dict string string)) : result RuntimeOp.t :=
data_spec ← attach_lumid_cfg data_spec;
Ok (RuntimeOp.mk name task_type backend model data_spec model_spec inference_spec api_spec dependencies output_spec condition).

(** [_build_default_vllm_backend_config] *)
Definition default_vllm_backend_config (enable_mm_embeds : bool) : dict string val :=
[("max_num_batched_tokens", VInt (LUMILAKE_VLLM_MAX_NUM_BATCHED_TOKENS env));
 ("max_cudagraph_capture_size", VInt (LUMILAKE_VLLM_MAX_CUDAGRAPH_CAPTURE_SIZE env));
 ("gpu_memory_utilization", VFloat (LUMILAKE_VLLM_GPU_MEMORY_UTILIZATION env));
 ("trust_remote_code", VBool true);
 ("env_vars", VDict [("VLLM_ATTENTION_BACKEND", VStr "FLASHINFER")])] ++
(if (0 <? LUMILAKE_VLLM_MAX_MODEL_LEN env)%Z then [("max_model_len", VInt (LUMILAKE_VLLM_MAX_MODEL_LEN env))] else []) ++
(if enable_mm_embeds then [("enable_mm_embeds", VBool true); ("limit_mm_per_prompt", VDict [("image", VInt 1)])] else []).

(** [_build_model_spec]: an absent backend config is [[]]. *)
Definition build_model_spec (config : GenerationConfig.t) (backend : string) (backend_config : dict string val) : result (dict string val) :=
let spec := [("source", VDict [("type", VStr "huggingface"); ("identifier", VStr (GenerationConfig.model config)); ("revision", VStr "main")])] in
let or_default (d : dict string val) := match backend_config with [] => d | _ => backend_config end in
overlay ← GenerationConfig.engine_overlay config;
if String.eqb backend "vllm" then Ok (dset "vllm" (VDict (dupdate (or_default (default_vllm_backend_config false)) overlay)) spec)
else if String.eqb backend "transformers" then
  Ok (dset "transformers" (VDict (or_default [("mode", VStr "visual-embedding"); ("device_map", VStr "auto"); ("trust_remote_code", VBool true)])) spec)
else if String.eqb backend "diffusers" then
  if existsb (λ name, negb (is_none (vget name (GenerationConfig.fields config)))) ["max_model_len"; "gpu_memory_utilization"; "tensor_parallel_size"]
  then Err (ValueError "diffusers backend does not accept typed engine fields")
  else Ok (dset "diffusers" (VDict (dupdate (or_default [("dtype", VStr "bf16"); ("use_safetensors", VBool true)]) overlay)) spec)
else Ok spec.

(** ** Python steps *)

Definition stage_entry (node : string) : val := VDict [("kind", VStr "stage"); ("node", VStr node)].
Definition literal_entry (values : list string) : val := VDict [("kind", VStr "literal"); ("values", vlist values)].

(** A rowwise LLM that is not a VLM is flattened by the step that reads it. *)
Definition is_rowwise_llm (op : GOp.t) : bool := match GOp.cls op with GOp.LLMChatOp _ c => Chat.rowwise c | _ => false end.
Definition upstream_entry (inp : GOp.t) (node : string) : val :=
if is_rowwise_llm inp then VDict [("kind", VStr "stage"); ("node", VStr node); ("flatten", VBool true)] else stage_entry node.

Definition set_optional (key : string) (v : val) (d : dict string val) : dict string val := if is_none v then d else dset key v d.

(** The data spec of a lambda: [_build_python_step] and
  [_build_node_from_list_lambda_op] share everything but the mode. *)
Definition lambda_spec (l : Lambda.t) (plan : list val) (with_mode : bool) (row_count : option nat) : dict string val :=
let d := [("code", VStr (Lambda.code l)); ("fn_name", VStr (Lambda.fn_name l)); ("plan", VList plan)] ++
  (if with_mode then [("mode", VStr (Lambda.mode l))] else []) ++
  [("timeout_s", if is_none (Lambda.timeout_s l) then VInt DEFAULT_TIMEOUT_SECONDS else Lambda.timeout_s l)] in
let d := set_optional "memory_mb" (Lambda.memory_mb l) d in
let d := match Lambda.image l with Some image => dset "image" (VStr image) d | None => d end in
let d := if is_none (Lambda.expected_runtime_s l) then d
  else let d := dset "expected_runtime_s" (Lambda.expected_runtime_s l) d in
       match row_count with Some n => dset "row_count" (VInt (Z.of_nat n)) d | None => d end in
set_optional "cache" (Lambda.cache l) d.

Definition python_node (name : string) (data_spec : dict string val) (dependencies : list string) : result RuntimeOp.t :=
create_runtime_op name PYTHON_TASK_TYPE data_spec [] [] [] BACKEND "" dependencies None None.
End specs.

(** What the inputs of a step give: its plan, its dependencies and the row
    counts of the columns *)
Record step_inputs := StepInputs {
  si_plan : list val;
  si_deps : list string;
  si_rows : list (string * option nat);
}.
Definition no_inputs : step_inputs := StepInputs [] [] [].
Definition add_literal (id : string) (values : list string) (st : step_inputs) : step_inputs :=
  StepInputs (si_plan st ++ [literal_entry values]) (si_deps st) (si_rows st ++ [(id, Some (length values))]).

Section list_lambda.
Context (env : builder_env) (limit : nat) (inputs : inputs_dict) (graph : ops_dict).

(** A list-mode step appends its dependency each time. *)
Definition list_lambda_input (st : step_inputs) (input : string) : result step_inputs :=
inp ← deref graph input;
let upstream entry :=
  n ← static_output_row_count inputs graph limit inp;
  Ok (StepInputs (si_plan st ++ [entry]) (si_deps st ++ [input]) (si_rows st ++ [(input, n)])) in
if GOp.is_list_lambda inp then upstream (stage_entry input)
else if GOp.is_llm inp then upstream (upstream_entry inp input)
else if GOp.is_retrieval inp then upstream (stage_entry input)
else match GOp.cls inp with
     | GOp.InputOp name => values ← ok_or (ValueError "LambdaOp input has no values supplied") (dget name inputs); Ok (add_literal input values st)
     | GOp.DataOp data => Ok (add_literal input data st)
     | _ => Err (ValueError "LambdaOp list-mode input must be an LLMOp, DataRetrievalOp, list-mode LambdaOp, InputOp, or DataOp")
     end.

(** [_build_node_from_list_lambda_op] *)
Definition build_node_from_list_lambda_op (op : GOp.t) (l : Lambda.t) : result RuntimeOp.t :=
st ← foldR list_lambda_input no_inputs (GOp.inputs op);
row_count ← python_step_row_count (si_rows st) (String.eqb (Lambda.mode l) "aligned");
python_node env (GOp.id op) (lambda_spec l (si_plan st) true row_count) (si_deps st).
End list_lambda.

(** ** Data retrievals *)

(** [re.search(r"\bFROM\s+([^\s]+)", template, re.IGNORECASE)]: group 1 *)
Definition match_from (l : list ascii) : option (list ascii) :=
  if bool_decide (lower_ascii <$> take 4 l = chars "from") then
    match span is_space (drop 4 l) with
    | (_ :: _, rest) => match span (λ c, negb (is_space c)) rest with ([], _) => None | (table, _) => Some table end
    | _ => None
    end
  else None.
Fixpoint search_from (after_word : bool) (l : list ascii) : option (list ascii) :=
  match (if after_word then None else match_from l) with
  | Some table => Some table
  | None => match l with [] => None | c :: l => search_from (is_word c) l end
  end.
(** [_extract_table_from_sql_template] *)
Definition extract_table_from_sql_template (template : string) : result string :=
  ok_or (ValueError "Unable to infer SQL table from template") ((λ l, strip (of_chars l)) <$> search_from false (chars template)).

Section retrieval.
Context (env : builder_env) (to_str : val → string) (limit : nat) (inputs : inputs_dict) (graph : ops_dict).
(** [input_ops_by_id] *)
Context (input_ops : ops_dict).

(** [_inline_single_value_list_params] *)
Definition inline_param (st : string * list val) (param : val) : string * list val :=
let keep := (st.1, st.2 ++ [param]) in
match param with
| VDict d =>
    match vget "label" d, vget "data" d with
    | VStr label, VDict data =>
        if negb (bool_decide (vget "type" data = VStr "list")) then keep
        else match vget "items" data with
             | VList [item] =>
                 let placeholder := "{" +:+ label +:+ "}" in
                 if negb (contains placeholder st.1) then keep
                 else (replace_all placeholder (replace_all "'" "''" (str_of to_str item)) st.1, st.2)
             | _ => keep
             end
    | _, _ => keep
    end
| _ => keep
end.
Definition inline_single_value_list_params (template : string) (params : list val) : string * list val :=
foldl inline_param (template, []) params.

Record param_state := ParamState {
ps_resolved : list val;
ps_deps : list string;
ps_counts : dict string nat;
}.

(** [_resolve_param_upstream] *)
Definition resolve_param_upstream (node : string) : option GOp.t :=
match dget node graph with Some up => Some up | None => dget node input_ops end.

(** The parameter as it is sent, and its row count when it has several rows *)
Definition resolve_upstream (d : dict string val) (node : string) (st : param_state) : result param_state :=
let label := str_of to_str (vget "label" d) in
let upstream := resolve_param_upstream node in
match GOp.cls <$> upstream with
| Some (GOp.InputOp name) =>
    values ← ok_or (ValueError "no values were supplied for that input") (dget name inputs);
    if negb (bool_decide (vget "path" d = VNone ∨ vget "path" d = VStr "")) then Err (ValueError "InputOp-derived params cannot be drilled")
    else
      let literal := VDict [("label", vget "label" d); ("data", VDict (list_spec values))] in
      Ok (ParamState (ps_resolved st ++ [literal]) (ps_deps st)
            (if Nat.ltb 1 (length values) then dset label (length values) (ps_counts st) else ps_counts st))
| _ =>
    counts ← match upstream with
             | Some up =>
                 if GOp.is_llm up then
                   n ← static_output_row_count inputs graph limit up;
                   match n with
                   | Some n => if Nat.ltb 1 n then
                                 if emits_one_item_per_row up then Ok (dset label n (ps_counts st))
                                 else Err (ValueError "only a plain local LLMChatOp binds row-wise to a retrieval param")
                               else Ok (ps_counts st)
                   | None => Ok (ps_counts st)
                   end
                 else Ok (ps_counts st)
             | None => Ok (ps_counts st)
             end;
    d ← match upstream ≫= GOp.lambda with
        | Some l =>
            path ← match dget_or (VStr "") "path" d with VStr p => Ok p | _ => Err (AttributeError "startswith") end;
            path ← lambda_read_path path l; Ok (dset "path" (VStr path) d)
        | None => Ok d
        end;
    Ok (ParamState (ps_resolved st ++ [VDict d]) (add_ref (ps_deps st) node) counts)
end.

Definition resolve_retrieval_param (st : param_state) (param : val) : result param_state :=
match param with
| VDict d =>
    match vget "node" d with
    | VStr node => resolve_upstream d node st
    | _ => Ok (ParamState (ps_resolved st ++ [param]) (ps_deps st) (ps_counts st))
    end
| _ => Ok (ParamState (ps_resolved st ++ [param]) (ps_deps st) (ps_counts st))
end.

(** The inputs that become dependencies *)
Definition retrieval_input (deps : list string) (input : string) : result (list string) :=
inp ← deref graph input; Ok (if GOp.is_input inp then deps else add_ref deps input).

(** The template of a [sql] or [s3] retrieval, the description of an [agent] one *)
Definition retrieval_template (mode : string) (spec : dict string val) : result string :=
if bool_decide (mode ∈ ["sql"; "s3"]) then ok_or (ValueError "DataRetrievalOp requires template") (as_str (vget "template" spec))
else
  description ← ok_or (ValueError "DataRetrievalOp (mode=agent) requires description") (as_str (vget "description" spec));
  match vget "schema_scope" spec with
  | VNone | VStr _ => Ok description
  | _ => Err (ValueError "schema_scope must be a string")
  end.

Definition retrieval_mode (spec : dict string val) : result string :=
mode ← dindex (KeyError "mode") "mode" spec;
match mode with
| VStr m => if bool_decide (m ∈ ["sql"; "s3"; "agent"]) then Ok m else Err (ValueError "mode must be 'sql', 's3', or 'agent'")
| VList _ | VDict _ => Err (TypeError "unhashable type")
| _ => Err (ValueError "mode must be 'sql', 's3', or 'agent'")
end.

(** The fields that depend on the mode *)
Definition retrieval_fields (mode template : string) (spec d : dict string val) : dict string val :=
if String.eqb mode "sql" then
  let d := match vget "table" spec with
    | VStr table => if nonempty (strip table) then dset "table" (VStr (strip table)) d
                    else match extract_table_from_sql_template template with Ok t => dset "table" (VStr t) d | Err _ => d end
    | _ => match extract_table_from_sql_template template with Ok t => dset "table" (VStr t) d | Err _ => d end
    end in
  dset "output_format" (dget_or (VStr "jsonl") "output_format" spec) d
else if String.eqb mode "s3" then dset "encoding" (dget_or (VStr "utf-8") "encoding" spec) d
else
  let d := dset "description" (VStr template) d in
  let d := if truthy (vget "schema_scope" spec) then dset "schema_scope" (vget "schema_scope" spec) d else d in
  foldl (λ d optional, match dget optional spec with Some v => dset optional v d | None => d end) d ["output_format"; "max_steps"; "model"].

(** [_build_node_from_data_retrieval_op] *)
Definition build_node_from_data_retrieval_op (op : GOp.t) (spec : dict string val) : result RuntimeOp.t :=
if negb (bool_decide (vget "type" spec = VStr "lumid")) then Err (ValueError "DataRetrievalOp requires type: lumid")
else
mode ← retrieval_mode spec;
if negb (nonempty (LUMID_DATA_URL env)) then Err (ValueError "DataRetrievalOp requires LUMID_DATA_URL")
else if negb (nonempty (LUMID_DATA_TOKEN env)) then Err (ValueError "DataRetrievalOp requires LUMID_DATA_TOKEN")
else
params ← match get_or "params" (VList []) spec with VList l => Ok l | _ => Err (ValueError "DataRetrievalOp params must be a list") end;
template ← retrieval_template mode spec;
deps ← foldR retrieval_input [] (GOp.inputs op);
st ← foldR resolve_retrieval_param (ParamState [] deps []) params;
if Nat.ltb 1 (length (remove_dups (dvals (ps_counts st)))) then Err (ValueError "DataRetrievalOp binds row-wise params of different lengths")
else
let '(template, params) :=
  if String.eqb mode "agent" then (template, ps_resolved st) else inline_single_value_list_params template (ps_resolved st) in
let d := [("type", VStr "lumid"); ("mode", VStr mode); ("lumid_data_url", VStr (lumid_url env)); ("lumid_data_token", VStr (LUMID_DATA_TOKEN env));
  ("params", VList params)] in
let d := if String.eqb mode "agent" then d else dset "template" (VStr template) d in
let d := retrieval_fields mode template spec d in
let d := match dget "verify" spec with Some v => dset "verify" v d | None => d end in
create_runtime_op env (GOp.id op) "data_retrieval" d [] [] [] "data_retrieval" "data_retrieval" (ps_deps st) None None.
End retrieval.

(** ** The messages of an LLM op

    [_infer_structural_messages] traces the ancestors of an op's messages.  A
    traced op stands for a list of labels, each with the role it has been given
    or, for a replayed history, none. *)

Definition ROLES : list string := ["system"; "user"; "assistant"].
Inductive packed_msg := Packed (role label : string) | Bare (label : string).
Definition unwrap_msg (m : packed_msg) : string := match m with Packed _ label => label | Bare label => label end.
Definition msg_val (m : packed_msg) : val :=
  match m with
  | Packed role label => VDict [("role", VStr role); ("content", VStr label)]
  | Bare label => VDict [("content", VStr label)]
  end.

Inductive step :=
  | StTemplate (template : string) (kwargs : list (string * string))
  | StFunction (code : string) (args : list val).
Definition step_val (label : string) (s : step) : val :=
  match s with
  | StTemplate template kwargs =>
      VDict [("label", VStr label); ("template", VStr template);
        ("arguments", VList ((λ kv : string * string, VDict [("label", VStr kv.1); ("value", VStr kv.2)]) <$> kwargs))]
  | StFunction code args => VDict [("label", VStr label); ("function", VStr code); ("arguments", VList args)]
  end.

Record trace := Trace {
  t_visited : list string;
  t_upstream : list string;
  t_columns : dict string (dict string val);
  t_steps : dict string step;
  t_buffer : dict string (list packed_msg);
  t_counts : dict string nat;
}.
Definition t_visit (id : string) (t : trace) : trace :=
  Trace (add_ref (t_visited t) id) (t_upstream t) (t_columns t) (t_steps t) (t_buffer t) (t_counts t).
Definition t_reach (id : string) (t : trace) : trace :=
  Trace (t_visited t) (t_upstream t ++ [id]) (t_columns t) (t_steps t) (t_buffer t) (t_counts t).
Definition t_column (label : string) (col : dict string val) (t : trace) : trace :=
  Trace (t_visited t) (t_upstream t) (dset label col (t_columns t)) (t_steps t) (t_buffer t) (t_counts t).
Definition t_step (label : string) (s : step) (t : trace) : trace :=
  Trace (t_visited t) (t_upstream t) (t_columns t) (dset label s (t_steps t)) (t_buffer t) (t_counts t).
Definition t_keep (id : string) (msgs : list packed_msg) (t : trace) : trace :=
  Trace (t_visited t) (t_upstream t) (t_columns t) (t_steps t) (dset id msgs (t_buffer t)) (t_counts t).
Definition t_append (id : string) (msg : packed_msg) (t : trace) : trace := t_keep id (dget_or [] id (t_buffer t) ++ [msg]) t.
Definition t_count (id : string) (n : nat) (t : trace) : trace :=
  Trace (t_visited t) (t_upstream t) (t_columns t) (t_steps t) (t_buffer t) (dset id n (t_counts t)).
(** The column of an op unless it has one *)
Definition t_column_once (id : string) (col : dict string val) (t : trace) : trace :=
  if dmem id (t_columns t) then t else t_column id col t.

Definition data_column (items : list string) : dict string val := [("data", VDict (list_spec items))].
Definition node_column (node path : string) : dict string val := [("node", VStr node); ("path", VStr path)].

Record py_env := PyEnv {
  py_str : val → string;
  py_format : string → dict string string → result string;
  json_loads : string → option val;
  json_dumps : val → string;
  call_fn : string → list string → result string;
  inline_ok : string → string → bool;
  set_order : list string → list string;
}.

Section messages.
Context (py : py_env) (limit : nat) (inputs : inputs_dict) (graph : ops_dict) (flattened : list string).
Context (target : string) (api_mode : bool).

(** [Roles(role)] *)
Definition as_role (role : string) : result string := if bool_decide (role ∈ ROLES) then Ok role else Err (ValueError "is not a valid Roles").

(** [_api_prior_prompt] *)
Definition api_prior_prompt (op : GOp.t) : result (option (list string)) :=
mid ← GOp.first_input op; m ← deref graph mid;
match match GOp.cls m with GOp.MessageOp messages => messages | _ => [] end with
| [(role, content)] =>
    if negb (String.eqb role "user") then Err (ValueError "return_history prior prompt must be a single user message")
    else match content with
         | Text s => Ok (Some [s])
         | OpRef id =>
             c ← deref graph id;
             match GOp.cls c with
             | GOp.InputOp name => match dget name inputs with Some (v :: vs) => Ok (Some (v :: vs)) | _ => Err (ValueError "return_history references InputOp with no values supplied") end
             | GOp.DataOp data => Ok (Some data)
             | _ => Ok None
             end
         end
| _ => Err (ValueError "return_history prior prompt must be a single user message")
end.

Definition returns_history (op : GOp.t) : bool := match GOp.chat op with Some c => Chat.return_history c | None => false end.

(** The LLM branch of the trace *)
Definition check_rows (op : GOp.t) (t : trace) : result trace :=
if is_api_task op then Ok t
else
  n ← static_output_row_count inputs graph limit op;
  match n with
  | Some n =>
      if Nat.ltb 1 n then
        if (api_mode || negb (emits_one_item_per_row op))%bool then Err (ValueError "a message column binds row-wise only from a plain local LLMChatOp")
        else Ok (t_count (GOp.id op) n t)
      else Ok t
  | None => Ok t
  end.
Definition history_column (op : GOp.t) (t : trace) : result trace :=
if returns_history op then
  if is_api_task op then
    prior ← api_prior_prompt op;
    items ← ok_or (ValueError "the history cannot be reconstructed") prior;
    Ok (t_column (GOp.id op +:+ "_context") (data_column items) t)
  else Ok (t_column (GOp.id op +:+ "_context") (node_column (GOp.id op) "items.metadata.prompt") t)
else Ok t.
Definition trace_llm (op : GOp.t) (t : trace) : result trace :=
let id := GOp.id op in
_ ← assert (negb (String.eqb id target));
t ← (if bool_decide (id ∈ t_upstream t) then Ok t
     else
       t ← check_rows op (t_reach id t);
       t ← history_column op t;
       Ok (t_column (id +:+ "_output") (node_column id (upstream_output_path flattened op)) t));
Ok (t_keep id ((if returns_history op then [Bare (id +:+ "_context")] else []) ++ [Packed "assistant" (id +:+ "_output")]) t).

(** The value of a label that is known before the run *)
Fixpoint resolve_literal_label (fuel : nat) (t : trace) (label : string) : result (option string) :=
match fuel with
| O => Err RecursionError
| S fuel =>
    match dget label (t_columns t) with
    | Some col =>
        Ok match vget "data" col with
           | VDict data =>
               if bool_decide (vget "type" data = VStr "list") then match vget "items" data with VList [item] => Some (str_of (py_str py) item) | _ => None end else None
           | _ => None
           end
    | None =>
        match dget label (t_steps t) with
        | None => Ok (Some label)
        | Some (StFunction _ _) => Ok None
        | Some (StTemplate template kwargs) =>
            values ← foldR (λ (acc : option (dict string string)) (kv : string * string),
                       match acc with
                       | None => Ok None
                       | Some d => v ← resolve_literal_label fuel t kv.2; Ok (fmap (M:=option) (λ v, dset kv.1 v d) v)
                       end) (Some []) kwargs;
            match values with
            | None => Ok None
            | Some d => text ← py_format py template d; Ok (Some text)
            end
        end
    end
end.

(** The arguments of a lambda that are known, while all of them are *)
Definition literal_arg (t : trace) (labels : dict string (list packed_msg)) (acc : option (list string)) (input : string) : result (option (list string)) :=
match acc with
| None => Ok None
| Some args =>
    match dget_or [] input labels with
    | [m] => v ← resolve_literal_label limit t (unwrap_msg m); Ok (fmap (M:=option) (λ v, args ++ [v]) v)
    | _ => Ok None
    end
end.

Definition function_arg (labels : dict string (list packed_msg)) (input : string) : result val :=
match dget_or [] input labels with
| [] => Err (IndexError "list index out of range")
| [m] => Ok (VStr (unwrap_msg m))
| msgs => Ok (VList (msg_val <$> msgs))
end.

Definition finish_lambda (op : GOp.t) (l : Lambda.t) (labels : dict string (list packed_msg)) (t : trace) : result trace :=
let label := "lambda_" +:+ GOp.id op in
args ← foldR (literal_arg t labels) (Some []) (GOp.inputs op);
match (if decide (Lambda.fn l = LocalFunction) then args else None) with
| Some args => v ← call_fn py (GOp.id op) args; Ok (t_keep (GOp.id op) [Packed "user" label] (t_column label (data_column [v]) t))
| None =>
    if api_mode then Err (ValueError "a Lambda message transform is not supported in API mode")
    else
      args ← mapR (function_arg labels) (GOp.inputs op);
      if (bool_decide (Lambda.fn l = SubmittedFunction) && negb (inline_ok py (Lambda.code l) (Lambda.fn_name l)))%bool
      then Err (ValueError "Invalid LambdaOp")
      else Ok (t_keep (GOp.id op) [Packed "user" label] (t_step label (StFunction (Lambda.code l) args) t))
end.

(** One keyword of a format op: a field of an upstream or a whole message *)
Definition format_kwarg (op : GOp.t) (paths : dict string string) (labels : dict string (list packed_msg))
  (st : trace * list (string * string)) (kv : string * string) : result (trace * list (string * string)) :=
let '(k, v) := kv in
let path := dget_or "" k paths in
if nonempty path then
  let label := "ref_" +:+ GOp.id op +:+ "_" +:+ k in
  let upstream := dget v graph in
  col ← match GOp.cls <$> upstream with
        | Some (GOp.InputOp name) =>
            values ← ok_or (ValueError "no values were supplied for that input") (dget name inputs);
            items ← project_input_field (json_loads py) (json_dumps py) values path;
            Ok [("label", VStr label); ("data", VDict (list_spec items))]
        | _ => node_ref_column inputs flattened label v path upstream
        end;
  Ok (t_column label col st.1, st.2 ++ [(k, label)])
else
  msgs ← dindex (KeyError v) v labels;
  m ← ok_or (IndexError "list index out of range") (head msgs);
  Ok (st.1, st.2 ++ [(k, unwrap_msg m)]).

Definition field_refs (kwargs paths : dict string string) : result (list string) := mapR (λ k, dindex (KeyError k) k kwargs) (dkeys paths).
Definition whole_refs (kwargs paths : dict string string) : list string := (filter (λ kv : string * string, kv.1 ∉ dkeys paths) kwargs).*2.

(** A message whose content is an op: the traced messages with their roles *)
Definition message_msg (id role : string) (preserve_roles : bool) (t : trace) (m : packed_msg) : result trace :=
match m with
| Bare label => r ← as_role role; Ok (t_append id (Packed r label) t)
| Packed r label =>
    if preserve_roles then Ok (t_append id m t)
    else _ ← assert (String.eqb r "user"); r' ← as_role role; Ok (t_append id (Packed r' label) t)
end.

Definition trace_inputs (rec : string → trace → result (trace * list packed_msg)) (ids : list string) (t : trace) :
  result (trace * dict string (list packed_msg)) :=
foldR (λ (st : trace * dict string (list packed_msg)) id, r ← rec id st.1; Ok (r.1, dset id r.2 st.2)) (t, []) ids.

Definition trace_message (rec : string → trace → result (trace * list packed_msg)) (id : string) (t : trace) (rc : string * content) : result trace :=
match rc.2 with
| Text s => r ← as_role rc.1; Ok (t_append id (Packed r s) t)
| OpRef cid =>
    r ← rec cid t;
    c ← deref graph cid;
    foldR (message_msg id rc.1 (returns_history c)) r.1 r.2
end.

Definition trace_format (rec : string → trace → result (trace * list packed_msg)) (op : GOp.t) (template : string) (kwargs paths : dict string string) (t : trace) : result trace :=
_ ← (match kwargs with [] => Ok () | _ => assert (Nat.leb 1 (length (GOp.inputs op))) end);
fields ← field_refs kwargs paths;
let skip := filter (.∉ whole_refs kwargs paths) fields in
r ← trace_inputs rec (filter (.∉ skip) (GOp.inputs op)) t;
let t := foldl (λ t id, match dget id graph with Some up => if GOp.is_input up then t_visit id t else t | None => t end) r.1 fields in
_ ← assert (forallb (λ kv : string * list packed_msg, Nat.eqb (length kv.2) 1) r.2);
st ← foldR (format_kwarg op paths r.2) (t, []) kwargs;
let label := "format_" +:+ GOp.id op in
Ok (t_keep (GOp.id op) [Packed "user" label] (t_step label (StTemplate template st.2) st.1)).

(** [_trace_ancestors] *)
Fixpoint trace_ancestors (fuel : nat) (id : string) (t : trace) : result (trace * list packed_msg) :=
match fuel with
| O => Err RecursionError
| S fuel =>
    op ← deref graph id;
    match dget id (t_buffer t) with
    | Some msgs => Ok (t, msgs)
    | None =>
        let t := t_visit id t in
        let user col t := t_keep id [Packed "user" id] (t_column_once id col t) in
        t ← match GOp.cls op with
            | GOp.LLMChatOp _ _ | GOp.LLMVisionOp _ _ _ _ | GOp.ImageGenerationOp _ | GOp.EmbeddingOp _ => trace_llm op t
            | GOp.InputOp name =>
                if dmem id (t_columns t) then Ok (t_keep id [Packed "user" id] t)
                else
                  values ← dindex (KeyError name) name inputs;
                  let t := user (data_column values) t in
                  Ok (if Nat.ltb 1 (length values) then t_count id (length values) t else t)
            | GOp.DataOp data => Ok (user (data_column data) t)
            | GOp.DataRetrievalOp spec =>
                if dmem id (t_columns t) then Ok (t_keep id [Packed "user" id] t)
                else path ← retrieval_items_path spec; Ok (user (node_column id path) t)
            | GOp.MessageOp messages => foldR (trace_message (trace_ancestors fuel) id) (t_keep id [] t) messages
            | GOp.FormatOp template kwargs paths => trace_format (trace_ancestors fuel) op template kwargs paths t
            | GOp.LambdaOp l =>
                match Lambda.image l with
                | Some _ => Err (ValueError "consumes image-bearing LambdaOp through its message chain")
                | None =>
                    if Lambda.takes_whole_columns l then Err (ValueError "consumes list-mode LambdaOp through its message chain")
                    else r ← trace_inputs (trace_ancestors fuel) (GOp.inputs op) t; finish_lambda op l r.2 r.1
                end
            | GOp.OutputOp _ _ => Err (RuntimeError "NotImplementedError")
            end;
        Ok (t, dget_or [] id (t_buffer t))
    end
end.

(** [_infer_structural_messages]: what it has visited, the upstream LLMs and
  the template *)
Definition infer_structural_messages (visited : list string) : result (list string * list string * dict string val) :=
op ← deref graph target;
_ ← assert (GOp.is_llm op);
first ← GOp.first_input op;
r ← trace_ancestors limit first (Trace visited [] [] [] [] []);
let t := r.1 in
if Nat.ltb 1 (length (remove_dups (dvals (t_counts t)))) then Err (ValueError "LLMOp binds message columns of different row counts")
else
  let format := [("steps", VList ((λ kv : string * step, step_val kv.1 kv.2) <$> t_steps t)); ("messages", VList (msg_val <$> r.2))] in
  Ok (t_visited t, set_order py (t_upstream t),
      [("name", VStr "format");
       ("columns", VList ((λ kv : string * dict string val, VDict (dupdate [("label", VStr kv.1)] kv.2)) <$> t_columns t));
       ("options", VDict [("format", VDict format)])]).
End messages.
