(* ===== verification/GraphBuilder.v ===== *)
(** * The runtime graph builder (runtime/runtime_graph.py)

    [GraphNodes] compiles the parts; this file compiles LLM ops (local, API and
    vision) and builds the whole graph: [build] scans the ops, compiles the
    retrievals, the list lambdas and the LLM ops in the order of the graph, then
    the row lambdas that have to run on their own, checks that nothing refers
    to a lambda that was inlined and that every op was visited, orders the nodes
    and prefixes their ids.  The data-profile override is not modelled. *)

From Stdlib Require Import Ascii.
From S2P Require Import Prelude PyFloat PyDict PyValue PyString RuntimeGraph Dedupe PythonStep Demux Coalesce FlowmeshSpec YamlParser GraphNodes.

(** ** Placeholders of a template

    [re.finditer(r"\{([A-Za-z_][A-Za-z0-9_]*)\}", template)]: the names *)
Definition match_name (l : list ascii) : option (list ascii * list ascii) :=
  match l with
  | "{"%char :: c :: rest =>
      if (is_digit c || negb (is_word c))%bool then None
      else let '(name, after) := span is_word rest in
           match after with "}"%char :: after => Some (c :: name, after) | _ => None end
  | _ => None
  end.
Fixpoint placeholder_names (fuel : nat) (l : list ascii) : list string :=
  match fuel with
  | O => []
  | S fuel =>
      match match_name l with
      | Some (name, after) => of_chars name :: placeholder_names fuel after
      | None => match l with [] => [] | _ :: l => placeholder_names fuel l end
      end
  end.

Section llm.
Context (env : builder_env) (py : py_env) (urlsplit : string → result (string * option string * option Z)).
Context (limit : nat) (inputs : inputs_dict) (graph : ops_dict) (flattened : list string).

Local Abbreviation node_ref_column := (node_ref_column inputs flattened).
Local Abbreviation create := (create_runtime_op env).
Local Abbreviation rows_or_one := (rows_or_one inputs graph limit).
Local Abbreviation row_condition := (row_condition inputs graph limit).

(** ** Embeddings and images *)

(** [_validate_embedding_texts] *)
Definition validate_embedding_texts (items : list string) : result () :=
if forallb (λ s, nonempty (strip s)) items then Ok () else Err (ValueError "text input must be a non-empty string").

(** What a node reads of an upstream op *)
Definition content_path (op : GOp.t) : result string :=
match GOp.cls op with GOp.DataRetrievalOp spec => retrieval_items_path spec | _ => Ok (upstream_output_path flattened op) end.
Definition content_spec (op : GOp.t) : result (dict string val * list string) :=
_ ← guard_single_row_node_ref inputs graph limit op;
path ← content_path op;
Ok ([("type", VStr "list"); ("node", VStr (GOp.id op)); ("path", VStr path)], [GOp.id op]).

(** [_build_node_from_embedding_op] *)
Definition build_node_from_embedding_op (op : GOp.t) (config : GenerationConfig.t) (visited : list string) : result (list string * RuntimeOp.t) :=
cid ← GOp.first_input op; content ← deref graph cid;
spec ← match GOp.cls content with
       | GOp.InputOp name =>
           match dget name inputs with
           | Some (v :: vs) => _ ← validate_embedding_texts (v :: vs); Ok (list_spec (v :: vs), [])
           | _ => Err (ValueError "content references InputOp with no values supplied")
           end
       | GOp.DataOp [] => Err (ValueError "EmbeddingOp has empty text input")
       | GOp.DataOp data => _ ← validate_embedding_texts data; Ok (list_spec data, [])
       | _ => content_spec content
       end;
model_spec ← build_model_spec env config "vllm" [("convert", VStr "embed")];
node ← create (GOp.id op) "embedding" spec.1 model_spec [] [] "vllm" (GenerationConfig.model config) spec.2
         (Some (build_output_spec env ["results.json"; "embeddings.safetensors"])) None;
Ok (add_ref (add_ref visited (GOp.id op)) cid, node).

(** The op an image is made of: the one a bare [{ref0}] format wraps *)
Definition image_content (content : GOp.t) : result GOp.t :=
match GOp.cls content, GOp.inputs content with
| GOp.FormatOp template _ _, [inner] => if String.eqb template "{ref0}" then deref graph inner else Ok content
| _, _ => Ok content
end.

Definition build_node_from_image_op (op : GOp.t) (config : GenerationConfig.t) (visited : list string) : result (list string * RuntimeOp.t) :=
cid ← GOp.first_input op;
inference ← GenerationConfig.inference_spec config;
let inference_spec := dupdate [("num_inference_steps", VInt 8); ("guidance_scale", VFloat (of_Z 1)); ("height", VInt 1024); ("width", VInt 1024)] inference in
content ← deref graph cid;
content ← image_content content;
spec ← match GOp.cls content with
       | GOp.InputOp name => values ← ok_or (ValueError "content references InputOp with no values supplied") (dget name inputs); Ok (list_spec values, [])
       | _ => content_spec content
       end;
model_spec ← build_model_spec env config "omni" [];
node ← create (GOp.id op) "omni_text2image" spec.1 model_spec inference_spec [] "omni" (GenerationConfig.model config) spec.2
         (Some (build_output_spec env ["results.json"; "images/"])) None;
Ok (add_ref (add_ref visited (GOp.id op)) cid, node).

(** ** Row-wise and aggregate chats *)

(** One column of [rowwise_columns] *)
Definition rowwise_column (col : dict string val) : result (dict string val * option string) :=
match vget "label" col, vget "data" col, vget "node" col with
| VStr label, VDict data, _ => Ok ([("label", VStr label); ("data", VDict data)], None)
| VStr label, _, VStr node_ref =>
    let upstream := dget node_ref graph in
    let from_input := match upstream with Some up => GOp.is_input up | None => false end in
    if (is_none (vget "path" col) && negb from_input)%bool then Err (ValueError "only InputOp refs may omit the path")
    else
      c ← node_ref_column label node_ref (match vget "path" col with VStr p => p | _ => "" end) upstream;
      Ok (c, if from_input then None else Some node_ref)
| _, _, _ => Err (ValueError "Column has neither data nor node+path")
end.

Definition add_dep (deps : list string) (dep : option string) : list string := match dep with Some d => add_ref deps d | None => deps end.

Definition rowwise_columns (c : Chat.t) (upstream : list string) : result (list (dict string val) * list string) :=
st ← foldR (λ (st : list (dict string val) * list string) col, r ← rowwise_column col; Ok (st.1 ++ [r.1], add_dep st.2 r.2)) ([], upstream) (Chat.rowwise_columns c);
match st.1 with [] => Err (ValueError "empty rowwise_columns") | _ => Ok st end.

Definition message_val (role content : string) : val := VDict [("role", VStr role); ("content", VStr content)].
Definition template_messages (c : Chat.t) (template : string) : list val :=
(message_val "system" <$> Chat.system_messages c) ++ [message_val "user" template].

(** [_rowwise_data_spec] *)
Definition rowwise_data_spec (c : Chat.t) (upstream : list string) : result (dict string val * list string) :=
template ← ok_or (ValueError "no rowwise_template") (Chat.rowwise_template c);
st ← rowwise_columns c upstream;
Ok ([("type", VStr "dataframe"); ("columns", VList (VDict <$> st.1)); ("messages", VList (template_messages c template))], st.2).

(** One column of [aggregate_table]; an incomplete one is passed over *)
Definition aggregate_column (st : list val * list string) (col : dict string val) : result (list val * list string) :=
match vget "label" col, vget "node" col, vget "path" col with
| VStr label, VStr node_ref, VStr path =>
    let upstream := dget node_ref graph in
    c ← node_ref_column label node_ref path upstream;
    Ok (st.1 ++ [VDict c], match upstream with Some up => if GOp.is_input up then st.2 else add_ref st.2 node_ref | None => add_ref st.2 node_ref end)
| _, _, _ => Ok st
end.

Definition labels_of (columns : list val) : list string :=
omap (λ col, match col with VDict d => as_str (vget "label" d) | _ => None end) columns.

(** A step of the messages, with the columns its template names as arguments *)
Definition aggregate_step (labels : list string) (step : val) : result val :=
match step with
| VDict d =>
    arguments ← match dget_or (VList []) "arguments" d with VList l => Ok l | _ => Err (ValueError "step arguments must be a list") end;
    let missing := match vget "template" d with
      | VStr template => filter (λ l, l ∉ labels_of arguments ∧ l ∈ labels) (sorted_strings (placeholder_names (String.length template) (chars template)))
      | _ => []
      end in
    Ok (VDict (dset "arguments" (VList (arguments ++ ((λ l, VDict [("label", VStr l); ("value", VStr l)]) <$> missing))) d))
| _ => Err (ValueError "format step must be an object")
end.

Definition list_field (key : string) (d : dict string val) : result (list val) :=
match dget_or (VList []) key d with VList l => Ok l | _ => Err (ValueError "must be a list") end.

(** [_aggregate_data_spec] *)
Definition aggregate_data_spec (c : Chat.t) (template_spec : dict string val) (upstream : list string) : result (dict string val * list string) :=
base_columns ← list_field "columns" template_spec;
options ← match dget_or (VDict []) "options" template_spec with VDict d => Ok d | _ => Err (AttributeError "get") end;
format ← match dget_or (VDict []) "format" options with VDict d => Ok d | _ => Err (ValueError "format options must be a dict") end;
base_messages ← list_field "messages" format;
base_steps ← list_field "steps" format;
st ← foldR aggregate_column ([], upstream) (Chat.aggregate_table c);
deps ← collect_graph_template_dependencies template_spec;
let columns := base_columns ++ [VDict [("label", VStr "df"); ("data", VDict [("type", VStr "dataframe"); ("columns", VList st.1)])]] in
steps ← mapR (aggregate_step (labels_of columns)) base_steps;
let payload := [("messages", VList base_messages)] ++ (match steps with [] => [] | _ => [("steps", VList steps)] end) in
Ok ([("type", VStr "graph_template");
     ("template", VDict [("name", VStr "format"); ("columns", VList columns); ("options", VDict [("format", VDict payload)])])],
    foldl add_ref st.2 deps).

(** The data spec of a chat, by its shape *)
Definition graph_template (template : dict string val) : dict string val := [("type", VStr "graph_template"); ("template", VDict template)].
Definition chat_data_spec (op : GOp.t) (template_spec : dict string val) (upstream : list string) : result (dict string val * list string) :=
let plain :=
  deps ← collect_graph_template_dependencies template_spec;
  Ok (graph_template template_spec, foldl add_ref [] (upstream ++ deps)) in
match GOp.chat op with
| Some c =>
    if Chat.rowwise c then rowwise_data_spec c upstream
    else match Chat.aggregate_table c with [] => plain | _ => aggregate_data_spec c template_spec upstream end
| None => plain
end.

Definition chat_condition (op : GOp.t) : option (dict string string) := GOp.chat op ≫= Chat.condition.

(** [_build_node_from_llm_op] for a chat *)
Definition build_node_from_chat_op (op : GOp.t) (config : GenerationConfig.t) (c : Chat.t) (visited : list string) : result (list string * RuntimeOp.t) :=
r ← infer_structural_messages py limit inputs graph flattened (GOp.id op) false visited;
let '(visited, upstream, template_spec) := r in
inference ← GenerationConfig.inference_spec config;
let inference_spec := if truthy (Chat.structural_outputs c) then dset "templates" (Chat.structural_outputs c) inference else inference in
spec ← chat_data_spec op template_spec upstream;
model_spec ← build_model_spec env config "vllm" [];
n ← rows_or_one op;
condition ← row_condition (Chat.condition c) n;
node ← create (GOp.id op) "inference" spec.1 model_spec inference_spec [] "vllm" (GenerationConfig.model config) spec.2 None condition;
Ok (visited, node).

(** ** API tasks *)

(** [_api_request_headers] *)
Definition api_request_headers (api : ApiConfig.t) (url : string) : result (dict string val) :=
let headers := [("Content-Type", VStr "application/json"); ("Authorization", VStr API_CREDENTIAL_PLACEHOLDER)] in
is_api_origin_trusted urlsplit (be_config env) url ≫= λ trusted : bool,
if trusted then
  token ← resolve_api_credential urlsplit (be_config env) url;
  match token with Some t => if nonempty t then Ok headers else Err (ValueError "no PAT is configured") | None => Err (ValueError "no PAT is configured") end
else match ApiConfig.authorization api with
     | Some a => if nonempty a then Ok headers else Err (ValueError "API mode targets untrusted endpoint")
     | None => Err (ValueError "API mode targets untrusted endpoint")
     end.

Definition response_format (structural_outputs : val) : result (dict string val) :=
match structural_outputs with
| VNone => Ok []
| VDict schema =>
    Ok [("response_format", VDict [("type", VStr "json_schema");
          ("json_schema", VDict [("name", VStr "structural_outputs"); ("schema", VDict schema); ("strict", VBool true)])])]
| _ => Err (ValueError "api mode takes structural_outputs as a JSON-schema object")
end.

(** [_build_api_task] *)
Definition build_api_task (op : GOp.t) (config : GenerationConfig.t) (api : ApiConfig.t) (data_spec : dict string val) (dependencies : list string) : result RuntimeOp.t :=
let model := GenerationConfig.resolved_model config in
let url := match ApiConfig.url api with Some u => if nonempty u then u else LUMILAKE_API_DEFAULT_URL (be_config env) | None => LUMILAKE_API_DEFAULT_URL (be_config env) end in
headers ← api_request_headers api url;
inference ← GenerationConfig.inference_spec config;
format ← match GOp.chat op with Some c => response_format (Chat.structural_outputs c) | None => Ok [] end;
let body := dupdate (dupdate [("model", VStr model); ("messages", VStr "{{prompt}}")] inference) format in
let api_spec := [("method", VStr "POST"); ("url", VStr url); ("headers", VDict headers); ("json", VDict body);
  ("response", VDict [("parse_json", VBool true); ("return_body", VBool true); ("raise_for_status", VBool true)])] in
let api_spec := set_optional "retries" (ApiConfig.retries api) (set_optional "timeout_sec" (ApiConfig.timeout_sec api) api_spec) in
n ← rows_or_one op;
condition ← row_condition (chat_condition op) n;
create (GOp.id op) "api" data_spec [] [] api_spec "api" model dependencies None condition.

(** [_build_api_llm_op] after the trace *)
Definition build_api_llm_op (op : GOp.t) (config : GenerationConfig.t) (api : ApiConfig.t) (visited : list string) : result (list string * RuntimeOp.t) :=
r ← infer_structural_messages py limit inputs graph flattened (GOp.id op) true visited;
let '(visited, upstream, template_spec) := r in
spec ← chat_data_spec op template_spec upstream;
node ← build_api_task op config api spec.1 spec.2;
Ok (visited, node).

(** ** Vision ops *)

(** [_resolve_vlm_image_source]: the embedding's data spec, the batch column
  and the dependencies *)
Definition image_column (source path : string) : dict string val * dict string val * list string :=
([("type", VStr "list"); ("node", VStr source); ("path", VStr path)],
 [("label", VStr (source +:+ "_batch")); ("node", VStr source); ("path", VStr path)], [source]).
Definition resolve_vlm_image_source (image_source image_path : string) : result (dict string val * dict string val * list string) :=
source ← ok_or (ValueError "references unknown image source") (dget image_source graph);
match GOp.cls source with
| GOp.InputOp name =>
    items ← ok_or (ValueError "Missing inputs for image source") (dget name inputs);
    Ok (list_spec items, [("label", VStr (GOp.id source +:+ "_batch")); ("data", VDict (list_spec (map (λ _, "") items)))], [])
| GOp.ImageGenerationOp _ => Ok (image_column image_source (if String.eqb image_path "images" then "items.image" else image_path))
| GOp.DataRetrievalOp spec =>
    path ← (if String.eqb image_path "images" then retrieval_items_path spec else Ok image_path); Ok (image_column image_source path)
| _ => Err (ValueError "image source must be an InputOp, ImageGenerationOp, or DataRetrievalOp")
end.

Definition image_embedding (node : string) : val := VDict [("node", VStr node); ("path", VStr "embedding_file")].

(** The single inference over one embedding *)
Definition vlm_inference (op : GOp.t) (config : GenerationConfig.t) (template_spec batch_column : dict string val) (upstream : list string) (embedding_node : string) : result RuntimeOp.t :=
inference ← GenerationConfig.inference_spec config;
columns ← iterable (vget "columns" template_spec);
let template := dset "columns" (VList (columns ++ [VDict batch_column])) template_spec in
deps ← collect_graph_template_dependencies template;
model_spec ← build_model_spec env config "vllm" (default_vllm_backend_config env true);
create (GOp.id op) "inference" (dset "image_embedding" (image_embedding embedding_node) (graph_template template)) model_spec inference [] "vllm"
  (GenerationConfig.model config) (foldl add_ref [] (upstream ++ deps ++ [embedding_node])) None None.

(** *** The flattened VLM: one prompt per image, regrouped per row *)

(** [path[len("items."):]] of a path that starts with it *)
Definition items_subpath (path : string) : result string :=
if py_starts_with "items." path then Ok (py_drop 6 path) else Err (ValueError "only 'items.*' paths are supported").

Definition grouped_entry (node path label : string) (grouped : bool) : val :=
VDict [("kind", VStr "stage"); ("node", VStr node); ("path", VStr path); ("label", VStr label); ("grouped", VBool grouped)].

(** A column of the flatten step *)
Definition flatten_entry (col : dict string val) : result val :=
match dget "data" col with
| Some data =>
    items ← vindex "items" data; label ← dindex (KeyError "label") "label" col;
    Ok (VDict [("kind", VStr "literal"); ("values", items); ("label", label); ("grouped", VBool false)])
| None =>
    node ← (v ← dindex (KeyError "node") "node" col; ok_or (TypeError "unhashable type") (as_str v));
    up ← ok_or (ValueError "reads a node which is not reachable in the graph") (dget node graph);
    if GOp.is_list_lambda up then Err (ValueError "a flattened per-row VLM cannot read a whole-column Lambda")
    else
      path ← (v ← dindex (KeyError "path") "path" col; ok_or (AttributeError "startswith") (as_str v));
      label ← (v ← dindex (KeyError "label") "label" col; ok_or (TypeError "label") (as_str v));
      sub ← items_subpath path;
      Ok (grouped_entry node sub label (GOp.is_retrieval up))
end.

Definition stage_node (entry : val) : option string :=
match entry with VDict d => if bool_decide (vget "kind" d = VStr "stage") then as_str (vget "node" d) else None | _ => None end.

Definition vlm_flattened (op : GOp.t) (config : GenerationConfig.t) (c : Chat.t) (columns : list (dict string val))
  (embedding_spec batch_column : dict string val) (embedding_node : RuntimeOp.t) : result (list RuntimeOp.t) :=
let id := GOp.id op in
inference ← GenerationConfig.inference_spec config;
image_path ← (v ← dindex (KeyError "path") "path" embedding_spec; ok_or (AttributeError "startswith") (as_str v));
image_sub ← items_subpath image_path;
image_node ← (v ← dindex (KeyError "node") "node" embedding_spec; ok_or (TypeError "node") (as_str v));
let batch_label := vget "label" batch_column in
let image_entry (label : val) :=
  VDict [("kind", VStr "stage"); ("node", VStr image_node); ("path", VStr image_sub); ("label", label); ("grouped", VBool true)] in
entries ← mapR flatten_entry columns;
let plan := image_entry batch_label :: entries in
let flatten_id := id +:+ "_flatten" in
let template := default "" (Chat.rowwise_template c) in
flatten ← python_node env flatten_id
  [("mode", VStr "flatten"); ("plan", VList plan); ("template", VStr template); ("timeout_s", VInt DEFAULT_TIMEOUT_SECONDS)]
  (foldl add_ref [] (omap stage_node plan));
let infer_id := id +:+ "_infer" in
let embedding_id := RuntimeOp.node_id embedding_node in
let messages := template_messages c template ++ [message_val "user" "{prompt}"] in
let column label := VDict [("label", label); ("node", VStr flatten_id); ("path", VStr "value.items.output")] in
model_spec ← build_model_spec env config "vllm" (default_vllm_backend_config env true);
infer ← create infer_id "inference"
  (dset "image_embedding" (image_embedding embedding_id)
     (graph_template [("name", VStr "format"); ("columns", VList [column (VStr "prompt"); column batch_label]);
        ("options", VDict [("format", VDict [("messages", VList messages)])])]))
  model_spec inference [] "vllm" (GenerationConfig.model config) [flatten_id; embedding_id] None None;
regroup ← python_node env id
  [("mode", VStr "regroup");
   ("plan", VList [VDict [("kind", VStr "stage"); ("node", VStr infer_id); ("label", VStr "outputs")];
      VDict [("kind", VStr "stage"); ("node", VStr flatten_id); ("path", VStr "row"); ("label", VStr "rows")];
      image_entry (VStr "groups")]);
   ("timeout_s", VInt DEFAULT_TIMEOUT_SECONDS)]
  (foldl add_ref [] [infer_id; flatten_id; image_node]);
Ok [flatten; embedding_node; infer; regroup].

(** [_build_vlm_nodes_from_image_op] *)
Definition build_vlm_nodes_from_image_op (op : GOp.t) (config : GenerationConfig.t) (c : Chat.t) (image_source image_path : string) (visited : list string) :
  result (list string * list RuntimeOp.t) :=
r ← infer_structural_messages py limit inputs graph flattened (GOp.id op) false visited;
let '(visited, upstream, template_spec) := r in
columns ← (if Chat.rowwise c then r ← rowwise_columns c []; Ok r.1 else Ok []);
let template_spec := if Chat.rowwise c then
    [("name", VStr "format"); ("columns", VList (VDict <$> columns));
     ("options", VDict [("format", VDict [("messages", VList (template_messages c (default "" (Chat.rowwise_template c))))])])]
  else template_spec in
let visited := add_ref visited image_source in
r ← resolve_vlm_image_source image_source image_path;
let '(embedding_spec, batch_column, source_deps) := r in
let embedding_id := GOp.id op +:+ "_embedding" in
model_spec ← build_model_spec env config "transformers" [];
embedding ← create embedding_id "embedding" embedding_spec model_spec [] [] "transformers" (GenerationConfig.model config) source_deps
              (Some (build_output_spec env ["results.json"; "visual_embeddings.pt"])) None;
nodes ← (if bool_decide (GOp.id op ∈ flattened) then vlm_flattened op config c columns embedding_spec batch_column embedding
         else node ← vlm_inference op config template_spec batch_column upstream embedding_id; Ok [embedding; node]);
Ok (visited, nodes).
End llm.

(** ** Node prefixes *)

Definition is_prefix_char (c : ascii) : bool := (is_alnum c || Ascii.eqb c "_" || Ascii.eqb c "-")%bool.
(** [re.sub(r"[^A-Za-z0-9_-]+", "_", prefix)] *)
Fixpoint sanitize_chars (in_run : bool) (l : list ascii) : list ascii :=
  match l with
  | [] => []
  | c :: l =>
      if is_prefix_char c then c :: sanitize_chars false l
      else if in_run then sanitize_chars true l else "_"%char :: sanitize_chars true l
  end.
Definition sanitize_node_prefix (prefix : string) : string :=
  match strip_underscores (sanitize_chars false (chars prefix)) with [] => "graph" | l => of_chars l end.
Definition make_node_prefix (sha256_hex : string → string) (name : string) : string :=
  sanitize_node_prefix name +:+ "_" +:+ String.substring 0 8 (sha256_hex name).

(** ** The builder's state *)

Record bstate := BState {
  b_nodes : dict string RuntimeOp.t;
  b_order : list string;
  b_outputs : dict string string;
  b_paths : dict string string;
  b_dsl : dict string (list string);
  b_visited : list string;
}.
Definition b_visit (ids : list string) (st : bstate) : bstate :=
  BState (b_nodes st) (b_order st) (b_outputs st) (b_paths st) (b_dsl st) (foldl add_ref (b_visited st) ids).
Definition b_set_visited (visited : list string) (st : bstate) : bstate :=
  BState (b_nodes st) (b_order st) (b_outputs st) (b_paths st) (b_dsl st) visited.
(** [nodes[node_id] = node; node_order.append(node_id)] *)
Definition b_add (node : RuntimeOp.t) (st : bstate) : bstate :=
  BState (dset (RuntimeOp.node_id node) node (b_nodes st)) (b_order st ++ [RuntimeOp.node_id node]) (b_outputs st) (b_paths st) (b_dsl st) (b_visited st).
Definition b_add_new (st : bstate) (node : RuntimeOp.t) : bstate := if dmem (RuntimeOp.node_id node) (b_nodes st) then st else b_add node st.
Definition b_map (op_id : string) (runtime_ids : list string) (st : bstate) : bstate :=
  BState (b_nodes st) (b_order st) (b_outputs st) (b_paths st) (dset op_id runtime_ids (b_dsl st)) (b_visited st).
Definition b_output (node name : string) (st : bstate) : bstate :=
  BState (b_nodes st) (b_order st) (dset node name (b_outputs st)) (b_paths st) (b_dsl st) (b_visited st).
Definition b_path (node path : string) (st : bstate) : bstate :=
  BState (b_nodes st) (b_order st) (b_outputs st) (dset node path (b_paths st)) (b_dsl st) (b_visited st).

(** The outputs of each source *)
Abbreviation sources := (dict string (list (string * option string))).

Section build.
Context (env : builder_env) (py : py_env) (urlsplit : string → result (string * option string * option Z)) (sha256_hex : string → string).
Context (limit : nat) (inputs : inputs_dict) (graph input_ops : ops_dict).

(** [_flattened_vlm_ids] *)
Definition flattened_vlm_ids : list string :=
(filter (λ kv : string * GOp.t,
   match GOp.cls kv.2 with
   | GOp.LLMVisionOp _ c source _ => (Chat.rowwise c && match dget source graph with Some s => GOp.is_retrieval s | None => false end)%bool
   | _ => false
   end = true) graph).*1.

(** The scan over the ops *)
Definition compiled_early (op : GOp.t) : bool := (GOp.is_llm op || GOp.is_retrieval op || GOp.is_list_lambda op)%bool.
Definition scan_op (st : list string * sources) (kv : string * GOp.t) : result (list string * sources) :=
let '(op_id, op) := kv in
let visited := if compiled_early op then add_ref st.1 op_id else st.1 in
match GOp.cls op with
| GOp.OutputOp name path =>
    match GOp.inputs op with
    | [source_id] =>
        source ← deref graph source_id;
        if (GOp.is_llm source || GOp.is_retrieval source || match GOp.lambda source with Some _ => true | None => false end)%bool
        then Ok (add_ref visited op_id, dset source_id (dget_or [] source_id st.2 ++ [(name, path)]) st.2)
        else Err (ValueError "input must be an LLMOp, DataRetrievalOp or LambdaOp")
    | _ => Err (ValueError "AssertionError")
    end
| _ => Ok (visited, st.2)
end.

Definition check_outputs (outputs : sources) : result () :=
if forallb (λ kv : string * list (string * option string), Nat.leb (length kv.2) 1) outputs then Ok ()
else Err (ValueError "Multiple OutputOps target the same source node").

Definition is_lambda (op : GOp.t) : bool := match GOp.lambda op with Some _ => true | None => false end.
Definition check_not_empty : result () :=
if existsb (λ kv : string * GOp.t, GOp.is_llm kv.2 || GOp.is_retrieval kv.2 || is_lambda kv.2)%bool graph then Ok ()
else Err (ValueError "Graph must contain at least one LLMOp, DataRetrievalOp or LambdaOp").

(** The output an op feeds: its name and its own path, if any *)
Definition output_of (outputs : sources) (op_id : string) : option (string * option string) :=
match dget op_id outputs with Some (np :: _) => Some np | _ => None end.
Definition override (path : option string) : option string := match path with Some p => if nonempty p then Some p else None | None => None end.
(** The output node and its path; without a default, a path only if one is given *)
Definition record_output (outputs : sources) (op_id : string) (default_path : option string) (st : bstate) : bstate :=
match output_of outputs op_id with
| None => st
| Some (name, path) =>
    let st := b_output op_id name st in
    match override path with
    | Some p => b_path op_id p st
    | None => match default_path with Some p => b_path op_id p st | None => st end
    end
end.

(** [_mark_retrieval_upstream_nodes_visited] *)
Definition param_node (param : val) : option string :=
match param with VDict d => match vget "node" d with VStr node => if dmem node graph then Some node else None | _ => None end | _ => None end.
Definition retrieval_upstreams (op : GOp.t) (spec : dict string val) : list string :=
GOp.inputs op ++ match vget "params" spec with VList params => omap param_node params | _ => [] end.

Definition build_retrieval (outputs : sources) (st : bstate) (kv : string * GOp.t) : result bstate :=
let '(op_id, op) := kv in
match GOp.cls op with
| GOp.DataRetrievalOp spec =>
    let st := b_visit (retrieval_upstreams op spec) st in
    node ← build_node_from_data_retrieval_op env (py_str py) limit inputs graph input_ops op spec;
    let st := b_map op_id [RuntimeOp.node_id node] (b_add node st) in
    match output_of outputs op_id with
    | None => Ok st
    | Some _ => path ← retrieval_items_path spec; Ok (record_output outputs op_id (Some path) st)
    end
| _ => Ok st
end.

Definition build_list_lambda (outputs : sources) (st : bstate) (kv : string * GOp.t) : result bstate :=
let '(op_id, op) := kv in
match GOp.lambda op with
| Some l =>
    if Lambda.takes_whole_columns l then
      let st := b_visit (GOp.inputs op) st in
      node ← build_node_from_list_lambda_op env limit inputs graph op l;
      Ok (record_output outputs op_id (Some "items.output") (b_map op_id [RuntimeOp.node_id node] (b_add node st)))
    else Ok st
| None => Ok st
end.

(** The nodes of an LLM op *)
Definition compile_llm (op : GOp.t) (visited : list string) : result (list string * list RuntimeOp.t) :=
let flattened := flattened_vlm_ids in
let one := λ r : list string * RuntimeOp.t, (r.1, [r.2]) in
let local config :=
  match GOp.cls op with
  | GOp.EmbeddingOp _ => r ← build_node_from_embedding_op env limit inputs graph flattened op config visited; Ok (one r)
  | GOp.ImageGenerationOp _ => r ← build_node_from_image_op env limit inputs graph flattened op config visited; Ok (one r)
  | GOp.LLMChatOp _ c => r ← build_node_from_chat_op env py limit inputs graph flattened op config c visited; Ok (one r)
  | _ => Err (ValueError "AssertionError")
  end in
match GOp.cls op with
| GOp.LLMVisionOp config c source path => build_vlm_nodes_from_image_op env py limit inputs graph flattened op config c source path visited
| _ =>
    match GOp.llm op with
    | Some config =>
        match GenerationConfig.api config with
        | Some api => r ← build_api_llm_op env py urlsplit limit inputs graph flattened op config api visited; Ok (one r)
        | None => local config
        end
    | None => Err (ValueError "AssertionError")
    end
end.

Definition build_llm (outputs : sources) (st : bstate) (kv : string * GOp.t) : result bstate :=
let '(op_id, op) := kv in
if GOp.is_llm op then
  r ← compile_llm op (b_visited st);
  let st := b_map op_id (RuntimeOp.node_id <$> r.2) (foldl b_add_new (b_set_visited r.1 st) r.2) in
  Ok (record_output outputs op_id (if is_api_task op then Some (upstream_output_path flattened_vlm_ids op) else None) st)
else Ok st.

(** ** Lambdas that run on their own *)

(** [_referenced_row_lambdas] *)
Definition is_row_lambda_id (id : string) : bool := match dget id graph with Some op => GOp.is_row_lambda op | None => false end.
Definition referenced_row_lambdas (nodes : dict string RuntimeOp.t) : list string :=
filter (λ id, is_row_lambda_id id = true) (concat (map (λ kv : string * RuntimeOp.t, iter_runtime_refs kv.2 ++ RuntimeOp.dependencies kv.2) nodes)).

Definition standalone (outputs : sources) (st : bstate) : list string :=
let referenced := referenced_row_lambdas (b_nodes st) in
(filter (λ kv : string * GOp.t,
   GOp.is_row_lambda kv.2 = true ∧
   (kv.1 ∉ b_visited st ∨ dmem kv.1 outputs = true ∨ (GOp.lambda kv.2 ≫= Lambda.image) ≠ None ∨ kv.1 ∈ referenced)) graph).*1.

(** One input of a standalone step *)
Definition add_stage_input (input dep : string) (inp : GOp.t) (n : option nat) (si : step_inputs) : step_inputs :=
StepInputs (si_plan si ++ [upstream_entry inp dep]) (add_ref (si_deps si) dep) (si_rows si ++ [(input, n)]).

Definition python_input (rec : string → bstate → result bstate) (acc : bstate * step_inputs) (input : string) : result (bstate * step_inputs) :=
let '(st, si) := acc in
inp ← deref graph input;
match GOp.cls inp with
| GOp.InputOp name => values ← dindex (KeyError name) name inputs; Ok (b_visit [input] st, add_literal input values si)
| GOp.DataOp data => Ok (b_visit [input] st, add_literal input data si)
| _ =>
    r ← (if is_lambda inp then st ← rec input st; Ok (st, input)
         else if (GOp.is_llm inp || GOp.is_retrieval inp)%bool then
           match dget_or [] input (b_dsl st) with
           | [dep] => Ok (st, dep)
           | _ => Err (ValueError "a standalone Python step can read one upstream node per input")
           end
         else Err (ValueError "a standalone Python step reads LLM, data-retrieval, Lambda, input or data ops"));
    n ← static_output_row_count inputs graph limit inp;
    Ok (r.1, add_stage_input input r.2 inp n si)
end.

(** [_build_python_step] *)
Fixpoint build_python_step (fuel : nat) (op_id : string) (st : bstate) : result bstate :=
match fuel with
| O => Err RecursionError
| S fuel =>
    if dmem op_id (b_nodes st) then Ok st
    else
      op ← deref graph op_id;
      l ← ok_or (ValueError "AssertionError") (GOp.lambda op);
      r ← foldR (python_input (build_python_step fuel)) (b_visit [op_id] st, no_inputs) (GOp.inputs op);
      row_count ← python_step_row_count (si_rows r.2) true;
      node ← python_node env op_id (lambda_spec l (si_plan r.2) false row_count) (si_deps r.2);
      Ok (b_map op_id [op_id] (b_add node r.1))
end.

Definition build_standalone (outputs : sources) (st : bstate) (op_id : string) : result bstate :=
st ← build_python_step limit op_id st;
Ok (record_output outputs op_id None st).

(** [_check_inlined_lambda_refs] *)
Definition check_inlined_lambda_refs (nodes : dict string RuntimeOp.t) : result () :=
let inlined := (filter (λ kv : string * GOp.t, GOp.is_row_lambda kv.2 = true ∧ dmem kv.1 nodes = false) graph).*1 in
if forallb (λ kv : string * RuntimeOp.t, forallb (λ ref, bool_decide (ref ∉ inlined)) (iter_runtime_refs kv.2)) nodes then Ok ()
else Err (ValueError "references a LambdaOp which is inlined into the LLM that consumes it").

Definition check_visited (visited : list string) : result () :=
if forallb (λ id, bool_decide (id ∈ visited)) (dkeys graph) then Ok ()
else Err (ValueError "Graph transformation failed: orphaned or unreachable ops").

(** ** The build *)

Definition build_nodes : result bstate :=
scan ← foldR scan_op ([], []) graph;
let '(visited, outputs) := scan in
_ ← check_outputs outputs;
_ ← check_not_empty;
st ← foldR (build_retrieval outputs) (BState [] [] [] [] [] visited) graph;
st ← foldR (build_list_lambda outputs) st graph;
st ← foldR (build_llm outputs) st graph;
st ← foldR (build_standalone outputs) st (standalone outputs st);
_ ← check_inlined_lambda_refs (b_nodes st);
_ ← check_visited (b_visited st);
Ok st.

Definition runtime_graph (st : bstate) : RuntimeGraph.t :=
RuntimeGraph.mk (b_nodes st) (b_order st) (b_outputs st) (b_paths st) (b_dsl st).

Definition with_order (g : RuntimeGraph.t) (order : list string) : RuntimeGraph.t :=
RuntimeGraph.mk (RuntimeGraph.nodes g) order (RuntimeGraph.output_node_map g) (RuntimeGraph.output_paths g) (RuntimeGraph.dsl_to_runtime g).

Definition build (node_prefix : option string) : result RuntimeGraph.t :=
st ← build_nodes;
let g := runtime_graph st in
order ← RuntimeGraph.topological_order g;
let g := with_order g order in
match override node_prefix with
| Some name => RuntimeGraph.with_node_prefix (make_node_prefix sha256_hex name) "__" g
| None => Ok g
end.
End build.
