(* ===== verification/GraphNodesProps.v ===== *)
(** * What the compiled nodes read

    Every node a builder of [GraphNodes] or [GraphBuilder] makes depends on ops
    that are compiled (or on nodes made with it), and the program of a python
    step reads exactly the results of its dependencies. *)

From Stdlib Require Import Ascii.
From S2P Require Import Prelude PyFloat PyDict PyValue PyString RuntimeGraph Demux PythonStep FlowmeshSpec YamlParser GraphNodes GraphBuilder.

(** * What the builder reads of a graph

    Conditions on a compiled graph, and what follows for row counts, columns and
    the trace of messages: every node a column names is compiled, every upstream
    the trace finds is one, and the recursions end within the depth of the
    graph.  The lemmas are postconditions [post Q E] for a set [E] of exceptions
    that has all of them but perhaps [RecursionError]. *)

(** ** Conditions on a graph *)

Section conditions.
Context (graph : ops_dict) (rank : string → nat).

Definition rowwise_nodes (op : GOp.t) : list string :=
match GOp.chat op with
| Some c => omap (λ col, match vget "node" col with VStr n => if dmem n graph then Some n else None | _ => None end) (Chat.rowwise_columns c)
| None => []
end.
Definition message_refs (op : GOp.t) : list string :=
match GOp.cls op with GOp.MessageOp messages => omap (λ rc : string * content, match rc.2 with OpRef id => Some id | Text _ => None end) messages | _ => [] end.

(** Inputs are in the graph, below the op; so are the nodes of rowwise columns,
  which the row counts follow. *)
Definition wf_op (kv : string * GOp.t) : bool :=
let '(id, op) := kv in
(String.eqb (GOp.id op) id &&
 forallb (λ i, dmem i graph && Nat.ltb (rank i) (rank id)) (GOp.inputs op) &&
 forallb (λ n, Nat.ltb (rank n) (rank id)) (rowwise_nodes op) &&
 forallb (λ i, bool_decide (i ∈ GOp.inputs op)) (message_refs op))%bool.
Definition wf_graph : bool := (bool_decide (NoDup (dkeys graph)) && forallb wf_op graph)%bool.

(** The ops that become runtime nodes *)
Definition compiles (op : GOp.t) : bool := (GOp.is_llm op || GOp.is_retrieval op || is_lambda op)%bool.
Definition compiledb (id : string) : bool := match dget id graph with Some op => compiles op | None => false end.
Definition readable (id : string) : bool := match dget id graph with Some op => (GOp.is_input op || compiles op)%bool | None => false end.

Context (input_ops : ops_dict).
Definition param_ok (param : val) : bool :=
match param with
| VDict d =>
    match vget "node" d with
    | VStr n => match dget n graph with
                | Some op => (GOp.is_input op || compiles op)%bool
                | None => match dget n input_ops with Some op => GOp.is_input op | None => false end
                end
    | _ => true
    end
| _ => true
end.
Definition column_ok (vision : bool) (col : dict string val) : bool :=
match vget "label" col, vget "data" col, vget "node" col with
| VStr _, VDict data, _ => (negb vision || bool_decide (vget "type" data = VStr "list"))%bool
| VStr _, _, VStr n => readable n
| _, _, _ => true
end.
Definition aggregate_ok (col : dict string val) : bool :=
match vget "label" col, vget "node" col, vget "path" col with VStr _, VStr n, VStr _ => readable n | _, _, _ => true end.
Definition content_ok (op : GOp.t) : bool := match GOp.cls op with GOp.InputOp _ => true | _ => compiles op end.

(** The op an image or an embedding is made of *)
Definition content_op (op : GOp.t) : result GOp.t := cid ← GOp.first_input op; deref graph cid.
Definition image_op (op : GOp.t) : result GOp.t := content ← content_op op; image_content graph content.

(** What the fields of an op refer to is an input or an op that is compiled. *)
Definition refs_ok (op : GOp.t) : bool :=
match GOp.cls op with
| GOp.DataRetrievalOp spec =>
    (forallb readable (GOp.inputs op) && match get_or "params" (VList []) spec with VList params => forallb param_ok params | _ => true end)%bool
| GOp.FormatOp _ kwargs paths => forallb (λ kv : string * string, negb (nonempty (dget_or "" kv.1 paths)) || readable kv.2)%bool kwargs
| GOp.LLMChatOp _ c => (forallb (column_ok false) (Chat.rowwise_columns c) && forallb aggregate_ok (Chat.aggregate_table c))%bool
| GOp.LLMVisionOp _ c _ _ => forallb (column_ok true) (Chat.rowwise_columns c)
| GOp.ImageGenerationOp _ =>
    match image_op op with Ok content => content_ok content | Err _ => true end
| GOp.EmbeddingOp _ =>
    match content_op op with
    | Ok content => match GOp.cls content with GOp.DataOp _ => true | _ => content_ok content end
    | Err _ => true
    end
| _ => true
end.
Definition refs_graph : bool := forallb (λ kv : string * GOp.t, refs_ok kv.2) graph.

(** No label that is not one of a format step looks like one. *)
Definition plain_label (s : string) : bool := negb (py_starts_with "format_" s).
Definition labels_op (kv : string * GOp.t) : bool :=
let '(id, op) := kv in
match GOp.cls op with
| GOp.InputOp _ | GOp.DataOp _ | GOp.DataRetrievalOp _ => plain_label id
| GOp.MessageOp messages => forallb (λ rc : string * content, match rc.2 with Text s => plain_label s | OpRef _ => true end) messages
| _ => if GOp.is_llm op then (plain_label (id +:+ "_context") && plain_label (id +:+ "_output"))%bool else true
end.
Definition labels_graph : bool := forallb labels_op graph.
End conditions.

Section facts.
Context (graph : ops_dict) (rank : string → nat).
Hypothesis Hwf : wf_graph graph rank = true.

Lemma graph_wf : dict_wf graph.
Proof using All. apply andb_true_iff in Hwf as [H _]. by apply bool_decide_eq_true in H. Qed.

Lemma graph_op id op : (id, op) ∈ graph → wf_op graph rank (id, op) = true.
Proof using All. apply andb_true_iff in Hwf as [_ H]. rewrite forallb_forall in H. intros Hin. by apply H, list_elem_of_In. Qed.

Lemma graph_id id op : dget id graph = Some op → GOp.id op = id.
Proof using All.
intros H%dget_elem%graph_op. unfold wf_op in H. rewrite !andb_true_iff in H. destruct H as [[[H _] _] _]. by apply String.eqb_eq in H.
Qed.

Lemma graph_input id op i : dget id graph = Some op → i ∈ GOp.inputs op → is_Some (dget i graph) ∧ rank i < rank id.
Proof using All.
intros H%dget_elem%graph_op Hi. unfold wf_op in H. rewrite !andb_true_iff, !forallb_forall in H. destruct H as [[[_ H] _] _].
specialize (H i (proj1 (list_elem_of_In _ _) Hi)). apply andb_true_iff in H as [H1%dmem_true H2%Nat.ltb_lt]. by apply dget_is_Some in H1.
Qed.

Lemma graph_rowwise id op n : dget id graph = Some op → n ∈ rowwise_nodes graph op → rank n < rank id.
Proof using All.
intros H%dget_elem%graph_op Hi. unfold wf_op in H. rewrite !andb_true_iff, !forallb_forall in H. destruct H as [[_ H] _].
by apply Nat.ltb_lt, H, list_elem_of_In.
Qed.

Lemma graph_message id op i : dget id graph = Some op → i ∈ message_refs op → i ∈ GOp.inputs op.
Proof using All.
intros H%dget_elem%graph_op Hi. unfold wf_op in H. rewrite !andb_true_iff, !forallb_forall in H. destruct H as [_ H].
by eapply bool_decide_eq_true, H, list_elem_of_In.
Qed.
End facts.

Lemma first_input_in op i : GOp.first_input op = Ok i → i ∈ GOp.inputs op.
Proof. unfold GOp.first_input. intros H%ok_or_ok. destruct (GOp.inputs op); [done|]. injection H as ->. left. Qed.

Section posts.
Context (E : exn → Prop).
Hypothesis HE : ∀ e, e ≠ RecursionError → E e.

Lemma post_any {A B} (Q : B → Prop) (f : A → result B) r : post (λ _, True) E r → (∀ a, r = Ok a → post Q E (f a)) → post Q E (r ≫= f).
Proof using HE. intros H1 H2. eapply post_bind; [exact H1|]. auto. Qed.

Lemma post_omapR {A B} (f : A → result (option B)) l : (∀ x, x ∈ l → post (λ _, True) E (f x)) → post (λ _, True) E (omapR f l).
Proof using HE.
intros H. unfold omapR. assert (Hm : post (λ _, True) E (mapR f l)) by (eapply post_mono; [|by apply (post_mapR (λ _, True))]; done).
by destruct (mapR f l).
Qed.

Lemma post_true {A} (Q : A → Prop) r : post Q E r → post (λ _, True) E r.
Proof using Type. by apply post_mono. Qed.
Lemma post_deref graph id : post (λ op, dget id graph = Some op) E (deref graph id).
Proof using HE. apply post_ok_or; [done|by apply HE]. Qed.
Lemma post_first op : post (λ i, i ∈ GOp.inputs op) E (GOp.first_input op).
Proof using HE. destruct (GOp.first_input op) as [i|e] eqn:H; [by apply first_input_in|]. apply HE. intros ->. unfold GOp.first_input in H. by destruct (head _). Qed.
Lemma post_assert b : post (λ _, b = true) E (assert b).
Proof using HE. destruct b; [done|by apply HE]. Qed.
End posts.

(** ** Row counts *)

Section rows.
Context (inputs : inputs_dict) (graph : ops_dict) (rank : string → nat) (E : exn → Prop).
Hypothesis Hwf : wf_graph graph rank = true.
Hypothesis HE : ∀ e, e ≠ RecursionError → E e.

(** Enough fuel, unless running out is allowed *)
Definition fuel_ok (n fuel : nat) : Prop := E RecursionError ∨ n < fuel.
Lemma fuel_ok_S n fuel m : fuel_ok n (S fuel) → m < n → fuel_ok m fuel.
Proof using Type. unfold fuel_ok. intros [?|?] ?; [by left|right; lia]. Qed.

Lemma rows_post fuel id op : dget id graph = Some op → fuel_ok (rank id) fuel → post (λ _, True) E (static_output_row_count inputs graph fuel op).
Proof using All.
revert id op. induction fuel as [|fuel IH]; intros id op Hop Hfuel; [destruct Hfuel; [done|lia]|].
assert (Hin : ∀ i, i ∈ GOp.inputs op → post (λ _, True) E (op ← deref graph i; static_output_row_count inputs graph fuel op)).
{ intros i Hi. destruct (graph_input _ _ Hwf _ _ _ Hop Hi) as [[inp Hinp] Hr]. unfold deref, dindex. rewrite Hinp. simpl.
  apply (IH i inp Hinp). by eapply fuel_ok_S. }
assert (Hknown : ∀ ids, (∀ i, i ∈ ids → post (λ _, True) E (op ← deref graph i; static_output_row_count inputs graph fuel op)) →
  post (λ _, True) E (counts ← omapR (λ i, op ← deref graph i; static_output_row_count inputs graph fuel op) ids; Ok (max_count counts))).
{ intros ids Hids. apply post_any; [by auto|by apply post_omapR|done]. }
cbn [static_output_row_count]. destruct (GOp.cls op) as [name|name path|data|spec|messages|template kwargs paths|l|config c|config c source path|config|config] eqn:Hcls; try done.
3-4: assert (Hchat : GOp.chat op = Some c) by (unfold GOp.chat; by rewrite Hcls); destruct (Chat.rowwise_columns c) as [|col0 cols] eqn:Hcols;
  [apply (post_bind (λ i, i ∈ GOp.inputs op)); [by apply post_first|]; intros mid _ Hmid;
   apply (post_bind (λ m, dget mid graph = Some m)); [by apply post_deref|]; intros m _ Hm; apply Hknown; intros i Hi;
   destruct (graph_input _ _ Hwf _ _ _ Hop Hmid) as [_ Hr];
   assert (Hmi : i ∈ GOp.inputs m) by (apply (graph_message _ _ Hwf mid m i Hm); unfold message_refs; by destruct (GOp.cls m));
   destruct (graph_input _ _ Hwf _ _ _ Hm Hmi) as [[inp Hinp] Hr']; unfold deref, dindex; rewrite Hinp; simpl;
   apply (IH i inp Hinp); eapply fuel_ok_S; [exact Hfuel|lia]
  |apply post_any; [by auto|apply post_omapR; [by auto|]; intros col Hcol|done];
   repeat case_match; try done; (eapply IH; [eassumption|]); (eapply fuel_ok_S; [exact Hfuel|]);
   apply (graph_rowwise _ _ Hwf id op _ Hop); unfold rowwise_nodes; rewrite Hchat, Hcols; apply list_elem_of_omap; exists col; (split; [done|]);
   match goal with Hn : vget "node" _ = VStr ?n, Hd : dget ?n graph = Some _ |- _ =>
     rewrite Hn, (proj2 (dmem_true n graph)) by (apply dget_is_Some; by eexists); done end].
- by apply Hknown.
- destruct (String.eqb _ _); [done|]. by apply Hknown.
- apply (post_bind (λ i, i ∈ GOp.inputs op)); [by apply post_first|]. auto.
- apply (post_bind (λ i, i ∈ GOp.inputs op)); [by apply post_first|]. auto.
Qed.

Context (limit : nat).
Hypothesis Hlimit : ∀ id op, dget id graph = Some op → fuel_ok (rank id) limit.

Lemma rows_limit_post id op : dget id graph = Some op → post (λ _, True) E (static_output_row_count inputs graph limit op).
Proof using All. intros H. eapply rows_post; eauto. Qed.

Lemma rows_or_one_post id op : dget id graph = Some op → post (λ _, True) E (rows_or_one inputs graph limit op).
Proof using All. intros H. unfold rows_or_one. apply post_any; [done|by eapply rows_limit_post|]. by intros [[|n]|] _. Qed.

Lemma row_condition_post condition n : post (λ _, True) E (row_condition inputs graph limit condition n).
Proof using All.
unfold row_condition. destruct condition as [d|]; [|done]. destruct (dget "node" d ≫= _) as [source|] eqn:Hs; [|done].
apply bind_Some in Hs as (node & _ & Hs). apply post_any; [done|by eapply rows_limit_post|].
intros [k|] _; [|done]. destruct (_ && _)%bool; [by apply HE|done].
Qed.

Lemma guard_post id op : dget id graph = Some op → post (λ _, True) E (guard_single_row_node_ref inputs graph limit op).
Proof using All.
intros H. unfold guard_single_row_node_ref. destruct (GOp.is_llm op); [|done]. apply post_any; [done|by eapply rows_limit_post|].
intros [k|] _; [|done]. destruct (Nat.ltb _ _); [by apply HE|done].
Qed.

Lemma step_rows_post counts b : post (λ _, True) E (python_step_row_count counts b).
Proof using HE. unfold python_step_row_count. destruct (_ && _)%bool; [by apply HE|done]. Qed.
End rows.

(** ** Columns *)

Lemma elem_of_add_ref x y l : x ∈ add_ref l y ↔ x ∈ l ∨ x = y.
Proof. unfold add_ref. case_bool_decide; set_solver. Qed.
Lemma elem_of_add_refs x l l' : x ∈ foldl add_ref l l' ↔ x ∈ l ∨ x ∈ l'.
Proof. revert l. induction l' as [|y l' IH]; intros l; simpl; [set_solver|]. rewrite IH, elem_of_add_ref. set_solver. Qed.

Section columns.
Context (graph : ops_dict) (E : exn → Prop).
Hypothesis HE : ∀ e, e ≠ RecursionError → E e.
Local Abbreviation compiled id := (compiledb graph id = true).

(** A column reads a node that is compiled, or literal rows. *)
Record col_ok (c : dict string val) : Prop := {
co_wf : dict_wf c;
co_node n : vget "node" c = VStr n → compiled n;
co_data d : vget "data" c = VDict d → vget "type" d = VStr "list";
}.

Lemma node_column_ok n path : compiled n → col_ok (node_column n path).
Proof using Type. intros H. split; [by apply (bool_decide_unpack _)|by intros m [= <-]|done]. Qed.
Lemma data_column_ok items : col_ok (data_column items).
Proof using Type. split; [by apply (bool_decide_unpack _)|done|by intros d [= <-]]. Qed.
Lemma labelled_node_ok label n path : compiled n → col_ok [("label", VStr label); ("node", VStr n); ("path", VStr path)].
Proof using Type. intros H. split; [by apply (bool_decide_unpack _)|by intros m [= <-]|done]. Qed.
Lemma labelled_data_ok label items : col_ok [("label", VStr label); ("data", VDict (list_spec items))].
Proof using Type. split; [by apply (bool_decide_unpack _)|done|by intros d [= <-]]. Qed.

Lemma labelled_ok label c : col_ok c → col_ok (dupdate [("label", VStr label)] c).
Proof using Type.
intros [Hwf Hn Hd]. assert (Hget : ∀ k, k ≠ "label" → vget k (dupdate [("label", VStr label)] c) = vget k c).
{ intros k Hk. unfold vget, dget_or. rewrite dget_dupdate by done. destruct (dget k c); [done|]. simpl. by rewrite decide_False by done. }
split.
- unfold dupdate. revert Hwf. generalize (dict_wf_dset "label" (VStr label) ([] : dict string val) (NoDup_nil_2)). simpl.
  generalize [("label", VStr label)]. clear. induction c as [|[k v] c IH]; intros d Hd Hc; simpl; [done|].
  apply NoDup_cons in Hc as [_ Hc]. apply IH; [by apply dict_wf_dset|done].
- intros n. rewrite Hget by done. apply Hn.
- intros d. rewrite Hget by done. apply Hd.
Qed.

Lemma readable_cases n : readable graph n = true → compiled n ∨ ∃ up, dget n graph = Some up ∧ GOp.is_input up = true.
Proof using Type.
unfold readable, compiledb. destruct (dget n graph) as [up|]; [|done]. intros [H|H]%orb_true_iff; eauto.
Qed.

Lemma node_ref_column_post inputs flattened label n path :
  readable graph n = true → post col_ok E (node_ref_column inputs flattened label n path (dget n graph)).
Proof using HE.
intros Hr. unfold node_ref_column. destruct (dget n graph) as [up|] eqn:Hup; [|unfold readable in Hr; by rewrite Hup in Hr].
assert (Hcol : GOp.is_input up = false → ∀ p, col_ok [("label", VStr label); ("node", VStr n); ("path", VStr p)]).
{ intros Hi p. apply labelled_node_ok. unfold readable in Hr. unfold compiledb. rewrite Hup, Hi in *. done. }
unfold GOp.is_input in Hcol. destruct (GOp.cls up) eqn:Hcls.
{ apply (post_bind (λ _, True)); [apply post_ok_or; [done|by apply HE]|]. intros values _ _.
  destruct (String.eqb _ _); [apply labelled_data_ok|by apply HE]. }
all: specialize (Hcol eq_refl).
all: destruct (is_api_task up); [destruct (String.eqb _ _); [by apply Hcol|by apply HE]|].
all: destruct (GOp.lambda up) as [lam|].
all: try (apply (post_bind (λ _, True)); [unfold lambda_read_path; destruct (negb _); [by apply HE|]; by destruct (_ && _)%bool|intros; by apply Hcol]).
all: destruct (bool_decide _); [destruct (py_starts_with _ _); [by apply Hcol|by apply HE]|by apply Hcol].
Qed.

Lemma add_ref_compiled deps n : Forall (λ d, compiled d) deps → compiled n → Forall (λ d, compiled d) (add_ref deps n).
Proof using Type. intros H Hn. apply Forall_forall. intros x [Hx| ->]%elem_of_add_ref; [|done]. by eapply Forall_forall in H. Qed.

Lemma visit_column_post fuel deps c : col_ok c → Forall (λ d, compiled d) deps →
  post (Forall (λ d, compiled d)) E (visit_column (S fuel) deps (VDict c)).
Proof using HE.
intros [_ Hn Hd] Hdeps. cbn [visit_column].
assert (H : Forall (λ d, compiled d) (match vget "node" c with VStr node => add_ref deps node | _ => deps end)).
{ destruct (vget "node" c) eqn:En; try done. apply add_ref_compiled; eauto. }
destruct (vget "data" c) as [| | | | | | |data] eqn:Ed; try done. rewrite (Hd data eq_refl). done.
Qed.

(** The dependencies of a template whose columns are these *)
Lemma template_deps_post template columns : vget "columns" template = VList (VDict <$> columns) → Forall col_ok columns →
  post (Forall (λ d, compiled d)) E (collect_graph_template_dependencies template).
Proof using HE.
intros Hc Hok. unfold collect_graph_template_dependencies. rewrite Hc.
assert (Hi : iterable (VList (VDict <$> columns)) = Ok (VDict <$> columns)) by (unfold iterable; by destruct columns).
rewrite Hi. simpl. apply post_foldR; [|constructor]. intros deps col (c & -> & Hin)%list_elem_of_fmap Hdeps.
apply visit_column_post; [|done]. by eapply Forall_forall in Hok.
Qed.
End columns.

(** ** The trace of an op's ancestors *)

Section trace.
Context (py : py_env) (limit : nat) (inputs : inputs_dict) (graph input_ops : ops_dict) (flattened : list string).
Context (target : string) (api_mode : bool) (rank : string → nat) (E : exn → Prop).
Hypothesis Hwf : wf_graph graph rank = true.
Hypothesis Hrefs : refs_graph graph input_ops = true.
Hypothesis HE : ∀ e, e ≠ RecursionError → E e.
Hypothesis Hlimit : ∀ id op, dget id graph = Some op → fuel_ok E (rank id) limit.
Hypothesis Hlabels : E RecursionError ∨ labels_graph graph = true.
Hypothesis Hformat : ∀ template d, post (λ _, True) E (py_format py template d).
Hypothesis Hcall : ∀ id args, post (λ _, True) E (call_fn py id args).
Local Abbreviation compiled id := (compiledb graph id = true).
Local Abbreviation post_rows := (rows_limit_post inputs graph rank E Hwf HE limit Hlimit).

(** A label of a format step belongs to an op of smaller rank. *)
Definition label_ok (r : nat) (s : string) : Prop :=
E RecursionError ∨ plain_label s = true ∨ ∃ i, s = "format_" +:+ i ∧ rank i < r.
Definition msgs_ok (r : nat) (msgs : list packed_msg) : Prop := Forall (λ m, label_ok r (unwrap_msg m)) msgs.

Record trace_ok (t : trace) : Prop := {
to_upstream : Forall (λ d, compiled d) (t_upstream t);
to_columns label col : (label, col) ∈ t_columns t → col_ok graph col;
to_steps label template kwargs : (label, StTemplate template kwargs) ∈ t_steps t →
  ∃ i, label = "format_" +:+ i ∧ Forall (λ kv : string * string, label_ok (rank i) kv.2) kwargs;
to_buffer id msgs : dget id (t_buffer t) = Some msgs → msgs_ok (S (rank id)) msgs;
}.

Lemma label_mono r r' s : r <= r' → label_ok r s → label_ok r' s.
Proof. intros H [?|[?|(i & -> & Hi)]]; [by left|by right; left|]. right; right. exists i. split; [done|lia]. Qed.
Lemma msgs_mono r r' msgs : r <= r' → msgs_ok r msgs → msgs_ok r' msgs.
Proof. intros H Hm. eapply Forall_impl; [exact Hm|]. intros m. by apply label_mono. Qed.
Lemma plain_ok r s : plain_label s = true → label_ok r s.
Proof. by right; left. Qed.

Lemma trace_visit_ok id t : trace_ok t → trace_ok (t_visit id t).
Proof. by intros []. Qed.
Lemma trace_count_ok id n t : trace_ok t → trace_ok (t_count id n t).
Proof. by intros []. Qed.
Lemma reach_ok id t : compiled id → trace_ok t → trace_ok (t_reach id t).
Proof. intros Hid [Hu ? ? ?]. split; try done. cbn. apply Forall_app. split; [done|]. by constructor. Qed.
Lemma column_set_ok label col t : col_ok graph col → trace_ok t → trace_ok (t_column label col t).
Proof. intros Hcol [? Hc ? ?]. split; try done. cbn. intros l c [[-> ->]|Hin]%elem_of_dset; [done|]. by eapply Hc. Qed.
Lemma column_once_ok label col t : col_ok graph col → trace_ok t → trace_ok (t_column_once label col t).
Proof. intros. unfold t_column_once. destruct (dmem _ _); [done|]. by apply column_set_ok. Qed.
Lemma template_step_ok i template kwargs t : Forall (λ kv : string * string, label_ok (rank i) kv.2) kwargs → trace_ok t →
  trace_ok (t_step ("format_" +:+ i) (StTemplate template kwargs) t).
Proof.
intros Hk [? ? Hs ?]. split; try done. cbn. intros l tm kw [[-> [= -> ->]]|Hin]%elem_of_dset; [by exists i|by eapply Hs].
Qed.
Lemma function_step_ok label code args t : trace_ok t → trace_ok (t_step label (StFunction code args) t).
Proof. intros [? ? Hs ?]. split; try done. cbn. intros l tm kw [[_ ?]|Hin]%elem_of_dset; [done|by eapply Hs]. Qed.
Lemma keep_ok id msgs t : msgs_ok (S (rank id)) msgs → trace_ok t → trace_ok (t_keep id msgs t).
Proof.
intros Hm [? ? ? Hb]. split; try done. cbn. intros i ms. rewrite dget_dset. case_decide as Hi; [intros [= <-]; by subst|apply Hb].
Qed.
Lemma buffer_ok id t : trace_ok t → msgs_ok (S (rank id)) (dget_or [] id (t_buffer t)).
Proof. intros [? ? ? Hb]. unfold dget_or. destruct (dget id (t_buffer t)) eqn:Hd; [by apply Hb in Hd|by constructor]. Qed.
Lemma append_ok id m t : label_ok (S (rank id)) (unwrap_msg m) → trace_ok t → trace_ok (t_append id m t).
Proof.
intros Hm Ht. apply keep_ok; [|done]. apply Forall_app. split; [by apply buffer_ok|]. by constructor.
Qed.

Lemma graph_labels id op : dget id graph = Some op → E RecursionError ∨ labels_op (id, op) = true.
Proof using Hlabels.
intros H%dget_elem. destruct Hlabels as [?|Hl]; [by left|right]. unfold labels_graph in Hl. rewrite forallb_forall in Hl.
by apply Hl, list_elem_of_In.
Qed.

Lemma graph_refs id op : dget id graph = Some op → refs_ok graph input_ops op = true.
Proof using Hrefs.
intros H%dget_elem. unfold refs_graph in Hrefs. rewrite forallb_forall in Hrefs. by apply (Hrefs (id, op)), list_elem_of_In.
Qed.

Lemma llm_compiled id op : dget id graph = Some op → GOp.is_llm op = true → compiled id.
Proof. intros H Hl. unfold compiledb, compiles. by rewrite H, Hl. Qed.

(** *** LLM ops *)

Lemma prior_prompt_post op : post (λ _, True) E (api_prior_prompt inputs graph op).
Proof using HE.
unfold api_prior_prompt. apply post_any; [done|by eapply post_true, post_first|]. intros mid _.
apply post_any; [done|by eapply post_true, post_deref|]. intros m _. destruct (match GOp.cls m with GOp.MessageOp messages => messages | _ => [] end) as [|[role c] []]; try by apply HE.
destruct (negb _); [by apply HE|]. destruct c as [s|cid]; [done|].
apply post_any; [done|by eapply post_true, post_deref|]. intros c _. destruct (GOp.cls c); try done. destruct (dget _ inputs) as [[|]|]; by try apply HE.
Qed.

Lemma trace_llm_post id op t : dget id graph = Some op → GOp.is_llm op = true → trace_ok t →
  post trace_ok E (trace_llm limit inputs graph flattened target api_mode op t).
Proof using All.
intros Hop Hl Ht. pose proof (graph_id _ _ Hwf _ _ Hop) as Hid. pose proof (llm_compiled _ _ Hop Hl) as Hc.
assert (Hlab : label_ok (S (rank id)) (id +:+ "_context") ∧ label_ok (S (rank id)) (id +:+ "_output")).
{ destruct (graph_labels _ _ Hop) as [?|H]; [by split; left|]. unfold labels_op in H. unfold GOp.is_llm, GOp.llm in *.
  destruct (GOp.cls op); try done; by apply andb_true_iff in H as [H1 H2]; split; apply plain_ok. }
unfold trace_llm. rewrite Hid. apply post_any; [done|by eapply post_true, post_assert|]. intros _ _.
apply (post_bind trace_ok).
- destruct (bool_decide _); [done|]. apply (post_bind trace_ok).
  + unfold check_rows. assert (Hr : trace_ok (t_reach id t)) by (by apply reach_ok). destruct (is_api_task op); [done|].
    apply post_any; [done|by eapply post_rows|]. intros [n|] _; [|done]. destruct (Nat.ltb _ _); [|done].
    destruct (_ || _)%bool; [by apply HE|]. by apply trace_count_ok.
  + intros t1 _ Ht1. apply (post_bind trace_ok).
    * unfold history_column. rewrite Hid. destruct (returns_history op); [|done]. destruct (is_api_task op).
      -- apply post_any; [done|apply prior_prompt_post|]. intros prior _. apply post_any; [done|by apply post_ok_or; [|by apply HE]|].
         intros items _. apply column_set_ok; [apply data_column_ok|done].
      -- apply column_set_ok; [by apply node_column_ok|done].
    * intros t2 _ Ht2. apply column_set_ok; [by apply node_column_ok|done].
- intros t3 _ Ht3. apply keep_ok; [|done]. destruct Hlab. unfold msgs_ok. destruct (returns_history op); simpl; by rewrite ?Forall_cons, ?Forall_nil.
Qed.

(** *** Lambdas *)

Lemma resolve_post fuel r t label : trace_ok t → label_ok r label → fuel_ok E r fuel →
  post (λ _, True) E (resolve_literal_label py fuel t label).
Proof using HE Hformat.
intros Ht. revert r label. induction fuel as [|fuel IH]; intros r label Hl Hf; [destruct Hf; [done|lia]|].
cbn [resolve_literal_label]. destruct (dget label (t_columns t)) as [col|]; [by repeat case_match|].
destruct (dget label (t_steps t)) as [[template kwargs|code args]|] eqn:Hs; [|done|done].
destruct (to_steps _ Ht _ _ _ (dget_elem _ _ _ Hs)) as (i & -> & Hk).
apply post_any; [done| |].
- apply (post_foldR (λ _, True)); [|done]. intros [d|] kv Hkv _; [|done]. apply post_any; [done| |by intros []].
  rewrite Forall_forall in Hk. apply (IH (rank i)); [by apply Hk|]. destruct Hf as [Hf|Hf]; [by left|].
  destruct Hl as [Hl|[Hl|(j & Hj & Hlt)]]; [by left| |].
  + unfold plain_label, py_starts_with, starts_with in Hl. rewrite decide_True in Hl; [done|]. rewrite chars_app. done.
  + right. assert (i = j) as -> by (by apply (inj (String.append "format_"))). lia.
- intros [d|] _; [|done]. apply post_any; [done|apply Hformat|done].
Qed.

Definition labels_ok (r : nat) (labels : dict string (list packed_msg)) : Prop := ∀ i msgs, dget i labels = Some msgs → msgs_ok r msgs.
Lemma labels_get r labels i : labels_ok r labels → msgs_ok r (dget_or [] i labels).
Proof. intros H. unfold dget_or. destruct (dget i labels) eqn:Hd; [by eapply H|by constructor]. Qed.

Lemma lambda_plain id : plain_label ("lambda_" +:+ id) = true.
Proof. unfold plain_label, py_starts_with, starts_with. by rewrite decide_False. Qed.
Lemma ref_plain a b : plain_label ("ref_" +:+ a +:+ b) = true.
Proof. unfold plain_label, py_starts_with, starts_with. by rewrite decide_False. Qed.

Lemma finish_lambda_post id op l labels t : dget id graph = Some op → trace_ok t → labels_ok (rank id) labels →
  post trace_ok E (finish_lambda py limit api_mode op l labels t).
Proof using All.
intros Hop Ht Hl. unfold finish_lambda. rewrite (graph_id _ _ Hwf _ _ Hop).
assert (Hm : msgs_ok (S (rank id)) [Packed "user" ("lambda_" +:+ id)]) by (apply Forall_singleton, plain_ok, lambda_plain).
apply post_any; [done| |].
- apply (post_foldR (λ _, True)); [|done]. intros [args|] i Hi _; [|done]. cbn [literal_arg].
  pose proof (labels_get _ _ i Hl) as Hmsgs. destruct (dget_or [] i labels) as [|m []]; [done| |done].
  apply post_any; [done| |by intros []]. apply (resolve_post limit (rank id)); [done| |by eapply Hlimit]. by apply Forall_cons in Hmsgs as [? _].
- intros args _. destruct (if decide _ then args else None) as [args'|].
  + apply post_any; [done|apply Hcall|]. intros v _. apply keep_ok; [done|]. apply column_set_ok; [apply data_column_ok|done].
  + destruct api_mode; [by apply HE|]. apply post_any; [done| |].
    * eapply post_mono; [|apply (post_mapR (λ _, True))]; [done|]. intros i _. unfold function_arg. destruct (dget_or [] i labels) as [|m []]; by try apply HE.
    * intros args' _. destruct (_ && _)%bool; [by apply HE|]. apply keep_ok; [done|]. by apply function_step_ok.
Qed.

(** *** Inputs, messages and formats *)

Abbreviation traced id r := (trace_ok r.1 ∧ msgs_ok (S (rank id)) r.2).

Section rec.
Context (rec : string → trace → result (trace * list packed_msg)) (id : string) (op : GOp.t).
Hypothesis Hop : dget id graph = Some op.
Hypothesis Hrec : ∀ i t, i ∈ GOp.inputs op → trace_ok t → post (λ r, traced i r) E (rec i t).

Lemma input_rank i : i ∈ GOp.inputs op → S (rank i) <= rank id.
Proof using Hop Hwf. intros Hi. by destruct (graph_input _ _ Hwf _ _ _ Hop Hi). Qed.

Lemma trace_inputs_post ids t : (∀ i, i ∈ ids → i ∈ GOp.inputs op) → trace_ok t →
  post (λ r, trace_ok r.1 ∧ labels_ok (rank id) r.2) E (trace_inputs rec ids t).
Proof using Hop Hrec Hwf.
intros Hids Ht. unfold trace_inputs. apply post_foldR; [|by split; [|intros i msgs]].
intros [t1 labels] i Hi [Ht1 Hl]. apply (post_bind (λ r, traced i r)); [by apply Hrec; [apply Hids|]|].
intros [t2 msgs] _ [Ht2 Hm]. split; [done|]. cbn. intros j ms. rewrite dget_dset. case_decide as Hj; [|apply Hl].
intros [= <-]. subst j. eapply msgs_mono; [|done]. by apply input_rank, Hids.
Qed.

Lemma role_post role : post (λ _, True) E (as_role role).
Proof using HE. unfold as_role. destruct (bool_decide _); [done|by apply HE]. Qed.

Lemma trace_message_post t rc : (match rc.2 with OpRef i => i ∈ GOp.inputs op | Text s => E RecursionError ∨ plain_label s = true end) →
  trace_ok t → post trace_ok E (trace_message graph rec id t rc).
Proof using HE Hop Hrec Hwf.
intros Hc Ht. unfold trace_message. destruct rc as [role [s|cid]]; cbn [fst snd] in *.
- apply post_any; [done|apply role_post|]. intros r _. apply append_ok; [|done]. destruct Hc; [by left|by apply plain_ok].
- apply (post_bind (λ r, traced cid r)); [by apply Hrec|]. intros [t1 msgs] _ [Ht1 Hm].
  apply post_any; [done|by eapply post_true, post_deref|]. intros c _. apply post_foldR; [|done].
  intros t2 m Hin Ht2. apply (proj1 (Forall_forall _ _)) with (x := m) in Hm; [|done].
  apply (label_mono _ (S (rank id))) in Hm; [|by apply input_rank in Hc; lia].
  destruct m as [r label|label]; cbn [message_msg].
  + destruct (returns_history c); [by apply append_ok|]. apply post_any; [done|by eapply post_true, post_assert|]. intros _ _.
    apply post_any; [done|apply role_post|]. intros r' _. by apply append_ok.
  + apply post_any; [done|apply role_post|]. intros r' _. by apply append_ok.
Qed.

Lemma project_post values path : post (λ _, True) E (project_input_field (json_loads py) (json_dumps py) values path).
Proof using HE.
unfold project_input_field. destruct (String.eqb _ _); [done|]. destruct (py_starts_with _ _); [|by apply HE].
apply post_any; [done| |done]. eapply post_mono; [|apply (post_mapR (λ _, True))]; [done|]. intros v _. unfold project_value.
apply post_any; [done|by apply post_ok_or; [|by apply HE]|]. intros obj _. apply (post_foldR (λ _, True)); [|done].
intros o key _ _. destruct o; try by apply HE. apply post_ok_or; [done|by apply HE].
Qed.

Lemma format_kwarg_post paths labels st kv : labels_ok (rank id) labels →
  (nonempty (dget_or "" kv.1 paths) = true → readable graph kv.2 = true) →
  trace_ok st.1 ∧ Forall (λ kv : string * string, label_ok (rank id) kv.2) st.2 →
  post (λ st, trace_ok st.1 ∧ Forall (λ kv : string * string, label_ok (rank id) kv.2) st.2) E
    (format_kwarg py inputs graph flattened op paths labels st kv).
Proof using HE.
intros Hl Hr [Ht Hk]. destruct kv as [k v]. cbn [format_kwarg fst snd] in *. destruct (nonempty _).
- specialize (Hr eq_refl). apply (post_bind (col_ok graph)).
  + pose proof (node_ref_column_post graph E HE inputs flattened ("ref_" +:+ GOp.id op +:+ "_" +:+ k) v (dget_or "" k paths) Hr) as Hn.
    destruct (dget v graph) as [up|] eqn:Hup; [|exact Hn]. cbn [fmap option_fmap option_map]. destruct (GOp.cls up) eqn:Hcls; try exact Hn.
    apply post_any; [done|by apply post_ok_or; [|by apply HE]|]. intros values _. apply post_any; [done|apply project_post|].
    intros items _. apply labelled_data_ok.
  + intros col _ Hcol. split; cbn [fst snd]; [by apply column_set_ok|]. apply Forall_app. split; [done|]. apply Forall_singleton. cbn [snd].
    apply plain_ok, (ref_plain (GOp.id op) ("_" +:+ k)).
- apply (post_bind (λ msgs, msgs_ok (rank id) msgs)).
  + unfold dindex. destruct (dget v labels) eqn:Hd; [by eapply Hl|by apply HE].
  + intros msgs _ Hm. destruct msgs as [|m msgs]; [by apply HE|]. cbn. split; [done|]. apply Forall_app. split; [done|]. apply Forall_singleton.
    by apply Forall_cons in Hm as [? _].
Qed.

Lemma visit_fields_ok fields t : trace_ok t → trace_ok (foldl (λ t i, match dget i graph with Some up => if GOp.is_input up then t_visit i t else t | None => t end) t fields).
Proof using Type.
revert t. induction fields as [|i fields IH]; intros t Ht; [done|]. simpl. apply IH. repeat case_match; try done; by apply trace_visit_ok.
Qed.

Lemma trace_format_post template kwargs paths t : GOp.cls op = GOp.FormatOp template kwargs paths → trace_ok t →
  post trace_ok E (trace_format py inputs graph flattened rec op template kwargs paths t).
Proof using HE Hop Hrec Hrefs Hwf.
intros Hcls Ht. pose proof (graph_refs _ _ Hop) as Hr. unfold refs_ok in Hr. rewrite Hcls, forallb_forall in Hr.
unfold trace_format. apply post_any; [done| |intros _ _].
{ destruct kwargs; [done|]. by eapply post_true, post_assert. }
apply post_any; [done| |intros fields _].
{ eapply post_mono; [|apply (post_mapR (λ _, True))]; [done|]. intros k _. by apply post_ok_or; [|by apply HE]. }
apply (post_bind (λ r, trace_ok r.1 ∧ labels_ok (rank id) r.2)).
{ apply trace_inputs_post; [|done]. by intros i [_ ?]%list_elem_of_filter. }
intros [t1 labels] _ [Ht1 Hl]. cbn [fst snd].
pose proof (visit_fields_ok fields t1 Ht1) as Ht2.
revert Ht2. generalize (foldl (λ t i, match dget i graph with Some up => if GOp.is_input up then t_visit i t else t | None => t end) t1 fields). intros t2 Ht2.
apply post_any; [done|by eapply post_true, post_assert|]. intros _ _.
apply (post_bind (λ st, trace_ok st.1 ∧ Forall (λ kv : string * string, label_ok (rank id) kv.2) st.2)).
{ apply post_foldR; [|by split; [|constructor]]. intros st kv Hkv Hst. apply format_kwarg_post; [done| |done].
  intros Hp. specialize (Hr kv (proj1 (list_elem_of_In _ _) Hkv)). by rewrite Hp in Hr. }
intros [t3 kw] _ [Ht3 Hk]. cbn [fst snd] in *. rewrite (graph_id _ _ Hwf _ _ Hop). apply keep_ok.
- apply Forall_singleton. right; right. exists id. split; [done|lia].
- by apply template_step_ok.
Qed.
End rec.

Lemma trace_ancestors_post fuel id t : fuel_ok E (rank id) fuel → trace_ok t →
  post (λ r, traced id r) E (trace_ancestors py limit inputs graph flattened target api_mode fuel id t).
Proof using All.
revert id t. induction fuel as [|fuel IH]; intros id t Hf Ht; [destruct Hf; [done|lia]|].
cbn [trace_ancestors]. apply (post_bind (λ op, dget id graph = Some op)); [by apply post_deref|]. intros op _ Hop.
destruct (dget id (t_buffer t)) as [msgs|] eqn:Hb; [by split; [|by eapply to_buffer]|].
apply (post_bind trace_ok); [|intros t' _ Ht'; split; [done|by apply buffer_ok]].
assert (Hrec : ∀ i t, i ∈ GOp.inputs op → trace_ok t →
  post (λ r, traced i r) E (trace_ancestors py limit inputs graph flattened target api_mode fuel i t)).
{ intros i t1 Hi Ht1. apply IH; [|done]. destruct (graph_input _ _ Hwf _ _ _ Hop Hi) as [_ Hr]. by eapply fuel_ok_S. }
apply (trace_visit_ok id) in Ht.
pose proof (graph_labels _ _ Hop) as Hlab. unfold labels_op in Hlab.
destruct (GOp.cls op) as [name|name path|data|spec|messages|template kwargs paths|l|config c|config c source path|config|config] eqn:Hcls.
all: try (apply (trace_llm_post id); [done|by unfold GOp.is_llm, GOp.llm; rewrite Hcls|done]).
all: assert (Huser : (E RecursionError ∨ plain_label id = true) → msgs_ok (S (rank id)) [Packed "user" id])
  by (intros [?|?]; apply Forall_singleton; [by left|by apply plain_ok]).
- destruct (dmem _ _); [by apply keep_ok; [apply Huser|]|]. apply post_any; [done|by apply post_ok_or; [|by apply HE]|]. intros values _.
  assert (Hk : trace_ok (t_keep id [Packed "user" id] (t_column_once id (data_column values) (t_visit id t)))).
  { apply keep_ok; [by apply Huser|]. apply column_once_ok; [apply data_column_ok|done]. }
  simpl. destruct (Nat.ltb _ _); [by apply trace_count_ok|done].
- by apply HE.
- apply keep_ok; [by apply Huser|]. apply column_once_ok; [apply data_column_ok|done].
- destruct (dmem _ _); [by apply keep_ok; [apply Huser|]|]. apply post_any; [done| |].
  + unfold retrieval_items_path. apply post_any; [done|by apply post_ok_or; [|by apply HE]|]. intros mode _. by repeat (destruct (bool_decide _); [done|]); apply HE.
  + intros path _. apply keep_ok; [by apply Huser|]. apply column_once_ok; [|done]. apply node_column_ok.
    unfold compiledb, compiles. rewrite Hop. unfold GOp.is_retrieval. rewrite Hcls. by rewrite orb_true_r.
- apply post_foldR; [|by apply keep_ok; [constructor|]]. intros t1 rc Hrc Ht1. apply (trace_message_post _ id op); [done|done| |done].
  destruct rc as [role [s|cid]]; cbn [snd].
  + destruct Hlab as [?|Hlab]; [by left|right]. rewrite forallb_forall in Hlab. by apply (Hlab (role, Text s)), list_elem_of_In.
  + apply (graph_message _ _ Hwf id op cid Hop). unfold message_refs. rewrite Hcls. apply list_elem_of_omap. by exists (role, OpRef cid).
- by apply (trace_format_post _ id).
- destruct (Lambda.image l); [by apply HE|]. destruct (Lambda.takes_whole_columns l); [by apply HE|].
  apply (post_bind (λ r, trace_ok r.1 ∧ labels_ok (rank id) r.2)); [by apply (trace_inputs_post _ id op)|].
  intros [t1 labels] _ [Ht1 Hl]. by apply (finish_lambda_post id).
Qed.

(** What the messages of an op read is compiled. *)
Definition template_ok (template : dict string val) : Prop :=
∃ columns, Forall (col_ok graph) columns ∧ vget "columns" template = VList (VDict <$> columns).

Hypothesis Hset : ∀ l, set_order py l ≡ₚ l.

Lemma infer_post visited : is_Some (dget target graph) →
  post (λ r, Forall (λ d, compiled d) r.1.2 ∧ template_ok r.2) E (infer_structural_messages py limit inputs graph flattened target api_mode visited).
Proof using All.
intros _. unfold infer_structural_messages. apply (post_bind (λ op, dget target graph = Some op)); [by apply post_deref|]. intros op _ Hop.
apply post_any; [done|by eapply post_true, post_assert|]. intros _ _.
apply (post_bind (λ i, i ∈ GOp.inputs op)); [by apply post_first|]. intros first _ Hfirst.
destruct (graph_input _ _ Hwf _ _ _ Hop Hfirst) as [[inp Hinp] _].
apply (post_bind (λ r, traced first r)).
{ apply trace_ancestors_post; [by eapply Hlimit|]. split; cbn; try done; set_solver. }
intros [t msgs] _ [Ht _]. cbn [fst snd]. destruct (Nat.ltb _ _); [by apply HE|]. split; cbn [fst snd].
- apply Forall_forall. intros d Hd. rewrite Hset in Hd. by apply (proj1 (Forall_forall _ _) (to_upstream _ Ht)).
- exists ((λ kv : string * dict string val, dupdate [("label", VStr kv.1)] kv.2) <$> t_columns t). split.
  + apply Forall_forall. intros c ([label col] & -> & Hin)%list_elem_of_fmap. cbn [fst snd]. apply labelled_ok. by eapply to_columns.
  + unfold vget, dget_or. cbn. by rewrite <-list_fmap_compose.
Qed.
End trace.

(** ** Steps of a plan *)

(** The results a node reads, once each *)
Definition distinct (l : list string) : list string := foldl add_ref [] l.

Lemma distinct_snoc l x : distinct (l ++ [x]) = add_ref (distinct l) x.
Proof. unfold distinct. by rewrite foldl_app. Qed.
Lemma add_ref_nodup l x : NoDup l → NoDup (add_ref l x).
Proof. intros H. unfold add_ref. case_bool_decide; [done|]. apply NoDup_app. split_and!; [done|set_solver|apply NoDup_singleton]. Qed.
Lemma distinct_nodup l : NoDup (distinct l).
Proof. induction l as [|x l IH] using rev_ind; [constructor|]. rewrite distinct_snoc. by apply add_ref_nodup. Qed.
Lemma nodup_distinct l : NoDup l → distinct l = l.
Proof.
  induction l as [|x l IH] using rev_ind; [done|]. intros (H1 & H2 & _)%NoDup_app. rewrite distinct_snoc, IH by done.
  unfold add_ref. rewrite bool_decide_false; [done|set_solver].
Qed.
Lemma distinct_idem l : distinct (distinct l) = distinct l.
Proof. apply nodup_distinct, distinct_nodup. Qed.

(** An entry of a plan either reads a stage or is literal. *)
Definition entry_ok (entry : val) : Prop := ∀ l, add_stage (VStr <$> l) entry = Ok (VStr <$> add_dep l (stage_node entry)).

Lemma stage_dict_ok d n : dget "kind" d = Some (VStr "stage") → dget "node" d = Some (VStr n) →
  entry_ok (VDict d) ∧ stage_node (VDict d) = Some n.
Proof.
  intros Hk Hn. assert (Hs : stage_node (VDict d) = Some n) by (unfold stage_node, vget, dget_or; by rewrite Hk, Hn, bool_decide_true).
  split; [|done]. intros l. rewrite Hs. unfold add_stage, vindex, dindex. rewrite Hk. cbn. rewrite Hn. cbn.
  f_equal. unfold add_ref. destruct (decide (n ∈ l)) as [H|H].
  - rewrite !bool_decide_true; [done|done|]. by apply list_elem_of_fmap_2.
  - rewrite !bool_decide_false; [by rewrite fmap_app|done|]. intros (m & [= <-] & Hm)%list_elem_of_fmap. done.
Qed.
Lemma literal_dict_ok d : dget "kind" d = Some (VStr "literal") → entry_ok (VDict d) ∧ stage_node (VDict d) = None.
Proof.
  intros Hk. assert (Hs : stage_node (VDict d) = None) by (unfold stage_node, vget, dget_or; by rewrite Hk).
  split; [|done]. intros l. rewrite Hs. unfold add_stage, vindex, dindex. by rewrite Hk.
Qed.

Lemma plan_stages_ok plan : Forall entry_ok plan → plan_stages plan = Ok (VStr <$> distinct (omap stage_node plan)).
Proof.
  intros H. unfold plan_stages. change ([] : list val) with (VStr <$> ([] : list string)). unfold distinct. generalize ([] : list string).
  induction H as [|e plan He _ IH]; intros l; [done|]. rewrite foldR_cons, He. cbn [mbind result_bind]. rewrite IH. f_equal. f_equal.
  cbn. destruct (stage_node e); done.
Qed.

(** ** The task of a python step *)

Definition stage_inputs (deps : list string) : option val :=
  match deps with [] => None | _ => Some (VList ((λ d, VDict [("stage", VStr d)]) <$> deps)) end.

Lemma flowmesh_spec_inputs render to_str id d plan src timeout :
  dget "plan" d = Some (VList plan) → Forall entry_ok plan → step_source id d plan = Ok src → dget "timeout_s" d = Some timeout →
  ∃ spec, flowmesh_spec render to_str id d = Ok spec ∧ dget "inputs" spec = stage_inputs (distinct (omap stage_node plan)).
Proof.
  intros Hp He Hs Ht. unfold flowmesh_spec, dindex. rewrite Hp. cbn. rewrite Hs. cbn. rewrite Ht. cbn. rewrite plan_stages_ok by done. cbn.
  eexists. split; [reflexivity|].
  assert (Hr : ∀ s, dget "inputs" (match dget "memory_mb" d with
    | Some m => dset "resources" (VDict [("hardware", VDict [("memory", VStr (to_str m +:+ "Mi"))])]) s | None => s end) = dget "inputs" s).
  { intros s. destruct (dget "memory_mb" d); [|done]. by rewrite dget_dset. }
  rewrite Hr. destruct (distinct _) as [|x l]; cbn [fmap list_fmap].
  - cbn. repeat case_match; done.
  - rewrite dget_dset, decide_True by done. cbn. by rewrite <-list_fmap_compose.
Qed.

(** A python node runs as a step that waits for its dependencies. *)
Definition runs_as_step (render : source → string) (to_str : val → string) (n : RuntimeOp.t) : Prop :=
  RuntimeOp.task_type n = PYTHON_TASK_TYPE →
  ∃ spec, flowmesh_spec render to_str (RuntimeOp.node_id n) (RuntimeOp.data_spec n) = Ok spec ∧
          dget "inputs" spec = stage_inputs (distinct (RuntimeOp.dependencies n)).

Lemma dget_set_optional k k' v d : k ≠ k' → dget k (set_optional k' v d) = dget k d.
Proof. intros H. unfold set_optional. destruct (is_none v); [done|]. by apply dget_dset_ne. Qed.

(** The optional fields do not touch the others. *)
Lemma lambda_spec_get k l plan with_mode rows : k ∉ ["memory_mb"; "image"; "expected_runtime_s"; "row_count"; "cache"] →
  dget k (lambda_spec l plan with_mode rows) =
  dget k ([("code", VStr (Lambda.code l)); ("fn_name", VStr (Lambda.fn_name l)); ("plan", VList plan)] ++
    (if with_mode then [("mode", VStr (Lambda.mode l))] else []) ++
    [("timeout_s", if is_none (Lambda.timeout_s l) then VInt DEFAULT_TIMEOUT_SECONDS else Lambda.timeout_s l)]).
Proof.
  rewrite !not_elem_of_cons. intros (H1 & H2 & H3 & H4 & H5 & _). unfold lambda_spec. rewrite dget_set_optional by done.
  match goal with |- dget k (if _ then ?d else _) = _ => transitivity (dget k d) end.
  - destruct (is_none _); [done|]. destruct rows; by rewrite ?(dget_dset_ne k _ _ _ H4), (dget_dset_ne k _ _ _ H3).
  - destruct (Lambda.image l); by rewrite ?(dget_dset_ne k _ _ _ H2), dget_set_optional.
Qed.

Lemma lambda_spec_fields l plan with_mode rows :
  dget "plan" (lambda_spec l plan with_mode rows) = Some (VList plan) ∧
  dget "fn_name" (lambda_spec l plan with_mode rows) = Some (VStr (Lambda.fn_name l)) ∧
  dget "code" (lambda_spec l plan with_mode rows) = Some (VStr (Lambda.code l)) ∧
  dget "mode" (lambda_spec l plan with_mode rows) = (if with_mode then Some (VStr (Lambda.mode l)) else None) ∧
  dget "type" (lambda_spec l plan with_mode rows) = None ∧
  ∃ timeout, dget "timeout_s" (lambda_spec l plan with_mode rows) = Some timeout.
Proof. rewrite !lambda_spec_get by (by apply (bool_decide_unpack _)). destruct with_mode; cbn; eauto 10. Qed.

Lemma lambda_source id l plan with_mode rows :
  (with_mode = true → Lambda.takes_whole_columns l = true) → ∃ src, step_source id (lambda_spec l plan with_mode rows) plan = Ok src.
Proof.
  intros Hm. destruct (lambda_spec_fields l plan with_mode rows) as (_ & Hf & Hc & Hmode & _ & _).
  unfold step_source, dindex, dget_or. rewrite Hmode, Hf, Hc. cbn. destruct with_mode; [|cbn; eauto].
  specialize (Hm eq_refl). unfold Lambda.takes_whole_columns in Hm. apply bool_decide_eq_true in Hm.
  apply elem_of_cons in Hm as [-> |Hm]; [cbn; eauto|]. apply elem_of_cons in Hm as [-> |Hm]; [cbn; eauto|]. by apply elem_of_nil in Hm.
Qed.

Lemma attach_other env d : vget "type" d ≠ VStr "list" → attach_lumid_cfg env d = Ok d.
Proof. intros H. unfold attach_lumid_cfg. by rewrite bool_decide_false. Qed.

Lemma python_node_other env name d deps : vget "type" d ≠ VStr "list" →
  python_node env name d deps = Ok (RuntimeOp.mk name PYTHON_TASK_TYPE BACKEND "" d [] [] [] deps None None).
Proof. intros H. unfold python_node, create_runtime_op. by rewrite attach_other. Qed.

(** The step of a lambda whose plan reads its dependencies *)
Lemma lambda_node_ok render to_str env name l plan with_mode rows deps :
  (with_mode = true → Lambda.takes_whole_columns l = true) → Forall entry_ok plan → distinct deps = distinct (omap stage_node plan) →
  ∃ n, python_node env name (lambda_spec l plan with_mode rows) deps = Ok n ∧ RuntimeOp.node_id n = name ∧
       RuntimeOp.dependencies n = deps ∧ runs_as_step render to_str n.
Proof.
  intros Hm He Hd. destruct (lambda_spec_fields l plan with_mode rows) as (Hp & _ & _ & _ & Ht & timeout & Hto).
  rewrite python_node_other by (unfold vget, dget_or; by rewrite Ht). eexists. split; [reflexivity|]. split_and!; [done|done|]. intros _. cbn [RuntimeOp.node_id RuntimeOp.data_spec RuntimeOp.dependencies].
  destruct (lambda_source name l plan with_mode rows Hm) as [src Hsrc]. rewrite Hd. by eapply flowmesh_spec_inputs.
Qed.

(** ** The nodes of each op *)

Section nodes.
Context (env : builder_env) (py : py_env) (urlsplit : string → result (string * option string * option Z)).
Context (limit : nat) (inputs : inputs_dict) (graph input_ops : ops_dict) (flattened : list string).
Context (rank : string → nat) (E : exn → Prop) (render : source → string) (to_str : val → string).
Hypothesis Hwf : wf_graph graph rank = true.
Hypothesis Hrefs : refs_graph graph input_ops = true.
Hypothesis HE : ∀ e, e ≠ RecursionError → E e.
Hypothesis Hlimit : ∀ id op, dget id graph = Some op → fuel_ok E (rank id) limit.
Hypothesis Hlabels : E RecursionError ∨ labels_graph graph = true.
Hypothesis Hformat : ∀ template d, post (λ _, True) E (py_format py template d).
Hypothesis Hcall : ∀ id args, post (λ _, True) E (call_fn py id args).
Hypothesis Hset : ∀ l, set_order py l ≡ₚ l.
Hypothesis Hurl : ∀ url, post (λ _, True) E (urlsplit url).
Local Abbreviation compiled id := (compiledb graph id = true).
Local Abbreviation post_rows := (rows_limit_post inputs graph rank E Hwf HE limit Hlimit).
Local Abbreviation post_rows_or_one := (rows_or_one_post inputs graph rank E Hwf HE limit Hlimit).
Local Abbreviation post_condition := (row_condition_post inputs graph rank E Hwf HE limit Hlimit).

(** A node that may be built with the nodes [batch] *)
Definition node_ok (batch : list string) (n : RuntimeOp.t) : Prop :=
(∀ d, d ∈ RuntimeOp.dependencies n → compiled d ∨ d ∈ batch) ∧ runs_as_step render to_str n.

Lemma compiled_deps_ok batch n : Forall (λ d, compiled d) (RuntimeOp.dependencies n) → RuntimeOp.task_type n ≠ PYTHON_TASK_TYPE → node_ok batch n.
Proof. intros H Ht. split; [|by intros Hp]. intros d Hd. left. by eapply Forall_forall in H. Qed.

Lemma create_post name task_type data model inference api backend m deps output condition :
  post (λ n, RuntimeOp.node_id n = name ∧ RuntimeOp.dependencies n = deps ∧ RuntimeOp.task_type n = task_type) E
    (create_runtime_op env name task_type data model inference api backend m deps output condition).
Proof using HE.
unfold create_runtime_op. apply post_any; [done| |done]. unfold attach_lumid_cfg. destruct (_ || _)%bool; [done|].
destruct (vget "items" data); try done. repeat (destruct (negb _); [first [done|by apply HE]|]). done.
Qed.

(** A node of another kind whose dependencies are compiled *)
Lemma create_ok name task_type data model inference api backend m deps output condition :
  task_type ≠ PYTHON_TASK_TYPE → Forall (λ d, compiled d) deps →
  post (λ n, RuntimeOp.node_id n = name ∧ node_ok [] n) E (create_runtime_op env name task_type data model inference api backend m deps output condition).
Proof using HE.
intros Ht Hd. eapply post_mono; [|apply create_post]. intros n (Hid & Hdeps & Htt). split; [done|]. apply compiled_deps_ok; [by rewrite Hdeps|by rewrite Htt].
Qed.

Lemma compiles_compiled id op : dget id graph = Some op → compiles op = true → compiled id.
Proof. intros H Hc. unfold compiledb. by rewrite H. Qed.

(** *** Lambdas *)

Lemma upstream_entry_ok inp n : entry_ok (upstream_entry inp n) ∧ stage_node (upstream_entry inp n) = Some n.
Proof. unfold upstream_entry, stage_entry. destruct (is_rowwise_llm inp); by apply stage_dict_ok. Qed.
Lemma stage_entry_ok n : entry_ok (stage_entry n) ∧ stage_node (stage_entry n) = Some n.
Proof. by apply stage_dict_ok. Qed.
Lemma literal_entry_ok values : entry_ok (literal_entry values) ∧ stage_node (literal_entry values) = None.
Proof. by apply literal_dict_ok. Qed.

Record step_ok (P : string → Prop) (si : step_inputs) : Prop := {
so_deps : Forall P (si_deps si);
so_plan : Forall entry_ok (si_plan si);
so_stages : distinct (si_deps si) = distinct (omap stage_node (si_plan si));
}.
Lemma no_inputs_ok P : step_ok P no_inputs.
Proof. by repeat constructor. Qed.
Lemma add_literal_ok P id values si : step_ok P si → step_ok P (add_literal id values si).
Proof.
intros [Hd Hp Hs]. split; [done| |]; cbn.
- apply Forall_app. split; [done|]. apply Forall_singleton. apply literal_entry_ok.
- by rewrite omap_app, app_nil_r.
Qed.
(** A stage, with a dependency that is appended or added *)
Lemma add_stage_ok (P : string → Prop) si entry dep deps rows : step_ok P si → P dep → entry_ok entry ∧ stage_node entry = Some dep →
  deps = si_deps si ++ [dep] ∨ deps = add_ref (si_deps si) dep ∧ NoDup (si_deps si) →
  step_ok P (StepInputs (si_plan si ++ [entry]) deps rows).
Proof.
intros [Hd Hp Hs] HP [He Hn] Hdeps. split; cbn.
- destruct Hdeps as [-> |[-> _]].
  + apply Forall_app. split; [done|]. by apply Forall_singleton.
  + apply Forall_forall. intros x [Hx| ->]%elem_of_add_ref; [by eapply Forall_forall in Hd|done].
- apply Forall_app. split; [done|]. by apply Forall_singleton.
- rewrite omap_app. cbn. rewrite Hn, distinct_snoc, <-Hs. destruct Hdeps as [-> |[-> Hnd]]; [by rewrite distinct_snoc|].
  rewrite (nodup_distinct (add_ref _ _)) by (by apply add_ref_nodup). by rewrite nodup_distinct.
Qed.

Lemma list_lambda_input_post st i : step_ok (λ d, compiled d) st → post (step_ok (λ d, compiled d)) E (list_lambda_input limit inputs graph st i).
Proof using All.
intros Hst. unfold list_lambda_input. apply (post_bind (λ op, dget i graph = Some op)); [by apply post_deref|]. intros inp _ Hinp. cbn zeta.
assert (Hup : ∀ entry, compiles inp = true → entry_ok entry ∧ stage_node entry = Some i →
  post (step_ok (λ d, compiled d)) E (n ← static_output_row_count inputs graph limit inp; Ok (StepInputs (si_plan st ++ [entry]) (si_deps st ++ [i]) (si_rows st ++ [(i, n)])))).
{ intros entry Hc He. apply post_any; [done|by eapply post_rows|]. intros n _. apply (add_stage_ok _ st entry i); [done|by eapply compiles_compiled|done|by left]. }
destruct (GOp.is_list_lambda inp) eqn:Hl.
{ apply Hup; [|apply stage_entry_ok]. unfold compiles, is_lambda. unfold GOp.is_list_lambda in Hl. destruct (GOp.lambda inp); [by rewrite orb_true_r|done]. }
destruct (GOp.is_llm inp) eqn:Hllm; [apply Hup; [by unfold compiles; rewrite Hllm|apply upstream_entry_ok]|].
destruct (GOp.is_retrieval inp) eqn:Hr; [apply Hup; [by unfold compiles; rewrite Hr, orb_true_r|apply stage_entry_ok]|].
destruct (GOp.cls inp); try by apply HE.
- apply post_any; [done|by apply post_ok_or; [|by apply HE]|]. intros values _. by apply add_literal_ok.
- by apply add_literal_ok.
Qed.

Lemma list_lambda_post op l : Lambda.takes_whole_columns l = true →
  post (λ n, RuntimeOp.node_id n = GOp.id op ∧ node_ok [] n) E (build_node_from_list_lambda_op env limit inputs graph op l).
Proof using All.
intros Hl. unfold build_node_from_list_lambda_op. apply (post_bind (step_ok (λ d, compiled d))).
{ apply post_foldR; [|apply no_inputs_ok]. intros. by apply list_lambda_input_post. }
intros st _ [Hd Hp Hs]. apply post_any; [done|by apply step_rows_post|]. intros rows _.
destruct (lambda_node_ok render to_str env (GOp.id op) l (si_plan st) true rows (si_deps st)) as (n & -> & Hid & Hdeps & Hrun); [done|done|done|].
split; [done|]. split; [|done]. rewrite Hdeps. intros d Hin. left. by eapply Forall_forall in Hd.
Qed.

(** *** Retrievals *)

Lemma op_refs id op : dget id graph = Some op → refs_ok graph input_ops op = true.
Proof using Hrefs.
intros H%dget_elem. unfold refs_graph in Hrefs. rewrite forallb_forall in Hrefs. by apply (Hrefs (id, op)), list_elem_of_In.
Qed.

Lemma readable_compiled n op : dget n graph = Some op → GOp.is_input op = false → readable graph n = true → compiled n.
Proof using Type. intros H Hi Hr. unfold readable in Hr. rewrite H, Hi in Hr. by eapply compiles_compiled. Qed.

Lemma retrieval_input_post deps i : readable graph i = true → Forall (λ d, compiled d) deps →
  post (Forall (λ d, compiled d)) E (retrieval_input graph deps i).
Proof using HE.
intros Hr Hd. unfold retrieval_input. apply (post_bind (λ op, dget i graph = Some op)); [by apply post_deref|]. intros inp _ Hinp.
cbn. destruct (GOp.is_input inp) eqn:Hi; [done|]. apply add_ref_compiled; [done|]. by eapply readable_compiled.
Qed.

Lemma lambda_path_post path l : post (λ _, True) E (lambda_read_path path l).
Proof using HE. unfold lambda_read_path. destruct (negb _); [by apply HE|]. by destruct (_ && _)%bool. Qed.

Lemma resolve_param_post st p : param_ok graph input_ops p = true → Forall (λ d, compiled d) (ps_deps st) →
  post (λ st, Forall (λ d, compiled d) (ps_deps st)) E (resolve_retrieval_param (py_str py) limit inputs graph input_ops st p).
Proof using All.
intros Hp Hd. unfold resolve_retrieval_param. destruct p as [| | | | | | |d]; try done. unfold param_ok in Hp.
destruct (vget "node" d) as [| | | |n| | |] eqn:Hn; try done. unfold resolve_upstream, resolve_param_upstream. cbn zeta.
destruct (dget n graph) as [up|] eqn:Hup.
- assert (Hcomp : GOp.is_input up = false → compiled n) by (intros Hi; rewrite Hi in Hp; by eapply compiles_compiled).
  cbn [fmap option_fmap option_map]. unfold GOp.is_input in Hcomp. destruct (GOp.cls up) eqn:Hcls.
  { apply post_any; [done|by apply post_ok_or; [|by apply HE]|]. intros values _. destruct (negb _); [by apply HE|done]. }
  all: specialize (Hcomp eq_refl); apply post_any; [done| |intros counts _].
  all: try (destruct (GOp.is_llm up); [|done]; apply post_any; [done|by eapply post_rows|]; intros [k|] _; [|done];
    destruct (Nat.ltb 1 k); [|done]; destruct (emits_one_item_per_row up); [done|by apply HE]).
  all: apply post_any; [done| |intros d' _; by apply add_ref_compiled].
  all: cbn; destruct (GOp.lambda up) as [lam|]; [|done]; apply post_any; [done| |intros pth _; apply post_any; [done|apply lambda_path_post|done]].
  all: destruct (dget_or (VStr "") "path" d); by try apply HE.
- destruct (dget n input_ops) as [up|]; [|done]. unfold GOp.is_input in Hp. cbn [fmap option_fmap option_map].
  destruct (GOp.cls up); try done. apply post_any; [done|by apply post_ok_or; [|by apply HE]|]. intros values _. destruct (negb _); [by apply HE|done].
Qed.

Lemma retrieval_post id op spec : dget id graph = Some op → GOp.cls op = GOp.DataRetrievalOp spec →
  post (λ n, RuntimeOp.node_id n = id ∧ node_ok [] n) E (build_node_from_data_retrieval_op env (py_str py) limit inputs graph input_ops op spec).
Proof using All.
intros Hop Hcls. pose proof (op_refs _ _ Hop) as Hr. unfold refs_ok in Hr. rewrite Hcls in Hr. apply andb_true_iff in Hr as [Hi Hp].
rewrite forallb_forall in Hi. unfold build_node_from_data_retrieval_op. rewrite (graph_id _ _ Hwf _ _ Hop).
destruct (negb _); [by apply HE|]. apply post_any; [done| |intros mode _].
{ unfold retrieval_mode. apply post_any; [done|by apply post_ok_or; [|by apply HE]|]. intros m _. destruct m; try by apply HE. destruct (bool_decide _); [done|by apply HE]. }
destruct (negb _); [by apply HE|]. destruct (negb _); [by apply HE|].
apply (post_bind (λ params, forallb (param_ok graph input_ops) params = true)).
{ destruct (get_or _ _ _); try by apply HE. exact Hp. }
intros params _ Hparams. rewrite forallb_forall in Hparams. apply post_any; [done| |intros template _].
{ unfold retrieval_template. destruct (bool_decide _); [by apply post_ok_or; [|by apply HE]|].
  apply post_any; [done|by apply post_ok_or; [|by apply HE]|]. intros s _. destruct (vget _ spec); try done; by apply HE. }
apply (post_bind (Forall (λ d, compiled d))).
{ apply post_foldR; [|constructor]. intros deps i Hin Hd. apply retrieval_input_post; [|done]. by apply Hi, list_elem_of_In. }
intros deps _ Hd. apply (post_bind (λ st, Forall (λ d, compiled d) (ps_deps st))).
{ apply post_foldR; [|done]. intros st p Hin Hst. apply resolve_param_post; [|done]. by apply Hparams, list_elem_of_In. }
intros st _ Hst. destruct (Nat.ltb _ _); [by apply HE|].
destruct (if String.eqb mode "agent" then _ else _) as [t ps]. by apply create_ok.
Qed.

(** *** Config *)

Lemma with_extras_post extras typed : post (λ _, True) E (GenerationConfig.with_extras extras typed).
Proof using HE.
unfold GenerationConfig.with_extras. apply post_any; [done| |].
- destruct (truthy extras); [|done]. by apply post_ok_or; [|by apply HE].
- intros e _. destruct (existsb _ _); [by apply HE|done].
Qed.
Lemma inference_spec_post config : post (λ _, True) E (GenerationConfig.inference_spec config).
Proof using HE. apply with_extras_post. Qed.
Lemma model_spec_post config backend d : post (λ _, True) E (build_model_spec env config backend d).
Proof using HE.
unfold build_model_spec. apply post_any; [done|apply with_extras_post|]. intros overlay _.
destruct (String.eqb _ _); [done|]. destruct (String.eqb _ _); [done|]. destruct (String.eqb _ _); [|done]. destruct (existsb _ _); [by apply HE|done].
Qed.

(** *** Embeddings and images *)

Lemma items_path_post spec : post (λ _, True) E (retrieval_items_path spec).
Proof using HE.
unfold retrieval_items_path. apply post_any; [done|by apply post_ok_or; [|by apply HE]|]. intros mode _.
by repeat (destruct (bool_decide _); [done|]); apply HE.
Qed.

Lemma content_spec_post id op : dget id graph = Some op → compiles op = true →
  post (λ r, Forall (λ d, compiled d) r.2) E (content_spec limit inputs graph flattened op).
Proof using All.
intros Hop Hc. unfold content_spec. apply post_any; [done| |intros _ _].
{ by eapply (guard_post inputs graph rank E Hwf HE limit Hlimit). }
apply post_any; [done| |].
- unfold content_path. destruct (GOp.cls op); try done. apply items_path_post.
- intros path _. cbn. apply Forall_singleton. rewrite (graph_id _ _ Hwf _ _ Hop). by eapply compiles_compiled.
Qed.

(** A node and the visited ids that come with it *)
Abbreviation built id := (λ r : list string * RuntimeOp.t, RuntimeOp.node_id r.2 = id ∧ node_ok [] r.2).

Lemma built_node id visited (r : result RuntimeOp.t) : post (λ n, RuntimeOp.node_id n = id ∧ node_ok [] n) E r →
  post (built id) E (n ← r; Ok (visited, n)).
Proof using Type. intros H. eapply post_bind; [exact H|]. done. Qed.

Lemma content_op_eq op : content_op graph op = (cid ← GOp.first_input op; deref graph cid).
Proof using Type. done. Qed.

Lemma embedding_post id op config visited : dget id graph = Some op → GOp.cls op = GOp.EmbeddingOp config →
  post (built id) E (build_node_from_embedding_op env limit inputs graph flattened op config visited).
Proof using All.
intros Hop Hcls. pose proof (op_refs _ _ Hop) as Hr. unfold refs_ok, content_op in Hr. rewrite Hcls in Hr.
unfold build_node_from_embedding_op. rewrite (graph_id _ _ Hwf _ _ Hop).
apply (post_bind (λ i, i ∈ GOp.inputs op)); [by apply post_first|]. intros cid Hcid _. rewrite Hcid in Hr. cbn in Hr.
apply (post_bind (λ op, dget cid graph = Some op)); [by apply post_deref|]. intros content Hc1 Hc. rewrite Hc1 in Hr.
apply (post_bind (λ r : dict string val * list string, Forall (λ d, compiled d) r.2)).
- assert (Hv : ∀ items, post (λ _, True) E (validate_embedding_texts items)) by (intros; unfold validate_embedding_texts; destruct (forallb _ _); [done|by apply HE]).
  unfold content_ok in Hr. destruct (GOp.cls content) eqn:Hcc; try by eapply content_spec_post.
  + destruct (dget _ inputs) as [[|v vs]|]; try by apply HE. apply post_any; [done|apply Hv|]. intros _ _. constructor.
  + destruct data as [|v vs]; [by apply HE|]. apply post_any; [done|apply Hv|]. intros _ _. constructor.
- intros spec _ Hspec. apply post_any; [done|apply model_spec_post|]. intros m _. apply built_node. by apply create_ok.
Qed.

Lemma image_post id op config visited : dget id graph = Some op → GOp.cls op = GOp.ImageGenerationOp config →
  post (built id) E (build_node_from_image_op env limit inputs graph flattened op config visited).
Proof using All.
intros Hop Hcls. pose proof (op_refs _ _ Hop) as Hr. unfold refs_ok, image_op, content_op in Hr. rewrite Hcls in Hr.
unfold build_node_from_image_op. rewrite (graph_id _ _ Hwf _ _ Hop).
apply (post_bind (λ i, i ∈ GOp.inputs op)); [by apply post_first|]. intros cid Hcid _. rewrite Hcid in Hr. cbn in Hr.
apply post_any; [done|apply inference_spec_post|]. intros inference _.
apply (post_bind (λ op, dget cid graph = Some op)); [by apply post_deref|]. intros content0 Hc1 Hc0. rewrite Hc1 in Hr. cbn in Hr.
apply (post_bind (λ content, ∃ i, dget i graph = Some content)).
{ assert (Hself : post (λ content, ∃ i, dget i graph = Some content) E (Ok content0)) by (by exists cid).
  unfold image_content. destruct (GOp.cls content0); try exact Hself. destruct (GOp.inputs content0) as [|inner []]; try exact Hself.
  destruct (String.eqb _ _); [|exact Hself]. eapply post_mono; [|by apply post_deref]. intros inner_op Hi. by exists inner. }
intros content Hc2 [ci Hc]. rewrite Hc2 in Hr.
apply (post_bind (λ r : dict string val * list string, Forall (λ d, compiled d) r.2)).
- unfold content_ok in Hr. destruct (GOp.cls content) eqn:Hcc; try by eapply content_spec_post.
  apply post_any; [done|by apply post_ok_or; [|by apply HE]|]. intros values _. constructor.
- intros spec _ Hspec. apply post_any; [done|apply model_spec_post|]. intros m _. apply built_node. by apply create_ok.
Qed.

(** *** Columns of a chat *)

Lemma node_column_post label n path : readable graph n = true → post (col_ok graph) E (node_ref_column inputs flattened label n path (dget n graph)).
Proof using HE. by apply node_ref_column_post. Qed.

Lemma rowwise_column_post vision col : column_ok graph vision col = true →
  post (λ r, (vision = true → col_ok graph r.1) ∧ match r.2 with Some d => compiled d | None => True end) E (rowwise_column inputs graph flattened col).
Proof using HE.
unfold column_ok, rowwise_column. intros H. destruct (vget "label" col) as [| | | |label| | |]; try by apply HE.
assert (Hnode : ∀ n, readable graph n = true → post (λ r, (vision = true → col_ok graph r.1) ∧ match r.2 with Some d => compiled d | None => True end) E
  (let upstream := dget n graph in let from_input := match upstream with Some up => GOp.is_input up | None => false end in
   if (is_none (vget "path" col) && negb from_input)%bool then Err (ValueError "only InputOp refs may omit the path")
   else c ← node_ref_column inputs flattened label n (match vget "path" col with VStr p => p | _ => "" end) upstream; Ok (c, if from_input then None else Some n))).
{ intros n Hn. cbn zeta. destruct (_ && _)%bool; [by apply HE|]. apply (post_bind (col_ok graph)); [by apply node_column_post|]. intros c _ Hc.
  split; [done|]. cbn. destruct (dget n graph) as [up|] eqn:Hup; [|unfold readable in Hn; by rewrite Hup in Hn].
  destruct (GOp.is_input up) eqn:Hi; [done|]. by eapply readable_compiled. }
destruct (vget "data" col) as [| | | | | | |data]; destruct (vget "node" col) as [| | | |n| | |]; try by apply HE; try by apply Hnode.
all: try (by apply Hnode).
all: split; [|done]; intros ->; cbn in H; apply bool_decide_eq_true in H; split; [by apply (bool_decide_unpack _)|done|by intros d0 [= <-]].
Qed.

Lemma add_dep_compiled deps dep : Forall (λ d, compiled d) deps → match dep with Some d => compiled d | None => True end → Forall (λ d, compiled d) (add_dep deps dep).
Proof using Type. intros Hd Hn. destruct dep; [|done]. by apply add_ref_compiled. Qed.

Lemma rowwise_columns_post vision c upstream : forallb (column_ok graph vision) (Chat.rowwise_columns c) = true → Forall (λ d, compiled d) upstream →
  post (λ r, (vision = true → Forall (col_ok graph) r.1) ∧ Forall (λ d, compiled d) r.2) E (rowwise_columns inputs graph flattened c upstream).
Proof using HE.
intros Hc Hu. rewrite forallb_forall in Hc. unfold rowwise_columns.
apply (post_bind (λ r : list (dict string val) * list string, (vision = true → Forall (col_ok graph) r.1) ∧ Forall (λ d, compiled d) r.2)).
- apply post_foldR; [|by split; [intros _; constructor|]]. intros st col Hin [H1 H2].
  eapply post_bind; [apply (rowwise_column_post vision); by apply Hc, list_elem_of_In|]. intros r _ [Hr1 Hr2]. split; cbn.
  + intros Hv. apply Forall_app. split; [by apply H1|]. apply Forall_singleton. by apply Hr1.
  + by apply add_dep_compiled.
- intros [[|c0 cols] deps] _ Hst; [by apply HE|done].
Qed.

(** *** Chats *)

Lemma aggregate_column_post st col : aggregate_ok graph col = true → Forall (λ d, compiled d) st.2 →
  post (λ st, Forall (λ d, compiled d) st.2) E (aggregate_column inputs graph flattened st col).
Proof using HE.
unfold aggregate_ok, aggregate_column. intros H Hst.
destruct (vget "label" col) as [| | | |label| | |]; try done. destruct (vget "node" col) as [| | | |n| | |]; try done.
destruct (vget "path" col) as [| | | |path| | |]; try done. cbn zeta.
apply (post_bind (col_ok graph)); [by apply node_column_post|]. intros c _ _. cbn.
destruct (dget n graph) as [up|] eqn:Hup; [|unfold readable in H; by rewrite Hup in H].
destruct (GOp.is_input up) eqn:Hi; [done|]. apply add_ref_compiled; [done|]. by eapply readable_compiled.
Qed.

Lemma list_field_post key d : post (λ _, True) E (list_field key d).
Proof using HE. unfold list_field. destruct (dget_or _ key d); try done; by apply HE. Qed.

Lemma aggregate_step_post labels step : post (λ _, True) E (aggregate_step labels step).
Proof using HE.
unfold aggregate_step. destruct step; try by apply HE. apply post_any; [done| |done].
destruct (dget_or (VList []) "arguments" d); try done; by apply HE.
Qed.

Lemma deps_compiled a b : Forall (λ d, compiled d) a → Forall (λ d, compiled d) b → Forall (λ d, compiled d) (foldl add_ref a b).
Proof using Type.
intros Ha Hb. rewrite Forall_forall in Ha, Hb. apply Forall_forall. intros x [Hx|Hx]%elem_of_add_refs; [by apply Ha|by apply Hb].
Qed.

Lemma aggregate_spec_post c template upstream : forallb (aggregate_ok graph) (Chat.aggregate_table c) = true → template_ok graph template →
  Forall (λ d, compiled d) upstream → post (λ r, Forall (λ d, compiled d) r.2) E (aggregate_data_spec inputs graph flattened c template upstream).
Proof using HE.
intros Hc (columns & Hcols & Hget) Hu. rewrite forallb_forall in Hc. unfold aggregate_data_spec.
apply post_any; [done|apply list_field_post|]. intros base _. apply post_any; [done|destruct (dget_or _ "options" _); try done; by apply HE|]. intros options _.
apply post_any; [done|destruct (dget_or _ "format" _); try done; by apply HE|]. intros format _.
apply post_any; [done|apply list_field_post|]. intros messages _. apply post_any; [done|apply list_field_post|]. intros steps _.
apply (post_bind (λ st : list val * list string, Forall (λ d, compiled d) st.2)).
{ apply post_foldR; [|done]. intros st col Hin Hst. apply aggregate_column_post; [|done]. by apply Hc, list_elem_of_In. }
intros st _ Hst. eapply post_bind; [by eapply template_deps_post|]. intros deps _ Hdeps.
apply post_any; [done| |intros rendered _; by apply deps_compiled].
eapply post_mono; [|apply (post_mapR (λ _, True))]; [done|]. intros step _. apply aggregate_step_post.
Qed.

Lemma chat_spec_post id op template upstream : dget id graph = Some op → GOp.is_vision op = false → template_ok graph template → Forall (λ d, compiled d) upstream →
  post (λ r, Forall (λ d, compiled d) r.2) E (chat_data_spec inputs graph flattened op template upstream).
Proof using HE Hrefs.
intros Hop Hv Ht Hu. pose proof (op_refs _ _ Hop) as Hr. unfold refs_ok in Hr.
assert (Hplain : post (λ r : dict string val * list string, Forall (λ d, compiled d) r.2) E
  (deps ← collect_graph_template_dependencies template; Ok (graph_template template, foldl add_ref [] (upstream ++ deps)))).
{ destruct Ht as (columns & Hcols & Hget). eapply post_bind; [by eapply template_deps_post|]. intros deps _ Hdeps. apply deps_compiled; [constructor|].
  by apply Forall_app. }
unfold chat_data_spec. unfold GOp.is_vision in Hv. unfold GOp.chat. destruct (GOp.cls op) eqn:Hcls; try done.
apply andb_true_iff in Hr as [Hr1 Hr2]. destruct (Chat.rowwise c).
- unfold rowwise_data_spec. apply post_any; [done|by apply post_ok_or; [|by apply HE]|]. intros t _.
  eapply post_bind; [by apply (rowwise_columns_post false)|]. by intros st _ [_ ?].
- destruct (Chat.aggregate_table c) eqn:Ha; [done|]. rewrite <-Ha in Hr2. by apply aggregate_spec_post.
Qed.

Lemma infer_ok id op api visited : dget id graph = Some op →
  post (λ r, Forall (λ d, compiled d) r.1.2 ∧ template_ok graph r.2) E (infer_structural_messages py limit inputs graph flattened (GOp.id op) api visited).
Proof using All.
intros Hop. eapply infer_post; try done. rewrite (graph_id _ _ Hwf _ _ Hop). by eexists.
Qed.

Lemma chat_post id op config c visited : dget id graph = Some op → GOp.cls op = GOp.LLMChatOp config c →
  post (built id) E (build_node_from_chat_op env py limit inputs graph flattened op config c visited).
Proof using All.
intros Hop Hcls. unfold build_node_from_chat_op. pose proof (graph_id _ _ Hwf _ _ Hop) as Hid.
eapply post_bind; [by eapply infer_ok|]. intros [[visited' upstream] template] _ [Hu Ht].
apply post_any; [done|apply inference_spec_post|]. intros inference _.
eapply post_bind; [eapply chat_spec_post; [done|unfold GOp.is_vision; by rewrite Hcls|done|done]|]. intros spec _ Hspec.
apply post_any; [done|apply model_spec_post|]. intros m _. apply post_any; [done|by eapply post_rows_or_one|]. intros n _.
apply post_any; [done|apply post_condition|]. intros condition _. rewrite Hid. apply built_node. by apply create_ok.
Qed.

Lemma trusted_post url : post (λ _, True) E (is_api_origin_trusted urlsplit (be_config env) url).
Proof using HE Hurl.
assert (Ho : ∀ u, post (λ _, True) E (origin urlsplit u)).
{ intros u. unfold origin. apply post_any; [done|apply Hurl|]. intros [[scheme host] port] _. destruct host as [[|a h]|]; first [done|by apply HE]. }
unfold is_api_origin_trusted. apply post_any; [done|apply Ho|]. intros o _. apply post_any; [done| |done].
unfold trusted_origins. apply post_any; [done|apply Ho|]. intros d _. apply post_any; [done|apply Ho|]. intros d' _. apply post_any; [done| |done].
eapply post_mono; [|apply (post_mapR (λ _, True))]; [done|]. intros i _. apply Ho.
Qed.

Lemma headers_post api url : post (λ _, True) E (api_request_headers env urlsplit api url).
Proof using HE Hurl.
unfold api_request_headers. apply post_any; [done|apply trusted_post|]. intros [] _.
- apply post_any; [done| |].
  + unfold resolve_api_credential. apply post_any; [done|apply trusted_post|done].
  + intros [t|] _; [|by apply HE]. destruct (nonempty t); [done|by apply HE].
- destruct (ApiConfig.authorization api) as [a|]; [|by apply HE]. destruct (nonempty a); [done|by apply HE].
Qed.

Lemma api_post id op config api visited : dget id graph = Some op → GOp.is_vision op = false →
  post (built id) E (build_api_llm_op env py urlsplit limit inputs graph flattened op config api visited).
Proof using All.
intros Hop Hv. unfold build_api_llm_op. pose proof (graph_id _ _ Hwf _ _ Hop) as Hid.
eapply post_bind; [by eapply infer_ok|]. intros [[visited' upstream] template] _ [Hu Ht].
eapply post_bind; [by eapply chat_spec_post|]. intros spec _ Hspec. apply built_node. unfold build_api_task.
apply post_any; [done|apply headers_post|]. intros headers _. apply post_any; [done|apply inference_spec_post|]. intros inference _.
apply post_any; [done| |intros format _].
{ destruct (GOp.chat op) as [c|]; [|done]. unfold response_format. destruct (Chat.structural_outputs c); try done; by apply HE. }
apply post_any; [done|by eapply post_rows_or_one|]. intros n _. apply post_any; [done|apply post_condition|]. intros condition _.
rewrite Hid. by apply create_ok.
Qed.

(** *** Vision ops *)

(** The nodes of one op: one of them has its id, and they read compiled ops or
  each other. *)
Definition nodes_ok (id : string) (ns : list RuntimeOp.t) : Prop :=
id ∈ (RuntimeOp.node_id <$> ns) ∧ Forall (node_ok (RuntimeOp.node_id <$> ns)) ns.

Lemma node_ok_mono b b' n : (∀ d, d ∈ b → d ∈ b') → node_ok b n → node_ok b' n.
Proof using Type. intros H [Hd Hr]. split; [|done]. intros d Hin. destruct (Hd d Hin); auto. Qed.

Lemma single_ok id n : RuntimeOp.node_id n = id ∧ node_ok [] n → nodes_ok id [n].
Proof using Type.
intros [<- Hn]. split; [by left|]. apply Forall_singleton. eapply node_ok_mono; [|done]. intros d Hd. by apply elem_of_nil in Hd.
Qed.

Lemma resolve_source_post image_source image_path :
  post (λ r, (∀ n, dget "node" r.1.1 = Some (VStr n) → compiled n) ∧ col_ok graph r.1.2 ∧ Forall (λ d, compiled d) r.2) E
    (resolve_vlm_image_source inputs graph image_source image_path).
Proof using HE.
unfold resolve_vlm_image_source. apply (post_bind (λ op, dget image_source graph = Some op)); [by apply post_ok_or; [|by apply HE]|]. intros source _ Hs.
assert (Hcol : compiles source = true → ∀ p, (λ r : dict string val * dict string val * list string,
  (∀ n, dget "node" r.1.1 = Some (VStr n) → compiled n) ∧ col_ok graph r.1.2 ∧ Forall (λ d, compiled d) r.2) (image_column image_source p)).
{ intros Hc%(compiles_compiled image_source); [|done]. intros p. cbn. split_and!; [by intros n [= <-]|by apply labelled_node_ok|by apply Forall_singleton]. }
unfold compiles, GOp.is_llm, GOp.llm, GOp.is_retrieval in Hcol. destruct (GOp.cls source) eqn:Hcls; try by apply HE.
- apply post_any; [done|by apply post_ok_or; [|by apply HE]|]. intros items _. split_and!; [done|apply labelled_data_ok|constructor].
- apply post_any; [done| |intros p _; by apply Hcol]. destruct (String.eqb _ _); [apply items_path_post|done].
- by apply Hcol.
Qed.

Lemma vlm_inference_post op config template batch upstream embedding_id : template_ok graph template → col_ok graph batch → Forall (λ d, compiled d) upstream →
  post (λ n, RuntimeOp.node_id n = GOp.id op ∧ node_ok [embedding_id] n) E (vlm_inference env op config template batch upstream embedding_id).
Proof using HE.
intros (columns & Hcols & Hget) Hb Hu. unfold vlm_inference. apply post_any; [done|apply inference_spec_post|]. intros inference _.
rewrite Hget. assert (Hi : iterable (VList (VDict <$> columns)) = Ok (VDict <$> columns)) by (unfold iterable; by destruct columns).
rewrite Hi. cbn [mbind result_bind]. cbn zeta. eapply post_bind.
{ apply (template_deps_post graph E HE _ (columns ++ [batch])); [unfold vget, dget_or; rewrite dget_dset_eq; by rewrite fmap_app|].
  apply Forall_app. split; [done|]. by apply Forall_singleton. }
intros deps _ Hdeps. apply post_any; [done|apply model_spec_post|]. intros m _. eapply post_mono; [|apply create_post].
intros n (Hid & Hd & Htt). split; [done|]. split; [|intros Hp; by rewrite Htt in Hp]. rewrite Hd. intros d [Hin|Hin]%elem_of_add_refs; [by apply elem_of_nil in Hin|].
rewrite !elem_of_app in Hin. destruct Hin as [Hin|[Hin|Hin]]; [left; by eapply Forall_forall in Hu|left; by eapply Forall_forall in Hdeps|by right].
Qed.

Lemma items_subpath_post path : post (λ _, True) E (items_subpath path).
Proof using HE. unfold items_subpath. destruct (py_starts_with _ _); [done|by apply HE]. Qed.
Lemma index_str_post {A} e (as_ : val → option A) e' key (d : dict string val) : e ≠ RecursionError → e' ≠ RecursionError →
  post (λ a, ∃ v, dget key d = Some v ∧ as_ v = Some a) E (v ← dindex e key d; ok_or e' (as_ v)).
Proof using HE.
intros He He'. apply (post_bind (λ v, dget key d = Some v)); [by apply post_ok_or; [|by apply HE]|]. intros v _ Hv.
apply post_ok_or; [eauto|by apply HE].
Qed.

Definition entry_reads (e : val) : Prop := entry_ok e ∧ match stage_node e with Some n => compiled n | None => True end.

Lemma flatten_entry_post col : col_ok graph col → post entry_reads E (flatten_entry graph col).
Proof using HE.
intros [_ Hn _]. unfold flatten_entry. destruct (dget "data" col) as [data|].
- apply post_any; [done| |intros items _].
  { unfold vindex. destruct data; try by apply HE. by apply post_ok_or; [|by apply HE]. }
  apply post_any; [done|by apply post_ok_or; [|by apply HE]|]. intros label _.
  match goal with |- post _ _ (Ok (VDict ?d)) => destruct (literal_dict_ok d eq_refl) as [H1 H2] end. split; [done|]. by rewrite H2.
- eapply post_bind; [by apply index_str_post|]. intros n _ (v & Hv & Hs). destruct v; try done. injection Hs as ->.
  apply post_any; [done|by apply post_ok_or; [|by apply HE]|]. intros up _. destruct (GOp.is_list_lambda up); [by apply HE|].
  apply post_any; [done|by eapply post_true, index_str_post|]. intros path _. apply post_any; [done|by eapply post_true, index_str_post|]. intros label _.
  apply post_any; [done|apply items_subpath_post|]. intros sub _. unfold grouped_entry.
  match goal with |- post _ _ (Ok (VDict ?d)) => destruct (stage_dict_ok d n eq_refl eq_refl) as [H1 H2] end. split; [done|]. rewrite H2.
  apply Hn. unfold vget, dget_or. by rewrite Hv.
Qed.

Lemma python_step_post name d deps plan src timeout batch : dget "plan" d = Some (VList plan) → dget "type" d = None → Forall entry_ok plan →
  step_source name d plan = Ok src → dget "timeout_s" d = Some timeout → distinct deps = distinct (omap stage_node plan) →
  (∀ x, x ∈ deps → compiled x ∨ x ∈ batch) →
  post (λ n, RuntimeOp.node_id n = name ∧ node_ok batch n) E (python_node env name d deps).
Proof using HE.
intros Hp Ht He Hs Hto Hdeps Hin. rewrite python_node_other by (unfold vget, dget_or; by rewrite Ht). split; [done|]. split; [done|].
intros _. cbn [RuntimeOp.node_id RuntimeOp.data_spec RuntimeOp.dependencies]. rewrite Hdeps. by eapply flowmesh_spec_inputs.
Qed.

Lemma vlm_flattened_post op config c columns embedding_spec batch embedding : Forall (col_ok graph) columns →
  (∀ n, dget "node" embedding_spec = Some (VStr n) → compiled n) → RuntimeOp.node_id embedding = GOp.id op +:+ "_embedding" ∧ node_ok [] embedding →
  post (nodes_ok (GOp.id op)) E (vlm_flattened env graph op config c columns embedding_spec batch embedding).
Proof using All.
intros Hcols Hnode [Heid Hemb]. unfold vlm_flattened. apply post_any; [done|apply inference_spec_post|]. intros inference _.
apply post_any; [done|by eapply post_true, index_str_post|]. intros image_path _. apply post_any; [done|apply items_subpath_post|]. intros sub _.
eapply post_bind; [by apply index_str_post|]. intros image_node _ (v & Hv & Hs). destruct v; try done. injection Hs as ->. specialize (Hnode _ Hv).
cbn zeta. eapply post_bind; [apply (post_mapR entry_reads); intros col Hin; apply flatten_entry_post; by eapply Forall_forall in Hcols|].
intros entries _ Hentries.
set (image_entry := λ label, VDict [("kind", VStr "stage"); ("node", VStr image_node); ("path", VStr sub); ("label", label); ("grouped", VBool true)]).
assert (Himage : ∀ label, entry_ok (image_entry label) ∧ stage_node (image_entry label) = Some image_node) by (intros; by apply stage_dict_ok).
eapply post_bind.
{ eapply (python_step_post _ _ _ (image_entry (vget "label" batch) :: entries) _ _ []); try reflexivity.
  - constructor; [apply Himage|]. eapply Forall_impl; [exact Hentries|]. by intros e [? _].
  - exact (distinct_idem (omap stage_node (image_entry (vget "label" batch) :: entries))).
  - intros x Hx. left. apply elem_of_add_refs in Hx as [Hx|Hx]; [by apply elem_of_nil in Hx|].
    apply list_elem_of_omap in Hx as (e & [->|He]%elem_of_cons & Hst).
    + assert (Some x = Some image_node) as [= ->] by (rewrite <-Hst; apply (Himage (vget "label" batch))). done.
    + apply (proj1 (Forall_forall _ _) Hentries) in He as [_ He]. by rewrite Hst in He. }
intros flatten _ [Hfid Hflat]. apply post_any; [done|apply model_spec_post|]. intros m _.
eapply post_bind; [apply create_post|]. intros infer _ (Hiid & Hideps & Hitt).
eapply post_bind.
{ eapply (python_step_post _ _ _ [VDict [("kind", VStr "stage"); ("node", VStr (GOp.id op +:+ "_infer")); ("label", VStr "outputs")];
    VDict [("kind", VStr "stage"); ("node", VStr (GOp.id op +:+ "_flatten")); ("path", VStr "row"); ("label", VStr "rows")]; image_entry (VStr "groups")]
    _ _ [GOp.id op +:+ "_infer"; GOp.id op +:+ "_flatten"]); try reflexivity.
  - constructor; [by eapply (stage_dict_ok _ (GOp.id op +:+ "_infer"))|]. constructor; [by eapply (stage_dict_ok _ (GOp.id op +:+ "_flatten"))|].
    apply Forall_singleton. apply (Himage (VStr "groups")).
  - exact (distinct_idem [GOp.id op +:+ "_infer"; GOp.id op +:+ "_flatten"; image_node]).
  - intros x Hx. apply elem_of_add_refs in Hx as [Hx|Hx]; [by apply elem_of_nil in Hx|]. set_solver. }
intros regroup _ [Hrid Hreg]. split; cbn [fmap list_fmap].
- rewrite Hrid. set_solver.
- rewrite Hfid, Heid, Hiid, Hrid. set (batch_ids := [_; _; _; _]).
  assert (Hnil : ∀ d, d ∈ ([] : list string) → d ∈ batch_ids) by (intros d Hd; by apply elem_of_nil in Hd).
  apply Forall_cons. split; [by eapply node_ok_mono|]. apply Forall_cons. split; [by eapply node_ok_mono|]. apply Forall_cons. split.
  + split; [|intros Hp; by rewrite Hitt in Hp]. rewrite Hideps, Heid. intros d Hd. right. unfold batch_ids.
    apply elem_of_cons in Hd as [->|Hd]; [left|]. apply elem_of_cons in Hd as [->|Hd]; [right; left|]. by apply elem_of_nil in Hd.
  + apply Forall_singleton. eapply node_ok_mono; [|exact Hreg]. intros d Hd. unfold batch_ids.
    apply elem_of_cons in Hd as [->|Hd]; [right; right; left|]. apply elem_of_cons in Hd as [->|Hd]; [left|]. by apply elem_of_nil in Hd.
Qed.

Lemma vlm_post id op config c source path visited : dget id graph = Some op → GOp.cls op = GOp.LLMVisionOp config c source path →
  post (λ r, nodes_ok id r.2) E (build_vlm_nodes_from_image_op env py limit inputs graph flattened op config c source path visited).
Proof using All.
intros Hop Hcls. pose proof (graph_id _ _ Hwf _ _ Hop) as Hid. pose proof (op_refs _ _ Hop) as Hr. unfold refs_ok in Hr. rewrite Hcls in Hr.
unfold build_vlm_nodes_from_image_op. eapply post_bind; [by eapply infer_ok|]. intros [[visited' upstream] template] _ [Hu Ht].
apply (post_bind (Forall (col_ok graph))).
{ destruct (Chat.rowwise c); [|constructor]. eapply post_bind; [by apply (rowwise_columns_post true c [])|]. intros r _ [H _]. by apply H. }
intros columns _ Hcols. cbn zeta.
eapply post_bind; [apply resolve_source_post|]. intros [[embedding_spec batch] deps] _ (Hnode & Hbatch & Hdeps). cbn [fst snd] in *.
apply post_any; [done|apply model_spec_post|]. intros m _.
eapply post_bind; [by apply create_ok|]. intros embedding _ Hemb. eapply post_bind; [|by intros nodes _ Hnodes; exact Hnodes].
rewrite <-Hid. destruct (bool_decide _); [by apply vlm_flattened_post|].
eapply post_bind; [apply vlm_inference_post; [|exact Hbatch|exact Hu]|].
{ destruct (Chat.rowwise c); [|done]. by exists columns. }
intros node _ [Hnid Hn]. destruct Hemb as [Heid Hemb]. split; cbn [fmap list_fmap fst snd]; rewrite Hnid, Heid; [right; left|].
apply Forall_cons. split.
- eapply node_ok_mono; [|exact Hemb]. intros d Hd. by apply elem_of_nil in Hd.
- apply Forall_singleton. eapply node_ok_mono; [|exact Hn]. intros d Hd. apply elem_of_cons in Hd as [->|Hd]; [left|by apply elem_of_nil in Hd].
Qed.
End nodes.

(** ** Any LLM op *)

Section llm.
Context (env : builder_env) (py : py_env) (urlsplit : string → result (string * option string * option Z)).
Context (limit : nat) (inputs : inputs_dict) (graph input_ops : ops_dict).
Context (rank : string → nat) (E : exn → Prop) (render : source → string) (to_str : val → string).
Hypothesis Hwf : wf_graph graph rank = true.
Hypothesis Hrefs : refs_graph graph input_ops = true.
Hypothesis HE : ∀ e, e ≠ RecursionError → E e.
Hypothesis Hlimit : ∀ id op, dget id graph = Some op → fuel_ok E (rank id) limit.
Hypothesis Hlabels : E RecursionError ∨ labels_graph graph = true.
Hypothesis Hformat : ∀ template d, post (λ _, True) E (py_format py template d).
Hypothesis Hcall : ∀ id args, post (λ _, True) E (call_fn py id args).
Hypothesis Hset : ∀ l, set_order py l ≡ₚ l.
Hypothesis Hurl : ∀ url, post (λ _, True) E (urlsplit url).

Lemma compile_llm_post id op visited : dget id graph = Some op →
  post (λ r, nodes_ok graph render to_str id r.2) E (compile_llm env py urlsplit limit inputs graph op visited).
Proof using All.
intros Hop. unfold compile_llm. cbn zeta.
assert (Hone : ∀ r : result (list string * RuntimeOp.t), post (λ r, RuntimeOp.node_id r.2 = id ∧ node_ok graph render to_str [] r.2) E r →
  post (λ r, nodes_ok graph render to_str id r.2) E (r ← r; Ok (r.1, [r.2]))).
{ intros r Hr. eapply post_bind; [exact Hr|]. intros [v n] _ Hn. by apply single_ok. }
assert (Hapi : ∀ config api, GOp.is_vision op = false → post (λ r, RuntimeOp.node_id r.2 = id ∧ node_ok graph render to_str [] r.2) E
  (build_api_llm_op env py urlsplit limit inputs graph (flattened_vlm_ids graph) op config api visited)) by (intros; by eapply api_post).
unfold GOp.llm, GOp.is_vision in *. destruct (GOp.cls op) as [| | | | | | |config c|config c source path|config|config] eqn:Hcls; try by apply HE.
- destruct (GenerationConfig.api config); apply Hone; [by apply Hapi|by eapply chat_post].
- by eapply vlm_post.
- destruct (GenerationConfig.api config); apply Hone; [by apply Hapi|by eapply image_post].
- destruct (GenerationConfig.api config); apply Hone; [by apply Hapi|by eapply embedding_post].
Qed.
End llm.
