(* ===== verification/GraphBuilderProps.v ===== *)
(** * The graphs the builder returns

    An invariant of the builder's state, kept by every phase: the nodes are
    indexed by their ids in the order they were built, what they depend on is
    compiled, the runtime ids of an op are nodes and the outputs are nodes.
    After the last phase every dependency is a node. *)

From S2P Require Import Prelude PyFloat PyDict PyValue PyString TopoSort RuntimeGraph PythonStep Demux FlowmeshSpec YamlParser GraphNodes GraphBuilder GraphNodesProps.

(** A pass over a list whose steps each establish something that lasts, and
    each need something that only their own step destroys *)
Lemma foldR_each {A S} (E : exn → Prop) (P : S → Prop) (R : S → S → Prop) (F Q : string * A → S → Prop)
  (f : S → string * A → result S) l s :
  (∀ s, R s s) → (∀ s1 s2 s3, R s1 s2 → R s2 s3 → R s1 s3) → (∀ x s1 s2, R s1 s2 → Q x s1 → Q x s2) →
  NoDup l.*1 →
  (∀ s x, x ∈ l → P s → F x s → post (λ s', P s' ∧ R s s' ∧ Q x s' ∧ ∀ y, y.1 ≠ x.1 → F y s → F y s') E (f s x)) →
  P s → (∀ x, x ∈ l → F x s) →
  post (λ s', P s' ∧ R s s' ∧ ∀ x, x ∈ l → Q x s') E (foldR f s l).
Proof.
  intros Hrefl Htrans Hstable Hnd Hf. revert s. induction l as [|x l IH]; intros s HP HF; simpl.
  { split_and!; [done|done|]. intros x Hx. by apply elem_of_nil in Hx. }
  apply NoDup_cons in Hnd as [Hx Hnd].
  eapply post_bind; [apply Hf; [left|done|by apply HF; left]|]. intros s1 _ (HP1 & HR1 & HQ1 & HF1).
  eapply post_mono; [|apply IH; [done| |done|]].
  - intros s2 (HP2 & HR2 & HQ2). split_and!; [done|by eapply Htrans|]. intros y [->|Hy]%elem_of_cons; [by eapply Hstable|by apply HQ2].
  - intros s2 y Hy. apply Hf. by right.
  - intros y Hy. apply HF1; [|by apply HF; right]. intros Heq. apply Hx. rewrite <-Heq. by apply list_elem_of_fmap_2.
Qed.

Section state.
Context (graph : ops_dict) (outputs : sources) (render : source → string) (to_str : val → string).
Local Abbreviation nodes st := (dkeys (b_nodes st)).

(** The state, when dependencies that are not nodes yet satisfy [D] *)
Record state_ok (D : string → Prop) (st : bstate) : Prop := {
st_wf : dict_wf (b_nodes st);
st_order : b_order st = nodes st;
st_deps k n d : (k, n) ∈ b_nodes st → d ∈ RuntimeOp.dependencies n → D d ∨ d ∈ nodes st;
st_runs k n : (k, n) ∈ b_nodes st → runs_as_step render to_str n;
st_dsl k ids i : dget k (b_dsl st) = Some ids → i ∈ ids → i ∈ nodes st;
st_outputs k name : dget k (b_outputs st) = Some name → k ∈ nodes st ∧ ∃ path, output_of outputs k = Some (name, path);
}.

Definition has_output (k : string) (st : bstate) : Prop := ∀ name path, output_of outputs k = Some (name, path) → dget k (b_outputs st) = Some name.
(** Later states *)
Definition extends (st st' : bstate) : Prop := (∀ k, k ∈ nodes st → k ∈ nodes st') ∧ ∀ k, has_output k st → has_output k st'.
Definition settled (k : string) (st : bstate) : Prop := k ∈ nodes st ∧ has_output k st.

Lemma extends_refl st : extends st st.
Proof. by split. Qed.
Lemma extends_trans st1 st2 st3 : extends st1 st2 → extends st2 st3 → extends st1 st3.
Proof. intros [H1 H2] [H3 H4]. split; auto. Qed.
Lemma settled_extends k st st' : extends st st' → settled k st → settled k st'.
Proof. intros [H1 H2] [H3 H4]. split; auto. Qed.

Lemma state_visit_ok D ids st : state_ok D st → state_ok D (b_visit ids st).
Proof. by intros []. Qed.
Lemma set_visited_ok D v st : state_ok D st → state_ok D (b_set_visited v st).
Proof. by intros []. Qed.

Lemma dkeys_add n st : RuntimeOp.node_id n ∉ nodes st → nodes (b_add n st) = nodes st ++ [RuntimeOp.node_id n].
Proof. intros H. unfold b_add. cbn. rewrite dset_new by apply H. unfold dkeys. by rewrite fmap_app. Qed.

Lemma add_ok D n st : RuntimeOp.node_id n ∉ nodes st → (∀ d, d ∈ RuntimeOp.dependencies n → D d ∨ d ∈ nodes (b_add n st)) → runs_as_step render to_str n →
  state_ok D st → state_ok D (b_add n st).
Proof.
intros Hn Hd Hr [H1 H2 H3 H4 H5 H6]. pose proof (dkeys_add n st Hn) as Hk.
assert (Hmono : ∀ k, k ∈ nodes st → k ∈ nodes (b_add n st)) by (intros k H; rewrite Hk; apply elem_of_app; by left).
split.
- by apply dict_wf_dset.
- rewrite Hk. cbn. by rewrite H2.
- intros k m d [[_ ->]|Hin]%elem_of_dset Hdep; [by apply Hd|]. destruct (H3 k m d Hin Hdep); [by left|right; by apply Hmono].
- intros k m [[_ ->]|Hin]%elem_of_dset; [done|by eapply H4].
- intros k ids i Hi Hin. by eapply Hmono, H5.
- intros k name Hg. destruct (H6 k name Hg). split; [by apply Hmono|done].
Qed.

Lemma add_extends n st : RuntimeOp.node_id n ∉ nodes st → extends st (b_add n st).
Proof. intros H. split; [|by intros k]. intros k Hk. rewrite dkeys_add by done. apply elem_of_app. by left. Qed.

Lemma map_ok D k ids st : (∀ i, i ∈ ids → i ∈ nodes st) → state_ok D st → state_ok D (b_map k ids st).
Proof.
intros Hi [H1 H2 H3 H4 H5 H6]. split; try done. cbn. intros k' ids' i. rewrite dget_dset. case_decide; [intros [= <-]; apply Hi|apply H5].
Qed.

Lemma record_ok D k default_path st : k ∈ nodes st → state_ok D st → state_ok D (record_output outputs k default_path st).
Proof.
intros Hk Hst. unfold record_output. destruct (output_of outputs k) as [[name path]|] eqn:Ho; [|done].
assert (H : state_ok D (b_output k name st)).
{ destruct Hst as [H1 H2 H3 H4 H5 H6]. split; try done. cbn. intros k' name'. rewrite dget_dset. case_decide as Hd; [|apply H6].
  intros [= <-]. subst. split; [done|by exists path]. }
assert (Hpath : ∀ p, state_ok D (b_path k p (b_output k name st))) by (by destruct H). cbn zeta. destruct (override path); [done|]. by destruct default_path.
Qed.

Lemma record_nodes k default_path st : b_nodes (record_output outputs k default_path st) = b_nodes st.
Proof. unfold record_output. destruct (output_of outputs k) as [[name path]|]; [|done]. cbn. destruct (override path); [done|]. by destruct default_path. Qed.

Lemma record_outputs k default_path st : b_outputs (record_output outputs k default_path st) =
  match output_of outputs k with Some (name, _) => dset k name (b_outputs st) | None => b_outputs st end.
Proof. unfold record_output. destruct (output_of outputs k) as [[name path]|]; [|done]. cbn. destruct (override path); [done|]. by destruct default_path. Qed.

Lemma record_done k default_path st : k ∈ nodes st → settled k (record_output outputs k default_path st).
Proof.
intros Hk. split; [by rewrite record_nodes|]. intros name path Ho. rewrite record_outputs, Ho. apply dget_dset_eq.
Qed.

Lemma record_extends k default_path st : extends st (record_output outputs k default_path st).
Proof.
split; [by rewrite record_nodes|]. intros k' Hk' name path Ho. rewrite record_outputs.
destruct (output_of outputs k) as [[name' path']|] eqn:Hk; [|by eapply Hk']. rewrite dget_dset. case_decide as Hd; [|by eapply Hk'].
subst. rewrite Hk in Ho. by injection Ho as -> _.
Qed.

(** Another set of nodes may be missing. *)
Lemma state_weaken D D' st : (∀ k n d, (k, n) ∈ b_nodes st → d ∈ RuntimeOp.dependencies n → D d → D' d ∨ d ∈ nodes st) → state_ok D st → state_ok D' st.
Proof.
intros H [H1 H2 H3 H4 H5 H6]. split; try done. intros k n d Hin Hd. destruct (H3 k n d Hin Hd); [by eapply H|by right].
Qed.
End state.

(** ** The scan *)

Section scan.
Context (graph : ops_dict) (E : exn → Prop).
Hypothesis HE : ∀ e, e ≠ RecursionError → E e.

(** [id] is an output op with this source. *)
Definition output_op (id source name : string) (path : option string) : Prop :=
∃ op, (id, op) ∈ graph ∧ GOp.cls op = GOp.OutputOp name path ∧ GOp.inputs op = [source].

Record scan_ok (seen : list (string * GOp.t)) (outputs : sources) : Prop := {
sc_wf : dict_wf outputs;
sc_found id op source name path : (id, op) ∈ seen → GOp.cls op = GOp.OutputOp name path → GOp.inputs op = [source] →
  compiledb graph source = true ∧ (name, path) ∈ dget_or [] source outputs;
sc_shape id op name path : (id, op) ∈ seen → GOp.cls op = GOp.OutputOp name path → ∃ source, GOp.inputs op = [source];
sc_from source name path : (name, path) ∈ dget_or [] source outputs → ∃ id, output_op id source name path;
}.

Lemma scan_op_post seen st kv : kv ∈ graph → scan_ok seen st.2 → post (λ r, scan_ok (seen ++ [kv]) r.2) E (scan_op graph st kv).
Proof using HE.
destruct kv as [id op]. intros Hin [Hw Hf Hs Hfrom]. unfold scan_op. cbn zeta.
assert (Hother : (∀ name path, GOp.cls op ≠ GOp.OutputOp name path) → scan_ok (seen ++ [(id, op)]) st.2).
{ intros Hn. split; [done| | |done].
  - intros id' op' s name path [H|H]%elem_of_app Hc; [by eapply Hf|]. apply list_elem_of_singleton in H. injection H as -> ->. by destruct (Hn name path).
  - intros id' op' name path [H|H]%elem_of_app Hc; [by eapply Hs|]. apply list_elem_of_singleton in H. injection H as -> ->. by destruct (Hn name path). }
destruct (GOp.cls op) as [|name path| | | | | | | | |] eqn:Hcls; try by apply Hother.
destruct (GOp.inputs op) as [|source []] eqn:Hi; try by apply HE.
apply (post_bind (λ s, dget source graph = Some s)); [by apply post_deref|]. intros s _ Hsrc.
destruct (_ || _)%bool eqn:Hb; [|by apply HE]. cbn [snd].
assert (Hc : compiledb graph source = true) by (unfold compiledb, compiles, is_lambda; by rewrite Hsrc).
assert (Hget : ∀ x k, x ∈ dget_or [] k (dset source (dget_or [] source st.2 ++ [(name, path)]) st.2) ↔
  x ∈ dget_or [] k st.2 ∨ k = source ∧ x = (name, path)).
{ intros x k. rewrite dget_or_dset. case_decide; [subst; rewrite elem_of_app, list_elem_of_singleton; naive_solver|naive_solver]. }
split.
- by apply dict_wf_dset.
- intros id' op' s' name' path' [H|H]%elem_of_app Hc' Hi'.
  + destruct (Hf _ _ _ _ _ H Hc' Hi'). split; [done|]. apply Hget. by left.
  + apply list_elem_of_singleton in H. injection H as -> ->. rewrite Hcls in Hc'. rewrite Hi in Hi'. injection Hc' as <- <-. injection Hi' as <-.
    split; [done|]. apply Hget. by right.
- intros id' op' name' path' [H|H]%elem_of_app Hc'; [by eapply Hs|]. apply list_elem_of_singleton in H. injection H as -> ->. by exists source.
- intros k name' path' [H|[-> [= -> ->]]]%Hget; [by apply Hfrom|]. exists id, op. done.
Qed.

Lemma scan_post : post (λ r, scan_ok graph r.2) E (foldR (scan_op graph) ([], []) graph).
Proof using HE.
assert (H : ∀ l seen st, (∀ kv, kv ∈ l → kv ∈ graph) → scan_ok seen st.2 → post (λ r, scan_ok (seen ++ l) r.2) E (foldR (scan_op graph) st l)).
{ induction l as [|kv l IH]; intros seen st Hl Hst; simpl; [by rewrite app_nil_r|].
  eapply post_bind; [apply scan_op_post; [by apply Hl; left|done]|]. intros st' _ Hst'. rewrite (cons_middle kv), app_assoc.
  apply IH; [|done]. intros kv' Hkv'. apply Hl. by right. }
apply (H graph [] ([], [])); [done|]. split; [constructor| | |]; cbn; by intros * ?%elem_of_nil.
Qed.

(** With at most one output per source, the output of a source is its output op's. *)
Lemma output_of_iff outputs source name path : scan_ok graph outputs → (forallb (λ kv : string * list (string * option string), Nat.leb (length kv.2) 1) outputs = true) →
  output_of outputs source = Some (name, path) ↔ ∃ id, output_op id source name path.
Proof using Type.
intros [Hw Hf Hs Hfrom] Hone. rewrite forallb_forall in Hone. unfold output_of.
assert (Hget : ∀ l, dget source outputs = Some l → length l <= 1).
{ intros l Hl. by apply Nat.leb_le, (Hone (source, l)), list_elem_of_In, dget_elem. }
split.
- intros H. apply Hfrom. unfold dget_or. destruct (dget source outputs) as [[|np l]|]; try done. injection H as ->. by left.
- intros (id & op & Hin & Hc & Hi). destruct (Hf _ _ _ _ _ Hin Hc Hi) as [_ Hmem]. unfold dget_or in Hmem.
  destruct (dget source outputs) as [l|]; [|by apply elem_of_nil in Hmem]. specialize (Hget l eq_refl).
  destruct l as [|np [|]]; simpl in Hget; try lia; [by apply elem_of_nil in Hmem|]. by apply list_elem_of_singleton in Hmem as ->.
Qed.
End scan.

(** ** The phases *)

Section phases.
Context (env : builder_env) (py : py_env) (urlsplit : string → result (string * option string * option Z)).
Context (limit : nat) (inputs : inputs_dict) (graph input_ops : ops_dict) (outputs : sources).
Context (rank : string → nat) (E : exn → Prop) (render : source → string) (to_str : val → string).
Hypothesis Hwf : wf_graph graph rank = true.
Hypothesis Hrefs : refs_graph graph input_ops = true.
Hypothesis HE : ∀ e, e ≠ RecursionError → E e.
Hypothesis Hlimit : ∀ id op, dget id graph = Some op → fuel_ok E (rank id) limit.
Hypothesis Hlabels : E RecursionError ∨ labels_graph graph = true.
Hypothesis Hformat : ∀ template d, post (λ _, True) E (py_format py template d).
Hypothesis Hcall : ∀ id args, post (λ _, True) E (call_fn py id args).
Hypothesis Hset : ∀ l, set_order py l ≡ₚ l.
Hypothesis Hurl : ∀ url, post (λ _, True) E (urlsplit url).
Local Abbreviation nodes st := (dkeys (b_nodes st)).
Local Abbreviation compiled id := (compiledb graph id = true).
Local Abbreviation ok := (state_ok outputs render to_str).
Local Abbreviation ext := (extends outputs).
Local Abbreviation is_done := (settled outputs).

Lemma graph_get kv : kv ∈ graph → dget kv.1 graph = Some kv.2.
Proof using Hwf. destruct kv. by apply elem_dget, (graph_wf _ _ Hwf). Qed.

(** A state whose nodes come from ops of a kind *)
Definition only (sel : GOp.t → bool) (st : bstate) : Prop := ∀ k, k ∈ nodes st → ∃ op, dget k graph = Some op ∧ sel op = true.
Definition phase_ok (sel : GOp.t → bool) (st : bstate) : Prop := ok (λ d, compiled d) st ∧ only sel st.

(** Adding the node of an op that has none, mapping it and recording its output *)
Lemma add_node_phase sel st kv n default_path : kv ∈ graph → sel kv.2 = true → phase_ok sel st → kv.1 ∉ nodes st →
  RuntimeOp.node_id n = kv.1 → node_ok graph render to_str [] n →
  let st' := record_output outputs kv.1 default_path (b_map kv.1 [RuntimeOp.node_id n] (b_add n st)) in
  phase_ok sel st' ∧ ext st st' ∧ is_done kv.1 st' ∧ (nodes st' = nodes st ++ [kv.1]).
Proof using Hwf.
intros Hin Hsel [Hst Honly] Hnew Hid [Hdeps Hruns] st'. rewrite <-Hid in Hnew.
assert (Hk : nodes (b_add n st) = nodes st ++ [kv.1]) by (by rewrite dkeys_add, Hid).
assert (Hk' : nodes st' = nodes st ++ [kv.1]) by (unfold st'; by rewrite record_nodes).
assert (Hmem : kv.1 ∈ nodes (b_map kv.1 [RuntimeOp.node_id n] (b_add n st))) by (change (kv.1 ∈ nodes (b_add n st)); rewrite Hk; apply elem_of_app; right; by left).
split_and!; [split| | |done].
- apply record_ok; [done|]. apply map_ok; [intros i Hi; apply list_elem_of_singleton in Hi as ->; by rewrite Hid|]. apply add_ok; [done| |done|done].
  intros d Hd. destruct (Hdeps d Hd) as [H|H]; [by left|by apply elem_of_nil in H].
- intros k. rewrite Hk', elem_of_app, list_elem_of_singleton. intros [H|H]; [by apply Honly|subst k]. exists kv.2. split; [by apply graph_get|done].
- eapply extends_trans; [by apply add_extends|]. eapply extends_trans; [|apply record_extends]. by split.
- by apply record_done.
Qed.

Lemma visit_phase sel ids st : phase_ok sel st → phase_ok sel (b_visit ids st).
Proof. by intros [[]]. Qed.

(** A phase that skips ops of other kinds *)
Definition fresh (sel : GOp.t → bool) (kv : string * GOp.t) (st : bstate) : Prop := sel kv.2 = true → kv.1 ∉ nodes st.
Definition finished (sel : GOp.t → bool) (kv : string * GOp.t) (st : bstate) : Prop := sel kv.2 = true → is_done kv.1 st.

Lemma phase_step sel0 sel st st1 kv n default_path : kv ∈ graph → sel kv.2 = true → (sel kv.2 = true → sel0 kv.2 = true) →
  phase_ok sel0 st1 → nodes st1 = nodes st → ext st st1 → fresh sel kv st →
  RuntimeOp.node_id n = kv.1 → node_ok graph render to_str [] n →
  let st' := record_output outputs kv.1 default_path (b_map kv.1 [RuntimeOp.node_id n] (b_add n st1)) in
  phase_ok sel0 st' ∧ ext st st' ∧ finished sel kv st' ∧ ∀ y, y.1 ≠ kv.1 → fresh sel y st → fresh sel y st'.
Proof using Hwf.
intros Hin Hsel Himp Hst1 Hnodes Hext Hfresh Hid Hn st'. specialize (Hfresh Hsel). rewrite <-Hnodes in Hfresh.
destruct (add_node_phase sel0 st1 kv n default_path) as (H1 & H2 & H3 & H4); try done; [by apply Himp|].
split; [exact H1|]. split; [by eapply extends_trans|]. split; [by intros _|]. intros y Hy Hfr Hs. unfold st'. rewrite H4, Hnodes, elem_of_app, list_elem_of_singleton.
intros [H|H]; [by apply Hfr|done].
Qed.

Lemma keep_step sel0 sel st kv : phase_ok sel0 st → sel kv.2 = false →
  phase_ok sel0 st ∧ ext st st ∧ finished sel kv st ∧ ∀ y, y.1 ≠ kv.1 → fresh sel y st → fresh sel y st.
Proof. intros H Hs. split; [done|]. split; [apply extends_refl|]. split; [|by intros]. intros Hs'. by rewrite Hs in Hs'. Qed.

Lemma retrieval_phase st : phase_ok GOp.is_retrieval st → (∀ kv, kv ∈ graph → fresh GOp.is_retrieval kv st) →
  post (λ st', phase_ok GOp.is_retrieval st' ∧ ext st st' ∧ ∀ kv, kv ∈ graph → finished GOp.is_retrieval kv st') E
    (foldR (build_retrieval env py limit inputs graph input_ops outputs) st graph).
Proof using All.
intros Hst Hfresh. apply (foldR_each E _ ext (fresh GOp.is_retrieval)); [apply extends_refl|apply extends_trans| |apply (graph_wf _ _ Hwf)| |done|done].
{ intros x s1 s2 Hx Hf Hs. by eapply settled_extends, Hf. }
intros s kv Hin Hs Hfr. destruct kv as [id op]. unfold build_retrieval. destruct (GOp.cls op) as [| | |spec| | | | | | |] eqn:Hcls;
  try (apply keep_step; [done|by unfold GOp.is_retrieval; cbn; rewrite Hcls]).
cbn zeta. pose proof (graph_get _ Hin) as Hop. cbn in Hop.
assert (Hsel : GOp.is_retrieval op = true) by (unfold GOp.is_retrieval; by rewrite Hcls).
eapply post_bind; [by eapply retrieval_post with (flattened := []) (urlsplit := urlsplit)|]. intros n _ [Hid Hn].
set (st1 := b_visit (retrieval_upstreams graph op spec) s).
assert (Hst1 : phase_ok GOp.is_retrieval st1) by (by apply visit_phase).
assert (Hext : ext s st1) by (by split).
destruct (output_of outputs id) as [np|] eqn:Ho.
- apply post_any; [done|by apply items_path_post|]. intros path _.
  apply (phase_step GOp.is_retrieval GOp.is_retrieval s st1 (id, op) n (Some path)); try done.
- pose proof (phase_step GOp.is_retrieval GOp.is_retrieval s st1 (id, op) n None) as H. unfold record_output in H. cbn [fst] in H. rewrite Ho in H. by apply H.
Qed.

Definition retrieval_or_list (op : GOp.t) : bool := (GOp.is_retrieval op || GOp.is_list_lambda op)%bool.

Lemma list_lambda_phase st : phase_ok retrieval_or_list st → (∀ kv, kv ∈ graph → fresh GOp.is_list_lambda kv st) →
  post (λ st', phase_ok retrieval_or_list st' ∧ ext st st' ∧ ∀ kv, kv ∈ graph → finished GOp.is_list_lambda kv st') E
    (foldR (build_list_lambda env limit inputs graph outputs) st graph).
Proof using All.
intros Hst Hfresh. apply (foldR_each E _ ext (fresh GOp.is_list_lambda)); [apply extends_refl|apply extends_trans| |apply (graph_wf _ _ Hwf)| |done|done].
{ intros x s1 s2 Hx Hf Hs. by eapply settled_extends, Hf. }
intros s kv Hin Hs Hfr. destruct kv as [id op]. unfold build_list_lambda. pose proof (graph_get _ Hin) as Hop. cbn in Hop.
destruct (GOp.lambda op) as [l|] eqn:Hl; [|by apply keep_step; [|unfold GOp.is_list_lambda; cbn; rewrite Hl]].
assert (Hsel : GOp.is_list_lambda op = Lambda.takes_whole_columns l) by (unfold GOp.is_list_lambda; by rewrite Hl).
destruct (Lambda.takes_whole_columns l) eqn:Hm; [|by apply keep_step]. cbn zeta.
eapply post_bind; [by eapply list_lambda_post with (flattened := []) (urlsplit := urlsplit) (py := py)|]. intros n _ [Hid Hn].
rewrite (graph_id _ _ Hwf _ _ Hop) in Hid.
apply (phase_step retrieval_or_list GOp.is_list_lambda s (b_visit (GOp.inputs op) s) (id, op) n (Some "items.output")); try done.
- intros _. cbn. unfold retrieval_or_list. by rewrite Hsel, orb_true_r.
- by apply visit_phase.
Qed.

(** *** LLM ops *)

(** Nodes that are added unless they are there *)
Lemma add_new_post batch st : ok (λ d, compiled d ∨ d ∈ batch) st → ∀ ns, Forall (node_ok graph render to_str batch) ns →
  let st' := foldl b_add_new st ns in
  ok (λ d, compiled d ∨ d ∈ batch) st' ∧ ext st st' ∧ ∀ i, i ∈ (RuntimeOp.node_id <$> ns) → i ∈ nodes st'.
Proof using Type.
intros Hst ns Hns. revert st Hst. induction Hns as [|n ns Hn _ IH]; intros st Hst; simpl.
{ split; [done|]. split; [apply extends_refl|]. intros i Hi. by apply elem_of_nil in Hi. }
assert (Hadd : ok (λ d, compiled d ∨ d ∈ batch) (b_add_new st n) ∧ ext st (b_add_new st n) ∧ RuntimeOp.node_id n ∈ nodes (b_add_new st n)).
{ unfold b_add_new. destruct (dmem _ _) eqn:Hd.
  - apply dmem_true in Hd. split; [done|]. by split; [apply extends_refl|].
  - apply dmem_false in Hd. destruct Hn as [Hdeps Hruns]. split; [|split].
    + apply add_ok; [done| |done|done]. intros d Hdep. left. by apply Hdeps.
    + by apply add_extends.
    + rewrite dkeys_add by done. apply elem_of_app. right. by left. }
destruct Hadd as (H1 & H2 & H3). destruct (IH _ H1) as (H4 & H5 & H6). split; [done|]. split; [by eapply extends_trans|].
intros i [->|Hi]%elem_of_cons; [by apply H5|by apply H6].
Qed.

Lemma llm_phase st : ok (λ d, compiled d) st →
  post (λ st', ok (λ d, compiled d) st' ∧ ext st st' ∧ ∀ kv, kv ∈ graph → finished GOp.is_llm kv st') E
    (foldR (build_llm env py urlsplit limit inputs graph outputs) st graph).
Proof using All.
intros Hst. apply (foldR_each E _ ext (λ _ _, True)); [apply extends_refl|apply extends_trans| |apply (graph_wf _ _ Hwf)| |done|done].
{ intros x s1 s2 Hx Hf Hs. by eapply settled_extends, Hf. }
intros s kv Hin Hs _. destruct kv as [id op]. unfold build_llm. pose proof (graph_get _ Hin) as Hop. cbn in Hop.
destruct (GOp.is_llm op) eqn:Hl; [|split; [done|]; split; [apply extends_refl|]; split; [|done]; unfold finished; cbn; by rewrite Hl].
eapply post_bind; [by eapply compile_llm_post with (render := render) (to_str := to_str) (input_ops := input_ops)|]. intros [visited ns] _ [Hid Hns]. cbn [fst snd].
set (batch := RuntimeOp.node_id <$> ns) in *.
assert (Hs0 : ok (λ d, compiled d ∨ d ∈ batch) (b_set_visited visited s)).
{ apply set_visited_ok. eapply state_weaken; [|exact Hs]. intros k n d _ _ Hd. by left; left. }
destruct (add_new_post batch _ Hs0 ns Hns) as (H1 & H2 & H3). cbn zeta in H1, H2, H3.
set (s1 := foldl b_add_new (b_set_visited visited s) ns) in *.
assert (H4 : ok (λ d, compiled d) (b_map id batch s1)).
{ apply map_ok; [apply H3|]. eapply state_weaken; [|exact H1]. intros k n d _ _ [Hd|Hd]; [by left|right; by apply H3]. }
assert (Hmem : id ∈ nodes (b_map id batch s1)) by (by apply H3).
split; [by apply record_ok|]. split; [|split; [|done]].
- eapply extends_trans; [|apply record_extends]. by apply (extends_trans _ _ s1).
- intros _. by apply record_done.
Qed.

(** *** Lambdas that run on their own *)

Lemma input_mono (st st' : bstate) si : ext st st' → step_ok (λ d, d ∈ nodes st) si → step_ok (λ d, d ∈ nodes st') si.
Proof using Type. intros [H _] [Hd Hp Hs]. split; [|done|done]. eapply Forall_impl; [exact Hd|]. intros d. apply H. Qed.

Section step.
Context (D : string → Prop).
Abbreviation progress id st := (λ st', ok D st' ∧ ext st st' ∧ id ∈ nodes st' ∧ ∀ k, k ∈ nodes st' → k ∈ nodes st ∨ rank k <= rank id).

Definition inputs_ok (id : string) (st : bstate) (acc : bstate * step_inputs) : Prop :=
ok D acc.1 ∧ ext st acc.1 ∧ step_ok (λ d, d ∈ nodes acc.1) acc.2 ∧ NoDup (si_deps acc.2) ∧ (∀ k, k ∈ nodes acc.1 → k ∈ nodes st ∨ rank k < rank id).

Lemma python_input_post rec id op st acc i : dget id graph = Some op → i ∈ GOp.inputs op →
  (∀ st, ok D st → post (progress i st) E (rec i st)) →
  inputs_ok id st acc → post (inputs_ok id st) E (python_input limit inputs graph rec acc i).
Proof using All.
intros Hop Hi Hrec. destruct acc as [s si]. intros (Hs & Hext & Hsi & Hnd & Hk). cbn [fst snd] in *. unfold python_input.
destruct (graph_input _ _ Hwf _ _ _ Hop Hi) as [_ Hrank].
apply (post_bind (λ inp, dget i graph = Some inp)); [by apply post_deref|]. intros inp _ Hinp.
assert (Hlit : ∀ values, inputs_ok id st (b_visit [i] s, add_literal i values si)).
{ intros values. split; [by apply state_visit_ok|]. split; [done|]. split; [by apply add_literal_ok|]. by split. }
assert (Hstage : post (inputs_ok id st) E
  (r ← (if is_lambda inp then st ← rec i s; Ok (st, i)
        else if (GOp.is_llm inp || GOp.is_retrieval inp)%bool then
          match dget_or [] i (b_dsl s) with [dep] => Ok (s, dep) | _ => Err (ValueError "a standalone Python step can read one upstream node per input") end
        else Err (ValueError "a standalone Python step reads LLM, data-retrieval, Lambda, input or data ops"));
   n ← static_output_row_count inputs graph limit inp; Ok (r.1, add_stage_input i r.2 inp n si))).
{ eapply (post_bind (λ r : bstate * string, ok D r.1 ∧ ext s r.1 ∧ r.2 ∈ nodes r.1 ∧ ∀ k, k ∈ nodes r.1 → k ∈ nodes s ∨ rank k <= rank i)).
  - destruct (is_lambda inp).
    + eapply post_bind; [by apply Hrec|]. intros s' _ Hs'. exact Hs'.
    + destruct (_ || _)%bool; [|by apply HE]. destruct (dget_or [] i (b_dsl s)) as [|dep []] eqn:Hd; try by apply HE.
      split; [done|]. split; [apply extends_refl|]. split; [|by left]. unfold dget_or in Hd. destruct (dget i (b_dsl s)) as [ids|] eqn:Hg; [|done].
      subst ids. eapply (st_dsl _ _ _ _ _ Hs); [exact Hg|by left].
  - intros [s' dep] _ (H1 & H2 & H3 & H4). cbn [fst snd] in *. apply post_any; [done|by eapply rows_limit_post|]. intros n _.
    split; [done|]. split; [by eapply extends_trans|]. split; cbn [fst snd].
    + eapply add_stage_ok; [by eapply input_mono|exact H3|by apply upstream_entry_ok|by right].
    + split; [by apply add_ref_nodup|]. intros k Hk'. destruct (H4 k Hk') as [H|H]; [by apply Hk|right; lia]. }
destruct (GOp.cls inp); try exact Hstage.
- apply post_any; [done|by apply post_ok_or; [|by apply HE]|]. intros values _. apply Hlit.
- apply Hlit.
Qed.

Lemma python_step_phase fuel id st : fuel_ok E (rank id) fuel → ok D st → post (progress id st) E (build_python_step env limit inputs graph fuel id st).
Proof using All.
revert id st. induction fuel as [|fuel IH]; intros id st Hf Hst; [destruct Hf; [done|lia]|]. cbn [build_python_step].
destruct (dmem id (b_nodes st)) eqn:Hd.
{ apply dmem_true in Hd. split; [done|]. split; [apply extends_refl|]. split; [done|by left]. }
apply dmem_false in Hd. apply (post_bind (λ op, dget id graph = Some op)); [by apply post_deref|]. intros op _ Hop.
apply post_any; [done|by apply post_ok_or; [|by apply HE]|]. intros l _.
apply (post_bind (inputs_ok id st)).
{ apply post_foldR.
  - intros acc i Hi Hacc. eapply python_input_post; [done|done| |done]. intros st' Hst'. apply IH; [|done].
    destruct (graph_input _ _ Hwf _ _ _ Hop Hi). by eapply fuel_ok_S.
  - split; [by apply state_visit_ok|]. split; [done|]. split; [apply no_inputs_ok|]. split; [constructor|by left]. }
intros [s si] _ (Hs & Hext & [Hdeps Hplan Hstages] & _ & Hk). cbn [fst snd] in *.
apply post_any; [done|by apply step_rows_post|]. intros rows _.
destruct (lambda_node_ok render to_str env id l (si_plan si) false rows (si_deps si)) as (n & -> & Hid & Hn & Hrun); [done|done|done|].
cbn [mbind result_bind]. assert (Hnew : RuntimeOp.node_id n ∉ nodes s) by (rewrite Hid; intros [H|H]%Hk; [done|lia]).
assert (Hkeys : nodes (b_map id [id] (b_add n s)) = nodes s ++ [id]) by (change (nodes (b_add n s) = nodes s ++ [id]); by rewrite dkeys_add, Hid).
assert (Hmem : id ∈ nodes (b_map id [id] (b_add n s))) by (rewrite Hkeys; apply elem_of_app; right; by left).
split; [|split; [|split; [done|]]].
- apply map_ok; [intros i Hi; by apply list_elem_of_singleton in Hi as ->|]. apply add_ok; [done| |done|done].
  intros d Hin. right. apply (add_extends outputs n s Hnew). rewrite Hn in Hin. by eapply Forall_forall in Hdeps.
- eapply extends_trans; [exact Hext|]. eapply extends_trans; [by apply add_extends|]. by split.
- intros k. rewrite Hkeys, elem_of_app, list_elem_of_singleton. intros [H|H]; [destruct (Hk k H); [by left|right; lia]|right; by subst].
Qed.
End step.

Lemma standalone_phase (all l : list string) st : (∀ k, k ∈ l → is_Some (dget k graph)) → ok (λ d, d ∈ all) st →
  post (λ st', ok (λ d, d ∈ all) st' ∧ ext st st' ∧ ∀ k, k ∈ l → is_done k st') E
    (foldR (build_standalone env limit inputs graph outputs) st l).
Proof using All.
intros Hl. revert st. induction l as [|id l IH]; intros st Hst; simpl.
{ split; [done|]. split; [apply extends_refl|]. intros k Hk. by apply elem_of_nil in Hk. }
apply (post_bind (λ st', ok (λ d, d ∈ all) st' ∧ ext st st' ∧ is_done id st')).
- unfold build_standalone. destruct (Hl id) as [op Hop]; [by left|].
  eapply post_bind; [apply (python_step_phase (λ d, d ∈ all)); [by eapply Hlimit|done]|]. intros s _ (H1 & H2 & H3 & _).
  split; [by apply record_ok|]. split; [by eapply extends_trans, record_extends|]. by apply record_done.
- intros s _ (H1 & H2 & H3). eapply post_mono; [|apply IH; [|done]; intros k Hk; apply Hl; by right].
  intros s' (H4 & H5 & H6). split; [done|]. split; [by eapply extends_trans|]. intros k [->|Hk]%elem_of_cons; [by eapply settled_extends|by apply H6].
Qed.
End phases.

(** ** The whole build *)

Section build.
Context (env : builder_env) (py : py_env) (urlsplit : string → result (string * option string * option Z)).
Context (limit : nat) (inputs : inputs_dict) (graph input_ops : ops_dict).
Context (rank : string → nat) (E : exn → Prop) (render : source → string) (to_str : val → string).
Hypothesis Hwf : wf_graph graph rank = true.
Hypothesis Hrefs : refs_graph graph input_ops = true.
Hypothesis HE : ∀ e, e ≠ RecursionError → E e.
Hypothesis Hlimit : ∀ id op, dget id graph = Some op → fuel_ok E (rank id) limit.
Hypothesis Hlabels : E RecursionError ∨ labels_graph graph = true.
Hypothesis Hformat : ∀ template d, post (λ _, True) E (py_format py template d).
Hypothesis Hcall : ∀ id args, post (λ _, True) E (call_fn py id args).
Hypothesis Hset : ∀ l, set_order py l ≡ₚ l.
Hypothesis Hurl : ∀ url, post (λ _, True) E (urlsplit url).
Local Abbreviation nodes st := (dkeys (b_nodes st)).

(** The state after the last phase *)
Record built_ok (st : bstate) : Prop := {
bo_wf : dict_wf (b_nodes st);
bo_order : b_order st = nodes st;
bo_deps k n d : (k, n) ∈ b_nodes st → d ∈ RuntimeOp.dependencies n → d ∈ nodes st;
bo_runs k n : (k, n) ∈ b_nodes st → runs_as_step render to_str n;
bo_outputs source name : dget source (b_outputs st) = Some name ↔ ∃ id path, output_op graph id source name path;
bo_sources source name : dget source (b_outputs st) = Some name → source ∈ nodes st;
}.

(** The ops compiled before the row lambdas *)
Lemma compiles_cases op : compiles op = true → compiled_early op = true ∨ GOp.is_row_lambda op = true.
Proof using Type.
unfold compiles, compiled_early, is_lambda, GOp.is_list_lambda, GOp.is_row_lambda. destruct (GOp.lambda op) as [l|]; rewrite ?orb_false_r, ?orb_true_r; [|by left].
destruct (Lambda.takes_whole_columns l); rewrite ?orb_true_r; [by left|by right].
Qed.

Lemma standalone_elem outputs st id op : dget id graph = Some op → GOp.is_row_lambda op = true →
  (dmem id outputs = true ∨ ∃ k n, (k, n) ∈ b_nodes st ∧ id ∈ RuntimeOp.dependencies n) → id ∈ standalone graph outputs st.
Proof using Type.
intros Hop Hr H. unfold standalone. apply list_elem_of_fmap. exists (id, op). split; [done|]. apply list_elem_of_filter. split; [|by apply dget_elem].
split; [done|]. right. destruct H as [H|(k & n & Hin & Hd)]; [by left|]. right; right. apply list_elem_of_filter.
assert (Hid : is_row_lambda_id graph id = true) by (unfold is_row_lambda_id; by rewrite Hop). split; [exact Hid|].
apply list_elem_of_In, in_concat. exists (iter_runtime_refs n ++ RuntimeOp.dependencies n). split.
- apply in_map_iff. exists (k, n). split; [done|]. by apply list_elem_of_In.
- apply list_elem_of_In, elem_of_app. by right.
Qed.

Lemma standalone_get outputs st id : id ∈ standalone graph outputs st → is_Some (dget id graph).
Proof using Hwf.
intros ([k op] & -> & [_ Hin]%list_elem_of_filter)%list_elem_of_fmap. cbn. rewrite (elem_dget k op graph); [by eexists|apply (graph_wf _ _ Hwf)|done].
Qed.

Lemma check_inlined_post ns : post (λ _, True) E (check_inlined_lambda_refs graph ns).
Proof using HE. unfold check_inlined_lambda_refs. cbn zeta. destruct (forallb _ ns); [exact I|by apply HE]. Qed.
Lemma check_visited_post visited : post (λ _, True) E (check_visited graph visited).
Proof using HE. unfold check_visited. destruct (forallb _ _); [exact I|by apply HE]. Qed.

Lemma build_nodes_post : post built_ok E (build_nodes env py urlsplit limit inputs graph input_ops).
Proof using All.
unfold build_nodes. eapply post_bind; [by apply scan_post|]. intros [visited outputs] _ Hscan. cbn [snd] in Hscan.
apply (post_bind (λ _, forallb (λ kv : string * list (string * option string), Nat.leb (length kv.2) 1) outputs = true)).
{ unfold check_outputs. destruct (forallb _ _) eqn:H; [done|by apply HE]. }
intros _ _ Hone. apply post_any; [done|unfold check_not_empty; destruct (existsb _ _); [done|by apply HE]|]. intros _ _.
assert (Hinit : phase_ok graph outputs render to_str GOp.is_retrieval (BState [] [] [] [] [] visited)).
{ split; [split; cbn; try done; [by constructor|..]; by intros * ?%elem_of_nil|]. intros k Hk. by apply elem_of_nil in Hk. }
eapply post_bind.
{ eapply retrieval_phase with (urlsplit := urlsplit); try done. intros kv _ _ Hk. by apply elem_of_nil in Hk. }
intros st1 _ ([Hst1 Honly1] & _ & Hret).
eapply post_bind.
{ eapply list_lambda_phase with (urlsplit := urlsplit) (py := py); try done.
  - split; [done|]. intros k Hk. destruct (Honly1 k Hk) as (op & Hop & Hr). exists op. split; [done|]. unfold retrieval_or_list. by rewrite Hr.
  - intros [id op] Hin Hl Hk. destruct (Honly1 _ Hk) as (op' & Hop & Hr). cbn in *. rewrite (elem_dget id op graph) in Hop; [|apply (graph_wf _ _ Hwf)|done].
    injection Hop as <-. unfold GOp.is_retrieval, GOp.is_list_lambda, GOp.lambda in *. by destruct (GOp.cls op). }
intros st2 _ ([Hst2 _] & Hext2 & Hlist).
eapply post_bind; [eapply llm_phase; done|]. intros st3 _ (Hst3 & Hext3 & Hllm).
assert (Hearly : ∀ id op, dget id graph = Some op → compiled_early op = true → settled outputs id st3).
{ intros id op Hop%dget_elem. unfold compiled_early. rewrite !orb_true_iff. intros [[H|H]|H].
  - by apply (Hllm (id, op)).
  - eapply settled_extends; [exact Hext3|]. eapply settled_extends; [exact Hext2|]. by apply (Hret (id, op)).
  - eapply settled_extends; [exact Hext3|]. by apply (Hlist (id, op)). }
set (pend := standalone graph outputs st3). eapply post_bind.
{ eapply standalone_phase with (all := pend) (rank := rank) (render := render) (to_str := to_str) (urlsplit := urlsplit) (py := py) (input_ops := input_ops); try done.
  - intros k. apply standalone_get.
  - eapply state_weaken; [|exact Hst3]. intros k n d Hin Hd Hc. unfold compiledb in Hc. destruct (dget d graph) as [op|] eqn:Hop; [|done].
    destruct (compiles_cases op Hc) as [He|Hr]; [right; by apply (Hearly d op)|left]. eapply standalone_elem; eauto. }
intros st4 _ (Hst4 & Hext4 & Hpend).
apply post_any; [done|apply check_inlined_post|]. intros _ _.
apply post_any; [done|apply check_visited_post|]. intros _ _.
destruct Hst4 as [H1 H2 H3 H4 H5 H6]. split; try done.
- intros k n d Hin Hd. destruct (H3 k n d Hin Hd) as [H|H]; [by apply Hpend|done].
- intros source name. split.
  + intros Hg. destruct (H6 source name Hg) as (_ & path & Ho). apply (output_of_iff graph _ _ _ _ Hscan Hone) in Ho as [id Ho]. by exists id, path.
  + intros (id & path & Ho). assert (Hout : output_of outputs source = Some (name, path)) by (apply (output_of_iff graph _ _ _ _ Hscan Hone); by exists id).
    destruct Ho as (op & Hin & Hcls & Hi). destruct (sc_found _ _ _ Hscan _ _ _ _ _ Hin Hcls Hi) as [Hc _].
    unfold compiledb in Hc. destruct (dget source graph) as [s|] eqn:Hs; [|done].
    assert (Hdone : settled outputs source st4); [|by eapply (proj2 Hdone)].
    destruct (compiles_cases s Hc) as [He|Hr]; [eapply settled_extends, Hearly; done|]. apply Hpend. eapply standalone_elem; [done|done|left].
    apply dmem_true, dget_is_Some. unfold output_of in Hout. destruct (dget source outputs); [by eexists|done].
- intros source name Hg. by destruct (H6 source name Hg).
Qed.
End build.

(** ** Properties *)

Lemma post_all {A} (r : result A) : post (λ _, True) (λ _, True) r.
Proof. by destruct r. Qed.

Lemma topological_order_error g e : RuntimeGraph.topological_order g = Err e → e ≠ RecursionError.
Proof.
  unfold RuntimeGraph.topological_order, topological_sort. destruct (topo_loop _ _ _ _ _ _); cbn; [case_decide; cbn|]; intros [= <-]; done.
Qed.

Section theorems.
Context (env : builder_env) (py : py_env) (urlsplit : string → result (string * option string * option Z)) (sha256_hex : string → string).
Context (limit : nat) (inputs : inputs_dict) (graph input_ops : ops_dict) (rank : string → nat).
Local Abbreviation builds G := (build env py urlsplit sha256_hex limit inputs graph input_ops None = Ok G).

(** The nodes of a graph that was built *)
Lemma build_ok render to_str G : wf_graph graph rank = true → refs_graph graph input_ops = true → (∀ l, set_order py l ≡ₚ l) → builds G →
  ∃ st, built_ok graph render to_str st ∧ RuntimeGraph.topological_order (runtime_graph st) = Ok (RuntimeGraph.node_order G) ∧
        G = with_order (runtime_graph st) (RuntimeGraph.node_order G).
Proof.
intros Hwf Hrefs Hset H. unfold build in H. apply result_bind_ok in H as (st & Hst & H). apply result_bind_ok in H as (order & Ho & H).
injection H as <-. exists st. split; [|done].
pose proof (build_nodes_post env py urlsplit limit inputs graph input_ops rank (λ _, True) render to_str Hwf Hrefs (λ _ _, I) (λ _ _ _, or_introl I)
  (or_introl I) (λ _ _, post_all _) (λ _ _, post_all _) Hset (λ _, post_all _)) as Hpost. by rewrite Hst in Hpost.
Qed.


(** C16: Every python step of a graph that is built can be turned into a task,
    and the task is given exactly the results of the nodes it depends on: the
    program reads no result it does not wait for and waits for none it does not
    read. *)
Theorem steps_read_their_dependencies render to_str G : wf_graph graph rank = true → refs_graph graph input_ops = true →
  (∀ l, set_order py l ≡ₚ l) → builds G →
  ∀ id n, dget id (RuntimeGraph.nodes G) = Some n → runs_as_step render to_str n.
Proof.
intros Hwf Hrefs Hset H. destruct (build_ok render to_str G Hwf Hrefs Hset H) as (st & Hst & Ho & ->).
intros id n Hn. by eapply (bo_runs _ _ _ _ Hst), dget_elem.
Qed.

(** Building ends on every graph whose ops can be ranked: when the recursion
    limit exceeds the rank of every op and no literal text looks like the label
    of a format step, it returns a graph or an error about the workflow, and
    never recurses too deep. *)
Theorem build_ends : wf_graph graph rank = true → refs_graph graph input_ops = true → labels_graph graph = true →
  (∀ l, set_order py l ≡ₚ l) → Forall (λ id, rank id < limit) (dkeys graph) →
  (∀ template d, py_format py template d ≠ Err RecursionError) → (∀ id args, call_fn py id args ≠ Err RecursionError) →
  (∀ url, urlsplit url ≠ Err RecursionError) →
  build env py urlsplit sha256_hex limit inputs graph input_ops None ≠ Err RecursionError.
Proof.
intros Hwf Hrefs Hlabels Hset Hlimit Hf Hc Hu.
assert (Hp : ∀ A (r : result A), r ≠ Err RecursionError → post (λ _, True) (λ e, e ≠ RecursionError) r) by (intros A [a|e] Hr; [done|]; intros ->; done).
pose proof (build_nodes_post env py urlsplit limit inputs graph input_ops rank (λ e, e ≠ RecursionError) (λ _, "") (λ _, "") Hwf Hrefs (λ _ H, H)) as Hpost.
unfold build. destruct (build_nodes _ _ _ _ _ _ _) as [st|e].
- cbn. destruct (RuntimeGraph.topological_order _) as [order|e] eqn:Ho; [done|]. intros [= ->]. by apply topological_order_error in Ho.
- cbn. intros [= ->]. apply Hpost; auto. intros id op Hop. right. rewrite Forall_forall in Hlimit. apply Hlimit, dget_is_Some. by eexists.
Qed.
End theorems.

(** ** A workflow, compiled *)

Definition demo_cfg : config := Config 1 "1Gi" 1 "1Gi" "local" "https://lum.id/llm" "" (Some "pat").
Definition demo_env : builder_env := BuilderEnv demo_cfg "http://data" "" "tok" 8192 512 (of_Z 1) 0.
Definition demo_py : py_env := PyEnv (λ _, "v") (λ t _, Ok t) (λ _, None) (λ _, "j") (λ _ _, Ok "r") (λ _ _, true) (λ l, l).
Definition demo_urlsplit (url : string) : result (string * option string * option Z) := Ok ("https", Some "lum.id", None).
Definition demo_model : GenerationConfig.t := GenerationConfig.mk "m" None [].
Definition demo_chat : Chat.t := Chat.mk false VNone [] None [] [] None.
Definition demo_lambda (mode : string) : Lambda.t := Lambda.mk SubmittedFunction "f" "def f(): pass" mode VNone VNone None VNone VNone.
Definition ops (l : list GOp.t) : ops_dict := (λ op, (GOp.id op, op)) <$> l.

(** A retrieval parametrised by an input, a chat over a format of its rows and
    the input, a row lambda of the answers, a list lambda of those, two outputs *)
Definition demo_graph : ops_dict := ops [
  GOp.mk "in" [] (GOp.InputOp "q");
  GOp.mk "ret" ["in"] (GOp.DataRetrievalOp [("type", VStr "lumid"); ("mode", VStr "sql"); ("template", VStr "select * from t where x={a}");
    ("params", VList [VDict [("label", VStr "a"); ("node", VStr "in")]])]);
  GOp.mk "fmt" ["in"; "ret"] (GOp.FormatOp "{a}{b}" [("a", "in"); ("b", "ret")] []);
  GOp.mk "msg" ["fmt"] (GOp.MessageOp [("user", OpRef "fmt")]);
  GOp.mk "llm" ["msg"] (GOp.LLMChatOp demo_model demo_chat);
  GOp.mk "lst" ["llm"; "in"] (GOp.LambdaOp (demo_lambda "list"));
  GOp.mk "lam" ["llm"; "lst"] (GOp.LambdaOp (demo_lambda "row"));
  GOp.mk "out" ["lst"] (GOp.OutputOp "answer" None);
  GOp.mk "out2" ["lam"] (GOp.OutputOp "rows" None)].
Definition demo_inputs : inputs_dict := [("q", ["x"])].
(** The position of an op in its graph, which the ops it refers to precede *)
Definition position (graph : ops_dict) (id : string) : nat := default 0 (list_find (λ k, k = id) (dkeys graph) ≫= λ p, Some p.1).
Local Abbreviation demo_built graph := (build demo_env demo_py demo_urlsplit (λ s, s) 50 demo_inputs graph [] None).


Lemma demo_wf : wf_graph demo_graph (position demo_graph) = true.
Proof. vm_compute. reflexivity. Qed.
Lemma demo_refs : refs_graph demo_graph [] = true.
Proof. vm_compute. reflexivity. Qed.


Lemma steps_read_their_dependencies_witness :
  ∃ G n, demo_built demo_graph = Ok G ∧ dget "lam" (RuntimeGraph.nodes G) = Some n ∧ RuntimeOp.dependencies n = ["llm"; "lst"] ∧
    runs_as_step (λ _, "") (λ _, "") n.
Proof.
  assert (Ho : (λ G, RuntimeOp.dependencies <$> dget "lam" (RuntimeGraph.nodes G)) <$> demo_built demo_graph = Ok (Some ["llm"; "lst"])) by (vm_compute; reflexivity).
  destruct (demo_built demo_graph) as [G|] eqn:E; [|discriminate Ho]. injection Ho as Ho. destruct (dget "lam" (RuntimeGraph.nodes G)) as [n|] eqn:En; [|discriminate Ho].
  injection Ho as Ho. exists G, n. split; [reflexivity|]. split; [exact En|]. split; [exact Ho|].
  exact (steps_read_their_dependencies demo_env demo_py demo_urlsplit (λ s, s) 50 demo_inputs demo_graph [] (position demo_graph) (λ _, "") (λ _, "")
    G demo_wf demo_refs (λ l, Permutation_refl l) E "lam" n En).
Defined.

Lemma build_ends_witness : demo_built demo_graph ≠ Err RecursionError.
Proof.
  refine (build_ends demo_env demo_py demo_urlsplit (λ s, s) 50 demo_inputs demo_graph [] (position demo_graph) demo_wf demo_refs _ (λ l, Permutation_refl l) _ _ _ _).
  - vm_compute. reflexivity.
  - apply (bool_decide_unpack _). vm_compute. exact I.
  - discriminate.
  - discriminate.
  - discriminate.
Defined.
(** An image op whose prompt a format step takes from an input: the format is
    inlined and marked as visited, the input is not. *)
Definition image_graph (content : list GOp.t) (prompt : string) : ops_dict :=
  ops (GOp.mk "in" [] (GOp.InputOp "q") :: content ++ [GOp.mk "img" [prompt] (GOp.ImageGenerationOp demo_model); GOp.mk "out" ["img"] (GOp.OutputOp "image" None)]).
Definition prompt_of (id : string) : GOp.t := GOp.mk "fmt" [id] (GOp.FormatOp "{ref0}" [("ref0", id)] []).
Example image_of_an_input : ∃ G, demo_built (image_graph [] "in") = Ok G ∧ RuntimeGraph.node_order G = ["img"].
Proof. eexists. split; vm_compute; reflexivity. Qed.
Example image_of_a_formatted_input_is_rejected :
  demo_built (image_graph [prompt_of "in"] "fmt") = Err (ValueError "Graph transformation failed: orphaned or unreachable ops").
Proof. vm_compute. reflexivity. Qed.
(** An embedding of formatted text: the format is compiled to no node, and the
    embedding waits for it. *)
Definition embedding_graph : ops_dict := ops [
  GOp.mk "in" [] (GOp.InputOp "q"); GOp.mk "fmt" ["in"] (GOp.FormatOp "Read: {ref0}" [("ref0", "in")] []);
  GOp.mk "msg" ["fmt"] (GOp.MessageOp [("user", OpRef "fmt")]); GOp.mk "llm" ["msg"] (GOp.LLMChatOp demo_model demo_chat);
  GOp.mk "emb" ["fmt"] (GOp.EmbeddingOp demo_model);
  GOp.mk "out" ["llm"] (GOp.OutputOp "answer" None); GOp.mk "out2" ["emb"] (GOp.OutputOp "vector" None)].
Example embedding_waits_for_no_node : ∃ G, demo_built embedding_graph = Ok G ∧
  RuntimeGraph.node_order G = ["llm"; "emb"] ∧ (RuntimeOp.dependencies <$> dget "emb" (RuntimeGraph.nodes G)) = Some ["fmt"].
Proof. eexists. split_and!; vm_compute; reflexivity. Qed.
