(* ===== verification/DynamicSubgraph.v ===== *)
(** * Subgraphs of dynamic workflows

    In every round of a dynamic workflow a planner emits ops in the YAML
    convention, some of them by reference to a library of templates.  This file
    resolves the references and decides whether the subgraph is admitted
    (dynamic/driver.py: [round_output_location], [validate_library],
    [resolve_subgraph], [_validate_declared_inputs],
    [validate_emitted_subgraph], [_current_leaves]).

    An op is a dict with text keys, as pydantic has checked.  Sets of ids are
    lists; messages of errors are cut before the values they print. *)

From Stdlib Require Import Ascii.
From S2P Require Import Prelude PyFloat PyDict PyValue PyString PythonStep YamlParser.

Definition protocol_error {A} (message : string) : result A := Err (DriverProtocolError message).

(** dynamic/blocks.py *)
Definition INPUT_NODE_ID : string := "Symbols".
Definition OBSERVATION_NODE_ID : string := "observation".
Definition FORMAT_NODE_ID : string := "format".
Definition MESSAGE_NODE_ID : string := "message".
Definition PROPOSER_NODE_ID : string := "proposer".
Definition OUTPUT_NODE_ID : string := "output".

Definition FIXED_ROUND_NODE_IDS : list string := [INPUT_NODE_ID; OBSERVATION_NODE_ID; PROPOSER_NODE_ID].

(** The supported ops whose class derives from LLMOp or DataRetrievalOp *)
Definition OUTPUT_SOURCE_OPS : list string := ["DataRetrievalOp"; "LLMChatOp"; "LLMVisionOp"; "ImageGenerationOp"; "EmbeddingOp"].

(** ** Output locations *)

Definition ends_with_slash (s : string) : bool :=
  match reverse (chars s) with c :: _ => Ascii.eqb c "/"%char | [] => false end.

Definition round_output_location (base : dict string val) (run_namespace : string) (round_index : nat) : result (dict string val) :=
  location_type ← dindex (KeyError "type") "type" base;
  if bool_decide (location_type = VStr "s3") then
    prefix ← dindex (KeyError "prefix") "prefix" base;
    match prefix with
    | VStr prefix =>
        let sep := if ends_with_slash prefix then "" else "/" in
        Ok [("type", VStr "s3"); ("prefix", VStr (prefix +:+ sep +:+ run_namespace +:+ "/round-" +:+ str_of_nat round_index +:+ "/"))]
    | _ => Err (AttributeError "endswith")
    end
  else protocol_error "unsupported output location type".

(** ** The library *)

Definition validate_template (entry : string * val) : result () :=
  match entry.2 with
  | VDict template =>
      match vget "op" template with
      | VStr op_type => if bool_decide (op_type ∈ SUPPORTED_OPS) then Ok () else protocol_error "library entry has unsupported op type"
      | _ => protocol_error "library entry has unsupported op type"
      end
  | _ => protocol_error "library entry must be a mapping"
  end.
(** [None] is the empty library *)
Definition validate_library (library : dict string val) : result () := _ ← mapR validate_template library; Ok ().

Definition hashable (v : val) : bool := match v with VList _ | VDict _ => false | _ => true end.
(** [sorted] compares texts with texts and numbers with numbers *)
Definition is_text (v : val) : bool := match v with VStr _ => true | _ => false end.
Definition is_real (v : val) : bool := match v with VInt _ | VBool _ | VFloat _ => true | _ => false end.
Definition sortable (l : list val) : bool := (Nat.leb (length l) 1 || forallb is_text l || forallb is_real l)%bool.

Definition add_label (by_label : dict val op_dict) (param : val) : result (dict val op_dict) :=
  match param with
  | VDict p => if hashable (vget "label" p) then Ok (dset (vget "label" p) p by_label) else Err (TypeError "unhashable type")
  | _ => Err (AttributeError "get")
  end.

(** One binding of a parameter to an input *)
Definition bind_param (inputs : list string) (by_label : dict val op_dict) (binding : val) : result (dict val op_dict) :=
  match binding with
  | VDict b =>
      let label := vget "label" b in
      if negb (hashable label) then Err (TypeError "unhashable type")
      else
        match dget label by_label with
        | None => if sortable (dkeys by_label) then protocol_error "param_binding references unknown label" else Err (TypeError "'<' not supported")
        | Some p =>
            i ← ok_or (DriverProtocolError "param_binding has invalid input slot") (as_int (vget "input" b));
            if (i <? 0)%Z then protocol_error "param_binding has invalid input slot"
            else
              node ← ok_or (DriverProtocolError "param_binding has invalid input slot") (inputs !! Z.to_nat i);
              Ok (dset label (dset "node" (VStr node) p) by_label)
        end
  | _ => protocol_error "param_bindings entries must be mappings"
  end.

Definition apply_param_bindings (template : op_dict) (inputs : list string) : result val :=
  match vget "data_spec" template with
  | VDict data_spec =>
      match vget "param_bindings" data_spec with
      | VList bindings =>
          if negb (Nat.eqb (length inputs) (length bindings)) then protocol_error "library entry declares another number of param bindings"
          else
            match vget "params" data_spec with
            | VList params =>
                by_label ← foldR add_label [] params;
                by_label ← foldR (bind_param inputs) by_label bindings;
                Ok (VDict (dset "params" (VList (VDict <$> dvals by_label)) data_spec))
            | _ => protocol_error "library entry has param_bindings but no params"
            end
      | _ => Ok (VDict data_spec)
      end
  | _ => protocol_error "library entry is not a retrieval op"
  end.

Definition LIBRARY_REF_OVERRIDES : list string := ["id"; "inputs"; "op"].

(** One field of an op that refers to a template *)
Definition resolve_field (template : op_dict) (merged : op_dict) (field : string * val) : result op_dict :=
  let '(key, value) := field in
  if bool_decide (key = "ref" ∨ key = "op") then Ok merged
  else if negb (bool_decide (key ∈ LIBRARY_REF_OVERRIDES)) then protocol_error "subgraph op may not override a field of its library entry"
  else if String.eqb key "inputs" then
    inputs ← ok_or (DriverProtocolError "subgraph op inputs must be a list of node ids") (str_list value);
    let merged := dset "inputs" value merged in
    match vget "data_spec" template with
    | VDict _ => data_spec ← apply_param_bindings template inputs; Ok (dset "data_spec" data_spec merged)
    | _ => Ok merged
    end
  else Ok (dset key value merged).

Section library.
Context (library : dict string op_dict).

Definition resolve_op (op : op_dict) : result op_dict :=
match dget "ref" op with
| None => Ok op
| Some (VStr ref) =>
    template ← ok_or (DriverProtocolError "subgraph op references unknown library entry") (dget ref library);
    if bool_decide (vget "op" op = VNone ∨ vget "op" template = vget "op" op) then foldR (resolve_field template) template op
    else protocol_error "subgraph op declares another op than its library entry"
| Some _ => protocol_error "subgraph op 'ref' must be a string"
end.

Definition resolve_subgraph (subgraph : list op_dict) : result (list op_dict) := mapR resolve_op subgraph.
End library.

(** ** Declared inputs *)

(** The texts of [op.get("inputs", [])] *)
Definition input_refs (op : op_dict) : result (list string) :=
  (λ refs : list val, omap as_str refs) <$> py_iter (dget_or (VList []) "inputs" op).

Section declared.
Context (blake2b_2 : string → nat) (yaml_load : string → yaml_outcome).
Context (available_ops : dict string op_dict).

Definition internal_id (scope op_type user_id : string) : string := make_id blake2b_2 scope (op_id_prefix op_type) user_id.

Definition probe_data_op (ref : string) : op_dict :=
[("id", VStr ref); ("op", VStr "DataOp"); ("inputs", VList []); ("data", VList [VStr "x"])].

(** The ids seen and the ops that are added for them, depth first *)
Fixpoint add_probe (fuel : nat) (op_id : string) (st : list string * list op_dict) (ref : string) : result (list string * list op_dict) :=
if bool_decide (ref = INPUT_NODE_ID ∨ ref = op_id ∨ ref ∈ st.1) then Ok st
else
let seen := st.1 ++ [ref] in
match dget ref available_ops with
| None => Ok (seen, st.2 ++ [probe_data_op ref])
| Some real =>
    match fuel with
    | O => Err RecursionError
    | S fuel =>
        deps ← py_iter (dget_or (VList []) "inputs" real);
        let deps := filter (λ dep, dep ≠ VStr op_id) deps in
        foldR (λ st dep, match dep with VStr dep => add_probe fuel op_id st dep | _ => Ok st end)
          (seen, st.2 ++ [dset "inputs" (VList deps) real]) deps
    end
end.

Definition probes (op_id : string) (declared : list string) : result (list op_dict) :=
st ← foldR (add_probe (S (length available_ops)) op_id) ([], []) declared; Ok st.2.

(** [collect_config_refs]: the texts of the fields that do not start with an underscore *)
Definition is_private (key : string) : bool := match chars key with c :: _ => Ascii.eqb c "_"%char | [] => false end.
Fixpoint collect_refs (value : val) : list string :=
match value with
| VStr s => [s]
| VList l => flat_map (λ item, match item with VStr s => [s] | VDict _ => collect_refs item | _ => [] end) l
| VDict d => flat_map (λ kv : string * val, let '(key, v) := kv in if is_private key then [] else collect_refs v) d
| _ => []
end.

Definition depcheck_name : string := "depcheck".
Definition depcheck_workflow (ops : list op_dict) : val :=
VDict [("name", VStr depcheck_name); ("inputs", VDict [(INPUT_NODE_ID, VList [])]); ("ops", VList (VDict <$> ops)); ("outputs", VList [])].

Definition name_internal (internal_to_user : dict string string) (op : op_dict) : dict string string :=
match vget "id" op, vget "op" op with
| VStr uid, VStr otype => dset (internal_id depcheck_name otype uid) uid internal_to_user
| _, _ => internal_to_user
end.

Section native.
Context (native : dict string op_dict) (internal_to_user : dict string string).
(** The ops of the workflow an id of the graph stands for *)
Fixpoint resolve_to_user (fuel : nat) (internal : string) : result (list string) :=
match dget internal internal_to_user with
| Some user => Ok [user]
| None =>
    match dget internal native with
    | None => Ok []
    | Some implicit =>
        match fuel with
        | O => Err RecursionError
        | S fuel =>
            deps ← py_iter (dget_or (VList []) "_inputs" implicit);
            found ← mapR (λ dep, match dep with VStr dep => resolve_to_user fuel dep | _ => Ok [] end) deps;
            Ok (concat found)
        end
    end
end.
End native.

(** What an op reads besides the input of the run: [None] when its fields name
no op. *)
Definition native_deps (op_id op_type : string) (op : op_dict) (declared : list string) : result (option (list string)) :=
added ← probes op_id declared;
parsed ← match parse_yaml_payload blake2b_2 yaml_load (depcheck_workflow (op :: added)) with
         | Err (ValueError _) => protocol_error "subgraph op references a node not in its declared inputs"
         | r => r
         end;
let native := gs_graph parsed.2 in
let internal_to_user := foldl name_internal [] (op :: added) in
native_op ← ok_or (DriverProtocolError "subgraph op did not produce a native node") (dget (internal_id parsed.1 op_type op_id) native);
let config_refs := collect_refs (VDict native_op) in
if negb (existsb (λ internal, dmem internal native) config_refs) then Ok None
else
  found ← mapR (resolve_to_user native internal_to_user (S (length native))) config_refs;
  Ok (Some (filter (.≠ INPUT_NODE_ID) (concat found))).

Definition validate_declared_inputs (op_id op_type : string) (op : op_dict) (inputs : list string) : result () :=
let declared := remove_dups (filter (.≠ INPUT_NODE_ID) inputs) in
deps ← native_deps op_id op_type op declared;
match deps with
| None => Ok ()
| Some deps =>
    if negb (forallb (λ ref, bool_decide (ref ∈ deps)) declared) then protocol_error "subgraph op declares an input its config does not reference"
    else if negb (forallb (λ ref, bool_decide (ref ∈ declared)) deps) then protocol_error "subgraph op config references a node missing from its declared inputs"
    else Ok ()
end.
End declared.

(** ** Admission *)

Section validate.
Context (blake2b_2 : string → nat) (yaml_load : string → yaml_outcome).
Context (node_registry : dict string op_dict).

(** The ids and types of the ops checked so far *)
Definition validate_op (available_ops : dict string op_dict) (types : dict string string) (op : op_dict) : result (dict string string) :=
op_id ← match vget "id" op with
        | VStr i => if String.eqb i "" then protocol_error "subgraph op requires a non-empty 'id'" else Ok i
        | _ => protocol_error "subgraph op requires a non-empty 'id'"
        end;
if bool_decide (op_id ∈ FIXED_ROUND_NODE_IDS) then protocol_error "subgraph op id is reserved for the fused round graph"
else if dmem op_id node_registry then protocol_error "subgraph op id collides with an existing node"
else if dmem op_id types then protocol_error "duplicate subgraph op id"
else
op_type ← match vget "op" op with
          | VStr t => if bool_decide (t ∈ SUPPORTED_OPS) then Ok t else protocol_error "subgraph op has unsupported op type"
          | _ => protocol_error "subgraph op has unsupported op type"
          end;
inputs ← ok_or (DriverProtocolError "subgraph op inputs must be a list of node ids") (str_list (dget_or (VList []) "inputs" op));
_ ← validate_declared_inputs blake2b_2 yaml_load available_ops op_id op_type op inputs;
Ok (dset op_id op_type types).

(** One reference of an op, the ids emitted before it being [seen] *)
Definition validate_ref (available_results : option (list string)) (ids seen : list string) (ref : string) : result () :=
if String.eqb ref INPUT_NODE_ID then Ok ()
else if dmem ref node_registry then
  match available_results with
  | Some available => if bool_decide (ref ∈ available) then Ok () else protocol_error "subgraph op references an earlier op whose result is not available"
  | None => Ok ()
  end
else if negb (bool_decide (ref ∈ ids)) then protocol_error "subgraph op references unknown node id"
else if negb (bool_decide (ref ∈ seen)) then protocol_error "subgraph must be acyclic"
else Ok ().

Definition op_id_of (op : op_dict) : result string := match dget "id" op with Some (VStr i) => Ok i | _ => Err (KeyError "id") end.

Definition validate_refs (available_results : option (list string)) (ids : list string) (seen : list string) (op : op_dict) : result (list string) :=
op_id ← op_id_of op;
refs ← input_refs op;
_ ← mapR (validate_ref available_results ids seen) refs;
Ok (seen ++ [op_id]).

Definition validate_leaf (types : dict string string) (consumed : list string) (op : op_dict) : result () :=
op_id ← op_id_of op;
if bool_decide (op_id ∈ consumed) then Ok ()
else
  op_type ← dindex (KeyError op_id) op_id types;
  if bool_decide (op_type ∈ OUTPUT_SOURCE_OPS) then Ok () else protocol_error "subgraph leaf cannot be archived".

Definition available_op (d : dict string op_dict) (op : op_dict) : dict string op_dict :=
match vget "id" op with VStr i => dset i op d | _ => d end.

Definition validate_emitted_subgraph (subgraph : list op_dict) (max_nodes : Z) (library : dict string op_dict)
  (export : option (list string)) (results : option (list string)) : result () :=
if (max_nodes <? Z.of_nat (length subgraph))%Z then protocol_error "subgraph exceeds max_nodes_per_round"
else if bool_decide (subgraph = []) then protocol_error "subgraph must not be empty"
else
resolved ← resolve_subgraph library subgraph;
let available_ops := dupdate (foldl available_op [] resolved) node_registry in
types ← foldR (validate_op available_ops) [] resolved;
let ids := dkeys types in
_ ← match export with
    | Some export => if forallb (λ e, bool_decide (e ∈ ids)) export then Ok () else protocol_error "exported op id is not an op of this subgraph"
    | None => Ok ()
    end;
_ ← foldR (validate_refs results ids) [] resolved;
consumed ← mapR input_refs resolved;
_ ← mapR (validate_leaf types (concat consumed)) resolved;
Ok ().
End validate.

(** [_current_leaves] *)
Definition current_leaves (subgraph : list op_dict) : result (list string) :=
  consumed ← mapR input_refs subgraph;
  ids ← mapR op_id_of subgraph;
  Ok (filter (.∉ concat consumed) ids).
