(* ===== verification/DynamicSubgraphProps.v ===== *)
(** * Properties of emitted subgraphs

    A template of the library keeps its configuration whatever the planner
    emits; an admitted subgraph consists of new ops that refer to the input of the
    run, to earlier ops with a result and to ops before them; the rounds of a
    run write to separate places. *)

From Stdlib Require Import Ascii.
From S2P Require Import Prelude PyFloat PyDict PyValue PyString PythonStep YamlParser YamlParserProps DynamicSubgraph.

(** ** Output locations *)

(** The first occurrence of a character splits a text in one way only. *)
Lemma first_char_split (c : ascii) l1 l2 s1 s2 : c ∉ l1 → c ∉ l2 → l1 ++ c :: s1 = l2 ++ c :: s2 → l1 = l2 ∧ s1 = s2.
Proof.
  revert l2. induction l1 as [|x l1 IH]; intros [|y l2] H1 H2 E; simplify_eq/=.
  - done.
  - exfalso. apply H2. left.
  - exfalso. apply H1. left.
  - destruct (IH l2) as [-> ->]; set_solver.
Qed.

Lemma digits_no_slash n : "/"%char ∉ chars (str_of_nat n).
Proof.
  destruct (str_of_nat_spec n) as [_ H]. intros Hin. unfold isdigit in H. destruct (chars (str_of_nat n)) as [|c l]; [done|].
  rewrite forallb_forall in H. apply list_elem_of_In, H in Hin. done.
Qed.

(** The part of the location the rounds of a run share *)
Lemma round_location_shape base run : ∃ shared, ∀ i a, round_output_location base run i = Ok a →
  vget "prefix" a = VStr (shared +:+ (str_of_nat i +:+ "/")).
Proof.
  exists (match dget "prefix" base with
     | Some (VStr prefix) => prefix +:+ (if ends_with_slash prefix then "" else "/") +:+ run +:+ "/round-"
     | _ => "" end).
  intros i a H. unfold round_output_location in H. inv_ok. destruct (bool_decide _); [|done]. inv_ok.
  match goal with Hp : dindex _ "prefix" base = Ok ?v |- _ => unfold dindex in Hp; apply ok_or_ok in Hp; rewrite Hp; destruct v; try done end.
  injection H as <-. unfold vget, dget_or. simpl. f_equal.
  apply (inj chars). by rewrite !chars_app, <-!app_assoc.
Qed.

(** Two rounds of a run never write to the same place: the location of one
round is not below the location of another. *)
Theorem round_locations_are_disjoint base run i j a b p q :
  round_output_location base run i = Ok a → round_output_location base run j = Ok b →
  vget "prefix" a = VStr p → vget "prefix" b = VStr q →
  chars p `prefix_of` chars q → i = j.
Proof.
  destruct (round_location_shape base run) as [shared Hs]. intros Ha%Hs Hb%Hs Hp Hq [rest E].
  rewrite Ha in Hp. rewrite Hb in Hq. injection Hp as <-. injection Hq as <-.
  rewrite !chars_app, <-!app_assoc in E. apply app_inv_head in E. simpl in E.
  apply first_char_split in E as [E _]; [|apply digits_no_slash..]. by apply (inj str_of_nat), (inj chars).
Qed.

(** ** The library *)

Section resolve.
Context (library : dict string op_dict).

Lemma resolve_field_keeps template merged field merged' k : resolve_field template merged field = Ok merged' →
k ∉ ["id"; "inputs"; "data_spec"] → dget k merged' = dget k merged.
Proof.
intros H Hk. unfold resolve_field in H. destruct field as [key value]. destruct (bool_decide _) eqn:E1; [by injection H as <-|].
destruct (negb _) eqn:E2; [done|]. apply negb_false_iff, bool_decide_eq_true in E2. apply bool_decide_eq_false in E1.
destruct (String.eqb_spec key "inputs") as [->|Hi].
- inv_ok. destruct (vget "data_spec" template); inv_ok; rewrite ?dget_dset_ne by set_solver; done.
- injection H as <-. apply dget_dset_ne. intros ->. unfold LIBRARY_REF_OVERRIDES in E2. set_solver.
Qed.

Lemma resolve_fields_keep template fields merged op k : foldR (resolve_field template) merged fields = Ok op →
k ∉ ["id"; "inputs"; "data_spec"] → dget k op = dget k merged.
Proof.
intros H Hk. refine (foldR_inv _ (λ m, dget k m = dget k merged) merged fields op _ _ H); [done|].
intros m x m' _ Hm Hx. rewrite <-Hm. by apply resolve_field_keeps with (1 := Hx).
Qed.

(** A parameter of a template, or the same with another node *)
Definition bound_param (params : list val) (inputs : list string) (p : op_dict) : Prop :=
∃ d, VDict d ∈ params ∧ (p = d ∨ ∃ node, node ∈ inputs ∧ p = dset "node" (VStr node) d).

Lemma dset_dset {V} k (v v' : V) (d : dict string V) : dset k v (dset k v' d) = dset k v d.
Proof.
induction d as [|[k' w] d IH]; simpl; [by rewrite decide_True|]. case_decide as E; simpl.
- rewrite decide_True by done. done.
- rewrite decide_False by done. by rewrite IH.
Qed.

Lemma dvals_dset {K V} `{EqDecision K} k (v x : V) (d : dict K V) : x ∈ dvals (dset k v d) → x = v ∨ x ∈ dvals d.
Proof.
intros ([k' y] & -> & Hin)%list_elem_of_fmap. apply elem_of_dset in Hin as [[-> ->]|Hin]; [by left|right].
apply list_elem_of_fmap. by exists (k', y).
Qed.

Lemma bindings_bound inputs params labels bindings labels' : foldR add_label [] params = Ok labels →
foldR (bind_param inputs) labels bindings = Ok labels' → ∀ p, p ∈ dvals labels' → bound_param params inputs p.
Proof.
intros Hl Hb.
assert (H0 : ∀ p, p ∈ dvals labels → bound_param params inputs p).
{ refine (foldR_inv _ (λ d, ∀ p, p ∈ dvals d → bound_param params inputs p) [] params labels _ _ Hl); [by intros p ?%elem_of_nil|].
  intros d x d' Hx Hd Hstep p Hp. unfold add_label in Hstep. destruct x as [| | | | | | |q]; try done. destruct (hashable _); [|done].
  injection Hstep as <-. apply dvals_dset in Hp as [->|Hp]; [|by apply Hd]. exists q. split; [done|by left]. }
refine (foldR_inv _ (λ d, ∀ p, p ∈ dvals d → bound_param params inputs p) labels bindings labels' H0 _ Hb).
intros d x d' Hx Hd Hstep p Hp. unfold bind_param in Hstep. destruct x as [| | | | | | |q]; try done. destruct (negb _); [done|].
destruct (dget (vget "label" q) d) as [old|] eqn:Eo; [|by destruct (sortable _)]. inv_ok. destruct (Z.ltb _ _); [done|]. inv_ok. apply dvals_dset in Hp as [->|Hp]; [|by apply Hd].
assert (Hold : bound_param params inputs old) by (apply Hd; apply dget_elem in Eo; apply list_elem_of_fmap; by exists (vget "label" q, old)).
assert (Hnode : a0 ∈ inputs) by (by eapply list_elem_of_lookup_2).
destruct Hold as (dd & Hdd & [->|(n' & _ & ->)]); exists dd; (split; [done|right]; exists a0; split; [done|]); [done|by rewrite dset_dset].
Qed.

(** The data spec of a resolved op *)
Definition bound_data_spec (spec spec' : dict string val) (inputs : list string) : Prop :=
(∀ k, k ≠ "params" → dget k spec' = dget k spec) ∧
(dget "params" spec' = dget "params" spec ∨
 ∃ params labels, vget "params" spec = VList params ∧ dget "params" spec' = Some (VList (VDict <$> labels)) ∧
   ∀ p, p ∈ labels → bound_param params inputs p).

Lemma bindings_data_spec template inputs spec v : vget "data_spec" template = VDict spec → apply_param_bindings template inputs = Ok v →
∃ spec', v = VDict spec' ∧ bound_data_spec spec spec' inputs.
Proof.
intros E H. unfold apply_param_bindings in H. rewrite E in H.
assert (Hsame : Ok (VDict spec) = Ok v → ∃ spec', v = VDict spec' ∧ bound_data_spec spec spec' inputs).
{ intros [= <-]. exists spec. split; [done|]. split; [done|by left]. }
destruct (vget "param_bindings" spec) as [| | | | |bindings| |]; try by apply Hsame. clear Hsame.
destruct (negb _); [done|]. destruct (vget "params" spec) as [| | | | |params| |] eqn:Ep; try done. inv_ok.
eexists. split; [done|]. split; [intros k Hk; by apply dget_dset_ne|]. right. exists params, (dvals a0). split_and!; [done|apply dget_dset_eq|].
by eapply bindings_bound.
Qed.

(** The planner cannot change a template of the library: an op that refers to
one is the template with its own id and inputs, and at most the nodes of the
parameters of the data spec are set, to inputs of the op. *)
Theorem library_templates_are_kept op ref template resolved :
  dget "ref" op = Some (VStr ref) → dget ref library = Some template → resolve_op library op = Ok resolved →
  (∀ k, k ∉ ["id"; "inputs"; "data_spec"] → dget k resolved = dget k template) ∧
  (dget "data_spec" resolved = dget "data_spec" template ∨
   ∃ spec spec' inputs, vget "data_spec" template = VDict spec ∧ dget "data_spec" resolved = Some (VDict spec') ∧
     dget "inputs" resolved = Some (vids inputs) ∧ bound_data_spec spec spec' inputs).
Proof.
  intros Hr Ht H. unfold resolve_op in H. rewrite Hr, Ht in H. simpl in H. destruct (bool_decide _); [|done].
  split; [intros k Hk; by apply (resolve_fields_keep _ _ _ _ _ H)|].
  set (P m := dget "data_spec" m = dget "data_spec" template ∨
   ∃ spec spec' inputs, vget "data_spec" template = VDict spec ∧ dget "data_spec" m = Some (VDict spec') ∧
     dget "inputs" m = Some (vids inputs) ∧ bound_data_spec spec spec' inputs).
  refine (foldR_inv (resolve_field template) P template op resolved _ _ H); [by left|].
  intros m [key value] m' _ Hm Hf. unfold resolve_field in Hf. destruct (bool_decide _); [by injection Hf as <-|].
  destruct (negb _) eqn:E; [done|]. apply negb_false_iff, bool_decide_eq_true in E.
  destruct (String.eqb_spec key "inputs") as [->|Hi].
  - inv_ok. assert (value = vids a) as ->.
    { unfold str_list in Ha. destruct value; try done. unfold vids. f_equal. apply mapM_Some in Ha.
      clear -Ha. induction Ha as [|v s l l' Hv _ IH]; [done|]. destruct v; try done. injection Hv as ->. simpl. by f_equal. }
    destruct (vget "data_spec" template) as [| | | | | | |spec] eqn:Es.
    8: { inv_ok. apply (bindings_data_spec _ _ _ _ Es) in Ha0 as (spec' & -> & Hb). right. exists spec, spec', a.
         split_and!; [done|apply dget_dset_eq|by rewrite dget_dset_ne, dget_dset_eq|done]. }
    all: injection Hf as <-; destruct Hm as [Hm|(? & ? & ? & ? & _)]; [|done]; left; by rewrite dget_dset_ne.
  - injection Hf as <-. assert (key = "id" ∨ key = "op") as Hkey by (unfold LIBRARY_REF_OVERRIDES in E; set_solver).
    destruct Hm as [Hm|(spec & spec' & inputs & H1 & H2 & H3 & H4)]; [left|right; exists spec, spec', inputs; split_and!; [done| | |done]];
    (rewrite dget_dset_ne; [done|by destruct Hkey as [-> | ->]]).
Qed.
End resolve.

(** Resolving again changes nothing, when no template has a [ref] of its own. *)
Lemma resolve_idempotent library subgraph ops :
  (∀ ref template, dget ref library = Some template → dget "ref" template = None) →
  resolve_subgraph library subgraph = Ok ops → resolve_subgraph library ops = Ok ops.
Proof.
  intros Hl H%mapR_ok_inv. unfold resolve_subgraph.
  assert (Hall : Forall (λ op, resolve_op library op = Ok op) ops).
  { apply Forall_forall. intros op Hop. apply list_elem_of_lookup in Hop as [i Hi]. destruct (Forall2_lookup_r _ _ _ _ _ H Hi) as (o & _ & Ho).
    unfold resolve_op in Ho. unfold resolve_op. destruct (dget "ref" o) as [v|] eqn:Er; [|injection Ho as <-; by rewrite Er].
    destruct v; try done. inv_ok. destruct (bool_decide _); [|done]. rewrite (resolve_fields_keep _ _ _ _ "ref" Ho) by set_solver.
    by rewrite (Hl _ _ Ha). }
  clear H. induction Hall as [|op ops Hop _ IH]; [done|]. simpl. by rewrite Hop, IH.
Qed.

(** A template with a [ref] is resolved once more each time. *)
Example resolve_is_not_idempotent :
  let library := [("a", [("op", VStr "DataOp"); ("ref", VStr "b")]); ("b", [("op", VStr "DataOp"); ("data", VList [VStr "x"])])] in
  let subgraph := [[("id", VStr "n"); ("ref", VStr "a")]] in
  match resolve_subgraph library subgraph with Ok once => resolve_subgraph library once ≠ Ok once | Err _ => False end.
Proof. vm_compute. discriminate. Qed.

(** ** Admission *)

(** The ops a compiled op reads: those its fields name, and for an op that came
    with the compilation, those its inputs stand for *)
Inductive reads (native : dict string op_dict) (users : dict string string) : string → string → Prop :=
  | reads_op internal user : dget internal users = Some user → reads native users internal user
  | reads_implicit internal implicit inputs dep user : dget internal users = None → dget internal native = Some implicit →
      py_iter (dget_or (VList []) "_inputs" implicit) = Ok inputs → VStr dep ∈ inputs → reads native users dep user →
      reads native users internal user.

Lemma resolve_to_user_reads native users fuel internal l : resolve_to_user native users fuel internal = Ok l →
  ∀ user, user ∈ l ↔ reads native users internal user.
Proof.
  revert internal l. induction fuel as [|fuel IH]; intros internal l H user; simpl in H;
    (destruct (dget internal users) as [u|] eqn:Eu;
      [injection H as <-; rewrite list_elem_of_singleton; split; [intros ->; by apply reads_op|by inversion 1; simplify_eq]|]);
    (destruct (dget internal native) as [implicit|] eqn:En;
      [|injection H as <-; split; [by intros ?%elem_of_nil|by inversion 1; simplify_eq]]); [done|].
  apply result_bind_ok in H as (inputs & Hi & H). apply result_bind_ok in H as (lists & Hl & [= <-]). apply mapR_ok_inv in Hl.
  rewrite list_elem_of_In, in_concat. setoid_rewrite <-list_elem_of_In. split.
  - intros (l & Hin & Hu). apply list_elem_of_lookup in Hin as [j Hj]. destruct (Forall2_lookup_r _ _ _ _ _ Hl Hj) as (dep & Hdep & Hd).
    destruct dep as [| | | |dep| | |]; try (by injection Hd as <-; apply elem_of_nil in Hu).
    eapply reads_implicit; [done..|by eapply list_elem_of_lookup_2|by apply (IH dep l)].
  - inversion 1 as [|? ? inputs' dep ? ? ? Hi' Hdep Hr]; simplify_eq. rewrite Hi in Hi'. injection Hi' as <-. apply list_elem_of_lookup in Hdep as [j Hj].
    destruct (Forall2_lookup_l _ _ _ _ _ Hl Hj) as (l & Hlj & Hd). exists l. split; [by eapply list_elem_of_lookup_2|]. by apply (IH dep l).
Qed.

(** The declared inputs of an op against its compiled form: the op is compiled
    with stand-ins for the ops it declares, and when the fields of the result
    name any op, the declared inputs are exactly the ops it reads. *)
Definition inputs_match (blake2b_2 : string → nat) yaml_load available_ops (op_id op_type : string) (op : op_dict) (inputs : list string) : Prop :=
  ∃ added name spec native_op,
    probes available_ops op_id (remove_dups (filter (.≠ INPUT_NODE_ID) inputs)) = Ok added ∧
    parse_yaml_payload blake2b_2 yaml_load (depcheck_workflow (op :: added)) = Ok (name, spec) ∧
    dget (internal_id blake2b_2 name op_type op_id) (gs_graph spec) = Some native_op ∧
    ((∃ internal, internal ∈ collect_refs (VDict native_op) ∧ internal ∈ dkeys (gs_graph spec)) →
     ∀ ref, ref ≠ INPUT_NODE_ID →
       ref ∈ inputs ↔
       ∃ internal, internal ∈ collect_refs (VDict native_op) ∧ reads (gs_graph spec) (foldl (name_internal blake2b_2) [] (op :: added)) internal ref).

Lemma declared_inputs_match blake2b_2 yaml_load available_ops op_id op_type op inputs :
  validate_declared_inputs blake2b_2 yaml_load available_ops op_id op_type op inputs = Ok () →
  inputs_match blake2b_2 yaml_load available_ops op_id op_type op inputs.
Proof.
  intros H. unfold validate_declared_inputs in H. apply result_bind_ok in H as (deps & Hdeps & H). unfold native_deps in Hdeps.
  apply result_bind_ok in Hdeps as (added & Hadded & Hdeps). apply result_bind_ok in Hdeps as ([name spec] & Hparse & Hdeps).
  apply result_bind_ok in Hdeps as (native_op & Hop & Hdeps). cbn [fst snd] in *. apply ok_or_ok in Hop.
  exists added, name, spec, native_op. split; [done|]. split; [by destruct (parse_yaml_payload _ _ _) as [|[]]|]. split; [done|].
  intros (i & Hi & Hn) ref Href. destruct (existsb _ _) eqn:Ex; cbn [negb] in Hdeps.
  2: { apply not_true_iff_false in Ex. destruct Ex. apply existsb_exists. exists i. split; [by apply list_elem_of_In|by apply dmem_true]. }
  apply result_bind_ok in Hdeps as (lists & Hl & [= <-]). apply mapR_ok_inv in Hl.
  destruct (negb (forallb _ (remove_dups _))) eqn:E1; [done|]. destruct (negb (forallb _ (filter _ (concat lists)))) eqn:E2; [done|].
  apply negb_false_iff in E1, E2. rewrite forallb_forall in E1, E2.
  assert (Hread : (∃ internal, internal ∈ collect_refs (VDict native_op) ∧ reads (gs_graph spec) (foldl (name_internal blake2b_2) [] (op :: added)) internal ref) ↔
    ref ∈ concat lists).
  { rewrite (list_elem_of_In (concat lists)), in_concat. setoid_rewrite <-list_elem_of_In. split.
    - intros (internal & Hin & Hr). apply list_elem_of_lookup in Hin as [j Hj]. destruct (Forall2_lookup_l _ _ _ _ _ Hl Hj) as (l & Hlj & Hd).
      exists l. split; [by eapply list_elem_of_lookup_2|]. by apply (resolve_to_user_reads _ _ _ _ _ Hd).
    - intros (l & Hin & Hr). apply list_elem_of_lookup in Hin as [j Hj]. destruct (Forall2_lookup_r _ _ _ _ _ Hl Hj) as (internal & Hij & Hd).
      exists internal. split; [by eapply list_elem_of_lookup_2|]. by apply (resolve_to_user_reads _ _ _ _ _ Hd). }
  rewrite Hread. split; intros Hin.
  - assert (Hd : ref ∈ filter (.≠ INPUT_NODE_ID) (concat lists)); [|by apply list_elem_of_filter in Hd as [_ ?]].
    apply (bool_decide_eq_true (ref ∈ _)), E1, list_elem_of_In, elem_of_remove_dups, list_elem_of_filter. done.
  - assert (Hd : ref ∈ filter (.≠ INPUT_NODE_ID) (concat lists)) by (by apply list_elem_of_filter).
    apply list_elem_of_In, E2, bool_decide_eq_true, elem_of_remove_dups, list_elem_of_filter in Hd. tauto.
Qed.

Section admission.
Context (blake2b_2 : string → nat) (yaml_load : string → yaml_outcome) (node_registry : dict string op_dict).

(** An op by itself: its id, type and declared inputs *)
Record op_admitted (available_ops : dict string op_dict) (op : op_dict) (op_id op_type : string) : Prop := {
  oa_id : dget "id" op = Some (VStr op_id);
  oa_type : dget "op" op = Some (VStr op_type) ∧ op_type ∈ SUPPORTED_OPS;
  oa_new : op_id ≠ "" ∧ op_id ∉ FIXED_ROUND_NODE_IDS ∧ op_id ∉ dkeys node_registry;
  oa_inputs : ∃ inputs, input_refs op = Ok inputs ∧ inputs_match blake2b_2 yaml_load available_ops op_id op_type op inputs;
}.

Lemma vget_str k (d : op_dict) s : vget k d = VStr s → dget k d = Some (VStr s).
Proof. unfold vget, dget_or. destruct (dget k d); [by intros ->|done]. Qed.

Lemma str_list_input_refs op inputs : str_list (dget_or (VList []) "inputs" op) = Some inputs → input_refs op = Ok inputs.
Proof.
unfold input_refs. destruct (dget_or (VList []) "inputs" op); try done. intros H. simpl. f_equal. simpl in H. apply mapM_Some in H.
induction H as [|v s l l' Hv _ IH]; [done|]. simpl. rewrite Hv. simpl. by f_equal.
Qed.

Lemma validate_op_ok available_ops types op types' : validate_op blake2b_2 yaml_load node_registry available_ops types op = Ok types' →
∃ op_id op_type, op_admitted available_ops op op_id op_type ∧ op_id ∉ dkeys types ∧ types' = types ++ [(op_id, op_type)].
Proof.
intros H. unfold validate_op in H. inv_ok.
assert (Hid : vget "id" op = VStr a ∧ a ≠ "").
{ destruct (vget "id" op) as [| | | |i| | |]; try done. destruct (String.eqb_spec i ""); [done|]. by injection Ha as <-. }
destruct (bool_decide _) eqn:E1; [done|]. destruct (dmem a node_registry) eqn:E2; [done|]. destruct (dmem a types) eqn:E3; [done|]. inv_ok.
apply bool_decide_eq_false in E1. apply dmem_false in E2, E3.
assert (Ht : vget "op" op = VStr a0 ∧ a0 ∈ SUPPORTED_OPS).
{ destruct (vget "op" op) as [| | | |t| | |]; try done. destruct (bool_decide _) eqn:E; [|done]. apply bool_decide_eq_true in E.
  match goal with Hx : Ok t = Ok a0 |- _ => by injection Hx as <- | _ => by inv_ok end. }
exists a, a0. split; [|split; [done|by apply dset_new]]. split.
- apply vget_str, Hid.
- split; [apply vget_str, Ht|apply Ht].
- split_and!; [apply Hid|done|done].
- eexists. split; [by eapply str_list_input_refs|]. apply declared_inputs_match. by destruct a2.
Qed.

Lemma validate_ops_ok available_ops ops types types' : foldR (validate_op blake2b_2 yaml_load node_registry available_ops) types ops = Ok types' →
∃ new, types' = types ++ new ∧ NoDup (dkeys new) ∧ (∀ i, i ∈ dkeys new → i ∉ dkeys types) ∧
  Forall2 (λ op it, op_admitted available_ops op it.1 it.2) ops new.
Proof.
revert types. induction ops as [|op ops IH]; intros types H.
- injection H as <-. exists []. rewrite app_nil_r. split_and!; [done|apply NoDup_nil_2|by intros i ?%elem_of_nil|constructor].
- rewrite foldR_cons in H. destruct (validate_op _ _ _ _ _ _) as [types1|] eqn:E; [|done].
  apply validate_op_ok in E as (i & t & Hop & Hi & ->). apply IH in H as (new & -> & Hnd & Hfr & Hall).
  exists ((i, t) :: new). rewrite <-app_assoc. split; [done|].
  assert (Hk : ∀ j, j ∈ dkeys (types ++ [(i, t)]) ↔ j ∈ dkeys types ∨ j = i).
  { intros j. unfold dkeys. rewrite fmap_app, elem_of_app. simpl. by rewrite list_elem_of_singleton. }
  split_and!; [| |by constructor].
  + csimpl. apply NoDup_cons. split; [|done]. intros Hin. apply (Hfr i Hin), Hk. by right.
  + intros j [->|Hj]%elem_of_cons; [done|]. intros Hin. apply (Hfr j Hj), Hk. by left.
Qed.

(** Where a reference may point: the input of the run, an earlier op with a
result, an op before this one. *)
Definition ref_ok (results : option (list string)) (before : list string) (ref : string) : Prop :=
ref = INPUT_NODE_ID ∨ (ref ∈ dkeys node_registry ∧ ∀ available, results = Some available → ref ∈ available) ∨ ref ∈ before.

Lemma validate_ref_ok results ids seen ref : validate_ref node_registry results ids seen ref = Ok () → ref_ok results seen ref.
Proof.
unfold validate_ref. destruct (String.eqb_spec ref INPUT_NODE_ID) as [->|]; [by left|]. destruct (dmem ref node_registry) eqn:E.
- apply dmem_true in E. intros H. right. left. split; [done|]. intros available ->. destruct (bool_decide _) eqn:Eb; [|done].
  by apply bool_decide_eq_true in Eb.
- destruct (negb _); [done|]. destruct (negb (bool_decide (ref ∈ seen))) eqn:Es; [done|]. intros _. right. right.
  by apply negb_false_iff, bool_decide_eq_true in Es.
Qed.

Lemma validate_refs_ok results ids ops seen seen' : foldR (validate_refs node_registry results ids) seen ops = Ok seen' →
∃ new, seen' = seen ++ new ∧ Forall2 (λ op i, dget "id" op = Some (VStr i)) ops new ∧
  ∀ n op refs, ops !! n = Some op → input_refs op = Ok refs → ∀ ref, ref ∈ refs → ref_ok results (seen ++ take n new) ref.
Proof.
revert seen. induction ops as [|op ops IH]; intros seen H.
- injection H as <-. exists []. rewrite app_nil_r. split; [done|]. split; [constructor|]. intros n op refs Hn; by rewrite lookup_nil in Hn.
- rewrite foldR_cons in H. destruct (validate_refs _ _ _ _ _) as [seen1|] eqn:E; [|done]. unfold validate_refs in E. inv_ok.
  apply IH in H as (new & -> & Hids & Hrefs). exists (a :: new). rewrite <-app_assoc. split; [done|].
  assert (Hi : dget "id" op = Some (VStr a)).
  { unfold op_id_of in Ha. destruct (dget "id" op) as [v|]; [|done]. destruct v; try done. by injection Ha as ->. }
  split; [by constructor|]. intros [|n] o refs Ho Hr ref Hin.
  + injection Ho as <-. rewrite Ha0 in Hr. injection Hr as <-. simpl. rewrite app_nil_r.
    apply mapR_ok_inv in Ha1. apply list_elem_of_lookup in Hin as [k Hk]. destruct (Forall2_lookup_l _ _ _ _ _ Ha1 Hk) as ([] & _ & Hv).
    by apply validate_ref_ok in Hv.
  + simpl. replace (seen ++ a :: take n new) with ((seen ++ [a]) ++ take n new) by (by rewrite <-app_assoc). by apply (Hrefs n o refs).
Qed.
End admission.

(** C19: An admitted subgraph is sound.  Resolved, it has at least one op and no
more than allowed; its ids are new, distinct and not reserved, the declared
inputs of every op are the input of the run, earlier ops whose result is
available and ops before it, so there is no cycle; an op whose compiled fields
name some op of the graph declares exactly the ops it reads besides the input
of the run, directly or through the ops it is compiled to; one whose fields
name none may declare any of those.  Exported ids are ops, and an op nobody
consumes is of a kind whose result can be archived. *)
Theorem admitted_subgraph_is_sound blake2b_2 yaml_load node_registry subgraph max_nodes library export results :
  validate_emitted_subgraph blake2b_2 yaml_load node_registry subgraph max_nodes library export results = Ok () →
  ∃ ops ids, resolve_subgraph library subgraph = Ok ops ∧ ops ≠ [] ∧ (Z.of_nat (length ops) <= max_nodes)%Z ∧
    NoDup (dkeys ids) ∧
    Forall2 (λ op it, op_admitted blake2b_2 yaml_load node_registry (dupdate (foldl available_op [] ops) node_registry) op it.1 it.2) ops ids ∧
    (∀ n op refs, ops !! n = Some op → input_refs op = Ok refs →
       ∀ ref, ref ∈ refs → ref_ok node_registry results (take n (dkeys ids)) ref) ∧
    (∀ l i, export = Some l → i ∈ l → i ∈ dkeys ids) ∧
    ∃ consumed, mapR input_refs ops = Ok consumed ∧
      ∀ i t, (i, t) ∈ ids → i ∉ concat consumed → t ∈ OUTPUT_SOURCE_OPS.
Proof.
  intros H. unfold validate_emitted_subgraph in H. destruct (Z.ltb_spec max_nodes (Z.of_nat (length subgraph))); [done|].
  destruct (bool_decide _) eqn:E; [done|]. apply bool_decide_eq_false in E. inv_ok. rename a into ops, a0 into types.
  pose proof (Forall2_length _ _ _ (mapR_ok_inv _ _ _ Ha)) as Hlen.
  apply validate_ops_ok in Ha0 as (ids & -> & Hnd & _ & Hall). simpl in *.
  apply validate_refs_ok in Ha2 as (new & -> & Hnew & Hrefs). exists ops, ids.
  assert (new = dkeys ids) as ->.
  { apply (list_eq_Forall2). clear -Hnew Hall. revert new Hnew. induction Hall as [|op [i t] ops0 ids0 Hop _ IH]; intros new Hnew; inversion Hnew; subst; [constructor|].
    constructor; [|by apply IH]. simpl. destruct Hop as [Hid _ _ _]. simpl in Hid. congruence. }
  split_and!; [done|intros ->; by destruct subgraph|lia|done|done|exact Hrefs| |].
  - intros l i -> Hi. destruct (forallb _ l) eqn:El; [|done]. rewrite forallb_forall in El. by apply list_elem_of_In, El, bool_decide_eq_true in Hi.
  - exists a3. split; [done|]. intros i t Hit Hc. apply list_elem_of_lookup in Hit as [n Hn].
    destruct (Forall2_lookup_r _ _ _ _ _ Hall Hn) as (op & Hop & Hadm). apply mapR_ok_inv in Ha4.
    destruct (Forall2_lookup_l _ _ _ _ _ Ha4 Hop) as ([] & _ & Hv). unfold validate_leaf, op_id_of in Hv. rewrite (oa_id _ _ _ _ _ _ _ Hadm) in Hv. simpl in Hv.
    rewrite bool_decide_eq_false_2 in Hv by done. unfold dindex in Hv. rewrite (elem_dget i t ids Hnd) in Hv by (by eapply list_elem_of_lookup_2).
    simpl in Hv. destruct (bool_decide _) eqn:Eb; [|done]. by apply bool_decide_eq_true in Eb.
Qed.

(** ** Examples *)

Definition digest_length (s : string) : nat := String.length s.
Definition no_yaml (_ : string) : yaml_outcome := Unmarked "no text".

Definition chat_op (id content : string) (inputs : list string) : op_dict :=
  [("id", VStr id); ("op", VStr "LLMChatOp"); ("inputs", vids inputs);
   ("messages", VList [VDict [("role", VStr "user"); ("content", VStr content)]]); ("config", VDict [("model", VStr "m")])].
Definition peers_template : op_dict :=
  [("op", VStr "DataRetrievalOp");
   ("data_spec", VDict [("mode", VStr "sql"); ("params", VList [VDict [("label", VStr "sector"); ("path", VStr "items.output")]]);
      ("param_bindings", VList [VDict [("label", VStr "sector"); ("input", VInt 0)]])])].
Definition demo_library : dict string op_dict := [("peers", peers_template)].
Definition demo_subgraph : list op_dict :=
  [chat_op "sector" "Symbols" [INPUT_NODE_ID]; [("id", VStr "found"); ("ref", VStr "peers"); ("inputs", vids ["sector"])]].

Lemma library_templates_are_kept_witness : ∃ resolved,
  resolve_op demo_library [("id", VStr "found"); ("ref", VStr "peers"); ("inputs", vids ["sector"])] = Ok resolved ∧
  ∀ k, k ∉ ["id"; "inputs"; "data_spec"] → dget k resolved = dget k peers_template.
Proof.
  destruct (resolve_op demo_library [("id", VStr "found"); ("ref", VStr "peers"); ("inputs", vids ["sector"])]) as [r|] eqn:E; [|vm_compute in E; discriminate E].
  exists r. split; [reflexivity|].
  destruct (library_templates_are_kept demo_library [("id", VStr "found"); ("ref", VStr "peers"); ("inputs", vids ["sector"])] "peers" peers_template r) as [H _];
    [reflexivity|reflexivity|exact E|exact H].
Defined.

Definition demo_base : dict string val := [("type", VStr "s3"); ("prefix", VStr "s3://bucket/out")].
Definition demo_location : dict string val := [("type", VStr "s3"); ("prefix", VStr "s3://bucket/out/run-1/round-1/")].
Lemma round_locations_are_disjoint_witness : round_output_location demo_base "run-1" 1 = Ok demo_location ∧ 1 = 1.
Proof.
  split; [vm_compute; reflexivity|].
  apply (round_locations_are_disjoint demo_base "run-1" 1 1 demo_location demo_location "s3://bucket/out/run-1/round-1/" "s3://bucket/out/run-1/round-1/");
    [vm_compute; reflexivity|vm_compute; reflexivity|reflexivity|reflexivity|exists []; reflexivity].
Defined.

Lemma admitted_subgraph_is_sound_witness : ∃ ops (ids : dict string string), resolve_subgraph demo_library demo_subgraph = Ok ops ∧ NoDup (dkeys ids) ∧
  ∀ n op refs, ops !! n = Some op → input_refs op = Ok refs → ∀ ref, ref ∈ refs → ref_ok [] (Some []) (take n (dkeys ids)) ref.
Proof.
  destruct (admitted_subgraph_is_sound digest_length no_yaml [] demo_subgraph 8 demo_library (Some ["sector"]) (Some [])) as (ops & ids & H1 & _ & _ & H2 & _ & H3 & _);
    [vm_compute; reflexivity|].
  exists ops, ids. split; [exact H1|]. split; [exact H2|exact H3].
Defined.

(** Declared inputs that the config does not read are accepted when it reads no
op at all, and so are references of a format op to ids nobody declares. *)
Example unused_input_is_accepted :
  validate_declared_inputs digest_length no_yaml [] "d" "DataOp" [("id", VStr "d"); ("op", VStr "DataOp"); ("inputs", vids ["other"]); ("data", VList [VStr "x"])] ["other"] = Ok ().
Proof. vm_compute. reflexivity. Qed.

Example undeclared_reference_is_accepted :
  validate_declared_inputs digest_length no_yaml [] "f" "FormatOp"
    [("id", VStr "f"); ("op", VStr "FormatOp"); ("inputs", VList []); ("template", VStr "{t}"); ("format_kwargs", VDict [("t", VStr "nobody")])] [] = Ok ().
Proof. vm_compute. reflexivity. Qed.
