(* ===== verification/DynamicForward.v ===== *)
(** * References to earlier rounds

    An op of a round may refer to an op of an earlier round.  Such a reference is
    bound to an input of the workflow that carries the stored values; values
    that are lists on every row go through an op that decodes them
    (dynamic/driver.py: [_default_forward_path], [_forward_values...],
    [walk_archived_items], [forward_refs]; common.py: [retrieval_items_path]).

    [json_loads] and [json_dumps] are parameters.  Ops have been validated: their
    ["inputs"] is a list. *)

From Stdlib Require Import Ascii.
From S2P Require Import Prelude PyFloat PyDict PyValue PyString PythonStep YamlParser DynamicSubgraph FlowmeshOutputs.

Definition retrieval_items_path (mode : string) : result string :=
  if String.eqb mode "sql" then Ok "items.table"
  else if String.eqb mode "s3" then Ok "items.content"
  else if String.eqb mode "agent" then Ok "items.table"
  else Err (ValueError "Unsupported retrieval mode").

Definition default_forward_path (op_type : val) (op : op_dict) : result string :=
  if bool_decide (op_type = VStr "DataRetrievalOp") then
    match vget "data_spec" op with
    | VDict data_spec => match vget "mode" data_spec with VStr mode => retrieval_items_path mode | _ => Ok "items.output" end
    | _ => Ok "items.output"
    end
  else Ok "items.output".

(** [path[len("items."):].split(".")] *)
Definition path_parts (path : string) : list string := py_split "."%char (of_chars (drop 6 (chars path))).

Definition is_list (v : val) : bool := match v with VList _ => true | _ => false end.

Section values.
Context (json_loads : string → option val) (json_dumps : val → string).
Local Abbreviation walk := (walk_output_path json_loads).
Local Abbreviation coerce := (coerce_output_value json_dumps).

Definition forward_values (items : list val) (parts : list string) (ref : string) : result (list string) :=
mapR (λ item, v ← walk ref item parts; Ok (coerce v)) items.

Definition forward_values_flattened (items : list val) (parts : list string) (ref : string) : result (list string) :=
l ← mapR (λ item, v ← walk ref item parts; Ok (match v with VList vs => coerce <$> vs | _ => [coerce v] end)) items;
Ok (concat l).

Definition count_error : exn := DriverProtocolError "items cannot be matched to rows".

Definition forward_values_per_row (items : list val) (parts : list string) (ref : string) (rows : nat) : result (list string) :=
values ← mapR (λ item,
  v ← walk ref item parts;
  match v with
  | VList [v] => Ok (coerce v)
  | VList _ => protocol_error "item holds several values, but a run with rows binds one value per row"
  | _ => Ok (coerce v)
  end) items;
if Nat.eqb (length values) rows then Ok values else Err count_error.

(** A one-element list is its element *)
Definition unwrap_single (v : val) : val := match v with VList [v] => v | _ => v end.

Definition walk_values_per_row (items : list val) (parts : list string) (ref : string) (rows : nat) : result (list val) :=
values ← mapR (λ item, v ← walk ref item parts; Ok (unwrap_single v)) items;
if Nat.eqb (length values) rows then Ok values else Err count_error.

(** [walk_archived_items] *)
Definition walk_archived (configs : dict string op_dict) (entry : string * list string) : result (string * list string) :=
let config := dget_or [] entry.1 configs in
path ← default_forward_path (dget_or (VStr "") "op" config) config;
items ← mapR (λ value, ok_or (DriverProtocolError "archived output is not a JSON item") (json_loads value)) entry.2;
values ← forward_values items (path_parts path) entry.1;
Ok (entry.1, values).
Definition walk_archived_items (archived : dict string (list string)) (configs : dict string op_dict) : result (dict string (list string)) :=
mapR (walk_archived configs) archived.

(** ** Forwarding *)

Context (results : dict string (list val)) (configs : dict string op_dict) (rows : nat).

(** What forwarding has added so far *)
Record forwarded := Forwarded {
fw_inputs : dict string (list string);
fw_materializers : list op_dict;
fw_materialized : list string;
}.

Definition explicit_id (ref path : string) : string := ref +:+ " | " +:+ path.
Definition rows_id (input_id : string) : string := input_id +:+ " | rows".

Definition decode_rows_code : string :=
"def decode_rows(columns):
    return [json.loads(v) for v in columns[0]]
".

Definition materializer (input_id : string) : op_dict :=
[("id", VStr (rows_id input_id)); ("op", VStr "LambdaOp"); ("inputs", VList [VStr input_id]); ("fn_name", VStr "decode_rows");
("code", VStr decode_rows_code); ("mode", VStr "aligned")].

Definition bind_input (input_id : string) (values : list string) (st : forwarded) : forwarded :=
Forwarded (dset input_id values (fw_inputs st)) (fw_materializers st) (fw_materialized st).

Definition add_materializer (ref path : string) (walked : list val) (st : forwarded) : string * forwarded :=
let input_id := explicit_id ref path in
(rows_id input_id,
if bool_decide (input_id ∈ fw_materialized st) then st
else Forwarded (dset input_id (coerce <$> walked) (fw_inputs st)) (fw_materializers st ++ [materializer input_id]) (fw_materialized st ++ [input_id])).

(** The stored items of an op, and its config *)
Definition stored (ref : string) : result (list val) := dindex (KeyError ref) ref results.
Definition config_of (ref : string) : result op_dict := dindex (KeyError ref) ref configs.

(** An implicit reference: what it becomes, if it changes *)
Definition bind_implicit (image_source : bool) (ref : string) (st : forwarded) : result (option string * forwarded) :=
match dget ref results with
| None => Ok (None, st)
| Some items =>
    config ← config_of ref;
    path ← default_forward_path (dget_or (VStr "") "op" config) config;
    if Nat.ltb 1 rows then
      walked ← walk_values_per_row items (path_parts path) ref rows;
      if existsb is_list walked then
        if negb (forallb is_list walked) then protocol_error "some rows hold a list and some a scalar"
        else if image_source then protocol_error "image_source holds a list per row"
        else let '(id, st) := add_materializer ref path walked st in Ok (Some id, st)
      else Ok (None, bind_input ref (coerce <$> walked) st)
    else
      values ← forward_values items (path_parts path) ref;
      Ok (None, bind_input ref values st)
end.

(** A reference to a path of an op: the node and the path to read instead *)
Definition bind_explicit (ref path : string) (st : forwarded) : result ((string * string) * forwarded) :=
let input_id := explicit_id ref path in
if bool_decide (input_id ∈ fw_materialized st) then Ok ((rows_id input_id, "items.output"), st)
else if dmem input_id (fw_inputs st) then Ok ((input_id, ""), st)
else
items ← stored ref;
if Nat.ltb 1 rows then
  walked ← walk_values_per_row items (path_parts path) ref rows;
  if existsb is_list walked then
    if negb (forallb is_list walked) then protocol_error "some rows hold a list and some a scalar"
    else let '(id, st) := add_materializer ref path walked st in Ok ((id, "items.output"), st)
  else Ok ((input_id, ""), bind_input input_id (coerce <$> walked) st)
else
  values ← forward_values_flattened items (path_parts path) ref;
  Ok ((input_id, ""), bind_input input_id values st).

(** *** The fields of an op *)

(** A reference among others: [None] leaves it as it is *)
Definition forward_ref (st : forwarded) (v : val) : result (forwarded * val) :=
match v with
| VStr ref =>
    bound ← bind_implicit false ref st;
    Ok (bound.2, match bound.1 with Some id => VStr id | None => v end)
| _ => Ok (st, v)
end.

Definition forward_kwarg (st : forwarded) (kv : string * val) : result (forwarded * (string * val)) :=
r ← forward_ref st kv.2; Ok (r.1, (kv.1, r.2)).

(** [format_kwargs] of a dict *)
Definition forward_kwargs (st : forwarded) (d : dict string val) : result (forwarded * dict string val) :=
match vget "format_kwargs" d with
| VDict kwargs => r ← mapAccumR forward_kwarg st kwargs; Ok (r.1, dset "format_kwargs" (VDict r.2) d)
| _ => Ok (st, d)
end.

Definition forward_inputs (st : forwarded) (op : op_dict) : result (forwarded * op_dict) :=
match dget "inputs" op with
| None => Ok (st, op)
| Some (VList refs) => r ← mapAccumR forward_ref st refs; Ok (r.1, dset "inputs" (VList r.2) op)
| Some _ => Err (TypeError "inputs must be a list")
end.

Definition forward_prompt (st : forwarded) (op : op_dict) : result (forwarded * op_dict) :=
match vget "prompt" op with
| VDict prompt => r ← forward_kwargs st prompt; Ok (r.1, dset "prompt" (VDict r.2) op)
| _ => Ok (st, op)
end.

Definition forward_image_source (st : forwarded) (op : op_dict) : result (forwarded * op_dict) :=
match vget "image_source" op with
| VStr ref => bound ← bind_implicit true ref st; Ok (bound.2, op)
| _ => Ok (st, op)
end.

(** A row, column or parameter that names a node and a path *)
Definition forward_entry (st : forwarded) (row : val) : result (forwarded * val) :=
match row with
| VDict d =>
    match vget "node" d, vget "path" d with
    | VStr node, VStr path =>
        if dmem node results then
          r ← bind_explicit node path st;
          Ok (r.2, VDict (dset "path" (VStr r.1.2) (dset "node" (VStr r.1.1) d)))
        else Ok (st, row)
    | _, _ => Ok (st, row)
    end
| _ => Ok (st, row)
end.

(** The entries of a list field *)
Definition forward_entries (key : string) (st : forwarded) (op : op_dict) : result (forwarded * op_dict) :=
match vget key op with
| VList l => r ← mapAccumR forward_entry st l; Ok (r.1, dset key (VList r.2) op)
| _ => Ok (st, op)
end.

Definition forward_params (st : forwarded) (op : op_dict) : result (forwarded * op_dict) :=
match vget "data_spec" op with
| VDict data_spec => r ← forward_entries "params" st data_spec; Ok (r.1, dset "data_spec" (VDict r.2) op)
| _ => Ok (st, op)
end.

Definition forward_op (st : forwarded) (op : op_dict) : result (forwarded * op_dict) :=
'(st, op) ← forward_inputs st op;
'(st, op) ← forward_prompt st op;
'(st, op) ← forward_kwargs st op;
'(st, op) ← forward_image_source st op;
'(st, op) ← forward_entries "aggregate_table" st op;
'(st, op) ← forward_entries "rowwise_columns" st op;
forward_params st op.

(** [forward_refs]: the ops, those that decode rows last, and the inputs *)
Definition forward_refs (subgraph : list op_dict) : result (list op_dict * dict string (list string)) :=
'(st, ops) ← mapAccumR forward_op (Forwarded [] [] []) subgraph;
Ok (ops ++ fw_materializers st, fw_inputs st).
End values.
