(* ===== verification/DynamicForwardProps.v ===== *)
(** * Properties of forwarded references

    In a run with several rows every input of a round carries one value for
    each row: the value the stored item of the row holds at the path of the
    reference.  The references of an op to earlier ops become references to
    these inputs, or to ops that decode them. *)

From Stdlib Require Import Ascii.
From S2P Require Import Prelude PyFloat PyDict PyValue PyString PythonStep YamlParser DynamicSubgraph DynamicForward FlowmeshOutputs.

(** A relation that every step of a pass respects holds between its ends. *)
Lemma mapAccumR_steps {S A B} (R : S → S → Prop) (f : S → A → result (S * B)) s l s' l' :
  (∀ s, R s s) → (∀ s1 s2 s3, R s1 s2 → R s2 s3 → R s1 s3) → (∀ s x s' y, f s x = Ok (s', y) → R s s') →
  mapAccumR f s l = Ok (s', l') → R s s'.
Proof.
  intros Hrefl Htrans Hf. revert s l'. induction l as [|x l IH]; intros s l' H; simpl in H; [by injection H as <- _|].
  apply result_bind_ok in H as ([s1 y] & Hx & H). apply result_bind_ok in H as ([s2 ys] & Hl & H). injection H as <- _.
  eapply Htrans; [by eapply Hf|by eapply IH].
Qed.

(** What holds of an element and the state it leaves still holds at the end. *)
Lemma mapAccumR_results {S A B} (R : S → S → Prop) (Q : S → A → B → Prop) (f : S → A → result (S * B)) s l s' l' :
  (∀ s, R s s) → (∀ s1 s2 s3, R s1 s2 → R s2 s3 → R s1 s3) → (∀ s1 s2 x y, R s1 s2 → Q s1 x y → Q s2 x y) →
  (∀ s x s' y, f s x = Ok (s', y) → R s s' ∧ Q s' x y) →
  mapAccumR f s l = Ok (s', l') → Forall2 (Q s') l l'.
Proof.
  intros Hrefl Htrans Hmono Hf. revert s l'. induction l as [|x l IH]; intros s l' H; simpl in H; [injection H as _ <-; constructor|].
  apply result_bind_ok in H as ([s1 y] & Hx & H). apply result_bind_ok in H as ([s2 ys] & Hl & H). injection H as <- <-.
  constructor; [|by eapply IH]. eapply Hmono; [|by eapply Hf]. eapply (mapAccumR_steps R f); [done|done| |exact Hl]. intros s0 x0 s0' y0 H0. by apply Hf in H0 as [? _].
Qed.

Section forward.
Context (json_loads : string → option val) (json_dumps : val → string).
Context (results : dict string (list val)) (configs : dict string op_dict) (rows : nat).

(** The value of an item for its row *)
Definition row_value (parts : list string) (ref : string) (item : val) (v : string) : Prop :=
∃ w, walk_output_path json_loads ref item parts = Ok w ∧ v = coerce_output_value json_dumps (unwrap_single w).

(** The path an input stands for: of the op itself, or one that was asked for *)
Definition stands_for (input_id ref path : string) : Prop :=
(input_id = ref ∧ ∃ config, dget ref configs = Some config ∧ default_forward_path (dget_or (VStr "") "op" config) config = Ok path) ∨
input_id = explicit_id ref path.

(** An input carries the stored items of an op, row by row. *)
Definition carries (entry : string * list string) : Prop :=
∃ ref path items, dget ref results = Some items ∧ stands_for entry.1 ref path ∧
  length entry.2 = rows ∧ Forall2 (row_value (path_parts path) ref) items entry.2.

Record fw_ok (st : forwarded) : Prop := {
fo_inputs : ∀ entry, entry ∈ fw_inputs st → carries entry;
fo_materializers : fw_materializers st = materializer <$> fw_materialized st;
fo_materialized : ∀ id, id ∈ fw_materialized st → id ∈ dkeys (fw_inputs st);
}.

Record fw_step (st st' : forwarded) : Prop := {
fs_ok : fw_ok st → fw_ok st';
fs_inputs : ∀ id, id ∈ dkeys (fw_inputs st) → id ∈ dkeys (fw_inputs st');
fs_materialized : ∀ id, id ∈ fw_materialized st → id ∈ fw_materialized st';
}.

Lemma fw_step_refl st : fw_step st st.
Proof. by split. Qed.

Lemma fw_step_trans st1 st2 st3 : fw_step st1 st2 → fw_step st2 st3 → fw_step st1 st3.
Proof. intros [A1 B1 C1] [A2 B2 C2]. split; auto. Qed.
#[local] Hint Resolve fw_step_refl : core.
#[local] Hint Resolve fw_step_trans : core.

Lemma walk_rows_ok items parts ref walked : walk_values_per_row json_loads items parts ref rows = Ok walked →
length walked = rows ∧ Forall2 (row_value parts ref) items (coerce_output_value json_dumps <$> walked).
Proof.
intros H. unfold walk_values_per_row in H. inv_ok. destruct (Nat.eqb_spec (length a) rows) as [E|]; [|done]. injection H as <-. split; [done|].
apply mapR_ok_inv in Ha. apply Forall2_fmap_r. eapply Forall2_impl; [exact Ha|]. intros item v Hv. simpl in Hv. inv_ok. by exists a0.
Qed.

Lemma bind_input_step st input_id values : carries (input_id, values) → fw_step st (bind_input input_id values st).
Proof.
intros Hc. split; [|intros id Hid; simpl; apply elem_of_dkeys_dset; by right|done].
intros [H1 H2 H3]. split; [|done|intros id Hid; simpl; apply elem_of_dkeys_dset; right; by apply H3].
intros [k vs] [[-> ->]|Hin]%elem_of_dset; [done|by apply H1].
Qed.

Lemma materializer_step st ref path walked id st' : carries (explicit_id ref path, coerce_output_value json_dumps <$> walked) →
add_materializer json_dumps ref path walked st = (id, st') → fw_step st st' ∧ ∃ input_id, id = rows_id input_id ∧ input_id ∈ fw_materialized st'.
Proof.
intros Hc H. unfold add_materializer in H. destruct (bool_decide _) eqn:E; injection H as <- <-.
- apply bool_decide_eq_true in E. split; [done|]. by exists (explicit_id ref path).
- split; [|exists (explicit_id ref path); split; [done|]; simpl; apply elem_of_app; right; left].
  destruct (bind_input_step st (explicit_id ref path) _ Hc) as [B1 B2 B3]. split; [|exact B2|intros i Hi; simpl; apply elem_of_app; by left].
  intros Hok. destruct (B1 Hok) as [O1 O2 O3]. split; [exact O1|simpl; rewrite fmap_app; simpl in O2; by rewrite O2|].
  intros i [Hi|Hi%list_elem_of_singleton]%elem_of_app; [by apply O3|]. subst. simpl. apply elem_of_dkeys_dset. by left.
Qed.

Hypothesis several : 1 < rows.

Local Abbreviation bind_implicit := (bind_implicit json_loads json_dumps results configs rows).
Local Abbreviation bind_explicit := (bind_explicit json_loads json_dumps results rows).

(** *** What becomes of a reference

    A name of an op among the references of an op stays, when the op is not an
    earlier one or its values became the input of that name; or it becomes the
    op that decodes the rows of its input. *)
Definition ref_rewritten (st : forwarded) (ref ref' : string) : Prop :=
(ref' = ref ∧ (ref ∉ dkeys results ∨ ref ∈ dkeys (fw_inputs st))) ∨
∃ path, stands_for ref ref path ∧ ref' = rows_id (explicit_id ref path) ∧ explicit_id ref path ∈ fw_materialized st.

(** A name with a path becomes the input for that path, or the op that decodes it. *)
Definition path_rewritten (st : forwarded) (ref path ref' path' : string) : Prop :=
(ref' = explicit_id ref path ∧ path' = "" ∧ explicit_id ref path ∈ dkeys (fw_inputs st)) ∨
(ref' = rows_id (explicit_id ref path) ∧ path' = "items.output" ∧ explicit_id ref path ∈ fw_materialized st).

Definition val_rewritten (st : forwarded) (v v' : val) : Prop :=
match v with VStr ref => ∃ ref', v' = VStr ref' ∧ ref_rewritten st ref ref' | _ => v' = v end.
Definition kwarg_rewritten (st : forwarded) (kv kv' : string * val) : Prop := kv'.1 = kv.1 ∧ val_rewritten st kv.2 kv'.2.
(** A row, a column or a parameter; one that does not name an earlier op with a path stays. *)
Definition entry_rewritten (st : forwarded) (v v' : val) : Prop :=
match v with
| VDict d =>
    match vget "node" d, vget "path" d with
    | VStr ref, VStr path =>
        if decide (ref ∈ dkeys results) then
          ∃ ref' path', path_rewritten st ref path ref' path' ∧ v' = VDict (dset "path" (VStr path') (dset "node" (VStr ref') d))
        else v' = v
    | _, _ => v' = v
    end
| _ => v' = v
end.

(** A field of an op: a list or a dict whose members are rewritten one by one *)
Definition list_rewritten (P : val → val → Prop) (key : string) (d d' : dict string val) : Prop :=
match vget key d with VList l => ∃ l', dget key d' = Some (VList l') ∧ Forall2 P l l' | _ => dget key d' = dget key d end.
Definition kwargs_rewritten (st : forwarded) (d d' : dict string val) : Prop :=
match vget "format_kwargs" d with
| VDict kw => ∃ kw', dget "format_kwargs" d' = Some (VDict kw') ∧ Forall2 (kwarg_rewritten st) kw kw'
| _ => dget "format_kwargs" d' = dget "format_kwargs" d
end.
Definition inside_rewritten (P : dict string val → dict string val → Prop) (key : string) (d d' : dict string val) : Prop :=
match vget key d with VDict inner => ∃ inner', dget key d' = Some (VDict inner') ∧ P inner inner' | _ => dget key d' = dget key d end.

(** The fields that may name ops and are rewritten *)
Definition reference_fields : list string := ["inputs"; "prompt"; "format_kwargs"; "aggregate_table"; "rowwise_columns"; "data_spec"].

(** What forwarding makes of an op *)
Record op_rewritten (st : forwarded) (op op' : op_dict) : Prop := {
ow_keeps : ∀ k, k ∉ reference_fields → dget k op' = dget k op;
ow_inputs : list_rewritten (val_rewritten st) "inputs" op op';
ow_prompt : inside_rewritten (λ p p', (∀ k, k ≠ "format_kwargs" → dget k p' = dget k p) ∧ kwargs_rewritten st p p') "prompt" op op';
ow_kwargs : kwargs_rewritten st op op';
ow_image : ∀ ref, vget "image_source" op = VStr ref → ref ∉ dkeys results ∨ ref ∈ dkeys (fw_inputs st);
ow_table : list_rewritten (entry_rewritten st) "aggregate_table" op op';
ow_columns : list_rewritten (entry_rewritten st) "rowwise_columns" op op';
ow_params : inside_rewritten (λ d d', (∀ k, k ≠ "params" → dget k d' = dget k d) ∧ list_rewritten (entry_rewritten st) "params" d d') "data_spec" op op';
}.

Section mono.
Context (st st' : forwarded) (step : fw_step st st').

Lemma ref_mono ref ref' : ref_rewritten st ref ref' → ref_rewritten st' ref ref'.
Proof using step. destruct step as [_ H1 H2]. intros [[? [?|?]]|(p & ? & ? & ?)]; [left; auto..|right; exists p; auto]. Qed.
Lemma path_mono ref path ref' path' : path_rewritten st ref path ref' path' → path_rewritten st' ref path ref' path'.
Proof using step. destruct step as [_ H1 H2]. intros [(? & ? & ?)|(? & ? & ?)]; [left|right]; auto. Qed.
Lemma val_mono v v' : val_rewritten st v v' → val_rewritten st' v v'.
Proof using step. destruct v; try done. intros (ref' & ? & ?). exists ref'. split; [done|by apply ref_mono]. Qed.
Lemma kwarg_mono kv kv' : kwarg_rewritten st kv kv' → kwarg_rewritten st' kv kv'.
Proof using step. intros [? ?]. split; [done|by apply val_mono]. Qed.
Lemma entry_mono v v' : entry_rewritten st v v' → entry_rewritten st' v v'.
Proof using step.
unfold entry_rewritten. destruct v; try done. destruct (vget "node" d), (vget "path" d); try done. case_decide; [|done].
intros (r & p & ? & ?). exists r, p. split; [by apply path_mono|done].
Qed.
Lemma list_mono (P P' : val → val → Prop) key d d' : (∀ v v', P v v' → P' v v') → list_rewritten P key d d' → list_rewritten P' key d d'.
Proof using Type.
intros H. unfold list_rewritten. destruct (vget key d); try done. intros (l' & ? & ?). exists l'. split; [done|by eapply Forall2_impl].
Qed.
Lemma kwargs_mono d d' : kwargs_rewritten st d d' → kwargs_rewritten st' d d'.
Proof using step.
unfold kwargs_rewritten. destruct (vget _ d); try done. intros (l' & ? & ?). exists l'. split; [done|eapply Forall2_impl; [done|by apply kwarg_mono]].
Qed.
Lemma inside_mono (P P' : dict string val → dict string val → Prop) key d d' :
(∀ i i', P i i' → P' i i') → inside_rewritten P key d d' → inside_rewritten P' key d d'.
Proof using Type. intros H. unfold inside_rewritten. destruct (vget key d); try done. intros (i & ? & ?). exists i. auto. Qed.

Lemma op_mono op op' : op_rewritten st op op' → op_rewritten st' op op'.
Proof using step.
intros [H1 H2 H3 H4 H5 H6 H7 H8]. split; [done|..].
- eapply list_mono; [|exact H2]. apply val_mono.
- eapply inside_mono; [|exact H3]. intros i i' [? ?]. split; [done|by apply kwargs_mono].
- by apply kwargs_mono.
- intros ref Hr. destruct step as [_ Hi _]. destruct (H5 ref Hr); auto.
- eapply list_mono; [|exact H6]. apply entry_mono.
- eapply list_mono; [|exact H7]. apply entry_mono.
- eapply inside_mono; [|exact H8]. intros i i' [? ?]. split; [done|]. eapply list_mono; [apply entry_mono|done].
Qed.
End mono.

Lemma bind_implicit_ok img ref st bound st' : bind_implicit img ref st = Ok (bound, st') →
fw_step st st' ∧ ref_rewritten st' ref (default ref bound) ∧ (img = true → bound = None).
Proof.
intros H. unfold DynamicForward.bind_implicit in H. destruct (dget ref results) as [items|] eqn:Er.
2: { injection H as <- <-. split_and!; [done| |done]. left. split; [done|]. left. by apply dget_None. }
unfold config_of, dindex in H. inv_ok. rewrite (proj2 (Nat.ltb_lt 1 rows) several) in H. inv_ok. rename a into config, a0 into path, a1 into walked.
apply walk_rows_ok in Ha1 as [Hlen Hval].
assert (Hcarry : ∀ id, stands_for id ref path → carries (id, coerce_output_value json_dumps <$> walked)).
{ intros id Hid. exists ref, path, items. split_and!; [done|done|simpl; by rewrite length_fmap|done]. }
assert (Hself : stands_for ref ref path) by (left; split; [done|by exists config]).
destruct (existsb _ _).
- destruct (negb _); [done|]. destruct img; [done|]. destruct (add_materializer _ _ _ _ _) as [id st1] eqn:Em. injection H as <- <-.
  pose proof Em as Em'. apply materializer_step in Em as [Hs _]; [|apply Hcarry; by right]. split_and!; [done| |done]. right. exists path.
  unfold add_materializer in Em'. injection Em' as <- <-. split_and!; [done|done|]. case_bool_decide; [done|]. simpl. apply elem_of_app. right. left.
- injection H as <- <-. split_and!; [by apply bind_input_step, Hcarry| |done]. left. split; [done|].
  right. simpl. apply elem_of_dkeys_dset. by left.
Qed.

Lemma bind_explicit_ok ref path st bound st' : bind_explicit ref path st = Ok (bound, st') →
fw_step st st' ∧ path_rewritten st' ref path bound.1 bound.2.
Proof.
intros H. unfold DynamicForward.bind_explicit in H. destruct (bool_decide _) eqn:E1.
{ apply bool_decide_eq_true in E1. injection H as <- <-. split; [done|]. by right. }
destruct (dmem _ _) eqn:E2.
{ apply dmem_true in E2. injection H as <- <-. split; [done|]. by left. }
unfold stored, dindex in H. inv_ok. rewrite (proj2 (Nat.ltb_lt 1 rows) several) in H. inv_ok. rename a into items, a0 into walked.
apply walk_rows_ok in Ha0 as [Hlen Hval].
assert (Hcarry : carries (explicit_id ref path, coerce_output_value json_dumps <$> walked)).
{ exists ref, path, items. split_and!; [done|by right|simpl; by rewrite length_fmap|done]. }
destruct (existsb _ _).
- destruct (negb _); [done|]. destruct (add_materializer _ _ _ _ _) as [id st1] eqn:Em. injection H as <- <-.
  pose proof Em as Em'. apply materializer_step in Em as [Hs _]; [|done]. split; [done|]. right.
  unfold add_materializer in Em'. injection Em' as <- <-. split_and!; [done|done|]. case_bool_decide; [done|]. simpl. apply elem_of_app. right. left.
- injection H as <- <-. split; [by apply bind_input_step|]. left. split_and!; [done|done|]. simpl. apply elem_of_dkeys_dset. by left.
Qed.

(** *** Fields *)

Lemma forward_ref_ok st v st' v' : forward_ref json_loads json_dumps results configs rows st v = Ok (st', v') →
fw_step st st' ∧ val_rewritten st' v v'.
Proof.
intros H. unfold forward_ref in H. destruct v as [| | | |r| | |]; try (injection H as <- <-; by split).
inv_ok. destruct a as [bound st1]. apply bind_implicit_ok in Ha as (Hs & Hr & _). cbn [fst snd]. split; [done|]. exists (default r bound). by destruct bound.
Qed.

Lemma forward_kwargs_ok st d st' d' : forward_kwargs json_loads json_dumps results configs rows st d = Ok (st', d') →
fw_step st st' ∧ (∀ k, k ≠ "format_kwargs" → dget k d' = dget k d) ∧ kwargs_rewritten st' d d'.
Proof.
intros H. unfold forward_kwargs in H. unfold kwargs_rewritten. destruct (vget _ d); inv_ok; try (by split).
destruct a as [st1 l']. cbn [fst snd].
assert (Hstep : ∀ s x s' y, forward_kwarg json_loads json_dumps results configs rows s x = Ok (s', y) → fw_step s s' ∧ kwarg_rewritten s' x y).
{ intros s [k v] s' y Hy. unfold forward_kwarg in Hy. inv_ok. destruct a as [z w]. apply forward_ref_ok in Ha0 as [? ?]. by split. }
split_and!; [|intros k Hk; by apply dget_dset_ne|].
- eapply (mapAccumR_steps fw_step); [done|eauto| |exact Ha]. intros s x s' y Hy. by apply Hstep in Hy as [? _].
- exists l'. split; [apply dget_dset_eq|]. eapply (mapAccumR_results fw_step kwarg_rewritten); [done|eauto| |exact Hstep|exact Ha].
  intros s1 s2 x y Hs. by apply kwarg_mono.
Qed.

Lemma forward_entries_ok key st d st' d' : forward_entries json_loads json_dumps results rows key st d = Ok (st', d') →
fw_step st st' ∧ (∀ k, k ≠ key → dget k d' = dget k d) ∧ list_rewritten (entry_rewritten st') key d d'.
Proof.
intros H. unfold forward_entries in H. unfold list_rewritten. destruct (vget key d); inv_ok; try (by split).
destruct a as [st1 l']. cbn [fst snd].
assert (Hstep : ∀ s x s' y, forward_entry json_loads json_dumps results rows s x = Ok (s', y) → fw_step s s' ∧ entry_rewritten s' x y).
{ intros s v s' y Hy. unfold forward_entry in Hy. unfold entry_rewritten.
  destruct v as [| | | | | | |e]; try (by injection Hy as <- <-). destruct (vget "node" e) as [| | | |ref| | |], (vget "path" e) as [| | | |path| | |]; try (by injection Hy as <- <-).
  destruct (dmem ref results) eqn:Em; [apply dmem_true in Em; rewrite decide_True by done|apply dmem_false in Em; rewrite decide_False by done; by injection Hy as <- <-].
  inv_ok. destruct a as [b st2]. apply bind_explicit_ok in Ha0 as [? ?]. split; [done|]. by exists b.1, b.2. }
split_and!; [|intros k Hk; by apply dget_dset_ne|].
- eapply (mapAccumR_steps fw_step); [done|eauto| |exact Ha]. intros s x s' y Hy. by apply Hstep in Hy as [? _].
- exists l'. split; [apply dget_dset_eq|]. eapply (mapAccumR_results fw_step entry_rewritten); [done|eauto| |exact Hstep|exact Ha].
  intros s1 s2 x y Hs. by apply entry_mono.
Qed.

Lemma forward_inputs_ok st op st' op' : forward_inputs json_loads json_dumps results configs rows st op = Ok (st', op') →
fw_step st st' ∧ (∀ k, k ≠ "inputs" → dget k op' = dget k op) ∧ list_rewritten (val_rewritten st') "inputs" op op'.
Proof.
intros H. unfold forward_inputs in H. unfold list_rewritten, vget, dget_or. destruct (dget "inputs" op) as [v|] eqn:E; [|injection H as <- <-; by split_and!].
destruct v as [| | | | |l| |]; try done. inv_ok. destruct a as [st1 l']. cbn [fst snd].
split_and!; [|intros k Hk; by apply dget_dset_ne|].
- eapply (mapAccumR_steps fw_step); [done|eauto| |exact Ha]. intros s x s' y Hy. by apply forward_ref_ok in Hy as [? _].
- exists l'. split; [apply dget_dset_eq|]. eapply (mapAccumR_results fw_step val_rewritten); [done|eauto| |intros s x s' y Hy; by apply forward_ref_ok in Hy|exact Ha].
  intros s1 s2 x y Hs. by apply val_mono.
Qed.

Lemma forward_prompt_ok st op st' op' : forward_prompt json_loads json_dumps results configs rows st op = Ok (st', op') →
fw_step st st' ∧ (∀ k, k ≠ "prompt" → dget k op' = dget k op) ∧
inside_rewritten (λ p p', (∀ k, k ≠ "format_kwargs" → dget k p' = dget k p) ∧ kwargs_rewritten st' p p') "prompt" op op'.
Proof.
intros H. unfold forward_prompt in H. unfold inside_rewritten. destruct (vget "prompt" op); inv_ok; try (by split_and!).
destruct a as [z d']. cbn [fst snd]. apply forward_kwargs_ok in Ha as (? & ? & ?). split_and!; [done|intros k Hk; by apply dget_dset_ne|].
exists d'. split; [apply dget_dset_eq|by split].
Qed.

Lemma forward_params_ok st op st' op' : forward_params json_loads json_dumps results rows st op = Ok (st', op') →
fw_step st st' ∧ (∀ k, k ≠ "data_spec" → dget k op' = dget k op) ∧
inside_rewritten (λ d d', (∀ k, k ≠ "params" → dget k d' = dget k d) ∧ list_rewritten (entry_rewritten st') "params" d d') "data_spec" op op'.
Proof.
intros H. unfold forward_params in H. unfold inside_rewritten. destruct (vget "data_spec" op); inv_ok; try (by split_and!).
destruct a as [z d']. cbn [fst snd]. apply forward_entries_ok in Ha as (? & ? & ?). split_and!; [done|intros k Hk; by apply dget_dset_ne|].
exists d'. split; [apply dget_dset_eq|by split].
Qed.

Lemma vget_ext k (d d' : dict string val) : dget k d' = dget k d → vget k d' = vget k d.
Proof. intros H. unfold vget, dget_or. by rewrite H. Qed.

(** A field is rewritten by one step and left alone by the others. *)
Lemma list_rewritten_ext P key d d0 d1 d' : dget key d0 = dget key d → dget key d' = dget key d1 → list_rewritten P key d0 d1 → list_rewritten P key d d'.
Proof. intros H0 H1. unfold list_rewritten. by rewrite (vget_ext key _ _ H0), H1, H0. Qed.
Lemma kwargs_rewritten_ext st d d0 d1 d' : dget "format_kwargs" d0 = dget "format_kwargs" d → dget "format_kwargs" d' = dget "format_kwargs" d1 →
kwargs_rewritten st d0 d1 → kwargs_rewritten st d d'.
Proof. intros H0 H1. unfold kwargs_rewritten. by rewrite (vget_ext _ _ _ H0), H1, H0. Qed.
Lemma inside_rewritten_ext P key d d0 d1 d' : dget key d0 = dget key d → dget key d' = dget key d1 → inside_rewritten P key d0 d1 → inside_rewritten P key d d'.
Proof. intros H0 H1. unfold inside_rewritten. by rewrite (vget_ext key _ _ H0), H1, H0. Qed.

Lemma forward_op_ok st op st' op' : forward_op json_loads json_dumps results configs rows st op = Ok (st', op') →
fw_step st st' ∧ op_rewritten st' op op'.
Proof.
intros H. unfold forward_op in H.
apply result_bind_ok in H as ([st1 op1] & H1 & H). apply result_bind_ok in H as ([st2 op2] & H2 & H).
apply result_bind_ok in H as ([st3 op3] & H3 & H). apply result_bind_ok in H as ([st4 op4] & H4 & H).
apply result_bind_ok in H as ([st5 op5] & H5 & H). apply result_bind_ok in H as ([st6 op6] & H6 & H7).
apply forward_inputs_ok in H1 as (S1 & K1 & I1). apply forward_prompt_ok in H2 as (S2 & K2 & I2). apply forward_kwargs_ok in H3 as (S3 & K3 & I3).
apply forward_entries_ok in H5 as (S5 & K5 & I5). apply forward_entries_ok in H6 as (S6 & K6 & I6). apply forward_params_ok in H7 as (S7 & K7 & I7).
assert (P4 : fw_step st3 st4 ∧ op4 = op3 ∧ ∀ ref, vget "image_source" op3 = VStr ref → ref ∉ dkeys results ∨ ref ∈ dkeys (fw_inputs st4)).
{ clear -H4 several. unfold forward_image_source in H4. destruct (vget "image_source" op3); inv_ok; try (by split_and!). destruct a as [b z].
  apply bind_implicit_ok in Ha as (? & Hr & Hb). split_and!; [done|done|]. intros ref [= <-]. rewrite (Hb eq_refl) in Hr. simpl in Hr.
  destruct Hr as [[_ ?]|(path & _ & E & _)]; [done|]. exfalso. apply (f_equal (length ∘ chars)) in E. unfold rows_id, explicit_id in E. simpl in E.
  rewrite ?chars_app, ?length_app in E. simpl in E. lia. }
destruct P4 as (S4 & -> & I4).
assert (S67 : fw_step st6 st') by eauto. assert (S57 : fw_step st5 st') by eauto. assert (S47 : fw_step st4 st') by eauto.
assert (S37 : fw_step st3 st') by eauto. assert (S27 : fw_step st2 st') by eauto. assert (S17 : fw_step st1 st') by eauto.
split; [by eapply fw_step_trans|]. split.
- intros k Hk. unfold reference_fields in Hk. rewrite K7, K6, K5, K3, K2, K1 by set_solver. done.
- eapply (list_rewritten_ext _ _ op op op1); [done|by rewrite K7, K6, K5, K3, K2|]. eapply list_mono; [by apply val_mono|done].
- eapply (inside_rewritten_ext _ _ op op1 op2); [by rewrite K1|by rewrite K7, K6, K5, K3|]. eapply inside_mono; [|exact I2].
  cbv beta. intros i i' Hi. destruct Hi as [? ?]. split; [done|]. eapply kwargs_mono; [exact S27|done].
- eapply (kwargs_rewritten_ext _ op op2 op3); [by rewrite K2, K1|by rewrite K7, K6, K5|]. eapply kwargs_mono; [exact S37|done].
- intros ref Hr. destruct (I4 ref) as [?|Hi]; [rewrite <-Hr; apply vget_ext; by rewrite K3, K2, K1|by left|right; destruct S47 as [_ Hsub _]; by apply Hsub].
- eapply (list_rewritten_ext _ _ op op3 op5); [by rewrite K3, K2, K1|by rewrite K7, K6|]. eapply list_mono; [exact (entry_mono _ _ S57)|exact I5].
- eapply (list_rewritten_ext _ _ op op5 op6); [by rewrite K5, K3, K2, K1|by rewrite K7|]. eapply list_mono; [exact (entry_mono _ _ S67)|exact I6].
- eapply (inside_rewritten_ext _ _ op op6 op'); [by rewrite K6, K5, K3, K2, K1|done|exact I7].
Qed.

Lemma forward_refs_ok subgraph ops inputs : forward_refs json_loads json_dumps results configs rows subgraph = Ok (ops, inputs) →
∃ st forwarded_ops, fw_ok st ∧ inputs = fw_inputs st ∧ ops = forwarded_ops ++ (materializer <$> fw_materialized st) ∧
  Forall2 (op_rewritten st) subgraph forwarded_ops.
Proof.
intros H. unfold forward_refs in H. inv_ok. destruct a as [st fops]. inv_ok. exists st, fops.
assert (Hok : fw_ok st).
{ eapply (mapAccumR_steps fw_step) in Ha; [|done|eauto|intros s x s' y Hy; by apply forward_op_ok in Hy as [? _]].
  apply (fs_ok _ _ Ha). split; [by intros e ?%elem_of_nil|done|by intros i ?%elem_of_nil]. }
split_and!; [done|done|by rewrite (fo_materializers _ Hok)|].
eapply (mapAccumR_results fw_step op_rewritten); [done|eauto| |intros s x s' y Hy; by apply forward_op_ok in Hy|exact Ha].
intros s1 s2 x y Hs. by apply op_mono.
Qed.
End forward.

(** C20: In a run with several rows, forwarding gives every input exactly one
value per row, and the value of a row is what its stored item holds at the path
the reference stands for.  Every reference of an op to an op of an earlier
round, be it an input, an argument of its format or of its prompt, an image
source, or a table row, column or parameter with a path, is one of those
inputs afterwards, or the added op that decodes it; the rest of the op stays
as it is, and the added ops decode one input each. *)
Theorem forwarded_inputs_follow_the_rows json_loads json_dumps results configs rows subgraph ops inputs :
  1 < rows → forward_refs json_loads json_dumps results configs rows subgraph = Ok (ops, inputs) →
  (∀ input_id values, (input_id, values) ∈ inputs → carries json_loads json_dumps results configs rows (input_id, values)) ∧
  ∃ forwarded_ops decoded, ops = forwarded_ops ++ (materializer <$> decoded) ∧
    (∀ input_id, input_id ∈ decoded → input_id ∈ dkeys inputs) ∧
    Forall2 (op_rewritten results configs (Forwarded inputs (materializer <$> decoded) decoded)) subgraph forwarded_ops.
Proof.
  intros Hrows H. apply forward_refs_ok in H as (st & fops & [O1 O2 O3] & -> & -> & Hall); [|done]. split; [intros i vs; apply O1|].
  exists fops, (fw_materialized st). split_and!; [done|done|]. rewrite <-O2. by destruct st.
Qed.

(** ** A run with two rows *)

(** The op [sector] answered one text per row, the op [peers] one list per row. *)
Definition demo_results : dict string (list val) :=
  [("sector", [VDict [("output", VStr "tech")]; VDict [("output", VStr "energy")]]);
   ("peers", [VDict [("table", VList [VStr "a"; VStr "b"])]; VDict [("table", VList [VStr "c"; VStr "d"])]])].
Definition demo_configs : dict string op_dict :=
  [("sector", [("id", VStr "sector"); ("op", VStr "LLMChatOp")]);
   ("peers", [("id", VStr "peers"); ("op", VStr "DataRetrievalOp"); ("data_spec", VDict [("mode", VStr "sql")])])].
Definition demo_round : list op_dict :=
  [[("id", VStr "next"); ("op", VStr "LambdaOp"); ("inputs", vids ["sector"; "peers"])];
   [("id", VStr "text"); ("op", VStr "FormatOp"); ("inputs", vids ["sector"]); ("format_kwargs", VDict [("t", VStr "sector"); ("p", VStr "peers")])]].
Definition no_json (_ : string) : option val := None.
Definition dump_length (v : val) : string := match v with VList l => str_of_nat (length l) | _ => "" end.

Example forwarded_demo : forward_refs no_json dump_length demo_results demo_configs 2 demo_round =
  Ok ([[("id", VStr "next"); ("op", VStr "LambdaOp"); ("inputs", vids ["sector"; "peers | items.table | rows"])];
       [("id", VStr "text"); ("op", VStr "FormatOp"); ("inputs", vids ["sector"]);
        ("format_kwargs", VDict [("t", VStr "sector"); ("p", VStr "peers | items.table | rows")])];
       materializer "peers | items.table"],
      [("sector", ["tech"; "energy"]); ("peers | items.table", ["2"; "2"])]).
Proof. vm_compute. reflexivity. Qed.

Lemma forwarded_inputs_follow_the_rows_witness : 1 < 2 ∧ ∃ ops inputs,
  forward_refs no_json dump_length demo_results demo_configs 2 demo_round = Ok (ops, inputs) ∧
  ∀ input_id values, (input_id, values) ∈ inputs → carries no_json dump_length demo_results demo_configs 2 (input_id, values).
Proof.
  split; [lia|].
  destruct (forward_refs no_json dump_length demo_results demo_configs 2 demo_round) as [[ops inputs]|] eqn:E; [|vm_compute in E; discriminate E].
  exists ops, inputs. split; [reflexivity|].
  destruct (forwarded_inputs_follow_the_rows no_json dump_length demo_results demo_configs 2 demo_round ops inputs) as [H _]; [lia|exact E|exact H].
Defined.
