(* ===== verification/DynamicPlan.v ===== *)
(** * Plans and rounds of dynamic workflows

    What a planner answers becomes a plan ([validate_plan_text]), and the ops of
    a round become a graph: the parsed ops, outputs that archive the results of
    leaves and exported ops, and the ops that ask the next plan
    (dynamic/driver.py: [_strip_plan_wrappers], [system_message],
    [planner_messages], [result_outputs], [validate_plan],
    [validate_plan_text], [plan_to_dict], [build_round]; dynamic/blocks.py).

    JSON and [str] of values are parameters, and so is the source of the observation
    function, which is read from a file. *)

From Stdlib Require Import Ascii.
From S2P Require Import Prelude PyFloat PyDict PyValue PyString PythonStep YamlParser DynamicSubgraph DynamicForward.

(** ** Texts *)

Definition newline : string := String (ascii_of_nat 10) EmptyString.
Fixpoint join (sep : string) (l : list string) : string :=
  match l with
  | [] => ""
  | [s] => s
  | s :: l => s +:+ sep +:+ join sep l
  end.

(** A text with its quotation marks, written as backquotes *)
Definition quoted (s : string) : string :=
  of_chars ((λ c, if Ascii.eqb c "`"%char then ascii_of_nat 34 else c) <$> chars s).

(** [_THINK_BLOCK_RE.sub("", value)] *)
Fixpoint after_first (marker l : list ascii) : option (list ascii) :=
  match starts_with marker l with
  | Some rest => Some rest
  | None => match l with _ :: l => after_first marker l | [] => None end
  end.
Definition drop_think (l : list ascii) : list ascii :=
  match starts_with (chars "<think>") (drop_spaces l) with
  | Some rest => match after_first (chars "</think>") rest with Some rest => drop_spaces rest | None => l end
  | None => l
  end.

Definition fence : list ascii := ["`"; "`"; "`"]%char.
(** the closing fence and nothing else *)
Definition closes (l : list ascii) : bool :=
  match starts_with fence (drop_spaces l) with Some rest => bool_decide (drop_spaces rest = []) | None => false end.
(** the shortest group before a closing fence *)
Fixpoint fenced_group (l : list ascii) : option (list ascii) :=
  if closes l then Some []
  else match l with c :: l => g ← fenced_group l; Some (c :: g) | [] => None end.
(** [_FENCE_RE.match]: its group; the word json is optional *)
Definition match_fence (l : list ascii) : option (list ascii) :=
  rest ← starts_with fence (drop_spaces l);
  match starts_with (chars "json") rest with
  | Some after => match fenced_group (drop_spaces after) with Some g => Some g | None => fenced_group (drop_spaces rest) end
  | None => fenced_group (drop_spaces rest)
  end.

(** [_strip_plan_wrappers] *)
Definition strip_plan_wrappers (value : string) : string :=
  let stripped := drop_think (chars value) in
  match match_fence stripped with Some g => of_chars g | None => strip (of_chars stripped) end.

(** ** Plans *)

Inductive plan :=
  | StopPlan
  | SubgraphPlan (ops : list op_dict) (export : list string).

Definition STOP : string := "STOP".
Definition SUBGRAPH : string := "subgraph".

(** [_RawPlan.model_validate] of a decoded plan *)
Module RawPlan.
Record t := mk {
next : string;
ops : option (list op_dict);
export : list string;
}.
End RawPlan.

Definition op_list (v : val) : option (list op_dict) := match v with VList l => mapM as_dict l | _ => None end.
Definition raw_plan (d : dict string val) : option RawPlan.t :=
  if forallb (λ k, bool_decide (k ∈ ["next"; "ops"; "export"])) (dkeys d) then
    next ← as_str (vget "next" d);
    ops ← match vget "ops" d with VNone => Some None | v => Some <$> op_list v end;
    export ← str_list (dget_or (VList []) "export" d);
    Some (RawPlan.mk next ops export)
  else None.

Section plans.
Context (json_loads : string → option val) (to_str : val → string).

Definition validate_plan_text (value : string) : result plan :=
decoded ← ok_or (DriverProtocolError "plan is not valid JSON") (json_loads (strip_plan_wrappers value));
match decoded with
| VDict d =>
    raw ← ok_or (DriverProtocolError "malformed plan") (raw_plan d);
    if String.eqb (RawPlan.next raw) STOP then
      match RawPlan.ops raw with
      | Some (_ :: _) => protocol_error "STOP plan must not include ops"
      | _ => Ok StopPlan
      end
    else if String.eqb (RawPlan.next raw) SUBGRAPH then
      match RawPlan.ops raw with
      | Some ops => Ok (SubgraphPlan ops (RawPlan.export raw))
      | None => protocol_error "subgraph plan requires an 'ops' list"
      end
    else protocol_error "plan 'next' must be STOP or subgraph"
| _ => protocol_error "plan must decode to an object"
end.

Definition plan_output (graph_outputs : val) : result (list val) :=
match graph_outputs with
| VDict d => Ok (option_list (dget "plan" d))
| _ => protocol_error "malformed graph outputs"
end.

Definition validate_plan (raw_outputs : dict string val) : result plan :=
plan_outputs ← mapR plan_output (dvals raw_outputs);
match concat plan_outputs with
| [] => protocol_error "job result has no 'plan' output"
| [VList [VStr value]] => validate_plan_text value
| [VList [_]] => protocol_error "plan value must be a serialized string"
| [VList _] => protocol_error "expected exactly one plan value"
| [_] => protocol_error "'plan' output must be a list"
| _ => protocol_error "expected exactly one 'plan' output across the result"
end.

Definition plan_to_dict (p : plan) : dict string val :=
match p with
| StopPlan => [("next", VStr STOP)]
| SubgraphPlan ops export => [("next", VStr SUBGRAPH); ("ops", VList (VDict <$> ops)); ("export", VList (VStr <$> export))]
end.

Definition result_outputs (v : val) : result (dict string val) :=
match v with
| VDict d =>
    match vget "result" d with
    | VDict nested => match vget "outputs" nested with VDict outputs => Ok outputs | _ => protocol_error "'result' field must contain a dict 'outputs' field" end
    | _ => protocol_error "job result envelope must contain a dict 'result' field"
    end
| _ => protocol_error "job result envelope must be a dict"
end.

(** ** Messages to the planner *)

(** An f-string's rendering *)
Definition render_value (v : val) : string := match v with VStr s => s | _ => to_str v end.
Definition one_line (s : string) : string := of_chars ((λ c, if Ascii.eqb c (ascii_of_nat 10) then " "%char else c) <$> chars s).
Definition first_code_points (n : nat) (s : string) : string := join "" (take n (code_points s)).

Definition describe_field (kv : string * val) : list string :=
if String.eqb kv.1 "op" then [] else ["    " +:+ kv.1 +:+ ": " +:+ first_code_points 200 (one_line (render_value kv.2))].
Definition describe_template (entry : string * op_dict) : result (list string) :=
let '(ref, template) := entry in
bindings ← vget_attr "param_bindings" (dget_or (VDict []) "data_spec" template);
Ok (["- " +:+ ref +:+ ": " +:+ render_value (dget_or (VStr "?") "op" template)] ++ flat_map describe_field template ++
   [quoted ("    To use it, emit {`id`: <unique id>, `ref`: `" +:+ ref +:+ "`, `inputs`: [<node ids>]} — key `ref`, never `op`; the template fills in the rest.")] ++
   match bindings with
   | VList (_ :: _) => ["    Its inputs wire its declared param slots in order; the template config is otherwise immutable."]
   | _ => []
   end).

Fixpoint describe_observations (index : nat) (observations : list string) : list string :=
match observations with
| [] => []
| o :: l => ["--- observation " +:+ str_of_nat index +:+ " ---"; o] ++ describe_observations (S index) l
end.

Definition sorted_ops : list string := sorted_by str_ltb id SUPPORTED_OPS.

Definition system_message (goal : string) (observations topology : list string) (threshold : option f64) (library : dict string op_dict) : result string :=
described ← mapR describe_template library;
Ok (join newline (
  ["You are the planner for a dynamic analysis workflow. Each round you emit a small acyclic subgraph of ops that advances the goal, or STOP when the accumulated evidence is sufficient.";
   ""; "GOAL: " +:+ goal] ++
  match observations with [] => [] | _ => [""; "PRIOR OBSERVATIONS:"] ++ describe_observations 0 observations end ++
  [""; "AVAILABLE NODES (existing, immutable, reference by id):"; join ", " (INPUT_NODE_ID :: topology);
   INPUT_NODE_ID +:+ " is the run's input node, carrying the symbol under analysis; wire it to any op that needs the symbol.";
   quoted "Every `id` you emit must be NEW and must not be any id already listed in AVAILABLE NODES. To use an existing node, name it in `inputs` only — never declare it again as an op. For example, if top_sector_1 already exists, the correct plan is a single op {`id`: `peers_in_sector_1`, `ref`: `peers_in_sector`, `inputs`: [`top_sector_1`]} — not one that also declares top_sector_1 again.";
   "";
   quoted "Emit a structured plan: either {`next`: `STOP`} or {`next`: `subgraph`, `ops`: [...]} where each op is {`id`: <unique id>, `op`: <op type>, `inputs`: [<node ids>], ...fields}. Each op's inputs must reference an existing node id or another op id in the same subgraph, and the subgraph must be acyclic. Available op types: " +:+ join ", " sorted_ops +:+ "."] ++
  match library with [] => [] | _ => [""; "REFERENCE LIBRARY (pre-configured op templates):"] ++ concat described end ++
  match threshold with
  | Some t => [""; "Stop when the observed evidence meets this sufficiency threshold: " +:+ to_str (VFloat t) +:+ "."]
  | None => []
  end)).

Definition planner_messages (goal : string) (observations topology : list string) (threshold : option f64) (library : dict string op_dict)
  (has_subgraph : bool) (round_observation : option string) : result (string * string) :=
system ← system_message goal observations topology threshold library;
let user := if has_subgraph then "Here is the observation from the last round. Based on it, emit the next subgraph, or STOP."
            else "Emit the first subgraph that starts to advance the goal." in
Ok (system, match round_observation with Some o => user +:+ newline +:+ newline +:+ o | None => user end).
End plans.

(** ** The graph of a round *)

(** [Op.serialize]: the fields of the class, then those of every op *)
Definition serialize (payload : op_dict) (op id : string) (inputs : list string) : op_dict :=
  dset "_inputs" (vids inputs) (dset "_max_iter" VNone (dset "_op" (VStr op) (dset "_id" (VStr id) payload))).

Definition output_op (id name input path : string) : op_dict :=
  serialize [("name", VStr name); ("path", VStr path)] "OutputOp" id [input].

Definition escape_braces (text : string) : string :=
  of_chars (flat_map (λ c, if (Ascii.eqb c "{" || Ascii.eqb c "}")%char%bool then [c; c] else [c]) (chars text)).

(** The settings of the proposer; [None] is [VNone] *)
Module Proposer.
Record t := mk {
model : string;
max_tokens : Z;
temperature : f64;
chat_template_kwargs : val;
max_model_len : val;
gpu_memory_utilization : val;
dtype : val;
extra_engine_kwargs : val;
}.
End Proposer.

(** [GenerationConfig(...).to_dict()] *)
Definition generation_config (p : Proposer.t) : result val :=
  if String.eqb (Proposer.model p) "" then Err (ValueError "GenerationConfig.model is required in both local and API mode.")
  else
    let given := [("model", VStr (Proposer.model p)); ("max_tokens", VInt (Proposer.max_tokens p)); ("temperature", VFloat (Proposer.temperature p));
      ("chat_template_kwargs", Proposer.chat_template_kwargs p); ("max_model_len", Proposer.max_model_len p);
      ("gpu_memory_utilization", Proposer.gpu_memory_utilization p); ("dtype", Proposer.dtype p); ("extra_engine_kwargs", Proposer.extra_engine_kwargs p)] in
    Ok (VDict ((λ k, (k, vget k given)) <$> GENERATION_CONFIG_FIELDS)).

Definition leaf_output (leaf_id : string) : string * op_dict :=
  let id := "output_" +:+ leaf_id in (id, output_op id ("leaf_" +:+ leaf_id) leaf_id "items").
Definition export_output (export_id : string) : string * op_dict :=
  let id := "output_export_" +:+ export_id in (id, output_op id ("export_" +:+ export_id) export_id "items").

Definition render_id (leaf_id : string) : string := "render_" +:+ leaf_id.
Definition render_leaf (leaf_id : string) : string * op_dict :=
  (render_id leaf_id,
   serialize [("template", VStr "{ref0}"); ("format_args", VList []); ("format_kwargs", VDict [("ref0", VStr leaf_id)])] "FormatOp" (render_id leaf_id) [leaf_id]).

Definition observation_op (lambda_code : string) (leaf_ids : list string) : op_dict :=
  serialize [("fn_name", VStr "observe"); ("_code", VStr lambda_code); ("_inputs", vids (render_id <$> leaf_ids)); ("mode", VStr "row")]
    "LambdaOp" OBSERVATION_NODE_ID (render_id <$> leaf_ids).

Definition observation_format (proposer_user : string) : op_dict :=
  serialize [("template", VStr (proposer_user +:+ newline +:+ newline +:+ "{ref0}")); ("format_args", VList []);
     ("format_kwargs", VDict [("ref0", VStr OBSERVATION_NODE_ID)])] "FormatOp" FORMAT_NODE_ID [OBSERVATION_NODE_ID].

(** The ops that show the leaves to the proposer *)
Definition observation_ops (lambda_code proposer_user : string) (leaf_ids : list string) : list (string * op_dict) :=
  match leaf_ids with
  | [] => []
  | _ => (render_leaf <$> leaf_ids) ++ [(OBSERVATION_NODE_ID, observation_op lambda_code leaf_ids); (FORMAT_NODE_ID, observation_format proposer_user)]
  end.

Definition proposer_message (proposer_system proposer_user : string) (leaf_ids : list string) : op_dict :=
  let '(content, inputs) := match leaf_ids with [] => (escape_braces proposer_user, []) | _ => (FORMAT_NODE_ID, [FORMAT_NODE_ID]) end in
  serialize [("messages", VList [VDict [("role", VStr "system"); ("content", VStr (escape_braces proposer_system))];
      VDict [("role", VStr "user"); ("content", VStr content)]])] "MessageOp" MESSAGE_NODE_ID inputs.

Definition proposer_op (config : val) : op_dict :=
  serialize [("messages", VStr MESSAGE_NODE_ID); ("config", config); ("return_history", VBool false); ("cacheable", VBool false)]
    "LLMChatOp" PROPOSER_NODE_ID [MESSAGE_NODE_ID].

(** [fused_round_graph] *)
Definition fused_round_graph (subgraph : dict string op_dict) (leaf_ids export_ids : list string) (proposer_system proposer_user lambda_code : string)
  (settings : Proposer.t) (include_proposer : bool) : result (dict string op_dict) :=
  if negb (forallb (λ i, dmem i subgraph) leaf_ids) then Err (ValueError "leaf id not present in the subgraph")
  else if negb (forallb (λ i, dmem i subgraph) export_ids) then Err (ValueError "export id not present in the subgraph")
  else
    let ordered := dupdate subgraph (dict_of ((leaf_output <$> leaf_ids) ++ (export_output <$> export_ids))) in
    if negb include_proposer then Ok ordered
    else
      config ← generation_config settings;
      Ok (dupdate ordered (observation_ops lambda_code proposer_user leaf_ids ++
        [(MESSAGE_NODE_ID, proposer_message proposer_system proposer_user leaf_ids); (PROPOSER_NODE_ID, proposer_op config);
         (OUTPUT_NODE_ID, output_op OUTPUT_NODE_ID "plan" PROPOSER_NODE_ID "items.output")])).

(** ** A round *)

Module RoundBuild.
Record t := mk {
graph : dict string op_dict;
leaf_output_names : list string;
leaf_user_ids : list string;
export_output_names : list string;
export_user_ids : list string;
forwarded_inputs : dict string (list string);
}.
End RoundBuild.

Section round.
Context (blake2b_2 : string → nat) (yaml_load : string → yaml_outcome).
Context (json_loads : string → option val) (json_dumps : val → string) (to_str : val → string).
Context (observation_lambda : string).

Definition round_workflow (round_index : nat) (inputs : dict string (list string)) (ops : list op_dict) : val :=
VDict [("name", VStr ("round_" +:+ str_of_nat round_index));
   ("inputs", VDict ((λ kv, (kv.1, vids kv.2)) <$> dupdate [(INPUT_NODE_ID, [])] inputs)); ("ops", VList (VDict <$> ops)); ("outputs", VList [])].

(** The graph id and the id of an op *)
Definition id_pair (graph_name : string) (op : op_dict) : result (string * string) :=
op_type ← match dget "op" op with Some (VStr t) => Ok t | _ => Err (KeyError "op") end;
user ← op_id_of op;
Ok (internal_id blake2b_2 graph_name op_type user, user).
Definition sorted_pairs (graph_name : string) (keep : string → bool) (subgraph : list op_dict) : result (list (string * string)) :=
pairs ← mapR (λ op, user ← op_id_of op; if keep user then p ← id_pair graph_name op; Ok [p] else Ok []) subgraph;
Ok (sorted_by (lex_lt String.eqb str_ltb str_ltb) id (concat pairs)).

Definition build_round (subgraph : list op_dict) (node_registry : dict string op_dict) (round_index : nat) (goal : string)
  (observations topology : list string) (settings : Proposer.t) (threshold : option f64) (library : dict string op_dict)
  (results : dict string (list val)) (export : list string) (include_proposer : bool) (rows : nat) : result RoundBuild.t :=
subgraph ← resolve_subgraph library subgraph;
forwarded ← forward_refs json_loads json_dumps results node_registry rows subgraph;
let '(ops, inputs) := forwarded in
parsed ← parse_yaml_payload blake2b_2 yaml_load (round_workflow round_index inputs ops);
let '(graph_name, spec) := parsed in
leaves ← current_leaves subgraph;
leaf_pairs ← sorted_pairs graph_name (λ user, bool_decide (user ∈ leaves)) subgraph;
export_pairs ← sorted_pairs graph_name (λ user, bool_decide (user ∈ export) && negb (bool_decide (user ∈ leaves)))%bool subgraph;
let leaf_ids := leaf_pairs.*1 in
let export_ids := export_pairs.*1 in
messages ← planner_messages to_str goal observations topology threshold library (negb (bool_decide (subgraph = []))) None;
graph ← fused_round_graph (gs_graph spec) leaf_ids export_ids messages.1 messages.2 observation_lambda settings include_proposer;
Ok (RoundBuild.mk graph ((λ i, "leaf_" +:+ i) <$> leaf_ids) leaf_pairs.*2 ((λ i, "export_" +:+ i) <$> export_ids) export_pairs.*2 inputs).
End round.
