(* ===== verification/DynamicPlanProps.v ===== *)
(** * Properties of plans and rounds

    A plan is read back from whatever wrappers a model puts around it.  The
    graph of a round loads, and it archives the results of its leaves and
    exported ops and, when the round has a proposer, the next plan. *)

From Stdlib Require Import Ascii.
From S2P Require Import Prelude PyFloat PyDict PyValue PyString PythonStep YamlParser YamlParserProps YamlGraphProps DynamicSubgraph DynamicSubgraphProps DynamicForward DynamicForwardProps DynamicPlan.

(** ** Wrapped plans *)

Definition spaces (l : list ascii) : Prop := ∀ c, c ∈ l → is_space c = true.

Lemma drop_spaces_app l rest : spaces l → drop_spaces (l ++ rest) = drop_spaces rest.
Proof.
  induction l as [|c l IH]; intros Hl; [done|]. simpl. rewrite (Hl c) by left. apply IH. intros d Hd. apply Hl. by right.
Qed.

Lemma drop_spaces_nil l : drop_spaces l = [] → spaces l.
Proof.
  induction l as [|c l IH]; intros H; [by intros c ?%elem_of_nil|]. simpl in H. destruct (is_space c) eqn:E; [|done].
  intros d [->|Hd]%elem_of_cons; [done|]. by apply IH.
Qed.

Lemma starts_with_inv pre l rest : starts_with pre l = Some rest → l = pre ++ rest.
Proof. unfold starts_with. case_decide as E; [|done]. intros [= <-]. by rewrite <-E at 1; rewrite take_drop. Qed.

Lemma starts_with_app pre rest : starts_with pre (pre ++ rest) = Some rest.
Proof. unfold starts_with. rewrite take_app_length, drop_app_length. by rewrite decide_True. Qed.

Lemma drop_spaces_split l : ∃ pre, l = pre ++ drop_spaces l ∧ spaces pre.
Proof.
  induction l as [|c l (pre & E & Hp)]; [exists []; split; [done|by intros c ?%elem_of_nil]|]. simpl. destruct (is_space c) eqn:Ec.
  - exists (c :: pre). split; [simpl; by f_equal|]. intros d [->|Hd]%elem_of_cons; [done|by apply Hp].
  - exists []. split; [done|by intros d ?%elem_of_nil].
Qed.

(** A closing fence is made of backquotes and space. *)
Lemma closes_chars l c : closes l = true → c ∈ l → c = "`"%char ∨ is_space c = true.
Proof.
  unfold closes. destruct (starts_with _ _) as [rest|] eqn:E; [|done]. intros H%bool_decide_eq_true Hc. apply starts_with_inv in E.
  destruct (drop_spaces_split l) as (pre & Hpre & Hsp). rewrite E in Hpre. rewrite Hpre in Hc.
  apply elem_of_app in Hc as [Hc|[Hc|Hc]%elem_of_app]; [right; by apply Hsp|left; unfold fence in Hc; set_solver|right; by apply (drop_spaces_nil rest)].
Qed.

Lemma fenced_group_spec t rest c : last t = Some c → c ≠ "`"%char → is_space c = false → closes rest = true → fenced_group (t ++ rest) = Some t.
Proof.
  intros Hlast Hc Hs Hrest.
  assert (Hclose : ∀ l, c ∈ l → closes (l ++ rest) = false).
  { intros l Hin. apply not_true_iff_false. intros Hcl. destruct (closes_chars _ c Hcl) as [?|?]; [apply elem_of_app; by left|done|congruence]. }
  assert (Hr : fenced_group rest = Some []) by (destruct rest; simpl; [done|by rewrite Hrest]).
  revert Hlast. induction t as [|x t IH]; intros Hlast; [done|]. simpl.
  change (x :: t ++ rest) with ((x :: t) ++ rest). rewrite Hclose by (by apply last_Some_elem_of).
  destruct t as [|y t]; simpl in *; [by rewrite Hr|]. by rewrite IH.
Qed.

(** The marker of the end of a thought begins with a character that does not come
again in it, so it is first found where it is put. *)
Lemma after_first_app thought rest : contains_chars (chars "</think>") thought = false →
  after_first (chars "</think>") (thought ++ chars "</think>" ++ rest) = Some rest.
Proof.
  induction thought as [|c t IH]; intros Hc.
  - simpl app. by rewrite <-(starts_with_app (chars "</think>") rest).
  - remember (c :: t) as l eqn:El. assert (Hn : starts_with (chars "</think>") (l ++ chars "</think>" ++ rest) = None).
    { unfold starts_with. apply decide_False. intros E. change (length (chars "</think>")) with 8 in E.
      destruct (le_lt_dec 8 (length l)) as [Hle|Hlt].
      - rewrite take_app_le in E by done. subst l. simpl in Hc. apply orb_false_iff in Hc as [Hc _]. by apply bool_decide_eq_false in Hc.
      - apply (f_equal (.!! length l)) in E. rewrite lookup_take_lt, lookup_app_r, Nat.sub_diag in E by done. simpl in E.
        subst l. simpl in *. do 8 (destruct t as [|? t]; [discriminate E|simpl in *]). lia. }
    assert (Hct : contains_chars (chars "</think>") t = false) by (subst l; simpl in Hc; by apply orb_false_iff in Hc as [_ Hc]).
    subst l. specialize (IH Hct). simpl app in Hn |- *. cbn [after_first]. by rewrite Hn.
Qed.

(** A text as a model may put it: after a thought, inside a fence *)
Definition wrapped_text (s1 thought s2 s3 text s4 s5 : list ascii) : string :=
  of_chars (s1 ++ chars "<think>" ++ thought ++ chars "</think>" ++ s2 ++ fence ++ chars "json" ++ s3 ++ text ++ s4 ++ fence ++ s5).

Lemma closes_fence s4 s5 : spaces s4 → spaces s5 → closes (s4 ++ fence ++ s5) = true.
Proof.
  intros H4 H5. unfold closes. rewrite drop_spaces_app by done. change (drop_spaces (fence ++ s5)) with (fence ++ s5). rewrite starts_with_app.
  apply bool_decide_eq_true. rewrite <-(app_nil_r s5). by rewrite drop_spaces_app.
Qed.

Lemma strip_wrapped_text s1 thought s2 s3 text s4 s5 c d : spaces s1 → spaces s2 → spaces s3 → spaces s4 → spaces s5 →
  contains_chars (chars "</think>") thought = false →
  head text = Some c → is_space c = false → last text = Some d → d ≠ "`"%char → is_space d = false →
  strip_plan_wrappers (wrapped_text s1 thought s2 s3 text s4 s5) = of_chars text.
Proof.
  intros H1 H2 H3 H4 H5 Ht Hc Hcs Hd Hdq Hds. unfold strip_plan_wrappers, wrapped_text. rewrite chars_of_chars.
  assert (E1 : drop_think (s1 ++ chars "<think>" ++ thought ++ chars "</think>" ++ s2 ++ fence ++ chars "json" ++ s3 ++ text ++ s4 ++ fence ++ s5) =
    fence ++ chars "json" ++ s3 ++ text ++ s4 ++ fence ++ s5).
  { unfold drop_think. rewrite drop_spaces_app by done. change (drop_spaces (chars "<think>" ++ ?x)) with (chars "<think>" ++ x).
    rewrite starts_with_app, after_first_app, drop_spaces_app by done. done. }
  rewrite E1. assert (E2 : match_fence (fence ++ chars "json" ++ s3 ++ text ++ s4 ++ fence ++ s5) = Some text).
  { unfold match_fence. change (drop_spaces (fence ++ ?x)) with (fence ++ x). rewrite starts_with_app. simpl option_bind.
    change (Some ?x ≫= ?f) with (f x). cbv beta. rewrite starts_with_app, drop_spaces_app by done.
    assert (Hdrop : ∀ x, drop_spaces (text ++ x) = text ++ x) by (intros x; destruct text as [|e text]; [done|]; injection Hc as ->; simpl; by rewrite Hcs).
    rewrite Hdrop. rewrite (fenced_group_spec text (s4 ++ fence ++ s5) d); [done..|by apply closes_fence]. }
  by rewrite E2.
Qed.

(** ** Reading a plan *)

Lemma op_list_vdict ops : op_list (VList (VDict <$> ops)) = Some ops.
Proof. unfold op_list. apply mapM_Some, Forall2_fmap_l. by apply Forall_Forall2_diag, Forall_forall. Qed.

Lemma raw_plan_to_dict p : raw_plan (plan_to_dict p) = Some (match p with
  | StopPlan => RawPlan.mk STOP None []
  | SubgraphPlan ops export => RawPlan.mk SUBGRAPH (Some ops) export
  end).
Proof.
  destruct p as [|ops export]; [done|]. unfold raw_plan, plan_to_dict. simpl forallb. cbn [andb].
  change (vget "next" _) with (VStr SUBGRAPH). change (vget "ops" _) with (VList (VDict <$> ops)). change (dget_or _ "export" _) with (vids export).
  rewrite str_list_vids, op_list_vdict. done.
Qed.

(** C22: A plan that is rendered, written as JSON and put in the wrappers of a model
(a thought and a fence, with any white space) is read back as the same plan.
JSON is a parameter: an object is written between braces and is read back. *)
Theorem wrapped_plan_is_read json_loads json_dumps p s1 thought s2 s3 s4 s5 :
  json_loads (json_dumps (plan_to_dict p)) = Some (VDict (plan_to_dict p)) →
  (∃ body, chars (json_dumps (plan_to_dict p)) = ["{"%char] ++ body ++ ["}"%char]) →
  spaces s1 → spaces s2 → spaces s3 → spaces s4 → spaces s5 → contains_chars (chars "</think>") thought = false →
  validate_plan_text json_loads (wrapped_text s1 thought s2 s3 (chars (json_dumps (plan_to_dict p))) s4 s5) = Ok p.
Proof.
  intros Hj [body E] H1 H2 H3 H4 H5 Ht. unfold validate_plan_text.
  rewrite (strip_wrapped_text _ _ _ _ _ _ _ "{" "}"); try done; [|by rewrite E|by rewrite E, app_assoc, last_snoc].
  rewrite of_chars_chars, Hj. simpl. rewrite raw_plan_to_dict. by destruct p.
Qed.

(** A stand-in for JSON that knows one plan *)
Definition demo_plan : plan := SubgraphPlan [[("id", VStr "n"); ("ref", VStr "peers")]] ["n"].
Definition plan_text : string := "{plan}".
Definition demo_loads (s : string) : option val := if String.eqb s plan_text then Some (VDict (plan_to_dict demo_plan)) else None.

Lemma wrapped_plan_is_read_witness :
  validate_plan_text demo_loads (wrapped_text [" "%char] (chars "one < two") [" "%char] [" "%char] (chars plan_text) [" "%char] []) = Ok demo_plan.
Proof.
  apply (wrapped_plan_is_read demo_loads (λ _, plan_text) demo_plan);
    [reflexivity|exists (chars "plan"); reflexivity|..|reflexivity];
    intros c Hc; repeat (apply elem_of_cons in Hc as [->|Hc]; [reflexivity|]); by apply elem_of_nil in Hc.
Defined.

(** ** Loading the graph of a round *)

Lemma load_dset g k op : look_up_graph g = Ok (dkeys g) → (∀ r, r ∈ op_refs op → r ∈ dkeys g) → (k ∈ dkeys g → dget k g = Some op) →
  look_up_graph (dset k op g) = Ok (dkeys (dset k op g)).
Proof.
  intros Hg Hr Hk. destruct (decide (k ∈ dkeys g)) as [Hin|Hin]; [by rewrite dset_same by auto|].
  rewrite dset_new by done. by apply look_up_graph_snoc.
Qed.

(** Ops over a graph that are told apart by their ids *)
Lemma load_dupdate g new : look_up_graph g = Ok (dkeys g) →
  (∀ k op, (k, op) ∈ new → k ∉ dkeys g ∧ ∀ r, r ∈ op_refs op → r ∈ dkeys g) →
  (∀ k op op', (k, op) ∈ new → (k, op') ∈ new → op = op') →
  look_up_graph (dupdate g new) = Ok (dkeys (dupdate g new)) ∧
  (∀ k, k ∈ dkeys g → dget k (dupdate g new) = dget k g) ∧
  (∀ k, k ∈ dkeys (dupdate g new) ↔ k ∈ dkeys g ∨ k ∈ new.*1) ∧
  ∀ k op, (k, op) ∈ new → dget k (dupdate g new) = Some op.
Proof.
  intros Hg Hnew Hfun. induction new as [|[k op] new IH] using rev_ind.
  - split_and!; [done|done|intros k; unfold dupdate; simpl; rewrite elem_of_nil; tauto|by intros k op ?%elem_of_nil].
  - destruct IH as (L & K & D & G).
    { intros k' op' Hin. apply Hnew, elem_of_app. by left. }
    { intros k' o1 o2 H1 H2. apply (Hfun k'); apply elem_of_app; by left. }
    assert (Hk : (k, op) ∈ new ++ [(k, op)]) by (apply elem_of_app; right; left).
    destruct (Hnew _ _ Hk) as [Hfresh Hrefs]. unfold dupdate. rewrite foldl_app. simpl. fold (dupdate g new).
    split_and!.
    + apply load_dset; [done|intros r Hr; apply D; left; by apply Hrefs|]. intros [Hin|Hin]%D; [done|].
      apply list_elem_of_fmap in Hin as ([k' o'] & -> & Hin). simpl in *. rewrite (G k' o' Hin). f_equal.
      apply (Hfun k'); [apply elem_of_app; by left|done].
    + intros k' Hk'. rewrite dget_dset_ne; [by apply K|]. by intros ->.
    + intros k'. rewrite elem_of_dkeys_dset, D, fmap_app, elem_of_app. simpl. rewrite list_elem_of_singleton. tauto.
    + intros k' o' [Hin|Hin%list_elem_of_singleton]%elem_of_app; [|injection Hin as -> ->; by rewrite dget_dset_eq].
      destruct (decide (k' = k)) as [->|Hne]; [|rewrite dget_dset_ne by done; by apply G].
      rewrite dget_dset_eq. f_equal. symmetry. apply (Hfun k); [apply elem_of_app; by left|done].
Qed.

(** A closed proposition that computes *)
Ltac by_decide := apply (bool_decide_unpack _); vm_compute; exact I.

(** Ids the parser derives: a known prefix, an underscore and the rest *)
Definition PREFIXES : list string := ["input"; "data"; "retrieval"; "message"; "llm"; "llmvision"; "imagegen"; "embedding"; "format"; "lambda"].
Definition native_key (k : string) : Prop := ∃ p rest, p ∈ PREFIXES ∧ k = p +:+ "_" +:+ rest.

Lemma prefix_no_underscore p : p ∈ PREFIXES → "_"%char ∉ chars p.
Proof.
  assert (H : forallb (λ p, bool_decide ("_"%char ∉ chars p)) PREFIXES = true) by reflexivity.
  intros Hp%list_elem_of_In. by apply (bool_decide_eq_true_1 _), (proj1 (forallb_forall _ _) H).
Qed.

Lemma native_key_split w x : native_key (w +:+ "_" +:+ x) → "_"%char ∉ chars w → w ∈ PREFIXES.
Proof.
  intros (p & rest & Hp & E) Hw. apply (f_equal chars) in E. rewrite !chars_app in E. simpl in E.
  apply first_char_split in E as [E _]; [|done|by apply prefix_no_underscore]. apply (inj chars) in E. by subst.
Qed.

Lemma native_key_underscore k : native_key k → "_"%char ∈ chars k.
Proof. intros (p & rest & _ & ->). rewrite !chars_app. apply elem_of_app. right. left. Qed.

Lemma make_id_native blake2b_2 scope p n : p ∈ PREFIXES → native_key (make_id blake2b_2 scope p n).
Proof. intros Hp. by eexists p, _. Qed.

Lemma supported_prefix op_type : op_type ∈ SUPPORTED_OPS → op_id_prefix op_type ∈ PREFIXES.
Proof.
  assert (H : forallb (λ t, bool_decide (op_id_prefix t ∈ PREFIXES)) SUPPORTED_OPS = true) by reflexivity.
  intros Hp%list_elem_of_In. by apply (bool_decide_eq_true_1 _), (proj1 (forallb_forall _ _) H).
Qed.

Section fused.
Context (g : dict string op_dict).
Hypothesis loads : look_up_graph g = Ok (dkeys g).
Hypothesis native : ∀ k, k ∈ dkeys g → native_key k.

Lemma foreign_key w x : w ∉ PREFIXES → "_"%char ∉ chars w → w +:+ "_" +:+ x ∉ dkeys g.
Proof. intros Hp Hw Hin%native. by apply native_key_split in Hin. Qed.

Lemma foreign_word w : "_"%char ∉ chars w → w ∉ dkeys g.
Proof. intros Hw Hin%native. by apply native_key_underscore in Hin. Qed.

Local Abbreviation outputs leaf_ids export_ids := ((leaf_output <$> leaf_ids) ++ (export_output <$> export_ids)).

Lemma outputs_in leaf_ids export_ids k op : (k, op) ∈ outputs leaf_ids export_ids ↔
(∃ l, l ∈ leaf_ids ∧ (k, op) = leaf_output l) ∨ ∃ x, x ∈ export_ids ∧ (k, op) = export_output x.
Proof. rewrite elem_of_app, !list_elem_of_fmap. naive_solver. Qed.

Lemma output_refs id name input path : op_refs (output_op id name input path) = [input].
Proof. reflexivity. Qed.

(** With the outputs *)
Lemma outputs_load leaf_ids export_ids : (∀ l, l ∈ leaf_ids → l ∈ dkeys g) → (∀ x, x ∈ export_ids → x ∈ dkeys g) →
let g1 := dupdate g (dict_of (outputs leaf_ids export_ids)) in
look_up_graph g1 = Ok (dkeys g1) ∧ (∀ k, k ∈ dkeys g1 ↔ k ∈ dkeys g ∨ k ∈ (outputs leaf_ids export_ids).*1) ∧
∀ k op, (k, op) ∈ outputs leaf_ids export_ids → dget k g1 = Some op.
Proof.
intros Hl Hx g1.
assert (Hfun : ∀ k op op', (k, op) ∈ outputs leaf_ids export_ids → (k, op') ∈ outputs leaf_ids export_ids → op = op').
{ assert (Hmixed : ∀ l x, l ∈ leaf_ids → "output_" +:+ l ≠ "output_export_" +:+ x).
  { intros l x Hin E. change ("output_export_" +:+ x) with ("output_" +:+ ("export_" +:+ x)) in E. apply (inj _) in E as ->.
    revert Hin. intros Hin%Hl. revert Hin. apply (foreign_key "export" x); by_decide. }
  intros k op op' [(l & Hin & E)|(x & Hin & E)]%outputs_in [(l' & Hin' & E')|(x' & Hin' & E')]%outputs_in;
    apply pair_eq in E as [-> ->]; apply pair_eq in E' as [E' ->].
  - by apply (inj _) in E' as ->.
  - by apply Hmixed in E'.
  - by apply eq_sym, Hmixed in E'.
  - by apply (inj _) in E' as ->. }
assert (Hd : ∀ k op, (k, op) ∈ dict_of (outputs leaf_ids export_ids) ↔ (k, op) ∈ outputs leaf_ids export_ids).
{ intros k op. split; [apply elem_of_dict_of|]. intros Hin.
  assert (Hk : k ∈ dkeys (dict_of (outputs leaf_ids export_ids))) by (apply elem_of_dkeys_dict_of, list_elem_of_fmap; by exists (k, op)).
  apply list_elem_of_fmap in Hk as ([k' op'] & -> & Hin'). pose proof (elem_of_dict_of _ _ _ Hin') as Hin2. simpl in *.
  by rewrite (Hfun _ _ _ Hin Hin2). }
destruct (load_dupdate g (dict_of (outputs leaf_ids export_ids)) loads) as (L & _ & D & G).
- intros k op Hin%Hd. apply outputs_in in Hin as [(l & Hin & [= -> ->])|(x & Hin & [= -> ->])]; rewrite output_refs.
  + split; [apply (foreign_key "output"); by_decide|]. intros r ->%list_elem_of_singleton. by apply Hl.
  + split; [apply (foreign_key "output" ("export_" +:+ x)); by_decide|]. intros r ->%list_elem_of_singleton. by apply Hx.
- intros k op op' H1%Hd H2%Hd. by apply (Hfun k).
- split_and!; [done| |intros k op Hin; by apply G, Hd]. intros k. unfold g1. rewrite D. change ((dict_of ?x).*1) with (dkeys (dict_of x)). by rewrite elem_of_dkeys_dict_of.
Qed.

Lemma output_keys leaf_ids export_ids k : k ∈ (outputs leaf_ids export_ids).*1 → ∃ x, k = "output_" +:+ x.
Proof.
intros ([k' op] & -> & Hin)%list_elem_of_fmap. apply outputs_in in Hin as [(l & _ & [= -> ->])|(x & _ & [= -> ->])]; [by exists l|by exists ("export_" +:+ x)].
Qed.

(** One more op *)
Lemma load_one g1 k op : look_up_graph g1 = Ok (dkeys g1) → k ∉ dkeys g1 → (∀ r, r ∈ op_refs op → r ∈ dkeys g1) →
let g2 := dupdate g1 [(k, op)] in
look_up_graph g2 = Ok (dkeys g2) ∧ (∀ k', k' ∈ dkeys g1 → dget k' g2 = dget k' g1) ∧ (∀ k', k' ∈ dkeys g2 ↔ k' ∈ dkeys g1 ∨ k' = k) ∧ dget k g2 = Some op.
Proof.
intros Hl Hk Hr g2. destruct (load_dupdate g1 [(k, op)] Hl) as (L & K & D & G).
- intros k' op' [= -> ->]%list_elem_of_singleton. done.
- intros k' o o' [= -> ->]%list_elem_of_singleton [= ->]%list_elem_of_singleton. done.
- split_and!; [done|done| |by apply G; left]. intros k'. unfold g2. rewrite D. simpl. by rewrite list_elem_of_singleton.
Qed.

Lemma dget_known {V} k (d d' : dict string V) v : dget k d = Some v → (∀ k, k ∈ dkeys d → dget k d' = dget k d) → dget k d' = Some v.
Proof. intros H K. rewrite K; [done|]. apply dget_is_Some. by eexists. Qed.

(** A graph as it is once it has its outputs *)
Definition outputs_only (g1 : dict string op_dict) : Prop :=
∀ k, k ∈ dkeys g1 → k ∈ dkeys g ∨ ∃ x, k = "output_" +:+ x.

Lemma outputs_only_key g1 w x : outputs_only g1 → w ∉ "output" :: PREFIXES → "_"%char ∉ chars w → w +:+ "_" +:+ x ∉ dkeys g1.
Proof.
intros D1 Hw Hu [Hin|[y E]]%D1; [apply (foreign_key w x); [set_solver|done|done]|].
apply (f_equal chars) in E. rewrite !chars_app in E. change (chars "output_" ++ chars y) with (chars "output" ++ "_"%char :: chars y) in E.
change (chars "_" ++ chars x) with ("_"%char :: chars x) in E. apply first_char_split in E as [E _]; [|done|by_decide].
apply (inj chars) in E as ->. apply Hw. left.
Qed.

Lemma outputs_only_word g1 w : outputs_only g1 → "_"%char ∉ chars w → w ∉ dkeys g1.
Proof.
intros D1 Hw [Hin|[y ->]]%D1; [by apply (foreign_word w)|]. apply Hw. rewrite chars_app. apply elem_of_app. left. by_decide.
Qed.

(** With the ops that show the leaves *)
Lemma observations_load g1 code user leaf_ids : look_up_graph g1 = Ok (dkeys g1) → outputs_only g1 → (∀ l, l ∈ leaf_ids → l ∈ dkeys g1) →
let g2 := dupdate g1 (observation_ops code user leaf_ids) in
look_up_graph g2 = Ok (dkeys g2) ∧ (∀ k, k ∈ dkeys g1 → dget k g2 = dget k g1) ∧ (leaf_ids ≠ [] → FORMAT_NODE_ID ∈ dkeys g2) ∧
MESSAGE_NODE_ID ∉ dkeys g2 ∧ PROPOSER_NODE_ID ∉ dkeys g2 ∧ OUTPUT_NODE_ID ∉ dkeys g2.
Proof.
intros L1 HO Hleaf. pose proof (λ w x, outputs_only_key g1 w x HO) as F1. pose proof (λ w, outputs_only_word g1 w HO) as F2.
unfold observation_ops. destruct leaf_ids as [|l0 ls] eqn:El.
- split_and!; [done|done|done|apply F2; by_decide..].
- rewrite <-El in *. clear El.
  destruct (load_dupdate g1 (render_leaf <$> leaf_ids) L1) as (L2 & K2 & D2 & G2).
  { intros k op (l & [= -> ->] & Hl)%list_elem_of_fmap. split; [apply (F1 "render" l); [by_decide|by_decide]|].
    intros r Hr. apply list_elem_of_singleton in Hr as ->. by apply Hleaf. }
  { intros k op op' (l & [= -> ->] & _)%list_elem_of_fmap (l' & E & _)%list_elem_of_fmap. apply pair_eq in E as [E ->]. unfold render_id in E. by apply (inj _) in E as ->. }
  set (g2 := dupdate g1 (render_leaf <$> leaf_ids)) in *.
  assert (D2' : ∀ k, k ∈ dkeys g2 → k ∈ dkeys g1 ∨ ∃ l, k = render_id l).
  { intros k [?|Hk]%D2; [by left|right]. apply list_elem_of_fmap in Hk as ([k' op] & -> & Hk). apply list_elem_of_fmap in Hk as (l & [= -> ->] & _). by exists l. }
  assert (F3 : ∀ w, "_"%char ∉ chars w → w ∉ dkeys g2).
  { intros w Hw [Hin|[l ->]]%D2'; [by apply (F2 w)|]. apply Hw. unfold render_id. rewrite chars_app. apply elem_of_app. left. by_decide. }
  destruct (load_one g2 OBSERVATION_NODE_ID (observation_op code leaf_ids) L2) as (L3 & K3 & D3 & G3); [apply F3; by_decide| |].
  { intros r Hr. change (op_refs _) with (items_of (vids (render_id <$> leaf_ids))) in Hr. rewrite items_of_vids in Hr.
    apply list_elem_of_fmap in Hr as (l & -> & Hl). apply D2. right. apply list_elem_of_fmap. exists (render_leaf l). split; [done|]. apply list_elem_of_fmap. by exists l. }
  cbv zeta in L3, K3, D3, G3. set (g3 := dupdate g2 _) in *.
  destruct (load_one g3 FORMAT_NODE_ID (observation_format user) L3) as (L4 & K4 & D4 & G4).
  { intros [Hin|Hin]%D3; [revert Hin; apply F3; by_decide|discriminate Hin]. }
  { intros r Hr. change (op_refs _) with [OBSERVATION_NODE_ID] in Hr. apply list_elem_of_singleton in Hr as ->. apply D3. by right. }
  cbv zeta in L4, K4, D4, G4. set (g4 := dupdate g3 _) in *.
  assert (Eg : dupdate g1 ((render_leaf <$> leaf_ids) ++ [(OBSERVATION_NODE_ID, observation_op code leaf_ids); (FORMAT_NODE_ID, observation_format user)]) = g4).
  { unfold g4, g3, g2, dupdate. by rewrite foldl_app. }
  rewrite Eg. split_and!; [done| |intros _; apply D4; by right|..].
  + intros k Hk. rewrite K4, K3, K2; [done|done|apply D2; by left|apply D3; left; apply D2; by left].
  + intros [[Hin|Hin]%D3|Hin]%D4; [revert Hin; apply F3; by_decide|discriminate Hin|discriminate Hin].
  + intros [[Hin|Hin]%D3|Hin]%D4; [revert Hin; apply F3; by_decide|discriminate Hin|discriminate Hin].
  + intros [[Hin|Hin]%D3|Hin]%D4; [revert Hin; apply F3; by_decide|discriminate Hin|discriminate Hin].
Qed.

(** The graph of a round loads, with an output for the whole result of each leaf
and exported op and, when the round has a proposer, one for the plan. *)
Lemma fused_graph_loads leaf_ids export_ids system user code settings proposer g' :
fused_round_graph g leaf_ids export_ids system user code settings proposer = Ok g' →
look_up_graph g' = Ok (dkeys g') ∧ (∀ k op, (k, op) ∈ outputs leaf_ids export_ids → dget k g' = Some op) ∧
(proposer = true → dget OUTPUT_NODE_ID g' = Some (output_op OUTPUT_NODE_ID "plan" PROPOSER_NODE_ID "items.output")).
Proof.
intros H. unfold fused_round_graph in H.
destruct (negb (forallb _ leaf_ids)) eqn:E1; [done|]. destruct (negb (forallb _ export_ids)) eqn:E2; [done|].
apply negb_false_iff in E1, E2. rewrite forallb_forall in E1, E2.
destruct (outputs_load leaf_ids export_ids) as (L1 & D1 & G1); [intros l Hl; by apply dmem_true, E1, list_elem_of_In|intros x Hx; by apply dmem_true, E2, list_elem_of_In|].
cbv zeta in L1, D1, G1. set (g1 := dupdate g (dict_of (outputs leaf_ids export_ids))) in *.
destruct proposer; simpl negb in H; cbv iota in H; [|injection H as <-; by split_and!]. inv_ok. clear Ha.
assert (HO : outputs_only g1) by (intros k [?|?%output_keys]%D1; [by left|by right]).
destruct (observations_load g1 code user leaf_ids L1 HO) as (L2 & K2 & Hfmt & N1 & N2 & N3).
{ intros l Hl. apply D1. left. by apply dmem_true, E1, list_elem_of_In. }
cbv zeta in L2, K2, Hfmt, N1, N2, N3. set (g2 := dupdate g1 (observation_ops code user leaf_ids)) in *.
destruct (load_one g2 MESSAGE_NODE_ID (proposer_message system user leaf_ids) L2 N1) as (L3 & K3 & D3 & _).
{ intros r Hr. unfold proposer_message in Hr. destruct leaf_ids; by apply elem_of_nil in Hr. }
cbv zeta in L3, K3, D3. set (g3 := dupdate g2 _) in *.
destruct (load_one g3 PROPOSER_NODE_ID (proposer_op a) L3) as (L4 & K4 & D4 & _).
{ intros [Hin|Hin]%D3; [done|discriminate Hin]. }
{ intros r Hr. change (op_refs _) with [MESSAGE_NODE_ID] in Hr. apply list_elem_of_singleton in Hr as ->. apply D3. by right. }
cbv zeta in L4, K4, D4. set (g4 := dupdate g3 _) in *.
destruct (load_one g4 OUTPUT_NODE_ID (output_op OUTPUT_NODE_ID "plan" PROPOSER_NODE_ID "items.output") L4) as (L5 & K5 & D5 & G5).
{ intros [[Hin|Hin]%D3|Hin]%D4; [done|discriminate Hin|discriminate Hin]. }
{ intros r Hr. rewrite output_refs in Hr. apply list_elem_of_singleton in Hr as ->. apply D4. by right. }
cbv zeta in L5, K5, D5, G5.
rewrite (foldl_app _ (observation_ops code user leaf_ids) _ g1 : dupdate g1 (_ ++ _) = dupdate g2 _).
change (dupdate g2 [(MESSAGE_NODE_ID, proposer_message system user leaf_ids); (PROPOSER_NODE_ID, proposer_op a); (OUTPUT_NODE_ID, output_op OUTPUT_NODE_ID "plan" PROPOSER_NODE_ID "items.output")])
  with (dupdate g4 [(OUTPUT_NODE_ID, output_op OUTPUT_NODE_ID "plan" PROPOSER_NODE_ID "items.output")]).
split_and!; [done| |done]. intros k op Hin. apply G1 in Hin as Hg.
eapply dget_known; [|exact K5]. eapply dget_known; [|exact K4]. eapply dget_known; [|exact K3]. eapply dget_known; [exact Hg|exact K2].
Qed.
End fused.


(** ** The graph of a round *)

Definition fields_of (v : val) : dict string val := match v with VDict d => d | _ => [] end.

Lemma compiled_native blake2b_2 scope inputs entries g : (∀ e, e ∈ entries → OpEntry.op e ∈ SUPPORTED_OPS) →
  emitting blake2b_2 scope inputs entries g [] → ∀ k, k ∈ dkeys g → native_key k.
Proof.
  intros Hs Hem k Hk. destruct (em_only _ _ _ _ _ _ Hem k Hk) as [(n & _ & ->)|(e & He & _ & Hid)]; [apply make_id_native; by_decide|].
  apply list_elem_of_fmap in Hid as (p & -> & Hp). apply make_id_native.
  repeat (apply elem_of_cons in Hp as [->|Hp]; [first [by apply supported_prefix, Hs|by_decide]|]). by apply elem_of_nil in Hp.
Qed.

Lemma fused_sources g leaf_ids export_ids system user code settings proposer g' :
  fused_round_graph g leaf_ids export_ids system user code settings proposer = Ok g' → ∀ i, i ∈ leaf_ids ++ export_ids → i ∈ dkeys g.
Proof.
  intros H. unfold fused_round_graph in H.
  destruct (negb (forallb _ leaf_ids)) eqn:E1; [done|]. destruct (negb (forallb _ export_ids)) eqn:E2; [done|].
  apply negb_false_iff in E1, E2. rewrite forallb_forall in E1, E2.
  intros i [Hi|Hi]%elem_of_app; apply dmem_true; [apply E1|apply E2]; by apply list_elem_of_In.
Qed.

(** The ids of the graph an op of the round is derived to *)
Definition derived blake2b_2 (name : string) (ops : list op_dict) (i user : string) : Prop :=
  ∃ op op_type, op ∈ ops ∧ op_id_of op = Ok user ∧ dget "op" op = Some (VStr op_type) ∧ i = internal_id blake2b_2 name op_type user.

Lemma sorted_pairs_spec blake2b_2 name keep ops pairs : sorted_pairs blake2b_2 name keep ops = Ok pairs →
  ∀ i user, (i, user) ∈ pairs ↔ keep user = true ∧ derived blake2b_2 name ops i user.
Proof.
  intros H i user. unfold sorted_pairs in H. apply result_bind_ok in H as (l & Hl & [= <-]). rewrite elem_of_sorted_by, list_elem_of_In, in_concat.
  apply mapR_ok_inv in Hl. setoid_rewrite <-list_elem_of_In. split.
  - intros (ps & Hps & Hin). apply list_elem_of_lookup in Hps as [j Hj]. destruct (Forall2_lookup_r _ _ _ _ _ Hl Hj) as (op & Hop & H).
    apply result_bind_ok in H as (u & Hu & H). destruct (keep u) eqn:Ek; [|injection H as <-; by apply elem_of_nil in Hin].
    apply result_bind_ok in H as (p & Hp & [= <-]). apply list_elem_of_singleton in Hin as <-. unfold id_pair in Hp.
    apply result_bind_ok in Hp as (t & Ht & Hp). rewrite Hu in Hp. injection Hp as <- <-. split; [done|]. exists op, t.
    split; [by eapply list_elem_of_lookup_2|]. split; [done|]. split; [|done].
    destruct (dget "op" op) as [[| | | |t'| | |]|]; try done. by injection Ht as ->.
  - intros (Hk & op & t & Hin & Hu & Ht & ->). apply list_elem_of_lookup in Hin as [j Hj]. destruct (Forall2_lookup_l _ _ _ _ _ Hl Hj) as (ps & Hps & H).
    exists ps. split; [by eapply list_elem_of_lookup_2|]. rewrite Hu in H. simpl in H. rewrite Hk in H. unfold id_pair in H. rewrite Ht, Hu in H.
    injection H as <-. left.
Qed.


(** ** A round of two ops *)

Definition demo_settings : Proposer.t :=
  Proposer.mk "m" 64 fzero VNone VNone VNone VNone VNone.
Definition shown (_ : val) : string := "value".
Definition demo_resolved : list op_dict := match resolve_subgraph demo_library demo_subgraph with Ok ops => ops | Err _ => [] end.
Definition demo_spec : string * graph_spec :=
  match parse_yaml_payload digest_length no_yaml (round_workflow 0 [] demo_resolved) with Ok r => r | Err _ => ("", GraphSpec [] []) end.
Definition demo_built : result RoundBuild.t :=
  build_round digest_length no_yaml no_json dump_length shown "def observe(): pass" demo_subgraph [] 0 "find peers" [] [] demo_settings None demo_library [] ["sector"] true 2.

Example demo_round_outputs :
  match demo_built with
  | Ok r => (RoundBuild.leaf_user_ids r, RoundBuild.export_user_ids r) = (["found"], ["sector"]) ∧
            dkeys (RoundBuild.graph r) =
              ["input_round_0_Symbols_15"; "format_round_0_sector_14"; "message_round_0_sector_14"; "llm_round_0_sector_14"; "retrieval_round_0_found_13";
               "output_retrieval_round_0_found_13"; "output_export_llm_round_0_sector_14"; "render_retrieval_round_0_found_13";
               "observation"; "format"; "message"; "proposer"; "output"]
  | Err _ => False
  end.
Proof. vm_compute. split; reflexivity. Qed.

Example demo_round_loads : match demo_built with Ok r => load_graph any_source (RoundBuild.graph r) = Ok (dkeys (RoundBuild.graph r)) | Err _ => False end.
Proof. vm_compute. reflexivity. Qed.

