(* ===== verification/JobSlices.v ===== *)
(** * Slices of a submission (routes/jobs.py)

    A workflow that is submitted with several values per input is cut into
    slices of [input_batch_size] rows, each with a graph of its own
    ([_chunk_inputs], [_input_shape], [_workflow_template_hash],
    [_dispatch_workflow_to_graph_specs], [_validate_list_lambda_slice_span] and
    the loops of [submit_job] and [_submit_dynamic_child]).  The properties at the
    end show that the slices partition the rows, so that merging their outputs
    gives the whole ([ResultsProps]), and that the check on list-mode lambdas is
    given no slices to look at.

    The digest of a JSON payload, YAML loading, and the n8n parser
    (parser/n8n.py) are parameters. *)

From S2P Require Import Prelude PyFloat PyDict PyValue PyString Protocol RuntimeGraph DslGraph JobBase PriorityQueue Results ResultsProps FlowmeshSpec YamlParser.

Abbreviation input_values := (dict string (list string)).

(** ** Shapes and batches *)

Definition max_length (inputs : input_values) : nat := foldr Nat.max 0 (length <$> dvals inputs).

Definition check_lengths (inputs : input_values) : result () :=
  if forallb (λ vals, Nat.eqb (length vals) 1 || Nat.eqb (length vals) (max_length inputs))%bool (dvals inputs) then Ok ()
  else Err (ValueError "workflow inputs list lengths must match or be a single value").

(** [vals[start : start + input_batch_size]], or the single value *)
Definition batch_values (size start : nat) (vals : list string) : list string :=
  if Nat.eqb (length vals) 1 then vals else take size (drop start vals).
Definition batch_at (inputs : input_values) (size start : nat) : input_values :=
  (λ kv : string * list string, (kv.1, batch_values size start kv.2)) <$> inputs.

(** [range(0, stop, step)] for a positive step *)
Definition starts (stop step : nat) : list nat := (λ i, i * step) <$> seq 0 ((stop + step - 1) / step).

(** [_chunk_inputs]; the range of a negative step is empty *)
Definition chunk_inputs (inputs : input_values) (input_batch_size : Z) : result (list input_values) :=
  _ ← check_lengths inputs;
  if (Z.of_nat (max_length inputs) <=? input_batch_size)%Z then Ok [inputs]
  else if (input_batch_size =? 0)%Z then Err (ValueError "range() arg 3 must not be zero")
  else if (input_batch_size <? 0)%Z then Ok []
  else Ok (batch_at inputs (Z.to_nat input_batch_size) <$> starts (max_length inputs) (Z.to_nat input_batch_size)).

(** [_input_shape] *)
Definition input_shape (inputs : input_values) : result (nat * list string) :=
  _ ← check_lengths inputs;
  Ok (max_length inputs, sorted_by str_ltb id (filter (λ kv : string * list string, 1 < length kv.2) inputs).*1).

(** ** Templates *)

Fixpoint redact_api_credentials (value : val) : val :=
  match value with
  | VDict d =>
      VDict ((λ kv : string * val,
        let '(key, item) := kv in
        (key, match item with
              | VStr s => if String.eqb key "authorization" then VStr API_CREDENTIAL_PLACEHOLDER else VStr s
              | _ => redact_api_credentials item
              end)) <$> d)
  | VList l => VList (redact_api_credentials <$> l)
  | _ => value
  end.

Section slices.
Context (digest : val → string).
Context (blake2b_2 : string → nat) (yaml_load : string → yaml_outcome).

Definition workflow_template_hash (workflow_payload : val) (workflow_format : string) : string :=
digest (VDict [("format", VStr workflow_format); ("workflow", redact_api_credentials workflow_payload)]).

(** ** Graphs of the slices *)

(** A graph as submitted, or as parsed *)
Inductive slice_graph :=
| NativeGraph (graph : val) (inputs : input_values)
| ParsedGraph (spec : graph_spec).
Context (parse_n8n_payload : val → result (dict string slice_graph)).

Definition unprocessable {A} (detail : string) : result A := Err (HTTPException 422 detail).
(** [except ValueError as exc] *)
Definition or_unprocessable {A} (r : result A) : result A :=
match r with Err (ValueError m) => unprocessable m | _ => r end.

Definition inputs_payload (inputs : input_values) : val := VDict ((λ kv : string * list string, (kv.1, vids kv.2)) <$> inputs).

Definition add_parsed (parsed specs : dict string slice_graph) : result (dict string slice_graph) :=
if existsb (λ name, dmem name specs) (dkeys parsed) then unprocessable "duplicate graph names after parsing"
else Ok (dupdate specs parsed).

(** [_dispatch_workflow_to_graph_specs] *)
Definition dispatch_workflow_to_graph_specs (workflow_format : string) (workflow_payload : val) (batch_inputs : input_values)
  (graph_name : string) (graph_specs : dict string slice_graph) (parser_scope : option string) : result (dict string slice_graph) :=
if String.eqb workflow_format "n8n" then
  let payload := VDict [("graphs", VList [VDict [("workflow", workflow_payload); ("inputs", inputs_payload batch_inputs);
    ("name", VStr graph_name); ("scope", VStr (str_or parser_scope graph_name))]])] in
  parsed ← or_unprocessable (parse_n8n_payload payload);
  add_parsed parsed graph_specs
else if String.eqb workflow_format "yaml" then
  match workflow_payload with
  | VDict d =>
      let yaml_dict := dset "inputs" (inputs_payload batch_inputs) (dset "name" (VStr graph_name) d) in
      parsed ← or_unprocessable (parse_yaml_payload blake2b_2 yaml_load (VDict yaml_dict));
      add_parsed [(parsed.1, ParsedGraph parsed.2)] graph_specs
  | _ => unprocessable "YAML workflow must be a mapping at the top level"
  end
else
  match workflow_payload with
  | VDict d =>
      let graph := match dget "graph" d with Some g => g | None => workflow_payload end in
      Ok (dset graph_name (NativeGraph graph batch_inputs) graph_specs)
  | _ => unprocessable "workflow payload must be an object"
  end.

Definition slice_name (name : string) (count i : nat) : string :=
if Nat.eqb count 1 then name else name +:+ "__slice_" +:+ str_of_nat (S i).

(** What the loop over the batches has so far: graphs, slices and the next row *)
Abbreviation slicing := (dict string slice_graph * dict string WorkflowSliceMeta.t * nat)%type.

(** One batch; [submit_job] refuses a name that is taken and parses under the
    name of the workflow, [_submit_dynamic_child] does neither *)
Definition add_slice (submitted : bool) (name : string) (total count : nat) (varying : list string) (workflow_format : string) (workflow_payload : val)
  (st : slicing) (batch : nat * input_values) : result slicing :=
let '(graph_specs, workflow_slices, slice_start) := st in
let graph_name := slice_name name count batch.1 in
if (submitted && dmem graph_name graph_specs)%bool then unprocessable ("duplicate internal graph name: " +:+ graph_name)
else
shape ← input_shape batch.2;
let meta := WorkflowSliceMeta.mk name (Z.of_nat batch.1) (Z.of_nat slice_start) (Z.of_nat shape.1) (Z.of_nat total)
  (workflow_template_hash workflow_payload workflow_format) varying in
specs ← dispatch_workflow_to_graph_specs workflow_format workflow_payload batch.2 graph_name graph_specs (if submitted then Some name else None);
Ok (specs, dset graph_name meta workflow_slices, slice_start + shape.1).

Definition enumerate {A} (l : list A) : list (nat * A) := zip (seq 0 (length l)) l.

(** An entry of [submit_job], from its resolved inputs on *)
Definition prepare_entry (name : string) (inputs : input_values) (input_batch_size : option Z) (workflow_format : string) (workflow_payload : val)
  (graph_specs : dict string slice_graph) (workflow_slices : dict string WorkflowSliceMeta.t) :
result (dict string slice_graph * dict string WorkflowSliceMeta.t) :=
shape ← or_unprocessable (input_shape inputs);
let size := default 1%Z input_batch_size in
if (size <=? 0)%Z then unprocessable "input_batch_size must be a positive integer"
else
input_batches ← or_unprocessable (chunk_inputs inputs size);
st ← foldR (add_slice true name shape.1 (length input_batches) shape.2 workflow_format workflow_payload) (graph_specs, workflow_slices, 0) (enumerate input_batches);
Ok st.1.

(** The slices of a round of a dynamic workflow, one per row *)
Definition dynamic_round_slices (graph_name : string) (inputs : input_values) (graph : val) :
result (dict string slice_graph * dict string WorkflowSliceMeta.t) :=
shape ← input_shape inputs;
input_batches ← chunk_inputs inputs 1;
st ← foldR (add_slice false graph_name shape.1 (length input_batches) shape.2 "native" graph) ([], [], 0) (enumerate input_batches);
Ok st.1.
End slices.

(** ** List-mode lambdas *)

(** [_validate_list_lambda_slice_span], for one graph *)
Definition list_lambda_slice_span (workflow_slices : dict string (list WorkflowSliceMeta.t)) (entry : string * RuntimeGraph.t) : result () :=
  let '(graph_name, graph) := entry in
  list_lambda_dependent ← RuntimeGraph.list_lambda_cardinality_nodes graph;
  if bool_decide (list_lambda_dependent = []) then Ok ()
  else if Nat.leb (length (dget_or [] graph_name workflow_slices)) 1 then Ok ()
  else if existsb (λ node_id, bool_decide (node_id ∈ list_lambda_dependent)) (dkeys (RuntimeGraph.output_node_map graph)) then
    Err (HTTPException 422 "list-mode Lambda output cannot be split across slices")
  else Ok ().
Definition validate_list_lambda_slice_span (runtime_graphs : dict string RuntimeGraph.t)
  (workflow_slices : dict string (list WorkflowSliceMeta.t)) : result () :=
  _ ← mapR (list_lambda_slice_span workflow_slices) runtime_graphs; Ok ().

(** The slices [submit_job] passes to it, by the names of the graphs *)
Definition slices_by_graph (graphs : list string) (workflow_slices : dict string WorkflowSliceMeta.t) : dict string (list WorkflowSliceMeta.t) :=
  (λ name, (name, filter (λ m, WorkflowSliceMeta.public_graph_name m = name) (dvals workflow_slices))) <$> graphs.

(** * Properties *)

(** ** Batches *)

Lemma check_lengths_ok inputs : check_lengths inputs = Ok () →
  ∀ k vals, (k, vals) ∈ inputs → length vals = 1 ∨ length vals = max_length inputs.
Proof.
  unfold check_lengths. destruct (forallb _ _) eqn:E; [|done]. intros _ k vals Hin. rewrite forallb_forall in E.
  assert (Hv : In vals (dvals inputs)) by (apply list_elem_of_In, list_elem_of_fmap; by exists (k, vals)).
  apply E, orb_true_iff in Hv as [Hv|Hv]; apply Nat.eqb_eq in Hv; auto.
Qed.

Lemma max_length_cons k v inputs : max_length ((k, v) :: inputs) = Nat.max (length v) (max_length inputs).
Proof. done. Qed.

Lemma input_length_le inputs k vals : (k, vals) ∈ inputs → length vals ≤ max_length inputs.
Proof.
  induction inputs as [|[k' v] inputs IH]; [by intros ?%elem_of_nil|]. rewrite max_length_cons.
  intros [[= -> ->]|Hin%IH]%elem_of_cons; lia.
Qed.

Lemma max_length_le inputs n : (∀ k vals, (k, vals) ∈ inputs → length vals ≤ n) → max_length inputs ≤ n.
Proof.
  induction inputs as [|[k' v] inputs IH]; intros H; [apply Nat.le_0_l|]. rewrite max_length_cons. apply Nat.max_lub; [apply (H k'); left|].
  apply IH. intros k vals Hin. apply (H k). by right.
Qed.

Lemma max_length_attained inputs : 0 < max_length inputs → ∃ k vals, (k, vals) ∈ inputs ∧ length vals = max_length inputs.
Proof.
  induction inputs as [|[k v] inputs IH]; [unfold max_length; simpl; lia|]. rewrite max_length_cons. intros H.
  destruct (Nat.max_spec (length v) (max_length inputs)) as [[Hlt Hm]|[_ Hm]]; rewrite Hm in *.
  - destruct IH as (k' & vals & Hin & Hl); [lia|]. exists k', vals. split; [by right|done].
  - exists k, v. split; [left|done].
Qed.

(** The parts of a list, cut every [size] elements *)
Lemma concat_parts {A} size n (l : list A) : concat ((λ i, take size (drop (i * size) l)) <$> seq 0 n) = take (n * size) l.
Proof.
  induction n as [|n IH]; [done|]. rewrite seq_S, fmap_app, concat_app, IH. simpl. rewrite app_nil_r.
  replace (size + n * size) with (n * size + size) by lia. by rewrite take_take_drop.
Qed.

(** The number of batches, and the rows of one *)
Definition batch_count (total size : nat) : nat := if Nat.leb total size then 1 else (total + size - 1) / size.
Definition batch_length (total size i : nat) : nat := Nat.min size (total - i * size).

Lemma batch_count_covers total size : 0 < size → total ≤ batch_count total size * size.
Proof.
  intros Hs. unfold batch_count. destruct (Nat.leb_spec total size); [lia|].
  pose proof (Nat.div_mod (total + size - 1) size ltac:(lia)) as E. pose proof (Nat.mod_upper_bound (total + size - 1) size ltac:(lia)). nia.
Qed.

Lemma batch_count_tight total size i : 0 < size → i < batch_count total size → i * size < total ∨ total = 0 ∧ i = 0.
Proof.
  intros Hs Hi. unfold batch_count in Hi. destruct (Nat.leb_spec total size); [assert (i = 0) by lia; lia|]. left.
  pose proof (Nat.mul_div_le (total + size - 1) size ltac:(lia)). nia.
Qed.

Lemma batch_at_all inputs size : (∀ k vals, (k, vals) ∈ inputs → length vals ≤ size) → batch_at inputs size 0 = inputs.
Proof.
  intros H. unfold batch_at. rewrite <-(list_fmap_id inputs) at 2. apply list_fmap_ext. intros i [k vals] Hi%list_elem_of_lookup_2.
  unfold batch_values. simpl. destruct (Nat.eqb _ 1); [done|]. by rewrite drop_0, take_ge by (by eapply H).
Qed.

Lemma chunk_inputs_ok inputs size batches : 0 < size → chunk_inputs inputs (Z.of_nat size) = Ok batches →
  batches = (λ i, batch_at inputs size (i * size)) <$> seq 0 (batch_count (max_length inputs) size).
Proof.
  intros Hs H. unfold chunk_inputs in H. destruct (check_lengths inputs) as [[]|] eqn:E; [|done]. cbn -[starts] in H.
  unfold batch_count. destruct (Z.leb_spec (Z.of_nat (max_length inputs)) (Z.of_nat size)) as [Hle|Hlt].
  - injection H as <-. rewrite (proj2 (Nat.leb_le _ _)) by lia. simpl. f_equal. symmetry. apply batch_at_all.
    intros k vals Hin%input_length_le. lia.
  - rewrite (proj2 (Nat.leb_gt _ _)) by lia. destruct (Z.eqb_spec (Z.of_nat size) 0); [lia|]. destruct (Z.ltb_spec (Z.of_nat size) 0); [lia|].
    injection H as <-. rewrite Nat2Z.id. unfold starts. by rewrite <-list_fmap_compose.
Qed.

Lemma batch_shape inputs size i : check_lengths inputs = Ok () → 0 < size → i < batch_count (max_length inputs) size →
  ∃ varying, input_shape (batch_at inputs size (i * size)) = Ok (batch_length (max_length inputs) size i, varying).
Proof.
  intros Hc Hs Hi. pose proof (check_lengths_ok _ Hc) as Hl.
  assert (Hm : max_length (batch_at inputs size (i * size)) = batch_length (max_length inputs) size i).
  { assert (Hlen : ∀ vals, length (batch_values size (i * size) vals) = if Nat.eqb (length vals) 1 then 1 else Nat.min size (length vals - i * size)).
    { intros vals. unfold batch_values. destruct (Nat.eqb_spec (length vals) 1) as [->|]; [done|]. rewrite length_take, length_drop. lia. }
    pose proof (batch_count_tight _ _ _ Hs Hi) as Ht. apply Nat.le_antisymm.
    - apply max_length_le. intros k vals ([k' v] & [= -> ->] & Hin)%list_elem_of_fmap. rewrite Hlen. unfold batch_length.
      pose proof (input_length_le _ _ _ Hin). destruct (Nat.eqb_spec (length v) 1) as [E|E].
      + destruct (decide (length v = max_length inputs)); destruct Ht as [Ht|[Ht1 Ht2]]; lia.
      + destruct (Hl _ _ Hin) as [?| ->]; [done|lia].
    - destruct (decide (0 < max_length inputs)) as [Hpos|Hz]; [|unfold batch_length; lia].
      destruct (max_length_attained _ Hpos) as (k & vals & Hin & E).
      assert (Hb : (k, batch_values size (i * size) vals) ∈ batch_at inputs size (i * size)) by (apply list_elem_of_fmap; by exists (k, vals)).
      apply input_length_le in Hb. rewrite Hlen in Hb. unfold batch_length. destruct (Nat.eqb_spec (length vals) 1); [|lia].
      destruct Ht as [Ht|[? ?]]; lia. }
  unfold input_shape. assert (check_lengths (batch_at inputs size (i * size)) = Ok ()) as ->.
  { unfold check_lengths. destruct (forallb _ _) eqn:E; [done|]. exfalso. apply not_true_iff_false in E. apply E, forallb_forall.
    intros v Hv%list_elem_of_In. apply list_elem_of_fmap in Hv as ([k v'] & -> & Hv). apply list_elem_of_fmap in Hv as ([k' vals] & [= -> ->] & Hin).
    rewrite Hm. simpl. unfold batch_values, batch_length. destruct (Nat.eqb_spec (length vals) 1) as [E1|E1]; [by rewrite E1|].
    rewrite length_take, length_drop. destruct (Hl _ _ Hin) as [?| ->]; [done|]. rewrite Nat.eqb_refl. by rewrite orb_true_r. }
  rewrite Hm. simpl. by eexists.
Qed.

(** ** The slices of an entry *)

(** The rows a slice stands for *)
Definition meta_rows (m : WorkflowSliceMeta.t) : list nat :=
  seq (Z.to_nat (WorkflowSliceMeta.slice_start m)) (Z.to_nat (WorkflowSliceMeta.slice_length m)).

Lemma slice_name_inj name count i j : i < count → j < count → slice_name name count i = slice_name name count j → i = j.
Proof.
  intros Hi Hj. unfold slice_name. destruct (Nat.eqb_spec count 1); [lia|]. intros E. apply (inj _) in E.
  change ("__slice_" +:+ str_of_nat (S i)) with ("__slice_" +:+ str_of_nat (S i)) in E. apply (inj (String.append "__slice_")) in E.
  apply (inj str_of_nat) in E. lia.
Qed.

Lemma enumerate_batches {A} (f : nat → A) n : enumerate (f <$> seq 0 n) = (λ i, (i, f i)) <$> seq 0 n.
Proof.
  unfold enumerate. rewrite length_fmap, length_seq. generalize 0. induction n as [|n IH]; intros i; [done|]. csimpl. by rewrite IH.
Qed.

Section cut.
Context (digest : val → string) (blake2b_2 : string → nat) (yaml_load : string → yaml_outcome).
Context (parse_n8n_payload : val → result (dict string slice_graph)).
Context (submitted : bool) (name workflow_format : string) (workflow_payload : val).
Context (inputs : input_values) (size : nat).
Local Abbreviation total := (max_length inputs).
Local Abbreviation count := (batch_count total size).

(** The slice of a batch *)
Definition cut_meta (varying : list string) (i : nat) : WorkflowSliceMeta.t :=
WorkflowSliceMeta.mk name (Z.of_nat i) (Z.of_nat (Nat.min (i * size) total)) (Z.of_nat (batch_length total size i)) (Z.of_nat total)
  (workflow_template_hash digest workflow_payload workflow_format) varying.
Definition cut_slices (varying : list string) (from n : nat) : dict string WorkflowSliceMeta.t :=
(λ i, (slice_name name count i, cut_meta varying i)) <$> seq from n.

Lemma slices_cut varying from n specs slices st : check_lengths inputs = Ok () → 0 < size → from + n = count →
foldR (add_slice digest blake2b_2 yaml_load parse_n8n_payload submitted name total count varying workflow_format workflow_payload)
  (specs, slices, Nat.min (from * size) total) ((λ i, (i, batch_at inputs size (i * size))) <$> seq from n) = Ok st →
st.1.2 = dupdate slices (cut_slices varying from n).
Proof.
intros Hc Hs. revert from specs slices. induction n as [|n IH]; intros from specs slices Hn H; [by injection H as <-|].
simpl seq in H. rewrite fmap_cons, foldR_cons in H. unfold add_slice in H at 1. cbn [fst snd] in H.
destruct (submitted && _)%bool; [done|]. destruct (batch_shape inputs size from Hc Hs) as [v Hv]; [lia|]. rewrite Hv in H. cbn [mbind result_bind fst snd] in H.
destruct (dispatch_workflow_to_graph_specs _ _ _ _ _ _ _ _ _) as [specs'|]; [|done]. cbn [mbind result_bind] in H.
replace (Nat.min (from * size) total + batch_length total size from) with (Nat.min (S from * size) total) in H by (unfold batch_length; lia).
apply IH in H; [|lia]. rewrite H. done.
Qed.

Lemma cut_rows varying n : n ≤ count → 0 < size → (cut_slices varying 0 n).*2 ≫= meta_rows = seq 0 (Nat.min (n * size) total).
Proof.
intros Hn Hs. unfold cut_slices. rewrite <-list_fmap_compose. induction n as [|n IH]; [done|].
rewrite seq_S, fmap_app, bind_app, IH by lia. csimpl. unfold meta_rows, cut_meta. simpl. rewrite !Nat2Z.id, app_nil_r, <-seq_app.
f_equal. unfold batch_length. lia.
Qed.
End cut.

Lemma Forall2_fmap_seq {A B} (P : A → B → Prop) (f : nat → A) (g : nat → B) n :
  (∀ i, i < n → P (f i) (g i)) → Forall2 P (f <$> seq 0 n) (g <$> seq 0 n).
Proof.
  intros H. apply Forall2_fmap_2, Forall_Forall2_diag, Forall_forall. intros i Hi%elem_of_seq. apply H. lia.
Qed.

(** The parts of an input with one value per row *)
Lemma input_parts inputs size k vals : check_lengths inputs = Ok () → 0 < size → (k, vals) ∈ inputs → length vals ≠ 1 →
  let count := batch_count (max_length inputs) size in
  let parts := (λ i, take size (drop (i * size) vals)) <$> seq 0 count in
  concat parts = vals ∧ Forall2 (λ b part, (k, part) ∈ b) ((λ i, batch_at inputs size (i * size)) <$> seq 0 count) parts ∧
  ∀ i, length (take size (drop (i * size) vals)) = batch_length (max_length inputs) size i.
Proof.
  intros Hc Hs Hin Hne count parts. destruct (check_lengths_ok _ Hc _ _ Hin) as [?|Hl]; [done|]. split_and!.
  - unfold parts. rewrite concat_parts. apply take_ge. rewrite Hl. by apply batch_count_covers.
  - apply Forall2_fmap_seq. intros i _. apply list_elem_of_fmap. exists (k, vals). split; [|done]. unfold batch_values. simpl.
    by rewrite (proj2 (Nat.eqb_neq _ _)).
  - intros i. rewrite length_take, length_drop, Hl. unfold batch_length. lia.
Qed.

Lemma slice_names_nodup name count : NoDup (slice_name name count <$> seq 0 count).
Proof.
  apply NoDup_fmap_2_strong; [|apply NoDup_seq]. intros i j Hi%elem_of_seq Hj%elem_of_seq. apply slice_name_inj; lia.
Qed.

(** What an entry is cut into *)
Lemma prepare_entry_cut digest blake2b_2 yaml_load parse_n8n name inputs batch_size format payload specs specs' slices :
  prepare_entry digest blake2b_2 yaml_load parse_n8n name inputs batch_size format payload specs [] = Ok (specs', slices) →
  ∃ size varying, 0 < size ∧ Z.of_nat size = default 1%Z batch_size ∧ check_lengths inputs = Ok () ∧
    input_shape inputs = Ok (max_length inputs, varying) ∧
    let count := batch_count (max_length inputs) size in
    chunk_inputs inputs (Z.of_nat size) = Ok ((λ i, batch_at inputs size (i * size)) <$> seq 0 count) ∧
    slices = cut_slices digest name format payload inputs size varying 0 count ∧
    dkeys slices = slice_name name count <$> seq 0 count ∧ dict_wf slices ∧
    dvals slices = cut_meta digest name format payload inputs size varying <$> seq 0 count.
Proof.
  intros H. unfold prepare_entry in H.
  assert (Hc : check_lengths inputs = Ok ()).
  { unfold input_shape in H. destruct (check_lengths inputs) as [[]|[]]; done. }
  unfold input_shape in H at 1. rewrite Hc in H. cbn [mbind result_bind or_unprocessable fst snd] in H.
  set (varying := sorted_by _ _ _) in H. destruct (Z.leb_spec (default 1%Z batch_size) 0) as [|Hpos]; [done|].
  set (size := Z.to_nat (default 1%Z batch_size)). assert (Hsize : Z.of_nat size = default 1%Z batch_size) by (unfold size; lia).
  rewrite <-Hsize in H, Hpos. destruct (chunk_inputs inputs (Z.of_nat size)) as [batches|[]] eqn:Eb; try done. cbn [mbind result_bind or_unprocessable] in H.
  pose proof Eb as Ebatches. apply chunk_inputs_ok in Ebatches; [|lia]. set (total := max_length inputs) in *. set (count := batch_count total size) in *.
  assert (Hlen : length batches = count) by (by rewrite Ebatches, length_fmap, length_seq).
  apply result_bind_ok in H as ([[sp sl] st] & H & [= -> ->]). rewrite Hlen, Ebatches, enumerate_batches in H.
  change 0 with (Nat.min (0 * size) total) in H at 1. apply (slices_cut _ _ _ _ _ _ _ _ inputs size) in H; [|done|lia|done]. cbn [fst snd] in H.
  set (cut := cut_slices _ _ _ _ _ _ _ _ _) in H.
  assert (Hkeys : cut.*1 = slice_name name count <$> seq 0 count) by (unfold cut, cut_slices; by rewrite <-list_fmap_compose).
  assert (Hnd : NoDup cut.*1) by (rewrite Hkeys; apply slice_names_nodup).
  assert (slices = cut) as -> by (rewrite H; by apply dict_of_nodup).
  exists size, varying. cbv zeta. split_and!; [lia|done|done|by unfold input_shape; rewrite Hc|by rewrite Eb, Ebatches|done|done|done|].
  unfold cut, cut_slices, dvals. by rewrite <-list_fmap_compose.
Qed.

(** C23: The slices a submitted workflow is cut into partition its rows: numbered
in order, each with at most [input_batch_size] rows, under names of their own,
they cover every row once; an input with one value per row is cut along them and
put together again by joining the parts, a single value goes to every slice.
So the rows of the items made of these slices are what [slices_reassemble]
asks for. *)
Theorem slices_partition_the_rows digest blake2b_2 yaml_load parse_n8n name inputs batch_size format payload specs specs' slices :
  prepare_entry digest blake2b_2 yaml_load parse_n8n name inputs batch_size format payload specs [] = Ok (specs', slices) →
  ∃ total varying batches size, 0 < size ∧ Z.of_nat size = default 1%Z batch_size ∧
    input_shape inputs = Ok (total, varying) ∧ chunk_inputs inputs (Z.of_nat size) = Ok batches ∧
    dict_wf slices ∧ dkeys slices = (slice_name name (length batches)) <$> seq 0 (length batches) ∧
    (dvals slices ≫= meta_rows) = seq 0 total ∧
    (∀ i m, dvals slices !! i = Some m →
      WorkflowSliceMeta.public_graph_name m = name ∧ WorkflowSliceMeta.slice_index m = Z.of_nat i ∧ WorkflowSliceMeta.total_length m = Z.of_nat total ∧
      WorkflowSliceMeta.varying_input_keys m = varying ∧ (WorkflowSliceMeta.slice_length m <= Z.of_nat size)%Z) ∧
    (∀ k vals, (k, vals) ∈ inputs →
      if Nat.eqb (length vals) 1 then ∀ b, b ∈ batches → (k, vals) ∈ b
      else ∃ parts, concat parts = vals ∧ Forall2 (λ b part, (k, part) ∈ b) batches parts ∧
        Forall2 (λ m part, Z.of_nat (length part) = WorkflowSliceMeta.slice_length m) (dvals slices) parts) ∧
    ∀ items : list WorkflowItem.t, Forall2 (λ i m, WorkflowItem.slice_start i = WorkflowSliceMeta.slice_start m ∧
      WorkflowItem.slice_length i = WorkflowSliceMeta.slice_length m) items (dvals slices) → (items ≫= slice_cells) = seq 0 total.
Proof.
  intros H. apply prepare_entry_cut in H as (size & varying & Hs & Hsize & Hc & Hshape & Hb & Hcut & Hkeys & Hnd & Hvals).
  set (total := max_length inputs) in *. set (count := batch_count total size) in *.
  set (batches := (λ i, batch_at inputs size (i * size)) <$> seq 0 count) in *.
  assert (Hlen : length batches = count) by (unfold batches; by rewrite length_fmap, length_seq).
  assert (Hrows : dvals slices ≫= meta_rows = seq 0 total).
  { rewrite Hcut. unfold dvals. rewrite cut_rows; [|done|lia]. f_equal. apply Nat.min_r, batch_count_covers. lia. }
  exists total, varying, batches, size. split_and!; [lia|done|done|done|done|by rewrite Hlen|done| | |].
  - intros i m. rewrite Hvals, list_lookup_fmap. intros (j & Hj & ->)%fmap_Some. apply lookup_seq in Hj as [-> _]. unfold cut_meta, batch_length. simpl. split_and!; try done. lia.
  - intros k vals Hin. destruct (Nat.eqb_spec (length vals) 1) as [E|E].
    + intros b (i & -> & _)%list_elem_of_fmap. apply list_elem_of_fmap. exists (k, vals). split; [|done]. unfold batch_values. simpl.
      by rewrite E.
    + destruct (input_parts inputs size k vals Hc ltac:(lia) Hin E) as (H1 & H2 & H3). eexists. split; [exact H1|]. split; [exact H2|].
      rewrite Hvals. apply Forall2_fmap_seq. intros i _. by rewrite H3.
  - intros items Hitems. rewrite <-Hrows. clear -Hitems. induction Hitems as [|i m items ms [E1 E2] _ IH]; [done|]. csimpl. rewrite IH. f_equal.
    unfold slice_cells, slice_at, meta_rows. by rewrite E1, E2.
Qed.


(** ** The check on list-mode lambdas *)

Lemma slice_name_other name count i : count ≠ 1 → slice_name name count i ≠ name.
Proof.
  intros Hc E. unfold slice_name in E. destruct (Nat.eqb_spec count 1); [done|]. apply (f_equal chars) in E. rewrite chars_app in E.
  apply (f_equal length) in E. rewrite length_app in E. change (chars ("__slice_" +:+ str_of_nat (S i))) with (chars "__slice_" ++ chars (str_of_nat (S i))) in E.
  rewrite length_app in E. simpl in E. lia.
Qed.

Lemma graph_slices_few name count n slices : n ∈ slice_name name count <$> seq 0 count → length slices = count →
  (∀ m, m ∈ slices → WorkflowSliceMeta.public_graph_name m = name) →
  length (filter (λ m, WorkflowSliceMeta.public_graph_name m = n) slices) ≤ 1.
Proof.
  intros (i & -> & Hi)%list_elem_of_fmap Hlen Hname. destruct (decide (count = 1)) as [E|E].
  - etrans; [apply length_filter|lia].
  - destruct (filter _ slices) as [|m l] eqn:Ef; [simpl; lia|]. exfalso.
    assert (Hm : m ∈ filter (λ m, WorkflowSliceMeta.public_graph_name m = slice_name name count i) slices) by (rewrite Ef; left).
    apply list_elem_of_filter in Hm as [Hm Hin]. rewrite (Hname m Hin) in Hm. by eapply slice_name_other.
Qed.

(** [submit_job] never refuses a list-mode lambda whose output spans
several slices: the check is given the slices whose workflow has the name of the
graph, and the graphs of a workflow that is cut have names of their own, so
there is at most one slice to look at whatever the graphs compute. *)
Theorem list_lambda_spans_are_not_refused digest blake2b_2 yaml_load parse_n8n name inputs batch_size format payload specs slices graphs :
  prepare_entry digest blake2b_2 yaml_load parse_n8n name inputs batch_size format payload [] [] = Ok (specs, slices) →
  (∀ n, n ∈ dkeys graphs → n ∈ dkeys slices) →
  (∀ n g, (n, g) ∈ graphs → ∃ dependent, RuntimeGraph.list_lambda_cardinality_nodes g = Ok dependent) →
  validate_list_lambda_slice_span graphs (slices_by_graph (dkeys graphs) slices) = Ok ().
Proof.
  intros H Hk Hg. apply prepare_entry_cut in H as (size & varying & _ & _ & _ & _ & _ & _ & Hkeys & _ & Hvals).
  set (count := batch_count (max_length inputs) size) in *.
  assert (Hfew : ∀ n, n ∈ dkeys graphs → length (dget_or [] n (slices_by_graph (dkeys graphs) slices)) ≤ 1).
  { intros n Hn. unfold dget_or. destruct (dget n (slices_by_graph (dkeys graphs) slices)) as [l|] eqn:E; [|simpl; lia]. simpl.
    apply dget_elem, list_elem_of_fmap in E as (n' & [= -> ->] & _). apply (graph_slices_few name count); [rewrite <-Hkeys; by apply Hk| |].
    - rewrite Hvals. by rewrite length_fmap, length_seq.
    - intros m. rewrite Hvals. by intros (i & -> & _)%list_elem_of_fmap. }
  unfold validate_list_lambda_slice_span. rewrite (mapR_const _ () graphs); [done|]. apply Forall_forall. intros [n g] Hin. unfold list_lambda_slice_span.
  destruct (Hg n g Hin) as [dep ->]. cbn [mbind result_bind]. destruct (bool_decide _); [done|].
  by rewrite (proj2 (Nat.leb_le _ _)) by (apply Hfew, list_elem_of_fmap; by exists (n, g)).
Qed.

(** ** A workflow of five rows, two per slice *)

Definition five_rows : input_values := [("topic", ["a"; "b"; "c"; "d"; "e"]); ("style", ["short"]); ("tone", ["1"; "2"; "3"; "4"; "5"])].
Definition length_digest (_ : val) : string := "hash".
Definition no_n8n (_ : val) : result (dict string slice_graph) := unprocessable "no n8n".
Definition two_rows_each : result (dict string slice_graph * dict string WorkflowSliceMeta.t) :=
  prepare_entry length_digest (λ s, String.length s) (λ _, Unmarked "no text") no_n8n "report" five_rows (Some 2%Z) "native" (VDict [("graph", VDict [])]) [] [].

Example five_rows_cut : (λ r, ((λ m, (WorkflowSliceMeta.slice_start m, WorkflowSliceMeta.slice_length m)) <$> dvals r.2, dkeys r.1)) <$> two_rows_each =
  Ok ([(0, 2); (2, 2); (4, 1)]%Z, ["report__slice_1"; "report__slice_2"; "report__slice_3"]).
Proof. vm_compute. reflexivity. Qed.

Lemma slices_partition_the_rows_witness : ∃ specs slices, two_rows_each = Ok (specs, slices) ∧ ∃ total, (dvals slices ≫= meta_rows) = seq 0 total.
Proof.
  destruct two_rows_each as [[specs slices]|] eqn:E; [|vm_compute in E; discriminate E]. exists specs, slices. split; [reflexivity|].
  destruct (slices_partition_the_rows _ _ _ _ _ _ _ _ _ _ _ _ E) as (total & _ & _ & _ & _ & _ & _ & _ & _ & _ & H & _). exists total. exact H.
Defined.

(** A graph whose output is that of a list-mode lambda is refused when the slices of its workflow
are looked up by the name of the workflow, but not as [submit_job] looks them up. *)
Definition list_lambda_graph : RuntimeGraph.t :=
  RuntimeGraph.mk [("n", RuntimeOp.mk "n" PYTHON_TASK_TYPE "" "" [("mode", VStr "list")] [] [] [] [] None None)] ["n"] [("n", "out")] [] [].

Example span_check_is_given_no_slices :
  match two_rows_each with
  | Ok (_, slices) =>
      let graphs := (λ name, (name, list_lambda_graph)) <$> dkeys slices in
      validate_list_lambda_slice_span graphs (slices_by_graph (dkeys graphs) slices) = Ok () ∧
      validate_list_lambda_slice_span graphs ((λ name, (name, dvals slices)) <$> dkeys graphs) =
        Err (HTTPException 422 "list-mode Lambda output cannot be split across slices")
  | Err _ => False
  end.
Proof. vm_compute. split; reflexivity. Qed.

Lemma list_lambda_spans_are_not_refused_witness : ∃ specs slices, two_rows_each = Ok (specs, slices) ∧
  let graphs := [("report__slice_1", list_lambda_graph)] in
  validate_list_lambda_slice_span graphs (slices_by_graph (dkeys graphs) slices) = Ok ().
Proof.
  destruct two_rows_each as [[specs slices]|] eqn:E; [|vm_compute in E; discriminate E]. exists specs, slices. split; [reflexivity|].
  apply (list_lambda_spans_are_not_refused _ _ _ _ _ _ _ _ _ _ _ [("report__slice_1", list_lambda_graph)] E).
  - intros n Hn. apply list_elem_of_singleton in Hn as ->. vm_compute in E. injection E as _ <-. left.
  - intros n g Hg. apply list_elem_of_singleton in Hg. injection Hg as -> ->. eexists. vm_compute. reflexivity.
Defined.

(** The ids of a YAML workflow are derived from the names of its slices, though
the scope that is passed on is the name of the workflow. *)
Definition yaml_report : val :=
  VDict [("ops", VList [VDict [("id", VStr "prompt"); ("op", VStr "FormatOp"); ("inputs", VList [VStr "topic"]); ("template", VStr "Write about {t}");
    ("format_kwargs", VDict [("t", VStr "topic")])]])].
Example yaml_ids_follow_the_slice :
  match prepare_entry length_digest (λ s, String.length s) (λ _, Unmarked "no text") no_n8n "report" [("topic", ["a"; "b"])] None "yaml" yaml_report [] [] with
  | Ok (specs, _) => (λ g, match g with ParsedGraph spec => dkeys (gs_graph spec) | NativeGraph _ _ => [] end) <$> dvals specs =
      [["input_report_slice_1_topic_21"; "format_report_slice_1_prompt_22"]; ["input_report_slice_2_topic_21"; "format_report_slice_2_prompt_22"]]
  | Err _ => False
  end.
Proof. vm_compute. reflexivity. Qed.
