(* ===== verification/DynamicRun.v ===== *)
(** * The loop of a dynamic workflow (routes/jobs.py)

    [_run_dynamic_job] asks a planner for a subgraph, runs it as a child job and
    feeds its results back, until the planner stops or the rounds are used up.
    Modelled here with [_call_api_planner], [_admit_subgraph],
    [_extract_archived_outputs] and [_flatten_leaf_outputs].

    The loop is a coroutine: whenever it awaits, other coroutines may change the
    world, which is the record of the job and whatever they share ([others]).
    What a round awaits is a parameter: the answer of the planner's endpoint
    ([post]), saving the record ([save]) and running a child job
    ([submit_child], which is [_submit_dynamic_child] from its dispatch on).
    The body of the observation function is a parameter too.  The hooks that
    fire at the end, metrics and the task that runs this coroutine are not
    modelled. *)

From S2P Require Import Prelude PyFloat PyDict PyValue PyString PythonStep YamlParser YamlParserProps BatchRun FlowmeshClient FlowmeshFailProps.
From S2P Require Import DynamicSubgraph DynamicSubgraphProps DynamicForward DynamicPlan.

(** ** The record of a job *)

Inductive job_status := Pending | Running | Completed | Failed | Cancelled.
#[export] Instance job_status_eq_dec : EqDecision job_status.
Proof. solve_decision. Defined.

Definition status_text (s : job_status) : string :=
  match s with Pending => "pending" | Running => "running" | Completed => "completed" | Failed => "failed" | Cancelled => "cancelled" end.
(** [status in TERMINAL_JOB_STATUSES] *)
Definition terminal_status (s : job_status) : bool := match s with Completed | Failed | Cancelled => true | _ => false end.

Module ProgressStep.
Record t := mk {
completed : bool;
succeeded : nat;
failed : nat;
pending : nat;
dispatched : nat;
}.
End ProgressStep.

(** The plans and the results of the rounds *)
Abbreviation round_outputs := (list (dict string val) * list (dict string (list val)))%type.

Module JobRecord.
Record t := mk {
status : job_status;
started_at : option string;
finished_at : option string;
error : option string;
execution : option ProgressStep.t;
result : option round_outputs;
}.

Definition terminal (r : t) : bool := terminal_status (status r).
Definition start (now : string) (r : t) : t := mk Running (Some now) (finished_at r) (error r) (execution r) (result r).
Definition set_execution (p : ProgressStep.t) (r : t) : t := mk (status r) (started_at r) (finished_at r) (error r) (Some p) (result r).
Definition finish (s : job_status) (message now : string) (r : t) : t := mk s (started_at r) (Some now) (Some message) (execution r) (result r).
Definition complete (outputs : round_outputs) (now : string) (r : t) : t :=
mk Completed (started_at r) (Some now) (error r) (Some (ProgressStep.mk true (length outputs.1) 0 0 0)) (Some outputs).
End JobRecord.

(** ** Archived outputs *)

Definition strip_prefix (prefix name : string) : string := of_chars (drop (length (chars prefix)) (chars name)).

Definition note_output (expected_names : list string) (present : dict string val) (output : string * val) : result (dict string val) :=
  let '(name, values) := output in
  if bool_decide (name ∈ expected_names) then
    if dmem name present then protocol_error "output was returned by more than one graph" else Ok (dset name values present)
  else Ok present.

Definition note_graph (expected_names : list string) (present : dict string val) (graph_outputs : val) : result (dict string val) :=
  match graph_outputs with VDict d => foldR (note_output expected_names) present d | _ => Ok present end.

Definition archive_output (prefix : string) (present : dict string val) (archived : dict string (list string)) (name : string) : result (dict string (list string)) :=
  values ← ok_or (DriverProtocolError "round is missing expected output") (dget name present);
  l ← ok_or (DriverProtocolError "output must be a list of strings") (str_list values);
  Ok (dset (strip_prefix prefix name) l archived).

(** [_extract_archived_outputs] *)
Definition extract_archived_outputs (outputs : dict string val) (expected_names : list string) (prefix : string) : result (dict string (list string)) :=
  present ← foldR (note_graph expected_names) [] (dvals outputs);
  foldR (archive_output prefix present) [] expected_names.

(** [_flatten_leaf_outputs] *)
Definition decode_value (json_loads : string → option val) (value : string) : val := default (VStr value) (json_loads value).
Definition flatten_leaf_outputs (json_loads : string → option val) (leaf_outputs : dict string (list string)) : dict string (list val) :=
  (λ kv : string * list string, (kv.1, decode_value json_loads <$> kv.2)) <$> leaf_outputs.

(** ** The endpoint of the planner *)

Module DriverApi.
Record t := mk {
url : string;
model : option string;
authorization : option string;
timeout_sec : option f64;
retries : option nat;
}.
End DriverApi.

(** One request: it failed, it was answered with a content, or it raised
something that is not caught *)
Inductive posted :=
  | PostFailed (error : string)
  | PostContent (content : val)
  | PostRaised (e : exn).

Definition non_empty (s : option string) : option string := match s with Some s => if String.eqb s "" then None else Some s | None => None end.
(** [if chat_template_kwargs:] *)
Definition given_kwargs (v : val) : bool := match v with VDict (_ :: _) => true | _ => false end.

Definition planner_body (api : DriverApi.t) (p : Proposer.t) (system user : string) : dict string val :=
  [("model", VStr (default (Proposer.model p) (non_empty (DriverApi.model api))));
   ("messages", VList [VDict [("role", VStr "system"); ("content", VStr system)]; VDict [("role", VStr "user"); ("content", VStr user)]]);
   ("max_tokens", VInt (Proposer.max_tokens p)); ("temperature", VFloat (Proposer.temperature p))] ++
  (if given_kwargs (Proposer.chat_template_kwargs p) then [("chat_template_kwargs", Proposer.chat_template_kwargs p)] else []).

Definition planner_headers (api : DriverApi.t) : dict string string :=
  [("Content-Type", "application/json")] ++ match non_empty (DriverApi.authorization api) with Some a => [("Authorization", a)] | None => [] end.

Section planner.
Context {W : Type} (post : string → dict string val → dict string string → option f64 → W → posted * W).
Context (http_timeout : option f64).

(** [range(attempts)], with the error of the last attempt *)
Fixpoint post_attempts (attempts : nat) (url : string) (body : dict string val) (headers : dict string string) (timeout : option f64) (last_error : string) : call W string :=
match attempts with
| O => lift (protocol_error ("planner endpoint " +:+ url +:+ " failed: " +:+ last_error))
| S attempts => λ w,
    match post url body headers timeout w with
    | (PostContent (VStr content), w) => (Return content, w)
    | (PostContent _, w) => post_attempts attempts url body headers timeout "reply content is not a string" w
    | (PostFailed error, w) => post_attempts attempts url body headers timeout error w
    | (PostRaised e, w) => (Raise (Raised e), w)
    end
end.

(** [_call_api_planner] *)
Definition call_api_planner (api : DriverApi.t) (p : Proposer.t) (system user : string) : call W string :=
post_attempts (default 0 (DriverApi.retries api) + 1) (DriverApi.url api) (planner_body api p system user) (planner_headers api)
  (match DriverApi.timeout_sec api with Some t => Some t | None => http_timeout end) "".
End planner.

(** ** The state of a run *)

Module DynamicSpec.
Record t := mk {
goal : string;
library : dict string op_dict;
settings : Proposer.t;
max_rounds : nat;
max_nodes : Z;
threshold : option f64;
api : option DriverApi.t;
}.
End DynamicSpec.

Module Run.
Record t := mk {
node_registry : dict string op_dict;
observations : list string;
plans : list (dict string val);
round_results : list (dict string (list val));
all_results : dict string (list val);
current_subgraph : list op_dict;
current_export : list string;
}.
Definition start : t := mk [] [] [] [] [] [] [].
End Run.

(** How a child job ended *)
Inductive child_outcome :=
  | ChildTimeout (message : string)
  | ChildRefused
  | ChildRaised (e : exn)
  | ChildDone (child_job_id : string) (status : job_status) (outputs : option (dict string val)).

(** How a round ended *)
Inductive round_outcome :=
  | NextRound (run : Run.t)
  | Stopped (run : Run.t)
  | Settled.

(** [_admit_subgraph]: the registry with the ops of the plan *)
Definition register_op (registry : dict string op_dict) (op : op_dict) : result (dict string op_dict) :=
  op_id ← op_id_of op; Ok (dset op_id op registry).
Definition admit_subgraph (blake2b_2 : string → nat) (yaml_load : string → yaml_outcome) (ops : list op_dict) (export : list string)
  (node_registry : dict string op_dict) (max_nodes : Z) (library : dict string op_dict) (results : dict string (list val)) :
  result (list op_dict * dict string op_dict) :=
  _ ← validate_emitted_subgraph blake2b_2 yaml_load node_registry ops max_nodes library (Some export) (Some (dkeys results));
  resolved ← resolve_subgraph library ops;
  registry ← foldR register_op node_registry resolved;
  Ok (resolved, registry).

(** The ops the outputs of a round belong to, by the ids in the names *)
Definition note_config (registry : dict string op_dict) (prefix : string) (configs : dict string op_dict) (entry : string * string) : result (dict string op_dict) :=
  config ← dindex (KeyError entry.2) entry.2 registry; Ok (dset (strip_prefix prefix entry.1) config configs).
Definition internal_configs (registry : dict string op_dict) (b : RoundBuild.t) : result (dict string op_dict) :=
  configs ← foldR (note_config registry "leaf_") [] (zip (RoundBuild.leaf_output_names b) (RoundBuild.leaf_user_ids b));
  foldR (note_config registry "export_") configs (zip (RoundBuild.export_output_names b) (RoundBuild.export_user_ids b)).

(** Results by the ids later rounds refer to *)
Definition remember_result (json_loads : string → option val) (internal_to_user : dict string string) (results : dict string (list val))
  (entry : string * list string) : result (dict string (list val)) :=
  user ← dindex (KeyError entry.1) entry.1 internal_to_user;
  Ok (dset user (decode_value json_loads <$> entry.2) results).
Definition user_ids (prefix : string) (names users : list string) : dict string string :=
  dict_of (zip (strip_prefix prefix <$> names) users).

Section run.
Context (blake2b_2 : string → nat) (yaml_load : string → yaml_outcome).
Context (json_loads : string → option val) (json_dumps : val → string) (to_str : val → string).
Context (observation_lambda : string) (compute_observation : dict string (list string) → result string).
(** the world: what the coroutines share, and the record *)
Context {S : Type}.
Local Abbreviation world := (S * JobRecord.t)%type.
Context (now : S → string) (others : world → world) (save : call world ()).
Context (post : string → dict string val → dict string string → option f64 → world → posted * world) (http_timeout : option f64).
Context (submit_child : nat → dict string op_dict → dict string (list string) → dict string val → world → child_outcome * world).
Context (spec : DynamicSpec.t) (output_location : dict string val) (run_namespace : string) (rows : nat).

(** *** The record *)

(** [async with jobs_lock] *)
Definition await_lock : call world () := λ w, (Return (), others w).
Definition update_record (f : string → JobRecord.t → JobRecord.t) : call world () := λ w, (Return (), (w.1, f (now w.1) w.2)).
Definition is_terminal : call world bool := λ w, (Return (JobRecord.terminal w.2), w).

(** Change the record unless it is terminal, and save it; whether it was changed *)
Definition locked_update (f : string → JobRecord.t → JobRecord.t) : call world bool :=
_ ← await_lock;
done_ ← is_terminal;
if (done_ : bool) then mret false
else _ ← update_record f; _ ← save; mret true.

Definition settle (status : job_status) (message : string) : call world round_outcome :=
_ ← locked_update (λ now, JobRecord.finish status message now);
mret Settled.

(** [except (DriverProtocolError, ValueError) as exc] *)
Definition handled (message : exn → string) (m : call world round_outcome) : call world round_outcome := λ w,
match m w with
| (Raise (Raised ((DriverProtocolError _ | ValueError _ | ValidationError _) as e)), w) => settle Failed (message e) w
| r => r
end.

(** *** Plans *)

Definition ask_planner (api : DriverApi.t) (run : Run.t) (has_subgraph : bool) (round_observation : option string) : call world plan :=
messages ← lift (planner_messages to_str (DynamicSpec.goal spec) (Run.observations run) (dkeys (Run.node_registry run)) (DynamicSpec.threshold spec)
  (DynamicSpec.library spec) has_subgraph round_observation);
text ← call_api_planner post http_timeout api (DynamicSpec.settings spec) messages.1 messages.2;
lift (validate_plan_text json_loads text).

(** The run with the plan, and with its ops unless it stops *)
Definition add_plan (p : plan) (run : Run.t) : Run.t :=
Run.mk (Run.node_registry run) (Run.observations run) (Run.plans run ++ [plan_to_dict p]) (Run.round_results run) (Run.all_results run)
  (Run.current_subgraph run) (Run.current_export run).
Definition follow_plan (p : plan) (run : Run.t) : result round_outcome :=
match p with
| StopPlan => Ok (Stopped run)
| SubgraphPlan ops export =>
    admitted ← admit_subgraph blake2b_2 yaml_load ops export (Run.node_registry run) (DynamicSpec.max_nodes spec) (DynamicSpec.library spec) (Run.all_results run);
    Ok (NextRound (Run.mk admitted.2 (Run.observations run) (Run.plans run) (Run.round_results run) (Run.all_results run) admitted.1 export))
end.

Definition invalid_plan (i : nat) (e : exn) : string := "dynamic round " +:+ str_of_nat i +:+ " produced an invalid plan: " +:+ exn_text e.

(** Round 0 of a run with an endpoint: no graph, only the first plan *)
Definition first_plan (api : DriverApi.t) (run : Run.t) : call world round_outcome :=
handled (invalid_plan 0) (
  p ← ask_planner api run false None;
  lift (follow_plan p (add_plan p run))).

(** *** A round *)

(** What is kept of the outputs of a round *)
Definition observe_outputs (run : Run.t) (b : RoundBuild.t) (outputs : dict string val) : result (dict string (list string) * dict string (list string) * Run.t * string) :=
outputs ← result_outputs (VDict [("result", VDict [("outputs", VDict outputs)])]);
leaf_outputs ← extract_archived_outputs outputs (RoundBuild.leaf_output_names b) "leaf_";
export_outputs ← extract_archived_outputs outputs (RoundBuild.export_output_names b) "export_";
configs ← internal_configs (Run.node_registry run) b;
walked_leaves ← walk_archived_items json_loads json_dumps leaf_outputs configs;
observation ← compute_observation walked_leaves;
Ok (leaf_outputs, export_outputs,
  Run.mk (Run.node_registry run) (Run.observations run) (Run.plans run) (Run.round_results run ++ [flatten_leaf_outputs json_loads walked_leaves]) (Run.all_results run)
    (Run.current_subgraph run) (Run.current_export run), observation).

Definition next_plan (run : Run.t) (b : RoundBuild.t) (outputs : dict string val) (observation : string) : call world plan :=
match DynamicSpec.api spec with
| None => lift (validate_plan json_loads outputs)
| Some api => ask_planner api run (negb (bool_decide (Run.current_subgraph run = [])))
    (match RoundBuild.leaf_output_names b with [] => None | _ => Some observation end)
end.

Definition remember_results (run : Run.t) (b : RoundBuild.t) (leaf_outputs export_outputs : dict string (list string)) : result (dict string (list val)) :=
results ← foldR (remember_result json_loads (user_ids "leaf_" (RoundBuild.leaf_output_names b) (RoundBuild.leaf_user_ids b))) (Run.all_results run) leaf_outputs;
foldR (remember_result json_loads (user_ids "export_" (RoundBuild.export_output_names b) (RoundBuild.export_user_ids b))) results export_outputs.

Definition finish_round (i : nat) (run : Run.t) (b : RoundBuild.t) (outputs : dict string val) : call world round_outcome :=
handled (invalid_plan i) (
  '(leaf_outputs, export_outputs, run, observation) ← lift (observe_outputs run b outputs);
  p ← next_plan run b outputs observation;
  results ← lift (remember_results run b leaf_outputs export_outputs);
  lift (follow_plan p (Run.mk (Run.node_registry run) (Run.observations run ++ [observation]) (Run.plans run ++ [plan_to_dict p])
    (Run.round_results run) results (Run.current_subgraph run) (Run.current_export run)))).

Definition round_child (i : nat) : string := "dynamic round " +:+ str_of_nat i.
Definition child_failed (i : nat) (child_job_id : string) (status : job_status) : call world round_outcome :=
if decide (status = Cancelled) then settle Cancelled (round_child i +:+ " (" +:+ child_job_id +:+ ") was cancelled")
else settle Failed (round_child i +:+ " (" +:+ child_job_id +:+ ") terminated with status '" +:+ status_text status +:+ "'").

(** The child job of a round, and what follows from how it ended *)
Definition run_child (i : nat) (run : Run.t) (b : RoundBuild.t) (location : dict string val) : call world round_outcome := λ w,
match submit_child i (RoundBuild.graph b) (RoundBuild.forwarded_inputs b) location w with
| (ChildTimeout message, w) => settle Failed message w
| (ChildRefused, w) => (Return Settled, w)
| (ChildRaised e, w) => (Raise (Raised e), w)
| (ChildDone child_job_id status outputs, w) =>
    (_ ← await_lock;
     if decide (status ≠ Completed) then child_failed i child_job_id status
     else match outputs with
          | None => settle Failed (round_child i +:+ " produced no result")
          | Some outputs => finish_round i run b outputs
          end) w
end.

(** A round with a graph *)
Definition graph_round (i : nat) (run : Run.t) : call world round_outcome :=
match build_round blake2b_2 yaml_load json_loads json_dumps to_str observation_lambda (Run.current_subgraph run) (Run.node_registry run) i
    (DynamicSpec.goal spec) (Run.observations run) (dkeys (Run.node_registry run)) (DynamicSpec.settings spec) (DynamicSpec.threshold spec)
    (DynamicSpec.library spec) (Run.all_results run) (Run.current_export run) (match DynamicSpec.api spec with None => true | Some _ => false end) rows with
| Err ((DriverProtocolError _ | ValueError _ | ValidationError _) as e) => settle Failed (round_child i +:+ " failed to build: " +:+ exn_text e)
| Err e => lift (Err e)
| Ok b => location ← lift (round_output_location output_location run_namespace i); run_child i run b location
end.

(** *** The loop *)

Definition progress (i : nat) : ProgressStep.t := ProgressStep.mk false i 0 (DynamicSpec.max_rounds spec - i) 0.

(** Once the loop is left by [break] or by its condition *)
Definition complete (run : Run.t) : call world () :=
_ ← locked_update (λ now, JobRecord.complete (Run.plans run, Run.round_results run) now); mret ().

(** [while round_index < max_rounds], with the rounds that are left *)
Fixpoint rounds (fuel i : nat) (run : Run.t) : call world () :=
match fuel with
| O => complete run
| Datatypes.S fuel =>
    match DynamicSpec.api spec, i with
    | Some api, O =>
        outcome ← first_plan api run;
        match outcome with NextRound run => rounds fuel 1 run | Stopped run => complete run | Settled => mret () end
    | _, _ =>
        outcome ← graph_round i run;
        match outcome with
        | NextRound run =>
            going_on ← locked_update (λ _, JobRecord.set_execution (progress (Datatypes.S i)));
            if (going_on : bool) then rounds fuel (Datatypes.S i) run else mret ()
        | Stopped run => complete run
        | Settled => mret ()
        end
    end
end.

Definition failure_text (f : failure) : string :=
match f with Api e => APIError.message e | RequestCancelledError request_id => request_id | Raised e => exn_text e end.

Definition run_body : call world () :=
_ ← await_lock;
terminal_before_start ← is_terminal;
if (terminal_before_start : bool) then mret ()
else
  _ ← update_record JobRecord.start;
  _ ← save;
  _ ← await_lock;
  _ ← update_record (λ _, JobRecord.set_execution (progress 0));
  _ ← save;
  rounds (DynamicSpec.max_rounds spec) 0 Run.start.

(** [_run_dynamic_job]: any exception fails the job; saving it is best effort *)
Definition run_dynamic_job (w : world) : world :=
match run_body w with
| (Return _, w) => w
| (Raise f, w) => (locked_update (λ now, JobRecord.finish Failed ("dynamic run failed: " +:+ failure_text f) now) w).2
end.
End run.

(** * Properties *)

(** ** Plans and ops *)

Definition is_subgraph (p : dict string val) : Prop := dget "next" p = Some (VStr SUBGRAPH).

(** What an admitted plan adds to the registry *)
Lemma admitted_ops blake2b_2 yaml_load ops export registry max_nodes library results resolved registry' :
  admit_subgraph blake2b_2 yaml_load ops export registry max_nodes library results = Ok (resolved, registry') →
  resolve_subgraph library ops = Ok resolved ∧
  ∃ ids, registry' = registry ++ zip ids resolved ∧ NoDup ids ∧ (∀ i, i ∈ ids → i ∉ dkeys registry) ∧
    Forall2 (λ op i, dget "id" op = Some (VStr i)) resolved ids.
Proof.
  intros H. unfold admit_subgraph in H. apply result_bind_ok in H as ([] & Hv & H).
  apply result_bind_ok in H as (ops' & Hr & H). apply result_bind_ok in H as (reg & Hreg & [= -> ->]).
  unfold validate_emitted_subgraph in Hv. destruct (_ <? _)%Z; [done|]. destruct (bool_decide _); [done|].
  apply result_bind_ok in Hv as (ops'' & Hr' & Hv). rewrite Hr in Hr'. injection Hr' as <-. apply result_bind_ok in Hv as (types & Ht & _).
  apply validate_ops_ok in Ht as (ids & -> & Hnd & _ & Hall). split; [done|]. exists (dkeys ids).
  assert (Hids : Forall2 (λ op i, dget "id" op = Some (VStr i)) resolved (dkeys ids)).
  { apply Forall2_fmap_r. eapply Forall2_impl; [exact Hall|]. intros op it [Hid _ _ _]. exact Hid. }
  assert (Hnew : ∀ i, i ∈ dkeys ids → i ∉ dkeys registry).
  { intros i ([i' t] & -> & Hi)%list_elem_of_fmap. apply list_elem_of_lookup in Hi as [n Hn].
    destruct (Forall2_lookup_r _ _ _ _ _ Hall Hn) as (op & _ & [_ _ Hoa _]). apply Hoa. }
  split_and!; [|done|done|done]. clear -Hreg Hids Hnd Hnew. change (NoDup (dkeys ids)) in Hnd. revert Hids Hnd Hnew Hreg. generalize (dkeys ids). clear ids.
  intros ids Hids. revert registry. induction Hids as [|op i resolved ids Hop _ IH]; intros registry Hnd Hnew H.
  - injection H as <-. by rewrite app_nil_r.
  - rewrite foldR_cons in H. unfold register_op at 1, op_id_of at 1 in H. rewrite Hop in H. cbn [mbind result_bind] in H.
    apply NoDup_cons in Hnd as [Hi Hnd]. rewrite dset_new in H by (apply Hnew; left). apply IH in H; [|done|].
    + rewrite H. simpl. by rewrite <-app_assoc.
    + intros j Hj. unfold dkeys. rewrite fmap_app, elem_of_app. simpl. rewrite list_elem_of_singleton. intros [?| ->]; [|done].
      by apply (Hnew j); [right|].
Qed.

Lemma note_config_ok registry prefix entries configs configs' : foldR (note_config registry prefix) configs entries = Ok configs' →
  ∀ n u, (n, u) ∈ entries → u ∈ dkeys registry.
Proof.
  revert configs. induction entries as [|[n' u'] entries IH]; intros configs H n u Hin; [by apply elem_of_nil in Hin|].
  rewrite foldR_cons in H. unfold note_config in H at 1. cbn [fst snd] in H. unfold dindex in H. destruct (dget u' registry) eqn:E; [|done].
  cbn [mbind result_bind ok_or] in H. apply elem_of_cons in Hin as [[= -> ->]|Hin]; [|by eapply IH]. apply dget_is_Some. by eexists.
Qed.

Lemma remember_ok json_loads map entries results results' : foldR (remember_result json_loads map) results entries = Ok results' →
  ∀ u, u ∈ dkeys results' → u ∈ dkeys results ∨ u ∈ dvals map.
Proof.
  revert results. induction entries as [|[i vs] entries IH]; intros results H u Hu; [injection H as <-; by left|].
  rewrite foldR_cons in H. unfold remember_result in H at 1. cbn [fst snd] in H. unfold dindex in H. destruct (dget i map) as [user|] eqn:E; [|done].
  cbn [mbind result_bind ok_or] in H. destruct (IH _ H u Hu) as [Hin|?]; [|by right]. apply elem_of_dkeys_dset in Hin as [->|Hin]; [right|by left].
  apply dget_elem in E. apply list_elem_of_fmap. by exists (i, user).
Qed.

Lemma user_ids_ok prefix names users u : u ∈ dvals (user_ids prefix names users) → ∃ n, (n, u) ∈ zip names users.
Proof.
  unfold user_ids. intros ([k v] & -> & Hin%elem_of_dict_of)%list_elem_of_fmap. apply elem_of_lookup_zip_with in Hin as (n & a & b & [= -> ->] & Hn & Hu).
  apply list_lookup_fmap_Some in Hn as (m & _ & Hm). exists m. apply elem_of_lookup_zip_with. by exists n, m, b.
Qed.

(** ** The record while a run goes on *)

(** Other coroutines leave the record as it is, or fail or cancel a job that has
not ended.  The state they share then says so: [ended_by] reads from it the
record they left, if they ended the job. *)
Definition overtakes {S} (ended_by : S → option JobRecord.t) (w w' : S * JobRecord.t) : Prop :=
  (w'.2 = w.2 ∧ ended_by w'.1 = ended_by w.1) ∨
  (JobRecord.terminal w.2 = false ∧ JobRecord.terminal w'.2 = true ∧ JobRecord.status w'.2 ≠ Completed ∧ ended_by w'.1 = Some w'.2).

(** What a completed run answers: no more plans than rounds and no more results
than plans; every plan is a subgraph, except a last one that stops the run
before its rounds are used up. *)
Definition good_outputs (max_rounds : nat) (o : round_outputs) : Prop :=
  length o.1 ≤ max_rounds ∧ length o.2 ≤ length o.1 ∧
  ((Forall is_subgraph o.1 ∧ length o.1 = max_rounds) ∨ ∃ ps, o.1 = ps ++ [plan_to_dict StopPlan] ∧ Forall is_subgraph ps).
(** A job has no error before it ends, and none if it is completed. *)
Definition good (max_rounds : nat) (r : JobRecord.t) : Prop :=
  (JobRecord.terminal r = false → JobRecord.error r = None) ∧
  (JobRecord.status r = Completed → JobRecord.error r = None ∧ ∃ o, JobRecord.result r = Some o ∧ good_outputs max_rounds o).

(** Two records that ended alike; their progress may differ, because a run that
has begun notes its rounds without looking at the status. *)
Definition same_end (r r' : JobRecord.t) : Prop :=
  JobRecord.status r' = JobRecord.status r ∧ JobRecord.started_at r' = JobRecord.started_at r ∧ JobRecord.finished_at r' = JobRecord.finished_at r ∧
  JobRecord.error r' = JobRecord.error r ∧ JobRecord.result r' = JobRecord.result r.

(** The record is good, and if others ended the job it is ended as they left it. *)
Definition sound {S} (ended_by : S → option JobRecord.t) (max_rounds : nat) (w : S * JobRecord.t) : Prop :=
  good max_rounds w.2 ∧ ∀ r, ended_by w.1 = Some r → same_end r w.2 ∧ JobRecord.terminal r = true ∧ JobRecord.status r ≠ Completed.

Lemma overtakes_sound {S} (ended_by : S → option JobRecord.t) n w w' : overtakes ended_by w w' → sound ended_by n w → sound ended_by n w'.
Proof.
  intros [[H1 H2]|(_ & Ht & Hc & H)] [Hg He]; [split; [by rewrite H1|by rewrite H1, H2]|]. split; [split; [congruence|by intros ?]|].
  intros r Hr. rewrite H in Hr. by injection Hr as <-.
Qed.

Lemma overtakes_terminal {S} (ended_by : S → option JobRecord.t) w w' : overtakes ended_by w w' → JobRecord.terminal w.2 = true → w'.2 = w.2.
Proof. intros [[H _]|(H & _)] Ht; [done|congruence]. Qed.

(** A record that has not ended may be changed into a good one. *)
Lemma sound_update {S} (ended_by : S → option JobRecord.t) n s r r' : JobRecord.terminal r = false → sound ended_by n (s, r) → good n r' → sound ended_by n (s, r').
Proof.
  intros Ht [_ He] Hg. split; [done|]. intros x Hx. destruct (He x Hx) as ((E & _) & H2 & _). simpl in E. unfold JobRecord.terminal in Ht, H2. congruence.
Qed.

Lemma sound_execution {S} (ended_by : S → option JobRecord.t) n w p : sound ended_by n w → sound ended_by n (w.1, JobRecord.set_execution p w.2).
Proof. intros [Hg He]. split; [by destruct (w.2)|]. intros r Hr. destruct (He r Hr) as [H ?]. split; [|done]. by destruct (w.2). Qed.

Section triples.
Context {S : Type} (ended_by : S → option JobRecord.t) (max_rounds : nat).
Local Abbreviation world := (S * JobRecord.t)%type.

(** Whatever a step does, the world stays sound; if it returns, its value
and the record satisfy the postcondition. *)
Definition triple {A} (P : JobRecord.t → Prop) (m : call world A) (Q : A → JobRecord.t → Prop) : Prop :=
∀ w, sound ended_by max_rounds w → P w.2 → sound ended_by max_rounds (m w).2 ∧ match (m w).1 with Return a => Q a (m w).2.2 | Raise _ => True end.

Lemma triple_ret {A} (P : JobRecord.t → Prop) (a : A) (Q : A → JobRecord.t → Prop) : (∀ r, P r → Q a r) → triple P (mret a) Q.
Proof. intros H w Hg Hp. split; [done|by apply H]. Qed.

Lemma triple_lift {A} (P : JobRecord.t → Prop) (m : result A) (Q : A → JobRecord.t → Prop) : (∀ a r, m = Ok a → P r → Q a r) → triple P (lift m) Q.
Proof. intros H w Hg Hp. unfold lift. destruct m; split; try done. by apply H. Qed.

Lemma triple_bind {A B} P (m : call world A) (f : A → call world B) Q R : triple P m Q → (∀ a, triple (Q a) (f a) R) → triple P (m ≫= f) R.
Proof.
intros Hm Hf w Hg Hp. unfold mbind, call_bind. destruct (Hm w Hg Hp) as [H1 H2]. destruct (m w) as [[a|e] w']; [|done]. by apply Hf.
Qed.

Lemma triple_impl {A} (P P' : JobRecord.t → Prop) (m : call world A) (Q Q' : A → JobRecord.t → Prop) :
(∀ r, P' r → P r) → (∀ a r, Q a r → Q' a r) → triple P m Q → triple P' m Q'.
Proof. intros HP HQ H w Hg Hp. destruct (H w Hg (HP _ Hp)) as [H1 H2]. split; [done|]. destruct (m w) as [[a|e] w']; [by apply HQ|done]. Qed.

Lemma triple_pure {A} (φ : Prop) (m : call world A) (Q : A → JobRecord.t → Prop) : (φ → triple (λ _, True) m Q) → triple (λ _, φ) m Q.
Proof. intros H w Hg Hp. by apply H. Qed.

(** A step that lets others overtake *)
Lemma triple_await {A} (m : call world A) : (∀ w, overtakes ended_by w (m w).2) → triple (λ _, True) m (λ _ _, True).
Proof. intros H w Hg _. split; [by eapply overtakes_sound|by destruct (m w) as [[]]]. Qed.

Lemma triple_await_terminal {A} (m : call world A) : (∀ w, overtakes ended_by w (m w).2) →
triple (λ r, JobRecord.terminal r = true) m (λ _ r, JobRecord.terminal r = true).
Proof. intros H w Hg Ht. split; [by eapply overtakes_sound|]. rewrite (overtakes_terminal _ _ _ (H w) Ht). by destruct (m w) as [[]]. Qed.
End triples.

(** What the loop awaits: a child is refused only when the record has ended. *)
Class Cooperates {S} (ended_by : S → option JobRecord.t) (others : S * JobRecord.t → S * JobRecord.t) (save : call (S * JobRecord.t) ())
  (post : string → dict string val → dict string string → option f64 → S * JobRecord.t → posted * (S * JobRecord.t))
  (submit_child : nat → dict string op_dict → dict string (list string) → dict string val → S * JobRecord.t → child_outcome * (S * JobRecord.t)) : Prop := {
  co_others w : overtakes ended_by w (others w);
  co_save w : overtakes ended_by w (save w).2;
  co_post url body headers timeout w : overtakes ended_by w (post url body headers timeout w).2;
  co_child i graph inputs location w : overtakes ended_by w (submit_child i graph inputs location w).2;
  co_refused i graph inputs location w : (submit_child i graph inputs location w).1 = ChildRefused →
    JobRecord.terminal (submit_child i graph inputs location w).2.2 = true;
}.

(** ** The invariant of a run *)

(** Before round [i] *)
Record run_ok (i : nat) (run : Run.t) : Prop := {
  ro_plans : length (Run.plans run) = i ∧ Forall is_subgraph (Run.plans run);
  ro_results : length (Run.round_results run) ≤ i;
  ro_nodes : NoDup (dkeys (Run.node_registry run));
  ro_known : ∀ u, u ∈ dkeys (Run.all_results run) → u ∈ dkeys (Run.node_registry run);
  ro_current : ∀ op, op ∈ Run.current_subgraph run → ∃ id, dget "id" op = Some (VStr id) ∧ dget id (Run.node_registry run) = Some op;
}.
(** After a plan that stops *)
Definition run_stopped (i : nat) (run : Run.t) : Prop :=
  length (Run.plans run) = i ∧ length (Run.round_results run) ≤ i ∧ ∃ ps, Run.plans run = ps ++ [plan_to_dict StopPlan] ∧ Forall is_subgraph ps.

Definition outcome_ok (i : nat) (o : round_outcome) : Prop :=
  match o with
  | NextRound run' => run_ok (S i) run'
  | Stopped run' => run_stopped (S i) run'
  | Settled => True
  end.

Lemma run_start_ok : run_ok 0 Run.start.
Proof. split; simpl; try done; try lia; [apply NoDup_nil_2|by intros op ?%elem_of_nil]. Qed.

(** A run whose last plan was taken *)
Lemma follow_plan_ok blake2b_2 yaml_load spec i p plans run o : Run.plans run = plans ++ [plan_to_dict p] → length plans = i → Forall is_subgraph plans →
  length (Run.round_results run) ≤ S i → NoDup (dkeys (Run.node_registry run)) →
  (∀ u, u ∈ dkeys (Run.all_results run) → u ∈ dkeys (Run.node_registry run)) →
  follow_plan blake2b_2 yaml_load spec p run = Ok o → outcome_ok i o.
Proof.
  intros Hp Hl Hs Hr Hn Hk H. assert (Hlen : length (Run.plans run) = S i) by (rewrite Hp, length_app; simpl; lia).
  unfold follow_plan in H. destruct p as [|ops export]; [injection H as <-; split_and!; [done|done|by exists plans]|].
  apply result_bind_ok in H as ([resolved reg] & Ha & [= <-]). apply admitted_ops in Ha as (_ & ids & -> & Hnd & Hnew & Hids).
  pose proof (Forall2_length _ _ _ Hids) as Hlen2.
  assert (Hkeys : dkeys (Run.node_registry run ++ zip ids resolved) = dkeys (Run.node_registry run) ++ ids) by (unfold dkeys; rewrite fmap_app, fst_zip by lia; done).
  assert (Hnd' : NoDup (dkeys (Run.node_registry run ++ zip ids resolved))).
  { rewrite Hkeys. apply NoDup_app. split_and!; [done| |done]. intros x Hx Hi. by apply (Hnew x Hi). }
  split; cbn [Run.plans Run.round_results Run.node_registry Run.all_results Run.current_subgraph fst snd]; [|done|done| |].
  - split; [done|]. rewrite Hp. apply Forall_app. split; [done|]. by apply Forall_singleton.
  - intros u Hu%Hk. rewrite Hkeys. apply elem_of_app. by left.
  - intros op [n Hop]%list_elem_of_lookup. destruct (Forall2_lookup_l _ _ _ _ _ Hids Hop) as (id & Hid & Ho). exists id. split; [done|].
    apply elem_dget; [exact Hnd'|]. apply elem_of_app. right. apply elem_of_lookup_zip_with. by exists n, id, op.
Qed.

Lemma observe_outputs_ok json_loads json_dumps compute_observation run b outputs x : observe_outputs json_loads json_dumps compute_observation run b outputs = Ok x →
  (∀ u, u ∈ dvals (user_ids "leaf_" (RoundBuild.leaf_output_names b) (RoundBuild.leaf_user_ids b)) → u ∈ dkeys (Run.node_registry run)) ∧
  (∀ u, u ∈ dvals (user_ids "export_" (RoundBuild.export_output_names b) (RoundBuild.export_user_ids b)) → u ∈ dkeys (Run.node_registry run)) ∧
  ∃ results, x.1.2 = Run.mk (Run.node_registry run) (Run.observations run) (Run.plans run) (Run.round_results run ++ [results]) (Run.all_results run)
    (Run.current_subgraph run) (Run.current_export run).
Proof.
  intros H. unfold observe_outputs in H. inv_ok. cbn [fst snd]. unfold internal_configs in Ha2. apply result_bind_ok in Ha2 as (c & H1 & H2).
  split_and!; [..|by eexists]; intros u (n & Hn)%user_ids_ok; [by eapply note_config_ok in H1|by eapply note_config_ok in H2].
Qed.

(** The results later rounds may refer to belong to ops of the registry. *)
Lemma remembered_known json_loads run b leaf export (registry : dict string op_dict) results : remember_results json_loads run b leaf export = Ok results →
  (∀ u, u ∈ dvals (user_ids "leaf_" (RoundBuild.leaf_output_names b) (RoundBuild.leaf_user_ids b)) → u ∈ dkeys registry) →
  (∀ u, u ∈ dvals (user_ids "export_" (RoundBuild.export_output_names b) (RoundBuild.export_user_ids b)) → u ∈ dkeys registry) →
  (∀ u, u ∈ dkeys (Run.all_results run) → u ∈ dkeys registry) → ∀ u, u ∈ dkeys results → u ∈ dkeys registry.
Proof.
  intros Hres U1 U2 K u Hu. unfold remember_results in Hres. apply result_bind_ok in Hres as (r1 & H1 & H2).
  destruct (remember_ok _ _ _ _ _ H2 u Hu) as [Hu1|Hu1]; [|by apply U2]. destruct (remember_ok _ _ _ _ _ H1 u Hu1) as [Hu2|Hu2]; [by apply K|by apply U1].
Qed.

Section settled.
Context (blake2b_2 : string → nat) (yaml_load : string → yaml_outcome).
Context (json_loads : string → option val) (json_dumps : val → string) (to_str : val → string).
Context (observation_lambda : string) (compute_observation : dict string (list string) → result string).
Context {S : Type} (ended_by : S → option JobRecord.t).
Local Abbreviation world := (S * JobRecord.t)%type.
Context (now : S → string) (others : world → world) (save : call world ()).
Context (post : string → dict string val → dict string string → option f64 → world → posted * world) (http_timeout : option f64).
Context (submit_child : nat → dict string op_dict → dict string (list string) → dict string val → world → child_outcome * world).
Context `{!Cooperates ended_by others save post submit_child}.
Context (spec : DynamicSpec.t) (output_location : dict string val) (run_namespace : string) (rows : nat).
Local Abbreviation max_rounds := (DynamicSpec.max_rounds spec).
Local Abbreviation hoare := (triple ended_by max_rounds).
Local Abbreviation ended := (λ r : JobRecord.t, JobRecord.terminal r = true).
Local Abbreviation anything := (λ _ : JobRecord.t, True).

Lemma locked_update_ok f (Q : bool → JobRecord.t → Prop) :
(∀ r, ended r → Q false r) → (∀ n r, JobRecord.terminal r = false → good max_rounds r → good max_rounds (f n r)) →
(∀ n r r', (JobRecord.terminal (f n r) = true → r' = f n r) → Q true r') →
hoare anything (locked_update now others save f) Q.
Proof.
intros Hf Hgood Ht w Hg _. unfold locked_update, await_lock, is_terminal, update_record, mbind, call_bind, mret, call_ret. simpl.
pose proof (overtakes_sound _ _ _ _ (co_others w) Hg) as Ho. set (w1 := others w) in *. destruct (JobRecord.terminal w1.2) eqn:E; simpl.
- split; [done|by apply Hf].
- set (w2 := (w1.1, f (now w1.1) w1.2)). pose proof (co_save w2) as Hs.
  assert (Hw2 : sound ended_by max_rounds w2) by (apply (sound_update _ _ _ w1.2); [done|by destruct w1|apply Hgood; [done|apply Ho]]).
  pose proof (overtakes_sound _ _ _ _ Hs Hw2) as Hw3. destruct (save w2) as [[[]|e] w3]; [|done]. split; [done|].
  apply (Ht (now w1.1) w1.2). exact (overtakes_terminal _ _ _ Hs).
Qed.

Lemma settle_ok status message : terminal_status status = true → status ≠ Completed →
hoare anything (settle now others save status message) (λ o r, o = Settled ∧ ended r).
Proof.
intros Hs Hc. unfold settle. eapply triple_bind with (Q := λ _, ended).
- apply locked_update_ok; [done|intros n r _ _; split; intros E; by destruct status|]. intros n r r' Ho. rewrite Ho; done.
- intros b. by apply triple_ret.
Qed.

Lemma handled_ok message m (Q : round_outcome → JobRecord.t → Prop) : (∀ r, ended r → Q Settled r) →
hoare anything m Q → hoare anything (handled now others save message m) Q.
Proof.
intros HQ Hm w Hg _. destruct (Hm w Hg I) as [H1 H2]. unfold handled. destruct (m w) as [[o|f] w'] eqn:E; [done|]. cbn [fst snd] in H1.
assert (Hset : ∀ x, sound ended_by max_rounds (settle now others save Failed x w').2 ∧
  match (settle now others save Failed x w').1 with Return a => Q a (settle now others save Failed x w').2.2 | Raise _ => True end).
{ intros x. destruct (settle_ok Failed x eq_refl ltac:(done) w' H1 I) as [G1 G2]. split; [done|].
  destruct (settle _ _ _ _ _ _) as [[a|] ?]; [|done]. destruct G2 as [-> ?]. by apply HQ. }
by destruct f as [| |[]].
Qed.

Lemma call_planner_ok api p system user : hoare anything (call_api_planner post http_timeout api p system user) (λ _ _, True).
Proof.
unfold call_api_planner. generalize (default 0 (DriverApi.retries api) + 1) "". induction n as [|n IH]; intros last; [by apply triple_lift|].
intros w Hg _. simpl. match goal with |- context [post ?u ?b ?h ?t w] => pose proof (co_post u b h t w) as Hp; destruct (post u b h t w) as [o w'] end.
cbn [fst snd] in Hp. pose proof (overtakes_sound _ _ _ _ Hp Hg) as Hg'. destruct o as [e|[]|e]; try (by apply IH); by split.
Qed.

Lemma ask_planner_ok api run has_subgraph o : hoare anything (ask_planner json_loads to_str post http_timeout spec api run has_subgraph o) (λ _ _, True).
Proof.
unfold ask_planner. eapply triple_bind with (Q := λ _ _, True); [by apply triple_lift|]. intros messages.
eapply triple_bind with (Q := λ _ _, True); [apply call_planner_ok|]. intros text. by apply triple_lift.
Qed.

(** *** Rounds *)

Lemma first_plan_ok api run : run_ok 0 run →
hoare anything (first_plan blake2b_2 yaml_load json_loads to_str now others save post http_timeout spec api run)
  (λ o r, outcome_ok 0 o ∧ (o = Settled → ended r)).
Proof.
intros [[P1 P2] R N K _]. unfold first_plan. apply handled_ok; [done|]. eapply triple_bind with (Q := λ _ _, True); [apply ask_planner_ok|].
intros p. apply triple_lift. intros o r H _. split.
- by apply (follow_plan_ok _ _ _ 0 p (Run.plans run)) in H; [|done|done|done|simpl; lia|..].
- intros ->. unfold follow_plan in H. destruct p; [done|]. by apply result_bind_ok in H as (a & _ & [= ]).
Qed.

Lemma finish_round_ok i run b outputs : run_ok i run →
hoare anything (finish_round blake2b_2 yaml_load json_loads json_dumps to_str compute_observation now others save post http_timeout spec i run b outputs)
  (λ o r, outcome_ok i o ∧ (o = Settled → ended r)).
Proof.
intros [[P1 P2] R N K _]. unfold finish_round. apply handled_ok; [done|].
eapply triple_bind with (Q := λ x _, observe_outputs json_loads json_dumps compute_observation run b outputs = Ok x); [by apply triple_lift|].
intros [[[leaf export] run1] observation]. apply triple_pure. intros Hx. apply observe_outputs_ok in Hx as (U1 & U2 & rr & E). simpl in E. subst run1.
eapply triple_bind with (Q := λ _ _, True).
{ unfold next_plan. destruct (DynamicSpec.api spec) as [api|]; [apply ask_planner_ok|by apply triple_lift]. }
intros p. eapply triple_bind with (Q := λ results _, remember_results json_loads _ b leaf export = Ok results); [by apply triple_lift|].
intros results. apply triple_pure. intros Hres. apply triple_lift. intros o r H _.
split.
- apply (follow_plan_ok _ _ _ i p (Run.plans run)) in H; cbn [Run.plans Run.round_results Run.node_registry Run.all_results]; [done..| |done|].
  + rewrite length_app. simpl. lia.
  + by apply (remembered_known _ _ _ _ _ _ _ Hres).
- intros ->. unfold follow_plan in H. destruct p; [done|]. by apply result_bind_ok in H as (a & _ & [= ]).
Qed.

Lemma graph_round_ok i run : run_ok i run →
hoare anything (graph_round blake2b_2 yaml_load json_loads json_dumps to_str observation_lambda compute_observation now others save post http_timeout submit_child
  spec output_location run_namespace rows i run) (λ o r, outcome_ok i o ∧ (o = Settled → ended r)).
Proof.
intros Hrun. assert (Hsettle : ∀ status message, terminal_status status = true → status ≠ Completed →
  hoare anything (settle now others save status message) (λ o r, outcome_ok i o ∧ (o = Settled → ended r))).
{ intros status message H1 H2. apply (triple_impl _ _ anything _ _ (λ o r, o = Settled ∧ ended r)); [done| |by apply settle_ok]. intros o r [-> Hr]. by split. }
unfold graph_round. destruct (build_round _ _ _ _ _ _ _ _ _ _ _ _ _ _ _ _ _ _ _) as [b|e]; [|destruct e; first [by apply Hsettle|by apply triple_lift]].
eapply triple_bind with (Q := λ _ _, True); [by apply triple_lift|]. intros location w Hg _. unfold run_child.
pose proof (co_child i (RoundBuild.graph b) (RoundBuild.forwarded_inputs b) location w) as Hc.
pose proof (co_refused i (RoundBuild.graph b) (RoundBuild.forwarded_inputs b) location w) as Href.
destruct (submit_child i (RoundBuild.graph b) (RoundBuild.forwarded_inputs b) location w) as [o w']. cbn [fst snd] in Hc, Href.
pose proof (overtakes_sound _ _ _ _ Hc Hg) as Hg'. destruct o as [message| |e|id status outputs].
- by apply Hsettle.
- split; [done|]. split; [done|]. intros _. by apply Href.
- by split.
- clear Hc Href. revert w' Hg'. assert (Hafter : hoare anything (_ ← await_lock others;
     if decide (status ≠ Completed) then child_failed now others save i id status
     else match outputs with
          | None => settle now others save Failed (round_child i +:+ " produced no result")
          | Some outputs => finish_round blake2b_2 yaml_load json_loads json_dumps to_str compute_observation now others save post http_timeout spec i run b outputs
          end) (λ o r, outcome_ok i o ∧ (o = Settled → ended r))); [|intros w' Hg'; by apply Hafter].
  eapply triple_bind with (Q := λ _ _, True); [apply (triple_await _ _ (await_lock others)); exact (λ u, co_others u)|]. intros [].
  case_decide; [unfold child_failed; case_decide; by apply Hsettle|]. destruct outputs as [outputs|]; [by apply finish_round_ok|by apply Hsettle].
Qed.

(** *** The loop *)

Lemma complete_ok run : good_outputs max_rounds (Run.plans run, Run.round_results run) →
hoare anything (complete now others save run) (λ _, ended).
Proof.
intros Hgo. unfold complete. eapply triple_bind with (Q := λ _, ended); [|intros b; by apply triple_ret].
apply locked_update_ok; [done|intros n r Hr [He _]; split; [done|intros _; split; [by apply He|by eexists]]|]. intros n r r' Ho. by rewrite Ho.
Qed.

Lemma stopped_good i run : run_stopped i run → i ≤ max_rounds → good_outputs max_rounds (Run.plans run, Run.round_results run).
Proof. intros (H1 & H2 & H3) Hi. split_and!; simpl; [lia|lia|by right]. Qed.

Lemma finished_good run : run_ok max_rounds run → good_outputs max_rounds (Run.plans run, Run.round_results run).
Proof. intros [[H1 H2] H3 _ _ _]. split_and!; simpl; [lia|lia|by left]. Qed.

Lemma rounds_ok fuel i run : run_ok i run → i + fuel = max_rounds →
hoare anything (rounds blake2b_2 yaml_load json_loads json_dumps to_str observation_lambda compute_observation now others save post http_timeout submit_child
  spec output_location run_namespace rows fuel i run) (λ _, ended).
Proof.
revert i run. induction fuel as [|fuel IH]; intros i run Hrun Hi.
- apply complete_ok, finished_good. by replace max_rounds with i by lia.
- assert (Hnext : ∀ m, hoare anything m (λ o r, outcome_ok i o ∧ (o = Settled → ended r)) → ∀ k : Run.t → call world (),
    (∀ run', run_ok (Datatypes.S i) run' → hoare anything (k run') (λ _, ended)) →
    hoare anything (outcome ← m; match outcome with NextRound run => k run | Stopped run => complete now others save run | Settled => mret () end) (λ _, ended)).
  { intros m Hm k Hk. eapply triple_bind; [exact Hm|]. intros [run'|run'|].
    - apply (triple_impl _ _ (λ _, run_ok (Datatypes.S i) run') _ _ (λ _, ended)); [by intros r [? _]|done|]. apply triple_pure, Hk.
    - apply (triple_impl _ _ (λ _, run_stopped (Datatypes.S i) run') _ _ (λ _, ended)); [by intros r [? _]|done|]. apply triple_pure. intros Hs.
      apply complete_ok. eapply stopped_good; [done|lia].
    - apply triple_ret. intros r [_ Hr]. by apply Hr. }
  assert (Hgraph : ∀ m, hoare anything m (λ o r, outcome_ok i o ∧ (o = Settled → ended r)) →
    hoare anything (outcome ← m; match outcome with
      | NextRound run => going_on ← locked_update now others save (λ _, JobRecord.set_execution (progress spec (Datatypes.S i)));
          if (going_on : bool) then rounds blake2b_2 yaml_load json_loads json_dumps to_str observation_lambda compute_observation now others save post http_timeout
            submit_child spec output_location run_namespace rows fuel (Datatypes.S i) run else mret ()
      | Stopped run => complete now others save run | Settled => mret () end) (λ _, ended)).
  { intros m Hm. apply (Hnext m Hm). intros run' Hrun'. eapply triple_bind with (Q := λ (b : bool) r, b = false → ended r).
    - apply locked_update_ok; [done|intros n r Hr Hg; by destruct r|done].
    - intros [|]; [|apply triple_ret; auto]. apply (triple_impl _ _ anything _ _ (λ _, ended)); [done|done|]. apply IH; [done|lia]. }
  cbn [rounds]. destruct (DynamicSpec.api spec) as [api|]; [destruct i as [|i]|].
  + apply Hnext; [by apply first_plan_ok|]. intros run' Hrun'. apply IH; [done|lia].
  + by apply Hgraph, graph_round_ok.
  + by apply Hgraph, graph_round_ok.
Qed.

Lemma set_execution_ok p r : good max_rounds r → good max_rounds (JobRecord.set_execution p r).
Proof. by destruct r. Qed.

Lemma run_body_ok : hoare anything
(run_body blake2b_2 yaml_load json_loads json_dumps to_str observation_lambda compute_observation now others save post http_timeout submit_child
  spec output_location run_namespace rows) (λ _, ended).
Proof.
assert (Hrest : hoare anything (
  _ ← save; _ ← await_lock others; _ ← update_record now (λ _, JobRecord.set_execution (progress spec 0)); _ ← save;
  rounds blake2b_2 yaml_load json_loads json_dumps to_str observation_lambda compute_observation now others save post http_timeout submit_child
    spec output_location run_namespace rows max_rounds 0 Run.start) (λ _, ended)).
{ eapply triple_bind; [apply triple_await, co_save|]. intros []. eapply triple_bind; [apply (triple_await _ _ (await_lock others)); exact (λ u, co_others u)|]. intros [].
  eapply triple_bind with (Q := λ _ _, True); [intros u Hu _; split; [exact (sound_execution _ _ _ _ Hu)|exact I]|]. intros [].
  eapply triple_bind; [apply triple_await, co_save|]. intros []. apply rounds_ok; [apply run_start_ok|lia]. }
unfold run_body. eapply triple_bind; [apply (triple_await _ _ (await_lock others)); exact (λ u, co_others u)|]. intros [].
intros w Hg _. change ((is_terminal ≫= ?k) w) with (k (JobRecord.terminal w.2) w). cbv beta.
destruct (JobRecord.terminal w.2) eqn:E; [split; [exact Hg|exact E]|].
apply (Hrest (w.1, JobRecord.start (now w.1) w.2)); [|exact I].
apply (sound_update _ _ _ w.2); [exact E|by destruct w|]. split; [intros _; exact (proj1 (proj1 Hg) E)|intros Hc; discriminate Hc].
Qed.
End settled.

(** A record that is set to an end is at an end, whether or not it can be saved. *)
Lemma locked_update_ends {S} ended_by (now : S → string) others save post submit_child `{!Cooperates ended_by others save post submit_child} f w :
  (∀ n r, JobRecord.terminal (f n r) = true) → JobRecord.terminal (locked_update now others save f w).2.2 = true.
Proof.
  intros Hf. unfold locked_update, await_lock, is_terminal, update_record, mbind, call_bind, mret, call_ret. simpl.
  destruct (JobRecord.terminal (others w).2) eqn:E; [done|]. set (w2 := ((others w).1, f (now (others w).1) (others w).2)).
  pose proof (co_save w2) as Hs. assert (Hw : JobRecord.terminal w2.2 = true) by apply Hf.
  apply (overtakes_terminal _ _ _ Hs) in Hw as Hw3. destruct (save w2) as [[[]|e] w3]; simpl in *; by rewrite Hw3.
Qed.

(** C17: The job of a dynamic workflow ends, and once.  Whatever the planner
answers, however the child jobs end and whatever is raised on the way, the
record is in a terminal state when the coroutine ends.  A record that had ended
before is not touched.  If others fail or cancel the job while it runs, it ends as
they left it: its status, its times, its error and its result are theirs.  A
job that is completed was ended by nobody else, has no error, and holds a plan per
round: subgraphs, and a last one that stops or as many as there are rounds. *)
Theorem dynamic_run_settles blake2b_2 yaml_load json_loads json_dumps to_str observation_lambda compute_observation {S : Type} ended_by now others save post http_timeout
  submit_child `{!Cooperates (S := S) ended_by others save post submit_child} spec output_location run_namespace rows w :
  JobRecord.terminal w.2 = true ∨ (JobRecord.error w.2 = None ∧ ended_by w.1 = None) →
  let w' := run_dynamic_job blake2b_2 yaml_load json_loads json_dumps to_str observation_lambda compute_observation now others save post http_timeout
    submit_child spec output_location run_namespace rows w in
  JobRecord.terminal w'.2 = true ∧ (JobRecord.terminal w.2 = true → w'.2 = w.2) ∧
  (JobRecord.terminal w.2 = false → ∀ r, ended_by w'.1 = Some r → same_end r w'.2) ∧
  (JobRecord.terminal w.2 = false → JobRecord.status w'.2 = Completed →
    ended_by w'.1 = None ∧ JobRecord.error w'.2 = None ∧ ∃ outputs, JobRecord.result w'.2 = Some outputs ∧ good_outputs (DynamicSpec.max_rounds spec) outputs).
Proof.
  intros He w'. assert (Hdone : JobRecord.terminal w.2 = true → w'.2 = w.2).
  { intros Ht. unfold w', run_dynamic_job, run_body.
    change ((await_lock others ≫= ?k) w) with (k () (others w)). cbv beta.
    change ((is_terminal ≫= ?k) (others w)) with (k (JobRecord.terminal (others w).2) (others w)). cbv beta.
    rewrite (overtakes_terminal _ _ _ (co_others w) Ht), Ht. simpl. by apply (overtakes_terminal ended_by); [apply co_others|]. }
  destruct (JobRecord.terminal w.2) eqn:E; [rewrite (Hdone eq_refl); by split_and!|].
  assert (Hs : sound ended_by (DynamicSpec.max_rounds spec) w).
  { destruct He as [|[He Hn]]; [done|]. split; [split; [done|intros Hc; unfold JobRecord.terminal in E; by rewrite Hc in E]|by rewrite Hn]. }
  assert (Hw : sound ended_by (DynamicSpec.max_rounds spec) w' ∧ JobRecord.terminal w'.2 = true).
  { destruct (run_body_ok blake2b_2 yaml_load json_loads json_dumps to_str observation_lambda compute_observation ended_by now others save post http_timeout
      submit_child spec output_location run_namespace rows w Hs I) as [H1 H2].
    unfold w', run_dynamic_job. destruct (run_body _ _ _ _ _ _ _ _ _ _ _ _ _ _ _ _ _ w) as [[[]|f] w1]; [done|]. cbn [fst snd] in H1.
    split; [|by apply (locked_update_ends ended_by now others save post submit_child)].
    apply (locked_update_ok ended_by now others save post submit_child spec (λ now, JobRecord.finish Failed ("dynamic run failed: " +:+ failure_text f) now)
      (λ _ _, True) ltac:(done) ltac:(by intros n r _ ?) ltac:(done) w1 H1 I). }
  destruct Hw as [[[_ Hg] Hr] Ht]. split_and!; [done|done|intros _ r Er; by apply Hr|]. intros _ Hc. split; [|by apply Hg].
  destruct (ended_by w'.1) as [r|] eqn:Er; [|done]. destruct (Hr r eq_refl) as ((Hst & _) & _ & Hnc). congruence.
Qed.

(** ** What a round leaves *)

(** The last plan of a run gave it these ops: the plan is the last one, its ops as
resolved are those of the next round, and the registry has got them at its end,
under new ids. *)
Definition took_plan (library : dict string op_dict) (ops : list op_dict) (export : list string) (run run' : Run.t) : Prop :=
  Run.plans run' = Run.plans run ++ [plan_to_dict (SubgraphPlan ops export)] ∧ Run.current_export run' = export ∧
  resolve_subgraph library ops = Ok (Run.current_subgraph run') ∧
  ∃ ids, Forall2 (λ op id, dget "id" op = Some (VStr id)) (Run.current_subgraph run') ids ∧ NoDup ids ∧ (∀ id, id ∈ ids → id ∉ dkeys (Run.node_registry run)) ∧
    Run.node_registry run' = Run.node_registry run ++ zip ids (Run.current_subgraph run').

Lemma lift_returns {S A} (m : result A) (w w' : S) a : lift m w = (Return a, w') → m = Ok a ∧ w' = w.
Proof. unfold lift. by destruct m as [x|e]; intros [= -> ->]. Qed.

Lemma bind_returns {S A B} (m : call S A) (f : A → call S B) w w' b : (m ≫= f) w = (Return b, w') → ∃ a w1, m w = (Return a, w1) ∧ f a w1 = (Return b, w').
Proof. unfold mbind, call_bind. destruct (m w) as [[a|e] w1]; [|done]. intros H. by exists a, w1. Qed.

Lemma settle_returns {S} now others save status message (w w' : S * JobRecord.t) o : settle now others save status message w = (Return o, w') → o = Settled.
Proof. intros (b & w1 & _ & [= -> _])%bind_returns. done. Qed.

Lemma handled_next {S} now others save message (m : call (S * JobRecord.t) round_outcome) w run' w' :
  handled now others save message m w = (Return (NextRound run'), w') → m w = (Return (NextRound run'), w').
Proof. unfold handled. destruct (m w) as [[o|[| |[]]] w1]; try done; by intros [= ]%settle_returns. Qed.

Section adds.
Context (blake2b_2 : string → nat) (yaml_load : string → yaml_outcome).
Context (json_loads : string → option val) (json_dumps : val → string) (to_str : val → string).
Context (observation_lambda : string) (compute_observation : dict string (list string) → result string).
Context {S : Type}.
Local Abbreviation world := (S * JobRecord.t)%type.
Context (now : S → string) (others : world → world) (save : call world ()).
Context (post : string → dict string val → dict string string → option f64 → world → posted * world) (http_timeout : option f64).
Context (submit_child : nat → dict string op_dict → dict string (list string) → dict string val → world → child_outcome * world).
Context (spec : DynamicSpec.t) (output_location : dict string val) (run_namespace : string) (rows : nat).
Local Abbreviation graph_round := (graph_round blake2b_2 yaml_load json_loads json_dumps to_str observation_lambda compute_observation now others save post http_timeout
  submit_child spec output_location run_namespace rows).
Local Abbreviation observe := (observe_outputs json_loads json_dumps compute_observation).
Local Abbreviation next_plan := (next_plan json_loads to_str post http_timeout spec).

Lemma follow_plan_next p run run' : follow_plan blake2b_2 yaml_load spec p run = Ok (NextRound run') → ∃ ops export, p = SubgraphPlan ops export ∧
  Run.observations run' = Run.observations run ∧ Run.plans run' = Run.plans run ∧ Run.round_results run' = Run.round_results run ∧
  Run.all_results run' = Run.all_results run ∧
  (∀ run0, Run.plans run = Run.plans run0 ++ [plan_to_dict p] → Run.node_registry run = Run.node_registry run0 → took_plan (DynamicSpec.library spec) ops export run0 run').
Proof.
intros H. unfold follow_plan in H. destruct p as [|ops export]; [done|]. apply result_bind_ok in H as ([resolved reg] & Ha & [= <-]).
apply admitted_ops in Ha as (Hr & ids & -> & Hnd & Hnew & Hids). exists ops, export. split_and!; [done..|]. intros run0 Hp Hreg.
split_and!; [done|done|exact Hr|]. exists ids. rewrite <-Hreg. by split_and!.
Qed.

(** What a round that leads to the next one did *)
Lemma graph_round_next i run run' w w' : graph_round i run w = (Return (NextRound run'), w') →
∃ b location child_job_id outputs w1 leaves exports observed observation p w3,
  submit_child i (RoundBuild.graph b) (RoundBuild.forwarded_inputs b) location w = (ChildDone child_job_id Completed (Some outputs), w1) ∧
  observe run b outputs = Ok (leaves, exports, observed, observation) ∧
  next_plan observed b outputs observation (others w1) = (Return p, w3) ∧
  ∃ results, remember_results json_loads observed b leaves exports = Ok results ∧
  follow_plan blake2b_2 yaml_load spec p (Run.mk (Run.node_registry observed) (Run.observations observed ++ [observation]) (Run.plans observed ++ [plan_to_dict p])
    (Run.round_results observed) results (Run.current_subgraph observed) (Run.current_export observed)) = Ok (NextRound run').
Proof.
intros H. unfold DynamicRun.graph_round in H. destruct (build_round _ _ _ _ _ _ _ _ _ _ _ _ _ _ _ _ _ _ _) as [b|e]; [|by destruct e; first [apply settle_returns in H|discriminate H]].
apply bind_returns in H as (location & w0 & Hl & H). apply lift_returns in Hl as [_ ->]. unfold run_child in H.
destruct (submit_child _ _ _ _ w) as [[message| |e|child_job_id status outputs] w1] eqn:Hc; [by apply settle_returns in H|done|done|].
apply bind_returns in H as ([] & w2 & [= <-] & H). case_decide as Hs; [unfold child_failed in H; case_decide; by apply settle_returns in H|].
destruct outputs as [outputs|]; [|by apply settle_returns in H]. apply handled_next in H. destruct (decide (status = Completed)) as [->|]; [|done].
apply bind_returns in H as ([[[leaves exports] observed] observation] & w3 & Ho & H). apply lift_returns in Ho as [Ho ->].
apply bind_returns in H as (p & w4 & Hp & H). apply bind_returns in H as (results & w5 & Hr & H). apply lift_returns in Hr as [Hr ->].
apply lift_returns in H as [H _]. exists b, location, child_job_id, outputs, w1, leaves, exports, observed, observation, p, w4. by split_and!; [..|exists results].
Qed.
End adds.

(** C18: A round only adds.  When a round leads to the next one, its child job was
completed, the planner was asked after the outputs were observed and answered with
a subgraph, and that plan is added after the earlier plans, unchanged; the ops of
the plan, resolved against the library, are the subgraph of the next round, and they
are what is added at the end of the registry, under the ids they declare, which are
new and distinct.  The observation and the results of the round are added
after the earlier ones; the results that later rounds may refer to belong to ops of
the registry. *)
Theorem rounds_only_add blake2b_2 yaml_load json_loads json_dumps to_str observation_lambda compute_observation {S : Type} now others save post http_timeout
  submit_child spec output_location run_namespace rows i run run' (w w' : S * JobRecord.t) :
  run_ok i run →
  graph_round blake2b_2 yaml_load json_loads json_dumps to_str observation_lambda compute_observation now others save post http_timeout
    submit_child spec output_location run_namespace rows i run w = (Return (NextRound run'), w') →
  run_ok (Datatypes.S i) run' ∧
  ∃ b location child_job_id outputs w1 leaves exports observed observation ops export w3,
    submit_child i (RoundBuild.graph b) (RoundBuild.forwarded_inputs b) location w = (ChildDone child_job_id Completed (Some outputs), w1) ∧
    observe_outputs json_loads json_dumps compute_observation run b outputs = Ok (leaves, exports, observed, observation) ∧
    next_plan json_loads to_str post http_timeout spec observed b outputs observation (others w1) = (Return (SubgraphPlan ops export), w3) ∧
    took_plan (DynamicSpec.library spec) ops export run run' ∧
    Run.observations run' = Run.observations run ++ [observation] ∧
    ∃ results, Run.round_results run' = Run.round_results run ++ [results].
Proof.
  intros Hrun (b & location & child & outputs & w1 & leaves & exports & observed & observation & p & w3 & Hc & Ho & Hp & results & Hres & Hf)%graph_round_next.
  destruct (observe_outputs_ok _ _ _ _ _ _ _ Ho) as (U1 & U2 & rr & E). simpl in E. subst observed.
  destruct (follow_plan_next _ _ _ _ _ _ Hf) as (ops & export & -> & O1 & O2 & O3 & O4 & O5). destruct Hrun as [[P1 P2] R N K _]. split.
  - apply (follow_plan_ok _ _ _ i (SubgraphPlan ops export) (Run.plans run)) in Hf; [done..|simpl; rewrite length_app; simpl; lia|done|].
    by apply (remembered_known _ _ b leaves exports _ _ Hres).
  - exists b, location, child, outputs, w1, leaves, exports. eexists _, observation, ops, export, w3. split_and!; [done..|by apply O5|done|by exists rr].
Qed.

(** ** A run of one round and its stop *)

Definition quiet_save : call (() * JobRecord.t) () := λ w, (Return (), w).
Definition no_post (_ : string) (_ : dict string val) (_ : dict string string) (_ : option f64) (w : () * JobRecord.t) : posted * (() * JobRecord.t) := (PostFailed "no endpoint", w).
(** A child whose graph answers a plan *)
Definition planning_child (text : string) (i : nat) (_ : dict string op_dict) (_ : dict string (list string)) (_ : dict string val) (w : () * JobRecord.t) :
  child_outcome * (() * JobRecord.t) :=
  (ChildDone "child" Completed (Some [("round", VDict [("plan", VList [VStr text])])]), w).

#[export] Instance quiet_cooperates text : Cooperates (λ _, None) (λ w, w) quiet_save no_post (planning_child text).
Proof. split; intros; first [by left|done]. Qed.

Definition plan_loads (s : string) : option val :=
  if String.eqb s "stop" then Some (VDict [("next", VStr STOP)])
  else if String.eqb s "sector" then Some (VDict [("next", VStr SUBGRAPH); ("ops", VList [VDict (chat_op "sector" "Symbols" [INPUT_NODE_ID])]); ("export", VList [])])
  else None.
Definition small_settings : Proposer.t := Proposer.mk "m" 64 fzero VNone VNone VNone VNone VNone.
Definition two_rounds : DynamicSpec.t := DynamicSpec.mk "find peers" [] small_settings 2 8 None None.
Definition submitted_record : JobRecord.t := JobRecord.mk Pending None None None None None.
Definition demo_run (text : string) : () * JobRecord.t :=
  run_dynamic_job digest_length no_yaml plan_loads (λ _, "") (λ _, "") "def observe(): pass" (λ _, Ok "nothing") (λ _, "now") (λ w, w) quiet_save no_post None
    (planning_child text) two_rounds demo_base "run-1" 1 ((), submitted_record).

Example stopped_run : JobRecord.result (demo_run "stop").2 = Some ([[("next", VStr STOP)]], [[]]).
Proof. vm_compute. reflexivity. Qed.
(** The second round runs the op of the first plan, but its child answers no
output for it. *)
Example missing_output : JobRecord.error (demo_run "sector").2 =
  Some "dynamic round 1 produced an invalid plan: round is missing expected output".
Proof. vm_compute. reflexivity. Qed.

(** While the first round runs, the user cancels the job, which is noted in the
shared state; its child goes down with it. *)
Definition cancelled_record : JobRecord.t := JobRecord.mk Cancelled None (Some "later") (Some "cancelled by the user") None None.
Definition cancel_while {A} (a : A) (w : option JobRecord.t * JobRecord.t) : A * (option JobRecord.t * JobRecord.t) :=
  (a, if JobRecord.terminal w.2 then w else (Some cancelled_record, cancelled_record)).
Definition cancelled_child (i : nat) (_ : dict string op_dict) (_ : dict string (list string)) (_ : dict string val) (w : option JobRecord.t * JobRecord.t) :
  child_outcome * (option JobRecord.t * JobRecord.t) := cancel_while (ChildDone "child" Failed None) w.
#[export] Instance cancelling_cooperates : Cooperates (λ s, s) (λ w, w) (λ w, (Return (), w)) (λ _ _ _ _ w, (PostFailed "", w)) cancelled_child.
Proof.
  split; intros; try (by left); try done. unfold cancelled_child, cancel_while. simpl. destruct (JobRecord.terminal w.2) eqn:E; [by left|by right].
Qed.
Definition cancelled_run : option JobRecord.t * JobRecord.t :=
  run_dynamic_job digest_length no_yaml plan_loads (λ _, "") (λ _, "") "def observe(): pass" (λ _, Ok "nothing") (λ _, "now") (λ w, w) (λ w, (Return (), w))
    (λ _ _ _ _ w, (PostFailed "", w)) None cancelled_child two_rounds demo_base "run-1" 1 (None, submitted_record).

Lemma dynamic_run_settles_witness : cancelled_run.1 = Some cancelled_record ∧ same_end cancelled_record cancelled_run.2.
Proof.
  split; [vm_compute; reflexivity|].
  apply (dynamic_run_settles digest_length no_yaml plan_loads (λ _, "") (λ _, "") "def observe(): pass" (λ _, Ok "nothing") (λ s, s) (λ _, "now") (λ w, w)
    (λ w, (Return (), w)) (λ _ _ _ _ w, (PostFailed "", w)) None cancelled_child two_rounds demo_base "run-1" 1 (None, submitted_record)).
  - right. split; reflexivity.
  - reflexivity.
  - vm_compute. reflexivity.
Defined.

Lemma rounds_only_add_witness : ∃ run' w',
  graph_round digest_length no_yaml plan_loads (λ _, "") (λ _, "") "def observe(): pass" (λ _, Ok "nothing") (λ _, "now") (λ w, w) quiet_save no_post None
    (planning_child "sector") two_rounds demo_base "run-1" 1 0 Run.start ((), submitted_record) = (Return (NextRound run'), w') ∧ run_ok 1 run'.
Proof.
  destruct (graph_round digest_length no_yaml plan_loads (λ _, "") (λ _, "") "def observe(): pass" (λ _, Ok "nothing") (λ _, "now") (λ w, w) quiet_save no_post None
    (planning_child "sector") two_rounds demo_base "run-1" 1 0 Run.start ((), submitted_record)) as [[[run'|run'|]|f] w'] eqn:E;
    [|vm_compute in E; discriminate E..]. exists run', w'. split; [reflexivity|].
  apply (rounds_only_add digest_length no_yaml plan_loads (λ _, "") (λ _, "") "def observe(): pass" (λ _, Ok "nothing") (λ _, "now") (λ w, w) quiet_save no_post None
    (planning_child "sector") two_rounds demo_base "run-1" 1 0 Run.start run' ((), submitted_record) w'); [exact run_start_ok|exact E].
Defined.
